(* ===== verification/_CoqProject ===== *)
-Q . S2P
Prelude.v
Bitmap.v
Paging.v
Pmm.v
Vmm.v
Pages.v
Heap.v
Alloc.v
Pool.v
UserMem.v
Ramfs.v
Vfs.v
PageCache.v
Fd.v
Sched.v
SchedInv.v
SchedRun.v
SchedNew.v
SchedSteps.v
SchedThms.v
SchedCheck.v
Chains.v
Bytes.v
Klib.v
KlibThms.v
KlibStr.v
Format.v
FormatThms.v
Tty.v
TtyThms.v
Font.v
Screen.v
ScreenThms.v
ScreenCheck.v
Kbd.v
Console.v
ConsoleThms.v
PtyThms.v
ConsoleCheck.v
Elf.v
ElfThms.v
ElfArgs.v
ElfLoad.v
ElfCheck.v
Kmod.v
KmodLink.v
KmodThms.v
KmodCheck.v
Block.v
Fat.v
FatInv.v
FatChain.v
FatFile.v
FatDir.v
FatName.v
FatAdd.v
FatLook.v
FatCheck.v
BlockThms.v
BlockCheck.v
NetBase.v
Net.v
Tcp.v
Rx.v
Local.v
SockSys.v
NetInv.v
NetIp.v
NetSock.v
SockThms.v
LocalConn.v
LocalInv.v
LocalThms.v
LocalFlow.v
TcpThms.v
Handshake.v
Udp.v
NetCheck.v
LocalCheck.v
