(* ===== verification/Prelude.v ===== *)
(** * A verification development of the Sirius_Education kernel

    Sirius_Education is a teaching operating system for x86_64 written in C.
    The development models the parts of the kernel that keep its memory, its
    files, its threads, its terminals and its network connections, and proves
    what each part promises to the one above it.

    ** The parts and how they are modelled

    - [Paging]: [kernel/arch/x86_64/mm/paging.c] and
      [paging_map_region_bitmap.c], the boot-time page tables.  Physical memory
      is a function from frames and word indices to 64-bit words, a table entry
      is a word with the bit fields of [paging.h], and [mmu_walk] is the
      processor's four-level walk, against which every routine that touches
      page tables is specified.
    - [Bitmap]: the bit arrays three components share.
    - [Pmm]: [kernel/kernel/mm/pmm.c], frames as bits of an array of bytes.
      While [pmm_init] places the bitmap its bytes are those of physical memory
      behind the mapping that [Paging] makes ([on_ram]), so that it can be seen
      where it lies; for the operations after it they are a list.
    - [Vmm]: [vmm.c] and [vmm_scratch_window.c].  Tables outside the kernel
      image are reached through scratch windows, entries of one page table:
      a pointer ([tptr]) is null, a static table or a window, and what a window
      shows is read from memory at every access, so that remapping a window
      under a live pointer has the effect it has in the program.
    - [Pages]: the class [PageSource], what the allocators ask of the two
      managers, with [Pmm] and [Vmm] as its instance, and devices.
    - [Heap]: [heap.c], the best-fit allocator, over any [PageSource].
    - [Pool]: [pool.c] and [mm/shm.c], page buffers in a virtual window.
    - [UserMem]: [brk.c], [ipc/shm.c], [process_ipc_clean.c].
    - [Ramfs]: [ramfs.c]; nodes live in a store keyed by address, so aliasing
      is that of the program.
    - [Vfs]: paths, mounts, registration and dispatch of [vfs.c].
    - [PageCache]: the cached [vfs_read], [vfs_write], [vfs_flush] and
      [vfs_close] of [vfs.c], over any driver that satisfies [DriverLaws].
    - [Fd]: descriptor tables and open files ([syscall.c], [vfs_dup2.c],
      [clone.c], [process.c]); the table of a child that could not be made is
      freed with its references, and the runs keep account of those.
    - [Sched]: threads, processes and run queues ([scheduler.c], [thread.c],
      [wait.c], [wakeup.c], [clone.c], [fork.c], the process list of
      [process.c], [cpu.c], and [sys_waitpid] and [sys_kill] of [syscall.c]).
      A thread's code is not modelled: what it can do to the scheduler is an
      event of [SchedSteps.event], performed on a CPU, and a run is a list of
      events.  [SchedInv] holds the invariant of the queues and its
      preservation by each operation, [SchedRun] the state between events with
      sleeping, waking and exiting, [SchedNew] new threads and processes,
      [SchedSteps] the events, [SchedThms] the theorems over their runs,
      [SchedCheck] the witnesses.  A fork or clone is an event when the child is
      bound to the CPU of its parent, in whose queue the program puts it, and
      has memory of its own: the others break the invariant
      ([SchedCheck.clone_on_two_cpus], [SchedCheck.clone_vm_cycle]).
    - [NetBase], [Net], [Tcp], [Rx]: the network stack of [kernel/kernel/net]:
      byte order, checksums and ring buffers; ARP, Ethernet, IPv4 and ICMP;
      UDP, DHCP, TCP, the list of bound sockets and the internet sockets; the
      receive queue, raw sockets and link events.  A packet is a list of bytes
      and every field access is a load at its offset that stops outside the
      packet.  The card's driver is a parameter ([driver], its result for a
      frame after the frames before), as are the bytes of uninitialised
      buffers ([junk], [stale]); [wire] is what has been given to the driver.
      An operation that has to sleep ends with [None]: the lock is given back
      by [wait] and the loop around it is entered again after a wake-up, so
      what happens in between is another operation on the state.
    - [NetInv], [NetIp], [NetSock]: the invariants and lemmas of the ARP cache,
      of a host that sends and receives packets, and of the socket list;
      [SockThms], [TcpThms], [Handshake], [Udp]: binding and closing, streams,
      connection set-up and datagrams, the last three between two hosts whose
      frames are delivered to each other; [NetCheck]: concrete hosts, the
      witnesses and the situations behind the findings.  [Chains]: singly
      linked lists in a store, which the stack and the local sockets share.
    - [Local], [SockSys]: the local sockets of [af_local.c], and of [socket.c]
      the dispatch by family, a socket as a file and the system calls on
      descriptors.  [LocalConn] is the invariant of the connections alone
      (states, peers, queues), [LocalInv] what each operation does to the
      store, [LocalThms] the operations of several threads as a step relation
      with its invariant, [LocalFlow] data, set-up and close, [LocalCheck] the
      witnesses and the situations behind the findings.

    - [Bytes]: little-endian fields of byte buffers, for all that follow.
    - [Klib], [KlibThms], [KlibStr]: [string.c], [sse_memcpy.c] and
      [sse_memset.c] of [kernel/lib].  Memory is a range of bytes at an
      address, an asm block is the sequence of its instructions on vector
      registers, with the fault of a misaligned operand.
    - [Format], [FormatThms]: [kprintf.c], the conversion of numbers and
      [kvsnprintf], against numerals and texts defined apart from the code
      ([numeral], [conversion_text]).
    - [Tty], [TtyThms]: the queues and the line discipline of
      [drivers/tty/tty.c].  [Font], [Screen], [ScreenThms], [ScreenCheck]: its
      video part, with [tty_flush_to_screen] of [drivers/video/console.c]; the
      abstract screen is a grid of characters.  [Kbd]: [keyboard.c] and the
      translation of scan codes in [vfs_tty_kbd.c].
    - [Console]: the device nodes of [vfs_tty.c] and [vfs_pty.c] and one turn of
      each of the two threads that serve them, over the four files above and
      [Ramfs]; [ConsoleThms] the emulator thread, [PtyThms] the
      pseudo-terminals and the way of a typed line, [ConsoleCheck] the witnesses.
    - [Elf]: [elf_parse_and_map] of [process.c] over [Vmm]; [ElfThms] pages and
      segments, [ElfArgs] the arguments on the stack, [ElfLoad] the whole,
      [ElfCheck] the properties.
    - [Alloc]: the interface of [kmalloc] and [kfree] to their users, with the
      heap of [Heap] as its instance.  [Kmod]: the loader of kernel modules,
      the list of modules and the exported symbols ([kernel/kmods]) over it;
      [KmodLink] sections and relocations, [KmodThms] loading, unloading and the
      list, [KmodCheck] the properties on a small module file.
    - [Block], [BlockThms], [BlockCheck]: [block.c], [partitions.c] and the
      search for the boot partition.  [Fat]: [fat32.c] over any block device
      that satisfies [BlockLaws]; [FatInv] volumes and the table, [FatChain]
      chains, [FatFile] data, [FatDir], [FatName] and [FatAdd] directories,
      [FatLook] the search for a name against the format of a directory on the
      disk ([dir_items]), [FatCheck] a concrete volume.

    ** Conventions

    Every operation is a computation in the monad [M] of this file: a state is
    passed explicitly, and the result is a value with the new state or the
    reason the machine stops ([stop]: an access outside an object, a null or
    dangling pointer, one of the kernel's endless loops, a spinlock taken
    twice, a bounded traversal that ran out).  [wp m Q s] says that [m]
    finishes in [s] with a value and a state that satisfy [Q]; a theorem
    stated with [wp] is therefore also a proof that the code returns and never
    leaves its objects.  Machine integers are [Z] with the wrap-around written
    where the C type forces one.  A spinlock is a boolean: acquiring a held
    one stops with [Deadlock], so that [wp] also says no path takes a lock
    twice or forgets to give it back when the postcondition asks for it.
    Loops with a bound known on entry are [for_] and [loop]; the traversals of
    linked lists take the number of nodes as fuel, which their theorems show
    to be enough.  Log output has no effect on the modelled state and is left
    out, and so are TLB invalidations, as the walk reads memory directly.

    ** What the theorems show

    - Address spaces: after boot the processor reaches the first megabyte, the
      kernel and the framebuffer where the memory map says; mapping and
      unmapping change one page and no other; the two translation queries
      agree with the processor; a new address space shares the kernel half.
    - Allocators: the frame allocator refines a sorted list of free frames and
      is first-fit for runs, the heap invariant (a tiling by blocks, coalesced,
      mapped) is kept by every operation, allocations are disjoint, aligned
      and best-fit, failure is reported with nothing changed, freeing undoes
      allocating.
    - Processes: the break, shared segments with exact reference counts.
    - Files: path resolution is a fold of lookups crossing mounts, creation
      and removal keep the tree well formed, a read returns the bytes last
      written through any mixture of cache pages and direct transfers, closing
      loses nothing, the reference count of an open file is that of its
      descriptors over every interleaving of processes, but for the clones that
      fail too late.
    - Threads: over every run of events no thread is in two queues or on two
      CPUs, the queues of a CPU are well linked and hold its own threads, and
      no operation stops; a CPU whose threads stay ready runs each of them
      once per round; a switch, an exit, a wake-up and a signal do exactly what
      their callers expect; the process list refines a list of identifiers.
    - Memory and text: the vector copies and fills leave the memory that the
      loops of [string.c] leave; [kvsnprintf] stays inside its buffer on any
      format and writes the text the format stands for.
    - Terminals: the queues refine bounded streams of lines; the pixels are
      those of a grid of characters with wrap and wipe; what is typed is what
      the program behind a pseudo-terminal reads; a pair is two bounded
      streams; a turn of the emulator prints every queue and shows the active
      screen.
    - Programs: after the loader every byte the program headers describe reads
      through the new address space as the file has it, or as zero, and the
      arguments decode from the stack.
    - Kernel modules: the sections of a loaded module are the bytes of its file
      with the values of the relocations in their places, and unloading gives
      back the memory of the module and no other.
    - Disks: a transfer to a partition never leaves it; a file's bytes, the
      chains, long names and directories of a volume behave as the tables that
      describe them, through the page cache as well.
    - Network: a packet sent to a resolved address arrives as the same payload
      at the protocol it was sent to; a packet that waited for an address
      leaves when the answer comes; a connection set up by the handshake is a
      pair of sockets that agree on their sequence numbers, and on such a pair
      any sequence of writes is read as the same bytes in the same order, each
      acknowledged by a frame with its number;
      datagrams are read one by one with their sender; an address is bound to
      one socket; the receive queue is first-in first-out.
    - Local sockets: over every run of operations of several threads a peer is
      an open socket that points back and a waiting client is in exactly one
      queue; what one peer writes the other reads, in order; connect and
      accept join a pair; a close is seen by the peer and by waiting clients.
    Where the code departs from what it is meant to do, a lemma at the end of
    the file shows the departure on a concrete input ("outside the theorems'
    conditions").

    ** Abstractions

    The file systems allocate their nodes with [kmalloc]; [Ramfs], [Vfs],
    [PageCache] and [Fd] use a counter of fresh addresses and of remaining
    allocations in its place, which is what the heap's theorems give a client:
    non-null, disjoint blocks, or null when memory is out.  The single-threaded
    composition of each operation is modelled; interleavings of whole
    operations of several processes are in [Fd] and of several CPUs in
    [SchedSteps].  The traversals of the process list and of the sockets take
    the number of objects as fuel, the search for a child or a port its range;
    the theorems that use them show a list is never longer.  A FAT chain takes
    the number of its table's entries as fuel ([chain_fuel]), which a chain
    without a circle cannot exceed and at which the freeing of a circle stops;
    a search for directory space twice that.  A queue of a terminal is emptied
    with its 4096 places as fuel, a format is read with its length, a string
    with the size of memory.  Parameters of the model: the transfers of the disk
    ([block_ops]) and of the network card ([driver]), the bytes of the two
    ports of the keyboard, the memory for the screens ([kmalloc] in [Screen])
    and whether the loader's table of addresses can be allocated ([kmalloc_ok]),
    the addresses of the exported functions and the results of [module_init].

    ** Not modelled

    Assembly and descriptor tables, interrupt and SMP start-up code, ACPI, PCI,
    the AHCI and network card drivers (device registers and DMA), the mouse,
    the reading of a module's file ([kmod_load_by_name]), [kprintf]'s choice of a console, user-space programs and
    vendored headers.  Of the parts above: [process_create] and [execve] around
    the loader, [process_destroy], and the system calls that only check user
    pointers around a modelled operation.  The clearing and copying of video
    memory is stated on pixels; that the routines called do so is in [Klib].
 *)

From Stdlib Require Import ZArith Lia.
From stdpp Require Import base tactics list gmap.

#[global] Open Scope Z_scope.

(** ** Machine words

    The kernel's [unsigned char], [uint16_t], [uint32_t] and
    [unsigned long] are integers with the wrap-around written out at every
    operation that can leave the range. *)

Definition u8 (x : Z) : Z := x mod 2 ^ 8.
Definition u16 (x : Z) : Z := x mod 2 ^ 16.
Definition u32 (x : Z) : Z := x mod 2 ^ 32.
Definition u64 (x : Z) : Z := x mod 2 ^ 64.

(** Conversion of a 32-bit pattern to a signed [int]. *)
Definition s32 (x : Z) : Z := (x + 2 ^ 31) mod 2 ^ 32 - 2 ^ 31.

(** ** The execution monad

    A computation over the state [S] either finishes with a value and a new
    state or stops.  [OutOfBounds] is an access outside an object,
    [NullDeref] the use of a null or dangling pointer, [Halted] one of the
    kernel's [for(;;);] loops, [Deadlock] the acquisition of a spinlock its
    holder already has, and [NoFuel] a bounded traversal that did not reach
    the end of its list. *)

Inductive stop : Type :=
| OutOfBounds
| NullDeref
| Halted
| Deadlock
| NoFuel.

#[global] Instance stop_eq_dec : EqDecision stop.
Proof. solve_decision. Defined.

Inductive res (A : Type) : Type :=
| Ok (a : A)
| Stop (e : stop).
Arguments Ok {A} a.
Arguments Stop {A} e.

Definition M (S A : Type) : Type := S -> res (A * S).

Definition kret {S A} (a : A) : M S A := fun s => Ok (a, s).

Definition kbind {S A B} (m : M S A) (k : A -> M S B) : M S B :=
  fun s => match m s with
           | Ok (a, s') => k a s'
           | Stop e => Stop e
           end.

Definition kstop {S A} (e : stop) : M S A := fun _ => Stop e.
Definition kget {S} : M S S := fun s => Ok (s, s).
Definition kput {S} (s : S) : M S unit := fun _ => Ok (tt, s).
Definition kgets {S A} (f : S -> A) : M S A := fun s => Ok (f s, s).
Definition kmodify {S} (f : S -> S) : M S unit := fun s => Ok (tt, f s).

(** An optional value; its absence stops the run with the given reason. *)
Definition kopt {S A} (e : stop) (o : option A) : M S A :=
  match o with Some a => kret a | None => kstop e end.

(** Run a computation over a part of the state. *)
Definition zoom {S T A} (get : T -> S) (set : S -> T -> T) (m : M S A) : M T A :=
  fun t => match m (get t) with
           | Ok (a, s') => Ok (a, set s' t)
           | Stop e => Stop e
           end.

Declare Scope kernel_scope.
Delimit Scope kernel_scope with kernel.

Notation "x <-- m ;; k" := (kbind m (fun x => k))
  (at level 100, m at next level, right associativity) : kernel_scope.
Notation "m ;;; k" := (kbind m (fun _ => k))
  (at level 100, right associativity) : kernel_scope.
#[global] Open Scope kernel_scope.

(** A counted C loop.  The body is run on [i], [i + 1], ... ([n] times); it
    carries an accumulator and may leave the loop with a result. *)
Fixpoint loop {S A R} (n : nat) (i : Z) (body : Z -> A -> M S (A + R)) (a : A)
  : M S (A + R) :=
  match n with
  | O => kret (inl a)
  | Datatypes.S n' =>
      r <-- body i a ;;
      match r with
      | inl a' => loop n' (i + 1) body a'
      | inr x => kret (inr x)
      end
  end.

(** The loop whose body neither accumulates nor leaves early. *)
Fixpoint for_ {S} (n : nat) (i : Z) (body : Z -> M S unit) : M S unit :=
  match n with
  | O => kret tt
  | Datatypes.S n' => body i ;;; for_ n' (i + 1) body
  end.

(** ** Total weakest preconditions

    [wp m Q s]: started in [s], [m] finishes (it does not stop on a fault, a
    halt or a deadlock) and the value and final state satisfy [Q]. *)

Definition wp {S A} (m : M S A) (Q : A -> S -> Prop) (s : S) : Prop :=
  match m s with
  | Ok (a, s') => Q a s'
  | Stop _ => False
  end.

(** ** Indexed access to arrays *)

(** [rd l i] is [l[i]]: an index outside the array is a fault. *)
Definition rd {S A} (l : list A) (i : Z) : M S A :=
  if i <? 0 then kstop OutOfBounds else kopt OutOfBounds (l !! Z.to_nat i).

(** [upd l i x] is the array after [l[i] = x]: a fault outside the array. *)
Definition upd {S A} (l : list A) (i : Z) (x : A) : M S (list A) :=
  if (i <? 0) || (Z.of_nat (length l) <=? i) then kstop OutOfBounds
  else kret (<[Z.to_nat i := x]> l).

(** Length of a list as an integer. *)
Definition zlen {A} (l : list A) : Z := Z.of_nat (length l).

(** ** Rules of the weakest precondition *)

Section wp_rules.
Context {S : Type}.
Implicit Types s : S.

Lemma wp_run {A} (m : M S A) Q s :
  wp m Q s -> exists a s', m s = Ok (a, s') /\ Q a s'.
Proof. unfold wp. destruct (m s) as [[a s']|]; [eauto | tauto]. Qed.

Lemma wp_intro {A} (m : M S A) (Q : A -> S -> Prop) s a s' :
  m s = Ok (a, s') -> Q a s' -> wp m Q s.
Proof. unfold wp. by intros ->. Qed.

Lemma wp_mono {A} (m : M S A) (P Q : A -> S -> Prop) s :
  wp m P s -> (forall a s', P a s' -> Q a s') -> wp m Q s.
Proof. unfold wp. destruct (m s) as [[a s']|]; auto. Qed.

Lemma wp_both {A} (m : M S A) (P Q : A -> S -> Prop) s : wp m P s -> wp m Q s -> wp m (fun a s' => P a s' /\ Q a s') s.
Proof. unfold wp. by destruct (m s) as [[]|]. Qed.
Lemma wp_ret {A} (a : A) (Q : A -> S -> Prop) s : Q a s -> wp (kret a) Q s.
Proof. done. Qed.

Lemma wp_bind {A B} (m : M S A) (k : A -> M S B) Q s :
  wp m (fun a s' => wp (k a) Q s') s -> wp (kbind m k) Q s.
Proof. unfold wp, kbind. destruct (m s) as [[a s']|]; auto. Qed.

Lemma wp_bind_inv {A B} (m : M S A) (k : A -> M S B) Q s :
  wp (kbind m k) Q s -> wp m (fun a s' => wp (k a) Q s') s.
Proof. unfold wp, kbind. destruct (m s) as [[a s']|]; auto. Qed.

Lemma wp_get (Q : S -> S -> Prop) s : Q s s -> wp kget Q s.
Proof. done. Qed.

Lemma wp_put s0 (Q : unit -> S -> Prop) s : Q tt s0 -> wp (kput s0) Q s.
Proof. done. Qed.

Lemma wp_gets {A} (f : S -> A) (Q : A -> S -> Prop) s : Q (f s) s -> wp (kgets f) Q s.
Proof. done. Qed.

Lemma wp_modify f (Q : unit -> S -> Prop) s : Q tt (f s) -> wp (kmodify f) Q s.
Proof. done. Qed.

Lemma wp_opt {A} e (o : option A) a (Q : A -> S -> Prop) s :
  o = Some a -> Q a s -> wp (kopt e o) Q s.
Proof. by intros ->. Qed.

Lemma wp_rd {A} (l : list A) i a (Q : A -> S -> Prop) s :
  0 <= i -> l !! Z.to_nat i = Some a -> Q a s -> wp (rd l i) Q s.
Proof.
  intros Hi Hl HQ. unfold rd. rewrite (proj2 (Z.ltb_ge i 0) Hi), Hl. done.
Qed.

Lemma wp_upd {A} (l : list A) i (x : A) (Q : list A -> S -> Prop) s :
  0 <= i < zlen l -> Q (<[Z.to_nat i := x]> l) s -> wp (upd l i x) Q s.
Proof.
  unfold zlen. intros Hi HQ. unfold upd.
  rewrite (proj2 (Z.ltb_ge i 0)), (proj2 (Z.leb_gt _ _)) by lia. done.
Qed.

(** Invariant rule of the counted loop. *)
Lemma wp_loop {A R} (I : Z -> A -> S -> Prop) (Q : A + R -> S -> Prop) n i
    (body : Z -> A -> M S (A + R)) a s :
  I i a s ->
  (forall j a' s', i <= j < i + Z.of_nat n -> I j a' s' ->
     wp (body j a') (fun r s'' => match r with
                                  | inl a'' => I (j + 1) a'' s''
                                  | inr x => Q (inr x) s''
                                  end) s') ->
  (forall a' s', I (i + Z.of_nat n) a' s' -> Q (inl a') s') ->
  wp (loop n i body a) Q s.
Proof.
  revert i a s. induction n as [|n IH]; intros i a s HI Hb Hend; cbn [loop].
  - apply wp_ret, Hend. by replace (i + Z.of_nat 0) with i by lia.
  - apply wp_bind. eapply wp_mono; [apply (Hb i); [lia | done]|].
    intros [a'|x] s'; cbn; [|auto using wp_ret].
    intros HI'. apply IH; [done | |].
    + intros j a'' s'' Hj. apply Hb. lia.
    + intros a'' s'' H. apply Hend.
      by replace (i + Z.of_nat (Datatypes.S n)) with (i + 1 + Z.of_nat n) by lia.
Qed.

Lemma wp_for (I : Z -> S -> Prop) (Q : unit -> S -> Prop) n i (body : Z -> M S unit) s :
  I i s ->
  (forall j s', i <= j < i + Z.of_nat n -> I j s' -> wp (body j) (fun _ s'' => I (j + 1) s'') s') ->
  (forall s', I (i + Z.of_nat n) s' -> Q tt s') ->
  wp (for_ n i body) Q s.
Proof.
  revert i s. induction n as [|n IH]; intros i s HI Hb Hend; cbn [for_].
  - apply wp_ret, Hend. by replace (i + Z.of_nat 0) with i by lia.
  - apply wp_bind. eapply wp_mono; [apply (Hb i); [lia | done]|].
    cbn. intros _ s' HI'. apply IH; [done | |].
    + intros j s'' Hj. apply Hb. lia.
    + intros s'' H. apply Hend.
      by replace (i + Z.of_nat (Datatypes.S n)) with (i + 1 + Z.of_nat n) by lia.
Qed.

End wp_rules.

Lemma wp_zoom {S T A} (get : T -> S) (set : S -> T -> T) (m : M S A) Q t :
  wp m (fun a s' => Q a (set s' t)) (get t) -> wp (zoom get set m) Q t.
Proof. unfold wp, zoom. destruct (m (get t)) as [[a s']|]; auto. Qed.

(** ** Automation *)

Create HintDb kernel.
Create Rewrite HintDb kernel.

(** [wp_step] applies the rule of the head computation. *)
Ltac wp_step :=
  lazymatch goal with
  | |- wp (kbind _ _) _ _ => apply wp_bind
  | |- wp (kret _) _ _ => apply wp_ret
  | |- wp kget _ _ => apply wp_get
  | |- wp (kput _) _ _ => apply wp_put
  | |- wp (kgets _) _ _ => apply wp_gets
  | |- wp (kmodify _) _ _ => apply wp_modify
  | |- wp (zoom _ _ _) _ _ => apply wp_zoom
  end.
Ltac wp_steps := repeat (wp_step; cbn beta iota).

(** Turn the boolean comparisons of the code into propositions. *)
Ltac zbool :=
  repeat match goal with
  | H : (_ <? _) = true |- _ => apply Z.ltb_lt in H
  | H : (_ <? _) = false |- _ => apply Z.ltb_ge in H
  | H : (_ <=? _) = true |- _ => apply Z.leb_le in H
  | H : (_ <=? _) = false |- _ => apply Z.leb_gt in H
  | H : (_ =? _) = true |- _ => apply Z.eqb_eq in H
  | H : (_ =? _) = false |- _ => apply Z.eqb_neq in H
  | H : (_ && _)%bool = true |- _ => apply andb_prop in H as [? ?]
  | H : (_ || _)%bool = false |- _ => apply orb_false_elim in H as [? ?]
  | H : negb _ = true |- _ => apply negb_true_iff in H
  | H : negb _ = false |- _ => apply negb_false_iff in H
  end.

(** Linear arithmetic with division and modulo by constants. *)
Ltac zdiv_lia := Z.to_euclidean_division_equations; lia.

(** Case analysis on the test of a conditional in the goal. *)
Ltac case_if :=
  match goal with
  | |- context [if ?b then _ else _] =>
      let E := fresh "E" in destruct b eqn:E; zbool
  end.

(** ** Generic lemmas on words, bits and lists *)

Lemma u64_small x : 0 <= x < 2 ^ 64 -> u64 x = x.
Proof. apply Z.mod_small. Qed.
Lemma u32_small x : 0 <= x < 2 ^ 32 -> u32 x = x.
Proof. apply Z.mod_small. Qed.
Lemma u16_small x : 0 <= x < 2 ^ 16 -> u16 x = x.
Proof. apply Z.mod_small. Qed.
Lemma u8_small x : 0 <= x < 2 ^ 8 -> u8 x = x.
Proof. apply Z.mod_small. Qed.
Lemma s32_small x : - 2 ^ 31 <= x < 2 ^ 31 -> s32 x = x.
Proof. intros Hx. unfold s32. rewrite Z.mod_small by lia. lia. Qed.
Lemma u64_range x : 0 <= u64 x < 2 ^ 64.
Proof. by apply Z.mod_pos_bound. Qed.
Lemma u32_range x : 0 <= u32 x < 2 ^ 32.
Proof. by apply Z.mod_pos_bound. Qed.
Lemma u16_range x : 0 <= u16 x < 2 ^ 16.
Proof. by apply Z.mod_pos_bound. Qed.
Lemma u8_range x : 0 <= u8 x < 2 ^ 8.
Proof. by apply Z.mod_pos_bound. Qed.
#[export] Hint Resolve u64_range u32_range u16_range u8_range : kernel.

Lemma zlen_insert {A} (l : list A) i x : zlen (<[i := x]> l) = zlen l.
Proof. unfold zlen. by rewrite length_insert. Qed.
Lemma zlen_nonneg {A} (l : list A) : 0 <= zlen l.
Proof. unfold zlen. lia. Qed.
#[export] Hint Rewrite @zlen_insert : kernel.

Lemma zlen_lookup {A} (l : list A) i :
  0 <= i < zlen l -> exists a, l !! Z.to_nat i = Some a.
Proof. unfold zlen. intros Hi. apply lookup_lt_is_Some. lia. Qed.

Lemma filter_ext_elem {A} (P Q : A -> Prop) `{!forall x, Decision (P x), !forall x, Decision (Q x)}
    (l : list A) :
  (forall x, x ∈ l -> P x <-> Q x) -> filter P l = filter Q l.
Proof.
  induction l as [|a l IH]; intros HPQ; [done|].
  rewrite !filter_cons, IH by (intros x Hx; apply HPQ; by right).
  assert (Ha : P a <-> Q a) by (apply HPQ; by left).
  do 2 case_decide; done || tauto.
Qed.

Lemma filter_none {A} (P : A -> Prop) `{!forall x, Decision (P x)} (l : list A) :
  (forall x, x ∈ l -> ~ P x) -> filter P l = [].
Proof.
  induction l as [|a l IH]; intros HP; [done|]. rewrite filter_cons.
  rewrite decide_False by (apply HP; by left). apply IH. intros x Hx. apply HP. by right.
Qed.

(** [x & ~(2^k - 1)] rounds down to a multiple of [2^k]. *)
Lemma land_align x k :
  0 <= x < 2 ^ 64 -> 0 <= k <= 64 -> Z.land x (u64 (Z.lnot (2 ^ k - 1))) = x / 2 ^ k * 2 ^ k.
Proof.
  intros Hx Hk. rewrite <- Z.shiftl_mul_pow2, <- Z.shiftr_div_pow2 by lia.
  replace (2 ^ k - 1) with (Z.ones k) by (rewrite Z.ones_equiv; lia).
  unfold u64. rewrite <- Z.land_ones by lia. apply Z.bits_inj'. intros n Hn.
  rewrite !Z.land_spec, Z.lnot_spec by done.
  destruct (Z.lt_ge_cases n k).
  - rewrite Z.ones_spec_low, Z.shiftl_spec_low by lia. cbn. by rewrite andb_false_r.
  - rewrite (Z.ones_spec_high k), Z.shiftl_spec, Z.shiftr_spec by lia.
    replace (n - k + k) with n by lia. cbn. destruct (Z.lt_ge_cases n 64).
    + rewrite Z.ones_spec_low by lia. by rewrite andb_true_r.
    + rewrite Z.ones_spec_high by lia. rewrite andb_false_r. symmetry.
      destruct (Z.eq_dec x 0) as [->|]; [apply Z.bits_0|].
      apply Z.bits_above_log2; [lia|]. apply Z.log2_lt_pow2; [lia|].
      apply Z.lt_le_trans with (2 ^ 64); [lia|]. apply Z.pow_le_mono_r; lia.
Qed.

(** ** Byte buffers ([memcpy] with its bounds) *)

(** A copy of [n] bytes out of a buffer from [off] on. *)
Definition bytes_out {S} (buf : list Z) (off n : Z) : M S (list Z) :=
  if off + n <=? zlen buf then kret (take (Z.to_nat n) (drop (Z.to_nat off) buf)) else kstop OutOfBounds.
(** The buffer after a copy of [src] to [off]. *)
Definition bytes_in {S} (buf : list Z) (off : Z) (src : list Z) : M S (list Z) :=
  if off + zlen src <=? zlen buf
  then kret (take (Z.to_nat off) buf ++ src ++ drop (Z.to_nat (off + zlen src)) buf)
  else kstop OutOfBounds.

Lemma wp_bytes_out {S} buf off n (Q : list Z -> S -> Prop) s :
  0 <= off -> 0 <= n -> off + n <= zlen buf ->
  Q (take (Z.to_nat n) (drop (Z.to_nat off) buf)) s -> wp (bytes_out buf off n) Q s.
Proof.
  intros Ho Hn Hle HQ. unfold bytes_out. rewrite (proj2 (Z.leb_le _ _) Hle). by wp_steps.
Qed.

(** The buffer after a copy, byte by byte. *)
Definition spliced (buf : list Z) (off : Z) (src buf' : list Z) : Prop :=
  zlen buf' = zlen buf /\
  forall i, buf' !! i = if decide (off <= Z.of_nat i < off + zlen src)
                        then src !! (i - Z.to_nat off)%nat else buf !! i.

Lemma wp_bytes_in {S} buf off src (Q : list Z -> S -> Prop) s :
  0 <= off -> off + zlen src <= zlen buf ->
  (forall buf', spliced buf off src buf' -> Q buf' s) -> wp (bytes_in buf off src) Q s.
Proof.
  intros Ho Hle HQ. unfold bytes_in. rewrite (proj2 (Z.leb_le _ _) Hle). wp_steps. apply HQ.
  unfold spliced, zlen in *. split.
  - rewrite !length_app, length_take, length_drop. lia.
  - intros i. destruct (decide (Z.of_nat i < off)).
    + rewrite lookup_app_l by (rewrite length_take; lia). rewrite lookup_take_lt by lia.
      by rewrite decide_False by lia.
    + rewrite lookup_app_r by (rewrite length_take; lia). rewrite length_take, Nat.min_l by lia.
      destruct (decide (Z.of_nat i < off + Z.of_nat (length src))).
      * rewrite decide_True by lia. by rewrite lookup_app_l by lia.
      * rewrite decide_False by lia. rewrite lookup_app_r by lia. rewrite lookup_drop. f_equal. lia.
Qed.
