(* ===== verification/Bitmap.v ===== *)
(** * Bit arrays

    The physical memory manager keeps one bit per page in an array of bytes,
    the pool and the shared-memory window one bit per page in an array of
    32-bit words.  This file holds what the three share: testing, setting and
    clearing a bit of an array of [w]-bit words, the scan for a run of zero
    bits, and their specifications in terms of the bits of the array. *)

From Stdlib Require Import ZArith Lia.
From stdpp Require Import base tactics list.
From S2P Require Import Prelude.

(** Bit [i] of an array of [w]-bit words; outside the array it reads 0. *)
Definition bit (w : Z) (l : list Z) (i : Z) : bool :=
  Z.testbit (default 0 (l !! Z.to_nat (i / w))) (i mod w).

(** [l[i / w] |= 1 << (i % w)] *)
Definition bm_set (w i : Z) : M (list Z) unit :=
  l <-- kget ;;
  x <-- rd l (i / w) ;;
  l' <-- upd l (i / w) (Z.lor x (Z.shiftl 1 (i mod w) mod 2 ^ w)) ;;
  kput l'.

(** [l[i / w] &= ~(1 << (i % w))] *)
Definition bm_clear (w i : Z) : M (list Z) unit :=
  l <-- kget ;;
  x <-- rd l (i / w) ;;
  l' <-- upd l (i / w) (Z.land x (Z.lnot (Z.shiftl 1 (i mod w)) mod 2 ^ w)) ;;
  kput l'.

(** [l[i / w] & (1 << (i % w))] *)
Definition bm_and (w i : Z) : M (list Z) Z :=
  l <-- kget ;;
  x <-- rd l (i / w) ;;
  kret (Z.land x (Z.shiftl 1 (i mod w))).

(** One iteration of the scan for [count] consecutive zero bits: the
    accumulator is the length of the current run and where it began. *)
Definition bm_scan_step (w count i : Z) (acc : Z * Z) : M (list Z) (Z * Z + Z) :=
  let '(consecutive, start) := acc in
  b <-- bm_and w i ;;
  if b =? 0 then
    let start := if consecutive =? 0 then i else start in
    let consecutive := u64 (consecutive + 1) in
    if consecutive =? count then kret (inr start) else kret (inl (consecutive, start))
  else kret (inl (0, start)).

(** Every word of the array fits its width. *)
Definition words_ok (w : Z) (l : list Z) : Prop := Forall (fun x => 0 <= x < 2 ^ w) l.

(** All the bits of [a .. a + n) are zero. *)
Definition run_free (w : Z) (l : list Z) (a n : Z) : Prop :=
  forall p, a <= p < a + n -> bit w l p = false.

(** [a] is the lowest start of a zero run of length [n] below [max]. *)
Definition first_run (w : Z) (l : list Z) (max n a : Z) : Prop :=
  0 <= a /\ a + n <= max /\ run_free w l a n /\
  forall b, 0 <= b < a -> ~ run_free w l b n.

Section bitmap.
Context (w : Z) (Hw : 0 < w).
Implicit Types l : list Z.

Lemma bit_index i n : 0 <= i < w * n -> 0 <= i / w < n.
Proof.
  intros Hi. split; [apply Z.div_pos; lia|].
  apply Z.div_lt_upper_bound; lia.
Qed.

Lemma bit_word l i :
  0 <= i < w * zlen l ->
  exists x, l !! Z.to_nat (i / w) = Some x /\ bit w l i = Z.testbit x (i mod w).
Proof.
  intros Hi. destruct (zlen_lookup l (i / w)) as [x Hx]; [by apply bit_index|].
  exists x. unfold bit. by rewrite Hx.
Qed.

(** Replacing the word that holds bit [i] changes only the bits of that word. *)
Lemma bit_insert l i j y :
  0 <= i < w * zlen l -> 0 <= j < w * zlen l ->
  bit w (<[Z.to_nat (i / w) := y]> l) j =
  if i / w =? j / w then Z.testbit y (j mod w) else bit w l j.
Proof.
  intros Hi Hj. pose proof (bit_index i _ Hi). pose proof (bit_index j _ Hj).
  unfold bit. case_if.
  - rewrite E, list_lookup_insert_eq by (unfold zlen in *; lia). done.
  - rewrite list_lookup_insert_ne by lia. done.
Qed.

Lemma same_bit i j : i / w = j / w -> i mod w = j mod w -> i = j.
Proof. intros Hd Hm. rewrite (Z.div_mod i w), (Z.div_mod j w), Hd, Hm by lia. done. Qed.

Lemma testbit_one_shift i j :
  0 <= j -> Z.testbit (Z.shiftl 1 (i mod w) mod 2 ^ w) j = (j =? i mod w).
Proof.
  intros Hj. pose proof (Z.mod_pos_bound i w Hw) as Hm.
  rewrite Z.mod_small.
  - rewrite Z.shiftl_1_l, Z.pow2_bits_eqb by lia. apply Z.eqb_sym.
  - rewrite Z.shiftl_1_l. split; [apply Z.pow_nonneg; lia|].
    apply Z.pow_lt_mono_r; lia.
Qed.

Lemma testbit_not_shift i j :
  0 <= j < w ->
  Z.testbit (Z.lnot (Z.shiftl 1 (i mod w)) mod 2 ^ w) j = negb (j =? i mod w).
Proof.
  intros Hj. pose proof (Z.mod_pos_bound i w Hw) as Hm.
  rewrite Z.mod_pow2_bits_low, Z.lnot_spec, Z.shiftl_1_l, Z.pow2_bits_eqb by lia.
  by rewrite Z.eqb_sym.
Qed.

Lemma words_insert l i y :
  words_ok w l -> 0 <= y < 2 ^ w -> words_ok w (<[i := y]> l).
Proof. intros Hl Hy. by apply Forall_insert. Qed.

Lemma words_lookup l i x : words_ok w l -> l !! i = Some x -> 0 <= x < 2 ^ w.
Proof. intros Hl Hx. by apply (Forall_lookup_1 _ _ _ _ Hl Hx). Qed.

Lemma lor_word x y : 0 <= x < 2 ^ w -> 0 <= y < 2 ^ w -> 0 <= Z.lor x y < 2 ^ w.
Proof.
  intros Hx Hy. split; [apply Z.lor_nonneg; lia|].
  destruct (Z.eq_dec (Z.lor x y) 0) as [->|Hne]; [lia|].
  apply Z.log2_lt_pow2; [apply Z.le_neq; split; [apply Z.lor_nonneg; lia | done]|].
  rewrite Z.log2_lor by lia.
  destruct (Z.eq_dec x 0) as [->|], (Z.eq_dec y 0) as [->|]; try done;
    [.. | apply Z.max_lub_lt; apply Z.log2_lt_pow2; lia];
    apply Z.max_lub_lt; try (apply Z.log2_lt_pow2; lia); cbn; lia.
Qed.

Lemma land_word x y : 0 <= x < 2 ^ w -> 0 <= y -> 0 <= Z.land x y < 2 ^ w.
Proof.
  intros Hx Hy. assert (Hn : 0 <= Z.land x y) by (apply Z.land_nonneg; lia).
  split; [done|]. destruct (Z.eq_dec (Z.land x y) 0) as [->|Hne]; [lia|].
  assert (x <> 0) by (intros ->; by rewrite Z.land_0_l in Hne).
  apply Z.log2_lt_pow2; [lia|]. pose proof (Z.log2_land x y ltac:(lia) Hy).
  assert (Z.log2 x < w) by (apply Z.log2_lt_pow2; lia). lia.
Qed.

Lemma wp_bm_set l i :
  0 <= i < w * zlen l -> words_ok w l ->
  wp (bm_set w i)
    (fun _ l' => zlen l' = zlen l /\ words_ok w l' /\
       forall j, 0 <= j < w * zlen l -> bit w l' j = (j =? i) || bit w l j) l.
Proof.
  intros Hi Hl. destruct (bit_word l i Hi) as (x & Hx & _).
  pose proof (bit_index i _ Hi) as Hk.
  unfold bm_set. wp_steps. eapply wp_rd; [lia | exact Hx|].
  wp_steps. apply wp_upd; [done|]. wp_steps.
  rewrite zlen_insert. split_and!; [done | |].
  - apply words_insert; [done|].
    apply lor_word; [by apply (words_lookup l _ _ Hl Hx)|]. apply Z.mod_pos_bound. lia.
  - intros j Hj. rewrite bit_insert by done.
    pose proof (Z.mod_pos_bound j w Hw).
    destruct (i / w =? j / w) eqn:E; zbool.
    + rewrite Z.lor_spec, testbit_one_shift by lia.
      unfold bit. rewrite <- E, Hx. cbn [default].
      rewrite orb_comm. f_equal.
      destruct (Z.eqb_spec (j mod w) (i mod w)), (Z.eqb_spec j i); subst; try done.
      exfalso. eauto using same_bit.
    + replace (j =? i) with false; [done|]. symmetry. apply Z.eqb_neq. by intros ->.
Qed.

Lemma wp_bm_clear l i :
  0 <= i < w * zlen l -> words_ok w l ->
  wp (bm_clear w i)
    (fun _ l' => zlen l' = zlen l /\ words_ok w l' /\
       forall j, 0 <= j < w * zlen l -> bit w l' j = negb (j =? i) && bit w l j) l.
Proof.
  intros Hi Hl. destruct (bit_word l i Hi) as (x & Hx & _).
  pose proof (bit_index i _ Hi) as Hk.
  unfold bm_clear. wp_steps. eapply wp_rd; [lia | exact Hx|].
  wp_steps. apply wp_upd; [done|]. wp_steps.
  rewrite zlen_insert. split_and!; [done | |].
  - apply words_insert; [done|]. apply land_word; [by apply (words_lookup l _ _ Hl Hx)|].
    apply Z.mod_pos_bound. lia.
  - intros j Hj. rewrite bit_insert by done.
    pose proof (Z.mod_pos_bound j w Hw).
    destruct (i / w =? j / w) eqn:E; zbool.
    + rewrite Z.land_spec, testbit_not_shift by lia.
      unfold bit. rewrite <- E, Hx. cbn [default].
      rewrite andb_comm. f_equal.
      destruct (Z.eqb_spec (j mod w) (i mod w)), (Z.eqb_spec j i); subst; try done.
      exfalso. eauto using same_bit.
    + replace (j =? i) with false; [done|]. symmetry. apply Z.eqb_neq. by intros ->.
Qed.

Lemma land_shift_testbit x k :
  0 <= k -> (Z.land x (Z.shiftl 1 k) =? 0) = negb (Z.testbit x k).
Proof.
  intros Hk. rewrite Z.shiftl_1_l.
  destruct (Z.testbit x k) eqn:E; cbn.
  - apply Z.eqb_neq. intros H. apply (f_equal (fun z => Z.testbit z k)) in H.
    rewrite Z.land_spec, E, Z.pow2_bits_true, Z.bits_0 in H by done. done.
  - apply Z.eqb_eq, Z.bits_inj'. intros n Hn. rewrite Z.land_spec, Z.bits_0.
    rewrite Z.pow2_bits_eqb by done. destruct (Z.eqb_spec k n); subst; [by rewrite E|].
    apply andb_false_r.
Qed.

Lemma wp_bm_and l i (Q : Z -> list Z -> Prop) :
  0 <= i < w * zlen l ->
  (forall b, (b =? 0) = negb (bit w l i) -> Q b l) ->
  wp (bm_and w i) Q l.
Proof.
  intros Hi HQ. destruct (bit_word l i Hi) as (x & Hx & Hb).
  unfold bm_and. wp_steps. eapply wp_rd; [|exact Hx|].
  { apply Z.div_pos; lia. }
  wp_steps. apply HQ. rewrite Hb. apply land_shift_testbit.
  by apply Z.mod_pos_bound.
Qed.

(** Setting or clearing every bit of a range. *)
Lemma wp_bm_set_range l a n :
  0 <= a -> a + Z.of_nat n <= w * zlen l -> words_ok w l ->
  wp (for_ n a (bm_set w))
    (fun _ l' => zlen l' = zlen l /\ words_ok w l' /\
       forall j, 0 <= j < w * zlen l ->
         bit w l' j = (a <=? j) && (j <? a + Z.of_nat n) || bit w l j) l.
Proof.
  intros Ha Hn Hl.
  apply (wp_for (fun k l' => zlen l' = zlen l /\ words_ok w l' /\
    forall j, 0 <= j < w * zlen l ->
      bit w l' j = (a <=? j) && (j <? k) || bit w l j)); [ | |done].
  - split_and!; [done..|]. intros j Hj.
    replace ((a <=? j) && (j <? a)) with false; [done|].
    symmetry. apply andb_false_iff. rewrite Z.leb_gt, Z.ltb_ge. lia.
  - intros k l' Hk (Hlen & Hok & Hb).
    eapply wp_mono; [apply wp_bm_set; [rewrite Hlen; lia | done]|].
    rewrite Hlen. cbn. intros _ l'' (Hlen' & Hok' & Hb'). split_and!; [done..|].
    intros j Hj. rewrite Hb', Hb by done.
    destruct (bit w l j); [by rewrite !orb_true_r|]. rewrite !orb_false_r.
    apply eq_true_iff_eq. rewrite orb_true_iff, !andb_true_iff, Z.eqb_eq, !Z.leb_le, !Z.ltb_lt.
    lia.
Qed.

Lemma wp_bm_clear_range l a n :
  0 <= a -> a + Z.of_nat n <= w * zlen l -> words_ok w l ->
  wp (for_ n a (bm_clear w))
    (fun _ l' => zlen l' = zlen l /\ words_ok w l' /\
       forall j, 0 <= j < w * zlen l ->
         bit w l' j = negb ((a <=? j) && (j <? a + Z.of_nat n)) && bit w l j) l.
Proof.
  intros Ha Hn Hl.
  apply (wp_for (fun k l' => zlen l' = zlen l /\ words_ok w l' /\
    forall j, 0 <= j < w * zlen l ->
      bit w l' j = negb ((a <=? j) && (j <? k)) && bit w l j)); [ | |done].
  - split_and!; [done..|]. intros j Hj.
    replace ((a <=? j) && (j <? a)) with false; [done|].
    symmetry. apply andb_false_iff. rewrite Z.leb_gt, Z.ltb_ge. lia.
  - intros k l' Hk (Hlen & Hok & Hb).
    eapply wp_mono; [apply wp_bm_clear; [rewrite Hlen; lia | done]|].
    rewrite Hlen. cbn. intros _ l'' (Hlen' & Hok' & Hb'). split_and!; [done..|].
    intros j Hj. rewrite Hb', Hb by done.
    destruct (bit w l j); [rewrite !andb_true_r | by rewrite !andb_false_r].
    rewrite <- negb_orb. f_equal.
    apply eq_true_iff_eq. rewrite orb_true_iff, !andb_true_iff, Z.eqb_eq, !Z.leb_le, !Z.ltb_lt.
    lia.
Qed.

(** What the scan knows on entering iteration [i]. *)
Definition scan_inv l (count i : Z) (acc : Z * Z) : Prop :=
  0 <= acc.1 <= i /\ acc.1 < count /\
  (0 < acc.1 -> acc.2 = i - acc.1) /\
  run_free w l (i - acc.1) acc.1 /\
  (acc.1 = i \/ bit w l (i - acc.1 - 1) = true) /\
  forall b, 0 <= b -> b + count <= i -> ~ run_free w l b count.

Lemma scan_step_used l count i acc :
  scan_inv l count i acc -> bit w l i = true -> scan_inv l count (i + 1) (0, acc.2).
Proof.
  intros (Hr & Hc & _ & _ & _ & Hno) Hb. unfold scan_inv; cbn.
  split_and!; try lia.
  - intros p Hp. lia.
  - right. by replace (i + 1 - 0 - 1) with i by lia.
  - intros b Hb0 Hbi Hrun. destruct (Z.eq_dec (b + count) (i + 1)).
    + rewrite (Hrun i) in Hb by lia. done.
    + apply (Hno b); [lia..|done].
Qed.

Lemma scan_step_free l count i acc st :
  scan_inv l count i acc -> bit w l i = false ->
  st = (if acc.1 =? 0 then i else acc.2) ->
  st = i - acc.1 /\ run_free w l st (acc.1 + 1) /\
  (acc.1 + 1 < count -> scan_inv l count (i + 1) (acc.1 + 1, st)).
Proof.
  intros (Hr & Hc & Hst & Hrun & Hlast & Hno) Hb ->.
  assert (Hs : (if acc.1 =? 0 then i else acc.2) = i - acc.1).
  { case_if; [lia | apply Hst; lia]. }
  assert (Hrun' : run_free w l (i - acc.1) (acc.1 + 1)).
  { intros p Hp. destruct (Z.eq_dec p i) as [->|]; [done|]. apply Hrun. lia. }
  rewrite Hs. split_and!; [done..|]. intros Hlt. unfold scan_inv; cbn.
  replace (i + 1 - (acc.1 + 1)) with (i - acc.1) by lia.
  split_and!; try done; try lia.
  { destruct Hlast as [->|]; [left; lia | by right]. }
  intros b Hb0 Hbi Hrunb. destruct (Z.eq_dec (b + count) (i + 1)).
  - destruct Hlast as [Heq|Hused]; [lia|].
    rewrite (Hrunb (i - acc.1 - 1)) in Hused by lia. done.
  - apply (Hno b); [lia..|done].
Qed.

(** The scan over [max] bits finds the first run, or there is none. *)
Lemma wp_bm_scan l count max :
  0 < count < 2 ^ 64 -> 0 <= max <= w * zlen l ->
  wp (loop (Z.to_nat max) 0 (bm_scan_step w count) (0, 0))
    (fun r l' => l' = l /\
       match r with
       | inr a => first_run w l max count a
       | inl _ => forall b, 0 <= b -> b + count <= max -> ~ run_free w l b count
       end) l.
Proof.
  intros Hc Hmax.
  apply (wp_loop (fun i acc l' => l' = l /\ scan_inv l count i acc)).
  - split; [done|]. unfold scan_inv; cbn. split_and!; try lia.
    intros p Hp. lia.
  - intros i [c st] l' Hi [-> Hinv]. unfold bm_scan_step. wp_steps.
    apply wp_bm_and; [lia|]. intros b Hb. cbn. rewrite Hb.
    destruct (bit w l i) eqn:Ebit; cbn.
    + wp_steps. split; [done|]. by apply (scan_step_used l count i (c, st)).
    + destruct (scan_step_free l count i (c, st) _ Hinv Ebit eq_refl) as (Hst & Hrun & Hnext).
      destruct Hinv as (Hr & Hlt & _ & _ & _ & Hno). cbn in *.
      rewrite (u64_small (c + 1)) by lia.
      case_if; wp_steps; split; try done.
      * subst count. unfold first_run. rewrite Hst in *. split_and!; try lia; [done|].
        intros b' Hb'. apply Hno; lia.
      * apply Hnext. lia.
  - intros a' l' [-> (_ & _ & _ & _ & _ & Hno)]. split; [done|].
    intros b Hb Hbm. apply Hno; lia.
Qed.

End bitmap.
