(* ===== verification/Paging.v ===== *)
(** * Page tables and the boot-time address space

    Physical memory as 64-bit words, the bit fields of the x86_64 paging
    structures of [include/kernel/arch/x86_64/mm/paging.h], the page walk the
    processor performs (the reference the kernel's own walks are compared
    with), and the two routines that build the kernel's static tables:
    [setup_paging] and [paging_map_region_bitmap]. *)

From Stdlib Require Import ZArith Lia.
From stdpp Require Import base tactics list.
From S2P Require Import Prelude.

(** ** Memory map constants ([memory_map.h], [paging.h]) *)

Definition PAGE_SIZE : Z := 0x1000.
Definition KERNEL_VIRTUAL_BASE : Z := 0xFFFFFFFF80000000.
Definition KERNEL_BITMAP_VIRTUAL_BASE : Z := 0xFFFF800000000000.
Definition KERNEL_VIDEO_VIRTUAL_BASE : Z := 0xFFFF8000E0000000.
Definition PML4_ADDRESS : Z := 0xFFFFFFFF80100000.
Definition PDPT_ADDRESS : Z := 0xFFFFFFFF80101000.
Definition PDPT_IDENTITY_ADDRESS : Z := 0xFFFFFFFF80102000.
Definition PDPT_256_ADDRESS : Z := 0xFFFFFFFF80103000.
Definition PD_IDENTITY_ADDRESS : Z := 0xFFFFFFFF80104000.
Definition PD_KERNEL_ADDRESS : Z := 0xFFFFFFFF80105000.
Definition PD_VIDEO_ADDRESS : Z := 0xFFFFFFFF80106000.
Definition PD_BITMAP_ADDRESS : Z := 0xFFFFFFFF80107000.
Definition PT_ADDRESS : Z := 0xFFFFFFFF80108000.
Definition PT_KERNEL_ADDRESS : Z := 0xFFFFFFFF80109000.
Definition PML4_PHYSICAL_OFFSET : Z := 0x00100000.
Definition PDPT_PHYSICAL_OFFSET : Z := 0x00101000.
Definition PDPT_IDENTITY_PHYSICAL_OFFSET : Z := 0x00102000.
Definition PDPT_256_PHYSICAL_OFFSET : Z := 0x00103000.
Definition PD_IDENTITY_PHYSICAL_OFFSET : Z := 0x00104000.
Definition PD_KERNEL_PHYSICAL_OFFSET : Z := 0x00105000.
Definition PD_VIDEO_PHYSICAL_OFFSET : Z := 0x00106000.
Definition PD_BITMAP_PHYSICAL_OFFSET : Z := 0x00107000.
Definition PT_PHYSICAL_OFFSET : Z := 0x00108000.
Definition NUM_PT_TABLES : Z := 200.

(** ** Physical memory

    The word [i] (of 512) of the frame [f]; every physical address can be
    read and written. *)

Definition phys : Type := Z -> Z -> Z.

Definition pset (f i v : Z) (m : phys) : phys :=
  fun f' i' => if (f' =? f) && (i' =? i) then v else m f' i'.

(** [memset(frame, 0, 4096)] *)
Definition pzero (f : Z) (m : phys) : phys :=
  fun f' i' => if f' =? f then 0 else m f' i'.

(** ** Bit fields of a paging entry *)

Record field : Type := Field { f_off : Z; f_width : Z }.

Definition F_P := Field 0 1.
Definition F_RW := Field 1 1.
Definition F_US := Field 2 1.
Definition F_PWT := Field 3 1.
Definition F_PCD := Field 4 1.
Definition F_A := Field 5 1.
Definition F_D := Field 6 1.
Definition F_PS := Field 7 1.      (* PAT in a page-table entry *)
Definition F_G := Field 8 1.
Definition F_RS1 := Field 5 4.     (* PML4 and PDPT entries *)
Definition F_IGN := Field 9 3.
Definition F_ADDR := Field 12 40.  (* phy_addr_pdpt, phy_addr_pd, phy_addr_pt, frames *)
Definition F_RS2 := Field 52 12.   (* all but the page-table entries *)
Definition F_RS2_PT := Field 52 11.
Definition F_NX := Field 63 1.

Definition bf_get (f : field) (e : Z) : Z := (e / 2 ^ f_off f) mod 2 ^ f_width f.

(** Assigning a bit field keeps the low bits of the value. *)
Definition bf_set (f : field) (v e : Z) : Z :=
  Z.lor (Z.ldiff e (Z.shiftl (Z.ones (f_width f)) (f_off f)))
        (Z.shiftl (v mod 2 ^ f_width f) (f_off f)).

Definition set_fields (fs : list (field * Z)) (e : Z) : Z :=
  fold_left (fun e fv => bf_set (fst fv) (snd fv) e) fs e.

(** The flags of the kernel's own table links and the frame they point to. *)
Definition link (a : Z) : list (field * Z) :=
  [(F_P, 1); (F_RW, 1); (F_US, 0); (F_ADDR, a)].
Definition link_pd (a : Z) : list (field * Z) :=
  [(F_P, 1); (F_RW, 1); (F_US, 0); (F_PS, 0); (F_ADDR, a)].

(** ** Indices of a virtual address ([vmm.h]) *)

Definition GET_PML4_INDEX (virt : Z) : Z := Z.land (Z.shiftr virt 39) 0x1FF.
Definition GET_PDPT_INDEX (virt : Z) : Z := Z.land (Z.shiftr virt 30) 0x1FF.
Definition GET_PD_INDEX (virt : Z) : Z := Z.land (Z.shiftr virt 21) 0x1FF.
Definition GET_PT_INDEX (virt : Z) : Z := Z.land (Z.shiftr virt 12) 0x1FF.

(** ** The processor's page walk (4-level paging) *)

Definition mmu_walk (m : phys) (cr3 va : Z) : option Z :=
  let e4 := m (bf_get F_ADDR cr3) (GET_PML4_INDEX va) in
  if bf_get F_P e4 =? 0 then None else
  let e3 := m (bf_get F_ADDR e4) (GET_PDPT_INDEX va) in
  if bf_get F_P e3 =? 0 then None else
  if bf_get F_PS e3 =? 1 then
    Some (bf_get (Field 30 22) e3 * 2 ^ 30 + va mod 2 ^ 30) else
  let e2 := m (bf_get F_ADDR e3) (GET_PD_INDEX va) in
  if bf_get F_P e2 =? 0 then None else
  if bf_get F_PS e2 =? 1 then
    Some (bf_get (Field 21 31) e2 * 2 ^ 21 + va mod 2 ^ 21) else
  let e1 := m (bf_get F_ADDR e2) (GET_PT_INDEX va) in
  if bf_get F_P e1 =? 0 then None else
  Some (bf_get F_ADDR e1 * 2 ^ 12 + va mod 2 ^ 12).

(** ** Boot information ([boot_info.h]) *)

Inductive MEMORY_TYPE : Type :=
| MEMORY_FREE
| MEMORY_RESERVED
| MEMORY_RUNTIME
| MEMORY_ACPI
| MEMORY_NVS
| MEMORY_MMIO
| MEMORY_UNUSABLE
| MEMORY_LOADER_DATA.

#[global] Instance memory_type_eq_dec : EqDecision MEMORY_TYPE.
Proof. solve_decision. Defined.

Record MEMORY_REGION : Type := Region {
  Start : Z;
  Size : Z;
  Type_ : MEMORY_TYPE
}.

(** The fields of [BOOT_INFO] the memory subsystem reads. *)
Record BOOT_INFO : Type := BootInfo {
  KernelAddress : Z;
  KernelMemorySize : Z;
  FrameBufferBase : Z;
  FrameBufferSize : Z;
  MemoryRegionCount : Z;
  MemoryRegions : list MEMORY_REGION
}.

(** ** The state of the static page tables *)

Record paging : Type := Paging {
  pg_mem : phys;
  g_next_pt_number : Z;
  g_kernel_pml4_phys : Z;
  cr3 : Z;
  efer : Z
}.

Definition upd_mem (f : phys -> phys) (s : paging) : paging :=
  Paging (f (pg_mem s)) (g_next_pt_number s) (g_kernel_pml4_phys s) (cr3 s) (efer s).
Definition upd_next (n : Z) (s : paging) : paging :=
  Paging (pg_mem s) n (g_kernel_pml4_phys s) (cr3 s) (efer s).
Definition upd_root (n : Z) (s : paging) : paging :=
  Paging (pg_mem s) (g_next_pt_number s) n (cr3 s) (efer s).
Definition upd_cr3 (n : Z) (s : paging) : paging :=
  Paging (pg_mem s) (g_next_pt_number s) (g_kernel_pml4_phys s) n (efer s).
Definition upd_efer (n : Z) (s : paging) : paging :=
  Paging (pg_mem s) (g_next_pt_number s) (g_kernel_pml4_phys s) (cr3 s) n.

Definition pg_write (f : phys -> phys) : M paging unit := kmodify (upd_mem f).
Definition set_next_pt (n : Z) : M paging unit := kmodify (upd_next n).

(** Frame behind a kernel virtual address of the image. *)
Definition kframe (kernel va : Z) : Z := (kernel + (va - KERNEL_VIRTUAL_BASE)) / PAGE_SIZE.

(** Assign some fields of entry [i] of the table in frame [f]. *)
Definition wr_entry (f i : Z) (fs : list (field * Z)) : M paging unit :=
  pg_write (fun m => pset f i (set_fields fs (m f i)) m).

(** [pt[n]] for the array of page tables that begins at [PT_ADDRESS]. *)
Definition wr_pt (kernel n : Z) (fs : list (field * Z)) : M paging unit :=
  wr_entry (kframe kernel PT_ADDRESS + n / 512) (n mod 512) fs.

Definition enable_nxe : M paging unit :=
  kmodify (fun s => upd_efer (Z.lor (efer s) (Z.shiftl 1 11)) s).

(** Zero the PML4, the three PDPTs, the four PDs and the page tables. *)
Definition setup_clear (b : BOOT_INFO) : M paging unit :=
  let k := KernelAddress b in
  kmodify (upd_root (u64 (k + PML4_PHYSICAL_OFFSET))) ;;;
  pg_write (pzero (kframe k PML4_ADDRESS)) ;;;
  pg_write (pzero (kframe k PDPT_ADDRESS)) ;;;
  pg_write (pzero (kframe k PDPT_IDENTITY_ADDRESS)) ;;;
  pg_write (pzero (kframe k PDPT_256_ADDRESS)) ;;;
  pg_write (pzero (kframe k PD_KERNEL_ADDRESS)) ;;;
  pg_write (pzero (kframe k PD_IDENTITY_ADDRESS)) ;;;
  pg_write (pzero (kframe k PD_VIDEO_ADDRESS)) ;;;
  pg_write (pzero (kframe k PD_BITMAP_ADDRESS)) ;;;
  for_ (Z.to_nat NUM_PT_TABLES) 0 (fun t => pg_write (pzero (kframe k PT_ADDRESS + t))).

(** Map the first megabyte one to one through [PT[0]] and link the branch. *)
Definition setup_identity (b : BOOT_INFO) : M paging unit :=
  let k := KernelAddress b in
  for_ 256 0 (fun i =>
    wr_pt k i [(F_P, 1); (F_RW, 1); (F_US, 0);
               (F_ADDR, Z.shiftr (i * PAGE_SIZE) 12); (F_NX, 0)]) ;;;
  set_next_pt 1 ;;;
  wr_entry (kframe k PD_IDENTITY_ADDRESS) 0 (link_pd (Z.shiftr (u64 (k + PT_PHYSICAL_OFFSET)) 12)) ;;;
  wr_entry (kframe k PDPT_IDENTITY_ADDRESS) 0
    (link (Z.shiftr (u64 (k + PD_IDENTITY_PHYSICAL_OFFSET)) 12)) ;;;
  wr_entry (kframe k PML4_ADDRESS) 0
    (link (Z.shiftr (u64 (k + PDPT_IDENTITY_PHYSICAL_OFFSET)) 12)).

(** One page of the kernel image. *)
Definition setup_kernel_page (b : BOOT_INFO) (page : Z) : M paging (unit + unit) :=
  let k := KernelAddress b in
  next <-- kgets g_next_pt_number ;;
  let pt_number := u64 (page / 512 + next) in
  if NUM_PT_TABLES <=? pt_number then kret (inr tt) else
  let physical := u64 (k + page * PAGE_SIZE) in
  let virtual_addr := u64 (KERNEL_VIRTUAL_BASE + page * PAGE_SIZE) in
  let pd_index := GET_PD_INDEX virtual_addr in
  let pt_index := GET_PT_INDEX virtual_addr in
  let current_pt_physical := u64 (u64 (k + PT_PHYSICAL_OFFSET) + pt_number * PAGE_SIZE) in
  wr_entry (kframe k PD_KERNEL_ADDRESS) pd_index (link_pd (Z.shiftr current_pt_physical 12)) ;;;
  wr_pt k (pt_number * 512 + pt_index)
    [(F_P, 1); (F_RW, 1); (F_US, 0); (F_ADDR, Z.shiftr physical 12); (F_NX, 0)] ;;;
  kret (inl tt).

(** Map the kernel image at [KERNEL_VIRTUAL_BASE]. *)
Definition setup_kernel (b : BOOT_INFO) : M paging unit :=
  let k := KernelAddress b in
  let kernel_pages := u64 (KernelMemorySize b + PAGE_SIZE - 1) / PAGE_SIZE in
  wr_entry (kframe k PML4_ADDRESS) 511 (link (Z.shiftr (u64 (k + PDPT_PHYSICAL_OFFSET)) 12)) ;;;
  wr_entry (kframe k PDPT_ADDRESS) 510 (link (Z.shiftr (u64 (k + PD_KERNEL_PHYSICAL_OFFSET)) 12)) ;;;
  loop (Z.to_nat kernel_pages) 0 (fun page _ => setup_kernel_page b page) tt ;;;
  next <-- kgets g_next_pt_number ;;
  set_next_pt (u64 (next + (kernel_pages + 511) / 512)).

(** One page of the framebuffer. *)
Definition setup_framebuffer_page (b : BOOT_INFO) (pt_start page : Z) : M paging (unit + unit) :=
  let k := KernelAddress b in
  let pt_number := u64 (pt_start + page / 512) in
  if NUM_PT_TABLES <=? pt_number then kret (inr tt) else
  let physical := u64 (FrameBufferBase b + page * PAGE_SIZE) in
  let virtual_addr := u64 (KERNEL_VIDEO_VIRTUAL_BASE + page * PAGE_SIZE) in
  let pd_index := GET_PD_INDEX virtual_addr in
  let pt_index := GET_PT_INDEX virtual_addr in
  let current_pt_physical := u64 (u64 (k + PT_PHYSICAL_OFFSET) + pt_number * PAGE_SIZE) in
  wr_entry (kframe k PD_VIDEO_ADDRESS) pd_index (link_pd (Z.shiftr current_pt_physical 12)) ;;;
  wr_pt k (pt_number * 512 + pt_index)
    [(F_P, 1); (F_RW, 1); (F_US, 0); (F_ADDR, Z.shiftr physical 12);
     (F_PWT, 1); (F_PCD, 1); (F_NX, 1)] ;;;
  kret (inl tt).

(** Map at most 64 MB of framebuffer at [KERNEL_VIDEO_VIRTUAL_BASE]. *)
Definition setup_framebuffer (b : BOOT_INFO) : M paging unit :=
  let k := KernelAddress b in
  let framebuffer_size :=
    if 0x4000000 <? FrameBufferSize b then 0x4000000 else FrameBufferSize b in
  let framebuffer_pages := (framebuffer_size + PAGE_SIZE - 1) / PAGE_SIZE in
  wr_entry (kframe k PML4_ADDRESS) 256
    (link (Z.shiftr (u64 (k + PDPT_256_PHYSICAL_OFFSET)) 12)) ;;;
  let framebuffer_pdpt_index := Z.land (Z.shiftr KERNEL_VIDEO_VIRTUAL_BASE 30) 0x1FF in
  wr_entry (kframe k PDPT_256_ADDRESS) framebuffer_pdpt_index
    (link (Z.shiftr (u64 (k + PD_VIDEO_PHYSICAL_OFFSET)) 12)) ;;;
  framebuffer_pt_start <-- kgets g_next_pt_number ;;
  loop (Z.to_nat framebuffer_pages) 0
    (fun page _ => setup_framebuffer_page b framebuffer_pt_start page) tt ;;;
  next <-- kgets g_next_pt_number ;;
  set_next_pt (u64 (next + (framebuffer_pages + 511) / 512)).

(** The whole of [setup_paging]; interrupts are off from here on, and the
    last step loads CR3. *)
Definition setup_paging (b : BOOT_INFO) : M paging unit :=
  setup_clear b ;;;
  setup_identity b ;;;
  setup_kernel b ;;;
  setup_framebuffer b ;;;
  enable_nxe ;;;
  kmodify (upd_cr3 (u64 (KernelAddress b + PML4_PHYSICAL_OFFSET))).

(** One page of the physical-memory bitmap. *)
Definition map_bitmap_page (b : BOOT_INFO) (bitmap_phys_addr pt_start page : Z)
  : M paging (unit + unit) :=
  let k := KernelAddress b in
  let pt_number := u64 (pt_start + page / 512) in
  if NUM_PT_TABLES <=? pt_number then kret (inr tt) else
  let physical := u64 (bitmap_phys_addr + page * PAGE_SIZE) in
  let pd_index := Z.land (page / 512) 0x1FF in
  let pt_index := Z.land page 0x1FF in
  let current_pt_physical := u64 (u64 (k + PT_PHYSICAL_OFFSET) + pt_number * PAGE_SIZE) in
  wr_entry (kframe k PD_BITMAP_ADDRESS) pd_index (link_pd (Z.shiftr current_pt_physical 12)) ;;;
  wr_pt k (pt_number * 512 + pt_index)
    [(F_P, 1); (F_RW, 1); (F_US, 0); (F_ADDR, Z.shiftr physical 12); (F_NX, 1)] ;;;
  kret (inl tt).

Definition paging_map_region_bitmap (b : BOOT_INFO) (bitmap_phys_addr ram_size_bytes : Z)
  : M paging Z :=
  let k := KernelAddress b in
  let bitmap_pages := u64 (ram_size_bytes + PAGE_SIZE - 1) / PAGE_SIZE in
  (wr_entry (kframe k PML4_ADDRESS) 256
     (link (Z.shiftr (u64 (k + PDPT_256_PHYSICAL_OFFSET)) 12)) ;;;
   let bitmap_pdpt_index := Z.land (Z.shiftr KERNEL_BITMAP_VIRTUAL_BASE 30) 0x1FF in
   wr_entry (kframe k PDPT_256_ADDRESS) bitmap_pdpt_index
     (link (Z.shiftr (u64 (k + PD_BITMAP_PHYSICAL_OFFSET)) 12)) ;;;
   bitmap_pt_start <-- kgets g_next_pt_number ;;
   loop (Z.to_nat bitmap_pages) 0
     (fun page _ => map_bitmap_page b bitmap_phys_addr bitmap_pt_start page) tt ;;;
   next <-- kgets g_next_pt_number ;;
   set_next_pt (u64 (next + (bitmap_pages + 511) / 512))) ;;;
  kret KERNEL_BITMAP_VIRTUAL_BASE.

(** ** Bit-field algebra *)

Definition field_ok (f : field) : Prop := 0 <= f_off f /\ 0 <= f_width f.

Definition fields_disjoint (f g : field) : Prop :=
  f_off f + f_width f <= f_off g \/ f_off g + f_width g <= f_off f.

Lemma bf_set_testbit f v e n :
  field_ok f -> 0 <= n ->
  Z.testbit (bf_set f v e) n =
  if (f_off f <=? n) && (n <? f_off f + f_width f)
  then Z.testbit v (n - f_off f) else Z.testbit e n.
Proof.
  intros [Ho Hw] Hn. unfold bf_set.
  rewrite Z.lor_spec, Z.ldiff_spec, !Z.shiftl_spec by done.
  rewrite Z.testbit_ones by done.
  destruct (Z.leb_spec (f_off f) n), (Z.ltb_spec n (f_off f + f_width f)); cbn.
  - rewrite (proj2 (Z.leb_le 0 (n - f_off f))), (proj2 (Z.ltb_lt _ _)) by lia. cbn.
    rewrite andb_false_r, Z.mod_pow2_bits_low by lia. done.
  - rewrite (proj2 (Z.ltb_ge (n - f_off f) (f_width f))), andb_false_r by lia. cbn.
    rewrite andb_true_r, Z.mod_pow2_bits_high by lia. apply orb_false_r.
  - rewrite (proj2 (Z.leb_gt 0 (n - f_off f))) by lia. cbn.
    rewrite andb_true_r, (Z.testbit_neg_r _ (n - f_off f)) by lia. apply orb_false_r.
  - lia.
Qed.

Lemma bf_get_testbit f e n :
  field_ok f -> 0 <= n ->
  Z.testbit (bf_get f e) n = (n <? f_width f) && Z.testbit e (n + f_off f).
Proof.
  intros [Ho Hw] Hn. unfold bf_get. destruct (Z.ltb_spec n (f_width f)); cbn.
  - rewrite Z.mod_pow2_bits_low, Z.div_pow2_bits by lia. done.
  - rewrite Z.mod_pow2_bits_high by lia. done.
Qed.

Lemma bf_get_set_eq f v e : field_ok f -> bf_get f (bf_set f v e) = v mod 2 ^ f_width f.
Proof.
  intros Hf. apply Z.bits_inj'. intros n Hn. destruct Hf as [Ho Hw].
  rewrite bf_get_testbit, bf_set_testbit by (split || lia; lia).
  destruct (Z.ltb_spec n (f_width f)); cbn.
  - rewrite (proj2 (Z.leb_le _ _)), (proj2 (Z.ltb_lt _ _)) by lia. cbn.
    rewrite Z.mod_pow2_bits_low by lia. f_equal. lia.
  - rewrite Z.mod_pow2_bits_high by lia. done.
Qed.

Lemma bf_get_set_ne f g v e :
  field_ok f -> field_ok g -> fields_disjoint f g -> bf_get f (bf_set g v e) = bf_get f e.
Proof.
  intros Hf Hg Hd. apply Z.bits_inj'. intros n Hn.
  pose proof Hf as [Ho Hw]. rewrite !bf_get_testbit by done.
  destruct (Z.ltb_spec n (f_width f)); cbn; [|done].
  rewrite bf_set_testbit by (done || lia). unfold fields_disjoint in Hd.
  destruct (Z.leb_spec (f_off g) (n + f_off f)), (Z.ltb_spec (n + f_off f) (f_off g + f_width g));
    cbn; done || lia.
Qed.

(** Evaluate a field of an entry that was assigned field by field. *)
Ltac bf_solve :=
  unfold set_fields, link, link_pd; cbn [fold_left fst snd];
  repeat (rewrite bf_get_set_ne by (cbv; intuition discriminate));
  try (rewrite bf_get_set_eq by (cbv; intuition discriminate)).

(** ** Reading a written memory *)

Ltac pg_simpl :=
  cbn [pg_mem g_next_pt_number g_kernel_pml4_phys cr3 efer
       upd_mem upd_next upd_root upd_cr3 upd_efer].

Lemma pset_eq f i v m : pset f i v m f i = v.
Proof. unfold pset. by rewrite !Z.eqb_refl. Qed.

Lemma pset_ne f i v m f' i' : f' <> f \/ i' <> i -> pset f i v m f' i' = m f' i'.
Proof.
  intros H. unfold pset.
  destruct (Z.eqb_spec f' f), (Z.eqb_spec i' i); cbn; done || (exfalso; tauto).
Qed.

Lemma pzero_eq f m i : pzero f m f i = 0.
Proof. unfold pzero. by rewrite Z.eqb_refl. Qed.

Lemma pzero_ne f m f' i : f' <> f -> pzero f m f' i = m f' i.
Proof. intros H. unfold pzero. by rewrite (proj2 (Z.eqb_neq _ _) H). Qed.

(** The entry is present and points to a table in frame [a]. *)
Definition points (e a : Z) : Prop :=
  bf_get F_P e = 1 /\ bf_get F_PS e = 0 /\ bf_get F_ADDR e = a.

(** The page-table entry is present and maps frame [a]. *)
Definition maps (e a : Z) : Prop := bf_get F_P e = 1 /\ bf_get F_ADDR e = a.

Lemma points_link_pd e a : 0 <= a < 2 ^ 40 -> points (set_fields (link_pd a) e) a.
Proof. intros Ha. split_and!; bf_solve; [done..|]. by apply Z.mod_small. Qed.

Lemma points_link e a :
  0 <= a < 2 ^ 40 -> bf_get F_PS e = 0 -> points (set_fields (link a) e) a.
Proof. intros Ha He. split_and!; bf_solve; [done..|]. by apply Z.mod_small. Qed.

Lemma mmu_walk_4k m c va a3 a2 a1 fr :
  points (m (bf_get F_ADDR c) (GET_PML4_INDEX va)) a3 ->
  points (m a3 (GET_PDPT_INDEX va)) a2 ->
  points (m a2 (GET_PD_INDEX va)) a1 ->
  maps (m a1 (GET_PT_INDEX va)) fr ->
  mmu_walk m c va = Some (fr * 2 ^ 12 + va mod 2 ^ 12).
Proof.
  intros (P4 & S4 & A4) (P3 & S3 & A3) (P2 & S2 & A2) (P1 & A1). unfold mmu_walk.
  rewrite P4, A4, P3, S3, A3, P2, S2, A2, P1, A1. done.
Qed.

Lemma index_eq n va : 0 <= n -> Z.land (Z.shiftr va n) 0x1FF = (va / 2 ^ n) mod 512.
Proof.
  intros Hn. change 0x1FF with (Z.ones 9). rewrite Z.land_ones by lia.
  by rewrite Z.shiftr_div_pow2.
Qed.

Lemma kframe_off kf o : kframe (kf * PAGE_SIZE) (KERNEL_VIRTUAL_BASE + o * PAGE_SIZE) = kf + o.
Proof.
  unfold kframe, PAGE_SIZE. replace (_ + (_ + _ - _)) with ((kf + o) * 4096) by lia.
  by apply Z.div_mul.
Qed.

(** ** What each phase of [setup_paging] leaves in memory

    [kf] is the frame of the kernel image; the static tables are the frames
    [kf + 0x100 .. kf + 0x108 + NUM_PT_TABLES). *)

Section setup.
Context (b : BOOT_INFO) (kf : Z).
Hypothesis Hk : KernelAddress b = kf * PAGE_SIZE.
Hypothesis Hkf : 0 <= kf /\ kf + 0x200 < 2 ^ 40.

Ltac kframes :=
  rewrite ?Hk;
  rewrite ?(kframe_off kf 0x100 : kframe _ PML4_ADDRESS = _),
    ?(kframe_off kf 0x101 : kframe _ PDPT_ADDRESS = _),
    ?(kframe_off kf 0x102 : kframe _ PDPT_IDENTITY_ADDRESS = _),
    ?(kframe_off kf 0x103 : kframe _ PDPT_256_ADDRESS = _),
    ?(kframe_off kf 0x104 : kframe _ PD_IDENTITY_ADDRESS = _),
    ?(kframe_off kf 0x105 : kframe _ PD_KERNEL_ADDRESS = _),
    ?(kframe_off kf 0x106 : kframe _ PD_VIDEO_ADDRESS = _),
    ?(kframe_off kf 0x107 : kframe _ PD_BITMAP_ADDRESS = _),
    ?(kframe_off kf 0x108 : kframe _ PT_ADDRESS = _).

Lemma table_frame o : 0 <= o < 0x200 -> Z.shiftr (u64 (kf * PAGE_SIZE + o * PAGE_SIZE)) 12 = kf + o.
Proof.
  intros Ho. unfold PAGE_SIZE. rewrite u64_small by lia. rewrite Z.shiftr_div_pow2 by lia.
  replace (kf * 4096 + o * 4096) with ((kf + o) * 2 ^ 12) by lia. by apply Z.div_mul.
Qed.

Lemma pt_frame t :
  0 <= t < 0xF0 ->
  Z.shiftr (u64 (u64 (kf * PAGE_SIZE + PT_PHYSICAL_OFFSET) + t * PAGE_SIZE)) 12 = kf + 0x108 + t.
Proof.
  intros Ht. unfold PAGE_SIZE, PT_PHYSICAL_OFFSET. rewrite (u64_small (kf * _ + _)) by lia.
  rewrite u64_small by lia. rewrite Z.shiftr_div_pow2 by lia.
  replace (kf * 4096 + 1081344 + t * 4096) with ((kf + 0x108 + t) * 2 ^ 12) by lia.
  by apply Z.div_mul.
Qed.

Lemma wp_setup_clear s :
  wp (setup_clear b)
    (fun _ s' => g_next_pt_number s' = g_next_pt_number s /\
       forall f i, kf + 0x100 <= f < kf + 0x108 + NUM_PT_TABLES -> pg_mem s' f i = 0) s.
Proof.
  unfold setup_clear, pg_write. wp_steps.
  apply (wp_for (fun t s' => g_next_pt_number s' = g_next_pt_number s /\
    forall f i, kf + 0x100 <= f < kf + 0x108 + t -> pg_mem s' f i = 0)); pg_simpl.
  - split; [done|]. intros f i Hf. kframes. unfold pzero.
    repeat (case_if; [done|]). lia.
  - intros t s' Ht [Hn Hz]. wp_steps. pg_simpl. split; [done|]. intros f i Hf. kframes.
    unfold pzero. case_if; [done|]. apply Hz. lia.
  - tauto.
Qed.

Lemma wp_setup_identity s :
  (forall f i, kf + 0x100 <= f < kf + 0x108 -> pg_mem s f i = 0) ->
  wp (setup_identity b)
    (fun _ s' => g_next_pt_number s' = 1 /\
       points (pg_mem s' (kf + 0x100) 0) (kf + 0x102) /\
       points (pg_mem s' (kf + 0x102) 0) (kf + 0x104) /\
       points (pg_mem s' (kf + 0x104) 0) (kf + 0x108) /\
       (forall i, 0 <= i < 256 -> maps (pg_mem s' (kf + 0x108) i) i) /\
       (forall f i, f <> kf + 0x102 -> f <> kf + 0x104 -> f <> kf + 0x108 ->
          f <> kf + 0x100 \/ i <> 0 -> pg_mem s' f i = pg_mem s f i)) s.
Proof.
  intros Hz. unfold setup_identity. wp_steps.
  apply (wp_for (fun n s' =>
    (forall i, 0 <= i < n -> maps (pg_mem s' (kf + 0x108) i) i) /\
    forall f i, f <> kf + 0x108 -> pg_mem s' f i = pg_mem s f i)).
  - split; [lia | done].
  - intros n s' Hn [Hm Hf]. unfold wr_pt, wr_entry, pg_write. wp_steps. pg_simpl. kframes.
    rewrite Z.div_small, Z.mod_small, Z.add_0_r by lia. split.
    + intros i Hi. destruct (Z.eq_dec i n) as [->|].
      * rewrite pset_eq. split; bf_solve; [done|]. change PAGE_SIZE with (2 ^ 12).
        rewrite Z.shiftr_div_pow2, Z.div_mul by lia. apply Z.mod_small. cbn. lia.
      * rewrite pset_ne by lia. apply Hm. lia.
    + intros f i Hne. rewrite pset_ne by lia. by apply Hf.
  - intros s' [Hm Hf]. unfold set_next_pt, wr_entry, pg_write. wp_steps. pg_simpl. kframes.
    change PDPT_IDENTITY_PHYSICAL_OFFSET with (0x102 * PAGE_SIZE).
    change PD_IDENTITY_PHYSICAL_OFFSET with (0x104 * PAGE_SIZE).
    change PT_PHYSICAL_OFFSET with (0x108 * PAGE_SIZE).
    rewrite !table_frame by lia.
    split_and!; [done | ..].
    + rewrite pset_eq, !pset_ne by lia. apply points_link; [lia|].
      rewrite Hf, Hz by lia. done.
    + rewrite !pset_ne, pset_eq, pset_ne by lia. apply points_link; [lia|].
      rewrite Hf, Hz by lia. done.
    + rewrite !pset_ne, pset_eq by lia. apply points_link_pd. lia.
    + intros i Hi. rewrite !pset_ne by lia. by apply Hm.
    + intros f i H1 H2 H3 H4. rewrite !pset_ne by tauto. by apply Hf.
Qed.

(** A loop that maps [n] consecutive pages: the directory in frame [pdf] from
    entry [d0] on links the page tables in frames [t0 ..], which map the
    frames [base ..]. *)
Lemma wp_map_pages pdf d0 t0 base n (body : Z -> M paging (unit + unit)) s :
  pdf < t0 ->
  (forall page s', 0 <= page < Z.of_nat n -> g_next_pt_number s' = g_next_pt_number s ->
     wp (body page) (fun r s'' =>
       r = inl tt /\ g_next_pt_number s'' = g_next_pt_number s' /\
       exists e1 e2, points e2 (t0 + page / 512) /\ maps e1 (base + page) /\
         pg_mem s'' = pset (t0 + page / 512) (page mod 512) e1
                        (pset pdf (d0 + page / 512) e2 (pg_mem s'))) s') ->
  wp (loop n 0 (fun page _ => body page) tt)
    (fun _ s' => g_next_pt_number s' = g_next_pt_number s /\
       (forall page, 0 <= page < Z.of_nat n ->
          points (pg_mem s' pdf (d0 + page / 512)) (t0 + page / 512) /\
          maps (pg_mem s' (t0 + page / 512) (page mod 512)) (base + page)) /\
       (forall f i, f <> pdf -> f < t0 \/ t0 + (Z.of_nat n + 511) / 512 <= f ->
          pg_mem s' f i = pg_mem s f i)) s.
Proof.
  intros Hlt Hbody.
  apply (wp_loop (fun k (_ : unit) s' => g_next_pt_number s' = g_next_pt_number s /\
    (forall page, 0 <= page < k ->
       points (pg_mem s' pdf (d0 + page / 512)) (t0 + page / 512) /\
       maps (pg_mem s' (t0 + page / 512) (page mod 512)) (base + page)) /\
    (forall f i, f <> pdf -> f < t0 \/ t0 + (Z.of_nat n + 511) / 512 <= f ->
       pg_mem s' f i = pg_mem s f i))).
  - split_and!; [done | lia | done].
  - intros k [] s' Hkr (Hn & Hm & Hf).
    eapply wp_mono; [by apply Hbody; [lia|]|].
    intros r s'' (-> & Hn' & e1 & e2 & He2 & He1 & ->). split_and!; [congruence | |].
    + intros page Hp.
      pose proof (Z.div_mod k 512 ltac:(lia)). pose proof (Z.div_mod page 512 ltac:(lia)).
      assert (0 <= page / 512 /\ 0 <= k / 512) by (split; apply Z.div_pos; lia).
      split.
      * rewrite pset_ne by lia. destruct (Z.eq_dec (page / 512) (k / 512)) as [->|].
        -- by rewrite pset_eq.
        -- rewrite pset_ne by lia. assert (page <> k) by congruence. apply Hm. lia.
      * destruct (Z.eq_dec page k) as [->|]; [by rewrite pset_eq|].
        rewrite !pset_ne by lia. apply Hm. lia.
    + intros f i Hne Hr. assert (k / 512 <= (Z.of_nat n + 511) / 512 - 1).
      { replace ((Z.of_nat n + 511) / 512 - 1) with ((Z.of_nat n - 1) / 512).
        - apply Z.div_le_mono; lia.
        - replace (Z.of_nat n + 511) with (Z.of_nat n - 1 + 1 * 512) by lia.
          rewrite Z.div_add by lia. lia. }
      assert (0 <= k / 512) by (apply Z.div_pos; lia).
      rewrite !pset_ne by lia. by apply Hf.
  - intros [] s' (Hn & Hm & Hf). split_and!; [done | |done].
    intros page Hp. apply Hm. lia.
Qed.

Lemma maps_pt e a fs :
  0 <= a < 2 ^ 40 ->
  bf_get F_P (set_fields fs e) = 1 -> bf_get F_ADDR (set_fields fs e) = a mod 2 ^ 40 ->
  maps (set_fields fs e) a.
Proof. intros Ha H1 H2. split; [done|]. rewrite H2. by apply Z.mod_small. Qed.

(** Frame of a page of a physically contiguous, aligned region. *)
Lemma region_frame bf page :
  0 <= bf -> 0 <= page -> bf + page < 2 ^ 40 ->
  Z.shiftr (u64 (bf * PAGE_SIZE + page * PAGE_SIZE)) 12 = bf + page.
Proof.
  intros H1 H2 H3. rewrite <- Z.mul_add_distr_r. unfold PAGE_SIZE. rewrite u64_small by lia.
  rewrite Z.shiftr_div_pow2 by lia. by apply (Z.div_mul (bf + page) (2 ^ 12)).
Qed.

(** Indices of an address [off] bytes into a window that begins at entry [d0]
    of the page directory behind entries [a] and [q]. *)
Lemma va_indices a q d0 off :
  0 <= q < 512 -> 0 <= d0 -> 0 <= off -> d0 + off / 4096 / 512 < 512 ->
  let va := a * 2 ^ 39 + q * 2 ^ 30 + d0 * 2 ^ 21 + off in
  GET_PML4_INDEX va = a mod 512 /\ GET_PDPT_INDEX va = q /\
  GET_PD_INDEX va = d0 + off / 4096 / 512 /\ GET_PT_INDEX va = (off / 4096) mod 512 /\
  va mod 2 ^ 12 = off mod 2 ^ 12.
Proof.
  intros Hq Hd Ho Hlt va. unfold GET_PML4_INDEX, GET_PDPT_INDEX, GET_PD_INDEX, GET_PT_INDEX.
  rewrite !index_eq by lia. subst va.
  change (2 ^ 39) with 549755813888. change (2 ^ 30) with 1073741824.
  change (2 ^ 21) with 2097152. change (2 ^ 12) with 4096.
  split_and!; zdiv_lia.
Qed.

(** The indices of the first byte of page [page] of such a window. *)
Lemma page_indices base a q d0 page :
  base = a * 2 ^ 39 + q * 2 ^ 30 + d0 * 2 ^ 21 ->
  0 <= q < 512 -> 0 <= d0 -> 0 <= page -> d0 + page / 512 < 512 ->
  GET_PD_INDEX (base + page * PAGE_SIZE) = d0 + page / 512 /\
  GET_PT_INDEX (base + page * PAGE_SIZE) = page mod 512.
Proof.
  intros -> Hq Hd Hp Hlt. pose proof (Z.div_mul page 4096 ltac:(lia)) as E.
  destruct (va_indices a q d0 (page * PAGE_SIZE)) as (_ & _ & H1 & H2 & _);
    unfold PAGE_SIZE in *; rewrite ?E in *; try done; lia.
Qed.

(** Slot of the array of page tables. *)
Lemma pt_slot T idx :
  0 <= idx < 512 -> (T * 512 + idx) / 512 = T /\ (T * 512 + idx) mod 512 = idx.
Proof.
  intros Hi. rewrite Z.add_comm, Z.div_add, Z.mod_add, Z.div_small, Z.mod_small by lia. lia.
Qed.

(** Table number of the last page. *)
Lemma last_table n page : 0 <= page < n -> 0 <= page / 512 <= (n + 511) / 512 - 1.
Proof.
  intros Hp. split; [apply Z.div_pos; lia|].
  replace (n + 511) with (n - 1 + 1 * 512) by lia. rewrite Z.div_add by lia.
  assert (page / 512 <= (n - 1) / 512) by (apply Z.div_le_mono; lia). lia.
Qed.

(** The body of the framebuffer and of the bitmap loop: assign a directory
    entry and a page-table entry. *)
Lemma wp_page_body pdf T d idx a fs s :
  0 <= T < NUM_PT_TABLES -> 0 <= idx < 512 -> 0 <= a < 2 ^ 40 ->
  (forall e, bf_get F_P (set_fields fs e) = 1) ->
  (forall e, bf_get F_ADDR (set_fields fs e) = a mod 2 ^ 40) ->
  wp (wr_entry pdf d (link_pd (Z.shiftr (u64 (u64 (kf * PAGE_SIZE + PT_PHYSICAL_OFFSET)
                                              + T * PAGE_SIZE)) 12)) ;;;
      wr_pt (kf * PAGE_SIZE) (T * 512 + idx) fs ;;; kret (@inl unit unit tt))
    (fun r s'' => r = inl tt /\ g_next_pt_number s'' = g_next_pt_number s /\
       exists e1 e2, points e2 (kf + 0x108 + T) /\ maps e1 a /\
         pg_mem s'' = pset (kf + 0x108 + T) idx e1 (pset pdf d e2 (pg_mem s))) s.
Proof.
  intros HT Hi Ha HP HA. unfold NUM_PT_TABLES in HT.
  unfold wr_pt, wr_entry, pg_write. wp_steps. pg_simpl. kframes.
  destruct (pt_slot T idx Hi) as [-> ->]. rewrite pt_frame by lia.
  split_and!; [done..|]. do 2 eexists. split_and!; [| |done].
  - apply points_link_pd. lia.
  - by apply maps_pt.
Qed.

(** Number of pages of the kernel image, and of the framebuffer that is
    mapped. *)
Definition kernel_pages : Z := u64 (KernelMemorySize b + PAGE_SIZE - 1) / PAGE_SIZE.
Definition fb_pages : Z :=
  ((if 0x4000000 <? FrameBufferSize b then 0x4000000 else FrameBufferSize b)
     + PAGE_SIZE - 1) / PAGE_SIZE.

Lemma wp_setup_kernel s :
  g_next_pt_number s = 1 -> kf + kernel_pages < 2 ^ 40 ->
  1 + (kernel_pages + 511) / 512 <= NUM_PT_TABLES ->
  bf_get F_PS (pg_mem s (kf + 0x100) 511) = 0 -> bf_get F_PS (pg_mem s (kf + 0x101) 510) = 0 ->
  wp (setup_kernel b)
    (fun _ s' => g_next_pt_number s' = 1 + (kernel_pages + 511) / 512 /\
       points (pg_mem s' (kf + 0x100) 511) (kf + 0x101) /\
       points (pg_mem s' (kf + 0x101) 510) (kf + 0x105) /\
       (forall page, 0 <= page < kernel_pages ->
          points (pg_mem s' (kf + 0x105) (page / 512)) (kf + 0x109 + page / 512) /\
          maps (pg_mem s' (kf + 0x109 + page / 512) (page mod 512)) (kf + page)) /\
       (forall f i, f <> kf + 0x105 -> f <> kf + 0x101 -> f <> kf + 0x100 \/ i <> 511 ->
          f < kf + 0x109 \/ kf + 0x109 + (kernel_pages + 511) / 512 <= f ->
          pg_mem s' f i = pg_mem s f i)) s.
Proof.
  intros Hn Hkp Htab Hps1 Hps2.
  assert (H0 : 0 <= kernel_pages).
  { unfold kernel_pages, PAGE_SIZE. apply Z.div_pos; [apply u64_range | lia]. }
  unfold setup_kernel. fold kernel_pages. unfold wr_entry, pg_write. wp_steps.
  eapply wp_mono.
  - apply (wp_map_pages (kf + 0x105) 0 (kf + 0x109) kf); [lia|].
    intros page s' Hp Hn'. rewrite Z2Nat.id in Hp by done.
    change (g_next_pt_number s' = g_next_pt_number s) in Hn'.
    unfold setup_kernel_page. wp_steps. rewrite Hn', Hn, Hk.
    pose proof (last_table _ _ Hp) as Hlast. unfold NUM_PT_TABLES in *.
    rewrite (u64_small (page / 512 + 1)), (proj2 (Z.leb_gt _ _)) by lia.
    pose proof (Z.mod_pos_bound page 512 ltac:(lia)). pose proof (Z.div_mod page 512 ltac:(lia)).
    destruct (page_indices KERNEL_VIRTUAL_BASE (2 ^ 25 - 1) 510 0 page) as [Ed Et]; [done | lia..|].
    rewrite (u64_small (KERNEL_VIRTUAL_BASE + _)), Ed, Et
      by (unfold KERNEL_VIRTUAL_BASE, PAGE_SIZE; lia).
    kframes. replace (kf + 265 + page / 512) with (kf + 264 + (page / 512 + 1)) by lia.
    eapply wp_mono.
    { apply (wp_page_body (kf + 261) (page / 512 + 1) (0 + page / 512) (page mod 512) (kf + page));
        unfold NUM_PT_TABLES; try lia; intros e; bf_solve; [done|].
      by rewrite (region_frame kf page) by lia. }
    cbn beta. intros r s'' (-> & Hs & He). split_and!; [done | congruence | done].
  - cbn beta. intros _ s' (Hn' & Hm & Hf). rewrite Z2Nat.id in Hm, Hf by done.
    unfold set_next_pt. wp_steps. pg_simpl.
    change (g_next_pt_number s' = g_next_pt_number s) in Hn'. rewrite Hn', Hn.
    change PDPT_PHYSICAL_OFFSET with (0x101 * PAGE_SIZE) in *.
    change PD_KERNEL_PHYSICAL_OFFSET with (0x105 * PAGE_SIZE) in *.
    rewrite Hk, !table_frame in Hf by lia.
    rewrite (kframe_off kf 0x100 : kframe _ PML4_ADDRESS = _),
      (kframe_off kf 0x101 : kframe _ PDPT_ADDRESS = _) in Hf.
    assert (0 <= (kernel_pages + 511) / 512) by (apply Z.div_pos; lia).
    split_and!.
    + unfold NUM_PT_TABLES in *. rewrite u64_small; lia.
    + rewrite Hf by lia. pg_simpl. rewrite pset_ne, pset_eq by lia. apply points_link; [lia | done].
    + rewrite Hf by lia. pg_simpl. rewrite pset_eq. apply points_link; [lia|].
      by rewrite pset_ne by lia.
    + intros page Hp. by apply Hm.
    + intros f i H1 H2 H3 H4. rewrite Hf by lia. pg_simpl. rewrite !pset_ne by lia. done.
Qed.

(** A window under [PML4[256]]: link the two upper levels, then map [n] pages
    with page tables taken from [g_next_pt_number] on. *)
Lemma wp_window q pdf d0 fr n (body : Z -> Z -> M paging (unit + unit)) s :
  0 <= q -> kf + 0x104 <= pdf < kf + 0x108 -> 0 <= n ->
  1 <= g_next_pt_number s -> g_next_pt_number s + (n + 511) / 512 <= NUM_PT_TABLES ->
  bf_get F_PS (pg_mem s (kf + 0x100) 256) = 0 -> bf_get F_PS (pg_mem s (kf + 0x103) q) = 0 ->
  (forall start page s', start = g_next_pt_number s -> 0 <= page < n ->
     wp (body start page) (fun r s'' =>
       r = inl tt /\ g_next_pt_number s'' = g_next_pt_number s' /\
       exists e1 e2, points e2 (kf + 0x108 + (start + page / 512)) /\ maps e1 (fr + page) /\
         pg_mem s'' = pset (kf + 0x108 + (start + page / 512)) (page mod 512) e1
                        (pset pdf (d0 + page / 512) e2 (pg_mem s'))) s') ->
  wp (wr_entry (kf + 0x100) 256 (link (kf + 0x103)) ;;;
      wr_entry (kf + 0x103) q (link pdf) ;;;
      start <-- kgets g_next_pt_number ;;
      loop (Z.to_nat n) 0 (fun page _ => body start page) tt ;;;
      next <-- kgets g_next_pt_number ;;
      set_next_pt (u64 (next + (n + 511) / 512)))
    (fun _ s' =>
       g_next_pt_number s' = g_next_pt_number s + (n + 511) / 512 /\
       points (pg_mem s' (kf + 0x100) 256) (kf + 0x103) /\
       points (pg_mem s' (kf + 0x103) q) pdf /\
       (forall page, 0 <= page < n ->
          let t := kf + 0x108 + g_next_pt_number s + page / 512 in
          points (pg_mem s' pdf (d0 + page / 512)) t /\ maps (pg_mem s' t (page mod 512)) (fr + page)) /\
       (forall f i, f <> pdf -> f <> kf + 0x100 \/ i <> 256 -> f <> kf + 0x103 \/ i <> q ->
          f < kf + 0x108 + g_next_pt_number s \/
          kf + 0x108 + g_next_pt_number s + (n + 511) / 512 <= f ->
          pg_mem s' f i = pg_mem s f i)) s.
Proof.
  intros Hq Hpdf H0 Hn1 Hn2 Hps1 Hps2 Hbody. unfold NUM_PT_TABLES in Hn2.
  assert (0 <= (n + 511) / 512) by (apply Z.div_pos; lia).
  unfold wr_entry, pg_write. wp_steps. pg_simpl. eapply wp_mono.
  - apply (wp_map_pages pdf d0 (kf + 0x108 + g_next_pt_number s) fr); [lia|].
    intros page s' Hp _. rewrite Z2Nat.id in Hp by done.
    eapply wp_mono; [by apply Hbody|]. cbn beta. intros r s'' (-> & Hs & e1 & e2 & H1 & H2 & H3).
    replace (kf + 264 + g_next_pt_number s + page / 512)
      with (kf + 264 + (g_next_pt_number s + page / 512)) by lia. eauto 10.
  - cbn beta. intros _ s' (Hn' & Hm & Hf). rewrite Z2Nat.id in Hm, Hf by done.
    unfold set_next_pt. wp_steps. pg_simpl.
    change (g_next_pt_number s' = g_next_pt_number s) in Hn'. rewrite Hn'.
    rewrite u64_small by lia. split_and!; [done | ..].
    + rewrite Hf by lia. pg_simpl. rewrite pset_ne, pset_eq by lia. apply points_link; [lia | done].
    + rewrite Hf by lia. pg_simpl. rewrite pset_eq. apply points_link; [lia|].
      by rewrite pset_ne by lia.
    + intros page Hp. by apply Hm.
    + intros f i H1 H2 H3 H4. rewrite Hf by lia. pg_simpl. rewrite !pset_ne by lia. done.
Qed.

Lemma wp_setup_framebuffer fb s :
  FrameBufferBase b = fb * PAGE_SIZE -> 0 <= fb -> 0 <= FrameBufferSize b ->
  fb + fb_pages < 2 ^ 40 ->
  1 <= g_next_pt_number s -> g_next_pt_number s + (fb_pages + 511) / 512 <= NUM_PT_TABLES ->
  bf_get F_PS (pg_mem s (kf + 0x100) 256) = 0 -> bf_get F_PS (pg_mem s (kf + 0x103) 3) = 0 ->
  wp (setup_framebuffer b)
    (fun _ s' =>
       points (pg_mem s' (kf + 0x100) 256) (kf + 0x103) /\
       points (pg_mem s' (kf + 0x103) 3) (kf + 0x106) /\
       (forall page, 0 <= page < fb_pages ->
          let t := kf + 0x108 + g_next_pt_number s + page / 512 in
          points (pg_mem s' (kf + 0x106) (256 + page / 512)) t /\
          maps (pg_mem s' t (page mod 512)) (fb + page)) /\
       (forall f i, f <> kf + 0x106 -> f <> kf + 0x100 \/ i <> 256 -> f <> kf + 0x103 \/ i <> 3 ->
          f < kf + 0x108 + g_next_pt_number s \/
          kf + 0x108 + g_next_pt_number s + (fb_pages + 511) / 512 <= f ->
          pg_mem s' f i = pg_mem s f i)) s.
Proof.
  intros Hfb Hfb0 Hsz Hb Hn1 Hn2 Hp1 Hp2.
  assert (Hfp : 0 <= fb_pages <= 16384).
  { unfold fb_pages, PAGE_SIZE. case_if; [done|]. zdiv_lia. }
  unfold setup_framebuffer. fold fb_pages. kframes.
  change (Z.land (Z.shiftr KERNEL_VIDEO_VIRTUAL_BASE 30) 0x1FF) with 3. cbv zeta.
  change PDPT_256_PHYSICAL_OFFSET with (0x103 * PAGE_SIZE).
  change PD_VIDEO_PHYSICAL_OFFSET with (0x106 * PAGE_SIZE). rewrite !table_frame by lia.
  eapply wp_mono.
  { apply (wp_window 3 (kf + 0x106) 256 fb fb_pages (setup_framebuffer_page b)); try done; try lia.
    intros start page s' -> Hp. pose proof (last_table _ _ Hp) as Hlast.
    unfold setup_framebuffer_page, NUM_PT_TABLES in *. rewrite Hk, Hfb.
    rewrite (u64_small (_ + page / 512)), (proj2 (Z.leb_gt _ _)) by lia.
    pose proof (Z.mod_pos_bound page 512 ltac:(lia)). pose proof (Z.div_mod page 512 ltac:(lia)).
    destruct (page_indices KERNEL_VIDEO_VIRTUAL_BASE (2 ^ 25 - 256) 3 256 page) as [Ed Et];
      [done | lia..|].
    rewrite (u64_small (KERNEL_VIDEO_VIRTUAL_BASE + _)), Ed, Et
      by (unfold KERNEL_VIDEO_VIRTUAL_BASE, PAGE_SIZE; lia).
    kframes. apply wp_page_body; unfold NUM_PT_TABLES; try lia; intros e; bf_solve; [done|].
    by rewrite (region_frame fb page) by lia. }
  cbn beta. tauto.
Qed.

(** An address [off] bytes into a window whose tables are linked and filled
    translates to the same offset of the mapped region. *)
Lemma window_walk m c base a q d0 pdp pd t0 fr n off :
  base = a * 2 ^ 39 + q * 2 ^ 30 + d0 * 2 ^ 21 ->
  0 <= q < 512 -> 0 <= d0 -> d0 + (n + 511) / 512 <= 512 ->
  points (m (bf_get F_ADDR c) (a mod 512)) pdp -> points (m pdp q) pd ->
  (forall page, 0 <= page < n ->
     points (m pd (d0 + page / 512)) (t0 + page / 512) /\
     maps (m (t0 + page / 512) (page mod 512)) (fr + page)) ->
  0 <= off < n * PAGE_SIZE ->
  mmu_walk m c (base + off) = Some (fr * PAGE_SIZE + off).
Proof.
  intros -> Hq Hd Hn H4 H3 Hp Hoff. unfold PAGE_SIZE in *.
  assert (Hpg : 0 <= off / 4096 < n) by zdiv_lia.
  pose proof (last_table _ _ Hpg) as Hlast. destruct (Hp _ Hpg) as [H2 H1].
  destruct (va_indices a q d0 off) as (E4 & E3 & E2 & E1 & Eo); [lia..|].
  erewrite mmu_walk_4k; [| by rewrite E4 | by rewrite E3 | by rewrite E2 | by rewrite E1].
  f_equal. rewrite Eo. change (2 ^ 12) with 4096. zdiv_lia.
Qed.

End setup.

(** Frame of the PML4 in CR3. *)
Lemma root_frame kf :
  0 <= kf -> kf + 0x200 < 2 ^ 40 ->
  bf_get F_ADDR (kf * PAGE_SIZE + PML4_PHYSICAL_OFFSET) = kf + 0x100.
Proof.
  intros H0 H1. unfold bf_get, PML4_PHYSICAL_OFFSET, PAGE_SIZE. cbn [f_off f_width F_ADDR].
  change (2 ^ 12) with 4096. change (2 ^ 40) with 1099511627776 in *. zdiv_lia.
Qed.

(** The bitmap mapping finishes whatever the state and leaves CR3. *)
Lemma wp_paging_map_region_bitmap_total b a n s :
  wp (paging_map_region_bitmap b a n)
    (fun r s' => r = KERNEL_BITMAP_VIRTUAL_BASE /\ cr3 s' = cr3 s) s.
Proof.
  unfold paging_map_region_bitmap, wr_entry, pg_write. wp_steps.
  apply (wp_loop (fun _ _ s' => cr3 s' = cr3 s)); [done | |].
  - intros page [] s' _ Hs. unfold map_bitmap_page. case_if; [by wp_steps|].
    unfold wr_pt, wr_entry, pg_write. by wp_steps.
  - intros [] s' Hs. unfold set_next_pt. by wp_steps.
Qed.

(** C13: The address space [setup_paging] hands to the processor.  The first
    megabyte is mapped one to one, every byte of the kernel image is mapped at
    [KERNEL_VIRTUAL_BASE], every byte of the (at most 64 MB of) framebuffer at
    [KERNEL_VIDEO_VIRTUAL_BASE]; CR3 holds the physical address of the PML4
    and EFER.NXE is set.  The hypotheses are the alignment the boot loader
    guarantees, the 52-bit physical address space, and that the statically
    reserved page tables suffice. *)
Theorem setup_paging_translation b kf fb s :
  KernelAddress b = kf * PAGE_SIZE -> 0 <= kf -> kf + 0x200 < 2 ^ 40 ->
  kf + kernel_pages b < 2 ^ 40 ->
  FrameBufferBase b = fb * PAGE_SIZE -> 0 <= fb -> 0 <= FrameBufferSize b ->
  fb + fb_pages b < 2 ^ 40 ->
  1 + (kernel_pages b + 511) / 512 + (fb_pages b + 511) / 512 <= NUM_PT_TABLES ->
  wp (setup_paging b)
    (fun _ s' =>
       cr3 s' = KernelAddress b + PML4_PHYSICAL_OFFSET /\ Z.testbit (efer s') 11 = true /\
       (forall va, 0 <= va < 0x100000 -> mmu_walk (pg_mem s') (cr3 s') va = Some va) /\
       (forall off, 0 <= off < kernel_pages b * PAGE_SIZE ->
          mmu_walk (pg_mem s') (cr3 s') (KERNEL_VIRTUAL_BASE + off) = Some (KernelAddress b + off)) /\
       (forall off, 0 <= off < fb_pages b * PAGE_SIZE ->
          mmu_walk (pg_mem s') (cr3 s') (KERNEL_VIDEO_VIRTUAL_BASE + off) =
          Some (FrameBufferBase b + off))) s.
Proof.
  intros Hk Hkf0 Hkf1 Hkp Hfb Hfb0 Hsz Hfp Htab.
  assert (Hk0 : 0 <= kernel_pages b).
  { unfold kernel_pages, PAGE_SIZE. apply Z.div_pos; [apply u64_range | lia]. }
  assert (Hf0 : 0 <= fb_pages b) by (unfold fb_pages, PAGE_SIZE; case_if; zdiv_lia).
  assert (0 <= (kernel_pages b + 511) / 512) by (apply Z.div_pos; lia).
  assert (0 <= (fb_pages b + 511) / 512) by (apply Z.div_pos; lia).
  unfold NUM_PT_TABLES in Htab. unfold setup_paging.
  apply wp_bind. eapply wp_mono; [by apply (wp_setup_clear b kf)|].
  cbn beta. intros _ s1 [_ Z1]. unfold NUM_PT_TABLES in Z1.
  apply wp_bind. eapply wp_mono; [apply (wp_setup_identity b kf); try done; intros; apply Z1; lia|].
  cbn beta. intros _ s2 (N2 & I4 & I3 & I2 & I1 & F2).
  apply wp_bind. eapply wp_mono.
  { apply (wp_setup_kernel b kf); try done; try (unfold NUM_PT_TABLES; lia);
      rewrite F2, Z1 by lia; done. }
  cbn beta. intros _ s3 (N3 & K4 & K3 & K2 & F3).
  apply wp_bind. eapply wp_mono.
  { apply (wp_setup_framebuffer b kf Hk ltac:(lia) fb); try done;
      try (unfold NUM_PT_TABLES; lia); rewrite F3, F2, Z1 by lia; done. }
  cbn beta. intros _ s4 (V4 & V3 & V2 & F4). rewrite N3 in *.
  unfold enable_nxe. wp_steps. pg_simpl.
  assert (Hc : u64 (KernelAddress b + PML4_PHYSICAL_OFFSET) = KernelAddress b + PML4_PHYSICAL_OFFSET).
  { apply u64_small. rewrite Hk. unfold PAGE_SIZE, PML4_PHYSICAL_OFFSET. lia. }
  assert (Hroot : bf_get F_ADDR (KernelAddress b + PML4_PHYSICAL_OFFSET) = kf + 0x100)
    by (rewrite Hk; apply root_frame; lia).
  rewrite Hc. split_and!; [done | | ..].
  { rewrite Z.lor_spec. apply orb_true_r. }
  - intros va Hva.
    replace (mmu_walk _ _ va) with (mmu_walk (pg_mem s4) (KernelAddress b + PML4_PHYSICAL_OFFSET) (0 + va))
      by (by rewrite Z.add_0_l).
    rewrite (window_walk _ _ 0 0 0 0 (kf + 0x102) (kf + 0x104) (kf + 0x108) 0 256 va); try done.
    + change (0 mod 512) with 0. by rewrite Hroot, F4, F3 by lia.
    + by rewrite F4, F3 by lia.
    + intros page Hp. replace (page / 512) with 0 by zdiv_lia.
      rewrite (Z.mod_small page), !Z.add_0_r by lia.
      rewrite !F4, !F3 by lia. split; [done | by apply I1].
  - intros off Hoff. rewrite Hk.
    rewrite (window_walk _ _ KERNEL_VIRTUAL_BASE (2 ^ 25 - 1) 510 0 (kf + 0x101) (kf + 0x105)
               (kf + 0x109) kf (kernel_pages b) off); try done; try lia.
    + change ((2 ^ 25 - 1) mod 512) with 511. by rewrite <- Hk, Hroot, F4 by lia.
    + by rewrite F4 by lia.
    + intros page Hp. pose proof (last_table _ _ Hp). rewrite !F4 by lia. by apply K2.
  - intros off Hoff. rewrite Hfb.
    apply (window_walk _ _ KERNEL_VIDEO_VIRTUAL_BASE (2 ^ 25 - 256) 3 256 (kf + 0x103) (kf + 0x106)
             (kf + 0x108 + (1 + (kernel_pages b + 511) / 512)) fb (fb_pages b) off); try done; try lia.
    by rewrite Hroot.
Qed.

(** A 2 MB kernel at 16 MB with a 1024 x 768 framebuffer. *)
Definition example_boot : BOOT_INFO := BootInfo 0x1000000 0x200000 0xC0000000 0x300000 0 [].

Lemma setup_paging_translation_witness :
  wp (setup_paging example_boot) (fun _ s' =>
    mmu_walk (pg_mem s') (cr3 s') (KERNEL_VIRTUAL_BASE + 0x1234) = Some 0x1001234)
    (Paging (fun _ _ => 0) 0 0 0 0).
Proof.
  eapply wp_mono.
  - apply (setup_paging_translation example_boot 0x1000 0xC0000); vm_compute; done.
  - cbn beta. intros _ s' (_ & _ & _ & H & _). apply H. vm_compute. done.
Defined.

(** [paging_map_region_bitmap] makes the bitmap readable at
    [KERNEL_BITMAP_VIRTUAL_BASE]: after it, every byte of the pages that hold
    the bitmap translates to the byte at the same offset of the physical
    region chosen for it. *)
Theorem paging_map_region_bitmap_translation b kf bf size s :
  KernelAddress b = kf * PAGE_SIZE -> 0 <= kf -> kf + 0x200 < 2 ^ 40 ->
  0 <= bf -> 0 <= size < 2 ^ 40 -> bf + size < 2 ^ 40 ->
  1 <= g_next_pt_number s ->
  g_next_pt_number s + ((size + PAGE_SIZE - 1) / PAGE_SIZE + 511) / 512 <= NUM_PT_TABLES ->
  bf_get F_PS (pg_mem s (kf + 0x100) 256) = 0 -> bf_get F_PS (pg_mem s (kf + 0x103) 0) = 0 ->
  wp (paging_map_region_bitmap b (bf * PAGE_SIZE) size)
    (fun r s' => r = KERNEL_BITMAP_VIRTUAL_BASE /\
       forall off, 0 <= off < size ->
         mmu_walk (pg_mem s') (KernelAddress b + PML4_PHYSICAL_OFFSET) (r + off) =
         Some (bf * PAGE_SIZE + off)) s.
Proof.
  intros Hk Hkf0 Hkf1 Hbf Hsz Hbs Hn1 Hn2 Hp1 Hp2.
  unfold paging_map_region_bitmap. rewrite Hk.
  rewrite (u64_small (size + PAGE_SIZE - 1)) by (unfold PAGE_SIZE; lia).
  set (n := (size + PAGE_SIZE - 1) / PAGE_SIZE) in *.
  assert (Hn : 0 <= n <= size /\ size <= n * PAGE_SIZE) by (unfold n, PAGE_SIZE; zdiv_lia).
  change (Z.land (Z.shiftr KERNEL_BITMAP_VIRTUAL_BASE 30) 0x1FF) with 0.
  change PDPT_256_PHYSICAL_OFFSET with (0x103 * PAGE_SIZE).
  change PD_BITMAP_PHYSICAL_OFFSET with (0x107 * PAGE_SIZE).
  rewrite !(table_frame kf ltac:(lia)) by lia.
  rewrite (kframe_off kf 0x100 : kframe _ PML4_ADDRESS = _),
    (kframe_off kf 0x103 : kframe _ PDPT_256_ADDRESS = _). cbv zeta.
  apply wp_bind. eapply wp_mono.
  { apply (wp_window kf ltac:(lia) 0 (kf + 0x107) 0 bf n
             (map_bitmap_page b (bf * PAGE_SIZE))); try done; try lia.
    intros start page s' -> Hp. pose proof (last_table _ _ Hp) as Hlast.
    unfold map_bitmap_page, NUM_PT_TABLES in *. rewrite Hk.
    rewrite (u64_small (_ + page / 512)), (proj2 (Z.leb_gt _ _)) by lia.
    change 0x1FF with (Z.ones 9). rewrite !Z.land_ones by lia. change (2 ^ 9) with 512.
    rewrite (Z.mod_small (page / 512)) by lia.
    rewrite (kframe_off kf 0x107 : kframe _ PD_BITMAP_ADDRESS = _).
    apply wp_page_body; unfold NUM_PT_TABLES; try lia; [apply Z.mod_pos_bound; lia | ..];
      intros e; bf_solve; [done|]. by rewrite (region_frame bf page) by lia. }
  cbn beta. intros _ s' (_ & H4 & H3 & H2 & _). wp_steps. split; [done|]. intros off Hoff.
  apply (window_walk _ _ KERNEL_BITMAP_VIRTUAL_BASE (2 ^ 25 - 256) 0 0 (kf + 0x103) (kf + 0x107)
           (kf + 0x108 + g_next_pt_number s) bf n off); try done; try lia.
  { unfold NUM_PT_TABLES in *. lia. }
  by rewrite root_frame by lia.
Qed.

Lemma paging_map_region_bitmap_witness :
  wp (paging_map_region_bitmap example_boot (0x1200 * PAGE_SIZE) 0x8000)
    (fun r s' => r = KERNEL_BITMAP_VIRTUAL_BASE /\
       mmu_walk (pg_mem s') (KernelAddress example_boot + PML4_PHYSICAL_OFFSET) (r + 0x7FFF) =
       Some (0x1200 * PAGE_SIZE + 0x7FFF)) (Paging (fun _ _ => 0) 3 0 0 0).
Proof.
  eapply wp_mono.
  - apply (paging_map_region_bitmap_translation example_boot 0x1000 0x1200 0x8000); vm_compute; done.
  - cbn beta. intros r s' [-> H]. split; [done|]. by apply H.
Defined.
