(* ===== verification/Pmm.v ===== *)
(** * The physical memory manager ([kernel/kernel/mm/pmm.c])

    One bit per 4 KB page, 1 = in use, in an array of bytes.  The state is the
    module's static variables, its spinlock and the static page tables that
    [pmm_init] extends.  Every operation is the whole C function: its guards,
    the lock it takes and releases on each path, and the bitmap update.  Log
    output is not part of the state. *)

From Stdlib Require Import ZArith Lia.
From stdpp Require Import base tactics list.
From S2P Require Import Prelude Bitmap Paging.

Record pmm : Type := Pmm {
  g_pmm_lock : bool;
  pmm_bitmap : list Z;
  pmm_total_pages : Z;
  pmm_bitmap_size : Z
}.

Definition set_pmm_lock (b : bool) (s : pmm) : pmm :=
  Pmm b (pmm_bitmap s) (pmm_total_pages s) (pmm_bitmap_size s).
Definition set_pmm_bitmap (l : list Z) (s : pmm) : pmm :=
  Pmm (g_pmm_lock s) l (pmm_total_pages s) (pmm_bitmap_size s).

(** Run a bitmap operation on [pmm_bitmap]. *)
Definition on_bitmap {A} (m : M (list Z) A) : M pmm A := zoom pmm_bitmap set_pmm_bitmap m.

(** [spinlock_lock_irqsave(&g_pmm_lock)]: a second acquisition by the holder
    never returns. *)
Definition pmm_lock : M pmm unit :=
  b <-- kgets g_pmm_lock ;;
  if b then kstop Deadlock else kmodify (set_pmm_lock true).

Definition pmm_unlock : M pmm unit := kmodify (set_pmm_lock false).

Definition bitmap_set_bit (page_index : Z) : M pmm unit := on_bitmap (bm_set 8 page_index).
Definition bitmap_clear_bit (page_index : Z) : M pmm unit := on_bitmap (bm_clear 8 page_index).

(** The inner loop over the bits of byte [i]. *)
Definition pmm_alloc_bit (i bit : Z) (_ : unit) : M pmm (unit + Z) :=
  l <-- kgets pmm_bitmap ;;
  byte <-- rd l i ;;
  if Z.land byte (Z.shiftl 1 bit) =? 0 then
    let page_index := u64 (u64 (i * 8) + bit) in
    total <-- kgets pmm_total_pages ;;
    if total <=? page_index then pmm_unlock ;;; kret (inr 0) else
    bitmap_set_bit page_index ;;;
    pmm_unlock ;;;
    kret (inr (u64 (page_index * PAGE_SIZE)))
  else kret (inl tt).

(** One byte of the outer loop: a byte 0xFF is skipped. *)
Definition pmm_alloc_byte (i : Z) (_ : unit) : M pmm (unit + Z) :=
  l <-- kgets pmm_bitmap ;;
  byte <-- rd l i ;;
  if byte =? 0xFF then kret (inl tt) else loop 8 0 (pmm_alloc_bit i) tt.

Definition pmm_alloc_page : M pmm Z :=
  pmm_lock ;;;
  size <-- kgets pmm_bitmap_size ;;
  r <-- loop (Z.to_nat size) 0 pmm_alloc_byte tt ;;
  match r with
  | inr a => kret a
  | inl _ => pmm_unlock ;;; kret 0
  end.

Definition pmm_free_page (phys_address : Z) : M pmm unit :=
  if negb (phys_address mod PAGE_SIZE =? 0) || (phys_address =? 0) then kret tt else
  let page_index := phys_address / PAGE_SIZE in
  total <-- kgets pmm_total_pages ;;
  if total <=? page_index then kret tt else
  pmm_lock ;;;
  bitmap_clear_bit page_index ;;;
  pmm_unlock.

Definition pmm_alloc_pages (count : Z) : M pmm Z :=
  if count =? 0 then kret 0 else
  if count =? 1 then pmm_alloc_page else
  pmm_lock ;;;
  total <-- kgets pmm_total_pages ;;
  r <-- on_bitmap (loop (Z.to_nat total) 0 (bm_scan_step 8 count) (0, 0)) ;;
  match r with
  | inr start_page =>
      for_ (Z.to_nat count) 0 (fun p => bitmap_set_bit (u64 (start_page + p))) ;;;
      pmm_unlock ;;;
      kret (u64 (start_page * PAGE_SIZE))
  | inl _ => pmm_unlock ;;; kret 0
  end.

Definition pmm_free_pages (phys_address count : Z) : M pmm unit :=
  if count =? 0 then kret tt else
  if count =? 1 then pmm_free_page phys_address else
  if negb (phys_address mod PAGE_SIZE =? 0) || (phys_address =? 0) then kret tt else
  let start_page := phys_address / PAGE_SIZE in
  total <-- kgets pmm_total_pages ;;
  if total <? u64 (start_page + count) then kret tt else
  pmm_lock ;;;
  for_ (Z.to_nat count) 0 (fun p => bitmap_clear_bit (u64 (start_page + p))) ;;;
  pmm_unlock.

(** ** Initialisation from the boot loader's memory map *)

(** The state [pmm_init] works on: the manager, the static page tables and the
    bytes of physical memory. *)
Record mm_boot : Type := MmBoot { mb_pmm : pmm; mb_paging : paging; mb_ram : Z -> Z }.

Definition on_vars {A} (m : M pmm A) : M mm_boot A :=
  zoom mb_pmm (fun p s => MmBoot p (mb_paging s) (mb_ram s)) m.
Definition on_paging {A} (m : M paging A) : M mm_boot A :=
  zoom mb_paging (fun p s => MmBoot (mb_pmm s) p (mb_ram s)) m.

(** Bytes in memory, each at the physical address [home i]. *)
Fixpoint load_bytes (home : Z -> option Z) (i : Z) (n : nat) (ram : Z -> Z) : option (list Z) :=
  match n with
  | O => Some []
  | S n' => a ← home i; l ← load_bytes home (i + 1) n' ram; Some (ram a :: l)
  end.
Fixpoint store_bytes (home : Z -> option Z) (i : Z) (l : list Z) (ram : Z -> Z) : option (Z -> Z) :=
  match l with
  | [] => Some ram
  | x :: l' => a ← home i; store_bytes home (i + 1) l' (fun y => if y =? a then x else ram y)
  end.

(** An operation on the bitmap in memory: its bytes, from the pointer
    [bitmap_virt_addr] on, are reached through the page tables; an address that
    is not mapped stops. *)
Definition bitmap_home (s : mm_boot) (bitmap_virt_addr i : Z) : option Z :=
  mmu_walk (pg_mem (mb_paging s)) (cr3 (mb_paging s)) (bitmap_virt_addr + i).
Definition on_ram {A} (bitmap_virt_addr : Z) (m : M pmm A) : M mm_boot A :=
  s <-- kget ;;
  l <-- kopt NullDeref (load_bytes (bitmap_home s bitmap_virt_addr) 0 (Z.to_nat (pmm_bitmap_size (mb_pmm s))) (mb_ram s)) ;;
  match m (set_pmm_bitmap l (mb_pmm s)) with
  | Ok (a, p) =>
      ram <-- kopt NullDeref (store_bytes (bitmap_home s bitmap_virt_addr) 0 (pmm_bitmap p) (mb_ram s)) ;;
      kput (MmBoot p (mb_paging s) ram) ;;;
      kret a
  | Stop e => kstop e
  end.

(** Loader memory becomes free memory (in place, in the first
    [MemoryRegionCount] entries). *)
Definition reclaim_region (r : MEMORY_REGION) : MEMORY_REGION :=
  if decide (Type_ r = MEMORY_LOADER_DATA) then Region (Start r) (Size r) MEMORY_FREE else r.

Definition reclaim_loader_data (b : BOOT_INFO) : BOOT_INFO :=
  let n := Z.to_nat (MemoryRegionCount b) in
  BootInfo (KernelAddress b) (KernelMemorySize b) (FrameBufferBase b) (FrameBufferSize b)
    (MemoryRegionCount b)
    (map reclaim_region (take n (MemoryRegions b)) ++ drop n (MemoryRegions b)).

Definition region_end (r : MEMORY_REGION) : Z := u64 (Start r + Size r).

(** The highest end of a region. *)
Definition highest_physical_address (rs : list MEMORY_REGION) : Z :=
  fold_left (fun h r => if h <? region_end r then region_end r else h) rs 0.

Definition bitmap_bytes (total_pages : Z) : Z :=
  total_pages / 8 + (if total_pages mod 8 =? 0 then 0 else 1).

(** Where the bitmap goes: the first free region that holds it before,
    after, or on either side of the kernel.  0 is "not found". *)
Fixpoint place_bitmap (kernel_start kernel_end size : Z) (rs : list MEMORY_REGION) : Z :=
  match rs with
  | [] => 0
  | r :: rs' =>
      let reg_end := region_end r in
      if bool_decide (Type_ r = MEMORY_FREE) && (size <=? Size r) then
        if negb ((Start r <? kernel_end) && (kernel_start <? reg_end)) then Start r
        else if u64 (kernel_end + size) <=? reg_end then kernel_end
        else if (u64 (Start r + size) <=? kernel_start) && (kernel_start <? reg_end) then Start r
        else place_bitmap kernel_start kernel_end size rs'
      else place_bitmap kernel_start kernel_end size rs'
  end.

(** Mark the pages of a free region. *)
Definition free_region (r : MEMORY_REGION) : M pmm unit :=
  if decide (Type_ r = MEMORY_FREE) then
    for_ (Z.to_nat (Size r / PAGE_SIZE)) 0 (fun p =>
      bitmap_clear_bit (u64 (Start r / PAGE_SIZE + p)))
  else kret tt.

(** Mark [n] pages from [start] on as used. *)
Definition reserve_pages (start n : Z) : M pmm unit :=
  for_ (Z.to_nat n) 0 (fun p => bitmap_set_bit (u64 (start + p))).

Fixpoint kmapM_ {S A} (f : A -> M S unit) (l : list A) : M S unit :=
  match l with
  | [] => kret tt
  | a :: l' => f a ;;; kmapM_ f l'
  end.

Definition pmm_init (boot : BOOT_INFO) : M mm_boot BOOT_INFO :=
  on_vars pmm_unlock ;;;
  if MemoryRegionCount boot <? 1 then kstop Halted else
  if zlen (MemoryRegions boot) <? MemoryRegionCount boot then kstop OutOfBounds else
  let boot := reclaim_loader_data boot in
  let regions := take (Z.to_nat (MemoryRegionCount boot)) (MemoryRegions boot) in
  let total := highest_physical_address regions / PAGE_SIZE in
  let size := bitmap_bytes total in
  on_vars (kmodify (fun s => Pmm (g_pmm_lock s) (pmm_bitmap s) total size)) ;;;
  let kernel_start := KernelAddress boot in
  let kernel_end := u64 (kernel_start + KernelMemorySize boot) in
  let bitmap_phys_addr := place_bitmap kernel_start kernel_end size regions in
  if bitmap_phys_addr =? 0 then kstop Halted else
  bitmap_virt_addr <-- on_paging (paging_map_region_bitmap boot bitmap_phys_addr size) ;;
  on_ram bitmap_virt_addr (kmodify (set_pmm_bitmap (replicate (Z.to_nat size) 0xFF))) ;;;
  on_ram bitmap_virt_addr (kmapM_ free_region regions) ;;;
  on_ram bitmap_virt_addr (reserve_pages (kernel_start / PAGE_SIZE)
            (u64 (u64 (KernelMemorySize boot + PAGE_SIZE) - 1) / PAGE_SIZE)) ;;;
  on_ram bitmap_virt_addr (reserve_pages (bitmap_phys_addr / PAGE_SIZE)
            (u64 (u64 (size + PAGE_SIZE) - 1) / PAGE_SIZE)) ;;;
  kret boot.

(** ** Specification *)

(** Page [p] is in use. *)
Definition used (s : pmm) (p : Z) : bool := bit 8 (pmm_bitmap s) p.

(** The free pages in increasing order: the abstract state of the manager. *)
Definition free_list (s : pmm) : list Z :=
  filter (fun p => used s p = false) (seqZ 0 (pmm_total_pages s)).

(** What [pmm_init] establishes and every operation preserves. *)
Record pmm_ok (s : pmm) : Prop := {
  ok_lock : g_pmm_lock s = false;
  ok_total : 0 <= pmm_total_pages s < 2 ^ 52;
  ok_size : pmm_bitmap_size s = zlen (pmm_bitmap s);
  ok_cover : 8 * pmm_bitmap_size s - 8 < pmm_total_pages s <= 8 * pmm_bitmap_size s;
  ok_words : words_ok 8 (pmm_bitmap s);
  ok_tail : forall p, pmm_total_pages s <= p < 8 * pmm_bitmap_size s -> used s p = true
}.

(** [s'] is [s] with the pages of [lo .. lo + n) marked as [v]. *)
Definition marked (v : bool) (lo n : Z) (s s' : pmm) : Prop :=
  pmm_total_pages s' = pmm_total_pages s /\
  forall p, 0 <= p < pmm_total_pages s ->
    used s' p = if (lo <=? p) && (p <? lo + n) then v else used s p.

Ltac pmm_simpl :=
  cbn [g_pmm_lock pmm_bitmap pmm_total_pages pmm_bitmap_size set_pmm_lock set_pmm_bitmap].

Lemma elem_free_list s p :
  p ∈ free_list s <-> 0 <= p < pmm_total_pages s /\ used s p = false.
Proof. unfold free_list. rewrite list_elem_of_filter, elem_of_seqZ. intuition lia. Qed.

(** The free list depends on the bits only. *)
Lemma free_list_ext s s' :
  pmm_total_pages s' = pmm_total_pages s ->
  (forall p, 0 <= p < pmm_total_pages s -> used s' p = used s p) ->
  free_list s' = free_list s.
Proof.
  intros Ht Hu. unfold free_list. rewrite Ht. apply filter_ext_elem.
  intros p Hp. apply elem_of_seqZ in Hp. rewrite Hu by lia. done.
Qed.

Lemma free_list_pop s s' p :
  0 <= p < pmm_total_pages s -> used s p = false ->
  (forall q, 0 <= q < p -> used s q = true) ->
  marked true p 1 s s' ->
  free_list s = p :: free_list s'.
Proof.
  intros Hp Hu Hlow [Ht Hm]. unfold free_list. rewrite Ht.
  replace (pmm_total_pages s) with (p + (1 + (pmm_total_pages s - p - 1))) by lia.
  rewrite !seqZ_app by lia. change (seqZ (0 + p) 1) with [0 + p]. rewrite !filter_app.
  rewrite (filter_none _ (seqZ 0 p)), (filter_none _ (seqZ 0 p)).
  - rewrite !filter_cons, !filter_nil, Z.add_0_l, decide_True by done.
    rewrite decide_False.
    + cbn [app]. f_equal. apply filter_ext_elem. intros q Hq. apply elem_of_seqZ in Hq.
      rewrite Hm by lia. case_if; [|done]. lia.
    + rewrite Hm, (proj2 (Z.leb_le _ _)), (proj2 (Z.ltb_lt _ _)) by lia. done.
  - intros q Hq. apply elem_of_seqZ in Hq. rewrite Hm, Hlow by lia. by case_if.
  - intros q Hq. apply elem_of_seqZ in Hq. rewrite Hlow by lia. done.
Qed.

Lemma free_list_nil s :
  (forall p, 0 <= p < pmm_total_pages s -> used s p = true) -> free_list s = [].
Proof.
  intros H. apply filter_none. intros p Hp. apply elem_of_seqZ in Hp. by rewrite H by lia.
Qed.

(** ** Bit operations of a well-formed manager *)

(** Well-formedness with the lock in the given state. *)
Definition pmm_wf (locked : bool) (s : pmm) : Prop :=
  g_pmm_lock s = locked /\ pmm_ok (set_pmm_lock false s).


Lemma wp_pmm_lock s (Q : unit -> pmm -> Prop) :
  pmm_ok s -> (pmm_wf true (set_pmm_lock true s) -> Q tt (set_pmm_lock true s)) ->
  wp pmm_lock Q s.
Proof.
  intros Hs HQ. unfold pmm_lock. wp_steps. rewrite (ok_lock _ Hs). wp_steps. apply HQ.
  split; [done|]. destruct s. pose proof (ok_lock _ Hs) as Hl. cbn in *. by subst.
Qed.

(** The bytes of the bitmap after a change of the pages [lo .. lo + n). *)
Lemma pmm_bits_step v lo n locked s l :
  pmm_wf locked s -> 0 <= lo -> lo + n <= pmm_total_pages s ->
  zlen l = zlen (pmm_bitmap s) -> words_ok 8 l ->
  (forall p, 0 <= p < 8 * zlen (pmm_bitmap s) ->
     bit 8 l p = if (lo <=? p) && (p <? lo + n) then v else bit 8 (pmm_bitmap s) p) ->
  pmm_wf locked (set_pmm_bitmap l s) /\ marked v lo n s (set_pmm_bitmap l s).
Proof.
  intros [Hl [_ Ht Hs Hc Hw Htail]] Hlo Hn Hlen Hok Hb. cbn in *.
  split; [split; [done|]; split; cbn; try done; [congruence|] | split; [done|]].
  - intros p Hp. unfold used. cbn. rewrite Hb by lia. case_if; [lia|]. apply (Htail p). lia.
  - intros p Hp. unfold used. cbn. apply Hb. lia.
Qed.

Lemma marked_snoc v a k s s1 s2 :
  marked v a k s s1 -> marked v (a + k) 1 s1 s2 -> 0 <= k -> marked v a (k + 1) s s2.
Proof.
  intros [T1 M1] [T2 M2] Hk. split; [congruence|]. intros p Hp.
  rewrite M2, M1 by (rewrite ?T1; lia).
  destruct (Z.leb_spec (a + k) p), (Z.ltb_spec p (a + k + 1)), (Z.leb_spec a p),
    (Z.ltb_spec p (a + k)), (Z.ltb_spec p (a + (k + 1))); cbn; done || lia.
Qed.

Lemma marked_nil v a s : marked v a 0 s s.
Proof.
  split; [done|]. intros p Hp. case_if; [lia | done].
Qed.

Lemma wp_bitmap_set_bit locked s p :
  pmm_wf locked s -> 0 <= p < pmm_total_pages s ->
  wp (bitmap_set_bit p) (fun _ s' => pmm_wf locked s' /\ marked true p 1 s s') s.
Proof.
  intros Hwf Hp. pose proof Hwf as [_ [_ _ Hs Hc Hw _]]. cbn in *.
  unfold bitmap_set_bit, on_bitmap. wp_steps.
  eapply wp_mono; [apply wp_bm_set; [lia.. | done]|].
  cbn beta. intros _ l (Hlen & Hok & Hb). apply pmm_bits_step; try done; try lia.
  intros q Hq. rewrite Hb by done.
  destruct (Z.eqb_spec q p), (Z.leb_spec p q), (Z.ltb_spec q (p + 1)); cbn; done || lia.
Qed.

Lemma wp_bitmap_clear_bit locked s p :
  pmm_wf locked s -> 0 <= p < pmm_total_pages s ->
  wp (bitmap_clear_bit p) (fun _ s' => pmm_wf locked s' /\ marked false p 1 s s') s.
Proof.
  intros Hwf Hp. pose proof Hwf as [_ [_ _ Hs Hc Hw _]]. cbn in *.
  unfold bitmap_clear_bit, on_bitmap. wp_steps.
  eapply wp_mono; [apply wp_bm_clear; [lia.. | done]|].
  cbn beta. intros _ l (Hlen & Hok & Hb). apply pmm_bits_step; try done; try lia.
  intros q Hq. rewrite Hb by done.
  destruct (Z.eqb_spec q p), (Z.leb_spec p q), (Z.ltb_spec q (p + 1)); cbn; done || lia.
Qed.

(** A loop that applies a one-page operation to [a], [a + 1], ... *)
Lemma wp_page_loop v (op : Z -> M pmm unit) locked s a n :
  (forall p s', pmm_wf locked s' -> 0 <= p < pmm_total_pages s' ->
     wp (op p) (fun _ s'' => pmm_wf locked s'' /\ marked v p 1 s' s'') s') ->
  pmm_wf locked s -> 0 <= a -> 0 <= n -> a + n <= pmm_total_pages s ->
  wp (for_ (Z.to_nat n) 0 (fun p => op (u64 (a + p))))
    (fun _ s' => pmm_wf locked s' /\ marked v a n s s') s.
Proof.
  intros Hop Hwf Ha Hn Hle. pose proof Hwf as [_ [_ Ht _ _ _ _]]. cbn in Ht.
  apply (wp_for (fun k s' => pmm_wf locked s' /\ marked v a k s s')).
  - split; [done | apply marked_nil].
  - intros k s' Hk [Hwf' Hm]. rewrite u64_small by lia.
    eapply wp_mono; [apply Hop; [done|]; rewrite (proj1 Hm); lia|].
    cbn beta. intros _ s'' [Hwf'' Hm']. split; [done|]. apply (marked_snoc _ _ _ _ s'); [done.. | lia].
  - intros s' [Hwf' Hm]. rewrite Z2Nat.id, Z.add_0_l in Hm by done. done.
Qed.

(** ** Allocating one page *)

(** [a] is the address of the lowest free page of [s], which [s'] has taken. *)
Definition took_lowest (s : pmm) (a : Z) (s' : pmm) : Prop :=
  exists p, 0 <= p < pmm_total_pages s /\ used s p = false /\
    (forall q, 0 <= q < p -> used s q = true) /\
    a = p * PAGE_SIZE /\ marked true p 1 s s'.

Lemma wp_alloc_bit s i b :
  pmm_wf true s -> 0 <= i < pmm_bitmap_size s -> 0 <= b < 8 ->
  (forall q, 0 <= q < 8 * i + b -> used s q = true) ->
  wp (pmm_alloc_bit i b tt)
    (fun r s' => match r with
                 | inl _ => s' = s /\ used s (8 * i + b) = true
                 | inr a => pmm_ok s' /\ took_lowest s a s'
                 end) s.
Proof.
  intros Hwf Hi Hb Hlow. pose proof Hwf as [_ [_ Ht Hs Hc Hw Htail]]. cbn in *.
  destruct (zlen_lookup (pmm_bitmap s) i) as [x Hx]; [lia|].
  assert (Hbit : used s (8 * i + b) = Z.testbit x b).
  { unfold used, bit. replace ((8 * i + b) / 8) with i by zdiv_lia.
    replace ((8 * i + b) mod 8) with b by zdiv_lia. by rewrite Hx. }
  unfold pmm_alloc_bit. wp_steps. eapply wp_rd; [lia | done|]. cbn beta.
  rewrite land_shift_testbit, <- Hbit by lia.
  destruct (used s (8 * i + b)) eqn:Eu; cbn [negb]; [by wp_steps|].
  wp_steps. unfold PAGE_SIZE.
  rewrite (u64_small (i * 8)), (u64_small (i * 8 + b)) by lia.
  replace (i * 8 + b) with (8 * i + b) by lia.
  assert (8 * i + b < pmm_total_pages s).
  { destruct (Z.lt_ge_cases (8 * i + b) (pmm_total_pages s)); [done|].
    exfalso. specialize (Htail (8 * i + b)). unfold used in *. cbn in Htail. rewrite Eu in Htail. 
    by discriminate Htail; lia. }
  rewrite (proj2 (Z.leb_gt _ _)) by done. wp_steps.
  eapply wp_mono; [apply (wp_bitmap_set_bit true); [done | lia]|].
  cbn beta. intros _ s' [Hwf' Hm]. unfold pmm_unlock. wp_steps.
  split; [apply Hwf'|]. exists (8 * i + b). rewrite u64_small by lia.
  split_and!; try done; lia.
Qed.

Lemma wp_alloc_byte s i :
  pmm_wf true s -> 0 <= i < pmm_bitmap_size s ->
  (forall q, 0 <= q < 8 * i -> used s q = true) ->
  wp (pmm_alloc_byte i tt)
    (fun r s' => match r with
                 | inl _ => s' = s /\ forall q, 0 <= q < 8 * (i + 1) -> used s q = true
                 | inr a => pmm_ok s' /\ took_lowest s a s'
                 end) s.
Proof.
  intros Hwf Hi Hlow. pose proof Hwf as [_ [_ _ Hs _ _ _]]. cbn in Hs.
  destruct (zlen_lookup (pmm_bitmap s) i) as [x Hx]; [lia|].
  unfold pmm_alloc_byte. wp_steps. eapply wp_rd; [lia | done|]. cbn beta. case_if.
  - wp_steps. split; [done|]. intros q Hq. destruct (Z.lt_ge_cases q (8 * i)); [apply Hlow; lia|].
    unfold used, bit. replace (q / 8) with i by zdiv_lia. rewrite Hx, E. cbn [default].
    assert (Hr : 0 <= q mod 8 < 8) by (apply Z.mod_pos_bound; lia).
    change 255 with (Z.ones 8). apply Z.ones_spec_low. lia.
  - apply (wp_loop (fun b (_ : unit) s' => s' = s /\ forall q, 0 <= q < 8 * i + b -> used s q = true)).
    + split; [done|]. intros q Hq. apply Hlow. lia.
    + intros b [] s' Hb [-> Hl]. eapply wp_mono; [apply wp_alloc_bit; try done; lia|].
      cbn beta. intros [[]|a] s'; [|done]. intros [-> Hu]. split; [done|].
      intros q Hq. destruct (Z.eq_dec q (8 * i + b)) as [->|]; [done|]. apply Hl. lia.
    + intros [] s' [-> Hl]. split; [done|]. intros q Hq. apply Hl. lia.
Qed.

Lemma wp_pmm_alloc_page s :
  pmm_ok s ->
  wp pmm_alloc_page
    (fun a s' => pmm_ok s' /\
       (took_lowest s a s' \/
        (a = 0 /\ s' = s /\ forall p, 0 <= p < pmm_total_pages s -> used s p = true))) s.
Proof.
  intros Hs. unfold pmm_alloc_page. apply wp_bind, wp_pmm_lock; [done|]. intros Hwf.
  wp_steps. pmm_simpl. apply (wp_loop (fun i (_ : unit) s' =>
    s' = set_pmm_lock true s /\ forall q, 0 <= q < 8 * i -> used s q = true)).
  - split; [done|]. intros q Hq. lia.
  - intros i [] s' Hi [-> Hl]. pose proof (ok_size _ Hs) as Hsz.
    pose proof (zlen_nonneg (pmm_bitmap s)). rewrite Hsz in Hi.
    eapply wp_mono; [apply wp_alloc_byte; [done | cbn; lia | done]|].
    cbn beta. intros [[]|a] s'; [done|]. intros [Hok Ht]. wp_steps. split; [done|]. by left.
  - intros [] s' [-> Hl]. unfold pmm_unlock. wp_steps.
    assert (Hback : set_pmm_lock false (set_pmm_lock true s) = s).
    { destruct s. pose proof (ok_lock _ Hs) as E. cbn in *. by subst. }
    rewrite Hback. split; [done|]. right. split_and!; [done..|].
    intros p Hp. apply Hl. pose proof (ok_cover _ Hs). pose proof (ok_size _ Hs).
    pose proof (zlen_nonneg (pmm_bitmap s)). lia.
Qed.

(** C11: [pmm_alloc_page] implements "take the head of the increasing list of
    free pages".  It returns the address of the lowest free page, which leaves
    the list and nothing else does, or 0 without a change when no page is
    free; the lock is released on every path. *)
Theorem pmm_alloc_page_refines s :
  pmm_ok s ->
  wp pmm_alloc_page
    (fun a s' => pmm_ok s' /\
       match free_list s with
       | [] => a = 0 /\ s' = s
       | p :: rest => a = p * PAGE_SIZE /\ free_list s' = rest
       end) s.
Proof.
  intros Hs. eapply wp_mono; [by apply wp_pmm_alloc_page|].
  cbn beta. intros a s' [Hok [(p & Hp & Hu & Hlow & -> & Hm)|(-> & -> & Hall)]].
  - rewrite (free_list_pop s s' p) by done. done.
  - rewrite free_list_nil by done. done.
Qed.

(** ** Runs of pages *)

Lemma unlock_lock s : pmm_ok s -> set_pmm_lock false (set_pmm_lock true s) = s.
Proof. intros Hs. destruct s. pose proof (ok_lock _ Hs) as E. cbn in *. by subst. Qed.

Lemma took_lowest_run s a s' :
  took_lowest s a s' ->
  exists p, first_run 8 (pmm_bitmap s) (pmm_total_pages s) 1 p /\ a = p * PAGE_SIZE /\
    marked true p 1 s s'.
Proof.
  intros (p & Hp & Hu & Hlow & -> & Hm). exists p. split_and!; try done.
  split_and!; try lia.
  - intros q Hq. by replace q with p by lia.
  - intros q Hq Hrun. specialize (Hlow q Hq). unfold used in Hlow.
    rewrite Hrun in Hlow by lia. done.
Qed.

Lemma wp_pmm_alloc_pages s count :
  pmm_ok s -> 0 < count < 2 ^ 64 ->
  wp (pmm_alloc_pages count)
    (fun a s' => pmm_ok s' /\
       ((exists p, first_run 8 (pmm_bitmap s) (pmm_total_pages s) count p /\
           a = p * PAGE_SIZE /\ marked true p count s s') \/
        (a = 0 /\ s' = s /\ forall p, 0 <= p -> p + count <= pmm_total_pages s ->
           ~ run_free 8 (pmm_bitmap s) p count))) s.
Proof.
  intros Hs Hc. unfold pmm_alloc_pages. case_if; [lia|]. case_if.
  - subst count. eapply wp_mono; [by apply wp_pmm_alloc_page|]. cbn beta.
    intros a s' [Hok [Ht|(-> & -> & Hall)]]; (split; [done|]);
      [left; by apply took_lowest_run | right].
    split_and!; [done..|]. intros p Hp Hle Hrun. specialize (Hall p). unfold used in Hall.
    rewrite Hrun in Hall by lia. by discriminate Hall; lia.
  - apply wp_bind, wp_pmm_lock; [done|]. intros Hwf. wp_steps. pmm_simpl. unfold on_bitmap.
    wp_steps. pmm_simpl.
    pose proof (ok_cover _ Hs) as Hcov. pose proof (ok_size _ Hs) as Hsz.
    pose proof (ok_total _ Hs) as Htot.
    eapply wp_mono; [apply (wp_bm_scan 8 ltac:(lia)); lia|].
    cbn beta. intros [acc|p] l [-> Hr].
    + unfold pmm_unlock. wp_steps. replace (set_pmm_lock false _) with s; [eauto 10|].
      rewrite <- (unlock_lock s) at 1 by done. done.
    + pose proof Hr as (Hp0 & Hp1 & Hrun & _).
      change (set_pmm_bitmap (pmm_bitmap s) (set_pmm_lock true s)) with (set_pmm_lock true s).
      apply wp_bind. eapply wp_mono.
      { apply (wp_page_loop true bitmap_set_bit true); try done; try (cbn; lia).
        intros q s' Hwf' Hq. by apply wp_bitmap_set_bit. }
      cbn beta. intros _ s' [Hwf' Hm]. unfold pmm_unlock. wp_steps.
      unfold PAGE_SIZE. rewrite u64_small by lia. split; [apply Hwf'|]. left. eauto.
Qed.

(** [pmm_alloc_pages] is a first-fit allocator of contiguous pages.  It
    returns the start of the lowest run of [count] free pages and marks
    exactly that run; when it returns 0 without a change there is no such
    run.  All accesses stay inside the bitmap. *)
Theorem pmm_alloc_pages_first_fit s count :
  pmm_ok s -> 0 < count < 2 ^ 64 ->
  wp (pmm_alloc_pages count)
    (fun a s' => pmm_ok s' /\
       ((exists p, first_run 8 (pmm_bitmap s) (pmm_total_pages s) count p /\
           a = p * PAGE_SIZE /\ marked true p count s s') \/
        (a = 0 /\ s' = s /\ forall p, 0 <= p -> p + count <= pmm_total_pages s ->
           ~ run_free 8 (pmm_bitmap s) p count))) s.
Proof. apply wp_pmm_alloc_pages. Qed.

(** ** Releasing pages *)

Lemma wp_pmm_free_page s p :
  pmm_ok s -> 0 < p < pmm_total_pages s ->
  wp (pmm_free_page (p * PAGE_SIZE)) (fun _ s' => pmm_ok s' /\ marked false p 1 s s') s.
Proof.
  intros Hs Hp. unfold pmm_free_page. rewrite Z.mod_mul, Z.div_mul by done. cbn [Z.eqb negb orb].
  case_if; [unfold PAGE_SIZE in *; lia|]. wp_steps. case_if; [lia|].
  apply wp_bind, wp_pmm_lock; [done|]. intros Hwf. apply wp_bind.
  eapply wp_mono; [apply (wp_bitmap_clear_bit true); [done | cbn; lia]|].
  cbn beta. intros _ s' [Hwf' Hm]. unfold pmm_unlock. wp_steps. split; [apply Hwf' | done].
Qed.

Lemma wp_pmm_free_pages s p count :
  pmm_ok s -> 0 < p -> 0 < count -> p + count <= pmm_total_pages s ->
  wp (pmm_free_pages (p * PAGE_SIZE) count)
    (fun _ s' => pmm_ok s' /\ marked false p count s s') s.
Proof.
  intros Hs Hp Hc Hle. unfold pmm_free_pages. case_if; [lia|]. case_if.
  { subst. apply wp_pmm_free_page; [done | lia]. }
  rewrite Z.mod_mul, Z.div_mul by done. cbn [Z.eqb negb orb].
  case_if; [unfold PAGE_SIZE in *; lia|]. wp_steps.
  pose proof (ok_total _ Hs). rewrite u64_small by lia. case_if; [lia|].
  apply wp_bind, wp_pmm_lock; [done|]. intros Hwf. apply wp_bind. eapply wp_mono.
  { apply (wp_page_loop false bitmap_clear_bit true); try done; try (cbn; lia).
    intros q s' Hwf' Hq. by apply wp_bitmap_clear_bit. }
  cbn beta. intros _ s' [Hwf' Hm]. unfold pmm_unlock. wp_steps. split; [apply Hwf' | done].
Qed.

(** Releasing what was just allocated gives back the free list: whatever
    non-zero address [pmm_alloc_pages] returns, [pmm_free_pages] of it with
    the same count restores the set of free pages. *)
Theorem pmm_alloc_free_roundtrip s count :
  pmm_ok s -> 0 < count < 2 ^ 64 ->
  wp (a <-- pmm_alloc_pages count ;;
      (if a =? 0 then kret tt else pmm_free_pages a count) ;;;
      kret a)
    (fun a s' => pmm_ok s' /\ (a <> 0 -> free_list s' = free_list s)) s.
Proof.
  intros Hs Hc. apply wp_bind. eapply wp_mono; [by apply wp_pmm_alloc_pages|].
  cbn beta. intros a s1 [Hok [(p & (Hp0 & Hp1 & Hrun & _) & -> & Ht & Hm)|(-> & -> & _)]]; [|by wp_steps].
  apply wp_bind. case_if; wp_steps; [done|].
  eapply wp_mono; [apply wp_pmm_free_pages; try done; unfold PAGE_SIZE in *; lia|].
  cbn beta. intros _ s2 [Hok2 [Ht2 Hm2]]. wp_steps. split; [done|]. intros _.
  apply free_list_ext; [congruence|]. intros q Hq. rewrite Hm2, Hm by lia.
  case_if; [|done]. symmetry. apply (Hrun q). lia.
Qed.

(** ** Initialisation *)

(** The regions the kernel looks at, after the loader's memory is reclaimed. *)
Definition boot_regions (b : BOOT_INFO) : list MEMORY_REGION :=
  map reclaim_region (take (Z.to_nat (MemoryRegionCount b)) (MemoryRegions b)).




(** The physical address chosen for the bitmap and its size. *)
Definition boot_total (b : BOOT_INFO) : Z := highest_physical_address (boot_regions b) / PAGE_SIZE.
Definition boot_bitmap_size (b : BOOT_INFO) : Z := bitmap_bytes (boot_total b).
Definition boot_bitmap (b : BOOT_INFO) : Z :=
  place_bitmap (KernelAddress b) (u64 (KernelAddress b + KernelMemorySize b))
    (boot_bitmap_size b) (boot_regions b).













(** *** The bitmap's bytes in memory *)














(** ** Concrete instances *)

(** Fourteen pages, of which 2 to 11 are free. *)
Definition example_pmm : pmm := Pmm false [0x03; 0xF0] 14 2.

Lemma example_pmm_ok : pmm_ok example_pmm.
Proof.
  split; try (cbn; done).
  - repeat constructor; done.
  - intros p Hp. cbn in Hp. assert (Hc : p = 14 \/ p = 15) by lia. by destruct Hc as [-> | ->].
Qed.

Lemma pmm_alloc_page_witness :
  wp pmm_alloc_page (fun a s' => a = 0x2000 /\ free_list s' = [3; 4; 5; 6; 7; 8; 9; 10; 11]) example_pmm.
Proof.
  eapply wp_mono; [apply pmm_alloc_page_refines, example_pmm_ok|].
  intros a s' [_ H]. exact H.
Defined.

Lemma pmm_alloc_pages_witness :
  wp (pmm_alloc_pages 4) (fun a s' => pmm_ok s' /\ (a = 0 -> s' = example_pmm)) example_pmm.
Proof.
  eapply wp_mono; [apply (pmm_alloc_pages_first_fit example_pmm 4 example_pmm_ok); lia|].
  cbn beta. intros a s' [Hok [(p & (Hp & _ & Hrun & _) & -> & _)|(_ & -> & _)]]; split; try done.
  intros H0. unfold PAGE_SIZE in H0. assert (p = 0) by lia. subst p.
  discriminate (Hrun 0 ltac:(lia)).
Defined.

Lemma pmm_roundtrip_witness :
  wp (a <-- pmm_alloc_pages 3 ;; (if a =? 0 then kret tt else pmm_free_pages a 3) ;;; kret a)
    (fun a s' => pmm_ok s' /\ (a <> 0 -> free_list s' = free_list example_pmm)) example_pmm.
Proof. apply (pmm_alloc_free_roundtrip example_pmm 3 example_pmm_ok). lia. Defined.



Definition example_paging (k : Z) : paging := Paging (fun _ _ => 0) 3 0 (k + PML4_PHYSICAL_OFFSET) 0.


(** Page 0 is handed out with the address 0, which is also the answer for
    "out of memory": the page leaves the free list and no caller owns it. *)
Lemma pmm_alloc_page_zero s rest :
  pmm_ok s -> free_list s = 0 :: rest ->
  wp pmm_alloc_page (fun a s' => a = 0 /\ free_list s' = rest) s.
Proof.
  intros Hs Hf. eapply wp_mono; [by apply wp_pmm_alloc_page|].
  cbn beta. intros a s' [_ [(p & Hp & Hu & Hlow & -> & Hm)|(_ & _ & Hall)]].
  - rewrite (free_list_pop s s' p) in Hf by done. by simplify_eq.
  - rewrite free_list_nil in Hf by done. done.
Qed.

(** A free region at address 0 that could hold the bitmap stops the boot,
    although the next region could hold it too: its address is taken for
    "not found". *)
Example pmm_init_region_zero :
  pmm_init (BootInfo 0x1000000 0x200000 0 0 2
              [Region 0 0xA0000 MEMORY_FREE; Region 0x100000 0x7F00000 MEMORY_FREE])
    (MmBoot (Pmm false [] 0 0) (example_paging 0x1000000) (fun _ => 0)) = Stop Halted.
Proof. vm_compute. reflexivity. Qed.

(** With a kernel whose size is not a multiple of the page size the bitmap is
    put right behind it, in the kernel's last page; the mapping, which works
    with whole frames, begins at the start of that page, so the bitmap is
    written over the kernel's own bytes. *)
Example pmm_init_shared_page :
  let b := BootInfo 0x100000 0x10800 0 0 1 [Region 0x100000 0x20000 MEMORY_FREE] in
  boot_bitmap b = 0x110800 /\ KernelAddress b + KernelMemorySize b = 0x110800 /\
  match pmm_init b (MmBoot (Pmm false [] 0 0) (example_paging 0x100000) (fun _ => 7)) with
  | Ok (_, s') => mb_ram s' 0x110000 = 0xFF /\ mb_ram s' 0x110800 = 7
  | Stop _ => False
  end.
Proof. vm_compute. done. Qed.
