(* ===== verification/Vmm.v ===== *)
(** * The virtual memory manager

    [kernel/arch/x86_64/mm/vmm.c] and [vmm_scratch_window.c].  Page tables are
    reached through scratch windows: a window is an entry of the page table
    [g_window_pt], and a pointer into a window reads and writes whatever frame
    that entry holds at the time, so the aliasing of windows is part of the
    model.  The translation-cache invalidations have no counterpart: every
    access of the model walks the tables. *)

From Stdlib Require Import ZArith Lia.
From stdpp Require Import base tactics list.
From S2P Require Import Prelude Bitmap Paging Pmm.

(** ** Constants ([memory_map.h]) *)

Definition VMM_SCRATCH_ISOLATED_BASE : Z := 0xFFFFFFFF803F0000.
Definition VMM_SCRATCH_WINDOW : Z := VMM_SCRATCH_ISOLATED_BASE.
Definition VMM_SCRATCH_WINDOW_0 : Z := VMM_SCRATCH_WINDOW + PAGE_SIZE.
Definition KERNEL_HEAP_VIRTUAL_BASE : Z := 0xFFFF800040000000.
Definition KERNEL_HEAP_INITIAL_SIZE : Z := 4 * 1024 * 1024.
Definition KERNEL_MMIO_VIRTUAL_BASE : Z := 0xFFFFFF0000000000.
Definition KERNEL_MMIO_VIRTUAL_END : Z := 0xFFFFFF8000000000.

(** ** State *)

Record vmm : Type := Vmm {
  v_pmm : pmm;
  v_mem : phys;                    (* physical memory *)
  g_vmm_lock : bool;
  g_window_pt : Z;                 (* frame of the scratch page table *)
  v_kernel : Z;                    (* physical address of the kernel image *)
  v_cr3 : Z;
  next_available_virtual : Z       (* static variable of vmm_map_device *)
}.

Definition set_v_pmm (p : pmm) (s : vmm) : vmm :=
  Vmm p (v_mem s) (g_vmm_lock s) (g_window_pt s) (v_kernel s) (v_cr3 s) (next_available_virtual s).
Definition set_v_mem (m : phys) (s : vmm) : vmm :=
  Vmm (v_pmm s) m (g_vmm_lock s) (g_window_pt s) (v_kernel s) (v_cr3 s) (next_available_virtual s).
Definition set_vmm_lock (b : bool) (s : vmm) : vmm :=
  Vmm (v_pmm s) (v_mem s) b (g_window_pt s) (v_kernel s) (v_cr3 s) (next_available_virtual s).
Definition set_window_pt (f : Z) (s : vmm) : vmm :=
  Vmm (v_pmm s) (v_mem s) (g_vmm_lock s) f (v_kernel s) (v_cr3 s) (next_available_virtual s).
Definition set_v_cr3 (c : Z) (s : vmm) : vmm :=
  Vmm (v_pmm s) (v_mem s) (g_vmm_lock s) (g_window_pt s) (v_kernel s) c (next_available_virtual s).
Definition set_next_dev (a : Z) (s : vmm) : vmm :=
  Vmm (v_pmm s) (v_mem s) (g_vmm_lock s) (g_window_pt s) (v_kernel s) (v_cr3 s) a.

Definition v_on_pmm {A} (m : M pmm A) : M vmm A := zoom v_pmm set_v_pmm m.
Definition v_write (f : phys -> phys) : M vmm unit := kmodify (fun s => set_v_mem (f (v_mem s)) s).

Definition vmm_lock : M vmm unit :=
  b <-- kgets g_vmm_lock ;;
  if b then kstop Deadlock else kmodify (set_vmm_lock true).
Definition vmm_unlock : M vmm unit := kmodify (set_vmm_lock false).

(** ** Scratch windows *)

(** A pointer to a table of 512 words: null, one of the static tables (by its
    frame), or scratch window [w]. *)
Inductive tptr : Type :=
| TNull
| TFrame (f : Z)
| TWin (w : Z).

(** Entry of [g_window_pt] behind window [w] (window 0 is entry 497). *)
Definition win_slot (w : Z) : Z := GET_PT_INDEX VMM_SCRATCH_WINDOW_0 + w.

(** The frame a pointer leads to in the current state. *)
Definition frame_of (s : vmm) (p : tptr) : option Z :=
  match p with
  | TNull => None
  | TFrame f => Some f
  | TWin w => Some (bf_get F_ADDR (v_mem s (g_window_pt s) (win_slot w)))
  end.

Definition deref (p : tptr) : M vmm Z :=
  s <-- kget ;; kopt NullDeref (frame_of s p).

(** [p[i]] and [p[i] = v]. *)
Definition rd_t (p : tptr) (i : Z) : M vmm Z :=
  f <-- deref p ;; kgets (fun s => v_mem s f i).
Definition wr_t (p : tptr) (i v : Z) : M vmm unit :=
  f <-- deref p ;; v_write (pset f i v).
(** Assign some bit fields of [p[i]]. *)
Definition set_t (p : tptr) (i : Z) (fs : list (field * Z)) : M vmm unit :=
  e <-- rd_t p i ;; wr_t p i (set_fields fs e).
(** Clear the 512 words behind [p]. *)
Definition zero_t (p : tptr) : M vmm unit :=
  f <-- deref p ;; v_write (pzero f).

Definition vmm_scratch_setup : M vmm unit :=
  let distance_bytes := VMM_SCRATCH_ISOLATED_BASE - KERNEL_VIRTUAL_BASE in
  let total_pages := distance_bytes / PAGE_SIZE in
  let pt_number := total_pages / 512 in
  k <-- kgets v_kernel ;;
  let window_pt := kframe k (PT_KERNEL_ADDRESS + pt_number * PAGE_SIZE) in
  kmodify (set_window_pt window_pt) ;;;
  let base_pt_idx := GET_PT_INDEX VMM_SCRATCH_WINDOW in
  for_ 16 0 (fun i => v_write (pset window_pt (base_pt_idx + i) 0)).

(** The fields a scratch mapping assigns. *)
Definition scratch_fields (phys_addr : Z) : list (field * Z) :=
  [(F_P, 1); (F_RW, 1); (F_US, 0); (F_ADDR, Z.shiftr phys_addr 12)].

(** The store [pt[pt_idx] = 0] goes through a pointer that was already
    advanced by [pt_idx]: it lands [2 * pt_idx] words into the table, which is
    in the frame after it. *)
Definition vmm_scratch_map_internal (phys_addr window : Z) : M vmm tptr :=
  if (window <? 0) || (14 <? window) then kret TNull else
  wpt <-- kgets g_window_pt ;;
  let pt_idx := win_slot window in
  v_write (pset (wpt + 2 * pt_idx / 512) (2 * pt_idx mod 512) 0) ;;;
  v_write (fun m => pset wpt pt_idx (set_fields (scratch_fields phys_addr) (m wpt pt_idx)) m) ;;;
  kret (TWin window).

Definition vmm_scratch_map_process (phys_addr : Z) : M vmm tptr :=
  vmm_scratch_map_internal phys_addr 10.
Definition vmm_scratch_map_brk (phys_addr : Z) : M vmm tptr :=
  vmm_scratch_map_internal phys_addr 11.

(** The single window of the first implementation, entry 496. *)
Definition vmm_scratch_map (phys_addr : Z) : M vmm tptr :=
  wpt <-- kgets g_window_pt ;;
  let pt_idx := GET_PT_INDEX VMM_SCRATCH_WINDOW in
  v_write (fun m => pset wpt pt_idx (set_fields (scratch_fields phys_addr) (m wpt pt_idx)) m) ;;;
  kret (TWin (-1)).

(** ** Mapping one page *)

(** Allocate a table, clear it through window [w]. *)
Definition new_table (w : Z) : M vmm Z :=
  new_table_phys <-- v_on_pmm pmm_alloc_page ;;
  virt_ptr <-- vmm_scratch_map_internal new_table_phys w ;;
  zero_t virt_ptr ;;;
  kret new_table_phys.

(** Step 1: make sure the PDPT exists. *)
Definition ensure_pdpt (pml4 : tptr) (pml4_idx flag_rw flag_us : Z) : M vmm Z :=
  e <-- rd_t pml4 pml4_idx ;;
  if bf_get F_P e =? 0 then
    new_table_phys <-- new_table 0 ;;
    set_t pml4 pml4_idx [(F_P, 1); (F_RW, flag_rw); (F_US, flag_us);
                         (F_ADDR, Z.shiftr new_table_phys 12)] ;;;
    kret new_table_phys
  else kret (Z.shiftl (bf_get F_ADDR e) 12).

(** Step 2: make sure the page directory exists.  Only here is the address
    read back masked with [0xFFFFFFFFF]. *)
Definition ensure_pd (pdpt_phys pdpt_idx flag_rw flag_us : Z) : M vmm Z :=
  pdpt <-- vmm_scratch_map_internal pdpt_phys 0 ;;
  e <-- rd_t pdpt pdpt_idx ;;
  if bf_get F_P e =? 0 then
    new_table_phys <-- new_table 1 ;;
    set_t pdpt pdpt_idx [(F_P, 1); (F_RW, flag_rw); (F_US, flag_us);
                         (F_ADDR, Z.shiftr new_table_phys 12)] ;;;
    kret new_table_phys
  else kret (Z.land (Z.shiftl (bf_get F_ADDR e) 12) 0xFFFFFFFFF).

(** Step 3: make sure the page table exists. *)
Definition ensure_pt (pd_phys pd_idx flag_rw flag_us : Z) : M vmm Z :=
  pd <-- vmm_scratch_map_internal pd_phys 0 ;;
  e <-- rd_t pd pd_idx ;;
  if bf_get F_P e =? 0 then
    new_table_phys <-- new_table 1 ;;
    set_t pd pd_idx [(F_P, 1); (F_RW, flag_rw); (F_US, flag_us); (F_PS, 0);
                     (F_ADDR, Z.shiftr new_table_phys 12)] ;;;
    kret new_table_phys
  else kret (Z.shiftl (bf_get F_ADDR e) 12).

Definition vmm_map_page (pml4 : tptr) (virt phys_addr flags : Z) : M vmm unit :=
  vmm_lock ;;;
  let flag_rw := Z.b2z (Z.testbit flags 1) in
  let flag_us := Z.b2z (Z.testbit flags 2) in
  pdpt_phys <-- ensure_pdpt pml4 (GET_PML4_INDEX virt) flag_rw flag_us ;;
  pd_phys <-- ensure_pd pdpt_phys (GET_PDPT_INDEX virt) flag_rw flag_us ;;
  pt_phys <-- ensure_pt pd_phys (GET_PD_INDEX virt) flag_rw flag_us ;;
  pt <-- vmm_scratch_map_internal pt_phys 0 ;;
  set_t pt (GET_PT_INDEX virt)
    [(F_P, 1); (F_RW, flag_rw); (F_US, flag_us); (F_ADDR, Z.shiftr phys_addr 12);
     (F_NX, Z.b2z (Z.testbit flags 63))] ;;;
  vmm_unlock.

(** ** Removing a mapping *)

Definition vmm_unmap_page (pml4 : tptr) (virt : Z) : M vmm unit :=
  vmm_lock ;;;
  e4 <-- rd_t pml4 (GET_PML4_INDEX virt) ;;
  if bf_get F_P e4 =? 0 then vmm_unlock else
  pdpt <-- vmm_scratch_map_internal (Z.shiftl (bf_get F_ADDR e4) 12) 0 ;;
  e3 <-- rd_t pdpt (GET_PDPT_INDEX virt) ;;
  if bf_get F_P e3 =? 0 then vmm_unlock else
  pd <-- vmm_scratch_map_internal (Z.shiftl (bf_get F_ADDR e3) 12) 0 ;;
  e2 <-- rd_t pd (GET_PD_INDEX virt) ;;
  if bf_get F_P e2 =? 0 then vmm_unlock else
  pt <-- vmm_scratch_map_internal (Z.shiftl (bf_get F_ADDR e2) 12) 0 ;;
  e1 <-- rd_t pt (GET_PT_INDEX virt) ;;
  if bf_get F_P e1 =? 0 then vmm_unlock else
  v_on_pmm (pmm_free_page (Z.shiftl (bf_get F_ADDR e1) 12)) ;;;
  set_t pt (GET_PT_INDEX virt) [(F_P, 0); (F_ADDR, 0)] ;;;
  vmm_unlock.

(** ** Translation in software *)

Definition vmm_get_physical_address (pml4 : tptr) (page_va : Z) : M vmm Z :=
  vmm_lock ;;;
  e4 <-- rd_t pml4 (GET_PML4_INDEX page_va) ;;
  if bf_get F_P e4 =? 0 then vmm_unlock ;;; kret 0 else
  pdpt <-- vmm_scratch_map_internal (Z.shiftl (bf_get F_ADDR e4) 12) 0 ;;
  e3 <-- rd_t pdpt (GET_PDPT_INDEX page_va) ;;
  if bf_get F_P e3 =? 0 then vmm_unlock ;;; kret 0 else
  pd <-- vmm_scratch_map_internal (Z.shiftl (bf_get F_ADDR e3) 12) 0 ;;
  e2 <-- rd_t pd (GET_PD_INDEX page_va) ;;
  if bf_get F_P e2 =? 0 then vmm_unlock ;;; kret 0 else
  if negb (bf_get F_PS e2 =? 0) then
    vmm_unlock ;;; kret (Z.shiftl (bf_get F_ADDR e2) 12) else
  pt <-- vmm_scratch_map_internal (Z.shiftl (bf_get F_ADDR e2) 12) 0 ;;
  e1 <-- rd_t pt (GET_PT_INDEX page_va) ;;
  if bf_get F_P e1 =? 0 then vmm_unlock ;;; kret 0 else
  vmm_unlock ;;;
  kret (Z.shiftl (bf_get F_ADDR e1) 12).

Definition vmm_get_physical (virtual_address : Z) : M vmm Z :=
  vmm_lock ;;;
  k <-- kgets v_kernel ;;
  let pml4 := TFrame (kframe k PML4_ADDRESS) in
  let offset := Z.land virtual_address 0xFFF in
  e4 <-- rd_t pml4 (GET_PML4_INDEX virtual_address) ;;
  if bf_get F_P e4 =? 0 then vmm_unlock ;;; kret 0 else
  pdpt <-- vmm_scratch_map_internal (Z.shiftl (bf_get F_ADDR e4) 12) 0 ;;
  e3 <-- rd_t pdpt (GET_PDPT_INDEX virtual_address) ;;
  if bf_get F_P e3 =? 0 then vmm_unlock ;;; kret 0 else
  if negb (Z.land e3 (Z.shiftl 1 7) =? 0) then
    vmm_unlock ;;;
    kret (Z.lor (Z.land e3 0x000FFFFFFFFFF000) (Z.land virtual_address 0x3FFFFFFF)) else
  pd <-- vmm_scratch_map_internal (Z.shiftl (bf_get F_ADDR e3) 12) 0 ;;
  e2 <-- rd_t pd (GET_PD_INDEX virtual_address) ;;
  if bf_get F_P e2 =? 0 then vmm_unlock ;;; kret 0 else
  if negb (bf_get F_PS e2 =? 0) then
    vmm_unlock ;;;
    kret (Z.lor (Z.shiftl (bf_get F_ADDR e2) 12) (Z.land virtual_address 0x1FFFFF)) else
  pt <-- vmm_scratch_map_internal (Z.shiftl (bf_get F_ADDR e2) 12) 0 ;;
  e1 <-- rd_t pt (GET_PT_INDEX virtual_address) ;;
  if bf_get F_P e1 =? 0 then vmm_unlock ;;; kret 0 else
  vmm_unlock ;;;
  kret (Z.lor (Z.shiftl (bf_get F_ADDR e1) 12) offset).

(** ** Devices *)

Definition map_device_page (phys_page i : Z) (_ : unit) : M vmm (unit + unit) :=
  k <-- kgets v_kernel ;;
  va <-- kgets next_available_virtual ;;
  vmm_map_page (TFrame (kframe k PML4_ADDRESS)) va (u64 (phys_page + i * PAGE_SIZE)) 0x1B ;;;
  let next := u64 (va + PAGE_SIZE) in
  kmodify (set_next_dev next) ;;;
  if KERNEL_MMIO_VIRTUAL_END <=? next then kstop Halted else kret (inl tt).

Definition vmm_map_device (phys_addr size : Z) : M vmm Z :=
  if size =? 0 then kret 0 else
  let phys_page := Z.land phys_addr (u64 (Z.lnot (PAGE_SIZE - 1))) in
  let page_offset := Z.land phys_addr (PAGE_SIZE - 1) in
  let num_pages := u64 (size + page_offset + PAGE_SIZE - 1) / PAGE_SIZE in
  start_virtual_address <-- kgets next_available_virtual ;;
  loop (Z.to_nat num_pages) 0 (map_device_page phys_page) tt ;;;
  kret (u64 (start_virtual_address + page_offset)).

(** ** Address spaces *)

Definition vmm_switch_pml4 (pml4_phys : Z) : M vmm unit := kmodify (set_v_cr3 pml4_phys).

Definition vmm_create_address_space : M vmm Z :=
  vmm_lock ;;;
  new_pml4_phys <-- v_on_pmm pmm_alloc_page ;;
  if new_pml4_phys =? 0 then vmm_unlock ;;; kret 0 else
  current_pml4_phys <-- kgets v_cr3 ;;
  current_pml4_raw <-- vmm_scratch_map_internal current_pml4_phys 0 ;;
  cur <-- deref current_pml4_raw ;;
  kernel_entries_buffer <-- kgets (fun s => map (v_mem s cur) (seqZ 256 256)) ;;
  shm_entry <-- rd_t current_pml4_raw 224 ;;
  new_pml4_raw <-- vmm_scratch_map_internal new_pml4_phys 1 ;;
  for_ 256 0 (fun i => wr_t new_pml4_raw i 0) ;;;
  for_ 256 256 (fun i => v <-- rd kernel_entries_buffer (i - 256) ;; wr_t new_pml4_raw i v) ;;;
  wr_t new_pml4_raw 224 shm_entry ;;;
  vmm_unlock ;;;
  kret (Z.land new_pml4_phys (u64 (Z.lnot 0xFFF))).

(** [memcpy] of one page between two pointers. *)
Definition copy_t (dst src : tptr) : M vmm unit :=
  d <-- deref dst ;;
  f <-- deref src ;;
  v_write (fun m => fun f' i => if f' =? d then m f i else m f' i).

(** The entry of the child: the parent's bit fields with another frame. *)
Definition clone_entry (e a : Z) : Z := bf_set F_ADDR a (bf_set F_P 1 e).

(** A page of the parent. *)
Definition clone_page (pt_parent pt_child : tptr) (m : Z) (_ : unit) : M vmm (unit + Z) :=
  e <-- rd_t pt_parent m ;;
  if bf_get F_P e =? 0 then kret (inl tt) else
  child_page_phys <-- v_on_pmm pmm_alloc_page ;;
  if child_page_phys =? 0 then vmm_unlock ;;; kret (inr 0) else
  wr_t pt_child m (clone_entry e (Z.shiftr child_page_phys 12)) ;;;
  src_data <-- vmm_scratch_map_internal (Z.shiftl (bf_get F_ADDR e) 12) 8 ;;
  dest_data <-- vmm_scratch_map_internal child_page_phys 9 ;;
  copy_t dest_data src_data ;;;
  kret (inl tt).

(** One level of the clone: for entry [i] of the parent's table allocate a
    table, clear it in window [wc], link it, open the parent's table in window
    [wp] and go through its entries with [next]. *)
Definition clone_level (skip : Z -> bool) (wc wp_ : Z)
    (next : tptr -> tptr -> Z -> unit -> M vmm (unit + Z))
    (parent child : tptr) (i : Z) (_ : unit) : M vmm (unit + Z) :=
  e <-- rd_t parent i ;;
  if bf_get F_P e =? 0 then kret (inl tt) else
  if skip i then kret (inl tt) else
  child_phys <-- v_on_pmm pmm_alloc_page ;;
  if child_phys =? 0 then vmm_unlock ;;; kret (inr 0) else
  table_child <-- vmm_scratch_map_internal child_phys wc ;;
  zero_t table_child ;;;
  wr_t child i (clone_entry e (Z.shiftr child_phys 12)) ;;;
  table_parent <-- vmm_scratch_map_internal (Z.shiftl (bf_get F_ADDR e) 12) wp_ ;;
  loop 512 0 (next table_parent table_child) tt.

Definition vmm_clone_address_space (parent_pml4_phys : Z) : M vmm Z :=
  child_pml4_phys <-- vmm_create_address_space ;;
  if child_pml4_phys =? 0 then kret 0 else
  vmm_lock ;;;
  pml4_parent <-- vmm_scratch_map_internal parent_pml4_phys 0 ;;
  pml4_child <-- vmm_scratch_map_internal child_pml4_phys 1 ;;
  r <-- loop 256 0
          (clone_level (fun i => i =? 224) 3 2
             (clone_level (fun _ => false) 5 4
                (clone_level (fun _ => false) 7 6 clone_page))
             pml4_parent pml4_child) tt ;;
  match r with
  | inr a => kret a
  | inl _ => vmm_unlock ;;; kret child_pml4_phys
  end.

(** ** Initialisation *)

Definition vmm_init : M vmm unit :=
  vmm_unlock ;;;
  vmm_scratch_setup ;;;
  k <-- kgets v_kernel ;;
  for_ (Z.to_nat (KERNEL_HEAP_INITIAL_SIZE / PAGE_SIZE)) 0 (fun i =>
    phys_page <-- v_on_pmm pmm_alloc_page ;;
    vmm_map_page (TFrame (kframe k PML4_ADDRESS)) (KERNEL_HEAP_VIRTUAL_BASE + i * PAGE_SIZE)
      phys_page 0x2).

(** ** The tree of page tables

    [vidx L va] is the index of [va] in its level-[L] table and [pref L va]
    the part of the address above it, which identifies that table. *)

Definition vidx (L va : Z) : Z := Z.land (Z.shiftr va (3 + 9 * L)) 0x1FF.
Definition pref (L va : Z) : Z := (va / 2 ^ (12 + 9 * L)) mod 2 ^ (9 * (4 - L)).

(** Two addresses are in the same virtual page. *)
Definition same_page (va va' : Z) : Prop :=
  pref 1 va = pref 1 va' /\ vidx 1 va = vidx 1 va'.

(** The tables the walk of [va] goes through. *)
Inductive reach (m : phys) (root va : Z) : Z -> Z -> Prop :=
| reach_root : reach m root va 4 root
| reach_down L f :
    reach m root va L f -> 1 < L -> bf_get F_P (m f (vidx L va)) <> 0 ->
    reach m root va (L - 1) (bf_get F_ADDR (m f (vidx L va))).

(** [tau] gives the level and the address prefix of every table of the tree:
    no table is shared and no page is larger than 4 KB. *)
Record tree_ok (m : phys) (root : Z) (tau : Z -> option (Z * Z)) : Prop := {
  tree_root : tau root = Some (4, 0);
  tree_ps : forall f L pre i, tau f = Some (L, pre) -> 1 < L -> 0 <= i < 512 ->
    bf_get F_PS (m f i) = 0;
  tree_down : forall f L pre i, tau f = Some (L, pre) -> 1 < L -> 0 <= i < 512 ->
    bf_get F_P (m f i) <> 0 ->
    tau (bf_get F_ADDR (m f i)) = Some (L - 1, pre * 512 + i)
}.

Lemma bit_01 f e : f_width f = 1 -> bf_get f e = 0 \/ bf_get f e = 1.
Proof.
  intros Hf. unfold bf_get. rewrite Hf.
  pose proof (Z.mod_pos_bound (e / 2 ^ f_off f) (2 ^ 1) ltac:(lia)). lia.
Qed.

Lemma vidx_range L va : 0 <= vidx L va < 512.
Proof.
  unfold vidx. change 0x1FF with (Z.ones 9). rewrite Z.land_ones by lia.
  apply Z.mod_pos_bound. lia.
Qed.

Lemma vidx_get va :
  GET_PML4_INDEX va = vidx 4 va /\ GET_PDPT_INDEX va = vidx 3 va /\
  GET_PD_INDEX va = vidx 2 va /\ GET_PT_INDEX va = vidx 1 va.
Proof. done. Qed.

Lemma pref_down L va : L = 4 \/ L = 3 \/ L = 2 -> pref (L - 1) va = pref L va * 512 + vidx L va.
Proof.
  unfold pref, vidx.
  intros [-> | [-> | ->]]; rewrite index_eq by lia; cbn -[Z.pow Z.div Z.modulo];
    change (2 ^ 48) with 281474976710656; change (2 ^ 39) with 549755813888;
    change (2 ^ 30) with 1073741824; change (2 ^ 21) with 2097152;
    change (2 ^ 27) with 134217728; change (2 ^ 18) with 262144; change (2 ^ 9) with 512;
    change (2 ^ 0) with 1; zdiv_lia.
Qed.

Lemma reach_level m root va L f : reach m root va L f -> L = 4 \/ L = 3 \/ L = 2 \/ L = 1.
Proof. induction 1; lia. Qed.

(** The tables on the path of [va] are those with its prefixes. *)
Lemma reach_tau m root tau va L f :
  tree_ok m root tau -> reach m root va L f -> tau f = Some (L, pref L va).
Proof.
  intros Ht. induction 1 as [|L f Hr IH HL HP].
  - rewrite (tree_root _ _ _ Ht). f_equal. f_equal. unfold pref. cbn -[Z.pow].
    change (2 ^ 0) with 1. by rewrite Z.mod_1_r.
  - rewrite (tree_down _ _ _ Ht f L (pref L va) (vidx L va)) by (done || apply vidx_range).
    rewrite pref_down; [done|]. apply reach_level in Hr. lia.
Qed.

(** The walk depends only on the entries it reads. *)
Lemma walk_ext m m' c va :
  (forall L f, reach m (bf_get F_ADDR c) va L f -> m' f (vidx L va) = m f (vidx L va)) ->
  mmu_walk m' c va = mmu_walk m c va.
Proof.
  intros H. unfold mmu_walk. destruct (vidx_get va) as (-> & -> & -> & ->).
  pose proof (reach_root m (bf_get F_ADDR c) va) as R4. rewrite (H _ _ R4).
  destruct (_ =? 0) eqn:E4; [done|]. zbool. pose proof (reach_down _ _ _ _ _ R4 ltac:(lia) E4) as R3.
  rewrite (H _ _ R3 : _ _ (vidx 3 va) = _). destruct (_ =? 0) eqn:E3; [done|]. zbool.
  destruct (bf_get F_PS _ =? 1); [done|].
  pose proof (reach_down _ _ _ _ _ R3 ltac:(lia) E3) as R2.
  rewrite (H _ _ R2 : _ _ (vidx 2 va) = _). destruct (_ =? 0) eqn:E2; [done|]. zbool.
  destruct (bf_get F_PS _ =? 1); [done|].
  pose proof (reach_down _ _ _ _ _ R2 ltac:(lia) E2) as R1.
  by rewrite (H _ _ R1 : _ _ (vidx 1 va) = _).
Qed.

(** Linking an empty table where there was no entry changes no translation. *)
Lemma walk_link m m' c va f i :
  (forall L g, reach m (bf_get F_ADDR c) va L g ->
     (g = f /\ vidx L va = i /\ 1 < L) \/ m' g (vidx L va) = m g (vidx L va)) ->
  bf_get F_P (m f i) = 0 -> bf_get F_PS (m' f i) = 0 ->
  (forall j, bf_get F_P (m' (bf_get F_ADDR (m' f i)) j) = 0) ->
  mmu_walk m' c va = mmu_walk m c va.
Proof.
  intros H Habs Hps Hz. unfold mmu_walk. destruct (vidx_get va) as (-> & -> & -> & ->).
  pose proof (reach_root m (bf_get F_ADDR c) va) as R4.
  destruct (H _ _ R4) as [(-> & -> & _)| ->].
  { rewrite Habs, Hz. cbn. by destruct (_ =? 0). }
  destruct (_ =? 0) eqn:E4; [done|]. zbool. pose proof (reach_down _ _ _ _ _ R4 ltac:(lia) E4) as R3.
  change (4 - 1) with 3 in R3.
  destruct (H _ _ R3) as [(-> & -> & _)| ->].
  { rewrite Habs, Hps, Hz. cbn. by destruct (_ =? 0). }
  destruct (_ =? 0) eqn:E3; [done|]. zbool. destruct (bf_get F_PS _ =? 1); [done|].
  pose proof (reach_down _ _ _ _ _ R3 ltac:(lia) E3) as R2.
  change (3 - 1) with 2 in R2.
  destruct (H _ _ R2) as [(-> & -> & _)| ->].
  { rewrite Habs, Hps, Hz. cbn. by destruct (_ =? 0). }
  destruct (_ =? 0) eqn:E2; [done|]. zbool. destruct (bf_get F_PS _ =? 1); [done|].
  pose proof (reach_down _ _ _ _ _ R2 ltac:(lia) E2) as R1.
  change (2 - 1) with 1 in R1.
  destruct (H _ _ R1) as [(_ & _ & ?)| ->]; [lia | done].
Qed.

(** ** Invariant of the manager

    A machine with at most 64 GB (frames below [2 ^ 24]): beyond that the mask
    of [ensure_pd] loses address bits. *)
Record vinv (s : vmm) (root : Z) (tau : Z -> option (Z * Z)) : Prop := {
  vi_tree : tree_ok (v_mem s) root tau;
  vi_pmm : pmm_ok (v_pmm s);
  vi_total : pmm_total_pages (v_pmm s) <= 2 ^ 24;
  vi_range : forall f x, tau f = Some x -> 0 <= f < 2 ^ 24;
  vi_fresh : forall p, p ∈ free_list (v_pmm s) ->
    0 < p /\ tau p = None /\ p <> g_window_pt s /\ p <> g_window_pt s + 1;
  vi_win : forall f L pre, f = g_window_pt s \/ f = g_window_pt s + 1 ->
    tau f = Some (L, pre) -> L = 1
}.

(** The address is translated by one of the two page tables the scratch
    windows write to. *)
Definition win_va (s : vmm) (tau : Z -> option (Z * Z)) (va : Z) : Prop :=
  tau (g_window_pt s) = Some (1, pref 1 va) \/ tau (g_window_pt s + 1) = Some (1, pref 1 va).

(** A frame that is neither a page table nor free nor a window table. *)
Definition spare (s : vmm) (tau : Z -> option (Z * Z)) (f : Z) : Prop :=
  tau f = None /\ (f ∉ free_list (v_pmm s)) /\ f <> g_window_pt s /\ f <> g_window_pt s + 1.

(** A step that keeps the invariant, every translation and every spare frame, may extend the tree
    with fresh empty tables, and takes at most [n] pages. *)
Record vstep (n : nat) (root : Z) (s : vmm) (tau : Z -> option (Z * Z))
    (s' : vmm) (tau' : Z -> option (Z * Z)) : Prop := {
  vs_inv : vinv s' root tau';
  vs_tau : forall f x, tau f = Some x -> tau' f = Some x;
  vs_wpt : g_window_pt s' = g_window_pt s;
  vs_wtau : tau' (g_window_pt s) = tau (g_window_pt s) /\
            tau' (g_window_pt s + 1) = tau (g_window_pt s + 1);
  vs_kernel : v_kernel s' = v_kernel s;
  vs_lock : g_vmm_lock s' = g_vmm_lock s;
  vs_cr3 : v_cr3 s' = v_cr3 s;
  vs_dev : next_available_virtual s' = next_available_virtual s;
  vs_walk : forall c va, bf_get F_ADDR c = root -> ~ win_va s tau va ->
    mmu_walk (v_mem s') c va = mmu_walk (v_mem s) c va;
  vs_keep : forall f L pre i, tau f = Some (L, pre) -> 1 < L -> 0 <= i < 512 ->
    bf_get F_P (v_mem s f i) <> 0 -> v_mem s' f i = v_mem s f i;
  vs_free : (length (free_list (v_pmm s)) <= length (free_list (v_pmm s')) + n)%nat;
  vs_spare : forall f, spare s tau f -> spare s' tau' f /\ forall i, v_mem s' f i = v_mem s f i
}.

Lemma vstep_refl root s tau : vinv s root tau -> vstep 0 root s tau s tau.
Proof. intros H. split; try done. lia. Qed.

Lemma vstep_trans n1 n2 root s tau s1 tau1 s2 tau2 :
  vstep n1 root s tau s1 tau1 -> vstep n2 root s1 tau1 s2 tau2 ->
  vstep (n1 + n2) root s tau s2 tau2.
Proof.
  intros [I1 T1 W1 [A1 B1] K1 L1 C1 D1 P1 E1 F1 S1] [I2 T2 W2 [A2 B2] K2 L2 C2 D2 P2 E2 F2 S2].
  rewrite W1 in *. split; try congruence; [auto | by split; congruence | | | lia |].
  - intros c va Hc Hwin. rewrite P2, P1; try done. unfold win_va in *. rewrite W1, A1, B1. done.
  - intros f L pre i Hf HL Hi HP. rewrite <- (E1 f L pre i) by done.
    apply (E2 f L pre i); auto. by rewrite (E1 f L pre i).
  - intros f Hf. destruct (S1 f Hf) as [Hf1 M1]. destruct (S2 f Hf1) as [Hf2 M2].
    split; [done|]. intros i. by rewrite M2, M1.
Qed.

Lemma points_keep n root s tau s' tau' f L pre i a :
  vstep n root s tau s' tau' -> tau f = Some (L, pre) -> 1 < L -> 0 <= i < 512 ->
  points (v_mem s f i) a -> points (v_mem s' f i) a.
Proof.
  intros V Hf HL Hi Hp. rewrite (vs_keep _ _ _ _ _ _ V f L pre i); try done.
  by destruct Hp as [-> _].
Qed.

(** Changes confined to the two window tables keep the tree. *)
Lemma vstep_windows root s tau m' :
  vinv s root tau ->
  (forall f i, f <> g_window_pt s -> f <> g_window_pt s + 1 -> m' f i = v_mem s f i) ->
  vstep 0 root s tau (set_v_mem m' s) tau.
Proof.
  intros Hinv Hm. pose proof Hinv as [[Tr Tp Td] Hp Ht Hr Hf Hw].
  assert (Hup : forall f L pre i, tau f = Some (L, pre) -> 1 < L -> m' f i = v_mem s f i).
  { intros f L pre i Hf' HL. apply Hm; intros ->;
      assert (L = 1) by (eapply Hw; [|done]; eauto); lia. }
  split; try done; cbn; [| |intros f L pre i Hf' HL _ _; eauto | lia |].
  - split; try done. cbn. split; [done | |].
    + intros f L pre i Hf' HL Hi. erewrite Hup by done. eauto.
    + intros f L pre i Hf' HL Hi. erewrite Hup by done. eauto.
  - intros c va Hc Hwin. apply walk_ext. rewrite Hc. intros L f Hreach.
    pose proof (reach_tau _ _ _ _ _ _ (vi_tree _ _ _ Hinv) Hreach) as Htau.
    apply reach_level in Hreach as HL. destruct (Z.eq_dec L 1) as [->|]; [|eapply Hup; [done | lia]].
    apply Hm; intros ->; apply Hwin; unfold win_va; auto.
  - intros f Hsp. split; [done|]. intros i. by apply Hm; apply Hsp.
Qed.

Lemma set_v_mem_id s : set_v_mem (v_mem s) s = s.
Proof. by destruct s. Qed.

(** Opening window [w] on frame [a]. *)
Lemma wp_scratch root s tau a w (Q : tptr -> vmm -> Prop) :
  vinv s root tau -> 0 <= w <= 14 -> 0 <= a < 2 ^ 40 ->
  (forall s', vstep 0 root s tau s' tau -> s' = set_v_mem (v_mem s') s ->
     frame_of s' (TWin w) = Some a ->
     (forall w', w' <> w -> -1 <= w' <= 14 -> frame_of s' (TWin w') = frame_of s (TWin w')) ->
     (forall f i, f <> g_window_pt s -> f <> g_window_pt s + 1 -> v_mem s' f i = v_mem s f i) ->
     Q (TWin w) s') ->
  wp (vmm_scratch_map_internal (a * PAGE_SIZE) w) Q s.
Proof.
  intros Hinv Hw Ha HQ. unfold vmm_scratch_map_internal, v_write.
  rewrite (proj2 (Z.ltb_ge w 0)), (proj2 (Z.ltb_ge 14 w)) by lia. cbn [orb]. wp_steps.
  assert (Hslot : win_slot w = 497 + w) by done. rewrite Hslot in *.
  assert (E1 : 2 * (497 + w) / 512 = 1) by zdiv_lia.
  assert (E2 : 2 * (497 + w) mod 512 = 482 + 2 * w) by zdiv_lia.
  set (s' := set_v_mem _ _).
  assert (Hs' : s' = set_v_mem (v_mem s') s) by done.
  assert (Hmem : forall f i, f <> g_window_pt s -> f <> g_window_pt s + 1 ->
    v_mem s' f i = v_mem s f i).
  { intros f i H1 H2. unfold s'. cbn. rewrite E1, !pset_ne by lia. done. }
  apply HQ.
  - rewrite Hs'. by apply vstep_windows.
  - done.
  - unfold s', frame_of. rewrite Hslot. cbn -[set_fields]. rewrite pset_eq. f_equal.
    unfold scratch_fields. bf_solve. change PAGE_SIZE with (2 ^ 12).
    rewrite Z.shiftr_div_pow2, Z.div_mul by lia. by apply Z.mod_small.
  - intros w' Hne Hw'. unfold s', frame_of. cbn -[set_fields]. rewrite E1.
    assert (win_slot w' = 497 + w') as -> by done.
    rewrite !pset_ne by lia. done.
  - done.
Qed.

(** ** Extending the tree *)

(** The tree after a fresh frame [n] became the table of prefix [pre] at
    level [L]. *)
Definition extend (tau : Z -> option (Z * Z)) (n L pre : Z) : Z -> option (Z * Z) :=
  fun f => if f =? n then Some (L, pre) else tau f.

(** Allocation with a page to give. *)
Lemma wp_v_alloc root s tau (Q : Z -> vmm -> Prop) :
  vinv s root tau -> free_list (v_pmm s) <> [] ->
  (forall n p', free_list (v_pmm s) = n :: free_list p' -> pmm_ok p' ->
     pmm_total_pages p' = pmm_total_pages (v_pmm s) -> 0 < n < 2 ^ 24 ->
     Q (n * PAGE_SIZE) (set_v_pmm p' s)) ->
  wp (v_on_pmm pmm_alloc_page) Q s.
Proof.
  intros Hinv Hne HQ. unfold v_on_pmm. apply wp_zoom.
  eapply wp_mono; [apply wp_pmm_alloc_page, Hinv|]. cbn beta.
  intros a p' [Hok [(n & Hn & Hu & Hlow & -> & Hm)|(_ & _ & Hall)]].
  - pose proof (free_list_pop _ _ _ Hn Hu Hlow Hm) as Hpop.
    apply HQ; try done; [apply Hm|]. pose proof (vi_total _ _ _ Hinv).
    assert (n ∈ free_list (v_pmm s)) as Hin by (rewrite Hpop; by left).
    pose proof (vi_fresh _ _ _ Hinv n Hin). lia.
  - by rewrite free_list_nil in Hne.
Qed.

(** Memory after a zeroed fresh table [n] was linked into entry [i] of the
    level-[L] table [f], where there was no entry. *)
Lemma vstep_link root s tau f L pre i n e p' :
  vinv s root tau -> tau f = Some (L, pre) -> 1 < L -> 0 <= i < 512 ->
  bf_get F_P (v_mem s f i) = 0 -> points e n ->
  free_list (v_pmm s) = n :: free_list p' -> pmm_ok p' ->
  pmm_total_pages p' = pmm_total_pages (v_pmm s) ->
  (forall m', (forall g j, g <> g_window_pt s -> g <> g_window_pt s + 1 ->
     m' g j = pset f i e (pzero n (v_mem s)) g j) ->
   vstep 1 root s tau (set_v_mem m' (set_v_pmm p' s)) (extend tau n (L - 1) (pre * 512 + i))).
Proof.
  intros Hinv Hf HL Hi Habs (EP & ES & EA) Hpop Hok Htot m' Hm.
  pose proof Hinv as [[Tr Tp Td] Hp Ht Hr Hfr Hw].
  assert (n ∈ free_list (v_pmm s)) as Hin by (rewrite Hpop; by left).
  destruct (Hfr n Hin) as (Hn0 & Hntau & Hnw & Hnw1).
  assert (Hnr : 0 <= n < 2 ^ 24) by (apply elem_free_list in Hin; lia).
  assert (Hfw : forall g L' pre', tau g = Some (L', pre') -> 1 < L' ->
    g <> g_window_pt s /\ g <> g_window_pt s + 1 /\ g <> n).
  { intros g L' pre' Hg HL'. split_and!; intros ->; [| |congruence];
      (assert (L' = 1) by (eapply Hw; [|done]; eauto); lia). }
  assert (Hread : forall g L' pre' j, tau g = Some (L', pre') -> 1 < L' ->
    m' g j = if (g =? f) && (j =? i) then e else v_mem s g j).
  { intros g L' pre' j Hg HL'. destruct (Hfw g L' pre' Hg HL') as (H1 & H2 & H3).
    rewrite Hm by done. unfold pset. destruct (_ && _); [done|]. by apply pzero_ne. }
  assert (Hnew : forall j, m' n j = 0).
  { intros j. rewrite Hm by done. destruct (Hfw f L pre Hf HL) as (_ & _ & ?).
    rewrite pset_ne by (left; congruence). apply pzero_eq. }
  assert (Hext : forall g x, tau g = Some x -> extend tau n (L - 1) (pre * 512 + i) g = Some x).
  { intros g x Hg. unfold extend. case_if; [congruence | done]. }
  assert (Hextw : forall g, g <> n -> extend tau n (L - 1) (pre * 512 + i) g = tau g).
  { intros g Hg. unfold extend. by rewrite (proj2 (Z.eqb_neq _ _) Hg). }
  split; try done; cbn.
  - split; cbn; try done; [| by rewrite Htot | | |].
    + split; [by apply Hext | |].
      * intros g L' pre' j Hg HL' Hj. unfold extend in Hg. destruct (g =? n) eqn:E; zbool.
        { subst g. by rewrite Hnew. }
        rewrite (Hread g L' pre' j Hg HL'). destruct (_ && _); [done|]. eauto.
      * intros g L' pre' j Hg HL' Hj HP. unfold extend in Hg. destruct (g =? n) eqn:E; zbool.
        { subst g. rewrite Hnew in HP. done. }
        rewrite (Hread g L' pre' j Hg HL') in *.
        destruct ((g =? f) && (j =? i)) eqn:E'; zbool.
        -- subst g j. rewrite EA. unfold extend. rewrite Z.eqb_refl. congruence.
        -- apply Hext. eauto.
    + intros g x Hg. unfold extend in Hg. destruct (g =? n) eqn:E; zbool; [by subst | eauto].
    + intros p Hp'. assert (p ∈ free_list (v_pmm s)) as Hp2 by (rewrite Hpop; by right).
      destruct (Hfr p Hp2) as (H1 & H2 & H3 & H4). split_and!; try done. rewrite Hextw; [done|].
      intros ->. assert (NoDup (free_list (v_pmm s))) as Hnd.
      { apply NoDup_filter, NoDup_seqZ. }
      rewrite Hpop in Hnd. by apply NoDup_cons in Hnd as [? _].
    + intros g L' pre' Hg Htau. rewrite Hextw in Htau by (destruct Hg; congruence). eauto.
  - by rewrite !Hextw by congruence.
  - intros c va Hc Hwin.
    assert (Hfi : m' f i = e) by (rewrite (Hread f L pre i Hf HL); by rewrite !Z.eqb_refl).
    apply (walk_link _ _ _ _ f i); rewrite ?Hfi; [|done..|by intros j; rewrite EA, Hnew].
    rewrite Hc. intros L' g Hreach.
    pose proof (reach_tau _ _ _ _ _ _ (vi_tree _ _ _ Hinv) Hreach) as Htau.
    apply reach_level in Hreach as HL'. destruct (Z.eq_dec L' 1) as [->|].
    + right. assert (g <> g_window_pt s /\ g <> g_window_pt s + 1) as [H1 H2].
      { split; intros ->; apply Hwin; unfold win_va; auto. }
      rewrite Hm by done. rewrite pset_ne, pzero_ne; [done | congruence|].
      left. intros ->. rewrite Htau in Hf. by simplify_eq.
    + rewrite (Hread g L' _ _ Htau) by lia. destruct (_ && _) eqn:E; [|by right]. zbool.
      left. split_and!; [done..|lia].
  - intros g L' pre' j Hg HL' Hj HP. rewrite (Hread g L' pre' j Hg HL').
    destruct (_ && _) eqn:E; [|done]. zbool. subst. congruence.
  - rewrite Hpop. cbn. lia.
  - intros g (G1 & G2 & G3 & G4). rewrite Hpop in G2. apply not_elem_of_cons in G2 as [G2 G5].
    split; [split_and!; try done; by rewrite Hextw|].
    intros j. rewrite Hm by done. rewrite pset_ne by (left; congruence). by apply pzero_ne.
Qed.

(** A pointer that stays put while window [w] is reopened. *)
Definition stable (w : Z) (p : tptr) : Prop :=
  match p with
  | TNull => False
  | TFrame _ => True
  | TWin w' => w' <> w /\ -1 <= w' <= 14
  end.

(** Allocate, clear through window [w] and link a table into an empty entry. *)
Lemma wp_new_entry root s tau p f L pre i w fs (Q : Z -> vmm -> Prop) :
  vinv s root tau -> free_list (v_pmm s) <> [] -> 0 <= w <= 14 ->
  frame_of s p = Some f -> stable w p ->
  tau f = Some (L, pre) -> 1 < L -> 0 <= i < 512 -> bf_get F_P (v_mem s f i) = 0 ->
  (forall n e, 0 <= n < 2 ^ 40 -> bf_get F_PS e = 0 -> points (set_fields (fs (n * PAGE_SIZE)) e) n) ->
  (forall s' n, vstep 1 root s tau s' (extend tau n (L - 1) (pre * 512 + i)) ->
     points (v_mem s' f i) n -> 0 < n < 2 ^ 24 ->
     (forall w', stable w (TWin w') -> frame_of s' (TWin w') = frame_of s (TWin w')) ->
     Q (n * PAGE_SIZE) s') ->
  wp (n <-- new_table w ;; set_t p i (fs n) ;;; kret n) Q s.
Proof.
  intros Hinv Hne Hw Hp Hst Hf HL Hi Habs Hfs HQ. unfold new_table. apply wp_bind, wp_bind.
  apply (wp_v_alloc root s tau); [done..|]. intros n p' Hpop Hok Htot Hn.
  assert (n ∈ free_list (v_pmm s)) as Hin by (rewrite Hpop; by left).
  destruct (vi_fresh _ _ _ Hinv n Hin) as (_ & Hntau & Hnw & Hnw1).
  assert (Hinv1 : vinv (set_v_pmm p' s) root tau).
  { destruct Hinv as [Tr Hpm Ht Hr Hfr Hwi]. split; cbn; try done; [by rewrite Htot|].
    intros q Hq. apply Hfr. rewrite Hpop. by right. }
  apply wp_bind, (wp_scratch root _ tau); [done | done | lia|].
  intros s2 V2 E2 Hfw Hfo Hm2. cbn in Hm2.
  unfold zero_t, set_t, rd_t, wr_t, deref, v_write. wp_steps.
  eapply wp_opt; [exact Hfw|]. wp_steps. set (s3 := set_v_mem (pzero n (v_mem s2)) s2).
  assert (Ew : g_window_pt s2 = g_window_pt s) by apply V2.
  assert (Hfr3 : forall w', stable w (TWin w') -> frame_of s3 (TWin w') = frame_of s (TWin w')).
  { intros w' [Hne' Hr']. transitivity (frame_of s2 (TWin w')); [|by apply Hfo].
    unfold s3, frame_of. cbn. rewrite pzero_ne by (rewrite Ew; congruence). done. }
  assert (Hp3 : frame_of s3 p = Some f).
  { destruct p as [|g|w']; [done..|]. by rewrite Hfr3. }
  eapply wp_opt; [exact Hp3|]. wp_steps. eapply wp_opt; [exact Hp3|]. wp_steps.
  assert (f <> n) by congruence.
  assert (f <> g_window_pt s /\ f <> g_window_pt s + 1) as [Hfw1 Hfw2].
  { split; intros ->; (assert (L = 1) by (eapply (vi_win _ _ _ Hinv); [|done]; eauto); lia). }
  assert (E3 : v_mem s3 f i = v_mem s f i).
  { unfold s3. cbn. rewrite pzero_ne by done. by apply Hm2. }
  rewrite E3. set (e' := set_fields (fs (n * PAGE_SIZE)) (v_mem s f i)).
  assert (Hpt : points e' n).
  { apply Hfs; [lia|]. eapply tree_ps; [apply Hinv | done..]. }
  change (set_v_mem _ s3) with (set_v_mem (pset f i e' (pzero n (v_mem s2))) s2).
  rewrite E2 at 2. change (set_v_mem ?m (set_v_mem ?m' ?s)) with (set_v_mem m s).
  apply HQ.
  - eapply vstep_link; try done. intros g j H1 H2. unfold pset. destruct (_ && _); [done|].
    unfold pzero. destruct (g =? n); [done|]. by apply Hm2.
  - cbn. by rewrite pset_eq.
  - lia.
  - intros w' Hw'. rewrite <- (Hfr3 w' Hw'). unfold frame_of. cbn.
    rewrite <- Ew in Hfw1, Hfw2. rewrite Ew. unfold s3. cbn. rewrite Ew in *.
    rewrite pset_ne by (left; congruence). done.
Qed.

Lemma vstep_weaken n root s tau s' tau' :
  vstep 0 root s tau s' tau' -> vstep n root s tau s' tau'.
Proof. intros [I T W A K L C D P E F O]. split; try done. lia. Qed.

(** One step of the descent: the table below entry [vidx L va] of the table
    [f], created when there is none. *)
Lemma wp_ensure root s tau p f L va w fs mk (Q : Z -> vmm -> Prop) :
  vinv s root tau -> free_list (v_pmm s) <> [] -> 0 <= w <= 14 ->
  frame_of s p = Some f -> stable w p -> tau f = Some (L, pref L va) ->
  L = 4 \/ L = 3 \/ L = 2 ->
  (forall n e, 0 <= n < 2 ^ 40 -> bf_get F_PS e = 0 -> points (set_fields (fs (n * PAGE_SIZE)) e) n) ->
  (forall a, 0 <= a < 2 ^ 24 -> mk a = a * PAGE_SIZE) ->
  (forall s' tau' n, vstep 1 root s tau s' tau' -> points (v_mem s' f (vidx L va)) n ->
     tau' n = Some (L - 1, pref (L - 1) va) ->
     (forall w', stable w (TWin w') -> frame_of s' (TWin w') = frame_of s (TWin w')) ->
     Q (n * PAGE_SIZE) s') ->
  wp (e <-- rd_t p (vidx L va) ;;
      if bf_get F_P e =? 0 then
        n <-- new_table w ;; set_t p (vidx L va) (fs n) ;;; kret n
      else kret (mk (bf_get F_ADDR e))) Q s.
Proof.
  intros Hinv Hne Hw Hp Hst Hf HL Hfs Hmk HQ. apply wp_bind. unfold rd_t, deref. wp_steps.
  eapply wp_opt; [exact Hp|]. wp_steps. pose proof (vidx_range L va) as Hi.
  pose proof (vi_tree _ _ _ Hinv) as Ht. case_if.
  - apply (wp_new_entry root s tau p f L (pref L va)); try done; [lia|].
    intros s' n V Hpt Hn Hwin. apply HQ with (tau' := extend tau n (L - 1) (pref L va * 512 + vidx L va));
      try done. unfold extend. rewrite Z.eqb_refl, pref_down by done. done.
  - assert (Hd : tau (bf_get F_ADDR (v_mem s f (vidx L va))) = Some (L - 1, pref (L - 1) va)).
    { rewrite (tree_down _ _ _ Ht f L (pref L va)) by (done || lia). by rewrite pref_down. }
    wp_steps. rewrite Hmk by (by eapply (vi_range _ _ _ Hinv)).
    apply HQ with (tau' := tau); try done; [by apply vstep_weaken, vstep_refl|].
    split_and!; [| by eapply tree_ps; [exact Ht | done | lia | done] | done].
    destruct (bit_01 F_P (v_mem s f (vidx L va))); [done | tauto | done].
Qed.

Lemma shiftl_page a : Z.shiftl a 12 = a * PAGE_SIZE.
Proof. by rewrite Z.shiftl_mul_pow2. Qed.

Lemma shiftr_page a : Z.shiftr (a * PAGE_SIZE) 12 = a.
Proof. change PAGE_SIZE with (2 ^ 12). rewrite Z.shiftr_div_pow2, Z.div_mul by lia. done. Qed.

Lemma mask36_page a : 0 <= a < 2 ^ 24 -> Z.land (Z.shiftl a 12) 0xFFFFFFFFF = a * PAGE_SIZE.
Proof.
  intros Ha. rewrite shiftl_page. change 0xFFFFFFFFF with (Z.ones 36).
  rewrite Z.land_ones by lia. apply Z.mod_small. unfold PAGE_SIZE. lia.
Qed.

Lemma points_fields n e rw us :
  0 <= n < 2 ^ 40 -> bf_get F_PS e = 0 ->
  points (set_fields [(F_P, 1); (F_RW, rw); (F_US, us); (F_ADDR, Z.shiftr (n * PAGE_SIZE) 12)] e) n.
Proof.
  intros Hn He. rewrite shiftr_page. split_and!; bf_solve; [done..|]. by apply Z.mod_small.
Qed.

Lemma points_fields_ps n e rw us :
  0 <= n < 2 ^ 40 ->
  points (set_fields [(F_P, 1); (F_RW, rw); (F_US, us); (F_PS, 0);
                      (F_ADDR, Z.shiftr (n * PAGE_SIZE) 12)] e) n.
Proof.
  intros Hn. rewrite shiftr_page. split_and!; bf_solve; [done..|]. by apply Z.mod_small.
Qed.

(** ** Correctness of [vmm_map_page] *)

(** The final store into the page table: only the page of [va] changes. *)
Lemma walk_store m m' c va va' f tau :
  tree_ok m (bf_get F_ADDR c) tau -> tau f = Some (1, pref 1 va) ->
  (forall g j, g <> f \/ j <> vidx 1 va -> m' g j = m g j) ->
  ~ same_page va va' -> mmu_walk m' c va' = mmu_walk m c va'.
Proof.
  intros Ht Hf Hm Hne. apply walk_ext. intros L g Hreach.
  pose proof (reach_tau _ _ _ _ _ _ Ht Hreach) as Htau. apply Hm.
  destruct (Z.eq_dec g f) as [->|]; [right | by left].
  rewrite Hf in Htau. simplify_eq. unfold same_page in Hne. intros Hi. apply Hne. by split.
Qed.

Lemma tree_store m root tau f pre j e :
  tree_ok m root tau -> tau f = Some (1, pre) -> tree_ok (pset f j e m) root tau.
Proof.
  intros [Tr Tp Td] Hf. split; [done| |]; intros g L p' i Hg HL Hi;
    rewrite pset_ne by (left; intros ->; rewrite Hf in Hg; simplify_eq; lia); eauto.
Qed.

Lemma tau_root_pref root s tau va : vinv s root tau -> tau root = Some (4, pref 4 va).
Proof.
  intros Hinv. rewrite (tree_root _ _ _ (vi_tree _ _ _ Hinv)). do 2 f_equal.
  unfold pref. cbn -[Z.pow]. change (2 ^ 0) with 1. by rewrite Z.mod_1_r.
Qed.

(** What a completed [vmm_map_page] of frame [pa] at [va] guarantees. *)
Record vmapped (root : Z) (s : vmm) (tau : Z -> option (Z * Z)) (va pa : Z)
    (s' : vmm) (tau' : Z -> option (Z * Z)) : Prop := {
  vm_inv : vinv s' root tau';
  vm_lock : g_vmm_lock s' = false;
  vm_wpt : g_window_pt s' = g_window_pt s;
  vm_wtau : tau' (g_window_pt s) = tau (g_window_pt s) /\
            tau' (g_window_pt s + 1) = tau (g_window_pt s + 1);
  vm_kernel : v_kernel s' = v_kernel s;
  vm_dev : next_available_virtual s' = next_available_virtual s;
  vm_here : forall c, bf_get F_ADDR c = root ->
    mmu_walk (v_mem s') c va = Some (pa * PAGE_SIZE + va mod PAGE_SIZE);
  vm_there : forall c va', bf_get F_ADDR c = root -> ~ same_page va va' -> ~ win_va s tau va' ->
    mmu_walk (v_mem s') c va' = mmu_walk (v_mem s) c va';
  vm_free : (length (free_list (v_pmm s)) <= length (free_list (v_pmm s')) + 3)%nat;
  vm_spare : forall f, spare s tau f -> spare s' tau' f /\ forall i, v_mem s' f i = v_mem s f i
}.

Lemma nonempty_length {A} (l : list A) n : (n < length l)%nat -> l <> [].
Proof. destruct l; cbn; [lia | done]. Qed.

Lemma vinv_lock root s tau b : vinv s root tau -> vinv (set_vmm_lock b s) root tau.
Proof. intros [? ? ? ? ? ?]. by split. Qed.

Lemma wp_vmm_lock s (Q : unit -> vmm -> Prop) :
  g_vmm_lock s = false -> Q tt (set_vmm_lock true s) -> wp vmm_lock Q s.
Proof. intros Hl HQ. unfold vmm_lock. wp_steps. rewrite Hl. by wp_steps. Qed.

(** The state before the final store: the tables of [va] are in place. *)
Lemma map_finish root s tau s4 tau4 va pa f4 f3 f2 f1 e :
  vstep 3 root (set_vmm_lock true s) tau s4 tau4 -> ~ win_va s tau va -> f4 = root ->
  points (v_mem s4 f4 (vidx 4 va)) f3 -> points (v_mem s4 f3 (vidx 3 va)) f2 ->
  points (v_mem s4 f2 (vidx 2 va)) f1 ->
  tau4 f3 = Some (3, pref 3 va) -> tau4 f2 = Some (2, pref 2 va) -> tau4 f1 = Some (1, pref 1 va) ->
  maps e pa ->
  vmapped root s tau va pa
    (set_vmm_lock false (set_v_mem (pset f1 (vidx 1 va) e (v_mem s4)) s4)) tau4.
Proof.
  intros V Hwin -> P4 P3 P2 T3 T2 T1 He. pose proof V as [I4 Tm W [WA WB] K L C D Wk Kp F O].
  cbn in W, WA, WB, K, D, F. pose proof (vi_tree _ _ _ I4) as Ht.
  pose proof (tree_root _ _ _ Ht) as T4.
  assert (Hlow : forall g L' p' j, tau4 g = Some (L', p') -> 1 < L' ->
    pset f1 (vidx 1 va) e (v_mem s4) g j = v_mem s4 g j).
  { intros g L' p' j Hg HL'. apply pset_ne. left. intros ->. rewrite T1 in Hg. simplify_eq. lia. }
  split; try done; cbn.
  - destruct I4 as [Tr Hpm Htt Hr Hfr Hwi]. split; cbn; try done. by eapply tree_store.
  - intros c Hc. unfold PAGE_SIZE. apply mmu_walk_4k with (a3 := f3) (a2 := f2) (a1 := f1).
    + rewrite Hc. by erewrite Hlow by (done || lia).
    + by erewrite Hlow by (done || lia).
    + by erewrite Hlow by (done || lia).
    + destruct (vidx_get va) as (_ & _ & _ & ->). by rewrite pset_eq.
  - intros c va' Hc Hne Hwin'.
    transitivity (mmu_walk (v_mem s4) c va'); [|by apply (Wk c va' Hc)].
    apply (walk_store _ _ _ va _ f1 tau4); [by rewrite Hc | done | | done].
    intros g j Hgj. by apply pset_ne.
  - intros f Hf. destruct (O f Hf) as [(G1 & G2 & G3 & G4) Hmf]. split; [done|].
    intros i. rewrite pset_ne by (left; congruence). apply Hmf.
Qed.

Lemma wp_vmm_map_page root s tau pml4 va pa flags :
  vinv s root tau -> g_vmm_lock s = false -> (3 <= length (free_list (v_pmm s)))%nat ->
  frame_of s pml4 = Some root -> stable 0 pml4 -> ~ win_va s tau va -> 0 <= pa < 2 ^ 40 ->
  wp (vmm_map_page pml4 va (pa * PAGE_SIZE) flags)
    (fun _ s' => exists tau', vmapped root s tau va pa s' tau') s.
Proof.
  intros Hinv Hl Hfree Hroot Hst Hwin Hpa. unfold vmm_map_page.
  apply wp_bind, wp_vmm_lock; [done|]. destruct (vidx_get va) as (-> & -> & -> & ->).
  set (rw := Z.b2z (Z.testbit flags 1)). set (us := Z.b2z (Z.testbit flags 2)).
  set (s0 := set_vmm_lock true s). assert (Hinv0 : vinv s0 root tau) by by apply vinv_lock.
  assert (Hf0 : free_list (v_pmm s0) = free_list (v_pmm s)) by done.
  set (fs := fun n => [(F_P, 1); (F_RW, rw); (F_US, us); (F_ADDR, Z.shiftr n 12)]).
  apply wp_bind, (wp_ensure root s0 tau pml4 root 4 va 0 fs (fun a => Z.shiftl a 12)); try done; try lia.
  { by eapply nonempty_length with (n := 0%nat); rewrite Hf0; lia. }
  { by eapply tau_root_pref. }
  { intros n e. apply points_fields. }
  { intros a _. apply shiftl_page. }
  intros s1 tau1 n3 V1 P4 T3 _. cbn -[pref] in T3. unfold ensure_pd.
  pose proof (vs_inv _ _ _ _ _ _ V1) as I1. pose proof (vi_range _ _ _ I1 n3 _ T3) as R3.
  apply wp_bind, wp_bind, (wp_scratch root s1 tau1); [done | lia.. |].
  intros s2 V2 E2 Hw2 _ _. pose proof (vs_inv _ _ _ _ _ _ V2) as I2.
  pose proof (vs_free _ _ _ _ _ _ V1) as F1. rewrite Hf0 in F1.
  pose proof (vs_free _ _ _ _ _ _ V2) as F2.
  apply (wp_ensure root s2 tau1 (TWin 0) n3 3 va 1 fs
           (fun a => Z.land (Z.shiftl a 12) 0xFFFFFFFFF)); try done; try lia.
  { eapply nonempty_length with (n := 0%nat); lia. }
  { intros n e. apply points_fields. }
  { apply mask36_page. }
  intros s3 tau3 n2 V3 P3 T2 _. cbn -[pref] in T2. unfold ensure_pt.
  pose proof (vs_inv _ _ _ _ _ _ V3) as I3. pose proof (vi_range _ _ _ I3 n2 _ T2) as R2.
  apply wp_bind, wp_bind, (wp_scratch root s3 tau3); [done | lia.. |].
  intros s4 V4 E4 Hw4 _ _. pose proof (vs_inv _ _ _ _ _ _ V4) as I4.
  pose proof (vs_free _ _ _ _ _ _ V3) as F3. pose proof (vs_free _ _ _ _ _ _ V4) as F4.
  apply (wp_ensure root s4 tau3 (TWin 0) n2 2 va 1
           (fun n => [(F_P, 1); (F_RW, rw); (F_US, us); (F_PS, 0); (F_ADDR, Z.shiftr n 12)])
           (fun a => Z.shiftl a 12)); try done; try lia.
  { eapply nonempty_length with (n := 0%nat); lia. }
  { intros n e Hn _. by apply points_fields_ps. }
  { intros a _. apply shiftl_page. }
  intros s5 tau5 n1 V5 P2 T1 _. cbn -[pref] in T1.
  pose proof (vs_inv _ _ _ _ _ _ V5) as I5. pose proof (vi_range _ _ _ I5 n1 _ T1) as R1.
  apply wp_bind, (wp_scratch root s5 tau5); [done | lia.. |].
  intros s6 V6 E6 Hw6 _ _.
  unfold set_t, rd_t, wr_t, deref, v_write, vmm_unlock. wp_steps.
  eapply wp_opt; [exact Hw6|]. wp_steps. eapply wp_opt; [exact Hw6|]. wp_steps.
  pose proof (vstep_trans _ _ _ _ _ _ _ _ _ V5 V6) as V56.
  pose proof (vstep_trans _ _ _ _ _ _ _ _ _ V4 V56) as V456.
  pose proof (vstep_trans _ _ _ _ _ _ _ _ _ V3 V456) as V36.
  pose proof (vstep_trans _ _ _ _ _ _ _ _ _ V2 V36) as V26.
  pose proof (vstep_trans _ _ _ _ _ _ _ _ _ V1 V26) as V16.
  pose proof (vs_tau _ _ _ _ _ _ V26 _ _ T3) as T3'.
  pose proof (vs_tau _ _ _ _ _ _ V456 _ _ T2) as T2'.
  exists tau5. apply (map_finish root s tau s6 tau5 va pa root n3 n2 n1); try done.
  - apply (points_keep _ _ _ _ _ _ root 4 0 _ _ V26); [apply I1 | lia | apply vidx_range | done].
  - apply (points_keep _ _ _ _ _ _ n3 3 (pref 3 va) _ _ V456);
      [by apply (vs_tau _ _ _ _ _ _ V3), T3 | lia | apply vidx_range | done].
  - apply (points_keep _ _ _ _ _ _ n2 2 (pref 2 va) _ _ V6);
      [by apply (vs_tau _ _ _ _ _ _ V5), (vs_tau _ _ _ _ _ _ V4), T2 | lia | apply vidx_range | done].
  - rewrite shiftr_page. split; bf_solve; [done|]. by apply Z.mod_small.
Qed.

(** C3: [vmm_map_page] maps the page and only the page.  After it, the
    processor's walk takes every byte of the page of [va] to the frame [pa],
    every other address (outside the two page tables the scratch windows
    write) translates as before, the table tree is again well formed and the
    lock is free.  At most three table pages are taken from the PMM, and no
    frame other than the tables and windows changes. *)
Theorem vmm_map_page_correct root s tau pml4 va pa flags :
  vinv s root tau -> g_vmm_lock s = false -> (3 <= length (free_list (v_pmm s)))%nat ->
  frame_of s pml4 = Some root -> stable 0 pml4 -> ~ win_va s tau va -> 0 <= pa < 2 ^ 40 ->
  wp (vmm_map_page pml4 va (pa * PAGE_SIZE) flags)
    (fun _ s' =>
       (exists tau', vinv s' root tau') /\ g_vmm_lock s' = false /\
       (length (free_list (v_pmm s)) <= length (free_list (v_pmm s')) + 3)%nat /\
       (forall f i, spare s tau f -> v_mem s' f i = v_mem s f i) /\
       forall c, bf_get F_ADDR c = root ->
         mmu_walk (v_mem s') c va = Some (pa * PAGE_SIZE + va mod PAGE_SIZE) /\
         forall va', ~ same_page va va' -> ~ win_va s tau va' ->
           mmu_walk (v_mem s') c va' = mmu_walk (v_mem s) c va') s.
Proof.
  intros. eapply wp_mono; [by apply (wp_vmm_map_page root s tau)|].
  cbn beta. intros _ s' (tau' & [I L W WT K D Hhere Hthere F O]).
  split_and!; [by exists tau' | done | done | intros f i Hf; by apply (O f Hf)|].
  intros c Hc. split; [by apply Hhere | intros va'; by apply Hthere].
Qed.

(** ** Walks through the scratch windows *)

(** [s] differs from [s0] only in what the windows show. *)
Record opened (root : Z) (s0 : vmm) (tau : Z -> option (Z * Z)) (s : vmm) : Prop := {
  op_step : vstep 0 root s0 tau s tau;
  op_mem : forall f i, f <> g_window_pt s0 -> f <> g_window_pt s0 + 1 -> v_mem s f i = v_mem s0 f i;
  op_eq : s = set_v_mem (v_mem s) s0
}.

Lemma opened_refl root s tau : vinv s root tau -> opened root s tau s.
Proof. intros H. split; [by apply vstep_refl | done | by rewrite set_v_mem_id]. Qed.

(** A table of the path of [va] is not one of the window tables. *)
Lemma path_not_window root s tau va L f :
  vinv s root tau -> tau f = Some (L, pref L va) -> 1 <= L -> ~ win_va s tau va ->
  f <> g_window_pt s /\ f <> g_window_pt s + 1.
Proof.
  intros Hinv Hf HL Hwin.
  assert (H : f = g_window_pt s \/ f = g_window_pt s + 1 -> False); [|split; intros ->; auto].
  intros Hor. pose proof (vi_win _ _ _ Hinv f L _ Hor Hf) as ->. apply Hwin. unfold win_va.
  destruct Hor as [<- | <-]; auto.
Qed.

(** Open the table [f] of the path in window 0 and read the entry of [va]. *)
Lemma wp_down {A} root s0 s tau L f va (k : tptr -> Z -> M vmm A) Q :
  vinv s0 root tau -> opened root s0 tau s -> tau f = Some (L, pref L va) -> 1 <= L ->
  ~ win_va s0 tau va ->
  (forall s', opened root s0 tau s' -> frame_of s' (TWin 0) = Some f ->
     wp (k (TWin 0) (v_mem s0 f (vidx L va))) Q s') ->
  wp (t <-- vmm_scratch_map_internal (Z.shiftl f 12) 0 ;; e <-- rd_t t (vidx L va) ;; k t e) Q s.
Proof.
  intros Hinv [V Hm Hs] Hf HL Hwin HQ. rewrite shiftl_page. apply wp_bind.
  pose proof (vi_range _ _ _ Hinv f _ Hf) as Hr.
  apply (wp_scratch root s tau); [apply V | lia.. |]. intros s' V' Hs' Hw _ Hm'.
  pose proof (vs_wpt _ _ _ _ _ _ V) as Ew. rewrite Ew in Hm'.
  assert (Hop : opened root s0 tau s').
  { split; [exact (vstep_trans _ _ _ _ _ _ _ _ _ V V') | | by rewrite Hs', Hs].
    intros g i H1 H2. rewrite Hm', Hm by done. done. }
  unfold rd_t, deref. wp_steps. eapply wp_opt; [exact Hw|]. wp_steps.
  destruct (path_not_window root s0 tau va L f) as [H1 H2]; try done.
  rewrite (op_mem _ _ _ _ Hop) by done. by apply HQ.
Qed.

(** [mmu_walk] in a tree without large pages. *)
Lemma tree_walk m c tau va :
  tree_ok m (bf_get F_ADDR c) tau ->
  mmu_walk m c va =
  let e4 := m (bf_get F_ADDR c) (vidx 4 va) in
  if bf_get F_P e4 =? 0 then None else
  let e3 := m (bf_get F_ADDR e4) (vidx 3 va) in
  if bf_get F_P e3 =? 0 then None else
  let e2 := m (bf_get F_ADDR e3) (vidx 2 va) in
  if bf_get F_P e2 =? 0 then None else
  let e1 := m (bf_get F_ADDR e2) (vidx 1 va) in
  if bf_get F_P e1 =? 0 then None else
  Some (bf_get F_ADDR e1 * PAGE_SIZE + va mod PAGE_SIZE).
Proof.
  intros Ht. unfold mmu_walk. destruct (vidx_get va) as (-> & -> & -> & ->). cbv zeta.
  pose proof (reach_root m (bf_get F_ADDR c) va) as R4.
  destruct (_ =? 0) eqn:E4; [done|]. zbool. pose proof (reach_down _ _ _ _ _ R4 ltac:(lia) E4) as R3.
  change (4 - 1) with 3 in R3.
  destruct (bf_get F_P (m _ (vidx 3 va)) =? 0) eqn:E3; [done|]. zbool.
  rewrite (tree_ps _ _ _ Ht _ _ _ (vidx 3 va) (reach_tau _ _ _ _ _ _ Ht R3)) by (lia || apply vidx_range).
  change (0 =? 1) with false. cbv iota.
  pose proof (reach_down _ _ _ _ _ R3 ltac:(lia) E3) as R2.
  change (3 - 1) with 2 in R2.
  destruct (bf_get F_P (m _ (vidx 2 va)) =? 0) eqn:E2; [done|]. zbool.
  rewrite (tree_ps _ _ _ Ht _ _ _ (vidx 2 va) (reach_tau _ _ _ _ _ _ Ht R2)) by (lia || apply vidx_range).
  done.
Qed.

(** The next table of the path. *)
Lemma tau_next root s tau f L va :
  vinv s root tau -> tau f = Some (L, pref L va) -> L = 4 \/ L = 3 \/ L = 2 ->
  bf_get F_P (v_mem s f (vidx L va)) <> 0 ->
  tau (bf_get F_ADDR (v_mem s f (vidx L va))) = Some (L - 1, pref (L - 1) va).
Proof.
  intros Hinv Hf HL HP. rewrite (tree_down _ _ _ (vi_tree _ _ _ Hinv) f L (pref L va)); try done; try lia.
  - by rewrite pref_down.
  - apply vidx_range.
Qed.

Lemma ps_bit7 e : bf_get F_PS e = 0 -> Z.testbit e 7 = false.
Proof.
  intros He. assert (Hb : Z.testbit (bf_get F_PS e) 0 = Z.testbit e 7).
  { rewrite bf_get_testbit by (cbv; intuition discriminate). done. }
  by rewrite He, Z.bits_0 in Hb.
Qed.

(** A frame address and an offset do not overlap. *)
Lemma page_or_offset a va :
  Z.lor (a * PAGE_SIZE) (Z.land va 0xFFF) = a * PAGE_SIZE + va mod PAGE_SIZE.
Proof.
  change 0xFFF with (Z.ones 12). rewrite Z.land_ones by lia. change PAGE_SIZE with (2 ^ 12).
  assert (Hd : Z.land (a * 2 ^ 12) (va mod 2 ^ 12) = 0).
  { apply Z.bits_inj'. intros n Hn. rewrite Z.land_spec, Z.bits_0, <- Z.shiftl_mul_pow2, Z.shiftl_spec by lia.
    destruct (Z.lt_ge_cases n 12); [by rewrite Z.testbit_neg_r by lia|].
    rewrite Z.mod_pow2_bits_high by lia. apply andb_false_r. }
  by rewrite Z.add_nocarry_lxor, Z.lxor_lor.
Qed.

(** ** Software translation agrees with the processor *)

Lemma wp_deref_root s0 s root tau pml4 va (Q : Z -> vmm -> Prop) :
  frame_of s pml4 = Some root -> opened root s0 tau s -> vinv s0 root tau -> ~ win_va s0 tau va ->
  Q (v_mem s0 root (vidx 4 va)) s -> wp (rd_t pml4 (vidx 4 va)) Q s.
Proof.
  intros Hp Hop Hinv Hwin HQ. unfold rd_t, deref. wp_steps. eapply wp_opt; [exact Hp|]. wp_steps.
  destruct (path_not_window root s0 tau va 4 root) as [H1 H2]; try done; [by eapply tau_root_pref|].
  by rewrite (op_mem _ _ _ _ Hop).
Qed.

(** [vmm_get_physical] computes the processor's translation: on a tree of
    4 KB pages it returns the physical address the walk finds, 0 when the page
    is not mapped, changes nothing but the scratch windows, and releases the
    lock on every path. *)
Theorem vmm_get_physical_walk s tau c va :
  let root := kframe (v_kernel s) PML4_ADDRESS in
  vinv s root tau -> g_vmm_lock s = false -> bf_get F_ADDR c = root -> ~ win_va s tau va ->
  wp (vmm_get_physical va)
    (fun r s' => r = default 0 (mmu_walk (v_mem s) c va) /\ g_vmm_lock s' = false /\
       v_pmm s' = v_pmm s /\
       forall f i, f <> g_window_pt s -> f <> g_window_pt s + 1 -> v_mem s' f i = v_mem s f i) s.
Proof.
  intros root Hinv Hl Hc Hwin. unfold vmm_get_physical.
  apply wp_bind, wp_vmm_lock; [done|]. wp_steps. cbn [v_kernel set_vmm_lock]. fold root.
  set (s0 := set_vmm_lock true s). assert (Hinv0 : vinv s0 root tau) by by apply vinv_lock.
  destruct (vidx_get va) as (-> & -> & -> & ->).
  assert (Hdone : forall (r : Z) s1, opened root s0 tau s1 -> r = default 0 (mmu_walk (v_mem s) c va) ->
    wp (vmm_unlock ;;; kret r) (fun r s' => r = default 0 (mmu_walk (v_mem s) c va) /\
       g_vmm_lock s' = false /\ v_pmm s' = v_pmm s /\
       forall f i, f <> g_window_pt s -> f <> g_window_pt s + 1 -> v_mem s' f i = v_mem s f i) s1).
  { intros r s1 [_ Hm He] Hr. unfold vmm_unlock. wp_steps. split_and!; try done. by rewrite He. }
  rewrite (tree_walk _ _ tau) in * by (rewrite Hc; apply Hinv). cbv zeta in *. rewrite Hc in *.
  pose proof (opened_refl root s0 tau Hinv0) as Hop0.
  eapply (wp_deref_root s0); try done. change (v_mem s0) with (v_mem s).
  case_if; [by apply Hdone|].
  pose proof (tau_next root s tau root 4 va Hinv (tau_root_pref _ _ _ va Hinv) ltac:(lia) E) as T3.
  apply (wp_down root s0 s0 tau 3); try done; try lia. change (v_mem s0) with (v_mem s).
  intros s1 Hop1 _. set (f3 := bf_get F_ADDR (v_mem s root (vidx 4 va))) in *.
  case_if; [by apply Hdone|].
  pose proof (tree_ps _ _ _ (vi_tree _ _ _ Hinv) f3 3 _ (vidx 3 va) T3 ltac:(lia) (vidx_range _ _)) as S3.
  rewrite land_shift_testbit by lia.
  rewrite (ps_bit7 _ S3). cbn [negb].
  pose proof (tau_next root s tau f3 3 va Hinv T3 ltac:(lia) E0) as T2.
  apply (wp_down root s0 s1 tau 2); try done; try lia. change (v_mem s0) with (v_mem s).
  intros s2 Hop2 _. set (f2 := bf_get F_ADDR (v_mem s f3 (vidx 3 va))) in *.
  case_if; [by apply Hdone|].
  rewrite (tree_ps _ _ _ (vi_tree _ _ _ Hinv) f2 2 _ (vidx 2 va) T2 ltac:(lia) (vidx_range _ _)).
  cbn [negb Z.eqb].
  pose proof (tau_next root s tau f2 2 va Hinv T2 ltac:(lia) E1) as T1.
  apply (wp_down root s0 s2 tau 1); try done; try lia. change (v_mem s0) with (v_mem s).
  intros s3 Hop3 _. case_if; [by apply Hdone|]. apply Hdone; [done|].
  cbn [default]. rewrite shiftl_page. apply page_or_offset.
Qed.

(** The common walk of [vmm_get_physical_address] and [vmm_unmap_page] ends
    with the lock released and only the windows changed. *)
Definition released (root : Z) (s : vmm) (tau : Z -> option (Z * Z)) (s' : vmm) : Prop :=
  exists s1, opened root (set_vmm_lock true s) tau s1 /\ s' = set_vmm_lock false s1.

Lemma released_facts root s tau s' :
  vinv s root tau -> g_vmm_lock s = false -> released root s tau s' ->
  vstep 0 root s tau s' tau /\ v_pmm s' = v_pmm s.
Proof.
  intros Hinv Hl (s1 & [V Hm He] & ->). rewrite He. split; [|done].
  destruct V as [I T W A K L C D P E F]. rewrite He in *. cbn in *.
  split; try done. by apply (vinv_lock root (set_v_mem (v_mem s1) (set_vmm_lock true s)) tau false).
Qed.

Lemma wp_vmm_get_physical_address root s tau pml4 c va :
  vinv s root tau -> g_vmm_lock s = false -> bf_get F_ADDR c = root -> ~ win_va s tau va ->
  frame_of s pml4 = Some root ->
  wp (vmm_get_physical_address pml4 va)
    (fun r s' => r = match mmu_walk (v_mem s) c va with
                     | Some pa => pa - va mod PAGE_SIZE
                     | None => 0
                     end /\ released root s tau s') s.
Proof.
  intros Hinv Hl Hc Hwin Hp. unfold vmm_get_physical_address.
  apply wp_bind, wp_vmm_lock; [done|].
  set (s0 := set_vmm_lock true s). assert (Hinv0 : vinv s0 root tau) by by apply vinv_lock.
  destruct (vidx_get va) as (-> & -> & -> & ->).
  assert (Hdone : forall (r : Z) s1, opened root s0 tau s1 ->
    r = match mmu_walk (v_mem s) c va with Some pa => pa - va mod PAGE_SIZE | None => 0 end ->
    wp (vmm_unlock ;;; kret r) (fun r s' =>
      r = match mmu_walk (v_mem s) c va with Some pa => pa - va mod PAGE_SIZE | None => 0 end /\
      released root s tau s') s1).
  { intros r s1 Hop Hr. unfold vmm_unlock. wp_steps. split; [done|]. by exists s1. }
  rewrite (tree_walk _ _ tau) in * by (rewrite Hc; apply Hinv). cbv zeta in *. rewrite Hc in *.
  pose proof (opened_refl root s0 tau Hinv0) as Hop0.
  apply wp_bind, (wp_deref_root s0 s0 root tau); try done. change (v_mem s0) with (v_mem s).
  case_if; [by apply Hdone|].
  pose proof (tau_next root s tau root 4 va Hinv (tau_root_pref _ _ _ va Hinv) ltac:(lia) E) as T3.
  apply (wp_down root s0 s0 tau 3); try done; try lia. change (v_mem s0) with (v_mem s).
  intros s1 Hop1 _. set (f3 := bf_get F_ADDR (v_mem s root (vidx 4 va))) in *.
  case_if; [by apply Hdone|].
  pose proof (tau_next root s tau f3 3 va Hinv T3 ltac:(lia) E0) as T2.
  apply (wp_down root s0 s1 tau 2); try done; try lia. change (v_mem s0) with (v_mem s).
  intros s2 Hop2 _. set (f2 := bf_get F_ADDR (v_mem s f3 (vidx 3 va))) in *.
  case_if; [by apply Hdone|].
  rewrite (tree_ps _ _ _ (vi_tree _ _ _ Hinv) f2 2 _ (vidx 2 va) T2 ltac:(lia) (vidx_range _ _)).
  cbn [negb Z.eqb].
  pose proof (tau_next root s tau f2 2 va Hinv T2 ltac:(lia) E1) as T1.
  apply (wp_down root s0 s2 tau 1); try done; try lia. change (v_mem s0) with (v_mem s).
  intros s3 Hop3 _. case_if; [by apply Hdone|]. apply Hdone; [done|]. rewrite shiftl_page. lia.
Qed.

(** ** Correctness of [vmm_unmap_page] *)

(** Releasing the frame behind a page: an address the manager does not own is
    ignored. *)
Lemma wp_pmm_free_frame p fr :
  pmm_ok p -> 0 <= fr ->
  wp (pmm_free_page (fr * PAGE_SIZE))
    (fun _ p' => pmm_ok p' /\
       if (0 <? fr) && (fr <? pmm_total_pages p) then marked false fr 1 p p' else p' = p) p.
Proof.
  intros Hp Hfr. destruct (_ && _) eqn:E.
  - zbool. by apply wp_pmm_free_page.
  - unfold pmm_free_page. rewrite Z.mod_mul, Z.div_mul by done. cbn [Z.eqb negb orb].
    unfold PAGE_SIZE. case_if; [by wp_steps|]. wp_steps. case_if; [by wp_steps|].
    apply andb_false_iff in E. rewrite !Z.ltb_ge in E. lia.
Qed.

(** What is left of the PMM once the page at [pa] (if any) was handed back. *)
Definition handed_back (pa : option Z) (p p' : pmm) : Prop :=
  match pa with
  | None => p' = p
  | Some pa => let fr := pa / PAGE_SIZE in
               if (0 <? fr) && (fr <? pmm_total_pages p) then marked false fr 1 p p' else p' = p
  end.

(** What a completed [vmm_unmap_page] of [va] guarantees. *)
Record unmapped (root : Z) (s : vmm) (tau : Z -> option (Z * Z)) (c va : Z) (s' : vmm) : Prop := {
  um_lock : g_vmm_lock s' = false;
  um_here : mmu_walk (v_mem s') c va = None;
  um_there : forall va', ~ same_page va va' -> ~ win_va s tau va' ->
    mmu_walk (v_mem s') c va' = mmu_walk (v_mem s) c va';
  um_back : handed_back (mmu_walk (v_mem s) c va) (v_pmm s) (v_pmm s');
  um_tree : tree_ok (v_mem s') root tau;
  um_pmm : pmm_ok (v_pmm s');
  um_static : v_kernel s' = v_kernel s /\ g_window_pt s' = g_window_pt s /\
              next_available_virtual s' = next_available_virtual s
}.

(** Nothing was mapped: only the windows moved. *)
Lemma unmapped_none root s tau c va s1 :
  opened root (set_vmm_lock true s) tau s1 -> bf_get F_ADDR c = root -> ~ win_va s tau va ->
  mmu_walk (v_mem s) c va = None -> unmapped root s tau c va (set_vmm_lock false s1).
Proof.
  intros [V Hm He] Hc Hwin Hn. pose proof (vs_walk _ _ _ _ _ _ V c) as Hk.
  pose proof (vs_inv _ _ _ _ _ _ V) as I.
  split; [done | | | | apply I | apply I|].
  - cbn. rewrite Hk by done. done.
  - intros va' _ Hwin'. by apply Hk.
  - rewrite Hn. by rewrite He.
  - by rewrite He.
Qed.

(** The entry of [va] in its page table [f1] was cleared. *)
Lemma unmapped_store root s tau c va s3 f3 f2 f1 e' p' :
  opened root (set_vmm_lock true s) tau s3 -> vinv s root tau ->
  bf_get F_ADDR c = root -> ~ win_va s tau va ->
  f3 = bf_get F_ADDR (v_mem s root (vidx 4 va)) -> tau f3 = Some (3, pref 3 va) ->
  f2 = bf_get F_ADDR (v_mem s f3 (vidx 3 va)) -> tau f2 = Some (2, pref 2 va) ->
  f1 = bf_get F_ADDR (v_mem s f2 (vidx 2 va)) -> tau f1 = Some (1, pref 1 va) ->
  bf_get F_P e' = 0 -> pmm_ok p' -> handed_back (mmu_walk (v_mem s) c va) (v_pmm s) p' ->
  unmapped root s tau c va
    (set_vmm_lock false (set_v_mem (pset f1 (vidx 1 va) e' (v_mem s3)) (set_v_pmm p' s3))).
Proof.
  intros [V Hm He] Hinv Hc Hwin E3 T3 E2 T2 E1 T1 He' Hok Hback.
  pose proof (vi_tree _ _ _ (vs_inv _ _ _ _ _ _ V)) as Ht3.
  assert (Hread : forall g L j, tau g = Some (L, pref L va) -> 1 < L ->
    pset f1 (vidx 1 va) e' (v_mem s3) g j = v_mem s g j).
  { intros g L j Hg HL. rewrite pset_ne by (left; intros ->; rewrite T1 in Hg; simplify_eq; lia).
    destruct (path_not_window root s tau va L g) as [H1 H2]; try done; [lia|]. by apply Hm. }
  split; cbn [v_mem set_vmm_lock set_v_mem v_pmm set_v_pmm g_vmm_lock v_kernel g_window_pt
                next_available_virtual]; try done.
  - rewrite (tree_walk _ _ tau) by (rewrite Hc; by eapply tree_store). cbv zeta. rewrite Hc.
    rewrite (Hread root 4) by (by eapply tau_root_pref || lia). rewrite <- E3.
    rewrite (Hread f3 3) by (done || lia). rewrite <- E2.
    rewrite (Hread f2 2) by (done || lia). rewrite <- E1.
    rewrite pset_eq, He'. by repeat case_if.
  - intros va' Hne Hwin'. transitivity (mmu_walk (v_mem s3) c va').
    + apply (walk_store _ _ _ va _ f1 tau); [by rewrite Hc | done | | done].
      intros g j Hgj. by apply pset_ne.
    + by apply (vs_walk _ _ _ _ _ _ V c va' Hc).
  - by eapply tree_store.
  - by rewrite He.
Qed.

Lemma wp_vmm_unmap_page root s tau pml4 va c :
  vinv s root tau -> g_vmm_lock s = false -> bf_get F_ADDR c = root -> ~ win_va s tau va ->
  frame_of s pml4 = Some root ->
  wp (vmm_unmap_page pml4 va) (fun _ s' => unmapped root s tau c va s') s.
Proof.
  intros Hinv Hl Hc Hwin Hp. unfold vmm_unmap_page.
  apply wp_bind, wp_vmm_lock; [done|].
  set (s0 := set_vmm_lock true s). assert (Hinv0 : vinv s0 root tau) by by apply vinv_lock.
  destruct (vidx_get va) as (-> & -> & -> & ->).
  pose proof (tree_walk _ c tau va ltac:(rewrite Hc; apply Hinv)) as Hw. cbv zeta in Hw. rewrite Hc in Hw.
  pose proof (opened_refl root s0 tau Hinv0) as Hop0.
  assert (Hnone : forall s1, opened root s0 tau s1 -> mmu_walk (v_mem s) c va = None ->
    wp vmm_unlock (fun _ s' => unmapped root s tau c va s') s1).
  { intros s1 Hop Hn. unfold vmm_unlock. wp_steps. by apply unmapped_none. }
  apply wp_bind, (wp_deref_root s0 s0 root tau); try done. change (v_mem s0) with (v_mem s).
  case_if; [by apply Hnone|].
  pose proof (tau_next root s tau root 4 va Hinv (tau_root_pref _ _ _ va Hinv) ltac:(lia) E) as T3.
  apply (wp_down root s0 s0 tau 3); try done; try lia. change (v_mem s0) with (v_mem s).
  intros s1 Hop1 _. set (f3 := bf_get F_ADDR (v_mem s root (vidx 4 va))) in *.
  case_if; [by apply Hnone|].
  pose proof (tau_next root s tau f3 3 va Hinv T3 ltac:(lia) E0) as T2.
  apply (wp_down root s0 s1 tau 2); try done; try lia. change (v_mem s0) with (v_mem s).
  intros s2 Hop2 _. set (f2 := bf_get F_ADDR (v_mem s f3 (vidx 3 va))) in *.
  case_if; [by apply Hnone|].
  pose proof (tau_next root s tau f2 2 va Hinv T2 ltac:(lia) E1) as T1.
  apply (wp_down root s0 s2 tau 1); try done; try lia. change (v_mem s0) with (v_mem s).
  intros s3 Hop3 Hw3. set (f1 := bf_get F_ADDR (v_mem s f2 (vidx 2 va))) in *.
  case_if; [by apply Hnone|]. clear Hnone.
  set (fr := bf_get F_ADDR (v_mem s f1 (vidx 1 va))) in *.
  assert (Hfr : 0 <= fr) by (apply Z.mod_pos_bound; done).
  assert (Hp3 : v_pmm s3 = v_pmm s) by by rewrite (op_eq _ _ _ _ Hop3).
  rewrite shiftl_page. unfold v_on_pmm. wp_steps. rewrite Hp3. eapply wp_mono.
  { apply wp_pmm_free_frame; [apply Hinv | done]. }
  cbn beta. intros _ p' [Hok' Hfree].
  unfold set_t, rd_t, wr_t, deref, v_write, vmm_unlock. wp_steps.
  eapply wp_opt; [exact Hw3|]. wp_steps. eapply wp_opt; [exact Hw3|]. wp_steps.
  change (v_mem (set_v_pmm p' s3)) with (v_mem s3).
  apply (unmapped_store _ _ _ _ _ _ f3 f2 f1); try done; [by bf_solve|].
  rewrite Hw. unfold handed_back.
  assert ((fr * PAGE_SIZE + va mod PAGE_SIZE) / PAGE_SIZE = fr) as ->; [|exact Hfree].
  unfold PAGE_SIZE. zdiv_lia.
Qed.

(** The invariant survives when the frame handed back was an ordinary one. *)
Lemma unmapped_vinv root s tau c va s' :
  vinv s root tau -> unmapped root s tau c va s' ->
  (forall pa, mmu_walk (v_mem s) c va = Some pa ->
     tau (pa / PAGE_SIZE) = None /\ pa / PAGE_SIZE <> g_window_pt s /\ pa / PAGE_SIZE <> g_window_pt s + 1) ->
  vinv s' root tau.
Proof.
  intros [Tr Hpm Ht Hr Hfr Hwi] [U1 U2 U3 U4 U5 U6 (U7 & U8 & U9)] Hord.
  assert (Hp : pmm_total_pages (v_pmm s') = pmm_total_pages (v_pmm s) /\
    forall q, q ∈ free_list (v_pmm s') -> q ∈ free_list (v_pmm s) \/
      exists pa, mmu_walk (v_mem s) c va = Some pa /\ q = pa / PAGE_SIZE /\ 0 < q).
  { unfold handed_back in U4. destruct (mmu_walk (v_mem s) c va) as [pa|]; [|rewrite U4; eauto].
    cbv zeta in U4. destruct (_ && _) eqn:E; [|rewrite U4; eauto]. zbool. destruct U4 as [Htot Hm].
    split; [done|]. intros q [Hq Hu]%elem_free_list. rewrite Htot in Hq. rewrite Hm in Hu by done.
    destruct (Z.leb_spec (pa / PAGE_SIZE) q), (Z.ltb_spec q (pa / PAGE_SIZE + 1)); cbn in Hu;
      try (left; by apply elem_free_list).
    right. exists pa. split_and!; [done | lia..]. }
  destruct Hp as [Htot Hsub]. split; try done; rewrite ?Htot, ?U8; try done.
  intros q Hq. destruct (Hsub q Hq) as [|(pa & Hpa & -> & Hpos)]; [by apply Hfr|].
  destruct (Hord pa Hpa) as (H1 & H2 & H3). by split_and!.
Qed.

(** [vmm_unmap_page] removes exactly one page.  Afterwards the page of [va]
    is not mapped, every other address translates as before, the lock is
    free, and when the page was mapped its frame is handed back to the PMM
    (and no other page of the PMM changes). *)
Theorem vmm_unmap_page_correct root s tau pml4 va c :
  vinv s root tau -> g_vmm_lock s = false -> bf_get F_ADDR c = root -> ~ win_va s tau va ->
  frame_of s pml4 = Some root ->
  wp (vmm_unmap_page pml4 va)
    (fun _ s' => g_vmm_lock s' = false /\
       mmu_walk (v_mem s') c va = None /\
       (forall va', ~ same_page va va' -> ~ win_va s tau va' ->
          mmu_walk (v_mem s') c va' = mmu_walk (v_mem s) c va') /\
       match mmu_walk (v_mem s) c va with
       | None => v_pmm s' = v_pmm s
       | Some pa => let fr := pa / PAGE_SIZE in
                    if (0 <? fr) && (fr <? pmm_total_pages (v_pmm s))
                    then marked false fr 1 (v_pmm s) (v_pmm s') else v_pmm s' = v_pmm s
       end) s.
Proof.
  intros. eapply wp_mono; [by apply (wp_vmm_unmap_page root s tau pml4 va c)|].
  cbn beta. intros _ s' [U1 U2 U3 U4 _ _ _]. by split_and!.
Qed.

(** ** A new address space *)

(** A loop of stores through a pointer that leads to frame [f], which is not a
    window table. *)
Lemma wp_fill (g : Z -> Z) p f n i0 (body : Z -> M vmm unit) s :
  (forall s', frame_of s' p = Some f -> forall i, i0 <= i < i0 + Z.of_nat n ->
     wp (body i) (fun _ s'' => s'' = set_v_mem (pset f i (g i) (v_mem s')) s') s') ->
  f <> g_window_pt s -> frame_of s p = Some f ->
  wp (for_ n i0 body)
    (fun _ s' => s' = set_v_mem (v_mem s') s /\ frame_of s' p = Some f /\
       forall f' i, v_mem s' f' i =
         if (f' =? f) && ((i0 <=? i) && (i <? i0 + Z.of_nat n)) then g i else v_mem s f' i) s.
Proof.
  intros Hb Hf Hp.
  apply (wp_for (fun k s' => s' = set_v_mem (v_mem s') s /\ frame_of s' p = Some f /\
    forall f' i, v_mem s' f' i =
      if (f' =? f) && ((i0 <=? i) && (i <? k)) then g i else v_mem s f' i)).
  - split_and!; [by rewrite set_v_mem_id | done|]. intros f' i.
    destruct (Z.leb_spec i0 i), (Z.ltb_spec i i0); try lia; cbn; by rewrite andb_false_r.
  - intros k s' Hk (He & Hp' & Hm). eapply wp_mono; [by apply Hb|].
    cbn beta. intros _ s'' ->. split_and!; [by rewrite He | |].
    + rewrite <- Hp'. unfold frame_of. destruct p; [done..|]. cbn.
      rewrite pset_ne; [done|]. left. rewrite He. cbn. congruence.
    + intros f' i. cbn. unfold pset. rewrite Hm.
      destruct (Z.eqb_spec f' f), (Z.eqb_spec i k); subst; cbn; try done.
      * rewrite (proj2 (Z.leb_le _ _)), (proj2 (Z.ltb_lt _ _)) by lia. done.
      * by destruct (Z.ltb_spec i (k + 1)), (Z.ltb_spec i k); try lia.
  - tauto.
Qed.

(** [vmm_create_address_space] builds a PML4 whose kernel half (entries 256
    to 511) and shared-memory entry (224) are those of the running address
    space and whose other entries are empty; it takes one page, touches no
    other frame but the window tables, and returns the page's address. *)
Theorem vmm_create_address_space_spec root s tau cur :
  vinv s root tau -> g_vmm_lock s = false -> free_list (v_pmm s) <> [] ->
  v_cr3 s = cur * PAGE_SIZE -> 0 <= cur < 2 ^ 40 -> cur ∉ free_list (v_pmm s) ->
  cur <> g_window_pt s -> cur <> g_window_pt s + 1 ->
  wp vmm_create_address_space
    (fun r s' => exists n, r = n * PAGE_SIZE /\ free_list (v_pmm s) = n :: free_list (v_pmm s') /\
       g_vmm_lock s' = false /\
       (forall i, 0 <= i < 512 ->
          v_mem s' n i = if (256 <=? i) || (i =? 224) then v_mem s cur i else 0) /\
       (forall f i, f <> n -> f <> g_window_pt s -> f <> g_window_pt s + 1 ->
          v_mem s' f i = v_mem s f i)) s.
Proof.
  intros Hinv Hl Hne Hcr Hcur Hnin Hcw Hcw1. unfold vmm_create_address_space.
  apply wp_bind, wp_vmm_lock; [done|]. set (s0 := set_vmm_lock true s).
  assert (Hinv0 : vinv s0 root tau) by by apply vinv_lock.
  apply wp_bind, (wp_v_alloc root s0 tau); [done..|]. intros n p' Hpop Hok Htot Hn.
  change (v_pmm s0) with (v_pmm s) in *.
  assert (n ∈ free_list (v_pmm s)) as Hin by (rewrite Hpop; by left).
  destruct (vi_fresh _ _ _ Hinv n Hin) as (_ & Hntau & Hnw & Hnw1).
  assert (Hnc : n <> cur) by congruence.
  unfold PAGE_SIZE at 1. case_if; [lia|]. clear E. wp_steps. cbn [v_cr3 set_v_pmm set_vmm_lock s0]. rewrite Hcr.
  assert (Hinv1 : vinv (set_v_pmm p' s0) root tau).
  { destruct Hinv0 as [Tr Hpm Ht Hr Hfr Hwi]. split; cbn; try done; [by rewrite Htot|].
    intros q Hq. apply Hfr. cbn. rewrite Hpop. by right. }
  apply (wp_scratch root _ tau); [done | lia | done|]. intros s1 V1 E1 Hw1 _ Hm1. cbn in Hm1.
  pose proof (vs_inv _ _ _ _ _ _ V1) as I1. pose proof (vs_wpt _ _ _ _ _ _ V1) as W1. cbn in W1.
  unfold rd_t, deref. wp_steps. eapply wp_opt; [exact Hw1|]. wp_steps.
  eapply wp_opt; [exact Hw1|]. wp_steps.
  apply (wp_scratch root _ tau); [done | lia..|]. intros s2 V2 E2 Hw2 _ Hm2. rewrite W1 in Hm2.
  pose proof (vs_wpt _ _ _ _ _ _ V2) as W2. rewrite W1 in W2.
  wp_steps. eapply wp_mono.
  { apply (wp_fill (fun _ => 0) (TWin 1) n); [|rewrite W2; exact Hnw|exact Hw2].
    intros s' Hf i _. unfold wr_t, deref, v_write. wp_steps. eapply wp_opt; [exact Hf|]. by wp_steps. }
  cbn beta. intros _ s3 (E3 & Hw3 & Hm3). wp_steps. eapply wp_mono.
  { apply (wp_fill (fun i => v_mem s1 cur i) (TWin 1) n); [|rewrite E3; cbn [g_window_pt set_v_mem]; rewrite W2; exact Hnw|exact Hw3].
    intros s' Hf i Hi. wp_steps. apply (wp_rd _ _ (v_mem s1 cur i)); [lia| |].
    { rewrite list_lookup_fmap, lookup_seqZ_lt by lia. cbn. do 2 f_equal. lia. }
    unfold wr_t, deref, v_write. wp_steps. eapply wp_opt; [exact Hf|]. by wp_steps. }
  cbn beta. intros _ s4 (E4 & Hw4 & Hm4).
  unfold wr_t, deref, v_write, vmm_unlock. wp_steps. eapply wp_opt; [exact Hw4|]. wp_steps.
  exists n. cbn [g_vmm_lock set_vmm_lock v_mem set_v_mem v_pmm].
  assert (Hcm : forall i, v_mem s1 cur i = v_mem s cur i) by (intros i; by apply Hm1).
  split_and!.
  - change (u64 (Z.lnot 0xFFF)) with (Z.shiftl (Z.ones 52) 12). unfold PAGE_SIZE.
    change (n * 4096) with (n * 2 ^ 12). rewrite <- Z.shiftl_mul_pow2, <- Z.shiftl_land by lia.
    f_equal. rewrite Z.land_ones by lia. apply Z.mod_small. lia.
  - rewrite E4, E3, E2, E1. cbn. done.
  - done.
  - intros i Hi. unfold pset. rewrite Hm4, Hm3, !Hcm, Z.eqb_refl. cbn [andb].
    destruct (Z.eqb_spec i 224) as [->|]; [done|].
    destruct (Z.leb_spec 256 i), (Z.leb_spec 0 i), (Z.ltb_spec i (0 + Z.of_nat 256)),
      (Z.ltb_spec i (256 + Z.of_nat 256)); cbn; done || lia.
  - intros f i H1 H2 H3. rewrite pset_ne by (by left). rewrite Hm4, Hm3.
    rewrite (proj2 (Z.eqb_neq _ _) H1). cbn. rewrite Hm2, Hm1 by done. done.
Qed.

(** ** Concrete instances

    A kernel at 16 MB and one mapped page: frames 100, 101 and 102 are the
    tables that take the page of [va] to frame [fr]. *)

Definition example_root : Z := kframe 0x1000000 PML4_ADDRESS.

Definition table_entry (f : Z) : Z := f * PAGE_SIZE + 3.

Lemma table_entry_fields f :
  0 <= f < 2 ^ 40 ->
  bf_get F_P (table_entry f) = 1 /\ bf_get F_PS (table_entry f) = 0 /\ bf_get F_ADDR (table_entry f) = f.
Proof.
  intros Hf. unfold table_entry, bf_get, PAGE_SIZE. cbn -[Z.pow Z.div Z.modulo].
  change (2 ^ 0) with 1. change (2 ^ 1) with 2. change (2 ^ 7) with 128. change (2 ^ 12) with 4096.
  change (2 ^ 40) with 1099511627776 in *. split_and!; zdiv_lia.
Qed.

Definition one_page_mem (va fr : Z) : phys := fun f i =>
  if f =? example_root then (if i =? vidx 4 va then table_entry 100 else 0)
  else if f =? 100 then (if i =? vidx 3 va then table_entry 101 else 0)
  else if f =? 101 then (if i =? vidx 2 va then table_entry 102 else 0)
  else if f =? 102 then (if i =? vidx 1 va then table_entry fr else 0)
  else 0.
Definition one_page_tau (va f : Z) : option (Z * Z) :=
  if f =? example_root then Some (4, pref 4 va)
  else if f =? 100 then Some (3, pref 3 va)
  else if f =? 101 then Some (2, pref 2 va)
  else if f =? 102 then Some (1, pref 1 va) else None.
Definition one_page_vmm (va fr : Z) (p : pmm) : vmm :=
  Vmm p (one_page_mem va fr) false 9000 0x1000000 (example_root * PAGE_SIZE) KERNEL_MMIO_VIRTUAL_BASE.

Ltac one_page_cases f :=
  destruct (Z.eqb_spec f example_root) as [->|];
  [|destruct (Z.eqb_spec f 100) as [->|];
    [|destruct (Z.eqb_spec f 101) as [->|]; [|destruct (Z.eqb_spec f 102) as [->|]]]].

Lemma one_page_tree va fr : tree_ok (one_page_mem va fr) example_root (one_page_tau va).
Proof.
  assert (H4 : pref 4 va = 0).
  { unfold pref. change (2 ^ (9 * (4 - 4))) with 1. apply Z.mod_1_r. }
  split.
  - unfold one_page_tau. by rewrite Z.eqb_refl, H4.
  - intros f L pre i. unfold one_page_mem, one_page_tau.
    one_page_cases f; intros [= <- <-] HL Hi; try lia; by destruct (i =? _).
  - intros f L pre i. unfold one_page_mem, one_page_tau.
    one_page_cases f; intros [= <- <-] HL Hi; try lia;
      match goal with |- context [i =? ?x] => destruct (Z.eqb_spec i x) as [->|] end; try done; intros _.
    + transitivity (Some (3, pref 3 va)); [done|]. by rewrite <- pref_down by lia.
    + transitivity (Some (2, pref 2 va)); [done|]. by rewrite <- pref_down by lia.
    + transitivity (Some (1, pref 1 va)); [done|]. by rewrite <- pref_down by lia.
Qed.

Lemma one_page_vinv va fr p :
  pmm_ok p -> pmm_total_pages p <= 100 -> used p 0 = true ->
  vinv (one_page_vmm va fr p) example_root (one_page_tau va).
Proof.
  intros Hp Ht H0. split; cbn [v_mem v_pmm g_window_pt one_page_vmm]; try done.
  - apply one_page_tree.
  - lia.
  - intros f x. unfold one_page_tau. one_page_cases f; intros; simplify_eq; done.
  - intros q [Hq Hu]%elem_free_list. assert (q <> 0) by congruence. unfold one_page_tau.
    change example_root with 4352. rewrite !(proj2 (Z.eqb_neq _ _)) by lia. split_and!; lia || done.
  - intros f L pre [-> | ->] H; done.
Qed.

Lemma one_page_no_window va fr p va' : ~ win_va (one_page_vmm va fr p) (one_page_tau va) va'.
Proof. by intros [H|H]. Qed.

(** Virtual page 0 mapped to frame 5, ten pages free. *)
Definition example_tau : Z -> option (Z * Z) := one_page_tau 0.
Definition example_vmm : vmm := one_page_vmm 0 5 example_pmm.

Lemma example_vinv : vinv example_vmm example_root example_tau.
Proof. apply one_page_vinv; [apply example_pmm_ok | done | done]. Qed.

Lemma example_no_window va : ~ win_va example_vmm example_tau va.
Proof. by intros [H|H]. Qed.

Lemma vmm_map_page_witness :
  wp (vmm_map_page (TFrame example_root) 0x40001000 (7 * PAGE_SIZE) 3)
    (fun _ s' => mmu_walk (v_mem s') (example_root * PAGE_SIZE) 0x40001000 = Some 0x7000 /\
                 mmu_walk (v_mem s') (example_root * PAGE_SIZE) 0x10 = Some 0x5010) example_vmm.
Proof.
  eapply wp_mono.
  - apply (vmm_map_page_correct example_root example_vmm example_tau (TFrame example_root));
      [apply example_vinv | done | vm_compute; lia | done | done | apply example_no_window | lia].
  - cbn beta. intros _ s' (_ & _ & _ & _ & H).
    destruct (H (example_root * PAGE_SIZE) eq_refl) as [-> Ho]. split; [done|].
    rewrite Ho; [done | | apply example_no_window]. by intros [_ Hv].
Defined.

Lemma vmm_get_physical_witness :
  wp (vmm_get_physical 0x123) (fun r _ => r = 0x5123) example_vmm.
Proof.
  eapply wp_mono.
  - apply (vmm_get_physical_walk example_vmm example_tau (example_root * PAGE_SIZE));
      [apply example_vinv | done | done | apply example_no_window].
  - cbn beta. by intros r s' (-> & _).
Defined.

Lemma vmm_unmap_page_witness :
  wp (vmm_unmap_page (TFrame example_root) 0)
    (fun _ s' => mmu_walk (v_mem s') (example_root * PAGE_SIZE) 0 = None /\
                 marked false 5 1 example_pmm (v_pmm s')) example_vmm.
Proof.
  eapply wp_mono.
  - apply (vmm_unmap_page_correct example_root example_vmm example_tau (TFrame example_root) 0
             (example_root * PAGE_SIZE));
      [apply example_vinv | done | done | apply example_no_window | done].
  - cbn beta. intros _ s' (_ & Hn & _ & Hf). split; [exact Hn | exact Hf].
Defined.

Lemma vmm_create_address_space_witness :
  wp vmm_create_address_space (fun r _ => r = 0x2000) example_vmm.
Proof.
  eapply wp_mono.
  - apply (vmm_create_address_space_spec example_root example_vmm example_tau example_root);
      [apply example_vinv | done | done | done | done | | done | done].
    intros H. apply elem_free_list in H as [H _]. change example_root with 4352 in H. cbn in H. lia.
  - cbn beta. intros r s' (n & -> & H & _). by injection H as <- _.
Defined.

(** ** What the code does outside the theorems' conditions *)

(** Opening a scratch window also clears a word of the frame after the window
    table (the source indexes an already advanced pointer). *)
Lemma scratch_map_clobbers s w :
  0 <= w <= 14 ->
  wp (vmm_scratch_map_internal 0x5000 w)
    (fun _ s' => v_mem s' (g_window_pt s + 1) (482 + 2 * w) = 0) s.
Proof.
  intros Hw. unfold vmm_scratch_map_internal, v_write.
  rewrite (proj2 (Z.ltb_ge w 0)), (proj2 (Z.ltb_ge 14 w)) by lia. cbn [orb]. wp_steps.
  assert (win_slot w = 497 + w) as -> by done. cbn -[set_fields Z.mul Z.div Z.modulo].
  assert (2 * (497 + w) / 512 = 1) as -> by zdiv_lia.
  assert (2 * (497 + w) mod 512 = 482 + 2 * w) as -> by zdiv_lia.
  rewrite pset_ne by lia. apply pset_eq.
Qed.

(** When the physical memory is exhausted [vmm_map_page] goes on with frame 0:
    it links it as a table and reports nothing. *)
Lemma map_page_no_memory :
  let s := set_v_pmm (Pmm false [0xFF] 8 1) (set_v_mem (fun _ _ => 0) example_vmm) in
  wp (vmm_map_page (TFrame example_root) 0x40001000 (7 * PAGE_SIZE) 3)
    (fun _ s' => v_mem s' example_root 0 = 3) s.
Proof. vm_compute. reflexivity. Qed.

(** The cache-disable bits [vmm_map_device] asks for (flags [0x1B]) are not
    stored: the page entry has only present and writable set. *)
Lemma map_device_flags :
  wp (vmm_map_device 0xFEC00000 0x1000 ;;;
      kgets (fun s => v_mem s 4 (GET_PT_INDEX KERNEL_MMIO_VIRTUAL_BASE)))
    (fun e _ => e = 0xFEC00003) example_vmm.
Proof. vm_compute. reflexivity. Qed.
