(* ===== verification/Pages.v ===== *)
(** * The page service the allocators are built on

    [kmalloc], [pool_alloc] and [brk] ask the physical memory manager for
    frames and the virtual memory manager to map them.  [PageSource] is that
    contract as a class: its clients are verified against the laws, and the
    instance at the end discharges them for the model of [pmm.c] and
    [vmm.c]. *)

From Stdlib Require Import ZArith Lia.
From stdpp Require Import base tactics list.
From S2P Require Import Prelude Bitmap Paging Pmm Vmm.

(** The addresses the allocators map: canonical and below the kernel image
    (whose page tables hold the scratch windows). *)
Definition mappable (va : Z) : Prop :=
  0 <= va < 2 ^ 47 \/ 0xFFFF800000000000 <= va < KERNEL_VIRTUAL_BASE.

Class PageSource (S : Type) : Type := {
  ps_alloc : M S Z;
  ps_map : Z -> Z -> Z -> M S unit;
  (** Abstract view: consistency, number of free frames, translation. *)
  ps_ok : S -> Prop;
  ps_free : S -> nat;
  ps_walk : S -> Z -> option Z;
  ps_alloc_spec s :
    ps_ok s ->
    wp ps_alloc
      (fun a s' => ps_ok s' /\ (forall va, ps_walk s' va = ps_walk s va) /\
         ((a = 0 /\ s' = s /\ ps_free s = 0%nat) \/
          (exists f, 0 < f < 2 ^ 40 /\ a = f * PAGE_SIZE /\ ps_free s = Datatypes.S (ps_free s')))) s;
  ps_map_spec s va f flags :
    ps_ok s -> (3 <= ps_free s)%nat -> mappable va -> 0 <= f < 2 ^ 40 ->
    wp (ps_map va (f * PAGE_SIZE) flags)
      (fun _ s' => ps_ok s' /\ (ps_free s <= ps_free s' + 3)%nat /\
         (forall va', va' / PAGE_SIZE = va / PAGE_SIZE ->
            ps_walk s' va' = Some (f * PAGE_SIZE + va' mod PAGE_SIZE)) /\
         (forall va', mappable va' -> va' / PAGE_SIZE <> va / PAGE_SIZE ->
            ps_walk s' va' = ps_walk s va')) s
}.

(** ** Addresses of one page *)

Lemma vidx_page L va va' : 1 <= L -> va' / PAGE_SIZE = va / PAGE_SIZE -> vidx L va' = vidx L va.
Proof.
  intros HL H. unfold vidx. rewrite !index_eq by lia.
  replace (3 + 9 * L) with (12 + (9 * L - 9)) by lia.
  rewrite Z.pow_add_r by lia. change (2 ^ 12) with PAGE_SIZE.
  rewrite <- !Z.div_div by (try apply Z.pow_pos_nonneg; done || lia). by rewrite H.
Qed.

Lemma walk_page m c tau va va' fr :
  tree_ok m (bf_get F_ADDR c) tau -> va' / PAGE_SIZE = va / PAGE_SIZE ->
  mmu_walk m c va = Some (fr * PAGE_SIZE + va mod PAGE_SIZE) ->
  mmu_walk m c va' = Some (fr * PAGE_SIZE + va' mod PAGE_SIZE).
Proof.
  intros Ht Hp. rewrite !(tree_walk _ _ tau) by done. cbv zeta.
  rewrite !(vidx_page _ va va') by (lia || done).
  repeat (destruct (_ =? 0); [done|]). intros [= H]. f_equal. unfold PAGE_SIZE in *. zdiv_lia.
Qed.

Lemma walk_page_none m c tau va va' :
  tree_ok m (bf_get F_ADDR c) tau -> va' / PAGE_SIZE = va / PAGE_SIZE ->
  mmu_walk m c va = None -> mmu_walk m c va' = None.
Proof.
  intros Ht Hp. rewrite !(tree_walk _ _ tau) by done. cbv zeta.
  rewrite !(vidx_page _ va va') by (lia || done). by repeat (destruct (_ =? 0); [done|]).
Qed.

Lemma same_page_mappable va va' :
  mappable va -> mappable va' -> same_page va va' -> va' / PAGE_SIZE = va / PAGE_SIZE.
Proof.
  unfold mappable, same_page, pref, vidx, KERNEL_VIRTUAL_BASE, PAGE_SIZE. rewrite !index_eq by lia.
  change (2 ^ (12 + 9 * 1)) with 2097152. change (2 ^ (9 * (4 - 1))) with 134217728.
  change (2 ^ (3 + 9 * 1)) with 4096. change (2 ^ 47) with 140737488355328. intros H H' [H1 H2].
  assert (va / 2097152 = va / 4096 / 512) by (by rewrite Z.div_div by lia).
  assert (va' / 2097152 = va' / 4096 / 512) by (by rewrite Z.div_div by lia).
  set (x := va / 4096) in *. set (y := va' / 4096) in *.
  assert (0 <= x < 34359738368 \/ 4503565267632128 <= x < 4503599626846208).
  { unfold x. zdiv_lia. }
  assert (0 <= y < 34359738368 \/ 4503565267632128 <= y < 4503599626846208).
  { unfold y. zdiv_lia. }
  clearbody x y. clear H H'. zdiv_lia.
Qed.

(** ** The kernel's managers as a page source *)

Definition kernel_root (s : vmm) : Z := kframe (v_kernel s) PML4_ADDRESS.

(** The managers are consistent and only addresses of the kernel image are
    translated by the tables of the scratch windows. *)
Definition vmm_ok (s : vmm) : Prop :=
  g_vmm_lock s = false /\ 0 <= kernel_root s < 2 ^ 40 /\
  exists tau, vinv s (kernel_root s) tau /\ forall va, mappable va -> ~ win_va s tau va.

Definition kernel_walk (s : vmm) (va : Z) : option Z :=
  mmu_walk (v_mem s) (kernel_root s * PAGE_SIZE) va.

Lemma root_addr f : 0 <= f < 2 ^ 40 -> bf_get F_ADDR (f * PAGE_SIZE) = f.
Proof.
  intros Hf. unfold bf_get. cbn -[Z.pow]. change (2 ^ 12) with PAGE_SIZE.
  rewrite Z.div_mul by done. by apply Z.mod_small.
Qed.

(** [vmm_map_page] on the kernel's PML4. *)
Definition kernel_map (va pa flags : Z) : M vmm unit :=
  s <-- kget ;; vmm_map_page (TFrame (kernel_root s)) va pa flags.

Lemma wp_kernel_alloc s :
  vmm_ok s ->
  wp (v_on_pmm pmm_alloc_page)
    (fun a s' => vmm_ok s' /\ (forall va, kernel_walk s' va = kernel_walk s va) /\
       ((a = 0 /\ s' = s /\ length (free_list (v_pmm s)) = 0%nat) \/
        (exists f, 0 < f < 2 ^ 40 /\ a = f * PAGE_SIZE /\
           length (free_list (v_pmm s)) = Datatypes.S (length (free_list (v_pmm s')))))) s.
Proof.
  intros (Hl & Hk & tau & Hinv & Hwin). unfold v_on_pmm. apply wp_zoom.
  eapply wp_mono; [apply wp_pmm_alloc_page, Hinv|]. cbn beta.
  intros a p' [Hok [(n & Hn & Hu & Hlow & -> & Hm)|(-> & -> & Hall)]].
  - pose proof (free_list_pop _ _ _ Hn Hu Hlow Hm) as Hpop.
    assert (n ∈ free_list (v_pmm s)) as Hin by (rewrite Hpop; by left).
    destruct Hinv as [Tr Hpm Ht Hr Hfr Hwi]. pose proof (Hfr n Hin) as (Hn0 & _).
    split_and!; [|done|right].
    + split; [done|]. split; [done|]. exists tau. split; [|done].
      split; cbn; try done; [by rewrite (proj1 Hm)|].
      intros q Hq. apply Hfr. rewrite Hpop. by right.
    + exists n. split_and!; try done; [lia|]. by rewrite Hpop.
  - split_and!; [|done|left].
    + split; [done|]. split; [done|]. exists tau. split; [|done]. by destruct s.
    + split_and!; [done | by destruct s | by rewrite free_list_nil].
Qed.

(** The variables a mapping does not touch. *)
Definition same_static (s s' : vmm) : Prop :=
  v_kernel s' = v_kernel s /\ g_window_pt s' = g_window_pt s /\
  next_available_virtual s' = next_available_virtual s.

Lemma wp_kernel_map_static s va f flags :
  vmm_ok s -> (3 <= length (free_list (v_pmm s)))%nat -> mappable va -> 0 <= f < 2 ^ 40 ->
  wp (kernel_map va (f * PAGE_SIZE) flags)
    (fun _ s' => (vmm_ok s' /\ same_static s s') /\
       (length (free_list (v_pmm s)) <= length (free_list (v_pmm s')) + 3)%nat /\
       (forall va', va' / PAGE_SIZE = va / PAGE_SIZE ->
          kernel_walk s' va' = Some (f * PAGE_SIZE + va' mod PAGE_SIZE)) /\
       (forall va', mappable va' -> va' / PAGE_SIZE <> va / PAGE_SIZE ->
          kernel_walk s' va' = kernel_walk s va')) s.
Proof.
  intros (Hl & Hk & tau & Hinv & Hwin) Hfree Hva Hf. unfold kernel_map. wp_steps.
  eapply wp_mono; [apply (wp_vmm_map_page (kernel_root s) s tau); auto; done|].
  cbn beta. intros _ s' (tau' & [I L W [WA WB] K D Hhere Hthere F _]).
  assert (Hroot : kernel_root s' = kernel_root s) by (unfold kernel_root; by rewrite K).
  split; [split|split_and!]; [|done|done| |].
  - split; [done|]. rewrite Hroot. split; [done|]. exists tau'. split; [done|].
    intros va' Hva'. unfold win_va. rewrite W, WA, WB. by apply Hwin.
  - intros va' Hva'. unfold kernel_walk. rewrite Hroot. apply (walk_page _ _ tau' va); [|done|].
    + rewrite root_addr by done. apply I.
    + apply Hhere. by apply root_addr.
  - intros va' Hva' Hne. unfold kernel_walk. rewrite Hroot. apply Hthere; [by apply root_addr| |auto].
    intros Hsp. apply Hne. by apply same_page_mappable.
Qed.

Lemma wp_kernel_map s va f flags :
  vmm_ok s -> (3 <= length (free_list (v_pmm s)))%nat -> mappable va -> 0 <= f < 2 ^ 40 ->
  wp (kernel_map va (f * PAGE_SIZE) flags)
    (fun _ s' => vmm_ok s' /\
       (length (free_list (v_pmm s)) <= length (free_list (v_pmm s')) + 3)%nat /\
       (forall va', va' / PAGE_SIZE = va / PAGE_SIZE ->
          kernel_walk s' va' = Some (f * PAGE_SIZE + va' mod PAGE_SIZE)) /\
       (forall va', mappable va' -> va' / PAGE_SIZE <> va / PAGE_SIZE ->
          kernel_walk s' va' = kernel_walk s va')) s.
Proof.
  intros H1 H2 H3 H4. eapply wp_mono; [by apply wp_kernel_map_static|]. cbn beta. tauto.
Qed.

#[global] Instance vmm_pages : PageSource vmm := {|
  ps_alloc := v_on_pmm pmm_alloc_page;
  ps_map := kernel_map;
  ps_ok := vmm_ok;
  ps_free s := length (free_list (v_pmm s));
  ps_walk := kernel_walk;
  ps_alloc_spec := wp_kernel_alloc;
  ps_map_spec := wp_kernel_map
|}.

(** ** Runs of pages *)

(** The run of [n] frames from [f] on is mapped at the page-aligned [va]; no
    other translation changed since [s]. *)
Record run_mapped (n f va : Z) (s s' : vmm) : Prop := {
  rm_ok : vmm_ok s';
  rm_static : same_static s s';
  rm_free : (length (free_list (v_pmm s)) <= length (free_list (v_pmm s')) + 3 * Z.to_nat n)%nat;
  rm_here : forall x, va <= x < va + n * PAGE_SIZE -> kernel_walk s' x = Some (f * PAGE_SIZE + (x - va));
  rm_there : forall x, mappable x -> ~ (va <= x < va + n * PAGE_SIZE) ->
    kernel_walk s' x = kernel_walk s x
}.

Lemma run_mapped_0 f va s : vmm_ok s -> run_mapped 0 f va s s.
Proof. intros H. split; try done; [lia | intros x Hx; lia]. Qed.

Lemma run_mapped_S k f va s s' s'' :
  0 <= k -> va mod PAGE_SIZE = 0 -> run_mapped k f va s s' ->
  (forall x, va <= x < va + (k + 1) * PAGE_SIZE -> mappable x) ->
  vmm_ok s'' -> same_static s' s'' ->
  (length (free_list (v_pmm s')) <= length (free_list (v_pmm s'')) + 3)%nat ->
  (forall x, x / PAGE_SIZE = (va + k * PAGE_SIZE) / PAGE_SIZE ->
     kernel_walk s'' x = Some ((f + k) * PAGE_SIZE + x mod PAGE_SIZE)) ->
  (forall x, mappable x -> x / PAGE_SIZE <> (va + k * PAGE_SIZE) / PAGE_SIZE ->
     kernel_walk s'' x = kernel_walk s' x) ->
  run_mapped (k + 1) f va s s''.
Proof.
  intros Hk Hva [H1 (S1 & S2 & S3) H3 H4 H5] Hmap Hok (T1 & T2 & T3) Hfree Hhere Hthere.
  unfold PAGE_SIZE in *. apply Z.mod_divide in Hva as [q ->]; [|done].
  assert (Hpg : forall x, x / 4096 = (q * 4096 + k * 4096) / 4096 <->
    q * 4096 + k * 4096 <= x < q * 4096 + (k + 1) * 4096).
  { intros x. rewrite <- Z.mul_add_distr_r, Z.div_mul by done. clear. split; intros; zdiv_lia. }
  split; [done | by split_and!; congruence | lia | |]; unfold PAGE_SIZE.
  - intros x Hx. destruct (Z.lt_ge_cases x (q * 4096 + k * 4096)).
    + rewrite Hthere; [apply H4; lia | by apply Hmap | rewrite Hpg; lia].
    + rewrite Hhere by (apply Hpg; lia). f_equal. clear -Hx H. zdiv_lia.
  - intros x Hm Hx. rewrite Hthere; [apply H5; [done | lia] | done | rewrite Hpg; lia].
Qed.

(** A loop that maps the pages of a run one by one. *)
Lemma wp_map_run n f va flags (body : Z -> M vmm unit) s :
  vmm_ok s -> va mod PAGE_SIZE = 0 -> 0 <= f -> f + Z.of_nat n <= 2 ^ 40 ->
  (3 * n <= length (free_list (v_pmm s)))%nat ->
  (forall x, va <= x < va + Z.of_nat n * PAGE_SIZE -> mappable x) ->
  (forall i, 0 <= i < Z.of_nat n -> body i = kernel_map (va + i * PAGE_SIZE) ((f + i) * PAGE_SIZE) flags) ->
  wp (for_ n 0 body) (fun _ s' => run_mapped (Z.of_nat n) f va s s') s.
Proof.
  intros Hok Hva Hf Hfn Hfree Hmap Hbody.
  apply (wp_for (fun k s' => 0 <= k /\ run_mapped k f va s s')).
  - split; [done|]. by apply run_mapped_0.
  - intros k s' Hk [_ Hr]. rewrite Hbody by lia. pose proof (rm_free _ _ _ _ _ Hr).
    assert (forall x, va <= x < va + (k + 1) * PAGE_SIZE -> mappable x) as Hm.
    { intros x Hx. apply Hmap. unfold PAGE_SIZE in *. lia. }
    eapply wp_mono.
    { apply wp_kernel_map_static; [apply Hr | lia | apply Hm; unfold PAGE_SIZE; lia | lia]. }
    cbn beta. intros _ s'' ([H1 H2] & H3 & H4 & H5). split; [lia|].
    apply (run_mapped_S k f va s s'); done || lia.
  - by intros s' [_ H].
Qed.

(** The frames of a fresh run leave the free list. *)
Lemma free_list_run s s' p n :
  0 <= p -> 0 <= n -> p + n <= pmm_total_pages s -> (forall q, p <= q < p + n -> used s q = false) ->
  marked true p n s s' ->
  length (free_list s) = (length (free_list s') + Z.to_nat n)%nat /\
  forall q, q ∈ free_list s' -> q ∈ free_list s.
Proof.
  intros Hp Hn Hle Hfree [Htot Hm].
  assert (Hperm : free_list s ≡ₚ free_list s' ++ seqZ p n).
  { apply NoDup_Permutation.
    - apply NoDup_filter, NoDup_seqZ.
    - apply NoDup_app. split_and!; [apply NoDup_filter, NoDup_seqZ | | apply NoDup_seqZ].
      intros x [Hx Hu]%elem_free_list Hr%elem_of_seqZ. rewrite Hm in Hu by lia.
      rewrite (proj2 (Z.leb_le _ _)), (proj2 (Z.ltb_lt _ _)) in Hu by lia. done.
    - intros x. rewrite elem_of_app, !elem_free_list, elem_of_seqZ, Htot. split.
      + intros [Hx Hu]. destruct (decide (p <= x < p + n)); [by right|]. left. split; [done|].
        rewrite Hm by done. destruct (Z.leb_spec p x), (Z.ltb_spec x (p + n)); cbn; done || lia.
      + intros [[Hx Hu]|Hx]; [|split; [lia | by apply Hfree]]. split; [done|].
        rewrite Hm in Hu by done. by destruct ((p <=? x) && (x <? p + n)). }
  split.
  - rewrite Hperm, length_app, length_seqZ. done.
  - intros q Hq. rewrite Hperm. apply elem_of_app. by left.
Qed.

Lemma wp_kernel_alloc_run s n :
  vmm_ok s -> 0 < n < 2 ^ 64 ->
  wp (v_on_pmm (pmm_alloc_pages n))
    (fun a s' => vmm_ok s' /\ same_static s s' /\ (forall va, kernel_walk s' va = kernel_walk s va) /\
       ((a = 0 /\ s' = s) \/
        (exists f, 0 < f /\ f + n <= 2 ^ 24 /\ a = f * PAGE_SIZE /\
           length (free_list (v_pmm s)) = (length (free_list (v_pmm s')) + Z.to_nat n)%nat))) s.
Proof.
  intros (Hl & Hk & tau & Hinv & Hwin) Hn. unfold v_on_pmm. apply wp_zoom.
  eapply wp_mono; [apply wp_pmm_alloc_pages; [apply Hinv | done]|]. cbn beta.
  intros a p' [Hok [(f & (Hf0 & Hfn & Hrun & _) & -> & Hm)|(-> & -> & _)]].
  - pose proof Hinv as [Tr Hpm Ht Hr Hfr Hwi].
    destruct (free_list_run (v_pmm s) p' f n Hf0 ltac:(lia) Hfn Hrun Hm) as [Hlen Hsub].
    assert (f ∈ free_list (v_pmm s)) as Hin.
    { apply elem_free_list. split; [lia|]. apply Hrun. lia. }
    destruct (Hfr f Hin) as [Hpos _]. split_and!; [|done|done|right].
    + split; [done|]. split; [done|]. exists tau. split; [|done].
      split; cbn; try done; [by rewrite (proj1 Hm)|]. intros q Hq. by apply Hfr, Hsub.
    + exists f. split_and!; try done. lia.
  - split_and!; [|done|done|left; by destruct s].
    split; [done|]. split; [done|]. exists tau. split; [|done]. by destruct s.
Qed.

(** ** Devices *)

Lemma vmm_ok_dev a s : vmm_ok s -> vmm_ok (set_next_dev a s).
Proof.
  intros (Hl & Hk & tau & [? ? ? ? ? ?] & Hwin). split; [done|]. split; [done|]. exists tau.
  split; [by split | done].
Qed.

Lemma map_device_loop n f va s :
  vmm_ok s -> next_available_virtual s = va -> va mod PAGE_SIZE = 0 ->
  KERNEL_MMIO_VIRTUAL_BASE <= va -> va + Z.of_nat n * PAGE_SIZE < KERNEL_MMIO_VIRTUAL_END ->
  0 <= f -> f + Z.of_nat n <= 2 ^ 40 -> (3 * n <= length (free_list (v_pmm s)))%nat ->
  wp (loop n 0 (map_device_page (f * PAGE_SIZE)) tt)
    (fun r s' => exists s1, s' = set_next_dev (va + Z.of_nat n * PAGE_SIZE) s1 /\
       run_mapped (Z.of_nat n) f va s s1) s.
Proof.
  intros Hok Hnext Hal Hlo Hhi Hf Hfn Hfree.
  unfold KERNEL_MMIO_VIRTUAL_BASE, KERNEL_MMIO_VIRTUAL_END in *.
  apply (wp_loop (fun k (_ : unit) s' => 0 <= k /\ exists s1,
    s' = set_next_dev (va + k * PAGE_SIZE) s1 /\ run_mapped k f va s s1)).
  - split; [done|]. exists s. split; [|by apply run_mapped_0]. rewrite <- Hnext.
    replace (next_available_virtual s + 0 * PAGE_SIZE) with (next_available_virtual s) by lia. by destruct s.
  - intros k [] s' Hk (_ & s1 & -> & Hr). pose proof (rm_free _ _ _ _ _ Hr) as Hfr.
    destruct (rm_static _ _ _ _ _ Hr) as (E1 & E2 & E3).
    unfold map_device_page. wp_steps. cbn [next_available_virtual set_next_dev v_kernel].
    unfold PAGE_SIZE in *. rewrite u64_small by lia.
    replace (f * 4096 + k * 4096) with ((f + k) * 4096) by lia.
    assert (Hm : forall x, va <= x < va + (k + 1) * 4096 -> mappable x).
    { intros x Hx. right. unfold KERNEL_VIRTUAL_BASE. lia. }
    eapply wp_mono.
    { apply (wp_kernel_map_static (set_next_dev (va + k * 4096) s1) (va + k * 4096) (f + k) 0x1B);
        [apply vmm_ok_dev, Hr | cbn; lia | apply Hm; lia | lia]. }
    cbn beta. intros _ s2 ([H1 (S1 & S2 & S3)] & H3 & H4 & H5). cbn in S1, S2, S3, H3.
    wp_steps. rewrite u64_small by lia. unfold KERNEL_MMIO_VIRTUAL_END. case_if; [lia|]. wp_steps. split; [lia|].
    exists (set_next_dev (next_available_virtual s) s2). split.
    { replace (va + (k + 1) * 4096) with (va + k * 4096 + 4096) by lia. by destruct s2. }
    apply (run_mapped_S k f va s s1); try done; [lia | by apply vmm_ok_dev].
  - intros [] s' (_ & s1 & -> & H). exists s1. by replace (0 + Z.of_nat n) with (Z.of_nat n) in * by lia.
Qed.

(** [vmm_map_device] gives a device a window in the MMIO range: the
    returned address translates to the device's physical address over the
    whole length asked for, the next device gets pages after it, and no other
    translation changes. *)
Theorem vmm_map_device_correct s pa size :
  let va := next_available_virtual s in
  let n := (size + pa mod PAGE_SIZE + PAGE_SIZE - 1) / PAGE_SIZE in
  vmm_ok s -> va mod PAGE_SIZE = 0 -> KERNEL_MMIO_VIRTUAL_BASE <= va ->
  va + n * PAGE_SIZE < KERNEL_MMIO_VIRTUAL_END -> 0 < size -> 0 <= pa -> pa + size <= 2 ^ 51 ->
  (3 * Z.to_nat n <= length (free_list (v_pmm s)))%nat ->
  wp (vmm_map_device pa size)
    (fun r s' => vmm_ok s' /\ r = va + pa mod PAGE_SIZE /\
       next_available_virtual s' = va + n * PAGE_SIZE /\
       (forall x, 0 <= x < size -> kernel_walk s' (r + x) = Some (pa + x)) /\
       (forall x, mappable x -> ~ (va <= x < va + n * PAGE_SIZE) ->
          kernel_walk s' x = kernel_walk s x)) s.
Proof.
  intros va n Hok Hal Hlo Hhi Hsz Hpa Htop Hfree. unfold vmm_map_device.
  assert (Hb : KERNEL_MMIO_VIRTUAL_BASE = 0xFFFFFF0000000000 /\
    KERNEL_MMIO_VIRTUAL_END = 0xFFFFFF8000000000) by done.
  assert (Hmod : 0 <= pa mod PAGE_SIZE < PAGE_SIZE) by by apply Z.mod_pos_bound.
  rewrite (proj2 (Z.eqb_neq _ _)) by lia.
  assert (Z.land pa (u64 (Z.lnot (PAGE_SIZE - 1))) = pa / PAGE_SIZE * PAGE_SIZE) as ->.
  { apply (land_align pa 12); lia. }
  assert (Z.land pa (PAGE_SIZE - 1) = pa mod PAGE_SIZE) as ->.
  { change (PAGE_SIZE - 1) with (Z.ones 12). by rewrite Z.land_ones. }
  rewrite (u64_small (size + _ + _ - _)) by (unfold PAGE_SIZE in *; lia). fold n. wp_steps. fold va.
  set (f := pa / PAGE_SIZE).
  assert (Hn : 0 <= n) by (apply Z.div_pos; unfold PAGE_SIZE in *; lia).
  assert (Hnn : Z.of_nat (Z.to_nat n) = n) by lia.
  assert (Hpf : pa = f * PAGE_SIZE + pa mod PAGE_SIZE).
  { unfold f. rewrite (Z.div_mod pa PAGE_SIZE) at 1 by done. lia. }
  assert (Hns : n * PAGE_SIZE < size + pa mod PAGE_SIZE + PAGE_SIZE /\ size + pa mod PAGE_SIZE <= n * PAGE_SIZE).
  { unfold n, PAGE_SIZE in *. zdiv_lia. }
  eapply wp_mono.
  { apply (map_device_loop (Z.to_nat n) f va s); rewrite ?Hnn; try done; unfold PAGE_SIZE in *; lia. }
  cbn beta. rewrite Hnn. intros _ s' (s1 & -> & [H1 H2 H3 H4 H5]). wp_steps.
  rewrite u64_small by (unfold PAGE_SIZE in *; lia). split_and!; try done.
  - by apply vmm_ok_dev.
  - intros x Hx. change (kernel_walk s1 (va + pa mod PAGE_SIZE + x) = Some (pa + x)).
    rewrite H4 by lia. f_equal. lia.
Qed.

Lemma example_vmm_ok : vmm_ok example_vmm.
Proof.
  split; [done|]. split; [done|]. exists example_tau. split; [apply example_vinv|].
  intros va _. apply example_no_window.
Qed.

Lemma vmm_map_device_witness :
  wp (vmm_map_device 0xFEC00010 0x20)
    (fun r s' => r = 0xFFFFFF0000000010 /\ kernel_walk s' 0xFFFFFF0000000018 = Some 0xFEC00018)
    example_vmm.
Proof.
  eapply wp_mono.
  - apply (vmm_map_device_correct example_vmm 0xFEC00010 0x20);
      [apply example_vmm_ok | done | done | done | done | done | done | vm_compute; lia].
  - cbn beta. intros r s' (_ & -> & _ & Hw & _). split; [done | exact (Hw 8 ltac:(lia))].
Defined.
