(* ===== verification/Heap.v ===== *)
(** * The kernel heap

    [kernel/kernel/mm/heap.c]: a linked list of headers threaded through the
    heap's virtual range, allocated best-fit, split, grown page by page and
    coalesced on free.  The frames and mappings of the growth come from a
    [PageSource].  Headers are kept in a map from addresses, stale ones
    included: an absorbed header stays in memory, as in the program. *)

From Stdlib Require Import ZArith Lia.
From stdpp Require Import base tactics list gmap sorting.
From S2P Require Import Prelude Bitmap Paging Pmm Vmm Pages.

Definition HEADER_SIZE : Z := 32.

Record HEAP_HEADER : Type := Hdr {
  h_size : Z;
  h_is_free : Z;
  h_next : Z
}.

Record heap (S : Type) : Type := Heap {
  h_src : S;
  h_mem : gmap Z HEAP_HEADER;
  g_heap_start : Z;
  g_heap_lock : bool;
  g_heap_current_end : Z
}.
Arguments Heap {S}.
Arguments h_src {S}.
Arguments h_mem {S}.
Arguments g_heap_start {S}.
Arguments g_heap_lock {S}.
Arguments g_heap_current_end {S}.

Section ops.
Context {S : Type} `{!PageSource S}.

Definition set_h_src (x : S) (s : heap S) : heap S :=
  Heap x (h_mem s) (g_heap_start s) (g_heap_lock s) (g_heap_current_end s).
Definition set_h_mem (m : gmap Z HEAP_HEADER) (s : heap S) : heap S :=
  Heap (h_src s) m (g_heap_start s) (g_heap_lock s) (g_heap_current_end s).
Definition set_heap_lock (b : bool) (s : heap S) : heap S :=
  Heap (h_src s) (h_mem s) (g_heap_start s) b (g_heap_current_end s).
Definition set_heap_end (e : Z) (s : heap S) : heap S :=
  Heap (h_src s) (h_mem s) (g_heap_start s) (g_heap_lock s) e.

Definition h_on_src {A} (m : M S A) : M (heap S) A := zoom h_src set_h_src m.

Definition heap_lock_irq : M (heap S) unit :=
  b <-- kgets g_heap_lock ;;
  if b then kstop Deadlock else kmodify (set_heap_lock true).
Definition heap_unlock_irq : M (heap S) unit := kmodify (set_heap_lock false).

(** [*p] for a header pointer, and the store of a header. *)
Definition hdr (p : Z) : M (heap S) HEAP_HEADER :=
  s <-- kget ;; kopt NullDeref (h_mem s !! p).
Definition put_hdr (p : Z) (h : HEAP_HEADER) : M (heap S) unit :=
  kmodify (fun s => set_h_mem (<[p := h]> (h_mem s)) s).

(** The static variables before [kheap_init]. *)
Definition heap_boot (src : S) : heap S :=
  Heap src ∅ 0 false (KERNEL_HEAP_VIRTUAL_BASE + KERNEL_HEAP_INITIAL_SIZE).

Definition kheap_init : M (heap S) unit :=
  put_hdr KERNEL_HEAP_VIRTUAL_BASE (Hdr (KERNEL_HEAP_INITIAL_SIZE - HEADER_SIZE) 1 0) ;;;
  kmodify (fun s => Heap (h_src s) (h_mem s) KERNEL_HEAP_VIRTUAL_BASE false (g_heap_current_end s)).

(** The traversals are bounded by the number of headers in memory: a list
    without cycles is not longer. *)
Definition list_fuel : M (heap S) nat := kgets (fun s => Datatypes.S (size (h_mem s))).

(** 1. Best-fit search over the whole list. *)
Fixpoint find_best (fuel : nat) (size current best_block smallest_diff : Z) : M (heap S) Z :=
  if current =? 0 then kret best_block else
  match fuel with
  | O => kstop NoFuel
  | Datatypes.S fuel' =>
      h <-- hdr current ;;
      if negb (h_is_free h =? 0) && (size <=? h_size h) then
        let diff := u64 (h_size h - size) in
        if diff <? smallest_diff then find_best fuel' size (h_next h) current diff
        else find_best fuel' size (h_next h) best_block smallest_diff
      else find_best fuel' size (h_next h) best_block smallest_diff
  end.

(** The last block of the list. *)
Fixpoint find_last (fuel : nat) (current : Z) : M (heap S) Z :=
  h <-- hdr current ;;
  if h_next h =? 0 then kret current else
  match fuel with
  | O => kstop NoFuel
  | Datatypes.S fuel' => find_last fuel' (h_next h)
  end.

(** One page of the expansion; the failure of the PMM leaves with null. *)
Definition expand_page (i : Z) (_ : unit) : M (heap S) (unit + Z) :=
  phys_page <-- h_on_src ps_alloc ;;
  if phys_page =? 0 then heap_unlock_irq ;;; kret (inr 0) else
  e <-- kgets g_heap_current_end ;;
  h_on_src (ps_map (u64 (e + i * PAGE_SIZE)) phys_page 0x2) ;;;
  kret (inl tt).

Definition expansion_size (size : Z) : Z :=
  let base := 1024 * 1024 in
  if base <? u64 (size + HEADER_SIZE)
  then Z.land (u64 (size + HEADER_SIZE + PAGE_SIZE - 1)) (u64 (Z.lnot (PAGE_SIZE - 1)))
  else base.

(** The header of the new space, linked behind the last block or merged into
    it. *)
Definition link_space (expansion_size : Z) : M (heap S) unit :=
  new_space_header <-- kgets g_heap_current_end ;;
  put_hdr new_space_header (Hdr (u64 (expansion_size - HEADER_SIZE)) 1 0) ;;;
  kmodify (set_heap_end (u64 (new_space_header + expansion_size))) ;;;
  start <-- kgets g_heap_start ;;
  fuel <-- list_fuel ;;
  current <-- find_last fuel start ;;
  c <-- hdr current ;;
  put_hdr current (Hdr (h_size c) (h_is_free c) new_space_header) ;;;
  if negb (h_is_free c =? 0) then
    n <-- hdr new_space_header ;;
    put_hdr current (Hdr (u64 (h_size c + (HEADER_SIZE + h_size n))) (h_is_free c) (h_next n))
  else kret tt.

(** 2. Expansion: [inl] when the heap grew, [inr 0] when memory is out. *)
Definition expand_heap (size : Z) : M (heap S) (unit + Z) :=
  let expansion_size := expansion_size size in
  r <-- loop (Z.to_nat ((expansion_size + PAGE_SIZE - 1) / PAGE_SIZE)) 0 expand_page tt ;;
  match r with
  | inr a => kret (inr a)
  | inl _ => link_space expansion_size ;;; kret (inl tt)
  end.

(** 3. Split of the chosen block, which is then marked as in use. *)
Definition take_block (size best_block : Z) : M (heap S) Z :=
  b <-- hdr best_block ;;
  (if u64 (size + HEADER_SIZE + 16) <=? h_size b then
     let next_header_addr := u64 (best_block + HEADER_SIZE + size) in
     put_hdr next_header_addr (Hdr (u64 (h_size b - size - HEADER_SIZE)) 1 (h_next b)) ;;;
     put_hdr best_block (Hdr size (h_is_free b) next_header_addr)
   else kret tt) ;;;
  b' <-- hdr best_block ;;
  put_hdr best_block (Hdr (h_size b') 0 (h_next b')) ;;;
  heap_unlock_irq ;;;
  kret (u64 (best_block + HEADER_SIZE)).

(** The label [retry_search]; [retries] bounds the number of returns to it. *)
Fixpoint retry_search (retries : nat) (size : Z) : M (heap S) Z :=
  start <-- kgets g_heap_start ;;
  fuel <-- list_fuel ;;
  best_block <-- find_best fuel size start 0 0xFFFFFFFFFFFFFFFF ;;
  if best_block =? 0 then
    r <-- expand_heap size ;;
    match r, retries with
    | inr a, _ => kret a
    | inl _, O => kstop NoFuel
    | inl _, Datatypes.S n => retry_search n size
    end
  else take_block size best_block.

Definition kmalloc (size : Z) : M (heap S) Z :=
  if size =? 0 then kret 0 else
  heap_lock_irq ;;;
  retry_search 1 (Z.land (u64 (size + 15)) (u64 (Z.lnot 15))).

(** The coalescing loop of [kfree]. *)
Fixpoint coalesce_list (fuel : nat) (current : Z) : M (heap S) unit :=
  if current =? 0 then kret tt else
  match fuel with
  | O => kstop NoFuel
  | Datatypes.S fuel' =>
      c <-- hdr current ;;
      if negb (h_is_free c =? 0) && negb (h_next c =? 0) then
        n <-- hdr (h_next c) ;;
        if negb (h_is_free n =? 0) then
          put_hdr current (Hdr (u64 (h_size c + (HEADER_SIZE + h_size n))) (h_is_free c) (h_next n)) ;;;
          coalesce_list fuel' current
        else coalesce_list fuel' (h_next c)
      else coalesce_list fuel' (h_next c)
  end.

Definition kfree (ptr : Z) : M (heap S) unit :=
  if ptr =? 0 then kret tt else
  heap_lock_irq ;;;
  let header := u64 (ptr - HEADER_SIZE) in
  h <-- hdr header ;;
  put_hdr header (Hdr (h_size h) 1 (h_next h)) ;;;
  start <-- kgets g_heap_start ;;
  fuel <-- list_fuel ;;
  coalesce_list fuel start ;;;
  heap_unlock_irq.

End ops.

(** ** The blocks of the heap *)

Record blk : Type := Blk { b_addr : Z; b_size : Z; b_free : bool }.

#[global] Instance blk_eq_dec : EqDecision blk.
Proof. solve_decision. Defined.

Definition head_of (bs : list blk) (q : Z) : Z :=
  match bs with [] => q | b :: _ => b_addr b end.

(** The headers of [bs] are in memory and lead from one to the next, the last
    one to [q]. *)
Fixpoint lseg (m : gmap Z HEAP_HEADER) (bs : list blk) (q : Z) : Prop :=
  match bs with
  | [] => True
  | b :: bs' =>
      m !! b_addr b = Some (Hdr (b_size b) (Z.b2z (b_free b)) (head_of bs' q)) /\ lseg m bs' q
  end.

(** The blocks tile the range from [p] to [e]. *)
Fixpoint tile (p : Z) (bs : list blk) (e : Z) : Prop :=
  match bs with
  | [] => p = e
  | b :: bs' => b_addr b = p /\ 16 <= b_size b /\ (16 | b_size b) /\
                tile (p + HEADER_SIZE + b_size b) bs' e
  end.

(** No two neighbours are both free. *)
Fixpoint coalesced (bs : list blk) : Prop :=
  match bs with
  | b :: bs' => match bs' with
                | c :: _ => b_free b && b_free c = false
                | [] => True
                end /\ coalesced bs'
  | [] => True
  end.

(** The blocks in use. *)
Definition in_use (bs : list blk) : list blk := filter (fun b => b_free b = false) bs.

(** The heap ends before the frame buffer's range. *)
Definition HEAP_LIMIT : Z := 0xFFFF8000E0000000.

Record heap_wf {S} `{!PageSource S} (s : heap S) (bs : list blk) : Prop := {
  ho_src : ps_ok (h_src s);
  ho_seg : lseg (h_mem s) bs 0;
  ho_start : g_heap_start s = KERNEL_HEAP_VIRTUAL_BASE;
  ho_tile : tile KERNEL_HEAP_VIRTUAL_BASE bs (g_heap_current_end s);
  ho_ne : bs <> [];
  ho_end : g_heap_current_end s <= HEAP_LIMIT;
  ho_page : (PAGE_SIZE | g_heap_current_end s);
  ho_coal : coalesced bs;
  ho_mapped : forall va, KERNEL_HEAP_VIRTUAL_BASE <= va < g_heap_current_end s ->
    is_Some (ps_walk (h_src s) va)
}.

Definition heap_ok {S} `{!PageSource S} (s : heap S) (bs : list blk) : Prop :=
  g_heap_lock s = false /\ heap_wf s bs.

(** ** Lemmas on list segments and tilings *)

Lemma head_app b1 b2 q : head_of (b1 ++ b2) q = head_of b1 (head_of b2 q).
Proof. by destruct b1. Qed.

Lemma lseg_app m b1 b2 q :
  lseg m (b1 ++ b2) q <-> lseg m b1 (head_of b2 q) /\ lseg m b2 q.
Proof.
  induction b1 as [|b b1 IH]; cbn; [tauto|]. rewrite head_app, IH. tauto.
Qed.

Lemma lseg_insert m bs q a h :
  a ∉ map b_addr bs -> lseg m bs q -> lseg (<[a := h]> m) bs q.
Proof.
  induction bs as [|b bs IH]; cbn; [done|]. rewrite not_elem_of_cons. intros [Hne Hn] [Hb Hs].
  split; [by rewrite lookup_insert_ne | auto].
Qed.

Lemma tile_app p b1 b2 e :
  tile p (b1 ++ b2) e <-> exists q, tile p b1 q /\ tile q b2 e.
Proof.
  revert p. induction b1 as [|b b1 IH]; cbn; intros p.
  - split; [eauto | by intros (q & -> & ?)].
  - rewrite IH. split.
    + intros (H1 & H2 & H3 & q & H4 & H5). by exists q.
    + intros (q & (H1 & H2 & H3 & H4) & H5). split_and!; try done. by exists q.
Qed.

Lemma tile_le p bs e : tile p bs e -> p <= e.
Proof.
  revert p. induction bs as [|b bs IH]; cbn; intros p; [lia|].
  intros (_ & Hs & _ & Ht). apply IH in Ht. unfold HEADER_SIZE in *. lia.
Qed.

Lemma tile_in p bs e b :
  tile p bs e -> b ∈ bs ->
  p <= b_addr b /\ b_addr b + HEADER_SIZE + b_size b <= e /\ 16 <= b_size b /\ (16 | b_size b).
Proof.
  revert p. induction bs as [|c bs IH]; cbn; intros p; [by intros _ ?%elem_of_nil|].
  intros (<- & Hs & Hd & Ht). rewrite elem_of_cons. intros [-> | Hin].
  - apply tile_le in Ht. by split_and!.
  - destruct (IH _ Ht Hin) as (H1 & H2 & H3). unfold HEADER_SIZE in *. split_and!; try lia; tauto.
Qed.

Lemma tile_addr p bs e a : tile p bs e -> a ∈ map b_addr bs -> p <= a < e.
Proof.
  intros Ht (b & -> & Hb)%list_elem_of_fmap. pose proof (tile_in _ _ _ _ Ht Hb).
  unfold HEADER_SIZE in *. lia.
Qed.

Lemma tile_div p bs e : (16 | p) -> tile p bs e -> (16 | e).
Proof.
  revert p. induction bs as [|b bs IH]; cbn; intros p Hp; [by intros <-|].
  intros (_ & _ & Hd & Ht). apply IH in Ht; [done|].
  apply Z.divide_add_r; [apply Z.divide_add_r; [done | by exists 2] | done].
Qed.

Lemma tile_NoDup p bs e : tile p bs e -> NoDup (map b_addr bs).
Proof.
  revert p. induction bs as [|b bs IH]; cbn; intros p; [constructor|].
  intros (<- & Hs & _ & Ht). apply NoDup_cons. split; [|by eapply IH].
  intros Hin. pose proof (tile_addr _ _ _ _ Ht Hin). unfold HEADER_SIZE in *. lia.
Qed.

Lemma lseg_fuel m bs q : lseg m bs q -> NoDup (map b_addr bs) -> (length bs <= size m)%nat.
Proof.
  intros Hs Hnd. rewrite <- (length_fmap b_addr), <- size_dom.
  rewrite <- (size_list_to_set (C := gset Z)) by exact Hnd.
  apply subseteq_size. intros a Ha. apply elem_of_list_to_set in Ha. clear Hnd.
  induction bs as [|b bs IH]; [by apply elem_of_nil in Ha|]. destruct Hs as [Hb Hs].
  apply elem_of_cons in Ha as [-> | Ha]; [|auto]. apply elem_of_dom. eauto.
Qed.

Lemma tile_addr_div p bs e b : (16 | p) -> tile p bs e -> b ∈ bs -> (16 | b_addr b).
Proof.
  intros Hp Ht (l1 & l2 & ->)%list_elem_of_split. apply tile_app in Ht as (q & T1 & <- & _).
  by eapply tile_div.
Qed.

(** Blocks do not overlap. *)
Lemma tile_disjoint p bs e b c :
  tile p bs e -> b ∈ bs -> c ∈ bs ->
  b = c \/ b_addr b + HEADER_SIZE + b_size b <= b_addr c \/
  b_addr c + HEADER_SIZE + b_size c <= b_addr b.
Proof.
  revert p. induction bs as [|d bs IH]; cbn; intros p; [by intros _ ?%elem_of_nil|].
  intros (<- & _ & _ & Ht). rewrite !elem_of_cons. intros [-> | Hb] [-> | Hc].
  - by left.
  - right. left. by apply (tile_in _ _ _ c Ht).
  - right. right. by apply (tile_in _ _ _ b Ht).
  - by eapply IH.
Qed.

Lemma coalesced_app b1 b2 :
  coalesced (b1 ++ b2) <->
  coalesced b1 /\ coalesced b2 /\
  match last b1, b2 with Some b, c :: _ => b_free b && b_free c = false | _, _ => True end.
Proof.
  induction b1 as [|b b1 IH]; [cbn; tauto|]. destruct b1 as [|b' b1].
  - cbn. destruct b2; tauto.
  - change ((b :: b' :: b1) ++ b2) with (b :: (b' :: b1) ++ b2).
    change (last (b :: b' :: b1)) with (last (b' :: b1)).
    cbn [coalesced]. rewrite <- app_comm_cons in *. cbn [coalesced] in IH |- *. tauto.
Qed.

(** ** Best fit *)

(** The candidate after one more block. *)
Definition bf_step (size : Z) (acc : option blk) (b : blk) : option blk :=
  if b_free b && (size <=? b_size b) then
    match acc with
    | Some c => if b_size b <? b_size c then Some b else acc
    | None => Some b
    end
  else acc.

Definition fits (size : Z) (b : blk) : Prop := b_free b = true /\ size <= b_size b.

Definition best_fit (size : Z) (bs : list blk) : option blk := foldl (bf_step size) None bs.

Lemma best_fit_acc size bs acc :
  (forall c, acc = Some c -> fits size c) ->
  match foldl (bf_step size) acc bs with
  | Some b => fits size b /\ (b ∈ bs \/ acc = Some b) /\
              (forall c, c ∈ bs \/ acc = Some c -> fits size c -> b_size b <= b_size c)
  | None => acc = None /\ forall c, c ∈ bs -> ~ fits size c
  end.
Proof.
  revert acc. induction bs as [|b bs IH]; cbn; intros acc Hacc.
  - destruct acc as [c|]; [|split; [done | by intros c ?%elem_of_nil]].
    split_and!; [auto | by right|]. intros c' [?%elem_of_nil|[= ->]]; done || lia.
  - assert (Hstep : forall c, bf_step size acc b = Some c -> fits size c).
    { unfold bf_step, fits. intros c. destruct (b_free b) eqn:Ef; cbn; [|apply Hacc].
      destruct (Z.leb_spec size (b_size b)); [|apply Hacc].
      destruct acc as [d|]; [case_if|]; intros [= <-]; auto; by apply Hacc. }
    specialize (IH _ Hstep). destruct (foldl _ _ _) as [r|].
    + destruct IH as (Hf & Hin & Hmin). split_and!; [done | |].
      * destruct Hin as [Hin|Hin]; [left; by right|]. unfold bf_step in Hin.
        destruct (_ && _); [|by right]. destruct acc as [d|]; [destruct (_ <? _)|];
          simplify_eq; (by right) || (left; by left).
      * intros c Hc Hfc. unfold bf_step in Hmin.
        destruct (b_free b && (size <=? b_size b)) eqn:Eb; zbool.
        -- assert (Hb : b_size r <= b_size b /\ forall d, acc = Some d -> b_size r <= b_size d).
           { assert (fits size b) as Hfb by done.
             destruct acc as [d|]; [destruct (b_size b <? b_size d) eqn:E; zbool|].
             - split; [apply Hmin; auto | intros d' [= <-]].
               pose proof (Hmin b (or_intror eq_refl) Hfb). lia.
             - pose proof (Hmin d (or_intror eq_refl) (Hacc d eq_refl)).
               split; [lia | intros d' [= <-]; lia].
             - split; [apply Hmin; auto | done]. }
           destruct Hc as [[-> | Hc]%elem_of_cons | Hc]; [tauto | auto | by apply Hb].
        -- destruct Hc as [[-> | Hc]%elem_of_cons | Hc]; [| auto..].
           destruct Hfc as [E1 E2]. rewrite E1, (proj2 (Z.leb_le _ _) E2) in Eb. done.
    + destruct IH as [Hn Hno]. unfold bf_step in Hn.
      destruct (b_free b && (size <=? b_size b)) eqn:Eb.
      { destruct acc; [destruct (_ <? _)|]; done. }
      split; [done|]. intros c [-> | Hc]%elem_of_cons; [|auto]. intros [E1 E2].
      rewrite E1, (proj2 (Z.leb_le _ _) E2) in Eb. done.
Qed.

Lemma best_fit_spec size bs :
  match best_fit size bs with
  | Some b => fits size b /\ b ∈ bs /\ forall c, c ∈ bs -> fits size c -> b_size b <= b_size c
  | None => forall c, c ∈ bs -> ~ fits size c
  end.
Proof.
  unfold best_fit. pose proof (best_fit_acc size bs None ltac:(done)) as H.
  destruct (foldl _ _ _) as [b|]; [|apply H].
  destruct H as (H1 & [H2|H2] & H3); [|done]. split_and!; auto.
Qed.

(** ** Taking a block *)

(** The blocks a chosen block is turned into. *)
Definition take (size : Z) (b : blk) : list blk :=
  if size + HEADER_SIZE + 16 <=? b_size b then
    [Blk (b_addr b) size false;
     Blk (b_addr b + HEADER_SIZE + size) (b_size b - size - HEADER_SIZE) true]
  else [Blk (b_addr b) (b_size b) false].

Lemma take_head size b l q : head_of (take size b ++ l) q = b_addr b.
Proof. unfold take. by case_if. Qed.

Lemma take_tile size b p l1 l2 e :
  16 <= size -> (16 | size) -> tile p (l1 ++ b :: l2) e -> tile p (l1 ++ take size b ++ l2) e.
Proof.
  intros Hs Hd. rewrite !tile_app. intros (q & H1 & <- & Hb & Hbd & H2). exists (b_addr b). split; [done|].
  unfold take, HEADER_SIZE in *. case_if; cbn.
  - split_and!; try done; [lia | |].
    + replace (b_size b - size - 32) with (b_size b - (size + 32)) by lia.
      apply Z.divide_sub_r; [done|]. apply Z.divide_add_r; [done | by exists 2].
    + unfold HEADER_SIZE.
      by replace (b_addr b + 32 + size + 32 + (b_size b - size - 32)) with (b_addr b + 32 + b_size b) by lia.
  - by split_and!.
Qed.

Lemma take_coalesced size b l1 l2 :
  b_free b = true -> coalesced (l1 ++ b :: l2) -> coalesced (l1 ++ take size b ++ l2).
Proof.
  intros Hb. rewrite !coalesced_app. cbn [coalesced]. intros (H1 & [H2 H3] & H4).
  unfold take. case_if; cbn; destruct l2 as [|c l2]; cbn in *; rewrite ?Hb in H2; cbn in H2;
    split_and!; try tauto; destruct (last l1); try done; by rewrite andb_false_r.
Qed.

Lemma in_use_cons b l : in_use (b :: l) = if b_free b then in_use l else b :: in_use l.
Proof. unfold in_use. rewrite filter_cons. by destruct (b_free b). Qed.
Lemma in_use_app l1 l2 : in_use (l1 ++ l2) = in_use l1 ++ in_use l2.
Proof. apply filter_app. Qed.

Lemma take_in_use size b l1 l2 :
  b_free b = true ->
  exists n, in_use (l1 ++ take size b ++ l2) ≡ₚ Blk (b_addr b) n false :: in_use (l1 ++ b :: l2) /\
    (n = size \/ (n = b_size b /\ b_size b < size + HEADER_SIZE + 16)).
Proof.
  intros Hb. unfold take. case_if; [exists size | exists (b_size b)];
    (split; [|auto || lia]); rewrite !in_use_app, !in_use_cons, Hb; cbn;
    by rewrite <- Permutation_middle.
Qed.

(** ** Growing the list by a free block at [e] *)

Definition grow (E e : Z) (l : list blk) (b : blk) : list blk :=
  if b_free b then l ++ [Blk (b_addr b) (b_size b + (HEADER_SIZE + (E - HEADER_SIZE))) true]
  else l ++ [b; Blk e (E - HEADER_SIZE) true].

Lemma grow_tile E e p l b :
  HEADER_SIZE + 16 <= E -> (16 | E) -> tile p (l ++ [b]) e -> tile p (grow E e l b) (e + E).
Proof.
  intros HE Hd Ht. unfold grow, HEADER_SIZE in *.
  assert (Hd' : (16 | E - 32)) by (apply Z.divide_sub_r; [done | by exists 2]).
  apply tile_app in Ht as (q & T1 & <- & Hs & Hbd & <-). unfold HEADER_SIZE in *.
  case_if; apply tile_app; exists (b_addr b); (split; [done|]); cbn; unfold HEADER_SIZE.
  - split_and!; try lia. apply Z.divide_add_r; [done|]. by replace (32 + (E - 32)) with E by lia.
  - split_and!; try done; lia.
Qed.

Lemma grow_coalesced E e l b : coalesced (l ++ [b]) -> coalesced (grow E e l b).
Proof.
  unfold grow. rewrite coalesced_app. intros (H1 & _ & H3).
  destruct (b_free b) eqn:Eb; apply coalesced_app; cbn; split_and!; try done.
  - by rewrite Eb.
  - destruct (last l); [|done]. by rewrite Eb in *.
Qed.

Lemma grow_in_use E e l b : in_use (grow E e l b) = in_use (l ++ [b]).
Proof.
  unfold grow. destruct (b_free b) eqn:Eb; rewrite !in_use_app, !in_use_cons, ?Eb; done.
Qed.

Lemma grow_fits E e l b size :
  size + HEADER_SIZE <= E -> 0 <= b_size b -> exists c, c ∈ grow E e l b /\ fits size c.
Proof.
  intros HE Hb. unfold grow, fits, HEADER_SIZE in *. destruct (b_free b) eqn:Eb.
  - eexists. split; [by apply elem_of_app; right; left|]. cbn. split; [done | lia].
  - eexists. split; [apply elem_of_app; right; right; by left|]. cbn. split; [done | lia].
Qed.

(** ** Coalescing *)

Definition merge (b c : blk) : blk :=
  Blk (b_addr b) (b_size b + (HEADER_SIZE + b_size c)) (b_free b).

(** The list the sweep from [b] on leaves. *)
Fixpoint sweep (b : blk) (l : list blk) : list blk :=
  match l with
  | [] => [b]
  | c :: l' => if b_free b && b_free c then sweep (merge b c) l' else b :: sweep c l'
  end.

Lemma sweep_head b l : exists d t, sweep b l = d :: t /\ b_free d = b_free b /\ b_addr d = b_addr b.
Proof.
  revert b. induction l as [|c l IH]; intros b; cbn; [eauto|].
  case_if; [|eauto]. destruct (IH (merge b c)) as (d & t & -> & Hd & Ha). eauto.
Qed.

Lemma sweep_coalesced b l : coalesced (sweep b l).
Proof.
  revert b. induction l as [|c l IH]; intros b; cbn; [done|].
  destruct (b_free b && b_free c) eqn:E; [apply IH|]. cbn.
  destruct (sweep_head c l) as (d & t & Hd & Hf & _). split; [|apply IH]. by rewrite Hd, Hf.
Qed.

Lemma sweep_in_use b l : in_use (sweep b l) = in_use (b :: l).
Proof.
  revert b. induction l as [|c l IH]; intros b; cbn; [done|].
  destruct (b_free b) eqn:Eb, (b_free c) eqn:Ec; cbn; rewrite ?in_use_cons, ?Eb, ?Ec.
  - rewrite IH. rewrite in_use_cons. cbn. by rewrite Eb.
  - rewrite IH, in_use_cons. by rewrite Ec.
  - rewrite IH, in_use_cons. by rewrite Ec.
  - rewrite IH, in_use_cons. by rewrite Ec.
Qed.

(** The blocks in use after [b] was marked free and the list swept. *)
Lemma freed_in_use b l1 l2 bs' :
  b_free b = false ->
  bs' = match l1 ++ Blk (b_addr b) (b_size b) true :: l2 with [] => [] | c :: r => sweep c r end ->
  in_use (l1 ++ b :: l2) ≡ₚ b :: in_use bs'.
Proof.
  intros Hf ->.
  assert (Heq : in_use (match l1 ++ Blk (b_addr b) (b_size b) true :: l2 with
                  [] => [] | c :: r => sweep c r end) = in_use (l1 ++ l2)).
  { transitivity (in_use (l1 ++ Blk (b_addr b) (b_size b) true :: l2)).
    - destruct l1; cbn; apply sweep_in_use.
    - by rewrite !in_use_app, in_use_cons. }
  rewrite Heq, !in_use_app, in_use_cons, Hf. by rewrite Permutation_middle.
Qed.

Lemma merge_tile p b c l e : tile p (b :: c :: l) e -> tile p (merge b c :: l) e.
Proof.
  cbn. intros (<- & Hb & Hbd & Hc & Hcs & Hcd & Ht). unfold HEADER_SIZE in *. split_and!; try done; [lia | |].
  - apply Z.divide_add_r; [done|]. apply Z.divide_add_r; [by exists 2 | done].
  - by replace (b_addr b + 32 + (b_size b + (32 + b_size c)))
      with (b_addr b + 32 + b_size b + 32 + b_size c) by lia.
Qed.

Lemma sweep_tile p b l e : tile p (b :: l) e -> tile p (sweep b l) e.
Proof.
  revert p b. induction l as [|c l IH]; intros p b Ht; [done|]. cbn [sweep].
  destruct (_ && _); [by apply IH, merge_tile|]. destruct Ht as (H1 & H2 & H3 & H4).
  cbn. split_and!; try done. by apply IH.
Qed.

Section proofs.
Context {S : Type} `{!PageSource S}.
Implicit Types s : heap S.

Lemma wp_hdr p h (Q : HEAP_HEADER -> heap S -> Prop) s :
  h_mem s !! p = Some h -> Q h s -> wp (hdr p) Q s.
Proof. intros Hp HQ. unfold hdr. wp_steps. by eapply wp_opt. Qed.

Lemma wp_find_best fuel size bs acc s :
  lseg (h_mem s) bs 0 -> (length bs <= fuel)%nat -> 0 <= size ->
  (forall b, b ∈ bs -> 0 < b_addr b /\ b_size b < 2 ^ 63) ->
  (forall c, acc = Some c -> fits size c /\ b_size c < 2 ^ 63) ->
  wp (find_best fuel size (head_of bs 0) (from_option b_addr 0 acc)
        (from_option (fun c => b_size c - size) 0xFFFFFFFFFFFFFFFF acc))
    (fun r s' => s' = s /\ r = from_option b_addr 0 (foldl (bf_step size) acc bs)) s.
Proof.
  revert fuel acc. induction bs as [|b bs IH]; intros fuel acc Hs Hf Hsz Hb Hacc.
  - destruct fuel; cbn; by wp_steps.
  - cbn in Hf. destruct fuel as [|fuel]; [lia|]. destruct Hs as [Hm Hs].
    destruct (Hb b ltac:(by left)) as [Hba Hbs].
    cbn [find_best head_of foldl]. rewrite (proj2 (Z.eqb_neq _ _)) by lia.
    apply wp_bind. eapply wp_hdr; [done|]. cbn [h_is_free h_size h_next].
    assert (Hb' : forall b0, b0 ∈ bs -> 0 < b_addr b0 /\ b_size b0 < 2 ^ 63).
    { intros b0 H0. apply Hb. by right. }
    assert (negb (Z.b2z (b_free b) =? 0) = b_free b) as -> by by destruct (b_free b).
    unfold bf_step at 2. destruct (b_free b && (size <=? b_size b)) eqn:E; [|apply IH; auto; lia].
    zbool. rewrite u64_small by lia.
    destruct acc as [c|]; cbn [from_option].
    + assert ((b_size b - size <? b_size c - size) = (b_size b <? b_size c)) as ->.
      { destruct (Z.ltb_spec (b_size b - size) (b_size c - size)),
          (Z.ltb_spec (b_size b) (b_size c)); lia. }
      destruct (b_size b <? b_size c).
      * apply (IH fuel (Some b)); auto; [lia|]. intros ? [= <-]. by split.
      * apply (IH fuel (Some c)); auto; lia.
    + rewrite (proj2 (Z.ltb_lt _ _)) by lia.
      apply (IH fuel (Some b)); auto; [lia|]. intros ? [= <-]. by split.
Qed.

Lemma wp_take_block size b l1 l2 p e s :
  lseg (h_mem s) (l1 ++ b :: l2) 0 -> tile p (l1 ++ b :: l2) e -> 0 < p -> e <= HEAP_LIMIT ->
  16 <= size -> fits size b ->
  wp (take_block size (b_addr b))
    (fun a s' => a = b_addr b + HEADER_SIZE /\
       s' = set_heap_lock false (set_h_mem (h_mem s') s) /\
       lseg (h_mem s') (l1 ++ take size b ++ l2) 0) s.
Proof.
  intros Hs Ht Hp He Hsz [Hfree Hfit]. pose proof (tile_NoDup _ _ _ Ht) as Hnd.
  pose proof (tile_in _ _ _ b Ht ltac:(set_solver)) as (Hlo & Hhi & Hb16 & _).
  rewrite map_app in Hnd. cbn in Hnd. apply NoDup_app in Hnd as (_ & Hd1 & [Hd2 _]%NoDup_cons).
  assert (Hn1 : b_addr b ∉ map b_addr l1).
  { intros H. by apply (Hd1 _ H), elem_of_cons; left. }
  apply lseg_app in Hs as [S1 [Sb S2]]. cbn in S1.
  unfold HEADER_SIZE, HEAP_LIMIT in *. unfold take_block, put_hdr, heap_unlock_irq, HEADER_SIZE.
  apply wp_bind. eapply wp_hdr; [done|]. cbn [h_size h_is_free h_next]. wp_steps.
  rewrite (u64_small (size + 32 + 16)), (u64_small (b_addr b + 32)) by lia.
  unfold take, HEADER_SIZE. destruct (size + 32 + 16 <=? b_size b) eqn:E; zbool; wp_steps.
  - rewrite !u64_small by lia. set (n := b_addr b + 32 + size).
    eapply wp_hdr; [cbn; by rewrite lookup_insert_eq|]. wp_steps. split_and!; [done..|].
    cbn [h_mem set_heap_lock set_h_mem h_size h_next].
    apply tile_app in Ht as (q & T1 & <- & _ & _ & T2).
    assert (n ∉ map b_addr l1) by (intros Hin%(tile_addr _ _ _ _ T1); unfold n in *; lia).
    assert (n ∉ map b_addr l2).
    { intros Hin%(tile_addr _ _ _ _ T2). unfold n, HEADER_SIZE in *. lia. }
    assert (n <> b_addr b) by (unfold n; lia).
    apply lseg_app. split; [by repeat apply lseg_insert|]. cbn. rewrite insert_insert_eq.
    rewrite lookup_insert_eq, lookup_insert_ne, lookup_insert_eq by done.
    split_and!; try done. by repeat apply lseg_insert.
  - eapply wp_hdr; [done|]. wp_steps. split_and!; [done..|].
    cbn [h_mem set_heap_lock set_h_mem h_size h_next].
    apply lseg_app. split; [by apply lseg_insert|]. cbn. rewrite lookup_insert_eq.
    split; [done|]. by apply lseg_insert.
Qed.

Lemma wp_expand_pages n s :
  ps_ok (h_src s) -> (PAGE_SIZE | g_heap_current_end s) ->
  KERNEL_HEAP_VIRTUAL_BASE <= g_heap_current_end s ->
  g_heap_current_end s + Z.of_nat n * PAGE_SIZE <= HEAP_LIMIT ->
  (4 * n <= ps_free (h_src s))%nat ->
  (forall va, KERNEL_HEAP_VIRTUAL_BASE <= va < g_heap_current_end s -> is_Some (ps_walk (h_src s) va)) ->
  wp (loop n 0 expand_page tt)
    (fun r s' => r = inl tt /\ s' = set_h_src (h_src s') s /\ ps_ok (h_src s') /\
       (ps_free (h_src s) <= ps_free (h_src s') + 4 * n)%nat /\
       forall va, KERNEL_HEAP_VIRTUAL_BASE <= va < g_heap_current_end s + Z.of_nat n * PAGE_SIZE ->
         is_Some (ps_walk (h_src s') va)) s.
Proof.
  intros Hok [q Hq] Hlo Hhi Hfree Hmap. unfold KERNEL_HEAP_VIRTUAL_BASE, HEAP_LIMIT, PAGE_SIZE in *.
  apply (wp_loop (fun k (_ : unit) s' =>
    0 <= k /\ s' = set_h_src (h_src s') s /\ ps_ok (h_src s') /\
    (ps_free (h_src s) <= ps_free (h_src s') + 4 * Z.to_nat k)%nat /\
    forall va, 0xFFFF800040000000 <= va < g_heap_current_end s + k * 4096 ->
      is_Some (ps_walk (h_src s') va))).
  - split_and!; try done; [by destruct s | lia|]. intros va Hva. apply Hmap. lia.
  - intros k [] s' Hk (Hk0 & Hs' & Hok' & Hf' & Hm'). unfold expand_page, h_on_src. wp_steps.
    eapply wp_mono; [by apply ps_alloc_spec|]. cbn beta.
    intros a x (Hokx & Hwx & [(-> & -> & H0)|(f & Hf & -> & Hfx)]); [lia|].
    unfold PAGE_SIZE at 1. rewrite (proj2 (Z.eqb_neq _ _)) by lia. wp_steps.
    assert (He : g_heap_current_end (set_h_src x s') = g_heap_current_end s) by (by rewrite Hs').
    rewrite He. unfold PAGE_SIZE at 1. rewrite u64_small by lia.
    eapply wp_mono.
    { apply ps_map_spec; cbn; try done; [lia | | lia].
      right. unfold KERNEL_VIRTUAL_BASE. lia. }
    cbn beta. intros _ y (Hoky & Hfy & Hhere & Hthere). cbn in Hfy. wp_steps.
    split_and!; cbn; try done; [lia | by rewrite Hs' | lia |].
    intros va Hva. destruct (Z.eq_dec (va / PAGE_SIZE) ((g_heap_current_end s + k * 4096) / PAGE_SIZE)) as [E|E].
    + rewrite Hhere by done. eauto.
    + rewrite Hthere; [cbn; rewrite Hwx; apply Hm' | | done].
      * unfold PAGE_SIZE in E. split; [lia|]. rewrite Hq in *. zdiv_lia.
      * right. unfold KERNEL_VIRTUAL_BASE. lia.
  - intros [] s' (_ & H1 & H2 & H3 & H4). split_and!; try done; lia.
Qed.

Lemma wp_find_last fuel l b s :
  lseg (h_mem s) (l ++ [b]) 0 -> (length l <= fuel)%nat ->
  (forall c, c ∈ l ++ [b] -> 0 < b_addr c) ->
  wp (find_last fuel (head_of (l ++ [b]) 0)) (fun r s' => s' = s /\ r = b_addr b) s.
Proof.
  revert fuel. induction l as [|c l IH]; intros fuel Hs Hf Hpos.
  - destruct Hs as [Hb _]. destruct fuel; cbn; (apply wp_bind; eapply wp_hdr; [done|]); by wp_steps.
  - destruct Hs as [Hc Hs]. cbn in Hf. destruct fuel as [|fuel]; [lia|]. cbn [find_last app head_of].
    apply wp_bind. eapply wp_hdr; [done|]. cbn [h_next]. fold (app l [b]).
    assert (head_of (l ++ [b]) 0 <> 0).
    { assert (0 < head_of (l ++ [b]) 0); [|lia]. destruct l as [|d l]; apply Hpos; cbn; right; by left. }
    rewrite (proj2 (Z.eqb_neq _ _)) by done. apply IH; [done | lia|].
    intros d Hd. apply Hpos. by right.
Qed.

Lemma expansion_size_spec size :
  0 <= size < 2 ^ 40 ->
  (PAGE_SIZE | expansion_size size) /\ 2 ^ 20 <= expansion_size size /\
  size + HEADER_SIZE <= expansion_size size <= Z.max (2 ^ 20) (size + HEADER_SIZE + PAGE_SIZE).
Proof.
  intros Hs. unfold expansion_size, HEADER_SIZE, PAGE_SIZE. rewrite !u64_small by lia.
  case_if; [|split_and!; [by exists 256 | lia..]].
  change (4096 - 1) with (2 ^ 12 - 1). rewrite land_align by lia. change (2 ^ 12) with 4096.
  split_and!; [apply Z.divide_factor_r | zdiv_lia..].
Qed.

(** Blocks of a well-formed heap have addresses and sizes in range. *)
Lemma heap_wf_blk s bs b :
  heap_wf s bs -> b ∈ bs -> 0 < b_addr b /\ 16 <= b_size b < 2 ^ 63 /\
  KERNEL_HEAP_VIRTUAL_BASE <= b_addr b < g_heap_current_end s.
Proof.
  intros H Hb. pose proof (tile_in _ _ _ _ (ho_tile _ _ H) Hb). pose proof (ho_end _ _ H).
  unfold KERNEL_HEAP_VIRTUAL_BASE, HEAP_LIMIT, HEADER_SIZE in *. lia.
Qed.

Lemma wp_link_space E l b s :
  let e := g_heap_current_end s in
  lseg (h_mem s) (l ++ [b]) 0 -> g_heap_start s = KERNEL_HEAP_VIRTUAL_BASE ->
  tile KERNEL_HEAP_VIRTUAL_BASE (l ++ [b]) e -> e + E <= HEAP_LIMIT -> HEADER_SIZE + 16 <= E ->
  wp (link_space E)
    (fun _ s' => s' = set_h_mem (h_mem s') (set_heap_end (e + E) s) /\
       lseg (h_mem s') (grow E e l b) 0) s.
Proof.
  intros e Hs Hst Ht Hlim HE. unfold link_space, put_hdr, list_fuel. wp_steps.
  cbn [h_mem set_h_mem set_heap_end g_heap_start g_heap_current_end]. rewrite Hst. fold e.
  unfold KERNEL_HEAP_VIRTUAL_BASE, HEAP_LIMIT, HEADER_SIZE in *.
  pose proof (tile_le _ _ _ Ht) as Hle. rewrite (u64_small (E - 32)), (u64_small (e + E)) by lia.
  set (m1 := <[e := _]> (h_mem s)).
  assert (He_new : e ∉ map b_addr (l ++ [b])) by (intros Hin%(tile_addr _ _ _ _ Ht); lia).
  assert (Hs' : lseg m1 (l ++ [b]) 0) by by apply lseg_insert.
  assert (Hin : b ∈ l ++ [b]) by (apply elem_of_app; right; by left).
  destruct (tile_in _ _ _ b Ht Hin) as (Hb1 & Hb2 & Hb3 & _). unfold HEADER_SIZE in Hb2.
  assert (0xFFFF800040000000 = head_of (l ++ [b]) 0) as ->.
  { destruct l; cbn in Ht |- *; by destruct Ht as [-> _]. }
  pose proof (tile_NoDup _ _ _ Ht) as Hnd. eapply wp_mono.
  { apply (wp_find_last _ l b); [done | |].
    - pose proof (lseg_fuel _ _ _ Hs' Hnd) as Hfl. rewrite length_app in Hfl.
      cbn [h_mem set_h_mem set_heap_end]. fold m1. lia.
    - intros c Hc. pose proof (tile_in _ _ _ c Ht Hc). lia. }
  cbn beta. intros r s2 [-> ->]. rewrite map_app in Hnd, He_new.
  apply NoDup_app in Hnd as (_ & Hd1 & _).
  apply not_elem_of_app in He_new as [Hel Heb]. cbn in Heb. apply not_elem_of_cons in Heb as [Hne _].
  assert (Hbl : b_addr b ∉ map b_addr l) by (intros H; by apply (Hd1 _ H); left).
  apply lseg_app in Hs' as [S1 [Sb _]]. cbn in S1, Sb.
  apply wp_bind. eapply wp_hdr; [cbn [h_mem set_h_mem set_heap_end]; exact Sb|].
  cbn [h_size h_is_free h_next]. wp_steps. unfold grow, HEADER_SIZE.
  destruct (b_free b) eqn:Ef; cbn [Z.b2z Z.eqb negb]; wp_steps.
  - eapply wp_hdr; [cbn [h_mem set_h_mem set_heap_end]; rewrite lookup_insert_ne by done; apply lookup_insert_eq|].
    cbn [h_size h_next]. wp_steps. split; [done|]. cbn [h_mem set_h_mem set_heap_end].
    rewrite insert_insert_eq, u64_small by lia.
    apply lseg_app. split; [by apply lseg_insert|]. cbn. by rewrite lookup_insert_eq.
  - split; [done|]. cbn [h_mem set_h_mem set_heap_end].
    apply lseg_app. split; [by apply lseg_insert|]. cbn. rewrite lookup_insert_eq, Ef.
    rewrite lookup_insert_ne by done. unfold m1. by rewrite lookup_insert_eq.
Qed.

Lemma wp_expand_heap size l b s :
  let E := expansion_size size in
  heap_wf s (l ++ [b]) -> 0 <= size < 2 ^ 40 -> g_heap_current_end s + E <= HEAP_LIMIT ->
  (4 * Z.to_nat (E / PAGE_SIZE) <= ps_free (h_src s))%nat ->
  wp (expand_heap size)
    (fun r s' => r = inl tt /\ g_heap_lock s' = g_heap_lock s /\
       g_heap_current_end s' = g_heap_current_end s + E /\
       (ps_free (h_src s) <= ps_free (h_src s') + 4 * Z.to_nat (E / PAGE_SIZE))%nat /\
       heap_wf s' (grow E (g_heap_current_end s) l b)) s.
Proof.
  intros E Hwf Hsz Hlim Hfree. destruct (expansion_size_spec size Hsz) as (HEp & HE1 & HE2).
  fold E in HEp, HE1, HE2. unfold expand_heap. fold E. set (e := g_heap_current_end s) in *.
  pose proof Hwf as [Hok Hs Hst Ht _ He Hp Hc Hm]. fold e in Ht, He, Hp, Hm.
  assert (Hn : (E + PAGE_SIZE - 1) / PAGE_SIZE = E / PAGE_SIZE).
  { destruct HEp as [k ->]. unfold PAGE_SIZE. zdiv_lia. }
  rewrite Hn. pose proof (tile_le _ _ _ Ht) as Hle.
  assert (HE : Z.of_nat (Z.to_nat (E / PAGE_SIZE)) * PAGE_SIZE = E).
  { destruct HEp as [k ->]. unfold PAGE_SIZE in *. rewrite Z.div_mul by lia. lia. }
  apply wp_bind. eapply wp_mono.
  { apply wp_expand_pages; try done. rewrite HE. done. }
  cbn beta. rewrite HE. fold e. intros r s1 (-> & Hs1 & Hok1 & Hf1 & Hm1). wp_steps.
  set (x := h_src s1) in *. clearbody x. subst s1.
  eapply wp_mono; [apply (wp_link_space E l b)|]; try done.
  { unfold HEADER_SIZE. lia. }
  cbn [g_heap_current_end set_h_src]. fold e. intros _ s2 [Hs2 Hseg]. wp_steps.
  set (m2 := h_mem s2) in *. clearbody m2. subst s2. split_and!; [done..|]. split; cbn; try done.
  - apply grow_tile; [unfold HEADER_SIZE; lia | | done].
    destruct HEp as [k ->]. exists (k * 256). unfold PAGE_SIZE. lia.
  - unfold grow. destruct (b_free b); by destruct l.
  - by apply Z.divide_add_r.
  - by apply grow_coalesced.
Qed.

(** A round of the search. *)
Lemma wp_search size bs s (Q : Z -> heap S -> Prop) :
  heap_wf s bs -> 0 <= size -> Q (from_option b_addr 0 (best_fit size bs)) s ->
  wp (start <-- kgets g_heap_start ;;
      fuel <-- list_fuel ;;
      find_best fuel size start 0 0xFFFFFFFFFFFFFFFF) Q s.
Proof.
  intros Hwf Hsz HQ. unfold list_fuel. wp_steps. pose proof Hwf as [Hok Hs Hst Ht Hne He Hp Hc Hm].
  rewrite Hst. eapply wp_mono.
  - assert (KERNEL_HEAP_VIRTUAL_BASE = head_of bs 0) as ->.
    { destruct bs; [done|]. cbn in Ht |- *. by destruct Ht as [-> _]. }
    apply (wp_find_best _ size bs None); try done.
    + pose proof (lseg_fuel _ _ _ Hs (tile_NoDup _ _ _ Ht)). lia.
    + intros b Hb. destruct (heap_wf_blk s bs b Hwf Hb) as (H1 & H2 & _). lia.
  - cbn beta. intros r s' [-> ->]. exact HQ.
Qed.

(** What taking block [b] out of [bs] gives. *)
Lemma wp_take size bs b s :
  heap_wf s bs -> b ∈ bs -> fits size b -> 16 <= size -> (16 | size) ->
  wp (take_block size (b_addr b))
    (fun a s' => exists l1 l2, bs = l1 ++ b :: l2 /\ a = b_addr b + HEADER_SIZE /\
       h_src s' = h_src s /\ g_heap_current_end s' = g_heap_current_end s /\
       heap_ok s' (l1 ++ take size b ++ l2)) s.
Proof.
  intros Hwf (l1 & l2 & ->)%list_elem_of_split Hfit Hsz Hd.
  pose proof Hwf as [Hok Hs Hst Ht Hne He Hp Hc Hm].
  eapply wp_mono; [by eapply (wp_take_block size b l1 l2)|]. cbn beta. intros a s' (-> & Hs' & Hseg).
  set (m := h_mem s') in *. clearbody m. subst s'. exists l1, l2. split_and!; [done..|].
  split; [done|]. split; cbn; try done.
  - by apply take_tile.
  - unfold take. destruct (_ <=? _), l1; done.
  - by apply take_coalesced; [apply Hfit|].
Qed.

(** The two ways [retry_search] can be served. *)
Definition servable (size : Z) (s : heap S) (bs : list blk) : Prop :=
  (exists b, b ∈ bs /\ fits size b) \/
  (g_heap_current_end s + expansion_size size <= HEAP_LIMIT /\
   (4 * Z.to_nat (expansion_size size / PAGE_SIZE) <= ps_free (h_src s))%nat).

Lemma best_fit_some size bs b0 :
  b0 ∈ bs -> fits size b0 ->
  exists b, best_fit size bs = Some b /\ b ∈ bs /\ fits size b /\
    forall c, c ∈ bs -> fits size c -> b_size b <= b_size c.
Proof.
  intros Hin Hf. pose proof (best_fit_spec size bs) as H. destruct (best_fit size bs) as [b|].
  - exists b. tauto.
  - by apply H in Hf.
Qed.

(** A round in which a block fits. *)
Lemma wp_retry_fit n size bs b0 s :
  heap_wf s bs -> b0 ∈ bs -> fits size b0 -> 16 <= size -> (16 | size) ->
  wp (retry_search n size)
    (fun a s' => exists b l1 l2, bs = l1 ++ b :: l2 /\ fits size b /\
       (forall c, c ∈ bs -> fits size c -> b_size b <= b_size c) /\
       a = b_addr b + HEADER_SIZE /\ h_src s' = h_src s /\
       g_heap_current_end s' = g_heap_current_end s /\ heap_ok s' (l1 ++ take size b ++ l2)) s.
Proof.
  intros Hwf Hin Hf Hsz Hd. destruct (best_fit_some size bs b0 Hin Hf) as (b & Hb & Hbin & Hbf & Hmin).
  assert (H : wp (start <-- kgets g_heap_start ;; fuel <-- list_fuel ;;
    find_best fuel size start 0 0xFFFFFFFFFFFFFFFF) (fun r s' => r = b_addr b /\ s' = s) s).
  { apply (wp_search size bs); [done | lia|]. by rewrite Hb. }
  destruct n; cbn [retry_search]; unfold list_fuel in *; wp_steps;
    (eapply wp_mono; [exact H|]); cbn beta; intros r s1 [-> ->];
    destruct (heap_wf_blk s bs b Hwf Hbin) as (Hb0 & _);
    rewrite (proj2 (Z.eqb_neq _ _)) by lia;
    (eapply wp_mono; [by apply (wp_take size bs b)|]); cbn beta;
    intros a s' (l1 & l2 & ? & ? & ? & ? & ?); by exists b, l1, l2.
Qed.

(** What an allocation of [n] bytes at [a] leaves, and what it may have cost. *)
Record allocated (s : heap S) (size a : Z) (bs : list blk) (s' : heap S) (bs' : list blk) (n : Z) : Prop := {
  al_ok : heap_ok s' bs';
  al_use : in_use bs' ≡ₚ Blk (a - HEADER_SIZE) n false :: in_use bs;
  al_size : size <= n;
  al_end : g_heap_current_end s <= g_heap_current_end s' <= g_heap_current_end s + expansion_size size;
  al_frames : (ps_free (h_src s) <= ps_free (h_src s') + 4 * Z.to_nat (expansion_size size / PAGE_SIZE))%nat
}.

Lemma taken size bs b l1 l2 s s' :
  bs = l1 ++ b :: l2 -> fits size b -> heap_ok s' (l1 ++ take size b ++ l2) ->
  g_heap_current_end s <= g_heap_current_end s' <= g_heap_current_end s + expansion_size size ->
  (ps_free (h_src s) <= ps_free (h_src s') + 4 * Z.to_nat (expansion_size size / PAGE_SIZE))%nat ->
  exists bs' n, allocated s size (b_addr b + HEADER_SIZE) bs s' bs' n.
Proof.
  intros -> [Hf Hs] Hok He Hfr. destruct (take_in_use size b l1 l2 Hf) as (n & Hn & Hsz).
  exists (l1 ++ take size b ++ l2), n. split; [done | | lia | done..].
  by replace (b_addr b + HEADER_SIZE - HEADER_SIZE) with (b_addr b) by lia.
Qed.

Lemma wp_retry size bs s :
  heap_wf s bs -> servable size s bs -> 16 <= size < 2 ^ 40 -> (16 | size) ->
  wp (retry_search 1 size) (fun a s' => exists bs' n, allocated s size a bs s' bs' n) s.
Proof.
  intros Hwf Hsv Hsz Hd. pose proof (best_fit_spec size bs) as Hbest.
  destruct (best_fit size bs) as [b|] eqn:Eb.
  - destruct Hbest as (Hbf & Hbin & _). eapply wp_mono; [apply (wp_retry_fit 1 size bs b); done || lia|].
    cbn beta. intros a s' (c & l1 & l2 & -> & Hcf & _ & -> & Hsrc & Hend & Hok).
    destruct (expansion_size_spec size) as (_ & ? & _); [lia|].
    eapply taken; [done..| |]; rewrite ?Hsrc, ?Hend; unfold HEADER_SIZE in *; lia.
  - destruct Hsv as [(b & Hb & Hf)|[Hlim Hfree]]; [by apply Hbest in Hf|].
    assert (exists l b, bs = l ++ [b]) as (l & b & ->).
    { pose proof (ho_ne _ _ Hwf). destruct bs as [|c bs] using rev_ind; [done|]. eauto. }
    assert (H : wp (start <-- kgets g_heap_start ;; fuel <-- list_fuel ;;
      find_best fuel size start 0 0xFFFFFFFFFFFFFFFF) (fun r s' => r = 0 /\ s' = s) s).
    { apply (wp_search size (l ++ [b])); [done | lia|]. by rewrite Eb. }
    cbn [retry_search]. unfold list_fuel in *. wp_steps. eapply wp_mono; [exact H|].
    cbn beta. intros r s1 [-> ->]. cbn [Z.eqb]. wp_steps.
    eapply wp_mono; [apply (wp_expand_heap size l b); done || lia|]. cbn beta.
    intros r s2 (-> & Hl2 & He2 & Hf2 & Hwf2).
    destruct (expansion_size_spec size) as (_ & _ & HE); [lia|].
    destruct (grow_fits (expansion_size size) (g_heap_current_end s) l b size) as (c & Hc & Hcf); [lia| |].
    { destruct (heap_wf_blk s (l ++ [b]) b Hwf) as (_ & ? & _); [apply elem_of_app; right; by left | lia]. }
    eapply wp_mono; [apply (wp_retry_fit 0 size _ c s2 Hwf2 Hc Hcf); done || lia|].
    cbn beta. intros a s' (d & l1 & l2 & Heq & Hdf & _ & -> & Hsrc & Hend & Hok).
    destruct (expansion_size_spec size) as (_ & ? & _); [lia|].
    destruct (taken size _ d l1 l2 s s' Heq Hdf Hok) as (bs' & n & [H1 H2 H3 H4 H5]); [rewrite Hend, He2; unfold HEADER_SIZE in *; lia|by rewrite Hsrc|].
    exists bs', n. split; [done | | done..]. by rewrite grow_in_use in H2.
Qed.

(** The size [kmalloc] really serves. *)
Definition rounded (size : Z) : Z := (size + 15) / 16 * 16.

(** [kmalloc] takes the lock and searches for the rounded size. *)
Lemma wp_kmalloc_round size s (Q : Z -> heap S -> Prop) :
  g_heap_lock s = false -> 0 < size < 2 ^ 64 - 15 ->
  wp (retry_search 1 (rounded size)) Q (set_heap_lock true s) -> wp (kmalloc size) Q s.
Proof.
  intros Hl Hsz HQ. unfold kmalloc. rewrite (proj2 (Z.eqb_neq _ _)) by lia.
  unfold heap_lock_irq. wp_steps. rewrite Hl. wp_steps.
  rewrite (u64_small (size + 15)) by lia. change 15 with (2 ^ 4 - 1) at 2.
  rewrite land_align by lia. exact HQ.
Qed.

Lemma wp_kmalloc size bs s :
  heap_ok s bs -> servable (rounded size) s bs -> 0 < size < 2 ^ 40 - 16 ->
  wp (kmalloc size) (fun a s' => exists bs' n, allocated s (rounded size) a bs s' bs' n) s.
Proof.
  intros [Hl Hwf] Hsv Hsz. apply wp_kmalloc_round; [done | lia|]. eapply wp_mono.
  - apply (wp_retry (rounded size) bs); [by destruct Hwf | done | unfold rounded; zdiv_lia | apply Z.divide_factor_r].
  - cbn beta. intros a s' (bs' & n & [H1 H2 H3 H4 H5]). by exists bs', n.
Qed.

(** The block handed out is aligned, mapped, and overlaps no other. *)
Lemma allocated_facts s size a bs s' bs' n : allocated s size a bs s' bs' n ->
  (16 | a) /\ (forall va, a <= va < a + n -> is_Some (ps_walk (h_src s') va)) /\
  (forall c, c ∈ in_use bs -> a + n <= b_addr c \/ b_addr c + HEADER_SIZE + b_size c <= a - HEADER_SIZE) /\
  KERNEL_HEAP_VIRTUAL_BASE + HEADER_SIZE <= a /\ a + n <= HEAP_LIMIT.
Proof.
  intros [[Hl Hwf] Huse Hn _ _]. set (b := Blk (a - HEADER_SIZE) n false) in *.
  assert (Hall : forall c, c ∈ b :: in_use bs -> c ∈ bs').
  { intros c Hc. rewrite <- Huse in Hc. by apply list_elem_of_filter in Hc as [_ ?]. }
  assert (Hb : b ∈ bs') by (apply Hall; by left). pose proof (ho_end _ _ Hwf) as He.
  pose proof (ho_tile _ _ Hwf) as Ht. destruct (tile_in _ _ _ b Ht Hb) as (H1 & H2 & H3 & _). cbn in *.
  split_and!; [| | |lia|unfold HEADER_SIZE in *; lia].
  - apply (Z.divide_add_cancel_r _ (- HEADER_SIZE)); [by exists (-2)|].
    replace (- HEADER_SIZE + a) with (b_addr b) by (cbn; lia).
    apply (tile_addr_div KERNEL_HEAP_VIRTUAL_BASE bs' (g_heap_current_end s')); try done.
    by exists 1152912708580933632.
  - intros va Hva. apply Hwf. unfold HEADER_SIZE in *. lia.
  - intros c Hc. assert (Hc' : c ∈ bs') by (apply Hall; by right).
    destruct (tile_disjoint _ _ _ b c Ht Hb Hc') as [Hbc|[H|H]]; [|cbn in *; lia..].
    rewrite <- Hbc in Hc. assert (NoDup (b :: in_use bs)) as [Hx _]%NoDup_cons; [|done].
    rewrite <- Huse. apply NoDup_filter. eapply NoDup_fmap_1, tile_NoDup, Ht.
Qed.

Lemma wp_coalesce_list fuel l b r p e s :
  lseg (h_mem s) (l ++ b :: r) 0 -> tile p (l ++ b :: r) e -> 0 < p -> e <= HEAP_LIMIT ->
  (length r < fuel)%nat ->
  wp (coalesce_list fuel (b_addr b))
    (fun _ s' => s' = set_h_mem (h_mem s') s /\ lseg (h_mem s') (l ++ sweep b r) 0) s.
Proof.
  revert fuel l b s. induction r as [|c r IH]; intros fuel l b s Hs Ht Hp He Hf;
    (destruct fuel as [|fuel]; [cbn in Hf; lia|]); cbn [coalesce_list].
  all: pose proof (tile_in _ _ _ b Ht ltac:(apply elem_of_app; right; by left)) as (Hb1 & Hb2 & Hb3 & _).
  all: rewrite (proj2 (Z.eqb_neq _ _)) by lia.
  all: pose proof Hs as [S1 [Sb S2]]%lseg_app; apply wp_bind; eapply wp_hdr; [exact Sb|]; cbn in Hf.
  all: cbn [h_is_free h_next h_size head_of]; assert (negb (Z.b2z (b_free b) =? 0) = b_free b) as -> by (by destruct (b_free b)).
  - rewrite andb_false_r. assert (Hz : wp (coalesce_list fuel 0) (fun _ s' => s' = s) s) by by destruct fuel.
    eapply wp_mono; [exact Hz|]. cbn beta. intros _ s' ->. split; [by destruct s | done].
  - pose proof (tile_in _ _ _ c Ht ltac:(apply elem_of_app; right; right; by left)) as (Hc1 & Hc2 & Hc3 & _).
    assert (Hstep : wp (coalesce_list fuel (b_addr c))
      (fun _ s' => s' = set_h_mem (h_mem s') s /\ lseg (h_mem s') (l ++ b :: sweep c r) 0) s).
    { eapply wp_mono; [apply (IH fuel (l ++ [b]) c s); rewrite <- ?app_assoc; done || lia|].
      cbn beta. intros _ s'. by rewrite <- app_assoc. }
    rewrite (proj2 (Z.eqb_neq (b_addr c) 0)) by lia. cbn [sweep]. rewrite andb_true_r.
    destruct (b_free b) eqn:Eb; [|exact Hstep]. destruct S2 as [Sc S2].
    apply wp_bind. eapply wp_hdr; [exact Sc|]. cbn [h_is_free h_next h_size andb].
    destruct (b_free c) eqn:Ec; cbn [Z.b2z Z.eqb negb]; [|exact Hstep].
    assert (Htm : tile p (l ++ merge b c :: r) e).
    { apply tile_app in Ht as (q & T1 & T2). apply tile_app. exists q. split; [done|]. by apply merge_tile. }
    pose proof (tile_in _ _ _ (merge b c) Htm ltac:(apply elem_of_app; right; by left)) as (_ & Hm2 & _).
    cbn in Hm2. unfold put_hdr. wp_steps. unfold HEADER_SIZE, HEAP_LIMIT in *. rewrite u64_small by lia.
    pose proof (tile_NoDup _ _ _ Ht) as Hnd. rewrite map_app in Hnd. cbn in Hnd.
    apply NoDup_app in Hnd as (_ & Hd1 & [Hd2 _]%NoDup_cons). apply not_elem_of_cons in Hd2 as [_ Hd2].
    assert (Hbl : b_addr b ∉ map b_addr l) by (intros H; by apply (Hd1 _ H); left).
    change (b_addr b) with (b_addr (merge b c)) at 1. eapply wp_mono; [apply (IH fuel l (merge b c))|]; try done; try lia.
    cbn. apply lseg_app. split; [by apply lseg_insert|]. cbn. rewrite lookup_insert_eq, Eb.
    split; [done|]. by apply lseg_insert.
Qed.

Lemma wp_kfree b l1 l2 s :
  heap_ok s (l1 ++ b :: l2) ->
  wp (kfree (b_addr b + HEADER_SIZE))
    (fun _ s' => exists bs', heap_ok s' bs' /\ (h_src s' = h_src s /\ g_heap_current_end s' = g_heap_current_end s) /\
       bs' = match l1 ++ Blk (b_addr b) (b_size b) true :: l2 with [] => [] | c :: r => sweep c r end) s.
Proof.
  intros [Hl Hwf]. pose proof Hwf as [Hok Hs Hst Ht _ He Hp Hc Hm].
  assert (Hin : b ∈ l1 ++ b :: l2) by (apply elem_of_app; right; by left).
  destruct (heap_wf_blk s _ b Hwf Hin) as (Hb0 & _ & Hb1).
  set (b' := Blk (b_addr b) (b_size b) true).
  assert (Ht' : tile KERNEL_HEAP_VIRTUAL_BASE (l1 ++ b' :: l2) (g_heap_current_end s)).
  { rewrite !tile_app in *. exact Ht. }
  pose proof (tile_NoDup _ _ _ Ht) as Hnd. rewrite map_app in Hnd. cbn in Hnd.
  apply NoDup_app in Hnd as (_ & Hd1 & [Hd2 _]%NoDup_cons).
  assert (Hbl : b_addr b ∉ map b_addr l1) by (intros H; by apply (Hd1 _ H); left).
  apply lseg_app in Hs as [S1 [Sb S2]]. cbn in S1.
  unfold kfree, HEADER_SIZE, HEAP_LIMIT, heap_lock_irq, put_hdr, list_fuel, heap_unlock_irq in *.
  rewrite (proj2 (Z.eqb_neq _ _)) by lia. wp_steps. rewrite Hl. wp_steps.
  rewrite u64_small by lia. replace (b_addr b + 32 - 32) with (b_addr b) by lia.
  eapply wp_hdr; [exact Sb|]. wp_steps.
  cbn [h_mem g_heap_start set_h_mem set_heap_lock h_size h_next]. rewrite Hst.
  set (m := <[b_addr b := _]> (h_mem s)).
  assert (Hseg : lseg m (l1 ++ b' :: l2) 0).
  { apply lseg_app. split; [by apply lseg_insert|]. cbn. unfold m. rewrite lookup_insert_eq.
    split; [done|]. by apply lseg_insert. }
  destruct (l1 ++ b' :: l2) as [|c r] eqn:Ec; [by destruct l1|].
  assert (KERNEL_HEAP_VIRTUAL_BASE = b_addr c) as -> by by destruct Ht' as [-> _].
  eapply wp_mono.
  { apply (wp_coalesce_list _ [] c r KERNEL_HEAP_VIRTUAL_BASE (g_heap_current_end s)); try done.
    pose proof (lseg_fuel _ _ _ Hseg (tile_NoDup _ _ _ Ht')). cbn [length] in *. cbn. fold m. lia. }
  cbn beta. intros _ s1 [Hs1 Hseg1]. set (m1 := h_mem s1) in *. clearbody m1. subst s1. wp_steps.
  exists (sweep c r). split_and!; try done. split; [done|]. split; cbn; try done.
  - by apply sweep_tile.
  - by destruct (sweep_head c r) as (? & ? & -> & _).
  - apply sweep_coalesced.
Qed.

End proofs.

(** ** Theorems *)

Section theorems.
Context {S : Type} `{!PageSource S}.
Implicit Types s : heap S.

(** [kheap_init] establishes the heap invariant: one free block covers
    the whole initial range, which the memory managers have mapped. *)
Theorem kheap_init_ok (src : S) :
  ps_ok src ->
  (forall va, KERNEL_HEAP_VIRTUAL_BASE <= va < KERNEL_HEAP_VIRTUAL_BASE + KERNEL_HEAP_INITIAL_SIZE ->
     is_Some (ps_walk src va)) ->
  wp kheap_init
    (fun _ s' => h_src s' = src /\
       heap_ok s' [Blk KERNEL_HEAP_VIRTUAL_BASE (KERNEL_HEAP_INITIAL_SIZE - HEADER_SIZE) true])
    (heap_boot src).
Proof.
  intros Hok Hm. unfold kheap_init, put_hdr. wp_steps. split; [done|]. split; [done|].
  split; cbn -[KERNEL_HEAP_VIRTUAL_BASE KERNEL_HEAP_INITIAL_SIZE]; try done.
  - split_and!; [done | done | by exists 262142 | done].
  - by exists 4503565267895296.
Qed.

(** C1: [kmalloc] hands out memory.  When a free block is large enough, or
    the heap may grow and the frames for it are there, the call returns a
    16-byte aligned address; the blocks in use are the old ones, unchanged,
    and the new one, which is at least as large as asked, overlaps none of
    them and is mapped throughout; the heap stays well formed, fully
    coalesced and unlocked. *)
Theorem kmalloc_correct s bs size :
  heap_ok s bs -> servable (rounded size) s bs -> 0 < size < 2 ^ 40 - 16 ->
  wp (kmalloc size)
    (fun a s' => exists bs' n,
       heap_ok s' bs' /\ in_use bs' ≡ₚ Blk (a - HEADER_SIZE) n false :: in_use bs /\
       size <= n /\ (16 | a) /\
       (forall va, a <= va < a + n -> is_Some (ps_walk (h_src s') va)) /\
       (forall c, c ∈ in_use bs ->
          a + n <= b_addr c \/ b_addr c + HEADER_SIZE + b_size c <= a - HEADER_SIZE)) s.
Proof.
  intros Hok Hsv Hsz. eapply wp_mono; [by apply (wp_kmalloc size bs)|]. cbn beta.
  intros a s' (bs' & n & Ha). exists bs', n. destruct (allocated_facts _ _ _ _ _ _ _ Ha) as (H1 & H2 & H3 & _).
  split_and!; try apply Ha; try done. pose proof (al_size _ _ _ _ _ _ _ Ha). unfold rounded in *. zdiv_lia.
Qed.

(** [kmalloc] is best-fit.  When some free block is large enough the
    block served is one of the smallest among those, and only it is touched:
    a remainder of at least 48 bytes becomes a free block of its own, a
    smaller one stays with the allocation; no page is taken. *)
Theorem kmalloc_best_fit s bs b0 size :
  heap_ok s bs -> b0 ∈ bs -> fits (rounded size) b0 -> 0 < size < 2 ^ 40 - 16 ->
  wp (kmalloc size)
    (fun a s' => exists b l1 l2, bs = l1 ++ b :: l2 /\ a = b_addr b + HEADER_SIZE /\
       fits (rounded size) b /\ (forall c, c ∈ bs -> fits (rounded size) c -> b_size b <= b_size c) /\
       heap_ok s' (l1 ++ take (rounded size) b ++ l2) /\ h_src s' = h_src s) s.
Proof.
  intros [Hl Hwf] Hin Hf Hsz. eapply wp_mono.
  - apply wp_kmalloc_round; [done | lia|].
    apply (wp_retry_fit 1 _ bs b0); try done; unfold rounded; [by destruct Hwf | zdiv_lia|].
    apply Z.divide_factor_r.
  - cbn beta. intros a s' (b & l1 & l2 & H1 & H2 & H3 & H4 & H5 & H6 & H7). by exists b, l1, l2.
Qed.

(** Out of memory is reported, not hidden: when no block is large enough
    and the PMM has no frame left, [kmalloc] returns null, with the heap and
    its lock exactly as before. *)
Theorem kmalloc_out_of_memory s bs size :
  heap_ok s bs -> (forall b, b ∈ bs -> ~ fits (rounded size) b) ->
  ps_free (h_src s) = 0%nat -> 0 < size < 2 ^ 40 - 16 ->
  wp (kmalloc size) (fun a s' => a = 0 /\ s' = s) s.
Proof.
  intros [Hl Hwf] Hno Hfree Hsz. apply wp_kmalloc_round; [done | lia|].
  assert (Hr : 16 <= rounded size < 2 ^ 40) by (unfold rounded; zdiv_lia).
  set (s0 := set_heap_lock true s). assert (Hwf0 : heap_wf s0 bs) by by destruct Hwf.
  assert (H : wp (start <-- kgets g_heap_start ;; fuel <-- list_fuel ;;
    find_best fuel (rounded size) start 0 0xFFFFFFFFFFFFFFFF) (fun r s' => r = 0 /\ s' = s0) s0).
  { apply (wp_search (rounded size) bs); [done | lia|].
    pose proof (best_fit_spec (rounded size) bs) as Hb. destruct (best_fit _ bs) as [b|]; [|done].
    destruct Hb as (Hb1 & Hb2 & _). by apply Hno in Hb1. }
  cbn [retry_search]. unfold list_fuel in *. wp_steps. eapply wp_mono; [exact H|].
  cbn beta. intros r s1 [-> ->]. cbn [Z.eqb]. wp_steps.
  destruct (expansion_size_spec (rounded size)) as (_ & HE & _); [lia|].
  unfold expand_heap. destruct (Z.to_nat ((expansion_size (rounded size) + PAGE_SIZE - 1) / PAGE_SIZE))
    as [|n] eqn:En.
  { exfalso. unfold PAGE_SIZE in En. zdiv_lia. }
  cbn [loop]. unfold expand_page at 1, h_on_src. wp_steps.
  eapply wp_mono; [apply ps_alloc_spec, Hwf|]. cbn beta.
  intros a x (_ & _ & [(-> & -> & _)|(f & _ & _ & Hf)]); [|cbn in *; lia].
  cbn [Z.eqb]. unfold heap_unlock_irq. wp_steps. split; [done|]. unfold s0. rewrite <- Hl. by destruct s.
Qed.

(** C2: [kfree] gives back exactly the block it is handed: the blocks in use
    are the others, unchanged, no two neighbouring free blocks are left, the
    heap is well formed and unlocked. *)
Theorem kfree_correct s bs b :
  heap_ok s bs -> b ∈ in_use bs ->
  wp (kfree (b_addr b + HEADER_SIZE))
    (fun _ s' => exists bs', heap_ok s' bs' /\ in_use bs ≡ₚ b :: in_use bs' /\ coalesced bs') s.
Proof.
  intros Hok [Hf Hin]%list_elem_of_filter. apply list_elem_of_split in Hin as (l1 & l2 & ->).
  eapply wp_mono; [by apply (wp_kfree b l1 l2)|]. cbn beta.
  intros _ s' (bs' & Hok' & _ & Hbs'). exists bs'. split_and!; [done | | by apply Hok'].
  by apply freed_in_use.
Qed.

(** A block that is allocated and freed again leaves the blocks in use as
    they were. *)
Theorem kmalloc_kfree_roundtrip s bs size :
  heap_ok s bs -> servable (rounded size) s bs -> 0 < size < 2 ^ 40 - 16 ->
  wp (a <-- kmalloc size ;; kfree a)
    (fun _ s' => exists bs', heap_ok s' bs' /\ in_use bs' ≡ₚ in_use bs) s.
Proof.
  intros Hok Hsv Hsz. apply wp_bind. eapply wp_mono; [by apply (wp_kmalloc size bs)|]. cbn beta.
  intros a s1 (bs1 & n & [Hok1 Huse Hn _ _]). set (b := Blk (a - HEADER_SIZE) n false) in *.
  assert (Hb : b ∈ in_use bs1) by (rewrite Huse; by left).
  apply list_elem_of_filter in Hb as [Hf Hin]. apply list_elem_of_split in Hin as (l1 & l2 & ->).
  replace a with (b_addr b + HEADER_SIZE) by (cbn; lia).
  eapply wp_mono; [by apply (wp_kfree b l1 l2)|]. cbn beta.
  intros _ s2 (bs2 & Hok2 & _ & Hbs2). exists bs2. split; [done|].
  apply (Permutation_cons_inv (a := b)). rewrite <- Huse. symmetry. by apply freed_in_use.
Qed.

End theorems.

(** ** Concrete instances

    The kernel of [example_vmm] with the gigabyte of the heap mapped through
    frames 100, 101 and 200 to 711. *)

Definition heap_window_mem : phys := fun f i =>
  if f =? example_root then (if i =? 256 then table_entry 100 else 0)
  else if f =? 100 then (if i =? 1 then table_entry 101 else 0)
  else if f =? 101 then table_entry (200 + i)
  else if (200 <=? f) && (f <? 712) then table_entry (2000 + i)
  else 0.
Definition heap_window_tau (f : Z) : option (Z * Z) :=
  if f =? example_root then Some (4, 0)
  else if f =? 100 then Some (3, 256)
  else if f =? 101 then Some (2, 256 * 512 + 1)
  else if (200 <=? f) && (f <? 712) then Some (1, (256 * 512 + 1) * 512 + (f - 200)) else None.
Definition heap_vmm (p : pmm) : vmm :=
  Vmm p heap_window_mem false 9000 0x1000000 (example_root * PAGE_SIZE) KERNEL_MMIO_VIRTUAL_BASE.

Lemma heap_window_tree : tree_ok heap_window_mem example_root heap_window_tau.
Proof.
  split; [done | |]; intros f L pre i; unfold heap_window_mem, heap_window_tau;
    (destruct (Z.eqb_spec f example_root) as [->|];
     [|destruct (Z.eqb_spec f 100) as [->|]; [|destruct (Z.eqb_spec f 101) as [->|]]]).
  - intros [= <- <-] _ Hi. by destruct (i =? 256).
  - intros [= <- <-] _ Hi. by destruct (i =? 1).
  - intros [= <- <-] _ Hi. apply table_entry_fields. lia.
  - intros H HL. destruct (_ && _); simplify_eq.
  - intros [= <- <-] _ Hi. destruct (Z.eqb_spec i 256) as [->|]; done.
  - intros [= <- <-] _ Hi. destruct (Z.eqb_spec i 1) as [->|]; done.
  - intros [= <- <-] _ Hi _. destruct (table_entry_fields (200 + i)) as (_ & _ & ->); [lia|].
    change example_root with 4352. rewrite !(proj2 (Z.eqb_neq _ _)) by lia.
    rewrite (proj2 (Z.leb_le _ _)), (proj2 (Z.ltb_lt _ _)) by lia. cbn [andb]. do 2 f_equal. lia.
  - intros H HL. destruct (_ && _); simplify_eq.
Qed.

Lemma heap_vmm_ok p :
  pmm_ok p -> pmm_total_pages p <= 100 -> used p 0 = true -> vmm_ok (heap_vmm p).
Proof.
  intros Hp Ht H0. split; [done|]. split; [done|]. exists heap_window_tau.
  assert (Hn : forall f, f = 9000 \/ f = 9001 \/ 0 < f < 100 -> heap_window_tau f = None).
  { intros f Hf. unfold heap_window_tau. change example_root with 4352.
    rewrite !(proj2 (Z.eqb_neq _ _)) by lia.
    destruct (Z.leb_spec 200 f), (Z.ltb_spec f 712); done || lia. }
  split; [split; cbn; try done; [apply heap_window_tree | lia | | |]|].
  - intros f x. unfold heap_window_tau.
    destruct (Z.eqb_spec f example_root) as [->|]; [done|].
    destruct (Z.eqb_spec f 100) as [->|]; [done|]. destruct (Z.eqb_spec f 101) as [->|]; [done|].
    destruct (Z.leb_spec 200 f), (Z.ltb_spec f 712); done || lia.
  - intros q [Hq Hu]%elem_free_list. assert (q <> 0) by congruence. split_and!; try lia.
    apply Hn. lia.
  - intros f L pre [-> | ->] H; rewrite Hn in H by lia; done.
  - intros va _ [H|H]; cbn in H; rewrite Hn in H by lia; done.
Qed.

Lemma heap_vmm_mapped p va :
  KERNEL_HEAP_VIRTUAL_BASE <= va < KERNEL_HEAP_VIRTUAL_BASE + KERNEL_HEAP_INITIAL_SIZE ->
  is_Some (kernel_walk (heap_vmm p) va).
Proof.
  intros Hva. unfold kernel_walk. change (kernel_root (heap_vmm p)) with example_root.
  rewrite (tree_walk _ _ heap_window_tau) by apply heap_window_tree. cbv zeta.
  change (bf_get F_ADDR (example_root * PAGE_SIZE)) with example_root. cbn [v_mem heap_vmm].
  unfold KERNEL_HEAP_VIRTUAL_BASE, KERNEL_HEAP_INITIAL_SIZE in Hva.
  assert (vidx 4 va = 256) as ->. { unfold vidx. rewrite index_eq by lia. change (2 ^ (3 + 9 * 4)) with 549755813888. zdiv_lia. }
  assert (vidx 3 va = 1) as ->. { unfold vidx. rewrite index_eq by lia. change (2 ^ (3 + 9 * 3)) with 1073741824. zdiv_lia. }
  change (bf_get F_P (heap_window_mem example_root 256)) with 1.
  change (bf_get F_ADDR (heap_window_mem example_root 256)) with 100.
  change (bf_get F_P (heap_window_mem 100 1)) with 1. change (bf_get F_ADDR (heap_window_mem 100 1)) with 101.
  change (heap_window_mem 101 (vidx 2 va)) with (table_entry (200 + vidx 2 va)).
  pose proof (vidx_range 2 va) as R2. pose proof (vidx_range 1 va) as R1.
  destruct (table_entry_fields (200 + vidx 2 va)) as (-> & _ & ->); [lia|].
  assert (heap_window_mem (200 + vidx 2 va) (vidx 1 va) = table_entry (2000 + vidx 1 va)) as ->.
  { unfold heap_window_mem. change example_root with 4352. rewrite !(proj2 (Z.eqb_neq _ _)) by lia.
    by rewrite (proj2 (Z.leb_le _ _)), (proj2 (Z.ltb_lt _ _)) by lia. }
  destruct (table_entry_fields (2000 + vidx 1 va)) as (-> & _ & ->); [lia|]. cbn. eauto.
Qed.

(** The heap of that kernel after [kheap_init]. *)
Definition example_heap (p : pmm) : heap vmm :=
  Heap (heap_vmm p) {[KERNEL_HEAP_VIRTUAL_BASE := Hdr (KERNEL_HEAP_INITIAL_SIZE - HEADER_SIZE) 1 0]}
    KERNEL_HEAP_VIRTUAL_BASE false (KERNEL_HEAP_VIRTUAL_BASE + KERNEL_HEAP_INITIAL_SIZE).
Definition example_blocks : list blk :=
  [Blk KERNEL_HEAP_VIRTUAL_BASE (KERNEL_HEAP_INITIAL_SIZE - HEADER_SIZE) true].

Lemma example_heap_ok p :
  pmm_ok p -> pmm_total_pages p <= 100 -> used p 0 = true -> heap_ok (example_heap p) example_blocks.
Proof.
  intros H1 H2 H3. split; [done|]. split; try done.
  - by apply heap_vmm_ok.
  - split_and!; [done | done | by exists 262142 | done].
  - by exists ((KERNEL_HEAP_VIRTUAL_BASE + KERNEL_HEAP_INITIAL_SIZE) / PAGE_SIZE).
  - apply heap_vmm_mapped.
Qed.

Lemma example_heap_pmm : heap_ok (example_heap example_pmm) example_blocks.
Proof. apply example_heap_ok; [apply example_pmm_ok | done | done]. Qed.

Lemma kheap_init_witness :
  wp kheap_init (fun _ s' => heap_ok s' example_blocks) (heap_boot (heap_vmm example_pmm)).
Proof.
  eapply wp_mono.
  - apply (kheap_init_ok (heap_vmm example_pmm)).
    + apply heap_vmm_ok; [apply example_pmm_ok | done | done].
    + apply heap_vmm_mapped.
  - by intros _ s' [_ H].
Defined.

Lemma example_fits size : size <= 2 ^ 20 -> exists b, b ∈ example_blocks /\ fits size b.
Proof. intros H. eexists. split; [by left|]. split; [done|]. cbn. unfold HEADER_SIZE, KERNEL_HEAP_INITIAL_SIZE. lia. Qed.

Lemma kmalloc_correct_witness :
  wp (kmalloc 100) (fun a s' => exists bs' n, heap_ok s' bs' /\ in_use bs' = [Blk (a - HEADER_SIZE) n false])
    (example_heap example_pmm).
Proof.
  eapply wp_mono.
  - apply (kmalloc_correct (example_heap example_pmm) example_blocks 100);
      [apply example_heap_pmm | left; by apply example_fits | lia].
  - cbn beta. intros a s' (bs' & n & Hok & Hp & _). exists bs', n. split; [done|].
    by apply Permutation_length_1_inv.
Defined.

Lemma kmalloc_best_fit_witness :
  wp (kmalloc 100) (fun a s' => a = KERNEL_HEAP_VIRTUAL_BASE + HEADER_SIZE) (example_heap example_pmm).
Proof.
  eapply wp_mono.
  - apply (kmalloc_best_fit (example_heap example_pmm) example_blocks
             (Blk KERNEL_HEAP_VIRTUAL_BASE (KERNEL_HEAP_INITIAL_SIZE - HEADER_SIZE) true) 100);
      [apply example_heap_pmm | by left | done | lia].
  - cbn beta. intros a s' (b & l1 & l2 & Hb & -> & _).
    unfold example_blocks in Hb. destruct l1 as [|? [|? l1]]; by inversion Hb.
Defined.

(** A machine without free frames. *)
Definition full_pmm : pmm := Pmm false [0xFF] 8 1.

Lemma full_pmm_ok : pmm_ok full_pmm.
Proof.
  split; try (cbn; done).
  - repeat constructor; done.
  - intros p Hp. cbn in Hp. lia.
Qed.

Lemma kmalloc_out_of_memory_witness :
  wp (kmalloc 0x500000) (fun a s' => a = 0 /\ s' = example_heap full_pmm) (example_heap full_pmm).
Proof.
  apply (kmalloc_out_of_memory (example_heap full_pmm) example_blocks 0x500000);
    [apply example_heap_ok; [apply full_pmm_ok | done | done] | | done | lia].
  intros b [-> | H]%elem_of_cons [_ Hs]; [by vm_compute in Hs | by apply elem_of_nil in H].
Defined.

(** The heap whose single block is in use. *)
Definition used_blocks : list blk :=
  [Blk KERNEL_HEAP_VIRTUAL_BASE (KERNEL_HEAP_INITIAL_SIZE - HEADER_SIZE) false].
Definition used_heap : heap vmm :=
  Heap (heap_vmm example_pmm)
    {[KERNEL_HEAP_VIRTUAL_BASE := Hdr (KERNEL_HEAP_INITIAL_SIZE - HEADER_SIZE) 0 0]}
    KERNEL_HEAP_VIRTUAL_BASE false (KERNEL_HEAP_VIRTUAL_BASE + KERNEL_HEAP_INITIAL_SIZE).

Lemma used_heap_ok : heap_ok used_heap used_blocks.
Proof.
  destruct example_heap_pmm as [_ [H1 H2 H3 H4 H5 H6 H7 H8 H9]].
  split; [done|]. by split.
Qed.

Lemma kfree_witness :
  wp (kfree (KERNEL_HEAP_VIRTUAL_BASE + HEADER_SIZE))
    (fun _ s' => exists bs', heap_ok s' bs' /\ in_use bs' = []) used_heap.
Proof.
  eapply wp_mono.
  - apply (kfree_correct used_heap used_blocks
             (Blk KERNEL_HEAP_VIRTUAL_BASE (KERNEL_HEAP_INITIAL_SIZE - HEADER_SIZE) false));
      [apply used_heap_ok | by left].
  - cbn beta. intros _ s' (bs' & Hok & Hp & _). exists bs'. split; [done|].
    apply Permutation_nil_r. symmetry. by apply (Permutation_cons_inv) in Hp.
Defined.

Lemma kmalloc_kfree_witness :
  wp (a <-- kmalloc 100 ;; kfree a) (fun _ s' => exists bs', heap_ok s' bs' /\ in_use bs' = [])
    (example_heap example_pmm).
Proof.
  eapply wp_mono.
  - apply (kmalloc_kfree_roundtrip (example_heap example_pmm) example_blocks 100);
      [apply example_heap_pmm | left; by apply example_fits | lia].
  - cbn beta. intros _ s' (bs' & Hok & Hp). exists bs'. split; [done|]. by apply Permutation_nil_r.
Defined.

(** ** What the code does outside the theorems' conditions *)

(** The rounding of the size wraps: a request within 15 bytes of [2^64] is
    served with an empty block. *)
Lemma kmalloc_wraps :
  wp (kmalloc (2 ^ 64 - 8)) (fun a _ => a = KERNEL_HEAP_VIRTUAL_BASE + HEADER_SIZE)
    (example_heap example_pmm).
Proof. vm_compute. reflexivity. Qed.
