(* ===== verification/Alloc.v ===== *)
(** * Memory for the kernel's data

    What the users of [kmalloc] and [kfree] rely on: the class [Allocator], and
    the heap of [Heap] as its instance. *)

From Stdlib Require Import ZArith Lia.
From stdpp Require Import base tactics list gmap.
From S2P Require Import Prelude Paging Vmm Pages Heap.

(** [al_ok s live]: the blocks in use are [live], addresses with the sizes asked
    for.  [al_room s k]: allocations of total cost [k] succeed. *)
Class Allocator (S : Type) : Type := {
  al_alloc : Z -> M S Z;
  al_free : Z -> M S unit;
  al_ok : S -> list (Z * Z) -> Prop;
  al_room : S -> Z -> Prop;
  al_cost : Z -> Z;
  al_cost_nonneg size : 0 <= al_cost size;
  al_ok_perm s live live' : live ≡ₚ live' -> al_ok s live -> al_ok s live';
  al_alloc_null s : wp (al_alloc 0) (fun a s' => a = 0 /\ s' = s) s;
  al_alloc_spec s live size k :
    al_ok s live -> 0 < size < 2 ^ 40 - 16 -> 0 <= k -> al_room s (al_cost size + k) ->
    wp (al_alloc size)
      (fun a s' => al_ok s' ((a, size) :: live) /\ al_room s' k /\ 0 < a /\ a + size < 2 ^ 64 /\
         forall b n, (b, n) ∈ live -> a + size <= b \/ b + n <= a) s;
  al_free_spec s live rest a n :
    al_ok s live -> live ≡ₚ (a, n) :: rest ->
    wp (al_free a) (fun _ s' => al_ok s' rest /\ forall k, al_room s k -> al_room s' k) s
}.

#[export] Instance al_ok_proper {S} `{!Allocator S} s : Proper ((≡ₚ) ==> iff) (al_ok s).
Proof. intros l l' Hl. split; apply al_ok_perm; [done|by symmetry]. Qed.

(** ** The heap *)

Section heap.
Context {S : Type} `{!PageSource S}.
Implicit Types s : heap S.

(** A block in use covers what was asked for. *)
Definition covers (x : Z * Z) (b : blk) : Prop := x.1 = b_addr b + HEADER_SIZE /\ x.2 <= b_size b.
Definition heap_live s (live : list (Z * Z)) : Prop :=
  exists bs l, heap_ok s bs /\ l ≡ₚ in_use bs /\ Forall2 covers live l.
Definition heap_room s (k : Z) : Prop :=
  g_heap_current_end s + k <= HEAP_LIMIT /\ (4 * Z.to_nat (k / PAGE_SIZE) <= ps_free (h_src s))%nat.
Definition heap_cost (size : Z) : Z := if (0 <? size) && (size <? 2 ^ 40) then expansion_size (rounded size) else 0.

Lemma heap_cost_spec size : 0 < size < 2 ^ 40 - 16 -> heap_cost size = expansion_size (rounded size) /\
  (PAGE_SIZE | heap_cost size) /\ 0 <= heap_cost size.
Proof.
  intros Hs. unfold heap_cost. rewrite (proj2 (Z.ltb_lt 0 size)), (proj2 (Z.ltb_lt size _)) by lia. cbn [andb].
  destruct (expansion_size_spec (rounded size)) as (H1 & H2 & _); [unfold rounded; zdiv_lia|]. unfold HEADER_SIZE, rounded in *. split_and!; [done..|zdiv_lia].
Qed.
Lemma heap_cost_nonneg size : 0 <= heap_cost size.
Proof.
  unfold heap_cost. destruct (Z.ltb_spec 0 size), (Z.ltb_spec size (2 ^ 40)); cbn [andb]; try lia.
  unfold expansion_size. case_if; [|lia]. apply Z.land_nonneg. left. unfold u64. zdiv_lia.
Qed.

Lemma room_split s c k : (PAGE_SIZE | c) -> 0 <= c -> 0 <= k -> heap_room s (c + k) ->
  g_heap_current_end s + c + k <= HEAP_LIMIT /\ (4 * Z.to_nat (c / PAGE_SIZE) + 4 * Z.to_nat (k / PAGE_SIZE) <= ps_free (h_src s))%nat.
Proof.
  intros [q ->] Hc Hk [H1 H2]. split; [lia|]. unfold PAGE_SIZE in *. rewrite Z.div_mul in * by lia. rewrite (Z.add_comm (q * 4096)), Z.div_add in H2 by lia.
  rewrite Z2Nat.inj_add in H2 by (try apply Z.div_pos; lia). lia.
Qed.

Lemma heap_alloc_spec s live size k :
  heap_live s live -> 0 < size < 2 ^ 40 - 16 -> 0 <= k -> heap_room s (heap_cost size + k) ->
  wp (kmalloc size)
    (fun a s' => heap_live s' ((a, size) :: live) /\ heap_room s' k /\ 0 < a /\ a + size < 2 ^ 64 /\
       forall b n, (b, n) ∈ live -> a + size <= b \/ b + n <= a) s.
Proof.
  intros (bs & l & Hok & Hl & Hc) Hsz Hk Hr. destruct (heap_cost_spec size Hsz) as (Ec & Hd & Hp).
  destruct (room_split s _ k Hd Hp Hk Hr) as [R1 R2]. rewrite Ec in *.
  eapply wp_mono; [apply (wp_kmalloc size bs); [done| |done]; right; lia|]. cbn beta. intros a s' (bs' & n & Ha).
  destruct (allocated_facts _ _ _ _ _ _ _ Ha) as (_ & _ & Hdis & Hlo & Hhi). destruct Ha as [Hok' Huse Hn He Hfr].
  assert (Hsn : size <= n) by (unfold rounded in Hn; zdiv_lia).
  unfold KERNEL_HEAP_VIRTUAL_BASE, HEAP_LIMIT, HEADER_SIZE in *. split_and!; [|split; [unfold HEAP_LIMIT|]; lia|lia|lia|].
  - exists bs', (Blk (a - 32) n false :: l). split_and!; [done|by rewrite Hl, Huse|]. constructor; [|done]. unfold covers, HEADER_SIZE. cbn. lia.
  - intros b m Hin. destruct (list_elem_of_lookup_1 _ _ Hin) as [i Hi]. destruct (Forall2_lookup_l _ _ _ _ _ Hc Hi) as (c & Hci & E1 & E2). cbn in E1, E2.
    assert (c ∈ in_use bs) as Hcin by (rewrite <- Hl; by eapply list_elem_of_lookup_2). unfold HEADER_SIZE in *. destruct (Hdis c Hcin); lia.
Qed.

Lemma heap_free_spec s live rest a n :
  heap_live s live -> live ≡ₚ (a, n) :: rest ->
  wp (kfree a) (fun _ s' => heap_live s' rest /\ forall k, heap_room s k -> heap_room s' k) s.
Proof.
  intros (bs & l & Hok & Hl & Hc) Hp. destruct (Permutation.Permutation_Forall2 Hp Hc) as (l' & Hl' & Hc').
  inversion Hc' as [|x b ? r [E1 E2] Hr]; subst. cbn in E1, E2. subst a.
  assert (Hb : b ∈ in_use bs) by (rewrite <- Hl, Hl'; by left). apply list_elem_of_filter in Hb as [Hf Hin]. apply list_elem_of_split in Hin as (l1 & l2 & ->).
  eapply wp_mono; [by apply (wp_kfree b l1 l2)|]. cbn beta. intros _ s' (bs' & Hok' & [Hsrc Hend] & Hbs'). split.
  - exists bs', r. split_and!; [done| |done]. apply (Permutation_cons_inv (a := b)). rewrite <- Hl', Hl. by apply freed_in_use.
  - intros k. unfold heap_room. by rewrite Hsrc, Hend.
Qed.

Lemma heap_live_perm s live live' : live ≡ₚ live' -> heap_live s live -> heap_live s live'.
Proof.
  intros Hp (bs & l & Hok & Hl & Hc). destruct (Permutation.Permutation_Forall2 Hp Hc) as (l' & Hl' & Hc').
  exists bs, l'. split_and!; [done|by rewrite <- Hl'|done].
Qed.
Lemma heap_alloc_null s : wp (kmalloc 0) (fun a s' => a = 0 /\ s' = s) s.
Proof. done. Qed.

#[export] Instance heap_allocator : Allocator (heap S) := {|
  al_alloc := kmalloc;
  al_free := kfree;
  al_ok := heap_live;
  al_room := heap_room;
  al_cost := heap_cost;
  al_cost_nonneg := heap_cost_nonneg;
  al_ok_perm := heap_live_perm;
  al_alloc_null := heap_alloc_null;
  al_alloc_spec := heap_alloc_spec;
  al_free_spec := heap_free_spec
|}.
End heap.
