(* ===== verification/Pool.v ===== *)
(** * The page pool and the shared-memory window

    [kernel/kernel/mm/pool.c] and [kernel/kernel/mm/shm.c]: two windows of
    virtual pages, each with a bitmap of 32-bit words.  An allocation takes
    the first run of free virtual pages, a contiguous run of frames, and maps
    one onto the other. *)

From Stdlib Require Import ZArith Lia.
From stdpp Require Import base tactics list.
From S2P Require Import Prelude Bitmap Paging Pmm Vmm Pages.

Definition KERNEL_POOL_VIRTUAL_BASE : Z := 0xFFFF800010000000.
Definition KERNEL_POOL_MAX_PAGES : Z := 131072.
Definition USER_SHM_VIRTUAL_BASE : Z := 0x0000700000000000.
Definition USER_SHM_VIRTUAL_LIMIT : Z := 0x0000704000000000.
Definition USER_SHM_MAX_PAGES : Z := (USER_SHM_VIRTUAL_LIMIT - USER_SHM_VIRTUAL_BASE) / PAGE_SIZE.

(** ** State: the memory managers, a bitmap and its lock *)

Record pool : Type := Pool {
  pl_vmm : vmm;
  pool_bitmap : list Z;
  g_pool_lock : bool
}.

Definition set_pl_vmm (v : vmm) (s : pool) : pool := Pool v (pool_bitmap s) (g_pool_lock s).
Definition set_pool_bitmap (l : list Z) (s : pool) : pool := Pool (pl_vmm s) l (g_pool_lock s).
Definition set_pool_lock (b : bool) (s : pool) : pool := Pool (pl_vmm s) (pool_bitmap s) b.

Definition pl_on_vmm {A} (m : M vmm A) : M pool A := zoom pl_vmm set_pl_vmm m.
Definition pl_on_bitmap {A} (m : M (list Z) A) : M pool A := zoom pool_bitmap set_pool_bitmap m.

Definition pool_lock_acquire : M pool unit :=
  b <-- kgets g_pool_lock ;; if b then kstop Deadlock else kmodify (set_pool_lock true).
Definition pool_lock_release : M pool unit := kmodify (set_pool_lock false).

(** ** The bitmap *)

(** The scan both windows use; -1 when there is no run. *)
Definition find_free_region (max num_pages : Z) : M pool Z :=
  r <-- pl_on_bitmap (loop (Z.to_nat max) 0 (bm_scan_step 32 num_pages) (0, 0)) ;;
  match r with inr start_bit => kret start_bit | inl _ => kret (-1) end.

Definition set_bits (start_bit num_pages : Z) : M pool unit :=
  pl_on_bitmap (for_ (Z.to_nat num_pages) start_bit (bm_set 32)).
Definition clear_bits (start_bit num_pages : Z) : M pool unit :=
  pl_on_bitmap (for_ (Z.to_nat num_pages) start_bit (bm_clear 32)).

(** ** The pool *)

Definition pool_init : M pool unit :=
  pool_lock_release ;;;
  pl_on_bitmap (for_ (Z.to_nat (KERNEL_POOL_MAX_PAGES / 32)) 0
    (fun i => l <-- kget ;; l' <-- upd l i 0 ;; kput l')).

(** Map [num_pages] frames from [phys] on at [base_va]. *)
Definition map_pages (base_va phys num_pages flags : Z) : M vmm unit :=
  for_ (Z.to_nat num_pages) 0 (fun i =>
    kernel_map (u64 (base_va + i * PAGE_SIZE)) (u64 (phys + i * PAGE_SIZE)) flags).

Definition num_pages_of (size : Z) : Z := u64 (size + PAGE_SIZE - 1) / PAGE_SIZE.

(** The body the two allocators have in common, from the search for virtual
    pages to the return of their address, with the lock held. *)
Definition region_alloc (base max num_pages flags : Z) : M pool Z :=
  start_bit <-- find_free_region max num_pages ;;
  if start_bit =? -1 then pool_lock_release ;;; kret 0 else
  let base_va := u64 (base + start_bit * PAGE_SIZE) in
  phys <-- pl_on_vmm (v_on_pmm (pmm_alloc_pages num_pages)) ;;
  if phys =? 0 then pool_lock_release ;;; kret 0 else
  pl_on_vmm (map_pages base_va phys num_pages flags) ;;;
  set_bits start_bit num_pages ;;;
  pool_lock_release ;;;
  kret base_va.

Definition pool_alloc (size : Z) : M pool Z :=
  if size =? 0 then kret 0 else
  pool_lock_acquire ;;;
  let num_pages := num_pages_of size in
  if (num_pages =? 0) || (KERNEL_POOL_MAX_PAGES <? num_pages) then
    pool_lock_release ;;; kret 0 else
  region_alloc KERNEL_POOL_VIRTUAL_BASE KERNEL_POOL_MAX_PAGES num_pages 3.

(** [vmm_unmap_page] and [vmm_get_physical_address] on the kernel's PML4. *)
Definition kernel_unmap (va : Z) : M vmm unit :=
  s <-- kget ;; vmm_unmap_page (TFrame (kernel_root s)) va.
Definition kernel_phys (va : Z) : M vmm Z :=
  s <-- kget ;; vmm_get_physical_address (TFrame (kernel_root s)) va.

Definition pool_free (ptr size : Z) : M pool unit :=
  if size =? 0 then kret tt else
  pool_lock_acquire ;;;
  let num_pages := num_pages_of size in
  let base_va := ptr in
  if (base_va <? KERNEL_POOL_VIRTUAL_BASE) || (num_pages =? 0) then pool_lock_release else
  let start_bit := (base_va - KERNEL_POOL_VIRTUAL_BASE) / PAGE_SIZE in
  if KERNEL_POOL_MAX_PAGES <? u64 (start_bit + num_pages) then pool_lock_release else
  pl_on_vmm (for_ (Z.to_nat num_pages) 0 (fun i => kernel_unmap (u64 (base_va + i * PAGE_SIZE)))) ;;;
  clear_bits start_bit num_pages ;;;
  pool_lock_release.

Definition pool_virtual_to_physical (virt_addr : Z) : M pool Z :=
  let va := virt_addr in
  if (va <? KERNEL_POOL_VIRTUAL_BASE) ||
     (KERNEL_POOL_VIRTUAL_BASE + KERNEL_POOL_MAX_PAGES * PAGE_SIZE <=? va) then kret 0 else
  let page_va := Z.land va (u64 (Z.lnot (PAGE_SIZE - 1))) in
  pa <-- pl_on_vmm (kernel_phys page_va) ;;
  if pa =? 0 then kret 0 else
  kret (u64 (pa + Z.land va (PAGE_SIZE - 1))).

(** ** The shared-memory window *)

(** [shm.c] has its own state of the same shape (its bitmap lives in a buffer
    of the pool). *)
Definition shm_alloc (size flag : Z) : M pool Z :=
  if size =? 0 then kret 0 else
  let num_pages := num_pages_of size in
  if (num_pages =? 0) || (USER_SHM_MAX_PAGES <? num_pages) then kret 0 else
  pool_lock_acquire ;;;
  region_alloc USER_SHM_VIRTUAL_BASE USER_SHM_MAX_PAGES num_pages flag.

(** The frame of a page is released by [vmm_unmap_page] and again by
    [pmm_free_pages]. *)
Definition shm_free_page (base_va i : Z) : M vmm unit :=
  let va := u64 (base_va + i * PAGE_SIZE) in
  pa <-- kernel_phys va ;;
  kernel_unmap va ;;;
  if pa =? 0 then kret tt else v_on_pmm (pmm_free_pages pa 1).

Definition shm_free (ptr size : Z) : M pool unit :=
  if (ptr =? 0) || (size =? 0) then kret tt else
  let num_pages := num_pages_of size in
  let base_va := ptr in
  if (base_va <? USER_SHM_VIRTUAL_BASE) || (num_pages =? 0) then kret tt else
  let start_bit := (base_va - USER_SHM_VIRTUAL_BASE) / PAGE_SIZE in
  if USER_SHM_MAX_PAGES <? u64 (start_bit + num_pages) then kret tt else
  pool_lock_acquire ;;;
  pl_on_vmm (for_ (Z.to_nat num_pages) 0 (shm_free_page base_va)) ;;;
  clear_bits start_bit num_pages ;;;
  pool_lock_release.

Definition shm_virtual_to_physical (virt_addr : Z) : M pool Z :=
  let va := virt_addr in
  if (va <? USER_SHM_VIRTUAL_BASE) ||
     (USER_SHM_VIRTUAL_BASE + USER_SHM_MAX_PAGES * PAGE_SIZE <=? va) then kret 0 else
  let page_va := Z.land va (u64 (Z.lnot (PAGE_SIZE - 1))) in
  pool_lock_acquire ;;;
  pa <-- pl_on_vmm (kernel_phys page_va) ;;
  pool_lock_release ;;;
  if pa =? 0 then kret 0 else
  kret (u64 (pa + Z.land va (PAGE_SIZE - 1))).

(** ** Specification *)

Definition bitmap_ok (max : Z) (l : list Z) : Prop := zlen l * 32 = max /\ words_ok 32 l.

Record pool_ok (max : Z) (s : pool) : Prop := {
  po_vmm : vmm_ok (pl_vmm s);
  po_bits : bitmap_ok max (pool_bitmap s);
  po_lock : g_pool_lock s = false
}.

(** The bits of [a .. a + n) have value [v] and the others are as before. *)
Definition bits_marked (v : bool) (max a n : Z) (l l' : list Z) : Prop :=
  forall p, 0 <= p < max -> bit 32 l' p = if (a <=? p) && (p <? a + n) then v else bit 32 l p.

Lemma num_pages_eq size : 0 < size < 2 ^ 63 -> num_pages_of size = (size + PAGE_SIZE - 1) / PAGE_SIZE.
Proof. intros H. unfold num_pages_of, PAGE_SIZE. by rewrite u64_small by lia. Qed.

Lemma wp_find_free_region max n s (Q : Z -> pool -> Prop) :
  bitmap_ok max (pool_bitmap s) -> 0 < n < 2 ^ 64 ->
  (forall a, first_run 32 (pool_bitmap s) max n a -> Q a s) ->
  ((forall b, 0 <= b -> b + n <= max -> ~ run_free 32 (pool_bitmap s) b n) -> Q (-1) s) ->
  wp (find_free_region max n) Q s.
Proof.
  intros [Hz Hw] Hn Hfound Hnone. unfold find_free_region, pl_on_bitmap. wp_steps.
  pose proof (zlen_nonneg (pool_bitmap s)).
  eapply wp_mono; [apply wp_bm_scan; [lia | done | lia]|].
  cbn beta. intros [acc|a] l' [-> Hr]; wp_steps.
  - replace (set_pool_bitmap (pool_bitmap s) s) with s by by destruct s. auto.
  - replace (set_pool_bitmap (pool_bitmap s) s) with s by by destruct s. auto.
Qed.

Lemma wp_set_bits max a n s :
  bitmap_ok max (pool_bitmap s) -> 0 <= a -> 0 <= n -> a + n <= max ->
  wp (set_bits a n)
    (fun _ s' => s' = set_pool_bitmap (pool_bitmap s') s /\ bitmap_ok max (pool_bitmap s') /\
       bits_marked true max a n (pool_bitmap s) (pool_bitmap s')) s.
Proof.
  intros [Hz Hw] Ha Hn Hle. unfold set_bits, pl_on_bitmap. wp_steps.
  eapply wp_mono; [apply (wp_bm_set_range 32 ltac:(lia) (pool_bitmap s) a (Z.to_nat n)); done || lia|].
  cbn beta. intros _ l' (Hz' & Hw' & Hb). split_and!; [done | split; [change (zlen l' * 32 = max); by rewrite Hz' | done]|].
  intros p Hp. cbn. rewrite Hb by lia. rewrite Z2Nat.id by lia. by destruct (_ && _).
Qed.

Lemma wp_clear_bits max a n s :
  bitmap_ok max (pool_bitmap s) -> 0 <= a -> 0 <= n -> a + n <= max ->
  wp (clear_bits a n)
    (fun _ s' => s' = set_pool_bitmap (pool_bitmap s') s /\ bitmap_ok max (pool_bitmap s') /\
       bits_marked false max a n (pool_bitmap s) (pool_bitmap s')) s.
Proof.
  intros [Hz Hw] Ha Hn Hle. unfold clear_bits, pl_on_bitmap. wp_steps.
  eapply wp_mono; [apply (wp_bm_clear_range 32 ltac:(lia) (pool_bitmap s) a (Z.to_nat n)); done || lia|].
  cbn beta. intros _ l' (Hz' & Hw' & Hb). split_and!; [done | split; [change (zlen l' * 32 = max); by rewrite Hz' | done]|].
  intros p Hp. cbn. rewrite Hb by lia. rewrite Z2Nat.id by lia. by destruct ((a <=? p) && (p <? a + n)).
Qed.

Lemma wp_pool_map_pages base f n flags s :
  vmm_ok s -> base mod PAGE_SIZE = 0 -> 0 <= f -> 0 <= n -> f + n <= 2 ^ 40 ->
  (3 * Z.to_nat n <= length (free_list (v_pmm s)))%nat ->
  (forall x, base <= x < base + n * PAGE_SIZE -> mappable x) ->
  wp (map_pages base (f * PAGE_SIZE) n flags) (fun _ s' => run_mapped n f base s s') s.
Proof.
  intros Hok Hb Hf Hn Hfn Hfree Hm. unfold map_pages.
  eapply wp_mono; [apply (wp_map_run (Z.to_nat n) f base flags _ s Hok Hb Hf)|]; rewrite ?Z2Nat.id by lia; try done.
  intros i Hi. assert (Hr : mappable (base + i * PAGE_SIZE)) by (apply Hm; unfold PAGE_SIZE; lia).
  unfold mappable, KERNEL_VIRTUAL_BASE, PAGE_SIZE in *. rewrite !u64_small by lia.
  by replace ((f + i) * 4096) with (f * 4096 + i * 4096) by lia.
Qed.

(** What a successful allocation of [n] pages at [a] leaves. *)
Record region_given (base max n a : Z) (s s' : pool) : Prop := {
  rg_ok : pool_ok max s';
  rg_run : exists start, first_run 32 (pool_bitmap s) max n start /\ a = base + start * PAGE_SIZE /\
    bits_marked true max start n (pool_bitmap s) (pool_bitmap s');
  rg_walk : exists f, 0 < f /\ forall x, 0 <= x < n * PAGE_SIZE ->
    kernel_walk (pl_vmm s') (a + x) = Some (f * PAGE_SIZE + x);
  rg_frame : forall x, mappable x -> ~ (a <= x < a + n * PAGE_SIZE) ->
    kernel_walk (pl_vmm s') x = kernel_walk (pl_vmm s) x
}.

(** The window lies in canonical space below the kernel image. *)
Definition window (base max : Z) : Prop :=
  base mod PAGE_SIZE = 0 /\ 0 < base /\ forall x, base <= x < base + max * PAGE_SIZE -> mappable x.

Lemma mappable_u64 x : mappable x -> u64 x = x.
Proof. unfold mappable, KERNEL_VIRTUAL_BASE. intros H. apply u64_small. lia. Qed.

Lemma wp_region_alloc base max n flags s :
  vmm_ok (pl_vmm s) -> bitmap_ok max (pool_bitmap s) -> window base max -> 0 < n < 2 ^ 32 ->
  (4 * Z.to_nat n <= length (free_list (v_pmm (pl_vmm s))))%nat ->
  wp (region_alloc base max n flags)
    (fun a s' => region_given base max n a s s' \/ (a = 0 /\ s' = set_pool_lock false s)) s.
Proof.
  intros Hok Hbm (Hb1 & Hb2 & Hb3) Hn Hfree. unfold region_alloc. apply wp_bind.
  apply (wp_find_free_region max n); [done | lia | |].
  2:{ intros _. cbn [Z.eqb]. unfold pool_lock_release. wp_steps. by right. }
  intros start Hrun. pose proof Hrun as (Hs0 & Hs1 & _).
  rewrite (proj2 (Z.eqb_neq start (-1))) by lia.
  assert (Hm : forall x, base + start * PAGE_SIZE <= x < base + start * PAGE_SIZE + n * PAGE_SIZE -> mappable x).
  { intros x Hx. apply Hb3. unfold PAGE_SIZE in *. lia. }
  rewrite mappable_u64 by (apply Hm; unfold PAGE_SIZE; lia). set (va := base + start * PAGE_SIZE) in *.
  unfold pl_on_vmm. wp_steps. eapply wp_mono; [apply wp_kernel_alloc_run; [done | lia]|].
  cbn beta. intros a v (Hok1 & _ & Hw1 & [[-> ->]|(f & Hf & Hfn & -> & Hlen)]).
  { cbn [Z.eqb]. unfold pool_lock_release. wp_steps. right. split; [done|]. by destruct s. }
  unfold PAGE_SIZE at 1. rewrite (proj2 (Z.eqb_neq _ _)) by lia. wp_steps.
  eapply wp_mono.
  { apply wp_pool_map_pages; cbn; try done; try lia. unfold va. rewrite Z.mod_add by done. done. }
  cbn beta. intros _ v2 [R1 R2 R3 R4 R5]. wp_steps. eapply wp_mono.
  { apply (wp_set_bits max); cbn; try done; lia. }
  cbn beta. intros _ s2 (Hs2 & Hbm2 & Hmk). set (l2 := pool_bitmap s2) in *. clearbody l2. subst s2.
  unfold pool_lock_release. wp_steps. left. split; cbn.
  - by split.
  - exists start. by split_and!.
  - exists f. split; [done|]. intros x Hx. rewrite R4 by lia. f_equal. lia.
  - intros x Hx Hout. rewrite R5 by done. apply Hw1.
Qed.

Lemma pool_window : window KERNEL_POOL_VIRTUAL_BASE KERNEL_POOL_MAX_PAGES.
Proof.
  split_and!; [done..|]. intros x Hx. right.
  unfold KERNEL_POOL_VIRTUAL_BASE, KERNEL_POOL_MAX_PAGES, PAGE_SIZE, KERNEL_VIRTUAL_BASE in *. lia.
Qed.

Lemma shm_window : window USER_SHM_VIRTUAL_BASE USER_SHM_MAX_PAGES.
Proof.
  split_and!; [done..|]. intros x Hx. left. change USER_SHM_MAX_PAGES with 67108864 in Hx.
  unfold USER_SHM_VIRTUAL_BASE, PAGE_SIZE in *. lia.
Qed.

(** [pool_alloc] gives a buffer of whole pages: the first free run of the
    window, backed by one contiguous run of frames and mapped page for page
    (so it can be used for DMA), its bits set and no others, no other
    translation changed; or null with nothing changed.  The lock is released
    on both ways. *)
Theorem pool_alloc_correct s size :
  let n := (size + PAGE_SIZE - 1) / PAGE_SIZE in
  pool_ok KERNEL_POOL_MAX_PAGES s -> 0 < size <= KERNEL_POOL_MAX_PAGES * PAGE_SIZE ->
  (4 * Z.to_nat n <= length (free_list (v_pmm (pl_vmm s))))%nat ->
  wp (pool_alloc size)
    (fun a s' => region_given KERNEL_POOL_VIRTUAL_BASE KERNEL_POOL_MAX_PAGES n a s s' \/
                 (a = 0 /\ s' = s)) s.
Proof.
  intros n [Hok Hbm Hl] Hsz Hfree. unfold KERNEL_POOL_MAX_PAGES, PAGE_SIZE in Hsz. unfold pool_alloc.
  rewrite (proj2 (Z.eqb_neq _ _)) by lia. rewrite num_pages_eq by lia. fold n.
  assert (Hn : 0 < n <= 131072) by (unfold n, PAGE_SIZE; zdiv_lia).
  unfold pool_lock_acquire. wp_steps. rewrite Hl. wp_steps.
  rewrite (proj2 (Z.eqb_neq n 0)), (proj2 (Z.ltb_ge KERNEL_POOL_MAX_PAGES n)) by (unfold KERNEL_POOL_MAX_PAGES; lia).
  cbn [orb]. eapply wp_mono.
  { apply wp_region_alloc; cbn; try done; [apply pool_window | lia]. }
  cbn beta. intros a s' [[H1 H2 H3 H4]|[-> ->]]; [by left|]. right. split; [done|]. by destruct s; cbn in *; subst.
Qed.

(** [shm_alloc] does the same in the shared-memory window of the user
    half, with the flags it is given. *)
Theorem shm_alloc_correct s size flag :
  let n := (size + PAGE_SIZE - 1) / PAGE_SIZE in
  pool_ok USER_SHM_MAX_PAGES s -> 0 < size <= USER_SHM_MAX_PAGES * PAGE_SIZE ->
  (4 * Z.to_nat n <= length (free_list (v_pmm (pl_vmm s))))%nat ->
  wp (shm_alloc size flag)
    (fun a s' => region_given USER_SHM_VIRTUAL_BASE USER_SHM_MAX_PAGES n a s s' \/
                 (a = 0 /\ s' = s)) s.
Proof.
  intros n [Hok Hbm Hl] Hsz Hfree. change (USER_SHM_MAX_PAGES * PAGE_SIZE) with 274877906944 in Hsz.
  unfold shm_alloc. rewrite (proj2 (Z.eqb_neq _ _)) by lia. rewrite num_pages_eq by lia. fold n.
  assert (Hn : 0 < n <= USER_SHM_MAX_PAGES).
  { change USER_SHM_MAX_PAGES with 67108864. unfold n, PAGE_SIZE. zdiv_lia. }
  rewrite (proj2 (Z.eqb_neq n 0)), (proj2 (Z.ltb_ge USER_SHM_MAX_PAGES n)) by lia. cbn [orb].
  unfold pool_lock_acquire. wp_steps. rewrite Hl. wp_steps. eapply wp_mono.
  { apply wp_region_alloc; cbn; try done; [apply shm_window|].
    change USER_SHM_MAX_PAGES with 67108864 in Hn. lia. }
  cbn beta. intros a s' [[H1 H2 H3 H4]|[-> ->]]; [by left|]. right. split; [done|]. by destruct s; cbn in *; subst.
Qed.

(** ** Release and translation *)

(** [vmm_ok] with the table tree named. *)
Definition vmm_at (tau : Z -> option (Z * Z)) (s : vmm) : Prop :=
  g_vmm_lock s = false /\ 0 <= kernel_root s < 2 ^ 40 /\
  vinv s (kernel_root s) tau /\ forall va, mappable va -> ~ win_va s tau va.

(** The page of [va] is mapped to an ordinary frame: not a page table. *)
Definition ordinary (tau : Z -> option (Z * Z)) (s : vmm) (va : Z) : Prop :=
  exists pa, kernel_walk s va = Some pa /\ tau (pa / PAGE_SIZE) = None /\
    pa / PAGE_SIZE <> g_window_pt s /\ pa / PAGE_SIZE <> g_window_pt s + 1.

(** The frame of a mapped page is free (when the PMM manages it). *)
Definition frame_freed (s s' : vmm) (va : Z) : Prop :=
  forall pa, kernel_walk s va = Some pa -> 0 < pa / PAGE_SIZE < pmm_total_pages (v_pmm s) ->
    used (v_pmm s') (pa / PAGE_SIZE) = false.

(** Pages [va .. va + n) are gone since [s]. *)
Record run_unmapped (tau : Z -> option (Z * Z)) (n va : Z) (s s' : vmm) : Prop := {
  ru_at : vmm_at tau s';
  ru_static : same_static s s';
  ru_here : forall x, va <= x < va + n * PAGE_SIZE -> kernel_walk s' x = None;
  ru_there : forall x, mappable x -> ~ (va <= x < va + n * PAGE_SIZE) ->
    kernel_walk s' x = kernel_walk s x;
  ru_total : pmm_total_pages (v_pmm s') = pmm_total_pages (v_pmm s);
  ru_free : forall p, 0 <= p < pmm_total_pages (v_pmm s) -> used (v_pmm s) p = false -> used (v_pmm s') p = false;
  ru_back : forall i, 0 <= i < n -> frame_freed s s' (va + i * PAGE_SIZE)
}.

Lemma handed_back_used o p p' :
  handed_back o p p' ->
  pmm_total_pages p' = pmm_total_pages p /\
  (forall q, 0 <= q < pmm_total_pages p -> used p q = false -> used p' q = false) /\
  (forall pa, o = Some pa -> 0 < pa / PAGE_SIZE < pmm_total_pages p -> used p' (pa / PAGE_SIZE) = false).
Proof.
  unfold handed_back. destruct o as [pa|]; [|intros ->; done]. cbv zeta.
  destruct (_ && _) eqn:E.
  - zbool. intros [Ht Hm]. split_and!; [done | |].
    + intros q Hq Hu. rewrite Hm by done. by destruct (_ && _).
    + intros pa' [= <-] Hpa. rewrite Hm by lia.
      by rewrite (proj2 (Z.leb_le _ _)), (proj2 (Z.ltb_lt _ _)) by lia.
  - intros ->. split_and!; [done..|]. intros pa' [= <-] Hpa. apply andb_false_iff in E.
    rewrite !Z.ltb_ge in E. lia.
Qed.

Lemma page_run q k x :
  x / PAGE_SIZE = (q * PAGE_SIZE + k * PAGE_SIZE) / PAGE_SIZE <->
  q * PAGE_SIZE + k * PAGE_SIZE <= x < q * PAGE_SIZE + (k + 1) * PAGE_SIZE.
Proof.
  unfold PAGE_SIZE. rewrite <- Z.mul_add_distr_r, Z.div_mul by done. split; intros; zdiv_lia.
Qed.

Lemma wp_unmap_run tau n va s :
  vmm_at tau s -> va mod PAGE_SIZE = 0 ->
  (forall x, va <= x < va + Z.of_nat n * PAGE_SIZE -> mappable x) ->
  (forall i, 0 <= i < Z.of_nat n -> ordinary tau s (va + i * PAGE_SIZE)) ->
  wp (for_ n 0 (fun i => kernel_unmap (u64 (va + i * PAGE_SIZE))))
    (fun _ s' => run_unmapped tau (Z.of_nat n) va s s') s.
Proof.
  intros Hat Hva Hmap Hord. apply Z.mod_divide in Hva as [q ->]; [|done].
  apply (wp_for (fun k s' => 0 <= k /\ run_unmapped tau k (q * PAGE_SIZE) s s')).
  { split; [done|]. split; try done; intros; lia. }
  2:{ by intros s' [_ H]. }
  intros k s' Hk [_ [R1 (S1 & S2 & S3) R3 R4 R5 R6 R7]].
  assert (Hpos : forall j, 0 <= j < Z.of_nat n -> mappable (q * PAGE_SIZE + j * PAGE_SIZE)).
  { intros j Hj. apply Hmap. unfold PAGE_SIZE. lia. }
  pose proof (Hpos k ltac:(lia)) as Hv. rewrite mappable_u64 by done.
  set (v := q * PAGE_SIZE + k * PAGE_SIZE) in *.
  assert (Hwv : kernel_walk s' v = kernel_walk s v) by (apply R4; [done | unfold v, PAGE_SIZE; lia]).
  destruct R1 as (Hl & Hk0 & Hinv & Hwin). unfold kernel_unmap. wp_steps.
  pose proof (root_addr _ Hk0) as Hra. eapply wp_mono.
  { apply (wp_vmm_unmap_page (kernel_root s') s' tau _ v (kernel_root s' * PAGE_SIZE)); auto; done. }
  cbn beta. intros _ s2 U. pose proof U as [U1 U2 U3 U4 U5 U6 (U7 & U8 & U9)].
  destruct (handed_back_used _ _ _ U4) as (B1 & B2 & B3).
  assert (Hroot : kernel_root s2 = kernel_root s') by (unfold kernel_root; by rewrite U7).
  split; [lia|]. split.
  - split; [done|]. rewrite Hroot. split; [done|]. split.
    + eapply unmapped_vinv; [done | exact U|]. intros pa Hpa. fold (kernel_walk s' v) in Hpa.
      destruct (Hord k ltac:(lia)) as (pa' & H1 & H2). fold v in H1. rewrite Hwv, H1 in Hpa.
      injection Hpa as <-. by rewrite S2.
    + intros x Hx. unfold win_va. rewrite U8. by apply Hwin.
  - split_and!; congruence.
  - intros x Hx. unfold kernel_walk. rewrite Hroot. destruct (Z.lt_ge_cases x v).
    + rewrite U3; [apply R3; unfold v in *; lia | |].
      * intros Hsp. apply same_page_mappable in Hsp; [|done|apply Hmap; unfold v, PAGE_SIZE in *; lia].
        apply page_run in Hsp. fold v in Hsp. lia.
      * apply Hwin, Hmap. unfold v, PAGE_SIZE in *. lia.
    + apply (walk_page_none _ _ tau v); [by rewrite Hra | | done]. apply page_run. unfold v in *. lia.
  - intros x Hm Hx. unfold kernel_walk. rewrite Hroot. rewrite U3; [|intros Hsp|by apply Hwin].
    + apply R4; [done|]. unfold PAGE_SIZE in *. lia.
    + apply same_page_mappable in Hsp; [|done..]. apply page_run in Hsp. unfold PAGE_SIZE in *. lia.
  - congruence.
  - intros p Hp Hu. apply B2; [by rewrite R5|]. by apply R6.
  - intros i Hi pa Hpa Hr. destruct (Z.eq_dec i k) as [->|].
    + apply B3; [by fold (kernel_walk s' v); rewrite Hwv | by rewrite R5].
    + apply B2; [rewrite R5; lia|]. apply (R7 i); [lia | done | done].
Qed.

(** [pool_free] gives a buffer back: its pages are no longer mapped, the
    frames behind them are free again, its bits and no others are cleared, no
    other translation changes, and the lock is released. *)
Theorem pool_free_correct tau s start size :
  let n := (size + PAGE_SIZE - 1) / PAGE_SIZE in
  let a := KERNEL_POOL_VIRTUAL_BASE + start * PAGE_SIZE in
  vmm_at tau (pl_vmm s) -> pool_ok KERNEL_POOL_MAX_PAGES s ->
  0 <= start -> 0 < size -> start + n <= KERNEL_POOL_MAX_PAGES ->
  (forall i, 0 <= i < n -> ordinary tau (pl_vmm s) (a + i * PAGE_SIZE)) ->
  wp (pool_free a size)
    (fun _ s' => pool_ok KERNEL_POOL_MAX_PAGES s' /\
       bits_marked false KERNEL_POOL_MAX_PAGES start n (pool_bitmap s) (pool_bitmap s') /\
       (forall x, a <= x < a + n * PAGE_SIZE -> kernel_walk (pl_vmm s') x = None) /\
       (forall x, mappable x -> ~ (a <= x < a + n * PAGE_SIZE) ->
          kernel_walk (pl_vmm s') x = kernel_walk (pl_vmm s) x) /\
       (forall i, 0 <= i < n -> frame_freed (pl_vmm s) (pl_vmm s') (a + i * PAGE_SIZE))) s.
Proof.
  intros n a Hat [Hok Hbm Hl] Hst Hsz Hle Hord. unfold pool_free.
  assert (Hn : 0 < n /\ size <= n * PAGE_SIZE) by (unfold n, PAGE_SIZE; zdiv_lia).
  unfold KERNEL_POOL_MAX_PAGES in Hle.
  rewrite (proj2 (Z.eqb_neq size 0)) by lia.
  rewrite num_pages_eq by (unfold PAGE_SIZE in *; lia). fold n.
  unfold pool_lock_acquire. wp_steps. rewrite Hl. wp_steps.
  assert (Ha : KERNEL_POOL_VIRTUAL_BASE <= a) by (unfold a, PAGE_SIZE; lia).
  rewrite (proj2 (Z.ltb_ge a _)), (proj2 (Z.eqb_neq n 0)) by lia. cbn [orb].
  assert ((a - KERNEL_POOL_VIRTUAL_BASE) / PAGE_SIZE = start) as ->.
  { unfold a. replace (_ + _ - _) with (start * PAGE_SIZE) by lia. by apply Z.div_mul. }
  rewrite u64_small by lia. rewrite (proj2 (Z.ltb_ge KERNEL_POOL_MAX_PAGES _)) by (unfold KERNEL_POOL_MAX_PAGES; lia).
  unfold pl_on_vmm. wp_steps. eapply wp_mono.
  { apply (wp_unmap_run tau); rewrite ?Z2Nat.id by lia; try done.
    - unfold a. rewrite Z.mod_add by done. done.
    - intros x Hx. apply pool_window. unfold a, KERNEL_POOL_MAX_PAGES, PAGE_SIZE in *. lia. }
  cbn beta. rewrite Z2Nat.id by lia. intros _ v [R1 R2 R3 R4 R5 R6 R7]. wp_steps. eapply wp_mono.
  { apply (wp_clear_bits KERNEL_POOL_MAX_PAGES); cbn; try done; unfold KERNEL_POOL_MAX_PAGES; lia. }
  cbn beta. intros _ s2 (Hs2 & Hbm2 & Hmk). set (l2 := pool_bitmap s2) in *. clearbody l2. subst s2.
  unfold pool_lock_release. wp_steps. cbn. split_and!; try done.
  split; [|done|done]. destruct R1 as (? & ? & ? & ?). split; [done|]. split; [done|]. by exists tau.
Qed.

(** [pool_virtual_to_physical] is the processor's translation inside the
    window and 0 outside; the translation of the page at frame 0 also reads 0. *)
Theorem pool_virtual_to_physical_correct s va :
  pool_ok KERNEL_POOL_MAX_PAGES s -> 0 <= va ->
  wp (pool_virtual_to_physical va)
    (fun r _ => r = if (KERNEL_POOL_VIRTUAL_BASE <=? va) &&
                       (va <? KERNEL_POOL_VIRTUAL_BASE + KERNEL_POOL_MAX_PAGES * PAGE_SIZE)
                    then match kernel_walk (pl_vmm s) va with
                         | Some pa => if pa <? PAGE_SIZE then 0 else pa
                         | None => 0
                         end
                    else 0) s.
Proof.
  intros [(Hl & Hk & tau & Hinv & Hwin) _ _] Hva. unfold pool_virtual_to_physical.
  set (top := _ + _ * _). destruct (Z.leb_spec KERNEL_POOL_VIRTUAL_BASE va) as [H1|H1].
  2:{ rewrite (proj2 (Z.ltb_lt _ _)) by lia. by wp_steps. }
  rewrite (proj2 (Z.ltb_ge _ _)) by lia. cbn [orb]. rewrite Z.leb_antisym.
  destruct (Z.ltb_spec va top) as [H2|H2]; cbn [negb andb]; [|by wp_steps].
  assert (Hm : mappable va) by (apply pool_window; unfold top in H2; lia).
  assert (Hb : va < 2 ^ 64) by (unfold mappable, KERNEL_VIRTUAL_BASE in Hm; lia).
  assert (Z.land va (u64 (Z.lnot (PAGE_SIZE - 1))) = va / PAGE_SIZE * PAGE_SIZE) as ->.
  { apply (land_align va 12); lia. }
  assert (Z.land va (PAGE_SIZE - 1) = va mod PAGE_SIZE) as ->.
  { change (PAGE_SIZE - 1) with (Z.ones 12). by rewrite Z.land_ones. }
  set (pg := va / PAGE_SIZE * PAGE_SIZE).
  assert (Hpg : pg / PAGE_SIZE = va / PAGE_SIZE) by by apply Z.div_mul.
  assert (Hpm : pg mod PAGE_SIZE = 0) by by apply Z.mod_mul.
  assert (Hmp : mappable pg).
  { apply pool_window. unfold top, pg, KERNEL_POOL_VIRTUAL_BASE, KERNEL_POOL_MAX_PAGES, PAGE_SIZE in *. zdiv_lia. }
  unfold pl_on_vmm, kernel_phys. wp_steps. pose proof (root_addr _ Hk) as Hra. eapply wp_mono.
  { apply (wp_vmm_get_physical_address (kernel_root (pl_vmm s)) _ tau _
      (kernel_root (pl_vmm s) * PAGE_SIZE)); auto; done. }
  cbn beta. intros pa v [-> _]. fold (kernel_walk (pl_vmm s) pg). rewrite Hpm.
  assert (Ht : tree_ok (v_mem (pl_vmm s)) (bf_get F_ADDR (kernel_root (pl_vmm s) * PAGE_SIZE)) tau).
  { rewrite Hra. apply Hinv. }
  assert (Hmod : 0 <= va mod PAGE_SIZE < PAGE_SIZE) by by apply Z.mod_pos_bound.
  destruct (kernel_walk (pl_vmm s) pg) as [pa|] eqn:Ew.
  - pose proof Ew as Ew'. unfold kernel_walk in Ew'. rewrite (tree_walk _ _ tau) in Ew' by done. cbv zeta in Ew'.
    repeat (destruct (_ =? 0) in Ew'; [done|]). injection Ew' as Ew'. rewrite Hpm in Ew'.
    set (fr := bf_get F_ADDR _) in Ew' at 1.
    assert (Hfr : 0 <= fr < 2 ^ 40) by by apply Z.mod_pos_bound.
    assert (kernel_walk (pl_vmm s) va = Some (fr * PAGE_SIZE + va mod PAGE_SIZE)) as ->.
    { apply (walk_page _ _ tau pg); [done | done|]. fold (kernel_walk (pl_vmm s) pg). rewrite Ew, Hpm. f_equal. lia. }
    unfold PAGE_SIZE in *. destruct (Z.eqb_spec (pa - 0) 0); wp_steps.
    + rewrite (proj2 (Z.ltb_lt _ _)) by lia. done.
    + rewrite u64_small by lia. rewrite (proj2 (Z.ltb_ge _ _)) by lia. lia.
  - cbn [Z.eqb]. wp_steps. unfold kernel_walk. by rewrite (walk_page_none _ _ tau pg).
Qed.

(** ** Concrete instances *)

(** An empty pool window whose first page may be mapped to frame [fr]. *)
Definition example_pool (fr : Z) : pool :=
  Pool (one_page_vmm KERNEL_POOL_VIRTUAL_BASE fr example_pmm) (replicate 4096 0) false.

Lemma one_page_at va fr : vmm_at (one_page_tau va) (one_page_vmm va fr example_pmm).
Proof.
  split; [done|]. split; [done|]. split.
  - apply one_page_vinv; [apply example_pmm_ok | done | done].
  - intros va' _. apply one_page_no_window.
Qed.

Lemma zero_bitmap_ok n : bitmap_ok (Z.of_nat n * 32) (replicate n 0).
Proof. split; [unfold zlen; rewrite length_replicate; lia | by apply Forall_replicate]. Qed.

Lemma example_pool_ok fr : pool_ok KERNEL_POOL_MAX_PAGES (example_pool fr).
Proof.
  destruct (one_page_at KERNEL_POOL_VIRTUAL_BASE fr) as (H1 & H2 & H3 & H4). split; [|apply (zero_bitmap_ok 4096)|done].
  split; [done|]. split; [done|]. by exists (one_page_tau KERNEL_POOL_VIRTUAL_BASE).
Qed.

Lemma pool_alloc_witness :
  wp (pool_alloc 5000)
    (fun a s' => a = 0 \/ exists f, 0 < f /\ kernel_walk (pl_vmm s') (a + 4999) = Some (f * PAGE_SIZE + 4999))
    (example_pool 13).
Proof.
  eapply wp_mono.
  - apply (pool_alloc_correct (example_pool 13) 5000);
      [apply example_pool_ok | done | vm_compute; lia].
  - cbn beta. intros a s' [[_ _ (f & Hf & Hw) _]|[-> _]]; [right | by left].
    exists f. split; [done|]. by apply Hw.
Defined.

(** The bitmap [shm_init] clears. *)
Definition shm_words : nat := Z.to_nat 2097152.

Lemma shm_bitmap_ok : bitmap_ok USER_SHM_MAX_PAGES (replicate shm_words 0).
Proof.
  split; [|by apply Forall_replicate]. unfold zlen, shm_words. by rewrite length_replicate, Z2Nat.id.
Qed.

Lemma shm_alloc_witness :
  wp (shm_alloc 4096 7)
    (fun a s' => a = 0 \/ a = USER_SHM_VIRTUAL_BASE)
    (Pool example_vmm (replicate shm_words 0) false).
Proof.
  eapply wp_mono.
  - apply (shm_alloc_correct (Pool example_vmm (replicate shm_words 0) false) 4096 7).
    + split; [apply example_vmm_ok | apply shm_bitmap_ok | done].
    + done.
    + vm_compute. lia.
  - cbn beta. intros a s' [[_ (st & (H0 & _ & _ & Hlow) & -> & _) _ _]|[-> _]]; [right | by left].
    destruct (Z.eq_dec st 0) as [->|]; [done|]. exfalso. apply (Hlow 0); [lia|].
    intros p Hp. change ((4096 + PAGE_SIZE - 1) / PAGE_SIZE) with 1 in Hp.
    assert (p = 0) as -> by lia. unfold bit. cbn [pool_bitmap]. change (Z.to_nat (0 / 32)) with 0%nat.
    rewrite lookup_replicate_2 by (unfold shm_words; lia). done.
Defined.

Lemma pool_free_witness :
  wp (pool_free KERNEL_POOL_VIRTUAL_BASE 100)
    (fun _ s' => kernel_walk (pl_vmm s') KERNEL_POOL_VIRTUAL_BASE = None /\
                 used (v_pmm (pl_vmm s')) 13 = false) (example_pool 13).
Proof.
  eapply wp_mono.
  - apply (pool_free_correct (one_page_tau KERNEL_POOL_VIRTUAL_BASE) (example_pool 13) 0 100);
      [apply one_page_at | apply example_pool_ok | done | done | done |].
    intros i Hi. change ((100 + PAGE_SIZE - 1) / PAGE_SIZE) with 1 in Hi. assert (i = 0) as -> by lia.
    exists 0xD000. by split_and!.
  - cbn beta. intros _ s' (_ & _ & Hn & _ & Hf). split; [by apply Hn|].
    apply (Hf 0 ltac:(done) 0xD000); done.
Defined.

Lemma pool_virtual_to_physical_witness :
  wp (pool_virtual_to_physical (KERNEL_POOL_VIRTUAL_BASE + 0x123)) (fun r _ => r = 0xD123) (example_pool 13).
Proof.
  eapply wp_mono; [apply (pool_virtual_to_physical_correct (example_pool 13)); [apply example_pool_ok | done]|].
  cbn beta. intros r s' ->. vm_compute. reflexivity.
Defined.

(** ** What the code does outside the theorems' conditions *)

(** [shm_free] releases each frame twice: once in [vmm_unmap_page] and once
    with [pmm_free_pages].  Between the two the frame is already free, so an
    allocation by another processor in that window would be undone. *)
Lemma shm_free_twice :
  wp (va <-- kret USER_SHM_VIRTUAL_BASE ;; pa <-- kernel_phys va ;; kernel_unmap va ;;;
      a <-- v_on_pmm pmm_alloc_page ;; b <-- v_on_pmm (pmm_free_pages pa 1) ;;
      kgets (fun s => (pa, a, used (v_pmm s) (a / PAGE_SIZE))))
    (fun r _ => r = (0xC000, 0xC000, false))
    (one_page_vmm USER_SHM_VIRTUAL_BASE 12 (Pmm false [0xFF; 0xFF] 14 2)).
Proof. vm_compute. reflexivity. Qed.
