(* ===== verification/UserMem.v ===== *)
(** * User memory: the process break and shared segments

    [kernel/kernel/mm/brk.c], [kernel/kernel/ipc/shm.c] and
    [kernel/kernel/ipc/process_ipc_clean.c].  Both map pages into the address
    space of a process, whose PML4 they reach through a scratch window. *)

From Stdlib Require Import ZArith Lia.
From stdpp Require Import base tactics list.
From S2P Require Import Prelude Bitmap Paging Pmm Vmm Pages.

Definition USER_HEAP_VIRTUAL_BASE : Z := 0x0000000008000000.
Definition PAGE_USER_FLAGS : Z := 7.
Definition MAX_SHM_SEGMENTS : Z := 16.
Definition MAX_SHARED_REGIONS : Z := 8.
Definition SHM_CREAT : Z := 0x0200.
Definition USER_SHM_BASE : Z := USER_HEAP_VIRTUAL_BASE.

(** The fields of the process control block the two modules use. *)
Record proc_mem : Type := ProcMem {
  pm_cr3 : Z;
  heap_end : Z;
  stack_limit : Z;
  shm_ids : list Z;
  shm_virtual_addresses : list Z
}.

Definition set_heap_end (e : Z) (p : proc_mem) : proc_mem :=
  ProcMem (pm_cr3 p) e (stack_limit p) (shm_ids p) (shm_virtual_addresses p).
Definition set_shm_slots (ids addrs : list Z) (p : proc_mem) : proc_mem :=
  ProcMem (pm_cr3 p) (heap_end p) (stack_limit p) ids addrs.

(** ** [brk] *)

Record brk_state : Type := Brk {
  bk_vmm : vmm;
  bk_proc : option proc_mem;      (* owner of the running thread, if any *)
  g_brk_lock : bool
}.

Definition set_bk_vmm (v : vmm) (s : brk_state) : brk_state := Brk v (bk_proc s) (g_brk_lock s).
Definition set_bk_proc (p : proc_mem) (s : brk_state) : brk_state := Brk (bk_vmm s) (Some p) (g_brk_lock s).
Definition set_brk_lock (b : bool) (s : brk_state) : brk_state := Brk (bk_vmm s) (bk_proc s) b.

Definition bk_on_vmm {A} (m : M vmm A) : M brk_state A := zoom bk_vmm set_bk_vmm m.
Definition brk_lock : M brk_state unit :=
  b <-- kgets g_brk_lock ;; if b then kstop Deadlock else kmodify (set_brk_lock true).
Definition brk_unlock : M brk_state unit := kmodify (set_brk_lock false).

(** One page of the growth: a cleared frame mapped at [v_addr]. *)
Definition brk_page (cr3 page_start i : Z) (_ : unit) : M vmm (unit + unit) :=
  let v_addr := u64 (page_start + i * PAGE_SIZE) in
  phys_page <-- v_on_pmm pmm_alloc_page ;;
  if phys_page =? 0 then kret (inr tt) else
  scratch <-- vmm_scratch_map_brk phys_page ;;
  zero_t scratch ;;;
  target_pml4 <-- vmm_scratch_map_brk cr3 ;;
  vmm_map_page target_pml4 v_addr phys_page PAGE_USER_FLAGS ;;;
  kret (inl tt).

Definition page_up (a : Z) : Z := Z.land (u64 (a + PAGE_SIZE - 1)) (u64 (Z.lnot 0xFFF)).

Definition brk (new_break : Z) : M brk_state Z :=
  o <-- kgets bk_proc ;;
  match o with
  | None => kret 0
  | Some proc =>
      let old_break := heap_end proc in
      brk_lock ;;;
      if (new_break =? 0) || (new_break =? old_break) then brk_unlock ;;; kret old_break else
      if (new_break <? USER_HEAP_VIRTUAL_BASE) || (stack_limit proc <=? new_break) then
        brk_unlock ;;; kret old_break else
      r <-- (if old_break <? new_break then
               let page_start := page_up old_break in
               let page_end := page_up new_break in
               bk_on_vmm (loop (Z.to_nat ((page_end - page_start + PAGE_SIZE - 1) / PAGE_SIZE)) 0
                            (brk_page (pm_cr3 proc) page_start) tt)
             else kret (inl tt)) ;;
      match r with
      | inr _ => brk_unlock ;;; kret old_break
      | inl _ =>
          kmodify (set_bk_proc (set_heap_end new_break proc)) ;;;
          brk_unlock ;;;
          kret new_break
      end
  end.

(** ** Shared segments *)

Record shm_segment_t : Type := Seg {
  seg_id : Z;
  phys_frame : Z;
  ref_count : Z;
  is_active : bool
}.

Record shm_state : Type := Shm {
  sh_vmm : vmm;
  g_shm_table : list shm_segment_t;
  g_next_shm_id : Z
}.

Definition set_sh_vmm (v : vmm) (s : shm_state) : shm_state := Shm v (g_shm_table s) (g_next_shm_id s).
Definition set_shm_table (t : list shm_segment_t) (s : shm_state) : shm_state :=
  Shm (sh_vmm s) t (g_next_shm_id s).
Definition sh_on_vmm {A} (m : M vmm A) : M shm_state A := zoom sh_vmm set_sh_vmm m.

(** The first entry of the table that satisfies [P], as the search loops
    find it. *)
Fixpoint find_from {A} (P : A -> bool) (i : nat) (l : list A) : option (nat * A) :=
  match l with
  | [] => None
  | a :: l' => if P a then Some (i, a) else find_from P (S i) l'
  end.

Definition seg_matches (key : Z) (g : shm_segment_t) : bool := is_active g && (seg_id g =? key).

Definition sys_shm_get (key flags : Z) : M shm_state Z :=
  t <-- kgets g_shm_table ;;
  match find_from (seg_matches key) 0 t with
  | Some (_, g) => kret (seg_id g)
  | None =>
      if Z.land flags SHM_CREAT =? 0 then kret (-1) else
      match find_from (fun g => negb (is_active g)) 0 t with
      | None => kret (-1)
      | Some (i, _) =>
          phys <-- sh_on_vmm (v_on_pmm pmm_alloc_page) ;;
          if phys =? 0 then kret (-1) else
          sh_on_vmm (p <-- vmm_scratch_map phys ;; zero_t p) ;;;
          id <-- kgets g_next_shm_id ;;
          kmodify (fun s => Shm (sh_vmm s) (<[i := Seg id phys 0 true]> (g_shm_table s)) (s32 (id + 1))) ;;;
          kret id
      end
  end.

(** The result is the address (-1 on failure) and the process with its new
    slot. *)
Definition sys_shm_at (shmid : Z) (proc : proc_mem) : M shm_state (Z * proc_mem) :=
  t <-- kgets g_shm_table ;;
  match find_from (seg_matches shmid) 0 t with
  | None => kret (-1, proc)
  | Some (i, seg) =>
      match find_from (fun id => id =? 0) 0 (shm_ids proc) with
      | None => kret (-1, proc)
      | Some (slot, _) =>
          let virt_addr := USER_SHM_BASE + Z.of_nat slot * 4096 in
          sh_on_vmm (pml4 <-- vmm_scratch_map (pm_cr3 proc) ;;
                     vmm_map_page pml4 virt_addr (phys_frame seg) 0x6) ;;;
          kmodify (fun s => set_shm_table
            (<[i := Seg (seg_id seg) (phys_frame seg) (s32 (ref_count seg + 1)) true]> (g_shm_table s)) s) ;;;
          kret (virt_addr, set_shm_slots (<[slot := shmid]> (shm_ids proc))
                             (<[slot := virt_addr]> (shm_virtual_addresses proc)) proc)
      end
  end.

Definition detach_shm_segment (shmid : Z) : M shm_state unit :=
  t <-- kgets g_shm_table ;;
  match find_from (seg_matches shmid) 0 t with
  | None => kret tt
  | Some (i, seg) =>
      let n := s32 (ref_count seg - 1) in
      if n <=? 0 then
        sh_on_vmm (v_on_pmm (pmm_free_page (phys_frame seg))) ;;;
        kmodify (fun s => set_shm_table (<[i := Seg 0 0 0 false]> (g_shm_table s)) s)
      else
        kmodify (fun s => set_shm_table
          (<[i := Seg (seg_id seg) (phys_frame seg) n true]> (g_shm_table s)) s)
  end.

(** One slot of [process_ipc_cleanup]; the process is threaded through. *)
Definition cleanup_slot (i : Z) (proc : proc_mem) : M shm_state (proc_mem + unit) :=
  id <-- rd (shm_ids proc) i ;;
  if id =? 0 then kret (inl proc) else
  detach_shm_segment id ;;;
  ids <-- upd (shm_ids proc) i 0 ;;
  addrs <-- upd (shm_virtual_addresses proc) i 0 ;;
  kret (inl (set_shm_slots ids addrs proc)).

Definition process_ipc_cleanup (proc : proc_mem) : M shm_state proc_mem :=
  r <-- loop (Z.to_nat MAX_SHARED_REGIONS) 0 cleanup_slot proc ;;
  match r with inl p => kret p | inr _ => kret proc end.

(** ** Growing an address space by one cleared page *)

(** [s'] extends the address space of [s]: the invariant holds, the spare
    frames are as they were, and at most [n] frames were taken. *)
Record grown (root : Z) (n : nat) (s : vmm) (tau : Z -> option (Z * Z))
    (s' : vmm) (tau' : Z -> option (Z * Z)) : Prop := {
  gr_inv : vinv s' root tau';
  gr_lock : g_vmm_lock s' = false;
  gr_wpt : g_window_pt s' = g_window_pt s;
  gr_wtau : tau' (g_window_pt s) = tau (g_window_pt s) /\
            tau' (g_window_pt s + 1) = tau (g_window_pt s + 1);
  gr_free : (length (free_list (v_pmm s)) <= length (free_list (v_pmm s')) + n)%nat;
  gr_spare : forall f, spare s tau f -> spare s' tau' f /\ forall i, v_mem s' f i = v_mem s f i
}.

Lemma grown_win root n s tau s' tau' va : grown root n s tau s' tau' -> win_va s' tau' va <-> win_va s tau va.
Proof. intros [_ _ W [A B] _ _]. unfold win_va. by rewrite W, A, B. Qed.

Lemma grown_trans root n1 n2 s tau s1 tau1 s2 tau2 :
  grown root n1 s tau s1 tau1 -> grown root n2 s1 tau1 s2 tau2 -> grown root (n1 + n2) s tau s2 tau2.
Proof.
  intros [I1 L1 W1 [A1 B1] F1 S1] [I2 L2 W2 [A2 B2] F2 S2]. rewrite W1 in *.
  split; try done; [split; congruence | lia |].
  intros f Hf. destruct (S1 f Hf) as [Hf1 M1]. destruct (S2 f Hf1) as [Hf2 M2].
  split; [done|]. intros i. by rewrite M2, M1.
Qed.

(** Writing to a spare frame changes no translation. *)
Lemma spare_write root s tau f m' :
  vinv s root tau -> tau f = None -> (forall g i, g <> f -> m' g i = v_mem s g i) ->
  vinv (set_v_mem m' s) root tau /\
  forall c va, bf_get F_ADDR c = root -> mmu_walk m' c va = mmu_walk (v_mem s) c va.
Proof.
  intros Hinv Hf Hm. pose proof Hinv as [[Tr Tp Td] Hp Ht Hr Hfr Hw].
  assert (Hne : forall g x i, tau g = Some x -> m' g i = v_mem s g i).
  { intros g x i Hg. apply Hm. congruence. }
  split.
  - split; cbn; try done. split; [done | |]; intros g L pre i Hg HL Hi; rewrite (Hne _ _ _ Hg); eauto.
  - intros c va Hc. apply walk_ext. rewrite Hc. intros L g Hreach.
    apply (Hne g (L, pref L va)). eapply reach_tau; [apply Hinv | done].
Qed.

(** A fresh frame, written through window [w] and mapped at [v_addr]: what
    [brk_page] and the program loader do with a page. *)
Definition new_page (w cr3 v_addr : Z) (write : tptr -> M vmm unit) : M vmm (unit + unit) :=
  phys_page <-- v_on_pmm pmm_alloc_page ;;
  if phys_page =? 0 then kret (inr tt) else
  scratch <-- vmm_scratch_map_internal phys_page w ;;
  write scratch ;;;
  target_pml4 <-- vmm_scratch_map_internal cr3 w ;;
  vmm_map_page target_pml4 v_addr phys_page PAGE_USER_FLAGS ;;;
  kret (inl tt).

(** [write] changes only the frame behind its pointer, to words that satisfy
    [P]. *)
Definition writes_frame (write : tptr -> M vmm unit) (P : (Z -> Z) -> Prop) : Prop :=
  forall p n s, frame_of s p = Some n ->
    wp (write p) (fun _ s' => exists m', s' = set_v_mem m' s /\ (forall g i, g <> n -> m' g i = v_mem s g i) /\ P (m' n)) s.

(** A frame is taken. *)
Lemma wp_take_frame root s tau (Q : Z -> vmm -> Prop) :
  vinv s root tau -> g_vmm_lock s = false -> (1 <= length (free_list (v_pmm s)))%nat ->
  (forall n s1, 0 < n < 2 ^ 24 -> grown root 1 s tau s1 tau -> spare s1 tau n -> v_mem s1 = v_mem s ->
     (n ∈ free_list (v_pmm s)) -> Q (n * PAGE_SIZE) s1) ->
  wp (v_on_pmm pmm_alloc_page) Q s.
Proof.
  intros Hinv Hl Hfree HQ. apply (wp_v_alloc root s tau); [done | by eapply nonempty_length with (n := 0%nat); lia|].
  intros n p' Hpop Hok Htot Hn.
  assert (n ∈ free_list (v_pmm s)) as Hin by (rewrite Hpop; by left).
  destruct (vi_fresh _ _ _ Hinv n Hin) as (_ & Hntau & Hnw & Hnw1).
  assert (Hnd : NoDup (n :: free_list p')) by (rewrite <- Hpop; apply NoDup_filter, NoDup_seqZ).
  apply NoDup_cons in Hnd as [Hnp _]. assert (Hlen : length (free_list (v_pmm s)) = S (length (free_list p'))) by by rewrite Hpop.
  apply HQ; try done. split; try done.
  - destruct Hinv as [Tr Hpm Ht Hr Hfr Hwi]. split; cbn; try done; [by rewrite Htot|].
    intros q Hq. apply Hfr. rewrite Hpop. by right.
  - cbn. lia.
  - intros f (G1 & G2 & G3 & G4). rewrite Hpop in G2. apply not_elem_of_cons in G2 as [G2 G5]. by split_and!.
Qed.

(** A frame that nothing uses is mapped through window [w]. *)
Lemma wp_map_into root s tau w va n :
  vinv s root tau -> g_vmm_lock s = false -> 0 <= root < 2 ^ 40 -> w = 10 \/ w = 11 ->
  (3 <= length (free_list (v_pmm s)))%nat -> ~ win_va s tau va -> spare s tau n -> 0 <= n < 2 ^ 40 ->
  wp (target_pml4 <-- vmm_scratch_map_internal (root * PAGE_SIZE) w ;; vmm_map_page target_pml4 va (n * PAGE_SIZE) PAGE_USER_FLAGS)
    (fun _ s' => exists tau', grown root 3 s tau s' tau' /\
       forall c, bf_get F_ADDR c = root ->
         mmu_walk (v_mem s') c va = Some (n * PAGE_SIZE + va mod PAGE_SIZE) /\
         forall va', ~ same_page va va' -> ~ win_va s tau va' ->
           mmu_walk (v_mem s') c va' = mmu_walk (v_mem s) c va') s.
Proof.
  intros Hinv Hl Hroot Hw Hfree Hwin Hsp Hn. apply wp_bind.
  apply (wp_scratch root s tau); [done | lia.. |]. intros s4 V4 E4 Hw4 _ Hm4. cbn beta.
  pose proof (vs_inv _ _ _ _ _ _ V4) as I4. pose proof (vs_wpt _ _ _ _ _ _ V4) as W4.
  assert (Hp4 : v_pmm s4 = v_pmm s) by (by rewrite E4). assert (Hl4 : g_vmm_lock s4 = false) by (by rewrite E4).
  assert (Hwin4 : forall v, win_va s4 tau v <-> win_va s tau v) by (intros v; unfold win_va; by rewrite W4).
  eapply wp_mono.
  { apply (wp_vmm_map_page root s4 tau); try done; [by rewrite Hp4 | destruct Hw as [-> | ->]; done | by rewrite Hwin4]. }
  cbn beta. intros _ s5 (tau' & [I L W [A B] K D Hhere Hthere F O]). rewrite W4, Hp4 in *.
  exists tau'. split.
  - split; try done. intros f Hf. pose proof Hf as (G1 & G2 & G3 & G4).
    destruct (O f) as [O1 O2]; [by split_and!; rewrite ?W4, ?Hp4|]. split; [done|]. intros j. by rewrite O2, Hm4.
  - intros c Hc. split; [by apply Hhere|]. intros va' Hne Hwin'.
    rewrite Hthere by (rewrite ?Hwin4; done). by rewrite (vs_walk _ _ _ _ _ _ V4 c va' Hc).
Qed.

Lemma wp_new_page root s tau w va write P :
  vinv s root tau -> g_vmm_lock s = false -> 0 <= root < 2 ^ 40 -> w = 10 \/ w = 11 ->
  (4 <= length (free_list (v_pmm s)))%nat -> ~ win_va s tau va -> writes_frame write P ->
  wp (new_page w (root * PAGE_SIZE) va write)
    (fun r s' => r = inl tt /\ exists tau' f words, grown root 4 s tau s' tau' /\ spare s' tau' f /\
       P words /\ (forall j, v_mem s' f j = words j) /\
       forall c, bf_get F_ADDR c = root ->
         mmu_walk (v_mem s') c va = Some (f * PAGE_SIZE + va mod PAGE_SIZE) /\
         forall va', ~ same_page va va' -> ~ win_va s tau va' ->
           mmu_walk (v_mem s') c va' = mmu_walk (v_mem s) c va') s.
Proof.
  intros Hinv Hl Hroot Hw Hfree Hwin Hwrite. unfold new_page.
  apply wp_bind, (wp_take_frame root s tau); [done|done|lia|]. intros n s1 Hn G1 Hsp1 Em Hin.
  unfold PAGE_SIZE at 1. rewrite (proj2 (Z.eqb_neq _ _)) by lia. pose proof Hsp1 as (Hntau & Hnf & Hnw & Hnw1).
  apply wp_bind, (wp_scratch root s1 tau); [apply G1 | lia.. |]. intros s2 V2 E2 Hw2 _ Hm2.
  apply wp_bind. eapply wp_mono; [apply (Hwrite _ n); exact Hw2|]. intros [] s3 (m' & -> & Hm' & HP).
  pose proof (vs_inv _ _ _ _ _ _ V2) as I2. pose proof (vs_wpt _ _ _ _ _ _ V2) as W2.
  destruct (spare_write root s2 tau n m' I2 Hntau Hm') as [I3 Wk3]. set (s3 := set_v_mem m' s2) in *.
  assert (Hp3 : v_pmm s3 = v_pmm s1) by (unfold s3; cbn; by rewrite E2). pose proof (gr_free _ _ _ _ _ _ G1) as Hf1.
  assert (Hwin3 : forall v, win_va s3 tau v <-> win_va s tau v).
  { intros v. rewrite <- (grown_win _ _ _ _ _ _ v G1). unfold win_va. change (g_window_pt s3) with (g_window_pt s2). by rewrite W2. }
  assert (Hspx : forall f, spare s1 tau f -> spare s3 tau f).
  { intros f Hf. unfold spare in *. change (g_window_pt s3) with (g_window_pt s2). by rewrite Hp3, W2. }
  pose proof (Hspx n Hsp1) as Hsp3.
  pose proof (wp_map_into root s3 tau w va n I3 ltac:(unfold s3; cbn; rewrite E2; apply G1) Hroot Hw ltac:(rewrite Hp3; lia) ltac:(by rewrite Hwin3) Hsp3 ltac:(lia)) as Hmap.
  apply wp_bind_inv in Hmap. apply wp_bind. eapply wp_mono; [exact Hmap|]. cbn beta. intros pm s4 H4. apply wp_bind. eapply wp_mono; [exact H4|].
  cbn beta. intros [] s5 (tau' & G5 & Hk). apply wp_ret. split; [done|].
  exists tau', n, (m' n). destruct (gr_spare _ _ _ _ _ _ G5 n Hsp3) as [Hsp5 Hm5]. split_and!; [|done|done|done|].
  - assert (W31 : g_window_pt s3 = g_window_pt s) by (change (g_window_pt s3) with (g_window_pt s2); rewrite W2; apply G1).
    destruct G5 as [I5 L5 W5 AB5 F5 S5]. rewrite W31 in W5, AB5. rewrite Hp3 in F5. split; try done; [lia|]. intros f Hf.
    destruct (gr_spare _ _ _ _ _ _ G1 f Hf) as [Hf1' Hm1]. destruct (S5 f (Hspx f Hf1')) as [O1 O2]. split; [done|]. intros j.
    rewrite O2. unfold s3. cbn. rewrite Hm' by (intros ->; by apply (proj1 (proj2 Hf))).
    rewrite Hm2, Hm1; [done|apply Hf1'..].
  - intros c Hc. destruct (Hk c Hc) as [K1 K2]. split; [done|]. intros va' Hne Hwin'.
    rewrite K2 by (rewrite ?Hwin3; done). unfold s3. cbn. rewrite Wk3 by done.
    rewrite (vs_walk _ _ _ _ _ _ V2 c va' Hc) by (by rewrite (grown_win _ _ _ _ _ _ _ G1)). by rewrite Em.
Qed.

Lemma zero_writes : writes_frame zero_t (fun words => forall j, words j = 0).
Proof.
  intros p n s Hp. unfold zero_t, deref, v_write. wp_steps. eapply wp_opt; [exact Hp|]. wp_steps. eexists. split; [reflexivity|].
  split; [intros g j Hg; by apply pzero_ne|intros j; apply pzero_eq].
Qed.

Lemma wp_brk_page root s tau start i :
  let va := start + i * PAGE_SIZE in
  vinv s root tau -> g_vmm_lock s = false -> 0 <= root < 2 ^ 40 ->
  (4 <= length (free_list (v_pmm s)))%nat -> mappable va -> ~ win_va s tau va ->
  wp (brk_page (root * PAGE_SIZE) start i tt)
    (fun r s' => r = inl tt /\ exists tau' f, grown root 4 s tau s' tau' /\ spare s' tau' f /\
       (forall j, v_mem s' f j = 0) /\
       forall c, bf_get F_ADDR c = root ->
         mmu_walk (v_mem s') c va = Some (f * PAGE_SIZE + va mod PAGE_SIZE) /\
         forall va', ~ same_page va va' -> ~ win_va s tau va' ->
           mmu_walk (v_mem s') c va' = mmu_walk (v_mem s) c va') s.
Proof.
  intros va Hinv Hl Hroot Hfree Hva Hwin.
  assert (u64 (start + i * PAGE_SIZE) = va) as E.
  { unfold mappable, KERNEL_VIRTUAL_BASE in Hva. apply u64_small. lia. }
  change (brk_page _ _ _ _) with (new_page 11 (root * PAGE_SIZE) (u64 (start + i * PAGE_SIZE)) zero_t). rewrite E.
  eapply wp_mono; [apply (wp_new_page root s tau 11 va zero_t (fun words => forall j, words j = 0)); try done; [by right|exact zero_writes]|].
  intros r s' (-> & tau' & f & words & G & Hsp & Hz & Hm & Hk). split; [done|]. exists tau', f. split_and!; try done.
  intros j. by rewrite Hm.
Qed.

(** The pages [start .. start + n) of the address space hold cleared frames
    and every other translation is that of [s]. *)
Record brk_grown (root n start : Z) (s : vmm) (tau : Z -> option (Z * Z)) (s' : vmm) : Prop := {
  bg_state : exists tau', grown root (4 * Z.to_nat n) s tau s' tau' /\
    forall x, start <= x < start + n * PAGE_SIZE ->
      exists f, spare s' tau' f /\ (forall j, v_mem s' f j = 0) /\
        forall c, bf_get F_ADDR c = root -> mmu_walk (v_mem s') c x = Some (f * PAGE_SIZE + x mod PAGE_SIZE);
  bg_other : forall c x, bf_get F_ADDR c = root -> mappable x -> ~ (start <= x < start + n * PAGE_SIZE) ->
    mmu_walk (v_mem s') c x = mmu_walk (v_mem s) c x
}.

Lemma wp_brk_loop root n start s tau :
  vinv s root tau -> g_vmm_lock s = false -> 0 <= root < 2 ^ 40 ->
  (forall va, mappable va -> ~ win_va s tau va) -> start mod PAGE_SIZE = 0 ->
  (forall x, start <= x < start + Z.of_nat n * PAGE_SIZE -> mappable x) ->
  (4 * n <= length (free_list (v_pmm s)))%nat ->
  wp (loop n 0 (brk_page (root * PAGE_SIZE) start) tt)
    (fun r s' => r = inl tt /\ brk_grown root (Z.of_nat n) start s tau s') s.
Proof.
  intros Hinv Hl Hroot Hwin Hst Hmap Hfree. apply Z.mod_divide in Hst as [q ->]; [|done].
  apply (wp_loop (fun k (_ : unit) s' => 0 <= k /\ brk_grown root k (q * PAGE_SIZE) s tau s')).
  { split; [done|]. split; [|done]. exists tau. split; [|intros x Hx; lia]. split; try done. lia. }
  2:{ by intros [] s' [_ H]. }
  intros k [] s' Hk [_ [(tau1 & G1 & H1) H2]]. set (v := q * PAGE_SIZE + k * PAGE_SIZE).
  assert (Hm1 : forall x, q * PAGE_SIZE <= x < q * PAGE_SIZE + (k + 1) * PAGE_SIZE -> mappable x).
  { intros x Hx. apply Hmap. unfold PAGE_SIZE in *. lia. }
  assert (Hv : mappable v) by (apply Hm1; unfold v, PAGE_SIZE; lia).
  pose proof (gr_free _ _ _ _ _ _ G1) as Hf1.
  assert (Hwin1 : forall x, mappable x -> ~ win_va s' tau1 x).
  { intros x Hx. rewrite (grown_win _ _ _ _ _ _ _ G1). auto. }
  eapply wp_mono; [apply (wp_brk_page root s' tau1); try apply G1; auto; lia|].
  cbn beta. intros r s2 (-> & tau2 & f & G2 & Hsp & Hz & Hw). fold v in Hw.
  assert (Hpg : forall x, mappable x -> ~ (v <= x < v + PAGE_SIZE) -> forall c, bf_get F_ADDR c = root ->
    mmu_walk (v_mem s2) c x = mmu_walk (v_mem s') c x).
  { intros x Hx Hout c Hc. apply (Hw c Hc); [|auto]. intros Hsp'.
    apply same_page_mappable in Hsp'; [|done..]. unfold v, PAGE_SIZE in *. zdiv_lia. }
  split; [lia|]. split.
  - exists tau2. split.
    { replace (4 * Z.to_nat (k + 1))%nat with (4 * Z.to_nat k + 4)%nat by lia. by eapply grown_trans. }
    intros x Hx. destruct (Z.lt_ge_cases x v).
    + destruct (H1 x ltac:(unfold v in *; lia)) as (g & Hg & Hgz & Hgw).
      destruct (gr_spare _ _ _ _ _ _ G2 g Hg) as [Hg2 Hgm]. exists g. split_and!; [done | |].
      * intros j. by rewrite Hgm.
      * intros c Hc. rewrite Hpg; [by apply Hgw | by apply Hm1 | lia | done].
    + exists f. split_and!; [done..|]. intros c Hc.
      apply (walk_page _ _ tau2 v); [rewrite Hc; apply G2 | unfold v, PAGE_SIZE in *; zdiv_lia | by apply Hw].
  - intros c x Hc Hx Hout. rewrite Hpg; [apply H2; try done | done | | done]; unfold v, PAGE_SIZE in *; lia.
Qed.

Lemma page_up_spec a : 0 <= a < 2 ^ 63 -> page_up a = (a + PAGE_SIZE - 1) / PAGE_SIZE * PAGE_SIZE.
Proof.
  intros Ha. unfold page_up, PAGE_SIZE. rewrite (u64_small (a + 4096 - 1)) by lia.
  change 0xFFF with (2 ^ 12 - 1). rewrite land_align by lia. done.
Qed.

(** Growing the break.  [brk] to a higher address below the stack maps
    every page up to the new break to a frame that is cleared and belongs to
    nothing else, changes no other translation of the process, records and
    returns the new break, and releases its lock. *)
Theorem brk_grows root s tau p new_break :
  let start := page_up (heap_end p) in
  let n := (page_up new_break - start) / PAGE_SIZE in
  vinv (bk_vmm s) root tau -> g_vmm_lock (bk_vmm s) = false -> 0 <= root < 2 ^ 40 ->
  (forall va, mappable va -> ~ win_va (bk_vmm s) tau va) ->
  bk_proc s = Some p -> pm_cr3 p = root * PAGE_SIZE -> g_brk_lock s = false ->
  USER_HEAP_VIRTUAL_BASE <= heap_end p < new_break -> new_break < stack_limit p <= 2 ^ 46 ->
  (4 * Z.to_nat n <= length (free_list (v_pmm (bk_vmm s))))%nat ->
  wp (brk new_break)
    (fun r s' => r = new_break /\ bk_proc s' = Some (set_heap_end new_break p) /\ g_brk_lock s' = false /\
       brk_grown root n start (bk_vmm s) tau (bk_vmm s')) s.
Proof.
  intros start n Hinv Hl Hroot Hwin Hp Hcr3 Hbl Hlo Hhi Hfree. unfold brk. wp_steps. rewrite Hp.
  unfold brk_lock, USER_HEAP_VIRTUAL_BASE in *. wp_steps. rewrite Hbl. wp_steps.
  rewrite (proj2 (Z.eqb_neq new_break 0)), (proj2 (Z.eqb_neq new_break _)) by lia. cbn [orb].
  rewrite (proj2 (Z.ltb_ge new_break _)), (proj2 (Z.leb_gt (stack_limit p) _)) by lia. cbn [orb].
  rewrite (proj2 (Z.ltb_lt (heap_end p) _)) by lia. wp_steps.
  assert (Hs : start = (heap_end p + PAGE_SIZE - 1) / PAGE_SIZE * PAGE_SIZE) by (apply page_up_spec; lia).
  assert (He : page_up new_break = (new_break + PAGE_SIZE - 1) / PAGE_SIZE * PAGE_SIZE) by (apply page_up_spec; lia).
  assert (Hn : 0 <= n /\ n * PAGE_SIZE = page_up new_break - start /\ 0 <= start /\ page_up new_break <= 2 ^ 46 + PAGE_SIZE).
  { unfold n. rewrite He, Hs, <- Z.mul_sub_distr_r, Z.div_mul by done. unfold PAGE_SIZE. zdiv_lia. }
  destruct Hn as (Hn0 & Hn1 & Hn2 & Hn3). fold start.
  replace ((page_up new_break - start + PAGE_SIZE - 1) / PAGE_SIZE) with n.
  2:{ rewrite <- Hn1. unfold PAGE_SIZE. zdiv_lia. }
  unfold bk_on_vmm. wp_steps. rewrite Hcr3. eapply wp_mono.
  { apply (wp_brk_loop root (Z.to_nat n) start _ tau); rewrite ?Z2Nat.id by lia; try done.
    - rewrite Hs. by apply Z.mod_mul.
    - intros x Hx. left. unfold PAGE_SIZE in *. lia. }
  cbn beta. rewrite Z2Nat.id by lia. intros r v [-> Hg]. unfold brk_unlock. wp_steps.
  by split_and!.
Qed.

(** A break below the heap's base or at the stack's limit is refused, a
    query returns the current break, and a shrink only records the new value:
    in all three cases no page and no translation changes. *)
Theorem brk_no_growth s p new_break :
  bk_proc s = Some p -> g_brk_lock s = false -> 0 <= new_break ->
  new_break <= heap_end p \/ stack_limit p <= new_break ->
  wp (brk new_break)
    (fun r s' => bk_vmm s' = bk_vmm s /\ g_brk_lock s' = false /\
       if (new_break =? 0) || (new_break <? USER_HEAP_VIRTUAL_BASE) || (stack_limit p <=? new_break)
       then r = heap_end p /\ bk_proc s' = Some p
       else r = new_break /\ bk_proc s' = Some (set_heap_end new_break p)) s.
Proof.
  intros Hp Hbl Hnb Hcase. unfold brk. wp_steps. rewrite Hp.
  unfold brk_lock, brk_unlock. wp_steps. rewrite Hbl. wp_steps.
  destruct (Z.eqb_spec new_break 0) as [->|]; cbn [orb]; [by wp_steps|].
  destruct (Z.eqb_spec new_break (heap_end p)) as [->|]; cbn [orb].
  { wp_steps. split_and!; [done..|]. destruct (_ || _); [done|]. split; [done|]. cbn. rewrite Hp. by destruct p. }
  destruct (_ || _) eqn:E; [by wp_steps|]. zbool.
  rewrite (proj2 (Z.ltb_ge (heap_end p) new_break)) by lia. wp_steps. done.
Qed.

(** ** Reference counts of shared segments

    [att] lists the contents of every slot of every process: the segments
    they are attached to, and 0 for a free slot. *)

Definition occ (id : Z) (att : list Z) : Z := zlen (filter (fun x => x = id) att).

Lemma occ_cons id x att : occ id (x :: att) = (if decide (x = id) then 1 else 0) + occ id att.
Proof.
  unfold occ, zlen. rewrite filter_cons. case_decide; cbn [length]; lia.
Qed.

Lemma occ_insert id att i x y :
  att !! i = Some y ->
  occ id (<[i := x]> att) = occ id att - (if decide (y = id) then 1 else 0) + (if decide (x = id) then 1 else 0).
Proof.
  revert i. induction att as [|z att IH]; intros [|i] H; try done; cbn in H.
  - injection H as ->. change (<[0%nat := x]> (y :: att)) with (x :: att). rewrite !occ_cons. lia.
  - change (<[S i := x]> (z :: att)) with (z :: <[i := x]> att). rewrite !occ_cons, (IH _ H). lia.
Qed.

Lemma occ_bound id att : 0 <= occ id att <= zlen att.
Proof. unfold occ, zlen. pose proof (length_filter (fun x => x = id) att). lia. Qed.

Lemma occ_pos id att : id ∈ att -> 0 < occ id att.
Proof.
  induction att as [|z att IH]; [by intros ?%elem_of_nil|]. rewrite occ_cons, elem_of_cons.
  pose proof (occ_bound id att). intros [-> | Hin]; [rewrite decide_True by done; lia|].
  apply IH in Hin. case_decide; lia.
Qed.

Lemma occ_0 id att : ~ (id ∈ att) -> occ id att = 0.
Proof.
  induction att as [|z att IH]; [done|]. rewrite occ_cons, not_elem_of_cons. intros [H1 H2].
  rewrite decide_False by congruence. by rewrite IH.
Qed.

Lemma find_from_spec {A} (P : A -> bool) k l :
  match find_from P k l with
  | Some (i, a) => (k <= i)%nat /\ l !! (i - k)%nat = Some a /\ P a = true
  | None => forall a, a ∈ l -> P a = false
  end.
Proof.
  revert k. induction l as [|a l IH]; intros k; cbn; [by intros a ?%elem_of_nil|].
  destruct (P a) eqn:E.
  - split_and!; [lia | by replace (k - k)%nat with 0%nat by lia | done].
  - specialize (IH (S k)). destruct (find_from P (S k) l) as [[i b]|].
    + destruct IH as (H1 & H2 & H3). split_and!; [lia | | done].
      by replace (i - k)%nat with (S (i - S k)) by lia.
    + intros b [-> | Hb]%elem_of_cons; auto.
Qed.

Lemma find_from_existsb {A} (P : A -> bool) k l :
  existsb P l = match find_from P k l with Some _ => true | None => false end.
Proof. revert k. induction l as [|a l IH]; intros k; cbn; [done|]. rewrite (IH (S k)). by destruct (P a). Qed.

Lemma find_from_forallb {A} (P : A -> bool) k l :
  forallb P l = match find_from (fun a => negb (P a)) k l with Some _ => false | None => true end.
Proof. revert k. induction l as [|a l IH]; intros k; cbn; [done|]. rewrite (IH (S k)). by destruct (P a). Qed.

Record shm_inv (s : shm_state) (att : list Z) : Prop := {
  si_seg : forall i g, g_shm_table s !! i = Some g -> is_active g = true ->
    0 < seg_id g < g_next_shm_id s /\ ref_count g = occ (seg_id g) att /\
    exists fr, 0 < fr < 2 ^ 40 /\ phys_frame g = fr * PAGE_SIZE;
  si_uniq : forall i j g h, g_shm_table s !! i = Some g -> g_shm_table s !! j = Some h ->
    is_active g = true -> is_active h = true -> seg_id g = seg_id h -> i = j;
  si_att : forall id, id ∈ att -> id = 0 \/
    exists i g, g_shm_table s !! i = Some g /\ is_active g = true /\ seg_id g = id;
  si_next : 0 < g_next_shm_id s < 2 ^ 31 - 1;
  si_few : zlen att < 2 ^ 31 - 1;
  si_pmm : pmm_ok (v_pmm (sh_vmm s)) /\ pmm_total_pages (v_pmm (sh_vmm s)) <= 2 ^ 40
}.


(** Looking a segment up. *)
Lemma find_seg s att id :
  shm_inv s att -> id ∈ att -> id <> 0 ->
  exists i g, find_from (seg_matches id) 0 (g_shm_table s) = Some (i, g) /\
    g_shm_table s !! i = Some g /\ is_active g = true /\ seg_id g = id.
Proof.
  intros Hi Hin Hne. destruct (si_att _ _ Hi id Hin) as [?|(j & h & Hj & Hact & Hid)]; [done|].
  pose proof (find_from_spec (seg_matches id) 0 (g_shm_table s)) as Hf.
  destruct (find_from _ _ _) as [[i g]|].
  - destruct Hf as (_ & Hl & Hm). rewrite Nat.sub_0_r in Hl. unfold seg_matches in Hm. zbool. eauto 10.
  - exfalso. specialize (Hf h (list_elem_of_lookup_2 _ _ _ Hj)). unfold seg_matches in Hf.
    rewrite Hact, Hid, Z.eqb_refl in Hf. done.
Qed.

(** Replacing entry [i], the only one with its identifier. *)
Lemma shm_inv_insert s att att' v' i g g' :
  shm_inv s att -> g_shm_table s !! i = Some g ->
  (is_active g' = true -> is_active g = true /\ seg_id g' = seg_id g /\ phys_frame g' = phys_frame g /\
     ref_count g' = occ (seg_id g) att') ->
  (forall id, id <> seg_id g -> id <> 0 -> occ id att' = occ id att) ->
  (forall id, id ∈ att' -> id = 0 \/ (id = seg_id g /\ is_active g' = true) \/ (id <> seg_id g /\ id ∈ att)) ->
  is_active g = true -> zlen att' = zlen att ->
  pmm_ok (v_pmm v') /\ pmm_total_pages (v_pmm v') <= 2 ^ 40 ->
  shm_inv (set_shm_table (<[i := g']> (g_shm_table s)) (set_sh_vmm v' s)) att'.
Proof.
  intros [Hseg Huniq Hatt Hnext Hfew Hpmm] Hi Hg' Hocc Hin Hact Hlen Hv'.
  assert (Hlt : (i < length (g_shm_table s))%nat) by by eapply lookup_lt_Some.
  split; cbn; try done; [| | |by rewrite Hlen].
  - intros j h Hj Hh. destruct (decide (i = j)) as [->|Hne].
    + rewrite list_lookup_insert_eq in Hj by done. injection Hj as <-.
      destruct (Hg' Hh) as (_ & E1 & E2 & E3). destruct (Hseg j g Hi Hact) as (H1 & _ & H3).
      rewrite E1, E2. done.
    + rewrite list_lookup_insert_ne in Hj by done. destruct (Hseg j h Hj Hh) as (H1 & H2 & H3).
      split_and!; try done; try lia. rewrite H2. symmetry. apply Hocc; [|lia]. intros E.
      apply Hne. by eapply (Huniq i j g h).
  - intros j k h h' Hj Hk Ah Ah' E.
    assert (Hback : forall m x, <[i := g']> (g_shm_table s) !! m = Some x -> is_active x = true ->
      exists y, g_shm_table s !! m = Some y /\ is_active y = true /\ seg_id y = seg_id x).
    { intros m x Hm Hx. destruct (decide (i = m)) as [->|].
      - rewrite list_lookup_insert_eq in Hm by done. injection Hm as <-.
        destruct (Hg' Hx) as (_ & -> & _). eauto.
      - rewrite list_lookup_insert_ne in Hm by done. eauto. }
    destruct (Hback _ _ Hj Ah) as (y & Y1 & Y2 & Y3). destruct (Hback _ _ Hk Ah') as (z & Z1 & Z2 & Z3).
    eapply (Huniq j k y z); try done. congruence.
  - intros id Hid. destruct (Hin id Hid) as [?|[[-> Ha]|[Hne Hid']]]; [by left | |].
    + right. exists i, g'. rewrite list_lookup_insert_eq by done. split_and!; try done. by apply Hg'.
    + destruct (Hatt id Hid') as [?|(j & h & Hj & Ah & Eh)]; [by left|]. right. exists j, h.
      rewrite list_lookup_insert_ne; [done|]. intros ->. rewrite Hi in Hj. injection Hj as ->. done.
Qed.

(** The segment [g] of entry [i] after one user less: with the users [att'] none
    may be left, and then the entry is inactive and the frame is free. *)
Record detached (s s' : shm_state) (i : nat) (g : shm_segment_t) (att' : list Z) : Prop := {
  dt_table : g_shm_table s' = <[i := if 0 <? occ (seg_id g) att'
    then Seg (seg_id g) (phys_frame g) (ref_count g - 1) true else Seg 0 0 0 false]> (g_shm_table s);
  dt_total : pmm_total_pages (v_pmm (sh_vmm s')) = pmm_total_pages (v_pmm (sh_vmm s));
  dt_free : forall q, q ∈ free_list (v_pmm (sh_vmm s')) <-> q ∈ free_list (v_pmm (sh_vmm s)) \/
    (occ (seg_id g) att' = 0 /\ phys_frame g = q * PAGE_SIZE /\ q < pmm_total_pages (v_pmm (sh_vmm s)))
}.

(** Detaching the slot [k]. *)
Lemma wp_detach s att k id :
  shm_inv s att -> att !! k = Some id -> id <> 0 ->
  wp (detach_shm_segment id)
    (fun _ s' => shm_inv s' (<[k := 0]> att) /\ g_next_shm_id s' = g_next_shm_id s /\
       (forall i g, g_shm_table s' !! i = Some g -> is_active g = true ->
         (seg_id g = id /\ 0 < ref_count g) \/ (exists h, g_shm_table s !! i = Some h /\ g = h)) /\
       exists i g, g_shm_table s !! i = Some g /\ is_active g = true /\ seg_id g = id /\ detached s s' i g (<[k := 0]> att)) s.
Proof.
  intros Hi Hk Hne. pose proof (list_elem_of_lookup_2 _ _ _ Hk) as Hin.
  destruct (find_seg s att id Hi Hin Hne) as (i & g & Hf & Hl & Hact & Hid).
  destruct (si_seg _ _ Hi i g Hl Hact) as (Hidr & Href & fr & Hfr & Hphys).
  assert (Hocc : forall id', occ id' (<[k := 0]> att) = occ id' att - (if decide (id = id') then 1 else 0) +
    (if decide (0 = id') then 1 else 0)) by (intros id'; by apply occ_insert).
  pose proof (occ_pos id att Hin). pose proof (occ_bound id att). pose proof (si_few _ _ Hi).
  assert (Hn : occ id (<[k := 0]> att) = ref_count g - 1).
  { rewrite Hocc, Href, Hid, decide_True, decide_False by done. lia. }
  assert (Hlt : (i < length (g_shm_table s))%nat) by by eapply lookup_lt_Some.
  assert (Hother : forall id', id' <> seg_id g -> id' <> 0 -> occ id' (<[k := 0]> att) = occ id' att).
  { intros id' Ha Hb. rewrite Hocc, !decide_False by congruence. lia. }
  assert (Hmem : forall id', id' ∈ <[k := 0]> att -> id' = 0 \/ id' ∈ att).
  { intros id' (j & Hj)%list_elem_of_lookup. apply list_lookup_insert_Some in Hj as [(_ & <- & _)|[_ Hj]]; [by left|].
    right. by eapply list_elem_of_lookup_2. }
  unfold detach_shm_segment. wp_steps. rewrite Hf. rewrite s32_small by (rewrite Href, Hid; lia).
  destruct (Z.leb_spec (ref_count g - 1) 0).
  - unfold sh_on_vmm, v_on_pmm. rewrite Hphys. wp_steps. eapply wp_mono.
    { apply wp_pmm_free_frame; [apply Hi | lia]. }
    cbn beta. intros _ p' [Hok' Hback]. wp_steps.
    assert (Htot : pmm_total_pages p' = pmm_total_pages (v_pmm (sh_vmm s))).
    { destruct (_ && _); [apply Hback | by rewrite Hback]. }
    split_and!; [|done| |].
    + apply (shm_inv_insert s att _ (set_v_pmm p' (sh_vmm s)) i g); try done.
      * intros id' Hid'. destruct (Hmem id' Hid') as [?|Hm]; [by left|].
        destruct (decide (id' = seg_id g)) as [->|]; [|auto]. exfalso.
        apply occ_pos in Hid'. rewrite Hid in Hid'. lia.
      * unfold zlen. by rewrite length_insert.
      * split; [done|]. cbn. rewrite Htot. apply Hi.
    + intros j h Hj Hh. right. cbn in Hj. destruct (decide (i = j)) as [->|].
      * rewrite list_lookup_insert_eq in Hj by done. by injection Hj as <-.
      * rewrite list_lookup_insert_ne in Hj by done. eauto.
    + exists i, g. split_and!; try done. assert (E0 : occ (seg_id g) (<[k:=0]> att) = 0) by (rewrite Hid; pose proof (occ_bound id (<[k:=0]> att)); lia).
      split; [by rewrite E0 | exact Htot |]. intros q. cbn. rewrite E0, Hphys, !elem_free_list, Htot.
      destruct (_ && _) eqn:Eb.
      * destruct Hback as [_ Hm]. zbool. split.
        -- intros [Hq Hu]. destruct (decide (q = fr)) as [->|]; [right; lia|]. rewrite Hm in Hu by done.
           rewrite (proj2 (andb_false_iff _ _)) in Hu; [by left|]. rewrite Z.leb_gt, Z.ltb_ge. lia.
        -- assert (Hfree : used (v_pmm (sh_vmm s)) q = false \/ q = fr -> 0 <= q < pmm_total_pages (v_pmm (sh_vmm s)) -> used p' q = false).
           { intros Hq Hlt'. rewrite Hm by done. destruct (Z.leb_spec fr q), (Z.ltb_spec q (fr + 1)); cbn; done || (destruct Hq; done || lia). }
           intros [[Hq Hu]|(_ & Eq & Hq)]; [|unfold PAGE_SIZE in Eq; assert (q = fr) by lia]; (split; [lia|]); apply Hfree; lia || auto.
      * subst p'. split; [by left|]. intros [H'|(_ & Eq & Hq)]; [done|]. unfold PAGE_SIZE in Eq.
        apply andb_false_iff in Eb. rewrite !Z.ltb_ge in Eb. lia.
  - wp_steps. split_and!; [|done| |].
    + replace (set_shm_table (<[i := _]> _) s) with (set_shm_table (<[i := Seg (seg_id g) (phys_frame g) (ref_count g - 1) true]> (g_shm_table s)) (set_sh_vmm (sh_vmm s) s)) by by destruct s.
      apply (shm_inv_insert s att _ (sh_vmm s) i g); try done.
      * intros _. cbn. rewrite Hid. by split_and!.
      * intros id' Hid'. destruct (Hmem id' Hid') as [?|Hm]; [by left|].
        destruct (decide (id' = seg_id g)) as [->|]; auto.
      * unfold zlen. by rewrite length_insert.
      * apply Hi.
    + intros j h Hj Hh. cbn in Hj. destruct (decide (i = j)) as [->|].
      * rewrite list_lookup_insert_eq in Hj by done. injection Hj as <-. left. cbn. split; [done | lia].
      * rewrite list_lookup_insert_ne in Hj by done. right. eauto.
    + exists i, g. split_and!; try done. assert (E0 : 0 < occ (seg_id g) (<[k:=0]> att)) by (rewrite Hid, Hn; lia).
      split; [by rewrite (proj2 (Z.ltb_lt _ _) E0) | done |]. intros q. cbn. split; [by left|]. intros [?|[? _]]; [done|lia].
Qed.

(** What the segments of [s] have become in [s'] when the users [att'] are left
    and only segments of [ids] lost users: an entry is there still, or it is
    inactive without a user left, and exactly the frames of these are free in
    addition. *)
Record ledger (ids : list Z) (s s' : shm_state) (att' : list Z) : Prop := {
  lg_total : pmm_total_pages (v_pmm (sh_vmm s')) = pmm_total_pages (v_pmm (sh_vmm s));
  lg_seg : forall i g, g_shm_table s !! i = Some g -> is_active g = true ->
    (exists g', g_shm_table s' !! i = Some g' /\ is_active g' = true /\ seg_id g' = seg_id g /\ phys_frame g' = phys_frame g) \/
    (g_shm_table s' !! i = Some (Seg 0 0 0 false) /\ occ (seg_id g) att' = 0 /\ seg_id g ∈ ids);
  lg_back : forall i g', g_shm_table s' !! i = Some g' -> is_active g' = true ->
    exists g, g_shm_table s !! i = Some g /\ is_active g = true /\ seg_id g' = seg_id g /\ phys_frame g' = phys_frame g;
  lg_free : forall q, q ∈ free_list (v_pmm (sh_vmm s')) <-> q ∈ free_list (v_pmm (sh_vmm s)) \/
    exists i g, g_shm_table s !! i = Some g /\ is_active g = true /\ phys_frame g = q * PAGE_SIZE /\
      q < pmm_total_pages (v_pmm (sh_vmm s)) /\ g_shm_table s' !! i = Some (Seg 0 0 0 false)
}.

Lemma ledger_refl ids s att : ledger ids s s att.
Proof.
  split; [done|eauto 10|eauto 10|]. intros q. split; [by left|]. intros [?|(i & g & Hi & Ha & _ & _ & Hi')]; [done|].
  rewrite Hi in Hi'. injection Hi' as ->. done.
Qed.

Lemma ledger_step ids s s1 s2 i0 g0 att k id :
  ledger ids s s1 att -> g_shm_table s1 !! i0 = Some g0 -> is_active g0 = true -> seg_id g0 = id -> id ∈ ids -> id <> 0 ->
  att !! k = Some id -> detached s1 s2 i0 g0 (<[k := 0]> att) ->
  (forall i g, g_shm_table s !! i = Some g -> is_active g = true -> 0 < seg_id g) ->
  ledger ids s s2 (<[k := 0]> att).
Proof.
  intros [T1 L1 B1 F1] H0 Ha0 Hid Hin Hne Hk [Dt Dn Df] Hpos.
  assert (Hlt : (i0 < length (g_shm_table s1))%nat) by by eapply lookup_lt_Some.
  assert (Hsame : forall i, i <> i0 -> g_shm_table s2 !! i = g_shm_table s1 !! i) by (intros i Hi; by rewrite Dt, list_lookup_insert_ne).
  assert (Hhere : g_shm_table s2 !! i0 = Some (if 0 <? occ (seg_id g0) (<[k:=0]> att)
    then Seg (seg_id g0) (phys_frame g0) (ref_count g0 - 1) true else Seg 0 0 0 false)) by (by rewrite Dt, list_lookup_insert_eq).
  destruct (B1 i0 g0 H0 Ha0) as (h0 & Hh0 & Hah0 & Eid & Ephys). pose proof (occ_bound (seg_id g0) (<[k:=0]> att)) as [Hocc _].
  split; [congruence| | |].
  - intros i g Hi Ha. destruct (decide (i = i0)) as [->|Hi0].
    + rewrite Hh0 in Hi. injection Hi as <-. rewrite Hhere. destruct (Z.ltb_spec 0 (occ (seg_id g0) (<[k:=0]> att))); [left; by eauto 10|right].
      split_and!; [done|rewrite <- Eid; lia|by rewrite <- Eid, Hid].
    + rewrite Hsame by done. destruct (L1 i g Hi Ha) as [H|(H1 & H2 & H3)]; [by left|right]. split_and!; try done.
      rewrite (occ_insert _ _ _ _ _ Hk). specialize (Hpos i g Hi Ha). pose proof (occ_bound (seg_id g) (<[k:=0]> att)) as Hb2.
      rewrite (occ_insert _ _ _ _ _ Hk) in Hb2. rewrite (decide_False (P := 0 = seg_id g)) in * by lia. case_decide; lia.
  - intros i g' Hi Ha. destruct (decide (i = i0)) as [->|Hi0].
    + rewrite Hhere in Hi. injection Hi as <-. exists h0. destruct (0 <? _); [|done]. by split_and!.
    + rewrite Hsame in Hi by done. eauto.
  - intros q. rewrite Df, F1, T1. split.
    + intros [[?|(i & g & Hi & Ha & Hp & Hq & Hi1)]|(E0 & Hp & Hq)]; [by left| |].
      * right. exists i, g. split_and!; try done. rewrite Hsame; [done|]. intros ->. rewrite H0 in Hi1. injection Hi1 as ->. done.
      * right. exists i0, h0. rewrite Hhere, E0. split_and!; try done. congruence.
    + intros [?|(i & g & Hi & Ha & Hp & Hq & Hi2)]; [by do 2 left|]. destruct (decide (i = i0)) as [->|Hi0].
      * right. rewrite Hh0 in Hi. injection Hi as <-. rewrite Hhere in Hi2. destruct (Z.ltb_spec 0 (occ (seg_id g0) (<[k:=0]> att))); [done|].
        split_and!; [lia|congruence|done].
      * left. right. exists i, g. rewrite <- Hsame by done. by split_and!.
Qed.

(** C39: Detaching everything at process exit.  [process_ipc_cleanup] empties
    every slot of the process; the reference counts are again exact for the
    slots [rest] of the other processes, every segment it was attached to that
    survives has a user left, and the PMM has got back the frames of exactly the
    segments nobody else is attached to. *)
Theorem process_ipc_cleanup_correct s proc rest :
  shm_inv s (shm_ids proc ++ rest) -> zlen (shm_ids proc) = MAX_SHARED_REGIONS ->
  zlen (shm_virtual_addresses proc) = MAX_SHARED_REGIONS ->
  wp (process_ipc_cleanup proc)
    (fun proc' s' => shm_ids proc' = replicate 8 0 /\ shm_inv s' (replicate 8 0 ++ rest) /\
       (forall i g, g_shm_table s' !! i = Some g -> is_active g = true -> seg_id g ∈ shm_ids proc ->
         0 < occ (seg_id g) rest) /\
       forall q, q ∈ free_list (v_pmm (sh_vmm s')) <-> q ∈ free_list (v_pmm (sh_vmm s)) \/
         exists i g, g_shm_table s !! i = Some g /\ is_active g = true /\ seg_id g ∈ shm_ids proc /\
           occ (seg_id g) rest = 0 /\ phys_frame g = q * PAGE_SIZE /\ q < pmm_total_pages (v_pmm (sh_vmm s))) s.
Proof.
  intros Hi Hlen Hlen2. unfold process_ipc_cleanup, MAX_SHARED_REGIONS, zlen in *. wp_steps.
  assert (Hsegs : forall i g, g_shm_table s !! i = Some g -> is_active g = true -> 0 < seg_id g).
  { intros i g Hg Ha. destruct (si_seg _ _ Hi i g Hg Ha) as [? _]. lia. }
  apply (wp_loop (fun k p s' => 0 <= k <= 8 /\ length (shm_ids p) = 8%nat /\
    length (shm_virtual_addresses p) = 8%nat /\
    (forall j, (j < 8)%nat -> shm_ids p !! j = if decide (Z.of_nat j < k) then Some 0 else shm_ids proc !! j) /\
    shm_inv s' (shm_ids p ++ rest) /\ ledger (shm_ids proc) s s' (shm_ids p ++ rest) /\
    forall i g, g_shm_table s' !! i = Some g -> is_active g = true -> seg_id g ∈ shm_ids proc -> 0 < ref_count g)).
  - split_and!; try lia; [| done | apply ledger_refl |].
    + intros j Hj. rewrite decide_False by lia. done.
    + intros i g Hg Hact Hin. destruct (si_seg _ _ Hi i g Hg Hact) as (_ & -> & _).
      apply occ_pos, elem_of_app. by left.
  - intros k p s' Hk (_ & L1 & L2 & Hslots & Hi' & Hled & Hpos). change (Z.to_nat 8) with 8%nat in Hk.
    destruct (shm_ids p !! Z.to_nat k) as [id|] eqn:Eid.
    2:{ apply lookup_ge_None in Eid. lia. }
    assert (Hidin : id ∈ shm_ids proc).
    { apply list_elem_of_lookup. exists (Z.to_nat k). pose proof (Hslots (Z.to_nat k) ltac:(lia)) as Hs. rewrite decide_False in Hs by lia. congruence. }
    unfold cleanup_slot. wp_steps. eapply wp_rd; [lia | exact Eid|]. cbn beta.
    assert (Hnew : forall j, (j < 8)%nat -> <[Z.to_nat k := 0]> (shm_ids p) !! j =
      if decide (Z.of_nat j < k + 1) then Some 0 else shm_ids proc !! j).
    { intros j Hj. destruct (decide (j = Z.to_nat k)) as [->|].
      - rewrite list_lookup_insert_eq by lia. by rewrite decide_True by lia.
      - rewrite list_lookup_insert_ne, Hslots by lia.
        destruct (decide (Z.of_nat j < k)), (decide (Z.of_nat j < k + 1)); done || lia. }
    destruct (Z.eqb_spec id 0) as [->|Hid].
    + wp_steps. split_and!; try lia; try done. intros j Hj. rewrite <- Hnew by done.
      by rewrite list_insert_id.
    + assert (Hatt : (shm_ids p ++ rest) !! Z.to_nat k = Some id) by (by rewrite lookup_app_l by lia).
      wp_steps. eapply wp_mono; [by apply (wp_detach s' (shm_ids p ++ rest) (Z.to_nat k) id)|].
      cbn beta. intros _ s2 (Hi2 & _ & Hseg2 & i0 & g0 & Hg0 & Ha0 & Hid0 & Hdet). wp_steps. apply wp_upd; [unfold zlen; lia|]. wp_steps.
      apply wp_upd; [unfold zlen; lia|]. wp_steps. cbn [shm_ids shm_virtual_addresses set_shm_slots].
      pose proof (ledger_step _ _ _ _ _ _ _ _ _ Hled Hg0 Ha0 Hid0 Hidin Hid Hatt Hdet Hsegs) as Hled2.
      rewrite !length_insert. rewrite insert_app_l in Hi2, Hled2 by lia.
      split_and!; try lia; try done. intros i g Hg Hact Hin.
      destruct (Hseg2 i g Hg Hact) as [[_ ?]|(h & Hh & ->)]; [done | by eapply Hpos].
  - change (0 + Z.of_nat (Z.to_nat 8)) with 8. intros p s' (_ & L1 & L2 & Hslots & Hi' & Hled & Hpos). wp_steps.
    assert (Heq : shm_ids p = replicate 8 0).
    { apply list_eq_same_length with (n := 8%nat); [done.. |]. intros j x y Hj Hx Hy.
      rewrite Hslots, decide_True in Hx by lia. apply lookup_replicate in Hy as [-> _]. congruence. }
    rewrite Heq in Hi', Hled.
    assert (Hrest : forall id, 0 < id -> occ id (replicate 8 0 ++ rest) = occ id rest).
    { intros id H0. cbn [replicate app]. rewrite !occ_cons, !decide_False by lia. lia. }
    assert (Hleft : forall i g, g_shm_table s' !! i = Some g -> is_active g = true -> seg_id g ∈ shm_ids proc -> 0 < occ (seg_id g) rest).
    { intros i g Hg Hact Hin. pose proof (Hpos i g Hg Hact Hin) as Hr. destruct (si_seg _ _ Hi' i g Hg Hact) as (Hid & Href & _).
      by rewrite Href, Hrest in Hr by lia. }
    split_and!; [done..|]. intros q. rewrite (lg_free _ _ _ _ Hled). split; (intros [?|(i & g & Hg & Ha & H)]; [by left|right]; exists i, g).
    + destruct H as (Hp & Hq & Hgone). destruct (lg_seg _ _ _ _ Hled i g Hg Ha) as [(g' & Hg' & Ha' & _)|(_ & Ho & Hin)].
      * rewrite Hgone in Hg'. injection Hg' as <-. done.
      * rewrite Hrest in Ho by eauto. by split_and!.
    + destruct H as (Hin & Ho & Hp & Hq). split_and!; try done.
      destruct (lg_seg _ _ _ _ Hled i g Hg Ha) as [(g' & Hg' & Ha' & Eid & _)|(? & _)]; [|done].
      pose proof (Hleft i g' Hg' Ha') as Hl. rewrite Eid in Hl. specialize (Hl Hin). lia.
Qed.

(** ** Attaching and creating *)

(** The window of [vmm_scratch_map] on frame [a]. *)
Lemma wp_scratch_old root s tau a (Q : tptr -> vmm -> Prop) :
  vinv s root tau -> 0 <= a < 2 ^ 40 ->
  (forall s', vstep 0 root s tau s' tau -> s' = set_v_mem (v_mem s') s ->
     frame_of s' (TWin (-1)) = Some a -> Q (TWin (-1)) s') ->
  wp (vmm_scratch_map (a * PAGE_SIZE)) Q s.
Proof.
  intros Hinv Ha HQ. unfold vmm_scratch_map, v_write. wp_steps. apply HQ.
  - apply vstep_windows; [done|]. intros f i H1 H2. by apply pset_ne; left.
  - done.
  - unfold frame_of. cbn -[set_fields]. change (win_slot (-1)) with (GET_PT_INDEX VMM_SCRATCH_WINDOW).
    rewrite pset_eq. f_equal. unfold scratch_fields. bf_solve. rewrite shiftr_page. by apply Z.mod_small.
Qed.

(** [sys_shm_at] attaches a segment: a free slot of the process takes the
    identifier, the page of that slot translates to the segment's frame in
    the address space of the process, no other address changes, and the
    reference counts stay exact. *)
Theorem sys_shm_at_correct s proc rest root tau g i0 shmid :
  shm_inv s (shm_ids proc ++ rest) -> g_shm_table s !! i0 = Some g -> is_active g = true ->
  seg_id g = shmid -> 0 ∈ shm_ids proc -> zlen (shm_ids proc) = MAX_SHARED_REGIONS ->
  vinv (sh_vmm s) root tau -> g_vmm_lock (sh_vmm s) = false -> 0 <= root < 2 ^ 40 ->
  (forall va, mappable va -> ~ win_va (sh_vmm s) tau va) -> pm_cr3 proc = root * PAGE_SIZE ->
  (3 <= length (free_list (v_pmm (sh_vmm s))))%nat ->
  wp (sys_shm_at shmid proc)
    (fun r s' => exists slot, (slot < 8)%nat /\ r.1 = USER_SHM_BASE + Z.of_nat slot * 4096 /\
       shm_ids proc !! slot = Some 0 /\ shm_ids r.2 = <[slot := shmid]> (shm_ids proc) /\
       shm_inv s' (shm_ids r.2 ++ rest) /\
       forall c, bf_get F_ADDR c = root ->
         mmu_walk (v_mem (sh_vmm s')) c r.1 = Some (phys_frame g) /\
         forall va', mappable va' -> va' / PAGE_SIZE <> r.1 / PAGE_SIZE ->
           mmu_walk (v_mem (sh_vmm s')) c va' = mmu_walk (v_mem (sh_vmm s)) c va') s.
Proof.
  intros Hi Hg Hact Hid Hfree0 Hlen Hinv Hl Hroot Hwin Hcr3 Hfree. unfold sys_shm_at. wp_steps.
  pose proof (find_from_spec (seg_matches shmid) 0 (g_shm_table s)) as Hf.
  destruct (find_from (seg_matches shmid) 0 (g_shm_table s)) as [[i g']|].
  2:{ specialize (Hf g (list_elem_of_lookup_2 _ _ _ Hg)). unfold seg_matches in Hf.
      rewrite Hact, Hid, Z.eqb_refl in Hf. done. }
  destruct Hf as (_ & Hl' & Hm). rewrite Nat.sub_0_r in Hl'. unfold seg_matches in Hm. zbool.
  assert (i = i0) as -> by (eapply (si_uniq _ _ Hi); try done; congruence).
  assert (g' = g) as -> by congruence.
  pose proof (find_from_spec (fun id => id =? 0) 0 (shm_ids proc)) as Hf2.
  destruct (find_from _ 0 (shm_ids proc)) as [[slot z]|]; [|by apply Hf2 in Hfree0].
  destruct Hf2 as (_ & Hslot & Hz). rewrite Nat.sub_0_r in Hslot. zbool. subst z.
  assert (Hs8 : (slot < 8)%nat).
  { apply lookup_lt_Some in Hslot. unfold zlen, MAX_SHARED_REGIONS in Hlen. lia. }
  destruct (si_seg _ _ Hi i0 g Hg Hact) as (Hidr & Href & fr & Hfr & Hphys).
  set (va := USER_SHM_BASE + Z.of_nat slot * 4096).
  assert (Hva : mappable va) by (left; unfold va, USER_SHM_BASE, USER_HEAP_VIRTUAL_BASE; lia).
  unfold sh_on_vmm. wp_steps. rewrite Hcr3, Hphys.
  apply (wp_scratch_old root (sh_vmm s) tau); [done | lia|]. intros v1 V1 E1 Hw1.
  assert (Hwin1 : forall x, win_va v1 tau x <-> win_va (sh_vmm s) tau x).
  { intros x. unfold win_va. by rewrite (vs_wpt _ _ _ _ _ _ V1). }
  eapply wp_mono.
  { apply (wp_vmm_map_page root v1 tau); try done;
      [apply V1 | by rewrite E1 | by rewrite E1 | rewrite Hwin1; auto | lia]. }
  cbn beta. intros _ v2 (tau' & [I L W _ _ _ Hhere Hthere _ _]). wp_steps.
  exists slot. cbn [fst snd shm_ids set_shm_slots]. fold va. split_and!; try done.
  - rewrite <- insert_app_l by by eapply lookup_lt_Some.
    set (att := shm_ids proc ++ rest) in *.
    assert (Hs : att !! slot = Some 0) by (unfold att; rewrite lookup_app_l; [done | by eapply lookup_lt_Some]).
    assert (Hocc : forall id, occ id (<[slot := shmid]> att) = occ id att -
      (if decide (0 = id) then 1 else 0) + (if decide (shmid = id) then 1 else 0)) by (intros; by apply occ_insert).
    assert (Hn : occ (seg_id g) (<[slot := shmid]> att) = ref_count g + 1).
    { rewrite Hocc, Href, Hid, decide_False, decide_True by lia. lia. }
    pose proof (occ_bound (seg_id g) (<[slot := shmid]> att)) as Hb. rewrite zlen_insert in Hb.
    pose proof (si_few _ _ Hi). rewrite s32_small by lia.
    apply (shm_inv_insert s att _ v2 i0 g); try done.
    + intros id Ha Hb0. rewrite Hocc, !decide_False by congruence. lia.
    + intros id (j & Hj)%list_elem_of_lookup. apply list_lookup_insert_Some in Hj as [(_ & <- & _)|[_ Hj]].
      * right. left. by split.
      * apply list_elem_of_lookup_2 in Hj. destruct (decide (id = seg_id g)); auto.
    + by rewrite zlen_insert.
    + split; [apply I|]. pose proof (vi_total _ _ _ I). lia.
  - intros c Hc. assert (Hv0 : va mod PAGE_SIZE = 0).
    { unfold va, USER_SHM_BASE, USER_HEAP_VIRTUAL_BASE, PAGE_SIZE. zdiv_lia. }
    cbn [sh_vmm set_shm_table set_sh_vmm]. split; [rewrite Hhere, Hv0 by done; f_equal; lia|].
    intros va' Hva' Hne. rewrite Hthere; [by apply (vs_walk _ _ _ _ _ _ V1); auto | done | | rewrite Hwin1; auto].
    intros Hsp. apply Hne. by apply same_page_mappable.
Qed.

(** A new segment in a free slot, with an identifier nobody holds. *)
Lemma shm_inv_create s att v' i g fr :
  shm_inv s att -> g_shm_table s !! i = Some g -> is_active g = false -> 0 < fr < 2 ^ 40 ->
  g_next_shm_id s < 2 ^ 31 - 2 -> pmm_ok (v_pmm v') -> pmm_total_pages (v_pmm v') <= 2 ^ 40 ->
  shm_inv (Shm v' (<[i := Seg (g_next_shm_id s) (fr * PAGE_SIZE) 0 true]> (g_shm_table s))
             (g_next_shm_id s + 1)) att.
Proof.
  intros Hi Hl Hin Hfr Hnext Hok Hp'. pose proof Hi as [Hseg Huniq Hatt Hnx Hfew _].
  assert (Hlt : (i < length (g_shm_table s))%nat) by by eapply lookup_lt_Some.
  assert (Hfresh : ~ (g_next_shm_id s ∈ att)).
  { intros Hin'. destruct (Hatt _ Hin') as [?|(j & h & Hj & Ha & He)]; [lia|].
    pose proof (Hseg j h Hj Ha). lia. }
  split; cbn; try done; [| | |lia].
  - intros j h Hj Ha. destruct (decide (i = j)) as [->|].
    + rewrite list_lookup_insert_eq in Hj by done. injection Hj as <-. cbn. split; [lia|].
      split; [by rewrite occ_0|]. by exists fr.
    + rewrite list_lookup_insert_ne in Hj by done. destruct (Hseg j h Hj Ha) as (H1 & H2). split; [lia | done].
  - assert (Hold : forall m x, <[i := Seg (g_next_shm_id s) (fr * PAGE_SIZE) 0 true]> (g_shm_table s) !! m = Some x ->
      m <> i -> g_shm_table s !! m = Some x) by (intros m x Hm Hne; by rewrite list_lookup_insert_ne in Hm).
    intros j k h h' Hj Hk Ah Ah' Eid. destruct (decide (j = i)) as [->|], (decide (k = i)) as [->|]; try done.
    + rewrite list_lookup_insert_eq in Hj by done. injection Hj as <-. cbn in Eid.
      pose proof (Hseg k h' (Hold _ _ Hk ltac:(done)) Ah'). lia.
    + rewrite list_lookup_insert_eq in Hk by done. injection Hk as <-. cbn in Eid.
      pose proof (Hseg j h (Hold _ _ Hj ltac:(done)) Ah). lia.
    + by eapply (Huniq j k h h'); auto.
  - intros id Hid. destruct (Hatt id Hid) as [?|(j & h & Hj & Ha & He)]; [by left|]. right. exists j, h.
    rewrite list_lookup_insert_ne; [done|]. intros ->. rewrite Hl in Hj. injection Hj as ->. congruence.
Qed.

(** Clearing a frame through the single window. *)
Lemma wp_clear_frame a s (Q : unit -> vmm -> Prop) :
  0 <= a < 2 ^ 40 ->
  (forall s', v_pmm s' = v_pmm s -> (forall i, v_mem s' a i = 0) -> Q tt s') ->
  wp (p <-- vmm_scratch_map (a * PAGE_SIZE) ;; zero_t p) Q s.
Proof.
  intros Ha HQ. unfold vmm_scratch_map, zero_t, deref, v_write. wp_steps.
  eapply wp_opt with (a := a).
  - unfold frame_of. cbn -[set_fields]. change (win_slot (-1)) with (GET_PT_INDEX VMM_SCRATCH_WINDOW).
    rewrite pset_eq. f_equal. unfold scratch_fields. bf_solve. rewrite shiftr_page. by apply Z.mod_small.
  - wp_steps. apply HQ; [done|]. intros i. cbn. unfold pzero. by rewrite Z.eqb_refl.
Qed.

(** [sys_shm_get] finds or creates a segment.  An active segment with the
    key is returned as it is; without one, without the creation flag or with a
    full table, the answer is -1 and nothing changes.  Otherwise a free entry
    takes the next identifier, the lowest free frame, cleared, and no
    reference; with no usable frame left the answer is -1.  The table stays
    consistent with the attachments in every case. *)
Theorem sys_shm_get_correct s att key flags :
  shm_inv s att -> g_next_shm_id s < 2 ^ 31 - 2 ->
  wp (sys_shm_get key flags)
    (fun r s' => shm_inv s' att /\
       if existsb (seg_matches key) (g_shm_table s) then r = key /\ s' = s
       else if (Z.land flags SHM_CREAT =? 0) || forallb is_active (g_shm_table s) then r = -1 /\ s' = s
       else match free_list (v_pmm (sh_vmm s)) with
            | [] => r = -1 /\ s' = s
            | fr :: rest =>
                free_list (v_pmm (sh_vmm s')) = rest /\
                if fr =? 0 then r = -1 /\ g_shm_table s' = g_shm_table s
                else r = g_next_shm_id s /\ g_next_shm_id s' = r + 1 /\
                     (exists i g, g_shm_table s !! i = Some g /\ is_active g = false /\
                        g_shm_table s' = <[i := Seg r (fr * PAGE_SIZE) 0 true]> (g_shm_table s)) /\
                     forall j, v_mem (sh_vmm s') fr j = 0
            end) s.
Proof.
  intros Hi Hnext. unfold sys_shm_get. wp_steps. rewrite (find_from_existsb _ 0), (find_from_forallb _ 0).
  pose proof (find_from_spec (seg_matches key) 0 (g_shm_table s)) as Hf.
  destruct (find_from (seg_matches key) 0 _) as [[i g]|].
  { wp_steps. destruct Hf as (_ & Hl & Hm). unfold seg_matches in Hm. zbool. by split_and!. }
  case_if; [wp_steps; by split_and!|].
  pose proof (find_from_spec (fun g => negb (is_active g)) 0 (g_shm_table s)) as Hf2.
  destruct (find_from _ 0 _) as [[i g]|]; [|wp_steps; by split_and!].
  destruct Hf2 as (_ & Hl & Hin). rewrite Nat.sub_0_r in Hl. zbool. cbn [orb].
  unfold sh_on_vmm, v_on_pmm. wp_steps. eapply wp_mono; [apply wp_pmm_alloc_page, Hi|].
  cbn beta. intros a p' [Hok Hcase]. pose proof (si_pmm _ _ Hi) as [Hpm Htot].
  destruct Hcase as [(fr & Hfr & Hu & Hlow & -> & Hm)|(-> & -> & Hall)].
  - rewrite (free_list_pop (v_pmm (sh_vmm s)) p' fr) by done.
    assert (Hp' : pmm_total_pages p' <= 2 ^ 40) by by rewrite (proj1 Hm).
    destruct (Z.eqb_spec fr 0) as [->|Hne].
    + change (0 * PAGE_SIZE =? 0) with true. cbn match. wp_steps. split_and!; [|done..]. by destruct Hi; split.
    + rewrite (proj2 (Z.eqb_neq (fr * PAGE_SIZE) 0)) by (unfold PAGE_SIZE; lia). wp_steps.
      apply wp_clear_frame; [lia|]. intros v' Hv' Hz. wp_steps. cbn [g_next_shm_id set_sh_vmm].
      pose proof (si_next _ _ Hi). rewrite s32_small by lia. cbn in Hv'.
      split_and!; [|by cbn; rewrite Hv'|done|done| |done].
      * apply (shm_inv_create s att v' i g fr); try done; [lia | by rewrite Hv'..].
      * by exists i, g.
  - rewrite free_list_nil by done. wp_steps. destruct s as [v t id], v. by split_and!.
Qed.

(** ** Concrete instances *)

(** A process whose address space is the one of [example_vmm], with a break
    inside a page. *)
Definition example_proc (ids : list Z) : proc_mem :=
  ProcMem (example_root * PAGE_SIZE) 0x8000800 0x7FF000000 ids (replicate 8 0).
Definition example_brk : brk_state := Brk example_vmm (Some (example_proc (replicate 8 0))) false.

Lemma brk_grows_witness :
  wp (brk 0x8001800) (fun r s' => r = 0x8001800 /\ exists f, (forall j, v_mem (bk_vmm s') f j = 0) /\
    mmu_walk (v_mem (bk_vmm s')) (example_root * PAGE_SIZE) 0x8001004 = Some (f * PAGE_SIZE + 4)) example_brk.
Proof.
  eapply wp_mono.
  - apply (brk_grows example_root example_brk example_tau (example_proc (replicate 8 0)) 0x8001800);
      [apply example_vinv | done | done | intros va _; apply example_no_window | done..| vm_compute; lia].
  - cbn beta. intros r s' (-> & _ & _ & [(tau' & _ & H) _]). split; [done|].
    destruct (H 0x8001004) as (f & _ & Hz & Hw); [vm_compute; intuition congruence|].
    exists f. split; [done|]. by rewrite Hw.
Defined.

Lemma brk_no_growth_witness :
  wp (brk 0x1000) (fun r s' => r = 0x8000800 /\ bk_vmm s' = example_vmm) example_brk.
Proof.
  eapply wp_mono.
  - apply (brk_no_growth example_brk (example_proc (replicate 8 0)) 0x1000); [done | done | done | left; done].
  - cbn beta. by intros r s' (H1 & _ & H2 & _).
Defined.

(** Segment 1, frame 13, attached once by a process that holds it in slot 0. *)
Definition example_shm : shm_state :=
  Shm example_vmm (Seg 1 (13 * PAGE_SIZE) 1 true :: replicate 15 (Seg 0 0 0 false)) 2.

Lemma example_shm_active i g :
  g_shm_table example_shm !! i = Some g -> is_active g = true -> i = 0%nat /\ g = Seg 1 (13 * PAGE_SIZE) 1 true.
Proof.
  destruct i as [|i]; cbn; [intros [= <-]; done|].
  intros H Ha. change (replicate 15 (Seg 0 0 0 false) !! i = Some g) in H.
  apply lookup_replicate in H as [-> _]. done.
Qed.

Lemma example_shm_inv att : occ 1 att = 1 -> (forall id, id ∈ att -> id = 0 \/ id = 1) -> zlen att < 100 ->
  shm_inv example_shm att.
Proof.
  intros Ho Hin Hl. split; try done; try lia.
  - intros i g Hg Ha. destruct (example_shm_active i g Hg Ha) as [-> ->]. cbn. split_and!; [done..|].
    exists 13. by split.
  - intros i j g h Hg Hh Ag Ah _. destruct (example_shm_active i g Hg Ag) as [-> _].
    by destruct (example_shm_active j h Hh Ah) as [-> _].
  - intros id Hid. destruct (Hin id Hid) as [->| ->]; [by left|]. right. exists 0%nat. eexists. by split_and!.
  - split; [apply example_pmm_ok | done].
Qed.

Lemma slots_01 (l : list Z) : Forall (fun x => x = 0 \/ x = 1) l -> forall id, id ∈ l -> id = 0 \/ id = 1.
Proof. intros H id Hid. rewrite Forall_forall in H. by apply H. Qed.

Lemma process_ipc_cleanup_witness :
  wp (process_ipc_cleanup (example_proc (1 :: replicate 7 0)))
    (fun proc' s' => shm_ids proc' = replicate 8 0 /\
       (forall i g, g_shm_table s' !! i = Some g -> is_active g = true -> seg_id g <> 1) /\
       13 ∈ free_list (v_pmm (sh_vmm s'))) example_shm.
Proof.
  eapply wp_mono.
  - apply (process_ipc_cleanup_correct example_shm (example_proc (1 :: replicate 7 0)) []); [|done..].
    apply example_shm_inv; [done | | done]. apply slots_01. cbn. repeat (constructor; auto).
  - cbn beta. intros p s' (H1 & _ & H2 & H3). split; [done|]. split.
    + intros i g Hg Ha Hid. specialize (H2 i g Hg Ha). rewrite Hid in H2. by specialize (H2 ltac:(left)).
    + apply H3. right. exists 0%nat, (Seg 1 (13 * PAGE_SIZE) 1 true). split_and!; try done. by left.
Defined.

Lemma sys_shm_at_witness :
  wp (sys_shm_at 1 (example_proc (replicate 8 0)))
    (fun r s' => mmu_walk (v_mem (sh_vmm s')) (example_root * PAGE_SIZE) r.1 = Some 0xD000) example_shm.
Proof.
  eapply wp_mono.
  - apply (sys_shm_at_correct example_shm (example_proc (replicate 8 0)) [1] example_root example_tau
             (Seg 1 (13 * PAGE_SIZE) 1 true) 0 1);
      [ | done | done | done | by left | done | apply example_vinv | done | done
        | intros va _; apply example_no_window | done | vm_compute; lia].
    apply example_shm_inv; [done | | done]. apply slots_01. cbn. repeat (constructor; auto).
  - cbn beta. intros r s' (slot & _ & _ & _ & _ & _ & Hw). by destruct (Hw (example_root * PAGE_SIZE) eq_refl) as [-> _].
Defined.

Lemma sys_shm_get_witness :
  wp (sys_shm_get 77 SHM_CREAT) (fun r s' => r = 2 /\ forall j, v_mem (sh_vmm s') 2 j = 0) example_shm.
Proof.
  eapply wp_mono.
  - apply (sys_shm_get_correct example_shm [1] 77 SHM_CREAT); [|done].
    apply example_shm_inv; [done | | done]. apply slots_01. by repeat (constructor; auto).
  - cbn beta. intros r s' [_ H].
    destruct H as (_ & -> & _ & _ & Hz). by split.
Defined.

(** ** What the code does outside the theorems' conditions *)

(** The key of a new segment is not recorded: two calls with the same key
    create two segments. *)
Lemma shm_get_forgets_key :
  wp (a <-- sys_shm_get 77 SHM_CREAT ;; b <-- sys_shm_get 77 SHM_CREAT ;; kret (a, b))
    (fun r _ => r = (2, 3)) example_shm.
Proof. vm_compute. reflexivity. Qed.

(** The segments are attached where the heap of the process begins. *)
Lemma shm_base_is_heap_base : USER_SHM_BASE = USER_HEAP_VIRTUAL_BASE.
Proof. reflexivity. Qed.
