(* ===== verification/Ramfs.v ===== *)
(** * The RAM file system

    [kernel/fs/ramfs/ramfs.c].  Nodes live in a store keyed by address.  The
    [void* private_data] of a node is either null, the data block of a file, or
    a chain of directory entries; the chain ends in whatever the pointer held
    before, as in the program, and reading a file's data block as an entry is
    a fault. *)

From Stdlib Require Import ZArith Lia.
From stdpp Require Import base tactics list gmap.
From S2P Require Import Prelude.

Definition VFS_NAME_MAX : nat := 256.
Definition VFS_FILE : Z := 1.
Definition VFS_DIRECTORY : Z := 2.
Definition VFS_MOUNTPOINT : Z := 32.

Inductive pdata : Type :=
| PNull
| PFileData (buffer : option (list Z)) (buffer_cap : Z)
| PEntry (node : Z) (next : pdata).

(** The operation table a node points to. *)
Inductive fs_ops : Type :=
| RamfsOps
| DriverOps (id : Z)
| NoOps.

#[global] Instance fs_ops_eq_dec : EqDecision fs_ops.
Proof. solve_decision. Defined.

Record vfs_node : Type := VNode {
  n_name : list Z;
  n_flags : Z;
  n_size : Z;
  n_inode : Z;
  n_parent_inode : Z;
  n_permissions : Z;
  n_block_size : Z;
  n_ops : fs_ops;
  n_fs : Z;
  n_data : pdata;
  n_ptr_mount : Z
}.

Definition set_n_name (x : list Z) (n : vfs_node) : vfs_node :=
  VNode x (n_flags n) (n_size n) (n_inode n) (n_parent_inode n) (n_permissions n) (n_block_size n)
    (n_ops n) (n_fs n) (n_data n) (n_ptr_mount n).
Definition set_n_flags (x : Z) (n : vfs_node) : vfs_node :=
  VNode (n_name n) x (n_size n) (n_inode n) (n_parent_inode n) (n_permissions n) (n_block_size n)
    (n_ops n) (n_fs n) (n_data n) (n_ptr_mount n).
Definition set_n_size (x : Z) (n : vfs_node) : vfs_node :=
  VNode (n_name n) (n_flags n) x (n_inode n) (n_parent_inode n) (n_permissions n) (n_block_size n)
    (n_ops n) (n_fs n) (n_data n) (n_ptr_mount n).
Definition set_n_parent (x : Z) (n : vfs_node) : vfs_node :=
  VNode (n_name n) (n_flags n) (n_size n) (n_inode n) x (n_permissions n) (n_block_size n)
    (n_ops n) (n_fs n) (n_data n) (n_ptr_mount n).
Definition set_n_permissions (x : Z) (n : vfs_node) : vfs_node :=
  VNode (n_name n) (n_flags n) (n_size n) (n_inode n) (n_parent_inode n) x (n_block_size n)
    (n_ops n) (n_fs n) (n_data n) (n_ptr_mount n).
Definition set_n_fs (x : Z) (n : vfs_node) : vfs_node :=
  VNode (n_name n) (n_flags n) (n_size n) (n_inode n) (n_parent_inode n) (n_permissions n) (n_block_size n)
    (n_ops n) x (n_data n) (n_ptr_mount n).
Definition set_n_data (x : pdata) (n : vfs_node) : vfs_node :=
  VNode (n_name n) (n_flags n) (n_size n) (n_inode n) (n_parent_inode n) (n_permissions n) (n_block_size n)
    (n_ops n) (n_fs n) x (n_ptr_mount n).
Definition set_n_ptr_mount (x : Z) (n : vfs_node) : vfs_node :=
  VNode (n_name n) (n_flags n) (n_size n) (n_inode n) (n_parent_inode n) (n_permissions n) (n_block_size n)
    (n_ops n) (n_fs n) (n_data n) x.

(** A bridge of the mount list. *)
Record vfs_mount_t : Type := Mount { mountpoint : Z; fs_root : Z }.

(** The state of the file systems: the nodes by address, the address the next
    allocation returns, how many allocations will still succeed, the mount
    list and its lock, the root. *)
Record vfs : Type := Vfs {
  f_nodes : gmap Z vfs_node;
  f_brk : Z;
  f_mem : nat;
  g_mount_list : list vfs_mount_t;
  vfs_table_lock : bool;
  g_vfs_root : Z
}.

Definition set_f_nodes (x : gmap Z vfs_node) (s : vfs) : vfs :=
  Vfs x (f_brk s) (f_mem s) (g_mount_list s) (vfs_table_lock s) (g_vfs_root s).
Definition set_mount_list (x : list vfs_mount_t) (s : vfs) : vfs :=
  Vfs (f_nodes s) (f_brk s) (f_mem s) x (vfs_table_lock s) (g_vfs_root s).
Definition set_table_lock (x : bool) (s : vfs) : vfs :=
  Vfs (f_nodes s) (f_brk s) (f_mem s) (g_mount_list s) x (g_vfs_root s).
Definition set_vfs_root (x : Z) (s : vfs) : vfs :=
  Vfs (f_nodes s) (f_brk s) (f_mem s) (g_mount_list s) (vfs_table_lock s) x.
Definition set_alloc (b : Z) (m : nat) (s : vfs) : vfs :=
  Vfs (f_nodes s) b m (g_mount_list s) (vfs_table_lock s) (g_vfs_root s).

Definition vfs_lock_tables : M vfs unit :=
  b <-- kgets vfs_table_lock ;; if b then kstop Deadlock else kmodify (set_table_lock true).
Definition vfs_unlock_tables : M vfs unit := kmodify (set_table_lock false).

(** [kmalloc]: a fresh address, or null when memory is out. *)
Definition fs_kmalloc : M vfs Z :=
  s <-- kget ;;
  match f_mem s with
  | O => kret 0
  | S m => kmodify (set_alloc (f_brk s + 16) m) ;;; kret (f_brk s)
  end.
(** Memory given back can be allocated again. *)
Definition fs_kfree : M vfs unit := kmodify (fun s => set_alloc (f_brk s) (S (f_mem s)) s).

(** [*p] for a node pointer. *)
Definition node (p : Z) : M vfs vfs_node := s <-- kget ;; kopt NullDeref (f_nodes s !! p).
Definition put_node (p : Z) (n : vfs_node) : M vfs unit :=
  kmodify (fun s => set_f_nodes (<[p := n]> (f_nodes s)) s).
Definition on_node (p : Z) (f : vfs_node -> vfs_node) : M vfs unit := n <-- node p ;; put_node p (f n).

Definition has (flags bit : Z) : bool := negb (Z.land flags bit =? 0).

(** ** Files *)

(** The return code and the bytes placed in the caller's buffer. *)
Definition ramfs_read (p offset size : Z) : M vfs (Z * list Z) :=
  if p =? 0 then kret (-1, []) else
  n <-- node p ;;
  if has (n_flags n) VFS_DIRECTORY then kret (-1, []) else
  match n_data n with
  | PFileData (Some buffer) _ =>
      if n_size n <=? offset then kret (0, []) else
      let size := if n_size n <? u64 (offset + size) then u32 (n_size n - offset) else size in
      bs <-- bytes_out buffer offset size ;;
      kret (s32 size, bs)
  | PEntry _ _ => kstop OutOfBounds
  | _ => kret (0, [])
  end.

(** [src] holds the [size] bytes of the caller's buffer. *)
Definition ramfs_write (p offset : Z) (src : list Z) : M vfs Z :=
  let size := zlen src in
  if p =? 0 then kret (-1) else
  n <-- node p ;;
  if has (n_flags n) VFS_DIRECTORY then kret (-1) else
  match n_data n with
  | PNull => kret (-1)
  | PEntry _ _ => kstop OutOfBounds
  | PFileData buffer cap =>
      r <-- (if cap <? u64 (offset + size) then
               let new_cap := u32 (offset + size + 512) in
               a <-- fs_kmalloc ;;
               if a =? 0 then kret (inl (-2)) else
               let new_buf := replicate (Z.to_nat new_cap) 0 in
               match buffer with
               | Some old =>
                   bs <-- bytes_out old 0 (n_size n) ;;
                   b <-- bytes_in new_buf 0 bs ;;
                   fs_kfree ;;;
                   kret (inr (Some b, new_cap))
               | None => kret (inr (Some new_buf, new_cap))
               end
             else kret (inr (buffer, cap))) ;;
      match r with
      | inl e => kret e
      | inr (b, cap') =>
          b' <-- (match b with
                  | Some b => b' <-- bytes_in b offset src ;; kret (Some b')
                  | None => if size =? 0 then kret None else kstop NullDeref
                  end) ;;
          put_node p (set_n_data (PFileData b' cap')
            (if n_size n <? u64 (offset + size) then set_n_size (u64 (offset + size)) n else n)) ;;;
          kret (s32 size)
      end
  end.

(** ** Directories *)

(** The search along the entries. *)
Fixpoint find_entry (name : list Z) (d : pdata) : M vfs Z :=
  match d with
  | PNull => kret 0
  | PFileData _ _ => kstop OutOfBounds
  | PEntry c next =>
      n <-- node c ;;
      if decide (n_name n = name) then kret c else find_entry name next
  end.

Definition ramfs_finddir (parent : Z) (name : list Z) : M vfs Z :=
  if parent =? 0 then kret 0 else
  p <-- node parent ;;
  if negb (has (n_flags p) VFS_DIRECTORY) then kret 0 else find_entry name (n_data p).

Fixpoint nth_entry (index : nat) (d : pdata) : M vfs (Z * option vfs_node) :=
  match d with
  | PNull => kret (-1, None)
  | PFileData _ _ => kstop OutOfBounds
  | PEntry c next =>
      match index with
      | O => n <-- node c ;; kret (0, Some n)
      | S i => nth_entry i next
      end
  end.

Definition ramfs_readdir (target : Z) (index : Z) : M vfs (Z * option vfs_node) :=
  if target =? 0 then kret (-1, None) else
  t <-- node target ;;
  if negb (has (n_flags t) VFS_DIRECTORY) then kret (-1, None) else
  nth_entry (Z.to_nat index) (n_data t).

(** [strncpy] into a name field, the last byte kept for the terminator. *)
Definition name_field (name : list Z) : list Z := take (VFS_NAME_MAX - 1) name.

(** The parent is not checked to be a directory here. *)
Definition ramfs_create_object (parent : Z) (name : list Z) (permissions flags : Z) : M vfs Z :=
  if (parent =? 0) || bool_decide (name = []) then kret (-1) else
  old <-- ramfs_finddir parent name ;;
  if negb (old =? 0) then kret (-2) else
  new_node <-- fs_kmalloc ;;
  if new_node =? 0 then kret (-3) else
  p <-- node parent ;;
  fdata <-- (if flags =? VFS_FILE then a <-- fs_kmalloc ;; kret (negb (a =? 0)) else kret true) ;;
  if negb fdata then fs_kfree ;;; kret (-3) else
  new_entry <-- fs_kmalloc ;;
  if new_entry =? 0 then
    (if flags =? VFS_FILE then fs_kfree else kret tt) ;;; fs_kfree ;;; kret (-3)
  else
  put_node new_node
    (VNode (name_field name) flags 0 (u32 new_node) (n_inode p) permissions 0 RamfsOps (n_fs p)
       (if flags =? VFS_FILE then PFileData None 0 else PNull) 0) ;;;
  vfs_lock_tables ;;;
  on_node parent (fun p => set_n_data (PEntry new_node (n_data p)) p) ;;;
  vfs_unlock_tables ;;;
  kret 0.

Definition ramfs_mkdir (parent : Z) (name : list Z) (permissions : Z) : M vfs Z :=
  ramfs_create_object parent name permissions VFS_DIRECTORY.
Definition ramfs_create (parent : Z) (name : list Z) (permissions : Z) : M vfs Z :=
  ramfs_create_object parent name permissions VFS_FILE.

(** ** Removal *)

(** The walk of [ramfs_remove_object]: the entry with this name, and the chain
    with that entry taken out; an error code ends the walk. *)
Fixpoint unlink_entry (name : list Z) (expected_flag : Z) (d : pdata) : M vfs (Z + (Z * vfs_node * pdata)) :=
  match d with
  | PNull => kret (inl (-4))
  | PFileData _ _ => kstop OutOfBounds
  | PEntry c next =>
      n <-- node c ;;
      if decide (n_name n = name) then
        if negb (n_flags n =? expected_flag) then kret (inl (-2)) else
        if (expected_flag =? VFS_DIRECTORY) && negb (match n_data n with PNull => true | _ => false end)
        then kret (inl (-3))
        else kret (inr (c, n, next))
      else
        r <-- unlink_entry name expected_flag next ;;
        match r with
        | inl e => kret (inl e)
        | inr (x, xn, rest) => kret (inr (x, xn, PEntry c rest))
        end
  end.

Definition ramfs_remove_object (parent : Z) (name : list Z) (expected_flag : Z) : M vfs Z :=
  if parent =? 0 then kret (-1) else
  vfs_lock_tables ;;;
  p <-- node parent ;;
  r <-- unlink_entry name expected_flag (n_data p) ;;
  match r with
  | inl e => vfs_unlock_tables ;;; kret e
  | inr (c, n, rest) =>
      on_node parent (set_n_data rest) ;;;
      vfs_unlock_tables ;;;
      (if expected_flag =? VFS_FILE then
         match n_data n with
         | PFileData (Some _) _ => fs_kfree ;;; fs_kfree
         | PFileData None _ => fs_kfree
         | PEntry _ _ => kstop OutOfBounds
         | PNull => kret tt
         end
       else kret tt) ;;;
      kmodify (fun s => set_f_nodes (delete c (f_nodes s)) s) ;;; fs_kfree ;;;
      fs_kfree ;;;
      kret 0
  end.

Definition ramfs_unlink (parent : Z) (name : list Z) : M vfs Z := ramfs_remove_object parent name VFS_FILE.
Definition ramfs_rmdir (parent : Z) (name : list Z) : M vfs Z := ramfs_remove_object parent name VFS_DIRECTORY.

(** ** Metadata *)

Record vfs_stat_t : Type := Stat {
  st_ino : Z; st_size : Z; st_mode : Z; st_uid : Z; st_gid : Z; st_attr : Z
}.

Definition ramfs_stat (p : Z) : M vfs (Z * option vfs_stat_t) :=
  if p =? 0 then kret (-1, None) else
  n <-- node p ;;
  kret (0, Some (Stat (u32 (n_inode n)) (n_size n) (Z.lor (n_flags n) (n_permissions n)) 0 0 0)).

Definition ramfs_chmod (p mode : Z) : M vfs Z :=
  if p =? 0 then kret (-1) else
  on_node p (set_n_permissions (u16 mode)) ;;; kret 0.

(** ** Mount points ([vfs.c]) and renaming *)

(** The bridge of the node, by address or by inode and operations. *)
Fixpoint find_mount (p : Z) (n : vfs_node) (l : list vfs_mount_t) : M vfs Z :=
  match l with
  | [] => kret p
  | m :: l' =>
      if mountpoint m =? p then kret (fs_root m) else
      mp <-- node (mountpoint m) ;;
      if (n_inode mp =? n_inode n) && bool_decide (n_ops mp = n_ops n)
      then kret (fs_root m) else find_mount p n l'
  end.

Definition vfs_resolve_mountpoint (p : Z) : M vfs Z :=
  if p =? 0 then kret p else
  n <-- node p ;;
  if negb (has (n_flags n) VFS_MOUNTPOINT) then kret p else
  vfs_lock_tables ;;;
  l <-- kgets g_mount_list ;;
  r <-- find_mount p n l ;;
  vfs_unlock_tables ;;;
  kret r.

(** Take the entry of node [target] out of the chain. *)
Fixpoint extract_entry (target : Z) (d : pdata) : M vfs (option pdata) :=
  match d with
  | PNull => kret None
  | PFileData _ _ => kstop OutOfBounds
  | PEntry c next =>
      if c =? target then kret (Some next) else
      r <-- extract_entry target next ;;
      match r with
      | Some rest => kret (Some (PEntry c rest))
      | None => kret None
      end
  end.

Definition ramfs_rename (old_dir : Z) (old_name : list Z) (new_dir : Z) (new_name : list Z) : M vfs Z :=
  if (old_dir =? 0) || (new_dir =? 0) then kret (-1) else
  old_dir <-- vfs_resolve_mountpoint old_dir ;;
  new_dir <-- vfs_resolve_mountpoint new_dir ;;
  target <-- ramfs_finddir old_dir old_name ;;
  if target =? 0 then kret (-2) else
  dup <-- ramfs_finddir new_dir new_name ;;
  if negb (dup =? 0) then kret (-3) else
  vfs_lock_tables ;;;
  (if negb (old_dir =? new_dir) then
     od <-- node old_dir ;;
     r <-- extract_entry target (n_data od) ;;
     match r with
     | None => kret tt
     | Some rest =>
         on_node old_dir (set_n_data rest) ;;;
         on_node new_dir (fun nd => set_n_data (PEntry target (n_data nd)) nd) ;;;
         nd <-- node new_dir ;;
         on_node target (fun t => set_n_parent (n_inode nd) (set_n_fs (n_fs nd) t))
     end
   else kret tt) ;;;
  on_node target (set_n_name (name_field new_name)) ;;;
  vfs_unlock_tables ;;;
  kret 0.

(** ** Specification of files *)

(** Byte [i] of a file, if it has that many. *)
Definition file_byte (n : vfs_node) (i : Z) : option Z :=
  if (0 <=? i) && (i <? n_size n) then
    match n_data n with
    | PFileData (Some b) _ => b !! Z.to_nat i
    | _ => None
    end
  else None.

(** The data block of a file: the buffer has the recorded capacity, the file
    fits in it, and the bytes beyond the end of the file are zero. *)
Definition file_ok (n : vfs_node) : Prop :=
  has (n_flags n) VFS_DIRECTORY = false /\
  match n_data n with
  | PFileData (Some b) cap =>
      zlen b = cap /\ 0 <= n_size n <= cap /\ cap < 2 ^ 32 /\
      forall i x, n_size n <= Z.of_nat i -> b !! i = Some x -> x = 0
  | PFileData None cap => cap = 0 /\ n_size n = 0
  | _ => False
  end.

(** What a write of [src] at [off] makes of the bytes of a file: the bytes of
    [src], the old ones around them, and zeros in a gap before them. *)
Definition written (n : vfs_node) (off : Z) (src : list Z) (i : Z) : option Z :=
  if (off <=? i) && (i <? off + zlen src) then src !! Z.to_nat (i - off)
  else if (n_size n <=? i) && (i <? off) then Some 0
  else file_byte n i.

(** The grown buffer of a file: the old bytes of the file, then zeros. *)
Lemma grown_buffer (n : vfs_node) old new_cap b :
  zlen old <= new_cap -> 0 <= n_size n <= zlen old ->
  (forall i x, n_size n <= Z.of_nat i -> old !! i = Some x -> x = 0) ->
  spliced (replicate (Z.to_nat new_cap) 0) 0 (take (Z.to_nat (n_size n)) old) b ->
  zlen b = new_cap /\
  (forall i, 0 <= Z.of_nat i < n_size n -> b !! i = old !! i) /\
  (forall i x, n_size n <= Z.of_nat i -> b !! i = Some x -> x = 0).
Proof.
  intros Hcap Hsz Hz [Hlen Hb]. pose proof (zlen_nonneg old). unfold zlen in *.
  rewrite length_replicate in Hlen. split; [lia|].
  assert (Ht : Z.of_nat (length (take (Z.to_nat (n_size n)) old)) = n_size n).
  { rewrite length_take. lia. }
  split.
  - intros i Hi. rewrite Hb, Ht, decide_True by lia. rewrite Nat.sub_0_r. by rewrite lookup_take_lt by lia.
  - intros i x Hi Hx. rewrite Hb, Ht, decide_False in Hx by lia. by apply lookup_replicate in Hx as [-> _].
Qed.

Section file.
Context (s : vfs) (p : Z) (n : vfs_node).
Hypothesis Hnode : f_nodes s !! p = Some n.
Hypothesis Hp : p <> 0.
Hypothesis Hok : file_ok n.

Lemma wp_node (Q : vfs_node -> vfs -> Prop) : Q n s -> wp (node p) Q s.
Proof. intros HQ. unfold node. wp_steps. by eapply wp_opt. Qed.

(** The state after the node of the file was replaced. *)
Definition replaced (n' : vfs_node) (s' : vfs) : Prop :=
  f_nodes s' = <[p := n']> (f_nodes s) /\ g_mount_list s' = g_mount_list s /\
  vfs_table_lock s' = vfs_table_lock s /\ g_vfs_root s' = g_vfs_root s.

(** The final copy of [ramfs_write] into a buffer that is large enough. *)
Lemma write_bytes off src b b' cap n' :
  0 <= off -> off + zlen src <= zlen b -> zlen b = cap -> cap < 2 ^ 32 -> 0 <= n_size n <= cap ->
  (forall i, 0 <= Z.of_nat i < n_size n -> b !! i = file_byte n (Z.of_nat i)) ->
  (forall i x, n_size n <= Z.of_nat i -> b !! i = Some x -> x = 0) ->
  spliced b off src b' ->
  n' = set_n_data (PFileData (Some b') cap)
         (if n_size n <? off + zlen src then set_n_size (off + zlen src) n else n) ->
  file_ok n' /\ n_size n' = Z.max (n_size n) (off + zlen src) /\
  forall i, file_byte n' i = written n off src i.
Proof.
  intros Ho Hle Hcap Hc32 Hsz Hold Hz [Hl Hb] ->. destruct Hok as [Hdir _].
  set (n' := set_n_data _ _). pose proof (zlen_nonneg src).
  assert (Hsize : n_size n' = Z.max (n_size n) (off + zlen src)).
  { unfold n'. destruct (Z.ltb_spec (n_size n) (off + zlen src)); cbn; lia. }
  assert (Hflags : n_flags n' = n_flags n) by (unfold n'; by destruct (_ <? _)).
  assert (Hdata : n_data n' = PFileData (Some b') cap) by done.
  split_and!; [|done|].
  - split; [by rewrite Hflags|]. rewrite Hdata, Hsize. split_and!; try lia.
    intros i x Hi Hx. rewrite Hb, decide_False in Hx by lia. eapply Hz; [|done]. lia.
  - intros i. unfold file_byte at 1, written. rewrite Hdata, Hsize.
    destruct (Z.leb_spec off i), (Z.ltb_spec i (off + zlen src)), (Z.leb_spec 0 i),
      (Z.ltb_spec i (Z.max (n_size n) (off + zlen src))), (Z.leb_spec (n_size n) i),
      (Z.ltb_spec i off); cbn [andb]; try lia.
    all: try (rewrite Hb; rewrite decide_True by lia; f_equal; lia).
    all: try (rewrite Hb; rewrite decide_False by lia; rewrite Hold by lia; f_equal; lia).
    all: try (unfold file_byte; destruct (Z.leb_spec 0 i), (Z.ltb_spec i (n_size n)); cbn; done || lia).
    rewrite Hb, decide_False by lia.
    destruct (lookup_lt_is_Some_2 b (Z.to_nat i)) as [x Hx]; [unfold zlen in *; lia|].
    rewrite Hx. f_equal. eapply Hz; [|exact Hx]. lia.
Qed.

Lemma wp_ramfs_write off src :
  0 <= off -> off + zlen src + 512 < 2 ^ 32 -> zlen src < 2 ^ 31 -> f_mem s <> 0%nat -> 0 < f_brk s ->
  wp (ramfs_write p off src)
    (fun r s' => r = zlen src /\ exists n', replaced n' s' /\ file_ok n' /\
       n_size n' = Z.max (n_size n) (off + zlen src) /\ forall i, file_byte n' i = written n off src i) s.
Proof.
  intros Ho Hbig Hsrc Hmem Hbrk. pose proof Hok as [Hdir Hdat]. unfold ramfs_write.
  rewrite (proj2 (Z.eqb_neq _ _) Hp). apply wp_bind, wp_node. rewrite Hdir.
  pose proof (zlen_nonneg src) as Hs0.
  rewrite (u64_small (off + zlen src)) by lia. rewrite s32_small by lia.
  destruct (n_data n) as [|buf cap|] eqn:Edata; [done | | done]. 
  assert (Hold : forall b, buf = Some b -> forall i, 0 <= Z.of_nat i < n_size n -> b !! i = file_byte n (Z.of_nat i)).
  { intros b -> i Hi. unfold file_byte. rewrite Edata.
    rewrite (proj2 (Z.leb_le _ _)), (proj2 (Z.ltb_lt _ _)) by lia. cbn. f_equal. lia. }
  destruct (Z.ltb_spec cap (off + zlen src)).
  - unfold fs_kmalloc. rewrite (u32_small (off + zlen src + 512)) by (destruct buf; lia). wp_steps.
    destruct (f_mem s) as [|m] eqn:Em; [done|]. wp_steps.
    rewrite (proj2 (Z.eqb_neq (f_brk s) 0)) by lia. set (cap' := off + zlen src + 512) in *.
    destruct buf as [old|].
    + destruct Hdat as (Hl & Hsz & Hc & Hz). wp_steps.
      apply wp_bytes_out; [lia.. |]. rewrite drop_0. wp_steps.
      assert (Htk : zlen (take (Z.to_nat (n_size n)) old) = n_size n) by (unfold zlen in *; rewrite length_take; lia).
      apply wp_bytes_in; [lia | rewrite Htk; unfold zlen; rewrite length_replicate; unfold cap' in *; lia|].
      intros b Hsp. unfold fs_kfree. wp_steps.
      destruct (grown_buffer n old cap' b) as (G1 & G2 & G3); [lia | lia | done | done|].
      apply wp_bytes_in; [lia | lia|]. intros b' Hsp'. unfold put_node. wp_steps. split; [done|].
      eexists. split; [split_and!; cbn; try done; reflexivity|].
      apply (write_bytes off src b b' cap'); try done; try lia.
      intros i Hi. rewrite G2 by lia. by apply Hold.
    + destruct Hdat as [-> Hsz]. wp_steps.
      assert (Hl : zlen (replicate (Z.to_nat cap') 0) = cap') by (unfold zlen; rewrite length_replicate; lia).
      apply wp_bytes_in; [lia | lia|]. intros b' Hsp'. unfold put_node. wp_steps. split; [done|].
      eexists. split; [split_and!; cbn; try done; reflexivity|].
      apply (write_bytes off src (replicate (Z.to_nat cap') 0) b' cap'); try done; try lia.
      intros i x _ Hx. by apply lookup_replicate in Hx as [-> _].
  - wp_steps. destruct buf as [b|].
    + destruct Hdat as (Hl & Hsz & Hc & Hz). wp_steps. apply wp_bytes_in; [lia | lia|].
      intros b' Hsp'. unfold put_node. wp_steps. split; [done|].
      eexists. split; [split_and!; cbn; try done; reflexivity|].
      apply (write_bytes off src b b' cap); try done; try lia. by apply Hold.
    + destruct Hdat as [-> Hsz]. assert (zlen src = 0) as Hz by lia. rewrite Hz, Z.eqb_refl.
      unfold put_node. wp_steps. split; [done|]. eexists. split; [split_and!; cbn; try done; reflexivity|].
      rewrite (proj2 (Z.ltb_ge _ _)) by lia. split_and!; [split; [done | by split] | cbn; lia|].
      intros i. unfold written. rewrite Hz. destruct (Z.leb_spec off i), (Z.ltb_spec i (off + 0)),
        (Z.leb_spec (n_size n) i), (Z.ltb_spec i off); cbn; try lia;
        unfold file_byte; rewrite Edata; cbn; done.
Qed.

(** A read returns the bytes of the file from [off] on, up to its end. *)
Lemma wp_ramfs_read off size :
  0 <= off < 2 ^ 63 -> 0 <= size < 2 ^ 31 ->
  wp (ramfs_read p off size)
    (fun r s' => s' = s /\ r.1 = Z.max 0 (Z.min size (n_size n - off)) /\ zlen r.2 = r.1 /\
       forall i, 0 <= Z.of_nat i < r.1 -> r.2 !! i = file_byte n (off + Z.of_nat i)) s.
Proof.
  intros Ho Hs. pose proof Hok as [Hdir Hdat]. unfold ramfs_read.
  rewrite (proj2 (Z.eqb_neq _ _) Hp). apply wp_bind, wp_node. rewrite Hdir.
  destruct (n_data n) as [|[b|] cap|] eqn:Edata; try done.
  2:{ destruct Hdat as [-> Hsz]. wp_steps. cbn. split_and!; [done | lia | done | intros; lia]. }
  destruct Hdat as (Hl & Hsz & Hc & Hz). rewrite (u64_small (off + size)) by lia.
  destruct (Z.leb_spec (n_size n) off); wp_steps; [cbn; split_and!; [done | lia | done | intros; lia]|].
  set (k := if n_size n <? off + size then u32 (n_size n - off) else size).
  assert (Hk : k = Z.min size (n_size n - off)).
  { unfold k. destruct (Z.ltb_spec (n_size n) (off + size)); [rewrite u32_small|]; lia. }
  apply wp_bytes_out; [lia.. |]. wp_steps. cbn [fst snd]. rewrite s32_small by lia.
  assert (Htl : zlen (take (Z.to_nat k) (drop (Z.to_nat off) b)) = k).
  { unfold zlen in *. rewrite length_take, length_drop. lia. }
  split_and!; [done | lia | done|]. intros i Hi. rewrite lookup_take_lt, lookup_drop by lia.
  unfold file_byte. rewrite Edata, (proj2 (Z.leb_le _ _)), (proj2 (Z.ltb_lt _ _)) by lia.
  cbn. f_equal. lia.
Qed.

End file.

(** [ramfs_write] writes a file.  For offsets within 4 GB and while memory
    lasts, the call returns the number of bytes; afterwards every byte of the
    file is the one written, the old one, or zero in a gap, the size is the
    larger of the old size and the end of the write, the buffer stays
    consistent, and no other node changes. *)
Theorem ramfs_write_correct s p n off src :
  f_nodes s !! p = Some n -> p <> 0 -> file_ok n -> 0 <= off -> off + zlen src + 512 < 2 ^ 32 ->
  zlen src < 2 ^ 31 -> f_mem s <> 0%nat -> 0 < f_brk s ->
  wp (ramfs_write p off src)
    (fun r s' => r = zlen src /\ exists n', f_nodes s' = <[p := n']> (f_nodes s) /\ file_ok n' /\
       n_size n' = Z.max (n_size n) (off + zlen src) /\ forall i, file_byte n' i = written n off src i) s.
Proof.
  intros. eapply wp_mono; [by apply (wp_ramfs_write s p n)|]. cbn beta.
  intros r s' (-> & n' & (Hn & _) & H'). split; [done|]. by exists n'.
Qed.

(** What is written is what is read: a write followed by a read of the
    same range returns exactly the bytes written. *)
Theorem ramfs_write_read s p n off src :
  f_nodes s !! p = Some n -> p <> 0 -> file_ok n -> 0 <= off -> off + zlen src + 512 < 2 ^ 32 ->
  zlen src < 2 ^ 31 -> f_mem s <> 0%nat -> 0 < f_brk s ->
  wp (ramfs_write p off src ;;; ramfs_read p off (zlen src)) (fun r _ => r = (zlen src, src)) s.
Proof.
  intros Hn Hp Hok Ho Hb Hs Hm Hk. apply wp_bind. eapply wp_mono; [by apply (wp_ramfs_write s p n)|].
  cbn beta. intros _ s' (_ & n' & (Hn' & _) & Hok' & Hsz & Hbytes).
  assert (Hl : f_nodes s' !! p = Some n') by (rewrite Hn'; apply lookup_insert_eq).
  pose proof (zlen_nonneg src). eapply wp_mono; [apply (wp_ramfs_read s' p n' Hl Hp Hok'); lia|].
  cbn beta. intros [k bs] s2 (_ & Hr1 & Hr2 & Hr3). cbn [fst snd] in *.
  assert (k = zlen src) as -> by lia. f_equal. unfold zlen in *.
  apply (list_eq_same_length _ _ (length src)); [done | lia|]. intros i x y Hi Hx Hy.
  rewrite Hr3, Hbytes in Hx by lia. unfold written, zlen in Hx.
  rewrite (proj2 (Z.leb_le _ _)), (proj2 (Z.ltb_lt _ _)) in Hx by lia. cbn in Hx.
  replace (Z.to_nat (off + Z.of_nat i - off)) with i in Hx by lia. congruence.
Qed.

(** ** Specification of directories *)

(** The entries of a chain that ends in null. *)
Fixpoint chain (d : pdata) : option (list Z) :=
  match d with
  | PNull => Some []
  | PFileData _ _ => None
  | PEntry c next => (cons c) <$> chain next
  end.

Definition name_of (s : vfs) (c : Z) : list Z := from_option n_name [] (f_nodes s !! c).

(** Directory [d] has the entries [l]: existing nodes with different names. *)
Record dir_has (s : vfs) (d : Z) (l : list Z) : Prop := {
  dh_node : exists n, f_nodes s !! d = Some n /\ has (n_flags n) VFS_DIRECTORY = true /\
    chain (n_data n) = Some l;
  dh_live : forall c, c ∈ l -> is_Some (f_nodes s !! c) /\ 0 < c;
  dh_names : NoDup (map (name_of s) l)
}.

(** The entry with a name. *)
Definition dir_find (s : vfs) (l : list Z) (name : list Z) : Z :=
  from_option (fun x => x.2) 0 (list_find (fun c => name_of s c = name) l).

Lemma wp_find_entry s l name d (Q : Z -> vfs -> Prop) :
  chain d = Some l -> (forall c, c ∈ l -> is_Some (f_nodes s !! c) /\ 0 < c) ->
  Q (dir_find s l name) s -> wp (find_entry name d) Q s.
Proof.
  revert l Q. induction d as [| |c d IH]; intros l Q Hc Hl HQ; cbn [chain find_entry] in *; [|done|].
  - injection Hc as <-. by wp_steps.
  - destruct (chain d) as [l'|]; [|done]. injection Hc as <-.
    destruct (Hl c ltac:(by left)) as [[n Hn] Hpos]. wp_steps. unfold node. wp_steps.
    eapply wp_opt; [exact Hn|]. unfold dir_find in HQ. cbn in HQ.
    assert (Hname : name_of s c = n_name n) by (unfold name_of; by rewrite Hn). rewrite Hname in HQ.
    destruct (decide (n_name n = name)); [by wp_steps|].
    eapply IH; [done | intros x Hx; apply Hl; by right|]. unfold dir_find.
    destruct (list_find _ l') as [[i x]|]; exact HQ.
Qed.

Lemma wp_finddir s d l name (Q : Z -> vfs -> Prop) :
  dir_has s d l -> d <> 0 -> Q (dir_find s l name) s -> wp (ramfs_finddir d name) Q s.
Proof.
  intros [(n & Hn & Hd & Hc) Hl _] H0 HQ. unfold ramfs_finddir.
  rewrite (proj2 (Z.eqb_neq _ _) H0). wp_steps. unfold node. wp_steps. eapply wp_opt; [exact Hn|].
  rewrite Hd. by eapply wp_find_entry.
Qed.

Lemma dir_find_0 s l name :
  (forall c, c ∈ l -> 0 < c) -> dir_find s l name = 0 <-> ~ (name ∈ map (name_of s) l).
Proof.
  intros Hpos. unfold dir_find. destruct (list_find _ l) as [[i c]|] eqn:E.
  - apply list_find_Some in E as (Hi & Hc & _). apply list_elem_of_lookup_2 in Hi. cbn.
    pose proof (Hpos c Hi). split; [lia|]. intros Hno. exfalso. apply Hno, list_elem_of_fmap. by exists c.
  - apply list_find_None in E. cbn. split; [|done]. intros _ (c & -> & Hc)%list_elem_of_fmap.
    rewrite Forall_forall in E. by apply (E c Hc).
Qed.

Lemma dir_find_in s l name c :
  NoDup (map (name_of s) l) -> c ∈ l -> name_of s c = name -> dir_find s l name = c.
Proof.
  intros Hnd Hc Hname. unfold dir_find. apply list_elem_of_lookup in Hc as [j Hj].
  destruct (list_find _ l) as [[i x]|] eqn:E.
  - apply list_find_Some in E as (Hi & Hx & _). cbn.
    assert (i = j); [|subst; congruence].
    eapply (NoDup_lookup _ i j name Hnd); rewrite list_lookup_fmap; [by rewrite Hi, <- Hx | by rewrite Hj, <- Hname].
  - apply list_find_None in E. rewrite Forall_forall in E. exfalso.
    apply (E c); [by eapply list_elem_of_lookup_2 | done].
Qed.

(** ** The invariant of the file system *)

Record fs_ok (s : vfs) : Prop := {
  fo_lock : vfs_table_lock s = false;
  fo_fresh : forall p n, f_nodes s !! p = Some n -> 0 < p < f_brk s;
  fo_node : forall p n, f_nodes s !! p = Some n ->
    (has (n_flags n) VFS_DIRECTORY = true /\ exists l, dir_has s p l) \/ file_ok n;
  fo_one : forall d d' l l' c, dir_has s d l -> dir_has s d' l' -> c ∈ l -> c ∈ l' -> d = d';
  fo_brk : 0 < f_brk s
}.

Lemma dir_has_fun s d l l' : dir_has s d l -> dir_has s d l' -> l = l'.
Proof. intros [(n & Hn & _ & Hc) _ _] [(n' & Hn' & _ & Hc') _ _]. congruence. Qed.

(** A directory whose node and whose entries' names are the same is the same. *)
Lemma dir_has_ext s s' d l :
  dir_has s d l -> f_nodes s' !! d = f_nodes s !! d ->
  (forall c, c ∈ l -> is_Some (f_nodes s' !! c) /\ name_of s' c = name_of s c) -> dir_has s' d l.
Proof.
  intros [Hn Hl Hnd] Hd Hc. split.
  - destruct Hn as (n & Hn & H). exists n. by rewrite Hd.
  - intros c Hin. split; [by apply Hc | by apply Hl].
  - rewrite (map_ext_in (name_of s') (name_of s)); [done|]. intros c Hin. apply Hc. by apply list_elem_of_In.
Qed.

(** The same with another chain behind the directory's node. *)
Lemma dir_has_set s s' d l' n n' :
  f_nodes s !! d = Some n -> f_nodes s' !! d = Some n' ->
  has (n_flags n') VFS_DIRECTORY = true -> chain (n_data n') = Some l' ->
  (forall c, c ∈ l' -> is_Some (f_nodes s' !! c) /\ 0 < c) -> NoDup (map (name_of s') l') -> dir_has s' d l'.
Proof. intros Hn Hn' Hd Hc Hl Hnd. split; [by exists n' | done | done]. Qed.

(** Two stores with the same names, types, sizes and data. *)
Definition same_shape (s s' : vfs) : Prop :=
  forall q, match f_nodes s !! q, f_nodes s' !! q with
            | Some n, Some n' => n_name n' = n_name n /\ n_flags n' = n_flags n /\ n_size n' = n_size n /\ n_data n' = n_data n
            | None, None => True
            | _, _ => False
            end.

Lemma same_shape_sym s s' : same_shape s s' -> same_shape s' s.
Proof.
  intros H q. specialize (H q). destruct (f_nodes s !! q), (f_nodes s' !! q); try done.
  destruct H as (E1 & E2 & E3 & E4). by rewrite E1, E2, E3, E4.
Qed.

Lemma same_shape_node s s' q n : same_shape s s' -> f_nodes s !! q = Some n ->
  exists n', f_nodes s' !! q = Some n' /\ n_name n' = n_name n /\ n_flags n' = n_flags n /\ n_size n' = n_size n /\
    n_data n' = n_data n.
Proof. intros H Hn. specialize (H q). rewrite Hn in H. destruct (f_nodes s' !! q); [eauto | done]. Qed.

Lemma same_shape_name s s' q : same_shape s s' -> name_of s' q = name_of s q.
Proof.
  intros H. specialize (H q). unfold name_of. destruct (f_nodes s !! q), (f_nodes s' !! q); try done. by destruct H as (E & _).
Qed.

Lemma same_shape_dir s s' d l : same_shape s s' -> dir_has s d l -> dir_has s' d l.
Proof.
  intros H [(n & Hn & Hdir & Hch) Hl Hnd]. split.
  - destruct (same_shape_node s s' d n H Hn) as (n' & Hn' & _ & Ef & _ & Ed). exists n'. by rewrite Ef, Ed.
  - intros c Hc. destruct (Hl c Hc) as [[m Hm] Hpos]. destruct (same_shape_node s s' c m H Hm) as (m' & Hm' & _). split; [eauto | done].
  - rewrite (map_ext_in (name_of s') (name_of s)); [done|]. intros c _. by apply same_shape_name.
Qed.

Lemma same_shape_ok s s' :
  same_shape s s' -> f_brk s' = f_brk s -> vfs_table_lock s' = vfs_table_lock s -> fs_ok s -> fs_ok s'.
Proof.
  intros H Eb El [H1 H2 H3 H4 H5]. pose proof (same_shape_sym _ _ H) as H'. split; rewrite ?Eb, ?El; try done.
  - intros p n Hp. destruct (same_shape_node s' s p n H' Hp) as (m & Hm & _). by eapply H2.
  - intros p n Hp. destruct (same_shape_node s' s p n H' Hp) as (m & Hm & En & Ef & Es & Ed).
    destruct (H3 p m Hm) as [[Hdir [k Hk]]|Hf]; [left | right].
    + split; [congruence|]. exists k. by eapply same_shape_dir.
    + unfold file_ok in *. by rewrite <- Ef, <- Es, <- Ed.
  - intros d d' k k' c Hd Hd'. apply (H4 d d' k k' c); by eapply same_shape_dir.
Qed.

Lemma has_file : has VFS_FILE VFS_DIRECTORY = false.
Proof. done. Qed.
Lemma has_dir : has VFS_DIRECTORY VFS_DIRECTORY = true.
Proof. done. Qed.

(** ** Creation *)

(** The node [create] makes. *)
Definition fresh_node (c : Z) (name : list Z) (permissions flags : Z) (p : vfs_node) : vfs_node :=
  VNode (name_field name) flags 0 (u32 c) (n_inode p) permissions 0 RamfsOps (n_fs p)
    (if flags =? VFS_FILE then PFileData None 0 else PNull) 0.

(** Everything [create] changed: the new node [c] and the chain of [d]. *)
Definition created (s s' : vfs) (d c : Z) (pn nn : vfs_node) : Prop :=
  f_nodes s' = <[d := set_n_data (PEntry c (n_data pn)) pn]> (<[c := nn]> (f_nodes s)) /\
  f_brk s < f_brk s' /\ c < f_brk s' /\ vfs_table_lock s' = false /\
  g_mount_list s' = g_mount_list s /\ g_vfs_root s' = g_vfs_root s.

Lemma wp_create s d l name permissions flags pn :
  dir_has s d l -> f_nodes s !! d = Some pn -> 0 < d < f_brk s -> f_nodes s !! f_brk s = None ->
  vfs_table_lock s = false ->
  name <> [] -> ~ (name ∈ map (name_of s) l) -> (3 <= f_mem s)%nat ->
  wp (ramfs_create_object d name permissions flags)
    (fun r s' => r = 0 /\ created s s' d (f_brk s) pn (fresh_node (f_brk s) name permissions flags pn)) s.
Proof.
  intros Hd Hn Hpos Hfree Hlock Hname Hnew Hmem. unfold ramfs_create_object.
  rewrite (proj2 (Z.eqb_neq d 0)) by lia. rewrite bool_decide_eq_false_2 by done. cbn [orb].
  wp_steps. apply (wp_finddir s d l); [done | lia|].
  rewrite (proj2 (dir_find_0 s l name (fun c Hc => proj2 (dh_live _ _ _ Hd c Hc)))) by done.
  cbn [Z.eqb negb]. unfold fs_kmalloc. wp_steps. destruct (f_mem s) as [|[|[|m]]] eqn:Em; try lia. wp_steps.
  rewrite (proj2 (Z.eqb_neq (f_brk s) 0)) by lia. wp_steps. unfold node. wp_steps.
  eapply wp_opt; [exact Hn|]. wp_steps.
  assert (Hne : f_brk s <> d) by lia.
  destruct (flags =? VFS_FILE) eqn:Ef; wp_steps; cbn [f_mem set_alloc f_brk]; wp_steps;
    cbn [f_mem set_alloc f_brk];
    rewrite ?(proj2 (Z.eqb_neq (f_brk s + 16) 0)), ?(proj2 (Z.eqb_neq (f_brk s + 16 + 16) 0)) by lia;
    cbn [negb]; wp_steps; cbn [f_mem set_alloc f_brk]; wp_steps;
    rewrite ?(proj2 (Z.eqb_neq (f_brk s + 16) 0)), ?(proj2 (Z.eqb_neq (f_brk s + 16 + 16) 0)) by lia;
    unfold put_node, vfs_lock_tables, on_node, vfs_unlock_tables, node; wp_steps;
    cbn [vfs_table_lock set_f_nodes set_alloc]; rewrite Hlock; wp_steps;
    (eapply wp_opt; [cbn; rewrite lookup_insert_ne by done; exact Hn|]); wp_steps;
    (split; [done|]); unfold put_node; wp_steps; unfold created, fresh_node; rewrite Ef; cbn;
    split_and!; done || lia.
Qed.

Section created.
Context (s s' : vfs) (d c : Z) (pn nn : vfs_node) (l : list Z).
Hypothesis Hok : fs_ok s.
Hypothesis Hd : dir_has s d l.
Hypothesis Hpn : f_nodes s !! d = Some pn.
Hypothesis Hc : c = f_brk s.
Hypothesis Hcr : created s s' d c pn nn.
Hypothesis Hnew : ~ (n_name nn ∈ map (name_of s) l).
Hypothesis Hnn : (has (n_flags nn) VFS_DIRECTORY = true /\ n_data nn = PNull) \/ file_ok nn.

Lemma created_ne : c <> d /\ forall p n, f_nodes s !! p = Some n -> p <> c.
Proof.
  assert (H : forall p n, f_nodes s !! p = Some n -> p <> c).
  { intros p n Hp. pose proof (fo_fresh _ Hok p n Hp). lia. }
  split; [|done]. intros ->. by apply (H d pn).
Qed.

Lemma created_lookup p : p <> d -> p <> c -> f_nodes s' !! p = f_nodes s !! p.
Proof. intros H1 H2. destruct Hcr as [-> _]. by rewrite !lookup_insert_ne by done. Qed.

Lemma created_c : f_nodes s' !! c = Some nn.
Proof.
  destruct Hcr as [-> _]. destruct created_ne as [Hne _].
  by rewrite lookup_insert_ne, lookup_insert_eq by done.
Qed.

Lemma created_d : f_nodes s' !! d = Some (set_n_data (PEntry c (n_data pn)) pn).
Proof. destruct Hcr as [-> _]. by rewrite lookup_insert_eq. Qed.

Lemma created_name p : is_Some (f_nodes s !! p) -> is_Some (f_nodes s' !! p) /\ name_of s' p = name_of s p.
Proof.
  intros [n Hn]. destruct (decide (p = d)) as [->|Hpd].
  - rewrite created_d. split; [eauto|]. unfold name_of. by rewrite created_d, Hpn.
  - rewrite created_lookup; [|done|by apply (proj2 created_ne) with n]. split; [by rewrite Hn|].
    unfold name_of. rewrite created_lookup; [done|done|by apply (proj2 created_ne) with n].
Qed.

Lemma created_dir : dir_has s' d (c :: l).
Proof.
  pose proof Hd as [(n & Hn & Hdir & Hch) Hl Hnd]. assert (n = pn) as -> by congruence.
  eapply (dir_has_set s s' d); [exact Hpn | apply created_d | done | cbn; by rewrite Hch | |].
  - pose proof (fo_brk _ Hok). intros x [-> | Hx]%elem_of_cons; [rewrite created_c; split; [eauto | lia]|].
    destruct (Hl x Hx) as [H1 H2]. split; [by apply created_name | done].
  - assert (Heq : map (name_of s') l = map (name_of s) l).
    { apply map_ext_in. intros x Hx. apply created_name, Hl. by apply list_elem_of_In. }
    cbn. rewrite Heq. apply NoDup_cons. split; [|done]. unfold name_of at 1. by rewrite created_c.
Qed.

(** The directories of [s'] are those of [s] and, perhaps, the new node. *)
Lemma created_dirs p k :
  dir_has s' p k -> (p = d /\ k = c :: l) \/ (p = c /\ k = []) \/ (p <> d /\ p <> c /\ dir_has s p k).
Proof.
  intros Hp. destruct (decide (p = d)) as [->|Hpd].
  { left. split; [done|]. by eapply dir_has_fun, created_dir. }
  destruct (decide (p = c)) as [->|Hpc].
  - right. left. split; [done|]. destruct Hp as [(n & Hn & Hdir & Hch) _ _]. rewrite created_c in Hn.
    injection Hn as <-. destruct Hnn as [[_ Hnull]|[Hf _]]; [|congruence]. rewrite Hnull in Hch. by injection Hch as <-.
  - right. right. split_and!; [done..|]. pose proof Hp as [(n & Hn & Hdir & Hch) _ _].
    rewrite created_lookup in Hn by done.
    destruct (fo_node _ Hok p n Hn) as [[_ [k' Hk']]|[Hf _]]; [|congruence].
    assert (k' = k) as ->; [|done]. destruct Hk' as [(n' & Hn' & _ & Hch') _ _]. congruence.
Qed.

Lemma created_keep p k : dir_has s p k -> p <> d -> dir_has s' p k.
Proof.
  destruct created_ne as [Hne Hold]. intros Hp Hpd. pose proof Hp as [(n & Hn & _) Hl _].
  eapply dir_has_ext; [exact Hp | apply created_lookup; [done | by eapply Hold]|].
  intros x Hx. by apply created_name, Hl.
Qed.

Lemma created_ok : fs_ok s'.
Proof.
  destruct created_ne as [Hne Hold]. pose proof Hcr as (_ & B1 & B2 & L & _).
  pose proof (fo_brk _ Hok) as Hb. split; [done | | | |lia].
  - intros p n Hp. destruct (decide (p = c)) as [->|Hpc]; [lia|].
    assert (is_Some (f_nodes s !! p)) as [m Hm].
    { destruct (decide (p = d)) as [->|]; [eauto|]. rewrite created_lookup in Hp by done. eauto. }
    pose proof (fo_fresh _ Hok p m Hm). lia.
  - intros p n Hp. destruct (decide (p = d)) as [->|Hpd].
    { left. pose proof created_dir as Hx. split; [|eauto]. destruct Hx as [(m & Hm & Hdir & _) _ _]. congruence. }
    destruct (decide (p = c)) as [->|Hpc].
    + rewrite created_c in Hp. injection Hp as <-. destruct Hnn as [[Hdir Hnull]|Hf]; [left | by right].
      split; [done|]. exists []. split; [exists nn; rewrite created_c, Hnull; done | by intros x ?%elem_of_nil | constructor].
    + rewrite created_lookup in Hp by done. destruct (fo_node _ Hok p n Hp) as [[Hdir [k Hk]]|Hf]; [left | by right].
      split; [done|]. exists k. by apply created_keep.
  - intros p q k k' x Hp Hq Hx Hx'.
    assert (Hnc : forall r m, dir_has s r m -> c ∈ m -> False).
    { intros r m [_ Hl _] Hin. destruct (Hl c Hin) as [[y Hy] _]. by apply (Hold c y). }
    destruct (created_dirs p k Hp) as [[-> ->]|[[-> ->]|(P1 & P2 & P3)]],
      (created_dirs q k' Hq) as [[-> ->]|[[-> ->]|(Q1 & Q2 & Q3)]]; try done;
      try (by apply elem_of_nil in Hx); try (by apply elem_of_nil in Hx').
    + apply elem_of_cons in Hx as [-> | Hx]; [by exfalso; eapply Hnc|]. by eapply (fo_one _ Hok d q l k' x).
    + apply elem_of_cons in Hx' as [-> | Hx']; [by exfalso; eapply Hnc|]. by eapply (fo_one _ Hok p d k l x).
    + by eapply (fo_one _ Hok p q k k' x).
Qed.

End created.

(** Creation.  In a well-formed file system [ramfs_create] and
    [ramfs_mkdir] add a node under a new name: the call returns 0, looking the
    name up finds the new node (an empty file or an empty directory), the
    other entries of the directory are found as before, every other node is
    untouched, and the file system stays well formed. *)
Theorem ramfs_create_correct s d l name permissions flags :
  fs_ok s -> dir_has s d l -> name <> [] -> (length name < VFS_NAME_MAX)%nat ->
  ~ (name ∈ map (name_of s) l) -> (3 <= f_mem s)%nat -> flags = VFS_FILE \/ flags = VFS_DIRECTORY ->
  wp (ramfs_create_object d name permissions flags)
    (fun r s' => r = 0 /\ fs_ok s' /\ exists c nn, dir_has s' d (c :: l) /\ dir_find s' (c :: l) name = c /\
       f_nodes s' !! c = Some nn /\ n_flags nn = flags /\ n_size nn = 0 /\ n_permissions nn = permissions /\
       (forall x, x ∈ l -> dir_find s' (c :: l) (name_of s x) = x) /\
       (forall q, q <> d -> q <> c -> f_nodes s' !! q = f_nodes s !! q)) s.
Proof.
  intros Hok Hd Hname Hlen Hnew Hmem Hfl. pose proof Hd as [(pn & Hpn & _) Hl Hnd].
  pose proof (fo_fresh _ Hok d pn Hpn) as Hpos.
  assert (Hfree : f_nodes s !! f_brk s = None).
  { destruct (f_nodes s !! f_brk s) as [m|] eqn:E; [|done]. pose proof (fo_fresh _ Hok _ m E). lia. }
  eapply wp_mono; [apply (wp_create s d l name permissions flags pn); try done; apply Hok|].
  cbn beta. intros r s' [-> Hcr]. set (c := f_brk s) in *. set (nn := fresh_node _ _ _ _ _) in *.
  assert (Hnm : n_name nn = name).
  { unfold nn, fresh_node, name_field. cbn. apply take_ge. unfold VFS_NAME_MAX in *. lia. }
  assert (Hnew' : ~ (n_name nn ∈ map (name_of s) l)) by by rewrite Hnm.
  assert (Hnn : (has (n_flags nn) VFS_DIRECTORY = true /\ n_data nn = PNull) \/ file_ok nn).
  { destruct Hfl as [-> | ->]; [right; done | by left]. }
  pose proof (created_ok s s' d c pn nn l Hok Hd Hpn eq_refl Hcr Hnew' Hnn) as Hok'.
  pose proof (created_dir s s' d c pn nn l Hok Hd Hpn eq_refl Hcr Hnew') as Hd'.
  pose proof (created_c s s' d c pn nn Hok Hpn eq_refl Hcr) as Hc'.
  split_and!; [done..|]. exists c, nn. split_and!; try done.
  - apply dir_find_in; [apply Hd' | by left |]. unfold name_of. by rewrite Hc'.
  - intros x Hx. apply dir_find_in; [apply Hd' | by right |].
    apply (created_name s s' d c pn nn Hok Hpn eq_refl Hcr), Hl, Hx.
  - intros q H1 H2. by apply (created_lookup s s' d c pn nn).
Qed.

(** A name that exists is refused: creation returns -2 and changes
    nothing. *)
Theorem ramfs_create_exists s d l name permissions flags :
  dir_has s d l -> d <> 0 -> name ∈ map (name_of s) l -> name <> [] ->
  wp (ramfs_create_object d name permissions flags) (fun r s' => r = -2 /\ s' = s) s.
Proof.
  intros Hd H0 Hin Hname. unfold ramfs_create_object.
  rewrite (proj2 (Z.eqb_neq d 0)) by done. rewrite bool_decide_eq_false_2 by done. cbn [orb].
  wp_steps. apply (wp_finddir s d l); [done..|].
  destruct (Z.eqb_spec (dir_find s l name) 0) as [E|]; [|by wp_steps].
  exfalso. apply dir_find_0 in E; [done|]. intros c Hc. by apply (dh_live _ _ _ Hd c Hc).
Qed.

(** ** Removal *)

(** The outcome of [unlink_entry] on the entries [l]. *)
Definition unlink_spec (s : vfs) (l : list Z) (name : list Z) (flag : Z)
    (r : Z + (Z * vfs_node * pdata)) : Prop :=
  match r with
  | inl e =>
      (e = -4 /\ ~ (name ∈ map (name_of s) l)) \/
      exists c n, c ∈ l /\ f_nodes s !! c = Some n /\ n_name n = name /\
        ((e = -2 /\ n_flags n <> flag) \/ (e = -3 /\ n_flags n = flag /\ flag = VFS_DIRECTORY /\ n_data n <> PNull))
  | inr (c, n, rest) =>
      exists l1 l2, l = l1 ++ c :: l2 /\ chain rest = Some (l1 ++ l2) /\ f_nodes s !! c = Some n /\
        n_name n = name /\ n_flags n = flag /\ (flag = VFS_DIRECTORY -> n_data n = PNull)
  end.

Lemma wp_unlink_entry s l name flag d :
  chain d = Some l -> (forall c, c ∈ l -> is_Some (f_nodes s !! c) /\ 0 < c) ->
  wp (unlink_entry name flag d) (fun r s' => s' = s /\ unlink_spec s l name flag r) s.
Proof.
  revert l. induction d as [| |c d IH]; intros l Hc Hl; cbn [chain unlink_entry] in *; [|done|].
  - injection Hc as <-. wp_steps. split; [done|]. left. split; [done | by intros ?%elem_of_nil].
  - destruct (chain d) as [l'|] eqn:Echain; [|done]. injection Hc as <-.
    destruct (Hl c ltac:(by left)) as [[n Hn] Hpos]. wp_steps. unfold node. wp_steps.
    eapply wp_opt; [exact Hn|]. destruct (decide (n_name n = name)) as [Hname|Hname].
    + destruct (Z.eqb_spec (n_flags n) flag) as [Hf|Hf]; cbn [negb].
      2:{ wp_steps. split; [done|]. right. exists c, n. split_and!; try done; [by left | by left]. }
      destruct (flag =? VFS_DIRECTORY) eqn:Ed; cbn [andb]; zbool.
      * destruct (n_data n) eqn:En; cbn [negb]; wp_steps; (split; [done|]).
        -- exists [], l'. split_and!; try done; congruence.
        -- right. exists c, n. split_and!; try done; [by left|]. right. split_and!; try done; congruence.
        -- right. exists c, n. split_and!; try done; [by left|]. right. split_and!; try done; congruence.
      * wp_steps. split; [done|]. exists [], l'. split_and!; try done; congruence.
    + wp_steps. eapply wp_mono; [by apply (IH l'); [|intros x Hx; apply Hl; by right]|].
      assert (Hnm : name_of s c = n_name n) by (unfold name_of; by rewrite Hn).
      cbn beta. intros [e|[[x xn] rest]] s' [-> Hr]; wp_steps; (split; [done|]); cbn in Hr |- *.
      * destruct Hr as [[-> Hno]|(y & yn & Hy & H)]; [left | right].
        -- split; [done|]. rewrite Hnm, not_elem_of_cons. split; [congruence | done].
        -- exists y, yn. split; [by right | done].
      * destruct Hr as (l1 & l2 & -> & Hch & H). exists (c :: l1), l2. cbn [chain]; rewrite Hch. split; [done|]. by split.
Qed.

(** Everything removal changed: node [c] is gone and [d] has a shorter chain. *)
Definition removed (s s' : vfs) (d c : Z) (pn : vfs_node) (rest : pdata) : Prop :=
  f_nodes s' = delete c (<[d := set_n_data rest pn]> (f_nodes s)) /\ f_brk s' = f_brk s /\
  vfs_table_lock s' = false /\ g_mount_list s' = g_mount_list s /\ g_vfs_root s' = g_vfs_root s.

Section removed.
Context (s s' : vfs) (d c : Z) (pn : vfs_node) (rest : pdata) (l1 l2 : list Z).
Hypothesis Hok : fs_ok s.
Hypothesis Hd : dir_has s d (l1 ++ c :: l2).
Hypothesis Hpn : f_nodes s !! d = Some pn.
Hypothesis Hne : c <> d.
Hypothesis Hrest : chain rest = Some (l1 ++ l2).
Hypothesis Hrm : removed s s' d c pn rest.

Lemma removed_lookup p : p <> d -> p <> c -> f_nodes s' !! p = f_nodes s !! p.
Proof. intros H1 H2. destruct Hrm as [-> _]. by rewrite lookup_delete_ne, lookup_insert_ne by done. Qed.

Lemma removed_c : f_nodes s' !! c = None.
Proof. destruct Hrm as [-> _]. apply lookup_delete_eq. Qed.

Lemma removed_d : f_nodes s' !! d = Some (set_n_data rest pn).
Proof. destruct Hrm as [-> _]. by rewrite lookup_delete_ne, lookup_insert_eq by done. Qed.

Lemma removed_name p : p <> c -> is_Some (f_nodes s !! p) ->
  is_Some (f_nodes s' !! p) /\ name_of s' p = name_of s p.
Proof.
  intros Hp Hsome. destruct (decide (p = d)) as [->|Hpd].
  - rewrite removed_d. split; [eauto|]. unfold name_of. by rewrite removed_d, Hpn.
  - unfold name_of. by rewrite removed_lookup.
Qed.

Lemma removed_notin : c ∉ l1 ++ l2.
Proof.
  pose proof (dh_names _ _ _ Hd) as Hnd. rewrite map_app in Hnd. cbn in Hnd.
  rewrite <- Permutation_middle in Hnd. apply NoDup_cons in Hnd as [Hx _].
  intros Hin. apply Hx. rewrite <- map_app. apply list_elem_of_fmap. by exists c.
Qed.

Lemma removed_dir : dir_has s' d (l1 ++ l2).
Proof.
  pose proof Hd as [(m & Hm & Hdir & _) Hl Hnd]. assert (m = pn) as -> by congruence.
  assert (Hin : forall x, x ∈ l1 ++ l2 -> x ∈ l1 ++ c :: l2 /\ x <> c).
  { intros x Hx. split; [|intros ->; by apply removed_notin].
    apply elem_of_app in Hx as [Hx|Hx]; apply elem_of_app; [by left | right; by right]. }
  eapply (dir_has_set s s' d); [exact Hpn | apply removed_d | done | done | |].
  - intros x Hx. destruct (Hin x Hx) as [H1 H2]. destruct (Hl x H1) as [H3 H4].
    split; [by apply removed_name | done].
  - rewrite (map_ext_in (name_of s') (name_of s)).
    + rewrite map_app in Hnd |- *. cbn in Hnd. rewrite <- Permutation_middle in Hnd. by apply NoDup_cons in Hnd as [_ ?].
    + intros x Hx. apply list_elem_of_In in Hx. destruct (Hin x Hx) as [H1 H2]. by apply removed_name, Hl.
Qed.

Lemma removed_ok : fs_ok s'.
Proof.
  pose proof Hrm as (_ & B & L & _).
  assert (Hdirs : forall p k, p <> d -> p <> c -> dir_has s p k <-> dir_has s' p k).
  { intros p k Hpd Hpc. assert (Hlk := removed_lookup p Hpd Hpc). split; intros Hp.
    - eapply dir_has_ext; [exact Hp | done|]. intros x Hx. apply removed_name; [|by apply Hp].
      intros ->. apply Hpd. eapply (fo_one _ Hok p d k _ c); [done..|].
      apply elem_of_app. right. by left.
    - destruct Hp as [(m & Hm & Hdir & Hch) _ _]. rewrite Hlk in Hm.
      destruct (fo_node _ Hok p m Hm) as [[_ [k' Hk']]|[Hf _]]; [|congruence].
      assert (k' = k) as ->; [|done]. destruct Hk' as [(m' & Hm' & _ & Hch') _ _]. congruence. }
  split; [done | | | | rewrite B; apply Hok].
  - intros p m Hp. rewrite B. destruct (decide (p = d)) as [->|]; [by apply (fo_fresh _ Hok d pn)|].
    destruct (decide (p = c)) as [->|]; [by rewrite removed_c in Hp|].
    rewrite removed_lookup in Hp by done. by apply (fo_fresh _ Hok p m).
  - intros p m Hp. destruct (decide (p = c)) as [->|Hpc]; [by rewrite removed_c in Hp|].
    destruct (decide (p = d)) as [->|Hpd].
    { left. pose proof removed_dir as Hx. split; [|eauto]. destruct Hx as [(y & Hy & Hdir & _) _ _]. congruence. }
    rewrite removed_lookup in Hp by done.
    destruct (fo_node _ Hok p m Hp) as [[Hdir [k Hk]]|Hf]; [left | by right]. split; [done|].
    exists k. by apply Hdirs.
  - assert (Hcase : forall p k, dir_has s' p k -> p <> c /\ exists k', dir_has s p k' /\ forall x, x ∈ k -> x ∈ k').
    { intros p k Hp. split; [intros ->; destruct Hp as [(y & Hy & _) _ _]; by rewrite removed_c in Hy|].
      destruct (decide (p = d)) as [->|Hpd].
      - exists (l1 ++ c :: l2). split; [done|]. pose proof (dir_has_fun _ _ _ _ Hp removed_dir) as ->.
        intros x [Hx|Hx]%elem_of_app; apply elem_of_app; [by left | right; by right].
      - exists k. split; [|done]. apply Hdirs; try done. intros ->. destruct Hp as [(y & Hy & _) _ _].
        by rewrite removed_c in Hy. }
    intros p q k k' x Hp Hq Hx Hx'. destruct (Hcase p k Hp) as (_ & m & Hm & Hsub).
    destruct (Hcase q k' Hq) as (_ & m' & Hm' & Hsub'). eapply (fo_one _ Hok p q m m' x); auto.
Qed.

End removed.

(** Removal.  [ramfs_unlink] of a file and [ramfs_rmdir] of an empty
    directory return 0, the entry is gone, its node is released, the other
    entries are found as before and the file system stays well formed; a
    missing name, a node of the other type and a directory with entries are
    refused with -4, -2 and -3, changing nothing. *)
Theorem ramfs_remove_correct s d l name flag :
  fs_ok s -> dir_has s d l -> flag = VFS_FILE \/ flag = VFS_DIRECTORY ->
  wp (ramfs_remove_object d name flag)
    (fun r s' => fs_ok s' /\
       match f_nodes s !! dir_find s l name with
       | None => r = -4 /\ f_nodes s' = f_nodes s
       | Some n =>
           if negb (n_flags n =? flag) then r = -2 /\ f_nodes s' = f_nodes s
           else if (flag =? VFS_DIRECTORY) && negb (match n_data n with PNull => true | _ => false end)
                then r = -3 /\ f_nodes s' = f_nodes s
           else r = 0 /\ exists l1 l2, l = l1 ++ dir_find s l name :: l2 /\ dir_has s' d (l1 ++ l2) /\
                  f_nodes s' !! dir_find s l name = None /\
                  forall q, q <> d -> q <> dir_find s l name -> f_nodes s' !! q = f_nodes s !! q
       end) s.
Proof.
  intros Hok Hd Hfl. pose proof Hd as [(pn & Hpn & Hdir & Hch) Hl Hnd].
  pose proof (fo_fresh _ Hok d pn Hpn) as Hpos. unfold ramfs_remove_object.
  rewrite (proj2 (Z.eqb_neq d 0)) by lia. unfold vfs_lock_tables. wp_steps.
  rewrite (fo_lock _ Hok). wp_steps. unfold node. wp_steps. eapply wp_opt; [exact Hpn|]. wp_steps.
  set (s0 := set_table_lock true s).
  assert (Hunl : forall s1, s1 = set_table_lock false s0 -> fs_ok s1 /\ f_nodes s1 = f_nodes s).
  { intros s1 ->. split; [|done]. destruct Hok as [H1 H2 H3 H4 H5]. split; try done.
    - intros p m Hp. destruct (H3 p m Hp) as [[? [k Hk]]|?]; [left | by right]. split; [done|]. exists k. by destruct Hk.
    - intros p q k k' x Hp Hq. apply (H4 p q k k' x); [by destruct Hp | by destruct Hq]. }
  eapply wp_mono; [by apply (wp_unlink_entry s0 l name flag)|]. cbn beta.
  intros [e|[[c n] rest]] s' [-> Hr]; cbn in Hr; wp_steps.
  - unfold vfs_unlock_tables. wp_steps. destruct (Hunl _ eq_refl) as [Ho Hn]. split; [done|]. rewrite Hn.
    destruct Hr as [[-> Hno]|(c & n & Hc & Hnc & Hname & Hr)].
    + rewrite (proj2 (dir_find_0 s l name (fun x Hx => proj2 (Hl x Hx)))) by done.
      destruct (f_nodes s !! 0) as [m|] eqn:E0; [|done]. pose proof (fo_fresh _ Hok 0 m E0). lia.
    + assert (Hfind : dir_find s l name = c).
      { apply dir_find_in; [done..|]. unfold name_of. by rewrite Hnc. }
      rewrite Hfind, Hnc. destruct Hr as [[-> Hf]|(-> & Hf & -> & Hdat)].
      * by rewrite (proj2 (Z.eqb_neq _ _) Hf).
      * rewrite (proj2 (Z.eqb_eq _ _) Hf). by destruct (n_data n).
  - destruct Hr as (l1 & l2 & -> & Hrest & Hn & Hname & Hf & Hnull). cbn in Hn.
    assert (Hin : c ∈ l1 ++ c :: l2) by (apply elem_of_app; right; by left).
    assert (Hfind : dir_find s (l1 ++ c :: l2) name = c).
    { apply dir_find_in; [done..|]. unfold name_of. by rewrite Hn. }
    assert (Hempty : has (n_flags n) VFS_DIRECTORY = true -> n_data n = PNull).
    { rewrite Hf. destruct Hfl as [-> | ->]; [done | by intros _; apply Hnull]. }
    assert (Hne : c <> d).
    { intros ->. assert (n = pn) as -> by congruence. rewrite (Hempty Hdir) in Hch.
      injection Hch as Hch. by destruct l1. }
    rewrite Hfind, Hn, (proj2 (Z.eqb_eq _ _) Hf). cbn [negb].
    assert (Hflag : ((flag =? VFS_DIRECTORY) && negb (match n_data n with PNull => true | _ => false end)) = false).
    { destruct Hfl as [-> | ->]; [done|]. by rewrite Hnull. }
    rewrite Hflag. unfold on_node, node. wp_steps. eapply wp_opt; [exact Hpn|]. unfold put_node, vfs_unlock_tables. wp_steps.
    assert (Hgo : forall s1, removed s s1 d c pn rest ->
      fs_ok s1 /\ 0 = 0 /\ exists k1 k2, l1 ++ c :: l2 = k1 ++ c :: k2 /\ dir_has s1 d (k1 ++ k2) /\
        f_nodes s1 !! c = None /\ forall q, q <> d -> q <> c -> f_nodes s1 !! q = f_nodes s !! q).
    { intros s1 Hrm. split; [by eapply (removed_ok s s1 d c pn)|]. split; [done|].
      exists l1, l2. split_and!; [done | by eapply removed_dir | by eapply removed_c|].
      intros q. by eapply removed_lookup. }
    assert (Hfree : forall s1, f_nodes s1 = <[d := set_n_data rest pn]> (f_nodes s) -> f_brk s1 = f_brk s ->
      vfs_table_lock s1 = false -> g_mount_list s1 = g_mount_list s -> g_vfs_root s1 = g_vfs_root s ->
      removed s (set_alloc (f_brk s) (S (S (f_mem s1))) (set_f_nodes (delete c (f_nodes s1)) s1)) d c pn rest).
    { intros s1 E1 E2 E3 E4 E5. unfold removed. cbn. by rewrite E1. }
    destruct Hfl as [-> | ->]; cbn [VFS_FILE VFS_DIRECTORY Z.eqb Pos.eqb]; unfold fs_kfree.
    + destruct (fo_node _ Hok c n Hn) as [[H1 _]|[_ H1]]; [by rewrite Hf in H1|].
      destruct (n_data n) as [|[b|] cap|]; try done; wp_steps; by apply Hgo, Hfree.
    + wp_steps. by apply Hgo, Hfree.
Qed.

(** ** Concrete file systems *)

(** A root directory at 16 with the file "f" at 32 and the directory "d" at 48. *)
Definition example_file : vfs_node := VNode [102] VFS_FILE 0 32 16 420 0 RamfsOps 0 (PFileData None 0) 0.
Definition example_sub : vfs_node := VNode [100] VFS_DIRECTORY 0 48 16 493 0 RamfsOps 0 PNull 0.
Definition example_dir : vfs_node :=
  VNode [47] VFS_DIRECTORY 0 16 0 493 0 RamfsOps 0 (PEntry 48 (PEntry 32 PNull)) 0.
Definition example_fs : vfs :=
  Vfs (<[16 := example_dir]> (<[32 := example_file]> (<[48 := example_sub]> ∅))) 64 8 [] false 16.

Lemma example_lookup p n : f_nodes example_fs !! p = Some n ->
  (p = 16 /\ n = example_dir) \/ (p = 32 /\ n = example_file) \/ (p = 48 /\ n = example_sub).
Proof.
  cbn. intros [[-> <-]|[_ [[-> <-]|[_ [[-> <-]|[_ H]]%lookup_insert_Some]]%lookup_insert_Some]]%lookup_insert_Some;
    [by left | by right; left | by right; right | by rewrite lookup_empty in H].
Qed.

Lemma example_root_has : dir_has example_fs 16 [48; 32].
Proof.
  split; [by exists example_dir | | by repeat constructor; vm_compute; intros H; inversion H; subst; inversion H2].
  intros c [-> | [-> | H%elem_of_nil]%elem_of_cons]%elem_of_cons; [| |done]; split; done || by eexists.
Qed.

Lemma example_sub_has : dir_has example_fs 48 [].
Proof. split; [by exists example_sub | by intros c ?%elem_of_nil | constructor]. Qed.

Lemma example_fs_ok : fs_ok example_fs.
Proof.
  split; [done | | | | done].
  - intros p n [[-> ->]|[[-> ->]|[-> ->]]]%example_lookup; done.
  - intros p n [[-> ->]|[[-> ->]|[-> ->]]]%example_lookup.
    + left. split; [done|]. eexists. apply example_root_has.
    + by right.
    + left. split; [done|]. eexists. apply example_sub_has.
  - assert (H : forall d l c, dir_has example_fs d l -> c ∈ l -> d = 16).
    { intros d l c Hd Hc. pose proof Hd as [(n & Hn & Hdir & _) _ _].
      apply example_lookup in Hn as [[-> ->]|[[-> ->]|[-> ->]]]; [done..|].
      pose proof (dir_has_fun _ _ _ _ Hd example_sub_has) as ->. by apply elem_of_nil in Hc. }
    intros d d' l l' c Hd Hd' Hc Hc'. by rewrite (H d l c), (H d' l' c).
Qed.

Lemma ramfs_write_witness :
  wp (ramfs_write 32 3 [7; 8])
    (fun r s' => r = 2 /\ exists n', f_nodes s' = <[32 := n']> (f_nodes example_fs) /\ file_ok n' /\
       n_size n' = 5 /\ forall i, file_byte n' i = written example_file 3 [7; 8] i) example_fs.
Proof. apply (ramfs_write_correct example_fs 32 example_file 3 [7; 8]); done. Defined.

Lemma ramfs_write_read_witness :
  wp (ramfs_write 32 3 [7; 8] ;;; ramfs_read 32 3 2) (fun r _ => r = (2, [7; 8])) example_fs.
Proof. apply (ramfs_write_read example_fs 32 example_file 3 [7; 8]); done. Defined.

Lemma ramfs_create_witness :
  wp (ramfs_create_object 16 [120] 420 VFS_FILE)
    (fun r s' => r = 0 /\ fs_ok s' /\ exists c nn, dir_has s' 16 (c :: [48; 32]) /\
       dir_find s' (c :: [48; 32]) [120] = c /\
       f_nodes s' !! c = Some nn /\ n_flags nn = VFS_FILE /\ n_size nn = 0 /\ n_permissions nn = 420 /\
       (forall x, x ∈ [48; 32] -> dir_find s' (c :: [48; 32]) (name_of example_fs x) = x) /\
       (forall q, q <> 16 -> q <> c -> f_nodes s' !! q = f_nodes example_fs !! q)) example_fs.
Proof.
  apply (ramfs_create_correct example_fs 16 [48; 32] [120] 420 VFS_FILE);
    [apply example_fs_ok | apply example_root_has | done | cbn; unfold VFS_NAME_MAX; lia | | cbn; lia | by left].
  vm_compute. intros H. inversion H; subst. inversion H2; subst. inversion H3.
Defined.

Lemma ramfs_create_exists_witness :
  wp (ramfs_create_object 16 [102] 420 VFS_FILE) (fun r s' => r = -2 /\ s' = example_fs) example_fs.
Proof.
  apply (ramfs_create_exists example_fs 16 [48; 32] [102] 420 VFS_FILE);
    [apply example_root_has | done | vm_compute; right; left | done].
Defined.

Lemma ramfs_remove_witness :
  wp (ramfs_remove_object 16 [100] VFS_DIRECTORY)
    (fun r s' => fs_ok s' /\ r = 0 /\ exists l1 l2, [48; 32] = l1 ++ 48 :: l2 /\ dir_has s' 16 (l1 ++ l2) /\
       f_nodes s' !! 48 = None /\ forall q, q <> 16 -> q <> 48 -> f_nodes s' !! q = f_nodes example_fs !! q) example_fs.
Proof.
  apply (ramfs_remove_correct example_fs 16 [48; 32] [100] VFS_DIRECTORY);
    [apply example_fs_ok | apply example_root_has | by right].
Defined.

(** Creating under a regular file is not refused: the entry is linked in front
    of the file's data block, and the next read takes the entry for data. *)
Lemma create_under_file :
  (ramfs_create_object 32 [120] 420 VFS_FILE ;;; ramfs_read 32 0 1) example_fs = Stop OutOfBounds.
Proof. vm_compute. done. Qed.

(** A directory can be renamed into itself; it is then reachable only from itself. *)
Lemma rename_into_itself :
  wp (ramfs_rename 16 [100] 48 [101])
    (fun r s' => r = 0 /\ chain (n_data (default example_dir (f_nodes s' !! 16))) = Some [32] /\
       chain (n_data (default example_dir (f_nodes s' !! 48))) = Some [48]) example_fs.
Proof. vm_compute. done. Qed.

(** The new capacity of a write is kept in 32 bits: near 4 GB it wraps, and the
    copy runs past the buffer. *)
Lemma write_capacity_wraps :
  ramfs_write 32 (2 ^ 32 - 512) [7] example_fs = Stop OutOfBounds.
Proof. vm_compute. done. Qed.
