(* ===== verification/Vfs.v ===== *)
(** * The virtual file system: paths, dispatch and mounts

    [kernel/fs/vfs/vfs.c]: [vfs_path_to_node], [vfs_get_parent_and_child],
    [vfs_open], the dispatching operations, [vfs_register_filesystem],
    [vfs_mount] and [vfs_umount], over the nodes of the RAM file system.  The
    operation tables of other drivers are parameters. *)

From Stdlib Require Import ZArith Lia.
From stdpp Require Import base tactics list gmap.
From S2P Require Import Prelude Ramfs.

Definition SLASH : Z := 47.
Definition DOT : Z := 46.
Definition O_CREAT : Z := 64.
Definition FS_MAX_REG_DRIVERS : nat := 16.

(** [vfs_operations_t], the part the core calls; an absent operation is a null
    pointer. *)
Record vops : Type := Vops {
  o_open : option (Z -> Z -> M vfs Z);
  o_flush : option (Z -> M vfs Z);
  o_finddir : option (Z -> list Z -> M vfs Z);
  o_readdir : option (Z -> Z -> M vfs (Z * option vfs_node));
  o_mkdir : option (Z -> list Z -> Z -> M vfs Z);
  o_create : option (Z -> list Z -> Z -> M vfs Z);
  o_unlink : option (Z -> list Z -> M vfs Z);
  o_rmdir : option (Z -> list Z -> M vfs Z);
  o_stat : option (Z -> M vfs (Z * option vfs_stat_t));
  o_chmod : option (Z -> Z -> M vfs Z);
  o_rename : option (Z -> list Z -> Z -> list Z -> M vfs Z)
}.

Definition ramfs_open (p flags : Z) : M vfs Z := kret (if p =? 0 then -1 else 0).
Definition ramfs_flush (p : Z) : M vfs Z := kret (if p =? 0 then -1 else 0).

Definition g_ramfs_ops : vops :=
  Vops (Some ramfs_open) (Some ramfs_flush) (Some ramfs_finddir) (Some ramfs_readdir) (Some ramfs_mkdir)
    (Some ramfs_create) (Some ramfs_unlink) (Some ramfs_rmdir) (Some ramfs_stat) (Some ramfs_chmod)
    (Some ramfs_rename).

(** [vfs_filesystem_t]: a name, the mount callback and the unmount callback. *)
Record vfs_filesystem : Type := Filesystem {
  fs_name : list Z;
  fs_mount : option (option Z -> list Z -> M vfs Z);
  fs_unmount : option (Z -> M vfs Z)
}.

Section vfs_core.
Context (other : Z -> vops).

(** [node->ops]. *)
Definition ops_of (o : fs_ops) : option vops :=
  match o with
  | RamfsOps => Some g_ramfs_ops
  | DriverOps id => Some (other id)
  | NoOps => None
  end.

(** [node->ops && node->ops->op]. *)
Definition op_of {A} (sel : vops -> option A) (n : vfs_node) : option A :=
  match ops_of (n_ops n) with Some o => sel o | None => None end.

(** ** Path resolution *)

(** The text up to the next slash, and what follows it. *)
Fixpoint next_token (l : list Z) : list Z * option (list Z) :=
  match l with
  | [] => ([], None)
  | c :: l' => if c =? SLASH then ([], Some l') else
               let '(tok, rest) := next_token l' in (c :: tok, rest)
  end.

(** The loop over the tokens: [None] is the early [return NULL]. *)
Fixpoint walk (fuel : nat) (current : Z) (token : list Z) : M vfs (option Z) :=
  match token with
  | [] => kret (Some current)
  | _ :: _ =>
      match fuel with
      | O => kstop NoFuel
      | S fuel' =>
          let '(tok, next_slash) := next_token token in
          if decide (tok = [DOT]) then
            match next_slash with
            | Some rest => walk fuel' current rest
            | None => kret (Some current)
            end
          else
            current <-- vfs_resolve_mountpoint current ;;
            n <-- node current ;;
            match op_of o_finddir n with
            | None => kret None
            | Some finddir =>
                next_node <-- finddir current tok ;;
                if next_node =? 0 then kret None else
                match next_slash with
                | Some rest => walk fuel' next_node rest
                | None => kret (Some next_node)
                end
            end
      end
  end.

Definition vfs_path_to_node (path : list Z) : M vfs Z :=
  match path with
  | [] => kret 0
  | c :: tl =>
      root <-- kgets g_vfs_root ;;
      current <-- vfs_resolve_mountpoint root ;;
      if decide (path = [SLASH]) then kret current else
      if 512 <=? zlen path then kret 0 else
      let token := if c =? SLASH then tl else path in
      r <-- walk (length token) current token ;;
      match r with
      | None => kret 0
      | Some p => vfs_resolve_mountpoint p
      end
  end.

(** ** The parent and the last name *)

(** The scan from the end for a slash: what stands before and after it. *)
Fixpoint split_last (path : list Z) : option (list Z * list Z) :=
  match path with
  | [] => None
  | c :: l =>
      match split_last l with
      | Some (dir, name) => Some (c :: dir, name)
      | None => if c =? SLASH then Some ([], l) else None
      end
  end.

(** [strcpy] into a buffer of [size] bytes. *)
Definition strcpy_out (size : Z) (s : list Z) : M vfs (list Z) :=
  if zlen s <? size then kret s else kstop OutOfBounds.

(** [child_size] is the size of the caller's buffer for the child's name; the
    result is the parent's node and the name. *)
Definition vfs_get_parent_and_child (path : list Z) (child_size : Z) : M vfs (Z * list Z) :=
  match path with
  | [] => kret (0, [])
  | _ =>
      if (1 <? zlen path) && bool_decide (last path = Some SLASH) then
        p <-- vfs_path_to_node (take 255 path) ;; kret (p, [])
      else
      match split_last path with
      | None =>
          name <-- strcpy_out child_size path ;;
          p <-- vfs_path_to_node [SLASH] ;; kret (p, name)
      | Some (dir, name) =>
          if 256 <=? zlen dir then kstop OutOfBounds else
          name <-- strcpy_out child_size name ;;
          p <-- vfs_path_to_node (match dir with [] => [SLASH] | _ => dir end) ;;
          kret (p, name)
      end
  end.

Definition vfs_open (path : list Z) (flags : Z) : M vfs Z :=
  match path with
  | [] => kret 0
  | _ =>
      r <-- vfs_get_parent_and_child path 64 ;;
      let '(parent_node, file_name) := r in
      found <-- vfs_path_to_node path ;;
      target <-- (if (found =? 0) && negb (parent_node =? 0) && has flags O_CREAT then
                    pn <-- node parent_node ;;
                    match op_of o_create pn with
                    | None => kret found
                    | Some create =>
                        res <-- create parent_node file_name 420 ;;
                        if res =? 0 then
                          f <-- kopt NullDeref (op_of o_finddir pn) ;; f parent_node file_name
                        else kret found
                    end
                  else kret found) ;;
      if target =? 0 then kret 0 else
      (if parent_node =? 0 then on_node target (set_n_parent 0)
       else pn <-- node parent_node ;; on_node target (set_n_parent (n_inode pn))) ;;;
      tn <-- node target ;;
      match op_of o_open tn with
      | None => kret target
      | Some open =>
          res <-- open target flags ;;
          kret (if res =? 0 then target else 0)
      end
  end.

(** ** Dispatch *)

(** Every operation resolves the mount point, looks the driver's operation up
    and calls it; [-2] is the answer when there is none. *)
Definition dispatch {A B} (p : Z) (sel : vops -> option A) (absent : B) (call : A -> Z -> M vfs B) : M vfs B :=
  p <-- vfs_resolve_mountpoint p ;;
  n <-- node p ;;
  match op_of sel n with
  | Some f => call f p
  | None => kret absent
  end.

Definition vfs_finddir (parent : Z) (name : list Z) : M vfs Z :=
  if (parent =? 0) || bool_decide (name = []) then kret 0 else
  dispatch parent o_finddir 0 (fun f p => f p name).
Definition vfs_readdir (target index : Z) : M vfs (Z * option vfs_node) :=
  if target =? 0 then kret (-1, None) else
  dispatch target o_readdir (-2, None) (fun f p => f p index).
Definition vfs_mkdir (parent : Z) (name : list Z) (permissions : Z) : M vfs Z :=
  if (parent =? 0) || bool_decide (name = []) then kret (-1) else
  dispatch parent o_mkdir (-2) (fun f p => f p name permissions).
Definition vfs_create (parent : Z) (name : list Z) (permissions : Z) : M vfs Z :=
  if (parent =? 0) || bool_decide (name = []) then kret (-1) else
  dispatch parent o_create (-2) (fun f p => f p name permissions).
Definition vfs_stat (p : Z) : M vfs (Z * option vfs_stat_t) :=
  if p =? 0 then kret (-1, None) else dispatch p o_stat (-2, None) (fun f p => f p).
Definition vfs_chmod (p mode : Z) : M vfs Z :=
  if p =? 0 then kret (-1) else dispatch p o_chmod (-2) (fun f p => f p mode).
Definition vfs_unlink (parent : Z) (name : list Z) : M vfs Z :=
  if parent =? 0 then kret (-1) else dispatch parent o_unlink (-2) (fun f p => f p name).
Definition vfs_rmdir (parent : Z) (name : list Z) : M vfs Z :=
  if parent =? 0 then kret (-1) else dispatch parent o_rmdir (-2) (fun f p => f p name).
Definition vfs_rename (old_dir : Z) (old_name : list Z) (new_dir : Z) (new_name : list Z) : M vfs Z :=
  if (old_dir =? 0) || (new_dir =? 0) then kret (-1) else
  od <-- vfs_resolve_mountpoint old_dir ;;
  nd <-- vfs_resolve_mountpoint new_dir ;;
  n <-- node od ;;
  match op_of o_rename n with
  | Some f => f od old_name nd new_name
  | None => kret (-2)
  end.

(** ** Mounting *)

Record mounts : Type := Mounts {
  mt_fs : vfs;
  g_registered_filesystems : list (option vfs_filesystem)
}.
Definition set_mt_fs (x : vfs) (m : mounts) : mounts := Mounts x (g_registered_filesystems m).
Definition set_registered (x : list (option vfs_filesystem)) (m : mounts) : mounts := Mounts (mt_fs m) x.
Definition on_fs {A} (c : M vfs A) : M mounts A := zoom mt_fs set_mt_fs c.

(** The first free slot of the table takes the driver. *)
Fixpoint register_in (fs : vfs_filesystem) (l : list (option vfs_filesystem)) : option (list (option vfs_filesystem)) :=
  match l with
  | [] => None
  | None :: l' => Some (Some fs :: l')
  | Some x :: l' => cons (Some x) <$> register_in fs l'
  end.

Definition vfs_register_filesystem (fs : vfs_filesystem) : M mounts Z :=
  on_fs vfs_lock_tables ;;;
  m <-- kget ;;
  match register_in fs (g_registered_filesystems m) with
  | Some l => kmodify (set_registered l) ;;; on_fs vfs_unlock_tables ;;; kret 0
  | None => on_fs vfs_unlock_tables ;;; kret (-2)
  end.

(** The driver entry of the RAM file system: no callbacks. *)
Definition g_ramfs_fs_driver : vfs_filesystem := Filesystem [114; 97; 109; 102; 115] None None.
Definition RAMFS_ID : Z := 1.

Definition ramfs_init : M mounts unit :=
  m <-- kget ;;
  (if g_vfs_root (mt_fs m) =? 0 then kret tt else on_fs (on_node (g_vfs_root (mt_fs m)) (set_n_fs RAMFS_ID))) ;;;
  _ <-- vfs_register_filesystem g_ramfs_fs_driver ;;
  kret tt.

Definition vfs_init : M mounts unit :=
  on_fs vfs_unlock_tables ;;;
  on_fs (kmodify (set_mount_list [])) ;;;
  kmodify (set_registered (replicate FS_MAX_REG_DRIVERS None)) ;;;
  root <-- on_fs fs_kmalloc ;;
  on_fs (kmodify (set_vfs_root root)) ;;;
  if root =? 0 then kret tt else
  on_fs (put_node root (VNode [SLASH] VFS_DIRECTORY 0 1 0 0 4096 RamfsOps 0 PNull 0)) ;;;
  ramfs_init.

Fixpoint find_driver (name : list Z) (l : list (option vfs_filesystem)) : option vfs_filesystem :=
  match l with
  | [] => None
  | Some fs :: l' => if decide (fs_name fs = name) then Some fs else find_driver name l'
  | None :: l' => find_driver name l'
  end.

(** [kfree] of a node. *)
Definition free_node (p : Z) : M vfs unit :=
  kmodify (fun s => set_f_nodes (delete p (f_nodes s)) s) ;;; fs_kfree.

(** The node found for the path is released unless it is the root, or what the
    root resolves to. *)
Definition release_target (target : Z) : M vfs unit :=
  root <-- kgets g_vfs_root ;;
  if target =? root then kret tt else
  real <-- vfs_resolve_mountpoint root ;;
  if target =? real then kret tt else free_node target.

(** [dev]: the block device, if a device name was given and found. *)
Definition vfs_mount (device_name : option (option Z)) (mount_path fs_type : list Z) : M mounts Z :=
  match device_name with
  | Some None => kret (-2)
  | _ =>
      let dev := match device_name with Some d => d | None => None end in
      on_fs vfs_lock_tables ;;;
      m <-- kget ;;
      on_fs vfs_unlock_tables ;;;
      match find_driver fs_type (g_registered_filesystems m) with
      | None => kret (-3)
      | Some fs =>
          target <-- on_fs (vfs_path_to_node mount_path) ;;
          if target =? 0 then kret (-5) else
          tn <-- on_fs (node target) ;;
          if negb (has (n_flags tn) VFS_DIRECTORY) then on_fs (release_target target) ;;; kret (-8) else
          mount <-- kopt NullDeref (fs_mount fs) ;;
          fs_root_node <-- on_fs (mount dev mount_path) ;;
          if fs_root_node =? 0 then on_fs (release_target target) ;;; kret (-4) else
          new_mount <-- on_fs fs_kmalloc ;;
          if new_mount =? 0 then on_fs (release_target target) ;;; kret (-7) else
          on_fs (vfs_lock_tables ;;;
            on_node target (fun n => set_n_flags (Z.lor (n_flags n) VFS_MOUNTPOINT) (set_n_ptr_mount fs_root_node n)) ;;;
            kmodify (fun s => set_mount_list (Mount target fs_root_node :: g_mount_list s) s) ;;;
            vfs_unlock_tables) ;;;
          kret 0
      end
  end.

(** The bridge of a mount point taken out of the list. *)
Fixpoint take_mount (mp : Z) (l : list vfs_mount_t) : option (list vfs_mount_t) :=
  match l with
  | [] => None
  | m :: l' => if mountpoint m =? mp then Some l' else cons m <$> take_mount mp l'
  end.

Definition free_unless_root (p : Z) : M vfs unit :=
  root <-- kgets g_vfs_root ;; if p =? root then kret tt else free_node p.

(** [unmounts]: the unmount callback of the file system a node belongs to. *)
Definition vfs_umount (unmounts : Z -> option (Z -> M vfs Z)) (mount_path : list Z) : M vfs Z :=
  mp_node <-- vfs_path_to_node mount_path ;;
  if mp_node =? 0 then kret (-4) else
  vfs_lock_tables ;;;
  n <-- node mp_node ;;
  if negb (has (n_flags n) VFS_MOUNTPOINT) || (n_ptr_mount n =? 0) then
    vfs_unlock_tables ;;; free_unless_root mp_node ;;; kret (-2)
  else
  s <-- kget ;;
  match take_mount mp_node (g_mount_list s) with
  | None => vfs_unlock_tables ;;; free_unless_root mp_node ;;; kret (-5)
  | Some l =>
      kmodify (set_mount_list l) ;;;
      let root := n_ptr_mount n in
      on_node mp_node (fun n => set_n_flags (Z.land (n_flags n) (Z.lnot VFS_MOUNTPOINT)) (set_n_ptr_mount 0 n)) ;;;
      vfs_unlock_tables ;;;
      rn <-- node root ;;
      (match op_of o_flush rn with Some f => _ <-- f root ;; kret tt | None => kret tt end) ;;;
      (match unmounts (n_fs rn) with
       | Some f => _ <-- f root ;; kret tt
       | None => free_node root
       end) ;;;
      fs_kfree ;;;
      free_unless_root mp_node ;;;
      kret 0
  end.

End vfs_core.

(** ** Specification of path resolution *)

(** Does the bridge [m] stand for node [n] at [p]? *)
Definition bridges (s : vfs) (p : Z) (n : vfs_node) (m : vfs_mount_t) : bool :=
  (mountpoint m =? p) ||
  match f_nodes s !! mountpoint m with
  | Some mp => (n_inode mp =? n_inode n) && bool_decide (n_ops mp = n_ops n)
  | None => false
  end.

(** The root behind the first bridge of the list that does. *)
Fixpoint bridge_target (s : vfs) (p : Z) (n : vfs_node) (l : list vfs_mount_t) : Z :=
  match l with
  | [] => p
  | m :: l' => if bridges s p n m then fs_root m else bridge_target s p n l'
  end.

(** The node a node stands for. *)
Definition resolve (s : vfs) (p : Z) : Z :=
  match f_nodes s !! p with
  | Some n => if has (n_flags n) VFS_MOUNTPOINT then bridge_target s p n (g_mount_list s) else p
  | None => p
  end.

Definition mounts_ok (s : vfs) : Prop :=
  forall m, m ∈ g_mount_list s -> is_Some (f_nodes s !! mountpoint m) /\ is_Some (f_nodes s !! fs_root m).

Lemma wp_find_mount s p n l :
  (forall m, m ∈ l -> is_Some (f_nodes s !! mountpoint m)) ->
  wp (find_mount p n l) (fun r s' => s' = s /\ r = bridge_target s p n l) s.
Proof.
  induction l as [|m l IH]; intros Hl; cbn [find_mount bridge_target]; [by wp_steps|].
  destruct (Hl m ltac:(by left)) as [mp Hmp]. unfold bridges. rewrite Hmp.
  destruct (mountpoint m =? p); [by wp_steps|]. unfold node. wp_steps. eapply wp_opt; [exact Hmp|]. cbn [orb].
  destruct ((n_inode mp =? n_inode n) && bool_decide (n_ops mp = n_ops n)); [by wp_steps|].
  apply IH. intros x Hx. apply Hl. by right.
Qed.

Lemma bridge_target_in s p n l : bridge_target s p n l = p \/ exists m, m ∈ l /\ bridge_target s p n l = fs_root m.
Proof.
  induction l as [|m l IH]; cbn; [by left|]. destruct (bridges s p n m).
  - right. exists m. split; [by left | done].
  - destruct IH as [->|(x & Hx & E)]; [by left|]. right. exists x. split; [by right | done].
Qed.

Lemma bridge_target_nodes s s' p n l : f_nodes s' = f_nodes s -> bridge_target s' p n l = bridge_target s p n l.
Proof. intros E. induction l as [|m l IH]; cbn; [done|]. unfold bridges. by rewrite E, IH. Qed.

Lemma tables_unlock_lock s : vfs_table_lock s = false -> set_table_lock false (set_table_lock true s) = s.
Proof. destruct s; cbn. by intros ->. Qed.

Lemma wp_resolve s p (Q : Z -> vfs -> Prop) :
  vfs_table_lock s = false -> mounts_ok s -> p <> 0 -> is_Some (f_nodes s !! p) ->
  Q (resolve s p) s -> wp (vfs_resolve_mountpoint p) Q s.
Proof.
  intros Hlk Hm Hp [n Hn] HQ. unfold vfs_resolve_mountpoint, resolve in *. rewrite Hn in HQ.
  rewrite (proj2 (Z.eqb_neq _ _) Hp). unfold node. wp_steps. eapply wp_opt; [exact Hn|].
  destruct (has (n_flags n) VFS_MOUNTPOINT); cbn [negb]; [|by wp_steps].
  unfold vfs_lock_tables, vfs_unlock_tables. wp_steps. rewrite Hlk. wp_steps. cbn [g_mount_list set_table_lock].
  eapply wp_mono; [apply (wp_find_mount (set_table_lock true s))|].
  - intros m Hin. by apply Hm.
  - cbn beta. intros r s' [-> ->]. wp_steps. rewrite tables_unlock_lock by done. by rewrite (bridge_target_nodes s).
Qed.

(** One component below a node, in a tree of RAM nodes. *)
Definition step (s : vfs) (d : Z) (name : list Z) : option Z :=
  match f_nodes s !! resolve s d with
  | Some n =>
      if has (n_flags n) VFS_DIRECTORY then
        match chain (n_data n) with
        | Some l => let c := dir_find s l name in if c =? 0 then None else Some c
        | None => None
        end
      else None
  | None => None
  end.

Fixpoint lookup_path (s : vfs) (d : Z) (comps : list (list Z)) : option Z :=
  match comps with
  | [] => Some d
  | name :: rest => match step s d name with Some c => lookup_path s c rest | None => None end
  end.

(** A component of a path: not empty, not ".", no slash. *)
Definition component (name : list Z) : Prop := name <> [] /\ name <> [DOT] /\ ~ (SLASH ∈ name).

(** The text of a path below the root. *)
Fixpoint join (comps : list (list Z)) : list Z :=
  match comps with
  | [] => []
  | [name] => name
  | name :: rest => name ++ SLASH :: join rest
  end.

Lemma next_token_join name rest :
  ~ (SLASH ∈ name) -> next_token (name ++ SLASH :: rest) = (name, Some rest) /\ next_token name = (name, None).
Proof.
  induction name as [|c name IH]; intros Hs; cbn; [done|]. rewrite not_elem_of_cons in Hs. destruct Hs as [Hc Hs].
  destruct (IH Hs) as [E1 E2]. rewrite (proj2 (Z.eqb_neq c SLASH)) by congruence. by rewrite E1, E2.
Qed.

(** Every node is a node of the RAM file system. *)
Definition ram_only (s : vfs) : Prop := forall p n, f_nodes s !! p = Some n -> n_ops n = RamfsOps.

Record tree_ok (s : vfs) : Prop := {
  to_fs : fs_ok s;
  to_mounts : mounts_ok s;
  to_ram : ram_only s
}.

Lemma resolve_live s p : tree_ok s -> is_Some (f_nodes s !! p) -> is_Some (f_nodes s !! resolve s p) /\ resolve s p <> 0.
Proof.
  intros [Hok Hm _] Hp. assert (H : is_Some (f_nodes s !! resolve s p)).
  { destruct Hp as [n Hn]. unfold resolve. rewrite Hn. destruct (has (n_flags n) VFS_MOUNTPOINT); [|by rewrite Hn].
    destruct (bridge_target_in s p n (g_mount_list s)) as [-> | (m & Hin & ->)]; [by rewrite Hn | by apply Hm]. }
  split; [done|]. destruct H as [n Hn]. pose proof (fo_fresh _ Hok _ n Hn). lia.
Qed.

Section resolution.
Context (other : Z -> vops) (s : vfs).
Hypothesis Hs : tree_ok s.

Lemma wp_step d name (Q : Z -> vfs -> Prop) :
  is_Some (f_nodes s !! resolve s d) ->
  Q (default 0 (step s d name)) s -> wp (ramfs_finddir (resolve s d) name) Q s.
Proof.
  intros [n Hn] HQ. pose proof (fo_fresh _ (to_fs _ Hs) _ n Hn) as Hpos. unfold step in HQ. rewrite Hn in HQ.
  destruct (fo_node _ (to_fs _ Hs) _ n Hn) as [[Hdir [l Hl]]|[Hdir _]]; rewrite Hdir in HQ.
  - apply (wp_finddir s (resolve s d) l); [done | lia|]. destruct Hl as [(n' & Hn' & _ & Hch) _ _].
    assert (n' = n) as -> by congruence. rewrite Hch in HQ. cbn zeta in HQ. destruct (Z.eqb_spec (dir_find s l name) 0) as [E|]; [|done].
    by rewrite E.
  - unfold ramfs_finddir. rewrite (proj2 (Z.eqb_neq (resolve s d) 0)) by lia. wp_steps. unfold node. wp_steps.
    eapply wp_opt; [exact Hn|]. rewrite Hdir. by wp_steps.
Qed.

Lemma step_live d name c : step s d name = Some c -> is_Some (f_nodes s !! c).
Proof.
  unfold step. destruct (f_nodes s !! resolve s d) as [n|] eqn:En; [|done].
  destruct (fo_node _ (to_fs _ Hs) _ n En) as [[Hdir [l Hl]]|[Hdir _]]; rewrite Hdir; [|done].
  pose proof Hl as [(n' & Hn' & _ & Hch) Hlive _]. assert (n' = n) as -> by congruence. rewrite Hch.
  destruct (Z.eqb_spec (dir_find s l name) 0) as [|Hne]; [done|]. intros [= <-]. unfold dir_find in *.
  destruct (list_find _ l) as [[i x]|] eqn:E; [|done]. apply list_find_Some in E as (Hi & _). cbn in *.
  apply Hlive. by eapply list_elem_of_lookup_2.
Qed.

(** The loop of [vfs_path_to_node] over the components. *)
Lemma wp_walk comps : forall d fuel,
  Forall component comps -> is_Some (f_nodes s !! d) -> (length (join comps) <= fuel)%nat ->
  wp (walk other fuel d (join comps)) (fun r s' => s' = s /\ r = lookup_path s d comps) s.
Proof.
  induction comps as [|name comps IH]; intros d fuel Hc Hd Hfuel.
  { destruct fuel; cbn; by wp_steps. }
  apply Forall_cons in Hc as [(Hne & Hdot & Hsl) Hc]. destruct (resolve_live s d Hs Hd) as [[n Hn] H0].
  assert (Hgo : forall token fuel' next_slash, next_token token = (name, next_slash) -> token <> [] ->
    (forall c, step s d name = Some c -> is_Some (f_nodes s !! c) ->
       wp (match next_slash with Some rest => walk other fuel' c rest | None => kret (Some c) end)
         (fun r s' => s' = s /\ r = lookup_path s c comps) s) ->
    wp (walk other (S fuel') d token) (fun r s' => s' = s /\ r = lookup_path s d (name :: comps)) s).
  { intros token fuel' nxt Ht Hn0 Hrest. destruct token as [|x token]; [done|]. cbn [walk]. rewrite Ht.
    rewrite decide_False by done. wp_steps.
    apply (wp_resolve s d); [apply Hs.. | | done|].
    { destruct Hd as [m Hm]. pose proof (fo_fresh _ (to_fs _ Hs) _ m Hm). lia. }
    wp_steps. unfold node. wp_steps. eapply wp_opt; [exact Hn|]. unfold op_of. rewrite (to_ram _ Hs _ n Hn). cbn [ops_of o_finddir g_ramfs_ops].
    wp_steps. apply wp_step; [by rewrite Hn|]. cbn [lookup_path].
    destruct (step s d name) as [c|] eqn:Est; cbn [from_option id]; [|by cbn [Z.eqb]; wp_steps].
    pose proof (step_live d name c Est) as Hlive.
    assert (c <> 0) as Hc0. { destruct Hlive as [m Hm]. pose proof (fo_fresh _ (to_fs _ Hs) _ m Hm). lia. }
    rewrite (proj2 (Z.eqb_neq c 0)) by done. by apply Hrest. }
  destruct comps as [|name2 comps].
  - cbn [join] in *. destruct fuel as [|fuel]; [destruct name; [done | cbn in Hfuel; lia]|].
    apply (Hgo name fuel None); [by apply (proj2 (next_token_join name [] Hsl)) | done|]. intros c Hc1 Hlive. by wp_steps.
  - change (join (name :: name2 :: comps)) with (name ++ SLASH :: join (name2 :: comps)) in *.
    rewrite length_app in Hfuel. cbn [length] in Hfuel. destruct fuel as [|fuel]; [lia|].
    apply (Hgo _ fuel (Some (join (name2 :: comps)))); [by apply (proj1 (next_token_join name _ Hsl)) | by destruct name|].
    intros c Hc1 Hlive. apply IH; [done | done | lia].
Qed.

Definition path_of (comps : list (list Z)) : list Z := SLASH :: join comps.

(** The node a path stands for, 0 if there is none. *)
Definition path_target (comps : list (list Z)) : Z :=
  match comps with
  | [] => resolve s (g_vfs_root s)
  | _ => from_option (resolve s) 0 (lookup_path s (resolve s (g_vfs_root s)) comps)
  end.

Lemma lookup_live comps : forall d c,
  is_Some (f_nodes s !! d) -> lookup_path s d comps = Some c -> is_Some (f_nodes s !! c).
Proof.
  induction comps as [|name comps IH]; cbn; intros d c Hd; [by intros [= <-]|].
  destruct (step s d name) as [x|] eqn:E; [|done]. intros Hl. by eapply IH; [eapply step_live|].
Qed.

Lemma wp_path_to_node comps :
  Forall component comps -> is_Some (f_nodes s !! g_vfs_root s) -> zlen (path_of comps) < 512 ->
  wp (vfs_path_to_node other (path_of comps)) (fun r s' => s' = s /\ r = path_target comps) s.
Proof.
  intros Hc Hroot Hlen. destruct (resolve_live s _ Hs Hroot) as [Hr H0].
  assert (Hpos : forall p, is_Some (f_nodes s !! p) -> p <> 0).
  { intros p [m Hm]. pose proof (fo_fresh _ (to_fs _ Hs) _ m Hm). lia. }
  unfold vfs_path_to_node, path_of in *. wp_steps.
  apply (wp_resolve s); [apply Hs.. | by apply Hpos | done|].
  destruct comps as [|name comps]; [by rewrite decide_True by done; wp_steps|].
  assert (Hj : join (name :: comps) <> []).
  { apply Forall_cons in Hc as [(Hne & _) _]. destruct name; [done|]. by destruct comps. }
  rewrite decide_False by (intros [= E]; done). rewrite (proj2 (Z.leb_gt _ _)) by done.
  cbn [Z.eqb SLASH Pos.eqb]. wp_steps. eapply wp_mono; [by apply wp_walk|]. cbn beta. intros r s' [-> ->].
  unfold path_target. destruct (lookup_path s _ (name :: comps)) as [c|] eqn:E; [|by wp_steps].
  pose proof (lookup_live _ _ _ Hr E) as Hlive. apply (wp_resolve s); [apply Hs.. | by apply Hpos | done | done].
Qed.

End resolution.

(** C14: Path resolution.  In a tree of RAM nodes with any mounts between them,
    [vfs_path_to_node] of an absolute path finds exactly the node its
    components lead to, crossing the mount points on the way, and NULL when a
    component is missing or not a directory; nothing changes. *)
Theorem vfs_path_to_node_correct other s comps :
  tree_ok s -> Forall component comps -> is_Some (f_nodes s !! g_vfs_root s) -> zlen (path_of comps) < 512 ->
  wp (vfs_path_to_node other (path_of comps)) (fun r s' => s' = s /\ r = path_target s comps) s.
Proof. intros Hs. by apply wp_path_to_node. Qed.

(** ** Opening with creation *)

Lemma split_last_app l name : ~ (SLASH ∈ name) -> split_last (l ++ SLASH :: name) = Some (l, name).
Proof.
  intros Hs. assert (Hn : split_last name = None).
  { induction name as [|c name IH]; [done|]. rewrite not_elem_of_cons in Hs. destruct Hs as [Hc Hs]. cbn.
    rewrite IH by done. by rewrite (proj2 (Z.eqb_neq c SLASH)) by congruence. }
  induction l as [|c l IH]; cbn; [by rewrite Hn | by rewrite IH].
Qed.

Lemma join_app comps name : comps <> [] -> join (comps ++ [name]) = join comps ++ SLASH :: name.
Proof.
  induction comps as [|x comps IH]; intros Hne; [done|]. destruct comps as [|y comps]; [done|].
  change (join ((x :: y :: comps) ++ [name])) with (x ++ SLASH :: join ((y :: comps) ++ [name])).
  change (join (x :: y :: comps)) with (x ++ SLASH :: join (y :: comps)).
  rewrite IH by done. by rewrite <- app_assoc.
Qed.

Lemma lookup_app s comps name : forall d,
  lookup_path s d (comps ++ [name]) =
  match lookup_path s d comps with Some c => step s c name | None => None end.
Proof.
  induction comps as [|x comps IH]; intros d; cbn; [by destruct (step s d name)|].
  destruct (step s d x); [apply IH | done].
Qed.

(** The path of the parent as it is cut out. *)
Lemma split_path comps name :
  component name ->
  exists dir, split_last (path_of (comps ++ [name])) = Some (dir, name) /\
    (match dir with [] => [SLASH] | _ => dir end) = path_of comps /\ zlen dir <= zlen (path_of comps).
Proof.
  intros (_ & _ & Hsl). destruct (decide (comps = [])) as [->|Hne].
  - exists []. split; [|by split]. apply (split_last_app [] name Hsl).
  - exists (path_of comps). split_and!; [|done | done]. unfold path_of. rewrite join_app by done.
    apply (split_last_app (SLASH :: join comps) name Hsl).
Qed.

Lemma path_last comps name : component name -> last (path_of (comps ++ [name])) <> Some SLASH.
Proof.
  intros (Hne & _ & Hsl) E. assert (Hl : last (path_of (comps ++ [name])) = last name).
  { destruct name as [|c name] using rev_ind; [done|]. rewrite last_snoc.
    destruct (decide (comps = [])) as [->|Hc]; unfold path_of; [cbn; rewrite app_comm_cons; apply last_snoc|].
    rewrite join_app by done. rewrite app_comm_cons, (app_comm_cons name _ SLASH), app_assoc. apply last_snoc. }
  rewrite Hl in E. apply Hsl. by apply last_Some_elem_of.
Qed.

Section opening.
Context (other : Z -> vops) (s : vfs) (comps : list (list Z)) (name : list Z) (d : Z) (l : list Z).
Hypothesis Hs : tree_ok s.
Hypothesis Hnm : g_mount_list s = [].
Hypothesis Hroot : is_Some (f_nodes s !! g_vfs_root s).
Hypothesis Hcomps : Forall component comps.
Hypothesis Hname : component name.
Hypothesis Hd : lookup_path s (g_vfs_root s) comps = Some d.
Hypothesis Hdir : dir_has s d l.
Hypothesis Hlen : zlen (path_of (comps ++ [name])) < 256.
Hypothesis Hshort : zlen name < 64.

Lemma resolve_id t p : g_mount_list t = [] -> resolve t p = p.
Proof. intros E. unfold resolve. rewrite E. destruct (f_nodes t !! p) as [n|]; [|done]. by destruct (has _ _). Qed.

Lemma path_short : zlen (path_of comps) < 256.
Proof.
  unfold path_of, zlen in *. destruct (decide (comps = [])) as [->|Hne]; [cbn; lia|].
  rewrite join_app in Hlen by done. cbn [length] in *. rewrite length_app in Hlen. lia.
Qed.

Lemma wp_parent_and_child : 
  wp (vfs_get_parent_and_child other (path_of (comps ++ [name])) 64) (fun r s' => s' = s /\ r = (d, name)) s.
Proof.
  pose proof path_short as Hps. destruct (split_path comps name Hname) as (dir & E & Ed & Hdl).
  unfold vfs_get_parent_and_child. destruct (path_of (comps ++ [name])) as [|x tl] eqn:Ep; [done|]. rewrite <- Ep in *.
  rewrite bool_decide_eq_false_2 by by apply path_last. rewrite andb_false_r, E.
  rewrite (proj2 (Z.leb_gt 256 (zlen dir))) by lia. unfold strcpy_out. rewrite (proj2 (Z.ltb_lt (zlen name) 64)) by done.
  wp_steps. rewrite Ed. eapply wp_mono; [apply (wp_path_to_node other s Hs comps); try done; lia|].
  cbn beta. intros r s' [-> ->]. wp_steps. split; [done|]. f_equal. unfold path_target.
  rewrite (resolve_id s _ Hnm). destruct comps as [|y comps0]; [cbn in Hd; congruence|].
  rewrite Hd. by apply resolve_id.
Qed.

Lemma step_dir x k nm c :
  dir_has s x k -> step s x nm = Some c <-> c ∈ k /\ name_of s c = nm.
Proof.
  intros Hx. pose proof Hx as [(n & Hn & Hdn & Hch) Hlive Hnd]. unfold step. rewrite resolve_id, Hn, Hdn, Hch by done.
  split.
  - destruct (Z.eqb_spec (dir_find s k nm) 0) as [|Hne]; [done|]. intros [= <-]. unfold dir_find in *.
    destruct (list_find _ k) as [[i y]|] eqn:E; [|done]. apply list_find_Some in E as (Hi & Hy & _). cbn in *.
    split; [by eapply list_elem_of_lookup_2 | done].
  - intros [Hc Hcn]. rewrite (dir_find_in s k nm c) by done.
    by rewrite (proj2 (Z.eqb_neq c 0)) by (pose proof (proj2 (Hlive c Hc)); lia).
Qed.

Lemma step_is_dir x nm c : step s x nm = Some c -> exists k, dir_has s x k.
Proof.
  unfold step. rewrite resolve_id by done. destruct (f_nodes s !! x) as [n|] eqn:En; [|done].
  destruct (fo_node _ (to_fs _ Hs) x n En) as [[_ Hk]|[Hf _]]; [done | by rewrite Hf].
Qed.


(** Directories only grow, and names stay. *)
Definition grown_dirs (s2 : vfs) : Prop :=
  forall x k, dir_has s x k -> exists k', dir_has s2 x k' /\ forall y, y ∈ k -> y ∈ k' /\ name_of s2 y = name_of s y.

End opening.

Lemma lookup_grown s s2 cs : forall x c,
  tree_ok s -> g_mount_list s = [] -> g_mount_list s2 = [] -> grown_dirs s s2 ->
  lookup_path s x cs = Some c -> lookup_path s2 x cs = Some c.
Proof.
  induction cs as [|nm cs IH]; intros x c Hs E1 E2 Hg; cbn; [done|].
  destruct (step s x nm) as [y|] eqn:Est; [|done]. intros Hl.
  destruct (step_is_dir s Hs E1 x nm y Est) as [k Hk]. destruct (Hg x k Hk) as (k' & Hk' & Hin).
  apply (step_dir s E1 x k nm y Hk) in Est as [Hy Hyn]. destruct (Hin y Hy) as [Hy' Hyn'].
  assert (Hst : step s2 x nm = Some y) by (apply (step_dir s2 E2 x k' nm y Hk'); split; congruence).
  rewrite Hst. by apply IH.
Qed.

Lemma created_grown s s1 s2 d c pn nn l :
  fs_ok s -> dir_has s d l -> f_nodes s !! d = Some pn -> c = f_brk s -> created s s1 d c pn nn ->
  ~ (n_name nn ∈ map (name_of s) l) -> same_shape s1 s2 -> grown_dirs s s2.
Proof.
  intros Hok Hd Hpn Hc Hcr Hnew Hsh x k Hk.
  assert (Hnm : forall y, is_Some (f_nodes s !! y) -> name_of s2 y = name_of s y).
  { intros y Hy. rewrite (same_shape_name s1 s2) by done. by apply (created_name s s1 d c pn nn). }
  destruct (decide (x = d)) as [->|Hne].
  - pose proof (dir_has_fun _ _ _ _ Hk Hd) as ->. exists (c :: l). split.
    + eapply same_shape_dir; [done|]. by apply (created_dir s s1 d c pn nn l).
    + intros y Hy. split; [by right|]. by apply Hnm, (dh_live _ _ _ Hd).
  - exists k. split.
    + eapply same_shape_dir; [done|]. by apply (created_keep s s1 d c pn nn).
    + intros y Hy. split; [done|]. by apply Hnm, (dh_live _ _ _ Hk).
Qed.

(** The state [vfs_open] leaves: the new node [c] with its parent noted. *)
Lemma opened_tree s s1 d c pn nn l comps i :
  tree_ok s -> g_mount_list s = [] -> lookup_path s (g_vfs_root s) comps = Some d -> dir_has s d l ->
  f_nodes s !! d = Some pn -> c = f_brk s -> created s s1 d c pn nn ->
  ~ (n_name nn ∈ map (name_of s) l) -> file_ok nn -> n_ops nn = RamfsOps ->
  let s2 := set_f_nodes (<[c := set_n_parent i nn]> (f_nodes s1)) s1 in
  c <> 0 /\ tree_ok s2 /\ lookup_path s2 (g_vfs_root s2) (comps ++ [n_name nn]) = Some c /\
  (exists n, f_nodes s2 !! c = Some n /\ n_flags n = n_flags nn /\ n_size n = n_size nn /\ file_ok n) /\
  (forall x cs y, lookup_path s x cs = Some y -> lookup_path s2 x cs = Some y).
Proof.
  intros Hs Hnm Hd Hdir Hpn Hc Hcr Hnew Hf Hops s2. pose proof Hs as [Hok Hmo Hram].
  pose proof (created_c s s1 d c pn nn Hok Hpn Hc Hcr) as Hc1.
  assert (Hsh : same_shape s1 s2).
  { intros q. unfold s2. cbn. destruct (decide (q = c)) as [->|Hne]; [by rewrite lookup_insert_eq, Hc1|].
    rewrite lookup_insert_ne by done. by destruct (f_nodes s1 !! q). }
  assert (Hok2 : fs_ok s2).
  { eapply (same_shape_ok s1); [done..|]. apply (created_ok s s1 d c pn nn l); try done. by right. }
  assert (Hm2 : g_mount_list s2 = []) by (unfold s2; cbn; destruct Hcr as (_ & _ & _ & _ & -> & _); done).
  assert (Hr2 : g_vfs_root s2 = g_vfs_root s) by (unfold s2; cbn; by destruct Hcr as (_ & _ & _ & _ & _ & ->)).
  pose proof (created_grown s s1 s2 d c pn nn l Hok Hdir Hpn Hc Hcr Hnew Hsh) as Hg.
  assert (Hlk : forall x cs y, lookup_path s x cs = Some y -> lookup_path s2 x cs = Some y).
  { intros x cs y. by apply (lookup_grown s s2). }
  assert (Hc2 : f_nodes s2 !! c = Some (set_n_parent i nn)) by apply lookup_insert_eq.
  pose proof (fo_brk _ Hok). split_and!; [lia | | | by exists (set_n_parent i nn) | done].
  - split; [done | intros m; rewrite Hm2; by intros ?%elem_of_nil|]. intros q n Hq.
    destruct (decide (q = c)) as [->|Hqc]; [rewrite Hc2 in Hq; by injection Hq as <-|]. unfold s2 in Hq. cbn in Hq. rewrite lookup_insert_ne in Hq by done.
    destruct (decide (q = d)) as [->|Hqd].
    + rewrite (created_d s s1 d c pn nn Hcr) in Hq. injection Hq as <-. by apply (Hram d pn).
    + rewrite (created_lookup s s1 d c pn nn Hcr) in Hq by done. by apply (Hram q n).
  - rewrite lookup_app, Hr2, (Hlk _ _ _ Hd). apply (step_dir s2 Hm2 d (c :: l)).
    + eapply same_shape_dir; [exact Hsh|]. by apply (created_dir s s1 d c pn nn l).
    + split; [by left|]. unfold name_of. by rewrite Hc2.
Qed.

(** Opening with creation.  In a well-formed tree, [vfs_open] with the
    create flag on a path whose parent directory exists and whose last name
    does not, makes an empty file: the node returned is the one the path
    resolves to from then on, every other path resolves as before, and the file
    system stays well formed. *)
Theorem vfs_open_creates other s comps name d l flags :
  tree_ok s -> g_mount_list s = [] -> is_Some (f_nodes s !! g_vfs_root s) ->
  Forall component comps -> component name ->
  lookup_path s (g_vfs_root s) comps = Some d -> dir_has s d l -> ~ (name ∈ map (name_of s) l) ->
  zlen (path_of (comps ++ [name])) < 256 -> zlen name < 64 -> has flags O_CREAT = true -> (3 <= f_mem s)%nat ->
  wp (vfs_open other (path_of (comps ++ [name])) flags)
    (fun r s' => r <> 0 /\ tree_ok s' /\ lookup_path s' (g_vfs_root s') (comps ++ [name]) = Some r /\
       (exists nn, f_nodes s' !! r = Some nn /\ n_flags nn = VFS_FILE /\ n_size nn = 0 /\ file_ok nn) /\
       (forall x cs c, lookup_path s x cs = Some c -> lookup_path s' x cs = Some c)) s.
Proof.
  intros Hs Hnm Hroot Hcomps Hname Hd Hdir Hnew Hlen Hshort Hfl Hmem. pose proof Hs as [Hok Hmo Hram].
  pose proof Hdir as [(pn & Hpn & Hpd & _) Hlive _]. pose proof (fo_fresh _ Hok d pn Hpn) as Hpos.
  unfold vfs_open. destruct (path_of (comps ++ [name])) as [|x tl] eqn:Ep; [done|]. rewrite <- Ep in *. clear Ep x tl.
  wp_steps. eapply wp_mono; [by apply (wp_parent_and_child other s comps name d)|].
  cbn beta. intros r s' [-> ->]. wp_steps.
  eapply wp_mono; [apply (wp_path_to_node other s Hs (comps ++ [name])); [by apply Forall_app; split; [|constructor] | done | lia]|].
  cbn beta. intros r s' [-> ->].
  assert (Hmiss : path_target s (comps ++ [name]) = 0).
  { unfold path_target. rewrite resolve_id, lookup_app, Hd by done.
    assert (Hst : step s d name = None).
    { destruct (step s d name) as [y|] eqn:E; [|done]. apply (step_dir s Hnm d l) in E as [Hy Hyn]; [|done].
      exfalso. apply Hnew, list_elem_of_fmap. by exists y. }
    rewrite Hst. by destruct comps. }
  rewrite Hmiss, (proj2 (Z.eqb_neq d 0)), Hfl by lia. cbn [Z.eqb negb andb].
  unfold node at 1. wp_steps. eapply wp_opt; [exact Hpn|]. unfold op_of at 1. rewrite (Hram d pn Hpn).
  cbn [ops_of o_create g_ramfs_ops]. wp_steps. unfold ramfs_create.
  assert (Hfree : f_nodes s !! f_brk s = None).
  { destruct (f_nodes s !! f_brk s) as [m|] eqn:E; [|done]. pose proof (fo_fresh _ Hok _ m E). lia. }
  assert (Hne : name <> []) by apply Hname.
  eapply wp_mono; [apply (wp_create s d l name 420 VFS_FILE pn); try done; apply Hok|].
  cbn beta. intros r s1 [-> Hcr]. cbn [Z.eqb].
  set (c := f_brk s) in *. set (nn := fresh_node _ _ _ _ _) in *.
  assert (Hnn : n_name nn = name).
  { unfold nn, fresh_node, name_field. cbn. apply take_ge. unfold VFS_NAME_MAX, zlen in *. lia. }
  assert (Hnew' : ~ (n_name nn ∈ map (name_of s) l)) by by rewrite Hnn.
  pose proof (created_c s s1 d c pn nn Hok Hpn eq_refl Hcr) as Hc1.
  pose proof (created_dir s s1 d c pn nn l Hok Hdir Hpn eq_refl Hcr Hnew') as Hd1.
  wp_steps. unfold op_of at 1. rewrite (Hram d pn Hpn). cbn [ops_of o_finddir g_ramfs_ops kopt]. wp_steps.
  apply (wp_finddir s1 d (c :: l)); [done | lia|].
  rewrite (dir_find_in s1 (c :: l) name c); [|apply Hd1 | by left | unfold name_of; by rewrite Hc1].
  pose proof (fo_brk _ Hok) as Hb. rewrite (proj2 (Z.eqb_neq c 0)) by lia.
  unfold on_node, node, put_node. wp_steps.
  eapply wp_opt; [apply (created_d s s1 d c pn nn Hcr)|]. wp_steps. eapply wp_opt; [exact Hc1|]. wp_steps.
  eapply wp_opt; [apply lookup_insert_eq|]. unfold op_of. cbn [n_ops set_n_parent nn fresh_node ops_of o_open g_ramfs_ops].
  unfold ramfs_open. wp_steps. rewrite (proj2 (Z.eqb_neq c 0)) by lia. cbn [Z.eqb].
  rewrite <- Hnn. by eapply (opened_tree s s1 d c pn nn l comps).
Qed.

(** ** Mounting *)

(** What a mount callback promises: a new node, the root of its volume. *)
Definition new_volume (s s1 : vfs) (root : Z) : Prop :=
  root <> 0 /\ f_nodes s !! root = None /\
  (exists n, f_nodes s1 = <[root := n]> (f_nodes s) /\ has (n_flags n) VFS_MOUNTPOINT = false) /\
  f_brk s <= f_brk s1 /\ f_mem s1 <> 0%nat /\ vfs_table_lock s1 = false /\
  g_mount_list s1 = g_mount_list s /\ g_vfs_root s1 = g_vfs_root s.

Lemma wp_lock_tables s (Q : unit -> vfs -> Prop) :
  vfs_table_lock s = false -> Q tt (set_table_lock true s) -> wp vfs_lock_tables Q s.
Proof. intros Hl HQ. unfold vfs_lock_tables. wp_steps. rewrite Hl. by wp_steps. Qed.

Lemma has_set flags bit : 0 < bit -> has (Z.lor flags bit) bit = true.
Proof.
  intros Hb. unfold has. assert (Z.land (Z.lor flags bit) bit = bit) as ->; [|by rewrite (proj2 (Z.eqb_neq bit 0)) by lia].
  apply Z.bits_inj'. intros i _. rewrite Z.land_spec, Z.lor_spec. by destruct (Z.testbit flags i), (Z.testbit bit i).
Qed.

(** Mounting.  [vfs_mount] of a registered file system on an existing
    directory of an unmounted tree returns 0; from then on the directory stands
    for the root the driver made and every other node for itself; the bridge is
    in the list, the lock is free, and no other node changed. *)
Theorem vfs_mount_correct other m comps fs_type fs mount target tn root :
  let s := mt_fs m in
  tree_ok s -> g_mount_list s = [] -> is_Some (f_nodes s !! g_vfs_root s) ->
  (forall p n, f_nodes s !! p = Some n -> has (n_flags n) VFS_MOUNTPOINT = false) ->
  Forall component comps -> zlen (path_of comps) < 512 ->
  lookup_path s (g_vfs_root s) comps = Some target -> f_nodes s !! target = Some tn ->
  has (n_flags tn) VFS_DIRECTORY = true ->
  find_driver fs_type (g_registered_filesystems m) = Some fs -> fs_mount fs = Some mount ->
  wp (mount None (path_of comps)) (fun r s1 => r = root /\ new_volume s s1 root) s ->
  wp (vfs_mount other None (path_of comps) fs_type)
    (fun r m' => let s' := mt_fs m' in
       r = 0 /\ g_mount_list s' = [Mount target root] /\ vfs_table_lock s' = false /\
       resolve s' target = root /\ (forall p, p <> target -> resolve s' p = p) /\
       (forall p, p <> target -> p <> root -> f_nodes s' !! p = f_nodes s !! p) /\
       g_registered_filesystems m' = g_registered_filesystems m) m.
Proof.
  intros s Hs Hnm Hroot Hflag Hcomps Hlen Hl Htn Hdir Hfind Hmount Hvol. pose proof Hs as [Hok Hmo Hram].
  pose proof (fo_fresh _ Hok target tn Htn) as Hpos.
  unfold vfs_mount, on_fs. wp_steps. apply wp_lock_tables; [apply Hok|]. unfold vfs_unlock_tables. wp_steps.
  cbn [g_registered_filesystems set_mt_fs mt_fs]. rewrite tables_unlock_lock by apply Hok. fold s. rewrite Hfind. wp_steps.
  eapply wp_mono; [by apply (wp_path_to_node other s Hs comps)|]. cbn beta. intros r s' [-> ->].
  assert (Ht : path_target s comps = target).
  { unfold path_target. rewrite resolve_id by done. destruct comps as [|y cs]; [cbn in Hl; congruence|].
    rewrite Hl. by apply resolve_id. }
  rewrite Ht, (proj2 (Z.eqb_neq target 0)) by lia. wp_steps. unfold node at 1. wp_steps.
  eapply wp_opt; [exact Htn|]. rewrite Hdir. cbn [negb]. rewrite Hmount. cbn [kopt]. wp_steps. cbn [set_mt_fs mt_fs].
  eapply wp_mono; [exact Hvol|]. cbn beta. intros r s1 (-> & R0 & R1 & (rn & R2 & R2') & R3 & R4 & R5 & R6 & R7).
  rewrite (proj2 (Z.eqb_neq root 0)) by done. wp_steps. cbn [set_mt_fs mt_fs]. unfold fs_kmalloc. wp_steps.
  destruct (f_mem s1) as [|k]; [done|]. wp_steps. pose proof (fo_brk _ Hok) as Hb.
  rewrite (proj2 (Z.eqb_neq (f_brk s1) 0)) by lia. wp_steps. cbn [set_mt_fs mt_fs]. wp_steps.
  apply wp_lock_tables; [done|]. wp_steps. unfold on_node, node, put_node. wp_steps.
  assert (Hne : target <> root) by congruence.
  eapply wp_opt; [cbn; rewrite R2, lookup_insert_ne by done; exact Htn|]. wp_steps.
  cbn [g_registered_filesystems set_mt_fs mt_fs]. set (s' := set_table_lock false _).
  assert (Hlk : f_nodes s' = <[target := set_n_flags (Z.lor (n_flags tn) VFS_MOUNTPOINT) (set_n_ptr_mount root tn)]>
    (<[root := rn]> (f_nodes s))) by (unfold s'; cbn; by rewrite R2).
  assert (Hml : g_mount_list s' = [Mount target root]) by (unfold s'; cbn; by rewrite R6, Hnm).
  split_and!; try done.
  - unfold resolve. rewrite Hlk, lookup_insert_eq. cbn [n_flags set_n_flags]. rewrite has_set by done.
    rewrite Hml. cbn. unfold bridges. cbn. by rewrite Z.eqb_refl.
  - intros p Hp. unfold resolve. rewrite Hlk, lookup_insert_ne by done.
    destruct (decide (p = root)) as [->|Hpr]; [by rewrite lookup_insert_eq, R2'|]. rewrite lookup_insert_ne by done.
    destruct (f_nodes s !! p) as [n|] eqn:En; [|done]. by rewrite (Hflag p n En).
  - intros p Hp Hpr. by rewrite Hlk, !lookup_insert_ne by done.
Qed.

(** Initialisation.  On an empty store with memory left, [vfs_init] makes
    a well-formed tree: the root is an empty directory, nothing is mounted, and
    the RAM file system is the one registered driver. *)
Theorem vfs_init_ok m :
  f_nodes (mt_fs m) = ∅ -> 0 < f_brk (mt_fs m) -> f_mem (mt_fs m) <> 0%nat ->
  wp vfs_init
    (fun _ m' => let s' := mt_fs m' in
       tree_ok s' /\ dir_has s' (g_vfs_root s') [] /\ g_mount_list s' = [] /\
       g_registered_filesystems m' = Some g_ramfs_fs_driver :: replicate 15 None) m.
Proof.
  intros Hnodes Hbrk Hmem. unfold vfs_init, on_fs, vfs_unlock_tables, fs_kmalloc. wp_steps.
  cbn [mt_fs set_mt_fs set_registered f_mem set_mount_list set_table_lock f_brk].
  destruct (f_mem (mt_fs m)) as [|k]; [done|]. wp_steps.
  rewrite (proj2 (Z.eqb_neq (f_brk (mt_fs m)) 0)) by lia. unfold put_node, ramfs_init. wp_steps.
  cbn [mt_fs set_mt_fs set_registered set_f_nodes set_mount_list set_table_lock set_alloc set_vfs_root f_brk g_vfs_root].
  rewrite (proj2 (Z.eqb_neq (f_brk (mt_fs m)) 0)) by lia. unfold on_fs, on_node, node, put_node. wp_steps.
  eapply wp_opt; [apply lookup_insert_eq|]. unfold vfs_register_filesystem, on_fs. wp_steps.
  apply wp_lock_tables; [done|]. unfold vfs_unlock_tables. wp_steps.
  cbn [mt_fs set_mt_fs set_registered g_registered_filesystems FS_MAX_REG_DRIVERS replicate register_in fmap option_fmap option_map].
  wp_steps. cbn [mt_fs set_mt_fs set_registered g_registered_filesystems]. set (s' := set_table_lock false _).
  set (p := f_brk (mt_fs m)) in *. set (rn := VNode [SLASH] VFS_DIRECTORY 0 1 0 0 4096 RamfsOps RAMFS_ID PNull 0).
  assert (Hlk : f_nodes s' = {[p := rn]}) by (unfold s'; cbn; rewrite Hnodes; by rewrite !insert_insert_eq).
  assert (Hdir : dir_has s' p []).
  { split; [exists rn; by rewrite Hlk, lookup_singleton_eq | by intros c ?%elem_of_nil | constructor]. }
  assert (Hone : forall q n, f_nodes s' !! q = Some n -> q = p /\ n = rn).
  { intros q n. rewrite Hlk. by intros [-> ->]%lookup_singleton_Some. }
  split_and!; [|done | done | done]. split; [|by intros x ?%elem_of_nil | intros q n Hq; by destruct (Hone q n Hq) as [_ ->]].
  split; [done | | | | unfold s'; cbn; lia].
  - intros q n Hq. destruct (Hone q n Hq) as [-> _]. unfold s'. cbn. lia.
  - intros q n Hq. destruct (Hone q n Hq) as [-> ->]. left. split; [done | by exists []].
  - intros d d' l l' c Hd Hd' _ _. destruct Hd as [(n & Hn & _) _ _], Hd' as [(n' & Hn' & _) _ _].
    by destruct (Hone d n Hn) as [-> _], (Hone d' n' Hn') as [-> _].
Qed.

(** ** Concrete trees *)

Lemma vfs_init_witness :
  wp vfs_init
    (fun _ m' => let s' := mt_fs m' in
       tree_ok s' /\ dir_has s' (g_vfs_root s') [] /\ g_mount_list s' = [] /\
       g_registered_filesystems m' = Some g_ramfs_fs_driver :: replicate 15 None)
    (Mounts (Vfs ∅ 16 8 [] false 0) []).
Proof. apply (vfs_init_ok (Mounts (Vfs ∅ 16 8 [] false 0) [])); done. Defined.

Definition no_driver (id : Z) : vops := Vops None None None None None None None None None None None.

Lemma example_tree_ok : tree_ok example_fs.
Proof.
  split; [apply example_fs_ok | by intros m ?%elem_of_nil|].
  intros p n [[-> ->]|[[-> ->]|[-> ->]]]%example_lookup; done.
Qed.

Lemma component_1 c : c <> SLASH -> c <> DOT -> component [c].
Proof.
  intros H1 H2. split_and!; [done | congruence|]. intros [E|E%elem_of_nil]%elem_of_cons; [congruence | done].
Qed.

Lemma vfs_path_to_node_witness :
  wp (vfs_path_to_node no_driver (path_of [[100]])) (fun r s' => s' = example_fs /\ r = 48) example_fs.
Proof.
  apply (vfs_path_to_node_correct no_driver example_fs [[100]]);
    [apply example_tree_ok | repeat constructor; apply component_1; done | by eexists | done].
Defined.

Lemma vfs_open_witness :
  wp (vfs_open no_driver (path_of ([[100]] ++ [[120]])) O_CREAT)
    (fun r s' => r <> 0 /\ tree_ok s' /\ lookup_path s' (g_vfs_root s') ([[100]] ++ [[120]]) = Some r /\
       (exists nn, f_nodes s' !! r = Some nn /\ n_flags nn = VFS_FILE /\ n_size nn = 0 /\ file_ok nn) /\
       (forall x cs c, lookup_path example_fs x cs = Some c -> lookup_path s' x cs = Some c)) example_fs.
Proof.
  apply (vfs_open_creates no_driver example_fs [[100]] [120] 48 [] O_CREAT);
    [apply example_tree_ok | done | by eexists | repeat constructor; apply component_1; done |
     apply component_1; done | vm_compute; done | apply example_sub_has | by intros ?%elem_of_nil |
     vm_compute; done | vm_compute; done | done | cbn; lia].
Defined.

(** A file system whose volumes are empty RAM directories. *)
Definition volume_root : vfs_node := VNode [118] VFS_DIRECTORY 0 99 0 493 0 RamfsOps 7 PNull 0.
Definition volume_mount (dev : option Z) (path : list Z) : M vfs Z :=
  kmodify (fun s => set_alloc 80 (f_mem s) (set_f_nodes (<[64 := volume_root]> (f_nodes s)) s)) ;;; kret 64.
Definition volume_fs : vfs_filesystem := Filesystem [118] (Some volume_mount) None.
Definition example_mounts : mounts := Mounts example_fs (Some volume_fs :: replicate 15 None).

Lemma vfs_mount_witness :
  wp (vfs_mount no_driver None (path_of [[100]]) [118])
    (fun r m' => let s' := mt_fs m' in
       r = 0 /\ g_mount_list s' = [Mount 48 64] /\ vfs_table_lock s' = false /\
       resolve s' 48 = 64 /\ (forall p, p <> 48 -> resolve s' p = p) /\
       (forall p, p <> 48 -> p <> 64 -> f_nodes s' !! p = f_nodes example_fs !! p) /\
       g_registered_filesystems m' = g_registered_filesystems example_mounts) example_mounts.
Proof.
  apply (vfs_mount_correct no_driver example_mounts [[100]] [118] volume_fs volume_mount 48 example_sub 64);
    [apply example_tree_ok | done | by eexists | | repeat constructor; apply component_1; done | done |
     vm_compute; done | done | done | done | done |].
  - intros p n [[-> ->]|[[-> ->]|[-> ->]]]%example_lookup; done.
  - unfold volume_mount. wp_steps. split; [done|]. split_and!; try done. by exists volume_root.
Defined.

(** ** Where the core falls short *)

(** [vfs_umount] resolves its path through the mount point, so what it inspects
    is the mounted root, which is no mount point: it answers -2 and releases
    the root while the bridge still refers to it; the next use of the path
    follows a dangling pointer. *)
Lemma umount_releases_the_root :
  wp (vfs_mount no_driver None (path_of [[100]]) [118] ;;;
      on_fs (vfs_umount no_driver (fun _ => None) (path_of [[100]])))
    (fun r m' => r = -2 /\ f_nodes (mt_fs m') !! 64 = None /\ g_mount_list (mt_fs m') = [Mount 48 64]) example_mounts /\
  (vfs_mount no_driver None (path_of [[100]]) [118] ;;;
   on_fs (vfs_umount no_driver (fun _ => None) (path_of [[100]])) ;;;
   on_fs (vfs_path_to_node no_driver (path_of [[100]; [120]]))) example_mounts = Stop NullDeref.
Proof. vm_compute. done. Qed.

(** The RAM file system registers no mount callback, and mounting it calls it. *)
Lemma mount_ramfs_null :
  vfs_mount no_driver None (path_of [[100]]) [114]
    (Mounts example_fs [Some (Filesystem [114] None None)]) = Stop NullDeref.
Proof. vm_compute. done. Qed.

(** [vfs_open] copies the last name to a buffer of 64 bytes. *)
Lemma open_long_name :
  vfs_open no_driver (SLASH :: replicate 64 120) 0 example_fs = Stop OutOfBounds.
Proof. vm_compute. done. Qed.
