(* ===== verification/PageCache.v ===== *)
(** * The page cache of the virtual file system

    [vfs_get_or_create_page], [vfs_invalidate_cache_page], [vfs_read],
    [vfs_write], [vfs_flush] and [vfs_close] of [kernel/fs/vfs/vfs.c], on a
    node whose mount point is already resolved.  The operations of the node's
    driver are a record of functions over the driver's own state, and what the
    cache needs of them is the class [DriverLaws]. *)

From Stdlib Require Import ZArith Lia.
From stdpp Require Import base tactics list gmap.
From S2P Require Import Prelude.

Definition VFS_DIRECTORY_FLAG : Z := 2.

(** [vfs_page_t]. *)
Record vfs_page : Type := Page {
  block_id : Z;
  buffer : list Z;
  page_size : Z;
  dirty : bool
}.

(** The operations a driver offers; an absent one is a null pointer.  They get
    [node->size] and a write may change it. *)
Record driver (D : Type) : Type := Driver {
  op_read : option (Z -> Z -> Z -> M D (Z * list Z));
  op_write : option (Z -> Z -> list Z -> M D (Z * Z));
  op_flush : option (M D Z);
  op_close : option (M D Z)
}.
Arguments Driver {D}.
Arguments op_read {D}.
Arguments op_write {D}.
Arguments op_flush {D}.
Arguments op_close {D}.

(** A node with its cache: how many allocations will still succeed, and what
    freshly allocated memory happens to hold. *)
Record cnode (D : Type) : Type := CNode {
  c_flags : Z;
  c_size : Z;
  block_size : Z;
  cache_pages : list vfs_page;
  c_dev : D;
  c_mem : nat;
  c_stale : Z -> Z
}.
Arguments CNode {D}.
Arguments c_flags {D}.
Arguments c_size {D}.
Arguments block_size {D}.
Arguments cache_pages {D}.
Arguments c_dev {D}.
Arguments c_mem {D}.
Arguments c_stale {D}.

Section cache.
Context {D : Type} (o : driver D).

Definition set_c_size (x : Z) (c : cnode D) : cnode D :=
  CNode (c_flags c) x (block_size c) (cache_pages c) (c_dev c) (c_mem c) (c_stale c).
Definition set_cache_pages (x : list vfs_page) (c : cnode D) : cnode D :=
  CNode (c_flags c) (c_size c) (block_size c) x (c_dev c) (c_mem c) (c_stale c).
Definition set_c_dev (x : D) (c : cnode D) : cnode D :=
  CNode (c_flags c) (c_size c) (block_size c) (cache_pages c) x (c_mem c) (c_stale c).
Definition set_c_mem (x : nat) (c : cnode D) : cnode D :=
  CNode (c_flags c) (c_size c) (block_size c) (cache_pages c) (c_dev c) x (c_stale c).

Definition on_dev {A} (m : M D A) : M (cnode D) A := zoom c_dev set_c_dev m.

(** [kmalloc] and [pool_alloc]: does the allocation succeed? *)
Definition c_alloc : M (cnode D) bool :=
  c <-- kget ;;
  match c_mem c with
  | O => kret false
  | S m => kmodify (set_c_mem m) ;;; kret true
  end.
Definition c_free : M (cnode D) unit := kmodify (fun c => set_c_mem (S (c_mem c)) c).

(** ** The list of pages *)

Fixpoint find_page (id : Z) (l : list vfs_page) : option vfs_page :=
  match l with
  | [] => None
  | p :: l' => if block_id p =? id then Some p else find_page id l'
  end.

Fixpoint drop_page (id : Z) (l : list vfs_page) : list vfs_page :=
  match l with
  | [] => []
  | p :: l' => if block_id p =? id then l' else p :: drop_page id l'
  end.

(** Stores through the pointer to a page. *)
Fixpoint put_page (q : vfs_page) (l : list vfs_page) : list vfs_page :=
  match l with
  | [] => []
  | p :: l' => if block_id p =? block_id q then q :: l' else p :: put_page q l'
  end.

Definition vfs_get_or_create_page (id : Z) (ler_do_disco : bool) : M (cnode D) (option vfs_page) :=
  c <-- kget ;;
  let bs := block_size c in
  if bs =? 0 then kret None else
  match find_page id (cache_pages c) with
  | Some p => kret (Some p)
  | None =>
      a <-- c_alloc ;;
      if negb a then kret None else
      b <-- c_alloc ;;
      if negb b then c_free ;;; kret None else
      let fresh := map (c_stale c) (seqZ 0 bs) in
      r <-- (if ler_do_disco then
               match op_read o with
               | Some read =>
                   let offset := u64 (id * bs) in
                   let n := if c_size c <? u64 (offset + bs)
                            then if offset <? c_size c then u32 (c_size c - offset) else 0
                            else bs in
                   if 0 <? n then
                     r <-- on_dev (read (c_size c) offset n) ;;
                     if r.1 <? 0 then kret None else
                     buf <-- bytes_in fresh 0 r.2 ;; kret (Some (n, buf))
                   else kret (Some (0, fresh))
               | None => kret None
               end
             else kret (Some (0, fresh))) ;;
      match r with
      | None => c_free ;;; c_free ;;; kret None
      | Some (n, buf) =>
          let p := Page id buf n false in
          kmodify (fun c => set_cache_pages (p :: cache_pages c) c) ;;; kret (Some p)
      end
  end.

Definition vfs_invalidate_cache_page (id : Z) : M (cnode D) unit :=
  c <-- kget ;;
  match find_page id (cache_pages c) with
  | None => kret tt
  | Some _ =>
      kmodify (fun c => set_cache_pages (drop_page id (cache_pages c)) c) ;;; c_free ;;; c_free
  end.

(** ** Reading *)

(** One block of the direct read: its cached copy is written back if dirty,
    then dropped. *)
Definition write_back (id : Z) : M (cnode D) unit :=
  c <-- kget ;;
  (match find_page id (cache_pages c), op_write o with
   | Some p, Some write =>
       if dirty p then
         bs <-- bytes_out (buffer p) 0 (block_size c) ;;
         r <-- on_dev (write (c_size c) (u64 (id * block_size c)) bs) ;;
         kmodify (set_c_size r.2)
       else kret tt
   | _, _ => kret tt
   end) ;;;
  vfs_invalidate_cache_page id.

(** The part of a read that the page of block [id] serves, from byte [inb]. *)
Definition read_page (size id inb : Z) (acc : Z * list Z) : M (cnode D) ((Z * list Z) + (Z * list Z)) :=
  let '(total, out) := acc in
  p <-- vfs_get_or_create_page id true ;;
  match p with
  | None => kret (inr (if 0 <? total then s32 total else -5, out))
  | Some p =>
      if page_size p <=? inb then kret (inr (s32 total, out)) else
      let avail := page_size p - inb in
      let left := size - total in
      let k := if left <? avail then left else avail in
      if k =? 0 then kret (inr (s32 total, out)) else
      bs <-- bytes_out (buffer p) inb k ;;
      kret (inl (u32 (total + k), out ++ bs))
  end.

(** One turn of the loop; [out] holds the [total] bytes placed so far. *)
Definition read_turn (offset size : Z) (acc : Z * list Z)
    : M (cnode D) ((Z * list Z) + (Z * list Z)) :=
  let '(total, out) := acc in
  if negb (total <? size) then kret (inr (s32 total, out)) else
  c <-- kget ;;
  let bs := block_size c in
  let cur := u64 (offset + total) in
  let id := cur / bs in
  let inb := u32 (cur mod bs) in
  match (if (inb =? 0) && (bs <=? size - total) then op_read o else None) with
  | Some read =>
      let n := (size - total) / bs in
      for_ (Z.to_nat n) id write_back ;;;
      c <-- kget ;;
      r <-- on_dev (read (c_size c) cur (u32 (n * bs))) ;;
      if r.1 <? 0 then kret (inr (if 0 <? total then s32 total else r.1, out)) else
      kret (inl (u32 (total + r.1), out ++ r.2))
  | None => read_page size id inb acc
  end.

(** The loop ends, or a driver that returns nothing keeps it going. *)
Definition run_turns {A R} (fuel : nat) (turn : A -> M (cnode D) (A + R)) (a : A) : M (cnode D) R :=
  r <-- loop fuel 0 (fun _ => turn) a ;;
  match r with
  | inl _ => kstop NoFuel
  | inr x => kret x
  end.

(** The return code and the bytes placed in the caller's buffer. *)
Definition vfs_read (offset size : Z) : M (cnode D) (Z * list Z) :=
  c <-- kget ;;
  if size =? 0 then kret (0, []) else
  if block_size c =? 0 then
    match op_read o with
    | Some read => on_dev (read (c_size c) offset size)
    | None => kret (-2, [])
    end
  else
  if c_size c <=? offset then kret (0, []) else
  let size := if c_size c <? u64 (offset + size) then u32 (c_size c - offset) else size in
  run_turns (S (Z.to_nat size)) (read_turn offset size) (0, []).

(** ** Writing *)

(** The copy of [k] bytes into a page, from byte [inb]. *)
Definition put_bytes (cur id inb k : Z) (src : list Z) (total : Z) (p : vfs_page) : M (cnode D) (Z + Z) :=
  bytes <-- bytes_out src total k ;;
  buf <-- bytes_in (buffer p) inb bytes ;;
  let n := if page_size p <? u32 (inb + k) then u32 (inb + k) else page_size p in
  kmodify (fun c => set_cache_pages (put_page (Page id buf n true) (cache_pages c)) c) ;;;
  kmodify (fun c => if c_size c <? u64 (cur + k) then set_c_size (u64 (cur + k)) c else c) ;;;
  kret (inl (u32 (total + k))).

(** The part of a write that goes to the page of block [id], from byte [inb]. *)
Definition write_page (original cur id inb : Z) (src : list Z) (total : Z) : M (cnode D) (Z + Z) :=
  c <-- kget ;;
  let bs := block_size c in
  let left := zlen src - total in
  let k := if left <? bs - inb then left else bs - inb in
  let ler_do_disco :=
    if (inb =? 0) && (k =? bs) then false
    else negb (original <=? u64 (id * bs)) in
  p <-- vfs_get_or_create_page id ler_do_disco ;;
  match p with
  | None => kret (inr (if 0 <? total then s32 total else -5))
  | Some p => put_bytes cur id inb k src total p
  end.

Definition write_turn (original offset : Z) (src : list Z) (total : Z) : M (cnode D) (Z + Z) :=
  let size := zlen src in
  if negb (total <? size) then kret (inr (s32 total)) else
  c <-- kget ;;
  let bs := block_size c in
  let cur := u64 (offset + total) in
  let id := cur / bs in
  let inb := u32 (cur mod bs) in
  match (if (inb =? 0) && (bs <=? size - total) then op_write o else None) with
  | Some write =>
      let n := (size - total) / bs in
      for_ (Z.to_nat n) id vfs_invalidate_cache_page ;;;
      c <-- kget ;;
      bytes <-- bytes_out src total (u32 (n * bs)) ;;
      r <-- on_dev (write (c_size c) cur bytes) ;;
      kmodify (set_c_size r.2) ;;;
      if r.1 <? 0 then kret (inr (if 0 <? total then s32 total else r.1)) else
      kmodify (fun c => if c_size c <? u64 (cur + r.1) then set_c_size (u64 (cur + r.1)) c else c) ;;;
      kret (inl (u32 (total + r.1)))
  | None => write_page original cur id inb src total
  end.

(** [src] holds the [size] bytes of the caller's buffer. *)
Definition vfs_write (offset : Z) (src : list Z) : M (cnode D) Z :=
  c <-- kget ;;
  if negb (Z.land (c_flags c) VFS_DIRECTORY_FLAG =? 0) then kret (-21) else
  if zlen src =? 0 then kret 0 else
  if block_size c =? 0 then
    match op_write o with
    | Some write => r <-- on_dev (write (c_size c) offset src) ;; kmodify (set_c_size r.2) ;;; kret r.1
    | None => kret (-2)
    end
  else run_turns (S (length src)) (write_turn (c_size c) offset src) 0.

(** ** Flushing and closing *)

(** One page of the walk: the page as it is left and the last error. *)
Definition flush_page (write : Z -> Z -> list Z -> M D (Z * Z)) (p : vfs_page) (erro : Z)
    : M (cnode D) (vfs_page * Z) :=
  c <-- kget ;;
  if dirty p then
    if 0 <? page_size p then
      bs <-- bytes_out (buffer p) 0 (page_size p) ;;
      r <-- on_dev (write (c_size c) (u64 (block_id p * block_size c)) bs) ;;
      kmodify (set_c_size r.2) ;;;
      if r.1 <? 0 then kret (p, r.1)
      else kret (Page (block_id p) (buffer p) (page_size p) false, erro)
    else kret (Page (block_id p) (buffer p) (page_size p) false, erro)
  else kret (p, erro).

Fixpoint flush_pages (write : Z -> Z -> list Z -> M D (Z * Z)) (l : list vfs_page) (erro : Z)
    : M (cnode D) (list vfs_page * Z) :=
  match l with
  | [] => kret ([], erro)
  | p :: l' =>
      r <-- flush_page write p erro ;;
      rest <-- flush_pages write l' r.2 ;;
      kret (r.1 :: rest.1, rest.2)
  end.

Definition driver_flush (absent : Z) : M (cnode D) Z :=
  match op_flush o with
  | Some f => on_dev f
  | None => kret absent
  end.

Definition vfs_flush : M (cnode D) Z :=
  c <-- kget ;;
  if block_size c =? 0 then driver_flush (-2) else
  match op_write o with
  | None => match cache_pages c with [] => driver_flush 0 | _ => kret (-2) end
  | Some write =>
      r <-- flush_pages write (cache_pages c) 0 ;;
      kmodify (set_cache_pages r.1) ;;;
      if r.2 <? 0 then kret r.2 else driver_flush 0
  end.

(** Closing flushes, notifies the driver and releases every page, also those a
    failed flush left dirty. *)
Definition vfs_close : M (cnode D) unit :=
  _ <-- vfs_flush ;;
  (match op_close o with Some f => _ <-- on_dev f ;; kret tt | None => kret tt end) ;;;
  kmodify (fun c => set_c_mem (c_mem c + 2 * length (cache_pages c)) (set_cache_pages [] c)).

End cache.

(** ** What the cache needs of a driver

    The driver stores some bytes of the file.  Reading stored bytes returns
    them; a write within the room of the device stores the bytes and forgets
    nothing.  Bytes between the old end and the start of a write may hold
    anything, as on a disk. *)

Class DriverLaws {D : Type} (o : driver D) : Type := {
  the_read : Z -> Z -> Z -> M D (Z * list Z);
  the_write : Z -> Z -> list Z -> M D (Z * Z);
  stored : D -> Z -> option Z;
  dr_ok : D -> Prop;
  dr_room : D -> Z;
  dr_same : D -> D -> Prop := fun d d' =>
    dr_ok d' /\ dr_room d' = dr_room d /\ forall i, stored d' i = stored d i;
  law_has_read : op_read o = Some the_read;
  law_has_write : op_write o = Some the_write;
  law_read : forall d size off n,
    dr_ok d -> 0 <= off -> 0 < n < 2 ^ 31 -> off + n <= size ->
    (forall i, off <= i < off + n -> is_Some (stored d i)) ->
    wp (the_read size off n)
      (fun r d' => dr_same d d' /\ r.1 = n /\ zlen r.2 = n /\
         forall i, 0 <= i < n -> r.2 !! Z.to_nat i = stored d (off + i)) d;
  law_write : forall d size off src,
    dr_ok d -> 0 <= off -> 0 < zlen src < 2 ^ 31 -> off + zlen src <= dr_room d ->
    wp (the_write size off src)
      (fun r d' => dr_ok d' /\ dr_room d' = dr_room d /\ r.1 = zlen src /\
         (r.2 = size \/ r.2 = Z.max size (off + zlen src)) /\
         (forall i, off <= i < off + zlen src -> stored d' i = src !! Z.to_nat (i - off)) /\
         (forall i b, ~ (off <= i < off + zlen src) -> stored d i = Some b -> stored d' i = Some b)) d;
  law_flush : forall f d, op_flush o = Some f -> dr_ok d ->
    wp f (fun r d' => r = 0 /\ dr_same d d') d;
  law_close : forall f d, op_close o = Some f -> dr_ok d -> wp f (fun _ d' => dr_same d d') d
}.

(** ** The list of pages *)

Lemma find_page_id id l p : find_page id l = Some p -> block_id p = id.
Proof.
  induction l as [|q l IH]; cbn; [done|]. destruct (Z.eqb_spec (block_id q) id); [|done]. by intros [= <-].
Qed.

Lemma find_page_in id l p : find_page id l = Some p -> p ∈ l.
Proof.
  induction l as [|q l IH]; cbn; [done|]. destruct (block_id q =? id); [intros [= <-]; by left|].
  intros H. right. by apply IH.
Qed.

Lemma find_page_none id l : find_page id l = None <-> id ∉ map block_id l.
Proof.
  induction l as [|q l IH]; cbn; [split; [by intros _ ?%elem_of_nil | done]|].
  rewrite not_elem_of_cons. destruct (Z.eqb_spec (block_id q) id); [split; [done|]; intros [? _]; congruence|].
  rewrite IH. split; [by split | by intros [_ ?]].
Qed.

Lemma find_page_elem l p : NoDup (map block_id l) -> p ∈ l -> find_page (block_id p) l = Some p.
Proof.
  induction l as [|q l IH]; cbn; [by intros _ ?%elem_of_nil|]. intros [Hq Hl]%NoDup_cons [-> | Hp]%elem_of_cons.
  - by rewrite Z.eqb_refl.
  - destruct (Z.eqb_spec (block_id q) (block_id p)) as [E|]; [|auto]. exfalso. apply Hq. rewrite E.
    apply list_elem_of_fmap. by exists p.
Qed.

Lemma drop_page_sub id l p : p ∈ drop_page id l -> p ∈ l.
Proof.
  induction l as [|q l IH]; cbn; [done|]. destruct (block_id q =? id); [by right|].
  intros [-> | H]%elem_of_cons; [by left | right; auto].
Qed.

Lemma drop_page_nodup id l : NoDup (map block_id l) -> NoDup (map block_id (drop_page id l)).
Proof.
  induction l as [|q l IH]; cbn; [done|]. intros [Hq Hl]%NoDup_cons. destruct (block_id q =? id); [done|].
  cbn. apply NoDup_cons. split; [|auto]. intros (p & E & Hp)%list_elem_of_fmap. apply Hq. rewrite E.
  apply list_elem_of_fmap. exists p. split; [done|]. by eapply drop_page_sub.
Qed.

Lemma find_drop id j l : NoDup (map block_id l) ->
  find_page j (drop_page id l) = if decide (j = id) then None else find_page j l.
Proof.
  induction l as [|q l IH]; cbn; [by case_decide|]. intros [Hq Hl]%NoDup_cons.
  destruct (Z.eqb_spec (block_id q) id) as [E|E]; cbn.
  - case_decide as Ej; [subst; by apply find_page_none|]. by rewrite (proj2 (Z.eqb_neq _ _)) by congruence.
  - rewrite IH by done. destruct (Z.eqb_spec (block_id q) j); [|done]. by rewrite decide_False by congruence.
Qed.

Lemma put_page_ids q l : map block_id (put_page q l) = map block_id l.
Proof.
  induction l as [|p l IH]; cbn; [done|]. destruct (Z.eqb_spec (block_id p) (block_id q)) as [E|]; cbn; congruence.
Qed.

Lemma find_put q j l :
  find_page j (put_page q l) =
  if decide (j = block_id q) then (fun _ => q) <$> find_page j l else find_page j l.
Proof.
  induction l as [|p l IH]; cbn; [by case_decide|].
  destruct (Z.eqb_spec (block_id p) (block_id q)) as [E|E]; cbn.
  - destruct (Z.eqb_spec (block_id q) j) as [<-|]; [by rewrite decide_True, E, Z.eqb_refl by done|].
    rewrite decide_False by congruence. by rewrite (proj2 (Z.eqb_neq _ _)) by congruence.
  - destruct (Z.eqb_spec (block_id p) j) as [<-|]; [by rewrite decide_False by done | exact IH].
Qed.

(** ** The invariant and the abstract file *)

Section laws.
Context {D : Type} (o : driver D) `{L : !DriverLaws o}.
Implicit Types c : cnode D.

(** What the page of block [id] holds: a full buffer, as many valid bytes as
    the file has in the block, and the driver's bytes unless it is dirty. *)
Record page_ok (c : cnode D) (id : Z) (p : vfs_page) : Prop := {
  po_id : 0 <= id;
  po_start : id * block_size c < c_size c;
  po_len : zlen (buffer p) = block_size c;
  po_size : page_size p = Z.min (block_size c) (c_size c - id * block_size c);
  po_clean : dirty p = false -> forall i, 0 <= i < page_size p ->
    buffer p !! Z.to_nat i = stored (c_dev c) (id * block_size c + i)
}.

Record cache_ok (c : cnode D) : Prop := {
  ck_bs : 0 < block_size c < 2 ^ 31;
  ck_size : 0 <= c_size c <= dr_room (c_dev c);
  ck_room : dr_room (c_dev c) < 2 ^ 63;
  ck_dev : dr_ok (c_dev c);
  ck_nodup : NoDup (map block_id (cache_pages c));
  ck_page : forall id p, find_page id (cache_pages c) = Some p -> page_ok c id p;
  ck_rest : forall i, 0 <= i < c_size c -> find_page (i / block_size c) (cache_pages c) = None ->
    is_Some (stored (c_dev c) i)
}.

(** The file the node stands for: byte [i] comes from the cached block, or
    from the driver. *)
Definition view (c : cnode D) (i : Z) : option Z :=
  if (0 <=? i) && (i <? c_size c) then
    match find_page (i / block_size c) (cache_pages c) with
    | Some p => buffer p !! Z.to_nat (i mod block_size c)
    | None => stored (c_dev c) i
    end
  else None.

(** The same file behind a possibly different cache. *)
Record same_file (c c' : cnode D) : Prop := {
  sf_ok : cache_ok c';
  sf_size : c_size c' = c_size c;
  sf_bs : block_size c' = block_size c;
  sf_flags : c_flags c' = c_flags c;
  sf_room : dr_room (c_dev c') = dr_room (c_dev c);
  sf_view : forall i, view c' i = view c i
}.

Lemma same_file_refl c : cache_ok c -> same_file c c.
Proof. by split. Qed.

Lemma same_file_trans c c' c'' : same_file c c' -> same_file c' c'' -> same_file c c''.
Proof.
  intros [H1 H2 H3 H4 H5 H6] [K1 K2 K3 K4 K5 K6].
  split; [done | congruence.. |]. intros i. by rewrite K6, H6.
Qed.

Lemma div_block bs i id : 0 < bs -> id * bs <= i < id * bs + bs <-> i / bs = id.
Proof.
  intros Hb. split; [intros Hi; symmetry; apply (Z.div_unique_pos i bs id (i - id * bs)); lia|].
  intros <-. pose proof (Z.div_mod i bs ltac:(lia)). pose proof (Z.mod_pos_bound i bs Hb). lia.
Qed.

Lemma mod_block bs i id : 0 < bs -> id * bs <= i < id * bs + bs -> i mod bs = i - id * bs.
Proof. intros Hb Hi. symmetry. apply (Z.mod_unique_pos i bs id); lia. Qed.

(** Inside one block. *)
Lemma view_page c id p i :
  cache_ok c -> find_page id (cache_pages c) = Some p ->
  id * block_size c <= i < id * block_size c + block_size c -> i < c_size c ->
  view c i = buffer p !! Z.to_nat (i - id * block_size c).
Proof.
  intros Hok Hp Hi Hs. pose proof (ck_bs _ Hok) as Hbs. pose proof (po_id _ _ _ (ck_page _ Hok id p Hp)) as Hid.
  unfold view. rewrite (proj2 (Z.leb_le 0 i)), (proj2 (Z.ltb_lt i _)) by nia. cbn [andb].
  rewrite (proj1 (div_block (block_size c) i id ltac:(lia)) Hi), Hp.
  by rewrite (mod_block (block_size c) i id) by lia.
Qed.

Lemma view_stored c i :
  cache_ok c -> 0 <= i < c_size c -> find_page (i / block_size c) (cache_pages c) = None ->
  view c i = stored (c_dev c) i /\ is_Some (stored (c_dev c) i).
Proof.
  intros Hok Hi Hp. split; [|by apply (ck_rest _ Hok)]. unfold view.
  rewrite (proj2 (Z.leb_le 0 i)), (proj2 (Z.ltb_lt i _)) by lia. cbn. by rewrite Hp.
Qed.

(** Every byte below the size is there. *)
Lemma view_is_Some c i : cache_ok c -> 0 <= i < c_size c -> is_Some (view c i).
Proof.
  intros Hok Hi. destruct (find_page (i / block_size c) (cache_pages c)) as [p|] eqn:Ef.
  - unfold view. rewrite (proj2 (Z.leb_le 0 i)), (proj2 (Z.ltb_lt i _)) by lia. cbn. rewrite Ef.
    pose proof (ck_bs _ Hok). pose proof (Z.mod_pos_bound i (block_size c) ltac:(lia)).
    pose proof (po_len _ _ _ (ck_page _ Hok _ p Ef)). apply lookup_lt_is_Some. unfold zlen in *. lia.
  - destruct (view_stored c i Hok Hi Ef) as [-> ?]. done.
Qed.

(** Two caches over the same size agree when they agree block by block. *)
Lemma view_ext c c' :
  c_size c' = c_size c -> block_size c' = block_size c ->
  (forall i, 0 <= i < c_size c ->
     match find_page (i / block_size c) (cache_pages c') with
     | Some p => buffer p !! Z.to_nat (i mod block_size c)
     | None => stored (c_dev c') i
     end =
     match find_page (i / block_size c) (cache_pages c) with
     | Some p => buffer p !! Z.to_nat (i mod block_size c)
     | None => stored (c_dev c) i
     end) -> forall i, view c' i = view c i.
Proof.
  intros Hs Hb H i. unfold view. rewrite Hs, Hb.
  destruct (Z.leb_spec 0 i), (Z.ltb_spec i (c_size c)); cbn [andb]; try done. by apply H.
Qed.

(** The driver moved on but stores the same bytes. *)
Lemma set_dev_same c d' : cache_ok c -> dr_same (c_dev c) d' -> same_file c (set_c_dev d' c).
Proof.
  intros [H1 H2 H3 H4 H5 H6 H7] (K1 & K2 & K3). split; cbn; try done.
  - split; cbn; rewrite ?K2; try done.
    + intros id p Hp. destruct (H6 id p Hp) as [P1 P2 P3 P4 P5]. split; cbn; try done.
      intros Hd i Hi. rewrite K3. by apply P5.
    + intros i Hi Hf. rewrite K3. by apply H7.
  - apply view_ext; [done..|]. intros i Hi. cbn. by rewrite K3.
Qed.

Lemma set_mem_same c m : cache_ok c -> same_file c (set_c_mem m c).
Proof.
  intros [H1 H2 H3 H4 H5 H6 H7]. split; cbn; try done. split; cbn; try done.
  intros id p Hp. by destruct (H6 id p Hp).
Qed.

(** ** Dropping and adding clean pages *)

(** A page whose bytes the driver stores can be dropped. *)
Lemma drop_same c id :
  cache_ok c ->
  (forall p i, find_page id (cache_pages c) = Some p -> 0 <= i < page_size p ->
     buffer p !! Z.to_nat i = stored (c_dev c) (id * block_size c + i)) ->
  same_file c (set_cache_pages (drop_page id (cache_pages c)) c).
Proof.
  intros Hok Hp. pose proof Hok as [H1 H2 H3 H4 H5 H6 H7].
  assert (Hin : forall i p, 0 <= i < c_size c -> i / block_size c = id -> find_page id (cache_pages c) = Some p ->
    buffer p !! Z.to_nat (i mod block_size c) = stored (c_dev c) i).
  { intros i p Hi Hd Hf. pose proof (H6 id p Hf) as [P1 P2 P3 P4 P5].
    apply div_block in Hd; [|lia]. rewrite (mod_block _ i id), (Hp p) by lia || done. f_equal. lia. }
  split; cbn; try done.
  - split; cbn; try done; [by apply drop_page_nodup| |].
    + intros j p. rewrite find_drop by done. case_decide; [done|]. intros Hf. by destruct (H6 j p Hf).
    + intros i Hi. rewrite find_drop by done. case_decide as E; [|by apply H7]. intros _.
      destruct (find_page id (cache_pages c)) as [p|] eqn:Ef; [|apply H7; [done | by rewrite E]].
      rewrite <- (Hin i p) by done. pose proof (H6 id p Ef) as [P1 P2 P3 P4 P5].
      pose proof (Z.mod_pos_bound i (block_size c) ltac:(lia)). apply lookup_lt_is_Some. unfold zlen in *. lia.
  - apply view_ext; [done..|]. intros i Hi. cbn. rewrite find_drop by done. case_decide as E; [|done].
    rewrite E. destruct (find_page id (cache_pages c)) as [p|] eqn:Ef; [|done]. by rewrite (Hin i p).
Qed.

(** A page of the driver's bytes can be added. *)
Lemma cons_same c id buf :
  cache_ok c -> 0 <= id -> id * block_size c < c_size c -> find_page id (cache_pages c) = None ->
  zlen buf = block_size c ->
  (forall i, 0 <= i < Z.min (block_size c) (c_size c - id * block_size c) ->
     buf !! Z.to_nat i = stored (c_dev c) (id * block_size c + i)) ->
  same_file c (set_cache_pages (Page id buf (Z.min (block_size c) (c_size c - id * block_size c)) false :: cache_pages c) c).
Proof.
  intros Hok Hid Hst Hf Hl Hb. pose proof Hok as [H1 H2 H3 H4 H5 H6 H7]. split; cbn; try done.
  - split; cbn; try done.
    + apply NoDup_cons. split; [by apply find_page_none | done].
    + intros j p. destruct (Z.eqb_spec id j) as [<-|]; [intros [= <-]; by split|].
      intros Hj. by destruct (H6 j p Hj).
    + intros i Hi. destruct (id =? i / block_size c); [done | by apply H7].
  - apply view_ext; [done..|]. intros i Hi. cbn. destruct (Z.eqb_spec id (i / block_size c)) as [E|]; [|done].
    rewrite <- E, Hf. symmetry in E. apply div_block in E; [|lia]. cbn. rewrite (mod_block _ i id), Hb by lia. f_equal. lia.
Qed.

(** ** Reading *)

(** The page [p] of block [id] is in the cache; nothing else changed. *)
Definition mirrored (c c' : cnode D) (id : Z) (p : vfs_page) : Prop :=
  find_page id (cache_pages c') = Some p /\ same_file c c' /\ (c_mem c <= c_mem c' + 2)%nat /\
  dr_same (c_dev c) (c_dev c') /\
  forall j, j <> id -> find_page j (cache_pages c') = find_page j (cache_pages c).

(** Fetching the page of a block of the file. *)
Lemma wp_get_page_read c id :
  cache_ok c -> 0 <= id -> id * block_size c < c_size c -> (2 <= c_mem c)%nat ->
  wp (vfs_get_or_create_page o id true)
    (fun r c' => exists p, r = Some p /\ mirrored c c' id p) c.
Proof.
  intros Hok Hid Hst Hmem. pose proof Hok as [H1 H2 H3 H4 H5 H6 H7]. unfold vfs_get_or_create_page. wp_steps.
  rewrite (proj2 (Z.eqb_neq (block_size c) 0)) by lia.
  destruct (find_page id (cache_pages c)) as [p|] eqn:Ef.
  { wp_steps. exists p. split; [done|]. split_and!; [done | by apply same_file_refl | lia | by split_and! | done]. }
  unfold c_alloc. wp_steps. destruct (c_mem c) as [|[|m]] eqn:Em; [lia | lia|]. wp_steps.
  cbn [c_mem set_c_mem negb]. wp_steps. cbn [c_mem set_c_mem negb]. wp_steps. cbn [negb]. wp_steps. rewrite law_has_read.
  set (bs := block_size c) in *. set (st := id * bs) in *.
  assert (0 <= st) by (unfold st; nia).
  rewrite !(u64_small st), (u64_small (st + bs)) by lia.
  set (n := Z.min bs (c_size c - st)).
  replace (if c_size c <? st + bs then _ else bs) with n.
  2:{ unfold n. destruct (Z.ltb_spec (c_size c) (st + bs)); [|lia]. rewrite (proj2 (Z.ltb_lt st _)) by lia.
      rewrite u32_small; lia. }
  rewrite (proj2 (Z.ltb_lt 0 n)) by lia. unfold on_dev. wp_steps. cbn [c_dev set_c_mem].
  set (c2 := set_c_mem m (set_c_mem (S m) c)).
  assert (Hst2 : forall i, st <= i < st + n -> i / bs = id) by (intros i Hi; apply div_block; lia).
  eapply wp_mono; [apply law_read; try done; [lia.. |]|].
  { intros i Hi. apply H7; [lia|]. fold bs. by rewrite Hst2. }
  cbn beta. intros [r bytes] d' (Hsame & Hr & Hlen & Hby). cbn [fst snd] in *. subst r.
  rewrite (proj2 (Z.ltb_ge n 0)) by lia. wp_steps.
  assert (Hc2 : same_file c c2) by (apply (same_file_trans _ (set_c_mem (S m) c)); apply set_mem_same; [done | by apply set_mem_same]).
  assert (Hd2 := set_dev_same c2 d' (sf_ok _ _ Hc2) Hsame).
  assert (Hf : zlen (map (c_stale c) (seqZ 0 bs)) = bs) by (unfold zlen; rewrite length_map, length_seqZ; lia).
  apply wp_bytes_in; [done | lia|]. intros buf [Hbl Hbuf]. wp_steps. eexists. split; [reflexivity|]. split_and!.
  - cbn. by rewrite Z.eqb_refl.
  - eapply same_file_trans; [exact Hc2|]. eapply same_file_trans; [exact Hd2|].
    apply cons_same; cbn; try done; [apply Hd2 | lia|]. intros i Hi. fold bs st in Hi |- *. fold n in Hi.
    rewrite Hbuf, decide_True by lia. rewrite Nat.sub_0_r, Hby by lia. symmetry. apply Hsame.
  - cbn. lia.
  - apply Hsame.
  - intros j Hj. cbn. by rewrite (proj2 (Z.eqb_neq id j)) by congruence.
Qed.

(** Writing one block of the file back and dropping its page. *)
Lemma wp_write_back c id :
  cache_ok c -> 0 <= id -> id * block_size c + block_size c <= c_size c ->
  wp (write_back o id)
    (fun _ c' => find_page id (cache_pages c') = None /\
       (forall j, find_page j (cache_pages c) = None -> find_page j (cache_pages c') = None) /\
       same_file c c' /\ (c_mem c <= c_mem c')%nat) c.
Proof.
  intros Hok Hid Hend. pose proof Hok as [H1 H2 H3 H4 H5 H6 H7]. unfold write_back. wp_steps. rewrite law_has_write.
  set (bs := block_size c) in *. set (st := id * bs) in *. assert (0 <= st) by (unfold st; nia).
  assert (Hdrop : forall c1, same_file c c1 -> cache_pages c1 = cache_pages c -> c_mem c1 = c_mem c ->
    (forall p i, find_page id (cache_pages c1) = Some p -> 0 <= i < page_size p ->
       buffer p !! Z.to_nat i = stored (c_dev c1) (st + i)) ->
    wp (vfs_invalidate_cache_page id) (fun _ c' => find_page id (cache_pages c') = None /\
       (forall j, find_page j (cache_pages c) = None -> find_page j (cache_pages c') = None) /\
       same_file c c' /\ (c_mem c <= c_mem c')%nat) c1).
  { intros c1 Hc1 Hpg Hm Hst. unfold vfs_invalidate_cache_page, c_free. wp_steps.
    destruct (find_page id (cache_pages c1)) as [p|] eqn:Ef; wp_steps.
    2:{ split_and!; [done | by rewrite Hpg | done | lia]. }
    assert (Hdr : same_file c1 (set_cache_pages (drop_page id (cache_pages c1)) c1)).
    { apply drop_same; [apply Hc1|]. rewrite (sf_bs _ _ Hc1). fold bs st. intros q i Hq. apply Hst.
      by rewrite Ef in Hq. }
    cbn [cache_pages set_c_mem set_cache_pages c_mem]. split_and!.
    - rewrite find_drop by apply Hc1. by rewrite decide_True.
    - intros j Hj. rewrite find_drop by apply Hc1. rewrite Hpg. by case_decide.
    - eapply same_file_trans; [exact Hc1|]. eapply same_file_trans; [exact Hdr|].
      eapply same_file_trans; apply set_mem_same; [apply Hdr | apply set_mem_same, Hdr].
    - lia. }
  destruct (find_page id (cache_pages c)) as [p|] eqn:Ef.
  2:{ wp_steps. apply Hdrop; [by apply same_file_refl | done | done|]. intros p i. by rewrite Ef. }
  pose proof (H6 id p Ef) as [P1 P2 P3 P4 P5]. fold bs st in P2, P3, P4, P5.
  assert (Hps : page_size p = bs) by lia.
  destruct (dirty p) eqn:Ed.
  2:{ wp_steps. apply Hdrop; [by apply same_file_refl | done | done|]. intros q i. rewrite Ef. intros [= <-]. by apply P5. }
  wp_steps. apply wp_bytes_out; [lia.. |]. rewrite drop_0. unfold on_dev. wp_steps.
  fold bs. fold st. rewrite (u64_small st) by lia.
  assert (Hfull : take (Z.to_nat bs) (buffer p) = buffer p) by (apply take_ge; unfold zlen in *; lia).
  rewrite Hfull. eapply wp_mono; [apply law_write; try done; lia|]. cbn beta.
  intros [r sz] d' (K1 & K2 & K3 & K4 & K5 & K6). cbn [fst snd] in *.
  assert (sz = c_size c) as -> by lia. wp_steps.
  assert (Hblk : forall i, st <= i < st + bs <-> i / bs = id) by (intros i; apply div_block; lia).
  apply Hdrop; [|done|done|].
  - split; cbn; try done.
    + split; cbn; rewrite ?K2; try done.
      * intros j q Hj. destruct (H6 j q Hj) as [Q1 Q2 Q3 Q4 Q5]. split; cbn; try done. fold bs in Q2, Q3, Q4, Q5 |- *.
        intros Hd i Hi. assert (j <> id) by (intros ->; congruence).
        destruct (lookup_lt_is_Some_2 (buffer q) (Z.to_nat i)) as [b Hb]; [unfold zlen in *; lia|].
        rewrite Hb. symmetry. apply K6; [rewrite P3, Hblk; assert ((j * bs + i) / bs = j) by (apply div_block; lia); lia|].
        by rewrite <- Hb, Q5.
      * intros i Hi Hf. destruct (H7 i Hi Hf) as [b Hb]. exists b. apply K6; [|done]. rewrite P3, Hblk. intros E.
        fold bs in Hf. rewrite E in Hf. congruence.
    + apply view_ext; [done..|]. intros i Hi. cbn. destruct (find_page (i / block_size c) (cache_pages c)) eqn:Ei; [done|].
      destruct (H7 i Hi Ei) as [b Hb]. rewrite Hb. apply K6; [|done]. rewrite P3, Hblk. intros E. fold bs in Ei. rewrite E in Ei. congruence.
  - cbn. intros q i. rewrite Ef. intros [= <-] Hi. rewrite K5 by lia. f_equal. lia.
Qed.

(** The allocations a transfer at [cur] may still need: a page for an
    unaligned start and a page for a partial end. *)
Definition pages_left (c : cnode D) (cur : Z) : nat := if cur mod block_size c =? 0 then 2 else 4.

(** The bytes read so far. *)
Definition read_so_far (c c' : cnode D) (offset size : Z) (acc : Z * list Z) : Prop :=
  same_file c c' /\ 0 <= acc.1 <= size /\ zlen acc.2 = acc.1 /\
  (forall i, 0 <= i < acc.1 -> acc.2 !! Z.to_nat i = view c (offset + i)) /\
  (acc.1 < size -> (pages_left c (offset + acc.1) <= c_mem c')%nat).

Lemma app_bytes (out bs : list Z) (f : Z -> option Z) off :
  (forall i, 0 <= i < zlen out -> out !! Z.to_nat i = f (off + i)) ->
  (forall i, 0 <= i < zlen bs -> bs !! Z.to_nat i = f (off + zlen out + i)) ->
  forall i, 0 <= i < zlen (out ++ bs) -> (out ++ bs) !! Z.to_nat i = f (off + i).
Proof.
  unfold zlen. rewrite length_app. intros H1 H2 i Hi. destruct (decide (i < Z.of_nat (length out))).
  - rewrite lookup_app_l by lia. apply H1; lia.
  - rewrite lookup_app_r by lia. replace (Z.to_nat i - length out)%nat with (Z.to_nat (i - Z.of_nat (length out))) by lia.
    rewrite H2 by lia. f_equal. lia.
Qed.

Lemma wp_read_page c c' offset size total out :
  read_so_far c c' offset size (total, out) -> 0 <= offset -> total < size -> size < 2 ^ 31 ->
  offset + size <= c_size c ->
  ((offset + total) mod block_size c = 0 -> size - total < block_size c) ->
  let cur := offset + total in
  wp (read_page o size (cur / block_size c) (cur mod block_size c) (total, out))
    (fun r c'' => exists acc, r = inl acc /\ total < acc.1 /\ read_so_far c c'' offset size acc) c'.
Proof.
  intros (Hsf & Htot & Hlen & Hby & Hmem) Ho Hlt Hs Hend Htail cur. cbn [fst snd] in *.
  specialize (Hmem Hlt). fold cur in Hmem, Htail. pose proof Hsf as [Hok Esz Ebs _ Erm Evw].
  pose proof (ck_bs _ Hok) as Hbs. pose proof (ck_size _ Hok) as Hsz. pose proof (ck_room _ Hok) as Hrm.
  rewrite Ebs in Hbs. rewrite Esz in Hsz. set (bs := block_size c) in *.
  set (id := cur / bs). set (inb := cur mod bs) in *.
  assert (Hcur : cur = id * bs + inb) by (pose proof (Z.div_mod cur bs ltac:(lia)); lia).
  pose proof (Z.mod_pos_bound cur bs ltac:(lia)) as Hinb. fold inb in Hinb.
  assert (Hid : 0 <= id) by (apply Z.div_pos; lia).
  unfold read_page. wp_steps.
  eapply wp_mono; [apply (wp_get_page_read c' id); try done; [rewrite Ebs, Esz; fold bs; lia | unfold pages_left in Hmem; destruct (_ =? 0); lia]|].
  cbn beta. intros _ c2 (p & -> & Hp & Hs2 & Hm2 & _). pose proof Hs2 as [Hok2 Esz2 Ebs2 _ Erm2 Evw2].
  pose proof (ck_page _ Hok2 id p Hp) as [P1 P2 P3 P4 P5]. rewrite Ebs2, Ebs in P2, P3, P4. rewrite Esz2, Esz in P2, P4.
  fold bs in P2, P3, P4. rewrite (proj2 (Z.leb_gt _ _)) by lia.
  set (k := if size - total <? page_size p - inb then size - total else page_size p - inb).
  assert (Hk : k = Z.min (size - total) (page_size p - inb)).
  { unfold k. destruct (Z.ltb_spec (size - total) (page_size p - inb)); lia. }
  rewrite (proj2 (Z.eqb_neq k 0)) by lia. wp_steps. apply wp_bytes_out; [lia.. |]. wp_steps.
  rewrite u32_small by lia. eexists. split; [reflexivity|]. cbn [fst snd].
  set (bytes := take _ _). assert (Hbl : zlen bytes = k).
  { unfold bytes, zlen in *. rewrite length_take, length_drop. lia. }
  split; [lia|]. unfold read_so_far. cbn [fst snd].
  split_and!; [by eapply same_file_trans | lia | lia | unfold zlen in *; rewrite length_app; lia | |].
  - intros i Hi. apply app_bytes; [rewrite Hlen; apply Hby | | unfold zlen in *; rewrite length_app; lia].
    rewrite Hlen, Hbl. intros j Hj. unfold bytes. rewrite lookup_take_lt, lookup_drop by lia.
    rewrite <- Evw, <- Evw2, (view_page c2 id p); try done;
      rewrite ?Ebs2, ?Ebs, ?Esz2, ?Esz; fold bs; try lia. f_equal. lia.
  - intros Hmore. assert (Hal : (offset + (total + k)) mod bs = 0).
    { replace (offset + (total + k)) with (0 + (id + 1) * bs) by lia. by rewrite Z.mod_add, Z.mod_0_l by lia. }
    unfold pages_left. fold bs. rewrite Hal. cbn. unfold pages_left in Hmem. fold bs inb in Hmem.
    destruct (Z.eqb_spec inb 0) as [E|]; [|lia]. specialize (Htail E). lia.
Qed.

Lemma wp_read_direct c c' offset size total out :
  read_so_far c c' offset size (total, out) -> 0 <= offset -> size < 2 ^ 31 -> offset + size <= c_size c ->
  let cur := offset + total in let bs := block_size c in let n := (size - total) / bs in
  cur mod bs = 0 -> bs <= size - total ->
  wp (for_ (Z.to_nat n) (cur / bs) (write_back o) ;;;
      c1 <-- kget ;;
      r <-- on_dev (the_read (c_size c1) cur (u32 (n * bs))) ;;
      if r.1 <? 0 then kret (inr (if 0 <? total then s32 total else r.1, out)) else
      kret (inl (u32 (total + r.1), out ++ r.2)))
    (fun r c'' => exists acc : Z * list Z, r = inl acc /\ total < acc.1 /\ read_so_far c c'' offset size acc) c'.
Proof.
  intros (Hsf & Htot & Hlen & Hby & Hmem) Ho Hs Hend cur bs n Hal Hbig. cbn [fst snd] in *.
  pose proof Hsf as [Hok Esz Ebs _ Erm Evw]. pose proof (ck_bs _ Hok) as Hbs. rewrite Ebs in Hbs. fold bs in Hbs, Ebs.
  specialize (Hmem ltac:(lia)). fold cur in Hmem. unfold pages_left in Hmem. fold bs in Hmem. rewrite Hal in Hmem. cbn in Hmem.
  assert (Hcur : cur = cur / bs * bs) by (pose proof (Z.div_mod cur bs ltac:(lia)); lia).
  set (id := cur / bs) in *. assert (Hid : 0 <= id) by (apply Z.div_pos; lia).
  assert (Hn : 1 <= n) by (apply Z.div_le_lower_bound; lia).
  assert (Hnb : n * bs <= size - total) by (pose proof (Z.mul_div_le (size - total) bs ltac:(lia)); lia).
  assert (Hrest : size - total < n * bs + bs).
  { pose proof (Z.div_mod (size - total) bs ltac:(lia)). pose proof (Z.mod_pos_bound (size - total) bs ltac:(lia)). lia. }
  wp_steps. apply (wp_for (fun j c1 => same_file c' c1 /\ (2 <= c_mem c1)%nat /\
    forall i, id <= i < j -> find_page i (cache_pages c1) = None)).
  - split_and!; [by apply same_file_refl | done | lia].
  - intros j c1 Hj (Hs1 & Hm1 & Hf1). rewrite Z2Nat.id in Hj by lia. pose proof Hs1 as [Hok1 Esz1 Ebs1 _ _ _].
    eapply wp_mono; [apply wp_write_back; [done | lia | rewrite Ebs1, Esz1, Ebs, Esz; nia]|].
    cbn beta. intros _ c2 (F1 & F2 & F3 & F4). split_and!; [by eapply same_file_trans | lia|].
    intros i Hi. destruct (decide (i = j)) as [->|]; [done|]. apply F2, Hf1. lia.
  - intros c1 (Hs1 & Hm1 & Hf1). rewrite Z2Nat.id in Hf1 by lia. wp_steps. unfold on_dev. wp_steps.
    rewrite (u32_small (n * bs)) by lia. pose proof Hs1 as [Hok1 Esz1 Ebs1 _ _ Evw1].
    assert (Hv : forall i, cur <= i < cur + n * bs -> view c i = stored (c_dev c1) i /\ is_Some (stored (c_dev c1) i)).
    { intros i Hi. rewrite <- Evw, <- Evw1. apply view_stored; [done | lia|]. rewrite Ebs1, Ebs. apply Hf1.
      split; [apply Z.div_le_lower_bound; lia | apply Z.div_lt_upper_bound; lia]. }
    eapply wp_mono; [apply law_read; [apply Hok1 | lia.. |intros i Hi; by apply Hv]|].
    cbn beta. intros [r bytes] d' (Hsame & -> & Hbl & Hbytes). cbn [fst snd] in *.
    rewrite (proj2 (Z.ltb_ge _ _)) by lia. wp_steps. eexists. split; [reflexivity|]. cbn [fst snd].
    rewrite u32_small by lia. split; [lia|]. unfold read_so_far. cbn [fst snd]. split_and!; [|lia|lia|..].
    + eapply same_file_trans; [exact Hsf|]. eapply same_file_trans; [exact Hs1|]. by apply set_dev_same.
    + unfold zlen in *. rewrite length_app. lia.
    + intros i Hi. apply app_bytes; [rewrite Hlen; apply Hby | | unfold zlen in *; rewrite length_app; lia].
      rewrite Hlen, Hbl. intros j Hj. rewrite Hbytes by done. symmetry. apply Hv. lia.
    + intros _. unfold pages_left. fold bs. replace (offset + (total + n * bs)) with (0 + (id + n) * bs) by lia.
      rewrite Z.mod_add, Z.mod_0_l by lia. cbn. exact Hm1.
Qed.

Lemma wp_read_turn c c' offset size acc :
  read_so_far c c' offset size acc -> 0 <= offset -> size < 2 ^ 31 -> offset + size <= c_size c ->
  wp (read_turn o offset size acc)
    (fun r c'' => match r with
                  | inl acc' => acc.1 < acc'.1 /\ read_so_far c c'' offset size acc'
                  | inr x => x = acc /\ acc.1 = size /\ same_file c c''
                  end) c'.
Proof.
  destruct acc as [total out]. intros Hso Ho Hs Hend. unfold read_turn.
  pose proof Hso as (Hsf & Htot & _). cbn [fst snd] in *.
  destruct (Z.ltb_spec total size) as [Hlt|]; cbn [negb]; wp_steps.
  2:{ rewrite s32_small by lia. split_and!; [done | lia | done]. }
  pose proof Hsf as [Hok Esz Ebs _ _ _]. pose proof (ck_bs _ Hok) as Hbs. pose proof (ck_size _ Hok) as Hsz.
  pose proof (ck_room _ Hok) as Hrm. rewrite Ebs in *. rewrite Esz in Hsz.
  rewrite (u64_small (offset + total)) by lia. set (cur := offset + total).
  pose proof (Z.mod_pos_bound cur (block_size c) ltac:(lia)) as Hinb. rewrite (u32_small (cur mod _)) by lia.
  destruct ((cur mod block_size c =? 0) && (block_size c <=? size - total)) eqn:E.
  - rewrite law_has_read. zbool. eapply wp_mono; [by apply (wp_read_direct c c' offset size total out)|].
    cbn beta. intros r c2 (acc & -> & H1 & H2). done.
  - eapply wp_mono; [apply (wp_read_page c c' offset size total out); try done|].
    + intros E1. fold cur in E1. rewrite E1, Z.eqb_refl in E. cbn in E. zbool. lia.
    + cbn beta. intros r c2 (acc & -> & H1 & H2). done.
Qed.

(** C8: [vfs_read] reads the file.  Over any driver that keeps its laws, with
    the cache in a valid state and memory for at most two pages, a read
    returns exactly the bytes of the file from [offset] up to the end of the
    range or of the file, whatever mixture of cached pages, dirty pages and
    direct transfers serves it; the file itself does not change. *)
Theorem vfs_read_correct c offset size :
  cache_ok c -> 0 <= offset < 2 ^ 63 -> 0 < size < 2 ^ 31 -> (4 <= c_mem c)%nat ->
  wp (vfs_read o offset size)
    (fun r c' => r.1 = Z.max 0 (Z.min size (c_size c - offset)) /\ zlen r.2 = r.1 /\
       (forall i, 0 <= i < r.1 -> r.2 !! Z.to_nat i = view c (offset + i)) /\ same_file c c') c.
Proof.
  intros Hok Ho Hs Hmem. pose proof Hok as [H1 H2 H3 H4 H5 H6 H7]. unfold vfs_read. wp_steps.
  rewrite (proj2 (Z.eqb_neq size 0)), (proj2 (Z.eqb_neq (block_size c) 0)) by lia.
  destruct (Z.leb_spec (c_size c) offset); wp_steps.
  { cbn [fst snd]. split_and!; [lia | done | intros; lia | by apply same_file_refl]. }
  rewrite (u64_small (offset + size)) by lia.
  set (n := if c_size c <? offset + size then u32 (c_size c - offset) else size).
  assert (Hn : n = Z.min size (c_size c - offset)).
  { unfold n. destruct (Z.ltb_spec (c_size c) (offset + size)); [rewrite u32_small|]; lia. }
  unfold run_turns. wp_steps.
  apply (wp_loop (fun j acc c' => j <= acc.1 /\ read_so_far c c' offset n acc)).
  - cbn [fst]. split; [done|]. unfold read_so_far. cbn [fst snd].
    split_and!; [by apply same_file_refl | lia | lia | done | intros; lia|].
    intros _. unfold pages_left. destruct (_ =? 0); lia.
  - intros j acc c' _ [Hj Hso]. eapply wp_mono; [apply (wp_read_turn c); [done | lia | lia | lia]|].
    cbn beta. intros [acc'|x] c2 Hr; [split; [lia | apply Hr]|]. destruct Hr as (-> & Hend & Hsf).
    wp_steps. destruct Hso as (_ & _ & Hl & Hb & _). split_and!; [lia | done | done | done].
  - intros acc c' [Hj (_ & Hle & _)]. lia.
Qed.

(** ** Writing *)

(** The file after [bytes] were written at [off]. *)
Definition rewritten (c : cnode D) (off : Z) (bytes : list Z) (i : Z) : option Z :=
  if decide (off <= i < off + zlen bytes) then bytes !! Z.to_nat (i - off) else view c i.

(** [c'] is [c] with [bytes] written at [off]. *)
Record wrote (c c' : cnode D) (off : Z) (bytes : list Z) : Prop := {
  wr_ok : cache_ok c';
  wr_size : c_size c' = Z.max (c_size c) (off + zlen bytes);
  wr_bs : block_size c' = block_size c;
  wr_flags : c_flags c' = c_flags c;
  wr_room : dr_room (c_dev c') = dr_room (c_dev c);
  wr_view : forall i, view c' i = rewritten c off bytes i
}.

(** Beyond a block that the end of the file is in, or that a write starting
    inside the file touches, there are no other partial pages. *)
Lemma page_size_stable c id q j p size' :
  cache_ok c -> find_page j (cache_pages c) = Some p -> j <> id ->
  id * block_size c <= c_size c -> c_size c <= size' ->
  (size' = c_size c \/ size' <= q /\ c_size c < q /\ q <= id * block_size c + block_size c) ->
  j * block_size c < size' /\ page_size p = Z.min (block_size c) (size' - j * block_size c).
Proof.
  intros Hok Hp Hj Hid Hle Hq. pose proof (ck_page _ Hok j p Hp) as [P1 P2 P3 P4 P5].
  pose proof (ck_bs _ Hok) as Hbs. split; [lia|]. destruct Hq as [-> | (H1 & H2 & H3)]; [done|].
  assert (j < id) by nia. nia.
Qed.

Lemma page_written c c' id inb bytes q :
  cache_ok c -> 0 <= id -> 0 <= inb -> 0 < zlen bytes -> inb + zlen bytes <= block_size c ->
  let st := id * block_size c in let cur := st + inb in
  cur <= c_size c -> cur + zlen bytes <= dr_room (c_dev c) ->
  block_size c' = block_size c -> c_flags c' = c_flags c ->
  c_size c' = Z.max (c_size c) (cur + zlen bytes) -> dr_same (c_dev c) (c_dev c') ->
  NoDup (map block_id (cache_pages c')) ->
  (forall j, find_page j (cache_pages c') = if decide (j = id) then Some q else find_page j (cache_pages c)) ->
  dirty q = true -> zlen (buffer q) = block_size c ->
  page_size q = Z.min (block_size c) (c_size c' - st) ->
  (forall i, 0 <= i < page_size q -> buffer q !! Z.to_nat i = rewritten c cur bytes (st + i)) ->
  wrote c c' cur bytes.
Proof.
  intros Hok Hid Hinb Hlen Hin st cur Hcur Hroom Ebs Efl Esz (D1 & D2 & D3) Hnd Hfind Hq1 Hq2 Hq3 Hq4.
  pose proof Hok as [H1 H2 H3 H4 H5 H6 H7].
  assert (Hblk : forall i, st <= i < st + block_size c <-> i / block_size c = id) by (intros i; apply div_block; lia).
  assert (Hok' : cache_ok c').
  { split; rewrite ?Ebs, ?D2, ?Esz; try done; [lia| |].
    - intros j p. rewrite Hfind. case_decide as Ej.
      + subst j. intros [= <-]. split; rewrite ?Ebs, ?Esz; fold st; try done; [lia | by rewrite Hq3, Esz | congruence].
      + intros Hp. pose proof (H6 j p Hp) as [P1 P2 P3 P4 P5].
        destruct (page_size_stable c id (cur + zlen bytes) j p (c_size c') Hok Hp Ej) as [S1 S2]; [fold st; lia | lia | fold st; lia|].
        split; rewrite ?Ebs; try done. intros Hd i Hi. rewrite D3. by apply P5.
    - intros i Hi. rewrite Hfind. case_decide as Ej; [done|]. rewrite D3. intros Hf.
      apply H7; [|done]. split; [lia|]. destruct (decide (i < c_size c)); [done|]. exfalso. apply Ej, Hblk. lia. }
  split; try done. intros i. unfold rewritten. destruct (decide (0 <= i < c_size c')) as [Hi|Hi].
  2:{ rewrite decide_False by lia. unfold view.
      destruct (Z.leb_spec 0 i), (Z.ltb_spec i (c_size c')), (Z.ltb_spec i (c_size c)); cbn; done || lia. }
  destruct (decide (i / block_size c = id)) as [E|E].
  - pose proof (proj2 (Hblk i) E) as Hb.
    rewrite (view_page c' id q); [|done|by rewrite Hfind, decide_True | rewrite Ebs; fold st; lia | lia].
    rewrite Ebs. fold st. rewrite Hq4 by lia. unfold rewritten. by replace (st + (i - st)) with i by lia.
  - rewrite decide_False by (intros Hx; apply E, Hblk; lia).
    assert (i < c_size c).
    { destruct (decide (i < c_size c)); [done|]. exfalso. apply E, Hblk. lia. }
    unfold view. rewrite Ebs, Hfind, decide_False by done.
    rewrite (proj2 (Z.leb_le 0 i)), !(proj2 (Z.ltb_lt i _)) by lia. cbn.
    destruct (find_page _ _); [done | apply D3].
Qed.

(** The state with the bytes in the page of their block. *)
Definition stored_in_page (c1 : cnode D) (q : vfs_page) (e : Z) : cnode D :=
  let c2 := set_cache_pages (put_page q (cache_pages c1)) c1 in
  if c_size c2 <? e then set_c_size e c2 else c2.

(** The bytes go to a page that mirrors the block. *)
Lemma write_cached c c1 id inb bytes p buf :
  cache_ok c -> same_file c c1 -> dr_same (c_dev c) (c_dev c1) ->
  0 <= id -> 0 <= inb -> 0 < zlen bytes -> inb + zlen bytes <= block_size c ->
  let cur := id * block_size c + inb in
  cur <= c_size c -> cur + zlen bytes <= dr_room (c_dev c) ->
  find_page id (cache_pages c1) = Some p ->
  (forall j, j <> id -> find_page j (cache_pages c1) = find_page j (cache_pages c)) ->
  spliced (buffer p) inb bytes buf ->
  wrote c (stored_in_page c1 (Page id buf (Z.max (page_size p) (inb + zlen bytes)) true) (cur + zlen bytes)) cur bytes.
Proof.
  intros Hok Hsf Hdr Hid Hinb Hlen Hin cur Hcur Hroom Hp Hoth [Hbl Hbuf].
  pose proof Hsf as [Hok1 Esz Ebs Efl _ Evw]. pose proof (ck_page _ Hok1 id p Hp) as [P1 P2 P3 P4 P5].
  rewrite Ebs in P2, P3, P4. rewrite Esz in P2, P4. pose proof (ck_bs _ Hok) as Hbs.
  set (q := Page _ _ _ _). set (c' := stored_in_page _ _ _).
  assert (Hpg : cache_pages c' = put_page q (cache_pages c1)) by (unfold c', stored_in_page; by case_if).
  assert (Hsz : c_size c' = Z.max (c_size c) (cur + zlen bytes)).
  { unfold c', stored_in_page. cbn [c_size set_cache_pages]. rewrite Esz.
    destruct (Z.ltb_spec (c_size c) (cur + zlen bytes)); cbn; lia. }
  apply (page_written c c' id inb bytes q); try done.
  - unfold c', stored_in_page. by case_if.
  - unfold c', stored_in_page. by case_if.
  - unfold c', stored_in_page. by case_if.
  - rewrite Hpg, put_page_ids. apply Hok1.
  - intros j. rewrite Hpg, find_put. cbn [block_id q]. case_decide as E; [subst j; by rewrite Hp | by apply Hoth].
  - cbn. by rewrite Hbl.
  - rewrite Hsz. cbn [page_size q]. fold cur. unfold cur. lia.
  - cbn [page_size q buffer]. intros i Hi. rewrite Hbuf. unfold rewritten. fold cur.
    destruct (decide (inb <= Z.of_nat (Z.to_nat i) < inb + zlen bytes)).
    + rewrite decide_True by lia. f_equal. unfold cur. lia.
    + rewrite decide_False by lia. rewrite <- Evw, (view_page c1 id p); try done; rewrite ?Ebs, ?Esz; try lia.
      f_equal. lia.
Qed.

(** The bytes go to a fresh page: they fill the block from its start up to its
    end or to the end of the file. *)
Lemma write_fresh c c1 id bytes junk buf :
  cache_ok c -> cache_pages c1 = Page id junk 0 false :: cache_pages c ->
  c_size c1 = c_size c -> block_size c1 = block_size c -> c_flags c1 = c_flags c -> c_dev c1 = c_dev c ->
  0 <= id -> 0 < zlen bytes -> zlen bytes <= block_size c ->
  let cur := id * block_size c in
  cur <= c_size c -> cur + zlen bytes <= dr_room (c_dev c) ->
  find_page id (cache_pages c) = None -> zlen junk = block_size c ->
  zlen bytes = block_size c \/ c_size c <= cur ->
  spliced junk 0 bytes buf ->
  wrote c (stored_in_page c1 (Page id buf (zlen bytes) true) (cur + zlen bytes)) cur bytes.
Proof.
  intros Hok Hpg1 Esz Ebs Efl Edv Hid Hlen Hin cur Hcur Hroom Hp Hjunk Hfit [Hbl Hbuf].
  pose proof Hok as [H1 H2 H3 H4 H5 H6 H7].
  set (q := Page _ _ _ _). set (c' := stored_in_page _ _ _).
  assert (Hpg : cache_pages c' = q :: cache_pages c).
  { unfold c', stored_in_page. case_if; cbn; rewrite Hpg1; cbn; by rewrite Z.eqb_refl. }
  assert (Hsz : c_size c' = Z.max (c_size c) (cur + zlen bytes)).
  { unfold c', stored_in_page. cbn [c_size set_cache_pages]. rewrite Esz.
    destruct (Z.ltb_spec (c_size c) (cur + zlen bytes)); cbn; lia. }
  replace cur with (cur + 0) by lia.
  apply (page_written c c' id 0 bytes q); try done; rewrite ?Z.add_0_r; fold cur; try done.
  - unfold c', stored_in_page. by case_if.
  - unfold c', stored_in_page. by case_if.
  - unfold c', stored_in_page. case_if; cbn; by rewrite Edv.
  - rewrite Hpg. cbn. apply NoDup_cons. split; [by apply find_page_none | done].
  - intros j. rewrite Hpg. cbn. destruct (Z.eqb_spec id j); [by rewrite decide_True | by rewrite decide_False by congruence].
  - cbn. by rewrite Hbl.
  - rewrite Hsz. cbn [page_size q]. lia.
  - cbn [page_size q buffer]. intros i Hi. rewrite Hbuf. unfold rewritten.
    rewrite !decide_True by lia. f_equal. lia.
Qed.

Section write_page.
Context (c : cnode D) (cur total : Z) (src : list Z).
Let bs : Z := block_size c.
Let id : Z := cur / bs.
Let inb : Z := cur mod bs.
Let k : Z := Z.min (zlen src - total) (bs - inb).
Let bytes : list Z := take (Z.to_nat k) (drop (Z.to_nat total) src).
Hypothesis Hok : cache_ok c.
Hypothesis Ht : 0 <= total < zlen src.
Hypothesis Hs : zlen src < 2 ^ 31.
Hypothesis Hc : 0 <= cur <= c_size c.
Hypothesis Hroom : cur + (zlen src - total) <= dr_room (c_dev c).

Lemma turn_facts :
  0 < bs < 2 ^ 31 /\ cur = id * bs + inb /\ 0 <= inb < bs /\ 0 <= id /\ zlen bytes = k /\ 0 < k /\ c_size c < 2 ^ 63 /\
  cur + k < 2 ^ 63.
Proof.
  pose proof (ck_bs _ Hok) as Hbs. fold bs in Hbs. pose proof (Z.mod_pos_bound cur bs ltac:(lia)) as Hinb.
  pose proof (Z.div_mod cur bs ltac:(lia)). pose proof (ck_size _ Hok). pose proof (ck_room _ Hok).
  unfold bytes, zlen in *. rewrite length_take, length_drop. fold inb in Hinb.
  split_and!; try done; try lia. apply Z.div_pos; lia.
Qed.

(** What one turn through the cache leaves behind. *)
Definition turned (r : Z + Z) (c' : cnode D) : Prop :=
  r = inl (total + k) /\ wrote c c' cur bytes /\ (c_mem c <= c_mem c' + 2)%nat.

Lemma wp_put_bytes p :
  forall c1, (c_mem c <= c_mem c1 + 2)%nat -> zlen (buffer p) = bs ->
  (forall buf n, spliced (buffer p) inb bytes buf -> n = Z.max (page_size p) (inb + k) ->
     wrote c (stored_in_page c1 (Page id buf n true) (cur + k)) cur bytes) ->
  wp (put_bytes cur id inb k src total p) turned c1.
Proof.
  destruct turn_facts as (F1 & F2 & F3 & F4 & F5 & F6 & F7 & F8). intros c1 Hm1 Hbl Hw.
  unfold put_bytes. wp_steps. apply wp_bytes_out; [lia.. |]. fold bytes. wp_steps.
  apply wp_bytes_in; [lia | lia|]. intros buf Hbuf. wp_steps.
  rewrite !(u32_small (inb + k)), (u32_small (total + k)), !(u64_small (cur + k)) by lia.
  split; [done|]. split.
  - apply Hw; [done|]. destruct (Z.ltb_spec (page_size p) (inb + k)); lia.
  - cbn [c_size set_cache_pages]. case_if; cbn; lia.
Qed.

Lemma wp_put_mirrored c1 p : mirrored c c1 id p -> wp (put_bytes cur id inb k src total p) turned c1.
Proof.
  destruct turn_facts as (F1 & F2 & F3 & F4 & F5 & F6 & F7 & F8). intros (Hp & Hsf & Hm & Hdr & Hoth).
  pose proof (po_len _ _ _ (ck_page _ (sf_ok _ _ Hsf) id p Hp)) as Hlen. rewrite (sf_bs _ _ Hsf) in Hlen.
  apply wp_put_bytes; [done | done|]. intros buf n Hbuf ->. rewrite <- F5.
  rewrite F2. apply (write_cached c c1 id inb bytes p buf); try done; fold bs; lia.
Qed.

(** A fresh page that nothing is read into. *)
Lemma wp_get_page_fresh : find_page id (cache_pages c) = None -> (2 <= c_mem c)%nat ->
  inb = 0 -> k = bs \/ c_size c <= cur ->
  wp (vfs_get_or_create_page o id false)
    (fun r c1 => exists p, r = Some p /\ wp (put_bytes cur id inb k src total p) turned c1) c.
Proof.
  destruct turn_facts as (F1 & F2 & F3 & F4 & F5 & F6 & F7 & F8). intros Hf Hmem Hi0 Hfit.
  unfold vfs_get_or_create_page. wp_steps. fold bs. rewrite (proj2 (Z.eqb_neq bs 0)) by lia. rewrite Hf.
  unfold c_alloc. wp_steps. destruct (c_mem c) as [|[|m]] eqn:Em; [lia | lia|]. wp_steps. cbn [negb]. wp_steps.
  cbn [c_mem set_c_mem]. wp_steps. cbn [negb]. wp_steps. eexists. split; [reflexivity|].
  assert (Hjunk : zlen (map (c_stale c) (seqZ 0 bs)) = bs) by (unfold zlen; rewrite length_map, length_seqZ; lia).
  apply wp_put_bytes; [cbn; lia | done|]. intros buf n Hbuf ->. cbn [page_size]. rewrite Hi0 in *.
  replace (Z.max 0 (0 + k)) with (zlen bytes) by lia. rewrite <- F5.
  replace cur with (id * block_size c) by (fold bs; lia).
  eapply (write_fresh c _ id bytes); try done; fold bs; try lia.
Qed.

Lemma wp_write_page original : (2 <= c_mem c)%nat ->
  (original <= id * bs -> inb = 0 /\ c_size c <= cur) -> (id * bs < original -> id * bs < c_size c) ->
  wp (write_page o original cur id inb src total) turned c.
Proof.
  destruct turn_facts as (F1 & F2 & F3 & F4 & F5 & F6 & F7 & F8). intros Hmem Horig Horig'.
  unfold write_page. wp_steps. fold bs.
  replace (if zlen src - total <? bs - inb then _ else _) with k.
  2:{ unfold k. destruct (Z.ltb_spec (zlen src - total) (bs - inb)); lia. }
  rewrite (u64_small (id * bs)) by lia. set (ler := if _ && _ then false else _).
  destruct (find_page id (cache_pages c)) as [p|] eqn:Ef.
  { unfold vfs_get_or_create_page. wp_steps. fold bs. rewrite (proj2 (Z.eqb_neq bs 0)) by lia. rewrite Ef. wp_steps.
    apply wp_put_mirrored. split_and!; [done | by apply same_file_refl | lia | | done].
    by split_and!; [apply Hok | |]. }
  destruct ler eqn:Eler; subst ler.
  - destruct ((inb =? 0) && (k =? bs)); [done|]. zbool. eapply wp_mono; [by apply (wp_get_page_read c id); auto|].
    cbn beta. intros _ c1 (p & -> & Hm). by apply wp_put_mirrored.
  - eapply wp_mono; [apply wp_get_page_fresh; try done|].
    + destruct ((inb =? 0) && (k =? bs)) eqn:E; zbool; [done | by apply Horig].
    + destruct ((inb =? 0) && (k =? bs)) eqn:E; zbool; [by left | right; by apply Horig].
    + cbn beta. by intros _ c1 (p & -> & Hw).
Qed.

End write_page.

(** Whole blocks written straight to the driver, their pages dropped. *)
Lemma direct_written c c' id n bytes :
  cache_ok c -> 0 <= id -> 0 < n -> zlen bytes = n * block_size c ->
  let cur := id * block_size c in
  cur <= c_size c -> cur + zlen bytes <= dr_room (c_dev c) ->
  block_size c' = block_size c -> c_flags c' = c_flags c -> c_size c' = Z.max (c_size c) (cur + zlen bytes) ->
  NoDup (map block_id (cache_pages c')) ->
  (forall j, find_page j (cache_pages c') = if decide (id <= j < id + n) then None else find_page j (cache_pages c)) ->
  dr_ok (c_dev c') -> dr_room (c_dev c') = dr_room (c_dev c) ->
  (forall i, cur <= i < cur + zlen bytes -> stored (c_dev c') i = bytes !! Z.to_nat (i - cur)) ->
  (forall i b, ~ (cur <= i < cur + zlen bytes) -> stored (c_dev c) i = Some b -> stored (c_dev c') i = Some b) ->
  wrote c c' cur bytes.
Proof.
  intros Hok Hid Hn Hlen cur Hcur Hroom Ebs Efl Esz Hnd Hfind D1 D2 D3 D4.
  pose proof Hok as [H1 H2 H3 H4 H5 H6 H7].
  assert (Hblk : forall i, cur <= i < cur + zlen bytes <-> id <= i / block_size c < id + n).
  { intros i. pose proof (Z.div_mod i (block_size c) ltac:(lia)).
    pose proof (Z.mod_pos_bound i (block_size c) ltac:(lia)). unfold cur. split; intros; nia. }
  assert (Hok' : cache_ok c').
  { split; rewrite ?Ebs, ?D2, ?Esz; try done; [lia| |].
    - intros j p. rewrite Hfind. case_decide as Ej; [done|]. intros Hp. pose proof (H6 j p Hp) as [P1 P2 P3 P4 P5].
      split; rewrite ?Ebs, ?Esz; try done; [lia | rewrite P4; unfold cur in *; nia|].
      intros Hd i Hi. destruct (lookup_lt_is_Some_2 (buffer p) (Z.to_nat i)) as [b Hb]; [unfold zlen in *; lia|].
      rewrite Hb. symmetry. apply D4; [|by rewrite <- Hb, P5]. rewrite Hblk.
      by rewrite (proj1 (div_block (block_size c) (j * block_size c + i) j ltac:(lia))) by lia.
    - intros i Hi. rewrite Hfind. destruct (decide (cur <= i < cur + zlen bytes)) as [Hx|Hx].
      + intros _. rewrite D3 by done. apply lookup_lt_is_Some. unfold zlen in *. lia.
      + rewrite decide_False by (by rewrite <- Hblk). intros Hf. destruct (H7 i ltac:(lia) Hf) as [b Hb]. exists b. by apply D4. }
  split; try done. intros i. unfold rewritten. case_decide as Hx.
  - unfold view. rewrite Ebs, Hfind, decide_True by by apply Hblk.
    rewrite (proj2 (Z.leb_le 0 i)), (proj2 (Z.ltb_lt i _)) by (unfold cur in *; nia). cbn. by apply D3.
  - unfold view. rewrite Ebs, Hfind, decide_False by by rewrite <- Hblk.
    destruct (decide (0 <= i < c_size c)) as [Hi|Hi].
    + rewrite (proj2 (Z.leb_le 0 i)), !(proj2 (Z.ltb_lt i _)) by lia. cbn.
      destruct (find_page (i / block_size c) (cache_pages c)) eqn:Ef; [done|].
      destruct (H7 i Hi Ef) as [b Hb]. rewrite Hb. by apply D4.
    + destruct (Z.leb_spec 0 i), (Z.ltb_spec i (c_size c')), (Z.ltb_spec i (c_size c)); cbn; done || lia.
Qed.

Lemma wp_invalidate_run c id n :
  cache_ok c ->
  wp (for_ n id vfs_invalidate_cache_page)
    (fun _ c' => c_size c' = c_size c /\ block_size c' = block_size c /\ c_flags c' = c_flags c /\
       c_dev c' = c_dev c /\ (c_mem c <= c_mem c')%nat /\ NoDup (map block_id (cache_pages c')) /\
       forall j, find_page j (cache_pages c') =
         if decide (id <= j < id + Z.of_nat n) then None else find_page j (cache_pages c)) c.
Proof.
  intros Hok. apply (wp_for (fun m c' => c_size c' = c_size c /\ block_size c' = block_size c /\
    c_flags c' = c_flags c /\ c_dev c' = c_dev c /\ (c_mem c <= c_mem c')%nat /\ NoDup (map block_id (cache_pages c')) /\
    forall j, find_page j (cache_pages c') = if decide (id <= j < m) then None else find_page j (cache_pages c))).
  - split_and!; try done; [apply Hok|]. intros j. by rewrite decide_False by lia.
  - intros m c1 Hm (E1 & E2 & E3 & E4 & E5 & E6 & E7). unfold vfs_invalidate_cache_page, c_free. wp_steps.
    destruct (find_page m (cache_pages c1)) as [p|] eqn:Ef; wp_steps; cbn; split_and!; try done; try lia.
    + by apply drop_page_nodup.
    + intros j. rewrite find_drop by done. case_decide as Ej; [by rewrite decide_True by lia|].
      rewrite E7. by destruct (decide (id <= j < m)), (decide (id <= j < m + 1)); try lia.
    + intros j. destruct (decide (j = m)) as [->|]; [by rewrite Ef, decide_True by lia|].
      rewrite E7. by destruct (decide (id <= j < m)), (decide (id <= j < m + 1)); try lia.
  - done.
Qed.

Lemma wp_write_direct c src total cur :
  cache_ok c -> 0 <= total < zlen src -> zlen src < 2 ^ 31 -> 0 <= cur <= c_size c ->
  cur + (zlen src - total) <= dr_room (c_dev c) ->
  let bs := block_size c in let n := (zlen src - total) / bs in let k := n * bs in
  cur mod bs = 0 -> bs <= zlen src - total ->
  wp (for_ (Z.to_nat n) (cur / bs) vfs_invalidate_cache_page ;;;
      c <-- kget ;;
      bytes <-- bytes_out src total (u32 (n * bs)) ;;
      r <-- on_dev (the_write (c_size c) cur bytes) ;;
      kmodify (set_c_size r.2) ;;;
      if r.1 <? 0 then kret (inr (if 0 <? total then s32 total else r.1)) else
      kmodify (fun c => if c_size c <? u64 (cur + r.1) then set_c_size (u64 (cur + r.1)) c else c) ;;;
      kret (inl (u32 (total + r.1))))
    (fun r c' => r = inl (total + k) /\ 0 < k <= zlen src - total /\ zlen src - total < k + bs /\ k mod bs = 0 /\
       wrote c c' cur (take (Z.to_nat k) (drop (Z.to_nat total) src)) /\
       (c_mem c <= c_mem c')%nat) c.
Proof.
  intros Hok Ht Hs Hc Hroom bs n k Hal Hbig. pose proof Hok as [H1 H2 H3 H4 H5 H6 H7]. fold bs in H1.
  assert (Hcur : cur = cur / bs * bs) by (pose proof (Z.div_mod cur bs ltac:(lia)); lia).
  set (id := cur / bs) in *. assert (Hid : 0 <= id) by (apply Z.div_pos; lia).
  assert (Hn : 1 <= n) by (apply Z.div_le_lower_bound; lia).
  assert (Hk : 0 < k <= zlen src - total) by (pose proof (Z.mul_div_le (zlen src - total) bs ltac:(lia)); unfold k, n in *; nia).
  assert (Hrest : zlen src - total < k + bs).
  { pose proof (Z.div_mod (zlen src - total) bs ltac:(lia)). pose proof (Z.mod_pos_bound (zlen src - total) bs ltac:(lia)).
    unfold k, n. lia. }
  set (bytes := take (Z.to_nat k) (drop (Z.to_nat total) src)).
  assert (Hbl : zlen bytes = k) by (unfold bytes, zlen in *; rewrite length_take, length_drop; lia).
  wp_steps. eapply wp_mono; [by apply (wp_invalidate_run c)|].
  cbn beta. intros _ c1 (E1 & E2 & E3 & E4 & E5 & E6 & E7). rewrite Z2Nat.id in E7 by lia. wp_steps.
  fold k. rewrite (u32_small k) by lia. apply wp_bytes_out; [lia.. |]. fold bytes. unfold on_dev. wp_steps.
  eapply wp_mono; [apply law_write; rewrite ?E4; try done; lia|]. cbn beta.
  intros [r sz] d' (K1 & K2 & K3 & K4 & K5 & K6). cbn [fst snd] in *. rewrite K3, Hbl.
  rewrite (proj2 (Z.ltb_ge k 0)) by lia. wp_steps.
  rewrite (u32_small (total + k)), (u64_small (cur + k)) by lia. split_and!; try done; try lia.
  - unfold k. apply Z.mod_mul. lia.
  - rewrite Hcur. apply (direct_written c _ id n bytes); try done; rewrite <- ?Hcur; try lia;
      cbn [c_size set_c_size]; try (case_if; done).
    + case_if; cbn; lia.
    + case_if; cbn; by rewrite K2, E4.
    + fold bs. rewrite <- Hcur. case_if; [exact K5 | exact K5].
    + fold bs. rewrite <- Hcur. rewrite E4 in K6. case_if; exact K6.
  - case_if; cbn; lia.
Qed.

Lemma wrote_nil c off : cache_ok c -> off <= c_size c -> wrote c c off [].
Proof.
  intros Hok Ho. split; try done; [change (zlen (@nil Z)) with 0; lia|]. intros i. unfold rewritten. by rewrite decide_False by (change (zlen (@nil Z)) with 0; lia).
Qed.

Lemma wrote_app c c' c'' off b1 b2 :
  wrote c c' off b1 -> wrote c' c'' (off + zlen b1) b2 -> wrote c c'' off (b1 ++ b2).
Proof.
  intros [W1 W2 W3 W4 W5 W6] [V1 V2 V3 V4 V5 V6].
  assert (Hl : zlen (b1 ++ b2) = zlen b1 + zlen b2) by (unfold zlen; rewrite length_app; lia).
  pose proof (zlen_nonneg b1). pose proof (zlen_nonneg b2).
  split; [done | rewrite V2, W2, Hl; lia | congruence.. |].
  intros i. rewrite V6. unfold rewritten. rewrite W6. unfold rewritten. rewrite Hl.
  destruct (decide (off + zlen b1 <= i < off + zlen b1 + zlen b2)).
  - rewrite decide_True by lia. rewrite lookup_app_r by (unfold zlen in *; lia). f_equal. unfold zlen in *. lia.
  - destruct (decide (off <= i < off + zlen b1)).
    + rewrite decide_True by lia. by rewrite lookup_app_l by (unfold zlen in *; lia).
    + by rewrite decide_False by lia.
Qed.

(** The progress of a write: [total] bytes are in the file. *)
Definition wrote_so_far (c c' : cnode D) (offset : Z) (src : list Z) (total : Z) : Prop :=
  0 <= total <= zlen src /\ wrote c c' offset (take (Z.to_nat total) src) /\
  (total = 0 \/ (offset + total) mod block_size c = 0 \/ total = zlen src) /\
  (total < zlen src -> (pages_left c (offset + total) <= c_mem c')%nat).

Lemma take_more (src : list Z) (a k : Z) : 0 <= a -> 0 <= k ->
  take (Z.to_nat a) src ++ take (Z.to_nat k) (drop (Z.to_nat a) src) = take (Z.to_nat (a + k)) src.
Proof. intros Ha Hk. rewrite take_take_drop. f_equal. lia. Qed.

Lemma wp_write_turn c c' offset src total :
  cache_ok c -> wrote_so_far c c' offset src total -> 0 <= offset <= c_size c ->
  offset + zlen src <= dr_room (c_dev c) -> zlen src < 2 ^ 31 ->
  wp (write_turn o (c_size c) offset src total)
    (fun r c'' => match r with
                  | inl total' => total < total' /\ wrote_so_far c c'' offset src total'
                  | inr x => x = zlen src /\ wrote c c'' offset src
                  end) c'.
Proof.
  intros Hok0 (Htot & Hw & Hal & Hmem) Ho Hroom Hs. unfold write_turn.
  assert (Hlt : zlen (take (Z.to_nat total) src) = total) by (unfold zlen in *; rewrite length_take; lia).
  destruct (Z.ltb_spec total (zlen src)) as [Hlt'|]; cbn [negb]; wp_steps.
  2:{ assert (total = zlen src) as -> by lia. rewrite s32_small by lia. split; [done|].
      rewrite take_ge in Hw by (unfold zlen; lia). done. }
  pose proof Hw as [Hok Esz Ebs _ Erm _]. rewrite Hlt in Esz. specialize (Hmem Hlt').
  pose proof (ck_bs _ Hok) as Hbs. pose proof (ck_size _ Hok) as Hsz. pose proof (ck_room _ Hok) as Hrm.
  rewrite (u64_small (offset + total)) by lia. set (cur := offset + total) in *.
  pose proof (Z.mod_pos_bound cur (block_size c') ltac:(lia)) as Hinb. rewrite (u32_small (cur mod _)) by lia.
  assert (Hcur : cur = cur / block_size c' * block_size c' + cur mod block_size c').
  { pose proof (Z.div_mod cur (block_size c') ltac:(lia)). lia. }
  assert (Hnext : forall c2 k, 0 < k <= zlen src - total ->
    wrote c' c2 cur (take (Z.to_nat k) (drop (Z.to_nat total) src)) ->
    wrote c c2 offset (take (Z.to_nat (total + k)) src)).
  { intros c2 k Hk Hw2. rewrite <- take_more by lia. apply (wrote_app c c'); [done|]. by rewrite Hlt. }
  destruct ((cur mod block_size c' =? 0) && (block_size c' <=? zlen src - total)) eqn:E.
  - rewrite law_has_write. zbool. eapply wp_mono; [apply (wp_write_direct c' src total cur); try done; lia|].
    cbn beta. intros r c2 (-> & Hk & Hk' & Hkm & Hw2 & Hm2). split; [lia|]. rewrite Ebs in *.
    assert (Hal2 : (offset + (total + (zlen src - total) / block_size c * block_size c)) mod block_size c = 0).
    { rewrite Z.add_assoc. fold cur. rewrite Z.mod_add by lia. done. }
    split_and!; [lia | lia | by apply Hnext | by right; left|].
    intros _. unfold pages_left in Hmem |- *. rewrite Hal2. cbn. destruct (_ =? 0); lia.
  - eapply wp_mono; [apply (wp_write_page c' cur total src); try done; try lia|].
    + unfold pages_left in Hmem. destruct (_ =? 0); lia.
    + intros Horig. assert (c_size c' <= cur) by lia. split; [|done]. rewrite Ebs in *.
      destruct Hal as [-> | [Ha | Ha]]; [|done | lia]. unfold cur in *. lia.
    + cbn beta. intros r c2 (-> & Hw2 & Hm2). rewrite Ebs in *. set (bs := block_size c) in *.
      set (k := Z.min (zlen src - total) (bs - cur mod bs)) in *. split; [lia|].
      split_and!; [lia | lia | apply Hnext; [lia | done] | |].
      * right. destruct (decide (k = zlen src - total)); [right; lia | left].
        replace (offset + (total + k)) with (0 + (cur / bs + 1) * bs) by (unfold cur in *; lia).
        by rewrite Z.mod_add, Z.mod_0_l by lia.
      * intros Hmore. assert (Hal2 : (offset + (total + k)) mod bs = 0).
        { replace (offset + (total + k)) with (0 + (cur / bs + 1) * bs) by (unfold cur in *; lia).
          by rewrite Z.mod_add, Z.mod_0_l by lia. }
        unfold pages_left in Hmem |- *. fold bs in Hmem |- *. rewrite Hal2. cbn.
        destruct (Z.eqb_spec (cur mod bs) 0) as [E0|]; [|lia]. cbn in E. zbool. lia.
Qed.

Lemma wp_vfs_write c offset src :
  cache_ok c -> Z.land (c_flags c) VFS_DIRECTORY_FLAG = 0 -> 0 <= offset <= c_size c ->
  0 < zlen src < 2 ^ 31 -> offset + zlen src <= dr_room (c_dev c) -> (4 <= c_mem c)%nat ->
  wp (vfs_write o offset src) (fun r c' => r = zlen src /\ wrote c c' offset src) c.
Proof.
  intros Hok Hfl Ho Hs Hroom Hmem. pose proof (ck_bs _ Hok). unfold vfs_write. wp_steps. rewrite Hfl. cbn [Z.eqb negb].
  rewrite (proj2 (Z.eqb_neq (zlen src) 0)), (proj2 (Z.eqb_neq (block_size c) 0)) by lia.
  unfold run_turns. wp_steps.
  apply (wp_loop (fun j total c' => j <= total /\ wrote_so_far c c' offset src total)).
  - split; [done|]. split_and!; [lia | lia | by apply wrote_nil; [|lia] | by left|].
    intros _. unfold pages_left. destruct (_ =? 0); lia.
  - intros j total c' _ [Hj Hso]. eapply wp_mono; [by apply (wp_write_turn c); try lia|].
    cbn beta. intros [t'|x] c2 Hr; [split; [lia | apply Hr]|]. by wp_steps.
  - intros total c' [Hj [Hle _]]. unfold zlen in *. lia.
Qed.

(** C7: [vfs_write] writes the file.  A write that starts inside the file or
    at its end and fits on the device returns its length; the file is then the
    old one with the bytes in place, its size is the larger of the old size and
    the end of the write, and the cache stays valid, whichever parts went to
    pages and whichever straight to the driver. *)
Theorem vfs_write_correct c offset src :
  cache_ok c -> Z.land (c_flags c) VFS_DIRECTORY_FLAG = 0 -> 0 <= offset <= c_size c ->
  0 < zlen src < 2 ^ 31 -> offset + zlen src <= dr_room (c_dev c) -> (4 <= c_mem c)%nat ->
  wp (vfs_write o offset src) (fun r c' => r = zlen src /\ wrote c c' offset src) c.
Proof. apply wp_vfs_write. Qed.

(** ** Flushing *)

Definition cleaned (p : vfs_page) : vfs_page := Page (block_id p) (buffer p) (page_size p) false.

(** The driver [d'] after [d] was given page [p]: the bytes of the page are
    stored and nothing stored in other blocks is lost. *)
Definition page_stored (bs : Z) (p : vfs_page) (d d' : D) : Prop :=
  dr_ok d' /\ dr_room d' = dr_room d /\
  (forall i, 0 <= i < page_size p -> stored d' (block_id p * bs + i) = buffer p !! Z.to_nat i) /\
  (forall i b, block_id p <> i / bs -> stored d i = Some b -> stored d' i = Some b).

(** The same for a list of pages. *)
Definition pages_stored (bs : Z) (l : list vfs_page) (d d' : D) : Prop :=
  dr_ok d' /\ dr_room d' = dr_room d /\
  (forall p i, p ∈ l -> 0 <= i < page_size p -> stored d' (block_id p * bs + i) = buffer p !! Z.to_nat i) /\
  (forall i b, (forall p, p ∈ l -> block_id p <> i / bs) -> stored d i = Some b -> stored d' i = Some b).

Lemma other_block c p q i :
  0 < block_size c -> 0 <= i < block_size c -> block_id p <> block_id q ->
  block_id p <> (block_id q * block_size c + i) / block_size c.
Proof. intros Hb Hi Hne E. apply Hne. rewrite E. apply div_block; lia. Qed.

(** Page [p] of [c] is valid, and clean only if [d] stores it. *)
Definition flushable (c : cnode D) (d : D) (p : vfs_page) : Prop :=
  page_ok c (block_id p) p /\
  (dirty p = false -> forall i, 0 <= i < page_size p ->
     stored d (block_id p * block_size c + i) = buffer p !! Z.to_nat i).

Lemma flushable_byte c d p i : flushable c d p -> 0 <= i < page_size p -> exists b, buffer p !! Z.to_nat i = Some b.
Proof. intros [[P1 P2 P3 P4 P5] _] Hi. apply lookup_lt_is_Some. unfold zlen in *. lia. Qed.

Lemma wp_flush_page c d p :
  cache_ok c -> dr_ok d -> dr_room d = dr_room (c_dev c) -> flushable c d p ->
  wp (flush_page the_write p 0)
    (fun r c' => r = (cleaned p, 0) /\ exists d', c' = set_c_dev d' c /\ page_stored (block_size c) p d d') (set_c_dev d c).
Proof.
  intros Hok Hd Hrm [[P1 P2 P3 P4 P5] Hcl]. pose proof Hok as [H1 H2 H3 H4 H5 H6 H7].
  unfold flush_page. wp_steps. cbn [block_size c_size set_c_dev].
  set (bs := block_size c) in *. set (st := block_id p * bs) in *. assert (0 <= st) by (unfold st; nia).
  destruct (dirty p) eqn:Ed.
  2:{ wp_steps. split; [destruct p; cbn in *; by subst|]. exists d. split; [done|]. by split_and!; [| |apply Hcl|]. }
  rewrite (proj2 (Z.ltb_lt 0 _)) by lia. wp_steps. apply wp_bytes_out; [lia.. |]. rewrite drop_0.
  unfold on_dev. wp_steps. rewrite (u64_small st) by lia. cbn [c_dev set_c_dev].
  set (bytes := take _ _). assert (Hbl : zlen bytes = page_size p) by (unfold bytes, zlen in *; rewrite length_take; lia).
  eapply wp_mono; [apply law_write; try done; lia|]. cbn beta.
  intros [r sz] d1 (K1 & K2 & K3 & K4 & K5 & K6). cbn [fst snd] in *.
  assert (sz = c_size c) as -> by lia. rewrite (proj2 (Z.ltb_ge r 0)) by lia. wp_steps.
  split; [done|]. exists d1. split; [done|]. split_and!; [done | done | |].
  - intros i Hi. fold st. rewrite K5 by lia. unfold bytes. rewrite lookup_take_lt by lia. f_equal. lia.
  - intros i b Hi Hb. apply K6; [|done]. intros Hx. apply Hi. symmetry. apply div_block; lia.
Qed.

(** Storing a page keeps the others flushable. *)
Lemma flushable_other c d d' p q :
  cache_ok c -> flushable c d q -> block_id p <> block_id q -> page_stored (block_size c) p d d' -> flushable c d' q.
Proof.
  intros Hok Hq Hne (_ & _ & _ & Hk). pose proof (ck_bs _ Hok). split; [apply Hq|]. intros Hd i Hi.
  destruct (flushable_byte c d q i Hq Hi) as [b Hb]. rewrite Hb. pose proof Hq as [[Q1 Q2 Q3 Q4 Q5] Hcl].
  apply Hk; [apply other_block; try done; lia|]. rewrite <- Hb. by apply Hcl.
Qed.

Lemma pages_stored_cons c d d1 d2 p l :
  cache_ok c -> flushable c d p -> (forall q, q ∈ l -> block_id q <> block_id p) ->
  page_stored (block_size c) p d d1 -> pages_stored (block_size c) l d1 d2 ->
  pages_stored (block_size c) (p :: l) d d2.
Proof.
  intros Hok Hp Hne (S1 & S2 & S3 & S4) (K1 & K2 & K3 & K4). pose proof (ck_bs _ Hok).
  split_and!; [done | congruence | |].
  - intros q i [-> | Hq]%elem_of_cons Hi; [|by apply K3].
    destruct (flushable_byte c d p i Hp Hi) as [b Hb]. rewrite Hb. pose proof Hp as [[Q1 Q2 Q3 Q4 Q5] _].
    apply K4; [|by rewrite S3]. intros q Hq. apply other_block; [lia | lia | by apply Hne].
  - intros i b Hi Hb. apply K4; [intros q Hq; apply Hi; by right|]. apply S4; [apply Hi; by left | done].
Qed.

Lemma wp_flush_pages c l : forall d,
  cache_ok c -> dr_ok d -> dr_room d = dr_room (c_dev c) -> NoDup (map block_id l) ->
  (forall p, p ∈ l -> flushable c d p) ->
  wp (flush_pages the_write l 0)
    (fun r c' => r = (map cleaned l, 0) /\ exists d', c' = set_c_dev d' c /\ pages_stored (block_size c) l d d') (set_c_dev d c).
Proof.
  induction l as [|p l IH]; intros d Hok Hd Hrm Hnd Hfl; cbn [flush_pages].
  { wp_steps. split; [done|]. exists d. split; [done|]. split_and!; try done. by intros p i ?%elem_of_nil. }
  change (map block_id (p :: l)) with (block_id p :: map block_id l) in Hnd. apply NoDup_cons in Hnd as [Hp Hnd].
  assert (Hne : forall q, q ∈ l -> block_id q <> block_id p).
  { intros q Hq E. apply Hp. rewrite <- E. apply list_elem_of_fmap. by exists q. }
  wp_steps. eapply wp_mono; [apply (wp_flush_page c d p); try done; apply Hfl; by left|].
  cbn beta. intros r c1 (-> & d1 & -> & Hst). cbn [fst snd]. wp_steps.
  eapply wp_mono; [apply (IH d1); try done; [apply Hst | destruct Hst as (_ & -> & _); done|]|].
  - intros q Hq. eapply flushable_other; try done; [apply Hfl; by right | by apply not_eq_sym, Hne].
  - cbn beta. intros r c2 (-> & d2 & -> & Hst2). wp_steps. split; [done|]. exists d2. split; [done|].
    eapply pages_stored_cons; try done. apply Hfl. by left.
Qed.

Lemma find_cleaned j l : find_page j (map cleaned l) = cleaned <$> find_page j l.
Proof. induction l as [|p l IH]; cbn; [done|]. by destruct (block_id p =? j). Qed.

(** The node after its pages were handed to the driver. *)
Lemma flushed_same c d' :
  cache_ok c -> pages_stored (block_size c) (cache_pages c) (c_dev c) d' ->
  same_file c (set_cache_pages (map cleaned (cache_pages c)) (set_c_dev d' c)) /\
  forall i, 0 <= i < c_size c -> stored d' i = view c i.
Proof.
  intros Hok (K1 & K2 & K3 & K4). pose proof Hok as [H1 H2 H3 H4 H5 H6 H7].
  assert (Hpage : forall j p i, find_page j (cache_pages c) = Some p -> 0 <= i < page_size p ->
    stored d' (j * block_size c + i) = buffer p !! Z.to_nat i).
  { intros j p i Hf Hi. rewrite <- (find_page_id _ _ _ Hf). apply K3; [by eapply find_page_in | done]. }
  assert (Hdisk : forall i, 0 <= i < c_size c -> find_page (i / block_size c) (cache_pages c) = None ->
    stored d' i = stored (c_dev c) i /\ is_Some (stored d' i)).
  { intros i Hi Hf. destruct (H7 i Hi Hf) as [b Hb]. rewrite Hb. assert (Hk : stored d' i = Some b); [|by rewrite Hk].
    apply K4; [|done]. intros p Hp E. apply find_page_none in Hf. apply Hf. rewrite <- E. apply list_elem_of_fmap. by exists p. }
  split.
  - split; cbn; try done.
    + split; cbn; rewrite ?K2; try done.
      * by rewrite map_map.
      * intros j p. rewrite find_cleaned. destruct (find_page j (cache_pages c)) as [q|] eqn:Ef; [|done].
        cbn. intros [= <-]. destruct (H6 j q Ef) as [P1 P2 P3 P4 P5]. split; cbn; try done.
        intros _ i Hi. symmetry. by apply Hpage.
      * intros i Hi. rewrite find_cleaned. destruct (find_page _ (cache_pages c)) eqn:Ef; [done|]. intros _. by apply Hdisk.
    + apply view_ext; [done..|]. intros i Hi. cbn. rewrite find_cleaned.
      destruct (find_page (i / block_size c) (cache_pages c)) as [p|] eqn:Ef; cbn; [done | by apply Hdisk].
  - intros i Hi. unfold view. rewrite (proj2 (Z.leb_le 0 i)), (proj2 (Z.ltb_lt i _)) by lia. cbn.
    destruct (find_page (i / block_size c) (cache_pages c)) as [p|] eqn:Ef; [|by apply Hdisk].
    destruct (H6 _ p Ef) as [P1 P2 P3 P4 P5]. set (j := i / block_size c) in *.
    assert (Hj : j * block_size c <= i < j * block_size c + block_size c) by (apply div_block; [lia | done]).
    rewrite (mod_block _ i j), <- (Hpage j p) by done || lia. f_equal. lia.
Qed.

Lemma wp_vfs_flush c :
  cache_ok c ->
  wp (vfs_flush o)
    (fun r c' => r = 0 /\ same_file c c' /\ (forall p, p ∈ cache_pages c' -> dirty p = false) /\
       forall i, 0 <= i < c_size c -> stored (c_dev c') i = view c i) c.
Proof.
  intros Hok. pose proof Hok as [H1 H2 H3 H4 H5 H6 H7]. unfold vfs_flush. wp_steps.
  rewrite (proj2 (Z.eqb_neq (block_size c) 0)) by lia. rewrite law_has_write. wp_steps.
  replace c with (set_c_dev (c_dev c) c) at 2 by by destruct c.
  eapply wp_mono; [apply (wp_flush_pages c (cache_pages c) (c_dev c)); try done|].
  { intros p Hp. pose proof (H6 _ p (find_page_elem _ p H5 Hp)) as Hpo. split; [done|].
    intros Hd i Hi. symmetry. by apply Hpo. }
  cbn beta. intros r c1 (-> & d' & -> & Hst). cbn [fst snd]. wp_steps. cbn [Z.ltb Z.compare].
  destruct (flushed_same c d' Hok Hst) as [Hsf Hall].
  assert (Hcl : forall p, p ∈ map cleaned (cache_pages c) -> dirty p = false).
  { by intros p (q & -> & _)%list_elem_of_fmap. }
  unfold driver_flush. destruct (op_flush o) as [f|] eqn:Ef; [|by wp_steps].
  unfold on_dev. wp_steps. eapply wp_mono; [apply (law_flush f); [done | apply Hst]|].
  cbn beta. intros r d2 (-> & Hs2). split; [done|].
  pose proof (set_dev_same _ d2 (sf_ok _ _ Hsf) Hs2) as Hsf2. split_and!; [by eapply same_file_trans | done|].
  intros i Hi. cbn. destruct Hs2 as (_ & _ & Hs2). rewrite <- Hall by done. apply Hs2.
Qed.

(** Flushing makes the driver hold the file: [vfs_flush] returns 0, every
    byte of the file is stored by the driver afterwards, no page is dirty, and
    the file itself is unchanged. *)
Theorem vfs_flush_correct c :
  cache_ok c ->
  wp (vfs_flush o)
    (fun r c' => r = 0 /\ same_file c c' /\ (forall p, p ∈ cache_pages c' -> dirty p = false) /\
       forall i, 0 <= i < c_size c -> stored (c_dev c') i = view c i) c.
Proof. apply wp_vfs_flush. Qed.

(** Closing loses nothing: after a write and [vfs_close] the cache is
    empty, the file read back from the driver alone is the written one, and the
    memory of the pages is given back. *)
Theorem vfs_write_close c offset src :
  cache_ok c -> Z.land (c_flags c) VFS_DIRECTORY_FLAG = 0 -> 0 <= offset <= c_size c ->
  0 < zlen src < 2 ^ 31 -> offset + zlen src <= dr_room (c_dev c) -> (4 <= c_mem c)%nat ->
  wp (vfs_write o offset src ;;; vfs_close o)
    (fun _ c' => cache_ok c' /\ cache_pages c' = [] /\ c_size c' = Z.max (c_size c) (offset + zlen src) /\
       forall i, 0 <= i < c_size c' -> stored (c_dev c') i = rewritten c offset src i) c.
Proof.
  intros Hok Hfl Ho Hs Hroom Hmem. wp_steps. eapply wp_mono; [by apply wp_vfs_write|].
  cbn beta. intros _ c1 (_ & Hw). unfold vfs_close. wp_steps.
  eapply wp_mono; [apply wp_vfs_flush, Hw|]. cbn beta. intros _ c2 (_ & Hsf & Hcl & Hst). wp_steps.
  assert (Hend : forall c3, same_file c1 c3 -> (forall i, 0 <= i < c_size c1 -> stored (c_dev c3) i = view c1 i) ->
    let c' := set_c_mem (c_mem c3 + 2 * length (cache_pages c3)) (set_cache_pages [] c3) in
    cache_ok c' /\ cache_pages c' = [] /\ c_size c' = Z.max (c_size c) (offset + zlen src) /\
    forall i, 0 <= i < c_size c' -> stored (c_dev c') i = rewritten c offset src i).
  { intros c3 [K1 K2 K3 K4 K5 K6] Hst3 c'. subst c'. cbn. rewrite K2, (wr_size _ _ _ _ Hw). split_and!; try done.
    - destruct K1 as [Q1 Q2 Q3 Q4 Q5 Q6 Q7]. split; cbn; try done; [constructor|]. rewrite K2. intros i Hi _.
      rewrite Hst3 by done. by apply (view_is_Some c1); [apply Hw|].
    - intros i Hi. rewrite Hst3 by (rewrite (wr_size _ _ _ _ Hw); done). apply Hw. }
  destruct (op_close o) as [f|] eqn:Ec; wp_steps; [|by apply Hend].
  unfold on_dev. wp_steps. eapply wp_mono; [apply (law_close f); [done | apply Hsf]|].
  cbn beta. intros _ d3 Hd3. wp_steps. apply Hend.
  - eapply same_file_trans; [exact Hsf|]. by apply set_dev_same; [apply Hsf|].
  - intros i Hi. cbn. destruct Hd3 as (_ & _ & ->). by apply Hst.
Qed.

End laws.

(** ** A concrete driver *)

(** A device that keeps its bytes by offset. *)
Definition flat_read (size off n : Z) : M (gmap Z Z) (Z * list Z) :=
  d <-- kget ;;
  match mapM (fun i => d !! i) (seqZ off n) with
  | Some bs => kret (n, bs)
  | None => kret (-1, [])
  end.

Definition flat_write (size off : Z) (src : list Z) : M (gmap Z Z) (Z * Z) :=
  kmodify (fun d => list_to_map (zip (seqZ off (zlen src)) src) ∪ d) ;;;
  kret (zlen src, Z.max size (off + zlen src)).

Definition flat_driver : driver (gmap Z Z) :=
  Driver (Some flat_read) (Some flat_write) (Some (kret 0)) None.

Lemma flat_zip off (src : list Z) i :
  (list_to_map (zip (seqZ off (zlen src)) src) : gmap Z Z) !! i =
  if decide (off <= i < off + zlen src) then src !! Z.to_nat (i - off) else None.
Proof.
  revert off. induction src as [|x src IH]; intros off.
  - rewrite decide_False by (change (zlen (@nil Z)) with 0; lia). apply lookup_empty.
  - assert (Hl : zlen (x :: src) = Z.succ (zlen src)) by (unfold zlen; cbn [length]; lia).
    pose proof (zlen_nonneg src). rewrite Hl, seqZ_cons by lia. rewrite Z.pred_succ. cbn [zip zip_with list_to_map foldr fst snd].
    destruct (decide (i = off)) as [->|Hne].
    + rewrite lookup_insert_eq, decide_True by lia. by replace (off - off) with 0 by lia.
    + rewrite lookup_insert_ne by done. rewrite IH. do 2 case_decide; try lia; [|done].
      replace (Z.to_nat (i - off)) with (S (Z.to_nat (i - Z.succ off))) by lia. done.
Qed.

Lemma flat_read_law (d : gmap Z Z) size off n :
  0 <= off -> 0 < n < 2 ^ 31 -> (forall i, off <= i < off + n -> is_Some (d !! i)) ->
  wp (flat_read size off n)
    (fun r d' => d' = d /\ r.1 = n /\ zlen r.2 = n /\
       forall i, 0 <= i < n -> r.2 !! Z.to_nat i = d !! (off + i)) d.
Proof.
  intros Ho Hn Hall. unfold flat_read. wp_steps.
  destruct (mapM (fun i => d !! i) (seqZ off n)) as [bs|] eqn:E.
  - wp_steps. cbn. apply mapM_Some in E. pose proof (Forall2_length _ _ _ E) as Hl. rewrite length_seqZ in Hl.
    split_and!; try done; [unfold zlen; lia|]. intros i Hi.
    destruct (lookup_lt_is_Some_2 bs (Z.to_nat i)) as [b Hb]; [lia|]. rewrite Hb. symmetry.
    eapply (Forall2_lookup_lr _ _ _ (Z.to_nat i) _ b E); [|done]. rewrite lookup_seqZ. split; lia.
  - exfalso. assert (is_Some (mapM (fun i => d !! i) (seqZ off n))) as [x Hx]; [|congruence].
    apply mapM_is_Some, Forall_forall. intros i Hi. apply elem_of_seqZ in Hi. apply Hall. lia.
Qed.

Lemma flat_write_law (d : gmap Z Z) size off src :
  wp (flat_write size off src)
    (fun r d' => r = (zlen src, Z.max size (off + zlen src)) /\
       (forall i, off <= i < off + zlen src -> d' !! i = src !! Z.to_nat (i - off)) /\
       (forall i b, ~ (off <= i < off + zlen src) -> d !! i = Some b -> d' !! i = Some b)) d.
Proof.
  unfold flat_write. wp_steps. split_and!; [done|..].
  - intros i Hi. destruct (lookup_lt_is_Some_2 src (Z.to_nat (i - off))) as [b Hb]; [unfold zlen in *; lia|].
    rewrite Hb. apply lookup_union_Some_l. rewrite flat_zip. by rewrite decide_True.
  - intros i b Hi Hb. rewrite lookup_union_r; [done|]. rewrite flat_zip. by rewrite decide_False.
Qed.

#[global] Instance flat_laws : DriverLaws flat_driver.
Proof.
  refine {| the_read := flat_read; the_write := flat_write; stored := fun d i => d !! i;
            dr_ok := fun _ => True; dr_room := fun _ => 2 ^ 40 |}; try done.
  - intros d size off n _ Ho Hn _ Hall. eapply wp_mono; [by apply flat_read_law|].
    cbn beta. by intros r d' (-> & H).
  - intros d size off src _ Ho Hs Hr. eapply wp_mono; [by apply flat_write_law|].
    cbn beta. intros r d' (-> & H1 & H2). split_and!; try done. by right.
  - intros f d [= <-] _. by wp_steps.
Defined.

(** A file of six bytes in blocks of four: the first block is on the device,
    the second only in a dirty page. *)
Definition example_cnode : cnode (gmap Z Z) :=
  CNode 1 6 4 [Page 1 [14; 15; 99; 99] 2 true] (list_to_map [(0, 10); (1, 11); (2, 12); (3, 13)]) 8 (fun _ => 255).

Lemma example_cache_ok : cache_ok flat_driver example_cnode.
Proof.
  split; try done.
  - apply NoDup_singleton.
  - intros id p. cbn [example_cnode cache_pages find_page block_id]. destruct (Z.eqb_spec 1 id) as [<-|]; [|done].
    intros [= <-]. by split.
  - intros i Hi. cbn [example_cnode cache_pages find_page block_id block_size c_size c_dev stored flat_laws] in *.
    destruct (Z.eqb_spec 1 (i / 4)); [done|]. intros _. assert (Hi4 : i < 4) by zdiv_lia.
    assert (i = 0 \/ i = 1 \/ i = 2 \/ i = 3) as [-> | [-> | [-> | ->]]] by lia; by eexists.
Qed.

Lemma vfs_read_witness :
  wp (vfs_read flat_driver 1 100)
    (fun r c' => r.1 = 5 /\ zlen r.2 = r.1 /\
       (forall i, 0 <= i < r.1 -> r.2 !! Z.to_nat i = view flat_driver example_cnode (1 + i)) /\
       same_file flat_driver example_cnode c') example_cnode.
Proof.
  apply (vfs_read_correct flat_driver example_cnode 1 100); [apply example_cache_ok | done | done | cbn; lia].
Defined.

Lemma vfs_write_witness :
  wp (vfs_write flat_driver 6 [1; 2; 3; 4; 5; 6; 7; 8])
    (fun r c' => r = 8 /\ wrote flat_driver example_cnode c' 6 [1; 2; 3; 4; 5; 6; 7; 8]) example_cnode.
Proof.
  apply (vfs_write_correct flat_driver example_cnode 6); [apply example_cache_ok | done.. | cbn; lia].
Defined.

Lemma vfs_flush_witness :
  wp (vfs_flush flat_driver)
    (fun r c' => r = 0 /\ same_file flat_driver example_cnode c' /\
       (forall p, p ∈ cache_pages c' -> dirty p = false) /\
       forall i, 0 <= i < 6 -> stored (c_dev c') i = view flat_driver example_cnode i) example_cnode.
Proof. apply (vfs_flush_correct flat_driver example_cnode), example_cache_ok. Defined.

Lemma vfs_write_close_witness :
  wp (vfs_write flat_driver 6 [1; 2; 3; 4; 5; 6; 7; 8] ;;; vfs_close flat_driver)
    (fun _ c' => cache_ok flat_driver c' /\ cache_pages c' = [] /\ c_size c' = 14 /\
       forall i, 0 <= i < c_size c' -> stored (c_dev c') i = rewritten flat_driver example_cnode 6 [1; 2; 3; 4; 5; 6; 7; 8] i)
    example_cnode.
Proof.
  apply (vfs_write_close flat_driver example_cnode 6); [apply example_cache_ok | done.. | cbn; lia].
Defined.

(** ** Where the cache falls short *)

(** A write beyond the end of the file leaves the page of the old end short: a
    read over the gap stops at the old end although the file is longer. *)
Lemma sparse_write_short_read :
  wp (vfs_write flat_driver 9 [1] ;;; vfs_read flat_driver 5 5) (fun r c' => r = (1, [15]) /\ c_size c' = 10)
    example_cnode.
Proof. vm_compute. done. Qed.

(** The bytes of a fresh page before the write are whatever the memory held. *)
Lemma sparse_write_stale :
  wp (vfs_write flat_driver 9 [1] ;;; vfs_read flat_driver 8 2) (fun r _ => r = (2, [255; 1])) example_cnode.
Proof. vm_compute. done. Qed.

(** A driver that returns 0 for a direct read keeps [vfs_read] in its loop. *)
Lemma empty_read_spins :
  vfs_read (Driver (D := gmap Z Z) (Some (fun _ _ _ => kret (0, []))) None None None) 0 4 example_cnode = Stop NoFuel.
Proof. vm_compute. done. Qed.

(** The write-back before a direct read ignores errors: the dirty page is
    dropped although the device refused it, and its bytes are lost. *)
Lemma write_back_loses_data :
  wp (vfs_read (Driver (Some flat_read) (Some (fun s _ _ => kret (-1, s))) None None) 4 4)
    (fun r c' => r.1 = -1 /\ cache_pages c' = []) (set_c_size 8 example_cnode).
Proof. vm_compute. done. Qed.
