(* ===== verification/Fd.v ===== *)
(** * Open files and descriptor tables

    [vfs_seek] of [kernel/fs/vfs/vfs.c], [k_dup2] of [kernel/fs/vfs/vfs_dup2.c],
    [sys_open], [sys_close], [sys_read], [sys_write] and [sys_seek] of
    [kernel/kernel/syscall/syscall.c], the inheritance of the table in
    [kernel/kernel/sched/clone.c] and its release in [process_file_destroy] of
    [kernel/kernel/sched/process.c].  A [vfs_file_t] is shared by every slot
    that points to it, in any process; its [ref_count] is what this file is
    about.  The file system underneath is a parameter. *)

From Stdlib Require Import ZArith Lia.
From stdpp Require Import base tactics list gmap.
From S2P Require Import Prelude Ramfs Vfs.

Definition MAX_FILES_PER_PROCESS : nat := 32.
Definition VFS_SEEK_SET : Z := 0.
Definition VFS_SEEK_CUR : Z := 1.
Definition VFS_SEEK_END : Z := 2.

(** [vfs_file_t]. *)
Record vfs_file : Type := File {
  vf_node : Z;
  vf_offset : Z;
  vf_flags : Z;
  vf_refs : Z
}.

Definition set_vf_offset (x : Z) (f : vfs_file) : vfs_file := File (vf_node f) x (vf_flags f) (vf_refs f).
Definition set_vf_refs (x : Z) (f : vfs_file) : vfs_file := File (vf_node f) (vf_offset f) (vf_flags f) x.

(** The operations of the file system below: [(uint64_t)-1] and other error
    codes are negative. *)
Record nodes (N : Type) : Type := Nodes {
  nd_open : list Z -> Z -> M N Z;
  nd_read : Z -> Z -> Z -> M N (Z * list Z);
  nd_write : Z -> Z -> list Z -> M N Z;
  nd_close : Z -> M N unit;
  nd_size : Z -> M N Z
}.
Arguments Nodes {N}.
Arguments nd_open {N}.
Arguments nd_read {N}.
Arguments nd_write {N}.
Arguments nd_close {N}.
Arguments nd_size {N}.

(** The nodes, the open files by address, the next address, how many files can
    still be allocated, and the descriptor table of every process. *)
Record fdstate (N : Type) : Type := Fds {
  fd_nodes : N;
  fd_files : gmap Z vfs_file;
  fd_brk : Z;
  fd_mem : nat;
  fd_tables : list (list Z)
}.
Arguments Fds {N}.
Arguments fd_nodes {N}.
Arguments fd_files {N}.
Arguments fd_brk {N}.
Arguments fd_mem {N}.
Arguments fd_tables {N}.

Section fd.
Context {N : Type} (nd : nodes N).

Definition set_fd_nodes (x : N) (s : fdstate N) : fdstate N :=
  Fds x (fd_files s) (fd_brk s) (fd_mem s) (fd_tables s).
Definition set_fd_files (x : gmap Z vfs_file) (s : fdstate N) : fdstate N :=
  Fds (fd_nodes s) x (fd_brk s) (fd_mem s) (fd_tables s).
Definition set_fd_alloc (b : Z) (m : nat) (s : fdstate N) : fdstate N :=
  Fds (fd_nodes s) (fd_files s) b m (fd_tables s).
Definition set_fd_tables (x : list (list Z)) (s : fdstate N) : fdstate N :=
  Fds (fd_nodes s) (fd_files s) (fd_brk s) (fd_mem s) x.

Definition on_nodes {A} (m : M N A) : M (fdstate N) A := zoom fd_nodes set_fd_nodes m.

(** Accesses through pointers and table slots. *)
Definition file (a : Z) : M (fdstate N) vfs_file := s <-- kget ;; kopt NullDeref (fd_files s !! a).
Definition put_file (a : Z) (f : vfs_file) : M (fdstate N) unit :=
  kmodify (fun s => set_fd_files (<[a := f]> (fd_files s)) s).
Definition table (pid : nat) : M (fdstate N) (list Z) := s <-- kget ;; kopt NullDeref (fd_tables s !! pid).
Definition slot (pid : nat) (fd : Z) : M (fdstate N) Z := t <-- table pid ;; rd t fd.
Definition put_slot (pid : nat) (fd a : Z) : M (fdstate N) unit :=
  t <-- table pid ;;
  t' <-- upd t fd a ;;
  kmodify (fun s => set_fd_tables (<[pid := t']> (fd_tables s)) s).

Definition file_alloc : M (fdstate N) Z :=
  s <-- kget ;;
  match fd_mem s with
  | O => kret 0
  | S m => kmodify (set_fd_alloc (fd_brk s + 16) m) ;;; kret (fd_brk s)
  end.
Definition file_free (a : Z) : M (fdstate N) unit :=
  kmodify (fun s => set_fd_alloc (fd_brk s) (S (fd_mem s)) (set_fd_files (delete a (fd_files s)) s)).

(** ** Seeking *)

Definition SEEK_ERROR : Z := 2 ^ 64 - 1.

(** The new position for a base and a signed offset. *)
Definition seek_to (base offset : Z) : option Z :=
  if offset <? 0 then
    let magnitude := u64 (u64 (- (offset + 1)) + 1) in
    if base <? magnitude then None else Some (u64 (base - magnitude))
  else
    let magnitude := u64 offset in
    if u64 (2 ^ 64 - 1 - base) <? magnitude then None else Some (u64 (base + magnitude)).

Definition vfs_seek (a offset whence : Z) : M (fdstate N) Z :=
  if a =? 0 then kret SEEK_ERROR else
  f <-- file a ;;
  if vf_node f =? 0 then kret SEEK_ERROR else
  size <-- on_nodes (nd_size nd (vf_node f)) ;;
  match (if whence =? VFS_SEEK_SET then Some 0
         else if whence =? VFS_SEEK_CUR then Some (vf_offset f)
         else if whence =? VFS_SEEK_END then Some size
         else None) with
  | None => kret SEEK_ERROR
  | Some base =>
      match seek_to base offset with
      | None => kret SEEK_ERROR
      | Some pos => put_file a (set_vf_offset pos f) ;;; kret pos
      end
  end.

(** ** Descriptors *)

Definition fd_ok (fd : Z) : bool := (0 <=? fd) && (fd <? Z.of_nat MAX_FILES_PER_PROCESS).

(** Give one reference up; the last one closes the node and frees the file. *)
Definition drop_ref (a : Z) : M (fdstate N) unit :=
  f <-- file a ;;
  let r := u32 (vf_refs f - 1) in
  put_file a (set_vf_refs r f) ;;;
  if r =? 0 then
    (if vf_node f =? 0 then kret tt else on_nodes (nd_close nd (vf_node f))) ;;; file_free a
  else kret tt.

Definition add_ref (a : Z) : M (fdstate N) unit :=
  f <-- file a ;; put_file a (set_vf_refs (u32 (vf_refs f + 1)) f).

Definition k_dup2 (pid : nat) (oldfd newfd : Z) : M (fdstate N) Z :=
  if negb (fd_ok oldfd) then kret (-1) else
  if negb (fd_ok newfd) then kret (-1) else
  old_file <-- slot pid oldfd ;;
  if oldfd =? newfd then kret (if old_file =? 0 then -1 else newfd) else
  if old_file =? 0 then kret (-1) else
  to_close <-- slot pid newfd ;;
  (if to_close =? 0 then kret tt else drop_ref to_close ;;; put_slot pid newfd 0) ;;;
  put_slot pid newfd old_file ;;;
  add_ref old_file ;;;
  kret newfd.

(** The first free slot. *)
Fixpoint free_fd (i : Z) (t : list Z) : option Z :=
  match t with
  | [] => None
  | a :: t' => if a =? 0 then Some i else free_fd (i + 1) t'
  end.

Definition sys_open (pid : nat) (path : list Z) (flags : Z) : M (fdstate N) Z :=
  n <-- on_nodes (nd_open nd path flags) ;;
  if n =? 0 then kret (-1) else
  t <-- table pid ;;
  match free_fd 0 t with
  | None => on_nodes (nd_close nd n) ;;; kret (-2)
  | Some fd =>
      a <-- file_alloc ;;
      if a =? 0 then on_nodes (nd_close nd n) ;;; kret (-3) else
      put_file a (File n 0 flags 0) ;;;
      put_slot pid fd a ;;;
      add_ref a ;;;
      kret fd
  end.

Definition sys_close (pid : nat) (fd : Z) : M (fdstate N) Z :=
  if negb (fd_ok fd) then kret (-1) else
  a <-- slot pid fd ;;
  if a =? 0 then kret (-1) else
  f <-- file a ;;
  let r := u32 (vf_refs f - 1) in
  put_file a (set_vf_refs r f) ;;;
  put_slot pid fd 0 ;;;
  (if r =? 0 then
     (if vf_node f =? 0 then kret tt else on_nodes (nd_close nd (vf_node f))) ;;; file_free a
   else kret tt) ;;;
  kret 0.

Definition sys_read (pid : nat) (fd size : Z) : M (fdstate N) (Z * list Z) :=
  if negb (fd_ok fd) then kret (-1, []) else
  a <-- slot pid fd ;;
  if a =? 0 then kret (-1, []) else
  f <-- file a ;;
  r <-- on_nodes (nd_read nd (vf_node f) (vf_offset f) size) ;;
  (if 0 <? r.1 then put_file a (set_vf_offset (u64 (vf_offset f + r.1)) f) else kret tt) ;;;
  kret r.

Definition sys_write (pid : nat) (fd : Z) (src : list Z) : M (fdstate N) Z :=
  if negb (fd_ok fd) then kret (-1) else
  a <-- slot pid fd ;;
  if a =? 0 then kret (-1) else
  f <-- file a ;;
  r <-- on_nodes (nd_write nd (vf_node f) (vf_offset f) src) ;;
  (if 0 <? r then put_file a (set_vf_offset (u64 (vf_offset f + r)) f) else kret tt) ;;;
  kret r.

Definition sys_seek (pid : nat) (fd offset whence : Z) : M (fdstate N) Z :=
  if negb (fd_ok fd) then kret (-1) else
  a <-- slot pid fd ;;
  if a =? 0 then kret (-1) else vfs_seek a offset whence.

(** The files of the parent, each with one more reference, in the empty table of
    the child [clone] makes. *)
Definition clone_files (parent child : nat) : M (fdstate N) unit :=
  for_ MAX_FILES_PER_PROCESS 0 (fun i =>
    a <-- slot parent i ;;
    if a =? 0 then kret tt else put_slot child i a ;;; add_ref a).

Definition process_file_destroy (pid : nat) : M (fdstate N) unit :=
  for_ MAX_FILES_PER_PROCESS 0 (fun i =>
    a <-- slot pid i ;;
    if a =? 0 then kret tt else
    f <-- file a ;;
    let r := u32 (vf_refs f - 1) in
    put_file a (set_vf_refs r f) ;;;
    (if r =? 0 then on_nodes (nd_close nd (vf_node f)) ;;; file_free a else kret tt) ;;;
    put_slot pid i 0).

(** ** Runs *)

(** The operations of the processes of the system. *)
Inductive fd_op : Type :=
| OpOpen (pid : nat) (path : list Z) (flags : Z)
| OpClose (pid : nat) (fd : Z)
| OpDup2 (pid : nat) (oldfd newfd : Z)
| OpRead (pid : nat) (fd size : Z)
| OpWrite (pid : nat) (fd : Z) (src : list Z)
| OpSeek (pid : nat) (fd offset whence : Z)
| OpClone (parent : nat) (files thread : bool)
| OpExit (pid : nat).

Definition op_pid (op : fd_op) : nat :=
  match op with
  | OpOpen p _ _ | OpClose p _ | OpDup2 p _ _ | OpRead p _ _ | OpWrite p _ _ | OpSeek p _ _ _ | OpClone p _ _ | OpExit p => p
  end.

(** [clone] of a process: a block with a zeroed table, with [CLONE_FILES] the
    copy of the parent's, and a thread, for which there may be no room; then
    the block is freed as it is, with the table.  The result is the tables that
    were freed in this way, whose references nobody gives up any more. *)
Definition clone_process (parent : nat) (files thread : bool) : M (fdstate N) (list (list Z)) :=
  s <-- kget ;;
  let child := length (fd_tables s) in
  kmodify (fun s => set_fd_tables (fd_tables s ++ [replicate MAX_FILES_PER_PROCESS 0]) s) ;;;
  (if files then clone_files parent child else kret tt) ;;;
  if thread then kret [] else
  t <-- table child ;;
  kmodify (fun s => set_fd_tables (take child (fd_tables s)) s) ;;;
  kret [t].

(** One operation, with the tables it loses. *)
Definition run_op (op : fd_op) : M (fdstate N) (list (list Z)) :=
  s <-- kget ;;
  if decide (length (fd_tables s) <= op_pid op)%nat then kret [] else
  match op with
  | OpOpen p path flags => _ <-- sys_open p path flags ;; kret []
  | OpClose p fd => _ <-- sys_close p fd ;; kret []
  | OpDup2 p o n => _ <-- k_dup2 p o n ;; kret []
  | OpRead p fd size => _ <-- sys_read p fd size ;; kret []
  | OpWrite p fd src => _ <-- sys_write p fd src ;; kret []
  | OpSeek p fd off wh => _ <-- sys_seek p fd off wh ;; kret []
  | OpClone p files thread => clone_process p files thread
  | OpExit p => process_file_destroy p ;;; kret []
  end.

Fixpoint run_ops (ops : list fd_op) : M (fdstate N) (list (list Z)) :=
  match ops with
  | [] => kret []
  | op :: rest => lost <-- run_op op ;; more <-- run_ops rest ;; kret (lost ++ more)
  end.

(** The operation is not a clone that fails. *)
Definition op_succeeds (op : fd_op) : bool :=
  match op with OpClone _ _ thread => thread | _ => true end.

End fd.

(** ** Counting references *)

Definition occ (a : Z) (t : list Z) : Z := Z.of_nat (count_occ Z.eq_dec t a).

(** How many slots of all tables point to [a]. *)
Definition slots_of (a : Z) (ts : list (list Z)) : Z := occ a (concat ts).

(** 1 for the file itself, 0 for the others. *)
Definition one (a b : Z) : Z := if decide (a = b) then 1 else 0.

Lemma tocc_cons a x t : occ a (x :: t) = one x a + occ a t.
Proof. unfold occ, one. cbn. destruct (Z.eq_dec x a), (decide (x = a)); try done; lia. Qed.

Lemma occ_app a t t' : occ a (t ++ t') = occ a t + occ a t'.
Proof. unfold occ. rewrite count_occ_app. lia. Qed.

Lemma occ_nonneg a t : 0 <= occ a t.
Proof. unfold occ. lia. Qed.

Lemma tocc_bound a t : occ a t <= zlen t.
Proof. unfold occ, zlen. pose proof (count_occ_bound Z.eq_dec a t). lia. Qed.

Lemma tocc_insert a t i x b : t !! i = Some x -> occ a (<[i := b]> t) = occ a t - one x a + one b a.
Proof.
  revert i. induction t as [|y t IH]; intros [|i] Hi; try done; cbn in Hi.
  - injection Hi as ->. change (<[0%nat := b]> (x :: t)) with (b :: t). rewrite !tocc_cons. lia.
  - change (<[S i := b]> (y :: t)) with (y :: <[i := b]> t). rewrite !tocc_cons, (IH i Hi). lia.
Qed.

Lemma occ_lookup a t i : t !! i = Some a -> 1 <= occ a t.
Proof.
  revert i. induction t as [|y t IH]; intros [|i] Hi; try done; cbn in Hi; rewrite tocc_cons; pose proof (occ_nonneg a t).
  - injection Hi as ->. unfold one. rewrite decide_True by done. lia.
  - unfold one. pose proof (IH i Hi). case_decide; lia.
Qed.

Lemma slots_insert a ts p t t' :
  ts !! p = Some t -> slots_of a (<[p := t']> ts) = slots_of a ts - occ a t + occ a t'.
Proof.
  unfold slots_of. revert p. induction ts as [|y ts IH]; intros [|p] Hp; try done; cbn in Hp.
  - injection Hp as ->. change (<[0%nat := t']> (t :: ts)) with (t' :: ts). cbn [concat]. rewrite !occ_app. lia.
  - change (<[S p := t']> (y :: ts)) with (y :: <[p := t']> ts). cbn [concat]. rewrite !occ_app, (IH p Hp). lia.
Qed.

Lemma slots_lookup a ts p t : ts !! p = Some t -> occ a t <= slots_of a ts.
Proof.
  unfold slots_of. revert p. induction ts as [|y ts IH]; intros [|p] Hp; try done; cbn in Hp |- *; rewrite occ_app.
  - injection Hp as ->. pose proof (occ_nonneg a (concat ts)). lia.
  - pose proof (IH p Hp). pose proof (occ_nonneg a y). lia.
Qed.

Lemma slots_app a ts us : slots_of a (ts ++ us) = slots_of a ts + slots_of a us.
Proof. unfold slots_of. by rewrite concat_app, occ_app. Qed.

Lemma slots_nonneg a ts : 0 <= slots_of a ts.
Proof. apply occ_nonneg. Qed.

Section counting.
Context {N : Type} (nd : nodes N).
Implicit Types s : fdstate N.

Section lost.
(** The tables that were freed with their references. *)
Context (lost : list (list Z)).

(** Every table has its slots. *)
Definition tables_ok (s : fdstate N) : Prop :=
  (forall p t, fd_tables s !! p = Some t -> length t = MAX_FILES_PER_PROCESS) /\
  Forall (fun t => length t = MAX_FILES_PER_PROCESS) lost /\
  32 * (zlen (fd_tables s) + zlen lost) < 2 ^ 32.

Lemma slots_of_bound a ts : Forall (fun t => length t = MAX_FILES_PER_PROCESS) ts -> slots_of a ts <= 32 * zlen ts.
Proof.
  intros H. unfold slots_of. induction H as [|t ts Ht H IH]; [done|]. cbn [concat]. rewrite occ_app.
  pose proof (tocc_bound a t). unfold zlen, MAX_FILES_PER_PROCESS in *. cbn [length]. lia.
Qed.

Lemma slots_bound s a : tables_ok s -> slots_of a (fd_tables s) + slots_of a lost < 2 ^ 32.
Proof.
  intros (Hl & Hk & Hb). pose proof (slots_of_bound a lost Hk). pose proof (slots_of_bound a (fd_tables s)) as Ht.
  rewrite Forall_lookup in Ht. specialize (Ht Hl). lia.
Qed.

(** Every file has as many references as slots of the processes and of the lost
    tables point to it, up to the correction [e] of the operation under way; a
    file without references does not exist. *)
Definition balanced (e : Z -> Z) (s : fdstate N) : Prop :=
  tables_ok s /\ 0 < fd_brk s /\
  (forall a f, fd_files s !! a = Some f -> 0 < a < fd_brk s) /\
  forall a, a <> 0 ->
    match fd_files s !! a with
    | Some f => vf_refs f = slots_of a (fd_tables s) + slots_of a lost + e a /\ 0 < vf_refs f < 2 ^ 32
    | None => slots_of a (fd_tables s) + slots_of a lost + e a = 0
    end.

Definition refs_ok (s : fdstate N) : Prop := balanced (fun _ => 0) s.

Lemma balanced_ext e e' s : (forall a, a <> 0 -> e' a = e a) -> balanced e s -> balanced e' s.
Proof. intros E (H1 & H2 & H3 & H4). split_and!; try done. intros a Ha. rewrite E by done. by apply H4. Qed.

Lemma wp_slot s pid fd t (Q : Z -> fdstate N -> Prop) :
  tables_ok s -> fd_tables s !! pid = Some t -> 0 <= fd < 32 ->
  (forall a, t !! Z.to_nat fd = Some a -> Q a s) -> wp (slot pid fd) Q s.
Proof.
  intros [Hl _] Ht Hfd HQ. unfold slot, table. wp_steps. eapply wp_opt; [exact Ht|].
  pose proof (Hl pid t Ht) as Hlen. unfold MAX_FILES_PER_PROCESS in Hlen.
  destruct (lookup_lt_is_Some_2 t (Z.to_nat fd)) as [a Ha]; [lia|]. eapply wp_rd; [lia | exact Ha | by apply HQ].
Qed.

(** The state after a store to a slot. *)
Definition slot_set (s : fdstate N) (pid : nat) (t : list Z) (fd b : Z) : fdstate N :=
  set_fd_tables (<[pid := <[Z.to_nat fd := b]> t]> (fd_tables s)) s.

Lemma slot_set_tables s pid t fd b : tables_ok s -> fd_tables s !! pid = Some t -> tables_ok (slot_set s pid t fd b).
Proof.
  intros [Hl Hb] Ht. split; [|by unfold slot_set; cbn; rewrite zlen_insert]. intros p t'. cbn.
  destruct (decide (p = pid)) as [->|Hp].
  - rewrite list_lookup_insert_eq by by eapply lookup_lt_Some. intros [= <-]. rewrite length_insert. by apply (Hl pid).
  - rewrite list_lookup_insert_ne by done. apply Hl.
Qed.

Lemma wp_put_slot e s pid fd t x b :
  balanced e s -> fd_tables s !! pid = Some t -> 0 <= fd < 32 -> t !! Z.to_nat fd = Some x ->
  wp (put_slot pid fd b)
    (fun _ s' => s' = slot_set s pid t fd b /\ balanced (fun a => e a + one x a - one b a) s') s.
Proof.
  intros (H1 & H2 & H3 & H4) Ht Hfd Hx. unfold put_slot, table. wp_steps. eapply wp_opt; [exact Ht|]. wp_steps.
  pose proof (lookup_lt_Some _ _ _ Hx) as Hlt. apply wp_upd; [unfold zlen; lia|]. wp_steps. split; [done|].
  split_and!; [by apply slot_set_tables | done | done|]. intros a Ha. cbn [slot_set set_fd_tables fd_files fd_tables].
  rewrite (slots_insert a _ _ _ _ Ht), (tocc_insert a _ _ _ _ Hx). specialize (H4 a Ha).
  destruct (fd_files s !! a); [|lia]. destruct H4 as [E1 E2]. split; [lia | done].
Qed.

Lemma wp_add_ref e s a :
  balanced e s -> is_Some (fd_files s !! a) -> slots_of a (fd_tables s) + slots_of a lost + e a + 1 < 2 ^ 32 ->
  wp (add_ref a) (fun _ s' => fd_tables s' = fd_tables s /\ fd_mem s' = fd_mem s /\
    (forall b, is_Some (fd_files s' !! b) <-> is_Some (fd_files s !! b)) /\
    (forall b, b <> a -> fd_files s' !! b = fd_files s !! b) /\
    (forall f, fd_files s !! a = Some f -> fd_files s' !! a = Some (set_vf_refs (vf_refs f + 1) f)) /\
    balanced (fun b => e b + one a b) s') s.
Proof.
  intros (H1 & H2 & H3 & H4) [f Hf] Hb. pose proof (H3 a f Hf) as Hpos. pose proof (H4 a ltac:(lia)) as Ha. rewrite Hf in Ha.
  unfold add_ref, file, put_file. wp_steps. eapply wp_opt; [exact Hf|]. wp_steps. rewrite u32_small by lia.
  cbn. split_and!; try done.
  - intros b. destruct (decide (b = a)) as [->|]; [rewrite lookup_insert_eq, Hf; split; eauto|]. by rewrite lookup_insert_ne.
  - intros b Hne. by rewrite lookup_insert_ne.
  - intros f' [= <-]%(eq_trans (eq_sym Hf)). by rewrite lookup_insert_eq.
  - split_and!; try done; cbn.
    + intros b g. destruct (decide (b = a)) as [->|]; [lia|]. rewrite lookup_insert_ne by done. apply H3.
    + intros b Hb0. destruct (decide (b = a)) as [->|Hne].
      * rewrite lookup_insert_eq. cbn. unfold one. rewrite decide_True by done. lia.
      * rewrite lookup_insert_ne by done. unfold one. rewrite decide_False by done. rewrite Z.add_0_r. by apply H4.
Qed.

(** ** Giving references up *)

(** The file [a] after one reference less. *)
Definition less_ref (f : vfs_file) : option vfs_file :=
  if decide (vf_refs f = 1) then None else Some (set_vf_refs (vf_refs f - 1) f).

Lemma balanced_drop e e' s s' a f :
  balanced e s -> fd_files s !! a = Some f -> tables_ok s' -> fd_brk s' = fd_brk s ->
  (forall b, b <> a -> fd_files s' !! b = fd_files s !! b) -> fd_files s' !! a = less_ref f ->
  (forall b, b <> 0 -> slots_of b (fd_tables s') + e' b = slots_of b (fd_tables s) + e b - one a b) ->
  balanced e' s'.
Proof.
  intros (H1 & H2 & H3 & H4) Hf Ht Eb Hoth Ha Hsum. pose proof (H3 a f Hf) as Hpos.
  split_and!; [done | by rewrite Eb | |].
  - intros b g Hg. rewrite Eb. destruct (decide (b = a)) as [->|]; [done|]. rewrite Hoth in Hg by done. by eapply H3.
  - intros b Hb. specialize (Hsum b Hb). specialize (H4 b Hb). destruct (decide (b = a)) as [->|Hne].
    + rewrite Ha. rewrite Hf in H4. unfold less_ref, one in *. rewrite decide_True in Hsum by done.
      case_decide; cbn; lia.
    + rewrite Hoth by done. unfold one in Hsum. rewrite decide_False in Hsum by congruence.
      destruct (fd_files s !! b); lia.
Qed.

(** The file system below answers every call. *)
Record nodes_total : Prop := {
  nt_open : forall path flags x, wp (nd_open nd path flags) (fun _ _ => True) x;
  nt_read : forall n off size x, wp (nd_read nd n off size) (fun _ _ => True) x;
  nt_write : forall n off src x, wp (nd_write nd n off src) (fun _ _ => True) x;
  nt_close : forall n x, wp (nd_close nd n) (fun _ _ => True) x;
  nt_size : forall n x, wp (nd_size nd n) (fun _ _ => True) x
}.
Context (Hnd : nodes_total).

(** [m] only touches the nodes. *)
Definition nodes_only (m : M (fdstate N) unit) : Prop :=
  forall s, wp m (fun _ s' => exists x, s' = set_fd_nodes x s) s.

Lemma close_nodes_only n : nodes_only (on_nodes (nd_close nd n)).
Proof. intros s. unfold on_nodes. wp_steps. eapply wp_mono; [apply (nt_close Hnd)|]. intros _ x _. by exists x. Qed.

Lemma maybe_close_nodes_only n : nodes_only (if n =? 0 then kret tt else on_nodes (nd_close nd n)).
Proof. destruct (n =? 0); [|apply close_nodes_only]. intros s. wp_steps. exists (fd_nodes s). by destruct s. Qed.

(** Close the node and free the file when no reference is left. *)
Lemma wp_maybe_free s a f r m :
  nodes_only m -> fd_files s !! a = Some (set_vf_refs r f) -> r = vf_refs f - 1 -> 0 < vf_refs f ->
  wp (if r =? 0 then m ;;; file_free a else kret tt)
    (fun _ s' => fd_tables s' = fd_tables s /\ fd_brk s' = fd_brk s /\
       (forall b, b <> a -> fd_files s' !! b = fd_files s !! b) /\ fd_files s' !! a = less_ref f) s.
Proof.
  intros Hm Hf Hr Hp. unfold less_ref. destruct (Z.eqb_spec r 0).
  - rewrite decide_True by lia. wp_steps. eapply wp_mono; [apply Hm|]. cbn beta. intros _ s1 [x ->].
    unfold file_free. wp_steps. cbn. split_and!; try done; [|apply lookup_delete_eq].
    intros b Hb. by rewrite lookup_delete_ne.
  - rewrite decide_False by lia. wp_steps. split_and!; try done. by rewrite Hf, Hr.
Qed.

Lemma wp_drop_ref e s a f :
  balanced e s -> fd_files s !! a = Some f ->
  wp (drop_ref nd a)
    (fun _ s' => fd_tables s' = fd_tables s /\ (forall b, b <> a -> fd_files s' !! b = fd_files s !! b) /\
       fd_files s' !! a = less_ref f /\ balanced (fun b => e b - one a b) s') s.
Proof.
  intros Hbal Hf. pose proof Hbal as (H1 & H2 & H3 & H4). pose proof (H3 a f Hf) as Hpos.
  pose proof (H4 a ltac:(lia)) as Ha. rewrite Hf in Ha. unfold drop_ref, file, put_file. wp_steps.
  eapply wp_opt; [exact Hf|]. wp_steps. rewrite u32_small by lia.
  eapply wp_mono; [apply (wp_maybe_free _ a f); [apply maybe_close_nodes_only | apply lookup_insert_eq | done | lia]|].
  cbn. intros _ s' (E1 & E2 & E3 & E4).
  assert (E3' : forall b, b <> a -> fd_files s' !! b = fd_files s !! b).
  { intros b Hb. rewrite E3 by done. by rewrite lookup_insert_ne. }
  split_and!; try done. eapply (balanced_drop e _ s s' a f); try done.
  - unfold tables_ok. by rewrite E1.
  - intros b Hb. rewrite E1. lia.
Qed.

(** ** The operations keep the count *)

Lemma slot_live e s pid t fd a :
  balanced e s -> fd_tables s !! pid = Some t -> t !! Z.to_nat fd = Some a -> a <> 0 -> 0 <= e a ->
  exists f, fd_files s !! a = Some f.
Proof.
  intros (H1 & H2 & H3 & H4) Ht Ha H0 He. specialize (H4 a H0). destruct (fd_files s !! a) as [f|]; [eauto|].
  pose proof (occ_lookup a t _ Ha). pose proof (slots_lookup a _ _ _ Ht). pose proof (slots_nonneg a lost). lia.
Qed.

Lemma fd_ok_spec fd : fd_ok fd = true <-> 0 <= fd < 32.
Proof. unfold fd_ok, MAX_FILES_PER_PROCESS. rewrite andb_true_iff, Z.leb_le, Z.ltb_lt. lia. Qed.

(** What [sys_close] of an open descriptor does. *)
Lemma wp_sys_close s pid t fd a f :
  refs_ok s -> fd_tables s !! pid = Some t -> 0 <= fd < 32 -> t !! Z.to_nat fd = Some a -> a <> 0 ->
  fd_files s !! a = Some f ->
  wp (sys_close nd pid fd)
    (fun r s' => r = 0 /\ refs_ok s' /\ fd_tables s' = <[pid := <[Z.to_nat fd := 0]> t]> (fd_tables s) /\
       fd_files s' !! a = less_ref f /\ forall b, b <> a -> fd_files s' !! b = fd_files s !! b) s.
Proof.
  intros Hbal Ht Hfd Ha H0 Hf. pose proof Hbal as (H1 & H2 & H3 & H4).
  pose proof (H4 a H0) as Hra. rewrite Hf in Hra.
  unfold sys_close. rewrite (proj2 (fd_ok_spec fd)) by done. cbn [negb]. wp_steps.
  eapply (wp_slot s); [done..|]. intros a' Ha'. assert (a' = a) as -> by congruence.
  rewrite (proj2 (Z.eqb_neq a 0)) by done. unfold file, put_file, put_slot, table. wp_steps.
  eapply wp_opt; [exact Hf|]. wp_steps. eapply wp_opt; [exact Ht|]. wp_steps.
  pose proof (lookup_lt_Some _ _ _ Ha) as Hlt. apply wp_upd; [unfold zlen; lia|]. wp_steps.
  rewrite u32_small by lia. eapply wp_mono; [apply (wp_maybe_free _ a f); [apply maybe_close_nodes_only | apply lookup_insert_eq | done | lia]|].
  cbn. intros _ s' (E1 & E2 & E3 & E4). wp_steps.
  assert (E3' : forall b, b <> a -> fd_files s' !! b = fd_files s !! b).
  { intros b Hb. rewrite E3 by done. by rewrite lookup_insert_ne. }
  split_and!; try done. eapply (balanced_drop _ _ s s' a f); try done.
  - pose proof (slot_set_tables s pid t fd 0 H1 Ht) as Hts. unfold tables_ok in *. by rewrite E1.
  - intros b Hb. rewrite E1, (slots_insert b _ _ _ _ Ht), (tocc_insert b _ _ _ _ Ha).
    unfold one at 2. rewrite decide_False by done. lia.
Qed.


Lemma slot_set_table s pid t fd b :
  fd_tables s !! pid = Some t -> fd_tables (slot_set s pid t fd b) !! pid = Some (<[Z.to_nat fd := b]> t).
Proof. intros Ht. cbn. apply list_lookup_insert_eq. by eapply lookup_lt_Some. Qed.

(** The slot [newfd] made to point to [a], whatever it held is dropped first. *)
Lemma wp_replace_slot s pid t oldfd newfd a x :
  refs_ok s -> fd_tables s !! pid = Some t -> 0 <= oldfd < 32 -> 0 <= newfd < 32 -> oldfd <> newfd ->
  t !! Z.to_nat oldfd = Some a -> a <> 0 -> t !! Z.to_nat newfd = Some x ->
  wp ((if x =? 0 then kret tt else drop_ref nd x ;;; put_slot pid newfd 0) ;;; put_slot pid newfd a ;;; add_ref a)
    (fun _ s' => refs_ok s' /\ fd_tables s' = <[pid := <[Z.to_nat newfd := a]> t]> (fd_tables s)) s.
Proof.
  intros Hbal Ht Ho Hn Hne Ha H0 Hx.
  assert (Hnx : Z.to_nat newfd <> Z.to_nat oldfd) by lia.
  (* the slot is empty, then it takes the file *)
  assert (Hlast : forall s1 t1, refs_ok s1 -> fd_tables s1 !! pid = Some t1 -> t1 !! Z.to_nat newfd = Some 0 ->
    t1 !! Z.to_nat oldfd = Some a ->
    wp (put_slot pid newfd a) (fun _ s2 => wp (add_ref a)
      (fun _ s' => refs_ok s' /\ fd_tables s' = <[pid := <[Z.to_nat newfd := a]> t1]> (fd_tables s1)) s2) s1).
  { intros s1 t1 Hb1 Ht1 Hz Ha1. eapply wp_mono; [by apply (wp_put_slot _ s1 pid newfd t1 0 a Hb1)|].
    cbn beta. intros _ s2 [-> Hb2]. pose proof (slot_live _ s1 pid t1 oldfd a Hb1 Ht1 Ha1 H0 ltac:(lia)) as [f Hf].
    pose proof Hb2 as (Ht2 & _). pose proof (slots_bound _ a Ht2) as Hsb.
    eapply wp_mono; [apply (wp_add_ref _ _ a Hb2); [by eexists | unfold one; rewrite decide_False, decide_True by done; lia]|].
    cbn beta. intros _ s3 (E1 & _ & _ & _ & _ & Hb3). split; [|done].
    eapply balanced_ext; [|exact Hb3]. intros b Hb. cbn beta. unfold one. rewrite (decide_False (P := 0 = b)) by done. lia. }
  wp_steps. destruct (Z.eqb_spec x 0) as [->|Hx0]; wp_steps.
  { by apply (Hlast s t). }
  pose proof (slot_live _ s pid t newfd x Hbal Ht Hx Hx0 ltac:(lia)) as [f Hf].
  eapply wp_mono; [by apply (wp_drop_ref (fun _ => 0) s x f)|]. cbn beta. intros _ s1 (E1 & _ & _ & Hb1). wp_steps.
  assert (Ht1 : fd_tables s1 !! pid = Some t) by by rewrite E1.
  eapply wp_mono; [by apply (wp_put_slot _ s1 pid newfd t x 0 Hb1)|]. cbn beta. intros _ s2 [-> Hb2].
  pose proof (lookup_lt_Some _ _ _ Hx) as Hlt. wp_steps.
  eapply wp_mono; [apply (Hlast _ (<[Z.to_nat newfd := 0]> t))|].
  - eapply balanced_ext; [|exact Hb2]. intros b Hb. cbn beta. unfold one. rewrite (decide_False (P := 0 = b)) by done. lia.
  - by apply slot_set_table.
  - by rewrite list_lookup_insert_eq.
  - by rewrite list_lookup_insert_ne.
  - cbn beta. intros _ s3 Hw. eapply wp_mono; [exact Hw|]. cbn beta. intros _ s4 (Hb3 & E3). split; [done|]. rewrite E3. cbn. rewrite list_insert_insert_eq, E1.
    by rewrite list_insert_insert_eq.
Qed.

Lemma wp_k_dup2 s pid t oldfd newfd :
  refs_ok s -> fd_tables s !! pid = Some t ->
  wp (k_dup2 nd pid oldfd newfd)
    (fun r s' => refs_ok s' /\
       if fd_ok oldfd && fd_ok newfd then
         match t !! Z.to_nat oldfd with
         | Some a => if a =? 0 then r = -1 /\ s' = s
                     else r = newfd /\ fd_tables s' = <[pid := <[Z.to_nat newfd := a]> t]> (fd_tables s)
         | None => False
         end
       else r = -1 /\ s' = s) s.
Proof.
  intros Hbal Ht. pose proof Hbal as (H1 & _). unfold k_dup2.
  destruct (fd_ok oldfd) eqn:Eo; cbn [negb andb]; [|by wp_steps].
  destruct (fd_ok newfd) eqn:En; cbn [negb andb]; [|by wp_steps].
  apply fd_ok_spec in Eo, En. wp_steps. eapply (wp_slot s); [done..|]. intros a Ha. rewrite Ha.
  destruct (Z.eqb_spec oldfd newfd) as [<-|Hne].
  { wp_steps. split; [done|]. destruct (Z.eqb_spec a 0); [done|]. split; [done|].
    rewrite (list_insert_id t) by done. by rewrite list_insert_id. }
  destruct (Z.eqb_spec a 0); [by wp_steps|]. wp_steps. eapply (wp_slot s); [done..|]. intros x Hx.
  pose proof (wp_replace_slot s pid t oldfd newfd a x Hbal Ht Eo En Hne Ha ltac:(done) Hx) as Hw.
  wp_steps. eapply wp_mono; [exact (wp_bind_inv _ _ _ _ Hw)|]. cbn beta. intros _ s1 Hw1. wp_steps.
  eapply wp_mono; [exact (wp_bind_inv _ _ _ _ Hw1)|]. cbn beta. intros _ s2 Hw2. wp_steps.
  eapply wp_mono; [exact Hw2|]. cbn beta. intros _ s3 [Hb3 Ht3]. by wp_steps.
Qed.

Lemma free_fd_spec i t fd : free_fd i t = Some fd -> i <= fd /\ t !! Z.to_nat (fd - i) = Some 0.
Proof.
  revert i. induction t as [|a t IH]; intros i; cbn; [done|]. destruct (Z.eqb_spec a 0) as [->|].
  - intros [= <-]. rewrite Z.sub_diag. by split.
  - intros H. destruct (IH (i + 1) H) as [H1 H2]. split; [lia|].
    replace (Z.to_nat (fd - i)) with (S (Z.to_nat (fd - (i + 1)))) by lia. done.
Qed.

Lemma set_nodes_balanced e s x : balanced e s -> balanced e (set_fd_nodes x s).
Proof. done. Qed.

(** A new file takes the free slot. *)
Lemma wp_sys_open s pid t path flags :
  refs_ok s -> fd_tables s !! pid = Some t ->
  wp (sys_open nd pid path flags)
    (fun r s' => refs_ok s' /\
       (0 <= r -> free_fd 0 t = Some r /\ fd_tables s' = <[pid := <[Z.to_nat r := fd_brk s]> t]> (fd_tables s) /\
          exists n, n <> 0 /\ fd_files s' = <[fd_brk s := File n 0 flags 1]> (fd_files s)) /\
       (r < 0 -> fd_tables s' = fd_tables s /\ fd_files s' = fd_files s)) s.
Proof.
  intros Hbal Ht. unfold sys_open, on_nodes. wp_steps. eapply wp_mono; [apply (nt_open Hnd)|]. cbn beta.
  intros n x _. set (s1 := set_fd_nodes x s). assert (Hb1 : refs_ok s1) by done.
  destruct (Z.eqb_spec n 0) as [->|Hn]; wp_steps; [split_and!; [done | lia | done]|].
  unfold table. wp_steps. eapply wp_opt; [exact Ht|].
  destruct (free_fd 0 t) as [fd|] eqn:Efd; wp_steps.
  2:{ eapply wp_mono; [apply (nt_close Hnd)|]. cbn beta. intros _ x2 _. wp_steps. split_and!; [done | lia | done]. }
  apply free_fd_spec in Efd as [Hfd0 Hz]. rewrite Z.sub_0_r in Hz.
  pose proof Hbal as (H1 & H2 & H3 & H4). pose proof (proj1 H1 pid t Ht) as Hlen. unfold MAX_FILES_PER_PROCESS in Hlen.
  pose proof (lookup_lt_Some _ _ _ Hz) as Hlt.
  unfold file_alloc. wp_steps. destruct (fd_mem s1) as [|m]; wp_steps.
  { cbn [Z.eqb]. wp_steps. eapply wp_mono; [apply (nt_close Hnd)|]. cbn beta. intros _ x2 _. wp_steps. split_and!; [done | lia | done]. }
  set (a := fd_brk s1). assert (Ha0 : a <> 0) by (unfold a, s1; cbn; lia).
  rewrite (proj2 (Z.eqb_neq a 0)) by done. unfold put_file, put_slot, table. wp_steps.
  eapply wp_opt; [exact Ht|]. wp_steps. apply wp_upd; [unfold zlen; lia|]. wp_steps.
  unfold add_ref, file, put_file. wp_steps. eapply wp_opt; [apply lookup_insert_eq|]. wp_steps.
  change (u32 (vf_refs (File n 0 flags 0) + 1)) with 1.
  assert (Hnone : fd_files s !! a = None).
  { destruct (fd_files s !! a) as [g|] eqn:E; [|done]. pose proof (H3 a g E). unfold a, s1 in *. cbn in *. lia. }
  split_and!.
  - split_and!; cbn.
    + apply (slot_set_tables s pid t fd a H1 Ht).
    + lia.
    + intros b g. rewrite insert_insert_eq. destruct (decide (b = a)) as [->|Hne]; [unfold a, s1; cbn; lia|].
      rewrite lookup_insert_ne by done. intros Hg. pose proof (H3 b g Hg). lia.
    + intros b Hb. rewrite insert_insert_eq, (slots_insert b _ _ _ _ Ht), (tocc_insert b _ _ _ _ Hz).
      specialize (H4 b Hb). unfold one. rewrite (decide_False (P := 0 = b)) by congruence.
      destruct (decide (b = a)) as [->|Hne].
      * rewrite lookup_insert_eq. rewrite Hnone in H4. rewrite decide_True by done. cbn in H4 |- *. lia.
      * rewrite lookup_insert_ne by done. rewrite decide_False by (unfold a, s1 in Hne; cbn in Hne; congruence). destruct (fd_files s !! b); lia.
  - intros _. cbn. split_and!; [done | done|]. exists n. split; [done|]. by rewrite insert_insert_eq.
  - lia.
Qed.

(** Moving the position of a file changes no count. *)
Lemma offset_balanced s a f pos :
  refs_ok s -> fd_files s !! a = Some f -> refs_ok (set_fd_files (<[a := set_vf_offset pos f]> (fd_files s)) s).
Proof.
  intros (H1 & H2 & H3 & H4) Hf. split_and!; try done; cbn.
  - intros b g. destruct (decide (b = a)) as [->|]; [intros _; by eapply H3|]. rewrite lookup_insert_ne by done. apply H3.
  - intros b Hb. specialize (H4 b Hb). destruct (decide (b = a)) as [->|]; [|by rewrite lookup_insert_ne].
    rewrite lookup_insert_eq. by rewrite Hf in H4.
Qed.

Lemma wp_vfs_seek s a f offset whence :
  fd_files s !! a = Some f -> a <> 0 ->
  wp (vfs_seek nd a offset whence)
    (fun r s' => fd_tables s' = fd_tables s /\ fd_brk s' = fd_brk s /\
       (fd_files s' = fd_files s \/ exists pos, fd_files s' = <[a := set_vf_offset pos f]> (fd_files s))) s.
Proof.
  intros Hf Ha. unfold vfs_seek. rewrite (proj2 (Z.eqb_neq a 0)) by done. unfold file. wp_steps.
  eapply wp_opt; [exact Hf|]. destruct (vf_node f =? 0); [wp_steps; split_and!; try done; by left|].
  unfold on_nodes. wp_steps. eapply wp_mono; [apply (nt_size Hnd)|]. cbn beta. intros sz x _.
  destruct (if whence =? VFS_SEEK_SET then _ else _) as [base|]; [|wp_steps; split_and!; try done; by left].
  destruct (seek_to base offset) as [pos|]; [|wp_steps; split_and!; try done; by left].
  unfold put_file. wp_steps. split_and!; try done. right. by exists pos.
Qed.

Lemma seek_balanced s s' a f :
  refs_ok s -> fd_files s !! a = Some f -> fd_tables s' = fd_tables s -> fd_brk s' = fd_brk s ->
  (fd_files s' = fd_files s \/ exists pos, fd_files s' = <[a := set_vf_offset pos f]> (fd_files s)) -> refs_ok s'.
Proof.
  intros Hbal Hf Et Eb Hfiles.
  assert (Hgen : forall s2, refs_ok s2 -> fd_tables s' = fd_tables s2 -> fd_brk s' = fd_brk s2 ->
    fd_files s' = fd_files s2 -> refs_ok s').
  { intros s2 (H1 & H2 & H3 & H4) E1 E2 E3. split_and!; unfold tables_ok in *; rewrite ?E1, ?E2, ?E3; done. }
  destruct Hfiles as [E|[pos E]]; [by apply (Hgen s)|].
  by apply (Hgen (set_fd_files (<[a := set_vf_offset pos f]> (fd_files s)) s)); [apply offset_balanced|..].
Qed.


(** Reading, writing and seeking keep the tables. *)
Definition io_done (s s' : fdstate N) : Prop := refs_ok s' /\ fd_tables s' = fd_tables s.

Lemma wp_sys_read s pid t fd size :
  refs_ok s -> fd_tables s !! pid = Some t -> wp (sys_read nd pid fd size) (fun _ s' => io_done s s') s.
Proof.
  intros Hbal Ht. pose proof Hbal as (H1 & _). unfold sys_read. destruct (fd_ok fd) eqn:Efd; cbn [negb]; [|by wp_steps].
  apply fd_ok_spec in Efd. wp_steps. eapply (wp_slot s); [done..|]. intros a Ha.
  destruct (Z.eqb_spec a 0) as [|Ha0]; [by wp_steps|].
  pose proof (slot_live _ s pid t fd a Hbal Ht Ha Ha0 ltac:(lia)) as [f Hf].
  unfold file, on_nodes. wp_steps. eapply wp_opt; [exact Hf|]. wp_steps. eapply wp_mono; [apply (nt_read Hnd)|].
  cbn beta. intros r x _. destruct (0 <? r.1); wp_steps; [|done]. unfold put_file. wp_steps.
  split; [|done]. by apply (offset_balanced (set_fd_nodes x s) a f).
Qed.

Lemma wp_sys_write s pid t fd src :
  refs_ok s -> fd_tables s !! pid = Some t -> wp (sys_write nd pid fd src) (fun _ s' => io_done s s') s.
Proof.
  intros Hbal Ht. pose proof Hbal as (H1 & _). unfold sys_write. destruct (fd_ok fd) eqn:Efd; cbn [negb]; [|by wp_steps].
  apply fd_ok_spec in Efd. wp_steps. eapply (wp_slot s); [done..|]. intros a Ha.
  destruct (Z.eqb_spec a 0) as [|Ha0]; [by wp_steps|].
  pose proof (slot_live _ s pid t fd a Hbal Ht Ha Ha0 ltac:(lia)) as [f Hf].
  unfold file, on_nodes. wp_steps. eapply wp_opt; [exact Hf|]. wp_steps. eapply wp_mono; [apply (nt_write Hnd)|].
  cbn beta. intros r x _. destruct (0 <? r); wp_steps; [|done]. unfold put_file. wp_steps.
  split; [|done]. by apply (offset_balanced (set_fd_nodes x s) a f).
Qed.

Lemma wp_sys_seek s pid t fd offset whence :
  refs_ok s -> fd_tables s !! pid = Some t -> wp (sys_seek nd pid fd offset whence) (fun _ s' => io_done s s') s.
Proof.
  intros Hbal Ht. pose proof Hbal as (H1 & _). unfold sys_seek. destruct (fd_ok fd) eqn:Efd; cbn [negb]; [|by wp_steps].
  apply fd_ok_spec in Efd. wp_steps. eapply (wp_slot s); [done..|]. intros a Ha.
  destruct (Z.eqb_spec a 0) as [|Ha0]; [by wp_steps|].
  pose proof (slot_live _ s pid t fd a Hbal Ht Ha Ha0 ltac:(lia)) as [f Hf].
  eapply wp_mono; [by apply (wp_vfs_seek s a f)|]. cbn beta. intros _ s' (E1 & E2 & E3).
  split; [by eapply seek_balanced | done].
Qed.

Lemma wp_sys_close_any s pid t fd :
  refs_ok s -> fd_tables s !! pid = Some t ->
  wp (sys_close nd pid fd) (fun _ s' => refs_ok s' /\ length (fd_tables s') = length (fd_tables s)) s.
Proof.
  intros Hbal Ht. destruct (fd_ok fd) eqn:Efd; [|unfold sys_close; rewrite Efd; cbn [negb]; by wp_steps].
  pose proof (proj1 (fd_ok_spec fd) Efd) as Hfd. pose proof Hbal as (H1 & _).
  pose proof (proj1 H1 pid t Ht) as Hlen. unfold MAX_FILES_PER_PROCESS in Hlen.
  destruct (lookup_lt_is_Some_2 t (Z.to_nat fd)) as [a Ha]; [lia|]. destruct (decide (a = 0)) as [->|Ha0].
  - unfold sys_close. rewrite Efd. cbn [negb]. wp_steps. eapply (wp_slot s); [done..|]. intros b Hb.
    assert (b = 0) as -> by congruence. cbn [Z.eqb]. by wp_steps.
  - pose proof (slot_live _ s pid t fd a Hbal Ht Ha Ha0 ltac:(lia)) as [f Hf].
    eapply wp_mono; [by apply (wp_sys_close s pid t fd a f)|]. cbn beta. intros _ s' (_ & Hb' & Et & _).
    split; [done|]. by rewrite Et, length_insert.
Qed.

(** ** Inheritance and exit *)

Lemma wp_clone_files s parent child t :
  refs_ok s -> parent <> child -> fd_tables s !! parent = Some t ->
  fd_tables s !! child = Some (replicate MAX_FILES_PER_PROCESS 0) ->
  wp (clone_files parent child)
    (fun _ s' => refs_ok s' /\ fd_tables s' = <[child := t]> (fd_tables s)) s.
Proof.
  intros Hbal Hne Ht Hc. pose proof Hbal as (H1 & _). pose proof (proj1 H1 parent t Ht) as Hlen.
  unfold clone_files. apply (wp_for (fun i s' => refs_ok s' /\
    fd_tables s' = <[child := take (Z.to_nat i) t ++ replicate (32 - Z.to_nat i) 0]> (fd_tables s))).
  - split; [done|]. cbn [Z.to_nat take app Nat.sub]. rewrite list_insert_id; [done|]. exact Hc.
  - intros i s1 Hi [Hb1 Et1]. unfold MAX_FILES_PER_PROCESS in *. cbn in Hi.
    set (tc := take (Z.to_nat i) t ++ replicate (32 - Z.to_nat i) 0) in *.
    assert (Hpt : fd_tables s1 !! parent = Some t) by (rewrite Et1, list_lookup_insert_ne by done; done).
    assert (Hct : fd_tables s1 !! child = Some tc).
    { rewrite Et1. apply list_lookup_insert_eq. by eapply lookup_lt_Some. }
    assert (Htl : length (take (Z.to_nat i) t) = Z.to_nat i) by (rewrite length_take; lia).
    assert (Hz : tc !! Z.to_nat i = Some 0).
    { unfold tc. rewrite lookup_app_r by lia. rewrite Htl, Nat.sub_diag.
      destruct (32 - Z.to_nat i)%nat eqn:E; [lia|]. done. }
    destruct (lookup_lt_is_Some_2 t (Z.to_nat i)) as [a Ha]; [lia|].
    assert (Hnext : <[Z.to_nat i := a]> tc = take (Z.to_nat (i + 1)) t ++ replicate (32 - Z.to_nat (i + 1)) 0).
    { unfold tc. rewrite insert_app_r_alt by lia. rewrite Htl, Nat.sub_diag.
      replace (32 - Z.to_nat i)%nat with (S (32 - Z.to_nat (i + 1))) by lia. cbn [replicate].
      change (<[0%nat := a]> (0 :: ?l)) with (a :: l).
      replace (Z.to_nat (i + 1)) with (S (Z.to_nat i)) by lia. rewrite (take_S_r t _ a) by done.
      rewrite <- app_assoc. done. }
    pose proof Hb1 as (T1 & _). wp_steps. eapply (wp_slot s1); [done | exact Hpt | lia|]. intros b Hb.
    assert (b = a) as -> by congruence. destruct (Z.eqb_spec a 0) as [->|Ha0].
    { wp_steps. split; [done|]. rewrite Et1, <- Hnext. f_equal. symmetry. by apply list_insert_id. }
    pose proof (slot_live _ s1 parent t i a Hb1 Hpt Ha Ha0 ltac:(lia)) as [f Hf].
    wp_steps. eapply wp_mono; [by apply (wp_put_slot _ s1 child i tc 0 a Hb1 Hct); [lia|]|].
    cbn beta. intros _ s2 [-> Hb2]. pose proof Hb2 as (T2 & _). pose proof (slots_bound _ a T2).
    eapply wp_mono; [apply (wp_add_ref _ _ a Hb2); [by eexists | unfold one; rewrite decide_False, decide_True by done; lia]|].
    cbn beta. intros _ s3 (E1 & _ & _ & _ & _ & Hb3). split.
    + eapply balanced_ext; [|exact Hb3]. intros c Hc0. cbn beta. unfold one. rewrite (decide_False (P := 0 = c)) by done. lia.
    + rewrite E1. cbn. rewrite Et1, list_insert_insert_eq, Hnext. done.
  - intros s' [Hb' Et']. split; [done|]. rewrite Et'. unfold MAX_FILES_PER_PROCESS in *. cbn.
    rewrite take_ge by lia. by rewrite app_nil_r.
Qed.

(** One slot of the table is released. *)
Lemma wp_destroy_slot s pid t i :
  refs_ok s -> fd_tables s !! pid = Some t -> 0 <= i < 32 ->
  wp (a <-- slot pid i ;;
      if a =? 0 then kret tt else
      f <-- file a ;;
      let r := u32 (vf_refs f - 1) in
      put_file a (set_vf_refs r f) ;;;
      (if r =? 0 then on_nodes (nd_close nd (vf_node f)) ;;; file_free a else kret tt) ;;;
      put_slot pid i 0)
    (fun _ s' => refs_ok s' /\ fd_tables s' = <[pid := <[Z.to_nat i := 0]> t]> (fd_tables s)) s.
Proof.
  intros Hbal Ht Hi. pose proof Hbal as (H1 & H2 & H3 & H4). wp_steps. eapply (wp_slot s); [done..|]. intros a Ha.
  destruct (Z.eqb_spec a 0) as [->|Ha0].
  { wp_steps. split; [done|]. rewrite (list_insert_id t) by done. by rewrite list_insert_id. }
  pose proof (slot_live _ s pid t i a Hbal Ht Ha Ha0 ltac:(lia)) as [f Hf].
  pose proof (H4 a Ha0) as Hra. rewrite Hf in Hra. unfold file, put_file. wp_steps. eapply wp_opt; [exact Hf|]. wp_steps.
  rewrite u32_small by lia.
  eapply wp_mono; [apply (wp_maybe_free _ a f); [apply close_nodes_only | apply lookup_insert_eq | done | lia]|].
  cbn. intros _ s1 (E1 & E2 & E3 & E4).
  assert (Hb1 : balanced (fun b => 0 - one a b) s1).
  { eapply (balanced_drop (fun _ => 0) _ s s1 a f); try done.
    - unfold tables_ok. by rewrite E1.
    - intros b Hb. rewrite E3 by done. by rewrite lookup_insert_ne.
    - intros b Hb. rewrite E1. lia. }
  assert (Ht1 : fd_tables s1 !! pid = Some t) by by rewrite E1.
  eapply wp_mono; [by apply (wp_put_slot _ s1 pid i t a 0 Hb1)|]. cbn beta. intros _ s2 [-> Hb2].
  split; [|cbn; by rewrite E1]. eapply balanced_ext; [|exact Hb2]. intros b Hb. cbn beta. unfold one.
  rewrite (decide_False (P := 0 = b)) by done. lia.
Qed.

Lemma wp_process_file_destroy s pid t :
  refs_ok s -> fd_tables s !! pid = Some t ->
  wp (process_file_destroy nd pid)
    (fun _ s' => refs_ok s' /\ fd_tables s' = <[pid := replicate MAX_FILES_PER_PROCESS 0]> (fd_tables s)) s.
Proof.
  intros Hbal Ht. pose proof Hbal as (H1 & _). pose proof (proj1 H1 pid t Ht) as Hlen. unfold MAX_FILES_PER_PROCESS in Hlen.
  unfold process_file_destroy. apply (wp_for (fun i s' => refs_ok s' /\
    fd_tables s' = <[pid := replicate (Z.to_nat i) 0 ++ drop (Z.to_nat i) t]> (fd_tables s))).
  - split; [done|]. cbn. by rewrite list_insert_id.
  - intros i s1 Hi [Hb1 Et1]. unfold MAX_FILES_PER_PROCESS in *. cbn in Hi.
    set (tc := replicate (Z.to_nat i) 0 ++ drop (Z.to_nat i) t) in *.
    assert (Hct : fd_tables s1 !! pid = Some tc).
    { rewrite Et1. apply list_lookup_insert_eq. by eapply lookup_lt_Some. }
    eapply wp_mono; [by apply (wp_destroy_slot s1 pid tc i)|]. cbn beta. intros _ s2 [Hb2 Et2]. split; [done|].
    rewrite Et2, Et1, list_insert_insert_eq. f_equal. unfold tc.
    destruct (lookup_lt_is_Some_2 t (Z.to_nat i)) as [a Ha]; [lia|].
    rewrite insert_app_r_alt by (rewrite length_replicate; lia). rewrite length_replicate, Nat.sub_diag.
    rewrite (drop_S t a) by done. change (<[0%nat := 0]> (a :: ?l)) with (0 :: l).
    replace (Z.to_nat (i + 1)) with (S (Z.to_nat i)) by lia. rewrite replicate_S_end, <- app_assoc. done.
  - intros s' [Hb' Et']. split; [done|]. rewrite Et'. unfold MAX_FILES_PER_PROCESS. cbn [Z.add Z.of_nat Pos.of_succ_nat Z.to_nat].
    rewrite drop_ge by (rewrite Hlen; vm_compute; lia). rewrite app_nil_r. done.
Qed.


(** A new process with an empty table. *)
Lemma new_table s :
  refs_ok s -> 32 * (zlen (fd_tables s) + zlen lost + 1) < 2 ^ 32 ->
  refs_ok (set_fd_tables (fd_tables s ++ [replicate MAX_FILES_PER_PROCESS 0]) s).
Proof.
  intros (H1 & H2 & H3 & H4) Hb. set (s1 := set_fd_tables _ s).
  assert (Hslots : forall a, a <> 0 -> slots_of a (fd_tables s1) = slots_of a (fd_tables s)).
  { intros a Ha. unfold s1. cbn [set_fd_tables fd_tables]. rewrite slots_app.
    assert (Hz : slots_of a [replicate MAX_FILES_PER_PROCESS 0] = 0); [|lia]. unfold slots_of, occ. cbn [concat]. rewrite app_nil_r.
    rewrite (proj1 (count_occ_not_In Z.eq_dec _ _)); [done|].
    intros Hin. apply list_elem_of_In, elem_of_replicate in Hin as [-> _]. done. }
  split_and!; try done.
  - split; [|split; [apply H1|cbn; unfold zlen in *; rewrite length_app; cbn; lia]]. intros p t' Hp. cbn in Hp.
    apply lookup_app_Some in Hp as [Hp|[_ Hp]]; [by apply (proj1 H1 p)|].
    apply list_lookup_singleton_Some in Hp as [_ <-]. done.
  - intros a Ha. rewrite Hslots by done. by apply H4.
Qed.

(** [sys_close] frees the slot and gives one reference up: the file is
    closed and released exactly when this was its last descriptor, and keeps
    its position and one reference less otherwise; all other files and slots
    are as before. *)
Theorem sys_close_correct s pid t fd a f :
  refs_ok s -> fd_tables s !! pid = Some t -> 0 <= fd < 32 -> t !! Z.to_nat fd = Some a -> a <> 0 ->
  fd_files s !! a = Some f ->
  wp (sys_close nd pid fd)
    (fun r s' => r = 0 /\ refs_ok s' /\ fd_tables s' = <[pid := <[Z.to_nat fd := 0]> t]> (fd_tables s) /\
       fd_files s' !! a = (if decide (slots_of a (fd_tables s) + slots_of a lost = 1) then None
                           else Some (set_vf_refs (vf_refs f - 1) f)) /\
       forall b, b <> a -> fd_files s' !! b = fd_files s !! b) s.
Proof.
  intros Hbal Ht Hfd Ha H0 Hf. pose proof Hbal as (_ & _ & _ & H4). pose proof (H4 a H0) as Hr. rewrite Hf in Hr.
  eapply wp_mono; [by apply (wp_sys_close s pid t fd a f)|]. cbn beta. intros r s' (E1 & E2 & E3 & E4 & E5).
  split_and!; try done. rewrite E4. unfold less_ref. do 2 case_decide; done || lia.
Qed.

(** [k_dup2] makes the two descriptors share one open file: it returns the
    new descriptor, whose slot then holds the file of the old one, after giving
    up whatever the slot held; out-of-range or closed descriptors are refused
    with -1 and change nothing. *)
Theorem k_dup2_correct s pid t oldfd newfd :
  refs_ok s -> fd_tables s !! pid = Some t ->
  wp (k_dup2 nd pid oldfd newfd)
    (fun r s' => refs_ok s' /\
       if fd_ok oldfd && fd_ok newfd then
         match t !! Z.to_nat oldfd with
         | Some a => if a =? 0 then r = -1 /\ s' = s
                     else r = newfd /\ fd_tables s' = <[pid := <[Z.to_nat newfd := a]> t]> (fd_tables s)
         | None => False
         end
       else r = -1 /\ s' = s) s.
Proof. apply wp_k_dup2. Qed.

End lost.

Context (Hnd : nodes_total).

(** The table of a process that is freed with its references is lost. *)
Lemma lose_table lost s n t :
  refs_ok lost s -> fd_tables s = n ++ [t] -> refs_ok (lost ++ [t]) (set_fd_tables n s).
Proof.
  intros (H1 & H2 & H3 & H4) Et. destruct H1 as (Hl & Hk & Hb). rewrite Et in *.
  assert (Ht : length t = MAX_FILES_PER_PROCESS) by (apply (Hl (length n)); by rewrite lookup_app_r, Nat.sub_diag).
  assert (Hs : forall a, slots_of a n + slots_of a (lost ++ [t]) = slots_of a (n ++ [t]) + slots_of a lost) by (intros a; rewrite !slots_app; lia).
  split_and!; try done.
  - split_and!; cbn.
    + intros p u Hp. apply (Hl p). by apply lookup_app_l_Some.
    + apply Forall_app. split; [done|]. by repeat constructor.
    + unfold zlen in *. rewrite !length_app in *. cbn in *. lia.
  - intros a Ha. cbn [set_fd_tables fd_tables fd_files]. rewrite Hs. by apply H4.
Qed.

(** A clone: the child has the table of the parent, or an empty one; or it is
    not made, and the table it had got is lost. *)
Lemma wp_clone_process lost s parent t files thread :
  refs_ok lost s -> fd_tables s !! parent = Some t -> 32 * (zlen (fd_tables s) + zlen lost + 1) < 2 ^ 32 ->
  wp (clone_process parent files thread) (fun more s' => refs_ok (lost ++ more) s' /\
    let t' := if files then t else replicate MAX_FILES_PER_PROCESS 0 in
    if thread then more = [] /\ fd_tables s' = fd_tables s ++ [t'] else more = [t'] /\ fd_tables s' = fd_tables s) s.
Proof.
  intros Hbal Ht Hb. unfold clone_process. wp_steps.
  pose proof (lookup_lt_Some _ _ _ Ht) as Hlt. set (s1 := set_fd_tables _ s).
  assert (Hb1 : refs_ok lost s1) by by apply new_table. set (t' := if files then t else _).
  assert (Hw : wp (if files then clone_files parent (length (fd_tables s)) else kret tt)
    (fun _ s' => refs_ok lost s' /\ fd_tables s' = fd_tables s ++ [t']) s1).
  { unfold t'. destruct files; [|by wp_steps].
    eapply wp_mono; [apply (wp_clone_files lost s1 parent (length (fd_tables s)) t Hb1); [lia | |]|].
    - cbn. by rewrite lookup_app_l.
    - cbn. by rewrite lookup_app_r, Nat.sub_diag by done.
    - cbn beta. intros _ s' [Hb' Et']. split; [done|]. rewrite Et'. cbn. rewrite insert_app_r_alt by done. by rewrite Nat.sub_diag. }
  eapply wp_mono; [exact Hw|]. cbn beta. intros _ s2 [Hb2 Et2]. destruct thread; wp_steps; [by rewrite app_nil_r|].
  unfold table. wp_steps. eapply wp_opt; [rewrite Et2, lookup_app_r, Nat.sub_diag by done; reflexivity|]. wp_steps.
  rewrite Et2, take_app_length. split; [|done]. by apply lose_table.
Qed.

Lemma wp_run_op lost s op :
  refs_ok lost s -> 32 * (zlen (fd_tables s) + zlen lost + 1) < 2 ^ 32 ->
  wp (run_op nd op) (fun more s' => refs_ok (lost ++ more) s' /\ (op_succeeds op = true -> more = []) /\
    zlen (fd_tables s') + zlen more <= zlen (fd_tables s) + 1) s.
Proof.
  intros Hbal Hb. unfold run_op. wp_steps. case_decide as Hp; [wp_steps; rewrite app_nil_r; split_and!; [done | done | unfold zlen; cbn; lia]|].
  destruct (lookup_lt_is_Some_2 (fd_tables s) (op_pid op)) as [t Ht]; [lia|].
  assert (Hend : forall s', refs_ok lost s' -> length (fd_tables s') = length (fd_tables s) ->
    refs_ok (lost ++ []) s' /\ (op_succeeds op = true -> @nil (list Z) = []) /\ zlen (fd_tables s') + zlen (@nil (list Z)) <= zlen (fd_tables s) + 1).
  { intros s' H E. rewrite app_nil_r. split_and!; [done..|]. unfold zlen. rewrite E. cbn. lia. }
  destruct op; cbn [op_pid] in *; wp_steps.
  - eapply wp_mono; [by apply (wp_sys_open lost Hnd s pid t)|]. cbn beta. intros r s' (H1 & H2 & H3). wp_steps. apply Hend; [done|].
    destruct (decide (0 <= r)) as [Hr|Hr]; [destruct (H2 Hr) as (_ & -> & _); by rewrite length_insert|].
    by destruct (H3 ltac:(lia)) as [-> _].
  - eapply wp_mono; [by apply (wp_sys_close_any lost Hnd s pid t)|]. cbn beta. intros r s' [H1 H2]. wp_steps. by apply Hend.
  - eapply wp_mono; [by apply (wp_k_dup2 lost Hnd s pid t)|]. cbn beta. intros r s' [H1 H2]. wp_steps. apply Hend; [done|].
    destruct (fd_ok oldfd && fd_ok newfd); [|by destruct H2 as [_ ->]]. destruct (t !! Z.to_nat oldfd) as [a|]; [|done].
    destruct (a =? 0); [by destruct H2 as [_ ->]|]. destruct H2 as [_ ->]. by rewrite length_insert.
  - eapply wp_mono; [by apply (wp_sys_read lost Hnd s pid t)|]. cbn beta. intros r s' [H1 H2]. wp_steps. apply Hend; [done|]. by rewrite H2.
  - eapply wp_mono; [by apply (wp_sys_write lost Hnd s pid t)|]. cbn beta. intros r s' [H1 H2]. wp_steps. apply Hend; [done|]. by rewrite H2.
  - eapply wp_mono; [by apply (wp_sys_seek lost Hnd s pid t)|]. cbn beta. intros r s' [H1 H2]. wp_steps. apply Hend; [done|]. by rewrite H2.
  - eapply wp_mono; [by apply (wp_clone_process lost s parent t)|]. cbn beta. intros more s' [H1 H2]. split; [done|].
    destruct thread; destruct H2 as [-> ->]; (split; [done|]); unfold zlen; rewrite ?length_app; cbn; lia.
  - eapply wp_mono; [by apply (wp_process_file_destroy lost Hnd s pid t)|]. cbn beta. intros r s' [H1 E]. wp_steps. apply Hend; [done|].
    by rewrite E, length_insert.
Qed.

(** C6: Reference counts.  From tables and counts that agree, over a file
    system that answers every call, along any run of opens, closes,
    duplications, reads, writes, seeks, clones, with and without the files, and
    exits, in any interleaving of fewer than 2^27 processes, the run never faults, a descriptor never points
    to a freed file, and every open file's [ref_count] is exactly the number of
    descriptors that point to it in the tables of the processes and in the
    tables that were lost: those of the children of clones that failed for want
    of a thread, after the table was filled.  Without such a clone none is lost,
    and then [ref_count] is the number of descriptors, and no file without
    descriptors stays allocated. *)
Theorem ref_counts_exact lost s ops :
  refs_ok lost s -> 32 * (zlen (fd_tables s) + zlen lost + Z.of_nat (length ops)) < 2 ^ 32 ->
  wp (run_ops nd ops) (fun more s' => refs_ok (lost ++ more) s' /\ (forallb op_succeeds ops = true -> more = [])) s.
Proof.
  revert lost s. induction ops as [|op ops IH]; intros lost s Hbal Hb; cbn [run_ops forallb]; [wp_steps; by rewrite app_nil_r|].
  cbn [length] in Hb. wp_steps. eapply wp_mono; [apply (wp_run_op lost s op); [done | lia]|].
  cbn beta. intros m1 s' (Hb' & Hs & Hl'). wp_steps. eapply wp_mono; [apply IH; [done|unfold zlen in *; rewrite length_app; lia]|].
  cbn beta. intros m2 s2 [H2 Hs2]. wp_steps. rewrite app_assoc. split; [done|].
  intros [H3 H4]%andb_prop. by rewrite Hs, Hs2.
Qed.

End counting.

(** ** Seeking *)

Lemma seek_to_spec base offset :
  0 <= base < 2 ^ 64 -> - 2 ^ 63 <= offset < 2 ^ 63 ->
  seek_to base offset = if decide (0 <= base + offset < 2 ^ 64) then Some (base + offset) else None.
Proof.
  intros Hb Ho. unfold seek_to. destruct (Z.ltb_spec offset 0).
  - rewrite (u64_small (- (offset + 1))) by lia. rewrite (u64_small (- (offset + 1) + 1)) by lia.
    destruct (Z.ltb_spec base (- (offset + 1) + 1)); [by rewrite decide_False by lia|].
    rewrite decide_True by lia. rewrite u64_small by lia. f_equal. lia.
  - rewrite (u64_small offset), (u64_small (2 ^ 64 - 1 - base)) by lia.
    destruct (Z.ltb_spec (2 ^ 64 - 1 - base) offset); [by rewrite decide_False by lia|].
    rewrite decide_True by lia. by rewrite u64_small by lia.
Qed.

(** [vfs_seek] never wraps: for the three directives the new position is
    the exact sum of the base and the signed 64-bit offset when that sum fits
    in 64 unsigned bits; otherwise, and for any other directive, the call
    answers [(uint64_t)-1] and the position stays. *)
Theorem vfs_seek_exact {N} (nd : nodes N) s a f size offset whence :
  fd_files s !! a = Some f -> a <> 0 -> vf_node f <> 0 -> 0 <= vf_offset f < 2 ^ 64 -> 0 <= size < 2 ^ 64 ->
  - 2 ^ 63 <= offset < 2 ^ 63 ->
  wp (nd_size nd (vf_node f)) (fun r x => r = size /\ x = fd_nodes s) (fd_nodes s) ->
  let base := if whence =? 0 then Some 0 else if whence =? 1 then Some (vf_offset f)
              else if whence =? 2 then Some size else None in
  let pos := match base with
             | Some b => if decide (0 <= b + offset < 2 ^ 64) then Some (b + offset) else None
             | None => None
             end in
  wp (vfs_seek nd a offset whence)
    (fun r s' => match pos with
                 | Some p => r = p /\ s' = set_fd_files (<[a := set_vf_offset p f]> (fd_files s)) s
                 | None => r = 2 ^ 64 - 1 /\ s' = s
                 end) s.
Proof.
  intros Hf Ha Hn Hoff Hsz Ho Hsize base pos. unfold vfs_seek. rewrite (proj2 (Z.eqb_neq a 0)) by done.
  unfold file. wp_steps. eapply wp_opt; [exact Hf|]. rewrite (proj2 (Z.eqb_neq (vf_node f) 0)) by done.
  unfold on_nodes. wp_steps. eapply wp_mono; [exact Hsize|]. cbn beta. intros r x [-> ->].
  assert (Hs : set_fd_nodes (fd_nodes s) s = s) by by destruct s. rewrite Hs.
  unfold VFS_SEEK_SET, VFS_SEEK_CUR, VFS_SEEK_END. fold base. unfold pos.
  assert (Hbase : forall b, base = Some b -> 0 <= b < 2 ^ 64).
  { intros b. unfold base. destruct (whence =? 0); [intros [= <-]; lia|]. destruct (whence =? 1); [by intros [= <-]|].
    destruct (whence =? 2); [by intros [= <-] | done]. }
  destruct base as [b|]; [|by wp_steps]. rewrite seek_to_spec by auto. case_decide; [|by wp_steps].
  unfold put_file. by wp_steps.
Qed.

(** ** Over the RAM file system *)

(** The file system calls for RAM nodes, which have no page cache. *)
Definition ramfs_nodes : nodes vfs :=
  Nodes (vfs_open no_driver)
    (fun p off size => if size =? 0 then kret (0, []) else ramfs_read p off size)
    (fun p off src => n <-- node p ;; if has (n_flags n) VFS_DIRECTORY then kret (-21) else
                      if zlen src =? 0 then kret 0 else ramfs_write p off src)
    (fun _ => kret tt)
    (fun p => n <-- node p ;; kret (n_size n)).

Lemma wp_slot_at {N} (s : fdstate N) pid t fd a (Q : Z -> fdstate N -> Prop) :
  fd_tables s !! pid = Some t -> 0 <= fd -> t !! Z.to_nat fd = Some a -> Q a s -> wp (slot pid fd) Q s.
Proof. intros Ht Hfd Ha HQ. unfold slot, table. wp_steps. eapply wp_opt; [exact Ht|]. by eapply wp_rd. Qed.

Section ram_files.
Context (s : fdstate vfs) (pid : nat) (t : list Z) (fd a : Z) (f : vfs_file) (n : vfs_node).
Hypothesis Ht : fd_tables s !! pid = Some t.
Hypothesis Hfd : 0 <= fd < 32.
Hypothesis Ha : t !! Z.to_nat fd = Some a.
Hypothesis Ha0 : a <> 0.
Hypothesis Hf : fd_files s !! a = Some f.
Hypothesis Hn : f_nodes (fd_nodes s) !! vf_node f = Some n.
Hypothesis Hn0 : vf_node f <> 0.
Hypothesis Hok : file_ok n.
Hypothesis Hoff : 0 <= vf_offset f.

(** The same file at another position, over other nodes. *)
Definition moved (s' : fdstate vfs) (pos : Z) : Prop :=
  fd_tables s' = fd_tables s /\ fd_files s' = <[a := set_vf_offset pos f]> (fd_files s).

Lemma wp_ram_write src :
  vf_offset f + zlen src + 512 < 2 ^ 32 -> 0 < zlen src < 2 ^ 31 ->
  f_mem (fd_nodes s) <> 0%nat -> 0 < f_brk (fd_nodes s) ->
  wp (sys_write ramfs_nodes pid fd src)
    (fun r s' => moved s' (vf_offset f + zlen src) /\ exists n', f_nodes (fd_nodes s') !! vf_node f = Some n' /\
       file_ok n' /\ n_size n' = Z.max (n_size n) (vf_offset f + zlen src) /\
       forall i, file_byte n' i = written n (vf_offset f) src i) s.
Proof.
  intros Hb Hs Hm Hk. unfold sys_write. rewrite (proj2 (fd_ok_spec fd)) by done. cbn [negb]. wp_steps.
  eapply wp_slot_at; [exact Ht | lia | exact Ha|]. rewrite (proj2 (Z.eqb_neq a 0)) by done. unfold file, on_nodes. wp_steps.
  eapply wp_opt; [exact Hf|]. cbn [nd_write ramfs_nodes]. wp_steps. unfold node. wp_steps. eapply wp_opt; [exact Hn|].
  rewrite (proj1 Hok), (proj2 (Z.eqb_neq (zlen src) 0)) by lia.
  eapply wp_mono; [by apply (wp_ramfs_write (fd_nodes s) (vf_node f) n); try lia|]. cbn beta.
  intros r x (-> & n' & (Hn' & _) & Hok' & Hsz & Hby). rewrite (proj2 (Z.ltb_lt 0 (zlen src))) by lia.
  unfold put_file. wp_steps. rewrite u64_small by lia. split; [done|]. exists n'. split_and!; try done.
  cbn. rewrite Hn'. apply lookup_insert_eq.
Qed.

Lemma wp_ram_seek pos :
  0 <= pos < 2 ^ 63 ->
  wp (sys_seek ramfs_nodes pid fd pos VFS_SEEK_SET) (fun r s' => moved s' pos /\ fd_nodes s' = fd_nodes s) s.
Proof.
  intros Hp. unfold sys_seek. rewrite (proj2 (fd_ok_spec fd)) by done. cbn [negb]. wp_steps.
  eapply wp_slot_at; [exact Ht | lia | exact Ha|]. rewrite (proj2 (Z.eqb_neq a 0)) by done. unfold vfs_seek.
  rewrite (proj2 (Z.eqb_neq a 0)) by done. unfold file, on_nodes. wp_steps. eapply wp_opt; [exact Hf|].
  rewrite (proj2 (Z.eqb_neq (vf_node f) 0)) by done. cbn [nd_size ramfs_nodes]. unfold node. wp_steps.
  eapply wp_opt; [exact Hn|]. wp_steps. cbn [Z.eqb VFS_SEEK_SET]. rewrite seek_to_spec by lia.
  rewrite decide_True by lia. unfold put_file. wp_steps. done.
Qed.

Lemma wp_ram_read size :
  vf_offset f < 2 ^ 32 -> 0 < size < 2 ^ 31 -> vf_offset f + size <= n_size n ->
  wp (sys_read ramfs_nodes pid fd size)
    (fun r s' => moved s' (vf_offset f + size) /\ r.1 = size /\ zlen r.2 = size /\
       forall i, 0 <= Z.of_nat i < size -> r.2 !! i = file_byte n (vf_offset f + Z.of_nat i)) s.
Proof.
  intros Hb Hs He. unfold sys_read. rewrite (proj2 (fd_ok_spec fd)) by done. cbn [negb]. wp_steps.
  eapply wp_slot_at; [exact Ht | lia | exact Ha|]. rewrite (proj2 (Z.eqb_neq a 0)) by done. unfold file, on_nodes. wp_steps.
  eapply wp_opt; [exact Hf|]. cbn [nd_read ramfs_nodes]. wp_steps. rewrite (proj2 (Z.eqb_neq size 0)) by lia.
  eapply wp_mono; [apply (wp_ramfs_read (fd_nodes s) (vf_node f) n); try done; lia|]. cbn beta.
  intros [k bs] x (-> & Hk & Hl & Hby). cbn [fst snd] in *. assert (k = size) as -> by lia.
  rewrite (proj2 (Z.ltb_lt 0 size)) by lia. unfold put_file. wp_steps. rewrite u64_small by lia. done.
Qed.

End ram_files.

(** At the level of descriptors, what is written is read back: a write, a
    seek to where it started and a read of the same length return the bytes,
    and leave the position after them. *)
Theorem fd_write_seek_read (s : fdstate vfs) pid t fd a f n src :
  fd_tables s !! pid = Some t -> 0 <= fd < 32 -> length t = 32%nat -> t !! Z.to_nat fd = Some a -> a <> 0 ->
  fd_files s !! a = Some f -> f_nodes (fd_nodes s) !! vf_node f = Some n -> vf_node f <> 0 -> file_ok n ->
  0 <= vf_offset f -> vf_offset f + zlen src + 512 < 2 ^ 32 -> 0 < zlen src < 2 ^ 31 ->
  f_mem (fd_nodes s) <> 0%nat -> 0 < f_brk (fd_nodes s) ->
  wp (_ <-- sys_write ramfs_nodes pid fd src ;;
      _ <-- sys_seek ramfs_nodes pid fd (vf_offset f) VFS_SEEK_SET ;;
      sys_read ramfs_nodes pid fd (zlen src))
    (fun r s' => r = (zlen src, src) /\ fd_tables s' = fd_tables s /\
       fd_files s' !! a = Some (set_vf_offset (vf_offset f + zlen src) f)) s.
Proof.
  intros Ht Hfd Hlen Ha Ha0 Hf Hn Hn0 Hok Ho Hb Hs Hm Hk. wp_steps.
  eapply wp_mono; [by eapply (wp_ram_write s pid t fd a f n)|]. cbn beta. intros _ s1 ([Et1 Ef1] & n' & Hn' & Hok' & Hsz & Hby).
  set (f1 := set_vf_offset (vf_offset f + zlen src) f) in *.
  assert (Hf1 : fd_files s1 !! a = Some f1) by (rewrite Ef1; apply lookup_insert_eq). wp_steps.
  eapply wp_mono; [apply (wp_ram_seek s1 pid t fd a f1 n'); try done; [by rewrite Et1 | lia]|].
  cbn beta. intros _ s2 [[Et2 Ef2] En2]. set (f2 := set_vf_offset (vf_offset f) f1) in *.
  assert (Hf2 : fd_files s2 !! a = Some f2) by (rewrite Ef2; apply lookup_insert_eq).
  eapply wp_mono; [apply (wp_ram_read s2 pid t fd a f2 n'); try done; cbn [vf_offset vf_node f2 f1 set_vf_offset]; try lia;
    [by rewrite Et2, Et1 | by rewrite En2]|].
  cbn beta. intros [k bs] s3 ([Et3 Ef3] & Hk3 & Hl3 & Hby3). cbn [fst snd vf_offset f2 f1 set_vf_offset] in *. subst k.
  split_and!; [|congruence | rewrite Ef3; apply lookup_insert_eq]. f_equal.
  unfold zlen in *. apply (list_eq_same_length _ _ (length src)); [done | lia|]. intros i x y Hi Hx Hy.
  rewrite Hby3, Hby in Hx by lia. unfold written, zlen in Hx.
  rewrite (proj2 (Z.leb_le _ _)), (proj2 (Z.ltb_lt _ _)) in Hx by lia. cbn in Hx.
  replace (Z.to_nat (vf_offset f + Z.of_nat i - vf_offset f)) with i in Hx by lia. congruence.
Qed.

(** ** Concrete runs *)

(** Two processes share the file at 16 over the example tree: descriptor 0 of
    both, and descriptor 1 of the first. *)
Definition example_fds : fdstate vfs :=
  Fds example_fs {[16 := File 32 3 2 3]} 32 8
    [16 :: 16 :: replicate 30 0; 16 :: replicate 31 0].

(** A file system that always answers. *)
Definition idle_nodes : nodes vfs :=
  Nodes (fun _ _ => kret 7) (fun _ _ _ => kret (0, [])) (fun _ _ src => kret (zlen src)) (fun _ => kret tt) (fun _ => kret 100).

Lemma idle_total : nodes_total idle_nodes.
Proof. by split. Qed.

Lemma example_refs_ok : refs_ok [] example_fds.
Proof.
  split_and!.
  - split; [|done]. intros [|[|[|p]]] t Ht; try (injection Ht as <-); done.
  - done.
  - intros a f. cbn [fd_files example_fds]. intros [<- _]%lookup_singleton_Some. done.
  - intros a Ha. cbn [fd_files example_fds]. destruct (decide (a = 16)) as [->|Hne]; [by rewrite lookup_singleton_eq|].
    rewrite lookup_singleton_ne by done. unfold slots_of, occ.
    rewrite (proj1 (count_occ_not_In Z.eq_dec _ _)); [done|]. intros Hin. cbn in Hin. repeat (destruct Hin as [Hin|Hin]; [congruence|]). done.
Qed.

(** A clone that fails after the copy: its reference stays when the files of
    all processes are closed. *)
Lemma ref_counts_witness :
  wp (run_ops idle_nodes [OpDup2 1 0 5; OpClone 1 true true; OpClose 0 1; OpClone 0 true false; OpExit 1; OpOpen 2 [47] 0; OpSeek 0 0 5 2])
    (fun more s' => refs_ok ([] ++ more) s' /\ (false = true -> more = [])) example_fds.
Proof. apply (ref_counts_exact idle_nodes idle_total [] example_fds); [apply example_refs_ok | done]. Defined.

(** The reference that such a clone leaves keeps the file: when every process
    has exited it is still allocated. *)
Example clone_failure_leaks :
  match run_ops idle_nodes [OpClone 1 true false; OpExit 0; OpExit 1] example_fds with
  | Ok (lost, s) => fd_files s !! 16 = Some (File 32 3 2 1) /\ slots_of 16 (fd_tables s) = 0 /\ slots_of 16 lost = 1
  | Stop _ => False
  end.
Proof. by vm_compute. Qed.

Lemma sys_close_witness :
  wp (sys_close idle_nodes 0 1)
    (fun r s' => r = 0 /\ refs_ok [] s' /\ fd_tables s' = [16 :: 0 :: replicate 30 0; 16 :: replicate 31 0] /\
       fd_files s' !! 16 = Some (File 32 3 2 2) /\
       forall b, b <> 16 -> fd_files s' !! b = fd_files example_fds !! b) example_fds.
Proof.
  apply (sys_close_correct idle_nodes [] idle_total example_fds 0 (16 :: 16 :: replicate 30 0) 1 16 (File 32 3 2 3));
    try done. apply example_refs_ok.
Defined.

Lemma k_dup2_witness :
  wp (k_dup2 idle_nodes 1 0 5)
    (fun r s' => refs_ok [] s' /\ r = 5 /\
       fd_tables s' = [16 :: 16 :: replicate 30 0; [16; 0; 0; 0; 0; 16] ++ replicate 26 0]) example_fds.
Proof.
  apply (k_dup2_correct idle_nodes [] idle_total example_fds 1 (16 :: replicate 31 0) 0 5); [apply example_refs_ok | done].
Defined.

Lemma vfs_seek_witness :
  wp (vfs_seek idle_nodes 16 (-4) 1) (fun r s' => r = 2 ^ 64 - 1 /\ s' = example_fds) example_fds /\
  wp (vfs_seek idle_nodes 16 (-4) 2)
    (fun r s' => r = 96 /\ s' = set_fd_files (<[16 := File 32 96 2 3]> (fd_files example_fds)) example_fds) example_fds.
Proof.
  split.
  - apply (vfs_seek_exact idle_nodes example_fds 16 (File 32 3 2 3) 100 (-4) 1); done.
  - apply (vfs_seek_exact idle_nodes example_fds 16 (File 32 3 2 3) 100 (-4) 2); done.
Defined.

Lemma fd_write_seek_read_witness :
  wp (_ <-- sys_write ramfs_nodes 0 1 [7; 8] ;;
      _ <-- sys_seek ramfs_nodes 0 1 3 VFS_SEEK_SET ;;
      sys_read ramfs_nodes 0 1 2)
    (fun r s' => r = (2, [7; 8]) /\ fd_tables s' = fd_tables example_fds /\ fd_files s' !! 16 = Some (File 32 5 2 3)) example_fds.
Proof.
  apply (fd_write_seek_read example_fds 0 (16 :: 16 :: replicate 30 0) 1 16 (File 32 3 2 3) example_file [7; 8]); done.
Defined.
