(* ===== verification/Sched.v ===== *)
(** * Threads, processes and the scheduler

    [scheduler.c], [thread.c], [wait.c], [wakeup.c] and [clone.c] of
    [kernel/kernel/sched], the process list of [process.c], [sys_waitpid] and
    [sys_kill] of [syscall.c] and the CPU lookups of [cpu.c].  The run queues
    are the program's: heads and tails per CPU, linked through the threads.
    [get_current_cpu()] is an argument.  A context switch is the call of
    [task_switch]; what a thread does after it is resumed is another
    computation.  What exit and clone do to files and address spaces goes
    through [env_ops]. *)

From Stdlib Require Import ZArith Lia.
From stdpp Require Import base tactics list gmap.
From S2P Require Import Prelude.

Definition MAX_CPUS : Z := 256.
Definition MAX_SIGNALS : Z := 32.
Definition CLONE_VM : Z := 0x100.
Definition CLONE_FILES : Z := 0x400.
Definition EINVAL : Z := 22.
Definition ESRCH : Z := 3.
Definition KERNEL_STACK_SIZE : Z := 8192.
(** [sizeof(stack_frame_t)]: 22 words. *)
Definition FRAME_SIZE : Z := 176.

Inductive thread_state : Type :=
| THREAD_READY
| THREAD_RUNNING
| THREAD_BLOCKED
| THREAD_WAITING
| THREAD_DEAD.

Inductive process_state : Type :=
| PROCESS_EMBRYO
| PROCESS_READY
| PROCESS_RUNNING
| PROCESS_ZOMBIE
| PROCESS_DEAD.

#[global] Instance thread_state_eq_dec : EqDecision thread_state.
Proof. solve_decision. Defined.
#[global] Instance process_state_eq_dec : EqDecision process_state.
Proof. solve_decision. Defined.

(** [stack_frame_t]; the registers no code here names are kept together. *)
Record frame : Type := Frame {
  r_rest : list Z;
  r_rax : Z;
  r_rsi : Z;
  r_rdi : Z;
  r_int_no : Z;
  r_error_code : Z;
  r_rip : Z;
  r_cs : Z;
  r_rflags : Z;
  r_rsp : Z;
  r_ss : Z
}.

Record thread : Type := Thread {
  tid : Z;
  context_frame : Z;
  context_frame_top : Z;
  kernel_stack_top : Z;
  t_state : thread_state;
  cpu_id : Z;
  chan : Z;
  t_exit_code : Z;
  owner : Z;
  t_next : Z
}.

Definition set_context_frame (x : Z) (t : thread) : thread :=
  Thread (tid t) x (context_frame_top t) (kernel_stack_top t) (t_state t) (cpu_id t) (chan t)
    (t_exit_code t) (owner t) (t_next t).
Definition set_t_state (x : thread_state) (t : thread) : thread :=
  Thread (tid t) (context_frame t) (context_frame_top t) (kernel_stack_top t) x (cpu_id t) (chan t)
    (t_exit_code t) (owner t) (t_next t).
Definition set_chan (x : Z) (t : thread) : thread :=
  Thread (tid t) (context_frame t) (context_frame_top t) (kernel_stack_top t) (t_state t) (cpu_id t) x
    (t_exit_code t) (owner t) (t_next t).
Definition set_t_exit (x : Z) (t : thread) : thread :=
  Thread (tid t) (context_frame t) (context_frame_top t) (kernel_stack_top t) (t_state t) (cpu_id t)
    (chan t) x (owner t) (t_next t).
Definition set_owner (x : Z) (t : thread) : thread :=
  Thread (tid t) (context_frame t) (context_frame_top t) (kernel_stack_top t) (t_state t) (cpu_id t)
    (chan t) (t_exit_code t) x (t_next t).
Definition set_t_next (x : Z) (t : thread) : thread :=
  Thread (tid t) (context_frame t) (context_frame_top t) (kernel_stack_top t) (t_state t) (cpu_id t)
    (chan t) (t_exit_code t) (owner t) x.

(** The fields of [process_t] the scheduler uses. *)
Record process : Type := Process {
  pid : Z;
  ppid : Z;
  p_state : process_state;
  p_cr3 : Z;
  main_thread : Z;
  p_exit_code : Z;
  pending_signals : Z;
  p_next : Z
}.

Definition set_p_state (x : process_state) (p : process) : process :=
  Process (pid p) (ppid p) x (p_cr3 p) (main_thread p) (p_exit_code p) (pending_signals p) (p_next p).
Definition set_p_cr3 (x : Z) (p : process) : process :=
  Process (pid p) (ppid p) (p_state p) x (main_thread p) (p_exit_code p) (pending_signals p) (p_next p).
Definition set_main_thread (x : Z) (p : process) : process :=
  Process (pid p) (ppid p) (p_state p) (p_cr3 p) x (p_exit_code p) (pending_signals p) (p_next p).
Definition set_p_exit (x : Z) (p : process) : process :=
  Process (pid p) (ppid p) (p_state p) (p_cr3 p) (main_thread p) x (pending_signals p) (p_next p).
Definition set_pending (x : Z) (p : process) : process :=
  Process (pid p) (ppid p) (p_state p) (p_cr3 p) (main_thread p) (p_exit_code p) x (p_next p).
Definition set_p_next (x : Z) (p : process) : process :=
  Process (pid p) (ppid p) (p_state p) (p_cr3 p) (main_thread p) (p_exit_code p) (pending_signals p) x.

(** The scheduling fields of [cpu_data_block_t], the CPU's CR3 and its TS
    flag. *)
Record cpu : Type := Cpu {
  current_thread : Z;
  ready_queue_head : Z;
  ready_queue_tail : Z;
  dead_queue_head : Z;
  dead_queue_tail : Z;
  idle_thread : Z;
  fpu_owner_thread : Z;
  tss_rsp0 : Z;
  c_kernel_stack_top : Z;
  c_cr3 : Z;
  c_ts : bool
}.

Definition set_current (x : Z) (k : cpu) : cpu :=
  Cpu x (ready_queue_head k) (ready_queue_tail k) (dead_queue_head k) (dead_queue_tail k)
    (idle_thread k) (fpu_owner_thread k) (tss_rsp0 k) (c_kernel_stack_top k) (c_cr3 k) (c_ts k).
Definition set_ready (h t : Z) (k : cpu) : cpu :=
  Cpu (current_thread k) h t (dead_queue_head k) (dead_queue_tail k)
    (idle_thread k) (fpu_owner_thread k) (tss_rsp0 k) (c_kernel_stack_top k) (c_cr3 k) (c_ts k).
Definition set_dead (h t : Z) (k : cpu) : cpu :=
  Cpu (current_thread k) (ready_queue_head k) (ready_queue_tail k) h t
    (idle_thread k) (fpu_owner_thread k) (tss_rsp0 k) (c_kernel_stack_top k) (c_cr3 k) (c_ts k).
Definition set_stacks (x : Z) (k : cpu) : cpu :=
  Cpu (current_thread k) (ready_queue_head k) (ready_queue_tail k) (dead_queue_head k) (dead_queue_tail k)
    (idle_thread k) (fpu_owner_thread k) x x (c_cr3 k) (c_ts k).
Definition set_c_cr3 (x : Z) (k : cpu) : cpu :=
  Cpu (current_thread k) (ready_queue_head k) (ready_queue_tail k) (dead_queue_head k) (dead_queue_tail k)
    (idle_thread k) (fpu_owner_thread k) (tss_rsp0 k) (c_kernel_stack_top k) x (c_ts k).
Definition set_ts (k : cpu) : cpu :=
  Cpu (current_thread k) (ready_queue_head k) (ready_queue_tail k) (dead_queue_head k) (dead_queue_tail k)
    (idle_thread k) (fpu_owner_thread k) (tss_rsp0 k) (c_kernel_stack_top k) (c_cr3 k) true.

(** What exit and clone do outside the scheduler. *)
Record env_ops (E : Type) : Type := EnvOps {
  process_flush_user_space : Z -> M E unit;
  process_file_destroy : Z -> M E unit;
  vmm_clone_address_space : Z -> M E Z;
  share_files : Z -> Z -> M E unit
}.
Arguments EnvOps {E}.
Arguments process_flush_user_space {E}.
Arguments process_file_destroy {E}.
Arguments vmm_clone_address_space {E}.
Arguments share_files {E}.

(** Threads, processes and saved frames by address, [cpu_blocks], the process
    list, the locks ([held] are the spinlocks that callers of [wait] pass), the
    identifiers to give out, and the allocator (next address, allocations
    left). *)
Record sched (E : Type) : Type := Sched {
  threads : gmap Z thread;
  procs : gmap Z process;
  frames : gmap Z frame;
  cpus : gmap Z cpu;
  g_process_list_head : Z;
  g_process_list_lock : bool;
  g_wait_lock : bool;
  held : gset Z;
  g_next_tid : Z;
  g_next_pid : Z;
  s_brk : Z;
  s_mem : nat;
  s_env : E
}.
Arguments Sched {E}.
Arguments threads {E}.
Arguments procs {E}.
Arguments frames {E}.
Arguments cpus {E}.
Arguments g_process_list_head {E}.
Arguments g_process_list_lock {E}.
Arguments g_wait_lock {E}.
Arguments held {E}.
Arguments g_next_tid {E}.
Arguments g_next_pid {E}.
Arguments s_brk {E}.
Arguments s_mem {E}.
Arguments s_env {E}.

Section sched.
Context {E : Type} (ops : env_ops E).
Local Abbreviation S := (sched E).

Definition set_threads (x : gmap Z thread) (s : S) : S :=
  Sched x (procs s) (frames s) (cpus s) (g_process_list_head s) (g_process_list_lock s) (g_wait_lock s)
    (held s) (g_next_tid s) (g_next_pid s) (s_brk s) (s_mem s) (s_env s).
Definition set_procs (x : gmap Z process) (s : S) : S :=
  Sched (threads s) x (frames s) (cpus s) (g_process_list_head s) (g_process_list_lock s) (g_wait_lock s)
    (held s) (g_next_tid s) (g_next_pid s) (s_brk s) (s_mem s) (s_env s).
Definition set_frames (x : gmap Z frame) (s : S) : S :=
  Sched (threads s) (procs s) x (cpus s) (g_process_list_head s) (g_process_list_lock s) (g_wait_lock s)
    (held s) (g_next_tid s) (g_next_pid s) (s_brk s) (s_mem s) (s_env s).
Definition set_cpus (x : gmap Z cpu) (s : S) : S :=
  Sched (threads s) (procs s) (frames s) x (g_process_list_head s) (g_process_list_lock s) (g_wait_lock s)
    (held s) (g_next_tid s) (g_next_pid s) (s_brk s) (s_mem s) (s_env s).
Definition set_head (x : Z) (s : S) : S :=
  Sched (threads s) (procs s) (frames s) (cpus s) x (g_process_list_lock s) (g_wait_lock s)
    (held s) (g_next_tid s) (g_next_pid s) (s_brk s) (s_mem s) (s_env s).
Definition set_list_lock (x : bool) (s : S) : S :=
  Sched (threads s) (procs s) (frames s) (cpus s) (g_process_list_head s) x (g_wait_lock s)
    (held s) (g_next_tid s) (g_next_pid s) (s_brk s) (s_mem s) (s_env s).
Definition set_wait_lock (x : bool) (s : S) : S :=
  Sched (threads s) (procs s) (frames s) (cpus s) (g_process_list_head s) (g_process_list_lock s) x
    (held s) (g_next_tid s) (g_next_pid s) (s_brk s) (s_mem s) (s_env s).
Definition set_held (x : gset Z) (s : S) : S :=
  Sched (threads s) (procs s) (frames s) (cpus s) (g_process_list_head s) (g_process_list_lock s)
    (g_wait_lock s) x (g_next_tid s) (g_next_pid s) (s_brk s) (s_mem s) (s_env s).
Definition set_ids (t p : Z) (s : S) : S :=
  Sched (threads s) (procs s) (frames s) (cpus s) (g_process_list_head s) (g_process_list_lock s)
    (g_wait_lock s) (held s) t p (s_brk s) (s_mem s) (s_env s).
Definition set_alloc (b : Z) (m : nat) (s : S) : S :=
  Sched (threads s) (procs s) (frames s) (cpus s) (g_process_list_head s) (g_process_list_lock s)
    (g_wait_lock s) (held s) (g_next_tid s) (g_next_pid s) b m (s_env s).
Definition set_env (x : E) (s : S) : S :=
  Sched (threads s) (procs s) (frames s) (cpus s) (g_process_list_head s) (g_process_list_lock s)
    (g_wait_lock s) (held s) (g_next_tid s) (g_next_pid s) (s_brk s) (s_mem s) x.

(** Accesses through pointers. *)
Definition thread_at (p : Z) : M S thread := s <-- kget ;; kopt NullDeref (threads s !! p).
Definition put_thread (p : Z) (t : thread) : M S unit :=
  kmodify (fun s => set_threads (<[p := t]> (threads s)) s).
Definition on_thread (p : Z) (f : thread -> thread) : M S unit := t <-- thread_at p ;; put_thread p (f t).
Definition process_at (p : Z) : M S process := s <-- kget ;; kopt NullDeref (procs s !! p).
Definition on_process (p : Z) (f : process -> process) : M S unit :=
  r <-- process_at p ;; kmodify (fun s => set_procs (<[p := f r]> (procs s)) s).
Definition cpu_at (c : Z) : M S cpu := s <-- kget ;; kopt NullDeref (cpus s !! c).
Definition on_cpu (c : Z) (f : cpu -> cpu) : M S unit :=
  k <-- cpu_at c ;; kmodify (fun s => set_cpus (<[c := f k]> (cpus s)) s).
Definition on_env {A} (m : M E A) : M S A := zoom s_env set_env m.

Definition wait_lock : M S unit :=
  b <-- kgets g_wait_lock ;; if b then kstop Deadlock else kmodify (set_wait_lock true).
Definition wait_unlock : M S unit := kmodify (set_wait_lock false).
Definition process_list_spinlock_acquire : M S unit :=
  b <-- kgets g_process_list_lock ;; if b then kstop Deadlock else kmodify (set_list_lock true).
Definition process_list_spinlock_release : M S unit := kmodify (set_list_lock false).

(** [kmalloc] and [kfree]. *)
Definition s_kmalloc (size : Z) : M S Z :=
  s <-- kget ;;
  match s_mem s with
  | O => kret 0
  | Datatypes.S m => kmodify (set_alloc (s_brk s + size) m) ;;; kret (s_brk s)
  end.
Definition s_kfree : M S unit := kmodify (fun s => set_alloc (s_brk s) (Datatypes.S (s_mem s)) s).

Definition get_cpu_data_block (c : Z) : M S (option Z) :=
  if MAX_CPUS <=? c then kret None else
  s <-- kget ;; kret (match cpus s !! c with Some _ => Some c | None => None end).

(** ** Run queues *)

Definition enqueue_thread (c : option Z) (t : Z) : M S unit :=
  match c with
  | None => kret tt
  | Some c =>
      if t =? 0 then kret tt else
      on_thread t (set_t_next 0) ;;;
      k <-- cpu_at c ;;
      if ready_queue_tail k =? 0 then on_cpu c (set_ready t t)
      else on_thread (ready_queue_tail k) (set_t_next t) ;;;
           on_cpu c (set_ready (ready_queue_head k) t)
  end.

Definition dequeue_thread (c : Z) : M S Z :=
  k <-- cpu_at c ;;
  let t := ready_queue_head k in
  if t =? 0 then kret 0 else
  th <-- thread_at t ;;
  on_cpu c (set_ready (t_next th) (if t_next th =? 0 then 0 else ready_queue_tail k)) ;;;
  on_thread t (set_t_next 0) ;;;
  kret t.

Definition enqueue_dead_thread (c t : Z) : M S unit :=
  if t =? 0 then kret tt else
  on_thread t (set_t_next 0) ;;;
  k <-- cpu_at c ;;
  if dead_queue_tail k =? 0 then on_cpu c (set_dead t t)
  else on_thread (dead_queue_tail k) (set_t_next t) ;;;
       on_cpu c (set_dead (dead_queue_head k) t).

(** ** Switching *)

(** The CR3 of [task_switch]: loaded unless the previous thread shares it. *)
Definition switch_cr3 (c current next : Z) : M S unit :=
  n <-- thread_at next ;;
  if owner n =? 0 then kret tt else
  np <-- process_at (owner n) ;;
  if p_cr3 np =? 0 then kret tt else
  keep <-- (if current =? 0 then kret false else
            t <-- thread_at current ;;
            if (tid t =? 0) || (owner t =? 0) then kret false else
            cp <-- process_at (owner t) ;; kret (p_cr3 cp =? p_cr3 np)) ;;
  if keep then kret tt else on_cpu c (set_c_cr3 (p_cr3 np)).

(** The interrupted thread keeps its frame and, if it is still running and not
    idle, goes to the end of the queue. *)
Definition park_current (c current regs : Z) : M S unit :=
  if current =? 0 then kret tt else
  on_thread current (set_context_frame regs) ;;;
  t <-- thread_at current ;;
  if bool_decide (t_state t = THREAD_RUNNING) && negb (tid t =? 0) then
    on_thread current (set_t_state THREAD_READY) ;;;
    enqueue_thread (Some c) current
  else kret tt.

(** The head of the queue, or else the current thread if it is ready, or else
    the idle thread. *)
Definition pick_next (c current idle : Z) : M S Z :=
  next <-- dequeue_thread c ;;
  if negb (next =? 0) then kret next else
  if current =? 0 then kret idle else
  t <-- thread_at current ;;
  if negb (tid t =? 0) && bool_decide (t_state t = THREAD_READY) then kret current
  else kret idle.

Definition task_switch (c regs : Z) : M S Z :=
  k <-- cpu_at c ;;
  let current := current_thread k in
  park_current c current regs ;;;
  next <-- pick_next c current (idle_thread k) ;;
  on_thread next (set_t_state THREAD_RUNNING) ;;;
  on_cpu c (set_current next) ;;;
  switch_cr3 c current next ;;;
  n <-- thread_at next ;;
  on_cpu c (set_stacks (kernel_stack_top n)) ;;;
  (if next =? fpu_owner_thread k then kret tt else on_cpu c set_ts) ;;;
  kret (context_frame n).

(** [regs] is the address of the frame that the assembly pushes.  The result
    says whether a switch took place. *)
Definition schedule (c regs : Z) : M S bool :=
  k <-- cpu_at c ;;
  if current_thread k =? 0 then kret false else task_switch c regs ;;; kret true.

Definition scheduler_yield (c regs : Z) : M S bool :=
  k <-- cpu_at c ;;
  if current_thread k =? 0 then kret false else
  t <-- thread_at (current_thread k) ;;
  if (tid t =? 0) || negb (bool_decide (t_state t = THREAD_RUNNING)) then kret false
  else schedule c regs.

(** ** Sleeping and waking *)

(** The part of [wait] and [wait_flag] before [schedule]: the current thread is
    marked and the caller's lock released. *)
Definition wait_mark (c ch : Z) (lk : Z) : M S unit :=
  wait_lock ;;;
  k <-- cpu_at c ;;
  on_thread (current_thread k) (set_chan ch) ;;;
  on_thread (current_thread k) (set_t_state THREAD_WAITING) ;;;
  wait_unlock ;;;
  if lk =? 0 then kret tt else kmodify (fun s => set_held (held s ∖ {[ lk ]}) s).

Definition wait (c ch lk regs : Z) : M S unit :=
  if ch =? 0 then kret tt else
  wait_mark c ch lk ;;; _ <-- schedule c regs ;; kret tt.

(** The part after [schedule], run by the resumed thread. *)
Definition wait_resume (lk : Z) : M S unit :=
  if lk =? 0 then kret tt else
  s <-- kget ;;
  if bool_decide (lk ∈ held s) then kstop Deadlock else kmodify (set_held ({[ lk ]} ∪ held s)).

(** A waiting thread becomes ready again. *)
Definition wake_one (ch t : Z) : M S unit :=
  th <-- thread_at t ;;
  if bool_decide (t_state th = THREAD_WAITING) && (chan th =? ch) then
    on_thread t (set_chan 0) ;;;
    on_thread t (set_t_state THREAD_READY) ;;;
    b <-- get_cpu_data_block (cpu_id th) ;;
    enqueue_thread b t
  else kret tt.

(** The walk over the process list; [fuel] bounds its length. *)
Fixpoint wakeup_list (fuel : nat) (ch p : Z) : M S unit :=
  if p =? 0 then kret tt else
  match fuel with
  | O => kstop NoFuel
  | Datatypes.S fuel' =>
      pr <-- process_at p ;;
      (if main_thread pr =? 0 then kret tt else wake_one ch (main_thread pr)) ;;;
      wakeup_list fuel' ch (p_next pr)
  end.

Definition list_length : M S nat := kgets (fun s => size (procs s)).

Definition wakeup (ch : Z) : M S unit :=
  if ch =? 0 then kret tt else
  wait_lock ;;;
  process_list_spinlock_acquire ;;;
  head <-- kgets g_process_list_head ;;
  fuel <-- list_length ;;
  wakeup_list fuel ch head ;;;
  process_list_spinlock_release ;;;
  wait_unlock.

Definition wakeup_thread (ch t : Z) : M S unit :=
  if (ch =? 0) || (t =? 0) then kret tt else
  wait_lock ;;; wake_one ch t ;;; wait_unlock.

(** ** Making threads ready *)

(** [enqueue_thread] on the CPU the thread is bound to, or on the current one. *)
Definition dispatch (c t : Z) (id : Z) : M S unit :=
  b <-- get_cpu_data_block id ;;
  match b with
  | Some _ => enqueue_thread b t
  | None => enqueue_thread (Some c) t
  end.

Definition scheduler_ready_process (c p : Z) : M S unit :=
  if p =? 0 then kret tt else
  pr <-- process_at p ;;
  if main_thread pr =? 0 then kret tt else
  on_process p (set_p_state PROCESS_READY) ;;;
  th <-- thread_at (main_thread pr) ;;
  dispatch c (main_thread pr) (cpu_id th).

Definition scheduler_ready_thread (c t : Z) : M S unit :=
  if t =? 0 then kret tt else
  on_thread t (set_t_state THREAD_READY) ;;;
  th <-- thread_at t ;;
  dispatch c t (cpu_id th) ;;;
  if owner th =? 0 then kret tt else
  p <-- process_at (owner th) ;;
  if bool_decide (p_state p = PROCESS_EMBRYO) then on_process (owner th) (set_p_state PROCESS_READY)
  else kret tt.

(** ** Creating threads *)

(** Both blocks are asked for before either is checked. *)
Definition thread_blocks : M S (option (Z * Z)) :=
  t <-- s_kmalloc 4096 ;;
  stack <-- s_kmalloc KERNEL_STACK_SIZE ;;
  if (t =? 0) || (stack =? 0) then
    (if t =? 0 then kret tt else s_kfree) ;;;
    (if stack =? 0 then kret tt else s_kfree) ;;;
    kret None
  else kret (Some (t, stack)).

Definition thread_create_common (entry_point arg user_stack_top cpu cs ss : Z) : M S Z :=
  b <-- thread_blocks ;;
  match b with
  | None => kret 0
  | Some (t, stack) =>
      let absolute_top := stack + KERNEL_STACK_SIZE in
      let stack_top := absolute_top - FRAME_SIZE in
      kmodify (fun s => set_frames (<[stack_top :=
        Frame (replicate 12 0) 0 0 arg 32 0 entry_point cs 0x202
          (if user_stack_top =? 0 then absolute_top else user_stack_top) ss]> (frames s)) s) ;;;
      id <-- kgets g_next_tid ;;
      kmodify (fun s => set_ids (u32 (id + 1)) (g_next_pid s) s) ;;;
      put_thread t (Thread id stack_top absolute_top absolute_top THREAD_READY cpu 0 0 0 0) ;;;
      kret t
  end.

Definition thread_create_init (cpu : Z) : M S Z :=
  b <-- thread_blocks ;;
  match b with
  | None => kret 0
  | Some (t, stack) =>
      let absolute_top := stack + KERNEL_STACK_SIZE in
      let stack_top := absolute_top - FRAME_SIZE in
      kmodify (fun s => set_frames (<[stack_top :=
        Frame (replicate 12 0) 0 0 0 32 0 0 0x8 0x202 0 0x10]> (frames s)) s) ;;;
      put_thread t (Thread 0 stack_top absolute_top absolute_top THREAD_RUNNING cpu 0 0 0 0) ;;;
      kret t
  end.

Definition thread_create (c entry_point arg cpu : Z) : M S Z :=
  t <-- thread_create_common entry_point arg 0 cpu 0x8 0x10 ;;
  if t =? 0 then kret 0 else
  dispatch c t cpu ;;;
  kret t.

Definition user_thread_create (entry_point arg user_stack_top cpu : Z) : M S Z :=
  thread_create_common entry_point arg user_stack_top cpu 0x2B 0x23.

Definition scheduler_init (c : Z) : M S unit :=
  on_cpu c (fun k => Cpu 0 0 0 0 0 (idle_thread k) 0 (tss_rsp0 k) (c_kernel_stack_top k) (c_cr3 k) (c_ts k)) ;;;
  t <-- thread_create_init c ;;
  on_cpu c (fun k => Cpu t (ready_queue_head k) (ready_queue_tail k) (dead_queue_head k) (dead_queue_tail k)
    t (fpu_owner_thread k) (tss_rsp0 k) (c_kernel_stack_top k) (c_cr3 k) (c_ts k)).

(** ** The CPU with the fewest threads *)

Fixpoint queue_length (fuel : nat) (t count : Z) : M S Z :=
  if t =? 0 then kret count else
  match fuel with
  | O => kstop NoFuel
  | Datatypes.S fuel' =>
      th <-- thread_at t ;; queue_length fuel' (t_next th) (u32 (count + 1))
  end.

(** One CPU of the search; the accumulator is the best count and CPU. *)
Definition fewest_step (i : Z) (acc : Z * option Z) : M S ((Z * option Z) + unit) :=
  s <-- kget ;;
  match cpus s !! i with
  | None => kret (inl acc)
  | Some k =>
      n <-- queue_length (size (threads s)) (ready_queue_head k) 0 ;;
      let n := if negb (current_thread k =? 0) && negb (current_thread k =? idle_thread k)
               then u32 (n + 1) else n in
      kret (inl (if n <? acc.1 then (n, Some i) else acc))
  end.

Definition get_cpu_with_fewest_threads : M S (option Z) :=
  r <-- loop (Z.to_nat MAX_CPUS) 0 fewest_step (4294967295, None) ;;
  match r with inl acc => kret acc.2 | inr _ => kret None end.

Definition get_cpu_id_with_fewest_threads : M S Z :=
  b <-- get_cpu_with_fewest_threads ;; kopt NullDeref b.

(** ** The process list *)

Definition process_list_insert (p : Z) : M S unit :=
  if p =? 0 then kret tt else
  process_list_spinlock_acquire ;;;
  head <-- kgets g_process_list_head ;;
  on_process p (set_p_next head) ;;;
  kmodify (set_head p) ;;;
  process_list_spinlock_release.

(** The search for the node before [p]. *)
Fixpoint find_before (fuel : nat) (p current : Z) : M S Z :=
  match fuel with
  | O => kstop NoFuel
  | Datatypes.S fuel' =>
      r <-- process_at current ;;
      if negb (p_next r =? 0) && negb (p_next r =? p) then find_before fuel' p (p_next r)
      else kret current
  end.

Definition process_list_remove (p : Z) : M S unit :=
  head <-- kgets g_process_list_head ;;
  if (p =? 0) || (head =? 0) then kret tt else
  process_list_spinlock_acquire ;;;
  if head =? p then
    r <-- process_at head ;;
    kmodify (set_head (p_next r)) ;;;
    process_list_spinlock_release
  else
    fuel <-- list_length ;;
    current <-- find_before fuel p head ;;
    r <-- process_at current ;;
    (if p_next r =? p then q <-- process_at p ;; on_process current (set_p_next (p_next q)) else kret tt) ;;;
    process_list_spinlock_release.

Fixpoint find_pid (fuel : nat) (id p : Z) : M S Z :=
  if p =? 0 then kret 0 else
  match fuel with
  | O => kstop NoFuel
  | Datatypes.S fuel' =>
      r <-- process_at p ;; if pid r =? id then kret p else find_pid fuel' id (p_next r)
  end.

Definition process_find_by_pid (id : Z) : M S Z :=
  process_list_spinlock_acquire ;;;
  head <-- kgets g_process_list_head ;;
  fuel <-- list_length ;;
  p <-- find_pid fuel id head ;;
  process_list_spinlock_release ;;;
  kret p.

(** ** Exit, wait and signals *)

(** The walk of [scheduler_exit]: the first process with the parent's pid; its
    main thread is made ready if it is blocked. *)
Fixpoint wake_parent (fuel : nat) (parent p : Z) : M S unit :=
  if p =? 0 then kret tt else
  match fuel with
  | O => kstop NoFuel
  | Datatypes.S fuel' =>
      r <-- process_at p ;;
      if pid r =? parent then
        if main_thread r =? 0 then kret tt else
        th <-- thread_at (main_thread r) ;;
        if bool_decide (t_state th = THREAD_BLOCKED) then
          on_thread (main_thread r) (set_t_state THREAD_READY) ;;;
          b <-- get_cpu_data_block (cpu_id th) ;;
          enqueue_thread b (main_thread r)
        else kret tt
      else wake_parent fuel' parent (p_next r)
  end.

(** The search for a thread that is neither the dying one nor dead. *)
Fixpoint next_alive (fuel : nat) (c current : Z) : M S Z :=
  match fuel with
  | O => kstop NoFuel
  | Datatypes.S fuel' =>
      next <-- dequeue_thread c ;;
      if next =? 0 then kret 0 else
      th <-- thread_at next ;;
      if (next =? current) || bool_decide (t_state th = THREAD_DEAD) then next_alive fuel' c current
      else kret next
  end.

(** The process side of the exit: the address space and the files are given
    up, the process becomes a zombie and its parent is woken. *)
Definition exit_process (p exit_code : Z) : M S unit :=
  pr <-- process_at p ;;
  on_env (process_flush_user_space ops (p_cr3 pr)) ;;;
  on_env (process_file_destroy ops p) ;;;
  on_process p (set_p_exit exit_code) ;;;
  on_process p (set_p_state PROCESS_ZOMBIE) ;;;
  process_list_spinlock_acquire ;;;
  head <-- kgets g_process_list_head ;;
  fuel <-- list_length ;;
  wake_parent fuel (ppid pr) head ;;;
  process_list_spinlock_release.

(** Steps 5 to 8 of the exit: the next thread is found and installed; the
    frame that is restored is the result. *)
Definition exit_switch (c current idle : Z) : M S Z :=
  n <-- kgets (fun s => size (threads s)) ;;
  next <-- next_alive (Datatypes.S n) c current ;;
  let next := if next =? 0 then idle else next in
  on_thread next (set_t_state THREAD_RUNNING) ;;;
  on_cpu c (set_current next) ;;;
  nt <-- thread_at next ;;
  (if (owner nt =? 0) || (current =? 0) then kret tt else
   t <-- thread_at current ;;
   if owner t =? owner nt then kret tt else
   np <-- process_at (owner nt) ;; on_cpu c (set_c_cr3 (p_cr3 np))) ;;;
  kret (context_frame nt).

Definition scheduler_exit (c exit_code : Z) : M S Z :=
  k <-- cpu_at c ;;
  let current := current_thread k in
  proc <-- (if current =? 0 then kret 0 else
            on_thread current (set_t_state THREAD_DEAD) ;;;
            on_thread current (set_t_exit exit_code) ;;;
            t <-- thread_at current ;; kret (owner t)) ;;
  (if proc =? 0 then kret tt else exit_process proc exit_code) ;;;
  exit_switch c current (idle_thread k).

(** The walk of [sys_waitpid]: the last zombie among the children asked for,
    and whether one of them is still alive. *)
Fixpoint scan_children (fuel : nat) (parent want p : Z) (acc : Z * bool) : M S (Z * bool) :=
  if p =? 0 then kret acc else
  match fuel with
  | O => kstop NoFuel
  | Datatypes.S fuel' =>
      r <-- process_at p ;;
      let acc' :=
        if (ppid r =? parent) && ((want =? -1) || (pid r =? u32 want)) then
          if bool_decide (p_state r = PROCESS_ZOMBIE) then (p, acc.2) else (acc.1, true)
        else acc in
      scan_children fuel' parent want (p_next r) acc'
  end.

(** The first half of a pass of the loop of [sys_waitpid]: the result with the
    status for the caller, or nothing when a child is still alive. *)
Definition waitpid_check (c want : Z) : M S (unit + (Z * option Z)) :=
  k <-- cpu_at c ;;
  t <-- thread_at (current_thread k) ;;
  if owner t =? 0 then kret (inr (-1, None)) else
  parent <-- process_at (owner t) ;;
  process_list_spinlock_acquire ;;;
  head <-- kgets g_process_list_head ;;
  fuel <-- list_length ;;
  r <-- scan_children fuel (pid parent) want head (0, false) ;;
  process_list_spinlock_release ;;;
  if negb (r.1 =? 0) then
    child <-- process_at r.1 ;;
    on_process r.1 (set_p_state PROCESS_DEAD) ;;;
    kret (inr (pid child, Some (Z.shiftl (Z.land (p_exit_code child) 0xFF) 8)))
  else if negb r.2 then kret (inr (-1, None))
  else kret (inl tt).

(** The second half: the parent goes to sleep. *)
Definition waitpid_block (c : Z) : M S unit :=
  k <-- cpu_at c ;; on_thread (current_thread k) (set_t_state THREAD_BLOCKED).

Definition waitpid_turn (c want regs : Z) : M S (unit + (Z * option Z)) :=
  r <-- waitpid_check c want ;;
  match r with
  | inr x => kret (inr x)
  | inl _ => waitpid_block c ;;; _ <-- schedule c regs ;; kret (inl tt)
  end.

Definition sys_kill (c id sig : Z) : M S Z :=
  if (sig <? 1) || (MAX_SIGNALS <? sig) then kret (- EINVAL) else
  p <-- process_find_by_pid (u32 id) ;;
  if p =? 0 then kret (- ESRCH) else
  r <-- process_at p ;;
  if bool_decide (p_state r = PROCESS_ZOMBIE) then kret (- EINVAL) else
  on_process p (set_pending (Z.lor (pending_signals r) (u32 (Z.shiftl 1 (sig - 1))))) ;;;
  if main_thread r =? 0 then kret 0 else
  th <-- thread_at (main_thread r) ;;
  (if bool_decide (t_state th = THREAD_READY) || bool_decide (t_state th = THREAD_RUNNING) then kret tt
   else scheduler_ready_thread c (main_thread r)) ;;;
  kret 0.

(** ** Clone *)

(** A new process with a copy of the parent's address space. *)
Definition clone_process (parent flags : Z) : M S Z :=
  child <-- s_kmalloc 4096 ;;
  if child =? 0 then kret 0 else
  pp <-- process_at parent ;;
  id <-- kgets g_next_pid ;;
  kmodify (fun s => set_ids (g_next_tid s) (u32 (id + 1)) s) ;;;
  kmodify (fun s => set_procs (<[child := Process id (pid pp) PROCESS_EMBRYO 0 0 0 0 0]> (procs s)) s) ;;;
  cr3 <-- on_env (vmm_clone_address_space ops (p_cr3 pp)) ;;
  on_process child (set_p_cr3 cr3) ;;;
  if cr3 =? 0 then
    kmodify (fun s => set_procs (delete child (procs s)) s) ;;; s_kfree ;;; kret 0
  else
    (if Z.land flags CLONE_FILES =? 0 then kret tt else on_env (share_files ops parent child)) ;;;
    kret child.

(** [fr] is the caller's frame. *)
Definition clone (c : Z) (fr : frame) : M S Z :=
  let flags := u32 (r_rsi fr) in
  let vm := negb (Z.land flags CLONE_VM =? 0) in
  k <-- cpu_at c ;;
  if current_thread k =? 0 then kret (-1) else
  pt <-- thread_at (current_thread k) ;;
  if owner pt =? 0 then kret (-1) else
  child_proc <-- (if vm then kret (owner pt) else clone_process (owner pt) flags) ;;
  if child_proc =? 0 then kret (-1) else
  cpu <-- get_cpu_id_with_fewest_threads ;;
  child <-- user_thread_create (r_rip fr) 0 (r_rsp fr) cpu ;;
  if child =? 0 then
    (if vm then kret tt else
     kmodify (fun s => set_procs (delete child_proc (procs s)) s) ;;; s_kfree) ;;;
    kret (-1)
  else
    on_thread child (set_t_state THREAD_BLOCKED) ;;;
    ct <-- thread_at child ;;
    kmodify (fun s => set_frames (<[context_frame ct :=
      Frame (r_rest fr) 0 (r_rsi fr) (r_rdi fr) (r_int_no fr) (r_error_code fr) (r_rip fr) (r_cs fr)
        (r_rflags fr) (r_rsp fr) (r_ss fr)]> (frames s)) s) ;;;
    on_thread child (set_owner child_proc) ;;;
    (if vm then kret tt else
     on_process child_proc (set_main_thread child) ;;;
     on_process child_proc (set_p_state PROCESS_READY)) ;;;
    on_thread child (set_t_state THREAD_READY) ;;;
    process_list_insert child_proc ;;;
    enqueue_thread (Some c) child ;;;
    if vm then kret (tid ct) else cp <-- process_at child_proc ;; kret (pid cp).

(** [frame->rsi] is set for the call and restored after it. *)
Definition fork (c : Z) (fr : frame) : M S Z :=
  clone c (Frame (r_rest fr) (r_rax fr) CLONE_FILES (r_rdi fr) (r_int_no fr) (r_error_code fr) (r_rip fr)
             (r_cs fr) (r_rflags fr) (r_rsp fr) (r_ss fr)).

End sched.
