(* ===== verification/SchedInv.v ===== *)
(** * The scheduler's invariant and its fairness

    The run queues are linked lists threaded through the threads; [linked]
    relates them to lists of addresses, and every operation is specified on
    those lists and on the threads with the links erased.  On top of that come
    the invariant of the scheduler under every interleaving of its entry
    points, and the round-robin guarantee. *)

From Stdlib Require Import ZArith Lia.
From stdpp Require Import base tactics list gmap relations.
From S2P Require Import Prelude Sched.

Section queues.
Context {E : Type}.
Implicit Types (s : sched E) (T : gmap Z thread) (q l : list Z).

(** ** Linked lists of threads *)

Fixpoint qseg (T : gmap Z thread) (h : Z) (l : list Z) : Prop :=
  match l with
  | [] => h = 0
  | a :: l' => h = a /\ a <> 0 /\ exists t, T !! a = Some t /\ qseg T (t_next t) l'
  end.

Lemma qseg_insert T h l x t :
  x ∉ l -> qseg T h l -> qseg (<[x := t]> T) h l.
Proof.
  revert h. induction l as [|a l IH]; intros h; cbn; [done|]. rewrite not_elem_of_cons.
  intros [Hx Hl] (-> & Ha & u & Hu & Hs). split_and!; [done..|]. exists u. rewrite lookup_insert_ne by done. auto.
Qed.

Lemma qseg_next T h l x t u :
  T !! x = Some u -> t_next t = t_next u -> qseg T h l -> qseg (<[x := t]> T) h l.
Proof.
  intros Hu Ht. revert h. induction l as [|a l IH]; intros h; cbn; [done|].
  intros (-> & Ha & v & Hv & Hs). split_and!; [done..|]. destruct (decide (x = a)) as [->|].
  - rewrite lookup_insert_eq. exists t. split; [done|]. rewrite Ht. rewrite Hu in Hv. injection Hv as <-. auto.
  - rewrite lookup_insert_ne by done. eauto.
Qed.

(** Linking [t] behind the last thread [x]. *)
Lemma qseg_snoc T h l x t u v :
  NoDup (l ++ [x]) -> t ∉ l ++ [x] -> t <> 0 -> T !! x = Some u -> T !! t = Some v -> t_next v = 0 ->
  qseg T h (l ++ [x]) -> qseg (<[x := set_t_next t u]> T) h (l ++ [x; t]).
Proof.
  intros Hnd Hin Ht Hu Hv Hn. revert h. induction l as [|a l IH]; intros h; cbn in *.
  - intros (-> & Hx & w & _ & _). apply not_elem_of_cons in Hin as [Hne _]. split_and!; [done..|].
    exists (set_t_next t u). rewrite lookup_insert_eq. split_and!; [done..|].
    exists v. by rewrite lookup_insert_ne by done.
  - apply NoDup_cons in Hnd as [Ha Hnd]. apply not_elem_of_cons in Hin as [_ Hin].
    intros (-> & H0 & w & Hw & Hs). split_and!; [done..|]. exists w. rewrite lookup_insert_ne; [auto|].
    intros ->. apply Ha. apply elem_of_app. right. by left.
Qed.

Lemma qseg_lookup T h l x : qseg T h l -> x ∈ l -> x <> 0 /\ is_Some (T !! x).
Proof.
  revert h. induction l as [|a l IH]; intros h; cbn; [by intros _ ?%elem_of_nil|].
  intros (-> & Ha & t & Ht & Hs) [->|Hx]%elem_of_cons; [by eauto|]. by eapply IH.
Qed.

(** The last link of a list is null. *)
Lemma qseg_last T h l x : qseg T h (l ++ [x]) -> exists t, T !! x = Some t /\ t_next t = 0.
Proof.
  revert h. induction l as [|a l IH]; intros h; cbn.
  - intros (_ & _ & t & Ht & Hn). eauto.
  - intros (_ & _ & t & _ & Hs). eauto.
Qed.

(** ** The queues of a state *)

(** The threads and CPUs without the links of the queues. *)
Definition view s : gmap Z thread := set_t_next 0 <$> threads s.
Definition cview s : gmap Z cpu := set_ready 0 0 <$> cpus s.

(** [s'] differs from [s] in the links only. *)
Definition same s s' : Prop :=
  s' = set_threads (threads s') (set_cpus (cpus s') s) /\ view s' = view s /\ cview s' = cview s.

Definition upd_q (qs : Z -> list Z) (c : Z) (l : list Z) : Z -> list Z :=
  fun c' => if decide (c' = c) then l else qs c'.

Record linked s (qs : Z -> list Z) : Prop := {
  lk_seg : forall c k, cpus s !! c = Some k ->
    qseg (threads s) (ready_queue_head k) (qs c) /\ ready_queue_tail k = default 0 (last (qs c));
  lk_nodup : forall c, NoDup (qs c);
  lk_disj : forall c c' t, t ∈ qs c -> t ∈ qs c' -> c = c';
  lk_cpu : forall c, cpus s !! c = None -> qs c = []
}.

Lemma upd_q_eq qs c l : upd_q qs c l c = l.
Proof. unfold upd_q. by rewrite decide_True. Qed.
Lemma upd_q_ne qs c l c' : c' <> c -> upd_q qs c l c' = qs c'.
Proof. intros H. unfold upd_q. by rewrite decide_False. Qed.

Lemma view_lookup s x t : threads s !! x = Some t -> view s !! x = Some (set_t_next 0 t).
Proof. intros H. unfold view. by rewrite lookup_fmap, H. Qed.
Lemma view_inv s x t : view s !! x = Some t -> exists u, threads s !! x = Some u /\ t = set_t_next 0 u.
Proof. unfold view. rewrite lookup_fmap. destruct (threads s !! x); cbn; [|done]. intros [= <-]. eauto. Qed.

Lemma same_refl s : same s s.
Proof. split_and!; [by destruct s | done..]. Qed.

Lemma view_relink (T : gmap Z thread) x u n :
  T !! x = Some u -> set_t_next 0 <$> <[x := set_t_next n u]> T = set_t_next 0 <$> T.
Proof.
  intros Hu. rewrite fmap_insert. apply insert_id. by rewrite lookup_fmap, Hu.
Qed.

Lemma cview_relink (C : gmap Z cpu) c k h t :
  C !! c = Some k -> set_ready 0 0 <$> <[c := set_ready h t k]> C = set_ready 0 0 <$> C.
Proof.
  intros Hk. rewrite fmap_insert. apply insert_id. by rewrite lookup_fmap, Hk.
Qed.

(** Accesses through pointers. *)
Lemma wp_thread_at x t (Q : thread -> sched E -> Prop) s :
  threads s !! x = Some t -> Q t s -> wp (thread_at x) Q s.
Proof. intros H HQ. unfold thread_at. wp_steps. by eapply wp_opt. Qed.
Lemma wp_on_thread x t f (Q : unit -> sched E -> Prop) s :
  threads s !! x = Some t -> Q tt (set_threads (<[x := f t]> (threads s)) s) -> wp (on_thread x f) Q s.
Proof. intros H HQ. unfold on_thread, put_thread. wp_steps. eapply wp_thread_at; [done|]. by wp_steps. Qed.
Lemma wp_process_at x p (Q : process -> sched E -> Prop) s :
  procs s !! x = Some p -> Q p s -> wp (process_at x) Q s.
Proof. intros H HQ. unfold process_at. wp_steps. by eapply wp_opt. Qed.
Lemma wp_on_process x p f (Q : unit -> sched E -> Prop) s :
  procs s !! x = Some p -> Q tt (set_procs (<[x := f p]> (procs s)) s) -> wp (on_process x f) Q s.
Proof. intros H HQ. unfold on_process. wp_steps. eapply wp_process_at; [done|]. by wp_steps. Qed.
Lemma wp_cpu_at c k (Q : cpu -> sched E -> Prop) s :
  cpus s !! c = Some k -> Q k s -> wp (cpu_at c) Q s.
Proof. intros H HQ. unfold cpu_at. wp_steps. by eapply wp_opt. Qed.
Lemma wp_on_cpu c k f (Q : unit -> sched E -> Prop) s :
  cpus s !! c = Some k -> Q tt (set_cpus (<[c := f k]> (cpus s)) s) -> wp (on_cpu c f) Q s.
Proof. intros H HQ. unfold on_cpu. wp_steps. eapply wp_cpu_at; [done|]. by wp_steps. Qed.

(** ** Enqueueing and dequeueing refine lists *)

(** A state whose links changed on CPU [c] only. *)
Lemma linked_upd s s' c k h tl l qs :
  linked s qs -> cpus s' = <[c := set_ready h tl k]> (cpus s) -> tl = default 0 (last l) -> cpus s !! c = Some k -> NoDup l ->
  qseg (threads s') h l -> (forall t, t ∈ l -> t ∈ qs c \/ (forall c', t ∉ qs c')) ->
  (forall x, x ∉ l -> x ∉ qs c -> threads s' !! x = threads s !! x) ->
  linked s' (upd_q qs c l).
Proof.
  intros [Hseg Hnd Hdis Hnone] Hc' -> Hk Hl Hq Hin Hsame.
  assert (Hsep : forall c' t, c' <> c -> t ∈ qs c' -> (t ∉ l) /\ (t ∉ qs c)).
  { intros c' t Hne Ht. split; [|intros Hc; by specialize (Hdis _ _ _ Ht Hc)].
    intros Htl. destruct (Hin t Htl) as [Hc|Hc]; [|by eapply Hc]. by specialize (Hdis _ _ _ Ht Hc). }
  split; rewrite ?Hc'.
  - intros c' k'. destruct (decide (c' = c)) as [->|Hne].
    + rewrite lookup_insert_eq. intros [= <-]. rewrite upd_q_eq. done.
    + rewrite lookup_insert_ne by done. intros Hk'. rewrite upd_q_ne by done.
      destruct (Hseg c' k' Hk') as [Hs Ht]. split; [|done]. clear Ht.
      assert (Hx : forall t, t ∈ qs c' -> threads s' !! t = threads s !! t).
      { intros t Ht. destruct (Hsep c' t Hne Ht). auto. }
      revert Hs Hx. generalize (ready_queue_head k'). generalize (qs c').
      induction l0 as [|a l0 IH]; intros z; cbn; [done|].
      intros (-> & H0 & t & Ht & Hs) Hx. split_and!; [done..|]. exists t. rewrite Hx by by left.
      split; [done|]. apply IH; [done|]. intros y Hy. apply Hx. by right.
  - intros c'. destruct (decide (c' = c)) as [->|]; [by rewrite upd_q_eq | by rewrite upd_q_ne].
  - intros c1 c2 t. destruct (decide (c1 = c)) as [->|H1], (decide (c2 = c)) as [->|H2];
      rewrite ?upd_q_eq, ?upd_q_ne by done; [done| | |by apply Hdis].
    + intros Ha Hb. by destruct (Hsep c2 t H2 Hb).
    + intros Ha Hb. by destruct (Hsep c1 t H1 Ha).
  - intros c'. destruct (decide (c' = c)) as [->|Hne]; [by rewrite lookup_insert_eq|].
    rewrite lookup_insert_ne, upd_q_ne by done. apply Hnone.
Qed.

Lemma wp_enqueue s qs c k t v :
  linked s qs -> cpus s !! c = Some k -> threads s !! t = Some v -> t <> 0 -> (forall c', t ∉ qs c') ->
  wp (enqueue_thread (Some c) t)
    (fun _ s' => linked s' (upd_q qs c (qs c ++ [t])) /\ same s s') s.
Proof.
  intros Hl Hk Hv H0 Hfree. unfold enqueue_thread. rewrite (proj2 (Z.eqb_neq _ _) H0). wp_steps.
  eapply wp_on_thread; [done|]. wp_steps. eapply wp_cpu_at; [done|].
  destruct (lk_seg _ _ Hl c k Hk) as [Hs Ht]. pose proof (lk_nodup _ _ Hl c) as Hnd.
  set (T1 := <[t := set_t_next 0 v]> (threads s)).
  assert (Hs1 : qseg T1 (ready_queue_head k) (qs c)) by by apply qseg_insert.
  destruct (qs c) as [|x l _] eqn:Hq using rev_ind.
  - cbn in Ht. rewrite Ht. cbn [Z.eqb]. eapply wp_on_cpu; [done|]. split.
    + apply (linked_upd s _ c k t t [t]); try done; [apply NoDup_singleton| | |].
      * cbn. split_and!; [done..|]. exists (set_t_next 0 v). unfold T1. by rewrite lookup_insert_eq.
      * intros y Hy. apply list_elem_of_singleton in Hy as ->. auto.
      * intros y Hy _. apply lookup_insert_ne. intros ->. apply Hy. by left.
    + split_and!; [done | |]; unfold view, cview; cbn.
      * by apply view_relink.
      * by apply cview_relink.
  - rewrite last_snoc in Ht. cbn in Ht.
    assert (Hx0 : x <> 0 /\ is_Some (T1 !! x)).
    { apply (qseg_lookup T1 _ _ x Hs1). apply elem_of_app. right. by left. }
    destruct Hx0 as [Hx0 [u Hu]]. rewrite Ht, (proj2 (Z.eqb_neq _ _) Hx0). wp_steps.
    eapply wp_on_thread; [exact Hu|]. wp_steps. eapply wp_on_cpu; [done|].
    assert (Hfx : t ∉ l ++ [x]) by (rewrite <- Hq; apply Hfree).
    assert (Htx : t <> x).
    { intros ->. apply Hfx. apply elem_of_app. right. by left. }
    split.
    + assert (Happ : l ++ [x; t] = (l ++ [x]) ++ [t]) by by rewrite <- app_assoc.
      rewrite <- Happ. apply (linked_upd s _ c k (ready_queue_head k) t (l ++ [x; t])); try done.
      * by rewrite Happ, last_snoc.
      * rewrite Happ. apply NoDup_app. split_and!; [done| |apply NoDup_singleton].
        intros y Hy Hy'. apply list_elem_of_singleton in Hy' as ->. by apply Hfx.
      * apply (qseg_snoc T1 _ l x t u (set_t_next 0 v)); try done. unfold T1. by rewrite lookup_insert_eq.
      * intros y Hy. rewrite Happ, <- Hq in Hy.
        apply elem_of_app in Hy as [?|Hy]; [by left|]. apply list_elem_of_singleton in Hy as ->. by right.
      * intros y Hy _. rewrite Happ, !elem_of_app, !list_elem_of_singleton in Hy.
        cbn [threads set_cpus set_threads]. unfold T1.
        rewrite !lookup_insert_ne; [done|intros ->; apply Hy; auto..].
    + split_and!; [done | |]; unfold view, cview; cbn.
      * rewrite view_relink by done. by apply view_relink.
      * by apply cview_relink.
Qed.

Lemma wp_dequeue s qs c k :
  linked s qs -> cpus s !! c = Some k ->
  wp (dequeue_thread c)
    (fun r s' => match qs c with
                 | [] => r = 0 /\ s' = s
                 | t :: q => r = t /\ t <> 0 /\ linked s' (upd_q qs c q) /\ same s s'
                 end) s.
Proof.
  intros Hl Hk. unfold dequeue_thread. wp_steps. eapply wp_cpu_at; [done|].
  destruct (lk_seg _ _ Hl c k Hk) as [Hs Ht]. pose proof (lk_nodup _ _ Hl c) as Hnd.
  destruct (qs c) as [|t q] eqn:Hq.
  - cbn in Hs. rewrite Hs. by wp_steps.
  - destruct Hs as (-> & H0 & th & Hth & Hs). apply NoDup_cons in Hnd as [Hnin Hnd].
    rewrite (proj2 (Z.eqb_neq _ _) H0). wp_steps. eapply wp_thread_at; [done|].
    wp_steps. eapply wp_on_cpu; [done|]. wp_steps. eapply wp_on_thread; [done|]. wp_steps.
    split_and!; [done..| |].
    + eapply (linked_upd s _ c k (t_next th)); try done;
        [|by apply qseg_insert|intros y Hy; left; rewrite Hq; by right|].
      2: { intros y Hy Hy'. apply lookup_insert_ne. intros ->. apply Hy'. rewrite Hq. by left. }
      destruct q as [|a q]; [by rewrite Hs|]. destruct Hs as (-> & Ha & _).
      rewrite (proj2 (Z.eqb_neq _ _) Ha), Ht. by rewrite last_cons_cons.
    + split_and!; [done | |]; unfold view, cview; cbn; [by apply view_relink | by apply cview_relink].
Qed.

(** ** Operations on the views *)

(** Nothing but threads and CPUs changed. *)
Definition only_threads s s' : Prop := s' = set_threads (threads s') (set_cpus (cpus s') s).

Lemma only_refl s : only_threads s s.
Proof. by destruct s. Qed.
Lemma only_trans s1 s2 s3 : only_threads s1 s2 -> only_threads s2 s3 -> only_threads s1 s3.
Proof. unfold only_threads. intros H1 H2. rewrite H2, H1. by destruct s1, s3. Qed.
Lemma same_only s s' : same s s' -> only_threads s s'.
Proof. by intros [? _]. Qed.

(** A field other than the link. *)
Definition field_thread (f : thread -> thread) : Prop :=
  forall u, set_t_next 0 (f u) = f (set_t_next 0 u) /\ t_next (f u) = t_next u.
Definition field_cpu (f : cpu -> cpu) : Prop :=
  forall k, set_ready 0 0 (f k) = f (set_ready 0 0 k) /\
    ready_queue_head (f k) = ready_queue_head k /\ ready_queue_tail (f k) = ready_queue_tail k.

Lemma wp_see_thread x t (Q : thread -> sched E -> Prop) s :
  view s !! x = Some t -> (forall u, t = set_t_next 0 u -> Q u s) -> wp (thread_at x) Q s.
Proof. intros (u & Hu & ->)%view_inv HQ. eapply wp_thread_at; eauto. Qed.

Lemma cview_inv s c k : cview s !! c = Some k -> exists h, cpus s !! c = Some h /\ k = set_ready 0 0 h.
Proof. unfold cview. rewrite lookup_fmap. destruct (cpus s !! c); cbn; [|done]. intros [= <-]. eauto. Qed.

Lemma wp_see_cpu c k (Q : cpu -> sched E -> Prop) s :
  cview s !! c = Some k -> (forall h, k = set_ready 0 0 h -> Q h s) -> wp (cpu_at c) Q s.
Proof. intros (u & Hu & ->)%cview_inv HQ. eapply wp_cpu_at; eauto. Qed.

Lemma wp_set_thread x t f qs (Q : unit -> sched E -> Prop) s :
  linked s qs -> view s !! x = Some t -> field_thread f ->
  (forall s', linked s' qs -> only_threads s s' -> view s' = <[x := f t]> (view s) -> cview s' = cview s ->
     Q tt s') ->
  wp (on_thread x f) Q s.
Proof.
  intros [Hseg Hnd Hdis Hnone] (u & Hu & ->)%view_inv Hf HQ. eapply wp_on_thread; [done|]. apply HQ; [|done| |done].
  - split; cbn; try done. intros c k Hk. destruct (Hseg c k Hk) as [H1 H2]. split; [|done].
    eapply qseg_next; [done | by apply Hf | done].
  - unfold view. cbn. rewrite fmap_insert. f_equal. by apply Hf.
Qed.

Lemma wp_set_cpu c k f qs (Q : unit -> sched E -> Prop) s :
  linked s qs -> cview s !! c = Some k -> field_cpu f ->
  (forall s', linked s' qs -> only_threads s s' -> view s' = view s -> cview s' = <[c := f k]> (cview s) ->
     Q tt s') ->
  wp (on_cpu c f) Q s.
Proof.
  intros [Hseg Hnd Hdis Hnone] (h & Hh & ->)%cview_inv Hf HQ. eapply wp_on_cpu; [done|]. apply HQ; [|done|done|].
  - destruct (Hf h) as (_ & E1 & E2). split; cbn; try done.
    + intros c' k'. destruct (decide (c' = c)) as [->|].
      * rewrite lookup_insert_eq. intros [= <-]. rewrite E1, E2. by apply Hseg.
      * rewrite lookup_insert_ne by done. apply Hseg.
    + intros c'. destruct (decide (c' = c)) as [->|]; [by rewrite lookup_insert_eq|].
      rewrite lookup_insert_ne by done. apply Hnone.
  - unfold cview. cbn. rewrite fmap_insert. f_equal. by apply Hf.
Qed.

(** ** The invariant *)

Record ainv (T : gmap Z thread) (C : gmap Z cpu) (P : gmap Z process) (qs : Z -> list Z) : Prop := {
  ai_ready : forall c t, t ∈ qs c ->
    exists th, T !! t = Some th /\ t_state th = THREAD_READY /\ tid th <> 0 /\ cpu_id th = c;
  ai_home : forall t th, T !! t = Some th -> is_Some (C !! cpu_id th);
  ai_queued : forall t th, T !! t = Some th -> tid th <> 0 -> t_state th = THREAD_READY -> t ∈ qs (cpu_id th);
  ai_running : forall t th, T !! t = Some th -> tid th <> 0 -> t_state th = THREAD_RUNNING ->
    exists k, C !! cpu_id th = Some k /\ current_thread k = t;
  ai_current : forall c k, C !! c = Some k ->
    exists th, T !! current_thread k = Some th /\ cpu_id th = c /\
      (tid th = 0 -> current_thread k = idle_thread k);
  ai_idle : forall c k, C !! c = Some k ->
    0 <= c < MAX_CPUS /\ exists th, T !! idle_thread k = Some th /\ tid th = 0 /\ cpu_id th = c;
  ai_null : T !! 0 = None /\ P !! 0 = None;
  ai_owner : forall t th, T !! t = Some th -> owner th <> 0 -> exists p, P !! owner th = Some p /\ p_cr3 p <> 0;
  ai_cr3 : forall c k th p, C !! c = Some k -> T !! current_thread k = Some th -> tid th <> 0 ->
    P !! owner th = Some p -> c_cr3 k = p_cr3 p;
  ai_main : forall p r, P !! p = Some r -> main_thread r <> 0 ->
    exists th, T !! main_thread r = Some th /\ tid th <> 0
}.

(** Changing the state of one thread, with the queues that go with it. *)
Lemma ainv_upd T C P qs qs' t th th' :
  ainv T C P qs -> T !! t = Some th ->
  tid th' = tid th -> cpu_id th' = cpu_id th -> owner th' = owner th ->
  (forall c x, x <> t -> x ∈ qs' c <-> x ∈ qs c) ->
  (forall c, t ∈ qs' c -> t_state th' = THREAD_READY /\ tid th <> 0 /\ cpu_id th = c) ->
  (tid th <> 0 -> t_state th' = THREAD_READY -> t ∈ qs' (cpu_id th)) ->
  (tid th <> 0 -> t_state th' = THREAD_RUNNING -> exists k, C !! cpu_id th = Some k /\ current_thread k = t) ->
  ainv (<[t := th']> T) C P qs'.
Proof.
  intros [Hready Hhome Hqueued Hrun Hcur Hidle Hnull Hown Hcr Hmain] Ht Etid Ecpu Eown Hq H1 H2 H3.
  assert (Hold : forall x u, <[t := th']> T !! x = Some u -> (x = t /\ u = th') \/ (x <> t /\ T !! x = Some u)).
  { intros x u Hx. apply lookup_insert_Some in Hx as [[-> ->]|[? ?]]; auto. }
  assert (Hnew : forall x u, T !! x = Some u -> exists u', <[t := th']> T !! x = Some u' /\
      tid u' = tid u /\ cpu_id u' = cpu_id u /\ owner u' = owner u).
  { intros x u Hx. destruct (decide (x = t)) as [->|]; [|exists u; by rewrite lookup_insert_ne].
    exists th'. rewrite Ht in Hx. injection Hx as <-. by rewrite lookup_insert_eq. }
  split.
  - intros c x Hx. destruct (decide (x = t)) as [->|Hne].
    + exists th'. destruct (H1 c Hx) as (? & ? & ?). rewrite lookup_insert_eq. by rewrite Etid, Ecpu.
    + rewrite lookup_insert_ne by done. apply Hready. by apply Hq.
  - intros x u [[-> ->]|[_ Hx]]%Hold; [rewrite Ecpu|]; by eapply Hhome.
  - intros x u [[-> ->]|[Hne Hx]]%Hold; [rewrite Ecpu, Etid; by apply H2|]. intros. apply Hq; auto.
  - intros x u [[-> ->]|[Hne Hx]]%Hold; [rewrite Ecpu, Etid; by apply H3|]. by apply Hrun.
  - intros c k Hk. destruct (Hcur c k Hk) as (u & Hu & Hc & Hz). destruct (Hnew _ _ Hu) as (u' & ? & E1 & E2 & _).
    exists u'. by rewrite E1, E2.
  - intros c k Hk. destruct (Hidle c k Hk) as (Hr & u & Hu & Hz & Hc). split; [done|].
    destruct (Hnew _ _ Hu) as (u' & ? & E1 & E2 & _). exists u'. by rewrite E1, E2.
  - split; [|apply Hnull]. rewrite lookup_insert_ne; [apply Hnull|]. intros ->. by rewrite (proj1 Hnull) in Ht.
  - intros x u [[-> ->]|[_ Hx]]%Hold; [rewrite Eown|]; by eapply Hown.
  - intros c k u p Hk Hu. apply Hold in Hu as [[Hx ->]|[_ Hu]]; [|by eapply Hcr].
    rewrite Etid, Eown. rewrite <- Hx in Ht. by eapply Hcr.
  - intros p r Hp Hm. destruct (Hmain p r Hp Hm) as (u & Hu & Hz). destruct (Hnew _ _ Hu) as (u' & ? & E1 & _ & _).
    exists u'. by rewrite E1.
Qed.

(** A CPU turns to another thread, which is taken from its queue or idle. *)
Lemma ainv_run T C P qs qs' c k k' n th :
  ainv T C P qs -> C !! c = Some k -> T !! n = Some th -> cpu_id th = c ->
  (tid th = 0 -> n = idle_thread k) ->
  (forall x, x <> n -> x ∈ qs' c <-> x ∈ qs c) -> (forall c' x, c' <> c -> x ∈ qs' c' <-> x ∈ qs c') ->
  (n ∉ qs' c) ->
  (forall u, T !! current_thread k = Some u -> tid u = 0 \/ t_state u <> THREAD_RUNNING) ->
  idle_thread k' = idle_thread k -> current_thread k' = n ->
  (forall p, tid th <> 0 -> P !! owner th = Some p -> c_cr3 k' = p_cr3 p) ->
  ainv (<[n := set_t_state THREAD_RUNNING th]> T) (<[c := k']> C) P qs'.
Proof.
  intros [Hready Hhome Hqueued Hrun Hcur Hidle Hnull Hown Hcr Hmain] Hk Hn Hc Hid Hq Hq' Hnin Hold Eid Ecur Ecr.
  assert (Hqn : forall c', n ∉ qs' c').
  { intros c' Hx. destruct (decide (c' = c)) as [->|Hne]; [done|]. apply Hq' in Hx; [|done].
    apply Hready in Hx as (u & Hu & _ & _ & Hcu). rewrite Hn in Hu. injection Hu as <-. congruence. }
  set (th' := set_t_state THREAD_RUNNING th).
  assert (Hsplit : forall x u, <[n := th']> T !! x = Some u -> (x = n /\ u = th') \/ (x <> n /\ T !! x = Some u)).
  { intros x u Hx. apply lookup_insert_Some in Hx as [[-> ->]|[? ?]]; auto. }
  assert (Hnew : forall x u, T !! x = Some u -> exists u', <[n := th']> T !! x = Some u' /\
      tid u' = tid u /\ cpu_id u' = cpu_id u /\ owner u' = owner u).
  { intros x u Hx. destruct (decide (x = n)) as [->|]; [|exists u; by rewrite lookup_insert_ne].
    exists th'. rewrite Hn in Hx. injection Hx as <-. by rewrite lookup_insert_eq. }
  assert (HC : forall c', is_Some (C !! c') -> is_Some (<[c := k']> C !! c')).
  { intros c' H. destruct (decide (c' = c)) as [->|]; [rewrite lookup_insert_eq|rewrite lookup_insert_ne by done]; eauto. }
  split.
  - intros c' x Hx. assert (x <> n) by (intros ->; by eapply Hqn). rewrite lookup_insert_ne by done. apply Hready.
    destruct (decide (c' = c)) as [->|]; [apply Hq | apply Hq']; done.
  - intros x u [[-> ->]|[_ Hx]]%Hsplit; apply HC; [exact (Hhome _ _ Hn) | exact (Hhome _ _ Hx)].
  - intros x u [[-> ->]|[Hne Hx]]%Hsplit Hz Hs; [done|]. pose proof (Hqueued x u Hx Hz Hs) as Hi.
    destruct (decide (cpu_id u = c)) as [E1|]; [rewrite E1 in *; by apply Hq | by apply Hq'].
  - intros x u [[-> ->]|[Hne Hx]]%Hsplit Hz Hs; [cbn; rewrite Hc; exists k'; by rewrite lookup_insert_eq|].
    destruct (Hrun x u Hx Hz Hs) as (k0 & Hk0 & Hcx). destruct (decide (cpu_id u = c)) as [E1|].
    + rewrite E1 in *. rewrite Hk in Hk0. injection Hk0 as <-. rewrite <- Hcx in Hx.
      destruct (Hold u Hx); congruence.
    + exists k0. by rewrite lookup_insert_ne.
  - intros c' k0 Hk0. apply lookup_insert_Some in Hk0 as [[<- <-]|[Hne Hk0]].
    + exists th'. rewrite Ecur, lookup_insert_eq, Eid. done.
    + destruct (Hcur c' k0 Hk0) as (u & Hu & Hcu & Hz). destruct (Hnew _ _ Hu) as (u' & ? & E1 & E2 & _).
      exists u'. by rewrite E1, E2.
  - intros c' k0 Hk0.
    assert (Hold' : exists k1, C !! c' = Some k1 /\ idle_thread k1 = idle_thread k0).
    { apply lookup_insert_Some in Hk0 as [[<- <-]|[_ ?]]; eauto. }
    destruct Hold' as (k1 & Hk1 & <-). destruct (Hidle c' k1 Hk1) as (Hr & u & Hu & Hz & Hcu). split; [done|].
    destruct (Hnew _ _ Hu) as (u' & ? & E1 & E2 & _). exists u'. by rewrite E1, E2.
  - split; [|apply Hnull]. rewrite lookup_insert_ne; [apply Hnull|]. intros ->. by rewrite (proj1 Hnull) in Hn.
  - intros x u [[-> ->]|[_ Hx]]%Hsplit; [exact (Hown _ _ Hn) | exact (Hown _ _ Hx)].
  - intros c' k0 u p Hk0 Hu Hz Hp. apply lookup_insert_Some in Hk0 as [[<- <-]|[Hne Hk0]].
    + rewrite Ecur, lookup_insert_eq in Hu. injection Hu as <-. by apply Ecr.
    + destruct (Hcur c' k0 Hk0) as (u0 & Hu0 & Hcu & _).
      apply Hsplit in Hu as [[Hx ->]|[_ Hu]]; [|exact (Hcr _ _ _ _ Hk0 Hu Hz Hp)]. rewrite Hx in Hu0. congruence.
  - intros p r Hp Hm. destruct (Hmain p r Hp Hm) as (u & Hu & Hz). destruct (Hnew _ _ Hu) as (u' & ? & E1 & _ & _).
    exists u'. by rewrite E1.
Qed.

Lemma ainv_field T C P qs t th th' :
  ainv T C P qs -> T !! t = Some th ->
  tid th' = tid th -> cpu_id th' = cpu_id th -> owner th' = owner th -> t_state th' = t_state th ->
  ainv (<[t := th']> T) C P qs.
Proof.
  intros Hi Ht E1 E2 E3 E4. eapply ainv_upd; try done; rewrite E4.
  - intros c Hx. apply (ai_ready _ _ _ _ Hi) in Hx as (u & Hu & Hs). rewrite Ht in Hu. by injection Hu as <-.
  - by apply (ai_queued _ _ _ _ Hi).
  - by apply (ai_running _ _ _ _ Hi).
Qed.

(** A thread that becomes ready and joins the queue of its CPU. *)
Lemma ainv_ready T C P qs qs' t th th' :
  ainv T C P qs -> T !! t = Some th -> tid th <> 0 ->
  tid th' = tid th -> cpu_id th' = cpu_id th -> owner th' = owner th -> t_state th' = THREAD_READY ->
  t_state th <> THREAD_READY ->
  (forall c, qs' c = if decide (c = cpu_id th) then qs c ++ [t] else qs c) ->
  ainv (<[t := th']> T) C P qs'.
Proof.
  intros Hi Ht Hz E1 E2 E3 E4 Hns Hq.
  assert (Hnot : forall c, t ∉ qs c).
  { intros c Hx. apply (ai_ready _ _ _ _ Hi) in Hx as (u & Hu & Hs & _). rewrite Ht in Hu. by injection Hu as <-. }
  eapply (ainv_upd _ _ _ qs); try done; [| | |by rewrite E4].
  - intros c x Hne. rewrite Hq. case_decide; [|done]. rewrite elem_of_app, list_elem_of_singleton. tauto.
  - intros c. rewrite Hq. case_decide; [done|]. by intros ?%Hnot.
  - intros _ _. rewrite Hq, decide_True by done. apply elem_of_app. right. by left.
Qed.

(** What a thread adds to the queue when its CPU is taken away. *)
Definition parked (T : gmap Z thread) (t : Z) : list Z :=
  match T !! t with
  | Some th => if bool_decide (t_state th = THREAD_RUNNING) && negb (tid th =? 0) then [t] else []
  | None => []
  end.

Lemma wp_park s qs c k regs :
  linked s qs -> ainv (view s) (cview s) (procs s) qs -> cview s !! c = Some k ->
  wp (park_current c (current_thread k) regs)
    (fun _ s' => exists qs', linked s' qs' /\ ainv (view s') (cview s') (procs s') qs' /\
       only_threads s s' /\ cview s' = cview s /\
       qs' c = qs c ++ parked (view s) (current_thread k) /\ (forall c', c' <> c -> qs' c' = qs c') /\
       (forall u, view s' !! current_thread k = Some u -> tid u = 0 \/ t_state u <> THREAD_RUNNING) /\
       (forall x u, view s' !! x = Some u -> exists u0, view s !! x = Some u0 /\ tid u = tid u0 /\
          (t_state u = THREAD_DEAD -> t_state u0 = THREAD_DEAD))) s.
Proof.
  intros Hl Hi Hk. destruct (ai_current _ _ _ _ Hi c k Hk) as (th & Hth & Hc & Hz).
  assert (H0 : current_thread k <> 0).
  { intros E0. rewrite E0, (proj1 (ai_null _ _ _ _ Hi)) in Hth. done. }
  unfold park_current. rewrite (proj2 (Z.eqb_neq _ _) H0). wp_steps.
  eapply wp_set_thread; [done..|]. intros s1 L1 O1 V1 C1. wp_steps.
  eapply wp_see_thread; [by rewrite V1, lookup_insert_eq|]. intros u Hu. wp_steps.
  unfold parked. rewrite Hth.
  replace (t_state u) with (t_state th) by (change (t_state u) with (t_state (set_t_next 0 u)); by rewrite <- Hu).
  replace (tid u) with (tid th) by (change (tid u) with (tid (set_t_next 0 u)); by rewrite <- Hu).
  assert (P1 : procs s1 = procs s) by by rewrite O1.
  destruct (bool_decide (t_state th = THREAD_RUNNING) && negb (tid th =? 0)) eqn:Ep.
  - apply andb_prop in Ep as [E1%bool_decide_eq_true_1 E2]. zbool. wp_steps.
    eapply wp_set_thread; [done | by rewrite V1, lookup_insert_eq | done|].
    intros s2 L2 O2 V2 C2. destruct (view_inv s2 (current_thread k) (set_t_state THREAD_READY (set_context_frame regs th)))
      as (v & Hv & _); [by rewrite V2, lookup_insert_eq|].
    destruct (cview_inv s2 c k) as (kk & Hkk & _); [by rewrite C2, C1|].
    assert (Hnot : forall c', current_thread k ∉ qs c').
    { intros c' Hx. apply (ai_ready _ _ _ _ Hi) in Hx as (w & Hw & Hs & _). rewrite Hth in Hw. congruence. }
    eapply wp_mono; [by apply (wp_enqueue s2 qs c kk _ v)|]. cbn beta. intros _ s3 [L3 S3].
    pose proof S3 as (O3 & V3 & C3).
    exists (upd_q qs c (qs c ++ [current_thread k])). rewrite V3, C3, V2, C2, V1, C1, insert_insert_eq.
    assert (P3 : procs s3 = procs s) by (rewrite O3; cbn; rewrite O2; cbn; done).
    rewrite P3. split_and!; [done | | | done | by rewrite upd_q_eq | intros; by rewrite upd_q_ne | |].
    + eapply ainv_ready; try done; [congruence|]. intros c'. rewrite Hc. unfold upd_q. by case_decide; subst.
    + eapply only_trans; [done|]. eapply only_trans; [done|]. by apply same_only.
    + rewrite lookup_insert_eq. intros w [= <-]. by right.
    + intros x w Hw. apply lookup_insert_Some in Hw as [[<- <-]|[_ Hw]]; [by exists th | by exists w].
  - wp_steps. exists qs. rewrite V1, C1, P1, app_nil_r. split_and!; try done.
    + by eapply ainv_field.
    + rewrite lookup_insert_eq. intros w [= <-]. cbn. apply andb_false_iff in Ep as [Ep|Ep]; zbool; [|by left].
      right. by apply bool_decide_eq_false_1 in Ep.
    + intros x w Hw. apply lookup_insert_Some in Hw as [[<- <-]|[_ Hw]]; [by exists th | by exists w].
Qed.

Lemma wp_pick_next s qs c k :
  linked s qs -> ainv (view s) (cview s) (procs s) qs -> cview s !! c = Some k ->
  wp (pick_next c (current_thread k) (idle_thread k))
    (fun n s' => same s s' /\ exists qs', linked s' qs' /\ (forall c', c' <> c -> qs' c' = qs c') /\
       match qs c with
       | [] => n = idle_thread k /\ qs' c = []
       | x :: q => n = x /\ qs' c = q
       end) s.
Proof.
  intros Hl Hi Hk. unfold pick_next. wp_steps. destruct (cview_inv s c k Hk) as (kk & Hkk & _).
  eapply wp_mono; [by apply (wp_dequeue s qs c kk)|]. cbn beta. intros r s'.
  destruct (qs c) as [|x q] eqn:Hq.
  - intros [-> ->]. cbn [negb Z.eqb].
    destruct (ai_current _ _ _ _ Hi c k Hk) as (th & Hth & Hc & Hz).
    assert (Hdone : forall s', s' = s -> same s s' /\ exists qs', linked s' qs' /\
        (forall c', c' <> c -> qs' c' = qs c') /\ idle_thread k = idle_thread k /\ qs' c = []).
    { intros ? ->. split; [apply same_refl|]. by exists qs. }
    case_if; wp_steps; [by apply Hdone|]. eapply wp_see_thread; [done|]. intros u ->. cbn in Hc.
    destruct (negb (tid u =? 0) && bool_decide (t_state u = THREAD_READY)) eqn:Er; wp_steps; [|by apply Hdone].
    apply andb_prop in Er as [? Er%bool_decide_eq_true_1]. zbool. exfalso.
    pose proof (ai_queued _ _ _ _ Hi _ _ Hth ltac:(done) Er) as Hin. cbn in Hin. rewrite Hc, Hq in Hin.
    by apply elem_of_nil in Hin.
  - intros (-> & H0 & L' & S'). rewrite (proj2 (Z.eqb_neq _ _) H0). cbn [negb]. wp_steps. split; [done|].
    exists (upd_q qs c q). rewrite upd_q_eq. split_and!; try done. intros. by rewrite upd_q_ne.
Qed.

Lemma set_cr3_id k : set_c_cr3 (c_cr3 k) k = k.
Proof. by destruct k. Qed.

Lemma wp_switch_cr3 s qs c k cur n th :
  linked s qs -> cview s !! c = Some k -> view s !! n = Some th -> procs s !! 0 = None ->
  (owner th <> 0 -> exists p, procs s !! owner th = Some p /\ p_cr3 p <> 0) ->
  (exists tc, view s !! cur = Some tc /\ (owner tc <> 0 -> exists p, procs s !! owner tc = Some p /\
     (tid tc <> 0 -> c_cr3 k = p_cr3 p))) ->
  wp (switch_cr3 c cur n)
    (fun _ s' => linked s' qs /\ only_threads s s' /\ view s' = view s /\
       exists x, cview s' = <[c := set_c_cr3 x k]> (cview s) /\
         forall p, procs s !! owner th = Some p -> x = p_cr3 p) s.
Proof.
  intros Hl Hk Hth Hnull Hn (tc & Htc & Hcur).
  assert (Hsame : forall x, x = c_cr3 k -> cview s = <[c := set_c_cr3 x k]> (cview s)).
  { intros x ->. rewrite set_cr3_id. by rewrite insert_id. }
  unfold switch_cr3. wp_steps. eapply wp_see_thread; [done|]. intros u ->. cbn in Hn |- *. case_if; wp_steps.
  { split_and!; [done | apply only_refl | done|]. exists (c_cr3 k). split; [by apply Hsame|]. intros p Hp. congruence. }
  destruct (Hn ltac:(done)) as (np & Hnp & Hne). eapply wp_process_at; [done|].
  rewrite (proj2 (Z.eqb_neq _ _) Hne). wp_steps.
  assert (Hgo : forall b : bool, (b = true -> c_cr3 k = p_cr3 np) ->
    wp (if b then kret tt else on_cpu c (set_c_cr3 (p_cr3 np)))
      (fun _ s' => linked s' qs /\ only_threads s s' /\ view s' = view s /\
         exists x, cview s' = <[c := set_c_cr3 x k]> (cview s) /\
           forall p, procs s !! owner u = Some p -> x = p_cr3 p) s).
  { intros [] Hb.
    - wp_steps. split_and!; [done | apply only_refl | done|]. exists (c_cr3 k). split; [by apply Hsame|].
      intros p Hp. rewrite Hb by done. congruence.
    - eapply wp_set_cpu; [done..|]. intros s' L' O' V' C'. split_and!; [done..|]. exists (p_cr3 np).
      split; [done|]. intros p Hp. congruence. }
  case_if; wp_steps; [by apply (Hgo false)|]. eapply wp_see_thread; [done|]. intros v ->. cbn in Hcur.
  destruct ((tid v =? 0) || (owner v =? 0)) eqn:Ev; zbool; wp_steps; [by apply (Hgo false)|].
  destruct (Hcur ltac:(done)) as (cp & Hcp & Hcr). eapply wp_process_at; [done|]. wp_steps. apply (Hgo (p_cr3 cp =? p_cr3 np)).
  intros Heq. zbool. rewrite <- Heq. by apply Hcr.
Qed.

(** What [task_switch] does, on the queues and on the views. *)
Definition switched s (qs : Z -> list Z) c s' (qs' : Z -> list Z) : Prop :=
  linked s' qs' /\ ainv (view s') (cview s') (procs s') qs' /\ only_threads s s' /\
  (forall c', c' <> c -> qs' c' = qs c' /\ cview s' !! c' = cview s !! c') /\
  (forall x u, view s' !! x = Some u -> exists u0, view s !! x = Some u0 /\ tid u = tid u0 /\
     (t_state u = THREAD_DEAD -> t_state u0 = THREAD_DEAD)) /\
  exists k k' u, cview s !! c = Some k /\ cview s' !! c = Some k' /\ idle_thread k' = idle_thread k /\
    view s' !! current_thread k' = Some u /\ t_state u = THREAD_RUNNING /\
    tss_rsp0 k' = kernel_stack_top u /\ c_kernel_stack_top k' = kernel_stack_top u /\
    (forall p, procs s !! owner u = Some p -> tid u <> 0 -> c_cr3 k' = p_cr3 p) /\
    match qs c ++ parked (view s) (current_thread k) with
    | [] => current_thread k' = idle_thread k /\ qs' c = []
    | x :: q => current_thread k' = x /\ qs' c = q
    end.

Lemma wp_task_switch s qs c regs :
  linked s qs -> ainv (view s) (cview s) (procs s) qs -> is_Some (cview s !! c) ->
  wp (task_switch c regs) (fun r s' => exists qs', switched s qs c s' qs') s.
Proof.
  intros Hl Hi [k Hk]. unfold task_switch. wp_steps. eapply wp_see_cpu; [done|]. intros h ->. wp_steps.
  set (k := set_ready 0 0 h) in *. change (current_thread h) with (current_thread k).
  change (idle_thread h) with (idle_thread k). change (fpu_owner_thread h) with (fpu_owner_thread k).
  eapply wp_mono; [by apply wp_park|]. cbn beta. intros _ s1 (qs1 & L1 & I1 & O1 & C1 & Q1 & Q1' & R1 & D1).
  assert (P1 : procs s1 = procs s) by by rewrite O1.
  assert (Hk1 : cview s1 !! c = Some k) by by rewrite C1.
  wp_steps. eapply wp_mono; [by apply (wp_pick_next s1 qs1)|]. cbn beta.
  intros n s2 (S2 & qs2 & L2 & Q2 & Q2'). pose proof S2 as (O2 & V2 & C2).
  (* the thread taken *)
  assert (Hn : exists th, view s1 !! n = Some th /\ cpu_id th = c /\ (tid th = 0 -> n = idle_thread k) /\
      (n ∉ qs2 c) /\ forall x, x <> n -> x ∈ qs2 c <-> x ∈ qs1 c).
  { pose proof (lk_nodup _ _ L1 c) as Hnd. destruct (qs1 c) as [|x q] eqn:Hq.
    - destruct Q2' as [-> ->]. destruct (ai_idle _ _ _ _ I1 c k Hk1) as (_ & th & Hth & _ & Hc).
      exists th. split_and!; try done. apply not_elem_of_nil.
    - destruct Q2' as [-> ->]. apply NoDup_cons in Hnd as [Hnin _].
      destruct (ai_ready _ _ _ _ I1 c x) as (th & Hth & _ & Hz & Hc); [rewrite Hq; by left|].
      exists th. split_and!; try done. intros y Hy. rewrite elem_of_cons. tauto. }
  destruct Hn as (th & Hth & Hc & Hz & Hnin & Hqn).
  wp_steps. eapply wp_set_thread; [done | by rewrite V2 | done|]. intros s3 L3 O3 V3 C3. wp_steps.
  eapply wp_set_cpu; [done | by rewrite C3, C2, C1 | done|]. intros s4 L4 O4 V4 C4. wp_steps.
  assert (P4 : procs s4 = procs s) by (rewrite O4; cbn; rewrite O3; cbn; rewrite O2; cbn; done).
  assert (W4 : view s4 = <[n := set_t_state THREAD_RUNNING th]> (view s1)) by by rewrite V4, V3, V2.
  assert (K4 : cview s4 !! c = Some (set_current n k)) by by rewrite C4, lookup_insert_eq.
  destruct (ai_current _ _ _ _ I1 c k Hk1) as (tc & Htc & _).
  eapply wp_mono.
  { apply (wp_switch_cr3 s4 qs2 c (set_current n k) _ n (set_t_state THREAD_RUNNING th)); try done.
    - by rewrite W4, lookup_insert_eq.
    - rewrite P4, <- P1. apply (ai_null _ _ _ _ I1).
    - rewrite P4, <- P1. apply (ai_owner _ _ _ _ I1 n th Hth).
    - assert (Hown : forall v, owner v = owner tc -> tid v = tid tc -> owner v <> 0 ->
        exists p, procs s4 !! owner v = Some p /\ (tid v <> 0 -> c_cr3 (set_current n k) = p_cr3 p)).
      { intros v -> -> Ho. destruct (ai_owner _ _ _ _ I1 _ tc Htc Ho) as (p & Hp & _). exists p.
        rewrite P4, <- P1. split; [done|]. intros Ht. by apply (ai_cr3 _ _ _ _ I1 c k tc p). }
      rewrite W4. destruct (decide (current_thread k = n)) as [Ecn|].
      + rewrite Ecn in Htc |- *. rewrite lookup_insert_eq. rewrite Hth in Htc. injection Htc as <-. eexists. split; [done|]. by apply Hown.
      + rewrite lookup_insert_ne by done. exists tc. split; [done|]. by apply Hown. }
  cbn beta. intros _ s5 (L5 & O5 & V5 & x & C5 & Hx). wp_steps.
  eapply wp_see_thread; [by rewrite V5, W4, lookup_insert_eq|]. intros u Hu. wp_steps.
  eapply wp_set_cpu; [done | by rewrite C5, lookup_insert_eq | done|]. intros s6 L6 O6 V6 C6. wp_steps.
  assert (Hks : kernel_stack_top u = kernel_stack_top th).
  { change (kernel_stack_top u) with (kernel_stack_top (set_t_next 0 u)). by rewrite <- Hu. }
  assert (Hfin : forall s7 k7, linked s7 qs2 -> only_threads s6 s7 -> view s7 = view s6 ->
    cview s7 = <[c := k7]> (cview s4) -> current_thread k7 = n -> idle_thread k7 = idle_thread k ->
    c_cr3 k7 = x -> tss_rsp0 k7 = kernel_stack_top th -> c_kernel_stack_top k7 = kernel_stack_top th ->
    exists qs', switched s qs c s7 qs').
  { intros s7 k7 L7 O7 V7 C7 Ek Ei Ec E1 E2. exists qs2.
    assert (P7 : procs s7 = procs s).
    { rewrite O7; cbn. rewrite O6; cbn. rewrite O5; cbn. by rewrite P4. }
    rewrite P4 in Hx. unfold switched. rewrite P7, C7, C4, insert_insert_eq, C3, C2, C1, V7, V6, V5, W4.
    assert (Q2c : forall c' y, c' <> c -> y ∈ qs2 c' <-> y ∈ qs1 c').
    { intros c' y Hne. by rewrite Q2. }
    split_and!; [done | | | | |].
    - eapply (ainv_run _ _ _ qs1 qs2 c k k7 n th); try done; [by rewrite <- C1, <- P1 |].
      intros p Hzz Hp. rewrite Ec. by apply Hx.
    - repeat (eapply only_trans; [eassumption|]). apply only_refl.
    - intros c' Hne. rewrite Q2, Q1', lookup_insert_ne by done. done.
    - intros y v Hv. apply lookup_insert_Some in Hv as [[<- <-]|[_ Hv]].
      + destruct (D1 n th Hth) as (u0 & ? & ? & _). by exists u0.
      + destruct (D1 y v Hv) as (u0 & ? & ? & ?). by exists u0.
    - exists k, k7, (set_t_state THREAD_RUNNING th). rewrite lookup_insert_eq, Ek, lookup_insert_eq, Ei, E1, E2, Ec.
      split_and!; try done.
      + intros p Hp _. by apply Hx.
      + rewrite <- Q1. destruct (qs1 c); done. }
  assert (Hk6 : cview s6 = <[c := set_stacks (kernel_stack_top u) (set_c_cr3 x (set_current n k))]> (cview s4)).
  { by rewrite C6, C5, insert_insert_eq. }
  case_if; wp_steps.
  - eapply (Hfin s6); try done; [apply only_refl | by cbn; rewrite Hks..].
  - eapply wp_set_cpu; [done | by rewrite Hk6, lookup_insert_eq | done|]. intros s7 L7 O7 V7 C7. wp_steps.
    apply (Hfin s7 (set_ts (set_stacks (kernel_stack_top u) (set_c_cr3 x (set_current n k))))); try done;
      [by rewrite C7, Hk6, insert_insert_eq].
Qed.

(** ** Waking threads *)

(** [s'] has more threads ready than [s]: queues grew at their ends. *)
Record grows s (qs : Z -> list Z) s' (qs' : Z -> list Z) : Prop := {
  gr_linked : linked s' qs';
  gr_inv : ainv (view s') (cview s') (procs s') qs';
  gr_only : only_threads s s';
  gr_cpus : cview s' = cview s;
  gr_queue : forall c, exists l, qs' c = qs c ++ l;
  gr_dead : forall x u, view s' !! x = Some u -> exists u0, view s !! x = Some u0 /\ tid u = tid u0 /\
    (t_state u = THREAD_DEAD -> t_state u0 = THREAD_DEAD)
}.

Lemma grows_refl s qs : linked s qs -> ainv (view s) (cview s) (procs s) qs -> grows s qs s qs.
Proof.
  intros Hl Hi. split; try done; [apply only_refl | intros c; exists []; by rewrite app_nil_r|]. intros x u ?. by exists u.
Qed.

Lemma grows_trans s1 qs1 s2 qs2 s3 qs3 : grows s1 qs1 s2 qs2 -> grows s2 qs2 s3 qs3 -> grows s1 qs1 s3 qs3.
Proof.
  intros [_ _ O1 C1 Q1 D1] [L2 I2 O2 C2 Q2 D2]. split; [done..|by eapply only_trans|by rewrite C2| |].
  - intros c. destruct (Q1 c) as [l1 E1], (Q2 c) as [l2 E2]. exists (l1 ++ l2). by rewrite E2, E1, app_assoc.
  - intros x u Hu. destruct (D2 x u Hu) as (v & Hv & E1 & Hd). destruct (D1 x v Hv) as (w & Hw & E2 & Hd').
    exists w. split_and!; [done | congruence | auto].
Qed.

Lemma wp_get_block s c k (Q : option Z -> sched E -> Prop) :
  cview s !! c = Some k -> c < MAX_CPUS -> Q (Some c) s -> wp (get_cpu_data_block c) Q s.
Proof.
  intros (h & Hh & _)%cview_inv Hc HQ. unfold get_cpu_data_block.
  rewrite (proj2 (Z.leb_gt _ _) Hc). wp_steps. by rewrite Hh.
Qed.

(** The home CPU of a thread. *)
Lemma home_cpu s qs t th :
  ainv (view s) (cview s) (procs s) qs -> view s !! t = Some th ->
  exists k, cview s !! cpu_id th = Some k /\ cpu_id th < MAX_CPUS.
Proof.
  intros Hi Ht. destruct (ai_home _ _ _ _ Hi t th Ht) as [k Hk]. exists k. split; [done|].
  destruct (ai_idle _ _ _ _ Hi _ k Hk) as [? _]. lia.
Qed.

(** A thread that is not ready is marked ready by [f] and enqueued at home. *)
Lemma wp_make_ready s qs t th s1 f :
  linked s qs -> ainv (view s) (cview s) (procs s) qs -> view s !! t = Some th -> tid th <> 0 ->
  t_state th <> THREAD_READY -> field_thread f -> tid (f th) = tid th -> cpu_id (f th) = cpu_id th ->
  owner (f th) = owner th -> t_state (f th) = THREAD_READY ->
  linked s1 qs -> only_threads s s1 -> view s1 = <[t := f th]> (view s) -> cview s1 = cview s ->
  wp (enqueue_thread (Some (cpu_id th)) t)
    (fun _ s' => grows s qs s' (upd_q qs (cpu_id th) (qs (cpu_id th) ++ [t])) /\
       view s' = <[t := f th]> (view s)) s1.
Proof.
  intros Hl Hi Ht Hz Hs Hf E1 E2 E3 E4 L1 O1 V1 C1.
  destruct (home_cpu s qs t th Hi Ht) as (k & Hk & _).
  destruct (cview_inv s1 (cpu_id th) k) as (kk & Hkk & _); [by rewrite C1|].
  destruct (view_inv s1 t (f th)) as (v & Hv & _); [by rewrite V1, lookup_insert_eq|].
  assert (H0 : t <> 0) by (intros ->; by rewrite (proj1 (ai_null _ _ _ _ Hi)) in Ht).
  assert (Hnot : forall c', t ∉ qs c').
  { intros c' Hx. apply (ai_ready _ _ _ _ Hi) in Hx as (w & Hw & ? & _). congruence. }
  eapply wp_mono; [by apply (wp_enqueue s1 qs (cpu_id th) kk t v)|]. cbn beta. intros _ s' [L' (O' & V' & C')].
  assert (P' : procs s' = procs s) by (rewrite O'; cbn; rewrite O1; done).
  split; [|by rewrite V', V1]. split; rewrite ?V', ?C', ?V1, ?C1, ?P'; try done.
  - eapply ainv_ready; try done. intros c'. unfold upd_q. case_decide; subst; done.
  - by eapply only_trans.
  - intros c. unfold upd_q. case_decide; [subst; by eexists|]. exists []. by rewrite app_nil_r.
  - intros x u Hu. apply lookup_insert_Some in Hu as [[<- <-]|[_ Hu]]; [|by exists u]. exists th. by rewrite E4, E1.
Qed.

(** A waiting thread after [wake_one]. *)
Definition woken (ch : Z) (th : thread) : thread :=
  if bool_decide (t_state th = THREAD_WAITING) && (chan th =? ch) then set_t_state THREAD_READY (set_chan 0 th)
  else th.

Lemma wp_wake_one s qs ch t th :
  linked s qs -> ainv (view s) (cview s) (procs s) qs -> view s !! t = Some th -> tid th <> 0 ->
  wp (wake_one ch t)
    (fun _ s' => (exists qs', grows s qs s' qs') /\ view s' = <[t := woken ch th]> (view s)) s.
Proof.
  intros Hl Hi Ht Hz. unfold wake_one, woken. wp_steps. eapply wp_see_thread; [done|]. intros u ->. cbn.
  destruct (bool_decide (t_state u = THREAD_WAITING) && (chan u =? ch)) eqn:Ew.
  - apply andb_prop in Ew as [Ew%bool_decide_eq_true_1 _]. wp_steps.
    eapply wp_set_thread; [done..|]. intros s1 L1 O1 V1 C1. wp_steps.
    eapply wp_set_thread; [done | by rewrite V1, lookup_insert_eq | done|]. intros s2 L2 O2 V2 C2. wp_steps.
    destruct (home_cpu s qs t _ Hi Ht) as (k & Hk & Hlt). cbn in Hk, Hlt.
    eapply wp_get_block; [by rewrite C2, C1|done|].
    eapply wp_mono.
    { apply (wp_make_ready s qs t (set_t_next 0 u) s2 (fun v => set_t_state THREAD_READY (set_chan 0 v))); try done.
      - cbn. congruence.
      - by eapply only_trans.
      - by rewrite V2, V1, insert_insert_eq.
      - by rewrite C2. }
    cbn beta. intros _ s' [Hg Hv]. split; [by eexists | done].
  - wp_steps. split; [exists qs; by apply grows_refl|]. by rewrite insert_id.
Qed.

(** ** The process list *)

Fixpoint pseg (P : gmap Z process) (h : Z) (l : list Z) : Prop :=
  match l with
  | [] => h = 0
  | a :: l' => h = a /\ a <> 0 /\ exists r, P !! a = Some r /\ pseg P (p_next r) l'
  end.

Lemma pseg_lookup P h l x : pseg P h l -> x ∈ l -> is_Some (P !! x).
Proof.
  revert h. induction l as [|a l IH]; intros h; cbn; [by intros _ ?%elem_of_nil|].
  intros (-> & _ & r & Hr & Hs) [->|Hx]%elem_of_cons; [by eauto|]. by eapply IH.
Qed.

Lemma pseg_size P h l : pseg P h l -> NoDup l -> (length l <= size P)%nat.
Proof.
  intros Hs Hnd. rewrite <- (size_list_to_set (C := gset Z) l Hnd), <- (size_dom (D := gset Z) P).
  apply subseteq_size. intros x Hx. apply elem_of_list_to_set in Hx. apply elem_of_dom. by eapply pseg_lookup.
Qed.

Lemma pseg_next P h l x r r' :
  P !! x = Some r -> p_next r' = p_next r -> pseg P h l -> pseg (<[x := r']> P) h l.
Proof.
  intros Hr Hn. revert h. induction l as [|a l IH]; intros h; cbn; [done|].
  intros (-> & Ha & v & Hv & Hs). split_and!; [done..|]. destruct (decide (x = a)) as [->|].
  - rewrite lookup_insert_eq. exists r'. split; [done|]. rewrite Hn. rewrite Hr in Hv. injection Hv as <-. auto.
  - rewrite lookup_insert_ne by done. eauto.
Qed.

(** The walk of [wakeup]: what happens to the thread at [x]. *)
Definition main_of (P : gmap Z process) (l : list Z) (x : Z) : bool :=
  existsb (fun p => match P !! p with Some r => (main_thread r =? x) && negb (x =? 0) | None => false end) l.

Lemma woken_twice ch th : ch <> 0 -> woken ch (woken ch th) = woken ch th.
Proof.
  intros H. unfold woken at 2 3. destruct (bool_decide _ && _) eqn:Ew; [|unfold woken; by rewrite Ew].
  unfold woken. by rewrite bool_decide_eq_false_2.
Qed.

Lemma wp_wakeup_list fuel s qs ch h l :
  linked s qs -> ainv (view s) (cview s) (procs s) qs -> pseg (procs s) h l -> (length l <= fuel)%nat -> ch <> 0 ->
  wp (wakeup_list fuel ch h)
    (fun _ s' => (exists qs', grows s qs s' qs') /\
       forall x, view s' !! x = (if main_of (procs s) l x then woken ch <$> view s !! x else view s !! x)) s.
Proof.
  revert fuel s qs h. induction l as [|p l IH]; intros fuel s qs h Hl Hi Hs Hfuel Hch.
  - cbn in Hs. subst h. destruct fuel; cbn; wp_steps; (split; [exists qs; by apply grows_refl | done]).
  - destruct Hs as (-> & Hp & r & Hr & Hs). cbn in Hfuel. destruct fuel as [|fuel]; [lia|].
    cbn [wakeup_list]. rewrite (proj2 (Z.eqb_neq _ _) Hp). wp_steps. eapply wp_process_at; [done|]. wp_steps.
    assert (Hstep : wp (if main_thread r =? 0 then kret tt else wake_one ch (main_thread r))
      (fun _ s' => (exists qs', grows s qs s' qs') /\
         forall x, view s' !! x = if (main_thread r =? x) && negb (x =? 0) then woken ch <$> view s !! x
                                  else view s !! x) s).
    { case_if.
      - wp_steps. split; [exists qs; by apply grows_refl|]. intros x. destruct (Z.eqb_spec (main_thread r) x); [|done].
        subst x. by rewrite E0.
      - destruct (ai_main _ _ _ _ Hi p r Hr ltac:(done)) as (th & Hth & Hz).
        eapply wp_mono; [by apply wp_wake_one|]. cbn beta. intros _ s' [Hg Hv]. split; [done|]. intros x. rewrite Hv.
        destruct (Z.eqb_spec (main_thread r) x) as [<-|]; [|by rewrite lookup_insert_ne].
        rewrite lookup_insert_eq, Hth, (proj2 (Z.eqb_neq _ _) E0). done. }
    eapply wp_mono; [exact Hstep|]. cbn beta. intros _ s1 [[qs1 G1] V1].
    assert (P1 : procs s1 = procs s) by by rewrite (gr_only _ _ _ _ G1).
    eapply wp_mono; [apply (IH fuel s1 qs1 (p_next r)); try done;
      [apply G1 | apply G1 | by rewrite P1 | lia]|].
    cbn beta. intros _ s2 [[qs2 G2] V2]. split; [exists qs2; by eapply grows_trans|].
    intros x. rewrite V2, V1, P1. unfold main_of. cbn [existsb]. rewrite Hr.
    destruct ((main_thread r =? x) && negb (x =? 0)); cbn [orb]; [|done].
    destruct (existsb _ l), (view s !! x); try done. cbn. by rewrite woken_twice.
Qed.

End queues.
