(* ===== verification/SchedRun.v ===== *)
(** * Runs of the scheduler

    The entry points of the scheduler as events of a step relation, the
    invariant over every run, the fairness of the run queues, and what
    waking, exiting and creating threads do.  The marking of a sleeping thread
    and the switch away from it are separate events, as other CPUs run between
    them. *)

From Stdlib Require Import ZArith Lia.
From stdpp Require Import base tactics list gmap relations.
From S2P Require Import Prelude Sched SchedInv.

(** The operations outside the scheduler return. *)
Class EnvTotal {E} (ops : env_ops E) : Prop := {
  flush_total a e : wp (process_flush_user_space ops a) (fun _ _ => True) e;
  files_total p e : wp (process_file_destroy ops p) (fun _ _ => True) e;
  space_total a e : wp (vmm_clone_address_space ops a) (fun _ _ => True) e;
  share_total p q e : wp (share_files ops p q) (fun _ _ => True) e
}.

Section runs.
Context {E : Type} (ops : env_ops E) `{!EnvTotal ops}.
Implicit Types (s : sched E).

(** ** The state between events *)

Record sok s (qs : Z -> list Z) : Prop := {
  sk_linked : linked s qs;
  sk_inv : ainv (view s) (cview s) (procs s) qs;
  sk_alive : forall c k th, cview s !! c = Some k -> view s !! current_thread k = Some th ->
    tid th <> 0 -> t_state th <> THREAD_DEAD;
  sk_wait : g_wait_lock s = false;
  sk_lock : g_process_list_lock s = false;
  sk_list : exists l, pseg (procs s) (g_process_list_head s) l /\ NoDup l;
  sk_fresh : 0 < s_brk s /\ forall t, is_Some (view s !! t) -> t < s_brk s;
  sk_tid : 0 < g_next_tid s < 2 ^ 32;
  sk_procs : forall p, is_Some (procs s !! p) -> p < s_brk s
}.

(** No thread of a queue falls back: it runs, or stands where it stood or
    nearer to the head. *)
Definition moves (qs : Z -> list Z) s' (qs' : Z -> list Z) : Prop :=
  forall c i t, qs c !! i = Some t ->
    (exists k', cview s' !! c = Some k' /\ current_thread k' = t) \/
    exists j, (j <= i)%nat /\ qs' c !! j = Some t.

Lemma view_dom s s' :
  (forall x u, view s' !! x = Some u -> exists u0, view s !! x = Some u0 /\ tid u = tid u0 /\
     (t_state u = THREAD_DEAD -> t_state u0 = THREAD_DEAD)) ->
  forall x, is_Some (view s' !! x) -> is_Some (view s !! x).
Proof. intros H x [u Hu]. destruct (H x u Hu) as (u0 & Hu0 & _). eauto. Qed.

(** The fields outside threads and CPUs, in one step. *)
Lemma sok_only s qs s' qs' :
  sok s qs -> linked s' qs' -> ainv (view s') (cview s') (procs s') qs' -> only_threads s s' ->
  (forall x, is_Some (view s' !! x) -> is_Some (view s !! x)) ->
  (forall c k th, cview s' !! c = Some k -> view s' !! current_thread k = Some th ->
     tid th <> 0 -> t_state th <> THREAD_DEAD) ->
  sok s' qs'.
Proof.
  intros [L I A W K Li [F1 F2] T F3] L' I' O Hd Ha. split; try done; rewrite O; cbn; try done. auto.
Qed.

Lemma sok_switched s qs c s' qs' : sok s qs -> switched s qs c s' qs' -> sok s' qs'.
Proof.
  intros Hs (L & I & O & Hoth & Hd & k & k' & u & Hk & Hk' & _ & Hu & Hrun & _).
  eapply sok_only; try done; [by apply view_dom|].
  intros c' k0 th Hk0 Hth Hz. destruct (decide (c' = c)) as [->|Hne].
  - rewrite Hk' in Hk0. injection Hk0 as <-. rewrite Hu in Hth. injection Hth as <-. congruence.
  - destruct (Hoth c' Hne) as [_ Hsame]. rewrite Hsame in Hk0. destruct (Hd _ _ Hth) as (u0 & Hu0 & Ht & Hdd).
    intros Hx. eapply (sk_alive _ _ Hs c' k0 u0); [done..|congruence|auto].
Qed.

Lemma moves_switched s qs c s' qs' : switched s qs c s' qs' -> moves qs s' qs'.
Proof.
  intros (_ & _ & _ & Hoth & _ & k & k' & u & Hk & Hk' & _ & _ & _ & _ & _ & _ & Hq) c' i t Hi.
  destruct (decide (c' = c)) as [->|Hne].
  - apply (lookup_app_l_Some _ (parked (view s) (current_thread k))) in Hi.
    destruct (qs c ++ _) as [|x q]; [done|]. destruct Hq as [Hx Hq]. destruct i as [|i]; cbn in Hi.
    + left. exists k'. split; [done|]. congruence.
    + right. exists i. rewrite Hq. split; [lia|done].
  - destruct (Hoth c' Hne) as [-> _]. right. exists i. split; [lia|done].
Qed.

Lemma sok_grows s qs s' qs' : sok s qs -> grows s qs s' qs' -> sok s' qs'.
Proof.
  intros Hs [L I O C Q D]. eapply sok_only; try done; [by apply view_dom|].
  intros c k th. rewrite C. intros Hk Hth Hz Hd. destruct (D _ _ Hth) as (u0 & Hu0 & Ht & Hdd).
  eapply (sk_alive _ _ Hs c k u0); [done..|congruence|auto].
Qed.

Lemma moves_grows s qs s' qs' : grows s qs s' qs' -> moves qs s' qs'.
Proof.
  intros [_ _ _ _ Q _] c i t Hi. right. exists i. split; [lia|]. destruct (Q c) as [l ->].
  by apply lookup_app_l_Some.
Qed.

Lemma linked_ext s s' qs : threads s' = threads s -> cpus s' = cpus s -> linked s qs -> linked s' qs.
Proof. intros Ht Hc [H1 H2 H3 H4]. split; rewrite ?Ht, ?Hc; done. Qed.

(** The fields outside threads and CPUs, when locks were taken and released. *)
Lemma sok_build s qs s' qs' :
  sok s qs -> linked s' qs' -> ainv (view s') (cview s') (procs s') qs' ->
  g_wait_lock s' = false -> g_process_list_lock s' = false ->
  (exists l, pseg (procs s') (g_process_list_head s') l /\ NoDup l) -> s_brk s' = s_brk s ->
  g_next_tid s' = g_next_tid s -> procs s' = procs s -> cview s' = cview s ->
  (forall x u, view s' !! x = Some u -> exists u0, view s !! x = Some u0 /\ tid u = tid u0 /\
     (t_state u = THREAD_DEAD -> t_state u0 = THREAD_DEAD)) ->
  sok s' qs'.
Proof.
  intros [L I A W K Li [F1 F2] T F3] L' I' W' K' Pl Eb Et Ep Ec Hd. split; try done; rewrite ?Eb, ?Et, ?Ep; try done.
  - rewrite Ec. intros c k th Hk Hth Hz Hx. destruct (Hd _ _ Hth) as (u0 & Hu0 & Ht & Hdd).
    eapply (A c k u0); [done..|congruence|auto].
  - split; [done|]. intros t Ht. apply F2. by eapply view_dom.
Qed.

(** ** Going to sleep *)

Definition running s (c : Z) : Prop :=
  exists k th, cview s !! c = Some k /\ view s !! current_thread k = Some th /\
    tid th <> 0 /\ t_state th = THREAD_RUNNING.

(** A running thread leaves the running state without joining a queue. *)
Lemma ainv_sleep T C P qs t th th' :
  ainv T C P qs -> T !! t = Some th -> t_state th = THREAD_RUNNING ->
  tid th' = tid th -> cpu_id th' = cpu_id th -> owner th' = owner th ->
  t_state th' <> THREAD_READY -> t_state th' <> THREAD_RUNNING ->
  ainv (<[t := th']> T) C P qs.
Proof.
  intros Hi Ht Hs E1 E2 E3 H1 H2. eapply ainv_upd; try done; [|intros; done..].
  intros c Hx. apply (ai_ready _ _ _ _ Hi) in Hx as (u & Hu & Hr & _). congruence.
Qed.

Lemma moves_refl s qs s' : moves qs s' qs.
Proof. intros c i t Hi. right. by exists i. Qed.

Lemma wp_wait_mark s qs c ch lk :
  sok s qs -> running s c ->
  wp (wait_mark c ch lk) (fun _ s' => sok s' qs /\ moves qs s' qs) s.
Proof.
  intros Hs (k & th & Hk & Hth & Hz & Hrun). unfold wait_mark, wait_lock, wait_unlock. wp_steps.
  rewrite (sk_wait _ _ Hs). wp_steps. set (s1 := set_wait_lock true s).
  assert (L1 : linked s1 qs) by (apply (linked_ext s); [done..|apply Hs]).
  eapply wp_see_cpu; [done|]. intros h ->. wp_steps.
  eapply wp_set_thread; [done..|]. intros s2 L2 O2 V2 C2. wp_steps.
  eapply wp_set_thread; [done|by rewrite V2, lookup_insert_eq|done|]. intros s3 L3 O3 V3 C3. wp_steps.
  assert (P3 : procs s3 = procs s) by (rewrite O3; cbn; by rewrite O2).
  assert (Hfin : forall s', threads s' = threads s3 -> cpus s' = cpus s3 -> procs s' = procs s3 ->
     g_wait_lock s' = false -> g_process_list_lock s' = false ->
     g_process_list_head s' = g_process_list_head s3 -> s_brk s' = s_brk s3 -> g_next_tid s' = g_next_tid s3 ->
     sok s' qs /\ moves qs s' qs).
  { intros s' E1 E2 E3 E4 E5 E6 E7 E8. split; [|by apply moves_refl].
    assert (Vs : view s' = <[current_thread h := set_t_state THREAD_WAITING (set_chan ch th)]> (view s)).
    { unfold view at 1. rewrite E1. change (view s3 = <[current_thread h := set_t_state THREAD_WAITING (set_chan ch th)]> (view s)).
      by rewrite V3, V2, insert_insert_eq. }
    assert (Cs : cview s' = cview s).
    { unfold cview at 1. rewrite E2. change (cview s3 = cview s). by rewrite C3, C2. }
    apply (sok_build s qs); try done.
    - by apply (linked_ext s3).
    - rewrite Vs, Cs, E3, P3. eapply ainv_sleep; try done. apply Hs.
    - rewrite E3, E6, P3, O3; cbn. rewrite O2; cbn. apply (sk_list _ _ Hs).
    - rewrite E7, O3; cbn. by rewrite O2.
    - rewrite E8, O3; cbn. by rewrite O2.
    - by rewrite E3.
    - rewrite Vs. intros x u Hx. apply lookup_insert_Some in Hx as [[<- <-]|[_ Hx]]; [by exists th | by exists u]. }
  assert (K3 : g_process_list_lock s3 = false).
  { rewrite O3; cbn. rewrite O2; cbn. apply (sk_lock _ _ Hs). }
  case_if; wp_steps; by apply Hfin.
Qed.

Lemma wp_waitpid_block s qs c :
  sok s qs -> running s c ->
  wp (waitpid_block c) (fun _ s' => sok s' qs /\ moves qs s' qs) s.
Proof.
  intros Hs (k & th & Hk & Hth & Hz & Hrun). unfold waitpid_block. wp_steps.
  eapply wp_see_cpu; [done|]. intros h ->. eapply wp_set_thread; [apply Hs|done..|]. intros s' L O V C.
  split; [|by apply moves_refl]. assert (Ep : procs s' = procs s) by by rewrite O.
  apply (sok_build s qs); try done; rewrite ?V, ?C, ?Ep;
    try (rewrite O; cbn; first [done | apply (sk_wait _ _ Hs) | apply (sk_lock _ _ Hs) | apply (sk_list _ _ Hs)]).
  - eapply ainv_sleep; try done. apply Hs.
  - intros x u Hx. apply lookup_insert_Some in Hx as [[<- <-]|[_ Hx]]; [by exists th | by exists u].
Qed.

(** ** Waking *)

Lemma wp_wakeup s qs ch l :
  sok s qs -> pseg (procs s) (g_process_list_head s) l -> NoDup l -> ch <> 0 ->
  wp (wakeup ch)
    (fun _ s' => (exists qs', sok s' qs' /\ moves qs s' qs' /\ forall c, exists m, qs' c = qs c ++ m) /\
       procs s' = procs s /\ cview s' = cview s /\
       forall x, view s' !! x = (if main_of (procs s) l x then woken ch <$> view s !! x else view s !! x)) s.
Proof.
  intros Hs Hl Hnd Hch. unfold wakeup, wait_lock, wait_unlock, process_list_spinlock_acquire,
    process_list_spinlock_release, list_length. rewrite (proj2 (Z.eqb_neq _ _) Hch). wp_steps.
  rewrite (sk_wait _ _ Hs). wp_steps. cbn [g_process_list_lock set_wait_lock]. rewrite (sk_lock _ _ Hs). wp_steps.
  set (s1 := set_list_lock true (set_wait_lock true s)).
  eapply wp_mono.
  { apply (wp_wakeup_list _ s1 qs ch _ l); try done; [|apply Hs|by eapply pseg_size].
    apply (linked_ext s); [done..|apply Hs]. }
  cbn beta. intros _ s2 [[qs2 G] V]. wp_steps. pose proof (gr_only _ _ _ _ G) as O.
  assert (Ep : procs s2 = procs s) by by rewrite O. split_and!; [|done|apply (gr_cpus _ _ _ _ G)|exact V].
  exists qs2. split_and!; [|intros c i t Hi; by apply (moves_grows _ _ _ _ G c i t)|apply (gr_queue _ _ _ _ G)].
  apply (sok_build s qs); try done.
  - by apply (linked_ext s2); [..|apply G].
  - apply G.
  - cbn. rewrite Ep, O. by exists l.
  - cbn. by rewrite O.
  - cbn. by rewrite O.
  - apply (gr_cpus _ _ _ _ G).
  - apply (gr_dead _ _ _ _ G).
Qed.

Lemma wp_wakeup_thread s qs ch t :
  sok s qs -> (t <> 0 -> exists th, view s !! t = Some th /\ tid th <> 0) ->
  wp (wakeup_thread ch t) (fun _ s' => exists qs', sok s' qs' /\ moves qs s' qs') s.
Proof.
  intros Hs Ht. unfold wakeup_thread, wait_lock, wait_unlock. case_if; wp_steps; [exists qs; split; [done|by apply moves_refl]|].
  rewrite (sk_wait _ _ Hs). wp_steps. set (s1 := set_wait_lock true s).
  destruct (Ht ltac:(done)) as (th & Hth & Hz).
  eapply wp_mono; [apply (wp_wake_one s1 qs ch t th); try done;
    [apply (linked_ext s); [done..|apply Hs] | apply Hs]|].
  cbn beta. intros _ s2 [[qs2 G] V]. wp_steps. pose proof (gr_only _ _ _ _ G) as O.
  assert (Ep : procs s2 = procs s) by by rewrite O.
  exists qs2. split; [|intros c i x Hi; by apply (moves_grows _ _ _ _ G c i x)].
  apply (sok_build s qs); try done.
  - by apply (linked_ext s2); [..|apply G].
  - apply G.
  - cbn. rewrite O. apply (sk_lock _ _ Hs).
  - cbn. rewrite Ep, O. apply (sk_list _ _ Hs).
  - cbn. by rewrite O.
  - cbn. by rewrite O.
  - apply (gr_cpus _ _ _ _ G).
  - apply (gr_dead _ _ _ _ G).
Qed.

(** ** Exiting *)

Lemma ainv_proc T C P qs p r r' :
  ainv T C P qs -> P !! p = Some r -> p_cr3 r' = p_cr3 r -> main_thread r' = main_thread r ->
  ainv T C (<[p := r']> P) qs.
Proof.
  intros [H1 H2 H3 H4 H5 H6 [H7 H7'] H8 H9 H10] Hp E1 E2.
  assert (Hnew : forall x q, <[p := r']> P !! x = Some q -> exists q0, P !! x = Some q0 /\ p_cr3 q = p_cr3 q0 /\
      main_thread q = main_thread q0).
  { intros x q Hx. apply lookup_insert_Some in Hx as [[<- <-]|[_ Hx]]; [by exists r | by exists q]. }
  split; try done.
  - split; [done|]. rewrite lookup_insert_ne; [done|]. intros ->. congruence.
  - intros t th Ht Ho. destruct (H8 t th Ht Ho) as (q & Hq & Hne). destruct (decide (p = owner th)) as [Ep|].
    + exists r'. rewrite <- Ep in Hq |- *. rewrite lookup_insert_eq, E1. rewrite Hp in Hq. injection Hq as <-. done.
    + exists q. by rewrite lookup_insert_ne.
  - intros c k th q Hk Hth Hz Hq. destruct (Hnew _ _ Hq) as (q0 & Hq0 & -> & _). by eapply H9.
  - intros x q Hx Hm. destruct (Hnew _ _ Hx) as (q0 & Hq0 & _ & Em). rewrite Em in *. by eapply H10.
Qed.

(** What an operation in the middle of an event leaves as it was. *)
Record kept s s' : Prop := {
  kp_wait : g_wait_lock s' = g_wait_lock s;
  kp_lock : g_process_list_lock s' = g_process_list_lock s;
  kp_list : forall l, pseg (procs s) (g_process_list_head s) l -> pseg (procs s') (g_process_list_head s') l;
  kp_brk : s_brk s' = s_brk s;
  kp_tid : g_next_tid s' = g_next_tid s;
  kp_procs : forall p, is_Some (procs s' !! p) -> is_Some (procs s !! p)
}.

Lemma kept_refl s : kept s s.
Proof. by split. Qed.
Lemma kept_trans s1 s2 s3 : kept s1 s2 -> kept s2 s3 -> kept s1 s3.
Proof. intros [A1 A2 A3 A4 A5 A6] [B1 B2 B3 B4 B5 B6]. split; try congruence; auto. Qed.
Lemma kept_only s s' : only_threads s s' -> kept s s'.
Proof. intros O. split; by rewrite O. Qed.

(** Threads became ready, the dead stayed dead, processes changed state. *)
Record advanced s (qs : Z -> list Z) s' (qs' : Z -> list Z) : Prop := {
  ad_linked : linked s' qs';
  ad_inv : ainv (view s') (cview s') (procs s') qs';
  ad_cpus : cview s' = cview s;
  ad_queue : forall c, exists l, qs' c = qs c ++ l;
  ad_back : forall x u, view s' !! x = Some u -> exists u0, view s !! x = Some u0 /\ tid u = tid u0 /\
    (t_state u = THREAD_DEAD -> t_state u0 = THREAD_DEAD);
  ad_dead : forall x u, view s !! x = Some u -> t_state u = THREAD_DEAD -> view s' !! x = Some u
}.

Lemma advanced_refl s qs : linked s qs -> ainv (view s) (cview s) (procs s) qs -> advanced s qs s qs.
Proof. intros L I. split; try done; [intros c; exists []; by rewrite app_nil_r|]. intros x u Hu. by exists u. Qed.

(** The main thread of the first process of the list with the pid. *)
Fixpoint main_by_pid (P : gmap Z process) (l : list Z) (id : Z) : option Z :=
  match l with
  | [] => None
  | p :: l' =>
      match P !! p with
      | Some r => if pid r =? id then (if main_thread r =? 0 then None else Some (main_thread r))
                  else main_by_pid P l' id
      | None => None
      end
  end.

Definition unblocked (th : thread) : thread :=
  if bool_decide (t_state th = THREAD_BLOCKED) then set_t_state THREAD_READY th else th.

(** The threads after the thread [m], if there is one, is unblocked. *)
Definition unblock (m : option Z) (T : gmap Z thread) : gmap Z thread :=
  match m with Some x => alter unblocked x T | None => T end.

Lemma alter_keep (T : gmap Z thread) x th f : T !! x = Some th -> alter f x T = <[x := f th]> T.
Proof.
  intros H. apply map_eq. intros y. destruct (decide (x = y)) as [<-|].
  - by rewrite lookup_alter_eq, lookup_insert_eq, H.
  - by rewrite lookup_alter_ne, lookup_insert_ne.
Qed.

Lemma wp_wake_parent fuel s qs parent h l :
  linked s qs -> ainv (view s) (cview s) (procs s) qs -> pseg (procs s) h l -> (length l <= fuel)%nat ->
  wp (wake_parent fuel parent h)
    (fun _ s' => only_threads s s' /\ (exists qs', advanced s qs s' qs') /\ view s' = unblock (main_by_pid (procs s) l parent) (view s)) s.
Proof.
  intros Hl Hi. assert (Hstay : only_threads s s /\ exists qs', advanced s qs s qs').
  { split; [apply only_refl | exists qs; by apply advanced_refl]. }
  revert fuel h. induction l as [|p l IH]; intros fuel h Hs Hf.
  - cbn in Hs. subst h. destruct fuel; cbn; wp_steps; by destruct Hstay.
  - destruct Hs as (-> & Hp & r & Hr & Hs). cbn in Hf. destruct fuel as [|fuel]; [lia|].
    cbn [wake_parent main_by_pid]. rewrite Hr, (proj2 (Z.eqb_neq _ _) Hp). wp_steps. eapply wp_process_at; [done|].
    case_if; [|by apply IH; [|lia]].
    case_if; [wp_steps; by destruct Hstay|]. cbn [unblock].
    destruct (ai_main _ _ _ _ Hi p r Hr ltac:(done)) as (th & Hth & Hz). wp_steps.
    rewrite (alter_keep _ _ th) by done. unfold unblocked.
    eapply wp_see_thread; [done|]. intros u ->. cbn in Hz |- *. case_bool_decide as Hb;
      [|wp_steps; rewrite insert_id by done; by destruct Hstay].
    wp_steps. eapply wp_set_thread; [done..|]. intros s1 L1 O1 V1 C1. wp_steps.
    destruct (home_cpu s qs _ _ Hi Hth) as (k & Hk & Hlt). cbn in Hk, Hlt.
    eapply wp_get_block; [by rewrite C1|done|]. eapply wp_mono.
    { apply (wp_make_ready s qs _ (set_t_next 0 u) s1 (set_t_state THREAD_READY)); try done. cbn. congruence. }
    cbn beta. intros _ s' [[L' I' O' C' Q' D'] V']. split_and!; [done| |done]. eexists. split; try done.
    intros x w Hx Hd. rewrite V', lookup_insert_ne; [done|]. intros <-. rewrite Hth in Hx. injection Hx as <-.
    cbn in Hd. congruence.
Qed.

(** Only the fields the list and the parent search do not read changed. *)
Lemma main_by_pid_insert P l id p r r' :
  P !! p = Some r -> pid r' = pid r -> main_thread r' = main_thread r ->
  main_by_pid (<[p := r']> P) l id = main_by_pid P l id.
Proof.
  intros Hp E1 E2. induction l as [|a l IH]; cbn; [done|]. destruct (decide (p = a)) as [<-|].
  - by rewrite lookup_insert_eq, Hp, E1, E2, IH.
  - by rewrite lookup_insert_ne, IH.
Qed.

Lemma wp_exit_process s qs p r code l :
  linked s qs -> ainv (view s) (cview s) (procs s) qs -> procs s !! p = Some r ->
  g_process_list_lock s = false -> pseg (procs s) (g_process_list_head s) l -> NoDup l ->
  wp (exit_process ops p code)
    (fun _ s' => kept s s' /\ (exists qs', advanced s qs s' qs') /\
       procs s' = <[p := set_p_state PROCESS_ZOMBIE (set_p_exit code r)]> (procs s) /\
       view s' = unblock (main_by_pid (procs s) l (ppid r)) (view s)) s.
Proof.
  intros Hl Hi Hp Hlock Hseg Hnd. unfold exit_process, process_list_spinlock_acquire,
    process_list_spinlock_release, list_length, on_env. wp_steps.
  eapply wp_process_at; [done|]. wp_steps. eapply wp_mono; [apply flush_total|]. cbn beta. intros _ e1 _. wp_steps.
  eapply wp_mono; [apply files_total|]. cbn beta. intros _ e2 _. wp_steps.
  eapply wp_on_process; [done|]. wp_steps. eapply wp_on_process; [cbn; by rewrite lookup_insert_eq|].
  wp_steps. cbn [g_process_list_lock set_procs set_env]. rewrite Hlock. wp_steps.
  set (s1 := set_list_lock true _).
  assert (P1 : procs s1 = <[p := set_p_state PROCESS_ZOMBIE (set_p_exit code r)]> (procs s)).
  { cbn. by rewrite insert_insert_eq. }
  assert (Hs1 : pseg (procs s1) (g_process_list_head s1) l) by (rewrite P1; by eapply pseg_next).
  eapply wp_mono.
  { apply (wp_wake_parent _ s1 qs _ _ l).
    - by apply (linked_ext s).
    - rewrite P1. by eapply ainv_proc.
    - exact Hs1.
    - by apply (pseg_size (procs s1) _ l Hs1). }
  cbn beta. intros _ s2 (O2 & [qs2 [L2 I2 C2 Q2 D2 D2']] & V2). wp_steps.
  assert (P2 : procs s2 = procs s1) by by rewrite O2.
  split_and!; [| |cbn; by rewrite P2|].
  - split; cbn; rewrite ?P2, ?P1; [by rewrite O2 | done | | by rewrite O2 | by rewrite O2|].
    + intros l0 Hl0. rewrite O2. cbn. by eapply pseg_next.
    + intros q [<- |[_ ?]]%lookup_insert_is_Some; [by eexists | done].
  - exists qs2. split; try done. by apply (linked_ext s2).
  - rewrite P1, (main_by_pid_insert _ l _ p r) in V2 by done. exact V2.
Qed.

(** Only the head of the queue can be taken: the queue holds no dead thread. *)
Lemma wp_next_alive s qs c k n cur u :
  linked s qs -> ainv (view s) (cview s) (procs s) qs -> cview s !! c = Some k ->
  view s !! cur = Some u -> t_state u = THREAD_DEAD ->
  wp (next_alive (Datatypes.S n) c cur)
    (fun r s' => same s s' /\ exists qs', linked s' qs' /\ (forall c', c' <> c -> qs' c' = qs c') /\
       match qs c with
       | [] => r = 0 /\ qs' c = []
       | x :: q => r = x /\ x <> 0 /\ qs' c = q
       end) s.
Proof.
  intros Hl Hi Hk Hu Hd. cbn [next_alive]. wp_steps. destruct (cview_inv s c k Hk) as (kk & Hkk & _).
  eapply wp_mono; [by apply (wp_dequeue s qs c kk)|]. cbn beta. intros r s'. destruct (qs c) as [|x q] eqn:Hq.
  - intros [-> ->]. cbn [Z.eqb]. wp_steps. split; [apply same_refl|]. by exists qs.
  - intros (-> & H0 & L' & S'). rewrite (proj2 (Z.eqb_neq _ _) H0). wp_steps.
    destruct (ai_ready _ _ _ _ Hi c x) as (th & Hth & Hr & _); [rewrite Hq; by left|].
    pose proof S' as (_ & V' & _). eapply wp_see_thread; [by rewrite V'|]. intros v ->. cbn in Hr.
    assert (Hx : x <> cur) by (intros ->; rewrite Hth in Hu; injection Hu as <-; cbn in Hd; congruence).
    rewrite (proj2 (Z.eqb_neq _ _) Hx), bool_decide_eq_false_2 by congruence. cbn [orb].
    wp_steps. split; [done|]. exists (upd_q qs c q). rewrite upd_q_eq. split_and!; try done.
    intros c' Hne. by rewrite upd_q_ne.
Qed.

(** The CPU of a dying thread turns to the head of its queue, or to idle. *)
Record left s (qs : Z -> list Z) c (k : cpu) s' (qs' : Z -> list Z) (n : Z) (th : thread) (k' : cpu) : Prop := {
  lf_linked : linked s' qs';
  lf_inv : ainv (view s') (cview s') (procs s') qs';
  lf_only : only_threads s s';
  lf_thread : view s !! n = Some th;
  lf_view : view s' = <[n := set_t_state THREAD_RUNNING th]> (view s);
  lf_cview : cview s' = <[c := k']> (cview s);
  lf_current : current_thread k' = n;
  lf_other : forall c', c' <> c -> qs' c' = qs c';
  lf_queue : match qs c with
             | [] => n = idle_thread k /\ qs' c = []
             | x :: q => n = x /\ qs' c = q
             end
}.

(** The CR3 that the exit leaves behind. *)
Lemma wp_exit_cr3 s qs c k cur u th (nt : thread) :
  linked s qs -> cview s !! c = Some k -> view s !! cur = Some u -> cur <> 0 -> owner nt = owner th ->
  procs s !! 0 = None ->
  (owner th <> 0 -> exists p, procs s !! owner th = Some p) ->
  (forall p, procs s !! owner u = Some p -> c_cr3 k = p_cr3 p) ->
  wp (if (owner nt =? 0) || (cur =? 0) then kret tt else
      t <-- thread_at cur ;;
      if owner t =? owner nt then kret tt else
      np <-- process_at (owner nt) ;; on_cpu c (set_c_cr3 (p_cr3 np)))
    (fun _ s' => linked s' qs /\ only_threads s s' /\ view s' = view s /\
       exists x, cview s' = <[c := set_c_cr3 x k]> (cview s) /\
         forall p, procs s !! owner th = Some p -> x = p_cr3 p) s.
Proof.
  intros Hl Hk Hu H0 Eo Hnull Hn Hc. rewrite Eo, (proj2 (Z.eqb_neq _ _) H0), orb_false_r.
  assert (Hstay : (forall p, procs s !! owner th = Some p -> c_cr3 k = p_cr3 p) ->
    linked s qs /\ only_threads s s /\ view s = view s /\
       exists x, cview s = <[c := set_c_cr3 x k]> (cview s) /\
         forall p, procs s !! owner th = Some p -> x = p_cr3 p).
  { intros Hp. split_and!; [done | apply only_refl | done|]. exists (c_cr3 k). by rewrite set_cr3_id, insert_id. }
  destruct (Z.eqb_spec (owner th) 0) as [E0|]; wp_steps; [apply Hstay; intros p; by rewrite E0, Hnull|].
  eapply wp_see_thread; [done|]. intros v ->. cbn in Hc.
  destruct (Z.eqb_spec (owner v) (owner th)) as [E1|]; wp_steps; [apply Hstay; by rewrite <- E1|]. destruct (Hn ltac:(done)) as (p & Hp).
  eapply wp_process_at; [done|]. eapply wp_set_cpu; [done..|]. intros s' L' O' V' C'. split_and!; [done..|].
  exists (p_cr3 p). split; [done|]. congruence.
Qed.

Lemma wp_exit_switch s qs c k u :
  linked s qs -> ainv (view s) (cview s) (procs s) qs -> cview s !! c = Some k ->
  view s !! current_thread k = Some u -> t_state u = THREAD_DEAD -> tid u <> 0 ->
  wp (exit_switch c (current_thread k) (idle_thread k))
    (fun _ s' => exists qs' n th k', left s qs c k s' qs' n th k') s.
Proof.
  intros Hl Hi Hk Hu Hd Hz. unfold exit_switch. wp_steps.
  eapply wp_mono; [by apply (wp_next_alive s qs c k _ _ u)|]. cbn beta. intros r s1 (S1 & qs1 & L1 & Q1 & Q1').
  pose proof S1 as (O1 & V1 & C1).
  assert (P1 : procs s1 = procs s) by by rewrite O1.
  set (n := if r =? 0 then idle_thread k else r).
  assert (Hn : exists th, view s !! n = Some th /\ cpu_id th = c /\ (tid th = 0 -> n = idle_thread k) /\
      (n ∉ qs1 c) /\ (forall x, x <> n -> x ∈ qs1 c <-> x ∈ qs c) /\
      match qs c with [] => n = idle_thread k /\ qs1 c = [] | x :: q => n = x /\ qs1 c = q end).
  { pose proof (lk_nodup _ _ Hl c) as Hnd. destruct (qs c) as [|x q] eqn:Hq.
    - destruct Q1' as [-> ->]. cbn in n. destruct (ai_idle _ _ _ _ Hi c k Hk) as (_ & th & Hth & _ & Hc).
      exists th. split_and!; try done. apply not_elem_of_nil.
    - destruct Q1' as (-> & H0 & ->). unfold n. rewrite (proj2 (Z.eqb_neq _ _) H0).
      apply NoDup_cons in Hnd as [Hnin _].
      destruct (ai_ready _ _ _ _ Hi c x) as (th & Hth & _ & Hz' & Hc); [rewrite Hq; by left|].
      exists th. split_and!; try done. intros y Hy. rewrite elem_of_cons. tauto. }
  destruct Hn as (th & Hth & Hc & Hid & Hnin & Hqn & Hqueue).
  wp_steps. eapply wp_set_thread; [done | by rewrite V1 | done|]. intros s2 L2 O2 V2 C2. wp_steps.
  eapply wp_set_cpu; [done | by rewrite C2, C1 | done|]. intros s3 L3 O3 V3 C3. wp_steps.
  eapply wp_see_thread; [by rewrite V3, V2, lookup_insert_eq|]. intros nt Hnt. wp_steps.
  assert (P3 : procs s3 = procs s) by (rewrite O3; cbn; rewrite O2; cbn; done).
  assert (Hcur : exists u', view s3 !! current_thread k = Some u' /\ owner u' = owner u).
  { rewrite V3, V2, V1. destruct (decide (n = current_thread k)) as [En|].
    - rewrite En, lookup_insert_eq. rewrite En, Hu in Hth. injection Hth as <-. by eexists.
    - rewrite lookup_insert_ne by done. by exists u. }
  destruct Hcur as (u' & Hu' & Eu'). eapply wp_mono.
  { apply (wp_exit_cr3 s3 qs1 c (set_current n k) (current_thread k) u' th nt); rewrite ?P3; try done.
    - by rewrite C3, lookup_insert_eq.
    - intros E0. by rewrite E0, (proj1 (ai_null _ _ _ _ Hi)) in Hu.
    - change (owner (set_t_next 0 nt) = owner th). by rewrite <- Hnt.
    - apply (ai_null _ _ _ _ Hi).
    - intros Ho. destruct (ai_owner _ _ _ _ Hi n th Hth Ho) as (p & Hp & _). by exists p.
    - rewrite Eu'. intros p Hp. by apply (ai_cr3 _ _ _ _ Hi c k u p). }
  cbn beta. intros _ s4 (L4 & O4 & V4 & x & C4 & Hx). wp_steps. rewrite P3 in Hx.
  assert (P4 : procs s4 = procs s) by (rewrite O4; cbn; by rewrite P3).
  assert (W4 : view s4 = <[n := set_t_state THREAD_RUNNING th]> (view s)) by by rewrite V4, V3, V2, V1.
  assert (K4 : cview s4 = <[c := set_c_cr3 x (set_current n k)]> (cview s)).
  { by rewrite C4, C3, insert_insert_eq, C2, C1. }
  exists qs1, n, th, (set_c_cr3 x (set_current n k)). split; try done.
  - rewrite W4, K4, P4. eapply (ainv_run _ _ _ qs qs1 c k); try done.
    + intros c' y Hne. by rewrite Q1.
    + intros v Hv. right. congruence.
    + intros p _ Hp. by apply Hx.
  - repeat (eapply only_trans; [eassumption|]). apply only_refl.
Qed.

Definition zombie (code : Z) (P : gmap Z process) (p : Z) : gmap Z process :=
  match P !! p with
  | Some r => <[p := set_p_state PROCESS_ZOMBIE (set_p_exit code r)]> P
  | None => P
  end.

(** The main thread of the parent of the process at [p]. *)
Definition parent_main (P : gmap Z process) (l : list Z) (p : Z) : option Z :=
  match P !! p with Some r => main_by_pid P l (ppid r) | None => None end.

(** The process side of the exit, for threads with and without a process. *)
Lemma wp_retire s qs p code l :
  linked s qs -> ainv (view s) (cview s) (procs s) qs -> (p <> 0 -> is_Some (procs s !! p)) ->
  g_process_list_lock s = false -> pseg (procs s) (g_process_list_head s) l -> NoDup l ->
  wp (if p =? 0 then kret tt else exit_process ops p code)
    (fun _ s' => kept s s' /\ (exists qs', advanced s qs s' qs') /\ procs s' = zombie code (procs s) p /\
       view s' = unblock (parent_main (procs s) l p) (view s)) s.
Proof.
  intros Hl Hi Hp Hlock Hseg Hnd. unfold zombie, parent_main. destruct (Z.eqb_spec p 0) as [->|Hne].
  - rewrite (proj2 (ai_null _ _ _ _ Hi)). wp_steps. split_and!; [apply kept_refl | | done..].
    exists qs. by apply advanced_refl.
  - destruct (Hp Hne) as [r Hr]. rewrite Hr. by apply wp_exit_process.
Qed.

(** The dying thread is marked. *)
Lemma wp_die s qs c k th code :
  sok s qs -> cview s !! c = Some k -> view s !! current_thread k = Some th -> t_state th = THREAD_RUNNING ->
  wp (if current_thread k =? 0 then kret 0 else
      on_thread (current_thread k) (set_t_state THREAD_DEAD) ;;;
      on_thread (current_thread k) (set_t_exit code) ;;;
      t <-- thread_at (current_thread k) ;; kret (owner t))
    (fun r s' => r = owner th /\ linked s' qs /\ ainv (view s') (cview s') (procs s') qs /\ only_threads s s' /\
       view s' = <[current_thread k := set_t_exit code (set_t_state THREAD_DEAD th)]> (view s) /\
       cview s' = cview s) s.
Proof.
  intros Hs Hk Hth Hrun.
  assert (H0 : current_thread k <> 0).
  { intros E0. by rewrite E0, (proj1 (ai_null _ _ _ _ (sk_inv _ _ Hs))) in Hth. }
  rewrite (proj2 (Z.eqb_neq _ _) H0). wp_steps.
  eapply wp_set_thread; [apply Hs|done..|]. intros s1 L1 O1 V1 C1. wp_steps.
  eapply wp_set_thread; [done|by rewrite V1, lookup_insert_eq|done|]. intros s2 L2 O2 V2 C2. wp_steps.
  eapply wp_see_thread; [by rewrite V2, lookup_insert_eq|]. intros u Hu. wp_steps.
  assert (Eu : owner u = owner th) by (change (owner (set_t_next 0 u) = owner th); by rewrite <- Hu).
  assert (P2 : procs s2 = procs s) by (rewrite O2; cbn; by rewrite O1).
  rewrite P2, V2, C2, V1, C1, insert_insert_eq. split_and!; try done; [|by eapply only_trans].
  eapply ainv_sleep; try done. apply Hs.
Qed.

Lemma sok_kept s qs s' qs' :
  sok s qs -> kept s s' -> linked s' qs' -> ainv (view s') (cview s') (procs s') qs' ->
  (forall x, is_Some (view s' !! x) -> is_Some (view s !! x)) ->
  (forall c k th, cview s' !! c = Some k -> view s' !! current_thread k = Some th ->
     tid th <> 0 -> t_state th <> THREAD_DEAD) ->
  sok s' qs'.
Proof.
  intros [L I A W K (l & Hl & Hnd) [F1 F2] T F3] [K1 K2 K3 K4 K5 K6] L' I' Hd Ha.
  split; try done; rewrite ?K1, ?K2, ?K4, ?K5; try done; [exists l; auto | auto..].
Qed.

Lemma moves_left qs s2 qs2 c k s3 qs3 n th k3 :
  (forall c', exists l, qs2 c' = qs c' ++ l) -> left s2 qs2 c k s3 qs3 n th k3 -> moves qs s3 qs3.
Proof.
  intros Hg [_ _ _ _ _ C3 N3 Q3 Q3'] c' i t Hi. destruct (Hg c') as [l El].
  apply (lookup_app_l_Some _ l) in Hi. rewrite <- El in Hi. destruct (decide (c' = c)) as [->|Hne].
  - destruct (qs2 c) as [|x q]; [done|]. destruct Q3' as [-> ->]. destruct i as [|i]; cbn in Hi.
    + left. exists k3. rewrite C3, lookup_insert_eq. split; [done|]. congruence.
    + right. exists i. split; [lia|done].
  - right. exists i. rewrite Q3 by done. split; [lia|done].
Qed.

Lemma is_Some_insert_old (T : gmap Z thread) x u v y :
  T !! x = Some u -> is_Some (<[x := v]> T !! y) -> is_Some (T !! y).
Proof. intros Hx Hy. apply lookup_insert_is_Some in Hy as [<-|[_ ?]]; [by eexists | done]. Qed.

(** After an exit every CPU runs a live thread. *)
Lemma alive_left s qs c k th s1 s2 qs2 s3 qs3 n tn k3 :
  sok s qs -> cview s !! c = Some k -> cview s2 = cview s ->
  (forall x, x <> current_thread k -> view s1 !! x = view s !! x) -> view s !! current_thread k = Some th ->
  (forall x u, view s2 !! x = Some u -> exists u0, view s1 !! x = Some u0 /\ tid u = tid u0 /\
     (t_state u = THREAD_DEAD -> t_state u0 = THREAD_DEAD)) ->
  left s2 qs2 c k s3 qs3 n tn k3 ->
  forall c' k' u, cview s3 !! c' = Some k' -> view s3 !! current_thread k' = Some u -> tid u <> 0 ->
    t_state u <> THREAD_DEAD.
Proof.
  intros Hs Hk C2 V1 Hth D2 [_ _ _ Hn V3 C3 N3 _ _] c' k' u. rewrite C3, V3.
  intros [[<- <-]|[Hne Hk']]%lookup_insert_Some Hu Hz; [rewrite N3, lookup_insert_eq in Hu; by injection Hu as <-|].
  apply lookup_insert_Some in Hu as [[_ <-]|[_ Hu]]; [done|]. rewrite C2 in Hk'.
  destruct (D2 _ _ Hu) as (u0 & Hu0 & Et & Hd). intros Hdead. apply Hd in Hdead. rewrite Et in Hz.
  rewrite V1 in Hu0; [by eapply (sk_alive _ _ Hs c' k' u0)|]. intros Ec.
  destruct (ai_current _ _ _ _ (sk_inv _ _ Hs) c' k' Hk') as (v & Hv & Hcv & _).
  destruct (ai_current _ _ _ _ (sk_inv _ _ Hs) c k Hk) as (w & Hw & Hcw & _). rewrite Ec in Hv. congruence.
Qed.

Lemma wp_scheduler_exit s qs c k th code l :
  sok s qs -> pseg (procs s) (g_process_list_head s) l -> NoDup l ->
  cview s !! c = Some k -> view s !! current_thread k = Some th -> tid th <> 0 -> t_state th = THREAD_RUNNING ->
  wp (scheduler_exit ops c code)
    (fun _ s' => (exists qs', sok s' qs' /\ moves qs s' qs') /\ procs s' = zombie code (procs s) (owner th) /\
       view s' !! current_thread k = Some (set_t_exit code (set_t_state THREAD_DEAD th)) /\
       (exists k' u, cview s' !! c = Some k' /\ view s' !! current_thread k' = Some u /\
          t_state u = THREAD_RUNNING) /\
       forall m u, parent_main (procs s) l (owner th) = Some m -> view s' !! m = Some u ->
         t_state u <> THREAD_BLOCKED) s.
Proof.
  intros Hs Hseg Hnd Hk Hth Hz Hrun. pose proof (sk_inv _ _ Hs) as Hi. unfold scheduler_exit. wp_steps.
  eapply wp_see_cpu; [done|]. intros h Eh. wp_steps.
  change (current_thread h) with (current_thread (set_ready 0 0 h)).
  change (idle_thread h) with (idle_thread (set_ready 0 0 h)). rewrite <- Eh.
  eapply wp_mono; [by apply (wp_die s qs c)|]. cbn beta. intros r s1 (-> & L1 & I1 & O1 & V1 & C1). wp_steps.
  assert (P1 : procs s1 = procs s) by by rewrite O1.
  eapply wp_mono.
  { apply (wp_retire s1 qs (owner th) code l); try done.
    - rewrite P1. intros Ho. destruct (ai_owner _ _ _ _ Hi _ th Hth Ho) as (p & Hp & _). by exists p.
    - rewrite O1. apply (sk_lock _ _ Hs).
    - by rewrite O1. }
  cbn beta. intros _ s2 (K2 & [qs2 [L2 I2 C2 Q2 D2 D2']] & P2 & V2). rewrite P1 in P2, V2. wp_steps.
  set (th' := set_t_exit code (set_t_state THREAD_DEAD th)) in *.
  assert (Hcur : view s2 !! current_thread k = Some th').
  { apply D2'; [|done]. by rewrite V1, lookup_insert_eq. }
  eapply wp_mono; [apply (wp_exit_switch s2 qs2 c k th'); try done; by rewrite C2, C1|]. cbn beta.
  intros _ s3 (qs3 & n & tn & k3 & H3). pose proof H3 as [L3 I3 O3 Hn V3 C3 N3 Q3 Q3'].
  assert (P3 : procs s3 = zombie code (procs s) (owner th)) by (rewrite O3; by cbn).
  assert (Hne : n <> current_thread k).
  { intros ->. rewrite Hcur in Hn. injection Hn as <-. destruct (qs2 c) as [|x q] eqn:Hq.
    - destruct Q3' as [En _]. destruct (ai_idle _ _ _ _ Hi c k Hk) as (_ & ti & Hti & Hz' & _).
      rewrite <- En, Hth in Hti. by injection Hti as <-.
    - destruct Q3' as [<- _]. destruct (ai_ready _ _ _ _ I2 c (current_thread k)) as (v & Hv & Hr & _);
        [rewrite Hq; by left|]. rewrite Hcur in Hv. by injection Hv as <-. }
  split_and!; [|done|by rewrite V3, lookup_insert_ne| |].
  - exists qs3. split; [|by apply (moves_left qs s2 qs2 c k s3 qs3 n tn k3)].
    apply (sok_kept s qs); try done.
    + eapply kept_trans; [by apply kept_only|]. eapply kept_trans; [exact K2 | by apply kept_only].
    + rewrite V3. intros x Hx. apply (is_Some_insert_old _ _ _ _ _ Hn) in Hx. apply (view_dom _ _ D2) in Hx.
      rewrite V1 in Hx. by apply (is_Some_insert_old _ _ _ _ _ Hth) in Hx.
    + eapply (alive_left s qs c k th s1 s2 qs2 s3 qs3 n tn k3); try done; [by rewrite C2, C1|].
      intros x Hx. by rewrite V1, lookup_insert_ne.
  - exists k3, (set_t_state THREAD_RUNNING tn). rewrite C3, V3, N3, !lookup_insert_eq. done.
  - intros m u Hm Hu. rewrite V3 in Hu. apply lookup_insert_Some in Hu as [[<- <-]|[_ Hu]]; [done|].
    rewrite V2, Hm in Hu. cbn in Hu. rewrite lookup_alter_eq in Hu. unfold unblocked in Hu.
    destruct (view s1 !! m) as [v|]; [|done]. cbn in Hu. injection Hu as <-. by case_bool_decide.
Qed.

End runs.
