(* ===== verification/SchedNew.v ===== *)
(** * New threads and processes

    [thread_create] and [clone] with the memory of the new process of its own
    ([fork] is one), on the invariant of [SchedRun]: the new thread stands at
    the end of the queue of its CPU, which for a clone is the caller's. *)

From Stdlib Require Import ZArith Lia.
From stdpp Require Import base tactics list gmap relations.
From S2P Require Import Prelude Sched SchedInv SchedRun.

Section new.
Context {E : Type} (ops : env_ops E) `{!EnvTotal ops}.
Implicit Types (s : sched E).

Lemma wp_dispatch s c t id k (Q : unit -> sched E -> Prop) :
  cview s !! id = Some k -> id < MAX_CPUS -> wp (enqueue_thread (Some id) t) Q s -> wp (dispatch c t id) Q s.
Proof. intros Hk Hlt HQ. unfold dispatch. wp_steps. by eapply wp_get_block. Qed.

Lemma moves_app qs s' qs' : (forall c, exists l, qs' c = qs c ++ l) -> moves qs s' qs'.
Proof.
  intros Q c i t Hi. right. exists i. split; [lia|]. destruct (Q c) as [l ->]. by apply lookup_app_l_Some.
Qed.

(** Memory was taken. *)
Lemma sok_alloc s qs b m : sok s qs -> s_brk s <= b -> sok (set_alloc b m s) qs.
Proof.
  intros [L I A W K Li [F1 F2] T F3] Hb. split; try done; [by apply (linked_ext s)| |].
  - cbn. split; [lia|]. intros t Hx. specialize (F2 t Hx). lia.
  - intros p Hp. specialize (F3 p Hp). cbn. lia.
Qed.

(** ** Creating threads *)

Lemma elem_upd_snoc qs c t c' x : x ∈ upd_q qs c (qs c ++ [t]) c' <-> x ∈ qs c' \/ (c' = c /\ x = t).
Proof.
  destruct (decide (c' = c)) as [->|]; [rewrite upd_q_eq, elem_of_app, list_elem_of_singleton | rewrite upd_q_ne by done];
    tauto.
Qed.

Lemma ainv_new T C P qs c t th :
  ainv T C P qs -> T !! t = None -> t <> 0 -> tid th <> 0 -> t_state th = THREAD_READY -> cpu_id th = c ->
  is_Some (C !! c) -> (owner th <> 0 -> exists p, P !! owner th = Some p /\ p_cr3 p <> 0) ->
  ainv (<[t := th]> T) C P (upd_q qs c (qs c ++ [t])).
Proof.
  intros [H1 H2 H3 H4 H5 H6 [H7 H7'] H8 H9 H10] Hnew H0 Hz Hr Hc Hk Ho.
  assert (Hold : forall x u, T !! x = Some u -> <[t := th]> T !! x = Some u).
  { intros x u Hx. rewrite lookup_insert_ne; [done|]. intros ->. congruence. }
  assert (Hsplit : forall x u, <[t := th]> T !! x = Some u -> (x = t /\ u = th) \/ (x <> t /\ T !! x = Some u)).
  { intros x u Hx. apply lookup_insert_Some in Hx as [[-> ->]|[? ?]]; auto. }
  assert (Hin := elem_upd_snoc qs c t).
  split.
  - intros c' x [Hx|[-> ->]]%Hin; [|exists th; by rewrite lookup_insert_eq].
    destruct (H1 c' x Hx) as (u & Hu & ?). exists u. by rewrite (Hold _ _ Hu).
  - intros x u [[-> ->]|[_ Hx]]%Hsplit; [by rewrite Hc | by eapply H2].
  - intros x u [[-> ->]|[_ Hx]]%Hsplit ? ?; apply Hin; [by right | left; auto].
  - intros x u [[-> ->]|[_ Hx]]%Hsplit ? ?; [congruence | auto].
  - intros c' k Hk'. destruct (H5 c' k Hk') as (u & Hu & ?). exists u. by rewrite (Hold _ _ Hu).
  - intros c' k Hk'. destruct (H6 c' k Hk') as (? & u & Hu & ?). split; [done|]. exists u. by rewrite (Hold _ _ Hu).
  - split; [by rewrite lookup_insert_ne | done].
  - intros x u [[-> ->]|[_ Hx]]%Hsplit; [done | by eapply H8].
  - intros c' k u p Hk' Hu. destruct (H5 c' k Hk') as (v & Hv & _). rewrite (Hold _ _ Hv) in Hu. injection Hu as <-.
    by eapply H9.
  - intros p r Hp Hm. destruct (H10 p r Hp Hm) as (u & Hu & ?). exists u. by rewrite (Hold _ _ Hu).
Qed.

(** The state after the two blocks were asked for. *)
Lemma wp_thread_blocks s (Q : option (Z * Z) -> sched E -> Prop) :
  0 < s_brk s ->
  (forall b m r, s_brk s <= b ->
     match r with
     | Some (t, stack) => t = s_brk s /\ stack = s_brk s + 4096 /\ b = s_brk s + 4096 + KERNEL_STACK_SIZE
     | None => True
     end -> Q r (set_alloc b m s)) ->
  wp thread_blocks Q s.
Proof.
  intros Hb HQ. unfold thread_blocks, s_kmalloc, s_kfree. wp_steps. destruct (s_mem s) as [|m] eqn:Em; wp_steps.
  - rewrite Em. wp_steps. cbn [Z.eqb orb]. wp_steps. replace s with (set_alloc (s_brk s) (s_mem s) s) by by destruct s.
    by apply HQ.
  - cbn [s_mem set_alloc s_brk]. destruct m as [|m]; wp_steps.
    + rewrite (proj2 (Z.eqb_neq _ _) (ltac:(lia) : s_brk s <> 0)). cbn [Z.eqb orb]. wp_steps.
      apply (HQ (s_brk s + 4096) 1%nat None); [lia|done].
    + rewrite (proj2 (Z.eqb_neq _ _) (ltac:(lia) : s_brk s <> 0)).
      rewrite (proj2 (Z.eqb_neq _ _) (ltac:(lia) : s_brk s + 4096 <> 0)). cbn [orb]. wp_steps.
      apply (HQ _ m (Some (s_brk s, s_brk s + 4096))); [unfold KERNEL_STACK_SIZE; lia|done].
Qed.

(** A fresh thread joins the threads. *)
Lemma linked_new s s' qs t th :
  linked s qs -> cpus s' = cpus s -> threads s' = <[t := th]> (threads s) -> (forall c, t ∉ qs c) -> linked s' qs.
Proof.
  intros [H1 H2 H3 H4] Ec Et Ht. split; rewrite ?Ec, ?Et; try done. intros c k Hk. destruct (H1 c k Hk) as [Hs Hl].
  split; [|done]. by apply qseg_insert.
Qed.

Lemma wp_thread_create s qs c entry arg cpu :
  sok s qs -> is_Some (cview s !! cpu) -> g_next_tid s < 2 ^ 32 - 1 ->
  wp (thread_create c entry arg cpu)
    (fun r s' => exists qs', sok s' qs' /\ moves qs s' qs' /\ procs s' = procs s /\ cview s' = cview s /\
       if r =? 0 then view s' = view s /\ g_next_tid s' = g_next_tid s else
       view s !! r = None /\ g_next_tid s' = g_next_tid s + 1 /\ qs' = upd_q qs cpu (qs cpu ++ [r]) /\
       exists th, view s' = <[r := th]> (view s) /\ tid th = g_next_tid s /\ t_state th = THREAD_READY /\
         cpu_id th = cpu /\ owner th = 0 /\
         frames s' !! context_frame th =
           Some (Frame (replicate 12 0) 0 0 arg 32 0 entry 0x8 0x202 (kernel_stack_top th) 0x10) /\
         context_frame th = kernel_stack_top th - FRAME_SIZE) s.
Proof.
  intros Hs [k Hk] Hid. pose proof (sk_inv _ _ Hs) as Hi. destruct (sk_fresh _ _ Hs) as [Hb Hfresh].
  pose proof (sk_tid _ _ Hs) as Ht.
  unfold thread_create, thread_create_common. wp_steps. apply wp_thread_blocks; [done|]. intros b m r Hge Hr.
  assert (Hsame : sok (set_alloc b m s) qs).
  { by apply sok_alloc. }
  destruct r as [[t stack]|]; wp_steps.
  2: { cbn [Z.eqb]. wp_steps. exists qs. split_and!; try done. by apply (moves_refl s). }
  destruct Hr as (-> & -> & ->). unfold put_thread. wp_steps.
  rewrite (proj2 (Z.eqb_neq _ _) (ltac:(lia) : s_brk s <> 0)). wp_steps. cbn [Z.eqb].
  set (th := Thread _ _ _ _ _ _ _ _ _ _). match goal with |- wp _ _ ?x => set (s1 := x) end.
  assert (Hnew : view s !! s_brk s = None).
  { destruct (view s !! s_brk s) eqn:Hv; [|done]. specialize (Hfresh (s_brk s)). rewrite Hv in Hfresh.
    specialize (Hfresh ltac:(eauto)). lia. }
  assert (Hnot : forall c', s_brk s ∉ qs c').
  { intros c' Hx. apply (ai_ready _ _ _ _ Hi) in Hx as (u & Hu & _). congruence. }
  assert (V1 : view s1 = <[s_brk s := th]> (view s)) by (unfold view; cbn; by rewrite fmap_insert).
  assert (L1 : linked s1 qs) by (eapply linked_new; [apply Hs | done..]).
  destruct (ai_idle _ _ _ _ Hi cpu k Hk) as [Hlt _]. destruct (cview_inv s cpu k Hk) as (kk & Hkk & _).
  eapply wp_dispatch; [exact Hk|lia|].
  eapply wp_mono; [apply (wp_enqueue s1 qs cpu kk (s_brk s) th); try done; [|lia]|].
  { cbn. by rewrite lookup_insert_eq. }
  cbn beta. intros _ s2 [L2 (O2 & V2 & C2)]. wp_steps.
  assert (Hu : u32 (g_next_tid s + 1) = g_next_tid s + 1) by (apply u32_small; lia).
  exists (upd_q qs cpu (qs cpu ++ [s_brk s])).
  rewrite (proj2 (Z.eqb_neq _ _) (ltac:(lia) : s_brk s <> 0)).
  assert (P2 : procs s2 = procs s) by by rewrite O2.
  split_and!; try done.
  - split; try done.
    + rewrite V2, C2, V1, P2. apply ainv_new; try done; try (cbn; lia).
    + rewrite V2, C2, V1. intros c' k' u Hk' Hu' Hz. apply lookup_insert_Some in Hu' as [[_ <-]|[_ Hu']]; [done|].
      by eapply (sk_alive _ _ Hs).
    + rewrite O2. apply (sk_wait _ _ Hs).
    + rewrite O2. apply (sk_lock _ _ Hs).
    + rewrite P2, O2. apply (sk_list _ _ Hs).
    + rewrite V2, V1, O2. cbn. unfold KERNEL_STACK_SIZE. split; [lia|]. intros t Hx.
      apply lookup_insert_is_Some in Hx as [<-|[_ Hx]]; [lia|]. specialize (Hfresh t Hx). lia.
    + rewrite O2. cbn. rewrite Hu. lia.
    + rewrite P2, O2. cbn. unfold KERNEL_STACK_SIZE. intros p Hp. pose proof (sk_procs _ _ Hs p Hp). lia.
  - apply moves_app. intros c'. unfold upd_q. case_decide; [subst; by eexists|]. exists []. by rewrite app_nil_r.
  - rewrite O2. cbn. by rewrite Hu.
  - exists th. split_and!; try done; [by rewrite V2|]. rewrite O2. cbn. by rewrite lookup_insert_eq.
Qed.

(** ** The choice of a CPU *)

(** [m] looks at the threads and the CPUs and changes nothing. *)
Definition looks {A} (m : M (sched E) A) : Prop :=
  forall s s1 a s', threads s1 = threads s -> cpus s1 = cpus s -> m s = Ok (a, s') -> m s1 = Ok (a, s1).

Lemma looks_ret {A} (a : A) : looks (kret a).
Proof. by intros s s1 b s' _ _ [= <- <-]. Qed.

Lemma looks_opt {A} e (o : option A) : looks (kopt e o).
Proof. destruct o; [apply looks_ret|done]. Qed.

Lemma looks_bind {A B} (m : M (sched E) A) (k : A -> M (sched E) B) :
  looks m -> (forall s a s', m s = Ok (a, s') -> s' = s) -> (forall a, looks (k a)) -> looks (kbind m k).
Proof.
  intros Hm Hid Hk s s1 b s' Et Ec. unfold kbind. destruct (m s) as [[a s2]|] eqn:Hms; [|done].
  pose proof (Hid _ _ _ Hms) as ->. rewrite (Hm s s1 a s Et Ec Hms). by apply Hk.
Qed.

Lemma looks_id {A} (m : M (sched E) A) s a s' : looks m -> m s = Ok (a, s') -> s' = s.
Proof. intros H Hm. pose proof (H s s a s' eq_refl eq_refl Hm). congruence. Qed.

Lemma looks_then {A B} (m : M (sched E) A) (k : A -> M (sched E) B) :
  looks m -> (forall a, looks (k a)) -> looks (kbind m k).
Proof. intros Hm Hk. apply looks_bind; [done| |done]. intros s a s'. by apply looks_id. Qed.

Lemma looks_thread t : looks (thread_at t).
Proof.
  intros s s1 a s' Et _. unfold thread_at, kbind, kget. rewrite Et. destruct (threads s !! t); [|done]. by intros [= <- <-].
Qed.

Lemma looks_queue_length fuel t n : looks (queue_length fuel t n).
Proof.
  revert t n. induction fuel as [|fuel IH]; intros t n; cbn [queue_length]; case_if; try apply looks_ret; [done|].
  apply looks_then; [apply looks_thread | intros th; apply IH].
Qed.

Lemma looks_fewest_step i acc : looks (fewest_step i acc).
Proof.
  intros s s1 a s' Et Ec. unfold fewest_step, kbind at 1 3, kget. rewrite Et, Ec. destruct (cpus s !! i) as [k|].
  - pose proof (looks_then _ (fun n => kret (inl (B := unit)
      (if (if negb (current_thread k =? 0) && negb (current_thread k =? idle_thread k) then u32 (n + 1) else n) <? acc.1
       then ((if negb (current_thread k =? 0) && negb (current_thread k =? idle_thread k) then u32 (n + 1) else n), Some i)
       else acc))) (looks_queue_length (size (threads s)) (ready_queue_head k) 0) (fun n => looks_ret _)) as Hl.
    by apply Hl.
  - by intros [= <- <-].
Qed.

Lemma looks_loop {A R} n i (body : Z -> A -> M (sched E) (A + R)) a :
  (forall j x, looks (body j x)) -> looks (loop n i body a).
Proof.
  intros Hb. revert i a. induction n as [|n IH]; intros i a; cbn [loop]; [apply looks_ret|].
  apply looks_then; [apply Hb|]. intros [x|x]; [apply IH | apply looks_ret].
Qed.

Lemma looks_fewest : looks get_cpu_id_with_fewest_threads.
Proof.
  unfold get_cpu_id_with_fewest_threads, get_cpu_with_fewest_threads.
  apply looks_then; [|intros b; apply looks_opt]. apply looks_then; [apply looks_loop, looks_fewest_step|].
  intros [x|x]; apply looks_ret.
Qed.

(** The CPU that a new thread is bound to. *)
Definition fewest s : option Z :=
  match get_cpu_id_with_fewest_threads s with Ok (c, _) => Some c | Stop _ => None end.

Lemma wp_fewest s s1 c (Q : Z -> sched E -> Prop) :
  fewest s = Some c -> threads s1 = threads s -> cpus s1 = cpus s -> Q c s1 -> wp get_cpu_id_with_fewest_threads Q s1.
Proof.
  unfold fewest. destruct (get_cpu_id_with_fewest_threads s) as [[c' s']|] eqn:Hm; [|done]. intros [= ->] Et Ec HQ.
  unfold wp. by rewrite (looks_fewest s s1 c s' Et Ec Hm).
Qed.

(** ** A new process with its thread *)

(** Apart from processes, memory, process identifiers and the environment
    nothing changed. *)
Record aside s s' : Prop := {
  as_threads : threads s' = threads s;
  as_cpus : cpus s' = cpus s;
  as_head : g_process_list_head s' = g_process_list_head s;
  as_wait : g_wait_lock s' = g_wait_lock s;
  as_lock : g_process_list_lock s' = g_process_list_lock s;
  as_tid : g_next_tid s' = g_next_tid s;
  as_brk : s_brk s <= s_brk s'
}.

Lemma aside_views s s' : aside s s' -> cview s' = cview s /\ view s' = view s.
Proof. intros [A1 A2 _ _ _ _ _]. unfold view, cview. by rewrite A1, A2. Qed.

Lemma sok_aside s qs s' : sok s qs -> aside s s' -> procs s' = procs s -> sok s' qs.
Proof.
  intros [L I A W K Li [F1 F2] T F3] [A1 A2 A3 A4 A5 A6 A7] Ep.
  assert (V : view s' = view s) by (unfold view; by rewrite A1). assert (C : cview s' = cview s) by (unfold cview; by rewrite A2).
  split; rewrite ?V, ?C, ?Ep, ?A3, ?A4, ?A5, ?A6; try done; [by apply (linked_ext s)| |].
  - split; [lia|]. intros t Ht. specialize (F2 t Ht). lia.
  - intros p Hp. specialize (F3 p Hp). lia.
Qed.

(** The block of the child, with a copy of the address space. *)
Lemma wp_clone_child s qs parent pp flags :
  sok s qs -> procs s !! parent = Some pp ->
  wp (clone_process ops parent flags)
    (fun r s' => aside s s' /\
       if r =? 0 then procs s' = procs s else
       r = s_brk s /\ s_brk s < s_brk s' /\ exists cr3, cr3 <> 0 /\
       procs s' = <[r := Process (g_next_pid s) (pid pp) PROCESS_EMBRYO cr3 0 0 0 0]> (procs s)) s.
Proof.
  intros Hs Hpp. destruct (sk_fresh _ _ Hs) as [Hb _]. unfold clone_process, s_kmalloc, s_kfree, on_env. wp_steps.
  destruct (s_mem s) as [|m]; wp_steps; [cbn [Z.eqb]; wp_steps; split; [by split|done]|].
  assert (Hnone : procs s !! s_brk s = None).
  { destruct (procs s !! s_brk s) eqn:E0; [|done]. pose proof (sk_procs _ _ Hs (s_brk s) ltac:(by rewrite E0)). lia. }
  assert (Hne : parent <> s_brk s) by (intros ->; congruence).
  rewrite (proj2 (Z.eqb_neq _ _) (ltac:(lia) : s_brk s <> 0)). wp_steps. eapply wp_process_at; [done|]. wp_steps.
  eapply wp_mono; [apply space_total|]. cbn beta. intros cr3 e _. wp_steps.
  eapply wp_on_process; [cbn; apply lookup_insert_eq|]. cbn [s_brk set_procs set_ids set_alloc set_env procs]. wp_steps.
  rewrite insert_insert_eq. destruct (Z.eqb_spec cr3 0) as [->|Hc]; wp_steps.
  { split; [split; try done; cbn; lia|]. cbn. by rewrite delete_insert_id. }
  assert (Hend : forall e', let s' := set_env e' (set_procs (<[s_brk s := Process (g_next_pid s) (pid pp) PROCESS_EMBRYO cr3 0 0 0 0]> (procs s))
      (set_ids (g_next_tid s) (u32 (g_next_pid s + 1)) (set_alloc (s_brk s + 4096) m s))) in
    aside s s' /\ if s_brk s =? 0 then procs s' = procs s else
       s_brk s = s_brk s /\ s_brk s < s_brk s' /\ exists cr3, cr3 <> 0 /\
       procs s' = <[s_brk s := Process (g_next_pid s) (pid pp) PROCESS_EMBRYO cr3 0 0 0 0]> (procs s)).
  { intros e'. cbn zeta. split; [split; try done; cbn; lia|]. rewrite (proj2 (Z.eqb_neq _ _) (ltac:(lia) : s_brk s <> 0)).
    split_and!; [done | cbn; lia | by exists cr3]. }
  case_if; wp_steps; [apply (Hend e)|]. eapply wp_mono; [apply share_total|]. cbn beta. intros _ e2 _. wp_steps. apply (Hend e2).
Qed.

(** The two blocks of a thread with its first frame. *)
Lemma wp_create_common s entry arg user_top cpu cs ss (Q : Z -> sched E -> Prop) :
  0 < s_brk s -> (forall b m, s_brk s <= b -> Q 0 (set_alloc b m s)) ->
  (forall m, let top := s_brk s + 4096 + KERNEL_STACK_SIZE in
     Q (s_brk s) (set_threads (<[s_brk s := Thread (g_next_tid s) (top - FRAME_SIZE) top top THREAD_READY cpu 0 0 0 0]> (threads s))
       (set_ids (u32 (g_next_tid s + 1)) (g_next_pid s)
       (set_frames (<[top - FRAME_SIZE := Frame (replicate 12 0) 0 0 arg 32 0 entry cs 0x202
          (if user_top =? 0 then top else user_top) ss]> (frames s)) (set_alloc top m s))))) ->
  wp (thread_create_common entry arg user_top cpu cs ss) Q s.
Proof.
  intros Hb Hn Hy. unfold thread_create_common. wp_steps. apply wp_thread_blocks; [done|]. intros b m [[t stack]|] Hge Hr; wp_steps.
  - destruct Hr as (-> & -> & ->). unfold put_thread. wp_steps. apply Hy.
  - by apply Hn.
Qed.

Lemma ainv_process T C P qs p r :
  ainv T C P qs -> P !! p = None -> p <> 0 -> main_thread r = 0 -> ainv T C (<[p := r]> P) qs.
Proof.
  intros [H1 H2 H3 H4 H5 H6 [H7 H7'] H8 H9 H10] Hn H0 Hm. split; try done.
  - split; [done|]. by rewrite lookup_insert_ne.
  - intros t th Ht Ho. destruct (H8 t th Ht Ho) as (q & Hq & ?). exists q. rewrite lookup_insert_ne; [done|]. intros ->. congruence.
  - intros c k th q Hk Hth Hz. destruct (decide (owner th = p)) as [Ho|Ho].
    + destruct (H8 _ th Hth) as (q' & Hq' & _); congruence.
    + rewrite lookup_insert_ne by done. by apply H9 with (c := c).
  - intros q r' Hq Hm'. apply lookup_insert_Some in Hq as [[_ <-]|[_ Hq]]; [done|by apply (H10 q)].
Qed.

Lemma ainv_main T C P qs p r r' th :
  ainv T C P qs -> P !! p = Some r -> p_cr3 r' = p_cr3 r -> T !! main_thread r' = Some th -> tid th <> 0 ->
  ainv T C (<[p := r']> P) qs.
Proof.
  intros [H1 H2 H3 H4 H5 H6 [H7 H7'] H8 H9 H10] Hp E1 Ht Hz.
  assert (Hne : forall x, P !! x = None -> p <> x) by (intros x Hx ->; congruence). split; try done.
  - split; [done|]. rewrite lookup_insert_ne; [done|by apply Hne].
  - intros t u Hu Ho. destruct (H8 t u Hu Ho) as (q & Hq & Hc). destruct (decide (p = owner u)) as [Eo|].
    + exists r'. rewrite Eo, lookup_insert_eq. split; [done|]. rewrite <- Eo, Hp in Hq. injection Hq as <-. by rewrite E1.
    + exists q. by rewrite lookup_insert_ne.
  - intros c k u q Hk Hu Hzu Hq. apply lookup_insert_Some in Hq as [[Ho <-]|[_ Hq]]; [|by apply (H9 c k u q)].
    rewrite E1. apply (H9 c k u r); [done..|]. by rewrite <- Ho.
  - intros q x Hq Hm. apply lookup_insert_Some in Hq as [[_ <-]|[_ Hq]]; [by exists th | by apply (H10 q)].
Qed.

(** [fork] returns twice: the frame of the child is the caller's, with 0 in
    [rax]. *)
Definition child_frame (fr : frame) : frame :=
  Frame (r_rest fr) 0 (r_rsi fr) (r_rdi fr) (r_int_no fr) (r_error_code fr) (r_rip fr) (r_cs fr)
        (r_rflags fr) (r_rsp fr) (r_ss fr).

(** What a clone does: nothing, or a new process at the head of the list, with
    one thread, ready at the end of the caller's queue. *)
Definition cloned s (qs : Z -> list Z) c parent (fr : frame) r s' (qs' : Z -> list Z) : Prop :=
  cview s' = cview s /\
  ((r = -1 /\ view s' = view s /\ procs s' = procs s /\ qs' = qs) \/
   exists p t cr3 pp th, procs s !! parent = Some pp /\ procs s !! p = None /\ view s !! t = None /\ cr3 <> 0 /\
     r = g_next_pid s /\ g_process_list_head s' = p /\ qs' = upd_q qs c (qs c ++ [t]) /\
     procs s' = <[p := Process r (pid pp) PROCESS_READY cr3 t 0 0 (g_process_list_head s)]> (procs s) /\
     view s' = <[t := th]> (view s) /\ tid th = g_next_tid s /\ t_state th = THREAD_READY /\ cpu_id th = c /\
     owner th = p /\ frames s' !! context_frame th = Some (child_frame fr)).

(** The process and its thread join the others. *)
Lemma ainv_child T C P qs c t th p cr3 id parent head :
  ainv T C P qs -> T !! t = None -> P !! p = None -> t <> 0 -> p <> 0 -> cr3 <> 0 -> tid th <> 0 ->
  t_state th = THREAD_READY -> cpu_id th = c -> is_Some (C !! c) -> owner th = p ->
  ainv (<[t := th]> T) C (<[p := Process id parent PROCESS_READY cr3 t 0 0 head]> P) (upd_q qs c (qs c ++ [t])).
Proof.
  intros Hi Ht Hp Ht0 Hp0 Hc Hz Hr Hcpu HC Ho. set (r := Process id parent PROCESS_READY cr3 0 0 0 head).
  assert (I1 : ainv T C (<[p := r]> P) qs) by by apply ainv_process.
  assert (I2 : ainv (<[t := th]> T) C (<[p := r]> P) (upd_q qs c (qs c ++ [t]))).
  { apply ainv_new; try done. intros _. exists r. by rewrite Ho, lookup_insert_eq. }
  pose proof (ainv_main _ _ _ _ p r (Process id parent PROCESS_READY cr3 t 0 0 head) th I2) as H.
  rewrite insert_insert_eq in H. apply H; [by rewrite lookup_insert_eq|done|cbn; by rewrite lookup_insert_eq|done].
Qed.

Lemma pseg_fresh P h l x r : x ∉ l -> pseg P h l -> pseg (<[x := r]> P) h l.
Proof.
  revert h. induction l as [|a l IH]; intros h; cbn; [done|]. rewrite not_elem_of_cons.
  intros [Hx Hl] (-> & Ha & u & Hu & Hs). split_and!; [done..|]. exists u. rewrite lookup_insert_ne by done. auto.
Qed.

Lemma sok_child s qs s' c p t th cr3 id parent :
  sok s qs -> is_Some (cview s !! c) -> view s !! t = None -> procs s !! p = None -> t <> 0 -> p <> 0 -> cr3 <> 0 ->
  tid th <> 0 -> t_state th = THREAD_READY -> cpu_id th = c -> owner th = p ->
  linked s' (upd_q qs c (qs c ++ [t])) -> view s' = <[t := th]> (view s) -> cview s' = cview s ->
  procs s' = <[p := Process id parent PROCESS_READY cr3 t 0 0 (g_process_list_head s)]> (procs s) ->
  g_process_list_head s' = p -> g_wait_lock s' = false -> g_process_list_lock s' = false ->
  s_brk s <= s_brk s' -> t < s_brk s' -> p < s_brk s' -> 0 < g_next_tid s' < 2 ^ 32 ->
  sok s' (upd_q qs c (qs c ++ [t])).
Proof.
  intros Hs HC Ht Hp Ht0 Hp0 Hc Hz Hr Hcpu Ho L V C P Hh W K B1 B2 B3 T.
  destruct (sk_fresh _ _ Hs) as [F1 F2]. split; try done.
  - rewrite V, C, P. apply ainv_child; try done. apply Hs.
  - rewrite V, C. intros c' k' u Hk' Hu' Hz'. apply lookup_insert_Some in Hu' as [[_ <-]|[_ Hu']]; [congruence|].
    by eapply (sk_alive _ _ Hs).
  - destruct (sk_list _ _ Hs) as (l & Hl & Hnd).
    assert (Hin : p ∉ l) by (intros Hin; destruct (pseg_lookup _ _ _ _ Hl Hin) as [? ?]; congruence).
    exists (p :: l). split; [|by apply NoDup_cons]. rewrite Hh, P. split_and!; [done..|].
    eexists. rewrite lookup_insert_eq. split; [done|]. by apply pseg_fresh.
  - split; [lia|]. rewrite V. intros x [<- |[_ Hx]]%lookup_insert_is_Some; [lia|]. specialize (F2 x Hx). lia.
  - rewrite P. intros x [<- |[_ Hx]]%lookup_insert_is_Some; [lia|]. pose proof (sk_procs _ _ Hs x Hx). lia.
Qed.

Lemma moves_snoc qs c t s' : moves qs s' (upd_q qs c (qs c ++ [t])).
Proof. apply moves_app. intros c'. unfold upd_q. case_decide; [subst; by eexists|]. exists []. by rewrite app_nil_r. Qed.

(** A clone of a process, when the caller's CPU is the one with the fewest
    threads. *)
Lemma wp_clone s qs c k th fr :
  sok s qs -> cview s !! c = Some k -> view s !! current_thread k = Some th -> Z.land (u32 (r_rsi fr)) CLONE_VM = 0 ->
  fewest s = Some c -> g_next_tid s < 2 ^ 32 - 1 ->
  wp (clone ops c fr) (fun r s' => exists qs', sok s' qs' /\ moves qs s' qs' /\ cloned s qs c (owner th) fr r s' qs') s.
Proof.
  intros Hs Hk Hth Hvm Hf Hid. pose proof (sk_inv _ _ Hs) as Hi. pose proof (sk_tid _ _ Hs) as Ht.
  assert (Hno : forall s', sok s' qs -> cview s' = cview s -> view s' = view s -> procs s' = procs s ->
    exists qs', sok s' qs' /\ moves qs s' qs' /\ cloned s qs c (owner th) fr (-1) s' qs').
  { intros s' H1 H2 H3 H4. exists qs. split_and!; [done | by apply (moves_refl s) | split; [done|]]. by left. }
  unfold clone. rewrite Hvm. cbn [Z.eqb negb]. wp_steps. eapply wp_see_cpu; [done|]. intros h ->.
  assert (H0 : current_thread h <> 0) by (intros E0; cbn in Hth; by rewrite E0, (proj1 (ai_null _ _ _ _ Hi)) in Hth).
  rewrite (proj2 (Z.eqb_neq _ _) H0). wp_steps. eapply wp_see_thread; [exact Hth|]. intros u ->. cbn in Hno.
  destruct (Z.eqb_spec (owner u) 0) as [Ho|Ho]; wp_steps; [by apply Hno|].
  destruct (ai_owner _ _ _ _ Hi _ _ Hth Ho) as (pp & Hpp & _). cbn in Hpp.
  eapply wp_mono; [by apply (wp_clone_child s qs (owner u) pp)|]. cbn beta. intros p s1 [A1 Hp].
  destruct (Z.eqb_spec p 0) as [->|Hp0]; wp_steps.
  { destruct (aside_views _ _ A1). apply Hno; [by eapply sok_aside | done..]. }
  destruct Hp as (-> & Hbrk & cr3 & Hcr & P1). eapply (wp_fewest s s1); [done | apply A1 | apply A1|]. wp_steps.
  destruct (sk_fresh _ _ Hs) as [Hb Hfresh]. unfold user_thread_create.
  assert (Hpn : procs s !! s_brk s = None).
  { destruct (procs s !! s_brk s) eqn:E0; [|done]. pose proof (sk_procs _ _ Hs (s_brk s) ltac:(by rewrite E0)). lia. }
  apply wp_create_common; [lia| |].
  { intros b m Hm. cbn [Z.eqb]. unfold s_kfree. wp_steps. assert (A2 : aside s (set_alloc b (S m) (set_procs (delete (s_brk s) (procs s1)) (set_alloc b m s1)))).
    { destruct A1 as [? ? ? ? ? ? ?]. split; try done. cbn. lia. }
    destruct (aside_views _ _ A2). assert (P2 : delete (s_brk s) (procs s1) = procs s) by (rewrite P1; by rewrite delete_insert_id).
    apply Hno; [|done..]. by eapply sok_aside. }
  intros m. cbn zeta. set (t := s_brk s1). set (top := t + 4096 + KERNEL_STACK_SIZE). set (T0 := Thread _ _ _ _ _ _ _ _ _ _).
  set (s2 := set_threads _ _). assert (Ht0 : t <> 0) by (unfold t; lia). rewrite (proj2 (Z.eqb_neq _ _) Ht0). wp_steps.
  eapply wp_on_thread; [apply lookup_insert_eq|]. wp_steps. eapply wp_thread_at; [apply lookup_insert_eq|]. wp_steps.
  eapply wp_on_thread; [apply lookup_insert_eq|]. wp_steps.
  eapply wp_on_process; [cbn; rewrite P1; apply lookup_insert_eq|]. wp_steps.
  eapply wp_on_process; [cbn; apply lookup_insert_eq|]. wp_steps.
  eapply wp_on_thread; [apply lookup_insert_eq|]. wp_steps.
  unfold process_list_insert, process_list_spinlock_acquire, process_list_spinlock_release.
  rewrite (proj2 (Z.eqb_neq _ _) Hp0). wp_steps. cbn [g_process_list_lock set_threads set_procs set_frames set_ids set_alloc s2].
  rewrite (as_lock _ _ A1), (sk_lock _ _ Hs). wp_steps. eapply wp_on_process; [cbn; apply lookup_insert_eq|]. wp_steps.
  set (s3 := set_list_lock false _). set (p := s_brk s) in *.
  set (th := set_t_state THREAD_READY (set_owner p (set_t_state THREAD_BLOCKED T0))).
  assert (T3 : threads s3 = <[t := th]> (threads s)) by (cbn; by rewrite !insert_insert_eq, (as_threads _ _ A1)).
  assert (C3 : cpus s3 = cpus s) by apply A1.
  assert (P3 : procs s3 = <[p := Process (g_next_pid s) (pid pp) PROCESS_READY cr3 t 0 0 (g_process_list_head s)]> (procs s)).
  { cbn. by rewrite P1, !insert_insert_eq, (as_head _ _ A1). }
  assert (F3 : frames s3 !! context_frame th = Some (child_frame fr)) by (cbn; apply lookup_insert_eq).
  assert (Hn3 : s_brk s3 = top /\ g_next_tid s3 = u32 (g_next_tid s1 + 1) /\ g_wait_lock s3 = g_wait_lock s1 /\
    g_process_list_lock s3 = false /\ g_process_list_head s3 = p) by done.
  assert (Hi3 : tid th = g_next_tid s) by apply A1. assert (Hi3' : cpu_id th = c /\ owner th = p /\ t_state th = THREAD_READY) by done.
  clearbody s3 th. clear s2 T0. destruct Hn3 as (B3 & I3 & W3 & L3 & H3).
  assert (Htn : view s !! t = None).
  { destruct (view s !! t) eqn:E0; [|done]. specialize (Hfresh t ltac:(by rewrite E0)). unfold t, p in *. lia. }
  assert (V3 : view s3 = <[t := set_t_next 0 th]> (view s)) by (unfold view; by rewrite T3, fmap_insert).
  assert (W3' : cview s3 = cview s) by (unfold cview; by rewrite C3).
  assert (Hq : forall c', t ∉ qs c') by (intros c' (v & Hv & _)%(ai_ready _ _ _ _ Hi); congruence).
  destruct (cview_inv s c _ Hk) as (kk & Hkk & _). wp_steps.
  eapply wp_mono; [apply (wp_enqueue s3 qs c kk t th); try done; [by eapply linked_new; [apply Hs|..] | by rewrite C3 | by rewrite T3, lookup_insert_eq]|].
  cbn beta. intros _ s4 [L4 (O4 & V4 & C4)]. assert (P4 : procs s4 = procs s3) by by rewrite O4. wp_steps.
  eapply wp_process_at; [rewrite P4, P3; apply lookup_insert_eq|]. wp_steps. destruct Hi3' as (Hc3 & Ho3 & Hs3).
  rewrite V3 in V4. rewrite W3' in C4. exists (upd_q qs c (qs c ++ [t])). split_and!; [|apply moves_snoc|split; [done|right]].
  - assert (E4 : g_process_list_head s4 = p /\ g_wait_lock s4 = false /\ g_process_list_lock s4 = false /\ s_brk s4 = top /\
      g_next_tid s4 = g_next_tid s + 1).
    { rewrite O4. cbn. rewrite H3, W3, B3, I3, L3, (as_wait _ _ A1), (as_tid _ _ A1), u32_small by lia. by rewrite (sk_wait _ _ Hs). }
    destruct E4 as (E1 & E2 & E3 & E5 & E6). unfold top, t, p, KERNEL_STACK_SIZE in *.
    apply (sok_child s qs s4 c (s_brk s) (s_brk s1) (set_t_next 0 th) cr3 (g_next_pid s) (pid pp)); try done; try lia; [cbn; lia|by rewrite P4].
  - exists p, t, cr3, pp, (set_t_next 0 th). rewrite P4, P3. split_and!; try done; by rewrite O4.
Qed.

End new.
