(* ===== verification/SchedSteps.v ===== *)
(** * The scheduler under every interleaving

    Signals, waiting for children, and the entry points of the scheduler as
    events of a step relation, with what every event does to the invariant and
    the queues. *)

From Stdlib Require Import ZArith Lia.
From stdpp Require Import base tactics list gmap relations.
From S2P Require Import Prelude Sched SchedInv SchedRun SchedNew.

Section steps.
Context {E : Type} (ops : env_ops E) `{!EnvTotal ops}.
Implicit Types (s : sched E).

(** ** Signals *)

(** The first process of the list with the pid. *)
Fixpoint by_pid (P : gmap Z process) (l : list Z) (id : Z) : option Z :=
  match l with
  | [] => None
  | p :: l' => if match P !! p with Some r => pid r =? id | None => false end then Some p else by_pid P l' id
  end.

Lemma by_pid_Some P l id p :
  by_pid P l id = Some p -> p ∈ l /\ exists r, P !! p = Some r /\ pid r = id.
Proof.
  induction l as [|a l IH]; cbn; [done|]. destruct (P !! a) as [r|] eqn:Ha.
  - destruct (Z.eqb_spec (pid r) id); [intros [= <-]|]; [split; [by left | by exists r]|].
    intros [? ?]%IH. split; [by right | done].
  - intros [? ?]%IH. split; [by right | done].
Qed.

Lemma wp_find_pid fuel s id h l :
  pseg (procs s) h l -> (length l <= fuel)%nat ->
  wp (find_pid fuel id h) (fun r s' => r = default 0 (by_pid (procs s) l id) /\ s' = s) s.
Proof.
  revert fuel h. induction l as [|p l IH]; intros fuel h Hs Hf.
  - cbn in Hs. subst h. destruct fuel; cbn; by wp_steps.
  - destruct Hs as (-> & Hp & r & Hr & Hs). cbn in Hf. destruct fuel as [|fuel]; [lia|].
    cbn [find_pid by_pid]. rewrite Hr, (proj2 (Z.eqb_neq _ _) Hp). wp_steps. eapply wp_process_at; [done|].
    destruct (pid r =? id); wp_steps; [done|]. apply IH; [done|lia].
Qed.

Lemma relock s : g_process_list_lock s = false -> set_list_lock false (set_list_lock true s) = s.
Proof. destruct s; cbn. by intros ->. Qed.

Lemma wp_find_by_pid s id l :
  g_process_list_lock s = false -> pseg (procs s) (g_process_list_head s) l -> NoDup l ->
  wp (process_find_by_pid id) (fun r s' => r = default 0 (by_pid (procs s) l id) /\ s' = s) s.
Proof.
  intros Hlock Hs Hnd. unfold process_find_by_pid, process_list_spinlock_acquire, process_list_spinlock_release,
    list_length. wp_steps. rewrite Hlock. wp_steps.
  eapply wp_mono; [apply (wp_find_pid _ _ _ _ l); [done|by eapply pseg_size]|]. cbn beta.
  intros r s' [-> ->]. wp_steps. split; [done|by apply relock].
Qed.

(** A process of the list changed, but not its link. *)
Lemma kept_process s p r r' :
  procs s !! p = Some r -> p_next r' = p_next r -> kept s (set_procs (<[p := r']> (procs s)) s).
Proof.
  intros Hr Hn. split; try done; cbn; [intros l Hl; by eapply pseg_next|].
  intros q [<- |[_ ?]]%lookup_insert_is_Some; [by eexists | done].
Qed.

(** A thread after a signal. *)
Definition roused (th : thread) : thread :=
  if bool_decide (t_state th = THREAD_READY) || bool_decide (t_state th = THREAD_RUNNING) then th
  else set_t_state THREAD_READY th.

(** The state after a ready thread was made: threads grew ready, processes
    changed in fields the invariant does not read. *)
Lemma wp_ready_thread s qs c t th :
  linked s qs -> ainv (view s) (cview s) (procs s) qs -> view s !! t = Some th -> tid th <> 0 ->
  t_state th <> THREAD_READY ->
  wp (scheduler_ready_thread c t)
    (fun _ s' => kept s s' /\ (exists qs', linked s' qs' /\ ainv (view s') (cview s') (procs s') qs' /\
        forall c, exists l, qs' c = qs c ++ l) /\
       cview s' = cview s /\ view s' = <[t := set_t_state THREAD_READY th]> (view s) /\
       forall p r, procs s !! p = Some r -> exists st, procs s' !! p = Some (set_p_state st r)) s.
Proof.
  intros Hl Hi Ht Hz Hn. unfold scheduler_ready_thread.
  assert (H0 : t <> 0) by (intros ->; by rewrite (proj1 (ai_null _ _ _ _ Hi)) in Ht).
  rewrite (proj2 (Z.eqb_neq _ _) H0). wp_steps.
  eapply wp_set_thread; [done..|]. intros s1 L1 O1 V1 C1. wp_steps.
  eapply wp_see_thread; [by rewrite V1, lookup_insert_eq|]. intros u Hu. wp_steps.
  assert (Ec : cpu_id u = cpu_id th) by (change (cpu_id (set_t_next 0 u) = cpu_id th); by rewrite <- Hu).
  assert (Eo : owner u = owner th) by (change (owner (set_t_next 0 u) = owner th); by rewrite <- Hu).
  rewrite Ec, Eo. destruct (home_cpu s qs _ _ Hi Ht) as (k & Hk & Hlt).
  eapply wp_dispatch; [by rewrite C1|done|].
  eapply wp_mono; [by apply (wp_make_ready s qs t th s1 (set_t_state THREAD_READY))|].
  cbn beta. intros _ s2 [[L2 I2 O2 C2 Q2 D2] V2]. wp_steps.
  assert (Hstay : forall s3, s3 = s2 -> kept s s3 /\ (exists qs', linked s3 qs' /\
        ainv (view s3) (cview s3) (procs s3) qs' /\ forall c, exists l, qs' c = qs c ++ l) /\
       cview s3 = cview s /\ view s3 = <[t := set_t_state THREAD_READY th]> (view s) /\
       forall p r, procs s !! p = Some r -> exists st, procs s3 !! p = Some (set_p_state st r)).
  { intros s3 ->. split_and!; [by apply kept_only | by eexists | done..|]. intros p r Hp. rewrite O2. cbn.
    exists (p_state r). by destruct r. }
  case_if; wp_steps; [by apply Hstay|].
  destruct (ai_owner _ _ _ _ I2 t (set_t_state THREAD_READY th)) as (p & Hp & _); [by rewrite V2, lookup_insert_eq | done|].
  cbn in Hp. eapply wp_process_at; [done|]. case_bool_decide; wp_steps; [|by apply Hstay].
  eapply wp_on_process; [done|]. destruct (Hstay s2 eq_refl) as (K & _). split_and!; try done.
  - eapply kept_trans; [exact K|]. by eapply kept_process.
  - eexists. split_and!; [by apply (linked_ext s2) | by eapply ainv_proc | done].
  - intros q r Hq. destruct (Hstay s2 eq_refl) as (_ & _ & _ & _ & Hst). cbn.
    destruct (decide (owner th = q)) as [<-|]; [|rewrite lookup_insert_ne by done; by apply Hst].
    rewrite lookup_insert_eq. exists PROCESS_READY. rewrite O2 in Hp. cbn in Hp. congruence.
Qed.

(** What a signal does to the scheduler's state. *)
Definition killed s (id sig : Z) (l : list Z) (r : Z) s' : Prop :=
  if (sig <? 1) || (MAX_SIGNALS <? sig) then r = - EINVAL /\ s' = s else
  match by_pid (procs s) l (u32 id) with
  | None => r = - ESRCH /\ s' = s
  | Some p =>
      exists pr, procs s !! p = Some pr /\
        if bool_decide (p_state pr = PROCESS_ZOMBIE) then r = - EINVAL /\ s' = s else
        r = 0 /\ cview s' = cview s /\
        (exists pr', procs s' !! p = Some pr' /\
           pending_signals pr' = Z.lor (pending_signals pr) (u32 (Z.shiftl 1 (sig - 1)))) /\
        view s' = (if main_thread pr =? 0 then view s else alter roused (main_thread pr) (view s))
  end.

Lemma alive_ready s qs s' t th th' :
  sok s qs -> cview s' = cview s -> view s !! t = Some th -> view s' = <[t := th']> (view s) ->
  tid th' = tid th -> t_state th' <> THREAD_DEAD ->
  forall c k u, cview s' !! c = Some k -> view s' !! current_thread k = Some u -> tid u <> 0 ->
    t_state u <> THREAD_DEAD.
Proof.
  intros Hs C Ht V Et Hd c k u. rewrite C, V. intros Hk Hu Hz.
  apply lookup_insert_Some in Hu as [[_ <-]|[_ Hu]]; [done|]. by eapply (sk_alive _ _ Hs c k u).
Qed.

Lemma wp_sys_kill s qs c id sig l :
  sok s qs -> pseg (procs s) (g_process_list_head s) l -> NoDup l ->
  wp (sys_kill c id sig)
    (fun r s' => (exists qs', sok s' qs' /\ moves qs s' qs') /\ killed s id sig l r s') s.
Proof.
  intros Hs Hseg Hnd. pose proof (sk_inv _ _ Hs) as Hi. unfold sys_kill, killed.
  assert (Hstay : exists qs', sok s qs' /\ moves qs s qs') by (exists qs; split; [done|by apply (moves_refl s)]).
  case_if; wp_steps; [done|].
  eapply wp_mono; [by apply (wp_find_by_pid s _ l); [apply (sk_lock _ _ Hs)|..]|]. cbn beta. intros r s' [-> ->].
  destruct (by_pid (procs s) l (u32 id)) as [p|] eqn:Hb;
    [change (default 0 (Some p)) with p | change (default 0 None =? 0) with true; by wp_steps].
  apply by_pid_Some in Hb as (_ & pr & Hpr & _).
  assert (Hp0 : p <> 0) by (intros ->; by rewrite (proj2 (ai_null _ _ _ _ Hi)) in Hpr).
  rewrite (proj2 (Z.eqb_neq _ _) Hp0). wp_steps. eapply wp_process_at; [done|].
  case_bool_decide as Hzb; wp_steps.
  { split; [done|]. exists pr. by rewrite bool_decide_eq_true_2. }
  eapply wp_on_process; [done|]. set (pr1 := set_pending _ pr). set (s1 := set_procs _ s). wp_steps.
  assert (I1 : ainv (view s1) (cview s1) (procs s1) qs) by by eapply ainv_proc.
  assert (L1 : linked s1 qs) by (apply (linked_ext s); [done..|apply Hs]).
  assert (K1 : kept s s1) by by eapply kept_process.
  assert (S1 : sok s1 qs).
  { eapply sok_kept; try done. intros c' k th. apply (sk_alive _ _ Hs c' k th). }
  assert (P1 : procs s1 !! p = Some pr1) by (cbn; by rewrite lookup_insert_eq).
  assert (Hthis : forall s', s' = s1 ->
     (view s = if main_thread pr =? 0 then view s else alter roused (main_thread pr) (view s)) ->
     (exists qs', sok s' qs' /\ moves qs s' qs') /\ exists pr0, procs s !! p = Some pr0 /\
       if bool_decide (p_state pr0 = PROCESS_ZOMBIE) then 0 = - EINVAL /\ s' = s else
        0 = 0 /\ cview s' = cview s /\
        (exists pr', procs s' !! p = Some pr' /\
           pending_signals pr' = Z.lor (pending_signals pr0) (u32 (Z.shiftl 1 (sig - 1)))) /\
        view s' = (if main_thread pr0 =? 0 then view s else alter roused (main_thread pr0) (view s))).
  { intros ? -> Hv. split; [exists qs; split; [done|by apply (moves_refl s)]|]. exists pr.
    rewrite bool_decide_eq_false_2 by done. split_and!; try done. by exists pr1. }
  destruct (main_thread pr =? 0) eqn:Hm; wp_steps; [by apply Hthis|]. zbool.
  destruct (ai_main _ _ _ _ Hi p pr Hpr Hm) as (th & Hth & Hz).
  eapply wp_see_thread; [exact Hth|]. intros u ->. cbn in Hz.
  pose proof (alter_keep _ _ _ roused Hth) as Ha. unfold roused at 2 in Ha. cbn in Ha.
  destruct (bool_decide (t_state u = THREAD_READY) || bool_decide (t_state u = THREAD_RUNNING)) eqn:Hst.
  { wp_steps. apply Hthis; [done|]. by rewrite Ha, insert_id. }
  apply orb_false_iff in Hst as [Hr%bool_decide_eq_false_1 _]. wp_steps.
  eapply wp_mono; [by apply (wp_ready_thread s1 qs c (main_thread pr) (set_t_next 0 u))|]. cbn beta.
  intros _ s2 (K2 & (qs2 & L2 & I2 & Q2) & C2 & V2 & Hst). wp_steps. split.
  - exists qs2. split; [|by apply moves_app]. eapply (sok_kept s1 qs); try done.
    + rewrite V2. intros x Hx. by apply (is_Some_insert_old _ _ _ _ _ Hth) in Hx.
    + by eapply alive_ready.
  - exists pr. rewrite bool_decide_eq_false_2 by done. split_and!; try done.
    + destruct (Hst p pr1 P1) as (st & Hst'). by exists (set_p_state st pr1).
    + by rewrite V2, (proj2 (Z.eqb_neq _ _) Hm), Ha.
Qed.

(** ** Waiting for children *)

(** A child that [want] asks for. *)
Definition wanted (P : gmap Z process) (parent want p : Z) : bool :=
  match P !! p with
  | Some r => (ppid r =? parent) && ((want =? -1) || (pid r =? u32 want))
  | None => false
  end.
Definition is_zombie (P : gmap Z process) (p : Z) : bool :=
  match P !! p with Some r => bool_decide (p_state r = PROCESS_ZOMBIE) | None => false end.

(** The zombies and the others among the children asked for. *)
Definition zombies (P : gmap Z process) (parent want : Z) (l : list Z) : list Z :=
  List.filter (fun p => wanted P parent want p && is_zombie P p) l.
Definition living (P : gmap Z process) (parent want : Z) (l : list Z) : list Z :=
  List.filter (fun p => wanted P parent want p && negb (is_zombie P p)) l.

Lemma wp_scan_children fuel s parent want h l acc :
  pseg (procs s) h l -> (length l <= fuel)%nat ->
  wp (scan_children fuel parent want h acc)
    (fun r s' => s' = s /\ r = (default acc.1 (last (zombies (procs s) parent want l)),
                                acc.2 || negb (bool_decide (living (procs s) parent want l = [])))) s.
Proof.
  revert fuel h acc. induction l as [|p l IH]; intros fuel h acc Hs Hf.
  - cbn in Hs. subst h. destruct fuel, acc as [a []]; cbn; wp_steps; by split.
  - destruct Hs as (-> & Hp & r & Hr & Hs). cbn in Hf. destruct fuel as [|fuel]; [lia|].
    cbn [scan_children]. rewrite (proj2 (Z.eqb_neq _ _) Hp). wp_steps. eapply wp_process_at; [done|].
    eapply wp_mono; [apply IH; [done|lia]|]. cbn beta. intros x s' [-> ->]. split; [done|].
    assert (Hw : wanted (procs s) parent want p = (ppid r =? parent) && ((want =? -1) || (pid r =? u32 want))).
    { unfold wanted. by rewrite Hr. }
    assert (Hzo : is_zombie (procs s) p = bool_decide (p_state r = PROCESS_ZOMBIE)).
    { unfold is_zombie. by rewrite Hr. }
    unfold zombies, living. cbn [List.filter]. rewrite Hw, Hzo.
    destruct ((ppid r =? parent) && ((want =? -1) || (pid r =? u32 want))); cbn [andb]; [|done].
    case_bool_decide as Hz; cbn [negb fst snd].
    + f_equal. rewrite last_cons. by destruct (last _).
    + rewrite (bool_decide_eq_false_2 (p :: _ = [])) by done. by destruct acc as [a []].
Qed.

(** What a pass of [sys_waitpid] returns, before it goes to sleep. *)
Definition waited s (parent : process) (want : Z) (l : list Z) (r : unit + (Z * option Z)) s' : Prop :=
  match last (zombies (procs s) (pid parent) want l) with
  | Some p => exists ch, procs s !! p = Some ch /\
      r = inr (pid ch, Some (Z.shiftl (Z.land (p_exit_code ch) 0xFF) 8)) /\
      s' = set_procs (<[p := set_p_state PROCESS_DEAD ch]> (procs s)) s
  | None => s' = s /\ r = if bool_decide (living (procs s) (pid parent) want l = []) then inr (-1, None) else inl tt
  end.

Lemma wp_waitpid_check s qs c k th pr want l :
  sok s qs -> pseg (procs s) (g_process_list_head s) l -> NoDup l ->
  cview s !! c = Some k -> view s !! current_thread k = Some th -> procs s !! owner th = Some pr ->
  wp (waitpid_check c want) (fun r s' => sok s' qs /\ waited s pr want l r s') s.
Proof.
  intros Hs Hseg Hnd Hk Hth Hpr. pose proof (sk_inv _ _ Hs) as Hi. unfold waitpid_check, process_list_spinlock_acquire,
    process_list_spinlock_release, list_length. wp_steps.
  eapply wp_see_cpu; [done|]. intros h ->. wp_steps. eapply wp_see_thread; [done|]. intros u ->. cbn in Hpr.
  assert (Ho : owner u <> 0) by (intros E0; by rewrite E0, (proj2 (ai_null _ _ _ _ Hi)) in Hpr).
  rewrite (proj2 (Z.eqb_neq _ _) Ho). wp_steps. eapply wp_process_at; [done|]. wp_steps.
  rewrite (sk_lock _ _ Hs). wp_steps.
  eapply wp_mono; [apply (wp_scan_children _ _ _ _ _ l); [done|by eapply pseg_size]|]. cbn beta. intros x s' [-> ->].
  wp_steps. rewrite relock by apply (sk_lock _ _ Hs). cbn [fst snd orb procs set_list_lock]. unfold waited.
  set (zs := zombies _ _ _ _). destruct (last zs) as [p|] eqn:Hz.
  - apply last_Some_elem_of, list_elem_of_In, List.filter_In in Hz as [_ Hz]. apply andb_prop in Hz as [_ Hz].
    unfold is_zombie in Hz. destruct (procs s !! p) as [ch|] eqn:Hch; [|done].
    assert (Hp : p <> 0) by (intros ->; by rewrite (proj2 (ai_null _ _ _ _ Hi)) in Hch).
    change (default 0 (Some p)) with p. rewrite (proj2 (Z.eqb_neq _ _) Hp). cbn [negb]. wp_steps.
    eapply wp_process_at; [done|]. wp_steps. eapply wp_on_process; [done|]. wp_steps. split; [|by exists ch].
    eapply (sok_kept s qs); try done.
    + by eapply kept_process.
    + apply (linked_ext s); [done..|apply Hs].
    + by eapply ainv_proc.
    + intros c' k' th' Hk'. by apply (sk_alive _ _ Hs c' k' th').
  - change (default 0 None) with 0. cbn [negb Z.eqb]. rewrite negb_involutive.
    case_bool_decide; wp_steps; done.
Qed.

(** ** Events *)

Inductive event : Type :=
| Tick (c regs : Z)
| Yield (c regs : Z)
| Resched (c regs : Z)
| Wait (c ch lk : Z)
| Reap (c want : Z)
| Block (c : Z)
| Wakeup (ch : Z)
| WakeThread (ch t : Z)
| Exit (c code : Z)
| Kill (c id sig : Z)
| Create (c entry arg cpu : Z)
| Clone (c : Z) (fr : frame)
| Fork (c : Z) (fr : frame).

Definition do_event (e : event) : M (sched E) unit :=
  match e with
  | Tick c regs => _ <-- task_switch c regs ;; kret tt
  | Yield c regs => _ <-- scheduler_yield c regs ;; kret tt
  | Resched c regs => _ <-- schedule c regs ;; kret tt
  | Wait c ch lk => wait_mark c ch lk
  | Reap c want => _ <-- waitpid_check c want ;; kret tt
  | Block c => waitpid_block c
  | Wakeup ch => wakeup ch
  | WakeThread ch t => wakeup_thread ch t
  | Exit c code => _ <-- scheduler_exit ops c code ;; kret tt
  | Kill c id sig => _ <-- sys_kill c id sig ;; kret tt
  | Create c entry arg cpu => _ <-- thread_create c entry arg cpu ;; kret tt
  | Clone c fr => _ <-- clone ops c fr ;; kret tt
  | Fork c fr => _ <-- fork ops c fr ;; kret tt
  end.

(** The code that a thread runs on CPU [c]: the thread is running and is not
    the idle thread. *)
Definition runningb s (c : Z) : bool :=
  match cpus s !! c with
  | Some k => match threads s !! current_thread k with
              | Some th => negb (tid th =? 0) && bool_decide (t_state th = THREAD_RUNNING)
              | None => false
              end
  | None => false
  end.
Definition cpub s (c : Z) : bool := match cpus s !! c with Some _ => true | None => false end.

(** The clones that the invariant survives: those that bind the child to the
    caller's CPU, whose queue it is put in. *)
Definition clones_here s (c : Z) : bool :=
  runningb s c && (g_next_tid s <? 2 ^ 32 - 1) && bool_decide (fewest s = Some c).

(** When an entry point can be called; for [clone] also that it makes a process,
    for it and [fork] that the caller's CPU has the fewest threads. *)
Definition enabled s (e : event) : bool :=
  match e with
  | Tick c _ | Yield c _ | Resched c _ => cpub s c
  | Wait c _ _ | Reap c _ | Block c | Exit c _ => runningb s c
  | Wakeup _ | Kill _ _ _ => true
  | WakeThread _ t => (t =? 0) || match threads s !! t with Some th => negb (tid th =? 0) | None => false end
  | Create _ _ _ cpu => cpub s cpu && (g_next_tid s <? 2 ^ 32 - 1)
  | Clone c fr => (Z.land (u32 (r_rsi fr)) CLONE_VM =? 0) && clones_here s c
  | Fork c _ => clones_here s c
  end.

Inductive steps : sched E -> list event -> sched E -> Prop :=
| steps_nil s : steps s [] s
| steps_cons s e s1 es s2 :
    enabled s e = true -> do_event e s = Ok (tt, s1) -> steps s1 es s2 -> steps s (e :: es) s2.

Definition runs s (c t : Z) : Prop := exists k, cpus s !! c = Some k /\ current_thread k = t.

(** The run queue of a CPU, read off the links. *)
Fixpoint walk (fuel : nat) (T : gmap Z thread) (t : Z) : list Z :=
  match fuel with
  | O => []
  | Datatypes.S fuel' => match T !! t with Some th => t :: walk fuel' T (t_next th) | None => [] end
  end.
Definition queue s (c : Z) : list Z :=
  match cpus s !! c with Some k => walk (size (threads s)) (threads s) (ready_queue_head k) | None => [] end.

Lemma walk_qseg fuel T h l : T !! 0 = None -> qseg T h l -> (length l <= fuel)%nat -> walk fuel T h = l.
Proof.
  intros H0. revert fuel h. induction l as [|a l IH]; intros fuel h; cbn.
  - intros -> _. destruct fuel; cbn; [done|]. by rewrite H0.
  - intros (-> & Ha & t & Ht & Hs) Hf. destruct fuel as [|fuel]; [lia|]. cbn. rewrite Ht. f_equal. apply IH; [done|lia].
Qed.

Lemma qseg_size T h l : qseg T h l -> NoDup l -> (length l <= size T)%nat.
Proof.
  intros Hs Hnd. rewrite <- (size_list_to_set (C := gset Z) l Hnd), <- (size_dom (D := gset Z) T).
  apply subseteq_size. intros x Hx. apply elem_of_list_to_set in Hx. apply elem_of_dom. by apply (qseg_lookup T h l x).
Qed.

Lemma queue_linked s qs c : sok s qs -> queue s c = qs c.
Proof.
  intros Hs. unfold queue. pose proof (sk_linked _ _ Hs) as Hl. destruct (cpus s !! c) as [k|] eqn:Hk.
  - destruct (lk_seg _ _ Hl c k Hk) as [Hq _]. apply walk_qseg; [|done|by eapply qseg_size, (lk_nodup _ _ Hl)].
    destruct (ai_null _ _ _ _ (sk_inv _ _ Hs)) as [H0 _]. unfold view in H0. rewrite lookup_fmap in H0.
    by destruct (threads s !! 0).
  - symmetry. by apply (lk_cpu _ _ Hl).
Qed.

Lemma cpub_spec s c : cpub s c = true -> is_Some (cview s !! c).
Proof. unfold cpub, cview. rewrite lookup_fmap. destruct (cpus s !! c); [by eexists | done]. Qed.

Lemma runningb_spec s c : runningb s c = true -> running s c.
Proof.
  unfold runningb, running. destruct (cpus s !! c) as [k|] eqn:Hk; [|done].
  destruct (threads s !! current_thread k) as [th|] eqn:Hth; [|done].
  intros [Hz%negb_true_iff Hr%bool_decide_eq_true_1]%andb_prop. zbool. exists (set_ready 0 0 k), (set_t_next 0 th).
  unfold cview. rewrite lookup_fmap, Hk. split_and!; try done. by apply view_lookup.
Qed.

Lemma runs_view s c t : (exists k, cview s !! c = Some k /\ current_thread k = t) -> runs s c t.
Proof. intros (k & (h & Hh & ->)%cview_inv & Hc). by exists h. Qed.

(** A tick takes every thread of the CPU's queue one place nearer. *)
Definition ticked (c : Z) (qs : Z -> list Z) s' (qs' : Z -> list Z) : Prop :=
  forall i t, qs c !! i = Some t -> runs s' c t \/ exists j, (j < i)%nat /\ qs' c !! j = Some t.

Lemma ticked_switched s qs c s' qs' : switched s qs c s' qs' -> ticked c qs s' qs'.
Proof.
  intros (_ & _ & _ & _ & _ & k & k' & u & Hk & Hk' & _ & _ & _ & _ & _ & _ & Hq) i t Hi.
  apply (lookup_app_l_Some _ (parked (view s) (current_thread k))) in Hi.
  destruct (qs c ++ _) as [|x q]; [done|]. destruct Hq as [Hx Hq]. destruct i as [|i]; cbn in Hi.
  - left. apply runs_view. exists k'. split; [done|]. congruence.
  - right. exists i. rewrite Hq. split; [lia|done].
Qed.

(** On a machine with one processor every clone is bound to it. *)
Lemma wp_queue_length fuel s h l n :
  qseg (threads s) h l -> (length l <= fuel)%nat -> 0 <= n -> n + zlen l < 2 ^ 32 ->
  wp (queue_length fuel h n) (fun r s' => r = n + zlen l /\ s' = s) s.
Proof.
  unfold zlen. revert fuel h n. induction l as [|a l IH]; intros fuel h n Hs Hf Hn Hb.
  - cbn in Hs. subst h. destruct fuel; cbn; wp_steps; (split; [lia|done]).
  - destruct Hs as (-> & Ha & th & Hth & Hs). cbn [length] in *. destruct fuel as [|fuel]; [lia|]. cbn [queue_length].
    rewrite (proj2 (Z.eqb_neq _ _) Ha). wp_steps. eapply wp_thread_at; [done|]. rewrite u32_small by lia.
    eapply wp_mono; [apply IH; [done|lia..]|]. cbn beta. intros r s' [-> ->]. split; [lia|done].
Qed.

Lemma fewest_alone s qs c k :
  sok s qs -> cpus s = {[ c := k ]} -> Z.of_nat (size (threads s)) < 2 ^ 32 - 2 -> fewest s = Some c.
Proof.
  intros Hs Hc Hb. pose proof (sk_linked _ _ Hs) as Hl.
  assert (Hk : cpus s !! c = Some k) by by rewrite Hc, lookup_singleton_eq.
  destruct (ai_idle _ _ _ _ (sk_inv _ _ Hs) c (set_ready 0 0 k)) as [Hr _]; [unfold cview; by rewrite lookup_fmap, Hk|].
  destruct (lk_seg _ _ Hl c k Hk) as [Hq _]. pose proof (qseg_size _ _ _ Hq (lk_nodup _ _ Hl c)) as Hsz.
  assert (Hw : wp get_cpu_with_fewest_threads (fun r s' => r = Some c /\ s' = s) s).
  { unfold get_cpu_with_fewest_threads. wp_steps.
    apply (wp_loop (fun i (acc : Z * option Z) s' => s' = s /\ if i <=? c then acc = (4294967295, None) else acc.2 = Some c)).
    - by rewrite (proj2 (Z.leb_le _ _)) by lia.
    - intros i acc s' Hi [-> Ha]. unfold fewest_step. wp_steps. rewrite Hc. destruct (decide (i = c)) as [->|Hne].
      + rewrite lookup_singleton_eq, Z.leb_refl in *. wp_steps. eapply wp_mono; [apply (wp_queue_length _ s _ (qs c)); unfold zlen; done || lia|].
        cbn beta. intros n s' [-> ->]. wp_steps. subst acc. split; [done|]. rewrite (proj2 (Z.leb_gt _ _)) by lia. cbn [fst].
        unfold zlen. rewrite (proj2 (Z.ltb_lt _ _)); [done|]. case_if; [rewrite u32_small|]; lia.
      + rewrite lookup_singleton_ne by congruence. wp_steps. split; [done|]. destruct (Z.leb_spec i c), (Z.leb_spec (i + 1) c); done || lia.
    - intros acc s' [-> Ha]. wp_steps. change (0 + Z.of_nat (Z.to_nat MAX_CPUS)) with MAX_CPUS in Ha.
      rewrite (proj2 (Z.leb_gt _ _)) in Ha by lia. by split. }
  unfold fewest, get_cpu_id_with_fewest_threads, kbind. unfold wp in Hw.
  destruct (get_cpu_with_fewest_threads s) as [[r s']|]; [|done]. by destruct Hw as [-> ->].
Qed.

(** What every event does to the queues. *)
Definition good (qs : Z -> list Z) (e : event) s' : Prop :=
  exists qs', sok s' qs' /\ moves qs s' qs' /\ forall c regs, e = Tick c regs -> ticked c qs s' qs'.

Lemma good_intro qs e s' qs' :
  match e with Tick _ _ => False | _ => True end -> sok s' qs' -> moves qs s' qs' -> good qs e s'.
Proof. intros He Hs Hm. exists qs'. split_and!; [done..|]. intros c regs ->. done. Qed.

Lemma good_refl s qs e : match e with Tick _ _ => False | _ => True end -> sok s qs -> good qs e s.
Proof. intros He Hs. eapply good_intro; [done..|by apply (moves_refl s)]. Qed.

Lemma wp_schedule s qs c regs :
  sok s qs -> is_Some (cview s !! c) ->
  wp (schedule c regs) (fun _ s' => exists qs', sok s' qs' /\ moves qs s' qs') s.
Proof.
  intros Hs [k Hk]. unfold schedule. wp_steps. eapply wp_see_cpu; [done|]. intros h ->.
  case_if; wp_steps; [exists qs; split; [done|by apply (moves_refl s)]|].
  eapply wp_mono; [apply (wp_task_switch s qs c); [apply Hs | apply Hs | by eexists]|]. cbn beta.
  intros _ s' [qs' Hsw]. wp_steps. exists qs'. split; [by eapply sok_switched | by eapply moves_switched].
Qed.

Lemma wp_yield s qs c regs :
  sok s qs -> is_Some (cview s !! c) ->
  wp (scheduler_yield c regs) (fun _ s' => exists qs', sok s' qs' /\ moves qs s' qs') s.
Proof.
  intros Hs [k Hk]. unfold scheduler_yield. wp_steps. eapply wp_see_cpu; [done|]. intros h ->.
  destruct (ai_current _ _ _ _ (sk_inv _ _ Hs) c _ Hk) as (th & Hth & _).
  case_if; wp_steps; [exists qs; split; [done|by apply (moves_refl s)]|].
  eapply wp_see_thread; [done|]. intros u ->.
  case_if; wp_steps; [exists qs; split; [done|by apply (moves_refl s)]|]. apply wp_schedule; [done|by eexists].
Qed.

Lemma wp_waitpid_check_any s qs c want :
  sok s qs -> running s c -> wp (waitpid_check c want) (fun _ s' => sok s' qs) s.
Proof.
  intros Hs (k & th & Hk & Hth & _). pose proof (sk_inv _ _ Hs) as Hi. destruct (decide (owner th = 0)) as [Ho|Ho].
  - unfold waitpid_check. wp_steps. eapply wp_see_cpu; [done|]. intros h ->. wp_steps.
    eapply wp_see_thread; [done|]. intros u ->. cbn in Ho. rewrite Ho. cbn [Z.eqb]. by wp_steps.
  - destruct (ai_owner _ _ _ _ Hi _ _ Hth Ho) as (pr & Hpr & _). destruct (sk_list _ _ Hs) as (l & Hl & Hnd).
    eapply wp_mono; [by apply (wp_waitpid_check s qs c k th pr want l)|]. cbn beta. by intros r s' [? _].
Qed.

Lemma wp_clone_here s qs c fr :
  sok s qs -> clones_here s c = true -> Z.land (u32 (r_rsi fr)) CLONE_VM = 0 ->
  wp (clone ops c fr) (fun _ s' => exists qs', sok s' qs' /\ moves qs s' qs') s.
Proof.
  intros Hs [[Hr Ht]%andb_prop Hf%bool_decide_eq_true_1]%andb_prop Hv. zbool.
  destruct (runningb_spec s c Hr) as (k & th & Hk & Hth & _).
  eapply wp_mono; [by apply (wp_clone ops s qs c k th)|]. cbn beta. intros r s' (qs' & ? & ? & _). by exists qs'.
Qed.

Lemma wp_event s qs e : sok s qs -> enabled s e = true -> wp (do_event e) (fun _ s' => good qs e s') s.
Proof.
  intros Hs He. destruct (sk_list _ _ Hs) as (l & Hl & Hnd). destruct e; cbn [enabled do_event] in *.
  - wp_steps. eapply wp_mono; [apply (wp_task_switch s qs c); [apply Hs | apply Hs | by apply cpub_spec]|]. cbn beta.
    intros _ s' [qs' Hsw]. wp_steps. exists qs'.
    split_and!; [by eapply sok_switched | by eapply moves_switched|]. intros ? ? [= <- <-]. by eapply ticked_switched.
  - wp_steps. eapply wp_mono; [apply (wp_yield s qs); [done|by apply cpub_spec]|]. cbn beta. intros _ s' (qs' & ? & ?).
    wp_steps. by eapply good_intro.
  - wp_steps. eapply wp_mono; [apply (wp_schedule s qs); [done|by apply cpub_spec]|]. cbn beta.
    intros _ s' (qs' & ? & ?). wp_steps. by eapply good_intro.
  - eapply wp_mono; [by apply (wp_wait_mark s qs), runningb_spec|]. cbn beta. intros _ s' [? ?]. by eapply good_intro.
  - wp_steps. eapply wp_mono; [by apply (wp_waitpid_check_any s qs), runningb_spec|]. cbn beta. intros _ s' ?. wp_steps.
    by apply good_refl.
  - eapply wp_mono; [by apply (wp_waitpid_block s qs), runningb_spec|]. cbn beta. intros _ s' [? ?]. by eapply good_intro.
  - destruct (Z.eqb_spec ch 0) as [->|Hch]; [unfold wakeup; cbn [Z.eqb]; wp_steps; by apply good_refl|].
    eapply wp_mono; [by apply (wp_wakeup s qs ch l)|]. cbn beta. intros _ s' [(qs' & ? & ? & _) _]. by eapply good_intro.
  - eapply wp_mono; [apply (wp_wakeup_thread s qs); [done|]|].
    + intros Ht. rewrite (proj2 (Z.eqb_neq _ _) Ht) in He. cbn [orb] in He.
      destruct (threads s !! t) as [th|] eqn:Hth; [|done]. zbool. exists (set_t_next 0 th).
      split; [by apply view_lookup | done].
    + cbn beta. intros _ s' (qs' & ? & ?). by eapply good_intro.
  - destruct (runningb_spec s c He) as (k & th & Hk & Hth & Hz & Hr). wp_steps.
    eapply wp_mono; [by apply (wp_scheduler_exit ops s qs c k th _ l)|]. cbn beta. intros _ s' [(qs' & ? & ?) _]. wp_steps.
    by eapply good_intro.
  - wp_steps. eapply wp_mono; [by apply (wp_sys_kill s qs _ _ _ l)|]. cbn beta. intros _ s' [(qs' & ? & ?) _]. wp_steps.
    by eapply good_intro.
  - apply andb_prop in He as [He Hid]. zbool. wp_steps.
    eapply wp_mono; [by apply (wp_thread_create s qs); [|by apply cpub_spec|]|]. cbn beta.
    intros r s' (qs' & ? & ? & _). wp_steps. by eapply good_intro.
  - apply andb_prop in He as [Hv He]. zbool. wp_steps. eapply wp_mono; [by apply (wp_clone_here s qs)|]. cbn beta.
    intros r s' (qs' & ? & ?). wp_steps. by eapply good_intro.
  - wp_steps. eapply wp_mono; [by apply (wp_clone_here s qs)|]. cbn beta.
    intros r s' (qs' & ? & ?). wp_steps. by eapply good_intro.
Qed.

End steps.
