(* ===== verification/SchedThms.v ===== *)
(** * Properties of the scheduler

    The theorems over the runs of [SchedSteps], the process list as a list,
    the start of the scheduler, and concrete states on which they are used. *)

From Stdlib Require Import ZArith Lia.
From stdpp Require Import base tactics list gmap relations.
From S2P Require Import Prelude Sched SchedInv SchedRun SchedNew SchedSteps.

Section theorems.
Context {E : Type} (ops : env_ops E) `{!EnvTotal ops}.
Implicit Types (s : sched E).

(** ** Runs *)

Lemma steps_sok s es s' qs : sok s qs -> steps ops s es s' -> exists qs', sok s' qs'.
Proof.
  intros Hs Hst. revert qs Hs. induction Hst as [|s e s1 es s2 He Hd Hst IH]; intros qs Hs; [by exists qs|].
  pose proof (wp_event ops s qs e Hs He) as Hw. unfold wp in Hw. rewrite Hd in Hw. destruct Hw as (qs1 & Hs1 & _).
  by eapply IH.
Qed.

(** The timer ticks of CPU [c] in a run. *)
Fixpoint ticks (c : Z) (es : list event) : nat :=
  match es with
  | [] => 0
  | Tick c' _ :: es' => if c' =? c then S (ticks c es') else ticks c es'
  | _ :: es' => ticks c es'
  end.

Lemma ticks_cons c e es : (exists regs, e = Tick c regs) \/ ticks c (e :: es) = ticks c es.
Proof. destruct e as [c' regs| | | | | | | | | | | |]; auto. cbn. destruct (Z.eqb_spec c' c); [subst; left; by eexists | by right]. Qed.

(** C4: From a state that satisfies the invariant, every interleaving of timer
    ticks, yields, rescheduling, sleeping, wake-ups, exits, signals, waiting for
    children, thread creations, forks and clones keeps it, and none of these
    entry points faults when it can be called.  A fork or a clone can be called
    here when it makes a process (without [CLONE_VM]) and the caller's CPU is
    the one with the fewest threads, to which the child is bound; on a machine
    with one processor it always is.  The other clones break the invariant. *)
Theorem sched_run_safe s es s' qs :
  sok s qs -> steps ops s es s' ->
  (exists qs', sok s' qs') /\
  (forall e, enabled s' e = true -> exists s'', do_event ops e s' = Ok (tt, s'')) /\
  forall c k, cpus s' = {[ c := k ]} -> Z.of_nat (size (threads s')) < 2 ^ 32 - 2 ->
    clones_here s' c = runningb s' c && (g_next_tid s' <? 2 ^ 32 - 1).
Proof.
  intros Hs Hst. destruct (steps_sok s es s' qs Hs Hst) as [qs' Hs']. split_and!; [by exists qs'| |].
  - intros e He. pose proof (wp_event ops s' qs' e Hs' He) as Hw. apply wp_run in Hw as ([] & s'' & Hr & _). by exists s''.
  - intros c k Hc Hb. unfold clones_here. by rewrite (fewest_alone s' qs' c k), bool_decide_eq_true_2, andb_true_r.
Qed.

(** C15: In every state that a run of ticks, yields, sleeping, wake-ups, exits,
    signals, waiting, thread creations, and forks and clones that make a process
    on the caller's CPU reaches: no thread is current on two CPUs; a thread
    other than the idle threads is ready exactly when it stands in a run queue,
    which is the one of its CPU, and once; and a thread that is running is the
    current one of its CPU. *)
Theorem sched_exclusive s es s' qs :
  sok s qs -> steps ops s es s' ->
  (forall c1 c2 t, runs s' c1 t -> runs s' c2 t -> c1 = c2) /\
  (forall t th c, threads s' !! t = Some th -> tid th <> 0 ->
     t ∈ queue s' c <-> t_state th = THREAD_READY /\ cpu_id th = c) /\
  (forall c, NoDup (queue s' c)) /\
  (forall t th, threads s' !! t = Some th -> tid th <> 0 -> t_state th = THREAD_RUNNING -> runs s' (cpu_id th) t).
Proof.
  intros Hs Hst. destruct (steps_sok s es s' qs Hs Hst) as [q Hq]. pose proof (sk_inv _ _ Hq) as Hi. split_and!.
  - intros c1 c2 t (k1 & H1 & E1) (k2 & H2 & E2).
    destruct (ai_current _ _ _ _ Hi c1 (set_ready 0 0 k1)) as (u1 & Hu1 & Hc1 & _).
    { unfold cview. by rewrite lookup_fmap, H1. }
    destruct (ai_current _ _ _ _ Hi c2 (set_ready 0 0 k2)) as (u2 & Hu2 & Hc2 & _).
    { unfold cview. by rewrite lookup_fmap, H2. }
    cbn in Hu1, Hu2. rewrite E1 in Hu1. rewrite E2 in Hu2. congruence.
  - intros t th c Ht Hz. rewrite (queue_linked s' q) by done. apply view_lookup in Ht. split.
    + intros (u & Hu & Hr & _ & Hc)%(ai_ready _ _ _ _ Hi). rewrite Ht in Hu. by injection Hu as <-.
    + intros [Hr <-]. by apply (ai_queued _ _ _ _ Hi t (set_t_next 0 th)).
  - intros c. rewrite (queue_linked s' q) by done. apply (lk_nodup _ _ (sk_linked _ _ Hq)).
  - intros t th Ht Hz Hr. apply view_lookup in Ht.
    destruct (ai_running _ _ _ _ Hi t (set_t_next 0 th) Ht Hz Hr) as (k & Hk & Hc). apply runs_view. by exists k.
Qed.

(** C10: Round robin: a thread at position [i] of the run queue of CPU [c] becomes
    current there within [i + 1] ticks of that CPU, whatever happens in between
    of yields, sleeping, wake-ups, exits, signals, waiting, thread creations,
    and forks and clones that make a process on the caller's CPU. *)
Theorem round_robin s qs es s' c i t :
  sok s qs -> queue s c !! i = Some t -> steps ops s es s' -> (i < ticks c es)%nat ->
  exists es1 es2 s1, es = es1 ++ es2 /\ steps ops s es1 s1 /\ runs s1 c t.
Proof.
  intros Hs Hq Hst. rewrite (queue_linked s qs) in Hq by done. revert qs i Hs Hq.
  induction Hst as [|s e s1 es s2 He Hd Hst IH]; intros qs i Hs Hi Hn; [cbn in Hn; lia|].
  pose proof (wp_event ops s qs e Hs He) as Hw. unfold wp in Hw. rewrite Hd in Hw.
  destruct Hw as (qs1 & Hs1 & Hm & Htick).
  assert (Hstep : runs s1 c t \/ exists j, qs1 c !! j = Some t /\ (j < ticks c es)%nat).
  { destruct (ticks_cons c e es) as [[regs ->]|Et].
    - cbn in Hn. rewrite Z.eqb_refl in Hn.
      destruct (Htick _ _ eq_refl i t Hi) as [?|(j & Hj & Hjq)]; [by left|].
      right. exists j. split; [done|lia].
    - destruct (Hm c i t Hi) as [Hr|(j & Hj & Hjq)]; [left; by apply runs_view|].
      right. exists j. split; [done|lia]. }
  destruct Hstep as [Hr|(j & Hj & Hlt)].
  - exists [e], es, s1. split_and!; [done | | done]. eapply steps_cons; [done..|apply steps_nil].
  - destruct (IH qs1 j Hs1 Hj Hlt) as (es1 & es2 & s3 & -> & H3 & Hr). exists (e :: es1), es2, s3.
    split_and!; [done | by eapply steps_cons | done].
Qed.

(** ** Single entry points *)

(** The run queues behave as first-in first-out lists: [enqueue_thread] appends
    and [dequeue_thread] takes the head, and neither changes anything but
    links. *)
Theorem run_queue_fifo s qs c k :
  linked s qs -> cpus s !! c = Some k ->
  (forall t v, threads s !! t = Some v -> t <> 0 -> (forall c', t ∉ qs c') ->
     wp (enqueue_thread (Some c) t)
       (fun _ s' => linked s' (upd_q qs c (qs c ++ [t])) /\ same s s') s) /\
  wp (dequeue_thread c)
    (fun r s' => match qs c with
                 | [] => r = 0 /\ s' = s
                 | t :: q => r = t /\ t <> 0 /\ linked s' (upd_q qs c q) /\ same s s'
                 end) s.
Proof. intros Hl Hk. split; [|by eapply wp_dequeue]. intros t v Hv Ht Hf. by eapply wp_enqueue. Qed.

(** A task switch puts a running thread at the end of its queue and runs the
    head, or the idle thread if the queue is empty; the kernel stacks of the
    CPU are the new thread's and the address space is its process's.  Other
    CPUs keep their queues and their current threads. *)
Theorem task_switch_correct s qs c regs k :
  sok s qs -> cview s !! c = Some k ->
  wp (task_switch c regs)
    (fun _ s' => exists qs' k' u, sok s' qs' /\ cview s' !! c = Some k' /\
       view s' !! current_thread k' = Some u /\ t_state u = THREAD_RUNNING /\
       tss_rsp0 k' = kernel_stack_top u /\ c_kernel_stack_top k' = kernel_stack_top u /\
       (forall p, procs s !! owner u = Some p -> tid u <> 0 -> c_cr3 k' = p_cr3 p) /\
       match qs c ++ parked (view s) (current_thread k) with
       | [] => current_thread k' = idle_thread k /\ qs' c = []
       | x :: q => current_thread k' = x /\ qs' c = q
       end /\
       forall c', c' <> c -> qs' c' = qs c' /\ cview s' !! c' = cview s !! c') s.
Proof.
  intros Hs Hk. eapply wp_mono; [apply (wp_task_switch s qs c); [apply Hs | apply Hs | by exists k]|]. cbn beta.
  intros _ s' [qs' Hsw]. pose proof (sok_switched _ _ _ _ _ Hs Hsw) as Hs'.
  destruct Hsw as (_ & _ & _ & Hoth & _ & k0 & k' & u & Hk0 & Hk' & _ & Hu & Hr & H1 & H2 & H3 & Hq).
  rewrite Hk in Hk0. injection Hk0 as <-. exists qs', k', u. by split_and!.
Qed.

(** An exit leaves the thread dead with its code, its process a zombie with
    it, no parent asleep in [sys_waitpid], and the CPU with a running thread. *)
Theorem scheduler_exit_correct s qs c k th code l :
  sok s qs -> pseg (procs s) (g_process_list_head s) l -> NoDup l ->
  cview s !! c = Some k -> view s !! current_thread k = Some th -> tid th <> 0 -> t_state th = THREAD_RUNNING ->
  wp (scheduler_exit ops c code)
    (fun _ s' => (exists qs', sok s' qs') /\ procs s' = zombie code (procs s) (owner th) /\
       view s' !! current_thread k = Some (set_t_exit code (set_t_state THREAD_DEAD th)) /\
       (exists k' u, cview s' !! c = Some k' /\ view s' !! current_thread k' = Some u /\
          t_state u = THREAD_RUNNING) /\
       forall m u, parent_main (procs s) l (owner th) = Some m -> view s' !! m = Some u ->
         t_state u <> THREAD_BLOCKED) s.
Proof.
  intros. eapply wp_mono; [by apply (wp_scheduler_exit ops s qs c k th code l)|]. cbn beta.
  intros _ s' [(qs' & ? & _) ?]. split; [by exists qs' | done].
Qed.

(** [wakeup] makes ready exactly the main threads of listed processes that
    wait on the channel; queues only grow at their ends. *)
Theorem wakeup_correct s qs ch l :
  sok s qs -> pseg (procs s) (g_process_list_head s) l -> NoDup l -> ch <> 0 ->
  wp (wakeup ch)
    (fun _ s' => (exists qs', sok s' qs' /\ forall c, exists m, qs' c = qs c ++ m) /\
       procs s' = procs s /\ cview s' = cview s /\
       forall x, view s' !! x = (if main_of (procs s) l x then woken ch <$> view s !! x else view s !! x)) s.
Proof.
  intros. eapply wp_mono; [by apply (wp_wakeup s qs ch l)|]. cbn beta. intros _ s' [(qs' & ? & _ & ?) ?].
  split; [by exists qs' | done].
Qed.

(** C40: [sys_kill], on every branch: the error codes leave the state as it is, and
    success sets the bit of the signal and makes the main thread ready. *)
Theorem sys_kill_correct s qs c id sig l :
  sok s qs -> pseg (procs s) (g_process_list_head s) l -> NoDup l ->
  wp (sys_kill c id sig) (fun r s' => (exists qs', sok s' qs') /\ killed s id sig l r s') s.
Proof.
  intros. eapply wp_mono; [by apply (wp_sys_kill s qs c id sig l)|]. cbn beta. intros r s' [(qs' & ? & _) ?].
  split; [by exists qs' | done].
Qed.

(** A pass of [sys_waitpid] reaps the last zombie among the children asked for
    and encodes its exit code; without one it returns -1 if there is no other
    child, and goes on to sleep if there is. *)
Theorem sys_waitpid_correct s qs c k th pr want l :
  sok s qs -> pseg (procs s) (g_process_list_head s) l -> NoDup l ->
  cview s !! c = Some k -> view s !! current_thread k = Some th -> procs s !! owner th = Some pr ->
  wp (waitpid_check c want) (fun r s' => sok s' qs /\ waited s pr want l r s') s.
Proof. intros. by apply (wp_waitpid_check s qs c k th). Qed.

(** A kernel thread is created at a fresh address with the next identifier,
    ready at the end of the queue of its CPU, with a frame that starts it at
    its entry point; without memory nothing changes. *)
Theorem thread_create_correct s qs c entry arg cpu :
  sok s qs -> is_Some (cview s !! cpu) -> g_next_tid s < 2 ^ 32 - 1 ->
  wp (thread_create c entry arg cpu)
    (fun r s' => exists qs', sok s' qs' /\ procs s' = procs s /\ cview s' = cview s /\
       if r =? 0 then view s' = view s /\ g_next_tid s' = g_next_tid s else
       view s !! r = None /\ g_next_tid s' = g_next_tid s + 1 /\ qs' = upd_q qs cpu (qs cpu ++ [r]) /\
       exists th, view s' = <[r := th]> (view s) /\ tid th = g_next_tid s /\ t_state th = THREAD_READY /\
         cpu_id th = cpu /\ owner th = 0 /\
         frames s' !! context_frame th =
           Some (Frame (replicate 12 0) 0 0 arg 32 0 entry 0x8 0x202 (kernel_stack_top th) 0x10) /\
         context_frame th = kernel_stack_top th - FRAME_SIZE) s.
Proof.
  intros Hs Hk Ht. eapply wp_mono; [by apply (wp_thread_create s qs)|]. cbn beta.
  intros r s' (qs' & ? & _ & ?). exists qs'. done.
Qed.

(** A clone that makes a process, on the CPU with the fewest threads: the child
    is a copy with its own address space, the next process identifier, the
    caller as its parent and one thread, which stands at the end of the queue
    and returns 0 from the call where the caller returns; without memory the
    call answers -1 and leaves processes and threads as they are. *)
Theorem clone_correct s qs c k th fr :
  sok s qs -> cview s !! c = Some k -> view s !! current_thread k = Some th -> Z.land (u32 (r_rsi fr)) CLONE_VM = 0 ->
  fewest s = Some c -> g_next_tid s < 2 ^ 32 - 1 ->
  wp (clone ops c fr) (fun r s' => exists qs', sok s' qs' /\ cloned s qs c (owner th) fr r s' qs') s.
Proof. intros. eapply wp_mono; [by apply (wp_clone ops s qs c k th)|]. cbn beta. intros r s' (qs' & ? & _ & ?). by exists qs'. Qed.

(** ** The start of the scheduler *)

Lemma wp_thread_blocks_enough s (Q : option (Z * Z) -> sched E -> Prop) m :
  0 < s_brk s -> s_mem s = S (S m) ->
  Q (Some (s_brk s, s_brk s + 4096)) (set_alloc (s_brk s + 4096 + KERNEL_STACK_SIZE) m s) ->
  wp thread_blocks Q s.
Proof.
  intros Hb Em HQ. unfold thread_blocks, s_kmalloc. wp_steps. rewrite Em. wp_steps.
  cbn [s_mem set_alloc s_brk]. wp_steps. rewrite (proj2 (Z.eqb_neq _ _) (ltac:(lia) : s_brk s <> 0)).
  rewrite (proj2 (Z.eqb_neq _ _) (ltac:(lia) : s_brk s + 4096 <> 0)). cbn [orb]. by wp_steps.
Qed.

(** [scheduler_init] on the first CPU, with memory for the idle thread,
    establishes the invariant: the CPU runs its idle thread and its queue is
    empty. *)
Theorem scheduler_init_correct s c k m :
  cpus s = {[ c := k ]} -> 0 <= c < MAX_CPUS -> threads s = ∅ -> procs s = ∅ -> g_process_list_head s = 0 ->
  g_wait_lock s = false -> g_process_list_lock s = false -> 0 < s_brk s -> s_mem s = S (S m) ->
  0 < g_next_tid s < 2 ^ 32 ->
  wp (scheduler_init c)
    (fun _ s' => sok s' (fun _ => []) /\ exists k', cpus s' !! c = Some k' /\
       current_thread k' = s_brk s /\ idle_thread k' = s_brk s) s.
Proof.
  intros Hc Hr HT HP Hh Hw Hl Hb Hm Ht. unfold scheduler_init, thread_create_init, put_thread. wp_steps.
  eapply wp_on_cpu; [by rewrite Hc, lookup_singleton_eq|]. wp_steps.
  eapply wp_thread_blocks_enough; [done..|]. wp_steps. cbn [s_brk set_cpus].
  eapply wp_on_cpu; [cbn; by rewrite lookup_insert_eq|]. cbn [cpus set_cpus set_threads set_frames set_alloc].
  rewrite insert_insert_eq, Hc, insert_singleton_eq. set (k2 := Cpu _ _ _ _ _ _ _ _ _ _ _).
  match goal with |- sok ?x _ /\ _ => set (s2 := x) end.
  set (th := Thread 0 (s_brk s + 4096 + KERNEL_STACK_SIZE - FRAME_SIZE) (s_brk s + 4096 + KERNEL_STACK_SIZE)
    (s_brk s + 4096 + KERNEL_STACK_SIZE) THREAD_RUNNING c 0 0 0 0).
  assert (V : view s2 = {[ s_brk s := th ]}).
  { unfold view. cbn. rewrite HT, fmap_insert, fmap_empty. done. }
  assert (C : cview s2 = {[ c := k2 ]}).
  { unfold cview. cbn. by rewrite map_fmap_singleton. }
  split; [|exists k2; cbn; by rewrite lookup_singleton_eq].
  split; try done.
  - split; cbn; try done; [|intros ?; apply NoDup_nil_2 | by intros ? ? ? ?%elem_of_nil].
    intros c' k'. rewrite lookup_singleton_Some. by intros [<- <-].
  - rewrite V, C. change (procs s2) with (procs s). rewrite HP. split; try done.
    + by intros ? ? ?%elem_of_nil.
    + intros t u. rewrite lookup_singleton_Some. intros [<- <-]. cbn. by rewrite lookup_singleton_eq.
    + intros t u. rewrite lookup_singleton_Some. by intros [<- <-].
    + intros t u. rewrite lookup_singleton_Some. by intros [<- <-].
    + intros c' k'. rewrite lookup_singleton_Some. intros [<- <-]. exists th. cbn. by rewrite lookup_singleton_eq.
    + intros c' k'. rewrite lookup_singleton_Some. intros [<- <-]. split; [done|]. exists th. cbn.
      by rewrite lookup_singleton_eq.
    + split; [|done]. apply lookup_singleton_None. lia.
    + intros t u. rewrite lookup_singleton_Some. by intros [<- <-].
  - rewrite V, C. intros c' k' u. rewrite !lookup_singleton_Some. by intros [<- <-] [_ <-].
  - exists []. cbn. by split; [|apply NoDup_nil_2].
  - assert (Hbrk : s_brk s2 = s_brk s + 12288) by (cbn; unfold KERNEL_STACK_SIZE; lia). rewrite Hbrk. split; [lia|].
    intros t. rewrite V. intros [u [<- _]%lookup_singleton_Some]. lia.
  - change (procs s2) with (procs s). rewrite HP. by intros p [? ?].
Qed.

(** ** The process list *)

(** The node before [p], or the last one. *)
Lemma wp_find_before fuel s p x l :
  pseg (procs s) x (x :: l) -> (length l < fuel)%nat ->
  wp (find_before fuel p x)
    (fun r s' => s' = s /\ exists l1 l2, x :: l = l1 ++ r :: l2 /\ (p ∉ l1 ++ [r] \/ p = x) /\
       match l2 with [] => True | y :: _ => y = p end) s.
Proof.
  revert fuel x. induction l as [|y l IH]; intros fuel x (_ & Hx & r & Hr & Hs) Hf; destruct fuel as [|fuel];
    cbn in Hf; try lia; cbn [find_before]; wp_steps; eapply wp_process_at; try done.
  - cbn in Hs. rewrite Hs. cbn [Z.eqb negb andb]. wp_steps. split; [done|]. exists [], []. split_and!; [done| |done].
    destruct (decide (p = x)); [by right|]. left. cbn. by rewrite list_elem_of_singleton.
  - destruct Hs as (Ey & Hy & Hs). rewrite Ey, (proj2 (Z.eqb_neq _ _) Hy). cbn [negb andb].
    destruct (Z.eqb_spec y p) as [->|Hyp]; cbn [negb]; wp_steps.
    + split; [done|]. exists [], (p :: l). split_and!; [done| |done].
      destruct (decide (p = x)); [by right|]. left. cbn. by rewrite list_elem_of_singleton.
    + eapply wp_mono; [apply IH; [by split_and!|lia]|]. cbn beta. intros z s' (-> & l1 & l2 & -> & Hp & Hl2).
      split; [done|]. exists (x :: l1), l2. split_and!; [done| |done]. destruct (decide (p = x)); [by right|].
      left. destruct Hp as [Hp|Hp]; [|congruence]. cbn. rewrite not_elem_of_cons. done.
Qed.

Lemma pseg_suffix P h l1 x l2 r : pseg P h (l1 ++ x :: l2) -> P !! x = Some r -> pseg P (p_next r) l2.
Proof.
  intros Hs Hx. revert h Hs. induction l1 as [|a l1 IH]; intros h; cbn.
  - intros (_ & _ & r' & Hr' & Hs). rewrite Hx in Hr'. by injection Hr' as <-.
  - intros (_ & _ & r' & _ & Hs). by eapply IH.
Qed.

(** Taking the node after [x] out of the list. *)
Lemma pseg_cut P h l1 x p l2 r q :
  NoDup (l1 ++ x :: p :: l2) -> P !! x = Some r -> P !! p = Some q ->
  pseg P h (l1 ++ x :: p :: l2) -> pseg (<[x := set_p_next (p_next q) r]> P) h (l1 ++ x :: l2).
Proof.
  intros Hnd Hx Hp. revert h. induction l1 as [|a l1 IH]; intros h; cbn in *.
  - intros (-> & H0 & r' & Hr' & Hp0 & Hp' & q' & Hq' & Hs). split_and!; [done..|].
    eexists. rewrite lookup_insert_eq. split; [done|]. cbn. rewrite Hp in Hq'. injection Hq' as <-.
    apply NoDup_cons in Hnd as [Hn _]. apply not_elem_of_cons in Hn as [_ Hn]. by apply pseg_fresh.
  - apply NoDup_cons in Hnd as [Hn Hnd]. intros (-> & H0 & r' & Hr' & Hs). split_and!; [done..|].
    exists r'. rewrite lookup_insert_ne; [auto|]. intros ->. apply Hn. apply elem_of_app. right. by left.
Qed.

Lemma wp_list_insert s l p :
  g_process_list_lock s = false -> pseg (procs s) (g_process_list_head s) l -> p <> 0 -> is_Some (procs s !! p) ->
  p ∉ l -> wp (process_list_insert p)
     (fun _ s' => pseg (procs s') (g_process_list_head s') (p :: l) /\ g_process_list_lock s' = false) s.
Proof.
  intros Hlock Hs Hp [r Hr] Hin. unfold process_list_insert, process_list_spinlock_acquire, process_list_spinlock_release.
  rewrite (proj2 (Z.eqb_neq _ _) Hp). wp_steps. rewrite Hlock. wp_steps. eapply wp_on_process; [done|]. wp_steps.
  cbn. split_and!; try done. eexists. rewrite lookup_insert_eq. split; [done|]. by apply pseg_fresh.
Qed.

Lemma filter_keeps (l : list Z) p : p ∉ l -> filter (.≠ p) l = l.
Proof.
  induction l as [|a l IH]; [done|]. intros [Ha Hl]%not_elem_of_cons. rewrite filter_cons_True by done. by rewrite IH.
Qed.

Lemma filter_drop (l1 l2 : list Z) p : NoDup (l1 ++ p :: l2) -> filter (.≠ p) (l1 ++ p :: l2) = l1 ++ l2.
Proof.
  intros Hnd. apply NoDup_app in Hnd as (_ & Hd & Hnd). apply NoDup_cons in Hnd as [Hn _].
  rewrite filter_app, filter_cons_False by (intros H; by apply H). rewrite !filter_keeps; [done..|].
  intros Hx. apply (Hd p); [done|by left].
Qed.

Lemma wp_list_remove s l p :
  g_process_list_lock s = false -> pseg (procs s) (g_process_list_head s) l -> NoDup l -> p <> 0 ->
  wp (process_list_remove p)
     (fun _ s' => pseg (procs s') (g_process_list_head s') (filter (.≠ p) l) /\ g_process_list_lock s' = false) s.
Proof.
  intros Hlock Hs Hnd Hp. unfold process_list_remove, process_list_spinlock_acquire, process_list_spinlock_release,
    list_length. rewrite (proj2 (Z.eqb_neq _ _) Hp). wp_steps. destruct l as [|x l].
  { cbn in Hs. rewrite Hs. cbn [Z.eqb orb]. wp_steps. done. }
  pose proof (pseg_size _ _ _ Hs Hnd) as Hsz. pose proof Hs as (Ex & Hx & r & Hr & Hs').
  rewrite Ex in *. rewrite (proj2 (Z.eqb_neq _ _) Hx). cbn [orb]. wp_steps. rewrite Hlock. wp_steps.
  destruct (Z.eqb_spec x p) as [->|Hne]; wp_steps.
  - eapply wp_process_at; [done|]. wp_steps. split; [|done].
    pose proof (filter_drop [] l p Hnd) as Hd. cbn [app] in Hd. rewrite Hd. done.
  - eapply wp_mono; [apply (wp_find_before _ _ p x l); [done|cbn in Hsz |- *; lia]|]. cbn beta.
    intros y s' (-> & l1 & l2 & El & Hpn & Hl2). rewrite El in *.
    destruct Hpn as [Hpn|]; [|congruence].
    assert (Hy : is_Some (procs s !! y)) by (apply (pseg_lookup _ _ _ y Hs), elem_of_app; right; by left).
    destruct Hy as [ry Hry]. wp_steps. eapply wp_process_at; [done|]. wp_steps.
    pose proof (pseg_suffix _ _ _ _ _ _ Hs Hry) as Hn.
    destruct l2 as [|z l2].
    + cbn in Hn. rewrite Hn, (proj2 (Z.eqb_neq _ _) (not_eq_sym Hp)). wp_steps. split; [|done]. cbn.
      by rewrite filter_keeps, Ex.
    + subst z. destruct Hn as (-> & _ & rp & Hrp & _). rewrite Z.eqb_refl. wp_steps. eapply wp_process_at; [done|].
      wp_steps. eapply wp_on_process; [done|]. wp_steps. split; [|done]. cbn. rewrite Ex.
      replace (l1 ++ y :: p :: l2) with ((l1 ++ [y]) ++ p :: l2) in * by by rewrite <- app_assoc.
      rewrite filter_drop by done. rewrite <- app_assoc in Hs, Hnd |- *. cbn in Hs, Hnd |- *. by apply (pseg_cut _ _ l1 y p l2).
Qed.

(** The list of processes behaves as a list without repetitions:
    [process_list_insert] puts a process in front, [process_list_remove] takes
    it out wherever it stands, and [process_find_by_pid] returns the first
    process with the pid, or null. *)
Theorem process_list_refines s l p :
  g_process_list_lock s = false -> pseg (procs s) (g_process_list_head s) l -> NoDup l -> p <> 0 ->
  is_Some (procs s !! p) ->
  (p ∉ l -> wp (process_list_insert p)
     (fun _ s' => pseg (procs s') (g_process_list_head s') (p :: l) /\ g_process_list_lock s' = false) s) /\
  wp (process_list_remove p)
     (fun _ s' => pseg (procs s') (g_process_list_head s') (filter (.≠ p) l) /\ g_process_list_lock s' = false) s /\
  forall id, wp (process_find_by_pid id) (fun r s' => r = default 0 (by_pid (procs s) l id) /\ s' = s) s.
Proof.
  intros Hlock Hs Hnd Hp Hpr. split_and!; [| |intros id; by apply wp_find_by_pid].
  - intros Hin. by apply wp_list_insert.
  - by apply wp_list_remove.
Qed.

End theorems.
