(* ===== verification/SchedCheck.v ===== *)
(** * Concrete scheduler states

    A boolean test of the scheduler's invariant with its soundness, states with
    two CPUs and five processes on which the theorems are used, and the runs
    that show where the code departs from what it means to do. *)

From Stdlib Require Import ZArith Lia.
From stdpp Require Import base tactics list gmap relations.
From S2P Require Import Prelude Sched SchedInv SchedRun SchedNew SchedSteps SchedThms.

(** ** Testing the invariant *)

Definition all {A} (f : Z -> A -> bool) (m : gmap Z A) : bool :=
  forallb (fun kx => f kx.1 kx.2) (map_to_list m).

Lemma all_spec {A} (f : Z -> A -> bool) m k x : all f m = true -> m !! k = Some x -> f k x = true.
Proof.
  unfold all. rewrite forallb_forall. intros H Hk. apply (H (k, x)). apply list_elem_of_In. by apply elem_of_map_to_list.
Qed.

Section check.
Context {E : Type}.
Implicit Types (s : sched E).

Fixpoint qsegb (T : gmap Z thread) (h : Z) (l : list Z) : bool :=
  match l with
  | [] => h =? 0
  | a :: l' => (h =? a) && negb (a =? 0) && match T !! a with Some t => qsegb T (t_next t) l' | None => false end
  end.
Fixpoint psegb (P : gmap Z process) (h : Z) (l : list Z) : bool :=
  match l with
  | [] => h =? 0
  | a :: l' => (h =? a) && negb (a =? 0) && match P !! a with Some r => psegb P (p_next r) l' | None => false end
  end.

Lemma qsegb_spec T h l : qsegb T h l = true -> qseg T h l.
Proof.
  revert h. induction l as [|a l IH]; intros h; cbn; [by intros ?%Z.eqb_eq|].
  intros [[H1 H2]%andb_prop H3]%andb_prop. zbool. split_and!; [done..|]. destruct (T !! a) as [t|]; [|done].
  exists t. auto.
Qed.
Lemma psegb_spec P h l : psegb P h l = true -> pseg P h l.
Proof.
  revert h. induction l as [|a l IH]; intros h; cbn; [by intros ?%Z.eqb_eq|].
  intros [[H1 H2]%andb_prop H3]%andb_prop. zbool. split_and!; [done..|]. destruct (P !! a) as [t|]; [|done].
  exists t. auto.
Qed.

Definition at_thread s t (f : thread -> bool) : bool :=
  match threads s !! t with Some th => f th | None => false end.

(** The parts of the invariant about the CPU [c]. *)
Definition cpu_okb s (c : Z) (k : cpu) : bool :=
  (0 <=? c) && (c <? MAX_CPUS) &&
  qsegb (threads s) (ready_queue_head k) (queue s c) &&
  (ready_queue_tail k =? default 0 (last (queue s c))) &&
  bool_decide (NoDup (queue s c)) &&
  forallb (fun t => at_thread s t (fun th => bool_decide (t_state th = THREAD_READY) && negb (tid th =? 0) &&
                                    (cpu_id th =? c))) (queue s c) &&
  at_thread s (current_thread k) (fun th => (cpu_id th =? c) &&
    ((negb (tid th =? 0) && negb (bool_decide (t_state th = THREAD_DEAD)) &&
      match procs s !! owner th with Some p => c_cr3 k =? p_cr3 p | None => true end) ||
     ((tid th =? 0) && (current_thread k =? idle_thread k)))) &&
  at_thread s (idle_thread k) (fun th => (tid th =? 0) && (cpu_id th =? c)).

Definition thread_okb s (t : Z) (th : thread) : bool :=
  negb (t =? 0) && (t <? s_brk s) && cpub s (cpu_id th) &&
  ((tid th =? 0) || negb (bool_decide (t_state th = THREAD_READY)) || bool_decide (t ∈ queue s (cpu_id th))) &&
  ((tid th =? 0) || negb (bool_decide (t_state th = THREAD_RUNNING)) ||
   match cpus s !! cpu_id th with Some k => current_thread k =? t | None => false end) &&
  ((owner th =? 0) || match procs s !! owner th with Some p => negb (p_cr3 p =? 0) | None => false end).

Definition process_okb s (p : Z) (r : process) : bool :=
  negb (p =? 0) && (p <? s_brk s) && ((main_thread r =? 0) || at_thread s (main_thread r) (fun th => negb (tid th =? 0))).

(** [l] is the process list. *)
Definition sokb s (l : list Z) : bool :=
  all (cpu_okb s) (cpus s) && all (thread_okb s) (threads s) && all (process_okb s) (procs s) &&
  negb (g_wait_lock s) && negb (g_process_list_lock s) &&
  psegb (procs s) (g_process_list_head s) l && bool_decide (NoDup l) &&
  (0 <? s_brk s) && (0 <? g_next_tid s) && (g_next_tid s <? 2 ^ 32).

Ltac bools :=
  repeat match goal with
  | H : _ && _ = true |- _ => apply andb_prop in H as [? ?]
  | H : bool_decide _ = true |- _ => apply bool_decide_eq_true_1 in H
  end.

Lemma at_thread_view s t f : at_thread s t f = true -> exists u, view s !! t = Some (set_t_next 0 u) /\ f u = true.
Proof.
  unfold at_thread. destruct (threads s !! t) as [u|] eqn:Hu; [|done]. intros Hf. exists u.
  split; [by apply view_lookup | done].
Qed.

Lemma sokb_linked s l : sokb s l = true -> linked s (queue s).
Proof.
  unfold sokb. intros H. bools. 
  assert (Hc : forall c k, cpus s !! c = Some k -> cpu_okb s c k = true) by (intros c k Hk; by eapply all_spec).
  assert (Hin : forall c t, t ∈ queue s c -> exists u, threads s !! t = Some u /\ cpu_id u = c).
  { intros c t Ht. destruct (cpus s !! c) as [k|] eqn:Hk; [|unfold queue in Ht; rewrite Hk in Ht; by apply elem_of_nil in Ht].
    pose proof (Hc c k Hk) as Hck. unfold cpu_okb in Hck. bools.
    match goal with Hf : forallb _ (queue s c) = true |- _ => rewrite forallb_forall in Hf; specialize (Hf t) end.
    rewrite <- list_elem_of_In in *. match goal with Hf : _ -> at_thread _ _ _ = true |- _ => specialize (Hf Ht) end.
    unfold at_thread in *. destruct (threads s !! t) as [u|]; [|done]. bools. zbool. by exists u. }
  split.
  - intros c k Hk. pose proof (Hc c k Hk) as Hck. unfold cpu_okb in Hck. bools. zbool. split; [by apply qsegb_spec | done].
  - intros c. destruct (cpus s !! c) as [k|] eqn:Hk.
    + pose proof (Hc c k Hk) as Hck. unfold cpu_okb in Hck. bools. done.
    + unfold queue. rewrite Hk. apply NoDup_nil_2.
  - intros c c' t (u & Hu & Eu)%Hin (v & Hv & Ev)%Hin. congruence.
  - intros c Hk. unfold queue. by rewrite Hk.
Qed.

(** The three groups of checks, on the views. *)
Lemma sokb_cpu s l c k : sokb s l = true -> cview s !! c = Some k -> exists h, k = set_ready 0 0 h /\
  cpus s !! c = Some h /\ cpu_okb s c h = true.
Proof.
  intros H (h & Hh & ->)%cview_inv. exists h. split_and!; [done..|]. unfold sokb in H. bools. by eapply all_spec.
Qed.
Lemma sokb_thread s l t th : sokb s l = true -> view s !! t = Some th -> exists u, th = set_t_next 0 u /\
  threads s !! t = Some u /\ thread_okb s t u = true.
Proof.
  intros H (u & Hu & ->)%view_inv. exists u. split_and!; [done..|]. unfold sokb in H. bools. by eapply all_spec.
Qed.
Lemma sokb_process s l p r : sokb s l = true -> procs s !! p = Some r -> process_okb s p r = true.
Proof. intros H Hr. unfold sokb in H. bools. by eapply (all_spec (process_okb s)). Qed.

Lemma sokb_ready s l c t : sokb s l = true -> t ∈ queue s c ->
  exists th, view s !! t = Some th /\ t_state th = THREAD_READY /\ tid th <> 0 /\ cpu_id th = c.
Proof.
  intros H Ht. destruct (cpus s !! c) as [k|] eqn:Hk; [|unfold queue in Ht; rewrite Hk in Ht; by apply elem_of_nil in Ht].
  destruct (sokb_cpu s l c (set_ready 0 0 k) H) as (h & _ & Hh & Hok); [unfold cview; by rewrite lookup_fmap, Hk|].
  unfold cpu_okb in Hok. bools.
  match goal with Hf : forallb _ (queue s c) = true |- _ => rewrite forallb_forall in Hf; specialize (Hf t) end.
  rewrite <- list_elem_of_In in *. match goal with Hf : _ -> at_thread _ _ _ = true |- _ => specialize (Hf Ht) end.
  match goal with Hf : at_thread s t _ = true |- _ => destruct (at_thread_view _ _ _ Hf) as (u & Hu & ?) end.
  bools. zbool. by eexists.
Qed.

Lemma sokb_ainv s l : sokb s l = true -> ainv (view s) (cview s) (procs s) (queue s).
Proof.
  intros H. split.
  - intros c t Ht. by eapply sokb_ready.
  - intros t th Ht. destruct (sokb_thread s l t th H Ht) as (u & -> & Hu & Hok). unfold thread_okb in Hok. bools.
    by apply cpub_spec.
  - intros t th Ht Hz Hr. destruct (sokb_thread s l t th H Ht) as (u & -> & Hu & Hok). unfold thread_okb in Hok.
    cbn in Hz, Hr |- *. rewrite (proj2 (Z.eqb_neq _ _) Hz), (bool_decide_eq_true_2 (t_state u = THREAD_READY)) in Hok by done.
    cbn [orb negb] in Hok. by bools.
  - intros t th Ht Hz Hr. destruct (sokb_thread s l t th H Ht) as (u & -> & Hu & Hok). unfold thread_okb in Hok.
    cbn in Hz, Hr |- *. rewrite (proj2 (Z.eqb_neq _ _) Hz), (bool_decide_eq_true_2 (t_state u = THREAD_RUNNING)) in Hok by done.
    cbn [orb negb] in Hok. bools.
    destruct (cpus s !! cpu_id u) as [k|] eqn:Hk; [|done]. zbool. exists (set_ready 0 0 k). unfold cview.
    by rewrite lookup_fmap, Hk.
  - intros c k Hk. destruct (sokb_cpu s l c k H Hk) as (h & -> & Hh & Hok). unfold cpu_okb in Hok. bools.
    match goal with Hf : at_thread s (current_thread h) _ = true |- _ =>
      destruct (at_thread_view _ _ _ Hf) as (u & Hu & ?) end.
    bools. exists (set_t_next 0 u). split_and!; [done | by zbool|]. cbn. intros Hz. rewrite Hz in *. cbn in *. by zbool.
  - intros c k Hk. destruct (sokb_cpu s l c k H Hk) as (h & -> & Hh & Hok). unfold cpu_okb in Hok. bools.
    match goal with Hf : at_thread s (idle_thread h) _ = true |- _ =>
      destruct (at_thread_view _ _ _ Hf) as (u & Hu & ?) end.
    bools. zbool. split; [lia|]. by exists (set_t_next 0 u).
  - split.
    + destruct (view s !! 0) as [th|] eqn:Ht; [|done]. destruct (sokb_thread s l 0 th H Ht) as (u & _ & _ & Hok). done.
    + destruct (procs s !! 0) as [r|] eqn:Hr; [|done]. pose proof (sokb_process s l 0 r H Hr) as Hok. done.
  - intros t th Ht Ho. destruct (sokb_thread s l t th H Ht) as (u & -> & Hu & Hok). unfold thread_okb in Hok. cbn in *.
    rewrite (proj2 (Z.eqb_neq _ _) Ho) in Hok. bools. cbn in *. destruct (procs s !! owner u) as [p|]; [|done].
    zbool. by exists p.
  - intros c k th p Hk Hth Hz Hp. destruct (sokb_cpu s l c k H Hk) as (h & -> & Hh & Hok). unfold cpu_okb in Hok. bools.
    match goal with Hf : at_thread s (current_thread h) _ = true |- _ =>
      destruct (at_thread_view _ _ _ Hf) as (u & Hu & ?) end.
    cbn in Hth. rewrite Hu in Hth. injection Hth as <-. cbn in *. rewrite Hp, (proj2 (Z.eqb_neq _ _) Hz), orb_false_r in *.
    bools. by zbool.
  - intros p r Hr Hm. pose proof (sokb_process s l p r H Hr) as Hok. unfold process_okb in Hok.
    rewrite (proj2 (Z.eqb_neq _ _) Hm) in Hok. bools. cbn in *.
    match goal with Hf : at_thread s _ _ = true |- _ => destruct (at_thread_view _ _ _ Hf) as (u & Hu & ?) end.
    zbool. by eexists.
Qed.

Lemma sokb_sound s l : sokb s l = true -> sok s (queue s).
Proof.
  intros H. split; [by eapply sokb_linked | by eapply sokb_ainv |..].
  - intros c k th Hk Hth Hz. destruct (sokb_cpu s l c k H Hk) as (h & -> & Hh & Hok). unfold cpu_okb in Hok. bools.
    match goal with Hf : at_thread s (current_thread h) _ = true |- _ =>
      destruct (at_thread_view _ _ _ Hf) as (u & Hu & ?) end.
    cbn in Hth. rewrite Hu in Hth. injection Hth as <-. cbn in *. rewrite (proj2 (Z.eqb_neq _ _) Hz) in *. cbn in *.
    rewrite orb_false_r in *. bools. by case_bool_decide.
  - unfold sokb in H. bools. by zbool.
  - unfold sokb in H. bools. by zbool.
  - unfold sokb in H. bools. exists l. split; [by apply psegb_spec | done].
  - split; [unfold sokb in H; bools; by zbool|]. intros t [th Hth].
    destruct (sokb_thread s l t th H Hth) as (u & -> & Hu & Hok). unfold thread_okb in Hok. bools. by zbool.
  - unfold sokb in H. bools. zbool. lia.
  - intros p [r Hr]. pose proof (sokb_process s l p r H Hr) as Hok. unfold process_okb in Hok. bools. by zbool.
Qed.
End check.

(** ** Two CPUs and five processes *)

Definition idle_env : env_ops unit :=
  EnvOps (fun _ => kret tt) (fun _ => kret tt) (fun cr3 => kret (cr3 + 0x100000)) (fun _ _ => kret tt).

#[local] Instance idle_env_total : EnvTotal idle_env.
Proof. split; intros; by apply wp_ret. Qed.

Definition mk (id ctx : Z) (st : thread_state) (cpu ch own next : Z) : thread :=
  Thread id ctx (ctx + FRAME_SIZE) (ctx + FRAME_SIZE) st cpu ch 0 own next.

(** CPU 0 runs the thread of process 1 and has the one of process 2 in its
    queue; CPU 1 is idle; process 3 waits on channel 77, process 4, the parent
    of 1, in [sys_waitpid]; process 5 is a zombie child of 1. *)
Definition office : sched unit :=
  Sched
    (list_to_map [(0x100, mk 0 0x1000 THREAD_RUNNING 0 0 0 0); (0x200, mk 0 0x2000 THREAD_RUNNING 1 0 0 0);
                  (0x300, mk 1 0x3000 THREAD_RUNNING 0 0 10 0); (0x400, mk 2 0x4000 THREAD_READY 0 0 20 0);
                  (0x500, mk 3 0x5000 THREAD_WAITING 1 77 30 0); (0x600, mk 4 0x6000 THREAD_BLOCKED 1 0 40 0)])
    (list_to_map [(10, Process 1 4 PROCESS_RUNNING 0x10000 0x300 0 0 20);
                  (20, Process 2 1 PROCESS_READY 0x20000 0x400 0 0 30);
                  (30, Process 3 1 PROCESS_READY 0x30000 0x500 0 0 40);
                  (40, Process 4 0 PROCESS_READY 0x40000 0x600 0 0 50);
                  (50, Process 5 1 PROCESS_ZOMBIE 0x50000 0 3 0 0)])
    ∅
    (list_to_map [(0, Cpu 0x300 0x400 0x400 0 0 0x100 0 0 0 0x10000 false);
                  (1, Cpu 0x200 0 0 0 0 0x200 0 0 0 0 false)])
    10 false false ∅ 5 6 0x10000 8 tt.

Definition listing : list Z := [10; 20; 30; 40; 50].

Lemma office_ok : sok office (queue office).
Proof. apply (sokb_sound office listing). by vm_compute. Qed.
Lemma office_list : pseg (procs office) (g_process_list_head office) listing.
Proof. apply psegb_spec. by vm_compute. Qed.
Lemma listing_nodup : NoDup listing.
Proof. apply (bool_decide_unpack _). by vm_compute. Qed.

(** The state after a run of events, and the run. *)
Fixpoint run_events (es : list event) (s : sched unit) : option (sched unit) :=
  match es with
  | [] => Some s
  | e :: es' => if enabled s e then match do_event idle_env e s with
                                    | Ok (_, s1) => run_events es' s1
                                    | Stop _ => None
                                    end else None
  end.

Lemma run_events_steps es s s' : run_events es s = Some s' -> steps idle_env s es s'.
Proof.
  revert s. induction es as [|e es IH]; intros s; cbn; [intros [= <-]; constructor|].
  destruct (enabled s e) eqn:He; [|done]. destruct (do_event idle_env e s) as [[[] s1]|] eqn:Hd; [|done].
  intros Hr. eapply steps_cons; eauto.
Qed.

(** A frame of a caller in user space. *)
Definition caller : frame := Frame (replicate 12 0) 56 0 0 0x80 0 0x400000 0x2B 0x202 0x7000 0x23.

(** A day at the office: ticks, a wake-up, a fork, an exit that wakes the
    parent. *)
Definition day : list event :=
  [Tick 0 0x9000; Wakeup 77; Tick 1 0x9100; Fork 1 caller; Create 0 0x8000 7 1; Wait 1 88 0; Resched 1 0x9200; Tick 0 0x9300;
   Exit 0 (-3); Kill 0 3 9; Tick 1 0x9400; Reap 1 (-1)].
Definition evening : sched unit := Eval vm_compute in default office (run_events day office).
Lemma day_steps : steps idle_env office day evening.
Proof. apply run_events_steps. by vm_compute. Qed.

Lemma sched_run_safe_witness :
  (exists qs', sok evening qs') /\
  (forall e, enabled evening e = true -> exists s'', do_event idle_env e evening = Ok (tt, s'')).
Proof.
  destruct (sched_run_safe idle_env office day evening _ office_ok day_steps) as (H1 & H2 & _). by split.
Defined.

Lemma sched_exclusive_witness :
  NoDup (queue evening 0) /\ NoDup (queue evening 1).
Proof. split; apply (sched_exclusive idle_env office day evening _ office_ok day_steps). Defined.

Lemma round_robin_witness :
  exists es1 es2 s1, day = es1 ++ es2 /\ steps idle_env office es1 s1 /\ runs s1 0 0x400.
Proof.
  apply (round_robin idle_env office _ day evening 0 0 0x400 office_ok); [by vm_compute | exact day_steps|].
  apply Nat.ltb_lt. by vm_compute.
Defined.

Lemma run_queue_fifo_witness :
  wp (dequeue_thread 0)
    (fun r s' => match queue office 0 with
                 | [] => r = 0 /\ s' = office
                 | t :: q => r = t /\ t <> 0 /\ linked s' (upd_q (queue office) 0 q) /\ same office s'
                 end) office.
Proof.
  eapply (run_queue_fifo office (queue office) 0); [apply office_ok | by vm_compute].
Defined.

Definition cpu0 : cpu := Cpu 0x300 0 0 0 0 0x100 0 0 0 0x10000 false.
Definition cpu1 : cpu := Cpu 0x200 0 0 0 0 0x200 0 0 0 0 false.

Lemma task_switch_witness :
  wp (task_switch 0 0x9000) (fun _ s' => exists qs' k' u, sok s' qs' /\ cview s' !! 0 = Some k' /\
       view s' !! current_thread k' = Some u /\ t_state u = THREAD_RUNNING) office.
Proof.
  eapply wp_mono; [apply (task_switch_correct office _ 0 0x9000 cpu0 office_ok); by vm_compute|].
  cbn beta. intros _ s' (qs' & k' & u & ? & ? & ? & ? & _). by exists qs', k', u.
Defined.

Lemma scheduler_exit_witness :
  wp (scheduler_exit idle_env 0 7)
    (fun _ s' => forall u, view s' !! 0x600 = Some u -> t_state u <> THREAD_BLOCKED) office.
Proof.
  eapply wp_mono.
  { apply (scheduler_exit_correct idle_env office _ 0 cpu0 (mk 1 0x3000 THREAD_RUNNING 0 0 10 0) 7 listing office_ok
      office_list listing_nodup); by vm_compute. }
  cbn beta. intros _ s' (_ & _ & _ & _ & Hp) u Hu. by apply (Hp 0x600); [vm_compute|].
Defined.

Lemma wakeup_witness :
  wp (wakeup 77) (fun _ s' => procs s' = procs office /\
    view s' !! 0x500 = woken 77 <$> view office !! 0x500) office.
Proof.
  eapply wp_mono; [apply (wakeup_correct office _ 77 listing office_ok office_list listing_nodup); lia|].
  cbn beta. intros _ s' (_ & Hp & _ & Hv). split; [done|]. rewrite Hv. by vm_compute.
Defined.

Lemma sys_kill_witness :
  wp (sys_kill 0 3 9) (fun r s' => (exists qs', sok s' qs') /\ killed office 3 9 listing r s') office.
Proof. exact (sys_kill_correct office _ 0 3 9 listing office_ok office_list listing_nodup). Defined.

Lemma sys_waitpid_witness :
  wp (waitpid_check 0 (-1)) (fun r s' => r = inr (5, Some 0x300)) office.
Proof.
  eapply wp_mono.
  { apply (sys_waitpid_correct office _ 0 cpu0 (mk 1 0x3000 THREAD_RUNNING 0 0 10 0)
      (Process 1 4 PROCESS_RUNNING 0x10000 0x300 0 0 20) (-1) listing office_ok office_list listing_nodup); by vm_compute. }
  cbn beta. intros r s' [_ Hw]. unfold waited in Hw.
  change (last _) with (Some 50) in Hw. destruct Hw as (ch & Hch & -> & _). vm_compute in Hch. by injection Hch as <-.
Defined.

Lemma thread_create_witness :
  wp (thread_create 0 0x8000 7 1) (fun r s' => exists qs', sok s' qs') office.
Proof.
  eapply wp_mono; [apply (thread_create_correct office _ 0 0x8000 7 1 office_ok); [exists cpu1; by vm_compute | by vm_compute]|].
  cbn beta. intros r s' (qs' & ? & _). by exists qs'.
Defined.

(** CPU 1 is the one with the fewest threads, and its thread forks. *)
Definition awake : sched unit := Eval vm_compute in default office (run_events [Wakeup 77; Tick 1 0x9100] office).
Example fork_at_the_office :
  clones_here awake 1 = true /\
  match fork idle_env 1 caller awake with
  | Ok (r, s) => r = 6 /\ queue s 1 = [0x11000] /\ owner <$> threads s !! 0x11000 = Some 0x10000 /\
                 ppid <$> procs s !! 0x10000 = Some 3 /\ g_process_list_head s = 0x10000
  | Stop _ => False
  end.
Proof. by vm_compute. Qed.

(** The machine before the scheduler starts. *)
Definition bare : sched unit :=
  Sched ∅ ∅ ∅ {[ 0 := Cpu 0 0 0 0 0 0 0 0 0 0 false ]} 0 false false ∅ 1 1 0x10000 4 tt.

Lemma scheduler_init_witness : wp (scheduler_init 0) (fun _ s' => sok s' (fun _ => [])) bare.
Proof.
  eapply wp_mono; [apply (scheduler_init_correct bare 0 (Cpu 0 0 0 0 0 0 0 0 0 0 false) 2); by vm_compute|].
  cbn beta. by intros _ s' [? _].
Defined.

Lemma process_list_witness :
  wp (process_list_remove 30)
    (fun _ s' => pseg (procs s') (g_process_list_head s') (filter (.≠ 30) listing) /\ g_process_list_lock s' = false)
    office.
Proof.
  apply (process_list_refines office listing 30 eq_refl office_list listing_nodup); [lia | by eexists; vm_compute].
Defined.

(** ** Where the code departs from its intention *)

Definition after {A} (m : M (sched unit) A) (s : sched unit) : sched unit :=
  match m s with Ok (_, s') => s' | Stop _ => s end.
Definition caller_vm : frame := Frame (replicate 12 0) 56 CLONE_VM 0 0x80 0 0x400000 0x2B 0x202 0x7000 0x23.

(** A clone that shares memory inserts the caller's process, already in the
    list, a second time: its link then points to itself, and the next walk over
    the list never ends. *)
Lemma clone_vm_cycle :
  p_next <$> procs (after (clone idle_env 0 caller_vm) office) !! 10 = Some 10 /\
  wakeup 77 (after (clone idle_env 0 caller_vm) office) = Stop NoFuel.
Proof. by vm_compute. Qed.

(** The clone goes to the queue of the caller's CPU although it is bound to
    another: once it sleeps and is woken it is current on two CPUs. *)
Definition doubled : sched unit :=
  after (_ <-- fork idle_env 0 caller ;;
         do_event idle_env (Tick 0 0x9000) ;;; do_event idle_env (Tick 0 0x9100) ;;;
         do_event idle_env (Wait 0 77 0) ;;; do_event idle_env (Wakeup 77) ;;;
         do_event idle_env (Tick 1 0x9200)) office.
Lemma clone_on_two_cpus :
  exists t, current_thread <$> cpus doubled !! 0 = Some t /\ current_thread <$> cpus doubled !! 1 = Some t.
Proof. eexists. by vm_compute. Qed.

(** The last child exits between the scan of [sys_waitpid] and the sleep of the
    parent: the parent sleeps although its child is a zombie. *)
Definition family : sched unit :=
  Sched
    (list_to_map [(0x100, mk 0 0x1000 THREAD_RUNNING 0 0 0 0); (0x200, mk 0 0x2000 THREAD_RUNNING 1 0 0 0);
                  (0x300, mk 1 0x3000 THREAD_RUNNING 0 0 10 0); (0x400, mk 2 0x4000 THREAD_RUNNING 1 0 20 0)])
    (list_to_map [(10, Process 1 0 PROCESS_RUNNING 0x10000 0x300 0 0 20);
                  (20, Process 2 1 PROCESS_RUNNING 0x20000 0x400 0 0 0)])
    ∅
    (list_to_map [(0, Cpu 0x300 0 0 0 0 0x100 0 0 0 0x10000 false);
                  (1, Cpu 0x400 0 0 0 0 0x200 0 0x4000 0x4000 0x20000 false)])
    10 false false ∅ 3 3 0x10000 8 tt.
Lemma family_ok : sok family (queue family).
Proof. apply (sokb_sound family [10; 20]). by vm_compute. Qed.

Definition missed : sched unit :=
  after (do_event idle_env (Reap 0 (-1)) ;;; do_event idle_env (Exit 1 0) ;;; do_event idle_env (Block 0) ;;;
         do_event idle_env (Resched 0 0x9000)) family.
Lemma waitpid_misses_the_exit :
  t_state <$> threads missed !! 0x300 = Some THREAD_BLOCKED /\
  p_state <$> procs missed !! 20 = Some PROCESS_ZOMBIE /\ queue missed 0 = [].
Proof. by vm_compute. Qed.

(** A child that was reaped stays in the list and counts as alive: the next
    [sys_waitpid] sleeps instead of returning -1. *)
Definition reaped : sched unit :=
  after (do_event idle_env (Exit 1 0) ;;; do_event idle_env (Reap 0 (-1))) family.
Lemma waitpid_waits_for_reaped :
  p_state <$> procs reaped !! 20 = Some PROCESS_DEAD /\
  match waitpid_check 0 (-1) reaped with Ok (r, _) => r = inl tt | Stop _ => False end.
Proof. by vm_compute. Qed.

(** A signal to a reaped process brings its dead thread back to the queue. *)
Lemma kill_revives_the_dead :
  t_state <$> threads reaped !! 0x400 = Some THREAD_DEAD /\
  queue (after (sys_kill 0 2 9) reaped) 1 = [0x400].
Proof. by vm_compute. Qed.

(** After an exit the CPU keeps the kernel stack of the dead thread in its TSS. *)
Lemma exit_keeps_dead_stack :
  let s := after (do_event idle_env (Tick 0 0x9000) ;;; do_event idle_env (Exit 0 0)) office in
  exists k th, cpus s !! 0 = Some k /\ threads s !! current_thread k = Some th /\
    tss_rsp0 k <> kernel_stack_top th /\ tss_rsp0 k = 0x4000 + FRAME_SIZE.
Proof. eexists _, _. by vm_compute. Qed.
