(* ===== verification/Chains.v ===== *)
(** * Linked lists in a store

    A list whose nodes live in a map and point to each other by address, 0 at
    the end: the bound sockets, the queues of pending connections. *)

From Stdlib Require Import ZArith Lia.
From stdpp Require Import base tactics list gmap fin_maps fin_map_dom.
From S2P Require Import Prelude.

Section chains.
Context {A : Type}.
Implicit Types (T : gmap Z A) (nx : A -> Z) (l : list Z).

(** From [p] the links [nx] lead through [l] to 0. *)
Fixpoint chain (T : gmap Z A) (nx : A -> Z) (p : Z) (l : list Z) : Prop :=
  match l with
  | [] => p = 0
  | x :: l' => p = x /\ x <> 0 /\ exists k, T !! x = Some k /\ chain T nx (nx k) l'
  end.

Lemma chain_det T nx p l1 l2 : chain T nx p l1 -> chain T nx p l2 -> l1 = l2.
Proof.
  revert p l2. induction l1 as [|x l1 IH]; intros p [|y l2]; cbn.
  - done.
  - by intros -> (<- & ? & _).
  - by intros (-> & ? & _) ->.
  - intros (-> & _ & k & Hk & H1) (<- & _ & k' & Hk' & H2). assert (k' = k) as -> by congruence. f_equal. by eapply IH.
Qed.

Lemma chain_suffix T nx p l1 x l2 : chain T nx p (l1 ++ x :: l2) -> chain T nx x (x :: l2).
Proof.
  revert p. induction l1 as [|y l1 IH]; intros p; cbn.
  - by intros (-> & H).
  - intros (_ & _ & k & _ & H). by eapply IH.
Qed.

Lemma chain_nodup T nx p l : chain T nx p l -> NoDup l.
Proof.
  revert p. induction l as [|x l IH]; intros p H; [constructor|]. constructor.
  - intros (l1 & l2 & ->)%list_elem_of_split. pose proof H as H'. destruct H as (-> & _).
    assert (Hs := chain_suffix T nx x (x :: l1) x l2 H').
    pose proof (chain_det _ _ _ _ _ H' Hs) as E. apply (f_equal length) in E. cbn in E. rewrite length_app in E. cbn in E. lia.
  - destruct H as (_ & _ & k & _ & H). by eapply IH.
Qed.

Lemma chain_lookup T nx p l x : chain T nx p l -> x ∈ l -> x <> 0 /\ is_Some (T !! x).
Proof.
  revert p. induction l as [|y l IH]; intros p; [by intros _ ?%elem_of_nil|].
  intros (_ & H0 & k & Hk & H) [->|Hx]%elem_of_cons; [by rewrite Hk; eauto | by eapply IH].
Qed.

Lemma chain_size T nx p l : chain T nx p l -> (length l <= size T)%nat.
Proof.
  intros H. pose proof (chain_nodup _ _ _ _ H) as Hn. rewrite <- (size_dom (D := gset Z)).
  rewrite <- (size_list_to_set (C := gset Z) l) by done. apply subseteq_size. intros x Hx.
  apply elem_of_list_to_set in Hx. apply elem_of_dom. by eapply chain_lookup.
Qed.

(** An update that keeps the link. *)
Lemma chain_keep T nx p l x k k' :
  T !! x = Some k -> nx k' = nx k -> chain T nx p l -> chain (<[x := k']> T) nx p l.
Proof.
  intros Hx Hn. revert p. induction l as [|y l IH]; intros p; cbn; [done|]. intros (-> & H0 & j & Hj & H). split_and!; [done..|].
  destruct (decide (x = y)) as [->|].
  - exists k'. rewrite lookup_insert_eq. split; [done|]. assert (j = k) as -> by congruence. rewrite Hn. by apply IH.
  - exists j. rewrite lookup_insert_ne by done. auto.
Qed.
Lemma chain_other T nx p l x k : x ∉ l -> chain T nx p l -> chain (<[x := k]> T) nx p l.
Proof.
  revert p. induction l as [|y l IH]; intros p; cbn; [done|]. rewrite not_elem_of_cons.
  intros [Hy Hx] (-> & H0 & j & Hj & H). split_and!; [done..|]. exists j. rewrite lookup_insert_ne by done. auto.
Qed.
Lemma chain_delete T nx p l x : x ∉ l -> chain T nx p l -> chain (delete x T) nx p l.
Proof.
  revert p. induction l as [|y l IH]; intros p; cbn; [done|]. rewrite not_elem_of_cons.
  intros [Hy Hx] (-> & H0 & j & Hj & H). split_and!; [done..|]. exists j. rewrite lookup_delete_ne by done. auto.
Qed.

Lemma insert_as_alter (f : A -> A) c v (T : gmap Z A) : T !! c = Some v -> <[c := f v]> T = alter f c T.
Proof.
  intros Hv. apply map_eq. intros x. destruct (decide (c = x)) as [<-|].
  - by rewrite lookup_insert_eq, lookup_alter_eq, Hv.
  - by rewrite lookup_insert_ne, lookup_alter_ne.
Qed.

(** A chain depends on the links of its members only. *)
Lemma chain_ext T T' nx p l :
  (forall x k, x ∈ l -> T !! x = Some k -> exists k', T' !! x = Some k' /\ nx k' = nx k) -> chain T nx p l -> chain T' nx p l.
Proof.
  revert p. induction l as [|y l IH]; intros p H; cbn; [done|]. intros (-> & H0 & k & Hk & Hc). split_and!; [done..|].
  destruct (H y k) as (k' & Hk' & E); [by left|done|]. exists k'. split; [done|]. rewrite E. apply IH; [|done].
  intros x j Hx. apply H. by right.
Qed.

End chains.
