(* ===== verification/Bytes.v ===== *)
(** * Bytes and little-endian fields

    Loads and stores of the fields of packets and of the structures on a disk:
    a buffer is a list of bytes, and a load outside it stops. *)

From Stdlib Require Import ZArith Lia.
From stdpp Require Import base tactics list.
From S2P Require Import Prelude.

(** ** Fields *)

Definition le16 (x : Z) : list Z := [x mod 256; x / 256 mod 256].
Definition le32 (x : Z) : list Z := [x mod 256; x / 256 mod 256; x / 65536 mod 256; x / 16777216 mod 256].

(** Loads at a byte offset. *)
Definition ld8 {S} (bs : list Z) (i : Z) : M S Z := rd bs i.
Definition ld16 {S} (bs : list Z) (i : Z) : M S Z :=
  a <-- rd bs i ;; b <-- rd bs (i + 1) ;; kret (a + 256 * b).
Definition ld32 {S} (bs : list Z) (i : Z) : M S Z :=
  a <-- ld16 bs i ;; b <-- ld16 bs (i + 2) ;; kret (a + 65536 * b).

(** ** Lemmas on fields *)

Definition byte (b : Z) : Prop := 0 <= b < 256.

Lemma le16_bytes x : Forall byte (le16 x).
Proof. repeat constructor; apply Z.mod_pos_bound; lia. Qed.
Lemma le32_bytes x : Forall byte (le32 x).
Proof. repeat constructor; apply Z.mod_pos_bound; lia. Qed.

Lemma wp_ld8 {S} bs i a (Q : Z -> S -> Prop) s :
  0 <= i -> bs !! Z.to_nat i = Some a -> Q a s -> wp (ld8 bs i) Q s.
Proof. intros. unfold ld8. by eapply wp_rd. Qed.

(** The load of a field that was stored. *)
Lemma wp_ld16 {S} pre x post i (Q : Z -> S -> Prop) s :
  i = zlen pre -> 0 <= x < 2 ^ 16 -> Q x s -> wp (ld16 (pre ++ le16 x ++ post) i) Q s.
Proof.
  intros -> Hx HQ. unfold ld16, zlen. wp_steps.
  eapply wp_rd; [lia | rewrite lookup_app_r, Nat2Z.id, Nat.sub_diag by lia; reflexivity|]. wp_steps.
  eapply wp_rd; [lia | rewrite lookup_app_r by lia;
    replace (Z.to_nat (Z.of_nat (length pre) + 1) - length pre)%nat with 1%nat by lia; reflexivity|]. wp_steps.
  replace (x mod 256 + 256 * (x / 256 mod 256)) with x by zdiv_lia. done.
Qed.

Lemma le32_split x : 0 <= x < 2 ^ 32 -> le32 x = le16 (x mod 65536) ++ le16 (x / 65536).
Proof.
  intros Hx. unfold le32, le16. cbn [app].
  assert (x mod 65536 mod 256 = x mod 256) as -> by zdiv_lia.
  assert ((x mod 65536) / 256 mod 256 = x / 256 mod 256) as -> by zdiv_lia.
  assert (x / 65536 / 256 mod 256 = x / 16777216 mod 256) as -> by zdiv_lia. done.
Qed.

Lemma wp_ld32 {S} pre x post i (Q : Z -> S -> Prop) s :
  i = zlen pre -> 0 <= x < 2 ^ 32 -> Q x s -> wp (ld32 (pre ++ le32 x ++ post) i) Q s.
Proof.
  intros -> Hx HQ. unfold ld32. wp_steps. rewrite le32_split, <- app_assoc by done.
  apply wp_ld16; [done|zdiv_lia|]. wp_steps.
  rewrite app_assoc. apply wp_ld16; [unfold zlen; rewrite length_app; cbn; lia|zdiv_lia|]. wp_steps.
  replace (x mod 65536 + 65536 * (x / 65536)) with x by zdiv_lia. done.
Qed.

(** Fields that are there are read. *)
Lemma le16_join x : 0 <= x < 2 ^ 16 -> x mod 256 + 256 * (x / 256 mod 256) = x.
Proof. intros Hx. zdiv_lia. Qed.
Lemma le32_join x : 0 <= x < 2 ^ 32 ->
  x mod 256 + 256 * (x / 256 mod 256) + 65536 * (x / 65536 mod 256 + 256 * (x / 16777216 mod 256)) = x.
Proof. intros Hx. zdiv_lia. Qed.

Lemma rd_ok {S A} (l : list A) i a (s : S) : 0 <= i -> l !! Z.to_nat i = Some a -> rd l i s = Ok (a, s).
Proof. intros Hi Hl. unfold rd. by rewrite (proj2 (Z.ltb_ge i 0) Hi), Hl. Qed.

Lemma kbind_ok {S A B} (m : M S A) (k : A -> M S B) a s s' : m s = Ok (a, s') -> kbind m k s = k a s'.
Proof. unfold kbind. by intros ->. Qed.

(** The value of a field, where the bytes are there. *)
Definition get8 (bs : list Z) (i : nat) : Z := default 0 (bs !! i).
Definition get16 (bs : list Z) (i : nat) : Z := get8 bs i + 256 * get8 bs (i + 1).
Definition get32 (bs : list Z) (i : nat) : Z := get16 bs i + 65536 * get16 bs (i + 2).

Lemma rd8_ok {S} bs i (s : S) : 0 <= i < zlen bs -> rd bs i s = Ok (get8 bs (Z.to_nat i), s).
Proof.
  intros Hi. destruct (zlen_lookup bs i Hi) as [a Ha]. rewrite (rd_ok _ _ a) by (done || lia).
  unfold get8. by rewrite Ha.
Qed.
Lemma ld16_ok {S} bs i (s : S) : 0 <= i -> i + 2 <= zlen bs -> ld16 bs i s = Ok (get16 bs (Z.to_nat i), s).
Proof.
  intros Hi Hl. unfold ld16. erewrite kbind_ok by (apply rd8_ok; lia).
  erewrite kbind_ok by (apply rd8_ok; lia). unfold get16. by replace (Z.to_nat (i + 1)) with (Z.to_nat i + 1)%nat by lia.
Qed.
Lemma ld32_ok {S} bs i (s : S) : 0 <= i -> i + 4 <= zlen bs -> ld32 bs i s = Ok (get32 bs (Z.to_nat i), s).
Proof.
  intros Hi Hl. unfold ld32. erewrite kbind_ok by (apply ld16_ok; lia).
  erewrite kbind_ok by (apply ld16_ok; lia). unfold get32. by replace (Z.to_nat (i + 2)) with (Z.to_nat i + 2)%nat by lia.
Qed.

Lemma lor_add a b k : 0 <= k -> 0 <= a < 2 ^ k -> Z.lor a (b * 2 ^ k) = a + b * 2 ^ k.
Proof.
  intros Hk Ha. rewrite <- Z.shiftl_mul_pow2 by done. symmetry. apply Z.add_nocarry_lor.
  apply Z.bits_inj'. intros n Hn. rewrite Z.land_spec, Z.bits_0, Z.shiftl_spec by done.
  destruct (Z.lt_ge_cases n k).
  - rewrite (Z.testbit_neg_r b) by lia. apply andb_false_r.
  - replace (Z.testbit a n) with false; [done|]. symmetry. destruct (Z.eq_dec a 0) as [->|]; [apply Z.bits_0|].
    apply Z.bits_above_log2; [lia|]. apply Z.lt_le_trans with k; [|lia]. apply Z.log2_lt_pow2; lia.
Qed.

Lemma get16_app_r pre bs i : get16 (pre ++ bs) (length pre + i) = get16 bs i.
Proof.
  unfold get16, get8. rewrite <- Nat.add_assoc, !lookup_app_r by lia. by replace (length pre + i - length pre)%nat with i by lia;
    replace (length pre + (i + 1) - length pre)%nat with (i + 1)%nat by lia.
Qed.
Lemma get16_app_l bs post i : (i + 2 <= length bs)%nat -> get16 (bs ++ post) i = get16 bs i.
Proof. intros Hi. unfold get16, get8. by rewrite !lookup_app_l by lia. Qed.
Lemma get32_app_l bs post i : (i + 4 <= length bs)%nat -> get32 (bs ++ post) i = get32 bs i.
Proof. intros Hi. unfold get32. by rewrite !get16_app_l by lia. Qed.
Lemma get16_range bs i : Forall byte bs -> 0 <= get16 bs i < 2 ^ 16.
Proof.
  intros Hb. assert (H : forall j, byte (get8 bs j)).
  { intros j. unfold get8. destruct (bs !! j) eqn:E; [by eapply Forall_lookup_1 | done]. }
  pose proof (H i). pose proof (H (i + 1)%nat). unfold get16, byte in *. lia.
Qed.
Lemma get32_range bs i : Forall byte bs -> 0 <= get32 bs i < 2 ^ 32.
Proof. intros Hb. pose proof (get16_range bs i Hb). pose proof (get16_range bs (i + 2) Hb). unfold get32. lia. Qed.

(** ** Larger fields and stores *)

Definition ld64 {S} (bs : list Z) (i : Z) : M S Z :=
  a <-- ld32 bs i ;; b <-- ld32 bs (i + 4) ;; kret (a + 4294967296 * b).
Definition get64 (bs : list Z) (i : nat) : Z := get32 bs i + 4294967296 * get32 bs (i + 4).

(** The [n] bytes at [i]. *)
Definition field (n i : nat) (bs : list Z) : list Z := take n (drop i bs).

(** The buffer after [src] has been copied to [i]. *)
Definition put (i : nat) (src buf : list Z) : list Z := take i buf ++ src ++ drop (i + length src) buf.

Lemma put_length i src buf : (i + length src <= length buf)%nat -> length (put i src buf) = length buf.
Proof. intros H. unfold put. rewrite !length_app, length_take, length_drop. lia. Qed.
Lemma put_lookup i src buf j : (i + length src <= length buf)%nat ->
  put i src buf !! j = if decide (i <= j < i + length src)%nat then src !! (j - i)%nat else buf !! j.
Proof.
  intros H. unfold put. destruct (decide (j < i)%nat).
  - rewrite decide_False by lia. rewrite lookup_app_l by (rewrite length_take; lia). by rewrite lookup_take_lt by lia.
  - rewrite lookup_app_r by (rewrite length_take; lia). rewrite length_take, Nat.min_l by lia. case_decide.
    + by rewrite lookup_app_l by lia.
    + rewrite lookup_app_r by lia. rewrite lookup_drop. f_equal. lia.
Qed.
Lemma bytes_put i src buf : Forall byte buf -> Forall byte src -> Forall byte (put i src buf).
Proof. intros Hb Hs. unfold put. rewrite !Forall_app. split_and!; [by apply Forall_take|done|by apply Forall_drop]. Qed.

Lemma get16_put_other i src buf j :
  (i + length src <= length buf)%nat -> (j + 2 <= i \/ i + length src <= j)%nat -> get16 (put i src buf) j = get16 buf j.
Proof. intros H Hj. unfold get16, get8. by rewrite !put_lookup, !decide_False by lia. Qed.
Lemma get32_put_other i src buf j :
  (i + length src <= length buf)%nat -> (j + 4 <= i \/ i + length src <= j)%nat -> get32 (put i src buf) j = get32 buf j.
Proof. intros H Hj. unfold get32. by rewrite !get16_put_other by lia. Qed.
Lemma get16_put i x buf : (i + 2 <= length buf)%nat -> 0 <= x < 2 ^ 16 -> get16 (put i (le16 x) buf) i = x.
Proof.
  intros H Hx. unfold get16, get8. rewrite !put_lookup by (cbn; lia). rewrite !decide_True by (cbn; lia).
  replace (i - i)%nat with 0%nat by lia. replace (i + 1 - i)%nat with 1%nat by lia. cbn [lookup list_lookup le16 default]. apply (le16_join x Hx).
Qed.
Lemma get32_put i x buf : (i + 4 <= length buf)%nat -> 0 <= x < 2 ^ 32 -> get32 (put i (le32 x) buf) i = x.
Proof.
  intros H Hx. unfold get32, get16, get8. rewrite !put_lookup by (cbn; lia). rewrite !decide_True by (cbn; lia).
  replace (i - i)%nat with 0%nat by lia. replace (i + 1 - i)%nat with 1%nat by lia. replace (i + 2 - i)%nat with 2%nat by lia.
  replace (i + 2 + 1 - i)%nat with 3%nat by lia. cbn [lookup list_lookup le32 default]. apply (le32_join x Hx).
Qed.
Lemma get8_put i b buf : (i < length buf)%nat -> get8 (put i [b] buf) i = b.
Proof. intros H. unfold get8. rewrite put_lookup by (cbn; lia). rewrite decide_True by (cbn; lia). by replace (i - i)%nat with 0%nat by lia. Qed.
Lemma field_length n i bs : (i + n <= length bs)%nat -> length (field n i bs) = n.
Proof. intros H. unfold field. rewrite length_take, length_drop. lia. Qed.
Lemma field_lookup n i bs j : (j < n)%nat -> field n i bs !! j = bs !! (i + j)%nat.
Proof. intros H. unfold field. rewrite lookup_take_lt by done. apply lookup_drop. Qed.

(** Stores one behind the other, and a piece in two. *)
Lemma put_put i s1 s2 b : (i <= length b)%nat -> put (i + length s1) s2 (put i s1 b) = put i (s1 ++ s2) b.
Proof.
  intros H. unfold put. rewrite length_app.
  assert (E : length (take i b ++ s1) = (i + length s1)%nat) by (rewrite length_app, length_take; lia).
  rewrite (app_assoc (take i b) s1). rewrite take_app_length' by done. rewrite drop_app_ge by lia. rewrite drop_drop, E, <- !app_assoc.
  do 4 f_equal. lia.
Qed.
Lemma put_nil i b : put i [] b = b.
Proof. unfold put. cbn. rewrite Nat.add_0_r. apply take_drop. Qed.
Lemma field_join n m i b : field (n + m) i b = field n i b ++ field m (i + n) b.
Proof. unfold field. by rewrite <- take_take_drop, drop_drop. Qed.

(** A buffer cut into [n] pieces of [k] bytes. *)
Definition pieces (k n : nat) (b : list Z) : list (list Z) := (fun i => field k (k * i) b) <$> seq 0 n.
Lemma pieces_concat k n : forall b, length b = (k * n)%nat -> concat (pieces k n b) = b.
Proof.
  induction n as [|n IH]; intros b Hb; [by rewrite Nat.mul_0_r in Hb; destruct b|]. unfold pieces. cbn [seq fmap list_fmap concat]. rewrite <- seq_shift, <- list_fmap_compose.
  rewrite (list_fmap_ext (_ ∘ S) (fun i => field k (k * i) (drop k b))).
  - fold (pieces k n (drop k b)). rewrite IH by (rewrite length_drop; lia). unfold field. by rewrite Nat.mul_0_r, drop_0, take_drop.
  - intros i j _. cbn [compose]. unfold field. rewrite drop_drop. do 2 f_equal. lia.
Qed.
Lemma pieces_length k n b : length (pieces k n b) = n.
Proof. unfold pieces. by rewrite length_fmap, length_seq. Qed.
Lemma pieces_lookup k n b i : (i < n)%nat -> pieces k n b !! i = Some (field k (k * i) b).
Proof. intros H. unfold pieces. by rewrite list_lookup_fmap, lookup_seq_lt by done. Qed.

(** ** C strings *)

(** The bytes of a C string. *)
Fixpoint until_nul (s : list Z) : list Z :=
  match s with
  | [] => []
  | c :: s' => if c =? 0 then [] else c :: until_nul s'
  end.

Lemma until_nul_app name post : Forall (fun c => c <> 0) name -> until_nul (name ++ 0 :: post) = name.
Proof.
  induction 1 as [|c name Hc _ IH]; [done|]. cbn [app until_nul]. by rewrite (proj2 (Z.eqb_neq _ _)), IH.
Qed.
