(* ===== verification/Klib.v ===== *)
(** * The C library of the kernel: blocks of memory and strings

    [kernel/lib/string.c], [sse_memcpy.c] and [sse_memset.c].  Memory is one
    range of bytes at an address; the vector registers are eight lists of 32
    bytes, of which the SSE instructions use the first 16.  A string is the
    bytes up to a zero, and a routine that runs out of the range stops. *)

From Stdlib Require Import ZArith Lia.
From stdpp Require Import base tactics list.
From S2P Require Import Prelude Bytes.

Record machine : Type := Machine { m_base : Z; m_bytes : list Z; vregs : list (list Z) }.

Definition set_bytes (bs : list Z) (m : machine) : machine := Machine (m_base m) bs (vregs m).
Definition set_vregs (v : list (list Z)) (m : machine) : machine := Machine (m_base m) (m_bytes m) v.

(** ** Loads and stores *)

Definition load (a : Z) (n : nat) : M machine (list Z) :=
  m <-- kget ;;
  if (a <? m_base m) || (m_base m + zlen (m_bytes m) <? a + Z.of_nat n) then kstop OutOfBounds
  else kret (field n (Z.to_nat (a - m_base m)) (m_bytes m)).
Definition store (a : Z) (bs : list Z) : M machine unit :=
  m <-- kget ;;
  if (a <? m_base m) || (m_base m + zlen (m_bytes m) <? a + zlen bs) then kstop OutOfBounds
  else kput (set_bytes (put (Z.to_nat (a - m_base m)) bs (m_bytes m)) m).

Definition load1 (a : Z) : M machine Z := bs <-- load a 1 ;; kret (get8 bs 0).
Definition store1 (a c : Z) : M machine unit := store a [c].

(** A misaligned operand of an aligned instruction is a general protection
    fault, whose handler stops the machine. *)
Definition aligned (n a : Z) : M machine unit := if a mod n =? 0 then kret tt else kstop Halted.

Definition vreg (k : nat) : M machine (list Z) := m <-- kget ;; kopt OutOfBounds (vregs m !! k).
(** A 16-byte write to a register leaves its upper half, a 32-byte one does
    not. *)
Definition set_xmm (k : nat) (bs : list Z) : M machine unit :=
  r <-- vreg k ;; kmodify (fun m => set_vregs (<[k := bs ++ drop 16 r]> (vregs m)) m).
Definition set_ymm (k : nat) (bs : list Z) : M machine unit :=
  _ <-- vreg k ;; kmodify (fun m => set_vregs (<[k := bs]> (vregs m)) m).
Definition xmm (k : nat) : M machine (list Z) := r <-- vreg k ;; kret (take 16 r).
Definition ymm (k : nat) : M machine (list Z) := vreg k.

Definition movntdqa (k : nat) (a : Z) : M machine unit := aligned 16 a ;;; bs <-- load a 16 ;; set_xmm k bs.
Definition movntdq (k : nat) (a : Z) : M machine unit := aligned 16 a ;;; bs <-- xmm k ;; store a bs.
Definition vmovdqu_load (k : nat) (a : Z) : M machine unit := bs <-- load a 32 ;; set_ymm k bs.
Definition vmovdqu_store (k : nat) (a : Z) : M machine unit := bs <-- ymm k ;; store a bs.
Definition vmovntdq (k : nat) (a : Z) : M machine unit := aligned 32 a ;;; bs <-- ymm k ;; store a bs.

(** The instructions of one asm block over consecutive registers. *)
Definition eight (f : Z -> M machine unit) : M machine unit := for_ 8 0 f.

(** ** [string.c] *)

Definition memset (s val : Z) (count : Z) : M machine Z :=
  for_ (Z.to_nat count) 0 (fun i => store1 (s + i) (u8 val)) ;;; kret s.

Definition memcpy (s1 s2 n : Z) : M machine Z :=
  for_ (Z.to_nat n) 0 (fun i => c <-- load1 (s2 + i) ;; store1 (s1 + i) c) ;;; kret s1.

(** The scans for the end of a string take the size of memory as fuel. *)
Definition scan {A} (f : nat -> M machine A) : M machine A := m <-- kget ;; f (S (length (m_bytes m))).

Fixpoint strcpy_loop (fuel : nat) (p_dest p_src : Z) : M machine Z :=
  match fuel with
  | O => kstop NoFuel
  | S fuel' =>
      c <-- load1 p_src ;;
      if c =? 0 then kret p_dest
      else store1 p_dest c ;;; strcpy_loop fuel' (p_dest + 1) (p_src + 1)
  end.
Definition strcpy (dest src : Z) : M machine Z :=
  p_dest <-- scan (fun n => strcpy_loop n dest src) ;; store1 p_dest 0 ;;; kret dest.

Definition strncpy (dest src count : Z) : M machine Z :=
  for_ (Z.to_nat count) 0 (fun i => c <-- load1 (src + i) ;; store1 (dest + i) c) ;;;
  store1 (dest + count) 0 ;;; kret (s32 count).

Fixpoint strlen_loop (fuel : nat) (tmp : Z) : M machine Z :=
  match fuel with
  | O => kstop NoFuel
  | S fuel' => c <-- load1 tmp ;; if c =? 0 then kret tmp else strlen_loop fuel' (tmp + 1)
  end.
Definition strlen (s : Z) : M machine Z := tmp <-- scan (fun n => strlen_loop n s) ;; kret (tmp - s).

(** [char] is signed. *)
Definition s8 (x : Z) : Z := (x + 128) mod 256 - 128.

(** The test of the loop reads both characters and steps past them; the body
    reads the two that follow. *)
Fixpoint strcmp_loop (fuel : nat) (s1 s2 : Z) : M machine Z :=
  match fuel with
  | O => kstop NoFuel
  | S fuel' =>
      a <-- load1 s1 ;; b <-- load1 s2 ;;
      if a =? b then
        a' <-- load1 (s1 + 1) ;; b' <-- load1 (s2 + 1) ;;
        if (a' =? b') && (s8 a' + s8 b' =? 0) then kret 0 else strcmp_loop fuel' (s1 + 1) (s2 + 1)
      else kret (-1)
  end.
Definition strcmp (s1 s2 : Z) : M machine Z := scan (fun n => strcmp_loop n s1 s2).

Definition memcmp (s1 s2 n : Z) : M machine Z :=
  r <-- loop (Z.to_nat n) 0 (fun i (_ : unit) =>
    a <-- load1 (s1 + i) ;; b <-- load1 (s2 + i) ;;
    kret (if a =? b then inl tt else inr 1)) tt ;;
  kret (match r with inl _ => 0 | inr x => x end).

(** Null is 0. *)
Fixpoint strchr_loop (fuel : nat) (s c : Z) : M machine Z :=
  match fuel with
  | O => kstop NoFuel
  | S fuel' =>
      x <-- load1 s ;;
      if x =? u8 c then kret s else if x =? 0 then kret 0 else strchr_loop fuel' (s + 1) c
  end.
Definition strchr (s c : Z) : M machine Z := scan (fun n => strchr_loop n s c).

(** [n] is the distance from [s] to [p]. *)
Fixpoint strrchr_loop (n : nat) (s c : Z) : M machine Z :=
  x <-- load1 (s + Z.of_nat n) ;;
  if x =? u8 c then kret (s + Z.of_nat n)
  else match n with O => kret 0 | S n' => strrchr_loop n' s c end.
Definition strrchr (s c : Z) : M machine Z := n <-- strlen s ;; strrchr_loop (Z.to_nat n) s c.

(** ** [sse_memcpy.c] *)

(** [rep movsb] and [rep movsq]. *)
Definition small_memcpy (dst src n : Z) : M machine unit :=
  for_ (Z.to_nat n) 0 (fun i => c <-- load1 (src + i) ;; store1 (dst + i) c).
Definition rep_movsq (dst src n : Z) : M machine unit :=
  for_ (Z.to_nat n) 0 (fun i => q <-- load (src + 8 * i) 8 ;; store (dst + 8 * i) q).

(** The path for buffers without the alignment. *)
Definition unaligned_memcpy (dst src len : Z) : M machine unit :=
  let qwords := len / 8 in
  let bytes := len mod 8 in
  rep_movsq dst src qwords ;;;
  if bytes =? 0 then kret tt else small_memcpy (dst + 8 * qwords) (src + 8 * qwords) bytes.

Definition sse_memcpy (s1 s2 len : Z) : M machine Z :=
  if negb (s1 mod 16 =? 0) || negb (s2 mod 16 =? 0) then unaligned_memcpy s1 s2 len ;;; kret s1 else
  let blocks := len / 256 in
  for_ (Z.to_nat blocks) 0 (fun i =>
    let src := s2 + 256 * i in
    let dst := s1 + 256 * i in
    eight (fun k => movntdqa (Z.to_nat k) (src + 16 * k)) ;;;
    eight (fun k => movntdq (Z.to_nat k) (dst + 16 * k)) ;;;
    eight (fun k => movntdqa (Z.to_nat k) (src + 128 + 16 * k)) ;;;
    eight (fun k => movntdq (Z.to_nat k) (dst + 128 + 16 * k))) ;;;
  let dst := s1 + 256 * blocks in
  let src := s2 + 256 * blocks in
  let rem_blocks := len mod 256 / 16 in
  for_ (Z.to_nat rem_blocks) 0 (fun i => movntdqa 0 (src + 16 * i) ;;; movntdq 0 (dst + 16 * i)) ;;;
  (if len mod 16 =? 0 then kret tt
   else small_memcpy (dst + 16 * rem_blocks) (src + 16 * rem_blocks) (len mod 16)) ;;;
  kret s1.

Definition avx2_memcpy (s1 s2 len : Z) : M machine Z :=
  if negb (s1 mod 32 =? 0) || negb (s2 mod 32 =? 0) then unaligned_memcpy s1 s2 len ;;; kret s1 else
  let blocks := len / 256 in
  for_ (Z.to_nat blocks) 0 (fun i =>
    let src := s2 + 256 * i in
    let dst := s1 + 256 * i in
    eight (fun k => vmovdqu_load (Z.to_nat k) (src + 32 * k)) ;;;
    eight (fun k => vmovntdq (Z.to_nat k) (dst + 32 * k))) ;;;
  let dst := s1 + 256 * blocks in
  let src := s2 + 256 * blocks in
  let rem_blocks := len mod 256 / 32 in
  for_ (Z.to_nat rem_blocks) 0 (fun i => vmovdqu_load 0 (src + 32 * i) ;;; vmovdqu_store 0 (dst + 32 * i)) ;;;
  (if len mod 32 =? 0 then kret tt
   else small_memcpy (dst + 32 * rem_blocks) (src + 32 * rem_blocks) (len mod 32)) ;;;
  kret s1.

(** [avx2] is [g_cpu_has_avx2]. *)
Definition optimized_memcpy (avx2 : bool) (dst src bytes : Z) : M machine Z :=
  if (dst =? 0) || (src =? 0) || (bytes =? 0) then kret dst else
  if bytes <? 64 then
    for_ (Z.to_nat bytes) 0 (fun i => c <-- load1 (src + i) ;; store1 (dst + i) c) ;;; kret dst
  else if avx2 then avx2_memcpy dst src bytes else sse_memcpy dst src bytes.

(** ** [sse_memset.c] *)

(** The stores of single units up to an aligned address: what is left of the
    pointer and of the count. *)
Fixpoint align_fill (mask : Z) (u : list Z) (ptr : Z) (len : nat) : M machine (Z * nat) :=
  match len with
  | O => kret (ptr, O)
  | S len' =>
      if ptr mod mask =? 0 then kret (ptr, len)
      else store ptr u ;;; align_fill mask u (ptr + zlen u) len'
  end.

(** The remaining units, one by one. *)
Definition tail_fill (u : list Z) (ptr : Z) (n : Z) : M machine unit :=
  for_ (Z.to_nat n) 0 (fun i => store (ptr + zlen u * i) u).

(** The asm block that loads the pattern into register 0 and copies it to the
    seven others. *)
Definition spread_xmm (buffer : list Z) : M machine unit := eight (fun k => set_xmm (Z.to_nat k) buffer).
Definition spread_ymm (buffer : list Z) : M machine unit := eight (fun k => set_ymm (Z.to_nat k) buffer).

(** The four routines have one shape: [w] is the width of a register, [u] the
    unit (a byte or a word of four) and [per] the number of units in a register.
    The pattern is loaded when there is a block of eight registers to write. *)
Definition vector_fill (w : Z) (spread : list Z -> M machine unit) (st : nat -> Z -> M machine unit)
    (u : list Z) (per : Z) (dst count : Z) : M machine Z :=
  r <-- align_fill w u dst (Z.to_nat count) ;;
  let '(ptr, len) := r in
  let len := Z.of_nat len in
  let blocks := len / (8 * per) in
  (if 0 <? blocks then
     spread (concat (replicate (Z.to_nat per) u)) ;;;
     for_ (Z.to_nat blocks) 0 (fun i => eight (fun k => st (Z.to_nat k) (ptr + 8 * w * i + w * k)))
   else kret tt) ;;;
  let ptr := ptr + 8 * w * blocks in
  let rem_blocks := len mod (8 * per) / per in
  for_ (Z.to_nat rem_blocks) 0 (fun i => st O (ptr + w * i)) ;;;
  tail_fill u (ptr + w * rem_blocks) (len mod per) ;;;
  kret dst.

Definition sse_memset (dst value len : Z) : M machine Z :=
  vector_fill 16 spread_xmm movntdq [u8 value] 16 dst len.
Definition sse_memset_dword (dst value count : Z) : M machine Z :=
  vector_fill 16 spread_xmm movntdq (le32 value) 4 dst count.
Definition avx2_memset (dst value len : Z) : M machine Z :=
  vector_fill 32 spread_ymm vmovntdq [u8 value] 32 dst len.
Definition avx2_memset_dword (dst value count : Z) : M machine Z :=
  vector_fill 32 spread_ymm vmovntdq (le32 value) 8 dst count.

Definition optimized_memset (avx2 : bool) (dst value bytes : Z) : M machine Z :=
  if (dst =? 0) || (bytes =? 0) then kret dst else
  if bytes <? 64 then for_ (Z.to_nat bytes) 0 (fun i => store (dst + i) [u8 value]) ;;; kret dst
  else _ <-- (if avx2 then avx2_memset dst value bytes else sse_memset dst value bytes) ;; kret dst.

Definition optimized_memset_dword (avx2 : bool) (dst value count : Z) : M machine Z :=
  if (dst =? 0) || (count =? 0) then kret dst else
  if count <? 16 then for_ (Z.to_nat count) 0 (fun i => store (dst + 4 * i) (le32 value)) ;;; kret dst
  else if avx2 then avx2_memset_dword dst value count else sse_memset_dword dst value count.
