(* ===== verification/KlibThms.v ===== *)
(** * Correctness of the memory and string routines

    [moved] and [filled] say what a copy and a fill leave; both compose along
    the pieces a routine handles one after another.  The vector routines are
    equivalent to the plain ones under the conditions their callers meet. *)

From Stdlib Require Import ZArith Lia.
From stdpp Require Import base tactics list.
From S2P Require Import Prelude Bytes Klib.

(** ** Ranges *)

Definition in_range (m : machine) (a n : Z) : Prop := m_base m <= a /\ 0 <= n /\ a + n <= m_base m + zlen (m_bytes m).
Definition off (m : machine) (a : Z) : nat := Z.to_nat (a - m_base m).
Definition regs_ok (m : machine) : Prop := length (vregs m) = 8%nat /\ Forall (fun r => length r = 32%nat) (vregs m).

Lemma wp_load m a n (Q : list Z -> machine -> Prop) :
  in_range m a (Z.of_nat n) -> Q (field n (off m a) (m_bytes m)) m -> wp (load a n) Q m.
Proof.
  intros (H1 & _ & H2) HQ. unfold load. wp_steps. rewrite (proj2 (Z.ltb_ge _ _)), (proj2 (Z.ltb_ge _ _)) by lia.
  by wp_steps.
Qed.
Lemma wp_store m a bs (Q : unit -> machine -> Prop) :
  in_range m a (zlen bs) -> Q tt (set_bytes (put (off m a) bs (m_bytes m)) m) -> wp (store a bs) Q m.
Proof.
  intros (H1 & _ & H2) HQ. unfold store. wp_steps. rewrite (proj2 (Z.ltb_ge _ _)), (proj2 (Z.ltb_ge _ _)) by lia.
  by wp_steps.
Qed.
Lemma wp_load1 m a (Q : Z -> machine -> Prop) :
  in_range m a 1 -> Q (get8 (m_bytes m) (off m a)) m -> wp (load1 a) Q m.
Proof.
  intros Hr HQ. unfold load1. wp_steps. apply wp_load; [done|]. wp_steps. unfold get8 in *.
  by rewrite field_lookup, Nat.add_0_r by lia.
Qed.
Lemma wp_aligned m n a (Q : unit -> machine -> Prop) : a mod n = 0 -> Q tt m -> wp (aligned n a) Q m.
Proof. intros H HQ. unfold aligned. by rewrite H, Z.eqb_refl. Qed.

Lemma in_range_sub m a n b k : in_range m a n -> a <= b -> 0 <= k -> b + k <= a + n -> in_range m b k.
Proof. unfold in_range. lia. Qed.

Lemma field_0 i bs : field 0 i bs = [].
Proof. done. Qed.

(** ** Copies *)

(** A copy that goes forward is right when the ranges do not overlap, or when
    the destination comes first. *)
Definition forward (d s n : Z) : Prop := d <= s \/ s + n <= d.

Definition moved (m : machine) (d s n : Z) (m' : machine) : Prop :=
  m_base m' = m_base m /\ regs_ok m' /\
  m_bytes m' = put (off m d) (field (Z.to_nat n) (off m s) (m_bytes m)) (m_bytes m).

Lemma field_zlen m a n : in_range m a n -> length (field (Z.to_nat n) (off m a) (m_bytes m)) = Z.to_nat n.
Proof. intros (? & ? & ?). apply field_length. unfold off, zlen in *. lia. Qed.

Lemma moved_length m d s n m' : in_range m d n -> in_range m s n -> moved m d s n m' -> zlen (m_bytes m') = zlen (m_bytes m).
Proof.
  intros Hd Hs (_ & _ & ->). unfold zlen. rewrite put_length; [done|]. rewrite field_zlen by done.
  unfold in_range, off, zlen in *. lia.
Qed.
Lemma moved_range m d s n m' a k : in_range m d n -> in_range m s n -> moved m d s n m' -> in_range m a k -> in_range m' a k.
Proof.
  intros Hd Hs Hm Ha. pose proof (moved_length _ _ _ _ _ Hd Hs Hm). destruct Hm as (Hb & _). unfold in_range in *. by rewrite Hb, H.
Qed.

Lemma moved_0 m d s : regs_ok m -> moved m d s 0 m.
Proof. intros. split_and!; [done..|]. change (Z.to_nat 0) with 0%nat. by rewrite field_0, put_nil. Qed.

Lemma moved_trans m d s k c m1 m2 :
  in_range m d (k + c) -> in_range m s (k + c) -> 0 <= k -> 0 <= c -> forward d s (k + c) ->
  moved m d s k m1 -> moved m1 (d + k) (s + k) c m2 -> moved m d s (k + c) m2.
Proof.
  intros Hd Hs Hk Hc Hf H1 (B2 & R2 & E2).
  assert (HL : zlen (m_bytes m1) = zlen (m_bytes m)).
  { eapply moved_length; [| |exact H1]; unfold in_range in *; lia. }
  destruct H1 as (B1 & R1 & E1).
  pose proof (field_zlen m s k ltac:(unfold in_range in *; lia)) as Fk.
  split_and!; [congruence|done|]. rewrite E2. unfold off in *. rewrite B1.
  replace (Z.to_nat (k + c)) with (Z.to_nat k + Z.to_nat c)%nat by lia. rewrite field_join.
  destruct Hd as (Hd1 & _ & Hd2), Hs as (Hs1 & _ & Hs2). unfold zlen in *.
  replace (Z.to_nat (d + k - m_base m)) with (Z.to_nat (d - m_base m) + length (field (Z.to_nat k) (Z.to_nat (s - m_base m)) (m_bytes m)))%nat by lia.
  replace (Z.to_nat (s + k - m_base m)) with (Z.to_nat (s - m_base m) + Z.to_nat k)%nat by lia.
  rewrite E1 at 2. assert (Hfc : field (Z.to_nat c) (Z.to_nat (s - m_base m) + Z.to_nat k) (m_bytes m1) = field (Z.to_nat c) (Z.to_nat (s - m_base m) + Z.to_nat k) (m_bytes m)).
  { apply list_eq. intros j. destruct (decide (j < Z.to_nat c)%nat).
    - rewrite !field_lookup by done. rewrite E1, put_lookup by lia. rewrite decide_False; [done|]. unfold forward in Hf. lia.
    - rewrite !lookup_ge_None_2; [done| |]; rewrite field_length; lia. }
  rewrite Hfc. apply put_put. lia.
Qed.

(** The loop over [n] pieces of [c] bytes. *)
Lemma wp_move_loop n c d s body m (Q : unit -> machine -> Prop) :
  0 < c -> regs_ok m -> in_range m d (c * Z.of_nat n) -> in_range m s (c * Z.of_nat n) -> forward d s (c * Z.of_nat n) ->
  (forall j m1, 0 <= j < Z.of_nat n -> regs_ok m1 -> in_range m1 (d + c * j) c -> in_range m1 (s + c * j) c ->
    wp (body j) (fun _ m2 => moved m1 (d + c * j) (s + c * j) c m2) m1) ->
  (forall m', moved m d s (c * Z.of_nat n) m' -> Q tt m') -> wp (for_ n 0 body) Q m.
Proof.
  intros Hc Hr Hd Hs Hf Hbody HQ. apply (wp_for (fun j m1 => moved m d s (c * j) m1)).
  - rewrite Z.mul_0_r. by apply moved_0.
  - intros j m1 Hj Hm1.
    assert (Hd' : in_range m d (c * j)) by (unfold in_range in *; nia).
    assert (Hs' : in_range m s (c * j)) by (unfold in_range in *; nia).
    eapply wp_mono; [apply Hbody|].
    + lia.
    + by destruct Hm1 as (_ & ? & _).
    + eapply moved_range; [exact Hd'|exact Hs'|exact Hm1|]. unfold in_range in *. nia.
    + eapply moved_range; [exact Hd'|exact Hs'|exact Hm1|]. unfold in_range in *. nia.
    + intros [] m2 Hm2. cbn beta. replace (c * (j + 1)) with (c * j + c) by lia.
      eapply moved_trans; try exact Hm1; try exact Hm2; unfold in_range, forward in *; nia.
  - intros m' Hm'. apply HQ. by rewrite Z.add_0_l in Hm'.
Qed.

(** *** Single bytes and words of eight *)

Lemma wp_move1 m d s c : 0 < c -> regs_ok m -> in_range m d c -> in_range m s c ->
  wp (q <-- load s (Z.to_nat c) ;; store d q) (fun _ m' => moved m d s c m') m.
Proof.
  intros Hc Hr Hd Hs. wp_steps. apply wp_load; [unfold in_range in *; lia|]. apply wp_store.
  - unfold zlen at 1. rewrite field_zlen by done. unfold in_range in *. lia.
  - by split_and!.
Qed.
Lemma wp_move_byte m d s : regs_ok m -> in_range m d 1 -> in_range m s 1 ->
  wp (c <-- load1 s ;; store1 d c) (fun _ m' => moved m d s 1 m') m.
Proof.
  intros Hr Hd Hs. wp_steps. apply wp_load1; [done|]. unfold store1. apply wp_store; [done|]. split_and!; [done..|].
  f_equal. unfold field, get8. change (Z.to_nat 1) with 1%nat. destruct (drop (off m s) (m_bytes m)) as [|x l] eqn:E.
  - apply (f_equal length) in E. rewrite length_drop in E. cbn in E. unfold in_range, off, zlen in *. lia.
  - cbn [take]. replace (m_bytes m !! off m s) with (Some x); [done|]. rewrite <- (Nat.add_0_r (off m s)), <- lookup_drop, E. done.
Qed.

Lemma wp_move_bytes n d s m (Q : unit -> machine -> Prop) :
  0 <= n -> regs_ok m -> in_range m d n -> in_range m s n -> forward d s n ->
  (forall m', moved m d s n m' -> Q tt m') ->
  wp (for_ (Z.to_nat n) 0 (fun i => c <-- load1 (s + i) ;; store1 (d + i) c)) Q m.
Proof.
  intros Hn Hr Hd Hs Hf HQ. apply (wp_move_loop _ 1 d s); rewrite ?Z2Nat.id, ?Z.mul_1_l by lia; try done.
  intros j m1 Hj Hr1 Hd1 Hs1. rewrite !Z.mul_1_l in *. by apply wp_move_byte.
Qed.

Lemma wp_small_memcpy n d s m (Q : unit -> machine -> Prop) :
  0 <= n -> regs_ok m -> in_range m d n -> in_range m s n -> forward d s n ->
  (forall m', moved m d s n m' -> Q tt m') -> wp (small_memcpy d s n) Q m.
Proof. apply wp_move_bytes. Qed.

(** The remainder after a copy of [k] bytes. *)
Lemma moved_then m d s k c m1 (P : M machine unit) (Q : unit -> machine -> Prop) :
  in_range m d (k + c) -> in_range m s (k + c) -> 0 <= k -> 0 <= c -> forward d s (k + c) -> moved m d s k m1 ->
  (regs_ok m1 -> in_range m1 (d + k) c -> in_range m1 (s + k) c -> forward (d + k) (s + k) c ->
    wp P (fun _ m2 => moved m1 (d + k) (s + k) c m2) m1) ->
  (forall m2, moved m d s (k + c) m2 -> Q tt m2) -> wp P Q m1.
Proof.
  intros Hd Hs Hk Hc Hf Hm HP HQ.
  assert (Hd' : in_range m d k) by (unfold in_range in *; lia). assert (Hs' : in_range m s k) by (unfold in_range in *; lia).
  eapply wp_mono; [apply HP|].
  - by destruct Hm as (_ & ? & _).
  - eapply moved_range; [exact Hd'|exact Hs'|exact Hm|]. unfold in_range in *. lia.
  - eapply moved_range; [exact Hd'|exact Hs'|exact Hm|]. unfold in_range in *. lia.
  - unfold forward in *. lia.
  - intros [] m2 H2. apply HQ. by eapply moved_trans.
Qed.

Lemma wp_unaligned_memcpy n d s m (Q : unit -> machine -> Prop) :
  0 <= n -> regs_ok m -> in_range m d n -> in_range m s n -> forward d s n ->
  (forall m', moved m d s n m' -> Q tt m') -> wp (unaligned_memcpy d s n) Q m.
Proof.
  intros Hn Hr Hd Hs Hf HQ. unfold unaligned_memcpy, rep_movsq. wp_steps.
  assert (Hdiv : 0 <= 8 * (n / 8) <= n /\ n = 8 * (n / 8) + n mod 8 /\ 0 <= n mod 8 < 8) by zdiv_lia.
  destruct Hdiv as (H1 & H2 & H3).
  apply (wp_move_loop _ 8 d s); rewrite ?Z2Nat.id by zdiv_lia; try done; try (unfold in_range, forward in *; lia).
  { intros j m1 Hj Hr1 Hd1 Hs1. by apply (wp_move1 m1 (d + 8 * j) (s + 8 * j) 8). }
  intros m1 Hm1. case_if; [apply wp_ret, HQ; by rewrite H2, E, Z.add_0_r|].
  eapply (moved_then m d s (8 * (n / 8)) (n mod 8)); [unfold in_range, forward in *; lia.. | exact Hm1 | |].
  - intros. apply wp_small_memcpy; by try lia.
  - intros m2. rewrite <- H2. apply HQ.
Qed.

(** *** Vector registers *)

Definition reg (m : machine) (k : Z) : list Z := default [] (vregs m !! Z.to_nat k).

Lemma regs_at m k : regs_ok m -> 0 <= k < 8 -> vregs m !! Z.to_nat k = Some (reg m k) /\ length (reg m k) = 32%nat.
Proof.
  intros [Hl Hf] Hk. destruct (lookup_lt_is_Some_2 (vregs m) (Z.to_nat k) ltac:(lia)) as [r Hr]. unfold reg. rewrite Hr.
  split; [done|]. by eapply (Forall_lookup_1 _ _ _ _ Hf Hr).
Qed.
Lemma regs_insert m k r : regs_ok m -> length r = 32%nat -> regs_ok (set_vregs (<[k := r]> (vregs m)) m).
Proof. intros [Hl Hf] Hr. split; cbn; [by rewrite length_insert | by apply Forall_insert]. Qed.

Lemma wp_vreg m k (Q : list Z -> machine -> Prop) : regs_ok m -> 0 <= k < 8 -> Q (reg m k) m -> wp (vreg (Z.to_nat k)) Q m.
Proof. intros Hr Hk HQ. unfold vreg. wp_steps. destruct (regs_at m k Hr Hk) as [E _]. by eapply wp_opt. Qed.

(** A register after the load of [w] bytes: its first bytes are the memory's,
    the other registers and memory are as before. *)
Definition loaded (w : Z) (m : machine) (k : Z) (bs : list Z) (m' : machine) : Prop :=
  m_base m' = m_base m /\ m_bytes m' = m_bytes m /\ regs_ok m' /\ take (Z.to_nat w) (reg m' k) = bs /\
  forall i, 0 <= i -> i <> k -> reg m' i = reg m i.

Lemma wp_set_xmm m k bs : regs_ok m -> 0 <= k < 8 -> length bs = 16%nat ->
  wp (set_xmm (Z.to_nat k) bs) (fun _ m' => loaded 16 m k bs m') m.
Proof.
  intros Hr Hk Hb. unfold set_xmm. wp_steps. apply wp_vreg; [done..|]. wp_steps.
  destruct (regs_at m k Hr Hk) as [E El]. split_and!; [done..| | |].
  - apply regs_insert; [done|]. rewrite length_app, length_drop. lia.
  - unfold reg. cbn. rewrite list_lookup_insert_eq by (rewrite (proj1 Hr); lia). cbn [default]. by apply take_app_length'.
  - intros i Hi Hn. unfold reg. cbn. by rewrite list_lookup_insert_ne by lia.
Qed.
Lemma wp_set_ymm m k bs : regs_ok m -> 0 <= k < 8 -> length bs = 32%nat ->
  wp (set_ymm (Z.to_nat k) bs) (fun _ m' => loaded 32 m k bs m') m.
Proof.
  intros Hr Hk Hb. unfold set_ymm. wp_steps. apply wp_vreg; [done..|]. wp_steps.
  destruct (regs_at m k Hr Hk) as [E El]. split_and!; [done..| | |].
  - by apply regs_insert.
  - unfold reg. cbn. rewrite list_lookup_insert_eq by (rewrite (proj1 Hr); lia). cbn [default]. by apply take_ge; lia.
  - intros i Hi Hn. unfold reg. cbn. by rewrite list_lookup_insert_ne by lia.
Qed.

Lemma wp_movntdqa m k a : regs_ok m -> 0 <= k < 8 -> a mod 16 = 0 -> in_range m a 16 ->
  wp (movntdqa (Z.to_nat k) a) (fun _ m' => loaded 16 m k (field 16 (off m a) (m_bytes m)) m') m.
Proof.
  intros Hr Hk Ha Hi. unfold movntdqa. wp_steps. apply wp_aligned; [done|]. wp_steps. apply wp_load; [done|].
  apply wp_set_xmm; [done..|]. by apply (field_zlen m a 16).
Qed.
Lemma wp_vmovdqu_load m k a : regs_ok m -> 0 <= k < 8 -> in_range m a 32 ->
  wp (vmovdqu_load (Z.to_nat k) a) (fun _ m' => loaded 32 m k (field 32 (off m a) (m_bytes m)) m') m.
Proof.
  intros Hr Hk Hi. unfold vmovdqu_load. wp_steps. apply wp_load; [done|].
  apply wp_set_ymm; [done..|]. by apply (field_zlen m a 32).
Qed.

(** The memory after the store of a register. *)
Definition stored (w : Z) (m : machine) (k a : Z) : machine :=
  set_bytes (put (off m a) (take (Z.to_nat w) (reg m k)) (m_bytes m)) m.

Lemma wp_movntdq m k a (Q : unit -> machine -> Prop) :
  regs_ok m -> 0 <= k < 8 -> a mod 16 = 0 -> in_range m a 16 -> Q tt (stored 16 m k a) -> wp (movntdq (Z.to_nat k) a) Q m.
Proof.
  intros Hr Hk Ha Hi HQ. unfold movntdq, xmm. wp_steps. apply wp_aligned; [done|]. wp_steps. apply wp_vreg; [done..|]. wp_steps.
  apply wp_store; [|done]. destruct (regs_at m k Hr Hk) as [_ El]. unfold zlen at 1. rewrite length_take, El. done.
Qed.
Lemma wp_ymm_store m k a (Q : unit -> machine -> Prop) :
  regs_ok m -> 0 <= k < 8 -> in_range m a 32 -> Q tt (stored 32 m k a) -> wp (vmovdqu_store (Z.to_nat k) a) Q m.
Proof.
  intros Hr Hk Hi HQ. unfold vmovdqu_store, ymm. wp_steps. apply wp_vreg; [done..|].
  destruct (regs_at m k Hr Hk) as [_ El]. apply wp_store; [unfold zlen at 1; by rewrite El|].
  unfold stored in HQ. by rewrite take_ge in HQ by lia.
Qed.
Lemma wp_vmovntdq m k a (Q : unit -> machine -> Prop) :
  regs_ok m -> 0 <= k < 8 -> a mod 32 = 0 -> in_range m a 32 -> Q tt (stored 32 m k a) -> wp (vmovntdq (Z.to_nat k) a) Q m.
Proof. intros Hr Hk Ha Hi HQ. unfold vmovntdq. wp_steps. apply wp_aligned; [done|]. by apply wp_ymm_store. Qed.

(** A register after another of the eight has been set. *)
Lemma wp_eight_set w val f m (Q : unit -> machine -> Prop) : regs_ok m ->
  (forall k m1, 0 <= k < 8 -> m_base m1 = m_base m -> m_bytes m1 = m_bytes m -> regs_ok m1 ->
    wp (f k) (fun _ m' => loaded w m1 k (val k) m') m1) ->
  (forall m1, m_base m1 = m_base m -> m_bytes m1 = m_bytes m -> regs_ok m1 ->
    (forall k, 0 <= k < 8 -> take (Z.to_nat w) (reg m1 k) = val k) -> Q tt m1) ->
  wp (eight f) Q m.
Proof.
  intros Hr Hf HQ. unfold eight. apply (wp_for (fun j m1 => m_base m1 = m_base m /\ m_bytes m1 = m_bytes m /\ regs_ok m1 /\
    forall k, 0 <= k < j -> take (Z.to_nat w) (reg m1 k) = val k)).
  - split_and!; [done..|]. lia.
  - intros j m1 Hj (B & E & R & L). eapply wp_mono; [by apply Hf; try lia|].
    intros [] m2 (B2 & E2 & R2 & L2 & O2). split_and!; [congruence|congruence|done|]. intros k Hk.
    destruct (decide (k = j)) as [->|Hne]; [done|]. rewrite O2 by lia. apply L. lia.
  - intros m1 (B & E & R & L). by apply HQ.
Qed.

(** Eight loads followed by eight stores move a block. *)
Section block.
Context (w : Z) (ld st : Z -> M machine unit) (d s : Z).
Hypothesis Hw : w = 16 \/ w = 32.
Hypothesis Hld : forall k m, 0 <= k < 8 -> regs_ok m -> in_range m (s + w * k) w ->
  wp (ld k) (fun _ m' => loaded w m k (field (Z.to_nat w) (off m (s + w * k)) (m_bytes m)) m') m.
Hypothesis Hst : forall k m (Q : unit -> machine -> Prop), 0 <= k < 8 -> regs_ok m -> in_range m (d + w * k) w ->
  Q tt (stored w m k (d + w * k)) -> wp (st k) Q m.

Lemma wp_block m : regs_ok m -> in_range m d (8 * w) -> in_range m s (8 * w) ->
  wp (eight ld) (fun _ m1 => wp (eight st) (fun _ m' => moved m d s (8 * w) m') m1) m.
Proof using Hw Hld Hst.
  intros Hr Hd Hs.
  apply (wp_eight_set w (fun k => field (Z.to_nat w) (off m (s + w * k)) (m_bytes m))); [done| |].
  { intros k m1 Hk B E R. eapply wp_mono; [apply Hld; [done|done|unfold in_range in *; rewrite B, E; nia]|].
    intros [] m2. unfold off. by rewrite E, B. }
  intros m1 B E R L. unfold eight.
  apply (wp_for (fun j m2 => m_base m2 = m_base m /\ vregs m2 = vregs m1 /\
    m_bytes m2 = put (off m d) (field (Z.to_nat (w * j)) (off m s) (m_bytes m)) (m_bytes m))).
  - split_and!; [done..|]. rewrite Z.mul_0_r. change (Z.to_nat 0) with 0%nat. by rewrite field_0, put_nil, E.
  - intros j m2 Hj (B2 & V2 & E2).
    assert (Hin : in_range m s (w * j)) by (unfold in_range in *; nia).
    assert (Hlen : zlen (m_bytes m2) = zlen (m_bytes m)).
    { unfold zlen. rewrite E2, put_length; [done|]. rewrite field_zlen by done. unfold in_range, off, zlen in *. nia. }
    apply Hst; [lia| | |].
    + unfold regs_ok in *. by rewrite V2.
    + unfold in_range in *. rewrite B2, Hlen. nia.
    + unfold stored. split_and!; [done..|]. cbn [m_bytes set_bytes].
      assert (Hreg : reg m2 j = reg m1 j) by (unfold reg; by rewrite V2). rewrite Hreg, L, E2 by lia.
      replace (Z.to_nat (w * (j + 1))) with (Z.to_nat (w * j) + Z.to_nat w)%nat by nia. rewrite field_join.
      pose proof (field_zlen m s (w * j) Hin) as Fk.
      replace (off m2 (d + w * j)) with (off m d + length (field (Z.to_nat (w * j)) (off m s) (m_bytes m)))%nat
        by (rewrite Fk; unfold off, in_range in *; rewrite B2; nia).
      replace (off m (s + w * j)) with (off m s + Z.to_nat (w * j))%nat by (unfold off, in_range in *; nia).
      apply put_put. unfold in_range, off, zlen in *. nia.
  - intros m2 (B2 & V2 & E2). split_and!; [done| |].
    + unfold regs_ok in *. by rewrite V2.
    + rewrite E2. by rewrite Z.mul_comm.
Qed.
End block.

Lemma wp_sse_block m d s : regs_ok m -> d mod 16 = 0 -> s mod 16 = 0 -> in_range m d 128 -> in_range m s 128 ->
  wp (eight (fun k => movntdqa (Z.to_nat k) (s + 16 * k)))
    (fun _ m1 => wp (eight (fun k => movntdq (Z.to_nat k) (d + 16 * k))) (fun _ m' => moved m d s 128 m') m1) m.
Proof.
  intros Hr Hd Hs Rd Rs. apply (wp_block 16 _ _ d s); [lia| | |done..].
  - intros. apply wp_movntdqa; try done. zdiv_lia.
  - intros. apply wp_movntdq; try done. zdiv_lia.
Qed.
Lemma wp_avx_block m d s : regs_ok m -> d mod 32 = 0 -> in_range m d 256 -> in_range m s 256 ->
  wp (eight (fun k => vmovdqu_load (Z.to_nat k) (s + 32 * k)))
    (fun _ m1 => wp (eight (fun k => vmovntdq (Z.to_nat k) (d + 32 * k))) (fun _ m' => moved m d s 256 m') m1) m.
Proof.
  intros Hr Hd Rd Rs. apply (wp_block 32 _ _ d s); [lia| | |done..].
  - intros. by apply wp_vmovdqu_load.
  - intros. apply wp_vmovntdq; try done. zdiv_lia.
Qed.

Lemma wp_sse_one m d s : regs_ok m -> d mod 16 = 0 -> s mod 16 = 0 -> in_range m d 16 -> in_range m s 16 ->
  wp (movntdqa 0 s ;;; movntdq 0 d) (fun _ m' => moved m d s 16 m') m.
Proof.
  intros Hr Hd Hs Rd Rs. wp_steps. eapply wp_mono; [by apply (wp_movntdqa m 0)|]. intros [] m1 (B & E & R & L & O).
  apply (wp_movntdq m1 0); [done|lia|done| |]; [unfold in_range in *; by rewrite B, E|].
  unfold stored. split_and!; [done..|]. cbn [m_bytes set_bytes]. rewrite L, E. unfold off. by rewrite B.
Qed.
Lemma wp_avx_one m d s : regs_ok m -> in_range m d 32 -> in_range m s 32 ->
  wp (vmovdqu_load 0 s ;;; vmovdqu_store 0 d) (fun _ m' => moved m d s 32 m') m.
Proof.
  intros Hr Rd Rs. wp_steps. eapply wp_mono; [by apply (wp_vmovdqu_load m 0)|]. intros [] m1 (B & E & R & L & O).
  apply (wp_ymm_store m1 0); [done|lia| |]; [unfold in_range in *; by rewrite B, E|].
  unfold stored. split_and!; [done..|]. cbn [m_bytes set_bytes]. rewrite L, E. unfold off. by rewrite B.
Qed.

(** The blocks, the registers and the bytes that are left: [w] is the width of
    a register. *)
Lemma wp_vector_copy w n d s blk one m (Q : unit -> machine -> Prop) :
  w = 16 \/ w = 32 ->
  0 <= n -> regs_ok m -> d mod w = 0 -> s mod w = 0 -> in_range m d n -> in_range m s n -> forward d s n ->
  (forall j m1, 0 <= j -> regs_ok m1 -> in_range m1 (d + 256 * j) 256 -> in_range m1 (s + 256 * j) 256 ->
    forward (d + 256 * j) (s + 256 * j) 256 -> wp (blk j) (fun _ m2 => moved m1 (d + 256 * j) (s + 256 * j) 256 m2) m1) ->
  (forall d' s' m1, d' mod w = 0 -> s' mod w = 0 -> regs_ok m1 -> in_range m1 d' w -> in_range m1 s' w ->
    wp (one d' s') (fun _ m2 => moved m1 d' s' w m2) m1) ->
  (forall m', moved m d s n m' -> Q tt m') ->
  wp (for_ (Z.to_nat (n / 256)) 0 blk ;;;
      for_ (Z.to_nat (n mod 256 / w)) 0 (fun i => one (d + 256 * (n / 256) + w * i) (s + 256 * (n / 256) + w * i)) ;;;
      (if n mod w =? 0 then kret tt
       else small_memcpy (d + 256 * (n / 256) + w * (n mod 256 / w)) (s + 256 * (n / 256) + w * (n mod 256 / w)) (n mod w))) Q m.
Proof.
  intros Hw Hn Hr Hd Hs Rd Rs Hf Hblk Hone HQ.
  remember (n / 256) as b eqn:Eb. remember (n mod 256 / w) as r eqn:Er. remember (n mod w) as t eqn:Et.
  assert (Hn' : n = 256 * b + w * r + t /\ 0 <= b /\ 0 <= r /\ 0 <= t < w).
  { subst. destruct Hw as [-> | ->]; zdiv_lia. }
  clear Eb Er Et. destruct Hn' as (En & Hb & Hr0 & Ht). wp_steps.
  assert (Hw0 : 0 < w) by lia.
  apply (wp_move_loop _ 256 d s); rewrite ?Z2Nat.id by done; try done; try (unfold in_range, forward in *; lia).
  { intros j m1 Hj R1 D1 S1. apply Hblk; try done; [lia|]. unfold forward in *. lia. }
  intros m1 H1. wp_steps.
  eapply (moved_then m d s (256 * b) (w * r)); [unfold in_range, forward in *; nia.. | exact H1 | |].
  { intros R1 D1 S1 F1. apply (wp_move_loop _ w (d + 256 * b) (s + 256 * b)); rewrite ?Z2Nat.id by done; try done.
    intros j m2 Hj R2 D2 S2. apply Hone; try done; destruct Hw as [-> | ->]; zdiv_lia. }
  intros m2 H2. case_if; [apply wp_ret, HQ; by replace n with (256 * b + w * r) by lia|].
  rewrite <- !Z.add_assoc.
  eapply (moved_then m d s (256 * b + w * r) t); [unfold in_range, forward in *; nia.. | exact H2 | |].
  - intros R2 D2 S2 F2. apply wp_small_memcpy; try done; lia.
  - intros m3. rewrite <- En. apply HQ.
Qed.

(** A value returned after three statements. *)
Lemma wp_seq3 (a b c : M machine unit) (r : Z) (Q : Z -> machine -> Prop) m :
  wp (a ;;; b ;;; c) (fun _ m' => Q r m') m -> wp (a ;;; b ;;; c ;;; kret r) Q m.
Proof.
  intros H. apply wp_bind_inv in H. apply wp_bind. eapply wp_mono; [exact H|]. intros [] m1 H1. apply wp_bind_inv in H1.
  apply wp_bind. eapply wp_mono; [exact H1|]. intros [] m2 H2. apply wp_bind. eapply wp_mono; [exact H2|]. intros [] m3 H3.
  by apply wp_ret.
Qed.

Lemma wp_sse_memcpy m d s n (Q : Z -> machine -> Prop) :
  0 <= n -> regs_ok m -> in_range m d n -> in_range m s n -> forward d s n ->
  (forall m', moved m d s n m' -> Q d m') -> wp (sse_memcpy d s n) Q m.
Proof.
  intros Hn Hr Hd Hs Hf HQ. unfold sse_memcpy. case_if.
  { wp_steps. by apply wp_unaligned_memcpy. }
  cbv zeta.
  apply wp_seq3. apply (wp_vector_copy 16 n d s _ (fun d' s' => movntdqa 0 s' ;;; movntdq 0 d')); try done; [lia| |].
  - intros j m1 Hj R1 D1 S1 F1. wp_steps.
    assert (A1 : (d + 256 * j) mod 16 = 0) by zdiv_lia. assert (A2 : (s + 256 * j) mod 16 = 0) by zdiv_lia.
    eapply wp_mono; [apply (wp_sse_block m1 (d + 256 * j) (s + 256 * j)); try done; unfold in_range in *; lia|].
    intros [] m2 H2. wp_steps. eapply wp_mono; [exact H2|]. intros [] m3 H3. wp_steps.
    eapply wp_mono; [apply (wp_sse_block m3 (d + 256 * j + 128) (s + 256 * j + 128))|].
    + by destruct H3 as (_ & ? & _).
    + zdiv_lia.
    + zdiv_lia.
    + eapply (moved_range _ (d + 256 * j) (s + 256 * j) 128); [..|exact H3|]; unfold in_range in *; lia.
    + eapply (moved_range _ (d + 256 * j) (s + 256 * j) 128); [..|exact H3|]; unfold in_range in *; lia.
    + intros [] m4 H4. wp_steps. eapply wp_mono; [exact H4|]. intros [] m5 H5.
      by apply (moved_trans _ _ _ 128 128 m3).
  - intros. by apply wp_sse_one.
Qed.

Lemma wp_avx2_memcpy m d s n (Q : Z -> machine -> Prop) :
  0 <= n -> regs_ok m -> in_range m d n -> in_range m s n -> forward d s n ->
  (forall m', moved m d s n m' -> Q d m') -> wp (avx2_memcpy d s n) Q m.
Proof.
  intros Hn Hr Hd Hs Hf HQ. unfold avx2_memcpy. case_if.
  { wp_steps. by apply wp_unaligned_memcpy. }
  cbv zeta. apply wp_seq3.
  apply (wp_vector_copy 32 n d s _ (fun d' s' => vmovdqu_load 0 s' ;;; vmovdqu_store 0 d')); try done; [lia| |].
  - intros j m1 Hj R1 D1 S1 F1. wp_steps.
    eapply wp_mono; [apply (wp_avx_block m1 (d + 256 * j) (s + 256 * j)); try done; zdiv_lia|].
    intros [] m2 H2. wp_steps. exact H2.
  - intros. by apply wp_avx_one.
Qed.

Lemma wp_optimized_memcpy avx2 m d s n (Q : Z -> machine -> Prop) :
  0 < m_base m -> 0 <= n -> regs_ok m -> in_range m d n -> in_range m s n -> forward d s n ->
  (forall m', moved m d s n m' -> Q d m') -> wp (optimized_memcpy avx2 d s n) Q m.
Proof.
  intros Hb Hn Hr Hd Hs Hf HQ. unfold optimized_memcpy.
  rewrite (proj2 (Z.eqb_neq d 0)), (proj2 (Z.eqb_neq s 0)) by (unfold in_range in *; lia). cbn [orb].
  case_if; [subst n; apply wp_ret, HQ, moved_0; done|]. case_if.
  { wp_steps. apply wp_move_bytes; try done. }
  destruct avx2; [by apply wp_avx2_memcpy | by apply wp_sse_memcpy].
Qed.

Lemma wp_memcpy m d s n (Q : Z -> machine -> Prop) :
  0 <= n -> regs_ok m -> in_range m d n -> in_range m s n -> forward d s n ->
  (forall m', moved m d s n m' -> Q d m') -> wp (memcpy d s n) Q m.
Proof. intros. unfold memcpy. wp_steps. by apply wp_move_bytes. Qed.

(** ** Fills *)

Definition filled (m : machine) (a : Z) (bs : list Z) : machine := set_bytes (put (off m a) bs (m_bytes m)) m.

Lemma concat_replicate_mul {A} (u : list A) n k :
  concat (replicate n (concat (replicate k u))) = concat (replicate (n * k) u).
Proof. induction n as [|n IH]; [done|]. cbn [replicate concat Nat.mul]. by rewrite IH, replicate_add, concat_app. Qed.
Lemma concat_replicate_len {A} (u : list A) n : length (concat (replicate n u)) = (n * length u)%nat.
Proof. induction n as [|n IH]; [done|]. cbn [replicate concat Nat.mul]. by rewrite length_app, IH. Qed.
Lemma concat_replicate_single {A} (x : A) n : concat (replicate n [x]) = replicate n x.
Proof. induction n as [|n IH]; [done|]. cbn [replicate concat]. by rewrite IH. Qed.

Lemma filled_length m a bs : in_range m a (zlen bs) -> zlen (m_bytes (filled m a bs)) = zlen (m_bytes m).
Proof. intros. unfold zlen. cbn. rewrite put_length; [done|]. unfold in_range, off, zlen in *. lia. Qed.
Lemma filled_range m a bs b n : in_range m a (zlen bs) -> in_range m b n -> in_range (filled m a bs) b n.
Proof. intros Ha Hb. unfold in_range in Hb. unfold in_range. by rewrite filled_length. Qed.
Lemma filled_app m a p q : in_range m a (zlen p + zlen q) ->
  filled (filled m a p) (a + zlen p) q = filled m a (p ++ q).
Proof.
  intros H. unfold filled, set_bytes. cbn. f_equal.
  replace (off (Machine (m_base m) (put (off m a) p (m_bytes m)) (vregs m)) (a + zlen p)) with (off m a + length p)%nat
    by (unfold off, in_range, zlen in *; cbn; lia).
  apply put_put. unfold in_range, off, zlen in *. lia.
Qed.
Lemma filled_nil m a : filled m a [] = m.
Proof. unfold filled. rewrite put_nil. by destruct m. Qed.

(** The loop that writes [P] [n] times. *)
Lemma wp_fill_loop n P a body m (Q : unit -> machine -> Prop) :
  in_range m a (zlen P * Z.of_nat n) ->
  (forall j m1 (R : unit -> machine -> Prop), 0 <= j < Z.of_nat n -> m_base m1 = m_base m -> vregs m1 = vregs m ->
    in_range m1 (a + zlen P * j) (zlen P) -> R tt (filled m1 (a + zlen P * j) P) -> wp (body j) R m1) ->
  Q tt (filled m a (concat (replicate n P))) -> wp (for_ n 0 body) Q m.
Proof.
  intros Hr Hbody HQ. apply (wp_for (fun j m1 => m1 = filled m a (concat (replicate (Z.to_nat j) P)))).
  - change (Z.to_nat 0) with 0%nat. by rewrite filled_nil.
  - intros j m1 Hj ->.
    assert (Hl : zlen (concat (replicate (Z.to_nat j) P)) = zlen P * j).
    { unfold zlen. rewrite concat_replicate_len. unfold zlen in *. nia. }
    apply Hbody; [lia|done|done| |].
    + apply filled_range; rewrite ?Hl; unfold in_range, zlen in *; nia.
    + rewrite <- Hl, filled_app by (rewrite Hl; unfold in_range, zlen in *; nia). f_equal.
      replace (Z.to_nat (j + 1)) with (Z.to_nat j + 1)%nat by lia. rewrite replicate_add, concat_app. cbn [replicate concat].
      by rewrite app_nil_r.
  - intros m1 ->. by rewrite Z.add_0_l, Nat2Z.id.
Qed.

Lemma wp_store_fill m a u (Q : unit -> machine -> Prop) : in_range m a (zlen u) -> Q tt (filled m a u) -> wp (store a u) Q m.
Proof. apply wp_store. Qed.

Lemma wp_tail_fill u a n m (Q : unit -> machine -> Prop) : 0 <= n -> in_range m a (zlen u * n) ->
  Q tt (filled m a (concat (replicate (Z.to_nat n) u))) -> wp (tail_fill u a n) Q m.
Proof.
  intros Hn Hr HQ. unfold tail_fill. apply (wp_fill_loop _ u a); [by rewrite Z2Nat.id| |done].
  intros j m1 R Hj B V Hr1 HR. by apply wp_store_fill.
Qed.

(** The unit is a byte or a word of four; it divides the register. *)
Definition unit_ok (u : list Z) (w per : Z) : Prop :=
  (zlen u = 1 \/ zlen u = 4) /\ (w = 16 \/ w = 32) /\ per * zlen u = w.

Lemma align_step z w a : z = 1 \/ z = 4 -> w = 16 \/ w = 32 -> a mod z = 0 -> a mod w <> 0 ->
  z + (- (a + z)) mod w <= (- a) mod w /\ (a + z) mod z = 0.
Proof.
  intros Hz Hw Ha Hn. assert (Hr : a = w * (a / w) + a mod w /\ 0 < a mod w <= w - z).
  { destruct Hz as [-> | ->], Hw as [-> | ->]; zdiv_lia. }
  generalize dependent (a mod w). generalize (a / w). intros q r Hn Hr.
  replace ((- a) mod w) with (w - r) by (apply (Z.mod_unique _ _ (- q - 1)); lia).
  replace ((- (a + z)) mod w) with (w - r - z) by (apply (Z.mod_unique _ _ (- q - 1)); lia).
  split; [lia|]. destruct Hz as [-> | ->]; zdiv_lia.
Qed.

Lemma wp_align_fill w per u : unit_ok u w per -> forall len a m (Q : Z * nat -> machine -> Prop),
  a mod zlen u = 0 -> in_range m a (zlen u * Z.of_nat len) ->
  (forall k, 0 <= k <= Z.of_nat len -> zlen u * k <= (- a) mod w ->
    (a + zlen u * k) mod w = 0 \/ k = Z.of_nat len ->
    Q (a + zlen u * k, Z.to_nat (Z.of_nat len - k)) (filled m a (concat (replicate (Z.to_nat k) u)))) ->
  wp (align_fill w u a len) Q m.
Proof.
  intros Hu. assert (Hzu : 0 < zlen u /\ 0 < w) by (unfold unit_ok in Hu; lia).
  induction len as [|len IH]; intros a m Q Ha Hr HQ; cbn [align_fill].
  - apply wp_ret. specialize (HQ 0). rewrite Z.mul_0_r, Z.add_0_r in HQ. cbn in HQ. rewrite filled_nil in HQ. apply HQ; try lia.
    apply Z.mod_pos_bound. lia.
  - case_if.
    + apply wp_ret. specialize (HQ 0). rewrite Z.mul_0_r, Z.add_0_r, Z.sub_0_r, Nat2Z.id in HQ. cbn in HQ. rewrite filled_nil in HQ.
      apply HQ; try lia. apply Z.mod_pos_bound. lia.
    + wp_steps. apply wp_store_fill; [unfold in_range in *; nia|].
      assert (Hstep : zlen u + (- (a + zlen u)) mod w <= (- a) mod w /\ (a + zlen u) mod zlen u = 0).
      { destruct Hu as (Hz & Hw & _). by apply align_step. }
      destruct Hstep as [Hs1 Hs2]. apply IH; [done| |].
      * apply filled_range; unfold in_range in *; nia.
      * intros k Hk Hle Hend. specialize (HQ (k + 1)).
        replace (a + zlen u * (k + 1)) with (a + zlen u + zlen u * k) in HQ by lia.
        replace (Z.of_nat (S len) - (k + 1)) with (Z.of_nat len - k) in HQ by lia.
        replace (Z.to_nat (k + 1)) with (S (Z.to_nat k)) in HQ by lia.
        rewrite filled_app; [apply HQ; lia|]. unfold zlen at 2. rewrite concat_replicate_len. unfold in_range, zlen in *. nia.
Qed.

(** *** The vector fill *)

Lemma wp_spread_xmm m buf (Q : unit -> machine -> Prop) : regs_ok m -> length buf = 16%nat ->
  (forall m1, m_base m1 = m_base m -> m_bytes m1 = m_bytes m -> regs_ok m1 ->
    (forall k, 0 <= k < 8 -> take (Z.to_nat 16) (reg m1 k) = buf) -> Q tt m1) -> wp (spread_xmm buf) Q m.
Proof. intros Hr Hb HQ. apply (wp_eight_set 16 (fun _ => buf)); [done| |done]. intros. by apply wp_set_xmm. Qed.
Lemma wp_spread_ymm m buf (Q : unit -> machine -> Prop) : regs_ok m -> length buf = 32%nat ->
  (forall m1, m_base m1 = m_base m -> m_bytes m1 = m_bytes m -> regs_ok m1 ->
    (forall k, 0 <= k < 8 -> take (Z.to_nat 32) (reg m1 k) = buf) -> Q tt m1) -> wp (spread_ymm buf) Q m.
Proof. intros Hr Hb HQ. apply (wp_eight_set 32 (fun _ => buf)); [done| |done]. intros. by apply wp_set_ymm. Qed.

(** The count in blocks, registers and units. *)
Lemma fill_parts per n : per = 4 \/ per = 8 \/ per = 16 \/ per = 32 -> 8 * per <= n ->
  n = per * (8 * (n / (8 * per)) + n mod (8 * per) / per) + n mod per /\
  1 <= n / (8 * per) /\ 0 <= n mod (8 * per) / per /\ 0 <= n mod per.
Proof. intros H Hn. destruct_or! H; subst per; zdiv_lia. Qed.

Section vector_fill.
Context (w per : Z) (u : list Z) (spread : list Z -> M machine unit) (st : nat -> Z -> M machine unit).
Hypothesis Hu : unit_ok u w per.
Hypothesis Hspread : forall m buf (Q : unit -> machine -> Prop), regs_ok m -> length buf = Z.to_nat w ->
  (forall m1, m_base m1 = m_base m -> m_bytes m1 = m_bytes m -> regs_ok m1 ->
    (forall k, 0 <= k < 8 -> take (Z.to_nat w) (reg m1 k) = buf) -> Q tt m1) -> wp (spread buf) Q m.
Hypothesis Hst : forall m k a (Q : unit -> machine -> Prop), regs_ok m -> 0 <= k < 8 -> a mod w = 0 -> in_range m a w ->
  Q tt (stored w m k a) -> wp (st (Z.to_nat k) a) Q m.

#[local] Abbreviation pattern := (concat (replicate (Z.to_nat per) u)).

Lemma unit_width : 0 < zlen u /\ 0 < w /\ 0 < per /\ zlen pattern = w /\ length pattern = Z.to_nat w.
Proof using Hu. unfold zlen at 2. rewrite concat_replicate_len. unfold unit_ok, zlen in *. nia. Qed.

Lemma unit_per : per = 4 \/ per = 8 \/ per = 16 \/ per = 32.
Proof using Hu. unfold unit_ok in Hu. lia. Qed.

(** With the pattern in the registers, the blocks and the single registers
    write it. *)
Definition patterned (m : machine) : Prop := forall k, 0 <= k < 8 -> take (Z.to_nat w) (reg m k) = pattern.

Lemma wp_st_pattern m k a (Q : unit -> machine -> Prop) : regs_ok m -> patterned m -> 0 <= k < 8 -> a mod w = 0 ->
  in_range m a w -> Q tt (filled m a pattern) -> wp (st (Z.to_nat k) a) Q m.
Proof using Hst. intros Hr Hp Hk Ha Hi HQ. apply Hst; [done..|]. unfold stored. by rewrite Hp. Qed.

Lemma wp_rem_fill n a m (Q : unit -> machine -> Prop) : regs_ok m -> patterned m -> a mod w = 0 ->
  in_range m a (w * Z.of_nat n) ->
  Q tt (filled m a (concat (replicate n pattern))) -> wp (for_ n 0 (fun i => st O (a + w * i))) Q m.
Proof using Hu Hst.
  intros Hr Hp Ha Hi HQ. pose proof unit_width as (U1 & U2 & U3 & U4 & U5).
  apply (wp_fill_loop _ pattern a); rewrite ?U4; [done| |done].
  intros j m1 R Hj B V Hr1 HR. apply (wp_st_pattern m1 0); [by unfold regs_ok; rewrite V| |lia| |done|done].
  - unfold patterned, reg in *. by rewrite V.
  - rewrite Z.mul_comm, Z_mod_plus_full. done.
Qed.

Lemma wp_blocks_fill n a m (Q : unit -> machine -> Prop) : regs_ok m -> patterned m -> a mod w = 0 ->
  in_range m a (8 * w * Z.of_nat n) ->
  Q tt (filled m a (concat (replicate (n * 8) pattern))) ->
  wp (for_ n 0 (fun i => eight (fun k => st (Z.to_nat k) (a + 8 * w * i + w * k)))) Q m.
Proof using Hu Hst.
  intros Hr Hp Ha Hi HQ. pose proof unit_width as (U1 & U2 & U3 & U4 & U5).
  assert (Hl : zlen (concat (replicate 8 pattern)) = 8 * w).
  { unfold zlen. rewrite concat_replicate_len. unfold zlen in U4. lia. }
  apply (wp_fill_loop _ (concat (replicate 8 pattern)) a); rewrite ?Hl; [done| |by rewrite concat_replicate_mul].
  intros j m1 R Hj B V Hr1 HR. unfold eight. apply (wp_fill_loop _ pattern (a + 8 * w * j)); rewrite ?U4.
  - replace (w * Z.of_nat 8) with (8 * w) by lia. done.
  - intros k m2 R2 Hk B2 V2 Hr2 HR2. apply wp_st_pattern; [by unfold regs_ok; rewrite V2, V| |lia| |done|done].
    + unfold patterned, reg in *. by rewrite V2, V.
    + replace (a + 8 * w * j + w * k) with (a + (8 * j + k) * w) by lia. by rewrite Z_mod_plus_full.
  - done.
Qed.

(** The fill is right when what is left after the alignment holds a block of
    eight registers. *)
Lemma wp_vector_fill dst count m (Q : Z -> machine -> Prop) :
  0 <= count -> regs_ok m -> dst mod zlen u = 0 -> in_range m dst (zlen u * count) ->
  8 * w <= zlen u * count - (- dst) mod w ->
  (forall m', m_base m' = m_base m -> regs_ok m' ->
    m_bytes m' = put (off m dst) (concat (replicate (Z.to_nat count) u)) (m_bytes m) -> Q dst m') ->
  wp (vector_fill w spread st u per dst count) Q m.
Proof using Hu Hspread Hst.
  intros Hc Hr Hd Hi Hbig HQ. pose proof unit_width as (U1 & U2 & U3 & U4 & U5).
  unfold vector_fill. wp_steps. apply (wp_align_fill w per u Hu); rewrite ?Z2Nat.id by done; [done..|].
  intros k Hk Hle Hend. cbn beta iota. cbv zeta. rewrite (Z2Nat.id (count - k)) by lia.
  assert (Hnk : zlen u * (count - k) >= 8 * w) by nia.
  assert (Hper : zlen u * per = w) by (destruct Hu as (_ & _ & Hp); lia).
  assert (Hal : (dst + zlen u * k) mod w = 0) by (destruct Hend as [E|E]; [done|nia]). clear Hend.
  set (n := count - k) in *.
  remember (n / (8 * per)) as b eqn:Eb. remember (n mod (8 * per) / per) as r eqn:Er. remember (n mod per) as t eqn:Et.
  assert (Hn : n = per * (8 * b + r) + t /\ 1 <= b /\ 0 <= r /\ 0 <= t) by (subst b r t; apply fill_parts; [apply unit_per|nia]).
  destruct Hn as (En & Hb & Hr0 & Ht). clear Eb Er Et.
  assert (Hl : zlen (concat (replicate (Z.to_nat k) u)) = zlen u * k).
  { unfold zlen at 1. rewrite concat_replicate_len. unfold zlen. nia. }
  assert (Hzb : zlen u * n = w * (8 * b + r) + zlen u * t) by nia.
  assert (Hz : zlen u * count = zlen u * k + zlen u * n) by nia.
  set (m1 := filled m dst (concat (replicate (Z.to_nat k) u))).
  assert (Hr1 : regs_ok m1) by done.
  assert (Hin1 : in_range m1 (dst + zlen u * k) (zlen u * n)) by (apply filled_range; rewrite ?Hl; unfold in_range in *; nia).
  rewrite (proj2 (Z.ltb_lt 0 b)) by lia. wp_steps. apply Hspread; [done|done|]. intros m2 B2 E2 R2 P2.
  assert (Hin2 : in_range m2 (dst + zlen u * k) (zlen u * n)) by (unfold in_range; rewrite B2, E2; exact Hin1).
  apply wp_blocks_fill; [done..|rewrite Z2Nat.id by lia; unfold in_range in *; nia|].
  set (bs1 := concat (replicate (Z.to_nat b * 8) pattern)).
  assert (Hl1 : zlen bs1 = 8 * w * b).
  { unfold bs1, zlen. rewrite concat_replicate_len. unfold zlen in U4. nia. }
  wp_steps. replace (8 * w * b) with (zlen bs1) by done. apply wp_rem_fill; [done|exact P2| | |].
  - rewrite Hl1. replace (dst + zlen u * k + 8 * w * b) with (dst + zlen u * k + 8 * b * w) by lia. by rewrite Z_mod_plus_full.
  - rewrite Z2Nat.id by lia. apply filled_range; rewrite ?Hl1; unfold in_range in *; nia.
  - set (bs2 := concat (replicate (Z.to_nat r) pattern)).
    assert (Hl2 : zlen bs2 = w * r).
    { unfold bs2, zlen. rewrite concat_replicate_len. unfold zlen in U4. nia. }
    rewrite filled_app by (rewrite Hl1, Hl2; unfold in_range in *; nia).
    wp_steps. replace (dst + zlen u * k + zlen bs1 + w * r) with (dst + zlen u * k + zlen (bs1 ++ bs2))
      by (unfold zlen; rewrite length_app; unfold zlen in *; lia).
    assert (Hl3 : zlen (bs1 ++ bs2) = w * (8 * b + r)) by (unfold zlen in *; rewrite length_app; lia).
    apply wp_tail_fill; [done|apply filled_range; rewrite ?Hl3; unfold in_range in *; nia|].
    rewrite filled_app by (rewrite Hl3; unfold zlen at 2; rewrite concat_replicate_len; unfold in_range, zlen in *; nia).
    apply wp_ret, HQ; [done|done|]. cbn [m_bytes filled set_bytes].
    transitivity (m_bytes (filled m1 (dst + zlen u * k) ((bs1 ++ bs2) ++ concat (replicate (Z.to_nat t) u)))).
    { unfold filled, off. cbn. by rewrite B2, E2. }
    unfold m1. rewrite <- Hl, filled_app; [cbn; do 2 f_equal|].
    + unfold bs1, bs2. rewrite !concat_replicate_mul, <- !concat_app, <- !replicate_add. do 2 f_equal. nia.
    + rewrite Hl. unfold zlen at 2. rewrite length_app, concat_replicate_len. unfold zlen in Hl3. unfold in_range, zlen in *. nia.
Qed.
End vector_fill.

(** *** The fills by name *)

(** The width of the registers a fill uses. *)
Definition width (avx2 : bool) : Z := if avx2 then 32 else 16.

Lemma unit_u8 avx2 v : unit_ok [v] (width avx2) (width avx2).
Proof. unfold unit_ok, width. change (zlen [v]) with 1. destruct avx2; lia. Qed.
Lemma unit_le32 avx2 v : unit_ok (le32 v) (width avx2) (width avx2 / 4).
Proof. unfold unit_ok, width. change (zlen (le32 v)) with 4. destruct avx2; [change (32 / 4) with 8|change (16 / 4) with 4]; lia. Qed.

Definition spread_of (avx2 : bool) : list Z -> M machine unit := if avx2 then spread_ymm else spread_xmm.
Definition stream_of (avx2 : bool) : nat -> Z -> M machine unit := if avx2 then vmovntdq else movntdq.

Lemma wp_fill_of avx2 u per dst count m (Q : Z -> machine -> Prop) : unit_ok u (width avx2) per ->
  0 <= count -> regs_ok m -> dst mod zlen u = 0 -> in_range m dst (zlen u * count) ->
  8 * width avx2 <= zlen u * count - (- dst) mod width avx2 ->
  (forall m', m_base m' = m_base m -> regs_ok m' ->
    m_bytes m' = put (off m dst) (concat (replicate (Z.to_nat count) u)) (m_bytes m) -> Q dst m') ->
  wp (vector_fill (width avx2) (spread_of avx2) (stream_of avx2) u per dst count) Q m.
Proof.
  intros Hu. apply wp_vector_fill; [done| |].
  - destruct avx2; intros; [by apply wp_spread_ymm | by apply wp_spread_xmm].
  - destruct avx2; intros; [by apply wp_vmovntdq | by apply wp_movntdq].
Qed.

(** The plain loop that writes a unit [n] times. *)
Lemma wp_plain_fill u dst n m (Q : unit -> machine -> Prop) : 0 <= n -> in_range m dst (zlen u * n) ->
  Q tt (filled m dst (concat (replicate (Z.to_nat n) u))) ->
  wp (for_ (Z.to_nat n) 0 (fun i => store (dst + zlen u * i) u)) Q m.
Proof. apply wp_tail_fill. Qed.

Lemma wp_memset m dst v n (Q : Z -> machine -> Prop) : 0 <= n -> in_range m dst n ->
  Q dst (filled m dst (replicate (Z.to_nat n) (u8 v))) -> wp (memset dst v n) Q m.
Proof.
  intros Hn Hr HQ. unfold memset. wp_steps. apply (wp_fill_loop _ [u8 v] dst).
  - rewrite Z2Nat.id by done. by rewrite Z.mul_1_l.
  - intros j m1 R Hj B V Hi HR. rewrite Z.mul_1_l in *. by apply wp_store_fill.
  - wp_steps. by rewrite concat_replicate_single.
Qed.

Lemma wp_optimized_memset avx2 m dst v n (Q : Z -> machine -> Prop) :
  0 < m_base m -> 0 <= n -> regs_ok m -> in_range m dst n ->
  n < 64 \/ 8 * width avx2 <= n - (- dst) mod width avx2 ->
  (forall m', m_base m' = m_base m -> regs_ok m' ->
    m_bytes m' = put (off m dst) (replicate (Z.to_nat n) (u8 v)) (m_bytes m) -> Q dst m') ->
  wp (optimized_memset avx2 dst v n) Q m.
Proof.
  intros Hb Hn Hr Hi Hbig HQ. unfold optimized_memset.
  rewrite (proj2 (Z.eqb_neq dst 0)) by (unfold in_range in Hi; lia). cbn [orb].
  case_if; [subst n; apply wp_ret, HQ; [done..|by rewrite put_nil]|]. case_if.
  - wp_steps. apply (wp_fill_loop _ [u8 v] dst).
    + rewrite Z2Nat.id by done. by rewrite Z.mul_1_l.
    + intros j m1 R Hj B V Hi1 HR. rewrite Z.mul_1_l in *. by apply wp_store_fill.
    + wp_steps. rewrite concat_replicate_single. by apply HQ.
  - destruct Hbig as [|Hbig]; [lia|]. wp_steps.
    assert (Hf : wp (vector_fill (width avx2) (spread_of avx2) (stream_of avx2) [u8 v] (width avx2) dst n) (fun _ m' => Q dst m') m).
    { apply wp_fill_of; [apply unit_u8|done|done|apply Z.mod_1_r|by rewrite Z.mul_1_l|by rewrite Z.mul_1_l|].
      intros m' B R E'. apply HQ; [done..|]. by rewrite E', concat_replicate_single. }
    destruct avx2; (eapply wp_mono; [exact Hf|]); intros r m' HQ'; by apply wp_ret.
Qed.

Lemma wp_optimized_memset_dword avx2 m dst v n (Q : Z -> machine -> Prop) :
  0 < m_base m -> 0 <= n -> regs_ok m -> dst mod 4 = 0 -> in_range m dst (4 * n) ->
  n < 16 \/ 8 * width avx2 <= 4 * n - (- dst) mod width avx2 ->
  (forall m', m_base m' = m_base m -> regs_ok m' ->
    m_bytes m' = put (off m dst) (concat (replicate (Z.to_nat n) (le32 v))) (m_bytes m) -> Q dst m') ->
  wp (optimized_memset_dword avx2 dst v n) Q m.
Proof.
  intros Hb Hn Hr Ha Hi Hbig HQ. unfold optimized_memset_dword.
  rewrite (proj2 (Z.eqb_neq dst 0)) by (unfold in_range in Hi; lia). cbn [orb].
  case_if; [subst n; apply wp_ret, HQ; [done..|by rewrite put_nil]|]. case_if.
  - wp_steps. apply (wp_plain_fill (le32 v)); [done..|]. wp_steps. by apply HQ.
  - destruct Hbig as [|Hbig]; [lia|].
    assert (Hf : wp (vector_fill (width avx2) (spread_of avx2) (stream_of avx2) (le32 v) (width avx2 / 4) dst n) Q m).
    { apply wp_fill_of; [apply unit_le32|done..]. }
    by destruct avx2.
Qed.
