(* ===== verification/KlibStr.v ===== *)
(** * Strings, and what the vector routines are for

    The string functions on a string in memory ([c_string]), the equivalence of
    the vector routines with the plain ones, and the situations outside the
    theorems' conditions. *)

From Stdlib Require Import ZArith Lia.
From stdpp Require Import base tactics list.
From S2P Require Import Prelude Bytes Klib KlibThms.

(** ** Strings in memory *)

Definition c_string (m : machine) (p : Z) (s : list Z) : Prop :=
  in_range m p (zlen s + 1) /\ field (S (length s)) (off m p) (m_bytes m) = s ++ [0] /\ Forall (fun c => byte c /\ c <> 0) s.

Lemma field_cons n i bs : (i < length bs)%nat -> field (S n) i bs = get8 bs i :: field n (S i) bs.
Proof.
  intros H. replace (S n) with (1 + n)%nat by lia. rewrite field_join. replace (i + 1)%nat with (S i) by lia. f_equal.
  unfold field, get8. destruct (lookup_lt_is_Some_2 bs i H) as [x Hx]. rewrite (drop_S _ _ _ Hx), Hx. done.
Qed.

Lemma c_string_head m p s : c_string m p s -> in_range m p 1 /\ get8 (m_bytes m) (off m p) = get8 (s ++ [0]) 0.
Proof.
  intros (Hr & Hf & _). pose proof (zlen_nonneg s). assert (Hi : in_range m p 1) by (unfold in_range in *; lia).
  split; [done|]. rewrite field_cons in Hf by (unfold in_range, off, zlen in *; lia). by rewrite <- Hf.
Qed.
Lemma c_string_tail m p c s : c_string m p (c :: s) -> c_string m (p + 1) s.
Proof.
  intros (Hr & Hf & Hs). unfold c_string in *. rewrite <- app_comm_cons in Hf. cbn [length] in Hf.
  assert (Hz : zlen (c :: s) = zlen s + 1) by (unfold zlen; cbn; lia). rewrite Hz in Hr. split_and!.
  - pose proof (zlen_nonneg s). unfold in_range in *. lia.
  - rewrite field_cons in Hf by (unfold in_range, off, zlen in *; lia). simplify_eq Hf.
    replace (off m (p + 1)) with (S (off m p)) by (unfold in_range, off in *; lia). done.
  - by inversion Hs.
Qed.
Lemma c_string_chars m p c s : c_string m p (c :: s) -> byte c /\ c <> 0.
Proof. intros (_ & _ & Hs). by inversion Hs. Qed.
Lemma c_string_fuel m p s : c_string m p s -> (length s < S (length (m_bytes m)))%nat.
Proof. intros (Hr & _). unfold in_range, zlen in Hr. lia. Qed.

(** The load of the first character. *)
Lemma wp_char m p s (Q : Z -> machine -> Prop) : c_string m p s -> Q (get8 (s ++ [0]) 0) m -> wp (load1 p) Q m.
Proof. intros Hs HQ. destruct (c_string_head m p s Hs) as [Hi Hg]. apply wp_load1; [done|]. by rewrite Hg. Qed.

Lemma wp_strlen m p s (Q : Z -> machine -> Prop) : c_string m p s -> Q (zlen s) m -> wp (strlen p) Q m.
Proof.
  intros Hs HQ. unfold strlen, scan. wp_steps.
  assert (K : forall fuel q t, (length t < fuel)%nat -> c_string m q t -> wp (strlen_loop fuel q) (fun r m' => m' = m /\ r = q + zlen t) m).
  { induction fuel as [|fuel IH]; intros q t Hl Ht; [lia|]. cbn [strlen_loop]. wp_steps. eapply wp_char; [exact Ht|].
    destruct t as [|c t]; cbn [app get8 default lookup list_lookup id].
    - wp_steps. split; [done|]. unfold zlen. cbn. lia.
    - destruct (c_string_chars _ _ _ _ Ht) as [_ Hc]. rewrite (proj2 (Z.eqb_neq _ _) Hc).
      eapply wp_mono; [apply (IH (q + 1) t); [cbn in Hl; lia|by eapply c_string_tail]|].
      intros r m' [-> ->]. split; [done|]. unfold zlen. cbn. lia. }
  eapply wp_mono; [apply (K _ p s); [by eapply c_string_fuel|done]|]. intros r m' [-> ->]. wp_steps.
  by replace (p + zlen s - p) with (zlen s) by lia.
Qed.

(** ** Comparison *)

Lemma s8_zero c : byte c -> s8 c + s8 c = 0 -> c = 0.
Proof. unfold byte, s8. intros Hb H. zdiv_lia. Qed.

(** Two strings that are not both empty: the loop stops within them. *)
Lemma wp_strcmp_loop m : forall fuel p1 p2 s1 s2,
  (length s1 < fuel)%nat -> c_string m p1 s1 -> c_string m p2 s2 -> s1 <> [] \/ s2 <> [] ->
  wp (strcmp_loop fuel p1 p2) (fun r m' => m' = m /\ r = if decide (s1 = s2) then 0 else -1) m.
Proof.
  induction fuel as [|fuel IH]; intros p1 p2 s1 s2 Hf H1 H2 Hne; [lia|]. cbn [strcmp_loop]. wp_steps.
  eapply wp_char; [exact H1|]. wp_steps. eapply wp_char; [exact H2|].
  destruct s1 as [|c1 s1], s2 as [|c2 s2]; cbn [app get8 default lookup list_lookup id].
  - by destruct Hne.
  - destruct (c_string_chars _ _ _ _ H2) as [_ Hc]. rewrite (proj2 (Z.eqb_neq 0 c2)) by done. by wp_steps.
  - destruct (c_string_chars _ _ _ _ H1) as [_ Hc]. rewrite (proj2 (Z.eqb_neq c1 0)) by done. by wp_steps.
  - destruct (Z.eqb_spec c1 c2) as [->|Hc]; [|wp_steps; rewrite decide_False by congruence; done].
    apply c_string_tail in H1, H2. wp_steps. eapply wp_char; [exact H1|]. wp_steps. eapply wp_char; [exact H2|].
    assert (Hgo : s1 <> [] \/ s2 <> [] ->
      wp (strcmp_loop fuel (p1 + 1) (p2 + 1)) (fun r m' => m' = m /\ r = if decide (c2 :: s1 = c2 :: s2) then 0 else -1) m).
    { intros Hn. eapply wp_mono; [apply (IH _ _ s1 s2); [cbn in Hf; lia|done..]|]. intros r m' [-> ->]. split; [done|].
      do 2 case_decide; congruence. }
    destruct s1 as [|d1 s1], s2 as [|d2 s2]; cbn [app get8 default lookup list_lookup id].
    + wp_steps. by rewrite decide_True.
    + destruct (c_string_chars _ _ _ _ H2) as [_ Hd]. rewrite (proj2 (Z.eqb_neq 0 d2)) by done. apply Hgo. by right.
    + destruct (c_string_chars _ _ _ _ H1) as [_ Hd]. rewrite (proj2 (Z.eqb_neq d1 0)) by done. apply Hgo. by left.
    + destruct (c_string_chars _ _ _ _ H1) as [Hb Hd]. case_if; [|apply Hgo; by left].
      destruct Hd. subst d2. by apply s8_zero.
Qed.

Lemma wp_strcmp m p1 p2 s1 s2 (Q : Z -> machine -> Prop) : c_string m p1 s1 -> c_string m p2 s2 -> s1 <> [] \/ s2 <> [] ->
  Q (if decide (s1 = s2) then 0 else -1) m -> wp (strcmp p1 p2) Q m.
Proof.
  intros H1 H2 Hne HQ. unfold strcmp, scan. wp_steps.
  eapply wp_mono; [apply (wp_strcmp_loop m _ p1 p2 s1 s2); [by eapply c_string_fuel|done..]|]. by intros r m' [-> ->].
Qed.

Lemma wp_memcmp m a b n (Q : Z -> machine -> Prop) : 0 <= n -> in_range m a n -> in_range m b n ->
  Q (if decide (field (Z.to_nat n) (off m a) (m_bytes m) = field (Z.to_nat n) (off m b) (m_bytes m)) then 0 else 1) m ->
  wp (memcmp a b n) Q m.
Proof.
  intros Hn Ha Hb HQ. unfold memcmp. wp_steps.
  assert (Hg : forall c j, in_range m c n -> (j < Z.to_nat n)%nat ->
    field (Z.to_nat n) (off m c) (m_bytes m) !! j = Some (get8 (m_bytes m) (off m (c + Z.of_nat j)))).
  { intros c j Hc Hj. rewrite field_lookup by done. unfold get8.
    replace (off m (c + Z.of_nat j)) with (off m c + j)%nat by (unfold in_range, off in *; lia).
    destruct (lookup_lt_is_Some_2 (m_bytes m) (off m c + j)) as [x Hx]; [unfold in_range, off, zlen in *; lia|]. by rewrite Hx. }
  apply (wp_loop (fun j _ m' => m' = m /\ take (Z.to_nat j) (field (Z.to_nat n) (off m a) (m_bytes m)) =
    take (Z.to_nat j) (field (Z.to_nat n) (off m b) (m_bytes m)))).
  - done.
  - intros j _ m' Hj [-> Ht]. rewrite Z.add_0_l, Z2Nat.id in Hj by done.
    wp_steps. apply wp_load1; [unfold in_range in *; lia|]. wp_steps. apply wp_load1; [unfold in_range in *; lia|].
    pose proof (Hg a (Z.to_nat j) Ha ltac:(lia)) as Ga. pose proof (Hg b (Z.to_nat j) Hb ltac:(lia)) as Gb.
    rewrite Z2Nat.id in Ga, Gb by lia. case_if; wp_steps.
    + split; [done|]. replace (Z.to_nat (j + 1)) with (S (Z.to_nat j)) by lia.
      rewrite (take_S_r _ _ _ Ga), (take_S_r _ _ _ Gb). congruence.
    + rewrite decide_False in HQ; [done|]. intros Heq. rewrite Heq in Ga. congruence.
  - intros _ m' [-> Ht]. rewrite Z.add_0_l, Nat2Z.id, !take_ge in Ht by (rewrite field_length; unfold in_range, off, zlen in *; lia).
    wp_steps. by rewrite decide_True in HQ.
Qed.

(** ** Copying *)

Lemma c_string_filled m p s a bs : in_range m a (zlen bs) -> c_string m p s -> a + zlen bs <= p \/ p + zlen s + 1 <= a ->
  c_string (filled m a bs) p s.
Proof.
  intros Ha (Hr & Hf & Hs) Hd. split_and!; [by apply filled_range| |done]. rewrite <- Hf. unfold in_range in *.
  apply list_eq. intros j. destruct (decide (j < S (length s))%nat).
  - rewrite !field_lookup by done. cbn [m_bytes filled set_bytes]. rewrite put_lookup by (unfold off, zlen in *; lia).
    rewrite decide_False; [done|]. unfold off in *. cbn. unfold zlen in *. lia.
  - rewrite !lookup_ge_None_2; [done| |].
    + rewrite Hf, length_app. cbn. lia.
    + unfold field. rewrite length_take. lia.
Qed.

Lemma wp_strcpy m dest src s (Q : Z -> machine -> Prop) : in_range m dest (zlen s + 1) -> c_string m src s ->
  dest + zlen s + 1 <= src \/ src + zlen s + 1 <= dest ->
  Q dest (filled m dest (s ++ [0])) -> wp (strcpy dest src) Q m.
Proof.
  intros Hr Hs Hd HQ. unfold strcpy, scan. wp_steps.
  assert (K : forall fuel d p t m, (length t < fuel)%nat -> in_range m d (zlen t + 1) -> c_string m p t ->
    d + zlen t + 1 <= p \/ p + zlen t + 1 <= d ->
    wp (strcpy_loop fuel d p) (fun r m' => m' = filled m d t /\ r = d + zlen t) m).
  { clear. induction fuel as [|fuel IH]; intros d p t m Hl Hr Ht Hd; [lia|]. cbn [strcpy_loop]. wp_steps.
    eapply wp_char; [exact Ht|]. destruct t as [|c t]; cbn [app get8 default lookup list_lookup id].
    - wp_steps. rewrite filled_nil. split; [done|]. unfold zlen. cbn. lia.
    - destruct (c_string_chars _ _ _ _ Ht) as [_ Hc]. rewrite (proj2 (Z.eqb_neq _ _) Hc).
      assert (Hz : zlen (c :: t) = 1 + zlen t) by (unfold zlen; cbn; lia). rewrite Hz in *. pose proof (zlen_nonneg t).
      assert (H1 : in_range m d (zlen [c])) by (unfold in_range, zlen in *; cbn; lia).
      wp_steps. apply wp_store; [done|]. fold (filled m d [c]).
      eapply wp_mono; [apply (IH (d + 1) (p + 1) t)|].
      + cbn in Hl. lia.
      + apply filled_range; [done|]. unfold in_range in *. lia.
      + apply c_string_filled; [done|by eapply c_string_tail|]. change (zlen [c]) with 1. lia.
      + lia.
      + intros r m' [-> ->]. split; [|lia]. apply (filled_app m d [c] t). change (zlen [c]) with 1. unfold in_range in *. lia. }
  eapply wp_mono; [apply (K _ dest src s); [by eapply c_string_fuel|done..]|]. intros r m' [-> ->].
  assert (H1 : in_range m dest (zlen s)) by (pose proof (zlen_nonneg s); unfold in_range in *; lia).
  wp_steps. apply wp_store; [apply filled_range; [done|]; pose proof (zlen_nonneg s); change (zlen [0]) with 1; unfold in_range in *; lia|].
  fold (filled (filled m dest s) (dest + zlen s) [0]). rewrite filled_app by done. by wp_steps.
Qed.

(** What was copied is a string again. *)
Lemma c_string_copied m dest s : in_range m dest (zlen s + 1) -> Forall (fun c => byte c /\ c <> 0) s ->
  c_string (filled m dest (s ++ [0])) dest s.
Proof.
  intros Hr Hs. assert (Hz : zlen (s ++ [0]) = zlen s + 1) by (unfold zlen; rewrite length_app; cbn; lia).
  split_and!; [apply filled_range; by rewrite ?Hz| |done]. apply list_eq. intros j.
  assert (Hl : length (s ++ [0]) = S (length s)) by (rewrite length_app; cbn; lia).
  destruct (decide (j < S (length s))%nat).
  - rewrite field_lookup by done. cbn [m_bytes filled set_bytes]. change (off (filled m dest (s ++ [0])) dest) with (off m dest).
    rewrite put_lookup by (unfold in_range, off, zlen in *; lia). rewrite decide_True by lia. f_equal. lia.
  - rewrite !lookup_ge_None_2; [done|lia|]. unfold field. rewrite length_take. lia.
Qed.

(** ** Searching *)

(** The first occurrence, as a distance from the start. *)
Fixpoint first_at (c : Z) (s : list Z) : option Z :=
  match s with
  | [] => None
  | x :: s' => if x =? c then Some 0 else Z.succ <$> first_at c s'
  end.

Lemma wp_strchr m p s c (Q : Z -> machine -> Prop) : c_string m p s ->
  Q (match first_at (u8 c) (s ++ [0]) with Some i => p + i | None => 0 end) m -> wp (strchr p c) Q m.
Proof.
  intros Hs HQ. unfold strchr, scan. wp_steps.
  assert (K : forall fuel q t, (length t < fuel)%nat -> c_string m q t -> wp (strchr_loop fuel q c)
    (fun r m' => m' = m /\ r = match first_at (u8 c) (t ++ [0]) with Some i => q + i | None => 0 end) m).
  { induction fuel as [|fuel IH]; intros q t Hl Ht; [lia|]. cbn [strchr_loop]. wp_steps. eapply wp_char; [exact Ht|].
    destruct t as [|x t]; cbn [app get8 default lookup list_lookup id first_at].
    - case_if; wp_steps; split; try done; lia.
    - case_if; [wp_steps; split; [done|lia]|]. destruct (c_string_chars _ _ _ _ Ht) as [_ Hx]. rewrite (proj2 (Z.eqb_neq _ _) Hx).
      eapply wp_mono; [apply (IH (q + 1) t); [cbn in Hl; lia|by eapply c_string_tail]|]. intros r m' [-> ->]. split; [done|].
      destruct (first_at (u8 c) (t ++ [0])); cbn; lia. }
  eapply wp_mono; [apply (K _ p s); [by eapply c_string_fuel|done]|]. by intros r m' [-> ->].
Qed.

Lemma c_string_at m p s i : c_string m p s -> (i <= length s)%nat ->
  in_range m (p + Z.of_nat i) 1 /\ (s ++ [0]) !! i = Some (get8 (m_bytes m) (off m (p + Z.of_nat i))).
Proof.
  intros (Hr & Hf & _) Hi. split; [unfold in_range, zlen in *; lia|]. rewrite <- Hf, field_lookup by lia. unfold get8.
  replace (off m (p + Z.of_nat i)) with (off m p + i)%nat by (unfold in_range, off in *; lia).
  destruct (lookup_lt_is_Some_2 (m_bytes m) (off m p + i)) as [x Hx]; [unfold in_range, off, zlen in *; lia|]. by rewrite Hx.
Qed.

(** The last occurrence. *)
Definition last_occurrence (c : Z) (s : list Z) (p r : Z) : Prop :=
  (exists i, r = p + Z.of_nat i /\ s !! i = Some c /\ forall j, (i < j)%nat -> s !! j <> Some c) \/ (r = 0 /\ c ∉ s).

Lemma wp_strrchr m p s c (Q : Z -> machine -> Prop) : c_string m p s ->
  (forall r, last_occurrence (u8 c) (s ++ [0]) p r -> Q r m) -> wp (strrchr p c) Q m.
Proof.
  intros Hs HQ. unfold strrchr. wp_steps. eapply wp_strlen; [exact Hs|]. unfold zlen. rewrite Nat2Z.id.
  assert (K : forall n, (n <= length s)%nat -> (forall j, (n < j)%nat -> (s ++ [0]) !! j <> Some (u8 c)) ->
    wp (strrchr_loop n p c) Q m).
  { induction n as [|n IH]; intros Hn Hafter; cbn [strrchr_loop]; wp_steps.
    all: edestruct (c_string_at m p s) as [Hi Hg]; [exact Hs|exact Hn|]. all: apply wp_load1; [exact Hi|]. all: case_if.
    - apply wp_ret, HQ. left. exists O. by rewrite Hg, E.
    - apply wp_ret, HQ. right. split; [done|]. intros [j Hj]%list_elem_of_lookup. destruct j; [congruence|]. by apply (Hafter (S j) ltac:(lia)).
    - apply wp_ret, HQ. left. exists (S n). by rewrite Hg, E.
    - apply IH; [lia|]. intros j Hj. destruct (decide (j = S n)) as [->|]; [rewrite Hg; congruence | apply Hafter; lia]. }
  apply K; [lia|]. intros j Hj. rewrite lookup_ge_None_2; [done|]. rewrite length_app. cbn. lia.
Qed.

(** ** The theorems *)

(** C23: The vector copy is [memcpy]: whichever instructions the processor has
    and however the buffers are aligned, it leaves the bytes the plain loop
    leaves, returns the destination and faults no more than the loop. *)
Theorem optimized_memcpy_equiv avx2 m d s n :
  0 < m_base m -> 0 <= n -> regs_ok m -> in_range m d n -> in_range m s n -> forward d s n ->
  wp (memcpy d s n) (fun r1 m1 => wp (optimized_memcpy avx2 d s n) (fun r2 m2 =>
    r1 = d /\ r2 = d /\ m_base m2 = m_base m1 /\ m_bytes m2 = m_bytes m1 /\
    m_bytes m1 = put (off m d) (field (Z.to_nat n) (off m s) (m_bytes m)) (m_bytes m)) m) m.
Proof.
  intros Hb Hn Hr Hd Hs Hf. apply wp_memcpy; [done..|]. intros m1 (B1 & _ & E1).
  apply wp_optimized_memcpy; [done..|]. intros m2 (B2 & _ & E2). by rewrite B1, B2, E1, E2.
Qed.

(** The vector fill is [memset], for fewer than 64 bytes and when eight
    registers fit behind the aligned start. *)
Theorem optimized_memset_equiv avx2 m dst v n :
  0 < m_base m -> 0 <= n -> regs_ok m -> in_range m dst n ->
  n < 64 \/ 8 * width avx2 <= n - (- dst) mod width avx2 ->
  wp (memset dst v n) (fun r1 m1 => wp (optimized_memset avx2 dst v n) (fun r2 m2 =>
    r1 = dst /\ r2 = dst /\ m_base m2 = m_base m1 /\ m_bytes m2 = m_bytes m1 /\
    m_bytes m1 = put (off m dst) (replicate (Z.to_nat n) (u8 v)) (m_bytes m)) m) m.
Proof.
  intros Hb Hn Hr Hi Hbig. apply wp_memset; [done..|]. apply wp_optimized_memset; [done..|].
  intros m2 B2 _ E2. by rewrite B2, E2.
Qed.

(** The fill by pixels writes the pixel [n] times, little end first. *)
Theorem optimized_memset_dword_correct avx2 m dst v n :
  0 < m_base m -> 0 <= n -> regs_ok m -> dst mod 4 = 0 -> in_range m dst (4 * n) ->
  n < 16 \/ 8 * width avx2 <= 4 * n - (- dst) mod width avx2 ->
  wp (optimized_memset_dword avx2 dst v n) (fun r m' => r = dst /\
    m_bytes m' = put (off m dst) (concat (replicate (Z.to_nat n) (le32 v))) (m_bytes m)) m.
Proof. intros. by apply wp_optimized_memset_dword. Qed.

(** A string copied elsewhere compares equal to the original and to no
    other string, and has its length. *)
Theorem strcpy_roundtrip m dest src p s t :
  in_range m dest (zlen s + 1) -> c_string m src s -> c_string m p t -> s <> [] ->
  dest + zlen s + 1 <= src \/ src + zlen s + 1 <= dest -> dest + zlen s + 1 <= p \/ p + zlen t + 1 <= dest ->
  wp (_ <-- strcpy dest src ;; a <-- strcmp dest src ;; b <-- strcmp dest p ;; l <-- strlen dest ;; kret (a, b, l))
    (fun r _ => r = (0, if decide (s = t) then 0 else -1, zlen s)) m.
Proof.
  intros Hr Hs Ht Hne Hd Hp. wp_steps. eapply wp_strcpy; [done..|]. wp_steps.
  assert (Hz : zlen (s ++ [0]) = zlen s + 1) by (unfold zlen; rewrite length_app; cbn; lia).
  assert (Hc : c_string (filled m dest (s ++ [0])) dest s) by (apply c_string_copied; [done|by destruct Hs as (_ & _ & ?)]).
  eapply wp_strcmp; [exact Hc|apply c_string_filled; [by rewrite Hz|exact Hs|lia]|by left|]. rewrite decide_True by done. wp_steps.
  eapply wp_strcmp; [exact Hc|apply c_string_filled; [by rewrite Hz|exact Ht|lia]|by left|]. wp_steps.
  eapply wp_strlen; [exact Hc|]. by wp_steps.
Qed.

(** ** Witnesses *)

(** Memory at address 4096, registers full of nines. *)
Definition memory (bs : list Z) : machine := Machine 4096 bs (replicate 8 (replicate 32 9)).
Lemma memory_regs bs : regs_ok (memory bs).
Proof. split; [done|]. by apply Forall_replicate. Qed.

Definition ramp (n : nat) : list Z := Z.of_nat <$> seq 0 n.

Lemma optimized_memcpy_equiv_witness :
  wp (memcpy 4096 4400 300) (fun r1 m1 => wp (optimized_memcpy true 4096 4400 300) (fun r2 m2 =>
    r1 = 4096 /\ r2 = 4096 /\ m_base m2 = m_base m1 /\ m_bytes m2 = m_bytes m1 /\
    m_bytes m1 = put 0 (field 300 304 (ramp 700)) (ramp 700)) (memory (ramp 700))) (memory (ramp 700)).
Proof.
  apply (optimized_memcpy_equiv true (memory (ramp 700)) 4096 4400 300); try (vm_compute; intuition congruence).
  apply memory_regs.
Defined.

Lemma optimized_memset_equiv_witness :
  wp (memset 4099 5 300) (fun r1 m1 => wp (optimized_memset true 4099 5 300) (fun r2 m2 =>
    r1 = 4099 /\ r2 = 4099 /\ m_base m2 = m_base m1 /\ m_bytes m2 = m_bytes m1 /\
    m_bytes m1 = put 3 (replicate 300 5) (ramp 400)) (memory (ramp 400))) (memory (ramp 400)).
Proof.
  apply (optimized_memset_equiv true (memory (ramp 400)) 4099 5 300); try (vm_compute; intuition congruence).
  apply memory_regs.
Defined.

Lemma optimized_memset_dword_correct_witness :
  wp (optimized_memset_dword false 4100 258 40) (fun r m' => r = 4100 /\
    m_bytes m' = put 4 (concat (replicate 40 [2; 1; 0; 0])) (ramp 300)) (memory (ramp 300)).
Proof.
  apply (optimized_memset_dword_correct false (memory (ramp 300)) 4100 258 40); try (vm_compute; intuition congruence).
  apply memory_regs.
Defined.

Lemma strcpy_roundtrip_witness :
  wp (_ <-- strcpy 4106 4096 ;; a <-- strcmp 4106 4096 ;; b <-- strcmp 4106 4100 ;; l <-- strlen 4106 ;; kret (a, b, l))
    (fun r _ => r = (0, -1, 3)) (memory [97; 98; 99; 0; 97; 98; 0; 1; 1; 1; 1; 1; 1; 1; 1]).
Proof.
  apply (strcpy_roundtrip (memory [97; 98; 99; 0; 97; 98; 0; 1; 1; 1; 1; 1; 1; 1; 1]) 4106 4096 4100 [97; 98; 99] [97; 98]).
  - vm_compute. intuition congruence.
  - split_and!; [vm_compute; intuition congruence | done | repeat constructor; try lia; unfold byte; lia].
  - split_and!; [vm_compute; intuition congruence | done | repeat constructor; try lia; unfold byte; lia].
  - done.
  - right. vm_compute. congruence.
  - right. vm_compute. congruence.
Defined.

(** ** Outside the theorems' conditions *)

(** Between 64 bytes and a block of eight registers the pattern is never loaded:
    the fill writes what register 0 held before. *)
Lemma memset_stale_register :
  (fun r => match r with Ok (_, m) => m_bytes m | Stop _ => [] end) (optimized_memset false 4096 0 64 (memory (replicate 64 7))) =
  replicate 64 9.
Proof. vm_compute. reflexivity. Qed.
Lemma memset_dword_stale_register :
  (fun r => match r with Ok (_, m) => m_bytes m | Stop _ => [] end) (optimized_memset_dword true 4096 0 40 (memory (replicate 160 7))) =
  replicate 160 9.
Proof. vm_compute. reflexivity. Qed.

(** Two empty strings: the loop compares what follows their ends. *)
Lemma strcmp_empty_differ :
  (fun r => match r with Ok (x, _) => Some x | Stop _ => None end) (strcmp 4096 4098 (memory [0; 97; 0; 98; 0])) = Some (-1).
Proof. vm_compute. reflexivity. Qed.

(** [strncpy] does not stop at the end of the source and writes [count + 1]
    bytes: eight characters do not fit a buffer of eight. *)
Lemma strncpy_overflow : strncpy 4096 4104 8 (memory ([1; 1; 1; 1; 1; 1; 1; 1; 97; 0; 5; 5; 5; 5; 5; 5])) =
  Ok (8, memory [97; 0; 5; 5; 5; 5; 5; 5; 0; 0; 5; 5; 5; 5; 5; 5]).
Proof. vm_compute. reflexivity. Qed.
