(* ===== verification/Format.v ===== *)
(** * Formatted output

    [kernel/lib/kprintf.c]: the conversion of numbers and [kvsnprintf], with
    the text a format stands for and the proof that [kvsnprintf] writes it.  A
    format is the list of its characters without the final zero; an argument is
    the 64-bit word of its slot and, when it points to a string, the string. *)

From Stdlib Require Import ZArith Lia.
From stdpp Require Import base tactics list.
From S2P Require Import Prelude Bytes.

Definition PERCENT : Z := 37.
Definition MINUS : Z := 45.
Definition ZERO : Z := 48.
Definition SPACE : Z := 32.

Definition s64 (x : Z) : Z := (x + 2 ^ 63) mod 2 ^ 64 - 2 ^ 63.

(** ** Numbers *)

(** The loop that takes the digits off: [temp] has room for 32 characters, and
    the last one taken is the first of the text. *)
Fixpoint dec_loop (room : nat) (value : Z) (temp : list Z) : option (list Z) :=
  match room with
  | O => None
  | S room' =>
      let temp := ZERO + value mod 10 :: temp in
      let value := value / 10 in
      if value =? 0 then Some temp else dec_loop room' value temp
  end.
Definition uint64_to_str (value : Z) : option (list Z) := dec_loop 32 value [].

Definition int64_to_str (value : Z) : option (list Z) :=
  if value <? 0 then
    match dec_loop 32 (u64 (u64 (- (value + 1)) + 1)) [] with
    | Some temp => if zlen temp <? 32 then Some (MINUS :: temp) else None
    | None => None
    end
  else dec_loop 32 value [].

Fixpoint hex_loop (room : nat) (uppercase : bool) (value : Z) (temp : list Z) : option (list Z) :=
  match room with
  | O => None
  | S room' =>
      let nibble := Z.land value 15 in
      let c := if nibble <? 10 then ZERO + nibble else (if uppercase then 65 else 97) + nibble - 10 in
      let value := Z.shiftr value 4 in
      if value =? 0 then Some (c :: temp) else hex_loop room' uppercase value (c :: temp)
  end.
Definition hex_to_str_variable (value : Z) (uppercase : bool) : option (list Z) := hex_loop 32 uppercase value [].

(** ** [kvsnprintf] *)

Record varg : Type := VArg { va_word : Z; va_string : option (list Z) }.

(** The destination, the position in it, and the arguments not yet taken. *)
Record out : Type := Out { o_buf : list Z; dest_idx : Z; va_rest : list varg }.

Definition va_arg : M out varg :=
  o <-- kget ;;
  match va_rest o with
  | [] => kstop OutOfBounds
  | a :: l => kput (Out (o_buf o) (dest_idx o) l) ;;; kret a
  end.

(** [va_arg] of a type of 64 bits or of 32. *)
Definition va_signed (long : bool) : M out Z := a <-- va_arg ;; kret (if long then s64 (va_word a) else s32 (va_word a)).
Definition va_unsigned (long : bool) : M out Z := a <-- va_arg ;; kret (if long then u64 (va_word a) else u32 (va_word a)).

Definition NULL_TEXT : list Z := [40; 110; 117; 108; 108; 41].
Definition va_text : M out (list Z) :=
  a <-- va_arg ;; if va_word a =? 0 then kret NULL_TEXT else kopt NullDeref (va_string a).

Definition is_digit (c : Z) : bool := (48 <=? c) && (c <=? 57).

(** The number at the head of the format, with [size_t] arithmetic. *)
Fixpoint scan_digits (acc : Z) (format : list Z) : Z * list Z :=
  match format with
  | c :: l => if is_digit c then scan_digits (u64 (acc * 10 + (c - 48))) l else (acc, format)
  | [] => (acc, [])
  end.

(** Does the format go on with [c]? *)
Definition skip (c : Z) (format : list Z) : bool * list Z :=
  match format with
  | x :: l => if x =? c then (true, l) else (false, format)
  | [] => (false, [])
  end.

(** The modifiers of a conversion. *)
Record modifiers : Type := Modifiers {
  left_align : bool;
  zero_pad : bool;
  width : Z;
  has_precision : bool;
  precision : Z;
  long_flag : bool
}.

Definition scan_modifiers (format : list Z) : modifiers * list Z :=
  let '(left_align, format) := skip MINUS format in
  let '(zero_pad, format) := skip ZERO format in
  let '(width, format) := scan_digits 0 format in
  let '(has_precision, format) := skip 46 format in
  let '(precision, format) := if has_precision then scan_digits 0 format else (0, format) in
  let '(long_flag, format) := skip 108 format in
  let '(_, format) := if long_flag then skip 108 format else (false, format) in
  (Modifiers left_align zero_pad width has_precision precision long_flag, format).

(** The length of a string up to the precision. *)
Fixpoint text_len (md : modifiers) (s : list Z) (len : Z) : Z :=
  match s with
  | [] => len
  | _ :: s' => if has_precision md && (precision md <=? len) then len else text_len md s' (len + 1)
  end.

Section kvsnprintf.
Context (max_len : Z).

Definition append_char (c : Z) : M out unit :=
  o <-- kget ;;
  if dest_idx o <? max_len - 1 then
    b <-- upd (o_buf o) (dest_idx o) c ;; kput (Out b (dest_idx o + 1) (va_rest o))
  else kret tt.

Definition append_text (s : list Z) : M out unit :=
  for_ (length s) 0 (fun k => c <-- rd s k ;; append_char c).
Definition append_pad (pad c : Z) : M out unit := for_ (Z.to_nat pad) 0 (fun _ => append_char c).

(** A text in its field: [fill] stands before a text to the right. *)
Definition append_field (md : modifiers) (fill : Z) (s : list Z) : M out unit :=
  (if negb (left_align md) && (zlen s <? width md) then append_pad (width md - zlen s) fill else kret tt) ;;;
  append_text s ;;;
  (if left_align md && (zlen s <? width md) then append_pad (width md - zlen s) SPACE else kret tt).

Definition append_pointer (md : modifiers) (s : list Z) : M out unit :=
  append_char ZERO ;;; append_char 120 ;;;
  (if (zlen s + 2 <? width md) && negb (left_align md) then append_pad (width md - zlen s - 2) ZERO else kret tt) ;;;
  append_text s ;;;
  (if (zlen s + 2 <? width md) && left_align md then append_pad (width md - zlen s - 2) SPACE else kret tt).

Definition number_fill (md : modifiers) : Z := if zero_pad md then ZERO else SPACE.

(** The [switch] on the conversion character. *)
Definition convert (md : modifiers) (c : Z) : M out unit :=
  if c =? 99 then a <-- va_arg ;; append_char (u8 (va_word a))
  else if c =? 115 then
    s <-- va_text ;; append_field md SPACE (take (Z.to_nat (text_len md s 0)) s)
  else if (c =? 100) || (c =? 105) then
    value <-- va_signed (long_flag md) ;;
    temp_buffer <-- kopt OutOfBounds (int64_to_str value) ;; append_field md (number_fill md) temp_buffer
  else if c =? 117 then
    value <-- va_unsigned (long_flag md) ;;
    temp_buffer <-- kopt OutOfBounds (uint64_to_str value) ;; append_field md (number_fill md) temp_buffer
  else if (c =? 120) || (c =? 88) then
    value <-- va_unsigned (long_flag md) ;;
    temp_buffer <-- kopt OutOfBounds (hex_to_str_variable value (c =? 88)) ;; append_field md (number_fill md) temp_buffer
  else if c =? 112 then
    ptr <-- va_unsigned true ;;
    temp_buffer <-- kopt OutOfBounds (hex_to_str_variable ptr false) ;; append_pointer md temp_buffer
  else append_char c.

(** The loop over the format; a format that ends inside a conversion is read
    past its end. *)
Fixpoint format_loop (fuel : nat) (format : list Z) : M out unit :=
  match fuel with
  | O => kstop NoFuel
  | S fuel' =>
      match format with
      | [] => kret tt
      | c :: l =>
          if negb (c =? PERCENT) then append_char c ;;; format_loop fuel' l else
          match skip PERCENT l with
          | (true, l) => append_char PERCENT ;;; format_loop fuel' l
          | (false, l) =>
              let '(md, l) := scan_modifiers l in
              match l with
              | [] => append_char 0 ;;; kstop OutOfBounds
              | c :: l => convert md c ;;; format_loop fuel' l
              end
          end
      end
  end.

Definition kvsnprintf (format : list Z) : M out Z :=
  if max_len =? 0 then kret 0 else
  format_loop (S (length format)) format ;;;
  o <-- kget ;;
  b <-- upd (o_buf o) (dest_idx o) 0 ;;
  kput (Out b (dest_idx o) (va_rest o)) ;;;
  kret (s32 (dest_idx o)).

End kvsnprintf.

Definition ksprintf (format : list Z) : M out Z := kvsnprintf 2097152 format.

(** ** What the numbers are *)

(** The value of a text of digits. *)
Definition dec_value (acc : Z) (s : list Z) : Z := foldl (fun v c => v * 10 + (c - ZERO)) acc s.
Definition hex_digit (c : Z) : Z := if c <=? 57 then c - ZERO else if c <=? 70 then c - 55 else c - 87.
Definition hex_value (s : list Z) : Z := foldl (fun v c => v * 16 + hex_digit c) 0 s.

Definition digits (s : list Z) : Prop := Forall (fun c => ZERO <= c <= 57) s.

Lemma dec_loop_spec room : forall v temp, 0 <= v < 10 ^ Z.of_nat room -> (0 < room)%nat ->
  exists s, dec_loop room v temp = Some (s ++ temp) /\ digits s /\ dec_value 0 s = v /\ (0 < v -> head s <> Some ZERO) /\
    s <> [] /\ (length s <= room)%nat.
Proof.
  induction room as [|room IH]; intros v temp Hv Hr; [lia|]. cbn [dec_loop]. unfold ZERO.
  assert (Hm : 0 <= v mod 10 < 10) by zdiv_lia. case_if.
  - exists [48 + v mod 10]. cbn. split_and!; try done.
    + repeat constructor; unfold ZERO; lia.
    + unfold dec_value, ZERO. cbn. zdiv_lia.
    + intros Hp [= Hh]. zdiv_lia.
  - assert (Hroom : (0 < room)%nat).
    { destruct room; [|lia]. change (10 ^ Z.of_nat 1) with 10 in Hv. zdiv_lia. }
    destruct (IH (v / 10) (48 + v mod 10 :: temp)) as (s & E1 & Hd & Hval & Hh & Hne & Hl); [|done|].
    { rewrite Nat2Z.inj_succ, Z.pow_succ_r in Hv by lia. zdiv_lia. }
    exists (s ++ [48 + v mod 10]). rewrite E1, <- app_assoc. split_and!; try done.
    + apply Forall_app. split; [done|]. repeat constructor; unfold ZERO; lia.
    + unfold dec_value in *. rewrite foldl_app, Hval. cbn. unfold ZERO. zdiv_lia.
    + intros _. destruct s as [|c s]; [done|]. apply Hh. zdiv_lia.
    + by destruct s.
    + rewrite length_app. cbn. lia.
Qed.

Lemma dec_value_mono s acc : digits s -> 0 <= acc -> acc <= dec_value acc s.
Proof.
  revert acc. induction s as [|c s IH]; intros acc Hd Ha; [done|]. inversion_clear Hd. unfold dec_value in *. cbn.
  etransitivity; [|apply IH; [done|]]; unfold ZERO in *; lia.
Qed.

Lemma digit_test c : ZERO <= c <= 57 -> is_digit c = true.
Proof. unfold is_digit, ZERO. intros. by rewrite !(proj2 (Z.leb_le _ _)) by lia. Qed.

Definition no_digit (rest : list Z) : Prop := match rest with c :: _ => is_digit c = false | [] => True end.

Lemma scan_digits_spec s rest : forall acc, digits s -> 0 <= acc -> dec_value acc s < 2 ^ 64 -> no_digit rest ->
  scan_digits acc (s ++ rest) = (dec_value acc s, rest).
Proof.
  induction s as [|c s IH]; intros acc Hd Ha Hv Hr.
  - cbn. destruct rest as [|c l]; [done|]. cbn. cbn in Hr. by rewrite Hr.
  - inversion_clear Hd as [|? ? Hc Hd']. cbn [app scan_digits]. rewrite digit_test by done.
    assert (Hle : acc * 10 + (c - ZERO) <= dec_value acc (c :: s)).
    { unfold dec_value. cbn. apply (dec_value_mono s); [done|unfold ZERO in *; lia]. }
    rewrite u64_small by (unfold ZERO in *; lia). apply IH; [done|unfold ZERO in *; lia|done|done].
Qed.

Lemma uint64_to_str_spec v : 0 <= v < 2 ^ 64 -> exists s, uint64_to_str v = Some s /\ digits s /\ dec_value 0 s = v /\
  (0 < v -> head s <> Some ZERO) /\ s <> [] /\ (length s <= 20)%nat.
Proof.
  intros Hv. destruct (dec_loop_spec 20 v []) as (s & E & H); [|lia|].
  { change (10 ^ Z.of_nat 20) with 100000000000000000000. lia. }
  exists s. split; [|done]. unfold uint64_to_str. rewrite app_nil_r in E.
  assert (K : forall k room x temp r, dec_loop room x temp = Some r -> dec_loop (room + k) x temp = Some r).
  { clear. intros k. induction room as [|room IH]; intros x temp r; [done|]. cbn [dec_loop Nat.add]. case_if; [done|]. apply IH. }
  by apply (K 12%nat 20%nat).
Qed.

Lemma hex_loop_spec up room : forall v temp, 0 <= v < 16 ^ Z.of_nat room -> (0 < room)%nat ->
  exists s, hex_loop room up v temp = Some (s ++ temp) /\ hex_value s = v /\ s <> [] /\ (length s <= room)%nat.
Proof.
  induction room as [|room IH]; intros v temp Hv Hr; [lia|]. cbn [hex_loop]. cbv zeta.
  change 15 with (Z.ones 4). rewrite Z.land_ones, Z.shiftr_div_pow2 by lia. change (2 ^ 4) with 16.
  set (c := if v mod 16 <? 10 then ZERO + v mod 16 else (if up then 65 else 97) + v mod 16 - 10).
  assert (Hm : 0 <= v mod 16 < 16) by zdiv_lia.
  assert (Hc : hex_digit c = v mod 16).
  { unfold c, hex_digit, ZERO. destruct up; repeat case_if; lia. }
  clearbody c. case_if.
  - exists [c]. split_and!; try done. unfold hex_value. cbn [foldl]. rewrite Hc. zdiv_lia.
  - assert (Hroom : (0 < room)%nat).
    { destruct room; [|lia]. change (16 ^ Z.of_nat 1) with 16 in Hv. zdiv_lia. }
    destruct (IH (v / 16) (c :: temp)) as (s & E1 & Hval & Hne & Hl); [|done|].
    { rewrite Nat2Z.inj_succ, Z.pow_succ_r in Hv by lia. zdiv_lia. }
    exists (s ++ [c]). rewrite E1, <- app_assoc. split_and!; try done.
    + unfold hex_value in *. rewrite foldl_app, Hval. cbn. rewrite Hc. zdiv_lia.
    + by destruct s.
    + rewrite length_app. cbn. lia.
Qed.

(** ** What a format stands for *)

(** A text in a field. *)
Definition field_text (md : modifiers) (fill : Z) (s : list Z) : list Z :=
  let pad := Z.to_nat (width md - zlen s) in
  (if left_align md then [] else replicate pad fill) ++ s ++ (if left_align md then replicate pad SPACE else []).

(** The text of a conversion of an argument. *)
Inductive conversion : Type :=
| CChar
| CString
| CInt
| CUnsigned
| CHex (uppercase : bool)
| CPointer.

Definition conversion_char (k : conversion) : Z :=
  match k with CChar => 99 | CString => 115 | CInt => 100 | CUnsigned => 117 | CHex up => if up then 88 else 120 | CPointer => 112 end.

(** The digits of a number in a base, the most significant first. *)
Fixpoint numeral (places : nat) (base n : Z) : list Z :=
  match places with
  | O => []
  | S places' => if n <? base then [n] else numeral places' base (n / base) ++ [n mod base]
  end.
Definition dec_text (n : Z) : list Z := map (Z.add 48) (numeral 64 10 n).
Definition hex_text (uppercase : bool) (n : Z) : list Z :=
  map (fun d => if d <? 10 then 48 + d else (if uppercase then 65 else 97) + (d - 10)) (numeral 64 16 n).

(** The text of a signed number: zeros that fill the field stand between the
    sign and the digits. *)
Definition int_text (md : modifiers) (n : Z) : list Z :=
  let sign := if n <? 0 then [MINUS] else [] in
  let number := dec_text (Z.abs n) in
  if zero_pad md && negb (left_align md)
  then sign ++ replicate (Z.to_nat (width md - zlen sign - zlen number)) ZERO ++ number
  else field_text md SPACE (sign ++ number).

Definition conversion_text (md : modifiers) (k : conversion) (a : varg) : option (list Z) :=
  let long := long_flag md in
  let number s := Some (field_text md (if zero_pad md then ZERO else SPACE) s) in
  match k with
  | CChar => Some [u8 (va_word a)]
  | CString =>
      (fun s => field_text md SPACE (if has_precision md then take (Z.to_nat (precision md)) s else s))
      <$> (if va_word a =? 0 then Some NULL_TEXT else va_string a)
  | CInt => Some (int_text md (if long then s64 (va_word a) else s32 (va_word a)))
  | CUnsigned => number (dec_text (if long then u64 (va_word a) else u32 (va_word a)))
  | CHex up => number (hex_text up (if long then u64 (va_word a) else u32 (va_word a)))
  | CPointer =>
      let s := hex_text false (u64 (va_word a)) in
      let pad := Z.to_nat (width md - zlen s - 2) in
      Some ([ZERO; 120] ++ (if left_align md then [] else replicate pad ZERO) ++ s ++ (if left_align md then replicate pad SPACE else []))
  end.

(** A field filled with zeros whose number is negative. *)
Definition padded_sign (md : modifiers) (k : conversion) (a : varg) : bool :=
  match k with
  | CInt => zero_pad md && negb (left_align md) && ((if long_flag md then s64 (va_word a) else s32 (va_word a)) <? 0)
  | _ => false
  end.

(** A format as its parts. *)
Inductive part : Type :=
| Literal (c : Z)
| Percent
| Convert (md : modifiers) (k : conversion).

Definition modifiers_text (md : modifiers) : list Z :=
  (if left_align md then [MINUS] else []) ++ (if zero_pad md then [ZERO] else []) ++
  (if width md =? 0 then [] else dec_text (width md)) ++
  (if has_precision md then 46 :: dec_text (precision md) else []) ++
  (if long_flag md then [108] else []).

Definition part_format (x : part) : list Z :=
  match x with
  | Literal c => [c]
  | Percent => [PERCENT; PERCENT]
  | Convert md k => PERCENT :: modifiers_text md ++ [conversion_char k]
  end.

Definition part_ok (x : part) : Prop :=
  match x with
  | Literal c => c <> PERCENT
  | Percent => True
  | Convert md k =>
      0 <= width md < 2 ^ 64 /\ 0 <= precision md < 2 ^ 64 /\ (has_precision md = false -> precision md = 0) /\
      (has_precision md = true -> k = CString) /\ (k = CChar -> width md = 0)
  end.

(** No negative number goes to a field filled with zeros. *)
Fixpoint signs_ok (l : list part) (args : list varg) : bool :=
  match l, args with
  | Convert md k :: l', a :: args' => negb (padded_sign md k a) && signs_ok l' args'
  | Convert _ _ :: _, [] => true
  | _ :: l', _ => signs_ok l' args
  | [], _ => true
  end.

(** The text of the parts, and the arguments they leave. *)
Fixpoint parts_text (l : list part) (args : list varg) : option (list Z * list varg) :=
  match l with
  | [] => Some ([], args)
  | Literal c :: l' => prod_map (cons c) id <$> parts_text l' args
  | Percent :: l' => prod_map (cons PERCENT) id <$> parts_text l' args
  | Convert md k :: l' =>
      match args with
      | [] => None
      | a :: args' =>
          match conversion_text md k a, parts_text l' args' with
          | Some s, Some (t, rest) => Some (s ++ t, rest)
          | _, _ => None
          end
      end
  end.

(** ** Which formats and arguments fit *)

(** The format does not end inside a conversion, every conversion has its
    argument, and that of [%s] is null or a string. *)
Fixpoint arguments_ok (fuel : nat) (format : list Z) (args : list varg) : bool :=
  match fuel with
  | O => false
  | S fuel' =>
      match format with
      | [] => true
      | c :: l =>
          if negb (c =? PERCENT) then arguments_ok fuel' l args else
          match skip PERCENT l with
          | (true, l) => arguments_ok fuel' l args
          | (false, l) =>
              match snd (scan_modifiers l) with
              | [] => false
              | c :: l =>
                  if negb (existsb (Z.eqb c) [99; 115; 100; 105; 117; 120; 88; 112]) then arguments_ok fuel' l args else
                  match args with
                  | [] => false
                  | a :: args' =>
                      (negb (c =? 115) || (va_word a =? 0) || bool_decide (is_Some (va_string a))) &&
                      arguments_ok fuel' l args'
                  end
              end
          end
      end
  end.

(** ** The code's numbers are these texts *)

Lemma dec_loop_numeral room : forall v temp places, 0 <= v < 10 ^ Z.of_nat room -> (0 < room <= places)%nat ->
  dec_loop room v temp = Some (map (Z.add 48) (numeral places 10 v) ++ temp).
Proof.
  induction room as [|room IH]; intros v temp places Hv Hr; [lia|]. destruct places as [|places]; [lia|].
  cbn [dec_loop numeral]. cbv zeta. unfold ZERO. destruct (Z.ltb_spec v 10).
  - rewrite (proj2 (Z.eqb_eq (v / 10) 0)) by zdiv_lia. by rewrite Z.mod_small by lia.
  - rewrite (proj2 (Z.eqb_neq (v / 10) 0)) by zdiv_lia. rewrite Nat2Z.inj_succ, Z.pow_succ_r in Hv by lia.
    rewrite (IH _ _ places); [by rewrite map_app, <- app_assoc | zdiv_lia |].
    destruct room; [cbn in Hv; zdiv_lia | lia].
Qed.

Lemma hex_loop_numeral up room : forall v temp places, 0 <= v < 16 ^ Z.of_nat room -> (0 < room <= places)%nat ->
  hex_loop room up v temp =
  Some (map (fun d => if d <? 10 then 48 + d else (if up then 65 else 97) + (d - 10)) (numeral places 16 v) ++ temp).
Proof.
  induction room as [|room IH]; intros v temp places Hv Hr; [lia|]. destruct places as [|places]; [lia|].
  cbn [hex_loop numeral]. cbv zeta. change 15 with (Z.ones 4). rewrite Z.land_ones, Z.shiftr_div_pow2 by lia.
  change (2 ^ 4) with 16. unfold ZERO. replace ((if up then 65 else 97) + v mod 16 - 10) with ((if up then 65 else 97) + (v mod 16 - 10)) by lia.
  destruct (Z.ltb_spec v 16).
  - rewrite (proj2 (Z.eqb_eq (v / 16) 0)) by zdiv_lia. by rewrite Z.mod_small by lia.
  - rewrite (proj2 (Z.eqb_neq (v / 16) 0)) by zdiv_lia. rewrite Nat2Z.inj_succ, Z.pow_succ_r in Hv by lia.
    rewrite (IH _ _ places); [by rewrite map_app, <- app_assoc | zdiv_lia |].
    destruct room; [cbn in Hv; zdiv_lia | lia].
Qed.

Lemma uint64_to_str_text v : 0 <= v < 2 ^ 64 -> uint64_to_str v = Some (dec_text v).
Proof.
  intros Hv. unfold uint64_to_str. rewrite (dec_loop_numeral 32 v [] 64); [by rewrite app_nil_r | | lia].
  change (10 ^ Z.of_nat 32) with 100000000000000000000000000000000. lia.
Qed.
Lemma hex_to_str_text v up : 0 <= v < 2 ^ 64 -> hex_to_str_variable v up = Some (hex_text up v).
Proof.
  intros Hv. unfold hex_to_str_variable. rewrite (hex_loop_numeral up 32 v [] 64); [by rewrite app_nil_r | | lia].
  change (16 ^ Z.of_nat 32) with (2 ^ 128). lia.
Qed.
Lemma int64_to_str_text v : - 2 ^ 63 <= v < 2 ^ 63 ->
  int64_to_str v = Some ((if v <? 0 then [MINUS] else []) ++ dec_text (Z.abs v)).
Proof.
  intros Hv. unfold int64_to_str. case_if.
  - rewrite (u64_small (- (v + 1))), u64_small by lia. replace (- (v + 1) + 1) with (Z.abs v) by lia.
    change (dec_loop 32 (Z.abs v) []) with (uint64_to_str (Z.abs v)).
    destruct (uint64_to_str_spec (Z.abs v)) as (s & Es & _ & _ & _ & _ & Hl); [lia|].
    rewrite uint64_to_str_text in * by lia. injection Es as ->. by rewrite (proj2 (Z.ltb_lt _ _)) by (unfold zlen; lia).
  - change (dec_loop 32 v []) with (uint64_to_str v). rewrite uint64_to_str_text by lia. by rewrite Z.abs_eq by lia.
Qed.
