(* ===== verification/FormatThms.v ===== *)
(** * [kvsnprintf] writes the text of its format

    [written] is the destination after a text: its first [max_len - 1] bytes.
    Every step appends to the text, so the whole writes the concatenation. *)

From Stdlib Require Import ZArith Lia.
From stdpp Require Import base tactics list.
From S2P Require Import Prelude Bytes KlibThms Format.

Section writing.
Context (max_len : Z) (buf : list Z).
Hypothesis Hmax : 1 <= max_len.

Definition written (t : list Z) (args : list varg) : out :=
  Out (put 0 (take (Z.to_nat (max_len - 1)) t) buf) (Z.min (max_len - 1) (zlen t)) args.

(** The destination holds the text with its final zero. *)
Definition room (t : list Z) : Prop := Z.min (max_len - 1) (zlen t) < zlen buf.

Lemma room_app t s : room (t ++ s) -> room t.
Proof using. unfold room, zlen. rewrite length_app. lia. Qed.

Lemma insert_put (l : list Z) i c : (i < length l)%nat -> <[i := c]> l = put i [c] l.
Proof using.
  intros Hi. apply list_eq. intros j. rewrite put_lookup by (cbn; lia). cbn [length].
  destruct (decide (j = i)) as [->|].
  - rewrite list_lookup_insert_eq by done. rewrite decide_True by lia. by rewrite Nat.sub_diag.
  - rewrite list_lookup_insert_ne by done. by rewrite decide_False by lia.
Qed.

Lemma wp_append_char t c args (Q : unit -> out -> Prop) :
  room (t ++ [c]) -> Q tt (written (t ++ [c]) args) -> wp (append_char max_len c) Q (written t args).
Proof using Hmax.
  intros Hr HQ. unfold append_char, room, zlen in *. rewrite length_app in Hr. cbn [length] in Hr. wp_steps.
  unfold written at 1, zlen. cbn [dest_idx]. case_if.
  - assert (Hlt : (length t < length buf)%nat) by lia.
    assert (Hl : length (put 0 (take (Z.to_nat (max_len - 1)) t) buf) = length buf) by (apply put_length; rewrite length_take; lia).
    wp_steps. unfold written at 1 2. cbn [o_buf dest_idx]. apply wp_upd; [unfold zlen; rewrite Hl; lia|]. wp_steps.
    match goal with |- Q tt ?o => assert (Ho : o = written (t ++ [c]) args) end; [|by rewrite Ho].
    unfold written, zlen. rewrite length_app. cbn [length]. cbn [dest_idx o_buf va_rest]. f_equal; [|lia].
    replace (Z.to_nat (Z.min (max_len - 1) (Z.of_nat (length t)))) with (0 + length t)%nat by lia.
    rewrite !take_ge in * by (rewrite ?length_app; cbn; lia). rewrite insert_put by lia. apply (put_put 0). lia.
  - apply wp_ret. match goal with |- Q tt ?o => assert (Ho : o = written (t ++ [c]) args) end; [|by rewrite Ho].
    unfold written, zlen. rewrite length_app. cbn [length]. f_equal; [|lia]. f_equal.
    by rewrite take_app_le by lia.
Qed.

Lemma wp_append_pad t n c args (Q : unit -> out -> Prop) :
  room (t ++ replicate (Z.to_nat n) c) -> Q tt (written (t ++ replicate (Z.to_nat n) c) args) ->
  wp (append_pad max_len n c) Q (written t args).
Proof using Hmax.
  intros Hr HQ. unfold append_pad.
  apply (wp_for (fun j o => o = written (t ++ replicate (Z.to_nat j) c) args)).
  - by rewrite app_nil_r.
  - intros j o Hj ->. assert (E : replicate (Z.to_nat (j + 1)) c = replicate (Z.to_nat j) c ++ [c]).
    { replace (Z.to_nat (j + 1)) with (Z.to_nat j + 1)%nat by lia. by rewrite replicate_add. }
    apply wp_append_char; [|by rewrite <- app_assoc, <- E]. rewrite <- app_assoc, <- E.
    unfold room, zlen in *. rewrite length_app, length_replicate in *. lia.
  - intros o ->. by rewrite Z.add_0_l, Nat2Z.id.
Qed.

Lemma wp_append_text t s args (Q : unit -> out -> Prop) :
  room (t ++ s) -> Q tt (written (t ++ s) args) -> wp (append_text max_len s) Q (written t args).
Proof using Hmax.
  intros Hr HQ. unfold append_text.
  apply (wp_for (fun j o => o = written (t ++ take (Z.to_nat j) s) args)).
  - by rewrite app_nil_r.
  - intros j o Hj ->. destruct (zlen_lookup s j) as [c Hc]; [unfold zlen; lia|].
    assert (E : take (Z.to_nat (j + 1)) s = take (Z.to_nat j) s ++ [c]).
    { replace (Z.to_nat (j + 1)) with (S (Z.to_nat j)) by lia. by apply take_S_r. }
    wp_steps. eapply wp_rd; [lia|exact Hc|]. apply wp_append_char; [|by rewrite <- app_assoc, <- E].
    rewrite <- app_assoc, <- E. unfold room, zlen in *. rewrite length_app, length_take in *. lia.
  - intros o ->. rewrite Z.add_0_l, Nat2Z.id, take_ge by lia. done.
Qed.

(** An optional padding. *)
Lemma wp_append_if t (b : bool) n c args (Q : unit -> out -> Prop) :
  (b = false -> n <= 0) ->
  room (t ++ replicate (Z.to_nat n) c) -> Q tt (written (t ++ replicate (Z.to_nat n) c) args) ->
  wp (if b then append_pad max_len n c else kret tt) Q (written t args).
Proof using Hmax.
  intros Hb Hr HQ. destruct b; [by apply wp_append_pad|]. apply wp_ret. specialize (Hb eq_refl).
  replace (Z.to_nat n) with 0%nat in HQ by lia. by rewrite app_nil_r in HQ.
Qed.

Lemma wp_append_field md fill s t args (Q : unit -> out -> Prop) :
  room (t ++ field_text md fill s) -> Q tt (written (t ++ field_text md fill s) args) ->
  wp (append_field max_len md fill s) Q (written t args).
Proof using Hmax.
  unfold field_text, append_field. set (pad := width md - zlen s). intros Hr HQ. wp_steps.
  destruct (left_align md); cbn [negb andb app] in *.
  - apply wp_ret. wp_steps. rewrite app_assoc in Hr, HQ. apply wp_append_text; [by eapply room_app|].
    apply wp_append_if; [|done|done]. intros E. zbool. lia.
  - rewrite app_nil_r, app_assoc in Hr, HQ. apply wp_append_if; [intros E; zbool; lia|by eapply room_app|].
    wp_steps. apply wp_append_text; [done|]. by apply wp_ret.
Qed.

Lemma wp_append_pointer md s t args (Q : unit -> out -> Prop) :
  let pad := Z.to_nat (width md - zlen s - 2) in
  let text := [ZERO; 120] ++ (if left_align md then [] else replicate pad ZERO) ++ s ++ (if left_align md then replicate pad SPACE else []) in
  room (t ++ text) -> Q tt (written (t ++ text) args) -> wp (append_pointer max_len md s) Q (written t args).
Proof using Hmax.
  cbv zeta. unfold append_pointer. change [ZERO; 120] with ([ZERO] ++ [120]). rewrite <- app_assoc. intros Hr HQ. wp_steps.
  rewrite !(app_assoc t) in Hr, HQ. rewrite !(app_assoc (t ++ [ZERO])) in Hr, HQ.
  set (t' := (t ++ [ZERO]) ++ [120]) in *.
  assert (Hr' : room t') by (by eapply room_app).
  apply wp_append_char; [by eapply room_app|]. wp_steps. apply wp_append_char; [done|]. fold t'. wp_steps.
  destruct (left_align md); cbn [negb andb app] in *.
  - rewrite andb_false_r. apply wp_ret. wp_steps. rewrite app_assoc in Hr, HQ. apply wp_append_text; [by eapply room_app|].
    rewrite andb_true_r. apply wp_append_if; [|done|done]. intros E. zbool. lia.
  - rewrite andb_true_r, app_nil_r, app_assoc in *. apply wp_append_if; [intros E; zbool; lia|by eapply room_app|].
    wp_steps. apply wp_append_text; [done|]. rewrite andb_false_r. by apply wp_ret.
Qed.

(** *** Conversions *)

Lemma wp_va_arg t a args (Q : varg -> out -> Prop) : Q a (written t args) -> wp va_arg Q (written t (a :: args)).
Proof using. intros HQ. unfold va_arg. wp_steps. cbn [va_rest written]. by wp_steps. Qed.

Lemma text_len_spec md s : forall len, 0 <= len -> 0 <= precision md ->
  text_len md s len = len + if has_precision md then Z.min (zlen s) (Z.max 0 (precision md - len)) else zlen s.
Proof using.
  unfold zlen. induction s as [|c s IH]; intros len Hl Hp; cbn [text_len length]; [destruct (has_precision md); lia|].
  destruct (has_precision md) eqn:E; cbn [andb]; [case_if; [lia|]|]; rewrite IH by lia; lia.
Qed.
Lemma text_len_take md s : 0 <= precision md ->
  take (Z.to_nat (text_len md s 0)) s = if has_precision md then take (Z.to_nat (precision md)) s else s.
Proof using.
  intros Hp. rewrite text_len_spec by lia. unfold zlen. destruct (has_precision md).
  - destruct (decide (precision md <= Z.of_nat (length s))); [f_equal; lia|]. rewrite !take_ge by lia. done.
  - apply take_ge. lia.
Qed.

(** The values of a 64-bit and of a 32-bit argument. *)
Lemma signed_range (long : bool) x : - 2 ^ 63 <= (if long then s64 x else s32 x) < 2 ^ 63.
Proof using. destruct long; unfold s64, s32; zdiv_lia. Qed.
Lemma unsigned_range (long : bool) x : 0 <= (if long then u64 x else u32 x) < 2 ^ 64.
Proof using. destruct long; unfold u64, u32; zdiv_lia. Qed.

Lemma int_text_field md n :
  zero_pad md && negb (left_align md) && (n <? 0) = false ->
  int_text md n = field_text md (number_fill md) ((if n <? 0 then [MINUS] else []) ++ dec_text (Z.abs n)).
Proof using.
  unfold int_text, field_text, number_fill. cbv zeta. destruct (zero_pad md), (left_align md), (n <? 0); try done.
  intros _. cbn [andb negb app]. rewrite app_nil_r. do 2 f_equal. unfold zlen. cbn. lia.
Qed.

Lemma wp_convert md k a s t args (Q : unit -> out -> Prop) : 0 <= precision md -> padded_sign md k a = false ->
  conversion_text md k a = Some s -> room (t ++ s) -> Q tt (written (t ++ s) args) ->
  wp (convert max_len md (conversion_char k)) Q (written t (a :: args)).
Proof using Hmax.
  intros Hp Hsg Hs Hr HQ. unfold convert, va_signed, va_unsigned, va_text.
  destruct k; cbn [conversion_char Z.eqb Pos.eqb orb]; cbn [conversion_text] in Hs.
  - injection Hs as <-. wp_steps. apply wp_va_arg. by apply wp_append_char.
  - wp_steps. apply wp_va_arg. apply fmap_Some in Hs as (x & Hx & ->). rewrite <- text_len_take in Hr, HQ by done.
    case_if; [injection Hx as <-; wp_steps; by apply wp_append_field|]. eapply wp_opt; [exact Hx|]. by apply wp_append_field.
  - injection Hs as <-. wp_steps. apply wp_va_arg. wp_steps. eapply wp_opt; [apply int64_to_str_text, signed_range|].
    rewrite int_text_field in Hr, HQ by done. by apply wp_append_field.
  - injection Hs as <-. wp_steps. apply wp_va_arg. wp_steps. eapply wp_opt; [apply uint64_to_str_text, unsigned_range|].
    by apply wp_append_field.
  - destruct uppercase; cbn [Z.eqb Pos.eqb orb];
      (injection Hs as <-; wp_steps; apply wp_va_arg; wp_steps; eapply wp_opt; [apply hex_to_str_text, unsigned_range|];
       by apply wp_append_field).
  - injection Hs as <-. wp_steps. apply wp_va_arg. wp_steps. eapply wp_opt; [apply hex_to_str_text, (unsigned_range true)|].
    by apply wp_append_pointer.
Qed.
End writing.

(** ** The modifiers are read back *)

Lemma dec_text_spec n : 0 <= n < 2 ^ 64 ->
  digits (dec_text n) /\ dec_value 0 (dec_text n) = n /\ (0 < n -> head (dec_text n) <> Some ZERO) /\ dec_text n <> [].
Proof.
  intros Hn. destruct (uint64_to_str_spec n Hn) as (s & E & Hd & Hv & Hh & Hne & _).
  rewrite uint64_to_str_text in E by done. by injection E as <-.
Qed.

Lemma scan_number n rest : 0 <= n < 2 ^ 64 -> no_digit rest -> scan_digits 0 (dec_text n ++ rest) = (n, rest).
Proof.
  intros Hn Hr. destruct (dec_text_spec n Hn) as (Hd & Hv & _). rewrite scan_digits_spec by (done || lia). by rewrite Hv.
Qed.
Lemma scan_no_digit rest : no_digit rest -> scan_digits 0 rest = (0, rest).
Proof. destruct rest as [|c l]; [done|]. cbn. by intros ->. Qed.

Lemma skip_here c l : skip c (c :: l) = (true, l).
Proof. unfold skip. by rewrite Z.eqb_refl. Qed.
Lemma skip_other c l : head l <> Some c -> skip c l = (false, l).
Proof. destruct l as [|x l]; [done|]. cbn. intros H. case_if; [congruence|done]. Qed.

(** The characters that can follow: none is a digit, a minus or a point. *)
Definition tail_char (c : Z) : bool := (c =? 108) || (c =? 99) || (c =? 115) || (c =? 100) || (c =? 117) || (c =? 120) || (c =? 88) || (c =? 112).
Lemma tail_char_spec c : tail_char c = true -> is_digit c = false /\ c <> 46 /\ c <> ZERO /\ c <> MINUS.
Proof. unfold tail_char, is_digit, ZERO, MINUS. intros H. repeat (apply orb_prop in H as [H|H]); zbool; subst c; done. Qed.

Lemma scan_modifiers_text md k rest : 0 <= width md < 2 ^ 64 -> 0 <= precision md < 2 ^ 64 ->
  (has_precision md = false -> precision md = 0) ->
  scan_modifiers (modifiers_text md ++ conversion_char k :: rest) = (md, conversion_char k :: rest).
Proof.
  intros Hw Hp Hnp. destruct md as [la zp w hp p lg]. cbn [left_align zero_pad width has_precision precision long_flag] in *.
  unfold modifiers_text. cbn [left_align zero_pad width has_precision precision long_flag]. rewrite <- !app_assoc.
  set (t1 := (if lg then [108] else []) ++ conversion_char k :: rest).
  assert (H1 : exists c l, t1 = c :: l /\ tail_char c = true).
  { unfold t1. destruct lg; [by eexists _, _|]. eexists _, _. split; [done|]. by destruct k as [| | | |[]|]. }
  destruct H1 as (c1 & l1 & E1 & Hc1). destruct (tail_char_spec c1 Hc1) as (Hd1 & Hp1 & Hz1 & Hm1).
  set (t2 := (if hp then 46 :: dec_text p else []) ++ t1).
  assert (H2 : exists c l, t2 = c :: l /\ is_digit c = false /\ c <> ZERO /\ c <> MINUS).
  { unfold t2. destruct hp; [by eexists 46, _|]. rewrite E1. by eexists _, _. }
  destruct H2 as (c2 & l2 & E2 & Hd2 & Hz2 & Hm2).
  set (t3 := (if w =? 0 then [] else dec_text w) ++ t2).
  assert (S3 : scan_digits 0 t3 = (w, t2)).
  { unfold t3. assert (no_digit t2) by (rewrite E2; done). destruct (Z.eqb_spec w 0) as [->|Hn]; [by apply scan_no_digit|by apply scan_number]. }
  assert (H3 : head t3 <> Some ZERO /\ head t3 <> Some MINUS).
  { unfold t3. destruct (Z.eqb_spec w 0) as [->|Hn]; [rewrite E2; cbn; split; congruence|].
    destruct (dec_text_spec w Hw) as (D & _ & Hh & Hne). destruct (dec_text w) as [|x s]; [done|]. cbn in *.
    inversion_clear D. split; [apply Hh; lia|]. unfold ZERO, MINUS in *. intros [= ->]. lia. }
  unfold scan_modifiers.
  assert (Sa : skip MINUS ((if la then [MINUS] else []) ++ (if zp then [ZERO] else []) ++ t3) = (la, (if zp then [ZERO] else []) ++ t3)).
  { destruct la; [apply skip_here|]. apply skip_other. destruct zp; [done|]. cbn [app]. tauto. }
  assert (Sz : skip ZERO ((if zp then [ZERO] else []) ++ t3) = (zp, t3)).
  { destruct zp; [apply skip_here|]. apply skip_other. cbn [app]. tauto. }
  rewrite Sa, Sz, S3. unfold t2. clear Sa Sz S3.
  assert (Sl : (let '(long_flag, format) := skip 108 t1 in
    let '(_, format) := if long_flag then skip 108 format else (false, format) in (long_flag, format)) = (lg, conversion_char k :: rest)).
  { unfold t1. destruct lg; cbn [app]; [rewrite skip_here|]; rewrite skip_other; try done; by destruct k as [| | | |[]|]. }
  destruct hp; cbn [app].
  - rewrite skip_here, (scan_number p t1) by (done || by rewrite E1). destruct (skip 108 t1) as [b f]. destruct b.
    + destruct (skip 108 f). by injection Sl as -> ->.
    + by injection Sl as -> ->.
  - rewrite skip_other by (rewrite E1; cbn; congruence). destruct (skip 108 t1) as [b f]. rewrite Hnp in * by done. destruct b.
    + destruct (skip 108 f). by injection Sl as -> ->.
    + by injection Sl as -> ->.
Qed.

Lemma scan_modifiers_percent f : snd (scan_modifiers (PERCENT :: f)) = PERCENT :: f.
Proof.
  unfold scan_modifiers. rewrite !(skip_other MINUS), !(skip_other ZERO) by done. rewrite scan_no_digit by done.
  rewrite !(skip_other 46), !(skip_other 108) by done. done.
Qed.

(** ** The theorems *)

Definition format_of (l : list part) : list Z := concat (part_format <$> l).

Lemma part_format_len x : (1 <= length (part_format x))%nat.
Proof. destruct x; cbn; lia. Qed.

Lemma wp_format_loop max_len buf : 1 <= max_len -> forall l fuel t args text rest (Q : unit -> out -> Prop),
  (length (format_of l) < fuel)%nat -> Forall part_ok l -> signs_ok l args = true -> parts_text l args = Some (text, rest) ->
  room max_len buf (t ++ text) -> Q tt (written max_len buf (t ++ text) rest) ->
  wp (format_loop max_len fuel (format_of l)) Q (written max_len buf t args).
Proof.
  intros Hmax. induction l as [|x l IH]; intros fuel t args text rest Q Hf Hok Hsg Ht Hr HQ; (destruct fuel as [|fuel]; [lia|]).
  - injection Ht as <- <-. rewrite app_nil_r in HQ. by apply wp_ret.
  - inversion_clear Hok as [|? ? Hx Hl]. unfold format_of in *. cbn [fmap list_fmap concat] in *. rewrite length_app in Hf.
    pose proof (part_format_len x). fold (format_of l) in *. destruct x as [c| |md k]; cbn [part_format app part_ok parts_text signs_ok] in *.
    + destruct (parts_text l args) as [[t' r']|] eqn:E; [|done]. injection Ht as <- <-. cbn [id] in HQ. change (c :: t') with ([c] ++ t') in Hr, HQ.
      rewrite app_assoc in Hr, HQ. cbn [format_loop]. rewrite (proj2 (Z.eqb_neq _ _) Hx). cbn [negb]. wp_steps.
      apply wp_append_char; [done|by eapply room_app|]. eapply IH; [cbn in Hf; lia|done..].
    + destruct (parts_text l args) as [[t' r']|] eqn:E; [|done]. injection Ht as <- <-. cbn [id] in HQ. change (PERCENT :: t') with ([PERCENT] ++ t') in Hr, HQ.
      rewrite app_assoc in Hr, HQ. cbn [format_loop]. rewrite Z.eqb_refl. cbn [negb]. rewrite skip_here. wp_steps.
      apply wp_append_char; [done|by eapply room_app|]. eapply IH; [cbn in Hf; lia|done..].
    + destruct args as [|a args]; [done|]. destruct (conversion_text md k a) as [s|] eqn:Es; [|done].
      destruct (parts_text l args) as [[t' r']|] eqn:E; [|done]. injection Ht as <- <-. destruct Hx as (Hw & Hp & Hnp & _).
      apply andb_prop in Hsg as [Hsg Hsgl]. apply negb_true_iff in Hsg.
      rewrite app_assoc in Hr, HQ. cbn [format_loop]. rewrite Z.eqb_refl. cbn [negb].
      rewrite <- app_assoc. cbn [app]. pose proof (scan_modifiers_text md k (format_of l) Hw Hp Hnp) as Hscan.
      assert (Hsk : skip PERCENT (modifiers_text md ++ conversion_char k :: format_of l) = (false, modifiers_text md ++ conversion_char k :: format_of l)).
      { apply skip_other. intros Hh. destruct (modifiers_text md ++ conversion_char k :: format_of l) as [|x f]; [done|].
        injection Hh as ->. apply (f_equal snd) in Hscan. rewrite scan_modifiers_percent in Hscan. injection Hscan as Hc _.
        by destruct k as [| | | |[]|]. }
      rewrite Hsk, Hscan. wp_steps. eapply wp_convert; [done|lia|done|exact Es|by eapply room_app|].
      eapply IH; [|done..]. cbn in Hf. rewrite length_app in Hf. cbn in Hf. lia.
Qed.

Lemma wp_kvsnprintf max_len buf l args text rest (Q : Z -> out -> Prop) :
  1 <= max_len < 2 ^ 31 -> Forall part_ok l -> signs_ok l args = true -> parts_text l args = Some (text, rest) ->
  Z.min (max_len - 1) (zlen text) < zlen buf ->
  Q (Z.min (max_len - 1) (zlen text))
    (Out (put 0 (take (Z.to_nat (max_len - 1)) text ++ [0]) buf) (Z.min (max_len - 1) (zlen text)) rest) ->
  wp (kvsnprintf max_len (format_of l)) Q (Out buf 0 args).
Proof.
  intros Hmax Hok Hsg Ht Hr HQ. unfold kvsnprintf. rewrite (proj2 (Z.eqb_neq max_len 0)) by lia. wp_steps.
  assert (E0 : Out buf 0 args = written max_len buf [] args).
  { unfold written. rewrite take_nil, put_nil. f_equal. unfold zlen. cbn. lia. }
  rewrite E0. eapply wp_format_loop; [lia|lia|done|exact Hsg|exact Ht|exact Hr|]. cbn [app]. wp_steps.
  assert (Hl : length (put 0 (take (Z.to_nat (max_len - 1)) text) buf) = length buf)
    by (apply put_length; rewrite length_take; unfold zlen in *; lia).
  unfold written at 1 2. cbn [o_buf dest_idx]. apply wp_upd; [unfold zlen in *; rewrite Hl; lia|]. wp_steps. cbn [dest_idx va_rest written].
  rewrite s32_small by (unfold zlen; lia). match goal with |- Q _ ?o => match type of HQ with Q _ ?o' => assert (Ho : o = o') end end; [|by rewrite Ho].
  f_equal. rewrite insert_put by (rewrite Hl; unfold zlen in *; lia).
  replace (Z.to_nat (Z.min (max_len - 1) (zlen text))) with (0 + length (take (Z.to_nat (max_len - 1)) text))%nat
    by (rewrite length_take; unfold zlen; lia).
  apply put_put. lia.
Qed.

(** *** Any format *)

(** A run that finishes in [Q], or stops at an argument or a character that is
    not there. *)
Definition wpl {A} (m : M out A) (Q : A -> out -> Prop) (s : out) : Prop :=
  match m s with Ok (a, s') => Q a s' | Stop e => e = OutOfBounds \/ e = NullDeref end.

Lemma wpl_bind {A B} (m : M out A) (k : A -> M out B) Q s : wpl m (fun a s' => wpl (k a) Q s') s -> wpl (kbind m k) Q s.
Proof. unfold wpl, kbind. by destruct (m s) as [[a s']|]. Qed.
Lemma wpl_wp {A} (m : M out A) Q s : wp m Q s -> wpl m Q s.
Proof. unfold wp, wpl. by destruct (m s) as [[a s']|]. Qed.
Lemma wpl_mono {A} (m : M out A) (P Q : A -> out -> Prop) s : wpl m P s -> (forall a s', P a s' -> Q a s') -> wpl m Q s.
Proof. unfold wpl. destruct (m s) as [[a s']|]; auto. Qed.
Lemma wpl_opt {A} e (o : option A) (Q : A -> out -> Prop) s : e = OutOfBounds \/ e = NullDeref -> (forall a, o = Some a -> Q a s) -> wpl (kopt e o) Q s.
Proof. intros He HQ. destruct o; [by apply HQ | done]. Qed.

Section any_format.
Context (max_len : Z) (buf : list Z).
Hypothesis Hmax : 1 <= max_len <= zlen buf.

(** The destination after some text. *)
Definition some_text (o : out) : Prop := exists t args, o = written max_len buf t args.

Lemma room_any t : room max_len buf t.
Proof using Hmax. unfold room. lia. Qed.

Lemma wpl_va_arg (Q : varg -> out -> Prop) o : some_text o -> (forall a o', some_text o' -> Q a o') -> wpl va_arg Q o.
Proof using.
  intros (t & args & ->) HQ. destruct args as [|a args]; [by left|].
  apply wpl_wp, wp_va_arg, HQ. by exists t, args.
Qed.

(** What appends keeps the form and the arguments. *)
Definition more_text (args : list varg) (o : out) : Prop := exists t, o = written max_len buf t args.
Definition appends (m : M out unit) : Prop :=
  forall t args, wp m (fun _ => more_text args) (written max_len buf t args).
Lemma wpl_appends m (Q : unit -> out -> Prop) o : appends m -> some_text o -> (forall o', some_text o' -> Q tt o') -> wpl m Q o.
Proof using.
  intros Hm (t & args & ->) HQ. apply wpl_wp. eapply wp_mono; [apply Hm|]. intros [] o' [t' ->]. apply HQ. by exists t', args.
Qed.

Lemma appends_char c : appends (append_char max_len c).
Proof using Hmax. intros t args. apply wp_append_char; [lia|apply room_any|]. by eexists. Qed.
Lemma appends_field md fill s : appends (append_field max_len md fill s).
Proof using Hmax. intros t args. apply wp_append_field; [lia|apply room_any|]. by eexists. Qed.
Lemma appends_pointer md s : appends (append_pointer max_len md s).
Proof using Hmax. intros t args. apply wp_append_pointer; [lia|apply room_any|]. by eexists. Qed.

Lemma wpl_number (v : M out Z) (f : Z -> option (list Z)) (g : list Z -> M out unit) (Q : unit -> out -> Prop) o :
  (forall s, appends (g s)) -> (forall R : Z -> out -> Prop, (forall x o', some_text o' -> R x o') -> wpl v R o) ->
  (forall o', some_text o' -> Q tt o') ->
  wpl (value <-- v ;; temp <-- kopt OutOfBounds (f value) ;; g temp) Q o.
Proof using.
  intros Hg Hv HQ. apply wpl_bind, Hv. intros x o' Ho'. apply wpl_bind, wpl_opt; [auto|]. intros s _. by apply wpl_appends.
Qed.
Lemma wpl_signed long (R : Z -> out -> Prop) o : some_text o -> (forall x o', some_text o' -> R x o') -> wpl (va_signed long) R o.
Proof using. intros Ho HR. apply wpl_bind, wpl_va_arg; [done|]. intros a o' Ho'. by apply wpl_wp, wp_ret, HR. Qed.
Lemma wpl_unsigned long (R : Z -> out -> Prop) o : some_text o -> (forall x o', some_text o' -> R x o') -> wpl (va_unsigned long) R o.
Proof using. intros Ho HR. apply wpl_bind, wpl_va_arg; [done|]. intros a o' Ho'. by apply wpl_wp, wp_ret, HR. Qed.

Lemma wpl_convert md c (Q : unit -> out -> Prop) o : some_text o -> (forall o', some_text o' -> Q tt o') -> wpl (convert max_len md c) Q o.
Proof using Hmax.
  intros Ho HQ. pose proof appends_char. pose proof (fun fill => appends_field md fill). pose proof (appends_pointer md). unfold convert.
  repeat case_match;
    first [ by apply wpl_appends
          | by apply wpl_number; [done| |done]; intros; first [apply wpl_signed | apply wpl_unsigned]
          | by apply wpl_bind, wpl_va_arg; [done|]; intros; apply wpl_appends
          | idtac ].
  apply wpl_bind, wpl_bind, wpl_va_arg; [done|]. intros a o' Ho'. case_if; [by apply wpl_wp, wp_ret, wpl_appends|].
  apply wpl_opt; [auto|]. intros s _. by apply wpl_appends.
Qed.

Lemma scan_digits_len l : forall acc, (length (snd (scan_digits acc l)) <= length l)%nat.
Proof using. induction l as [|c l IH]; intros acc; [done|]. cbn. case_match; [|done]. etransitivity; [apply IH|]. lia. Qed.
Lemma skip_len c l : (length (snd (skip c l)) <= length l)%nat.
Proof using. destruct l as [|x l]; [done|]. cbn. case_match; cbn; lia. Qed.
Lemma scan_modifiers_len l : (length (snd (scan_modifiers l)) <= length l)%nat.
Proof using.
  unfold scan_modifiers.
  pose proof (skip_len MINUS l). destruct (skip MINUS l) as [la l1]. pose proof (skip_len ZERO l1). destruct (skip ZERO l1) as [z l2].
  pose proof (scan_digits_len l2 0). destruct (scan_digits 0 l2) as [w l3]. pose proof (skip_len 46 l3). destruct (skip 46 l3) as [p l4].
  assert (H' : (length (snd (if p then scan_digits 0 l4 else (0%Z, l4))) <= length l4)%nat) by (destruct p; [apply scan_digits_len|done]).
  destruct (if p then scan_digits 0 l4 else (0%Z, l4)) as [pr l5].
  pose proof (skip_len 108 l5). destruct (skip 108 l5) as [lg l6].
  assert (H'' : (length (snd (if lg then skip 108 l6 else (false, l6))) <= length l6)%nat) by (destruct lg; [apply skip_len|done]).
  destruct (if lg then skip 108 l6 else (false, l6)) as [ll l7]. cbn [snd] in *. lia.
Qed.

Lemma wpl_format_loop fuel : forall l o, (length l < fuel)%nat -> some_text o ->
  wpl (format_loop max_len fuel l) (fun _ => some_text) o.
Proof using Hmax.
  pose proof appends_char as Ha. induction fuel as [|fuel IH]; intros l o Hl Ho; [lia|]. cbn [format_loop].
  destruct l as [|c l]; [done|]. cbn [length] in Hl. case_if.
  { apply wpl_bind, wpl_appends; [done..|]. intros o' Ho'. apply IH; [lia|done]. }
  pose proof (skip_len PERCENT l). destruct (skip PERCENT l) as [[] l1]; cbn [snd] in *.
  { apply wpl_bind, wpl_appends; [done..|]. intros o' Ho'. apply IH; [lia|done]. }
  pose proof (scan_modifiers_len l1). destruct (scan_modifiers l1) as [md l2]. cbn [snd] in *. destruct l2 as [|c2 l2].
  - apply wpl_bind, wpl_appends; [done..|]. intros. by left.
  - cbn in *. apply wpl_bind, wpl_convert; [done|]. intros o' Ho'. apply IH; [lia|done].
Qed.

(** *** Formats whose arguments fit *)

Lemma wp_convert_plain md c t args :
  existsb (Z.eqb c) [99; 115; 100; 105; 117; 120; 88; 112] = false ->
  wp (convert max_len md c) (fun _ => more_text args) (written max_len buf t args).
Proof using Hmax.
  cbn [existsb]. intros H. rewrite !orb_false_iff in H. destruct H as (E1 & E2 & E3 & E4 & E5 & E6 & E7 & E8 & _).
  unfold convert. rewrite E1, E2, E3, E4, E5, E6, E7, E8. cbn [orb]. apply appends_char.
Qed.

Lemma wp_convert_arg md c a t args :
  existsb (Z.eqb c) [99; 115; 100; 105; 117; 120; 88; 112] = true ->
  negb (c =? 115) || (va_word a =? 0) || bool_decide (is_Some (va_string a)) = true ->
  wp (convert max_len md c) (fun _ => more_text args) (written max_len buf t (a :: args)).
Proof using Hmax.
  intros Hc Hs. pose proof appends_char as Ac. pose proof (fun fill s => appends_field md fill s) as Af.
  pose proof (appends_pointer md) as Ap. unfold convert, va_signed, va_unsigned, va_text. cbn [existsb] in Hc.
  destruct (c =? 99) eqn:E1; [wp_steps; apply wp_va_arg, Ac|].
  destruct (c =? 115) eqn:E2.
  { wp_steps. apply wp_va_arg. cbn [negb orb] in Hs. case_if; [wp_steps; apply Af|].
    apply orb_prop in Hs as [Hs|Hs]; [zbool; lia|].
    apply bool_decide_eq_true in Hs as [s Hs]. eapply wp_opt; [exact Hs|]. apply Af. }
  destruct ((c =? 100) || (c =? 105)) eqn:E3.
  { wp_steps. apply wp_va_arg. wp_steps. eapply wp_opt; [apply int64_to_str_text, signed_range|]. apply Af. }
  destruct (c =? 117) eqn:E4.
  { wp_steps. apply wp_va_arg. wp_steps. eapply wp_opt; [apply uint64_to_str_text, unsigned_range|]. apply Af. }
  destruct ((c =? 120) || (c =? 88)) eqn:E5.
  { wp_steps. apply wp_va_arg. wp_steps. eapply wp_opt; [apply hex_to_str_text, unsigned_range|]. apply Af. }
  destruct (c =? 112) eqn:E6.
  { wp_steps. apply wp_va_arg. wp_steps. eapply wp_opt; [apply hex_to_str_text, (unsigned_range true)|]. apply Ap. }
  apply orb_false_elim in E3 as [E3 E3'], E5 as [E5 E5']. by rewrite E3, E3', E5, E5' in Hc.
Qed.

Lemma wp_format_loop_args fuel : forall l t args, arguments_ok fuel l args = true ->
  wp (format_loop max_len fuel l) (fun _ => some_text) (written max_len buf t args).
Proof using Hmax.
  induction fuel as [|fuel IH]; intros l t args Hok; [done|]. cbn [format_loop arguments_ok] in *.
  destruct l as [|c l]; [by exists t, args|]. destruct (negb (c =? PERCENT)) eqn:Ec.
  { wp_steps. eapply wp_mono; [apply appends_char|]. intros [] o [t' ->]. by apply IH. }
  destruct (skip PERCENT l) as [[] l1].
  { wp_steps. eapply wp_mono; [apply appends_char|]. intros [] o [t' ->]. by apply IH. }
  destruct (scan_modifiers l1) as [md l2]. cbn [snd] in Hok. destruct l2 as [|c2 l2]; [done|]. wp_steps.
  destruct (existsb (Z.eqb c2) _) eqn:Ek; cbn [negb] in Hok.
  - destruct args as [|a args]; [done|]. apply andb_prop in Hok as [Hs Hok].
    eapply wp_mono; [by apply wp_convert_arg|]. intros [] o [t' ->]. by apply IH.
  - eapply wp_mono; [by apply wp_convert_plain|]. intros [] o [t' ->]. by apply IH.
Qed.

(** The final zero. *)
Definition ended (r : Z) (o : out) : Prop :=
  0 <= r < max_len /\ zlen (o_buf o) = zlen buf /\ exists text,
    r = Z.min (max_len - 1) (zlen text) /\ o_buf o = put 0 (take (Z.to_nat (max_len - 1)) text ++ [0]) buf.

Lemma wp_end o : max_len < 2 ^ 31 -> some_text o ->
  wp (o <-- kget ;; b <-- upd (o_buf o) (dest_idx o) 0 ;; kput (Out b (dest_idx o) (va_rest o)) ;;; kret (s32 (dest_idx o)))
    ended o.
Proof using Hmax.
  intros Hbig (t & args & ->). wp_steps.
  assert (Hlt : length (take (Z.to_nat (max_len - 1)) t) = Z.to_nat (Z.min (max_len - 1) (zlen t))) by (rewrite length_take; unfold zlen; lia).
  pose proof (zlen_nonneg t).
  assert (Hl : length (put 0 (take (Z.to_nat (max_len - 1)) t) buf) = length buf) by (apply put_length; rewrite Hlt; unfold zlen in *; lia).
  unfold written at 1 2. cbn [o_buf dest_idx]. apply wp_upd; [unfold zlen in *; rewrite Hl; lia|]. wp_steps. unfold ended. cbn [dest_idx va_rest written o_buf].
  rewrite s32_small by lia. split_and!; [lia|lia| |].
  - rewrite zlen_insert. unfold zlen. by rewrite Hl.
  - exists t. split; [done|]. rewrite insert_put by (rewrite Hl; unfold zlen in *; lia).
    replace (Z.to_nat (Z.min (max_len - 1) (zlen t))) with (0 + length (take (Z.to_nat (max_len - 1)) t))%nat by lia.
    apply put_put. lia.
Qed.
End any_format.

(** C25: With a destination of [max_len] bytes, a format that does not end
    inside a conversion, an argument for each conversion and strings for [%s]
    ([arguments_ok]), [kvsnprintf] comes to an end: what it leaves is a text
    cut to [max_len - 1] characters and its final zero, nothing behind that is
    touched, and the length is returned.  On any other format and arguments
    the run ends too, with such a result or stopped at a bad access (as
    [percent_at_end], which reads behind the end of the format). *)
Theorem kvsnprintf_bounded max_len buf format args :
  1 <= max_len <= zlen buf -> max_len < 2 ^ 31 ->
  let post r o := 0 <= r < max_len /\ zlen (o_buf o) = zlen buf /\ exists text,
      r = Z.min (max_len - 1) (zlen text) /\ o_buf o = put 0 (take (Z.to_nat (max_len - 1)) text ++ [0]) buf in
  (arguments_ok (S (length format)) format args = true ->
   wp (kvsnprintf max_len format) post (Out buf 0 args)) /\
  match kvsnprintf max_len format (Out buf 0 args) with
  | Ok (r, o) => post r o
  | Stop e => (e = OutOfBounds \/ e = NullDeref) /\ arguments_ok (S (length format)) format args = false
  end.
Proof.
  intros Hmax Hbig post.
  assert (H0 : some_text max_len buf (Out buf 0 args)).
  { exists [], args. unfold written. rewrite take_nil, put_nil. f_equal. unfold zlen. cbn. lia. }
  assert (Hok : arguments_ok (S (length format)) format args = true -> wp (kvsnprintf max_len format) post (Out buf 0 args)).
  { intros Ha. unfold kvsnprintf. rewrite (proj2 (Z.eqb_neq max_len 0)) by lia. apply wp_bind.
    replace (Out buf 0 args) with (written max_len buf [] args)
      by (unfold written; rewrite take_nil, put_nil; f_equal; unfold zlen; cbn; lia).
    eapply wp_mono; [by apply (wp_format_loop_args max_len buf Hmax)|]. intros [] o Ho. by apply wp_end. }
  split; [exact Hok|].
  assert (Hany : wpl (kvsnprintf max_len format) post (Out buf 0 args)).
  { unfold kvsnprintf. rewrite (proj2 (Z.eqb_neq max_len 0)) by lia.
    apply wpl_bind. eapply wpl_mono; [apply (wpl_format_loop max_len buf Hmax); [lia|done]|].
    intros [] o Ho. by apply wpl_wp, wp_end. }
  unfold wpl, wp in *. destruct (kvsnprintf max_len format (Out buf 0 args)) as [[r o]|e]; [done|].
  split; [done|]. destruct (arguments_ok _ _ _); [|done]. by destruct (Hok eq_refl).
Qed.

(** C24: A format built from literal characters and the conversions [%c], [%s],
    [%d], [%u], [%x], [%X] and [%p] (width, alignment and zeros for all but
    [%c], a precision for [%s] only) is written as the text it stands for, cut
    to the size given, with exactly the arguments its conversions name taken
    from the list.  The numbers of the text are their positional numerals in
    base 10, with the sign of a negative one, or 16.  Left out is a negative
    number in a field filled with zeros: there the zeros stand before the sign
    ([zeros_before_sign]). *)
Theorem kvsnprintf_formats max_len buf l args text rest :
  1 <= max_len < 2 ^ 31 -> Forall part_ok l -> signs_ok l args = true -> parts_text l args = Some (text, rest) ->
  Z.min (max_len - 1) (zlen text) < zlen buf ->
  wp (kvsnprintf max_len (format_of l))
    (fun r o => r = Z.min (max_len - 1) (zlen text) /\ va_rest o = rest /\
      o_buf o = put 0 (take (Z.to_nat (max_len - 1)) text ++ [0]) buf) (Out buf 0 args).
Proof. intros. by eapply wp_kvsnprintf. Qed.

(** The text of a number is read back as the number by the scan that reads
    widths, has no superfluous zero, and fits the 32 characters it is built in;
    its hexadecimal text has the same value. *)
Theorem number_roundtrip v : 0 <= v < 2 ^ 64 ->
  exists s, uint64_to_str v = Some s /\ scan_digits 0 s = (v, []) /\ (0 < v -> head s <> Some ZERO) /\ (1 <= length s <= 20)%nat /\
    forall up, exists h, hex_to_str_variable v up = Some h /\ hex_value h = v /\ (1 <= length h <= 32)%nat.
Proof.
  intros Hv. destruct (uint64_to_str_spec v Hv) as (s & E & Hd & Hval & Hh & Hne & Hl). exists s. split_and!; [done| |done| |done|].
  - rewrite <- (app_nil_r s), scan_digits_spec; [by rewrite Hval|done|done|lia|done].
  - destruct s; [done|cbn; lia].
  - intros up. destruct (hex_loop_spec up 32 v []) as (h & Eh & Hvh & Hnh & Hlh); [|lia|].
    { change (16 ^ Z.of_nat 32) with (2 ^ 128). lia. }
    exists h. rewrite app_nil_r in Eh. split_and!; [done..| |done]. destruct h; [done|cbn; lia].
Qed.

(** ** Witnesses and the situations outside the conditions *)

Definition run (max_len : Z) (size : nat) (format : list Z) (args : list varg) : option (list Z) :=
  match kvsnprintf max_len format (Out (replicate size 255) 0 args) with
  | Ok (r, o) => Some (take (Z.to_nat r) (o_buf o))
  | Stop _ => None
  end.

(** ["id=%05u|%-4s|%lx%%"]. *)
Definition sample : list part :=
  [Literal 105; Literal 100; Literal 61; Convert (Modifiers false true 5 false 0 false) CUnsigned; Literal 124;
   Convert (Modifiers true false 4 false 0 false) CString; Literal 124;
   Convert (Modifiers false false 0 false 0 true) (CHex false); Percent].
Definition sample_args : list varg := [VArg 42 None; VArg 4096 (Some [97; 98]); VArg 48879 None; VArg 7 None].
Definition sample_text : list Z := [105; 100; 61; 48; 48; 48; 52; 50; 124; 97; 98; 32; 32; 124; 98; 101; 101; 102; 37].

Example sample_format : format_of sample =
  [105; 100; 61; 37; 48; 53; 117; 124; 37; 45; 52; 115; 124; 37; 108; 120; 37; 37].
Proof. vm_compute. reflexivity. Qed.

Lemma kvsnprintf_formats_witness :
  wp (kvsnprintf 16 (format_of sample))
    (fun r o => r = 15 /\ va_rest o = [VArg 7 None] /\ o_buf o = put 0 (take 15 sample_text ++ [0]) (replicate 20 255))
    (Out (replicate 20 255) 0 sample_args).
Proof.
  apply (kvsnprintf_formats 16 (replicate 20 255) sample sample_args sample_text [VArg 7 None]).
  - lia.
  - unfold sample. repeat (apply Forall_cons_2; [cbn; unfold PERCENT; repeat split; (lia || congruence || discriminate)|]). apply Forall_nil_2.
  - vm_compute. reflexivity.
  - vm_compute. reflexivity.
  - vm_compute. reflexivity.
Defined.

Lemma kvsnprintf_bounded_witness :
  wp (kvsnprintf 8 (format_of sample))
    (fun r o => 0 <= r < 8 /\ zlen (o_buf o) = 20 /\ exists text,
      r = Z.min 7 (zlen text) /\ o_buf o = put 0 (take 7 text ++ [0]) (replicate 20 255))
    (Out (replicate 20 255) 0 sample_args).
Proof.
  apply (kvsnprintf_bounded 8 (replicate 20 255) (format_of sample) sample_args);
    vm_compute; first [reflexivity | intuition congruence].
Defined.

Lemma number_roundtrip_witness :
  exists s, uint64_to_str 18446744073709551615 = Some s /\ scan_digits 0 s = (18446744073709551615, []) /\
    (0 < 18446744073709551615 -> head s <> Some ZERO) /\ (1 <= length s <= 20)%nat /\
    forall up, exists h, hex_to_str_variable 18446744073709551615 up = Some h /\ hex_value h = 18446744073709551615 /\ (1 <= length h <= 32)%nat.
Proof. apply (number_roundtrip 18446744073709551615). lia. Defined.

(** ["%05d"] of -42: the zeros stand before the sign. *)
Lemma zeros_before_sign : run 32 32 [37; 48; 53; 100] [VArg (2 ^ 64 - 42) None] = Some [48; 48; 45; 52; 50].
Proof. vm_compute. reflexivity. Qed.

(** A format that ends in [%] is read past its end. *)
Lemma percent_at_end : kvsnprintf 32 [97; 37] (Out (replicate 32 0) 0 []) = Stop OutOfBounds.
Proof. vm_compute. reflexivity. Qed.

(** ["%5c"] ignores the width, ["%.3d"] the precision. *)
Lemma char_without_width : run 32 32 [37; 53; 99] [VArg 65 None] = Some [65].
Proof. vm_compute. reflexivity. Qed.
Lemma int_without_precision : run 32 32 [37; 46; 51; 100] [VArg 7 None] = Some [55].
Proof. vm_compute. reflexivity. Qed.
