(* ===== verification/Tty.v ===== *)
(** * Terminals: queues and line discipline

    [kernel/drivers/tty/tty.c], the queues of one [struct tty_device]: two
    rings of 4096 characters, the counts of the line discipline and the two
    spinlocks of the device.  A reader that has to sleep gives the lock back and
    ends with [None]; the loop around [wait] is entered again after a wake-up,
    so what happens in between is another operation on the device. *)

From Stdlib Require Import ZArith Lia.
From stdpp Require Import base tactics list.
From S2P Require Import Prelude Bytes.

Definition TTY_BUF_SIZE : Z := 4096.
Definition TTY_ICANON : Z := 1.
Definition TTY_ECHO : Z := 2.
Definition ASCII_NL : Z := 10.
Definition ASCII_CR : Z := 13.

(** A circular buffer: the next write at [head], the next read at [tail]. *)
Record ring : Type := Ring { r_buf : list Z; r_head : Z; r_tail : Z }.

Record tty_device : Type := Tty {
  t_in : ring;
  raw_count : Z;
  lines_available : Z;
  t_out : ring;
  c_lflag : Z;
  t_lock : bool;
  user_lock : bool
}.

Definition set_t_in (x : ring) (t : tty_device) : tty_device :=
  Tty x (raw_count t) (lines_available t) (t_out t) (c_lflag t) (t_lock t) (user_lock t).
Definition set_raw_count (x : Z) (t : tty_device) : tty_device :=
  Tty (t_in t) x (lines_available t) (t_out t) (c_lflag t) (t_lock t) (user_lock t).
Definition set_lines (x : Z) (t : tty_device) : tty_device :=
  Tty (t_in t) (raw_count t) x (t_out t) (c_lflag t) (t_lock t) (user_lock t).
Definition set_t_out (x : ring) (t : tty_device) : tty_device :=
  Tty (t_in t) (raw_count t) (lines_available t) x (c_lflag t) (t_lock t) (user_lock t).
Definition set_t_lock (x : bool) (t : tty_device) : tty_device :=
  Tty (t_in t) (raw_count t) (lines_available t) (t_out t) (c_lflag t) x (user_lock t).
Definition set_user_lock (x : bool) (t : tty_device) : tty_device :=
  Tty (t_in t) (raw_count t) (lines_available t) (t_out t) (c_lflag t) (t_lock t) x.

Definition flag (t : tty_device) (bit : Z) : bool := negb (Z.land (c_lflag t) bit =? 0).

Definition tty_lock : M tty_device unit :=
  t <-- kget ;; if t_lock t then kstop Deadlock else kput (set_t_lock true t).
Definition tty_unlock : M tty_device unit := kmodify (set_t_lock false).

(** ** Rings *)

(** Is there room for one character?  One place always stays free. *)
Definition ring_next (i : Z) : Z := (i + 1) mod TTY_BUF_SIZE.
Definition ring_full (r : ring) : bool := ring_next (r_head r) =? r_tail r.
Definition ring_empty (r : ring) : bool := r_tail r =? r_head r.
Definition ring_push {S} (r : ring) (c : Z) : M S ring :=
  b <-- upd (r_buf r) (r_head r) c ;; kret (Ring b (ring_next (r_head r)) (r_tail r)).
Definition ring_pop {S} (r : ring) : M S (Z * ring) :=
  c <-- rd (r_buf r) (r_tail r) ;; kret (c, Ring (r_buf r) (r_head r) (ring_next (r_tail r))).

(** ** Registration *)

(** The device as [tty_vfs_setup_nodestruct] and [pty_create_tty_instance]
    leave it: cleared memory, canonical mode with echo. *)
Definition empty_ring : ring := Ring (replicate (Z.to_nat TTY_BUF_SIZE) 0) 0 0.
Definition new_tty : tty_device := Tty empty_ring 0 0 empty_ring (Z.lor TTY_ICANON TTY_ECHO) false false.

(** What [tty_register_driver_instance] clears. *)
Definition clear_queues (t : tty_device) : tty_device :=
  set_t_in (Ring (r_buf (t_in t)) 0 0) (set_t_out (Ring (r_buf (t_out t)) 0 0) (set_raw_count 0 (set_lines 0 t))).

(** ** The output queue *)

(** With the lock held: a full queue drops the character. *)
Definition tty_put_queue (c : Z) : M tty_device unit :=
  t <-- kget ;;
  if ring_full (t_out t) then kret tt else r <-- ring_push (t_out t) c ;; kput (set_t_out r t).

Definition tty_pop_output : M tty_device (option Z) :=
  tty_lock ;;;
  t <-- kget ;;
  if ring_empty (t_out t) then tty_unlock ;;; kret None else
  x <-- ring_pop (t_out t) ;;
  kput (set_t_out (snd x) t) ;;;
  tty_unlock ;;;
  kret (Some (fst x)).

(** ** The four queue operations *)

(** One character of the writer: [None] when the queue is full. *)
Definition in_queue_char (c : Z) : M tty_device bool :=
  let c := if c =? ASCII_CR then ASCII_NL else c in
  t <-- kget ;;
  if ring_full (t_in t) then kret false else
  r <-- ring_push (t_in t) c ;;
  kput (set_raw_count (raw_count t + 1) (set_t_in r t)) ;;;
  (if flag t TTY_ECHO then tty_put_queue c else kret tt) ;;;
  (if flag t TTY_ICANON && (c =? ASCII_NL) then kmodify (fun t => set_lines (lines_available t + 1) t) else kret tt) ;;;
  kret true.

Definition tty_write_to_in_queue (buf : list Z) : M tty_device Z :=
  let size := s32 (zlen buf) in
  if size =? 0 then kret 0 else
  tty_lock ;;;
  r <-- loop (Z.to_nat size) 0 (fun i escritos =>
    c <-- rd buf i ;;
    ok <-- in_queue_char c ;;
    kret (if ok : bool then inl (escritos + 1) else inr escritos)) 0 ;;
  tty_unlock ;;;
  kret (match r with inl n => n | inr n => n end).

(** The loop that takes characters out of the input queue: it ends with the
    queue, with the caller's buffer, or behind the newline of a line. *)
Fixpoint in_queue_take (fuel : nat) (size : Z) (buf : list Z) : M tty_device (list Z) :=
  match fuel with
  | O => kstop NoFuel
  | S fuel' =>
      t <-- kget ;;
      if ring_empty (t_in t) || (size <=? zlen buf) then kret buf else
      x <-- ring_pop (t_in t) ;;
      let '(c, r) := x in
      kput (set_raw_count (raw_count t - 1) (set_t_in r t)) ;;;
      if flag t TTY_ICANON && (c =? ASCII_NL) then
        kmodify (fun t => if 0 <? lines_available t then set_lines (lines_available t - 1) t else t) ;;;
        kret (buf ++ [c])
      else in_queue_take fuel' size (buf ++ [c])
  end.

Definition tty_read_from_in_queue (size : Z) : M tty_device (option (list Z)) :=
  let size := s32 size in
  if size =? 0 then kret (Some []) else
  tty_lock ;;;
  t <-- kget ;;
  if (flag t TTY_ICANON && (0 <? lines_available t)) || (negb (flag t TTY_ICANON) && (0 <? raw_count t)) then
    bs <-- in_queue_take (Z.to_nat TTY_BUF_SIZE) size [] ;;
    tty_unlock ;;;
    kret (Some bs)
  else tty_unlock ;;; kret None.

Definition tty_write_to_out_queue (buf : list Z) : M tty_device Z :=
  let size := s32 (zlen buf) in
  if size =? 0 then kret 0 else
  tty_lock ;;;
  r <-- loop (Z.to_nat size) 0 (fun i escritos =>
    t <-- kget ;;
    if ring_full (t_out t) then kret (inr escritos) else
    c <-- rd buf i ;;
    r <-- ring_push (t_out t) c ;;
    kput (set_t_out r t) ;;;
    kret (inl (escritos + 1))) 0 ;;
  tty_unlock ;;;
  kret (match r with inl n => n | inr n => n end).

Fixpoint out_queue_take (fuel : nat) (size : Z) (buf : list Z) : M tty_device (list Z) :=
  match fuel with
  | O => kstop NoFuel
  | S fuel' =>
      t <-- kget ;;
      if ring_empty (t_out t) || (size <=? zlen buf) then kret buf else
      x <-- ring_pop (t_out t) ;;
      kput (set_t_out (snd x) t) ;;;
      out_queue_take fuel' size (buf ++ [fst x])
  end.

Definition tty_read_from_out_queue (size : Z) : M tty_device (option (list Z)) :=
  let size := s32 size in
  if size =? 0 then kret (Some []) else
  tty_lock ;;;
  t <-- kget ;;
  if ring_empty (t_out t) then tty_unlock ;;; kret None else
  bs <-- out_queue_take (Z.to_nat TTY_BUF_SIZE) size [] ;;
  tty_unlock ;;;
  kret (Some bs).
