(* ===== verification/TtyThms.v ===== *)
(** * The line discipline refines two lists of characters

    [ring_ok] says which characters a ring holds, [dev_ok] which the queues of
    a device hold and that its counts are those of the input queue.  Every
    operation has on the lists the effect of [spec_op]. *)

From Stdlib Require Import ZArith Lia.
From stdpp Require Import base tactics list.
From S2P Require Import Prelude Bytes Tty.

(** ** Rings *)

Definition ring_ok (r : ring) (q : list Z) : Prop :=
  zlen (r_buf r) = TTY_BUF_SIZE /\ 0 <= r_head r < TTY_BUF_SIZE /\ 0 <= r_tail r < TTY_BUF_SIZE /\
  zlen q = (r_head r - r_tail r) mod TTY_BUF_SIZE /\
  forall i, (i < length q)%nat -> r_buf r !! Z.to_nat ((r_tail r + Z.of_nat i) mod TTY_BUF_SIZE) = q !! i.

Definition CAPACITY : Z := TTY_BUF_SIZE - 1.

Lemma ring_ok_len r q : ring_ok r q -> zlen q <= CAPACITY.
Proof. intros (_ & _ & _ & Hl & _). pose proof (Z.mod_pos_bound (r_head r - r_tail r) TTY_BUF_SIZE eq_refl). unfold CAPACITY. lia. Qed.

Lemma ring_full_spec r q : ring_ok r q -> ring_full r = (zlen q =? CAPACITY).
Proof.
  intros (_ & Hh & Ht & Hl & _). unfold ring_full, ring_next, CAPACITY, TTY_BUF_SIZE in *.
  destruct (Z.eqb_spec (zlen q) (4096 - 1)); [apply Z.eqb_eq | apply Z.eqb_neq]; zdiv_lia.
Qed.
Lemma ring_empty_spec r q : ring_ok r q -> ring_empty r = bool_decide (q = []).
Proof.
  intros (_ & Hh & Ht & Hl & _). unfold ring_empty, TTY_BUF_SIZE, zlen in *. case_bool_decide as Hq.
  - subst q. apply Z.eqb_eq. cbn in Hl. zdiv_lia.
  - apply Z.eqb_neq. destruct q; [done|]. intros E. rewrite E, Z.sub_diag, Z.mod_0_l in Hl by lia. cbn [length] in Hl. lia.
Qed.

Lemma wp_ring_push {X} r q c (Q : ring -> X -> Prop) s : ring_ok r q -> zlen q < CAPACITY ->
  (forall r', ring_ok r' (q ++ [c]) -> Q r' s) -> wp (ring_push r c) Q s.
Proof.
  intros (Hb & Hh & Ht & Hl & Hq) Hroom HQ. unfold ring_push. wp_steps. apply wp_upd; [by rewrite Hb|]. wp_steps. apply HQ.
  unfold ring_ok, ring_next, CAPACITY, TTY_BUF_SIZE in *. cbn [r_buf r_head r_tail]. rewrite zlen_insert.
  split_and!; try done; try zdiv_lia.
  - unfold zlen in *. rewrite length_app. cbn [length]. zdiv_lia.
  - intros i Hi. rewrite length_app in Hi. cbn in Hi. unfold zlen in *. destruct (decide (i = length q)) as [->|Hne].
    + rewrite lookup_app_r, Nat.sub_diag by lia. cbn.
      replace (Z.to_nat ((r_tail r + Z.of_nat (length q)) mod 4096)) with (Z.to_nat (r_head r)) by (rewrite Hl; f_equal; zdiv_lia).
      apply list_lookup_insert_eq. lia.
    + rewrite lookup_app_l by lia. rewrite list_lookup_insert_ne; [apply Hq; lia|]. zdiv_lia.
Qed.

Lemma wp_ring_pop {X} r c q (Q : Z * ring -> X -> Prop) s : ring_ok r (c :: q) ->
  (forall r', ring_ok r' q -> Q (c, r') s) -> wp (ring_pop r) Q s.
Proof.
  intros (Hb & Hh & Ht & Hl & Hq) HQ. unfold ring_pop. wp_steps. eapply wp_rd; [lia| |].
  { specialize (Hq 0%nat ltac:(cbn; lia)). cbn in Hq. rewrite Z.add_0_r, Z.mod_small in Hq by lia. exact Hq. }
  wp_steps. apply HQ. unfold ring_ok, ring_next, TTY_BUF_SIZE, zlen in *. cbn [r_buf r_head r_tail]. cbn [length] in Hl.
  split_and!; try done; try zdiv_lia. intros i Hi. specialize (Hq (S i) ltac:(cbn; lia)). cbn [lookup list_lookup] in Hq.
  etransitivity; [|exact Hq]. f_equal. f_equal. zdiv_lia.
Qed.

Lemma ring_ok_cleared b : zlen b = TTY_BUF_SIZE -> ring_ok (Ring b 0 0) [].
Proof. intros Hb. unfold ring_ok. cbn. split_and!; try done. intros i Hi. cbn in Hi. lia. Qed.

(** ** Devices *)

Definition newlines (q : list Z) : Z := zlen (filter (fun c => c = ASCII_NL) q).

Record dev_ok (t : tty_device) (qi qo : list Z) : Prop := {
  dev_in : ring_ok (t_in t) qi;
  dev_out : ring_ok (t_out t) qo;
  dev_raw : raw_count t = zlen qi;
  dev_lines : flag t TTY_ICANON = true -> lines_available t = newlines qi
}.

(** The characters a writer stores, and what echo adds to the output. *)
Definition cooked (c : Z) : Z := if c =? ASCII_CR then ASCII_NL else c.
Definition stored (qi buf : list Z) : list Z := take (Z.to_nat (CAPACITY - zlen qi)) (cooked <$> buf).
Definition capped (q : list Z) : list Z := take (Z.to_nat CAPACITY) q.
(** The first line with its newline, or everything. *)
Fixpoint first_line (q : list Z) : list Z :=
  match q with [] => [] | c :: q' => if c =? ASCII_NL then [c] else c :: first_line q' end.

Lemma newlines_app q1 q2 : newlines (q1 ++ q2) = newlines q1 + newlines q2.
Proof. unfold newlines, zlen. rewrite filter_app, length_app. lia. Qed.
Lemma newlines_cons c q : newlines (c :: q) = (if c =? ASCII_NL then 1 else 0) + newlines q.
Proof.
  unfold newlines, zlen. rewrite filter_cons. destruct (Z.eqb_spec c ASCII_NL); [rewrite decide_True by done|rewrite decide_False by done]; cbn [length]; lia.
Qed.
Lemma newlines_nonneg q : 0 <= newlines q.
Proof. apply zlen_nonneg. Qed.
Lemma newlines_pos q : (0 <? newlines q) = bool_decide (ASCII_NL ∈ q).
Proof.
  induction q as [|c q IH]; [done|]. rewrite newlines_cons. pose proof (newlines_nonneg q). destruct (Z.eqb_spec c ASCII_NL) as [->|Hc].
  - rewrite bool_decide_true by (by left). apply Z.ltb_lt. lia.
  - rewrite Z.add_0_l, IH. apply bool_decide_ext. rewrite elem_of_cons. split; [by right|]. intros [E|?]; [by rewrite E in Hc|done].
Qed.

Lemma capped_app q x : capped (capped q ++ x) = capped (q ++ x).
Proof.
  unfold capped. set (n := Z.to_nat CAPACITY). destruct (decide (length q <= n)%nat).
  - by rewrite (take_ge q) by lia.
  - rewrite !take_app_le by (rewrite ?length_take; lia). rewrite take_take. by rewrite Nat.min_id.
Qed.

(** *** The output queue *)

Lemma wp_put_queue t qo c (Q : unit -> tty_device -> Prop) : ring_ok (t_out t) qo ->
  (forall r, ring_ok r (capped (qo ++ [c])) -> Q tt (set_t_out r t)) -> wp (tty_put_queue c) Q t.
Proof.
  intros Ho HQ. pose proof (ring_ok_len _ _ Ho). unfold tty_put_queue. wp_steps.
  rewrite (ring_full_spec _ _ Ho). unfold capped, CAPACITY, zlen in *. case_if.
  - apply wp_ret. specialize (HQ (t_out t)). destruct t. apply HQ.
    rewrite take_app_le, take_ge by (unfold TTY_BUF_SIZE in *; lia). exact Ho.
  - wp_steps. apply (wp_ring_push _ _ _ _ _ Ho); [unfold CAPACITY, zlen; lia|]. intros r Hr. wp_steps. apply HQ.
    rewrite take_ge by (rewrite length_app; cbn; unfold TTY_BUF_SIZE in *; lia). exact Hr.
Qed.

(** *** The writer of the input queue *)

Lemma wp_in_queue_char t qi qo c (Q : bool -> tty_device -> Prop) : dev_ok t qi qo ->
  (zlen qi = CAPACITY -> Q false t) ->
  (zlen qi < CAPACITY -> forall t', dev_ok t' (qi ++ [cooked c]) (if flag t TTY_ECHO then capped (qo ++ [cooked c]) else qo) ->
    c_lflag t' = c_lflag t -> t_lock t' = t_lock t -> user_lock t' = user_lock t -> Q true t') ->
  wp (in_queue_char c) Q t.
Proof.
  intros D Hfull Hroom. destruct D as [Hi Ho Hr Hl]. pose proof (ring_ok_len _ _ Hi). unfold in_queue_char. cbv zeta.
  change (if c =? ASCII_CR then ASCII_NL else c) with (cooked c). wp_steps. rewrite (ring_full_spec _ _ Hi). case_if; [by apply wp_ret, Hfull|].
  wp_steps. apply (wp_ring_push _ _ _ _ _ Hi); [lia|]. intros r Hr'. wp_steps.
  set (t1 := set_raw_count (raw_count t + 1) (set_t_in r t)).
  assert (Hraw : raw_count t1 = zlen (qi ++ [cooked c])) by (cbn; rewrite Hr; unfold zlen; rewrite length_app; cbn; lia).
  set (q2 := if flag t TTY_ECHO then capped (qo ++ [cooked c]) else qo).
  eapply (wp_mono _ (fun _ t2 => ring_ok (t_in t2) (qi ++ [cooked c]) /\ ring_ok (t_out t2) q2 /\ raw_count t2 = zlen (qi ++ [cooked c]) /\
    lines_available t2 = lines_available t /\ c_lflag t2 = c_lflag t /\ t_lock t2 = t_lock t /\ user_lock t2 = user_lock t)).
  - unfold q2. destruct (flag t TTY_ECHO); [|by apply wp_ret; split_and!]. 
    assert (D1 : wp (tty_put_queue (cooked c)) (fun _ t2 => exists r2, t2 = set_t_out r2 t1 /\ ring_ok r2 (capped (qo ++ [cooked c]))) t1).
    { apply (wp_put_queue _ qo); [done|]. intros r2 H2. by exists r2. }
    eapply wp_mono; [exact D1|]. intros [] t2 (r2 & -> & H2). by split_and!.
  - intros [] t2 (H1 & H2 & H3 & H4 & H5 & H6 & H7).
    assert (Hfl : flag t2 TTY_ICANON = flag t TTY_ICANON) by (unfold flag; by rewrite H5).
    assert (Hn : newlines (qi ++ [cooked c]) = newlines qi + (if cooked c =? ASCII_NL then 1 else 0))
      by (rewrite newlines_app, newlines_cons; change (newlines []) with 0; lia).
    wp_steps. destruct (flag t TTY_ICANON && (cooked c =? ASCII_NL)) eqn:E0; wp_steps; apply Hroom; try lia; try done; constructor; try done; rewrite Hn.
    + apply andb_prop in E0 as [E1 E2]. intros _. cbn. rewrite E2, H4, Hl by done. done.
    + rewrite Hfl. intros Hc. rewrite Hc in E0. cbn [andb] in E0. rewrite E0, H4, Hl by done. lia.
Qed.

(** *** The operations *)

Definition echoed (t : tty_device) (qo x : list Z) : list Z := if flag t TTY_ECHO then capped (qo ++ x) else qo.

(** Device [t'] after an operation on [t]: same settings, lock given back. *)
Definition after (t t' : tty_device) : Prop := c_lflag t' = c_lflag t /\ t_lock t' = false /\ user_lock t' = user_lock t.

Lemma dev_lock t qi qo b : dev_ok t qi qo -> dev_ok (set_t_lock b t) qi qo.
Proof. intros [Hi Ho Hr Hl]. by constructor. Qed.
Lemma wp_tty_lock t (Q : unit -> tty_device -> Prop) : t_lock t = false -> Q tt (set_t_lock true t) -> wp tty_lock Q t.
Proof. intros Hl HQ. unfold tty_lock. wp_steps. rewrite Hl. by wp_steps. Qed.

Lemma wp_write_in t qi qo buf (Q : Z -> tty_device -> Prop) : dev_ok t qi qo -> t_lock t = false -> 0 < zlen buf < 2 ^ 31 ->
  (forall t', let x := stored qi buf in dev_ok t' (qi ++ x) (echoed t qo x) -> after t t' -> Q (zlen x) t') ->
  wp (tty_write_to_in_queue buf) Q t.
Proof.
  intros D Hlock Hbuf HQ. unfold tty_write_to_in_queue. rewrite s32_small, (proj2 (Z.eqb_neq _ 0)) by lia. wp_steps.
  apply wp_tty_lock; [done|]. wp_steps. pose proof (ring_ok_len _ _ (dev_in _ _ _ D)) as Hcap.
  set (fin := fun (n : Z) t2 => let x := stored qi buf in n = zlen x /\ dev_ok t2 (qi ++ x) (echoed t qo x) /\ c_lflag t2 = c_lflag t /\ user_lock t2 = user_lock t).
  eapply (wp_mono _ (fun r t2 => match r with inl n => fin n t2 | inr n => fin n t2 end)).
  - apply (wp_loop (fun j n t2 => let x := cooked <$> take (Z.to_nat j) buf in n = j /\ zlen qi + j <= CAPACITY /\
      dev_ok t2 (qi ++ x) (echoed t qo x) /\ c_lflag t2 = c_lflag t /\ user_lock t2 = user_lock t)).
    + rewrite take_0. cbn. unfold echoed. rewrite !app_nil_r. split_and!; try done; [lia|].
      destruct D as [Hi Ho Hr Hl]. constructor; try done. cbn. destruct (flag t TTY_ECHO); [|done].
      unfold capped. pose proof (ring_ok_len _ _ Ho). rewrite take_ge; [done|]. unfold zlen in *. lia.
    + intros j n t2 Hj (-> & Hle & D2 & F2 & U2). unfold zlen in Hj. rewrite Z.add_0_l in Hj.
      destruct (zlen_lookup buf j) as [c Hc]; [unfold zlen in *; lia|]. wp_steps. eapply wp_rd; [lia|exact Hc|]. wp_steps.
      assert (Hx : zlen (cooked <$> take (Z.to_nat j) buf) = j) by (unfold zlen; rewrite length_fmap, length_take; lia).
      assert (Hs : take (Z.to_nat (j + 1)) buf = take (Z.to_nat j) buf ++ [c]).
      { replace (Z.to_nat (j + 1)) with (S (Z.to_nat j)) by lia. by apply take_S_r. }
      apply (wp_in_queue_char _ _ _ _ _ D2).
      * unfold zlen at 1. rewrite length_app. intros Hfull. apply wp_ret.
        assert (Hst : stored qi buf = cooked <$> take (Z.to_nat j) buf).
        { unfold stored. rewrite <- fmap_take. do 2 f_equal. unfold zlen in *. lia. }
        unfold fin. rewrite Hst. by split_and!.
      * unfold zlen at 1. rewrite length_app. intros Hroom t3 D3 F3 L3 U3. apply wp_ret.
        split_and!; [done|unfold zlen in *; lia| |congruence|congruence]. rewrite Hs, fmap_app, app_assoc. cbn [fmap list_fmap].
        unfold echoed in *. assert (Hfl : flag t2 TTY_ECHO = flag t TTY_ECHO) by (unfold flag; by rewrite F2). rewrite Hfl in D3.
        destruct (flag t TTY_ECHO); [|done]. by rewrite capped_app, <- (app_assoc qo) in D3.
    + intros n t2 (-> & Hle & D2 & F2 & U2). rewrite Z.add_0_l, Z2Nat.id in * by lia.
      rewrite take_ge in * by (unfold zlen; lia).
      assert (Hst : stored qi buf = cooked <$> buf).
      { unfold stored. apply take_ge. rewrite length_fmap. unfold zlen in *. lia. }
      unfold fin. rewrite Hst. split_and!; try done. unfold zlen. by rewrite length_fmap.
  - intros r t2 Hr. wp_steps. assert (Hfin : exists n, fin n t2 /\ n = match r with inl n => n | inr n => n end) by (destruct r; eauto).
    destruct Hfin as (n & (-> & D2 & F2 & U2) & <-). apply HQ; [by apply dev_lock|done].
Qed.

Lemma wp_write_out t qi qo buf (Q : Z -> tty_device -> Prop) : dev_ok t qi qo -> t_lock t = false -> 0 < zlen buf < 2 ^ 31 ->
  (forall t', let x := take (Z.to_nat (CAPACITY - zlen qo)) buf in dev_ok t' qi (qo ++ x) -> after t t' -> Q (zlen x) t') ->
  wp (tty_write_to_out_queue buf) Q t.
Proof.
  intros D Hlock Hbuf HQ. unfold tty_write_to_out_queue. rewrite s32_small, (proj2 (Z.eqb_neq _ 0)) by lia. wp_steps.
  apply wp_tty_lock; [done|]. wp_steps. pose proof (ring_ok_len _ _ (dev_out _ _ _ D)) as Hcap.
  set (fin := fun (n : Z) t2 => let x := take (Z.to_nat (CAPACITY - zlen qo)) buf in
    n = zlen x /\ dev_ok t2 qi (qo ++ x) /\ c_lflag t2 = c_lflag t /\ user_lock t2 = user_lock t).
  eapply (wp_mono _ (fun r t2 => match r with inl n => fin n t2 | inr n => fin n t2 end)).
  - apply (wp_loop (fun j n t2 => let x := take (Z.to_nat j) buf in n = j /\ zlen qo + j <= CAPACITY /\
      dev_ok t2 qi (qo ++ x) /\ c_lflag t2 = c_lflag t /\ user_lock t2 = user_lock t)).
    + cbv zeta. rewrite take_0, app_nil_r. split_and!; try done; [lia|by apply dev_lock].
    + intros j n t2 Hj (-> & Hle & D2 & F2 & U2). unfold zlen in Hj. rewrite Z.add_0_l in Hj.
      destruct (zlen_lookup buf j) as [c Hc]; [unfold zlen in *; lia|]. destruct D2 as [Hi Ho Hr Hl]. wp_steps.
      assert (Hx : zlen (qo ++ take (Z.to_nat j) buf) = zlen qo + j) by (unfold zlen; rewrite length_app, length_take; lia).
      rewrite (ring_full_spec _ _ Ho), Hx. case_if.
      * apply wp_ret. unfold fin. replace (CAPACITY - zlen qo) with j by lia. split_and!; try done. unfold zlen. rewrite length_take. lia.
      * wp_steps. eapply wp_rd; [lia|exact Hc|]. wp_steps. apply (wp_ring_push _ _ _ _ _ Ho); [lia|]. intros r Hr2. wp_steps.
        replace (Z.to_nat (j + 1)) with (S (Z.to_nat j)) by lia. cbv zeta. rewrite (take_S_r _ _ _ Hc), app_assoc. by split_and!; [|lia|..].
    + intros n t2 (-> & Hle & D2 & F2 & U2). rewrite Z.add_0_l, Z2Nat.id in * by lia.
      rewrite take_ge in D2 by (unfold zlen; lia). unfold fin. rewrite take_ge by (unfold zlen in *; lia). by split_and!.
  - intros r t2 Hr. wp_steps. assert (Hfin : exists n, fin n t2 /\ n = match r with inl n => n | inr n => n end) by (destruct r; eauto).
    destruct Hfin as (n & (-> & D2 & F2 & U2) & <-). apply HQ; [by apply dev_lock|done].
Qed.

(** What a reader gets of the queue. *)
Definition line_of (t : tty_device) (qi : list Z) : list Z := if flag t TTY_ICANON then first_line qi else qi.

Definition same_settings (t t' : tty_device) : Prop := c_lflag t' = c_lflag t /\ t_lock t' = t_lock t /\ user_lock t' = user_lock t.
Lemma same_settings_trans t1 t2 t3 : same_settings t1 t2 -> same_settings t2 t3 -> same_settings t1 t3.
Proof. unfold same_settings. intuition congruence. Qed.

Lemma wp_in_queue_take size : forall fuel t qi qo buf (Q : list Z -> tty_device -> Prop),
  (length qi < fuel)%nat -> dev_ok t qi qo ->
  (forall t', let x := take (Z.to_nat (size - zlen buf)) (line_of t qi) in
    dev_ok t' (drop (length x) qi) qo -> same_settings t t' -> Q (buf ++ x) t') ->
  wp (in_queue_take fuel size buf) Q t.
Proof.
  induction fuel as [|fuel IH]; intros t qi qo buf Q Hf D HQ; [lia|]. destruct D as [Hi Ho Hr Hl]. cbn [in_queue_take]. wp_steps.
  rewrite (ring_empty_spec _ _ Hi). destruct qi as [|c qi].
  { rewrite bool_decide_true by done. cbn [orb]. apply wp_ret. specialize (HQ t); cbv zeta in HQ. unfold line_of in HQ. cbn [first_line] in HQ.
    assert (E : (if flag t TTY_ICANON then [] else []) = @nil Z) by (by destruct (flag t TTY_ICANON)). rewrite E, take_nil, app_nil_r in HQ.
    apply HQ; [|done]. by constructor. }
  rewrite bool_decide_false by done. cbn [orb]. case_if.
  { apply wp_ret. specialize (HQ t); cbv zeta in HQ. replace (Z.to_nat (size - zlen buf)) with 0%nat in HQ by lia. cbn in HQ. rewrite app_nil_r in HQ.
    apply HQ; [|done]. by constructor. }
  wp_steps. apply (wp_ring_pop _ _ _ _ _ Hi). intros r Hr'. wp_steps.
  assert (Hn : newlines (c :: qi) = (if c =? ASCII_NL then 1 else 0) + newlines qi) by apply newlines_cons.
  pose proof (newlines_nonneg qi).
  set (t1 := set_raw_count (raw_count t - 1) (set_t_in r t)).
  assert (Hraw : raw_count t1 = zlen qi) by (cbn; rewrite Hr; unfold zlen; cbn [length]; lia).
  assert (Hsz : Z.to_nat (size - zlen buf) = S (Z.to_nat (size - zlen (buf ++ [c])))) by (unfold zlen in *; rewrite length_app; cbn; lia).
  unfold line_of in HQ. cbn [first_line] in HQ. destruct (flag t TTY_ICANON) eqn:Ec; cbn [andb].
  - destruct (c =? ASCII_NL) eqn:Enl.
    + wp_steps. rewrite Hsz in HQ. rewrite take_ge in HQ by (cbn; lia). cbn [length] in HQ.
      rewrite (proj2 (Z.ltb_lt _ _)) by (cbn; rewrite Hl, Hn by done; lia).
      apply HQ; [|done]. constructor; try done. intros _. cbn. rewrite Hl, Hn by done. unfold drop. lia.
    + apply (IH _ qi qo); [cbn in Hf; lia| |].
      * constructor; try done. intros _. cbn. rewrite Hl, Hn by done. lia.
      * intros t'; cbv zeta; intros D' S'. rewrite <- app_assoc. cbn [app]. unfold line_of in *. change (flag t1 TTY_ICANON) with (flag t TTY_ICANON) in *. rewrite Ec in D'. rewrite ?Ec.
        specialize (HQ t'); cbv zeta in HQ. rewrite Hsz in HQ. cbn [take length drop] in HQ. apply HQ; [exact D'|]. by eapply same_settings_trans; [|exact S'].
  - apply (IH _ qi qo); [cbn in Hf; lia| |].
    + constructor; try done. intros Hc. exfalso. change (flag t TTY_ICANON = true) in Hc. congruence.
    + intros t'; cbv zeta; intros D' S'. rewrite <- app_assoc. cbn [app]. unfold line_of in *. change (flag t1 TTY_ICANON) with (flag t TTY_ICANON) in *. rewrite Ec in D'. rewrite ?Ec.
      specialize (HQ t'); cbv zeta in HQ. rewrite Hsz in HQ. cbn [take length drop] in HQ. apply HQ; [exact D'|]. by eapply same_settings_trans; [|exact S'].
Qed.

(** Is there something to read? *)
Definition readable (t : tty_device) (qi : list Z) : bool :=
  if flag t TTY_ICANON then bool_decide (ASCII_NL ∈ qi) else negb (bool_decide (qi = [])).

Lemma wp_read_in t qi qo size (Q : option (list Z) -> tty_device -> Prop) : dev_ok t qi qo -> t_lock t = false -> 0 < size < 2 ^ 31 ->
  (readable t qi = false -> forall t', dev_ok t' qi qo -> after t t' -> Q None t') ->
  (readable t qi = true -> forall t', let x := take (Z.to_nat size) (line_of t qi) in
    dev_ok t' (drop (length x) qi) qo -> after t t' -> Q (Some x) t') ->
  wp (tty_read_from_in_queue size) Q t.
Proof.
  intros D Hlock Hsz Hno Hyes. pose proof (ring_ok_len _ _ (dev_in _ _ _ D)) as Hcap. unfold tty_read_from_in_queue.
  rewrite s32_small, (proj2 (Z.eqb_neq size 0)) by lia. wp_steps. apply wp_tty_lock; [done|]. wp_steps.
  set (t1 := set_t_lock true t). assert (D1 : dev_ok t1 qi qo) by (by apply dev_lock).
  assert (Hcond : (flag t1 TTY_ICANON && (0 <? lines_available t1)) || (negb (flag t1 TTY_ICANON) && (0 <? raw_count t1)) = readable t qi).
  { unfold readable. change (flag t1 TTY_ICANON) with (flag t TTY_ICANON). destruct (flag t TTY_ICANON) eqn:E; cbn [andb orb negb].
    - rewrite orb_false_r, <- newlines_pos. f_equal. by apply (dev_lines _ _ _ D1).
    - rewrite (dev_raw _ _ _ D1). unfold zlen. destruct qi; [by rewrite bool_decide_true|]. rewrite bool_decide_false by done. apply Z.ltb_lt. cbn [length]. lia. }
  rewrite Hcond. destruct (readable t qi).
  - wp_steps. apply (wp_in_queue_take _ _ _ qi qo); [unfold CAPACITY, TTY_BUF_SIZE, zlen in *; lia|done|].
    intros t2; cbv zeta; intros D2 (F2 & L2 & U2). wp_steps. change (zlen []) with 0 in *. rewrite Z.sub_0_r in *. apply Hyes; [done|by apply dev_lock|done].
  - wp_steps. apply Hno; [done|by apply dev_lock|done].
Qed.

Lemma wp_out_queue_take size : forall fuel t qi qo buf (Q : list Z -> tty_device -> Prop),
  (length qo < fuel)%nat -> dev_ok t qi qo ->
  (forall t', let x := take (Z.to_nat (size - zlen buf)) qo in
    dev_ok t' qi (drop (length x) qo) -> same_settings t t' -> Q (buf ++ x) t') ->
  wp (out_queue_take fuel size buf) Q t.
Proof.
  induction fuel as [|fuel IH]; intros t qi qo buf Q Hf D HQ; [lia|]. destruct D as [Hi Ho Hr Hl]. cbn [out_queue_take]. wp_steps.
  rewrite (ring_empty_spec _ _ Ho). destruct qo as [|c qo].
  { rewrite bool_decide_true by done. cbn [orb]. apply wp_ret. specialize (HQ t); cbv zeta in HQ. rewrite take_nil, app_nil_r in HQ. apply HQ; [|done]. by constructor. }
  rewrite bool_decide_false by done. cbn [orb]. case_if.
  { apply wp_ret. specialize (HQ t); cbv zeta in HQ. replace (Z.to_nat (size - zlen buf)) with 0%nat in HQ by lia. cbn in HQ. rewrite app_nil_r in HQ.
    apply HQ; [|done]. by constructor. }
  wp_steps. apply (wp_ring_pop _ _ _ _ _ Ho). intros r Hr'. wp_steps. cbn [fst snd].
  assert (Hsz : Z.to_nat (size - zlen buf) = S (Z.to_nat (size - zlen (buf ++ [c])))) by (unfold zlen in *; rewrite length_app; cbn; lia).
  apply (IH _ qi qo); [cbn in Hf; lia|by constructor|]. intros t'; cbv zeta; intros D' S'. rewrite <- app_assoc. cbn [app].
  specialize (HQ t'); cbv zeta in HQ. rewrite Hsz in HQ. cbn [take length drop] in HQ. apply HQ; [exact D'|]. by eapply same_settings_trans; [|exact S'].
Qed.

Lemma wp_read_out t qi qo size (Q : option (list Z) -> tty_device -> Prop) : dev_ok t qi qo -> t_lock t = false -> 0 < size < 2 ^ 31 ->
  (forall t', let x := take (Z.to_nat size) qo in dev_ok t' qi (drop (length x) qo) -> after t t' ->
    Q (if bool_decide (qo = []) then None else Some x) t') ->
  wp (tty_read_from_out_queue size) Q t.
Proof.
  intros D Hlock Hsz HQ. pose proof (ring_ok_len _ _ (dev_out _ _ _ D)) as Hcap. unfold tty_read_from_out_queue.
  rewrite s32_small, (proj2 (Z.eqb_neq size 0)) by lia. wp_steps. apply wp_tty_lock; [done|]. wp_steps.
  assert (D1 : dev_ok (set_t_lock true t) qi qo) by (by apply dev_lock). rewrite (ring_empty_spec _ qo (dev_out _ _ _ D1)).
  destruct (bool_decide (qo = [])) eqn:E.
  - wp_steps. apply bool_decide_eq_true in E as ->. specialize (HQ (set_t_lock false (set_t_lock true t))); cbv zeta in HQ. rewrite take_nil in HQ.
    apply HQ; [by apply dev_lock|done].
  - wp_steps. apply (wp_out_queue_take _ _ _ qi qo); [unfold CAPACITY, TTY_BUF_SIZE, zlen in *; lia|done|].
    intros t2; cbv zeta; intros D2 (F2 & L2 & U2). wp_steps. change (zlen []) with 0 in *. rewrite Z.sub_0_r in *. apply HQ; [by apply dev_lock|done].
Qed.

Lemma wp_pop_output t qi qo (Q : option Z -> tty_device -> Prop) : dev_ok t qi qo -> t_lock t = false ->
  (forall t', dev_ok t' qi (tail qo) -> after t t' -> Q (head qo) t') -> wp tty_pop_output Q t.
Proof.
  intros D Hlock HQ. unfold tty_pop_output. wp_steps. apply wp_tty_lock; [done|]. wp_steps.
  assert (D1 : dev_ok (set_t_lock true t) qi qo) by (by apply dev_lock). rewrite (ring_empty_spec _ qo (dev_out _ _ _ D1)).
  destruct qo as [|c qo].
  - rewrite bool_decide_true by done. wp_steps. apply HQ; [by apply dev_lock|done].
  - rewrite bool_decide_false by done. wp_steps. destruct D1 as [Hi Ho Hr Hl]. apply (wp_ring_pop _ _ _ _ _ Ho). intros r Hr'. wp_steps.
    apply HQ; [|done]. by constructor.
Qed.

(** ** Any sequence of operations *)

Inductive tty_op : Type :=
| WriteIn (buf : list Z)
| ReadIn (size : Z)
| WriteOut (buf : list Z)
| ReadOut (size : Z)
| PopOutput.

Inductive tty_result : Type :=
| RCount (n : Z)
| RText (x : option (list Z))
| RChar (c : option Z).

Definition do_op (op : tty_op) : M tty_device tty_result :=
  match op with
  | WriteIn buf => n <-- tty_write_to_in_queue buf ;; kret (RCount n)
  | ReadIn size => x <-- tty_read_from_in_queue size ;; kret (RText x)
  | WriteOut buf => n <-- tty_write_to_out_queue buf ;; kret (RCount n)
  | ReadOut size => x <-- tty_read_from_out_queue size ;; kret (RText x)
  | PopOutput => c <-- tty_pop_output ;; kret (RChar c)
  end.
Fixpoint do_ops (ops : list tty_op) : M tty_device (list tty_result) :=
  match ops with [] => kret [] | op :: l => r <-- do_op op ;; rs <-- do_ops l ;; kret (r :: rs) end.

Definition op_ok (op : tty_op) : Prop :=
  match op with
  | WriteIn buf | WriteOut buf => 0 < zlen buf < 2 ^ 31
  | ReadIn size | ReadOut size => 0 < size < 2 ^ 31
  | PopOutput => True
  end.

(** The effect of an operation on the two lists, for a device in canonical mode
    with echo, the only mode the kernel sets. *)
Definition spec_op (op : tty_op) (q : list Z * list Z) : tty_result * (list Z * list Z) :=
  let '(qi, qo) := q in
  match op with
  | WriteIn buf => let x := stored qi buf in (RCount (zlen x), (qi ++ x, capped (qo ++ x)))
  | ReadIn size =>
      let x := take (Z.to_nat size) (first_line qi) in
      if bool_decide (ASCII_NL ∈ qi) then (RText (Some x), (drop (length x) qi, qo)) else (RText None, q)
  | WriteOut buf => let x := take (Z.to_nat (CAPACITY - zlen qo)) buf in (RCount (zlen x), (qi, qo ++ x))
  | ReadOut size =>
      let x := take (Z.to_nat size) qo in
      if bool_decide (qo = []) then (RText None, q) else (RText (Some x), (qi, drop (length x) qo))
  | PopOutput => (RChar (head qo), (qi, tail qo))
  end.
Fixpoint spec_ops (ops : list tty_op) (q : list Z * list Z) : list tty_result * (list Z * list Z) :=
  match ops with [] => ([], q) | op :: l => let '(r, q) := spec_op op q in let '(rs, q) := spec_ops l q in (r :: rs, q) end.

(** A device in that mode, between operations, with these queues. *)
Definition cooked_tty (t : tty_device) (q : list Z * list Z) : Prop :=
  dev_ok t (fst q) (snd q) /\ flag t TTY_ICANON = true /\ flag t TTY_ECHO = true /\ t_lock t = false.

Lemma cooked_new : cooked_tty new_tty ([], []).
Proof. split_and!; try done. by constructor; try apply ring_ok_cleared. Qed.
Lemma cooked_after t t' q q' : cooked_tty t q -> dev_ok t' (fst q') (snd q') -> after t t' -> cooked_tty t' q'.
Proof. intros (D & Hc & He & Hl) D' (F & L & U). unfold cooked_tty, flag in *. by rewrite F. Qed.

Lemma wp_do_op op t q (Q : tty_result -> tty_device -> Prop) : op_ok op -> cooked_tty t q ->
  (forall t', cooked_tty t' (snd (spec_op op q)) -> user_lock t' = user_lock t -> Q (fst (spec_op op q)) t') -> wp (do_op op) Q t.
Proof.
  intros Hok T HQ. pose proof T as (D & Hc & He & Hl). destruct q as [qi qo].
  assert (Hafter : forall t' q', dev_ok t' (fst q') (snd q') -> after t t' -> cooked_tty t' q' /\ user_lock t' = user_lock t).
  { intros t' q' D' A'. split; [by eapply cooked_after|apply A']. }
  destruct op; cbn [do_op spec_op fst snd] in *; wp_steps.
  - apply (wp_write_in t qi qo); [done..|]. intros t'; cbv zeta; intros D' A'. wp_steps. unfold echoed in D'. rewrite He in D'.
    destruct (Hafter t' (_, _) D' A'). by apply HQ.
  - unfold first_line in *. fold first_line in *. apply (wp_read_in t qi qo); [done..| |]; unfold readable, line_of; rewrite Hc;
      intros E t' D' A'; rewrite E in HQ; wp_steps; destruct (Hafter t' (_, _) D' A'); by apply HQ.
  - apply (wp_write_out t qi qo); [done..|]. intros t'; cbv zeta; intros D' A'. wp_steps. destruct (Hafter t' (_, _) D' A'). by apply HQ.
  - apply (wp_read_out t qi qo); [done..|]. intros t'; cbv zeta; intros D' A'. wp_steps. destruct (Hafter t' (_, _) D' A').
    destruct (bool_decide (qo = [])) eqn:E; apply HQ; try done. apply bool_decide_eq_true in E as ->. by rewrite take_nil in *.
  - apply (wp_pop_output t qi qo); [done..|]. intros t'; cbv zeta; intros D' A'. wp_steps. destruct (Hafter t' (_, _) D' A'). by apply HQ.
Qed.

(** C20: Through any sequence of writes, reads and echoes a terminal behaves as
    two bounded lists of characters: writers append, a reader gets the first
    line, or sleeps when there is none, echo goes to the screen's queue, and no
    operation stops or keeps the lock. *)
Theorem tty_refines_queues ops t q : Forall op_ok ops -> cooked_tty t q ->
  wp (do_ops ops) (fun rs t' => rs = fst (spec_ops ops q) /\ cooked_tty t' (snd (spec_ops ops q))) t.
Proof.
  revert t q. induction ops as [|op ops IH]; intros t q Hok T; [done|]. inversion_clear Hok. cbn [do_ops spec_ops]. wp_steps.
  apply (wp_do_op op t q); [done..|]. intros t' T' _. wp_steps. destruct (spec_op op q) as [r q']. cbn [fst snd] in *.
  eapply wp_mono; [by apply IH|]. intros rs t2 [-> T2]. wp_steps. by destruct (spec_ops ops q').
Qed.

(** ** Witness, and a queue that stays full *)

Definition session : list tty_op :=
  [WriteIn [108; 115; 13; 112]; ReadIn 64; ReadIn 64; WriteOut [97]; WriteIn [119; 100; 10]; PopOutput; ReadIn 2; ReadIn 2].

Lemma tty_refines_queues_witness :
  wp (do_ops session) (fun rs t' =>
    rs = [RCount 4; RText (Some [108; 115; 10]); RText None; RCount 1; RCount 3; RChar (Some 108); RText (Some [112; 119]); RText (Some [100; 10])] /\
    cooked_tty t' ([], [115; 10; 112; 97; 119; 100; 10])) new_tty.
Proof.
  apply (tty_refines_queues session new_tty ([], [])).
  - repeat (apply Forall_cons_2; [vm_compute; repeat split; congruence|]). apply Forall_nil_2.
  - exact cooked_new.
Defined.

(** 4095 characters without a newline: a writer stores nothing and a reader
    sleeps, whatever comes. *)
Lemma full_line_stuck qi qo op : zlen qi = CAPACITY -> ASCII_NL ∉ qi -> zlen qo <= CAPACITY ->
  match op with WriteIn _ | ReadIn _ => True | _ => False end ->
  spec_op op (qi, qo) = (match op with WriteIn _ => RCount 0 | _ => RText None end, (qi, qo)).
Proof.
  intros Hf Hn Ho Hop. destruct op; try done; cbn [spec_op].
  - unfold stored. rewrite Hf, Z.sub_diag. cbn [take]. change (Z.to_nat 0) with 0%nat. rewrite take_0, !app_nil_r. unfold capped.
    rewrite take_ge; [done|]. unfold zlen in Ho. lia.
  - by rewrite bool_decide_false.
Qed.

(** A backspace is a character of the line. *)
Lemma backspace_kept : fst (spec_ops [WriteIn [97; 8; 10]; ReadIn 64] ([], [])) = [RCount 3; RText (Some [97; 8; 10])].
Proof. vm_compute. reflexivity. Qed.
