(* ===== verification/Screen.v ===== *)
(** * The screen of a terminal

    The emulator part of [kernel/drivers/tty/tty.c] and [tty_flush_to_screen]
    of [drivers/video/console.c].  Memory is counted in pixels of 32 bits; the
    calls of [optimized_memset_dword] and [optimized_memcpy], whose effect is
    that of [Klib], are [fill_pixels] and [copy_pixels].  Sizes and offsets are
    [uint32_t] expressions with their wrap-around. *)

From Stdlib Require Import ZArith Lia.
From stdpp Require Import base tactics list.
From S2P Require Import Prelude Bytes Font.

Definition FONT_WIDTH : Z := 8.
Definition FONT_HEIGHT : Z := 16.

(** The part of [struct tty_device] that describes the screen; the video buffer
    is null or its pixels. *)
Record screen : Type := Screen {
  video_buffer : option (list Z);
  buffer_size : Z;
  s_width : Z;
  s_height : Z;
  pixels_per_scanLine : Z;
  bpp : Z;
  total_pages : Z;
  cursor_x : Z;
  cursor_y : Z;
  fg_color : Z;
  bg_color : Z;
  scroll_y_offset : Z;
  refresh_needed : bool
}.

Definition set_pixels (b : list Z) (s : screen) : screen :=
  Screen (Some b) (buffer_size s) (s_width s) (s_height s) (pixels_per_scanLine s) (bpp s) (total_pages s)
    (cursor_x s) (cursor_y s) (fg_color s) (bg_color s) (scroll_y_offset s) (refresh_needed s).
Definition set_cursor (x y : Z) (s : screen) : screen :=
  Screen (video_buffer s) (buffer_size s) (s_width s) (s_height s) (pixels_per_scanLine s) (bpp s) (total_pages s)
    x y (fg_color s) (bg_color s) (scroll_y_offset s) (refresh_needed s).
Definition set_scroll (y : Z) (s : screen) : screen :=
  Screen (video_buffer s) (buffer_size s) (s_width s) (s_height s) (pixels_per_scanLine s) (bpp s) (total_pages s)
    (cursor_x s) (cursor_y s) (fg_color s) (bg_color s) y (refresh_needed s).
Definition set_refresh (b : bool) (s : screen) : screen :=
  Screen (video_buffer s) (buffer_size s) (s_width s) (s_height s) (pixels_per_scanLine s) (bpp s) (total_pages s)
    (cursor_x s) (cursor_y s) (fg_color s) (bg_color s) (scroll_y_offset s) b.

(** A store and a fill through the pointer. *)
Definition pixel_store (i color : Z) : M screen unit :=
  s <-- kget ;; b <-- kopt NullDeref (video_buffer s) ;; b' <-- upd b i color ;; kput (set_pixels b' s).
Definition fill_pixels (i n color : Z) : M screen unit :=
  s <-- kget ;;
  match video_buffer s with
  | None => if n =? 0 then kret tt else kstop NullDeref
  | Some b => b' <-- bytes_in b i (replicate (Z.to_nat n) color) ;; kput (set_pixels b' s)
  end.

Definition max_virtual_height (s : screen) : Z := u32 (s_height s * total_pages s).

(** [g_boot_info->Graphics], and what [kmalloc] gives: the old contents of the
    memory, or nothing. *)
Record graphics : Type := Graphics { g_width : Z; g_height : Z; g_ppsl : Z; g_bits : Z }.

Definition tty_init_video_context (g : graphics) (kmalloc : Z -> option (list Z)) (pages : Z) : screen :=
  let total_pages := if 0 <? pages then pages else 1 in
  let bytes := g_bits g / 8 in
  let pitch := u32 (g_ppsl g * bytes) in
  let size := u32 (u32 (g_height g * total_pages) * pitch) in
  let total_pixels := size / 4 in
  Screen (match kmalloc size with
          | None => None
          | Some b => Some (replicate (Z.to_nat total_pixels) 0 ++ drop (Z.to_nat total_pixels) b)
          end)
    size (g_width g) (g_height g) (g_ppsl g) (u8 (g_bits g)) total_pages 0 0 4294967295 0 0 false.

Definition put_pixel_to_buffer (x y color : Z) : M screen unit :=
  s <-- kget ;;
  if (s_width s <=? x) || (max_virtual_height s <=? y) then kret tt else
  pixel_store (u32 (u32 (y * pixels_per_scanLine s) + x)) color.

Definition tty_clear_buffer : M screen unit :=
  s <-- kget ;;
  match video_buffer s with
  | None => kret tt
  | Some _ =>
      fill_pixels 0 (u32 (max_virtual_height s * pixels_per_scanLine s)) (bg_color s) ;;;
      kmodify (fun s => set_refresh true (set_scroll 0 (set_cursor 0 0 s)))
  end.

Definition tty_clear_line (start_y : Z) : M screen unit :=
  s <-- kget ;;
  let max_height := max_virtual_height s in
  if max_height <=? start_y then kret tt else
  let lines := if max_height <? u32 (start_y + FONT_HEIGHT) then u32 (max_height - start_y) else FONT_HEIGHT in
  fill_pixels (u32 (start_y * pixels_per_scanLine s)) (u32 (lines * pixels_per_scanLine s)) (bg_color s).

(** The glyph of a character at the cursor. *)
Definition draw_glyph (font_index : Z) : M screen unit :=
  for_ (Z.to_nat FONT_HEIGHT) 0 (fun cy =>
    rows <-- rd g_font_bitmap font_index ;;
    line <-- rd rows cy ;;
    for_ (Z.to_nat FONT_WIDTH) 0 (fun cx =>
      s <-- kget ;;
      let color := if negb (Z.land line (Z.shiftr 128 cx) =? 0) then fg_color s else bg_color s in
      put_pixel_to_buffer (u32 (cursor_x s + cx)) (u32 (cursor_y s + cy)) color)).

(** A new line at the left. *)
Definition line_feed : M screen unit := kmodify (fun s => set_cursor 0 (u32 (cursor_y s + FONT_HEIGHT)) s).

(** The control characters and glyphs: has a line been ended?  [None] is an
    early [return]. *)
Definition putc_advance (c : Z) : M screen (option bool) :=
  if c =? 10 then line_feed ;;; kret (Some true)
  else if c =? 13 then kmodify (fun s => set_cursor 0 (cursor_y s) s) ;;; kret None
  else if c =? 9 then kmodify (fun s => set_cursor (u32 (cursor_x s + FONT_WIDTH * 4)) (cursor_y s) s) ;;; kret (Some false)
  else if 128 <=? c then kret None
  else draw_glyph c ;;; kmodify (fun s => set_cursor (u32 (cursor_x s + FONT_WIDTH)) (cursor_y s) s) ;;; kret (Some false).

(** The wrap at the right, the clearing of a fresh line, the visible window. *)
Definition putc_wrap (nova_linha : bool) : M screen bool :=
  s <-- kget ;;
  if s_width s <? u32 (cursor_x s + FONT_WIDTH) then line_feed ;;; kret true else kret nova_linha.
Definition putc_clear (nova_linha : bool) : M screen unit :=
  s <-- kget ;;
  if nova_linha && (u32 (cursor_y s + FONT_HEIGHT) <=? max_virtual_height s) then tty_clear_line (cursor_y s) else kret tt.
Definition putc_scroll : M screen unit :=
  s <-- kget ;;
  if u32 (scroll_y_offset s + s_height s) <? u32 (cursor_y s + FONT_HEIGHT) then
    kput (set_scroll (u32 (u32 (cursor_y s + FONT_HEIGHT) - s_height s)) s)
  else if cursor_y s <? scroll_y_offset s then kput (set_scroll (cursor_y s) s) else kret tt.

(** The body that both variants share: does it reach its end? *)
Definition putc_body (c : Z) : M screen bool :=
  s <-- kget ;;
  (if max_virtual_height s <? u32 (cursor_y s + FONT_HEIGHT) then tty_clear_buffer else kret tt) ;;;
  r <-- putc_advance c ;;
  match r with
  | None => kret false
  | Some nova_linha =>
      nova_linha <-- putc_wrap nova_linha ;;
      putc_clear nova_linha ;;;
      putc_scroll ;;;
      kret true
  end.

Definition tty_putc_backbuffer (c : Z) : M screen unit :=
  done <-- putc_body c ;; if done : bool then kmodify (set_refresh true) else kret tt.
(** The variant that leaves the signal to its caller. *)
Definition tty_putc_backbuffer_X (c : Z) : M screen unit := _ <-- putc_body c ;; kret tt.

(** The loops of callers over a text. *)
Definition putc_all (putc : Z -> M screen unit) (text : list Z) : M screen unit :=
  for_ (length text) 0 (fun i => c <-- rd text i ;; putc c).

(** ** To the screen *)

(** [optimized_memcpy] into video memory, from an offset to an offset. *)
Definition copy_pixels {S} (src : list Z) (from : Z) (dst : list Z) (to n : Z) : M S (list Z) :=
  bs <-- bytes_out src from n ;; bytes_in dst to bs.

(** [vram]: the pixels of the frame buffer, as many as its size allows. *)
Definition tty_flush_to_screen (s : screen) : M (list Z) unit :=
  match video_buffer s with
  | None => kret tt
  | Some buffer =>
      vram <-- kget ;;
      let max_height := max_virtual_height s in
      let bytes_per_scanline := u32 (pixels_per_scanLine s * 4) in
      let src := u32 (scroll_y_offset s * bytes_per_scanline) / 4 in
      if u32 (scroll_y_offset s + s_height s) <=? max_height then
        v <-- copy_pixels buffer src vram 0 (u32 (s_height s * bytes_per_scanline) / 4) ;; kput v
      else
        let lines_part1 := u32 (max_height - scroll_y_offset s) in
        let size_part1 := u32 (lines_part1 * bytes_per_scanline) in
        v <-- copy_pixels buffer src vram 0 (size_part1 / 4) ;;
        let lines_part2 := u32 (s_height s - lines_part1) in
        let size_part2 := u32 (lines_part2 * bytes_per_scanline) in
        v <-- copy_pixels buffer 0 v (size_part1 / 4) (size_part2 / 4) ;; kput v
  end.

(** A request of a program to paint the screen ([struct tty_user]); [user] is
    what its buffer holds.  [None]: the wait for [refresh_needed]. *)
Record tty_user : Type := User { user_buffer : list Z; u_size : Z; u_width : Z; u_height : Z; u_ppsl : Z; u_bpp : Z }.

Definition tty_video_write (user : tty_user) : M screen (option Z) :=
  s <-- kget ;;
  match video_buffer s with
  | None => kret (Some 0)
  | Some _ =>
      if (u_width user =? 0) || (u_height user =? 0) || (u_ppsl user =? 0) then kret (Some 0) else
      if negb (u_bpp user =? 32) || negb (bpp s =? 32) then kret (Some 0) else
      if u_ppsl user <? u_width user then kret (Some 0) else
      if pixels_per_scanLine s <? s_width s then kret (Some 0) else
      let copy_width := Z.min (u_width user) (s_width s) in
      let copy_height := Z.min (u_height user) (s_height s) in
      if u_size user <? u64 (u_ppsl user * 4 * copy_height) then kret (Some 0) else
      if refresh_needed s then kret None else
      for_ (Z.to_nat copy_height) 0 (fun y =>
        s <-- kget ;;
        b <-- kopt NullDeref (video_buffer s) ;;
        b' <-- copy_pixels (user_buffer user) (y * u_ppsl user) b (y * pixels_per_scanLine s) copy_width ;;
        kput (set_pixels b' s)) ;;;
      kmodify (set_refresh true) ;;;
      kret (Some (copy_width * 4 * copy_height))
  end.
