(* ===== verification/ScreenThms.v ===== *)
(** * The screen shows a grid of characters

    [painted] says which pixels an operation changes; [shows] relates the video
    buffer to a grid of characters, on which [tty_putc_backbuffer] has the
    effect of [spec_putc]. *)

From Stdlib Require Import ZArith Lia.
From stdpp Require Import base tactics list.
From S2P Require Import Prelude Bytes Font Screen.

(** ** Geometry *)

Definition virtual_height (s : screen) : Z := s_height s * total_pages s.

Record geometry (s : screen) : Prop := {
  geo_width : FONT_WIDTH <= s_width s <= pixels_per_scanLine s;
  geo_height : FONT_HEIGHT <= s_height s;
  geo_pages : 1 <= total_pages s;
  geo_bytes : virtual_height s * pixels_per_scanLine s * 4 < 2 ^ 32;
  geo_buffer : exists b, video_buffer s = Some b /\ zlen b = virtual_height s * pixels_per_scanLine s
}.

Lemma geo_bounds s : geometry s -> FONT_HEIGHT <= virtual_height s < 2 ^ 27 /\ s_height s <= virtual_height s /\
  0 < s_width s < 2 ^ 26 /\ 0 < pixels_per_scanLine s < 2 ^ 26 /\ max_virtual_height s = virtual_height s.
Proof.
  intros [Hw Hh Hp Hb _]. unfold FONT_WIDTH, FONT_HEIGHT, max_virtual_height, virtual_height in *.
  assert (s_height s <= s_height s * total_pages s) by nia.
  assert (H16 : 16 * pixels_per_scanLine s * 4 < 2 ^ 32) by nia.
  assert (s_height s * total_pages s * 32 < 2 ^ 32) by nia.
  rewrite u32_small by lia. lia.
Qed.

(** The pixel in a row and a column of the buffer. *)
Definition pixel_in (b : list Z) (pitch y x : Z) : Z := get8 b (Z.to_nat (y * pitch + x)).
Definition pixel (s : screen) (y x : Z) : Z :=
  match video_buffer s with Some b => pixel_in b (pixels_per_scanLine s) y x | None => 0 end.

Definition on_screen (s : screen) (y x : Z) : Prop := 0 <= y < virtual_height s /\ 0 <= x < pixels_per_scanLine s.

(** Only the pixels change, to those of [f]. *)
Definition painted (s : screen) (f : Z -> Z -> Z) (s' : screen) : Prop :=
  exists b', s' = set_pixels b' s /\ zlen b' = virtual_height s * pixels_per_scanLine s /\
    forall y x, on_screen s y x -> pixel s' y x = f y x.

Lemma painted_geometry s f s' : painted s f s' -> geometry s -> geometry s'.
Proof. intros (b' & -> & Hl & _) [? ? ? ? _]. constructor; try done. by exists b'. Qed.
Lemma painted_refl s : geometry s -> painted s (pixel s) s.
Proof.
  intros [_ _ _ _ (b & Hb & Hl)]. exists b. split_and!; [|done|done]. destruct s. cbn in *. by subst.
Qed.
Lemma painted_trans s f s1 g s2 : painted s f s1 -> painted s1 g s2 -> painted s g s2.
Proof. intros (b1 & -> & H1 & _) (b2 & -> & H2 & P2). exists b2. by split_and!. Qed.
Lemma painted_ext s f g s' : painted s f s' -> (forall y x, on_screen s y x -> f y x = g y x) -> painted s g s'.
Proof. intros (b & -> & Hl & P) H. exists b. split_and!; [done..|]. intros y x Hs. by rewrite P, H. Qed.

Lemma index_range s y x : geometry s -> on_screen s y x ->
  0 <= y * pixels_per_scanLine s + x < virtual_height s * pixels_per_scanLine s.
Proof. intros G (Hy & Hx). destruct (geo_bounds s G) as (? & ? & ? & ? & _). nia. Qed.
Lemma index_inj p y x y' x' : 0 <= x < p -> 0 <= x' < p -> y * p + x = y' * p + x' -> y = y' /\ x = x'.
Proof. intros Hx Hx' E. assert (y = y') by nia. subst. split; [done|lia]. Qed.

Lemma wp_pixel_store s y x color (Q : unit -> screen -> Prop) : geometry s -> on_screen s y x ->
  (forall s', painted s (fun y' x' => if (y' =? y) && (x' =? x) then color else pixel s y' x') s' -> Q tt s') ->
  wp (pixel_store (y * pixels_per_scanLine s + x) color) Q s.
Proof.
  intros G Hs HQ. pose proof (index_range s y x G Hs) as Hi. destruct G as [_ _ _ _ (b & Hb & Hl)]. unfold pixel_store. wp_steps.
  eapply wp_opt; [exact Hb|]. wp_steps. apply wp_upd; [lia|]. wp_steps. apply HQ. eexists. split_and!; [done|by rewrite zlen_insert|].
  intros y' x' (Hy' & Hx'). destruct Hs as (Hy & Hx). unfold pixel. cbn [video_buffer set_pixels pixels_per_scanLine]. rewrite Hb. unfold pixel_in, get8.
  unfold zlen in Hl. destruct (Z.eqb_spec y' y) as [->|Hne]; [destruct (Z.eqb_spec x' x) as [->|Hne]|]; cbn [andb].
  - rewrite list_lookup_insert_eq by lia. done.
  - rewrite list_lookup_insert_ne; [done|]. nia.
  - rewrite list_lookup_insert_ne; [done|]. intros E. assert (E' : y * pixels_per_scanLine s + x = y' * pixels_per_scanLine s + x') by nia.
    apply index_inj in E'; [|done..]. lia.
Qed.

(** Whole rows. *)
Lemma wp_fill_rows s y0 n color (Q : unit -> screen -> Prop) : geometry s -> 0 <= y0 -> 0 <= n -> y0 + n <= virtual_height s ->
  (forall s', painted s (fun y x => if (y0 <=? y) && (y <? y0 + n) then color else pixel s y x) s' -> Q tt s') ->
  wp (fill_pixels (y0 * pixels_per_scanLine s) (n * pixels_per_scanLine s) color) Q s.
Proof.
  intros G H0 Hn Hle HQ. destruct (geo_bounds s G) as (_ & _ & _ & Hp & _). destruct G as [_ _ _ _ (b & Hb & Hl)].
  set (p := pixels_per_scanLine s) in *. unfold fill_pixels. wp_steps. rewrite Hb. wp_steps.
  assert (Hr : zlen (replicate (Z.to_nat (n * p)) color) = n * p) by (unfold zlen; rewrite length_replicate; nia).
  apply wp_bytes_in; [nia|rewrite Hr, Hl; nia|]. intros b' (Hl' & Hlk). wp_steps. apply HQ. exists b'. split_and!; [done|lia|].
  intros y x (Hy & Hx). fold p in Hx. unfold pixel. cbn [video_buffer set_pixels pixels_per_scanLine]. fold p. rewrite Hb. unfold pixel_in, get8.
  rewrite Hlk, Hr, Z2Nat.id by nia. destruct ((y0 <=? y) && (y <? y0 + n)) eqn:E.
  - zbool. rewrite decide_True by nia. rewrite lookup_replicate_2 by nia. done.
  - rewrite decide_False; [done|]. apply andb_false_iff in E as [E|E]; zbool; nia.
Qed.

(** ** The routines *)

Lemma wp_put_pixel s y x color (Q : unit -> screen -> Prop) : geometry s -> 0 <= x < s_width s -> 0 <= y < virtual_height s ->
  (forall s', painted s (fun y' x' => if (y' =? y) && (x' =? x) then color else pixel s y' x') s' -> Q tt s') ->
  wp (put_pixel_to_buffer x y color) Q s.
Proof.
  intros G Hx Hy HQ. destruct (geo_bounds s G) as (Hv & _ & Hw & Hp & Hm). pose proof (geo_width s G). pose proof (geo_bytes s G).
  unfold put_pixel_to_buffer. wp_steps. rewrite Hm, (proj2 (Z.leb_gt _ _)), (proj2 (Z.leb_gt _ _)) by lia. cbn [orb].
  rewrite (u32_small (y * _)) by nia. rewrite u32_small by nia. apply wp_pixel_store; [done|split; lia|done].
Qed.

(** The colour of a pixel of a character. *)
Definition font_row (c y : Z) : Z := get8 (default [] (g_font_bitmap !! Z.to_nat c)) (Z.to_nat y).
Definition ink (c y x : Z) : bool := negb (Z.land (font_row c y) (Z.shiftr 128 x) =? 0).
Definition shade (s : screen) (c y x : Z) : Z := if ink c y x then fg_color s else bg_color s.

Lemma font_rows : Forall (fun r => length r = 16%nat) g_font_bitmap /\ length g_font_bitmap = 128%nat.
Proof. split; [|done]. apply Forall_forall. intros r Hr. apply list_elem_of_In in Hr. revert r Hr. apply List.Forall_forall. vm_compute. repeat constructor. Qed.

Lemma blank_ink y x : 0 <= y < 16 -> ink 32 y x = false.
Proof.
  intros Hy. unfold ink, font_row.
  assert (E : default [] (g_font_bitmap !! Z.to_nat 32) = replicate 16 0) by reflexivity. rewrite E. unfold get8.
  rewrite lookup_replicate_2 by lia. done.
Qed.

Lemma wp_bind_assoc {S A B C} (m : M S A) (k : A -> M S B) (k' : B -> M S C) (Q : C -> S -> Prop) s :
  wp (b <-- (a <-- m ;; k a) ;; k' b) Q s -> wp (a <-- m ;; b <-- k a ;; k' b) Q s.
Proof. unfold wp, kbind. by destruct (m s) as [[a s']|]. Qed.

Lemma wp_font {S} c y (Q : Z -> S -> Prop) (s : S) : 0 <= c < 128 -> 0 <= y < 16 -> Q (font_row c y) s ->
  wp (rows <-- rd g_font_bitmap c ;; rd rows y) Q s.
Proof.
  intros Hc Hy HQ. destruct font_rows as [Hf Hl]. destruct (lookup_lt_is_Some_2 g_font_bitmap (Z.to_nat c) ltac:(lia)) as [r Hr].
  pose proof (Forall_lookup_1 _ _ _ _ Hf Hr) as Hlr. cbn beta in Hlr. wp_steps. eapply wp_rd; [lia|exact Hr|].
  destruct (lookup_lt_is_Some_2 r (Z.to_nat y) ltac:(lia)) as [v Hv]. eapply wp_rd; [lia|exact Hv|].
  assert (E : font_row c y = v); [|by rewrite <- E]. unfold font_row, get8. rewrite Hr. cbn. by rewrite Hv.
Qed.

(** Changes that keep the settings. *)
Lemma painted_settings s f s' : painted s f s' ->
  s_width s' = s_width s /\ s_height s' = s_height s /\ pixels_per_scanLine s' = pixels_per_scanLine s /\ total_pages s' = total_pages s /\
  cursor_x s' = cursor_x s /\ cursor_y s' = cursor_y s /\ fg_color s' = fg_color s /\ bg_color s' = bg_color s /\
  scroll_y_offset s' = scroll_y_offset s /\ virtual_height s' = virtual_height s.
Proof. intros (b & -> & _). done. Qed.

(** Is the pixel in the cell of the cursor, in the rows drawn so far? *)
Definition in_cell (s : screen) (y x : Z) : bool :=
  (cursor_y s <=? y) && (y <? cursor_y s + FONT_HEIGHT) && (cursor_x s <=? x) && (x <? cursor_x s + FONT_WIDTH).
Definition drawn (s : screen) (c rows : Z) (cols : Z) (y x : Z) : Z :=
  if in_cell s y x && ((y - cursor_y s <? rows) || ((y - cursor_y s =? rows) && (x - cursor_x s <? cols)))
  then shade s c (y - cursor_y s) (x - cursor_x s) else pixel s y x.

Lemma wp_draw_row s c cy s1 : geometry s -> 0 <= c < 128 -> 0 <= cy < 16 ->
  0 <= cursor_x s /\ cursor_x s + FONT_WIDTH <= s_width s -> 0 <= cursor_y s /\ cursor_y s + FONT_HEIGHT <= virtual_height s ->
  painted s (drawn s c cy 0) s1 ->
  wp (for_ (Z.to_nat FONT_WIDTH) 0 (fun cx =>
      s <-- kget ;;
      let color := if negb (Z.land (font_row c cy) (Z.shiftr 128 cx) =? 0) then fg_color s else bg_color s in
      put_pixel_to_buffer (u32 (cursor_x s + cx)) (u32 (cursor_y s + cy)) color))
    (fun _ s2 => painted s (drawn s c (cy + 1) 0) s2) s1.
Proof.
  intros G Hc Hcy Hx Hy P1. destruct (geo_bounds s G) as (Hv & _ & Hw & Hp & _).
  unfold FONT_WIDTH, FONT_HEIGHT in *. apply (wp_for (fun j s2 => painted s (drawn s c cy j) s2)).
  - done.
  - intros j s2 Hj P2. change (Z.of_nat (Z.to_nat 8)) with 8 in Hj. pose proof (painted_settings _ _ _ P2) as (E1 & E2 & E3 & E4 & E5 & E6 & E7 & E8 & _ & E9).
    wp_steps. cbv zeta. rewrite E5, E6, E7, E8, !u32_small by lia.
    apply wp_put_pixel; [by eapply painted_geometry|rewrite E1; lia|rewrite E9; lia|].
    intros s3 P3. eapply painted_ext; [eapply painted_trans; [exact P2|exact P3]|]. intros y x Hon. cbn beta.
    pose proof P2 as (b2 & _ & _ & Hp2). rewrite Hp2 by done. unfold drawn, in_cell, FONT_WIDTH, FONT_HEIGHT, shade, ink.
    destruct (Z.eqb_spec y (cursor_y s + cy)) as [->|Hne]; [destruct (Z.eqb_spec x (cursor_x s + j)) as [->|Hnx]|]; cbn [andb].
    + replace (cursor_y s + cy - cursor_y s) with cy by lia. replace (cursor_x s + j - cursor_x s) with j by lia.
      rewrite !(proj2 (Z.leb_le _ _)), !(proj2 (Z.ltb_lt _ (_ + _))) by lia. rewrite Z.eqb_refl.
      cbn [andb orb]. rewrite orb_true_r. done.
    + replace (cursor_y s + cy - cursor_y s) with cy by lia. rewrite Z.eqb_refl. cbn [andb].
      replace (x - cursor_x s <? j + 1) with (x - cursor_x s <? j); [done|].
      destruct (Z.ltb_spec (x - cursor_x s) j), (Z.ltb_spec (x - cursor_x s) (j + 1)); lia || done.
    + rewrite (proj2 (Z.eqb_neq (y - cursor_y s) cy)) by lia. done.
  - intros s2 P2. eapply painted_ext; [exact P2|]. intros y x Hon. change (0 + Z.of_nat (Z.to_nat 8)) with 8. unfold drawn, in_cell, FONT_WIDTH, FONT_HEIGHT.
    match goal with |- (if ?a then _ else _) = (if ?b then _ else _) => assert (E : a = b) end; [|by rewrite E].
    apply Bool.eq_true_iff_eq. rewrite !andb_true_iff, !orb_true_iff, !andb_true_iff, !Z.leb_le, !Z.ltb_lt, !Z.eqb_eq. lia.
Qed.

Lemma wp_draw_glyph s c (Q : unit -> screen -> Prop) : geometry s -> 0 <= c < 128 ->
  0 <= cursor_x s /\ cursor_x s + FONT_WIDTH <= s_width s -> 0 <= cursor_y s /\ cursor_y s + FONT_HEIGHT <= virtual_height s ->
  (forall s', painted s (fun y x => if in_cell s y x then shade s c (y - cursor_y s) (x - cursor_x s) else pixel s y x) s' -> Q tt s') ->
  wp (draw_glyph c) Q s.
Proof.
  intros G Hc Hx Hy HQ. unfold draw_glyph. apply (wp_for (fun j s1 => painted s (drawn s c j 0) s1)).
  - eapply painted_ext; [by apply painted_refl|]. intros y x Hon. unfold drawn.
    destruct (in_cell s y x) eqn:E; [|done]. unfold in_cell in E. zbool. cbn [andb].
    destruct (Z.ltb_spec (y - cursor_y s) 0), (Z.eqb_spec (y - cursor_y s) 0), (Z.ltb_spec (x - cursor_x s) 0); cbn; lia || done.
  - intros cy s1 Hcy P1. change (Z.of_nat (Z.to_nat FONT_HEIGHT)) with 16 in Hcy. apply wp_bind_assoc. apply wp_bind.
    apply (wp_font c cy); [done|lia|]. by apply wp_draw_row.
  - intros s1 P1. apply HQ. eapply painted_ext; [exact P1|]. intros y x Hon. change (0 + Z.of_nat (Z.to_nat FONT_HEIGHT)) with 16. unfold drawn.
    destruct (in_cell s y x) eqn:E; [|done]. unfold in_cell, FONT_HEIGHT in E. zbool. cbn [andb].
    by rewrite (proj2 (Z.ltb_lt (y - cursor_y s) 16)) by lia.
Qed.

(** ** The grid of characters *)

(** What the buffer shows in each cell, and the cell of the cursor; a cursor
    below the last row means that the next character starts a blank screen. *)
Record text : Type := Text { cells : Z -> Z -> Z; t_row : Z; t_col : Z }.

Definition blank : Z := 32.
Definition set_cell (r c ch : Z) (g : Z -> Z -> Z) : Z -> Z -> Z :=
  fun r' c' => if (r' =? r) && (c' =? c) then ch else g r' c'.
Definition clear_row (r : Z) (g : Z -> Z -> Z) : Z -> Z -> Z := fun r' c' => if r' =? r then blank else g r' c'.

Section grid.
Context (rows cols : Z).

Definition spec_advance (ch : Z) (t : text) : text * option bool :=
  if ch =? 10 then (Text (cells t) (t_row t + 1) 0, Some true)
  else if ch =? 13 then (Text (cells t) (t_row t) 0, None)
  else if ch =? 9 then (Text (cells t) (t_row t) (t_col t + 4), Some false)
  else if 128 <=? ch then (t, None)
  else (Text (set_cell (t_row t) (t_col t) ch (cells t)) (t_row t) (t_col t + 1), Some false).
Definition spec_wrap (nl : bool) (t : text) : text * bool :=
  if cols <=? t_col t then (Text (cells t) (t_row t + 1) 0, true) else (t, nl).
Definition spec_clear (nl : bool) (t : text) : text :=
  if nl && (t_row t <? rows) then Text (clear_row (t_row t) (cells t)) (t_row t) (t_col t) else t.

Definition spec_putc (t : text) (ch : Z) : text :=
  let t := if rows <=? t_row t then Text (fun _ _ => blank) 0 0 else t in
  match spec_advance ch t with
  | (t, None) => t
  | (t, Some nl) => let '(t, nl) := spec_wrap nl t in spec_clear nl t
  end.

(** The cells, the cursor and the window. *)
Record shown (s : screen) (t : text) : Prop := {
  sh_geometry : geometry s;
  sh_rows : virtual_height s / FONT_HEIGHT = rows;
  sh_cols : s_width s / FONT_WIDTH = cols;
  sh_x : cursor_x s = FONT_WIDTH * t_col t;
  sh_y : cursor_y s = FONT_HEIGHT * t_row t;
  sh_row : 0 <= t_row t <= rows;
  sh_col : 0 <= t_col t < cols + 4;
  sh_scroll : 0 <= scroll_y_offset s <= cursor_y s;
  sh_cells : forall r c y x, 0 <= r < rows -> 0 <= c < cols -> 0 <= y < FONT_HEIGHT -> 0 <= x < FONT_WIDTH ->
    pixel s (FONT_HEIGHT * r + y) (FONT_WIDTH * c + x) = shade s (cells t r c) y x
}.

(** Between two characters the cursor is in a column, and its line, if it is on
    the screen, in the window. *)
Definition displays (s : screen) (t : text) : Prop :=
  shown s t /\ t_col t < cols /\ cursor_y s + FONT_HEIGHT <= scroll_y_offset s + s_height s.

Lemma shown_bounds s t : shown s t -> 0 < cols /\ 0 < rows /\ FONT_WIDTH * cols <= s_width s < 2 ^ 26 /\
  FONT_HEIGHT * rows <= virtual_height s < FONT_HEIGHT * rows + FONT_HEIGHT /\ virtual_height s < 2 ^ 27 /\
  max_virtual_height s = virtual_height s /\ s_width s < FONT_WIDTH * cols + FONT_WIDTH /\ FONT_HEIGHT <= s_height s <= virtual_height s.
Proof.
  intros [G Hr Hc _ _ _ _ _ _]. destruct (geo_bounds s G) as (Hv & Hh & Hw & _ & Hm). pose proof (geo_width s G). pose proof (geo_height s G).
  unfold FONT_WIDTH, FONT_HEIGHT in *. subst rows cols. zdiv_lia.
Qed.

Lemma cell_on_screen s t r c y x : shown s t -> 0 <= r < rows -> 0 <= c < cols -> 0 <= y < FONT_HEIGHT -> 0 <= x < FONT_WIDTH ->
  on_screen s (FONT_HEIGHT * r + y) (FONT_WIDTH * c + x).
Proof.
  intros Sh Hr Hc Hy Hx. destruct (shown_bounds s t Sh) as (_ & _ & Hw & Hh & _). pose proof (geo_width s (sh_geometry _ _ Sh)).
  unfold on_screen, FONT_WIDTH, FONT_HEIGHT in *. lia.
Qed.

(** A change of the pixels that gives the cells of another grid. *)
Lemma shown_painted s t f s' g : shown s t -> painted s f s' ->
  (forall r c y x, 0 <= r < rows -> 0 <= c < cols -> 0 <= y < FONT_HEIGHT -> 0 <= x < FONT_WIDTH ->
    f (FONT_HEIGHT * r + y) (FONT_WIDTH * c + x) = shade s (g r c) y x) ->
  shown s' (Text g (t_row t) (t_col t)).
Proof.
  intros Sh P H. pose proof (painted_geometry _ _ _ P (sh_geometry _ _ Sh)) as G'.
  pose proof (painted_settings _ _ _ P) as (E1 & E2 & E3 & E4 & E5 & E6 & E7 & E8 & E9 & E10).
  pose proof Sh as [G Hr Hc Hx Hy Hrow Hcol Hsc Hcells].
  constructor; cbn [t_row t_col cells]; rewrite ?E1, ?E5, ?E6, ?E9, ?E10; try done.
  intros r c y x Hr' Hc' Hy' Hx'. destruct P as (b & -> & Hl & Hp).
  rewrite Hp by by eapply cell_on_screen. by apply H.
Qed.

(** A change of the cursor alone. *)
Lemma shown_cursor s t x y r c : shown s t -> x = FONT_WIDTH * c -> y = FONT_HEIGHT * r -> 0 <= r <= rows -> 0 <= c < cols + 4 ->
  scroll_y_offset s <= y -> shown (set_cursor x y s) (Text (cells t) r c).
Proof.
  intros [G Hr Hc Hx Hy Hrow Hcol Hsc Hcells] -> -> Hr' Hc' Hs. constructor; try done; cbn [scroll_y_offset cursor_y set_cursor]; [|lia].
  destruct G. by constructor.
Qed.

Lemma shade_blank s y x : 0 <= y < FONT_HEIGHT -> shade s blank y x = bg_color s.
Proof. intros Hy. unfold shade. by rewrite blank_ink. Qed.

(** *** The stages *)

Lemma wp_clear_buffer s t (Q : unit -> screen -> Prop) : shown s t ->
  (forall s', shown s' (Text (fun _ _ => blank) 0 0) -> scroll_y_offset s' = 0 -> cursor_y s' = 0 -> s_height s' = s_height s -> Q tt s') ->
  wp tty_clear_buffer Q s.
Proof.
  intros Sh HQ. destruct (shown_bounds s t Sh) as (Hc & Hr & _ & Hh & Hv & Hm & _ & Hhh). pose proof (sh_geometry _ _ Sh) as G.
  destruct (geo_bounds s G) as (_ & _ & _ & Hp & _). pose proof (geo_bytes s G). destruct (geo_buffer s G) as (b & Hb & Hl).
  unfold tty_clear_buffer. wp_steps. rewrite Hb, Hm. wp_steps. rewrite u32_small by (unfold FONT_HEIGHT in *; nia).
  change 0 with (0 * pixels_per_scanLine s) at 1. apply wp_fill_rows; [done|lia|lia|lia|]. intros s1 P1. wp_steps.
  assert (S1 : shown s1 (Text (fun _ _ => blank) (t_row t) (t_col t))).
  { eapply shown_painted; [done|exact P1|]. intros r c y x Hr' Hc' Hy Hx. rewrite shade_blank by done.
    rewrite (proj2 (Z.leb_le _ _)), (proj2 (Z.ltb_lt _ _)) by (unfold FONT_HEIGHT in *; lia). done. }
  apply HQ; try done.
  - destruct S1 as [G1 ? ? ? ? ? ? ? ?]. constructor; cbn [scroll_y_offset cursor_x cursor_y set_cursor set_scroll set_refresh t_row t_col cells]; try done; try lia.
    destruct G1. by constructor.
  - by destruct P1 as (? & -> & _).
Qed.

Lemma wp_line_feed s t (Q : unit -> screen -> Prop) : shown s t -> t_row t < rows ->
  (forall s', shown s' (Text (cells t) (t_row t + 1) 0) -> s_height s' = s_height s -> scroll_y_offset s' = scroll_y_offset s -> Q tt s') ->
  wp line_feed Q s.
Proof.
  intros Sh Hr HQ. destruct (shown_bounds s t Sh) as (Hc & _ & _ & Hh & Hv & _). pose proof (sh_y _ _ Sh). pose proof (sh_row _ _ Sh).
  pose proof (sh_scroll _ _ Sh). unfold line_feed, FONT_HEIGHT in *. wp_steps. rewrite u32_small by lia. apply HQ; [|done..].
  apply (shown_cursor s t); unfold FONT_HEIGHT; try done; lia.
Qed.

(** After the characters that move to another line nothing is left of it. *)
Definition advanced (nl : bool) (t : text) : Prop := if nl then t_col t = 0 else t_row t < rows.

Lemma wp_putc_advance s t ch (Q : option bool -> screen -> Prop) : shown s t -> t_row t < rows -> t_col t < cols -> 0 <= ch ->
  (forall s', let r := spec_advance ch t in shown s' (fst r) -> s_height s' = s_height s -> scroll_y_offset s' = scroll_y_offset s ->
    (snd r = None -> t_row (fst r) = t_row t /\ t_col (fst r) < cols) -> (forall nl, snd r = Some nl -> advanced nl (fst r)) -> Q (snd r) s') ->
  wp (putc_advance ch) Q s.
Proof.
  intros Sh Hr Hc Hch HQ. destruct (shown_bounds s t Sh) as (Hc0 & _ & Hw & Hh & Hv & Hm & _). pose proof (sh_y _ _ Sh) as Ey. pose proof (sh_row _ _ Sh) as Er.
  pose proof (sh_x _ _ Sh) as Ex. pose proof (sh_col _ _ Sh) as Ec. pose proof (sh_scroll _ _ Sh) as Es. unfold putc_advance, spec_advance in *.
  case_if; [|case_if; [|case_if; [|case_if]]]; cbn [fst snd t_row t_col] in HQ.
  - wp_steps. apply (wp_line_feed s t); [done..|]. intros s1 S1 E1 E2. wp_steps. apply HQ; try done. by intros nl [= <-].
  - wp_steps. apply HQ; try done. apply (shown_cursor s t); try done; lia.
  - unfold FONT_WIDTH, FONT_HEIGHT in *. wp_steps. rewrite u32_small by lia. apply HQ; try done; [|by intros nl [= <-]].
    apply (shown_cursor s t); unfold FONT_WIDTH, FONT_HEIGHT; try done; lia.
  - wp_steps. by apply HQ.
  - wp_steps. apply wp_draw_glyph; [by apply sh_geometry with t|lia|unfold FONT_WIDTH in *; lia|unfold FONT_HEIGHT in *; lia|].
    intros s1 P1. pose proof (painted_settings _ _ _ P1) as (F1 & F2 & F3 & F4 & F5 & F6 & F7 & F8 & F9 & F10).
    assert (S1 : shown s1 (Text (set_cell (t_row t) (t_col t) ch (cells t)) (t_row t) (t_col t))).
    { eapply shown_painted; [done|exact P1|]. intros r c y x Hr' Hc' Hy Hx. unfold in_cell, set_cell. rewrite Ex, Ey. unfold FONT_WIDTH, FONT_HEIGHT in *.
      destruct (Z.eqb_spec r (t_row t)) as [->|Hne]; [destruct (Z.eqb_spec c (t_col t)) as [->|Hnc]|]; cbn [andb].
      - rewrite !(proj2 (Z.leb_le _ _)), !(proj2 (Z.ltb_lt _ _)) by lia. cbn [andb]. f_equal; lia.
      - rewrite <- (sh_cells _ _ Sh) by done. destruct ((8 * t_col t <=? 8 * c + x) && (8 * c + x <? 8 * t_col t + 8)) eqn:E'; [zbool; lia|].
        unfold FONT_WIDTH, FONT_HEIGHT. rewrite <- andb_assoc, E', andb_false_r. done.
      - rewrite <- (sh_cells _ _ Sh) by done. destruct ((16 * t_row t <=? 16 * r + y) && (16 * r + y <? 16 * t_row t + 16)) eqn:E'; [zbool; lia|].
        unfold FONT_WIDTH, FONT_HEIGHT. done. }
    wp_steps. rewrite F5, F6. unfold FONT_WIDTH, FONT_HEIGHT in *. rewrite u32_small by lia. apply HQ; try done; [|by intros nl [= <-]].
    apply (shown_cursor s1 _ _ _ _ _ S1); unfold FONT_WIDTH, FONT_HEIGHT; try done; lia.
Qed.

Lemma wp_putc_wrap s t nl (Q : bool -> screen -> Prop) : shown s t -> advanced nl t ->
  (forall s', let r := spec_wrap nl t in shown s' (fst r) -> t_col (fst r) < cols -> s_height s' = s_height s ->
    scroll_y_offset s' = scroll_y_offset s -> Q (snd r) s') ->
  wp (putc_wrap nl) Q s.
Proof.
  intros Sh Ha HQ. destruct (shown_bounds s t Sh) as (Hc0 & _ & Hw & _ & _ & _ & Hw2 & _). pose proof (sh_x _ _ Sh) as Ex. pose proof (sh_col _ _ Sh).
  unfold putc_wrap, spec_wrap, FONT_WIDTH in *. wp_steps. rewrite Ex, u32_small by lia. case_if.
  - rewrite (proj2 (Z.leb_le _ _)) in HQ by lia. wp_steps. apply (wp_line_feed s t); [done| |].
    + destruct nl; cbn in Ha; lia.
    + intros s1 S1 E1 E2. wp_steps. by apply HQ.
  - wp_steps. rewrite (proj2 (Z.leb_gt cols (t_col t))) in HQ by lia. apply HQ; try done. cbn. lia.
Qed.

Lemma wp_putc_clear s t nl (Q : unit -> screen -> Prop) : shown s t ->
  (forall s', shown s' (spec_clear nl t) -> s_height s' = s_height s -> Q tt s') -> wp (putc_clear nl) Q s.
Proof.
  intros Sh HQ. destruct (shown_bounds s t Sh) as (Hc0 & _ & Hw & Hh & Hv & Hm & _). pose proof (sh_y _ _ Sh) as Ey. pose proof (sh_row _ _ Sh).
  pose proof (sh_geometry _ _ Sh) as G. destruct (geo_bounds s G) as (_ & _ & _ & Hp & _). pose proof (geo_bytes s G).
  unfold putc_clear, spec_clear, tty_clear_line, FONT_HEIGHT in *. wp_steps. rewrite Hm, u32_small by lia.
  replace (cursor_y s + 16 <=? virtual_height s) with (t_row t <? rows).
  2: { destruct (Z.ltb_spec (t_row t) rows), (Z.leb_spec (cursor_y s + 16) (virtual_height s)); lia || done. }
  case_if; [|by apply wp_ret, HQ]. wp_steps. rewrite Hm, (proj2 (Z.leb_gt _ _)), (proj2 (Z.ltb_ge _ _)) by lia.
  rewrite (u32_small (cursor_y s * _)), (u32_small (16 * _)) by nia. apply wp_fill_rows; [done|lia|lia|lia|]. intros s1 P1.
  apply HQ; [|by destruct P1 as (? & -> & _)]. eapply shown_painted; [done|exact P1|]. intros r c y x Hr' Hc' Hy Hx.
  unfold clear_row. unfold FONT_WIDTH, FONT_HEIGHT in *. destruct (Z.eqb_spec r (t_row t)) as [->|Hne].
  - rewrite shade_blank by done. by rewrite (proj2 (Z.leb_le _ _)), (proj2 (Z.ltb_lt _ _)) by lia.
  - rewrite <- (sh_cells _ _ Sh) by done. destruct ((cursor_y s <=? 16 * r + y) && (16 * r + y <? cursor_y s + 16)) eqn:E'; [zbool; lia|done].
Qed.

Lemma wp_putc_scroll s t (Q : unit -> screen -> Prop) : shown s t -> t_col t < cols ->
  (forall s', displays s' t -> Q tt s') -> wp putc_scroll Q s.
Proof.
  intros Sh Hcol HQ. destruct (shown_bounds s t Sh) as (Hc0 & _ & Hw & Hh & Hv & Hm & _ & Hhh). pose proof (sh_y _ _ Sh). pose proof (sh_row _ _ Sh).
  pose proof (sh_scroll _ _ Sh). unfold putc_scroll, FONT_HEIGHT in *. wp_steps. rewrite !u32_small by lia.
  assert (K : forall y, 0 <= y <= cursor_y s -> cursor_y s + 16 <= y + s_height s -> displays (set_scroll y s) t).
  { intros y Hy Hy2. split_and!; [|done|done]. destruct Sh as [G ? ? ? ? ? ? ? ?]. constructor; try done. destruct G. by constructor. }
  case_if; [|case_if].
  - rewrite u32_small by lia. wp_steps. apply HQ, K; lia.
  - lia.
  - wp_steps. apply HQ. replace s with (set_scroll (scroll_y_offset s) s) by (by destruct s). by apply K.
Qed.

Lemma displays_refresh s t b : displays s t -> displays (set_refresh b s) t.
Proof. intros ([G ? ? ? ? ? ? ? ?] & Hc & Hv). split_and!; [|done|done]. constructor; try done. destruct G. by constructor. Qed.

Lemma wp_putc_body s t ch (Q : bool -> screen -> Prop) : displays s t -> 0 <= ch ->
  (forall b s', displays s' (spec_putc t ch) -> Q b s') -> wp (putc_body ch) Q s.
Proof.
  intros (Sh & Hcol & Hvis) Hch HQ. destruct (shown_bounds s t Sh) as (Hc0 & Hr0 & Hw & Hh & Hv & Hm & _ & Hhh). pose proof (sh_y _ _ Sh). pose proof (sh_row _ _ Sh).
  unfold putc_body, spec_putc in *. wp_steps. rewrite Hm. unfold FONT_HEIGHT in *. rewrite u32_small by lia.
  set (t0 := if rows <=? t_row t then Text (fun _ _ => blank) 0 0 else t) in *.
  eapply (wp_mono _ (fun _ s1 => displays s1 t0 /\ t_row t0 < rows)).
  { unfold t0. destruct (Z.leb_spec rows (t_row t)).
    - rewrite (proj2 (Z.ltb_lt _ _)) by lia. eapply wp_clear_buffer; [exact Sh|]. intros s1 S1 E1 E2 E3. split; [|done].
      split_and!; [done|done|]. rewrite E1, E2, E3. unfold FONT_HEIGHT. lia.
    - rewrite (proj2 (Z.ltb_ge _ _)) by lia. by apply wp_ret. }
  clearbody t0. intros [] s1 ((S1 & C1 & V1) & R1). wp_steps. apply (wp_putc_advance s1 t0 ch); [done..|]. intros s2. cbv zeta. intros S2 H2 E2 HN HS.
  destruct (spec_advance ch t0) as [t2 [nl|]]; cbn [fst snd] in *.
  - wp_steps. apply (wp_putc_wrap s2 t2 nl); [done|by apply HS|]. intros s3. cbv zeta. intros S3 C3 H3 E3. wp_steps.
    destruct (spec_wrap nl t2) as [t3 nl3]. cbn [fst snd] in *. apply (wp_putc_clear s3 t3 nl3); [done|]. intros s4 S4 H4. wp_steps.
    apply (wp_putc_scroll s4 (spec_clear nl3 t3)); [done| |].
    + unfold spec_clear. by destruct (nl3 && (t_row t3 <? rows)).
    + intros s5 D5. wp_steps. by apply HQ.
  - wp_steps. apply HQ. destruct (HN eq_refl) as [Er Ec]. split_and!; [done|done|].
    rewrite H2, E2, (sh_y _ _ S2), Er, <- (sh_y _ _ S1). done.
Qed.

Lemma wp_tty_putc s t ch (Q : unit -> screen -> Prop) : displays s t -> 0 <= ch ->
  (forall s', displays s' (spec_putc t ch) -> Q tt s') -> wp (tty_putc_backbuffer ch) Q s.
Proof.
  intros D Hch HQ. unfold tty_putc_backbuffer. wp_steps. apply (wp_putc_body s t ch _ D Hch). intros b s' D'. destruct b; wp_steps; apply HQ; [|done].
  by apply displays_refresh.
Qed.
Lemma wp_tty_putc_X s t ch (Q : unit -> screen -> Prop) : displays s t -> 0 <= ch ->
  (forall s', displays s' (spec_putc t ch) -> Q tt s') -> wp (tty_putc_backbuffer_X ch) Q s.
Proof. intros D Hch HQ. unfold tty_putc_backbuffer_X. wp_steps. apply (wp_putc_body s t ch _ D Hch). intros b s' D'. wp_steps. by apply HQ. Qed.

(** A text, character by character. *)
Lemma wp_putc_all putc s t l (Q : unit -> screen -> Prop) :
  (forall s t ch (Q : unit -> screen -> Prop), displays s t -> 0 <= ch -> (forall s', displays s' (spec_putc t ch) -> Q tt s') -> wp (putc ch) Q s) ->
  displays s t -> Forall (Z.le 0) l -> (forall s', displays s' (foldl spec_putc t l) -> Q tt s') -> wp (putc_all putc l) Q s.
Proof.
  intros Hputc D Hl HQ. unfold putc_all. apply (wp_for (fun j s1 => displays s1 (foldl spec_putc t (take (Z.to_nat j) l)))).
  - done.
  - intros j s1 Hj D1. destruct (zlen_lookup l j) as [c Hc]; [unfold zlen; lia|]. wp_steps. eapply wp_rd; [lia|exact Hc|].
    eapply (Hputc s1 _ c _ D1); [by eapply (Forall_lookup_1 (Z.le 0))|]. intros s2 D2.
    replace (Z.to_nat (j + 1)) with (S (Z.to_nat j)) by lia. by rewrite (take_S_r _ _ _ Hc), foldl_app.
  - intros s1 D1. rewrite Z.add_0_l, Nat2Z.id, take_ge in D1 by lia. by apply HQ.
Qed.
End grid.

(** The screen after [tty_init_video_context]: blank. *)
Lemma init_displays g kmalloc pages b :
  let s := tty_init_video_context g kmalloc pages in
  FONT_WIDTH <= g_width g <= g_ppsl g -> FONT_HEIGHT <= g_height g -> g_bits g = 32 -> 0 <= pages ->
  g_height g * Z.max 1 pages * g_ppsl g * 4 < 2 ^ 32 ->
  kmalloc (g_height g * Z.max 1 pages * g_ppsl g * 4) = Some b -> zlen b = g_height g * Z.max 1 pages * g_ppsl g ->
  displays (virtual_height s / FONT_HEIGHT) (s_width s / FONT_WIDTH) s (Text (fun _ _ => blank) 0 0).
Proof.
  cbv zeta. intros Hw Hh Hb Hp Hsz Hk Hl. unfold tty_init_video_context. rewrite Hb. change (32 / 8) with 4. unfold FONT_WIDTH, FONT_HEIGHT in *.
  assert (Ep : (if 0 <? pages then pages else 1) = Z.max 1 pages) by (destruct (Z.ltb_spec 0 pages); lia). rewrite Ep.
  assert (B1 : 16 * g_ppsl g * 4 < 2 ^ 32) by nia. assert (B2 : g_height g * Z.max 1 pages * 32 < 2 ^ 32) by nia.
  assert (B3 : 16 <= g_height g * Z.max 1 pages) by nia. rewrite (u32_small (g_ppsl g * 4)), (u32_small (g_height g * _)) by lia.
  replace (g_height g * Z.max 1 pages * (g_ppsl g * 4)) with (g_height g * Z.max 1 pages * g_ppsl g * 4) by lia. rewrite u32_small, Hk by nia.
  replace (g_height g * Z.max 1 pages * g_ppsl g * 4 / 4) with (g_height g * Z.max 1 pages * g_ppsl g) by zdiv_lia.
  assert (En : Z.to_nat (g_height g * Z.max 1 pages * g_ppsl g) = length b) by (unfold zlen in Hl; lia).
  rewrite En, drop_all, app_nil_r.
  set (s := Screen _ _ _ _ _ _ _ _ _ _ _ _ _). split_and!.
  - constructor; try done; cbn [t_row t_col cells].
    + constructor; unfold FONT_WIDTH, FONT_HEIGHT, virtual_height; cbn; try lia. exists (replicate (length b) 0). split; [done|]. unfold zlen in *.
      by rewrite length_replicate.
    + unfold virtual_height, FONT_HEIGHT. cbn. zdiv_lia.
    + unfold FONT_WIDTH. cbn. zdiv_lia.
    + intros r c y x Hr Hc Hy Hx. rewrite shade_blank by done. unfold pixel, pixel_in, get8. cbn. destruct (replicate _ _ !! _) as [v|] eqn:E; [|done].
      by apply lookup_replicate in E as [-> _].
  - unfold FONT_WIDTH. cbn. zdiv_lia.
  - cbn. unfold FONT_HEIGHT. lia.
Qed.
