(* ===== verification/ScreenCheck.v ===== *)
(** * What the user sees

    The theorems on the emulator of a terminal's screen, the copy of its window
    to video memory and the painting by programs, with their witnesses. *)

From Stdlib Require Import ZArith Lia.
From stdpp Require Import base tactics list.
From S2P Require Import Prelude Bytes Font Screen ScreenThms.

(** C19: Whatever text is written, the screen shows the grid of characters of
    [spec_putc]: each cell holds the glyph of its character, the cursor is in
    its cell with its line in the window, and no pixel outside the buffer is
    touched. *)
Theorem screen_refines_text rows cols s t l : displays rows cols s t -> Forall (Z.le 0) l ->
  wp (putc_all tty_putc_backbuffer l) (fun _ s' => displays rows cols s' (foldl (spec_putc rows cols) t l)) s.
Proof. intros D Hl. apply (wp_putc_all rows cols _ s t l); [|done..]. intros. by apply (wp_tty_putc rows cols s0 t0). Qed.

(** ** The window in video memory *)

Lemma wp_copy_pixels {S} src from dst to n (Q : list Z -> S -> Prop) s :
  0 <= from -> 0 <= n -> from + n <= zlen src -> 0 <= to -> to + n <= zlen dst ->
  (forall d, zlen d = zlen dst -> (forall i, 0 <= i -> get8 d (Z.to_nat i) =
     if (to <=? i) && (i <? to + n) then get8 src (Z.to_nat (from + (i - to))) else get8 dst (Z.to_nat i)) -> Q d s) ->
  wp (copy_pixels src from dst to n) Q s.
Proof.
  intros Hf Hn Hs Ht Hd HQ. unfold copy_pixels. wp_steps. apply wp_bytes_out; [lia..|]. 
  assert (Hl : zlen (take (Z.to_nat n) (drop (Z.to_nat from) src)) = n) by (unfold zlen in *; rewrite length_take, length_drop; lia).
  apply wp_bytes_in; [done|rewrite Hl; lia|]. intros d (Hld & Hlk). apply HQ; [done|]. intros i Hi. unfold get8. rewrite Hlk, Hl, Z2Nat.id by done.
  destruct ((to <=? i) && (i <? to + n)) eqn:E; zbool.
  - rewrite decide_True by lia. rewrite lookup_take_lt by lia. rewrite lookup_drop. do 2 f_equal. lia.
  - rewrite decide_False; [done|]. apply andb_false_iff in E as [E|E]; zbool; lia.
Qed.

Lemma mod_once a n : 0 <= n -> 0 <= a < 2 * n -> a mod n = if a <? n then a else a - n.
Proof. intros Hn Ha. case_if; [apply Z.mod_small; lia|]. symmetry. apply (Z.mod_unique _ _ 1); lia. Qed.

(** Line [y] of the screen shows line [scroll + y] of the buffer, which wraps at
    its end. *)
Definition on_display (s : screen) (v : list Z) : Prop :=
  forall y x, 0 <= y < s_height s -> 0 <= x < pixels_per_scanLine s ->
    pixel_in v (pixels_per_scanLine s) y x = pixel s ((scroll_y_offset s + y) mod virtual_height s) x.

Lemma wp_tty_flush s vram :
  geometry s -> 0 <= scroll_y_offset s <= virtual_height s -> s_height s * pixels_per_scanLine s <= zlen vram ->
  wp (tty_flush_to_screen s) (fun _ v => zlen v = zlen vram /\ on_display s v /\
    (forall i, s_height s * pixels_per_scanLine s <= i -> get8 v (Z.to_nat i) = get8 vram (Z.to_nat i))) vram.
Proof.
  intros G Hsc Hv. destruct (geo_bounds s G) as (Hvh & Hh & Hw & Hp & Hm). pose proof (geo_bytes s G) as Hb. pose proof (geo_height s G).
  destruct (geo_buffer s G) as (b & Eb & Hl). unfold tty_flush_to_screen, on_display, pixel. rewrite Eb. wp_steps. cbv zeta. rewrite Hm.
  set (p := pixels_per_scanLine s) in *. set (vh := virtual_height s) in *. set (h := s_height s) in *. set (sc := scroll_y_offset s) in *.
  unfold FONT_HEIGHT in *.
  assert (Hrow : forall n, 0 <= n <= vh -> u32 (n * u32 (p * 4)) / 4 = n * p).
  { intros n Hn. rewrite (u32_small (p * 4)) by lia. replace (n * (p * 4)) with (n * p * 4) by lia. rewrite u32_small by nia. zdiv_lia. }
  rewrite (u32_small (sc + h)), (Hrow sc) by lia. case_if.
  - rewrite (Hrow h) by lia. wp_steps. apply wp_copy_pixels; try nia. intros v Hlv Hg. wp_steps. split_and!; [done| |].
    + intros y x Hy Hx. unfold pixel_in. rewrite Hg, mod_once by nia. rewrite (proj2 (Z.ltb_lt (sc + y) vh)) by lia.
      rewrite (proj2 (Z.leb_le _ _)), (proj2 (Z.ltb_lt _ _)) by nia. cbn [andb]. do 2 f_equal. lia.
    + intros i Hi. rewrite Hg by nia. by rewrite (proj2 (Z.ltb_ge i _)), andb_false_r by lia.
  - rewrite (u32_small (vh - sc)), (u32_small (h - _)), (Hrow (vh - sc)), (Hrow (h - (vh - sc))) by lia. wp_steps.
    apply wp_copy_pixels; try nia. intros v1 Hl1 Hg1. wp_steps. apply wp_copy_pixels; try nia. intros v2 Hl2 Hg2. wp_steps.
    split_and!; [congruence| |].
    + intros y x Hy Hx. unfold pixel_in. rewrite Hg2, Hg1, mod_once by nia. destruct (Z.ltb_spec (sc + y) vh).
      * rewrite (proj2 (Z.leb_gt ((vh - sc) * p) _)) by nia. cbn [andb]. rewrite (proj2 (Z.leb_le 0 _)), (proj2 (Z.ltb_lt _ _)) by nia.
        cbn [andb]. do 2 f_equal. lia.
      * rewrite (proj2 (Z.leb_le ((vh - sc) * p) _)), (proj2 (Z.ltb_lt _ _)) by nia. cbn [andb]. do 2 f_equal. lia.
    + intros i Hi. rewrite Hg2, Hg1 by nia. rewrite (proj2 (Z.ltb_ge i ((vh - sc) * p + _))), andb_false_r by nia.
      by rewrite (proj2 (Z.ltb_ge i _)), andb_false_r by nia.
Qed.

(** The copy to the screen shows the window of the buffer, which wraps at
    the end of the buffer: line [y] of the screen is line [scroll + y]. *)
Theorem tty_flush_correct s vram :
  geometry s -> 0 <= scroll_y_offset s <= virtual_height s -> s_height s * pixels_per_scanLine s <= zlen vram ->
  wp (tty_flush_to_screen s) (fun _ v => zlen v = zlen vram /\
    (forall y x, 0 <= y < s_height s -> 0 <= x < pixels_per_scanLine s ->
       pixel_in v (pixels_per_scanLine s) y x = pixel s ((scroll_y_offset s + y) mod virtual_height s) x) /\
    (forall i, s_height s * pixels_per_scanLine s <= i -> get8 v (Z.to_nat i) = get8 vram (Z.to_nat i))) vram.
Proof. exact (wp_tty_flush s vram). Qed.

(** A program's picture is clipped to the screen and copied row by row; what
    it does not cover stays, and a picture smaller than it claims is refused. *)
Theorem tty_video_write_correct s user :
  geometry s -> bpp s = 32 -> refresh_needed s = false ->
  0 < u_width user <= u_ppsl user -> u_ppsl user < 2 ^ 32 -> 0 < u_height user -> u_bpp user = 32 -> u_size user <= 4 * zlen (user_buffer user) ->
  let w := Z.min (u_width user) (s_width s) in let h := Z.min (u_height user) (s_height s) in
  wp (tty_video_write user) (fun r s' =>
    if u_size user <? u_ppsl user * 4 * h then r = Some 0 /\ s' = s
    else r = Some (w * 4 * h) /\ refresh_needed s' = true /\
      painted s (fun y x => if (y <? h) && (x <? w) then pixel_in (user_buffer user) (u_ppsl user) y x else pixel s y x) (set_refresh false s')) s.
Proof.
  intros G Hbpp Hrf Hw Hpp Hh Hub Hsz w h. destruct (geo_bounds s G) as (Hvh & Hvh2 & Hsw & Hp & _). pose proof (geo_width s G). pose proof (geo_height s G).
  destruct (geo_buffer s G) as (b & Eb & Hl). unfold tty_video_write. wp_steps. rewrite Eb, Hub, Hbpp, Hrf.
  rewrite !(proj2 (Z.eqb_neq _ 0)), !(proj2 (Z.ltb_ge _ _)) by lia. cbn [orb negb Z.eqb Pos.eqb]. fold w h. unfold FONT_HEIGHT in *.
  assert (Hwr : 0 < w <= s_width s /\ w <= u_width user /\ 0 < h <= s_height s) by lia. clearbody w h.
  rewrite u64_small by nia. case_if; [by apply wp_ret|]. wp_steps.
  set (goal := fun j y x => if (y <? j) && (x <? w) then pixel_in (user_buffer user) (u_ppsl user) y x else pixel s y x).
  apply (wp_for (fun j s1 => painted s (goal j) s1)).
  - eapply painted_ext; [by apply painted_refl|]. intros y x (Hy & Hx). unfold goal. by rewrite (proj2 (Z.ltb_ge y 0)) by lia.
  - intros j s1 Hj P1. rewrite Z.add_0_l, Z2Nat.id in Hj by lia. pose proof P1 as (b1 & -> & Hl1 & Hp1). wp_steps. eapply wp_opt; [reflexivity|]. wp_steps.
    apply wp_copy_pixels; try (cbn [pixels_per_scanLine set_pixels]; nia). intros b2 Hl2 Hg2. wp_steps.
    exists b2. split_and!; [done|lia|]. intros y x Hon. specialize (Hp1 y x Hon). destruct Hon as (Hy & Hx).
    unfold pixel in Hp1 |- *. cbn [video_buffer set_pixels pixels_per_scanLine] in *. unfold pixel_in at 1. rewrite Hg2 by nia. unfold goal in *.
    destruct (Z.eqb_spec y j) as [->|Hne].
    + rewrite (proj2 (Z.leb_le _ _)), (proj2 (Z.ltb_lt j (j + 1))) by nia. rewrite (proj2 (Z.ltb_ge j j)) in Hp1 by lia. cbn [andb] in *.
      replace (j * pixels_per_scanLine s + x <? j * pixels_per_scanLine s + w) with (x <? w)
        by (destruct (Z.ltb_spec x w), (Z.ltb_spec (j * pixels_per_scanLine s + x) (j * pixels_per_scanLine s + w)); lia || done).
      destruct (x <? w); [|done]. unfold pixel_in. do 2 f_equal. lia.
    + replace (y <? j + 1) with (y <? j) by (destruct (Z.ltb_spec y j), (Z.ltb_spec y (j + 1)); lia || done). rewrite <- Hp1. unfold pixel_in.
      destruct ((j * pixels_per_scanLine s <=? y * pixels_per_scanLine s + x) && (y * pixels_per_scanLine s + x <? j * pixels_per_scanLine s + w)) eqn:E'; [|done].
      zbool. nia.
  - intros s1 P1. rewrite Z.add_0_l, Z2Nat.id in P1 by lia. wp_steps. split_and!; [done..|]. destruct P1 as (b1 & -> & Hl1 & Hp1). exists b1.
    split_and!; [|done|done]. destruct s. cbn in *. by subst.
Qed.

(** ** Witnesses *)

(** A screen of two lines of two characters. *)
Definition tiny (bits : Z) : graphics := Graphics 16 32 16 bits.
Definition memory_of (size : Z) : option (list Z) := Some (replicate (Z.to_nat (size / 4)) 7).
Definition tiny_screen : screen := tty_init_video_context (tiny 32) memory_of 1.
Definition blank_text : text := Text (fun _ _ => blank) 0 0.

Lemma tiny_displays : displays 2 2 tiny_screen blank_text.
Proof. apply (init_displays (tiny 32) memory_of 1 (replicate 512 7)); vm_compute; intuition congruence. Qed.

(** ["A\tB\nC"]: the tab ends the line, the newline the screen, the last letter
    starts a blank one. *)
Lemma screen_refines_text_witness :
  wp (putc_all tty_putc_backbuffer [65; 9; 66; 10; 67])
    (fun _ s' => displays 2 2 s' (foldl (spec_putc 2 2) blank_text [65; 9; 66; 10; 67])) tiny_screen /\
  (let t := foldl (spec_putc 2 2) blank_text [65; 9; 66; 10; 67] in t_row t = 0 /\ t_col t = 1 /\ cells t 0 0 = 67 /\ cells t 1 0 = blank).
Proof.
  split; [|vm_compute; by split_and!]. apply (screen_refines_text 2 2 tiny_screen blank_text [65; 9; 66; 10; 67]).
  - exact tiny_displays.
  - repeat (apply Forall_cons_2; [vm_compute; congruence|]). apply Forall_nil_2.
Defined.

Lemma tiny_geometry : geometry tiny_screen.
Proof. apply (sh_geometry 2 2 tiny_screen blank_text). apply tiny_displays. Qed.

Lemma tty_flush_correct_witness :
  let s := set_scroll 16 tiny_screen in
  wp (tty_flush_to_screen s) (fun _ v => zlen v = 600 /\
    (forall y x, 0 <= y < 32 -> 0 <= x < 16 -> pixel_in v 16 y x = pixel s ((16 + y) mod 32) x) /\
    (forall i, 512 <= i -> get8 v (Z.to_nat i) = get8 (replicate 600 1) (Z.to_nat i))) (replicate 600 1).
Proof.
  apply (tty_flush_correct (set_scroll 16 tiny_screen) (replicate 600 1)).
  - destruct tiny_geometry as [? ? ? ? Hb]. by constructor.
  - vm_compute. intuition congruence.
  - vm_compute. congruence.
Defined.

Lemma tty_video_write_correct_witness :
  let user := User (replicate 40 5) 160 10 4 10 32 in
  wp (tty_video_write user) (fun r s' => r = Some 160 /\ refresh_needed s' = true /\
    painted tiny_screen (fun y x => if (y <? 4) && (x <? 10) then pixel_in (replicate 40 5) 10 y x else pixel tiny_screen y x) (set_refresh false s'))
    tiny_screen.
Proof.
  apply (tty_video_write_correct tiny_screen (User (replicate 40 5) 160 10 4 10 32)); try (vm_compute; intuition congruence).
  exact tiny_geometry.
Defined.

(** ** Outside the theorems' conditions *)

(** With 24 bits a pixel the buffer is measured in three bytes and written in
    four: the second line of text leaves it. *)
Lemma buffer_for_24_bits : tty_putc_backbuffer 66 (set_cursor 0 16 (tty_init_video_context (tiny 24) memory_of 1)) = Stop OutOfBounds.
Proof. vm_compute. reflexivity. Qed.

(** The failure of the allocation is not noticed before the first character. *)
Lemma buffer_not_allocated : tty_putc_backbuffer 66 (tty_init_video_context (tiny 32) (fun _ => None) 1) = Stop NullDeref.
Proof. vm_compute. reflexivity. Qed.
