(* ===== verification/Kbd.v ===== *)
(** * The keyboard

    The interrupt routine and the event queue of
    [kernel/drivers/char/keyboard.c], and the translation of an event by
    [tty_keyboard_bridge_thread] of [drivers/tty/vfs_tty_kbd.c].  What the two
    ports of the controller hold is an argument of the routine. *)

From Stdlib Require Import ZArith Lia.
From stdpp Require Import base tactics list.
From S2P Require Import Prelude Bytes.

Definition KBD_BUFFER_SIZE : Z := 128.
Definition KBD_MOD_LSHIFT : Z := 1.
Definition KBD_MOD_RSHIFT : Z := 2.
Definition KBD_MOD_CAPS : Z := 4.
Definition KBD_MOD_RELEASE : Z := 128.
Definition SCAN_LSHIFT : Z := 0x2A.
Definition SCAN_RSHIFT : Z := 0x36.
Definition SCAN_CAPSLOCK : Z := 0x3A.
Definition SCANCODE_F1 : Z := 0x3B.
Definition SCANCODE_F4 : Z := 0x3E.

Record kbd_event : Type := Event { scancode : Z; modifiers_state : Z }.

Record kbd : Type := Kbd {
  g_is_e0_extended : bool;
  g_current_modifiers : Z;
  g_kbd_raw_buffer : list kbd_event;
  g_kbd_head : Z;
  g_kbd_tail : Z
}.

Definition set_e0 (b : bool) (k : kbd) : kbd := Kbd b (g_current_modifiers k) (g_kbd_raw_buffer k) (g_kbd_head k) (g_kbd_tail k).
Definition set_modifiers (x : Z) (k : kbd) : kbd := Kbd (g_is_e0_extended k) x (g_kbd_raw_buffer k) (g_kbd_head k) (g_kbd_tail k).
Definition set_events (b : list kbd_event) (h : Z) (k : kbd) : kbd := Kbd (g_is_e0_extended k) (g_current_modifiers k) b h (g_kbd_tail k).
Definition set_kbd_tail (t : Z) (k : kbd) : kbd := Kbd (g_is_e0_extended k) (g_current_modifiers k) (g_kbd_raw_buffer k) (g_kbd_head k) t.

(** The state [keyboard_ps2_init] sets; the buffer keeps what it held. *)
Definition keyboard_ps2_init (k : kbd) : kbd := Kbd false 0 (g_kbd_raw_buffer k) 0 0.

Definition kbd_next (i : Z) : Z := (i + 1) mod KBD_BUFFER_SIZE.

(** The modifiers after a key has been released, and pressed. *)
Definition modifiers_up (code m : Z) : Z :=
  let m := if code =? SCAN_LSHIFT then Z.land m (Z.lnot KBD_MOD_LSHIFT) else m in
  if code =? SCAN_RSHIFT then Z.land m (Z.lnot KBD_MOD_RSHIFT) else m.
Definition modifiers_down (code m : Z) : Z :=
  let m := if code =? SCAN_LSHIFT then Z.lor m KBD_MOD_LSHIFT else m in
  let m := if code =? SCAN_RSHIFT then Z.lor m KBD_MOD_RSHIFT else m in
  if code =? SCAN_CAPSLOCK then Z.lxor m KBD_MOD_CAPS else m.

(** The end of the routine: the new modifiers, and the event in the ring when it
    has room. *)
Definition keyboard_store (code m packet : Z) : M kbd unit :=
  kmodify (set_modifiers m) ;;;
  kmodify (set_e0 false) ;;;
  k <-- kget ;;
  let next := kbd_next (g_kbd_head k) in
  if next =? g_kbd_tail k then kret tt else
  b <-- upd (g_kbd_raw_buffer k) (g_kbd_head k) (Event code packet) ;;
  kmodify (set_events b next).

Definition keyboard_handler (status byte : Z) : M kbd unit :=
  if Z.land status 1 =? 0 then kret tt else
  if byte =? 0xFA then kret tt else
  if byte =? 0xE0 then kmodify (set_e0 true) else
  k <-- kget ;;
  let m := g_current_modifiers k in
  let '(code, m', packet) :=
    if negb (Z.land byte 0x80 =? 0) then
      let pure := Z.land byte 0x7F in (pure, modifiers_up pure m, Z.lor m KBD_MOD_RELEASE)
    else let m' := modifiers_down byte m in (byte, m', m') in
  keyboard_store code m' packet.

(** [None]: the caller sleeps. *)
Definition keyboard_get_event : M kbd (option kbd_event) :=
  k <-- kget ;;
  if g_kbd_tail k =? g_kbd_head k then kret None else
  e <-- rd (g_kbd_raw_buffer k) (g_kbd_tail k) ;;
  kmodify (set_kbd_tail (kbd_next (g_kbd_tail k))) ;;;
  kret (Some e).

(** ** The translation of an event *)

(** The tables, by scan code; the codes from 58 on have no character. *)
Definition g_kbd_us_keymap : list Z :=
  [0; 27; 49; 50; 51; 52; 53; 54; 55; 56; 57; 48; 45; 61; 8;
   9; 113; 119; 101; 114; 116; 121; 117; 105; 111; 112; 91; 93; 10;
   0; 97; 115; 100; 102; 103; 104; 106; 107; 108; 59; 39; 96; 0;
   92; 122; 120; 99; 118; 98; 110; 109; 44; 46; 47; 0; 42; 0;
   32] ++ replicate 70 0.
Definition g_kbd_us_shift_keymap : list Z :=
  [0; 27; 33; 64; 35; 36; 37; 94; 38; 42; 40; 41; 95; 43; 8;
   9; 81; 87; 69; 82; 84; 89; 85; 73; 79; 80; 123; 125; 10;
   0; 65; 83; 68; 70; 71; 72; 74; 75; 76; 58; 34; 126; 0;
   124; 90; 88; 67; 86; 66; 78; 77; 60; 62; 63; 0; 42; 0;
   32] ++ replicate 70 0.

(** What the bridge does with an event: nothing, a change of terminal, or a
    character. *)
Inductive key_action : Type :=
| KNone
| KSwitch (tty : Z)
| KChar (c : Z).

Definition caps_case (shift_active : bool) (c : Z) : Z :=
  if (97 <=? c) && (c <=? 122) then (if shift_active then c else c - 32)
  else if (65 <=? c) && (c <=? 90) then (if shift_active then c else c + 32)
  else c.

Definition translate_event {S} (e : kbd_event) : M S key_action :=
  let code := scancode e in
  let m := modifiers_state e in
  if 128 <=? code then kret KNone else
  if negb (Z.land m KBD_MOD_RELEASE =? 0) then kret KNone else
  if (SCANCODE_F1 <=? code) && (code <=? SCANCODE_F4) then
    kret (if code - SCANCODE_F1 <? 4 then KSwitch (code - SCANCODE_F1) else KNone) else
  let shift_active := negb (Z.land m (Z.lor KBD_MOD_LSHIFT KBD_MOD_RSHIFT) =? 0) in
  let caps_active := negb (Z.land m KBD_MOD_CAPS =? 0) in
  c <-- rd (if shift_active then g_kbd_us_shift_keymap else g_kbd_us_keymap) code ;;
  let c := if caps_active && negb (c =? 0) then caps_case shift_active c else c in
  kret (if c =? 0 then KNone else KChar c).

(** ** Typing *)

(** One byte from the controller, and the event it leaves, if any. *)
Definition key_byte (byte : Z) : M kbd key_action :=
  keyboard_handler 1 byte ;;;
  e <-- keyboard_get_event ;;
  match e with Some e => translate_event e | None => kret KNone end.
Fixpoint key_bytes (l : list Z) : M kbd (list key_action) :=
  match l with [] => kret [] | b :: l' => a <-- key_byte b ;; r <-- key_bytes l' ;; kret (a :: r) end.

(** The characters among the actions. *)
Definition typed (l : list key_action) : list Z := omap (fun a => match a with KChar c => Some c | _ => None end) l.

(** The place of a character in a table. *)
Fixpoint code_of (c : Z) (i : Z) (l : list Z) : option Z :=
  match l with [] => None | x :: l' => if x =? c then Some i else code_of c (i + 1) l' end.

(** The bytes of a character: the key pressed and released, with the left shift
    around it when the character is only in the second table. *)
Definition bytes_of (c : Z) : option (list Z) :=
  if c =? 0 then None else
  match code_of c 0 g_kbd_us_keymap with
  | Some i => Some [i; i + 128]
  | None => (fun i => [SCAN_LSHIFT; i; i + 128; SCAN_LSHIFT + 128]) <$> code_of c 0 g_kbd_us_shift_keymap
  end.

Definition idle (k : kbd) : Prop :=
  length (g_kbd_raw_buffer k) = 128%nat /\ g_kbd_head k = g_kbd_tail k /\ 0 <= g_kbd_tail k < KBD_BUFFER_SIZE.

(** A byte on an idle keyboard: its event is taken at once. *)
Definition byte_effect (byte m : Z) : Z * option kbd_event :=
  if (byte =? 0xFA) || (byte =? 0xE0) then (m, None) else
  if negb (Z.land byte 0x80 =? 0) then (modifiers_up (Z.land byte 0x7F) m, Some (Event (Z.land byte 0x7F) (Z.lor m KBD_MOD_RELEASE)))
  else (modifiers_down byte m, Some (Event byte (modifiers_down byte m))).

Lemma get_event_none k (Q : option kbd_event -> kbd -> Prop) :
  g_kbd_head k = g_kbd_tail k -> Q None k -> wp keyboard_get_event Q k.
Proof. intros Hh HQ. unfold keyboard_get_event. wp_steps. rewrite Hh, Z.eqb_refl. by wp_steps. Qed.

(** The event the routine stores is the one taken. *)
Lemma store_and_get {A} k code m' packet (f : option kbd_event -> M kbd A) (Q : A -> kbd -> Prop) : idle k ->
  (forall k', idle k' -> g_current_modifiers k' = m' -> wp (f (Some (Event code packet))) Q k') ->
  wp (keyboard_store code m' packet) (fun _ k' => wp (e <-- keyboard_get_event ;; f e) Q k') k.
Proof.
  intros (Hl & Hh & Ht) HQ. unfold keyboard_store, keyboard_get_event. wp_steps. cbn [g_kbd_head g_kbd_tail g_kbd_raw_buffer set_modifiers set_e0].
  unfold kbd_next, KBD_BUFFER_SIZE in *. rewrite (proj2 (Z.eqb_neq _ _)) by zdiv_lia. wp_steps.
  eapply wp_upd; [unfold zlen; lia|]. wp_steps. cbn [g_kbd_head g_kbd_tail g_kbd_raw_buffer set_events set_modifiers set_e0].
  rewrite (proj2 (Z.eqb_neq _ _)) by zdiv_lia. wp_steps.
  eapply wp_rd; [lia|rewrite Hh; apply list_lookup_insert_eq; lia|]. wp_steps.
  apply HQ; [|done]. unfold idle, KBD_BUFFER_SIZE. cbn. rewrite length_insert. split_and!; [done|by rewrite Hh|zdiv_lia..].
Qed.

Lemma wp_key_byte k byte (Q : key_action -> kbd -> Prop) : idle k ->
  (forall k', idle k' -> g_current_modifiers k' = fst (byte_effect byte (g_current_modifiers k)) ->
    wp (match snd (byte_effect byte (g_current_modifiers k)) with Some e => translate_event e | None => kret KNone end) Q k') ->
  wp (key_byte byte) Q k.
Proof.
  intros Hk HQ. pose proof Hk as (_ & Hh & _). unfold key_byte, keyboard_handler, byte_effect in *. change (Z.land 1 1 =? 0) with false. cbv iota.
  destruct (byte =? 0xFA); [wp_steps; apply get_event_none; [done|]; by apply HQ|].
  destruct (byte =? 0xE0); cbn [orb] in HQ; [wp_steps; apply get_event_none; [done|]; by apply HQ|].
  wp_steps. destruct (negb _); cbv zeta iota beta; apply store_and_get; done.
Qed.

(** The translation does not touch the state. *)
Lemma wp_translate {S} e (Q : key_action -> S -> Prop) s :
  wp (translate_event e) Q s = match translate_event e tt with Ok (a, _) => Q a s | Stop _ => False end.
Proof.
  unfold translate_event, wp, kret. cbv zeta. unfold rd, kbind, kopt, kstop, kret.
  destruct (128 <=? scancode e), (negb (Z.land (modifiers_state e) KBD_MOD_RELEASE =? 0)), ((SCANCODE_F1 <=? scancode e) && (scancode e <=? SCANCODE_F4)); try done.
  destruct (scancode e <? 0); [done|]. destruct (lookup (M := list Z) _ _); reflexivity.
Qed.

(** What a byte does at modifiers [m], as a function. *)
Definition run_action (byte m : Z) : option (key_action * Z) :=
  match snd (byte_effect byte m) with
  | Some e => match translate_event e tt with Ok (a, _) => Some (a, fst (byte_effect byte m)) | _ => None end
  | None => Some (KNone, fst (byte_effect byte m))
  end.
Fixpoint run_actions (l : list Z) (m : Z) : option (list key_action * Z) :=
  match l with
  | [] => Some ([], m)
  | b :: l' =>
    match run_action b m with
    | Some (a, m') => (fun r => (a :: r.1, r.2)) <$> run_actions l' m'
    | None => None
    end
  end.

Lemma wp_key_action k byte a m' (Q : key_action -> kbd -> Prop) : idle k ->
  run_action byte (g_current_modifiers k) = Some (a, m') ->
  (forall k', idle k' -> g_current_modifiers k' = m' -> Q a k') -> wp (key_byte byte) Q k.
Proof.
  intros Hk Ha HQ. apply wp_key_byte; [done|]. intros k' Hk' Hm. unfold run_action in Ha.
  destruct (snd _) as [e|]; [|injection Ha as <- <-; by apply HQ].
  rewrite (wp_translate e). destruct (translate_event e tt) as [[a' ?]|]; [|done]. injection Ha as <- <-. by apply HQ.
Qed.

Lemma wp_key_actions l k r m' (Q : list key_action -> kbd -> Prop) : idle k ->
  run_actions l (g_current_modifiers k) = Some (r, m') ->
  (forall k', idle k' -> g_current_modifiers k' = m' -> Q r k') -> wp (key_bytes l) Q k.
Proof.
  revert k r Q. induction l as [|b l IH]; intros k r Q Hk Hr HQ; cbn [key_bytes run_actions] in *.
  { injection Hr as <- <-. apply wp_ret. by apply HQ. }
  destruct (run_action b _) as [[a m1]|] eqn:Ha; [|done]. destruct (run_actions l m1) as [[r1 m2]|] eqn:Hl; [|done].
  injection Hr as <- <-. wp_steps. eapply wp_key_action; [done..|]. intros k1 Hk1 Hm1. subst m1. wp_steps.
  eapply IH; [done..|]. intros k2 Hk2 Hm2. wp_steps. by apply HQ.
Qed.

Lemma run_actions_app l1 l2 m r1 m1 r2 m2 : run_actions l1 m = Some (r1, m1) -> run_actions l2 m1 = Some (r2, m2) ->
  run_actions (l1 ++ l2) m = Some (r1 ++ r2, m2).
Proof.
  revert m r1. induction l1 as [|b l IH]; intros m r1 H1 H2; cbn [run_actions app] in *; [by injection H1 as <- <-|].
  destruct (run_action b m) as [[a m']|]; [|done]. destruct (run_actions l m') as [[r m3]|] eqn:E; [|done].
  injection H1 as <- <-. by rewrite (IH m' r).
Qed.

Lemma code_of_elem c i j l : code_of c i l = Some j -> c ∈ l.
Proof.
  revert i. induction l as [|x l IH]; intros i H; [done|]. cbn in H. destruct (Z.eqb_spec x c) as [->|]; [left|right; by eapply IH].
Qed.

(** The bytes of one character, checked over the two tables. *)
Definition is_switch (a : key_action) : bool := match a with KSwitch _ => true | _ => false end.
Definition bytes_type (c : Z) : bool :=
  match bytes_of c with
  | Some l => match run_actions l 0 with
              | Some (r, m) => bool_decide (typed r = [c]) && (m =? 0) && negb (existsb is_switch r) && (0 <=? c) && negb (c =? 13)
              | None => false
              end
  | None => true
  end.
Lemma bytes_type_all : Forall (fun c => bytes_type c = true) (g_kbd_us_keymap ++ g_kbd_us_shift_keymap).
Proof. apply Forall_forall. intros c Hc. apply Is_true_eq_true. revert c Hc. apply Forall_forall, forallb_True. by vm_compute. Qed.

Lemma bytes_of_types c l : bytes_of c = Some l ->
  exists r, run_actions l 0 = Some (r, 0) /\ typed r = [c] /\ existsb is_switch r = false /\ 0 <= c /\ c <> 13.
Proof.
  intros Hb. assert (Hc : c ∈ g_kbd_us_keymap ++ g_kbd_us_shift_keymap).
  { apply elem_of_app. unfold bytes_of in Hb. destruct (c =? 0); [done|]. destruct (code_of c 0 g_kbd_us_keymap) eqn:E; [left; by eapply code_of_elem|].
    destruct (code_of c 0 g_kbd_us_shift_keymap) eqn:E'; [right; by eapply code_of_elem|done]. }
  pose proof (proj1 (Forall_forall _ _) bytes_type_all c Hc) as H. unfold bytes_type in H. rewrite Hb in H.
  destruct (run_actions l 0) as [[r m]|]; [|done]. do 4 apply andb_prop in H as [H ?]. zbool. subst m.
  exists r. apply bool_decide_eq_true in H. by split_and!.
Qed.

(** The bytes of a text; [None] when some character has no key. *)
Definition bytes_of_text (text : list Z) : option (list Z) := @concat Z <$> mapM bytes_of text.

Lemma text_types text l : bytes_of_text text = Some l ->
  exists r, run_actions l 0 = Some (r, 0) /\ typed r = text /\ existsb is_switch r = false /\ Forall (fun c => 0 <= c /\ c <> 13) text.
Proof.
  unfold bytes_of_text. revert l. induction text as [|c text IH]; intros l H; cbn in H.
  { injection H as <-. by exists []. }
  destruct (bytes_of c) as [lc|] eqn:Hc; [|done]. destruct (mapM bytes_of text) as [ls|]; [|done]. cbn in H. injection H as <-.
  destruct (bytes_of_types c lc Hc) as (r1 & H1 & T1 & S1 & N1), (IH _ eq_refl) as (r2 & H2 & T2 & S2 & N2).
  exists (r1 ++ r2). rewrite existsb_app, S1, S2. split_and!; [by eapply run_actions_app| |done|by apply Forall_cons_2]. unfold typed in *. by rewrite omap_app, T1, T2.
Qed.

(** What is typed is what arrives.  On a keyboard with an empty ring and no
    modifier held, the bytes a keyboard sends for a text (press and release of
    each key, inside a press and release of the left shift where the second
    table has the character) go through the interrupt routine, the ring and the
    translation of the bridge to exactly the text, and leave the ring empty and
    no modifier held. *)
Theorem typing_roundtrip k text bytes : idle k -> g_current_modifiers k = 0 -> bytes_of_text text = Some bytes ->
  wp (key_bytes bytes) (fun acts k' => typed acts = text /\ idle k' /\ g_current_modifiers k' = 0) k.
Proof.
  intros Hk Hm Hb. destruct (text_types text bytes Hb) as (r & Hr & Ht & _).
  eapply wp_key_actions; [done|by rewrite Hm|]. done.
Qed.

Definition kbd0 : kbd := Kbd false 0 (replicate 128 (Event 0 0)) 5 5.
Lemma kbd0_idle : idle kbd0.
Proof. by vm_compute. Qed.
(** "Ok!" and a line feed. *)
Lemma typing_roundtrip_witness : idle kbd0 /\ bytes_of_text [79; 107; 33; 10] = Some [42; 24; 152; 170; 37; 165; 42; 2; 130; 170; 28; 156] /\
  wp (key_bytes [42; 24; 152; 170; 37; 165; 42; 2; 130; 170; 28; 156]) (fun acts k' => typed acts = [79; 107; 33; 10] /\ idle k' /\ g_current_modifiers k' = 0) kbd0.
Proof. split; [exact kbd0_idle|]. split; [reflexivity|]. apply typing_roundtrip; [exact kbd0_idle|reflexivity|reflexivity]. Defined.

(** With caps lock on, a letter typed with the shift held is still a capital. *)
Lemma caps_and_shift : translate_event (S := unit) (Event 0x1E (Z.lor KBD_MOD_CAPS KBD_MOD_LSHIFT)) tt = Ok (KChar 65, tt).
Proof. reflexivity. Qed.

(** The prefix of the extended keys is recorded and not used: the fake shift that
    an extended key sends, as does Print Screen, holds the shift. *)
Lemma extended_shift : (fun r => match r with Ok (acts, k) => Some (acts, g_current_modifiers k) | Stop _ => None end)
  (key_bytes [0xE0; 0x2A; 0x1E] kbd0) = Some ([KNone; KNone; KChar 65], KBD_MOD_LSHIFT).
Proof. by vm_compute. Qed.

(** 127 events fill the ring; the next one is lost. *)
Lemma full_ring_drops : (fun r => match r with Ok (_, k) => Some (g_kbd_head k, length (g_kbd_raw_buffer k)) | Stop _ => None end)
  (foldr (fun b m => keyboard_handler 1 b ;;; m) (kret tt) (replicate 130 0x1E) kbd0) = Some (4, 128%nat).
Proof. by vm_compute. Qed.
