(* ===== verification/Console.v ===== *)
(** * Terminals, pseudo-terminals and the threads that serve them

    [drivers/tty/tty.c] (the table of terminals), [fs/dev/vfs_tty.c] and
    [fs/dev/vfs_pty.c] (the device nodes), [tty_keyboard_bridge_thread] of
    [drivers/tty/vfs_tty_kbd.c] and [tty_emulator_thread] of
    [drivers/video/console.c], over the devices of [Tty] and [Screen], the
    keyboard of [Kbd] and the directories of [Ramfs].  A [tty_device], a
    [pty_pair_t] and a node are named by their addresses; the [private_data] of
    a device node is kept beside the tree.  Memory given back is gone: a pointer
    to it faults. *)

From Stdlib Require Import ZArith Lia.
From stdpp Require Import base tactics list gmap.
From S2P Require Import Prelude Bytes Ramfs Format Tty Font Screen Kbd.

Definition MAX_TTY_DRV_DEVICES : Z := 4.
Definition VFS_CHAR_DEV : Z := 4.
Definition TIOCGPTN : Z := 0x5430.
Definition TTY_OPS : fs_ops := DriverOps 1.
Definition PTMX_OPS : fs_ops := DriverOps 2.
Definition PTS_OPS : fs_ops := DriverOps 3.

(** A [struct tty_device]: its queues and its screen. *)
Record tdev : Type := TDev { td_q : tty_device; td_scr : screen }.

Record pty_pair : Type := Pair {
  p_id : Z;
  replica_tty : Z;
  master_node : Z;
  replica_node : Z;
  master_open_count : Z;
  replica_open_count : Z;
  master_present : bool;
  p_lock : bool
}.

Definition set_master (node : Z) (p : pty_pair) : pty_pair :=
  Pair (p_id p) (replica_tty p) node (replica_node p) 1 (replica_open_count p) (master_present p) (p_lock p).
Definition set_counts (m r : Z) (p : pty_pair) : pty_pair :=
  Pair (p_id p) (replica_tty p) (master_node p) (replica_node p) m r (master_present p) (p_lock p).
Definition set_present (p : pty_pair) : pty_pair :=
  Pair (p_id p) (replica_tty p) (master_node p) (replica_node p) (master_open_count p) (replica_open_count p) true (p_lock p).
Definition set_p_lock (b : bool) (p : pty_pair) : pty_pair :=
  Pair (p_id p) (replica_tty p) (master_node p) (replica_node p) (master_open_count p) (replica_open_count p) (master_present p) b.

(** The static variables of [tty.c], of [vfs_tty.c] and of [vfs_pty.c]. *)
Record tty_vars : Type := TtyVars { g_tty_instances : list Z; g_current_active_id : Z; g_tty_driver_lock : bool }.
Record tfs_vars : Type := TfsVars {
  g_tty_devices : list Z; g_active_tty_index : Z; g_tty_inode_counter : Z; g_vfs_tty_lock : bool
}.
Record pty_vars : Type := PtyVars {
  g_pts_root_node : Z; g_pty_inode_counter : Z; g_pty_id_counter : Z; g_active_pty_engine : Z; g_vfs_pty_lock : bool
}.

Record console : Type := Console {
  c_vfs : vfs;
  c_devs : gmap Z tdev;
  c_pairs : gmap Z pty_pair;
  c_private : gmap Z Z;
  c_tty : tty_vars;
  c_tfs : tfs_vars;
  c_pty : pty_vars;
  c_kbd : kbd;
  c_vram : list Z
}.

Definition set_c_vfs x c := Console x (c_devs c) (c_pairs c) (c_private c) (c_tty c) (c_tfs c) (c_pty c) (c_kbd c) (c_vram c).
Definition set_c_devs x c := Console (c_vfs c) x (c_pairs c) (c_private c) (c_tty c) (c_tfs c) (c_pty c) (c_kbd c) (c_vram c).
Definition set_c_pairs x c := Console (c_vfs c) (c_devs c) x (c_private c) (c_tty c) (c_tfs c) (c_pty c) (c_kbd c) (c_vram c).
Definition set_c_private x c := Console (c_vfs c) (c_devs c) (c_pairs c) x (c_tty c) (c_tfs c) (c_pty c) (c_kbd c) (c_vram c).
Definition set_c_tty x c := Console (c_vfs c) (c_devs c) (c_pairs c) (c_private c) x (c_tfs c) (c_pty c) (c_kbd c) (c_vram c).
Definition set_c_tfs x c := Console (c_vfs c) (c_devs c) (c_pairs c) (c_private c) (c_tty c) x (c_pty c) (c_kbd c) (c_vram c).
Definition set_c_pty x c := Console (c_vfs c) (c_devs c) (c_pairs c) (c_private c) (c_tty c) (c_tfs c) x (c_kbd c) (c_vram c).
Definition set_c_kbd x c := Console (c_vfs c) (c_devs c) (c_pairs c) (c_private c) (c_tty c) (c_tfs c) (c_pty c) x (c_vram c).
Definition set_c_vram x c := Console (c_vfs c) (c_devs c) (c_pairs c) (c_private c) (c_tty c) (c_tfs c) (c_pty c) (c_kbd c) x.

Definition set_instances (l : list Z) (v : tty_vars) : tty_vars := TtyVars l (g_current_active_id v) (g_tty_driver_lock v).
Definition set_active_id (i : Z) (v : tty_vars) : tty_vars := TtyVars (g_tty_instances v) i (g_tty_driver_lock v).
Definition set_driver_lock (b : bool) (v : tty_vars) : tty_vars := TtyVars (g_tty_instances v) (g_current_active_id v) b.
Definition set_tty_devices (l : list Z) (v : tfs_vars) : tfs_vars := TfsVars l (g_active_tty_index v) (g_tty_inode_counter v) (g_vfs_tty_lock v).
Definition set_active_index (i : Z) (v : tfs_vars) : tfs_vars := TfsVars (g_tty_devices v) i (g_tty_inode_counter v) (g_vfs_tty_lock v).
Definition set_tty_inode (i : Z) (v : tfs_vars) : tfs_vars := TfsVars (g_tty_devices v) (g_active_tty_index v) i (g_vfs_tty_lock v).
Definition set_tfs_lock (b : bool) (v : tfs_vars) : tfs_vars := TfsVars (g_tty_devices v) (g_active_tty_index v) (g_tty_inode_counter v) b.
Definition set_pts_root (p : Z) (v : pty_vars) : pty_vars :=
  PtyVars p (g_pty_inode_counter v) (g_pty_id_counter v) (g_active_pty_engine v) (g_vfs_pty_lock v).
Definition set_pty_inode (i : Z) (v : pty_vars) : pty_vars :=
  PtyVars (g_pts_root_node v) i (g_pty_id_counter v) (g_active_pty_engine v) (g_vfs_pty_lock v).
Definition set_pty_id (i : Z) (v : pty_vars) : pty_vars :=
  PtyVars (g_pts_root_node v) (g_pty_inode_counter v) i (g_active_pty_engine v) (g_vfs_pty_lock v).
Definition set_engine (p : Z) (v : pty_vars) : pty_vars :=
  PtyVars (g_pts_root_node v) (g_pty_inode_counter v) (g_pty_id_counter v) p (g_vfs_pty_lock v).
Definition set_pty_lock (b : bool) (v : pty_vars) : pty_vars :=
  PtyVars (g_pts_root_node v) (g_pty_inode_counter v) (g_pty_id_counter v) (g_active_pty_engine v) b.

(** ** Access *)

(** An operation on the device at an address: on its queues, on its screen. *)
Definition on_dev {A} (p : Z) (m : M tdev A) : M console A := fun c =>
  match c_devs c !! p with
  | None => Stop NullDeref
  | Some d => match m d with Ok (a, d') => Ok (a, set_c_devs (<[p := d']> (c_devs c)) c) | Stop e => Stop e end
  end.
Definition on_queues {A} (p : Z) (m : M tty_device A) : M console A := on_dev p (zoom td_q (fun q d => TDev q (td_scr d)) m).
Definition on_screen_of {A} (p : Z) (m : M screen A) : M console A := on_dev p (zoom td_scr (fun s d => TDev (td_q d) s) m).

Definition in_vfs {A} (m : M vfs A) : M console A := zoom c_vfs set_c_vfs m.
Definition pair_at (p : Z) : M console pty_pair := c <-- kget ;; kopt NullDeref (c_pairs c !! p).
Definition put_pair (p : Z) (x : pty_pair) : M console unit := kmodify (fun c => set_c_pairs (<[p := x]> (c_pairs c)) c).
Definition on_pair (p : Z) (f : pty_pair -> pty_pair) : M console unit := x <-- pair_at p ;; put_pair p (f x).

(** [node->private_data] of a device node; null until it is set. *)
Definition private_data (node : Z) : M console Z := c <-- kget ;; kret (from_option id 0 (c_private c !! node)).
Definition set_private_data (node x : Z) : M console unit := kmodify (fun c => set_c_private (<[node := x]> (c_private c)) c).

Definition on_tty (f : tty_vars -> tty_vars) : M console unit := kmodify (fun c => set_c_tty (f (c_tty c)) c).
Definition on_tfs (f : tfs_vars -> tfs_vars) : M console unit := kmodify (fun c => set_c_tfs (f (c_tfs c)) c).
Definition on_pty (f : pty_vars -> pty_vars) : M console unit := kmodify (fun c => set_c_pty (f (c_pty c)) c).

Definition lock_driver : M console unit := c <-- kget ;; if g_tty_driver_lock (c_tty c) then kstop Deadlock else on_tty (set_driver_lock true).
Definition unlock_driver : M console unit := on_tty (set_driver_lock false).
Definition lock_tfs : M console unit := c <-- kget ;; if g_vfs_tty_lock (c_tfs c) then kstop Deadlock else on_tfs (set_tfs_lock true).
Definition unlock_tfs : M console unit := on_tfs (set_tfs_lock false).
Definition lock_pty : M console unit := c <-- kget ;; if g_vfs_pty_lock (c_pty c) then kstop Deadlock else on_pty (set_pty_lock true).
Definition unlock_pty : M console unit := on_pty (set_pty_lock false).
Definition lock_user : M tty_device unit := t <-- kget ;; if user_lock t then kstop Deadlock else kput (set_user_lock true t).
Definition unlock_user : M tty_device unit := kmodify (set_user_lock false).

(** ** The table of terminals *)

Definition tty_init : M console unit :=
  on_tty (set_driver_lock false) ;;;
  lock_driver ;;;
  on_tty (set_instances (replicate (Z.to_nat MAX_TTY_DRV_DEVICES) 0)) ;;;
  on_tty (set_active_id 0) ;;;
  unlock_driver.

Definition tty_register_driver_instance (id tty : Z) : M console unit :=
  if (MAX_TTY_DRV_DEVICES <=? id) || (tty =? 0) then kret tt else
  lock_driver ;;;
  c <-- kget ;;
  l <-- upd (g_tty_instances (c_tty c)) id tty ;;
  on_tty (set_instances l) ;;;
  on_queues tty (kmodify clear_queues) ;;;
  unlock_driver.

Definition tty_set_active_id (id : Z) : M console unit :=
  if MAX_TTY_DRV_DEVICES <=? id then kret tt else
  lock_driver ;;; on_tty (set_active_id id) ;;; unlock_driver.

Definition tty_get_current : M console Z :=
  lock_driver ;;;
  c <-- kget ;;
  let id := g_current_active_id (c_tty c) in
  tty <-- (if id <? MAX_TTY_DRV_DEVICES then rd (g_tty_instances (c_tty c)) id else kret 0) ;;
  unlock_driver ;;;
  kret tty.

(** ** The terminal nodes *)

Definition tfs_tty_open (node : Z) : M console Z :=
  if node =? 0 then kret (-1) else
  lock_tfs ;;;
  n <-- in_vfs (Ramfs.node node) ;;
  x <-- private_data node ;;
  if (n_flags n =? VFS_CHAR_DEV) && (x =? 0) then
    tty <-- tty_get_current ;; set_private_data node tty ;;; kret 0
  else unlock_tfs ;;; kret 0.
Definition tfs_tty_close (node : Z) : M console Z := kret 0.

(** [None]: the caller sleeps on the queue.  The bytes are those put in the
    caller's buffer; [buffer]: is it there? *)
Definition tfs_tty_read (node size : Z) (buffer : bool) : M console (option (Z * list Z)) :=
  if (node =? 0) || negb buffer || (size =? 0) then kret (Some (-1, [])) else
  tty <-- private_data node ;;
  if tty =? 0 then kret (Some (-1, [])) else
  r <-- on_queues tty (tty_read_from_in_queue size) ;;
  kret ((fun bs => (zlen bs, bs)) <$> r).

Definition tfs_tty_write (node : Z) (buffer : option (list Z)) : M console Z :=
  match buffer with
  | None => kret (-1)
  | Some bs =>
      if (node =? 0) || (u32 (zlen bs) =? 0) then kret (-1) else
      tty <-- private_data node ;;
      if tty =? 0 then kret (-1) else on_queues tty (tty_write_to_out_queue bs)
  end.

(** The two requests; the answer of the second: width, height, pixels per line,
    bits per pixel.  [None]: the wait of the first. *)
Inductive tty_request : Type :=
| VideoWrite (user : option tty_user)
| VideoInfo (there : bool)
| OtherRequest.

Definition tfs_tty_ioctl (node : Z) (r : tty_request) : M console (option (Z * list Z)) :=
  if node =? 0 then kret (Some (-1, [])) else
  tty <-- private_data node ;;
  if tty =? 0 then kret (Some (-1, [])) else
  match r with
  | VideoWrite None => kret (Some (0, []))
  | VideoWrite (Some user) => n <-- on_screen_of tty (tty_video_write user) ;; kret ((fun n => (s32 n, [])) <$> n)
  | VideoInfo false => kret (Some (-1, []))
  | VideoInfo true =>
      s <-- on_screen_of tty kget ;; kret (Some (0, [s_width s; s_height s; pixels_per_scanLine s; bpp s]))
  | OtherRequest => kret (Some (-1, []))
  end.

Section nodes.
Context (g : graphics) (video_memory : Z -> option (list Z)).

Definition no_screen : screen := Screen None 0 0 0 0 0 0 0 0 0 0 0 false.

(** [kmalloc] of a cleared device in canonical mode with echo. *)
Definition alloc_tty : M console Z :=
  tty <-- in_vfs fs_kmalloc ;;
  if tty =? 0 then kret 0 else
  kmodify (fun c => set_c_devs (<[tty := TDev new_tty no_screen]> (c_devs c)) c) ;;;
  kret tty.
Definition kfree_tty (tty : Z) : M console unit :=
  kmodify (fun c => set_c_devs (delete tty (c_devs c)) c) ;;; in_vfs fs_kfree.

(** The node becomes a device. *)
Definition make_device (inode : Z) (ops : fs_ops) (n : vfs_node) : vfs_node :=
  VNode (n_name n) VFS_CHAR_DEV (n_size n) inode (n_parent_inode n) (n_permissions n) (n_block_size n) ops (n_fs n) PNull (n_ptr_mount n).

Definition tty_vfs_setup_nodestruct (node : Z) : M console Z :=
  if node =? 0 then kret (-1) else
  tty <-- alloc_tty ;;
  if tty =? 0 then kret (-1) else
  c <-- kget ;;
  tty_register_driver_instance (u32 (g_tty_inode_counter (c_tfs c) - 1000)) tty ;;;
  lock_tfs ;;;
  n <-- in_vfs (Ramfs.node node) ;;
  (match n_data n with PNull => kret tt | _ => in_vfs fs_kfree end) ;;;
  c <-- kget ;;
  let inode := g_tty_inode_counter (c_tfs c) in
  on_tfs (set_tty_inode (u32 (inode + 1))) ;;;
  in_vfs (on_node node (make_device inode TTY_OPS)) ;;;
  set_private_data node tty ;;;
  unlock_tfs ;;;
  kret 0.

Definition tty_name (i : Z) : list Z := [116; 116; 121; 48 + i].

(** One terminal of the loop of [tty_vfs_init]. *)
Definition tty_vfs_add (dev_node i : Z) : M console unit :=
  _ <-- in_vfs (ramfs_create dev_node (tty_name i) 438) ;;
  target_node <-- in_vfs (ramfs_finddir dev_node (tty_name i)) ;;
  if target_node =? 0 then kret tt else
  _ <-- tty_vfs_setup_nodestruct target_node ;;
  tty <-- private_data target_node ;;
  (if tty =? 0 then kret tt
   else on_screen_of tty (kput (tty_init_video_context g video_memory (if i <? 2 then 3 else 1)))) ;;;
  lock_tfs ;;;
  c <-- kget ;;
  l <-- upd (g_tty_devices (c_tfs c)) i target_node ;;
  on_tfs (set_tty_devices l) ;;;
  unlock_tfs.

(** The tests of the directory's operations are for a node of the RAM file
    system, which has them. *)
Definition tty_vfs_init (dev_node : Z) : M console unit :=
  if dev_node =? 0 then kret tt else
  on_tfs (set_tfs_lock false) ;;;
  for_ (Z.to_nat MAX_TTY_DRV_DEVICES) 0 (tty_vfs_add dev_node) ;;;
  on_tfs (set_active_index 0).
End nodes.

Definition tty_vfs_get_node_by_name (name : list Z) : M console Z :=
  lock_tfs ;;;
  c <-- kget ;;
  r <-- loop (Z.to_nat MAX_TTY_DRV_DEVICES) 0 (fun i _ =>
    node <-- rd (g_tty_devices (c_tfs c)) i ;;
    if node =? 0 then kret (inl tt) else
    n <-- in_vfs (Ramfs.node node) ;;
    if bool_decide (n_name n = name) then unlock_tfs ;;; kret (inr node) else kret (inl tt)) tt ;;
  match r with
  | inr node => kret node
  | inl _ => unlock_tfs ;;; kret 0
  end.

Definition tty_vfs_get_node_by_index (index : Z) : M console Z :=
  if (index <? 0) || (MAX_TTY_DRV_DEVICES <=? index) then kret 0 else
  lock_tfs ;;;
  c <-- kget ;;
  node <-- rd (g_tty_devices (c_tfs c)) index ;;
  unlock_tfs ;;;
  kret node.

Definition tty_vfs_get_active_node : M console Z :=
  lock_tfs ;;;
  c <-- kget ;;
  let active_idx := g_active_tty_index (c_tfs c) in
  node <-- (if active_idx <? MAX_TTY_DRV_DEVICES then rd (g_tty_devices (c_tfs c)) active_idx else kret 0) ;;
  unlock_tfs ;;;
  kret node.

Definition tty_vfs_set_active_index (index : Z) : M console unit :=
  if MAX_TTY_DRV_DEVICES <=? index then kret tt else
  lock_tfs ;;; on_tfs (set_active_index index) ;;; unlock_tfs.

(** ** Pseudo-terminals *)

(** The device with the focus of the keyboard comes with its [user_lock] held. *)
Definition pty_vfs_get_active_engine : M console Z :=
  lock_pty ;;;
  c <-- kget ;;
  let active := g_active_pty_engine (c_pty c) in
  (if active =? 0 then kret tt else on_queues active lock_user) ;;;
  unlock_pty ;;;
  kret active.
Definition pty_vfs_get_active_engine_close (tty : Z) : M console unit :=
  if tty =? 0 then kret tt else
  lock_pty ;;; on_queues tty unlock_user ;;; unlock_pty.
Definition pty_vfs_set_active_engine (pty : Z) : M console unit :=
  lock_pty ;;; on_pty (set_engine pty) ;;; unlock_pty.

(** [ksprintf(replica_name, "%d", id)] in 16 bytes. *)
Definition replica_name {S} (id : Z) : M S (list Z) :=
  match ksprintf [37; 100] (Out (replicate 16 0) 0 [VArg id None]) with
  | Ok (n, o) => kret (take (Z.to_nat n) (o_buf o))
  | Stop e => kstop e
  end.

Definition kfree_pair (p : Z) : M console unit :=
  kmodify (fun c => set_c_pairs (delete p (c_pairs c)) c) ;;; in_vfs fs_kfree.

(** The number of the pair is an [int] read from an unsigned counter. *)
Definition vfs_pty_allocate_internal : M console Z :=
  c <-- kget ;;
  let root := g_pts_root_node (c_pty c) in
  if root =? 0 then kret 0 else
  pair <-- in_vfs fs_kmalloc ;;
  if pair =? 0 then kret 0 else
  put_pair pair (Pair 0 0 0 0 0 0 false false) ;;;
  tty <-- alloc_tty ;;
  if tty =? 0 then kfree_pair pair ;;; kret 0 else
  lock_pty ;;;
  c <-- kget ;;
  let id := s32 (g_pty_id_counter (c_pty c)) in
  on_pty (set_pty_id (u32 (g_pty_id_counter (c_pty c) + 1))) ;;;
  unlock_pty ;;;
  put_pair pair (Pair id tty 0 0 0 0 false false) ;;;
  name <-- replica_name id ;;
  _ <-- in_vfs (ramfs_create root name 400) ;;
  r_node <-- in_vfs (ramfs_finddir root name) ;;
  if r_node =? 0 then kfree_tty tty ;;; kfree_pair pair ;;; kret 0 else
  lock_pty ;;;
  c <-- kget ;;
  let inode := g_pty_inode_counter (c_pty c) in
  on_pty (set_pty_inode (u32 (inode + 1))) ;;;
  in_vfs (on_node r_node (make_device inode PTS_OPS)) ;;;
  set_private_data r_node pair ;;;
  put_pair pair (Pair id tty 0 r_node 0 0 false false) ;;;
  unlock_pty ;;;
  kret pair.

Definition tfs_ptmx_open (node : Z) : M console Z :=
  if node =? 0 then kret (-1) else
  pair <-- vfs_pty_allocate_internal ;;
  if pair =? 0 then kret (-1) else
  lock_pty ;;;
  set_private_data node pair ;;;
  on_pair pair (set_master node) ;;;
  unlock_pty ;;;
  kret 0.

Definition tfs_pty_replica_open (node : Z) : M console Z :=
  if node =? 0 then kret (-1) else
  pair <-- private_data node ;;
  if pair =? 0 then kret (-1) else
  lock_pty ;;;
  on_pair pair (fun p => set_counts (master_open_count p) (replica_open_count p + 1) p) ;;;
  unlock_pty ;;;
  kret 0.

(** The end of a session: the node is unlinked, then the pair is freed. *)
Definition pty_destroy (node pair : Z) : M console unit :=
  p <-- pair_at pair ;;
  lock_pty ;;;
  c <-- kget ;;
  let root := g_pts_root_node (c_pty c) in
  (if root =? 0 then kret tt else
   name <-- replica_name (p_id p) ;; _ <-- in_vfs (ramfs_unlink root name) ;; kret tt) ;;;
  c <-- kget ;;
  (if g_active_pty_engine (c_pty c) =? replica_tty p then on_pty (set_engine 0) else kret tt) ;;;
  unlock_pty ;;;
  (if replica_tty p =? 0 then kret tt else kfree_tty (replica_tty p)) ;;;
  kfree_pair pair ;;;
  set_private_data node 0.

Definition tfs_pty_close (node : Z) : M console Z :=
  if node =? 0 then kret (-1) else
  pair <-- private_data node ;;
  if pair =? 0 then kret (-1) else
  p <-- pair_at pair ;;
  if p_lock p then kstop Deadlock else
  on_pair pair (set_p_lock true) ;;;
  pty_ativa <-- pty_vfs_get_active_engine ;;
  (if pty_ativa =? replica_tty p then pty_vfs_set_active_engine 0 else kret tt) ;;;
  pty_vfs_get_active_engine_close pty_ativa ;;;
  n <-- in_vfs (Ramfs.node node) ;;
  (if decide (n_ops n = PTMX_OPS) then on_pair pair (fun p => set_counts (master_open_count p - 1) (replica_open_count p) p)
   else if decide (n_ops n = PTS_OPS) then on_pair pair (fun p => set_counts (master_open_count p) (replica_open_count p - 1) p)
   else kret tt) ;;;
  p <-- pair_at pair ;;
  let destrutivel := (master_open_count p <=? 0) && (replica_open_count p <=? 0) in
  on_pair pair (set_p_lock false) ;;;
  (if destrutivel then pty_destroy node pair else kret tt) ;;;
  kret 0.

(** The pair of a node, and its device: [None] for [return -1]. *)
Definition pty_device (node : Z) : M console (option pty_pair) :=
  pair <-- private_data node ;;
  if pair =? 0 then kret None else
  p <-- pair_at pair ;;
  kret (if replica_tty p =? 0 then None else Some p).

Definition tfs_pty_master_read (node size : Z) (buffer : bool) : M console (option (Z * list Z)) :=
  if (node =? 0) || negb buffer || (size =? 0) then kret (Some (0, [])) else
  p <-- pty_device node ;;
  match p with
  | None => kret (Some (-1, []))
  | Some p => r <-- on_queues (replica_tty p) (tty_read_from_out_queue size) ;; kret ((fun bs => (zlen bs, bs)) <$> r)
  end.

Definition tfs_pty_master_write (node : Z) (buffer : option (list Z)) : M console Z :=
  match buffer with
  | None => kret 0
  | Some bs =>
      if (node =? 0) || (u32 (zlen bs) =? 0) then kret 0 else
      p <-- pty_device node ;;
      match p with
      | None => kret (-1)
      | Some p => on_queues (replica_tty p) (tty_write_to_in_queue bs)
      end
  end.

Definition tfs_pty_replica_read (node size : Z) (buffer : bool) : M console (option (Z * list Z)) :=
  if (node =? 0) || negb buffer || (size =? 0) then kret (Some (0, [])) else
  p <-- pty_device node ;;
  match p with
  | None => kret (Some (-1, []))
  | Some p => r <-- on_queues (replica_tty p) (tty_read_from_in_queue size) ;; kret ((fun bs => (zlen bs, bs)) <$> r)
  end.

(** [tty0->private_data], when it is there. *)
Definition tty0_device : M console Z :=
  tty0_node <-- tty_vfs_get_node_by_name (tty_name 0) ;;
  if tty0_node =? 0 then kret 0 else private_data tty0_node.

(** What a program prints goes to the master when there is one, and to the
    screen of the first terminal when the pair has the focus. *)
Definition tfs_pty_replica_write (node : Z) (buffer : option (list Z)) : M console Z :=
  match buffer with
  | None => kret 0
  | Some bs =>
      let size := u32 (zlen bs) in
      if (node =? 0) || (size =? 0) then kret 0 else
      p <-- pty_device node ;;
      match p with
      | None => kret (-1)
      | Some p =>
          bytes_escritos <-- (if master_present p then on_queues (replica_tty p) (tty_write_to_out_queue bs) else kret (s32 size)) ;;
          tty_tmp <-- pty_vfs_get_active_engine ;;
          (if tty_tmp =? replica_tty p then
             tty0 <-- tty0_device ;;
             if tty0 =? 0 then kret tt else
             on_screen_of tty0 (putc_all tty_putc_backbuffer_X (take (Z.to_nat bytes_escritos) bs) ;;; kmodify (set_refresh true))
           else kret tt) ;;;
          pty_vfs_get_active_engine_close tty_tmp ;;;
          kret bytes_escritos
      end
  end.

(** The number goes to the caller; asking for it makes the master present. *)
Definition tfs_ptmx_ioctl (node cmd : Z) (arg : bool) : M console (Z * option Z) :=
  if node =? 0 then kret (-1, None) else
  pair <-- private_data node ;;
  if pair =? 0 then kret (-1, None) else
  p <-- pair_at pair ;;
  if cmd =? TIOCGPTN then
    if negb arg then kret (-1, None) else
    on_pair pair set_present ;;; kret (0, Some (p_id p))
  else kret (-1, None).

(** Until the first [open] the factory node keeps the block of an empty file,
    which no operation reads: each has an [open] before it. *)
Definition pty_vfs_init (dev_node : Z) : M console unit :=
  on_pty (set_engine 0) ;;;
  if dev_node =? 0 then kret tt else
  on_pty (set_pty_lock false) ;;;
  _ <-- in_vfs (ramfs_mkdir dev_node [112; 116; 115] 493) ;;
  root <-- in_vfs (ramfs_finddir dev_node [112; 116; 115]) ;;
  on_pty (set_pts_root root) ;;;
  if root =? 0 then kret tt else
  _ <-- in_vfs (ramfs_create dev_node [112; 116; 109; 120] 438) ;;
  ptmx_node <-- in_vfs (ramfs_finddir dev_node [112; 116; 109; 120]) ;;
  if ptmx_node =? 0 then kret tt else
  lock_pty ;;;
  in_vfs (on_node ptmx_node (fun n =>
    VNode (n_name n) VFS_CHAR_DEV (n_size n) 1999 (n_parent_inode n) (n_permissions n) (n_block_size n) PTMX_OPS (n_fs n) (n_data n) (n_ptr_mount n))) ;;;
  unlock_pty.

(** [sys_active_tty] of [syscall.c], for the node behind descriptor 0. *)
Definition sys_active_tty (node : Z) : M console Z :=
  n <-- in_vfs (Ramfs.node node) ;;
  pair <-- private_data node ;;
  if pair =? 0 then kret (-1) else
  p <-- pair_at pair ;;
  if replica_tty p =? 0 then kret (-1) else
  pty_vfs_set_active_engine (replica_tty p) ;;; kret 0.

(** ** The threads *)

(** [while (tty_pop_output(tty, &c)) tty_putc_backbuffer(tty, c)]: was there a
    character? *)
Fixpoint drain (fuel : nat) (tty : Z) (any : bool) : M console bool :=
  match fuel with
  | O => kstop NoFuel
  | S fuel' =>
      r <-- on_queues tty tty_pop_output ;;
      match r with
      | None => kret any
      | Some c => on_screen_of tty (tty_putc_backbuffer c) ;;; drain fuel' tty true
      end
  end.
Definition drain_output (tty : Z) : M console bool := drain (Z.to_nat TTY_BUF_SIZE) tty false.

(** What [tty_keyboard_bridge_thread] does with an event. *)
Definition bridge_char (c : Z) : M console unit :=
  tty_focado <-- tty_get_current ;;
  if tty_focado =? 0 then kret tt else
  pty_ativa <-- pty_vfs_get_active_engine ;;
  if negb (pty_ativa =? 0) then
    _ <-- on_queues pty_ativa (tty_write_to_in_queue [c]) ;;
    t <-- on_queues pty_ativa kget ;;
    (if flag t TTY_ECHO then
       tty0 <-- tty0_device ;;
       if tty0 =? 0 then kret tt else
       _ <-- on_queues tty0 (tty_write_to_in_queue [c]) ;;
       _ <-- drain_output tty0 ;;
       kret tt
     else kret tt) ;;;
    pty_vfs_get_active_engine_close pty_ativa
  else
    _ <-- on_queues tty_focado (tty_write_to_in_queue [c]) ;;
    _ <-- drain_output tty_focado ;;
    kret tt.

Definition bridge_action (a : key_action) : M console unit :=
  match a with
  | KNone => kret tt
  | KSwitch target_tty_id => tty_vfs_set_active_index target_tty_id ;;; tty_set_active_id target_tty_id
  | KChar c => bridge_char c
  end.

(** One byte of the keyboard, and the turn of the bridge it wakes. *)
Definition bridge_byte (byte : Z) : M console unit := a <-- zoom c_kbd set_c_kbd (key_byte byte) ;; bridge_action a.
Fixpoint bridge_bytes (l : list Z) : M console unit :=
  match l with [] => kret tt | b :: l' => bridge_byte b ;;; bridge_bytes l' end.

(** One turn of [tty_emulator_thread]; [last_active_node] is its variable.  The
    result: its new value, and whether there were characters (the thread yields
    when there were none). *)
Definition emulator_consume (i : Z) (teve_dados : bool) : M console (bool + unit) :=
  node <-- tty_vfs_get_node_by_index i ;;
  tty <-- (if node =? 0 then kret 0 else private_data node) ;;
  if tty =? 0 then kret (inl teve_dados) else
  any <-- drain_output tty ;;
  kret (inl (teve_dados || any)).

(** [frame_buffer_base] is not null. *)
Definition flush_screen (tty : Z) : M console unit :=
  s <-- on_screen_of tty kget ;; zoom c_vram set_c_vram (tty_flush_to_screen s).

Definition emulator_refresh (last_active_node : Z) : M console Z :=
  node <-- tty_vfs_get_active_node ;;
  active_node <-- (if node =? 0 then tty_vfs_get_node_by_index 0 else kret node) ;;
  active_tty <-- (if active_node =? 0 then kret 0 else private_data active_node) ;;
  if active_tty =? 0 then kret last_active_node else
  s <-- on_screen_of active_tty kget ;;
  on_screen_of active_tty (kmodify (set_refresh false)) ;;;
  if refresh_needed s || negb (active_node =? last_active_node) then flush_screen active_tty ;;; kret active_node
  else kret last_active_node.

Definition emulator_turn (last_active_node : Z) : M console (Z * bool) :=
  r <-- loop (Z.to_nat MAX_TTY_DRV_DEVICES) 0 emulator_consume false ;;
  last <-- emulator_refresh last_active_node ;;
  kret (last, match r with inl teve_dados => teve_dados | inr _ => false end).
