(* ===== verification/ConsoleThms.v ===== *)
(** * The console as a whole

    The terminals of the table as a list of views: what the queues hold and the
    text on the screen.  The turn of the emulator, a keystroke, a line from the
    keyboard to a program and the two directions of a pseudo-terminal are stated
    on the views. *)

From Stdlib Require Import ZArith Lia.
From stdpp Require Import base tactics list gmap.
From S2P Require Import Prelude Bytes Ramfs Tty TtyThms Font Screen ScreenThms ScreenCheck Kbd Console.

(** ** Access *)

Definition set_dev (p : Z) (d : tdev) (c : console) : console := set_c_devs (<[p := d]> (c_devs c)) c.

Lemma set_dev_twice p d d' c : set_dev p d' (set_dev p d c) = set_dev p d' c.
Proof. unfold set_dev. cbn. by rewrite insert_insert_eq. Qed.
Lemma set_dev_lookup p d c : c_devs (set_dev p d c) !! p = Some d.
Proof. cbn. apply lookup_insert_eq. Qed.

Lemma wp_on_dev {A} p (m : M tdev A) (Q : A -> console -> Prop) c d : c_devs c !! p = Some d ->
  wp m (fun a d' => Q a (set_dev p d' c)) d -> wp (on_dev p m) Q c.
Proof. unfold on_dev, wp. intros ->. by destruct (m d) as [[a d']|]. Qed.
Lemma wp_on_queues {A} p (m : M tty_device A) (Q : A -> console -> Prop) c d : c_devs c !! p = Some d ->
  wp m (fun a q => Q a (set_dev p (TDev q (td_scr d)) c)) (td_q d) -> wp (on_queues p m) Q c.
Proof. intros Hd H. unfold on_queues. apply (wp_on_dev _ _ _ _ _ Hd). by apply wp_zoom. Qed.
Lemma wp_on_screen {A} p (m : M screen A) (Q : A -> console -> Prop) c d : c_devs c !! p = Some d ->
  wp m (fun a s => Q a (set_dev p (TDev (td_q d) s) c)) (td_scr d) -> wp (on_screen_of p m) Q c.
Proof. intros Hd H. unfold on_screen_of. apply (wp_on_dev _ _ _ _ _ Hd). by apply wp_zoom. Qed.

(** ** What a character changes on the screen *)

(** The parts of a screen that a flush reads. *)
Definition same_picture (s s' : screen) : Prop :=
  video_buffer s' = video_buffer s /\ scroll_y_offset s' = scroll_y_offset s /\ s_height s' = s_height s /\
  total_pages s' = total_pages s /\ pixels_per_scanLine s' = pixels_per_scanLine s.

Lemma same_picture_refl s : same_picture s s.
Proof. done. Qed.
Lemma same_picture_trans s1 s2 s3 : same_picture s1 s2 -> same_picture s2 s3 -> same_picture s1 s3.
Proof. unfold same_picture. intuition congruence. Qed.
Lemma on_display_same s s' v : same_picture s s' -> on_display s v -> on_display s' v.
Proof. unfold on_display, pixel, virtual_height. intros (-> & -> & -> & -> & ->). done. Qed.

(** Either the screen is marked for a refresh or its picture is the old one. *)
Definition signalled (s s' : screen) : Prop := refresh_needed s' = true \/ refresh_needed s' = refresh_needed s /\ same_picture s s'.

Lemma signalled_trans s1 s2 s3 : signalled s1 s2 -> signalled s2 s3 -> signalled s1 s3.
Proof.
  intros H1 [H|[E H]]; [by left|]. destruct H1 as [H1|[E1 H1]]; [left; congruence|]. right. split; [congruence|]. by eapply same_picture_trans.
Qed.

Lemma bind_ok {S A B} (m : M S A) (k : A -> M S B) s b s2 : kbind m k s = Ok (b, s2) -> exists a s1, m s = Ok (a, s1) /\ k a s1 = Ok (b, s2).
Proof. unfold kbind. destruct (m s) as [[a s1]|]; [|done]. eauto. Qed.

Lemma clear_signalled s s' : tty_clear_buffer s = Ok (tt, s') -> signalled s s'.
Proof.
  unfold tty_clear_buffer. intros H. apply bind_ok in H as (s0 & s1 & E & H). injection E as <- <-.
  destruct (video_buffer s); [|injection H as <-; right; done]. apply bind_ok in H as ([] & s1 & _ & H). injection H as <-. by left.
Qed.

Lemma advance_signalled c s s' : putc_advance c s = Ok (None, s') -> signalled s s'.
Proof.
  unfold putc_advance. intros E. repeat case_match; try (apply bind_ok in E as ([] & s1 & E1 & E)); try done; injection E as <-.
  - injection E1 as <-. by right.
  - by right.
Qed.

Lemma putc_signalled c s s' : tty_putc_backbuffer c s = Ok (tt, s') -> signalled s s'.
Proof.
  unfold tty_putc_backbuffer. intros H. apply bind_ok in H as (done & s1 & Hb & H). destruct done; injection H as <-; [by left|].
  unfold putc_body in Hb. apply bind_ok in Hb as (s0 & s2 & E & Hb). injection E as <- <-. apply bind_ok in Hb as ([] & s2 & Hc & Hb).
  apply bind_ok in Hb as (r & s3 & Ha & Hb). destruct r as [nl|].
  - apply bind_ok in Hb as (nl' & s4 & _ & Hb). apply bind_ok in Hb as ([] & s5 & _ & Hb). by apply bind_ok in Hb as ([] & s6 & _ & Hb).
  - injection Hb as <-. eapply signalled_trans; [|by eapply advance_signalled]. case_match; [by apply clear_signalled|]. injection Hc as <-. by right.
Qed.

(** No operation changes the size of the screen. *)
Definition same_size (s s' : screen) : Prop := s_height s' = s_height s /\ pixels_per_scanLine s' = pixels_per_scanLine s.
Definition keeps_size {A} (m : M screen A) : Prop := forall s a s', m s = Ok (a, s') -> same_size s s'.

Lemma keeps_ret {A} (a : A) : keeps_size (kret a).
Proof. intros s a' s' [= _ <-]. done. Qed.
Lemma keeps_stop {A} e : keeps_size (@kstop screen A e).
Proof. intros s a' s' [=]. Qed.
Lemma keeps_get : keeps_size kget.
Proof. intros s a' s' [= _ <-]. done. Qed.
Lemma keeps_modify f : (forall s, same_size s (f s)) -> keeps_size (kmodify f).
Proof. intros Hf s a' s' [= _ <-]. apply Hf. Qed.
Lemma keeps_bind {A B} (m : M screen A) (k : A -> M screen B) : keeps_size m -> (forall a, keeps_size (k a)) -> keeps_size (kbind m k).
Proof.
  intros Hm Hk s b s' H. apply bind_ok in H as (a & s1 & H1 & H2). destruct (Hm _ _ _ H1), (Hk _ _ _ _ H2). split; congruence.
Qed.
Lemma keeps_change {A} (k : screen -> M screen A) : (forall s a s', k s s = Ok (a, s') -> same_size s s') -> keeps_size (s <-- kget ;; k s).
Proof. intros Hk s a s' H. by apply (Hk s a s'). Qed.
Lemma keeps_for n : forall i body, (forall j, keeps_size (body j)) -> keeps_size (for_ n i body).
Proof. induction n as [|n IH]; intros i body Hb; [apply keeps_ret|]. apply keeps_bind; [done|]. intros _. by apply IH. Qed.
Lemma keeps_rd {A} (l : list A) i : keeps_size (rd l i).
Proof. unfold rd. case_match; [apply keeps_stop|]. unfold kopt. case_match; [apply keeps_ret|apply keeps_stop]. Qed.


Ltac keeps := repeat match goal with
  | |- keeps_size (kret _) => apply keeps_ret
  | |- keeps_size (kstop _) => apply keeps_stop
  | |- keeps_size kget => apply keeps_get
  | |- keeps_size (rd _ _) => apply keeps_rd
  | |- keeps_size (kmodify _) => apply keeps_modify; done
  | |- keeps_size (for_ _ _ _) => apply keeps_for; intros ?
  | |- keeps_size (kbind _ _) => apply keeps_bind; [|intros ?]
  | |- keeps_size (match _ with _ => _ end) => case_match
  | |- keeps_size (let _ := _ in _) => cbv zeta
  end.

Lemma keeps_pixel_store i color : keeps_size (pixel_store i color).
Proof.
  intros s a s' H. unfold pixel_store in H. apply bind_ok in H as (s0 & s1 & E & H). injection E as <- <-.
  unfold kopt in H. destruct (video_buffer s); [|done]. apply bind_ok in H as (b & s1 & E & H). injection E as <- <-.
  unfold upd in H. case_match; [done|]. by injection H as _ <-.
Qed.
Lemma keeps_fill i n color : keeps_size (fill_pixels i n color).
Proof.
  intros s a s' H. unfold fill_pixels in H. apply bind_ok in H as (s0 & s1 & E & H). injection E as <- <-.
  destruct (video_buffer s); [|case_match; [by injection H as _ <-|done]]. apply bind_ok in H as (b & s1 & E & H).
  unfold bytes_in, kret, kstop in E. case_match; [|done]. injection E as _ <-. injection H as _ <-. done.
Qed.
Lemma keeps_clear_line y : keeps_size (tty_clear_line y).
Proof. unfold tty_clear_line. keeps. apply keeps_fill. Qed.
Lemma keeps_clear_buffer : keeps_size tty_clear_buffer.
Proof. unfold tty_clear_buffer. keeps. apply keeps_fill. Qed.
Lemma keeps_draw c : keeps_size (draw_glyph c).
Proof. unfold draw_glyph, put_pixel_to_buffer. keeps. all: apply keeps_pixel_store. Qed.
Lemma keeps_scroll : keeps_size putc_scroll.
Proof. apply keeps_change. intros s a s' H. repeat case_match; by injection H as _ <-. Qed.
Lemma keeps_putc_body c : keeps_size (putc_body c).
Proof.
  unfold putc_body, putc_advance, putc_wrap, putc_clear, line_feed. keeps.
  all: auto using keeps_clear_buffer, keeps_clear_line, keeps_draw, keeps_scroll.
Qed.
Lemma keeps_putc c : keeps_size (tty_putc_backbuffer c).
Proof. unfold tty_putc_backbuffer. keeps. apply keeps_putc_body. Qed.
Lemma keeps_putc_X c : keeps_size (tty_putc_backbuffer_X c).
Proof. unfold tty_putc_backbuffer_X. keeps. apply keeps_putc_body. Qed.

Lemma wp_ok {S A} (m : M S A) (Q : A -> S -> Prop) s : wp m Q s -> exists a s', m s = Ok (a, s') /\ Q a s'.
Proof. unfold wp. destruct (m s) as [[a s']|]; [|done]. eauto. Qed.
Lemma wp_of_ok {S A} (m : M S A) (Q : A -> S -> Prop) s a s' : m s = Ok (a, s') -> Q a s' -> wp m Q s.
Proof. unfold wp. by intros ->. Qed.

(** ** The views *)

(** A terminal: its node and device, the size of its grid of characters, what
    its queues hold and the text on its screen. *)
Record view : Type := View {
  v_node : Z;
  v_tty : Z;
  v_rows : Z;
  v_cols : Z;
  v_in : list Z;
  v_out : list Z;
  v_text : text
}.

Definition set_view (qi qo : list Z) (t : text) (v : view) : view := View (v_node v) (v_tty v) (v_rows v) (v_cols v) qi qo t.

(** The text after more characters. *)
Definition written_text (v : view) (l : list Z) : text := foldl (spec_putc (v_rows v) (v_cols v)) (v_text v) l.

(** What the device of a terminal is. *)
Record dev_is (v : view) (d : tdev) : Prop := {
  di_queues : cooked_tty (td_q d) (v_in v, v_out v);
  di_screen : displays (v_rows v) (v_cols v) (td_scr d) (v_text v);
  di_out : Forall (Z.le 0) (v_out v)
}.

Record term_is (c : console) (i : nat) (v : view) : Prop := {
  ti_node : v_node v <> 0;
  ti_name : exists n, f_nodes (c_vfs c) !! v_node v = Some n /\ n_name n = tty_name (Z.of_nat i);
  ti_tty : v_tty v <> 0;
  ti_private : c_private c !! v_node v = Some (v_tty v);
  ti_dev : exists d, c_devs c !! v_tty v = Some d /\ dev_is v d
}.

(** The console between operations: the locks are free, the two ideas of the
    active terminal are the same, and the terminals are as their views. *)
Record console_ok (c : console) (V : list view) : Prop := {
  co_len : zlen V = MAX_TTY_DRV_DEVICES;
  co_nodes : g_tty_devices (c_tfs c) = v_node <$> V;
  co_instances : g_tty_instances (c_tty c) = v_tty <$> V;
  co_distinct : NoDup (v_tty <$> V);
  co_terms : forall i v, V !! i = Some v -> term_is c i v;
  co_active : g_active_tty_index (c_tfs c) = g_current_active_id (c_tty c) /\ 0 <= g_current_active_id (c_tty c) < MAX_TTY_DRV_DEVICES;
  co_locks : g_tty_driver_lock (c_tty c) = false /\ g_vfs_tty_lock (c_tfs c) = false /\ g_vfs_pty_lock (c_pty c) = false
}.


(** The device of terminal [i] changes, and with it its view. *)
Lemma console_set_dev c V i v v' d' : console_ok c V -> V !! i = Some v -> v_node v' = v_node v -> v_tty v' = v_tty v -> dev_is v' d' ->
  console_ok (set_dev (v_tty v) d' c) (<[i := v']> V).
Proof.
  intros C Hv En Et D. destruct C as [Hl Hn Hi Hd Ht Ha Hk]. pose proof (lookup_lt_Some _ _ _ Hv) as Hlt.
  assert (E1 : v_node <$> <[i := v']> V = v_node <$> V) by (rewrite list_fmap_insert, En; apply list_insert_id; by rewrite list_lookup_fmap, Hv).
  assert (E2 : v_tty <$> <[i := v']> V = v_tty <$> V) by (rewrite list_fmap_insert, Et; apply list_insert_id; by rewrite list_lookup_fmap, Hv).
  constructor; rewrite ?E1, ?E2; try done.
  - unfold zlen in *. by rewrite length_insert.
  - intros j w Hw. destruct (decide (j = i)) as [->|Hne].
    + rewrite list_lookup_insert_eq in Hw by done. injection Hw as <-. destruct (Ht i v Hv). constructor; rewrite ?En, ?Et; try done.
      exists d'. split; [|done]. cbn. by rewrite lookup_insert_eq.
    + rewrite list_lookup_insert_ne in Hw by done. destruct (Ht j w Hw) as [? ? ? ? (d & Hd1 & Hd2)]. constructor; try done.
      exists d. split; [|done]. cbn. rewrite lookup_insert_ne; [done|]. intros E. apply Hne.
      apply (NoDup_lookup (v_tty <$> V) j i (v_tty w) Hd); rewrite list_lookup_fmap, ?Hw, ?Hv; cbn; congruence.
Qed.

(** What the views do not speak of changes. *)
Lemma console_same c c' V : console_ok c V -> c_vfs c' = c_vfs c -> c_devs c' = c_devs c -> c_private c' = c_private c ->
  c_tty c' = c_tty c -> c_tfs c' = c_tfs c -> g_vfs_pty_lock (c_pty c') = false -> console_ok c' V.
Proof.
  intros [Hl Hn Hi Hd Ht Ha (K1 & K2 & K3)] E1 E2 E3 E4 E5 E6. constructor; rewrite ?E4, ?E5; try done.
  intros i v Hv. destruct (Ht i v Hv). constructor; rewrite ?E1, ?E2, ?E3; done.
Qed.

(** A device outside the table changes. *)
Lemma console_set_other c V p d' : console_ok c V -> p ∉ v_tty <$> V -> console_ok (set_dev p d' c) V.
Proof.
  intros [Hl Hn Hi Hd Ht Ha Hk] Hp. constructor; try done. intros j w Hw. destruct (Ht j w Hw) as [? ? ? ? (d & Hd1 & Hd2)]. constructor; try done.
  exists d. split; [|done]. cbn. rewrite lookup_insert_ne; [done|]. intros ->. apply Hp, list_elem_of_fmap. exists w. split; [done|]. by eapply list_elem_of_lookup_2.
Qed.

(** ** Draining an output queue *)

Definition kept (s s' : screen) : Prop := same_size s s' /\ signalled s s'.
Lemma putc_kept_trans s1 s2 s3 : kept s1 s2 -> kept s2 s3 -> kept s1 s3.
Proof. intros ((E1 & E2) & H) ((E3 & E4) & H'). split; [split; congruence|by eapply signalled_trans]. Qed.
Lemma putc_kept c s s' : tty_putc_backbuffer c s = Ok (tt, s') -> kept s s'.
Proof. intros H. split; [by eapply keeps_putc|by eapply putc_signalled]. Qed.

Lemma wp_drain rows cols p any : forall fuel c d qi qo t (Q : bool -> console -> Prop),
  c_devs c !! p = Some d -> cooked_tty (td_q d) (qi, qo) -> displays rows cols (td_scr d) t -> Forall (Z.le 0) qo -> (length qo < fuel)%nat ->
  (forall d', cooked_tty (td_q d') (qi, []) -> displays rows cols (td_scr d') (foldl (spec_putc rows cols) t qo) ->
     kept (td_scr d) (td_scr d') -> user_lock (td_q d') = user_lock (td_q d) ->
     Q (any || negb (bool_decide (qo = []))) (set_dev p d' c)) ->
  wp (drain fuel p any) Q c.
Proof.
  intros fuel. revert any. induction fuel as [|fuel IH]; intros any c d qi qo t Q Hd T D Hq Hf HQ; [lia|]. cbn [drain]. wp_steps.
  apply (wp_on_queues _ _ _ _ _ Hd). pose proof T as (Dv & Hc & He & Hl). apply (wp_pop_output _ qi qo); [done..|].
  intros q'; cbv zeta; intros D' A'. assert (T' : cooked_tty q' (qi, tail qo)) by (by eapply cooked_after; [exact T|exact D'|]).
  destruct qo as [|ch qo]; cbn [head tail] in *; wp_steps.
  - rewrite bool_decide_true, orb_false_r in HQ by done. apply (HQ (TDev q' (td_scr d))); try done. by split; [|right]. by destruct A' as (_ & _ & ?).
  - inversion_clear Hq. eapply wp_on_screen; [apply set_dev_lookup|]. cbn [td_scr td_q].
    pose proof (wp_tty_putc rows cols (td_scr d) t ch (fun _ s' => displays rows cols s' (spec_putc rows cols t ch)) D H (fun s' Hs => Hs)) as Hp.
    apply wp_ok in Hp as ([] & s' & Es & Ds). apply (wp_of_ok _ _ _ _ _ Es). wp_steps. rewrite set_dev_twice.
    eapply (IH true _ (TDev q' s') qi qo); try done; [apply set_dev_lookup|cbn in Hf; lia|].
    intros d' T2 D2 S2 U2. rewrite set_dev_twice. rewrite bool_decide_false in HQ by done. rewrite orb_true_r in HQ. rewrite orb_true_l.
    apply HQ; [done|done| |].
    + eapply putc_kept_trans; [by eapply putc_kept|exact S2].
    + rewrite U2. by destruct A' as (_ & _ & ?).
Qed.

(** ** Lookups *)

Section lookups.
Context (c : console) (V : list view) (C : console_ok c V).

Lemma tfs_relock : set_c_tfs (set_tfs_lock false (set_tfs_lock true (c_tfs c))) c = c.
Proof using C V. destruct (co_locks c V C) as (_ & H & _). destruct c as [? ? ? ? ? [] ? ? ?]. cbn in *. by subst. Qed.
Lemma tty_relock : set_c_tty (set_driver_lock false (set_driver_lock true (c_tty c))) c = c.
Proof using C V. destruct (co_locks c V C) as (H & _). destruct c as [? ? ? ? [] ? ? ? ?]. cbn in *. by subst. Qed.

Lemma rd_view {S A} (l : list A) (f : view -> A) i v (Q : A -> S -> Prop) s : l = f <$> V -> 0 <= i -> V !! Z.to_nat i = Some v ->
  Q (f v) s -> wp (rd l i) Q s.
Proof. intros -> Hi Hv HQ. eapply wp_rd; [done| |done]. by rewrite list_lookup_fmap, Hv. Qed.

Lemma wp_node_by_index i v (Q : Z -> console -> Prop) : V !! Z.to_nat i = Some v -> 0 <= i -> Q (v_node v) c -> wp (tty_vfs_get_node_by_index i) Q c.
Proof using C.
  intros Hv Hi HQ. pose proof (lookup_lt_Some _ _ _ Hv). pose proof (co_len c V C). unfold tty_vfs_get_node_by_index, zlen in *.
  rewrite (proj2 (Z.ltb_ge i 0)), (proj2 (Z.leb_gt _ i)) by lia. cbn [orb]. unfold lock_tfs, unlock_tfs, on_tfs. wp_steps.
  destruct (co_locks c V C) as (_ & -> & _). wp_steps. cbn [c_tfs set_c_tfs]. eapply rd_view; [exact (co_nodes c V C)|done|done|]. wp_steps.
  rewrite <- tfs_relock in HQ. exact HQ.
Qed.

Lemma wp_active_node v (Q : Z -> console -> Prop) : V !! Z.to_nat (g_current_active_id (c_tty c)) = Some v -> Q (v_node v) c -> wp tty_vfs_get_active_node Q c.
Proof using C.
  intros Hv HQ. destruct (co_active c V C) as [Ea Hr]. unfold tty_vfs_get_active_node, lock_tfs, unlock_tfs, on_tfs. wp_steps.
  destruct (co_locks c V C) as (_ & -> & _). wp_steps. cbn [c_tfs set_c_tfs g_active_tty_index set_tfs_lock]. rewrite Ea, (proj2 (Z.ltb_lt _ _)) by lia. wp_steps.
  eapply rd_view; [exact (co_nodes c V C)|lia|done|]. wp_steps. rewrite <- tfs_relock in HQ. exact HQ.
Qed.

Lemma wp_get_current v (Q : Z -> console -> Prop) : V !! Z.to_nat (g_current_active_id (c_tty c)) = Some v -> Q (v_tty v) c -> wp tty_get_current Q c.
Proof using C.
  intros Hv HQ. destruct (co_active c V C) as [_ Hr]. unfold tty_get_current, lock_driver, unlock_driver, on_tty. wp_steps.
  destruct (co_locks c V C) as (-> & _). wp_steps. cbn [c_tty set_c_tty g_current_active_id set_driver_lock]. rewrite (proj2 (Z.ltb_lt _ _)) by lia. wp_steps.
  eapply rd_view; [exact (co_instances c V C)|lia|done|]. wp_steps. rewrite <- tty_relock in HQ. exact HQ.
Qed.

Lemma wp_private i v (Q : Z -> console -> Prop) : V !! i = Some v -> Q (v_tty v) c -> wp (private_data (v_node v)) Q c.
Proof using C. intros Hv HQ. unfold private_data. wp_steps. rewrite (ti_private _ _ _ (co_terms c V C i v Hv)). exact HQ. Qed.

Lemma wp_tty0 v (Q : Z -> console -> Prop) : V !! 0%nat = Some v -> Q (v_tty v) c -> wp tty0_device Q c.
Proof using C.
  intros Hv HQ. pose proof (co_terms c V C _ _ Hv) as T. destruct (ti_name _ _ _ T) as (n & Hn & En).
  unfold tty0_device, tty_vfs_get_node_by_name, lock_tfs, on_tfs. wp_steps. destruct (co_locks c V C) as (_ & -> & _). wp_steps.
  change (Z.to_nat MAX_TTY_DRV_DEVICES) with 4%nat. cbn [loop]. cbn [c_tfs set_c_tfs g_tty_devices set_tfs_lock]. wp_steps.
  eapply (rd_view _ _ 0); [exact (co_nodes c V C)|done|exact Hv|]. rewrite (proj2 (Z.eqb_neq _ _)) by apply (ti_node _ _ _ T). wp_steps.
  apply wp_zoom. apply (wp_node _ _ n); [exact Hn|]. wp_steps. rewrite bool_decide_true by exact En. unfold unlock_tfs, on_tfs. wp_steps.
  rewrite (proj2 (Z.eqb_neq _ _)) by apply (ti_node _ _ _ T). 
  assert (E : forall x, x = c -> wp (private_data (v_node v)) Q x) by (intros x ->; by eapply wp_private). apply E. exact tfs_relock.
Qed.
End lookups.

(** ** The turn of the emulator *)

(** A terminal whose queue has been shown. *)
Definition served (v : view) : view := set_view (v_in v) [] (written_text v (v_out v)) v.

Lemma wp_drain_term c V i v (Q : bool -> console -> Prop) : console_ok c V -> V !! i = Some v ->
  (forall d d', c_devs c !! v_tty v = Some d -> dev_is (served v) d' -> kept (td_scr d) (td_scr d') -> user_lock (td_q d') = user_lock (td_q d) ->
     console_ok (set_dev (v_tty v) d' c) (<[i := served v]> V) -> Q (negb (bool_decide (v_out v = []))) (set_dev (v_tty v) d' c)) ->
  wp (drain_output (v_tty v)) Q c.
Proof.
  intros C Hv HQ. destruct (ti_dev _ _ _ (co_terms c V C i v Hv)) as (d & Hd & [T D Hq]).
  unfold drain_output. eapply (wp_drain (v_rows v) (v_cols v)); [done..| |].
  { destruct T as (Dv & _). pose proof (ring_ok_len _ _ (dev_out _ _ _ Dv)) as Hl. cbn [snd] in Hl. unfold CAPACITY, TTY_BUF_SIZE, zlen in *. lia. }
  intros d' T' D' S' U'. assert (Ds : dev_is (served v) d') by (constructor; [exact T'|exact D'|apply Forall_nil_2]).
  apply (HQ d d'); try done. by eapply console_set_dev.
Qed.

Lemma served_step (V : list view) j v : V !! j = Some v ->
  <[j := served v]> ((served <$> take j V) ++ drop j V) = (served <$> take (S j) V) ++ drop (S j) V /\
  ((served <$> take j V) ++ drop j V) !! j = Some v.
Proof.
  intros Hv. pose proof (lookup_lt_Some _ _ _ Hv) as Hlt. assert (Hl : length (served <$> take j V) = j) by (rewrite length_fmap, length_take; lia).
  rewrite (drop_S V v j Hv), (take_S_r _ _ _ Hv), fmap_app. split.
  - rewrite insert_app_r_alt, Hl, Nat.sub_diag by lia. by rewrite <- app_assoc.
  - by rewrite lookup_app_r, Hl, Nat.sub_diag by lia.
Qed.

Definition spoken (V : list view) : bool := existsb (fun v => negb (bool_decide (v_out v = []))) V.
Lemma spoken_app V1 V2 : spoken (V1 ++ V2) = spoken V1 || spoken V2.
Proof. apply existsb_app. Qed.

(** The screen of the active terminal is on the display, unless it is marked
    for a refresh or the focus has moved. *)
Definition tracked (c : console) (v : view) (last_active_node : Z) : Prop :=
  forall d, c_devs c !! v_tty v = Some d ->
    s_height (td_scr d) * pixels_per_scanLine (td_scr d) <= zlen (c_vram c) /\
    (last_active_node = v_node v -> refresh_needed (td_scr d) = false -> on_display (td_scr d) (c_vram c)).


Lemma kept_tracked c c' v last d d' : tracked c v last -> c_devs c !! v_tty v = Some d -> kept (td_scr d) (td_scr d') ->
  c_devs c' !! v_tty v = Some d' -> c_vram c' = c_vram c -> tracked c' v last.
Proof.
  intros T Hd ((E1 & E2) & S) Hd' Ev d2 Hd2. rewrite Hd' in Hd2. injection Hd2 as <-. destruct (T d Hd) as [T1 T2]. rewrite E1, E2, Ev. split; [done|].
  intros El Er. destruct S as [S|[S1 S2]]; [congruence|]. apply (on_display_same _ _ _ S2), T2; [done|congruence].
Qed.

(** The first loop of the turn. *)
Lemma wp_consume_all c V last a v (Q : bool + unit -> console -> Prop) : console_ok c V -> V !! a = Some v -> tracked c v last ->
  (forall c', console_ok c' (served <$> V) -> tracked c' v last -> g_current_active_id (c_tty c') = g_current_active_id (c_tty c) -> Q (inl (spoken V)) c') ->
  wp (loop (Z.to_nat MAX_TTY_DRV_DEVICES) 0 emulator_consume false) Q c.
Proof.
  intros C Ha Tr HQ. pose proof (co_len c V C) as Hlen. unfold zlen in Hlen.
  apply (wp_loop (fun j any c' => let V' := (served <$> take (Z.to_nat j) V) ++ drop (Z.to_nat j) V in
    console_ok c' V' /\ any = spoken (take (Z.to_nat j) V) /\ tracked c' v last /\ c_vram c' = c_vram c /\
    c_tty c' = c_tty c)).
  - rewrite take_0, drop_0. by split_and!.
  - intros j any c1 Hj (C1 & -> & Tr1 & Ev & Et). unfold MAX_TTY_DRV_DEVICES in *.
    destruct (lookup_lt_is_Some_2 V (Z.to_nat j)) as [w Hw]; [lia|]. destruct (served_step V (Z.to_nat j) w Hw) as [Hs Hl].
    replace (Z.to_nat (j + 1)) with (S (Z.to_nat j)) by lia. unfold emulator_consume. wp_steps.
    eapply (wp_node_by_index _ _ C1); [exact Hl|lia|]. rewrite (proj2 (Z.eqb_neq _ _)) by apply (ti_node _ _ _ (co_terms _ _ C1 _ _ Hl)). wp_steps.
    eapply (wp_private _ _ C1); [exact Hl|]. rewrite (proj2 (Z.eqb_neq _ _)) by apply (ti_tty _ _ _ (co_terms _ _ C1 _ _ Hl)). wp_steps.
    eapply wp_drain_term; [exact C1|exact Hl|]. intros d d' Hd Hd' Hk _ C2. wp_steps. rewrite Hs in C2. split_and!; [exact C2| | |done|done].
    + rewrite (take_S_r _ _ _ Hw), spoken_app. cbn. by rewrite orb_false_r.
    + destruct (decide (v_tty v = v_tty w)) as [E|E].
      * eapply (kept_tracked _ _ _ _ d d'); [exact Tr1|by rewrite E|exact Hk|cbn; by rewrite E, lookup_insert_eq|done].
      * intros d2 Hd2. cbn in Hd2. rewrite lookup_insert_ne in Hd2 by done. by apply Tr1.
  - intros any c1 (C1 & -> & Tr1 & _ & Et). change (0 + Z.of_nat (Z.to_nat MAX_TTY_DRV_DEVICES)) with MAX_TTY_DRV_DEVICES in *. unfold MAX_TTY_DRV_DEVICES in *.
    rewrite take_ge, drop_ge, app_nil_r in * by lia. apply HQ; [done|done|]. by rewrite Et.
Qed.

Lemma displays_window rows cols s t : displays rows cols s t -> geometry s /\ 0 <= scroll_y_offset s <= virtual_height s.
Proof.
  intros (Sh & _). split; [exact (sh_geometry _ _ _ _ Sh)|]. destruct (shown_bounds _ _ _ _ Sh) as (_ & _ & _ & Hh & _).
  pose proof (sh_y _ _ _ _ Sh). pose proof (sh_row _ _ _ _ Sh). pose proof (sh_scroll _ _ _ _ Sh). unfold FONT_HEIGHT in *. lia.
Qed.

(** The second half of the turn. *)
Lemma wp_emulator_refresh c V last v (Q : Z -> console -> Prop) : console_ok c V -> V !! Z.to_nat (g_current_active_id (c_tty c)) = Some v -> tracked c v last ->
  (forall c' d, console_ok c' V -> c_devs c' !! v_tty v = Some d -> refresh_needed (td_scr d) = false -> on_display (td_scr d) (c_vram c') ->
     s_height (td_scr d) * pixels_per_scanLine (td_scr d) <= zlen (c_vram c') -> c_tty c' = c_tty c -> Q (v_node v) c') ->
  wp (emulator_refresh last) Q c.
Proof.
  intros C Hv Tr HQ. pose proof (co_terms _ _ C _ _ Hv) as T. destruct (ti_dev _ _ _ T) as (d & Hd & D). pose proof D as [Tq Td Ho].
  destruct (Tr d Hd) as [Hsize Hshown]. unfold emulator_refresh, flush_screen. wp_steps. eapply (wp_active_node _ _ C); [exact Hv|].
  rewrite (proj2 (Z.eqb_neq _ _)) by apply (ti_node _ _ _ T). wp_steps. rewrite (proj2 (Z.eqb_neq _ _)) by apply (ti_node _ _ _ T).
  eapply (wp_private _ _ C); [exact Hv|]. rewrite (proj2 (Z.eqb_neq _ _)) by apply (ti_tty _ _ _ T). wp_steps.
  apply (wp_on_screen _ _ _ _ _ Hd). wp_steps. eapply wp_on_screen; [apply set_dev_lookup|]. wp_steps.
  rewrite set_dev_twice. cbn [td_scr td_q]. set (d' := TDev (td_q d) (set_refresh false (td_scr d))).
  assert (D' : dev_is v d') by (constructor; [exact Tq|by apply displays_refresh|done]).
  assert (C' : console_ok (set_dev (v_tty v) d' c) V).
  { rewrite <- (list_insert_id V _ _ Hv). by eapply console_set_dev. }
  destruct (refresh_needed (td_scr d) || negb (v_node v =? last)) eqn:Er.
  - wp_steps. eapply wp_on_screen; [apply set_dev_lookup|]. wp_steps. change (TDev _ _) with d'. rewrite set_dev_twice.
    destruct (displays_window _ _ _ _ (di_screen _ _ D')) as [G W].
    eapply wp_mono; [by apply (wp_tty_flush _ (c_vram c) G W)|]. intros [] vram (Hl & Hon & _). wp_steps.
    apply (HQ _ d'); try done; [eapply console_same; [exact C'|done..|]; apply (co_locks _ _ C)|apply set_dev_lookup|cbn [set_c_vram c_vram]; rewrite Hl; exact Hsize].
  - apply orb_false_iff in Er as [Er El]. apply negb_false_iff, Z.eqb_eq in El. wp_steps. rewrite <- El.
    apply (HQ _ d'); try done; [apply set_dev_lookup|]. apply (on_display_same (td_scr d)); [done|]. by apply Hshown.
Qed.

(** C26: A turn of the emulator shows what has been printed.  Every terminal's
    queue is emptied into its text, the turn reports whether there was
    anything, and at its end the display shows the screen of the active
    terminal: by a copy when that screen was marked or the focus has moved, and
    otherwise because it did so already. *)
Theorem emulator_turn_serves c V last v : console_ok c V -> V !! Z.to_nat (g_current_active_id (c_tty c)) = Some v -> tracked c v last ->
  wp (emulator_turn last) (fun r c' =>
    r = (v_node v, spoken V) /\ console_ok c' (served <$> V) /\ tracked c' (served v) (v_node v) /\
    exists d, c_devs c' !! v_tty v = Some d /\ on_display (td_scr d) (c_vram c') /\
      displays (v_rows v) (v_cols v) (td_scr d) (written_text v (v_out v))) c.
Proof.
  intros C Hv Tr. unfold emulator_turn. wp_steps. eapply wp_consume_all; [done..|]. intros c1 C1 Tr1 Et. wp_steps.
  assert (Hv1 : (served <$> V) !! Z.to_nat (g_current_active_id (c_tty c1)) = Some (served v)) by (rewrite Et, list_lookup_fmap; by rewrite Hv).
  eapply (wp_emulator_refresh _ _ _ (served v)); [done..|]. intros c2 d C2 Hd Hr Hon Hsz Et2. wp_steps. split_and!; [done|done| |].
  - intros d2 Hd2. rewrite Hd in Hd2. by injection Hd2 as <-.
  - exists d. split_and!; [done|done|]. rewrite <- Et2 in Hv1. destruct (ti_dev _ _ _ (co_terms _ _ C2 _ _ Hv1)) as (d2 & Hd2 & D2).
    rewrite Hd in Hd2. injection Hd2 as <-. exact (di_screen _ _ D2).
Qed.
