(* ===== verification/PtyThms.v ===== *)
(** * Keystrokes and pseudo-terminals

    A keystroke goes to the pseudo-terminal with the focus and is echoed on the
    first terminal; a line typed at the keyboard is what the program behind the
    pseudo-terminal reads; and a pair of nodes, the master's and the replica's,
    carries two bounded streams. *)

From Stdlib Require Import ZArith Lia.
From stdpp Require Import base tactics list gmap.
From S2P Require Import Prelude Bytes Ramfs Tty TtyThms Font Screen ScreenThms ScreenCheck Kbd Console ConsoleThms.

(** ** The pseudo-terminal with the focus *)

(** A device outside the table, with its queues; nobody holds its [user_lock]. *)
Record pty_is (c : console) (V : list view) (e : Z) (qi qo : list Z) : Prop := {
  pt_null : e <> 0;
  pt_other : e ∉ v_tty <$> V;
  pt_dev : exists d, c_devs c !! e = Some d /\ cooked_tty (td_q d) (qi, qo) /\ user_lock (td_q d) = false
}.

Definition lock_dev (b : bool) (d : tdev) : tdev := TDev (set_user_lock b (td_q d)) (td_scr d).

Lemma set_tdev_same e d c : c_devs c !! e = Some d -> set_dev e d c = c.
Proof. intros H. unfold set_dev. rewrite insert_id by done. by destruct c. Qed.
Lemma set_dev_comm e p d d' c : e <> p -> set_dev e d (set_dev p d' c) = set_dev p d' (set_dev e d c).
Proof. intros H. unfold set_dev. cbn. by rewrite insert_insert_ne. Qed.

Lemma cooked_user_lock b t q : cooked_tty t q -> cooked_tty (set_user_lock b t) q.
Proof. intros (D & Hc & He & Hl). split_and!; try done. by destruct D; constructor. Qed.

Section engine.
Context (c : console) (Hk : g_vfs_pty_lock (c_pty c) = false).

Lemma pty_relock e d : set_c_pty (set_pty_lock false (set_pty_lock true (c_pty c))) (set_dev e d (set_c_pty (set_pty_lock true (c_pty c)) c)) = set_dev e d c.
Proof using Hk. destruct c as [? ? ? ? ? ? [] ? ?]. cbn in *. by subst. Qed.
Lemma pty_relock_none : set_c_pty (set_pty_lock false (set_pty_lock true (c_pty c))) (set_c_pty (set_pty_lock true (c_pty c)) c) = c.
Proof using Hk. destruct c as [? ? ? ? ? ? [] ? ?]. cbn in *. by subst. Qed.

Lemma wp_engine_none (Q : Z -> console -> Prop) : g_active_pty_engine (c_pty c) = 0 -> Q 0 c -> wp pty_vfs_get_active_engine Q c.
Proof using Hk.
  intros He HQ. unfold pty_vfs_get_active_engine, lock_pty, unlock_pty, on_pty. wp_steps. rewrite Hk. wp_steps.
  cbn [c_pty set_c_pty g_active_pty_engine set_pty_lock]. rewrite He. wp_steps. by rewrite <- pty_relock_none in HQ.
Qed.

Lemma wp_engine e d (Q : Z -> console -> Prop) : g_active_pty_engine (c_pty c) = e -> e <> 0 -> c_devs c !! e = Some d -> user_lock (td_q d) = false ->
  Q e (set_dev e (lock_dev true d) c) -> wp pty_vfs_get_active_engine Q c.
Proof using Hk.
  intros He Hne Hd Hu HQ. unfold pty_vfs_get_active_engine, lock_pty, unlock_pty, on_pty. wp_steps. rewrite Hk. wp_steps.
  cbn [c_pty set_c_pty g_active_pty_engine set_pty_lock]. rewrite He, (proj2 (Z.eqb_neq _ _)) by done. wp_steps.
  eapply wp_on_queues; [exact Hd|]. unfold lock_user. wp_steps. rewrite Hu. wp_steps. by rewrite <- pty_relock in HQ.
Qed.

Lemma wp_engine_close e d (Q : unit -> console -> Prop) : e <> 0 -> c_devs c !! e = Some d ->
  Q tt (set_dev e (lock_dev false d) c) -> wp (pty_vfs_get_active_engine_close e) Q c.
Proof using Hk.
  intros Hne Hd HQ. unfold pty_vfs_get_active_engine_close, lock_pty, unlock_pty, on_pty. rewrite (proj2 (Z.eqb_neq _ _)) by done. wp_steps.
  rewrite Hk. wp_steps. eapply wp_on_queues; [exact Hd|]. unfold unlock_user. wp_steps. by rewrite <- pty_relock in HQ.
Qed.
End engine.

(** ** One character *)

(** The first terminal after the echo of a character. *)
Definition echo_view (c : Z) (v : view) : view :=
  let x := stored (v_in v) [c] in set_view (v_in v ++ x) [] (written_text v (capped (v_out v ++ x))) v.

Lemma wp_write_in_cooked t qi qo buf (Q : Z -> tty_device -> Prop) : cooked_tty t (qi, qo) -> 0 < zlen buf < 2 ^ 31 ->
  (forall t', cooked_tty t' (qi ++ stored qi buf, capped (qo ++ stored qi buf)) -> user_lock t' = user_lock t -> Q (zlen (stored qi buf)) t') ->
  wp (tty_write_to_in_queue buf) Q t.
Proof.
  intros T Hb HQ. pose proof T as (D & Hc & He & Hl). apply (wp_write_in t qi qo); [done..|]. intros t'; cbv zeta; intros D' A'.
  apply HQ; [|by destruct A' as (_ & _ & ?)]. unfold echoed in D'. rewrite He in D'. by eapply cooked_after.
Qed.

Lemma cooked_nonneg c : 0 <= c -> 0 <= cooked c.
Proof. intros H. unfold cooked, ASCII_NL. by case_if. Qed.
Lemma stored_nonneg qi l : Forall (Z.le 0) l -> Forall (Z.le 0) (stored qi l).
Proof. intros H. unfold stored. apply Forall_take, Forall_fmap. eapply Forall_impl; [exact H|]. apply cooked_nonneg. Qed.

(** The echo: the character enters the queue of the first terminal, and what
    its output holds goes to the screen. *)
Lemma wp_echo c V v ch (Q : console -> Prop) : console_ok c V -> V !! 0%nat = Some v -> 0 <= ch ->
  (forall d', console_ok (set_dev (v_tty v) d' c) (<[0%nat := echo_view ch v]> V) -> Q (set_dev (v_tty v) d' c)) ->
  wp (_ <-- on_queues (v_tty v) (tty_write_to_in_queue [ch]) ;; _ <-- drain_output (v_tty v) ;; kret tt) (fun _ c' => Q c') c.
Proof.
  intros C Hv Hch HQ. destruct (ti_dev _ _ _ (co_terms _ _ C _ _ Hv)) as (d & Hd & [T D Ho]). set (x := stored (v_in v) [ch]).
  assert (Hx : Forall (Z.le 0) x) by (apply stored_nonneg; by repeat constructor).
  wp_steps. apply (wp_on_queues _ _ _ _ _ Hd). apply (wp_write_in_cooked _ _ _ _ _ T); [done|]. fold x. intros t' T' _. wp_steps.
  set (d1 := TDev t' (td_scr d)). set (v1 := set_view (v_in v ++ x) (capped (v_out v ++ x)) (v_text v) v).
  assert (C1 : console_ok (set_dev (v_tty v) d1 c) (<[0%nat := v1]> V)).
  { eapply console_set_dev; [done..|]. constructor; [exact T'|exact D|]. cbn. apply Forall_take, Forall_app. done. }
  eapply (wp_drain_term _ _ 0%nat v1); [exact C1|apply list_lookup_insert_eq; by eapply lookup_lt_Some|]. intros d2 d3 _ _ _ _ C3. wp_steps.
  rewrite list_insert_insert_eq in C3. change (v_tty v1) with (v_tty v) in *. rewrite set_dev_twice in *. by apply HQ.
Qed.

(** A character for the pseudo-terminal with the focus. *)
Lemma wp_bridge_char c V v e qi qo ch (Q : unit -> console -> Prop) : console_ok c V -> V !! 0%nat = Some v -> 0 <= ch ->
  g_active_pty_engine (c_pty c) = e -> pty_is c V e qi qo ->
  (forall c', let x := stored qi [ch] in console_ok c' (<[0%nat := echo_view ch v]> V) -> pty_is c' (<[0%nat := echo_view ch v]> V) e (qi ++ x) (capped (qo ++ x)) ->
     c_pty c' = c_pty c -> c_kbd c' = c_kbd c -> c_private c' = c_private c -> c_pairs c' = c_pairs c -> Q tt c') ->
  wp (bridge_char ch) Q c.
Proof.
  intros C Hv Hch He P HQ. destruct P as [Hne Hnin (d & Hd & T & Hu)]. pose proof (co_locks _ _ C) as (_ & _ & Hpl).
  destruct (lookup_lt_is_Some_2 V (Z.to_nat (g_current_active_id (c_tty c)))) as [w Hw].
  { pose proof (co_len _ _ C). pose proof (co_active _ _ C). unfold zlen in *. lia. }
  unfold bridge_char. wp_steps. eapply (wp_get_current _ _ C); [exact Hw|]. rewrite (proj2 (Z.eqb_neq _ _)) by apply (ti_tty _ _ _ (co_terms _ _ C _ _ Hw)).
  wp_steps. eapply wp_engine; [done..|]. rewrite (proj2 (Z.eqb_neq _ _)) by done. cbn [negb]. wp_steps.
  eapply wp_on_queues; [apply set_dev_lookup|]. cbn [td_q td_scr lock_dev]. eapply wp_write_in_cooked; [by apply cooked_user_lock|done|].
  intros t' T' _. wp_steps. rewrite set_dev_twice. eapply wp_on_queues; [apply set_dev_lookup|]. wp_steps. cbn [td_q td_scr]. rewrite set_dev_twice.
  pose proof T' as (_ & _ & Hecho & _). rewrite Hecho. set (d1 := TDev t' (td_scr d)). assert (C1 : console_ok (set_dev e d1 c) V) by (by apply console_set_other).
  wp_steps. eapply (wp_tty0 _ _ C1); [exact Hv|]. rewrite (proj2 (Z.eqb_neq _ _)) by apply (ti_tty _ _ _ (co_terms _ _ C _ _ Hv)).
  assert (Hnv : e <> v_tty v) by (intros ->; apply Hnin, list_elem_of_fmap; exists v; split; [done|by eapply list_elem_of_lookup_2]).
  eapply wp_mono; [eapply (wp_echo _ _ v ch (fun c' => exists d', c' = set_dev (v_tty v) d' (set_dev e d1 c) /\ console_ok c' (<[0%nat := echo_view ch v]> V))); [exact C1|done..|eauto]|].
  intros [] c2 (d' & -> & C2). wp_steps. rewrite <- set_dev_comm in * by done.
  eapply wp_engine_close; [exact Hpl|done|apply set_dev_lookup|]. rewrite set_dev_twice.
  assert (En : v_tty <$> <[0%nat := echo_view ch v]> V = v_tty <$> V) by (rewrite list_fmap_insert; apply list_insert_id; by rewrite list_lookup_fmap, Hv).
  apply HQ; try done.
  - rewrite <- (set_dev_twice e d1). apply console_set_other; [exact C2|by rewrite En].
  - constructor; [done|by rewrite En|]. exists (lock_dev false d1). split_and!; [apply set_dev_lookup|by apply cooked_user_lock|done].
Qed.

(** ** A line from the keyboard *)

Lemma stored_one qi ch : zlen qi < CAPACITY -> stored qi [ch] = [cooked ch].
Proof. intros H. unfold stored. cbn [fmap list_fmap]. apply take_ge. cbn [length]. lia. Qed.

Lemma echo_tty ch v : v_tty (echo_view ch v) = v_tty v.
Proof. done. Qed.
Lemma view_ttys (V : list view) i v w : V !! i = Some v -> v_tty w = v_tty v -> v_tty <$> <[i := w]> V = v_tty <$> V.
Proof. intros Hv E. rewrite list_fmap_insert, E. apply list_insert_id. by rewrite list_lookup_fmap, Hv. Qed.

(** The keyboard sends the bytes of some actions; the queue has room for the
    characters among them. *)
Lemma wp_bridge_bytes l : forall c V v e qi qo acts m' (Q : unit -> console -> Prop), console_ok c V -> V !! 0%nat = Some v ->
  g_active_pty_engine (c_pty c) = e -> pty_is c V e qi qo -> idle (c_kbd c) ->
  run_actions l (g_current_modifiers (c_kbd c)) = Some (acts, m') -> existsb is_switch acts = false -> Forall (Z.le 0) (typed acts) ->
  zlen qi + zlen (typed acts) <= CAPACITY ->
  (forall c' V' v' qo', console_ok c' V' -> V' !! 0%nat = Some v' -> pty_is c' V' e (qi ++ (cooked <$> typed acts)) qo' ->
     c_private c' = c_private c -> c_pairs c' = c_pairs c -> idle (c_kbd c') -> g_current_modifiers (c_kbd c') = m' -> Q tt c') ->
  wp (bridge_bytes l) Q c.
Proof.
  induction l as [|b l IH]; intros c V v e qi qo acts m' Q C Hv He P Hi Hr Hs Hp Hroom HQ; cbn [bridge_bytes run_actions] in *.
  { injection Hr as <- <-. apply wp_ret. cbn in HQ. rewrite app_nil_r in HQ. by eapply HQ. }
  destruct (run_action b _) as [[a m1]|] eqn:Ha; [|done]. destruct (run_actions l m1) as [[r1 m2]|] eqn:Hl; [|done].
  injection Hr as <- <-. cbn [existsb] in Hs. apply orb_false_iff in Hs as [Hsa Hs]. unfold bridge_byte. wp_steps. 
  eapply wp_key_action; [done..|]. intros k1 Hk1 Hm1. wp_steps.
  assert (C1 : console_ok (set_c_kbd k1 c) V) by (eapply console_same; [exact C|done..|apply (co_locks _ _ C)]).
  assert (P1 : pty_is (set_c_kbd k1 c) V e qi qo) by (destruct P; by constructor).
  destruct a as [|i|ch]; [|done|]; cbn [bridge_action typed omap list_omap] in *; fold (typed r1) in *.
  - wp_steps. by eapply (IH (set_c_kbd k1 c)); [exact C1|done|done|exact P1|done|cbn; rewrite Hm1; done|..].
  - inversion_clear Hp. change (zlen (ch :: typed r1)) with (Z.of_nat (S (length (typed r1)))) in Hroom. rewrite Nat2Z.inj_succ in Hroom. change (Z.of_nat (length (typed r1))) with (zlen (typed r1)) in Hroom. pose proof (zlen_nonneg (typed r1)).
    eapply wp_bridge_char; [exact C1|exact Hv|done|exact He|exact P1|]. intros c2. cbv zeta. rewrite stored_one by lia. intros C2 P2 E1 E2 E3 E4. wp_steps.
    eapply (IH c2 _ (echo_view ch v)); [exact C2|apply list_lookup_insert_eq; by eapply lookup_lt_Some|by rewrite E1|exact P2|by rewrite E2|rewrite E2; cbn; rewrite Hm1; exact Hl|done|done| |].
    + unfold zlen in *. rewrite length_app. cbn. lia.
    + intros c3 V3 v3 qo3 C3 Hv3 P3 F1 F2. rewrite <- app_assoc in P3. eapply HQ; [exact C3|exact Hv3|exact P3| |]; cbn in E3, E4; congruence.
Qed.

Lemma first_line_whole line : ASCII_NL ∉ line -> first_line (line ++ [ASCII_NL]) = line ++ [ASCII_NL].
Proof.
  induction line as [|c line IH]; intros H; [done|]. apply not_elem_of_cons in H as [Hc H]. cbn [app first_line].
  rewrite (proj2 (Z.eqb_neq _ _)), IH by done. done.
Qed.

Lemma cooked_text line : Forall (fun c => 0 <= c /\ c <> 13) line -> cooked <$> line = line.
Proof.
  induction 1 as [|c line [_ Hc] _ IH]; [done|]. cbn. rewrite IH. unfold cooked, ASCII_CR. by rewrite (proj2 (Z.eqb_neq _ _)).
Qed.

(** A pair of nodes, by its replica's node. *)
Definition replica_of (c : console) (node e : Z) : Prop :=
  node <> 0 /\ exists pair p, pair <> 0 /\ c_private c !! node = Some pair /\ c_pairs c !! pair = Some p /\ replica_tty p = e.

Lemma wp_pty_device c node e (Q : option pty_pair -> console -> Prop) : replica_of c node e -> e <> 0 ->
  (forall pair p, c_private c !! node = Some pair -> c_pairs c !! pair = Some p -> replica_tty p = e -> Q (Some p) c) -> wp (pty_device node) Q c.
Proof.
  intros (Hn0 & pair & p & Hp & Hn & Hl & He) Hne HQ. unfold pty_device, private_data, pair_at. wp_steps. rewrite Hn. cbn [from_option id].
  rewrite (proj2 (Z.eqb_neq _ _)) by done. wp_steps. eapply wp_opt; [exact Hl|]. wp_steps. rewrite He, (proj2 (Z.eqb_neq _ _)) by done. by eapply HQ.
Qed.

(** The queues of the pseudo-terminal take an operation. *)
Lemma wp_pty_queues {A} c V e q (m : M tty_device A) (f : A -> tty_result) op (Q : A -> console -> Prop) :
  console_ok c V -> pty_is c V e (fst q) (snd q) -> op_ok op -> do_op op = (x <-- m ;; kret (f x)) ->
  (forall x d', f x = fst (spec_op op q) -> console_ok (set_dev e d' c) V ->
     pty_is (set_dev e d' c) V e (fst (snd (spec_op op q))) (snd (snd (spec_op op q))) -> Q x (set_dev e d' c)) ->
  wp (on_queues e m) Q c.
Proof.
  intros C [Hne Hnin (d & Hd & T & Hu)] Hok Em HQ. apply (wp_on_queues _ _ _ _ _ Hd).
  pose proof (wp_do_op op (td_q d) q (fun r t' => r = fst (spec_op op q) /\ cooked_tty t' (snd (spec_op op q)) /\ user_lock t' = false) Hok) as H.
  rewrite Em in H. destruct q as [qi qo]. apply wp_bind_inv in H; [|done|intros t' T' U'; split_and!; congruence].
  eapply wp_mono; [exact H|]. intros x t' (E & T' & U'). apply HQ; [exact E|by apply console_set_other|].
  destruct (snd (spec_op op (qi, qo))) as [qi' qo']. constructor; [done|done|]. exists (TDev t' (td_scr d)). split_and!; [apply set_dev_lookup|done|done].
Qed.

(** C22: What is typed is what the program reads.  On a quiet keyboard, with a
    pseudo-terminal in focus whose input is empty, the bytes of a line, with its
    newline, go through the interrupt routine, the bridge with its echo on the
    first terminal, and the line discipline; a read of the replica then returns
    exactly the line and leaves the input empty. *)
Theorem typed_line_read c V v e qo node line bytes size : console_ok c V -> V !! 0%nat = Some v ->
  g_active_pty_engine (c_pty c) = e -> pty_is c V e [] qo -> replica_of c node e ->
  idle (c_kbd c) -> g_current_modifiers (c_kbd c) = 0 ->
  bytes_of_text (line ++ [ASCII_NL]) = Some bytes -> ASCII_NL ∉ line -> zlen line < CAPACITY -> zlen line < size < 2 ^ 31 ->
  wp (bridge_bytes bytes ;;; tfs_pty_replica_read node size true) (fun r c' =>
    r = Some (zlen line + 1, line ++ [ASCII_NL]) /\ idle (c_kbd c') /\ exists V' qo', console_ok c' V' /\ pty_is c' V' e [] qo') c.
Proof.
  intros C Hv He P R Hi Hm Hb Hnl Hlen Hsz. destruct (text_types _ _ Hb) as (acts & Hr & Ht & Hs & Hall).
  assert (El : zlen (line ++ [ASCII_NL]) = zlen line + 1) by (unfold zlen; rewrite length_app; cbn; lia).
  wp_steps. eapply (wp_bridge_bytes bytes c V v e [] qo acts 0); try done; [by rewrite Hm| | |].
  { rewrite Ht. eapply Forall_impl; [exact Hall|]. by intros ? []. }
  { rewrite Ht, El. change (zlen []) with 0. lia. }
  rewrite Ht, (cooked_text _ Hall). intros c1 V1 v1 qo1 C1 Hv1 P1 E1 E2 Hi1 Hm1. cbn [app] in P1.
  pose proof R as (Hn0 & _). unfold tfs_pty_replica_read. rewrite !(proj2 (Z.eqb_neq _ _)) by (unfold zlen in *; lia || done). cbn [orb negb]. wp_steps.
  assert (R1 : replica_of c1 node e) by (unfold replica_of; rewrite E1, E2; exact R).
  eapply wp_pty_device; [exact R1|by destruct P|]. intros pair p _ _ Ep. rewrite Ep. wp_steps.
  pose proof (zlen_nonneg line). eapply (wp_pty_queues _ V1 e (line ++ [ASCII_NL], qo1) _ RText (ReadIn size)); [done|done|cbn; lia|done|].
  cbn [spec_op fst snd]. rewrite bool_decide_true by (apply elem_of_app; right; by left). rewrite first_line_whole, take_ge, drop_all by (done || (unfold zlen in *; lia)).
  cbn [fst snd]. intros x d' [= ->] C2 P2. wp_steps. cbn [fmap option_fmap option_map]. rewrite El. split_and!; [done|done|]. by exists V1, qo1.
Qed.

(** ** The two directions of a pair *)

(** The operations of the programs at the two ends. *)
Inductive pty_op : Type :=
| MasterWrite (buf : list Z)
| MasterRead (size : Z)
| ReplicaWrite (buf : list Z)
| ReplicaRead (size : Z)
| PtyNumber.

Inductive pty_result : Type :=
| PCount (n : Z)
| PText (x : option (Z * list Z))
| PNumber (n : option Z).

Definition do_pty (master replica : Z) (op : pty_op) : M console pty_result :=
  match op with
  | MasterWrite buf => n <-- tfs_pty_master_write master (Some buf) ;; kret (PCount n)
  | MasterRead size => x <-- tfs_pty_master_read master size true ;; kret (PText x)
  | ReplicaWrite buf => n <-- tfs_pty_replica_write replica (Some buf) ;; kret (PCount n)
  | ReplicaRead size => x <-- tfs_pty_replica_read replica size true ;; kret (PText x)
  | PtyNumber => x <-- tfs_ptmx_ioctl master TIOCGPTN true ;; kret (PNumber (snd x))
  end.
Fixpoint do_ptys (master replica : Z) (ops : list pty_op) : M console (list pty_result) :=
  match ops with [] => kret [] | op :: l => r <-- do_pty master replica op ;; rs <-- do_ptys master replica l ;; kret (r :: rs) end.

Definition pty_op_ok (op : pty_op) : Prop :=
  match op with
  | MasterWrite buf => 0 < zlen buf < 2 ^ 31
  | ReplicaWrite buf => 0 < zlen buf < 2 ^ 31 /\ Forall (Z.le 0) buf
  | MasterRead size | ReplicaRead size => 0 < size < 2 ^ 31
  | PtyNumber => True
  end.

(** Is there a reader at the master's end, the two lists of characters, and the
    text on the screen of the first terminal. *)
Record channel : Type := Channel { ch_present : bool; ch_in : list Z; ch_out : list Z; ch_text : text }.

Section channel.
Context (master replica pair e id rows cols : Z) (focus : bool).
Context (Hm : master <> 0) (Hs : replica <> 0) (Hpair : pair <> 0) (He : e <> 0).

Definition result_of (r : tty_result) : pty_result :=
  match r with
  | RCount n => PCount n
  | RText x => PText ((fun bs => (zlen bs, bs)) <$> x)
  | RChar _ => PCount 0
  end.
Definition queue_op (op : tty_op) (ch : channel) : pty_result * channel :=
  let '(r, (qi, qo)) := spec_op op (ch_in ch, ch_out ch) in (result_of r, Channel (ch_present ch) qi qo (ch_text ch)).

(** What the replica writes: to the master when there is one, or all of it
    nowhere; and to the screen when the pair has the focus. *)
Definition spec_pty (op : pty_op) (ch : channel) : pty_result * channel :=
  match op with
  | MasterWrite buf => queue_op (WriteIn buf) ch
  | MasterRead size => queue_op (ReadOut size) ch
  | ReplicaRead size => queue_op (ReadIn size) ch
  | ReplicaWrite buf =>
      let x := if ch_present ch then take (Z.to_nat (CAPACITY - zlen (ch_out ch))) buf else buf in
      (PCount (zlen x), Channel (ch_present ch) (ch_in ch) (if ch_present ch then ch_out ch ++ x else ch_out ch)
         (if focus then foldl (spec_putc rows cols) (ch_text ch) x else ch_text ch))
  | PtyNumber => (PNumber (Some id), Channel true (ch_in ch) (ch_out ch) (ch_text ch))
  end.
Fixpoint spec_ptys (ops : list pty_op) (ch : channel) : list pty_result * channel :=
  match ops with [] => ([], ch) | op :: l => let '(r, ch) := spec_pty op ch in let '(rs, ch) := spec_ptys l ch in (r :: rs, ch) end.

(** The console with an open pair. *)
Record chan_is (c : console) (V : list view) (ch : channel) : Prop := {
  ci_console : console_ok c V;
  ci_view : exists v, V !! 0%nat = Some v /\ v_rows v = rows /\ v_cols v = cols /\ v_text v = ch_text ch;
  ci_pty : pty_is c V e (ch_in ch) (ch_out ch);
  ci_master : c_private c !! master = Some pair;
  ci_replica : c_private c !! replica = Some pair;
  ci_pair : exists p, c_pairs c !! pair = Some p /\ replica_tty p = e /\ p_id p = id /\ master_present p = ch_present ch;
  ci_focus : g_active_pty_engine (c_pty c) = if focus then e else 0
}.

Lemma wp_chan_device c V ch node (Q : option pty_pair -> console -> Prop) : chan_is c V ch -> c_private c !! node = Some pair -> node <> 0 ->
  (forall p, replica_tty p = e -> master_present p = ch_present ch -> Q (Some p) c) -> wp (pty_device node) Q c.
Proof using Hpair He.
  intros I Hn Hne HQ. destruct (ci_pair _ _ _ I) as (p & Hp & Ee & Ei & Epr).
  apply (wp_pty_device c node e); [split; [done|]; by exists pair, p|done|]. intros pair' p' Hn' Hp' _. assert (p' = p) as -> by congruence. by apply HQ.
Qed.

(** An operation on the queues alone. *)
Lemma wp_chan_queues {A} c V ch (m : M tty_device A) (f : A -> tty_result) op (Q : A -> console -> Prop) : chan_is c V ch -> op_ok op ->
  do_op op = (x <-- m ;; kret (f x)) ->
  (forall x d', result_of (f x) = fst (queue_op op ch) -> chan_is (set_dev e d' c) V (snd (queue_op op ch)) -> Q x (set_dev e d' c)) ->
  wp (on_queues e m) Q c.
Proof using Type.
  intros I Hok Em HQ. eapply (wp_pty_queues _ _ _ (ch_in ch, ch_out ch)); [apply I|apply I|exact Hok|exact Em|].
  intros x d' Ex C' P'. unfold queue_op in HQ. destruct (spec_op op (ch_in ch, ch_out ch)) as [r [qi qo]]. cbn [fst snd] in *.
  apply HQ; [by rewrite Ex|]. destruct I. by constructor.
Qed.

(** Text on the first screen: its view changes, and the channel's text. *)
Definition shown_view (l : list Z) (v : view) : view := set_view (v_in v) (v_out v) (written_text v l) v.

Lemma wp_show c V v l (Q : unit -> console -> Prop) : console_ok c V -> V !! 0%nat = Some v -> Forall (Z.le 0) l ->
  (forall d', dev_is (shown_view l v) d' -> Q tt (set_dev (v_tty v) d' c)) ->
  wp (tty0 <-- tty0_device ;; if tty0 =? 0 then kret tt else on_screen_of tty0 (putc_all tty_putc_backbuffer_X l ;;; kmodify (set_refresh true))) Q c.
Proof using Type.
  intros C Hv Hl HQ. pose proof (co_terms _ _ C _ _ Hv) as T. destruct (ti_dev _ _ _ T) as (d & Hd & [Tq Td Ho]).
  wp_steps. eapply (wp_tty0 _ _ C); [exact Hv|]. rewrite (proj2 (Z.eqb_neq _ _)) by apply (ti_tty _ _ _ T).
  apply (wp_on_screen _ _ _ _ _ Hd). wp_steps. eapply (wp_putc_all (v_rows v) (v_cols v)); [|exact Td|exact Hl|].
  { intros s t ch' Q'. by apply wp_tty_putc_X. }
  intros s' D'. wp_steps. apply HQ. by constructor; [|apply displays_refresh|].
Qed.

Lemma chan_show c V ch l v d' : chan_is c V ch -> V !! 0%nat = Some v -> dev_is (shown_view l v) d' ->
  chan_is (set_dev (v_tty v) d' c) (<[0%nat := shown_view l v]> V) (Channel (ch_present ch) (ch_in ch) (ch_out ch) (foldl (spec_putc rows cols) (ch_text ch) l)).
Proof using Type.
  intros I Hv D'. destruct I as [C (v2 & Hv2 & Er & Ec & Et) P I4 I5 I6 I7]. assert (v2 = v) as -> by congruence.
  assert (Hnv : v_tty v ∈ v_tty <$> V) by (apply list_elem_of_fmap; exists v; split; [done|by eapply list_elem_of_lookup_2]).
  constructor; try done.
  - by eapply console_set_dev.
  - exists (shown_view l v). split; [apply list_lookup_insert_eq; by eapply lookup_lt_Some|]. cbn. unfold written_text. by rewrite Er, Ec, Et.
  - destruct P as [Hne Hnin (de & Hde & Te & Ue)]. constructor; [done|by rewrite (view_ttys V 0%nat v)|].
    exists de. split; [|done]. cbn. rewrite lookup_insert_ne; [done|]. intros E. apply Hnin. by rewrite <- E.
Qed.

Lemma lock_dev_back d : user_lock (td_q d) = false -> lock_dev false (lock_dev true d) = d.
Proof using Type. destruct d as [[]]. cbn. by intros ->. Qed.

(** The end of the replica's write: the screen, when the pair has the focus. *)
Lemma wp_focus_show c V ch l (Q : unit -> console -> Prop) : chan_is c V ch -> Forall (Z.le 0) l ->
  (forall c' V', chan_is c' V' (Channel (ch_present ch) (ch_in ch) (ch_out ch) (if focus then foldl (spec_putc rows cols) (ch_text ch) l else ch_text ch)) -> Q tt c') ->
  wp (tty_tmp <-- pty_vfs_get_active_engine ;;
    (if tty_tmp =? e then tty0 <-- tty0_device ;; if tty0 =? 0 then kret tt else on_screen_of tty0 (putc_all tty_putc_backbuffer_X l ;;; kmodify (set_refresh true))
     else kret tt) ;;; pty_vfs_get_active_engine_close tty_tmp) Q c.
Proof using He.
  intros I Hl HQ. pose proof (ci_console _ _ _ I) as C. pose proof (ci_pty _ _ _ I) as [_ Hnin (d & Hd & T & Hu)].
  pose proof (co_locks _ _ C) as (_ & _ & Hk). pose proof (ci_focus _ _ _ I) as Hf. wp_steps. destruct focus.
  - destruct (ci_view _ _ _ I) as (v & Hv & _). eapply wp_engine; [done..|]. rewrite Z.eqb_refl. cbv iota.
    assert (C2 : console_ok (set_dev e (lock_dev true d) c) V) by (by apply console_set_other).
    apply wp_bind. eapply wp_show; [exact C2|exact Hv|done|]. intros d' D'.
    assert (Hev : e <> v_tty v) by (intros ->; apply Hnin, list_elem_of_fmap; exists v; split; [done|by eapply list_elem_of_lookup_2]).
    rewrite <- set_dev_comm by done. eapply wp_engine_close; [exact Hk|done|apply set_dev_lookup|].
    rewrite set_dev_twice, lock_dev_back by done. rewrite (set_tdev_same e d) by (cbn; by rewrite lookup_insert_ne). apply (HQ _ (<[0%nat := shown_view l v]> V)). by apply chan_show.
  - eapply wp_engine_none; [done..|]. rewrite (proj2 (Z.eqb_neq 0 e)) by done. wp_steps. unfold pty_vfs_get_active_engine_close. wp_steps.
    eapply HQ. by destruct ch.
Qed.

Lemma wp_replica_write c V ch buf (Q : Z -> console -> Prop) : chan_is c V ch -> pty_op_ok (ReplicaWrite buf) ->
  (forall n c' V', PCount n = fst (spec_pty (ReplicaWrite buf) ch) -> chan_is c' V' (snd (spec_pty (ReplicaWrite buf) ch)) -> Q n c') ->
  wp (tfs_pty_replica_write replica (Some buf)) Q c.
Proof using He Hpair Hs.
  intros I [Hb Hc] HQ. unfold tfs_pty_replica_write. cbv zeta. rewrite (u32_small (zlen buf)), !(proj2 (Z.eqb_neq _ 0)) by lia. cbn [orb]. wp_steps.
  eapply wp_chan_device; [exact I|exact (ci_replica _ _ _ I)|done|]. intros p Ee Ep. rewrite Ee, Ep. cbn [spec_pty] in HQ.
  set (x := if ch_present ch then take (Z.to_nat (CAPACITY - zlen (ch_out ch))) buf else buf) in *.
  set (ch1 := Channel (ch_present ch) (ch_in ch) (if ch_present ch then ch_out ch ++ x else ch_out ch) (ch_text ch)).
  assert (Hx : Forall (Z.le 0) x) by (unfold x; case_match; [by apply Forall_take|done]).
  assert (Ex : take (Z.to_nat (zlen x)) buf = x).
  { unfold x, zlen. rewrite Nat2Z.id. destruct (ch_present ch); [|by apply take_ge]. rewrite length_take.
    destruct (Nat.min_spec (Z.to_nat (CAPACITY - Z.of_nat (length (ch_out ch)))) (length buf)) as [[? ->]|[? ->]]; [done|]. by rewrite !take_ge by lia. }
  apply wp_bind. eapply (wp_mono _ (fun n c1 => n = zlen x /\ chan_is c1 V ch1)).
  { unfold x, ch1 in *. destruct (ch_present ch) eqn:Epr.
    - eapply (wp_chan_queues c V ch _ RCount (WriteOut buf)); [exact I|exact Hb|done|]. unfold queue_op. cbn [spec_op fst snd result_of].
      intros n d' [= ->] I1. rewrite Epr in I1. done.
    - apply wp_ret. rewrite s32_small by lia. split; [done|]. destruct I as [? ? ? ? ? I6 ?]; constructor; try done. by rewrite Epr in I6. }
  intros n c1 [-> I1]. rewrite Ex. pose proof (wp_focus_show c1 V ch1 x (fun _ c' => Q (zlen x) c') I1 Hx) as Hshow.
  assert (Hfin : wp (tty_tmp <-- pty_vfs_get_active_engine ;; (if tty_tmp =? e then tty0 <-- tty0_device ;; if tty0 =? 0 then kret tt else
    on_screen_of tty0 (putc_all tty_putc_backbuffer_X x ;;; kmodify (set_refresh true)) else kret tt) ;;; pty_vfs_get_active_engine_close tty_tmp) (fun _ c' => Q (zlen x) c') c1).
  { apply Hshow. intros c' V' I'. by eapply HQ. }
  apply wp_bind. apply wp_bind_inv in Hfin. eapply wp_mono; [exact Hfin|]. intros t c2 H2. apply wp_bind. apply wp_bind_inv in H2. eapply wp_mono; [exact H2|].
  intros [] c3 H3. apply wp_bind. eapply wp_mono; [exact H3|]. intros [] c4 H4. by apply wp_ret.
Qed.

Lemma wp_do_pty op c V ch (Q : pty_result -> console -> Prop) : pty_op_ok op -> chan_is c V ch ->
  (forall c' V', chan_is c' V' (snd (spec_pty op ch)) -> Q (fst (spec_pty op ch)) c') -> wp (do_pty master replica op) Q c.
Proof using Hm Hs Hpair He.
  intros Hok I HQ. destruct op as [buf|size|buf|size|]; cbn [do_pty pty_op_ok spec_pty] in *; wp_steps.
  - unfold tfs_pty_master_write. rewrite (u32_small (zlen buf)), !(proj2 (Z.eqb_neq _ 0)) by lia. cbn [orb]. wp_steps.
    eapply wp_chan_device; [exact I|exact (ci_master _ _ _ I)|done|]. intros p -> _.
    eapply (wp_chan_queues c V ch _ RCount (WriteIn buf)); [exact I|exact Hok|done|]. intros n d' E I'. wp_steps. cbn [result_of] in E. rewrite E. by eapply HQ.
  - unfold tfs_pty_master_read. rewrite !(proj2 (Z.eqb_neq _ 0)) by lia. cbn [orb negb]. wp_steps.
    eapply wp_chan_device; [exact I|exact (ci_master _ _ _ I)|done|]. intros p -> _. wp_steps.
    eapply (wp_chan_queues c V ch _ RText (ReadOut size)); [exact I|exact Hok|done|]. intros n d' E I'. wp_steps. cbn [result_of] in E. rewrite E. by eapply HQ.
  - eapply wp_replica_write; [exact I|exact Hok|]. intros n c' V' E I'. wp_steps. rewrite E. by eapply HQ.
  - unfold tfs_pty_replica_read. rewrite !(proj2 (Z.eqb_neq _ 0)) by lia. cbn [orb negb]. wp_steps.
    eapply wp_chan_device; [exact I|exact (ci_replica _ _ _ I)|done|]. intros p -> _. wp_steps.
    eapply (wp_chan_queues c V ch _ RText (ReadIn size)); [exact I|exact Hok|done|]. intros n d' E I'. wp_steps. cbn [result_of] in E. rewrite E. by eapply HQ.
  - destruct (ci_pair _ _ _ I) as (p & Hp & Ee & Ei & Epr). unfold tfs_ptmx_ioctl, private_data, on_pair, pair_at, put_pair.
    rewrite (proj2 (Z.eqb_neq master 0)) by done. wp_steps. rewrite (ci_master _ _ _ I). cbn [from_option Datatypes.id]. rewrite (proj2 (Z.eqb_neq pair 0)) by done.
    wp_steps. eapply wp_opt; [exact Hp|]. cbn [Z.eqb TIOCGPTN Pos.eqb negb]. wp_steps. eapply wp_opt; [exact Hp|]. wp_steps. cbn [snd]. rewrite Ei.
    apply (HQ _ V). destruct I as [C I2 P I4 I5 _ I7]. constructor; try done.
    + by eapply console_same; [exact C|done..|apply (co_locks _ _ C)].
    + by destruct P; constructor.
    + exists (set_present p). cbn. by rewrite lookup_insert_eq.
Qed.
End channel.

(** C21: An open pair is two bounded streams.  Through any sequence of operations
    by the programs at its ends, what the master writes is what the replica
    reads line by line, what the replica writes is what the master reads once
    it has asked for the number, and, with the focus on the pair, also what the
    first screen shows; the echo of the input joins the output.  No operation
    stops or keeps a lock. *)
Theorem pty_refines_channel master replica pair e id rows cols focus ops : master <> 0 -> replica <> 0 -> pair <> 0 -> e <> 0 ->
  Forall pty_op_ok ops -> forall c V ch, chan_is master replica pair e id rows cols focus c V ch ->
  wp (do_ptys master replica ops) (fun rs c' => rs = fst (spec_ptys id rows cols focus ops ch) /\
    exists V', chan_is master replica pair e id rows cols focus c' V' (snd (spec_ptys id rows cols focus ops ch))) c.
Proof.
  intros Hm Hs Hp He. induction ops as [|op ops IH]; intros Hok c V ch I; [split; [done|by exists V]|]. inversion_clear Hok. cbn [do_ptys spec_ptys]. wp_steps.
  eapply (wp_do_pty master replica pair e id rows cols focus); [done..|exact I|]. intros c1 V1 I1. wp_steps. destruct (spec_pty id rows cols focus op ch) as [r ch1]. cbn [fst snd] in *.
  eapply wp_mono; [by eapply IH|]. intros rs c2 [-> I2]. wp_steps. by destruct (spec_ptys id rows cols focus ops ch1).
Qed.
