(* ===== verification/ConsoleCheck.v ===== *)
(** * A console that has started

    The boot of the terminals on a small display, the witnesses of the theorems
    on the console, and what happens outside their conditions. *)

From Stdlib Require Import ZArith Lia.
From stdpp Require Import base tactics list gmap.
From S2P Require Import Prelude Bytes Ramfs Tty TtyThms Font Screen ScreenThms ScreenCheck Kbd Console ConsoleThms PtyThms.

(** ** The boot *)

Definition dev_dir : vfs_node := VNode [100; 101; 118] VFS_DIRECTORY 0 1 0 0 0 RamfsOps 0 PNull 0.
Definition cold : console :=
  Console (Vfs {[100 := dev_dir]} 1024 200 [] false 100) ∅ ∅ ∅ (TtyVars [] 0 false) (TfsVars (replicate 4 0) 0 1000 false)
    (PtyVars 0 2000 0 0 false) kbd0 (replicate 600 1).

(** The calls of [kernel_main]; then a program opens a pair, the shell opens the
    replica, and with [focus] asks for the keyboard.  The addresses of the two
    nodes are the results. *)
Definition boot : M console unit := tty_init ;;; tty_vfs_init (tiny 32) memory_of 100 ;;; pty_vfs_init 100.
Definition open_pair (focus : bool) : M console (Z * Z) :=
  ptmx <-- in_vfs (ramfs_finddir 100 [112; 116; 109; 120]) ;;
  _ <-- tfs_ptmx_open ptmx ;;
  c <-- kget ;;
  pts <-- in_vfs (ramfs_finddir (g_pts_root_node (c_pty c)) [48]) ;;
  _ <-- tfs_pty_replica_open pts ;;
  (if focus then _ <-- sys_active_tty pts ;; kret tt else kret tt) ;;;
  kret (ptmx, pts).
Definition run_from {A} (m : M console A) (c : console) : console := match m c with Ok (_, c') => c' | Stop _ => c end.
Definition started : console := Eval vm_compute in run_from (boot ;;; open_pair true) cold.

Lemma boot_runs : (boot ;;; open_pair true) cold = Ok ((1312, 1392), started).
Proof. vm_compute. reflexivity. Qed.

Definition first_view (i : Z) : view :=
  View (1024 + 64 * i) (1072 + 64 * i) (if i <? 2 then 6 else 2) 2 [] [] blank_text.
Definition views : list view := first_view <$> [0; 1; 2; 3].

Lemma small_displays pages : pages = 1 \/ pages = 3 -> displays (2 * pages) 2 (tty_init_video_context (tiny 32) memory_of pages) blank_text.
Proof.
  intros [-> | ->].
  - apply (init_displays (tiny 32) memory_of 1 (replicate 512 7)); vm_compute; intuition congruence.
  - apply (init_displays (tiny 32) memory_of 3 (replicate 1536 7)); vm_compute; intuition congruence.
Qed.

Definition fresh_dev (pages : Z) : tdev := TDev new_tty (tty_init_video_context (tiny 32) memory_of pages).
Lemma started_devs : Forall (fun i => c_devs started !! (1072 + 64 * i) = Some (fresh_dev (if i <? 2 then 3 else 1))) [0; 1; 2; 3].
Proof. repeat (apply Forall_cons_2; [vm_compute; reflexivity|]). apply Forall_nil_2. Qed.
Lemma fresh_is i : In i [0; 1; 2; 3] -> dev_is (first_view i) (fresh_dev (if i <? 2 then 3 else 1)).
Proof.
  intros Hi. constructor; [exact cooked_new| |apply Forall_nil_2].
  cbn in Hi. destruct Hi as [<-|[<-|[<-|[<-|[]]]]]; cbn [first_view v_rows v_cols v_text Z.ltb Z.compare Pos.compare Pos.compare_cont];
    [apply (small_displays 3)|apply (small_displays 3)|apply (small_displays 1)|apply (small_displays 1)]; auto.
Qed.

Lemma started_ok : console_ok started views.
Proof.
  constructor; [reflexivity|reflexivity|reflexivity| | |vm_compute; intuition congruence|done].
  { apply (bool_decide_unpack _). vm_compute. done. }
  intros i v Hv. assert (Hi : exists j, In j [0; 1; 2; 3] /\ v = first_view j /\ j = Z.of_nat i).
  { do 4 (destruct i as [|i]; [injection Hv as <-; eexists; split; [|split; reflexivity]; cbn; tauto|]). done. }
  destruct Hi as (j & Hj & -> & ->).
  assert (Hd : c_devs started !! v_tty (first_view (Z.of_nat i)) = Some (fresh_dev (if Z.of_nat i <? 2 then 3 else 1))).
  { apply (proj1 (Forall_forall _ _) started_devs). by apply list_elem_of_In. }
  constructor; [cbn; lia| |cbn; lia| |eexists; split; [exact Hd|by apply fresh_is]].
  - cbn [In] in Hj. destruct Hj as [<-|[<-|[<-|[<-|[]]]]]; (eexists; split; [vm_compute; reflexivity|reflexivity]).
  - cbn [In] in Hj. destruct Hj as [<-|[<-|[<-|[<-|[]]]]]; vm_compute; reflexivity.
Qed.

(** The pair: its device is at 1376, its block at 1360. *)
Lemma started_pty : pty_is started views 1376 [] [].
Proof.
  constructor; [done|apply (bool_decide_unpack _); vm_compute; done|].
  exists (TDev new_tty no_screen). split_and!; [vm_compute; reflexivity|exact cooked_new|done].
Qed.

(** ** Witnesses *)

(** A program has printed ["hi"] on the first terminal. *)
Definition printed : console := Eval vm_compute in run_from (tfs_tty_write 1024 (Some [104; 105])) started.
Definition printed_views : list view := <[0%nat := set_view [] [104; 105] blank_text (first_view 0)]> views.

Lemma printed_runs : tfs_tty_write 1024 (Some [104; 105]) started = Ok (2, printed).
Proof. vm_compute. reflexivity. Qed.
Lemma printed_ok : console_ok printed printed_views.
Proof.
  pose proof (wp_do_op (WriteOut [104; 105]) new_tty ([], []) (fun _ t => cooked_tty t ([], [104; 105]))) as H.
  specialize (H ltac:(vm_compute; intuition congruence) cooked_new (fun t T _ => T)). apply wp_ok in H as (r & q & E & T).
  assert (Ep : printed = set_dev 1072 (TDev q (tty_init_video_context (tiny 32) memory_of 3)) started).
  { vm_compute in E. injection E as _ <-. vm_compute. reflexivity. }
  rewrite Ep. apply (console_set_dev started views 0 (first_view 0)); [exact started_ok|done..|].
  constructor; [exact T|exact (small_displays 3 (or_intror eq_refl))|]. repeat constructor; lia.
Qed.

Lemma emulator_turn_serves_witness :
  wp (emulator_turn 0) (fun r c' =>
    r = (1024, true) /\ console_ok c' (served <$> printed_views) /\ tracked c' (served (set_view [] [104; 105] blank_text (first_view 0))) 1024 /\
    exists d, c_devs c' !! 1072 = Some d /\ on_display (td_scr d) (c_vram c') /\
      displays 6 2 (td_scr d) (foldl (spec_putc 6 2) blank_text [104; 105])) printed.
Proof.
  apply (emulator_turn_serves printed printed_views 0 (set_view [] [104; 105] blank_text (first_view 0))).
  - exact printed_ok.
  - reflexivity.
  - intros d Hd. vm_compute in Hd. injection Hd as <-. split; [vm_compute; congruence|discriminate].
Defined.

(** ["ls"] and a newline, read by the shell. *)
Lemma typed_line_read_witness :
  wp (bridge_bytes [38; 166; 31; 159; 28; 156] ;;; tfs_pty_replica_read 1392 64 true) (fun r c' =>
    r = Some (3, [108; 115; 10]) /\ idle (c_kbd c') /\ exists V' qo', console_ok c' V' /\ pty_is c' V' 1376 [] qo') started.
Proof.
  apply (typed_line_read started views (first_view 0) 1376 [] 1392 [108; 115]);
    [exact started_ok|reflexivity|reflexivity|exact started_pty| |exact kbd0_idle|reflexivity|reflexivity| |vm_compute; reflexivity|vm_compute; intuition congruence].
  - split; [lia|]. exists 1360. eexists. split; [lia|]. split; [vm_compute; reflexivity|]. split; [vm_compute; reflexivity|reflexivity].
  - apply (bool_decide_unpack _). vm_compute. exact I.
Defined.

(** A session over the network, with the focus on the pair. *)
Definition chat : list pty_op := [ReplicaWrite [36]; PtyNumber; MasterWrite [108; 13]; ReplicaRead 64; ReplicaWrite [97; 10]; MasterRead 64; ReplicaRead 64].

Lemma started_channel : chan_is 1312 1392 1360 1376 0 6 2 true started views (Channel false [] [] blank_text).
Proof.
  constructor; [exact started_ok|by exists (first_view 0)|exact started_pty|vm_compute; reflexivity|vm_compute; reflexivity| |reflexivity].
  eexists. split; [vm_compute; reflexivity|done].
Qed.

Lemma chat_ok : Forall pty_op_ok chat.
Proof. repeat constructor; unfold zlen; cbn; lia. Qed.

Lemma pty_refines_channel_witness :
  let spec := spec_ptys 0 6 2 true chat (Channel false [] [] blank_text) in
  wp (do_ptys 1312 1392 chat) (fun rs c' => rs = fst spec /\ exists V', chan_is 1312 1392 1360 1376 0 6 2 true c' V' (snd spec)) started /\
  fst spec = [PCount 1; PNumber (Some 0); PCount 2; PText (Some (2, [108; 10])); PCount 2; PText (Some (4, [108; 10; 97; 10])); PText None] /\
  cells (ch_text (snd spec)) 0 0 = 36 /\ cells (ch_text (snd spec)) 0 1 = 97 /\ t_row (ch_text (snd spec)) = 2.
Proof.
  split; [|vm_compute; by split_and!]. 
  exact (pty_refines_channel 1312 1392 1360 1376 0 6 2 true chat ltac:(lia) ltac:(lia) ltac:(lia) ltac:(lia) chat_ok started views (Channel false [] [] blank_text) started_channel).
Defined.

(** ** Two processors on the pseudo-terminal with the focus *)

(** The lock operations of [pty_vfs_get_active_engine] and of
    [pty_vfs_get_active_engine_close], around the work of their callers (the
    bridge, and the replica's write). *)
Inductive pty_lock_name : Type := GlobalLock | UserLock.
#[global] Instance pty_lock_name_eq_dec : EqDecision pty_lock_name.
Proof. solve_decision. Defined.
Inductive lock_op : Type := Acquire (l : pty_lock_name) | Release (l : pty_lock_name).

Definition get_active_engine_locks : list lock_op := [Acquire GlobalLock; Acquire UserLock; Release GlobalLock].
Definition get_active_engine_close_locks : list lock_op := [Acquire GlobalLock; Release UserLock; Release GlobalLock].
Definition engine_user : list lock_op := get_active_engine_locks ++ get_active_engine_close_locks.

(** The locks that are held and what each processor still has to do. *)
Record two_cpus : Type := TwoCpus { held : list pty_lock_name; todo : list (list lock_op) }.

(** A step of processor [i]; none when it spins. *)
Definition cpu_step (i : nat) (s : two_cpus) : option two_cpus :=
  match todo s !! i with
  | Some (Acquire l :: rest) => if decide (l ∈ held s) then None else Some (TwoCpus (l :: held s) (<[i := rest]> (todo s)))
  | Some (Release l :: rest) => Some (TwoCpus (filter (fun l' => l' <> l) (held s)) (<[i := rest]> (todo s)))
  | _ => None
  end.
Fixpoint cpu_steps (schedule : list nat) (s : two_cpus) : option two_cpus :=
  match schedule with [] => Some s | i :: l => match cpu_step i s with Some s' => cpu_steps l s' | None => None end end.

Definition engine_users : two_cpus := TwoCpus [] [engine_user; engine_user].

(** The second processor asks for the focus while the first one works with it:
    it spins on the device's lock with the global lock in its hands, which the
    first one needs to give the device back.  Neither can step again. *)
Lemma engine_locks_deadlock : exists schedule s, cpu_steps schedule engine_users = Some s /\
  cpu_step 0 s = None /\ cpu_step 1 s = None /\ todo s = [get_active_engine_close_locks; Acquire UserLock :: [Release GlobalLock] ++ get_active_engine_close_locks].
Proof. exists [0; 0; 0; 1]%nat. eexists. by vm_compute. Qed.

(** ** Outside the theorems' conditions *)

Definition result_of_run {A} (m : M console A) : option A := match m started with Ok (a, _) => Some a | Stop _ => None end.

(** When both ends are closed the node of the replica stays in the directory,
    because [ramfs_unlink] refuses a node that is no longer a file, and its
    [private_data] is the block that was freed: the next [open] uses it. *)
Lemma closed_pair_dangles :
  result_of_run (a <-- tfs_pty_close 1392 ;; b <-- tfs_pty_close 1312 ;; n <-- in_vfs (ramfs_finddir 1280 [48]) ;; x <-- private_data 1392 ;; c <-- kget ;; kret (a, b, n, x, c_pairs c !! 1360)) =
    Some (0, 0, 1392, 1360, None) /\
  (_ <-- tfs_pty_close 1392 ;; _ <-- tfs_pty_close 1312 ;; tfs_pty_replica_open 1392) started = Stop NullDeref.
Proof. vm_compute. split; reflexivity. Qed.

(** All the masters are one node: after a second [open] what the first master
    writes goes to the second pair. *)
Lemma second_master_takes_over :
  result_of_run (_ <-- tfs_ptmx_open 1312 ;; n <-- tfs_pty_master_write 1312 (Some [120; 10]) ;; r <-- tfs_pty_replica_read 1392 8 true ;; kret (n, r)) = Some (2, None).
Proof. vm_compute. reflexivity. Qed.

(** A program whose input is a terminal asks for the keyboard: the terminal's
    block is taken for a pair. *)
Lemma active_tty_of_terminal : sys_active_tty 1024 started = Stop NullDeref.
Proof. vm_compute. reflexivity. Qed.

(** A node whose device could not be allocated: [open] keeps the lock of the
    driver, and the next operation on a terminal does not end. *)
Lemma open_keeps_lock :
  (set_private_data 1024 0 ;;; _ <-- tfs_tty_open 1024 ;; tty_vfs_get_active_node) started = Stop Deadlock.
Proof. vm_compute. reflexivity. Qed.

(** The echo of the keyboard passes through the input queue of the first
    terminal, which nobody reads: once it is full there is no echo. *)
Lemma echo_view_full v ch : zlen (v_in v) = CAPACITY -> v_out v = [] -> v_text (echo_view ch v) = v_text v.
Proof.
  intros Hl Ho. cbn. unfold stored. rewrite Hl, Ho. change (CAPACITY - CAPACITY) with 0. cbn [take]. unfold capped. cbn. done.
Qed.
