(* ===== verification/Elf.v ===== *)
(** * Loading of programs

    [elf_parse_and_map] of [kernel/kernel/sched/process.c] over the virtual
    memory manager of [Vmm]: the pages of the segments, and the first page of
    the stack with the arguments.  Physical memory is words; a page that the
    loader fills is seen as its 4096 bytes. *)

From Stdlib Require Import ZArith Lia.
From stdpp Require Import base tactics list.
From S2P Require Import Prelude Bitmap Paging Pmm Vmm Pages UserMem Bytes.

Definition PT_LOAD : Z := 1.
Definition USER_STACK_VIRTUAL_TOP : Z := 0x00007FFFFFFFF000.
Definition USER_STACK_INITIAL_SIZE : Z := 0x1000.
Definition EHDR_SIZE : Z := 64.
Definition PHDR_SIZE : Z := 56.
Definition PAGE_MASK : Z := u64 (Z.lnot 0xFFF).

(** The fields of the two headers that are read. *)
Record Elf64_Ehdr : Type := Ehdr { e_ident : list Z; e_machine : Z; e_entry : Z; e_phoff : Z; e_phnum : Z }.
Record Elf64_Phdr : Type := Phdr { p_type : Z; p_offset : Z; p_vaddr : Z; p_filesz : Z; p_memsz : Z }.

Definition read_ehdr {S} (buf : list Z) : M S Elf64_Ehdr :=
  ident <-- bytes_out buf 0 16 ;;
  machine <-- ld16 buf 18 ;;
  entry <-- ld64 buf 24 ;;
  phoff <-- ld64 buf 32 ;;
  phnum <-- ld16 buf 56 ;;
  kret (Ehdr ident machine entry phoff phnum).
Definition read_phdr {S} (buf : list Z) (off : Z) : M S Elf64_Phdr :=
  type <-- ld32 buf off ;;
  offset <-- ld64 buf (off + 8) ;;
  vaddr <-- ld64 buf (off + 16) ;;
  filesz <-- ld64 buf (off + 32) ;;
  memsz <-- ld64 buf (off + 40) ;;
  kret (Phdr type offset vaddr filesz memsz).

(** The fields of the control block the loader sets. *)
Record proc_image : Type := Image { im_cr3 : Z; code_base : Z; heap_start : Z; im_heap_end : Z; stack_top : Z; im_stack_limit : Z }.

Definition set_stack_top (a : Z) (p : proc_image) : proc_image :=
  Image (im_cr3 p) (code_base p) (heap_start p) (im_heap_end p) a (im_stack_limit p).
(** The process with the layout of a program that starts at [entry]. *)
Definition set_layout (entry : Z) (p : proc_image) : proc_image :=
  Image (im_cr3 p) entry USER_HEAP_VIRTUAL_BASE USER_HEAP_VIRTUAL_BASE USER_STACK_VIRTUAL_TOP (USER_STACK_VIRTUAL_TOP - USER_STACK_INITIAL_SIZE).

Record loader : Type := Loader { ld_vmm : vmm; ld_proc : proc_image }.
Definition set_ld_vmm (v : vmm) (s : loader) : loader := Loader v (ld_proc s).
Definition set_ld_proc (p : proc_image) (s : loader) : loader := Loader (ld_vmm s) p.
Definition ld_on_vmm {A} (m : M vmm A) : M loader A := zoom ld_vmm set_ld_vmm m.

(** ** Bytes of a frame *)

Definition byte_of (w : Z -> Z) (k : Z) : Z := (w (k / 8) / 2 ^ (8 * (k mod 8))) mod 256.
Definition page_bytes (m : phys) (f : Z) : list Z := (fun k => byte_of (m f) (Z.of_nat k)) <$> seq 0 4096.
Definition pwrite (f : Z) (bs : list Z) (m : phys) : phys :=
  fun f' i => if (f' =? f) && (0 <=? i) && (i <? 512) then get64 bs (Z.to_nat (8 * i)) else m f' i.

(** An operation on the bytes behind a pointer. *)
Definition on_page {A} (p : tptr) (m : M (list Z) A) : M vmm A :=
  f <-- deref p ;;
  s <-- kget ;;
  match m (page_bytes (v_mem s) f) with
  | Ok (a, bs) => v_write (pwrite f bs) ;;; kret a
  | Stop e => kstop e
  end.

Definition fill_bytes (off n b : Z) : M (list Z) unit := pg <-- kget ;; pg' <-- bytes_in pg off (replicate (Z.to_nat n) b) ;; kput pg'.
Definition copy_bytes (off : Z) (src : list Z) : M (list Z) unit := pg <-- kget ;; pg' <-- bytes_in pg off src ;; kput pg'.

(** ** Segments *)

(** The bytes of one page of a segment, into the frame. *)
Definition fill_segment_page (buf : list Z) (ph : Elf64_Phdr) (v_addr : Z) : M (list Z) unit :=
  let file_end := u64 (p_vaddr ph + p_filesz ph) in
  let page_end := u64 (v_addr + PAGE_SIZE) in
  if (p_vaddr ph <? page_end) && (v_addr <? file_end) then
    let page_offset := if v_addr <? p_vaddr ph then u64 (p_vaddr ph - v_addr) else 0 in
    (if v_addr <? p_vaddr ph then fill_bytes 0 page_offset 0 else kret tt) ;;;
    let file_offset := if v_addr <? p_vaddr ph then u64 (p_offset ph + page_offset) else u64 (p_offset ph + u64 (v_addr - p_vaddr ph)) in
    let copy_size := if file_end <? page_end then u64 (u64 (file_end - v_addr) - page_offset) else u64 (PAGE_SIZE - page_offset) in
    (if file_end <? page_end then
       let bss_offset := u64 (page_offset + copy_size) in fill_bytes bss_offset (u64 (PAGE_SIZE - bss_offset)) 0
     else kret tt) ;;;
    src <-- bytes_out buf file_offset copy_size ;;
    copy_bytes page_offset src
  else fill_bytes 0 PAGE_SIZE 0.

(** A page of the program: a frame, its bytes, its place in the address space.
    [inr]: memory is out. *)
Definition load_page (cr3 v_addr : Z) (content : M (list Z) unit) : M vmm (unit + unit) :=
  segment_phys <-- v_on_pmm pmm_alloc_page ;;
  if segment_phys =? 0 then kret (inr tt) else
  scratch_ptr <-- vmm_scratch_map_process segment_phys ;;
  on_page scratch_ptr content ;;;
  target_pml4 <-- vmm_scratch_map_process cr3 ;;
  vmm_map_page target_pml4 v_addr segment_phys PAGE_USER_FLAGS ;;;
  kret (inl tt).

Definition load_segment (buf : list Z) (cr3 : Z) (ph : Elf64_Phdr) : M vmm (unit + unit) :=
  let page_virt_start := Z.land (p_vaddr ph) PAGE_MASK in
  let page_virt_end := Z.land (u64 (u64 (p_vaddr ph + p_memsz ph) + 0xFFF)) PAGE_MASK in
  loop (Z.to_nat ((page_virt_end - page_virt_start) / PAGE_SIZE)) 0 (fun i _ =>
    let v_addr := page_virt_start + i * PAGE_SIZE in load_page cr3 v_addr (fill_segment_page buf ph v_addr)) tt.

Definition load_segments (buf : list Z) (cr3 : Z) (eh : Elf64_Ehdr) : M vmm (unit + unit) :=
  loop (Z.to_nat (e_phnum eh)) 0 (fun i _ =>
    ph <-- read_phdr buf (e_phoff eh + i * PHDR_SIZE) ;;
    if p_type ph =? PT_LOAD then load_segment buf cr3 ph else kret (inl tt)) tt.

(** ** The arguments *)

Definition le64 (x : Z) : list Z := le32 (x mod 2 ^ 32) ++ le32 (x / 2 ^ 32 mod 2 ^ 32).
Definition put_word (off x : Z) : M (list Z) unit := copy_bytes off (le64 x).

(** The strings, from the last one down; [inr]: they do not fit.  The result:
    the offset below them and their addresses. *)
Definition push_strings (argc : Z) (argv : list (list Z)) (top : Z) : M (list Z) ((Z * list Z) + unit) :=
  loop (Z.to_nat argc) 0 (fun k acc =>
    let '(local_offset, table) := acc in
    str <-- rd argv (argc - 1 - k) ;;
    let len := zlen str + 1 in
    if (local_offset <? len) || (u64 (local_offset - len) <? u64 (8 * (argc + 2))) then kret (inr tt) else
    let local_offset := local_offset - len in
    copy_bytes local_offset (str ++ [0]) ;;;
    kret (inl (local_offset, (top - (PAGE_SIZE - local_offset)) :: table))) (PAGE_SIZE, []).

(** The stack of a new program; the result is the offset of its top in the
    page. *)
Definition build_stack (argc : Z) (argv : list (list Z)) (top : Z) : M (list Z) (Z + unit) :=
  fill_bytes 0 PAGE_SIZE 0 ;;;
  r <-- push_strings argc argv top ;;
  match r with
  | inr _ => kret (inr tt)
  | inl (local_offset, table) =>
      let local_offset := Z.land local_offset (u64 (Z.lnot 7)) - 8 * (argc + 1) in
      for_ (Z.to_nat argc) 0 (fun i => a <-- rd table i ;; put_word (local_offset + 8 * i) a) ;;;
      put_word (local_offset + 8 * argc) 0 ;;;
      put_word (local_offset - 8) (u64 argc) ;;;
      kret (inl (local_offset - 8))
  end.

(** The frame of the stack; its bytes are those the allocator returned. *)
Definition alloc_stack (cr3 stack_limit : Z) : M vmm (Z + unit) :=
  user_stack_phys <-- v_on_pmm pmm_alloc_page ;;
  if user_stack_phys =? 0 then kret (inr tt) else
  target_pml4 <-- vmm_scratch_map_process cr3 ;;
  vmm_map_page target_pml4 stack_limit user_stack_phys PAGE_USER_FLAGS ;;;
  kret (inl user_stack_phys).

Section parse.
(** Does [kmalloc] find this many bytes for the table of addresses? *)
Context (kmalloc_ok : Z -> bool).

(** The initial stack is one page, so the last page is the only one. *)
Definition load_stack (argc : Z) (argv : list (list Z)) : M loader (unit + unit) :=
  s <-- kget ;;
  let proc := ld_proc s in
  r <-- ld_on_vmm (alloc_stack (im_cr3 proc) (im_stack_limit proc)) ;;
  match r with
  | inr _ => kret (inr tt)
  | inl last_stack_phys =>
      stack_scratch <-- ld_on_vmm (vmm_scratch_map_process last_stack_phys) ;;
      if negb (kmalloc_ok (u64 (8 * argc))) then ld_on_vmm (on_page stack_scratch (fill_bytes 0 PAGE_SIZE 0)) ;;; kret (inr tt) else
      r <-- ld_on_vmm (on_page stack_scratch (build_stack argc argv (stack_top proc))) ;;
      match r with
      | inr _ => kret (inr tt)
      | inl local_offset =>
          kmodify (set_ld_proc (set_stack_top (stack_top proc - (PAGE_SIZE - local_offset)) proc)) ;;; kret (inl tt)
      end
  end.

(** The result is the entry point, 0 on failure.  [binary]: the buffer, when
    there is one. *)
Definition elf_parse_and_map (binary : option (list Z)) (binary_size argc : Z) (argv : list (list Z)) : M loader Z :=
  match binary with
  | None => kret 0
  | Some buf =>
      if binary_size <? EHDR_SIZE then kret 0 else
      eh <-- read_ehdr buf ;;
      if negb (bool_decide (take 4 (e_ident eh) = [0x7F; 69; 76; 70])) then kret 0 else
      if negb (e_machine eh =? 0x3E) then kret 0 else
      kmodify (fun s => set_ld_proc (set_layout (e_entry eh) (ld_proc s)) s) ;;;
      s <-- kget ;;
      r <-- ld_on_vmm (load_segments buf (im_cr3 (ld_proc s)) eh) ;;
      match r with
      | inr _ => kret 0
      | inl _ =>
          r <-- load_stack argc argv ;;
          match r with inr _ => kret 0 | inl _ => kret (e_entry eh) end
      end
  end.
End parse.
