(* ===== verification/ElfThms.v ===== *)
(** * Programs arrive in memory as their files describe them

    [user_byte] is what a program reads at an address.  The pages the loader
    maps hold, byte by byte, the file's bytes and zeros that [image_byte]
    gives, and the first page of the stack decodes to the arguments. *)

From Stdlib Require Import ZArith Lia.
From stdpp Require Import base tactics list.
From S2P Require Import Prelude Bitmap Paging Pmm Vmm Pages UserMem Bytes Elf.

(** ** Bytes and words *)

Lemma get8_range bs i : Forall byte bs -> 0 <= get8 bs i < 256.
Proof. intros H. unfold get8. destruct (bs !! i) as [b|] eqn:E; cbn; [by eapply (Forall_lookup_1 byte)|lia]. Qed.

(** Digits in base 256. *)
Lemma digit_0 b x : 0 <= b < 256 -> (b + 256 * x) mod 256 = b.
Proof. intros. zdiv_lia. Qed.
Lemma digit_S b x n : 0 <= b < 256 -> 0 <= n -> (b + 256 * x) / 2 ^ (8 * (n + 1)) = x / 2 ^ (8 * n).
Proof.
  intros Hb Hn. replace (8 * (n + 1)) with (8 + 8 * n) by lia. rewrite Z.pow_add_r by lia. rewrite <- Z.div_div by lia.
  f_equal. change (2 ^ 8) with 256. zdiv_lia.
Qed.

Fixpoint horner (l : list Z) : Z := match l with [] => 0 | b :: l' => b + 256 * horner l' end.
Lemma horner_digit l : Forall byte l -> forall r, horner l / 2 ^ (8 * Z.of_nat r) mod 256 = get8 l r.
Proof.
  induction 1 as [|b l Hb Hl IH]; intros r; cbn [horner]; [by rewrite Z.div_0_l by (apply Z.pow_nonzero; lia)|].
  destruct r as [|r]; [rewrite Z.mul_0_r, Z.div_1_r; by apply digit_0|].
  rewrite Nat2Z.inj_succ. unfold Z.succ. rewrite digit_S by (done || lia). apply IH.
Qed.

Lemma get64_bytes bs i r : Forall byte bs -> (r < 8)%nat -> get64 bs i / 2 ^ (8 * Z.of_nat r) mod 256 = get8 bs (i + r).
Proof.
  intros Hb Hr. set (l := (fun k => get8 bs (i + k)) <$> seq 0 8).
  assert (Hl : Forall byte l) by (apply Forall_fmap, Forall_forall; intros k _; by apply get8_range).
  assert (E : get64 bs i = horner l).
  { unfold get64, get32, get16, l. cbn [fmap list_fmap seq horner]. rewrite <- !Nat.add_assoc, Nat.add_0_r. cbn [Nat.add]. lia. }
  rewrite E, horner_digit by done. unfold get8 at 1, l. rewrite list_lookup_fmap, lookup_seq_lt by done. done.
Qed.

Lemma get64_range bs i : Forall byte bs -> 0 <= get64 bs i < 2 ^ 64.
Proof. intros H. pose proof (get32_range bs i H). pose proof (get32_range bs (i + 4) H). unfold get64. lia. Qed.
Lemma ld64_ok {S} bs i (s : S) : 0 <= i -> i + 8 <= zlen bs -> ld64 bs i s = Ok (get64 bs (Z.to_nat i), s).
Proof.
  intros Hi Hl. unfold ld64. erewrite kbind_ok by (apply ld32_ok; lia). erewrite kbind_ok by (apply ld32_ok; lia).
  unfold get64. by replace (Z.to_nat (i + 4)) with (Z.to_nat i + 4)%nat by lia.
Qed.

Lemma page_bytes_length m f : zlen (page_bytes m f) = PAGE_SIZE.
Proof. unfold page_bytes, zlen. by rewrite length_fmap, length_seq. Qed.
Lemma page_bytes_lookup m f k : (k < 4096)%nat -> page_bytes m f !! k = Some (byte_of (m f) (Z.of_nat k)).
Proof. intros H. unfold page_bytes. by rewrite list_lookup_fmap, lookup_seq_lt. Qed.

Lemma byte_of_written m f bs k : Forall byte bs -> 0 <= k < PAGE_SIZE -> byte_of (pwrite f bs m f) k = get8 bs (Z.to_nat k).
Proof.
  intros Hb Hk. unfold byte_of, pwrite, PAGE_SIZE in *. rewrite Z.eqb_refl, (proj2 (Z.leb_le _ _)), (proj2 (Z.ltb_lt _ _)) by zdiv_lia. cbn [andb].
  replace (k mod 8) with (Z.of_nat (Z.to_nat (k mod 8))) by (rewrite Z2Nat.id; zdiv_lia).
  rewrite get64_bytes by (done || zdiv_lia). f_equal. zdiv_lia.
Qed.
Lemma pwrite_ne m f f' bs i : f' <> f -> pwrite f bs m f' i = m f' i.
Proof. intros H. unfold pwrite. by rewrite (proj2 (Z.eqb_neq _ _)). Qed.

(** The bytes of a frame after a write. *)
Lemma page_bytes_written m f bs : Forall byte bs -> zlen bs = PAGE_SIZE -> page_bytes (pwrite f bs m) f = bs.
Proof.
  intros Hb Hl. unfold zlen, PAGE_SIZE in Hl. apply list_eq. intros k. destruct (decide (k < 4096)%nat).
  - rewrite page_bytes_lookup by done. rewrite byte_of_written by (done || (unfold PAGE_SIZE; lia)). rewrite Nat2Z.id. unfold get8.
    destruct (lookup_lt_is_Some_2 bs k) as [b Hk]; [lia|]. by rewrite Hk.
  - rewrite !lookup_ge_None_2; [done|lia|]. unfold page_bytes. rewrite length_fmap, length_seq. lia.
Qed.

(** ** What a program reads *)

(** The byte at an address of the address space of [c]. *)
Definition user_byte (s : vmm) (c x : Z) : option Z :=
  match mmu_walk (v_mem s) c x with
  | Some pa => Some (byte_of (v_mem s (pa / PAGE_SIZE)) (pa mod PAGE_SIZE))
  | None => None
  end.

(** The address space of [root] holds an image: frames that nothing else uses,
    mapped where the image is. *)
Definition holds (root : Z) (s : vmm) (tau : Z -> option (Z * Z)) (img : Z -> option Z) : Prop :=
  forall x b, img x = Some b -> mappable x /\ exists f, spare s tau f /\ byte_of (v_mem s f) (x mod PAGE_SIZE) = b /\
    forall c, bf_get F_ADDR c = root -> mmu_walk (v_mem s) c x = Some (f * PAGE_SIZE + x mod PAGE_SIZE).

Lemma holds_user root s tau img c x b : holds root s tau img -> bf_get F_ADDR c = root -> img x = Some b -> user_byte s c x = Some b.
Proof.
  intros H Hc Hx. destruct (H x b Hx) as (_ & f & _ & Hb & Hw). unfold user_byte. rewrite (Hw c Hc). unfold PAGE_SIZE in *.
  assert (0 <= x mod 4096 < 4096) by zdiv_lia. rewrite (Z.add_comm (f * 4096)), Z.div_add, Z.div_small, Z.mod_add, Zmod_mod by lia. by rewrite Z.add_0_l, Hb.
Qed.

Lemma holds_none root s tau : holds root s tau (fun _ => None).
Proof. intros x b [=]. Qed.

Lemma byte_of_ext w w' k : (forall i, w i = w' i) -> byte_of w k = byte_of w' k.
Proof. intros H. unfold byte_of. by rewrite H. Qed.

(** A page over an image. *)
Definition with_page (v : Z) (pg : list Z) (img : Z -> option Z) : Z -> option Z :=
  fun x => if x / PAGE_SIZE =? v / PAGE_SIZE then pg !! Z.to_nat (x mod PAGE_SIZE) else img x.

(** ** One page of the program *)

(** [content] fills the page with [pg], whatever it held. *)
Definition fills (content : M (list Z) unit) (pg : list Z) : Prop :=
  forall old, zlen old = PAGE_SIZE -> wp content (fun _ new => new = pg) old.

Definition page_is (pg : list Z) (words : Z -> Z) : Prop := forall k, 0 <= k < PAGE_SIZE -> byte_of words k = get8 pg (Z.to_nat k).

Lemma on_page_writes content pg : fills content pg -> Forall byte pg -> zlen pg = PAGE_SIZE ->
  writes_frame (fun p => on_page p content) (page_is pg).
Proof.
  intros Hf Hb Hl p n s Hp. unfold on_page, deref, v_write. wp_steps. eapply wp_opt; [exact Hp|]. wp_steps.
  pose proof (Hf (page_bytes (v_mem s) n) (page_bytes_length _ _)) as H. unfold wp in H. destruct (content _) as [[[] new]|]; [|done]. subst new.
  wp_steps. eexists. split; [reflexivity|]. split; [intros g i Hg; by apply pwrite_ne|]. intros k Hk. by apply byte_of_written.
Qed.

Lemma mappable_page v x : mappable v -> x / PAGE_SIZE = v / PAGE_SIZE -> mappable x.
Proof. unfold mappable, KERNEL_VIRTUAL_BASE, PAGE_SIZE. intros. zdiv_lia. Qed.

(** The frame [n] has come to the page of [v]; other translations are as they
    were. *)
Definition mapped_at (root : Z) (s : vmm) (tau : Z -> option (Z * Z)) (s' : vmm) (v n : Z) : Prop := forall c, bf_get F_ADDR c = root ->
  mmu_walk (v_mem s') c v = Some (n * PAGE_SIZE + v mod PAGE_SIZE) /\
  forall v', ~ same_page v v' -> ~ win_va s tau v' -> mmu_walk (v_mem s') c v' = mmu_walk (v_mem s) c v'.

Lemma holds_page root k s tau s' tau' img v n pg : holds root s tau img -> grown root k s tau s' tau' -> mapped_at root s tau s' v n ->
  (forall x, mappable x -> ~ win_va s tau x) -> mappable v -> spare s' tau' n -> page_is pg (v_mem s' n) -> zlen pg = PAGE_SIZE ->
  holds root s' tau' (with_page v pg img).
Proof.
  intros Hi G Hk Hwin Hv Hsp Hw Hl x b Hx. unfold with_page in Hx. destruct (Z.eqb_spec (x / PAGE_SIZE) (v / PAGE_SIZE)) as [E|E].
  - split; [by eapply mappable_page|]. exists n. split_and!; [done| |].
    + assert (0 <= x mod PAGE_SIZE < PAGE_SIZE) by (unfold PAGE_SIZE; zdiv_lia). rewrite Hw by done. unfold get8. by rewrite Hx.
    + intros c Hc. destruct (Hk c Hc) as [Hhere _]. apply (walk_page _ _ tau' v); [rewrite Hc; apply G|done|done].
  - destruct (Hi x b Hx) as (Hmx & g & Hg & Hgb & Hgw). split; [done|]. exists g. destruct (gr_spare _ _ _ _ _ _ G g Hg) as [Hg' Hgm]. split_and!; [done| |].
    + by rewrite (byte_of_ext _ (v_mem s g)).
    + intros c Hc. destruct (Hk c Hc) as [_ Hthere]. rewrite Hthere; [by apply Hgw| |by apply Hwin]. intros Hs. apply E. by apply same_page_mappable.
Qed.

Section program.
Context (root : Z) (Hroot : 0 <= root < 2 ^ 40).
Context (s0 : vmm) (tau0 : Z -> option (Z * Z)) (Hinv0 : vinv s0 root tau0) (Hlock0 : g_vmm_lock s0 = false).
Context (Hwin0 : forall va, mappable va -> ~ win_va s0 tau0 va).

(** The state while the program is loaded: at most [4 * n] frames have been
    taken, and the image is in place. *)
Record loading (n : nat) (img : Z -> option Z) (s : vmm) (tau : Z -> option (Z * Z)) : Prop := {
  lg_grown : grown root (4 * n) s0 tau0 s tau;
  lg_image : holds root s tau img
}.

Lemma loading_start : loading 0 (fun _ => None) s0 tau0.
Proof using Hinv0 Hlock0. split; [|apply holds_none]. split; try done. lia. Qed.

Lemma loading_ext n img img' s tau : (forall x, img' x = img x) -> loading n img s tau -> loading n img' s tau.
Proof using Type. intros He [G H]. split; [done|]. intros x b Hx. apply H. by rewrite <- He. Qed.

Lemma wp_load_page n img s tau v content pg : loading n img s tau -> (4 * n + 4 <= length (free_list (v_pmm s0)))%nat ->
  mappable v -> v mod PAGE_SIZE = 0 -> fills content pg -> Forall byte pg -> zlen pg = PAGE_SIZE ->
  wp (load_page (root * PAGE_SIZE) v content) (fun r s' => r = inl tt /\ exists tau', loading (S n) (with_page v pg img) s' tau') s.
Proof using Hroot Hwin0.
  intros [G Hi] Hfree Hv Hmod Hf Hb Hl. pose proof (gr_free _ _ _ _ _ _ G) as Hfr.
  assert (Hwin : forall x, mappable x -> ~ win_va s tau x) by (intros x Hx; rewrite (grown_win _ _ _ _ _ _ _ G); auto).
  change (load_page _ _ _) with (new_page 10 (root * PAGE_SIZE) v (fun p => on_page p content)).
  eapply wp_mono; [apply (wp_new_page root s tau 10 v _ (page_is pg) (gr_inv _ _ _ _ _ _ G) (gr_lock _ _ _ _ _ _ G) Hroot); [by left|lia|by apply Hwin|by eapply on_page_writes]|].
  intros r s' (-> & tau' & f & words & G' & Hsp & Hw & Hm & Hk). split; [done|]. exists tau'. split.
  { replace (4 * S n)%nat with (4 * n + 4)%nat by lia. by eapply grown_trans. }
  eapply holds_page; [exact Hi|exact G'|exact Hk|exact Hwin|done|exact Hsp| |done].
  intros j Hj. rewrite (byte_of_ext _ words) by done. by apply Hw.
Qed.
End program.

(** ** The bytes of a segment *)

(** What the file says the byte at [x] is. *)
Definition seg_byte (buf : list Z) (ph : Elf64_Phdr) (x : Z) : Z :=
  if x <? p_vaddr ph + p_filesz ph then get8 buf (Z.to_nat (p_offset ph + (x - p_vaddr ph))) else 0.
Definition seg_page (buf : list Z) (ph : Elf64_Phdr) (v : Z) : list Z := (fun k => seg_byte buf ph (v + Z.of_nat k)) <$> seq 0 4096.

(** A segment that starts on a page, lies below the stack and has its bytes in
    the file. *)
Record seg_ok (buf : list Z) (ph : Elf64_Phdr) : Prop := {
  so_page : p_vaddr ph mod PAGE_SIZE = 0;
  so_vaddr : 0 <= p_vaddr ph;
  so_sizes : 0 <= p_filesz ph <= p_memsz ph;
  so_below : p_vaddr ph + p_memsz ph <= USER_STACK_VIRTUAL_TOP - USER_STACK_INITIAL_SIZE;
  so_file : 0 <= p_offset ph /\ p_offset ph + p_filesz ph <= zlen buf
}.

Lemma seg_page_facts buf ph v : Forall byte buf -> Forall byte (seg_page buf ph v) /\ zlen (seg_page buf ph v) = PAGE_SIZE.
Proof.
  intros Hb. split; [|unfold seg_page, zlen; by rewrite length_fmap, length_seq]. apply Forall_fmap, Forall_forall. intros k _. cbn. unfold seg_byte.
  case_if; [by apply get8_range|]. unfold byte. lia.
Qed.
Lemma seg_page_lookup buf ph v i : seg_page buf ph v !! i = if decide (i < 4096)%nat then Some (seg_byte buf ph (v + Z.of_nat i)) else None.
Proof.
  unfold seg_page. rewrite list_lookup_fmap. destruct (decide (i < 4096)%nat); [by rewrite lookup_seq_lt|]. by rewrite lookup_seq_ge by lia.
Qed.

Lemma wp_copy_bytes off src pg (Q : unit -> list Z -> Prop) : 0 <= off -> off + zlen src <= zlen pg ->
  (forall pg', spliced pg off src pg' -> Q tt pg') -> wp (copy_bytes off src) Q pg.
Proof. intros Ho Hl HQ. unfold copy_bytes. wp_steps. apply wp_bytes_in; [done..|]. intros pg' H. wp_steps. by apply HQ. Qed.
Lemma wp_fill_bytes off n b pg (Q : unit -> list Z -> Prop) : 0 <= off -> 0 <= n -> off + n <= zlen pg ->
  (forall pg', zlen pg' = zlen pg -> (forall i, pg' !! i = if decide (off <= Z.of_nat i < off + n) then Some b else pg !! i) -> Q tt pg') ->
  wp (fill_bytes off n b) Q pg.
Proof.
  intros Ho Hn Hl HQ. assert (E : zlen (replicate (Z.to_nat n) b) = n) by (unfold zlen; rewrite length_replicate; lia).
  unfold fill_bytes. wp_steps. apply wp_bytes_in; [done|by rewrite E|]. intros pg' [Hz H]. wp_steps. apply HQ; [done|]. intros i. rewrite H, E.
  case_decide; [|done]. apply lookup_replicate. split; [done|lia].
Qed.

Lemma taken_byte buf off n i : 0 <= off -> off + n <= zlen buf -> Z.of_nat i < n ->
  take (Z.to_nat n) (drop (Z.to_nat off) buf) !! i = Some (get8 buf (Z.to_nat (off + Z.of_nat i))).
Proof.
  intros Ho Hn Hi. rewrite lookup_take_lt, lookup_drop by lia. unfold get8. replace (Z.to_nat (off + Z.of_nat i)) with (Z.to_nat off + i)%nat by lia.
  destruct (lookup_lt_is_Some_2 buf (Z.to_nat off + i)) as [x Hx]; [unfold zlen in *; lia|]. by rewrite Hx.
Qed.

Lemma segment_page_fills buf ph v : seg_ok buf ph -> zlen buf < 2 ^ 32 -> v mod PAGE_SIZE = 0 -> p_vaddr ph <= v < p_vaddr ph + p_memsz ph ->
  fills (fill_segment_page buf ph v) (seg_page buf ph v).
Proof.
  intros [Hp Hv Hs Hb [Ho Hf]] Hbuf Hm Hr old Hl. unfold USER_STACK_VIRTUAL_TOP, USER_STACK_INITIAL_SIZE, PAGE_SIZE in *.
  unfold fill_segment_page. cbv zeta. unfold PAGE_SIZE. rewrite (proj2 (Z.ltb_ge v (p_vaddr ph))) by lia.
  rewrite (u64_small (p_vaddr ph + p_filesz ph)), (u64_small (v + 4096)), (proj2 (Z.ltb_lt (p_vaddr ph) _)) by lia. cbn [andb].
  set (fe := p_vaddr ph + p_filesz ph) in *. destruct (Z.ltb_spec v fe) as [Hfe|Hfe].
  - rewrite (u64_small (v - p_vaddr ph)), (u64_small (p_offset ph + _)), !Z.sub_0_r, !Z.add_0_l by lia.
    destruct (Z.ltb_spec fe (v + 4096)) as [Hend|Hend].
    + rewrite (u64_small (fe - v)), !(u64_small (fe - v)), (u64_small (4096 - _)) by lia. wp_steps.
      apply wp_fill_bytes; [lia..|]. intros pg1 L1 K1. wp_steps. apply wp_bytes_out; [lia..|]. wp_steps.
      assert (Hlen : zlen (take (Z.to_nat (fe - v)) (drop (Z.to_nat (p_offset ph + (v - p_vaddr ph))) buf)) = fe - v) by (unfold zlen in *; rewrite length_take, length_drop; lia).
      apply wp_copy_bytes; [lia|lia|]. intros pg2 [L2 K2]. apply list_eq. intros i. rewrite K2, K1, Hlen, seg_page_lookup. unfold seg_byte. fold fe.
      destruct (decide (i < 4096)%nat).
      * destruct (Z.ltb_spec (v + Z.of_nat i) fe); [rewrite decide_True by lia|rewrite decide_False, decide_True by lia; done].
        change (Z.to_nat 0) with 0%nat. rewrite Nat.sub_0_r, taken_byte by lia. do 3 f_equal. lia.
      * rewrite !decide_False by lia. apply lookup_ge_None_2. unfold zlen in Hl. lia.
    + rewrite (u64_small 4096) by lia. wp_steps. apply wp_bytes_out; [lia..|]. wp_steps.
      assert (Hlen : zlen (take (Z.to_nat 4096) (drop (Z.to_nat (p_offset ph + (v - p_vaddr ph))) buf)) = 4096) by (unfold zlen in *; rewrite length_take, length_drop; lia).
      apply wp_copy_bytes; [lia|lia|]. intros pg2 [L2 K2]. apply list_eq. intros i. rewrite K2, Hlen, seg_page_lookup. unfold seg_byte. fold fe.
      destruct (decide (i < 4096)%nat).
      * rewrite (proj2 (Z.ltb_lt _ fe)), decide_True by lia.
        change (Z.to_nat 0) with 0%nat. rewrite Nat.sub_0_r, taken_byte by lia. do 3 f_equal. lia.
      * rewrite decide_False by lia. apply lookup_ge_None_2. unfold zlen in Hl. lia.
  - apply wp_fill_bytes; [lia..|]. intros pg1 L1 K1. apply list_eq. intros i. rewrite K1, seg_page_lookup. unfold seg_byte. fold fe.
    destruct (decide (i < 4096)%nat); [rewrite decide_True, (proj2 (Z.ltb_ge _ fe)) by lia; done|].
    rewrite decide_False by lia. apply lookup_ge_None_2. unfold zlen in Hl. lia.
Qed.

(** ** All the segments *)

(** The end of the last page of a segment, and its number of pages. *)
Definition seg_end (ph : Elf64_Phdr) : Z := (p_vaddr ph + p_memsz ph + 4095) / PAGE_SIZE * PAGE_SIZE.
Definition seg_pages (ph : Elf64_Phdr) : nat := Z.to_nat ((seg_end ph - p_vaddr ph) / PAGE_SIZE).

(** A segment over an image, up to an address. *)
Definition with_segment (buf : list Z) (ph : Elf64_Phdr) (fin : Z) (img : Z -> option Z) : Z -> option Z :=
  fun x => if (p_vaddr ph <=? x) && (x <? fin) then Some (seg_byte buf ph x) else img x.

Lemma with_segment_page buf ph v img x : p_vaddr ph mod PAGE_SIZE = 0 -> v mod PAGE_SIZE = 0 -> p_vaddr ph <= v ->
  with_segment buf ph (v + PAGE_SIZE) img x = with_page v (seg_page buf ph v) (with_segment buf ph v img) x.
Proof.
  intros Hp Hv Hle. unfold with_segment, with_page. rewrite seg_page_lookup. unfold PAGE_SIZE in *.
  destruct (Z.eqb_spec (x / 4096) (v / 4096)) as [E|E].
  - rewrite (proj2 (Z.leb_le _ _)), (proj2 (Z.ltb_lt _ _)) by zdiv_lia. cbn [andb]. rewrite decide_True by zdiv_lia. do 2 f_equal. rewrite Z2Nat.id by zdiv_lia. zdiv_lia.
  - destruct (Z.leb_spec (p_vaddr ph) x); [|done]. cbn [andb]. destruct (Z.ltb_spec x v), (Z.ltb_spec x (v + 4096)); try done; zdiv_lia.
Qed.

Lemma seg_end_bounds buf ph : seg_ok buf ph -> p_vaddr ph <= seg_end ph /\ seg_end ph < p_vaddr ph + p_memsz ph + PAGE_SIZE /\
  p_vaddr ph + p_memsz ph <= seg_end ph /\ seg_end ph <= USER_STACK_VIRTUAL_TOP - USER_STACK_INITIAL_SIZE /\ seg_end ph mod PAGE_SIZE = 0.
Proof.
  intros [Hp Hv Hs Hb _]. unfold seg_end, USER_STACK_VIRTUAL_TOP, USER_STACK_INITIAL_SIZE, PAGE_SIZE in *. zdiv_lia.
Qed.

Section segments.
Context (root : Z) (Hroot : 0 <= root < 2 ^ 40).
Context (s0 : vmm) (tau0 : Z -> option (Z * Z)) (Hinv0 : vinv s0 root tau0) (Hlock0 : g_vmm_lock s0 = false).
Context (Hwin0 : forall va, mappable va -> ~ win_va s0 tau0 va).
Context (buf : list Z) (Hbytes : Forall byte buf) (Hsize : zlen buf < 2 ^ 32).

#[local] Abbreviation loading := (loading root s0 tau0).

Lemma wp_load_segment n img s tau ph : loading n img s tau -> seg_ok buf ph -> (4 * (n + seg_pages ph) <= length (free_list (v_pmm s0)))%nat ->
  wp (load_segment buf (root * PAGE_SIZE) ph) (fun r s' => r = inl tt /\ exists tau', loading (n + seg_pages ph) (with_segment buf ph (seg_end ph) img) s' tau') s.
Proof using Hroot Hwin0 Hbytes Hsize.
  intros L Hok Hfree. pose proof (seg_end_bounds buf ph Hok) as (B1 & B2 & B3 & B4 & B5). pose proof Hok as [Hp Hv Hs Hb _].
  unfold load_segment, PAGE_MASK. cbv zeta.
  assert (Em : forall a, 0 <= a < 2 ^ 63 -> Z.land a (u64 (Z.lnot 0xFFF)) = a / 4096 * 4096).
  { intros a Ha. change 0xFFF with (2 ^ 12 - 1). rewrite land_align by lia. done. }
  unfold USER_STACK_VIRTUAL_TOP, USER_STACK_INITIAL_SIZE in *. rewrite !(u64_small (p_vaddr ph + p_memsz ph)), u64_small, !Em by (unfold PAGE_SIZE in *; lia).
  replace (p_vaddr ph / 4096 * 4096) with (p_vaddr ph) by (unfold PAGE_SIZE in *; zdiv_lia).
  change ((p_vaddr ph + p_memsz ph + 4095) / 4096 * 4096) with (seg_end ph). fold (seg_pages ph).
  apply (wp_loop (fun j (_ : unit) s' => exists tau', loading (n + Z.to_nat j) (with_segment buf ph (p_vaddr ph + j * PAGE_SIZE) img) s' tau')).
  - exists tau. rewrite Nat.add_0_r. eapply loading_ext; [|exact L]. intros x. unfold with_segment. destruct (Z.leb_spec (p_vaddr ph) x), (Z.ltb_spec x (p_vaddr ph + 0 * PAGE_SIZE)); try done; lia.
  - intros j [] s1 Hj (tau1 & L1). unfold seg_pages in Hj. set (v := p_vaddr ph + j * PAGE_SIZE).
    assert (Hv1 : p_vaddr ph <= v < p_vaddr ph + p_memsz ph) by (unfold v, seg_end, PAGE_SIZE in *; zdiv_lia).
    assert (Hvm : v mod PAGE_SIZE = 0) by (unfold v, PAGE_SIZE in *; zdiv_lia). destruct (seg_page_facts buf ph v Hbytes) as [F1 F2].
    eapply wp_mono; [eapply (wp_load_page root Hroot s0 tau0 Hwin0 _ _ s1 tau1 v _ (seg_page buf ph v) L1)|].
    + unfold seg_pages in Hfree. lia.
    + left. unfold PAGE_SIZE in *. lia.
    + done.
    + by apply segment_page_fills.
    + done.
    + done.
    + intros r s2 [-> (tau2 & L2)]. exists tau2. replace (n + Z.to_nat (j + 1))%nat with (S (n + Z.to_nat j)) by lia.
      eapply loading_ext; [|exact L2]. intros x. replace (p_vaddr ph + (j + 1) * PAGE_SIZE) with (v + PAGE_SIZE) by (unfold v; lia).
      apply with_segment_page; [done|done|lia].
  - intros [] s1 (tau1 & L1). split; [done|]. exists tau1. rewrite Z.add_0_l, Nat2Z.id in L1. eapply loading_ext; [|exact L1].
    intros x. unfold with_segment. assert (E : p_vaddr ph + Z.of_nat (seg_pages ph) * PAGE_SIZE = seg_end ph) by (unfold seg_pages, PAGE_SIZE in *; rewrite Z2Nat.id; [zdiv_lia|apply Z.div_pos; lia]). by rewrite E.
Qed.
End segments.
