(* ===== verification/ElfArgs.v ===== *)
(** * The arguments of a program on its stack

    What [build_stack] leaves in the page decodes, as the start code of a
    program decodes it, to the arguments it was given; arguments that do not
    fit are refused. *)

From Stdlib Require Import ZArith Lia.
From stdpp Require Import base tactics list.
From S2P Require Import Prelude Bitmap Paging Pmm Vmm Pages UserMem Bytes Elf ElfThms.

(** ** Words in a page *)

Lemma le64_length x : length (le64 x) = 8%nat.
Proof. done. Qed.
Lemma le64_bytes x : Forall byte (le64 x).
Proof. apply Forall_app. split; apply le32_bytes. Qed.

Lemma get64_put i x b : (i + 8 <= length b)%nat -> 0 <= x < 2 ^ 64 -> get64 (put i (le64 x) b) i = x.
Proof.
  intros Hi Hx. unfold le64, get64. rewrite <- put_put by lia. cbn [length le32]. rewrite get32_put by (rewrite ?put_length by (cbn; lia); zdiv_lia).
  rewrite get32_put_other by (rewrite ?put_length; cbn; lia). rewrite get32_put by (cbn; zdiv_lia). zdiv_lia.
Qed.
Lemma get64_put_other i src b j : (i + length src <= length b)%nat -> (j + 8 <= i \/ i + length src <= j)%nat -> get64 (put i src b) j = get64 b j.
Proof. intros H Hj. unfold get64. by rewrite !get32_put_other by lia. Qed.
Lemma drop_put i src b j : (i + length src <= length b)%nat -> (i + length src <= j)%nat -> drop j (put i src b) = drop j b.
Proof.
  intros H Hj. apply list_eq. intros k. rewrite !lookup_drop, put_lookup by done. by rewrite decide_False by lia.
Qed.
Lemma drop_put_here i src b : (i + length src <= length b)%nat -> drop i (put i src b) = src ++ drop (i + length src) b.
Proof. intros H. unfold put. rewrite drop_app_length'; [done|]. rewrite length_take. lia. Qed.

Lemma wp_copy_put off src pg (Q : unit -> list Z -> Prop) : 0 <= off -> off + zlen src <= zlen pg ->
  Q tt (put (Z.to_nat off) src pg) -> wp (copy_bytes off src) Q pg.
Proof.
  intros Ho Hl HQ. unfold copy_bytes, bytes_in. wp_steps. rewrite (proj2 (Z.leb_le _ _)) by done. wp_steps.
  unfold put in HQ. unfold zlen in *. by rewrite Z2Nat.inj_add, Nat2Z.id by lia.
Qed.

(** ** What a program finds *)

(** The arguments in a page that is mapped at [base], from offset [off] on:
    their number, the addresses, the strings. *)
Definition read_args (pg : list Z) (off base : Z) : list (list Z) :=
  (fun i => until_nul (drop (Z.to_nat (get64 pg (Z.to_nat (off + 8 + 8 * Z.of_nat i)) - base)) pg)) <$> seq 0 (Z.to_nat (get64 pg (Z.to_nat off))).

(** The room of the strings. *)
Fixpoint strings_size (argv : list (list Z)) : Z := match argv with [] => 0 | s :: l => zlen s + 1 + strings_size l end.

Lemma strings_size_nonneg l : 0 <= strings_size l.
Proof. induction l as [|s l IH]; cbn; [done|]. pose proof (zlen_nonneg s). lia. Qed.
Lemma strings_size_app l1 l2 : strings_size (l1 ++ l2) = strings_size l1 + strings_size l2.
Proof. induction l1 as [|s l IH]; cbn; [done|]. lia. Qed.
Lemma strings_size_drop argv k : 0 <= strings_size (drop k argv) <= strings_size argv.
Proof.
  pose proof (strings_size_nonneg (take k argv)). pose proof (strings_size_nonneg (drop k argv)).
  rewrite <- (take_drop k argv) at 3. rewrite strings_size_app. lia.
Qed.

Definition char_ok (c : Z) : Prop := 0 < c < 256.

(** A string with its end, in the page. *)
Definition string_at (pg : list Z) (off : Z) (s : list Z) : Prop := 0 <= off /\ exists rest, drop (Z.to_nat off) pg = s ++ 0 :: rest.

(** The addresses of strings that lie at [lo] or above. *)
Definition placed (pg : list Z) (top lo : Z) (table : list Z) (strs : list (list Z)) : Prop :=
  Forall2 (fun a s => exists off, a = top - (PAGE_SIZE - off) /\ lo <= off <= PAGE_SIZE /\ string_at pg off s) table strs.

Lemma placed_put pg top lo table strs i src : placed pg top lo table strs -> Z.of_nat (i + length src) <= lo -> (i + length src <= length pg)%nat ->
  placed (put i src pg) top lo table strs.
Proof.
  intros P Hi Hl. eapply Forall2_impl; [exact P|]. cbn. intros a s (off & -> & Ho & Hp & rest & E). exists off. split; [done|]. split; [done|]. split; [done|].
  exists rest. rewrite <- E. apply drop_put; lia.
Qed.
Lemma placed_down pg top lo lo' table strs : placed pg top lo table strs -> lo' <= lo -> placed pg top lo' table strs.
Proof. intros P H. eapply Forall2_impl; [exact P|]. cbn. intros a s (off & ? & ? & ?). exists off. split; [done|]. split; [lia|done]. Qed.

Section args.
Context (argv : list (list Z)) (top : Z) (Hargs : Forall (Forall char_ok) argv) (Htop : PAGE_SIZE <= top < 2 ^ 48).
#[local] Abbreviation argc := (zlen argv).
Context (Hargc : argc < 2 ^ 31).

Definition args_fit : bool := strings_size argv + 8 * (argc + 2) <=? PAGE_SIZE.

(** The strings are pushed from the last one down while they fit. *)
Lemma wp_push_strings pg (Q : (Z * list Z) + unit -> list Z -> Prop) : zlen pg = PAGE_SIZE -> Forall byte pg ->
  (forall pg' table, args_fit = true -> zlen pg' = PAGE_SIZE -> Forall byte pg' -> placed pg' top (PAGE_SIZE - strings_size argv) table argv ->
     Q (inl (PAGE_SIZE - strings_size argv, table)) pg') ->
  (forall pg', args_fit = false -> zlen pg' = PAGE_SIZE -> Q (inr tt) pg') ->
  wp (push_strings argc argv top) Q pg.
Proof using Hargs Hargc.
  intros Hl Hb Hfit Hno. unfold push_strings, PAGE_SIZE in *. pose proof (zlen_nonneg argv) as Hn.
  apply (wp_loop (fun k acc pg' => let rest := drop (Z.to_nat (argc - k)) argv in
    fst acc = 4096 - strings_size rest /\ (0 < k -> strings_size rest + 8 * (argc + 2) <= 4096) /\ zlen pg' = 4096 /\ Forall byte pg' /\
    placed pg' top (fst acc) (snd acc) rest)).
  - cbv zeta. rewrite Z.sub_0_r. assert (E0 : drop (Z.to_nat argc) argv = []) by (unfold zlen; rewrite Nat2Z.id; apply drop_all).
    rewrite E0. cbn. split_and!; try done. apply Forall2_nil_2.
  - intros k [lo table] pg1 Hk. cbv zeta. cbn [fst snd]. intros (-> & Hr & Hl1 & Hb1 & P). rewrite Z.add_0_l, Z2Nat.id in Hk by done.
    destruct (zlen_lookup argv (argc - 1 - k)) as [str Hs]; [lia|]. wp_steps. eapply wp_rd; [lia|exact Hs|]. wp_steps.
    replace (Z.to_nat (argc - k)) with (S (Z.to_nat (argc - 1 - k))) in * by lia. pose proof (drop_S _ _ _ Hs) as Ed.
    replace (Z.to_nat (argc - (k + 1))) with (Z.to_nat (argc - 1 - k)) by lia. rewrite Ed. cbn [strings_size].
    set (rest := drop (S (Z.to_nat (argc - 1 - k))) argv) in *. pose proof (strings_size_drop argv (Z.to_nat (argc - 1 - k))) as Hsz. rewrite Ed in Hsz. cbn [strings_size] in Hsz. fold rest in Hsz.
    pose proof (strings_size_nonneg rest) as Hnn. pose proof (zlen_nonneg str) as Hsn. assert (Hrest : strings_size rest <= 4096).
    { destruct (decide (k = 0)) as [->|]; [|lia]. unfold rest. rewrite drop_ge; [cbn; lia|]. unfold zlen in *. lia. }
    destruct (Z.ltb_spec (4096 - strings_size rest) (zlen str + 1)); cbn [orb].
    { apply wp_ret. apply Hno; [|done]. unfold args_fit, PAGE_SIZE. apply Z.leb_gt. lia. }
    rewrite (u64_small (4096 - strings_size rest - _)), (u64_small (8 * _)) by lia. destruct (Z.ltb_spec (4096 - strings_size rest - (zlen str + 1)) (8 * (argc + 2))).
    { apply wp_ret. apply Hno; [|done]. unfold args_fit, PAGE_SIZE. apply Z.leb_gt. lia. }
    set (lo := 4096 - strings_size rest - (zlen str + 1)) in *. assert (El : length (str ++ [0]) = Z.to_nat (zlen str + 1)) by (unfold zlen; rewrite length_app; cbn; lia).
    wp_steps. apply wp_copy_put; [lia|unfold zlen at 1; lia|]. wp_steps. assert (Hstr : Forall char_ok str) by (eapply (Forall_lookup_1 _ _ _ _ Hargs Hs)).
    assert (Hput : (Z.to_nat lo + length (str ++ [0%Z]) <= length pg1)%nat) by (unfold zlen in Hl1; lia).
    cbn [fst snd]. split_and!; [unfold lo; lia|unfold lo in *; lia|unfold zlen; by rewrite put_length| |].
    { apply bytes_put; [done|]. apply Forall_app. split; [|repeat constructor; lia]. eapply Forall_impl; [exact Hstr|]. unfold char_ok, byte. lia. }
    constructor.
    + exists lo. split; [done|]. split; [unfold lo, PAGE_SIZE; lia|]. split; [lia|]. eexists. rewrite drop_put_here by done. by rewrite <- app_assoc.
    + eapply placed_down; [apply placed_put; [exact P|lia|done]|lia].
  - intros [lo table] pg1. cbv zeta. rewrite Z.add_0_l, Z2Nat.id, Z.sub_diag by done. change (Z.to_nat 0) with 0%nat. rewrite drop_0. cbn [fst snd].
    intros (-> & Hr & Hl1 & Hb1 & P). apply Hfit; [|done|done|exact P]. unfold args_fit, PAGE_SIZE. apply Z.leb_le.
    destruct (decide (argc = 0)) as [E|]; [|lia]. assert (argv = []) as -> by (destruct argv; done). cbn. lia.
Qed.

(** The words of the table. *)
Definition table_at (pg : list Z) (loc : Z) (table : list Z) (n : Z) : Prop :=
  forall j a, Z.of_nat j < n -> table !! j = Some a -> get64 pg (Z.to_nat (loc + 8 * Z.of_nat j)) = a.

Lemma wp_put_word off x pg (Q : unit -> list Z -> Prop) : 0 <= off -> off + 8 <= zlen pg ->
  Q tt (put (Z.to_nat off) (le64 x) pg) -> wp (put_word off x) Q pg.
Proof using Type. intros Ho Hl HQ. apply wp_copy_put; done. Qed.

Lemma table_put pg loc table n off x : table_at pg loc table n -> 0 <= loc -> 0 <= off -> off + 8 <= zlen pg -> off + 8 <= loc \/ loc + 8 * n <= off ->
  table_at (put (Z.to_nat off) (le64 x) pg) loc table n.
Proof using Type.
  intros T Hloc Ho Hl Hd j a Hj Ha. rewrite get64_put_other; [by apply T|rewrite le64_length; unfold zlen in Hl; lia|rewrite le64_length; lia].
Qed.

Lemma placed_addr pg lo table j a : placed pg top lo table argv -> table !! j = Some a -> 0 <= lo ->
  0 <= a < 2 ^ 64 /\ exists s, argv !! j = Some s /\ string_at pg (a - (top - PAGE_SIZE)) s.
Proof using Htop.
  intros P Ha Hlo. destruct (Forall2_lookup_l _ _ _ _ _ P Ha) as (s & Hs & off & -> & Hoff & Hstr). unfold PAGE_SIZE in *. split; [lia|].
  exists s. split; [done|]. by replace (top - (4096 - off) - (top - 4096)) with off by lia.
Qed.

(** The table is written below the strings. *)
Lemma wp_write_table pg loc lo table (Q : unit -> list Z -> Prop) : zlen pg = PAGE_SIZE -> Forall byte pg -> placed pg top lo table argv ->
  0 <= loc -> loc + 8 * argc <= lo -> lo <= PAGE_SIZE ->
  (forall pg', zlen pg' = PAGE_SIZE -> Forall byte pg' -> placed pg' top lo table argv -> table_at pg' loc table argc -> Q tt pg') ->
  wp (for_ (Z.to_nat argc) 0 (fun i => a <-- rd table i ;; put_word (loc + 8 * i) a)) Q pg.
Proof using Htop.
  intros Hl Hb P Hloc Hfit Hlo HQ. pose proof (zlen_nonneg argv). pose proof (Forall2_length _ _ _ P) as Elen.
  apply (wp_for (fun i pg' => zlen pg' = PAGE_SIZE /\ Forall byte pg' /\ placed pg' top lo table argv /\ table_at pg' loc table i)).
  - split_and!; try done. intros j a Hj. lia.
  - intros i pg1 Hi (Hl1 & Hb1 & P1 & T1). rewrite Z.add_0_l, Z2Nat.id in Hi by done.
    destruct (zlen_lookup table i) as [a Ha]; [unfold zlen in *; lia|]. wp_steps. eapply wp_rd; [lia|exact Ha|]. apply wp_put_word; [lia|lia|].
    destruct (placed_addr _ _ _ _ _ P1 Ha ltac:(lia)) as [Hr _]. assert (Hin : (Z.to_nat (loc + 8 * i) + length (le64 a) <= length pg1)%nat) by (rewrite le64_length; unfold zlen in Hl1; lia).
    split_and!; [unfold zlen; by rewrite put_length|apply bytes_put; [done|apply le64_bytes]|apply placed_put; [done|rewrite le64_length; lia|done]|].
    intros j b Hj Hb'. destruct (decide (Z.of_nat j = i)) as [<-|].
    + rewrite Nat2Z.id in Ha. assert (b = a) as -> by congruence. apply get64_put; [by rewrite le64_length in Hin|done].
    + rewrite get64_put_other; [apply T1; [lia|done]|done|rewrite le64_length; lia].
  - intros pg1 (Hl1 & Hb1 & P1 & T1). rewrite Z.add_0_l, Z2Nat.id in T1 by done. by apply HQ.
Qed.

(** The page of a started program. *)
Record stack_page (pg : list Z) (off : Z) : Prop := {
  sp_size : zlen pg = PAGE_SIZE;
  sp_bytes : Forall byte pg;
  sp_off : 0 <= off < PAGE_SIZE /\ off mod 8 = 0;
  sp_argc : get64 pg (Z.to_nat off) = argc;
  sp_end : get64 pg (Z.to_nat (off + 8 + 8 * argc)) = 0;
  sp_args : read_args pg off (top - PAGE_SIZE) = argv
}.

Lemma wp_build_stack old (Q : Z + unit -> list Z -> Prop) : zlen old = PAGE_SIZE ->
  (forall pg off, args_fit = true -> stack_page pg off -> Q (inl off) pg) -> (forall pg, args_fit = false -> Q (inr tt) pg) ->
  wp (build_stack argc argv top) Q old.
Proof using Hargs Hargc Htop.
  intros Hold Hyes Hno. unfold build_stack. pose proof (zlen_nonneg argv) as Hn. wp_steps. apply wp_fill_bytes; [done|done|by rewrite Hold|]. intros pg0 L0 K0. wp_steps.
  assert (B0 : Forall byte pg0).
  { apply Forall_lookup. intros i b Hi. pose proof (lookup_lt_Some _ _ _ Hi) as Hlt. rewrite K0, decide_True in Hi by (unfold zlen, PAGE_SIZE in *; lia).
    injection Hi as <-. by unfold byte. }
  apply wp_push_strings; [congruence|done| |]; [|intros pg1 Hf _; wp_steps; by apply Hno].
  intros pg1 table Hf L1 B1 P1. wp_steps. set (lo := PAGE_SIZE - strings_size argv) in *. pose proof (strings_size_nonneg argv).
  assert (Hlo : 8 * (argc + 2) <= lo <= PAGE_SIZE) by (unfold args_fit in Hf; zbool; unfold lo; lia).
  assert (Eal : Z.land lo (u64 (Z.lnot 7)) = lo / 8 * 8).
  { change 7 with (2 ^ 3 - 1). rewrite land_align by (unfold PAGE_SIZE in *; lia). done. }
  rewrite Eal. set (loc := lo / 8 * 8 - 8 * (argc + 1)). assert (Hloc : 8 <= loc /\ loc + 8 * argc + 8 <= lo /\ loc mod 8 = 0) by (unfold loc; zdiv_lia).
  unfold PAGE_SIZE in *. wp_steps. apply (wp_write_table pg1 loc lo table); unfold PAGE_SIZE; try done; try lia. intros pg2 L2 B2 P2 T2. wp_steps.
  apply wp_put_word; [lia|lia|]. wp_steps. set (pg3 := put _ _ pg2).
  assert (H3 : (Z.to_nat (loc + 8 * argc) + length (le64 0) <= length pg2)%nat) by (rewrite le64_length; unfold zlen in L2; lia).
  assert (L3 : zlen pg3 = 4096) by (unfold zlen, pg3; by rewrite put_length).
  rewrite (u64_small argc) by lia. apply wp_put_word; [lia|lia|]. wp_steps. set (pg4 := put _ _ pg3).
  assert (H4 : (Z.to_nat (loc - 8) + length (le64 argc) <= length pg3)%nat) by (rewrite le64_length; unfold zlen in L3; lia).
  assert (P4 : placed pg4 top lo table argv).
  { apply placed_put; [apply placed_put; [done|rewrite le64_length; lia|done]|rewrite le64_length; lia|done]. }
  assert (T4 : table_at pg4 loc table argc) by (apply table_put; [apply table_put; [done|lia..]|lia..]).
  assert (Hw1 : get64 pg4 (Z.to_nat (loc - 8)) = argc) by (apply get64_put; [by rewrite le64_length in H4|lia]).
  apply Hyes; [done|]. constructor; unfold PAGE_SIZE.
  - unfold zlen, pg4. by rewrite put_length.
  - apply bytes_put; [apply bytes_put; [done|apply le64_bytes]|apply le64_bytes].
  - split; [lia|]. zdiv_lia.
  - done.
  - replace (loc - 8 + 8 + 8 * argc) with (loc + 8 * argc) by lia. unfold pg4. rewrite get64_put_other by (done || (rewrite le64_length; lia)).
    apply get64_put; [by rewrite le64_length in H3|done].
  - unfold read_args. rewrite Hw1. pose proof (Forall2_length _ _ _ P4) as Elen. apply list_eq. intros i. rewrite list_lookup_fmap.
    destruct (decide (i < length argv)%nat) as [Hi|Hi].
    + destruct (lookup_lt_is_Some_2 table i) as [a Ha]; [lia|]. destruct (placed_addr _ _ _ _ _ P4 Ha ltac:(lia)) as (_ & s & Hs & _ & rest & Hrest).
      rewrite lookup_seq_lt by (unfold zlen; lia). cbn [fmap option_fmap option_map Nat.add]. replace (loc - 8 + 8 + 8 * Z.of_nat i) with (loc + 8 * Z.of_nat i) by lia.
      rewrite (T4 i a), Hs by (done || (unfold zlen; lia)). f_equal. unfold PAGE_SIZE in Hrest. rewrite Hrest. apply until_nul_app.
      eapply Forall_impl; [eapply (Forall_lookup_1 _ _ _ _ Hargs Hs)|]. unfold char_ok. lia.
    + rewrite lookup_seq_ge by (unfold zlen; lia). cbn. symmetry. apply lookup_ge_None_2. lia.
Qed.
End args.
