(* ===== verification/ElfLoad.v ===== *)
(** * The loader of programs, whole

    Reading of the headers, the segments of the file one after the other, the
    page of the stack with its arguments. *)

From Stdlib Require Import ZArith Lia.
From stdpp Require Import base tactics list.
From S2P Require Import Prelude Bitmap Paging Pmm Vmm Pages UserMem Bytes Elf ElfThms ElfArgs.

(** ** Headers *)

Definition ehdr_at (buf : list Z) : Elf64_Ehdr := Ehdr (take 16 buf) (get16 buf 18) (get64 buf 24) (get64 buf 32) (get16 buf 56).
Definition phdr_at (buf : list Z) (i : Z) : Elf64_Phdr :=
  let off := get64 buf 32 + i * PHDR_SIZE in
  Phdr (get32 buf (Z.to_nat off)) (get64 buf (Z.to_nat (off + 8))) (get64 buf (Z.to_nat (off + 16))) (get64 buf (Z.to_nat (off + 32))) (get64 buf (Z.to_nat (off + 40))).
Definition phdrs (buf : list Z) (n : nat) : list Elf64_Phdr := (fun i => phdr_at buf (Z.of_nat i)) <$> seq 0 n.

Lemma wp_read_ehdr {X} buf (Q : Elf64_Ehdr -> X -> Prop) s : EHDR_SIZE <= zlen buf -> Q (ehdr_at buf) s -> wp (read_ehdr buf) Q s.
Proof.
  unfold EHDR_SIZE. intros Hl HQ. unfold read_ehdr. apply wp_bind, wp_bytes_out; [done|done|lia|].
  do 4 (apply wp_bind; eapply wp_intro; [(apply ld16_ok || apply ld64_ok); lia|]). exact HQ.
Qed.
Lemma wp_read_phdr {X} buf i (Q : Elf64_Phdr -> X -> Prop) s : 0 <= get64 buf 32 -> 0 <= i -> get64 buf 32 + (i + 1) * PHDR_SIZE <= zlen buf ->
  Q (phdr_at buf i) s -> wp (read_phdr buf (get64 buf 32 + i * PHDR_SIZE)) Q s.
Proof.
  unfold PHDR_SIZE. intros Hp Hi Hl HQ. unfold read_phdr.
  apply wp_bind; eapply wp_intro; [apply ld32_ok; lia|].
  do 4 (apply wp_bind; eapply wp_intro; [apply ld64_ok; lia|]). exact HQ.
Qed.

(** A program the loader takes. *)
Record elf_ok (buf : list Z) : Prop := {
  eo_bytes : Forall byte buf;
  eo_size : EHDR_SIZE <= zlen buf < 2 ^ 32;
  eo_magic : take 4 buf = [0x7F; 69; 76; 70];
  eo_machine : get16 buf 18 = 0x3E;
  eo_table : get64 buf 32 + get16 buf 56 * PHDR_SIZE <= zlen buf;
  eo_segments : Forall (fun ph => p_type ph = PT_LOAD -> seg_ok buf ph) (phdrs buf (Z.to_nat (get16 buf 56)))
}.

(** The memory the file describes, header by header. *)
Definition with_header (buf : list Z) (img : Z -> option Z) (ph : Elf64_Phdr) : Z -> option Z :=
  if p_type ph =? PT_LOAD then with_segment buf ph (seg_end ph) img else img.
Definition header_pages (ph : Elf64_Phdr) : nat := if p_type ph =? PT_LOAD then seg_pages ph else 0.
Definition program_image (buf : list Z) : Z -> option Z := foldl (with_header buf) (fun _ => None) (phdrs buf (Z.to_nat (get16 buf 56))).
Definition program_pages (buf : list Z) : nat := sum_list_with header_pages (phdrs buf (Z.to_nat (get16 buf 56))).

Lemma phdrs_S buf n : phdrs buf (S n) = phdrs buf n ++ [phdr_at buf (Z.of_nat n)].
Proof. unfold phdrs. by rewrite seq_S, fmap_app. Qed.
Lemma phdrs_prefix buf n m : (n <= m)%nat -> (phdrs buf n) `prefix_of` (phdrs buf m).
Proof. intros H. exists ((fun i => phdr_at buf (Z.of_nat i)) <$> seq n (m - n)). unfold phdrs. rewrite <- fmap_app. f_equal. by rewrite <- seq_app, Nat.add_sub_assoc, Nat.add_comm, Nat.add_sub by lia. Qed.
Lemma pages_prefix (l1 l2 : list Elf64_Phdr) : l1 `prefix_of` l2 -> (sum_list_with header_pages l1 <= sum_list_with header_pages l2)%nat.
Proof. intros [l ->]. rewrite sum_list_with_app. lia. Qed.

(** Nothing of the program lies above the stack's limit. *)
Lemma program_below buf x b n : Forall (fun ph => p_type ph = PT_LOAD -> seg_ok buf ph) (phdrs buf n) ->
  foldl (with_header buf) (fun _ => None) (phdrs buf n) x = Some b -> x < USER_STACK_VIRTUAL_TOP - USER_STACK_INITIAL_SIZE.
Proof.
  induction n as [|n IH]; [done|]. rewrite phdrs_S, foldl_app, Forall_app, Forall_singleton. intros [Hn Hok]. cbn [foldl]. unfold with_header at 1.
  destruct (Z.eqb_spec (p_type (phdr_at buf (Z.of_nat n))) PT_LOAD) as [E|]; [|by apply IH]. unfold with_segment. case_if; [|by apply IH].
  intros _. pose proof (seg_end_bounds buf _ (Hok E)). zbool. lia.
Qed.

Section segments.
Context (root : Z) (Hroot : 0 <= root < 2 ^ 40).
Context (s0 : vmm) (tau0 : Z -> option (Z * Z)) (Hinv0 : vinv s0 root tau0) (Hlock0 : g_vmm_lock s0 = false).
Context (Hwin0 : forall va, mappable va -> ~ win_va s0 tau0 va).
Context (buf : list Z) (Hok : elf_ok buf).

Lemma wp_load_segments : (4 * program_pages buf <= length (free_list (v_pmm s0)))%nat ->
  wp (load_segments buf (root * PAGE_SIZE) (ehdr_at buf))
    (fun r s' => r = inl tt /\ exists tau', loading root s0 tau0 (program_pages buf) (program_image buf) s' tau') s0.
Proof using Hroot Hinv0 Hlock0 Hwin0 Hok.
  intros Hfree. destruct Hok as [Hb Hsz Hm Hmach Ht Hsegs]. unfold load_segments. cbn [e_phnum e_phoff ehdr_at]. set (n := Z.to_nat (get16 buf 56)) in *.
  pose proof (get64_range buf 32 Hb) as Hpo. pose proof (get16_range buf 56 Hb) as Hn. unfold EHDR_SIZE in Hsz.
  apply (wp_loop (fun i (_ : unit) s' => exists tau', loading root s0 tau0 (sum_list_with header_pages (phdrs buf (Z.to_nat i)))
     (foldl (with_header buf) (fun _ => None) (phdrs buf (Z.to_nat i))) s' tau')).
  - exists tau0. by apply (loading_start root).
  - intros i [] s1 Hi (tau1 & L1). unfold n in Hi. rewrite Z.add_0_l, Z2Nat.id in Hi by lia. apply wp_bind.
    apply wp_read_phdr; [lia|lia|unfold PHDR_SIZE in *; lia|]. replace (Z.to_nat (i + 1)) with (S (Z.to_nat i)) by lia. rewrite phdrs_S, foldl_app, sum_list_with_app, Z2Nat.id by lia.
    cbn [foldl sum_list_with]. unfold with_header at 1, header_pages at 2. set (ph := phdr_at buf i) in *.
    destruct (Z.eqb_spec (p_type ph) PT_LOAD) as [E|E]; [|wp_steps; exists tau1; by rewrite !Nat.add_0_r]. rewrite Nat.add_0_r.
    assert (Hpre : phdrs buf (S (Z.to_nat i)) `prefix_of` phdrs buf n) by (apply phdrs_prefix; unfold n; lia).
    eapply wp_mono; [eapply (wp_load_segment root Hroot s0 tau0 Hwin0 buf Hb); [lia|exact L1| |]|by intros r s2 [-> Hs2]].
    + destruct Hpre as [l El]. rewrite El, phdrs_S, Z2Nat.id, !Forall_app, Forall_singleton in Hsegs by lia. by apply Hsegs.
    + apply pages_prefix in Hpre. rewrite phdrs_S, Z2Nat.id, sum_list_with_app in Hpre by lia. cbn in Hpre. unfold header_pages at 2 in Hpre. fold ph in Hpre.
      rewrite E, Z.eqb_refl in Hpre. unfold program_pages in Hfree. fold n in Hfree. lia.
  - intros [] s1 (tau1 & L1). split; [done|]. exists tau1. rewrite Z.add_0_l, Nat2Z.id in L1. exact L1.
Qed.
End segments.

(** ** The stack *)

(** [n] has been written, other spare frames and every translation are as they
    were. *)
Record touched (root : Z) (tau : Z -> option (Z * Z)) (n : Z) (s s' : vmm) : Prop := {
  to_inv : vinv s' root tau;
  to_same : v_pmm s' = v_pmm s /\ g_window_pt s' = g_window_pt s /\ g_vmm_lock s' = g_vmm_lock s;
  to_mem : forall f i, f <> n -> f <> g_window_pt s -> f <> g_window_pt s + 1 -> v_mem s' f i = v_mem s f i;
  to_walk : forall c v, bf_get F_ADDR c = root -> ~ win_va s tau v -> mmu_walk (v_mem s') c v = mmu_walk (v_mem s) c v
}.

Lemma touched_spare root tau n s s' f : touched root tau n s s' -> spare s tau f -> spare s' tau f.
Proof. intros [_ (E1 & E2 & _) _ _] H. unfold spare in *. by rewrite E1, E2. Qed.

Lemma grown_touched root k s tau s' tau' n s2 : grown root k s tau s' tau' -> n ∈ free_list (v_pmm s) -> touched root tau' n s' s2 -> grown root k s tau s2 tau'.
Proof.
  intros [I L W A F S] Hn T. pose proof T as [I2 (E1 & E2 & E3) M _]. split; try done; [congruence|congruence|by rewrite E1|].
  intros f Hf. destruct (S f Hf) as [Hf' Hm]. split; [by eapply touched_spare|]. intros i. pose proof Hf' as (_ & _ & G3 & G4).
  rewrite M; [apply Hm|intros ->; by apply (proj1 (proj2 Hf))|done|done].
Qed.
Lemma mapped_touched root s tau s' tau' v n s2 : mapped_at root s tau s' v n -> grown root 4 s tau s' tau' -> touched root tau' n s' s2 -> ~ win_va s tau v ->
  mapped_at root s tau s2 v n.
Proof.
  intros Hk G T Hv c Hc. destruct (Hk c Hc) as [K1 K2]. split; [|intros v' Hne Hw]; rewrite (to_walk _ _ _ _ _ T) by (done || by rewrite (grown_win _ _ _ _ _ _ _ G)); auto.
Qed.

(** An operation on the bytes of a frame. *)
Lemma wp_on_frame {A} root s tau n (m : M (list Z) A) (Q : A -> vmm -> Prop) : vinv s root tau -> spare s tau n -> 0 <= n < 2 ^ 40 ->
  (forall old, zlen old = PAGE_SIZE -> wp m (fun a pg => forall s', touched root tau n s s' -> (Forall byte pg -> page_is pg (v_mem s' n)) -> Q a s') old) ->
  wp (p <-- vmm_scratch_map_process (n * PAGE_SIZE) ;; on_page p m) Q s.
Proof.
  intros Hinv Hsp Hn Hm. unfold vmm_scratch_map_process. apply wp_bind, (wp_scratch root s tau); [done|lia|done|]. intros s1 V E Hf _ Hm1.
  unfold on_page, deref, v_write. wp_steps. eapply wp_opt; [exact Hf|]. wp_steps.
  pose proof (Hm (page_bytes (v_mem s1) n) (page_bytes_length _ _)) as H. unfold wp in H. destruct (m _) as [[a pg]|]; [|done].
  wp_steps. assert (Hother : forall g i, g <> n -> pwrite n pg (v_mem s1) g i = v_mem s1 g i) by (intros; by apply pwrite_ne).
  destruct (spare_write root s1 tau n _ (vs_inv _ _ _ _ _ _ V) (proj1 Hsp) Hother) as [I2 Wk]. apply H.
  - split; cbn; [done|by rewrite E| |].
    + intros f i H1 H2 H3. rewrite Hother by done. by apply Hm1.
    + intros c v Hc Hw. rewrite Wk by done. by apply (vs_walk _ _ _ _ _ _ V).
  - intros Hb k Hk. by apply byte_of_written.
Qed.

Lemma wp_alloc_stack root s tau v : vinv s root tau -> g_vmm_lock s = false -> 0 <= root < 2 ^ 40 -> (4 <= length (free_list (v_pmm s)))%nat -> ~ win_va s tau v ->
  wp (alloc_stack (root * PAGE_SIZE) v) (fun r s' => exists n tau', r = inl (n * PAGE_SIZE) /\ 0 < n < 2 ^ 24 /\ n ∈ free_list (v_pmm s) /\
    grown root 4 s tau s' tau' /\ spare s' tau' n /\ mapped_at root s tau s' v n) s.
Proof.
  intros Hinv Hl Hroot Hfree Hwin. unfold alloc_stack. apply wp_bind, (wp_take_frame root s tau); [done|done|lia|]. intros n s1 Hn G1 Hsp1 Em Hin.
  unfold PAGE_SIZE at 1. rewrite (proj2 (Z.eqb_neq _ _)) by lia. unfold vmm_scratch_map_process.
  pose proof (grown_win _ _ _ _ _ _ v G1) as Hw1. pose proof (gr_free _ _ _ _ _ _ G1) as Hf1.
  assert (Hmap := wp_map_into root s1 tau 10 v n (gr_inv _ _ _ _ _ _ G1) (gr_lock _ _ _ _ _ _ G1) Hroot (or_introl eq_refl) ltac:(lia) ltac:(by rewrite Hw1) Hsp1 ltac:(lia)).
  apply wp_bind_inv in Hmap. apply wp_bind. eapply wp_mono; [exact Hmap|]. cbn beta. intros pm s2 H2. apply wp_bind. eapply wp_mono; [exact H2|]. cbn beta.
  intros [] s3 (tau' & G3 & Hk). apply wp_ret. exists n, tau'. destruct (gr_spare _ _ _ _ _ _ G3 n Hsp1) as [Hsp3 _]. split_and!; try done; try lia.
  - exact (grown_trans _ 1 3 _ _ _ _ _ _ G1 G3).
  - intros c Hc. destruct (Hk c Hc) as [K1 K2]. split; [done|]. intros v' Hne Hw'. rewrite K2 by (rewrite ?(grown_win _ _ _ _ _ _ _ G1); done). by rewrite Em.
Qed.

(** ** The whole *)

(** The program of [buf] is in place with the arguments [argv]: its image, the
    page of the stack, the layout of the process. *)
Record started (root : Z) (tau : Z -> option (Z * Z)) (buf : list Z) (argv : list (list Z)) (s s' : loader) : Prop := {
  st_image : forall c x b, bf_get F_ADDR c = root -> program_image buf x = Some b -> user_byte (ld_vmm s') c x = Some b;
  st_stack : exists pg off, stack_page argv USER_STACK_VIRTUAL_TOP pg off /\
    (forall c k, bf_get F_ADDR c = root -> 0 <= k < PAGE_SIZE ->
       user_byte (ld_vmm s') c (USER_STACK_VIRTUAL_TOP - PAGE_SIZE + k) = pg !! Z.to_nat k) /\
    ld_proc s' = set_stack_top (USER_STACK_VIRTUAL_TOP - PAGE_SIZE + off) (set_layout (get64 buf 24) (ld_proc s));
  st_rest : exists tau', grown root (4 * (program_pages buf + 1)) (ld_vmm s) tau (ld_vmm s') tau'
}.

Lemma wp_on_vmm2 {A B} (a : M vmm A) (f : A -> M vmm B) {C} (k : B -> M loader C) (Q : C -> loader -> Prop) s :
  wp (p <-- a ;; f p) (fun x v => wp (k x) Q (set_ld_vmm v s)) (ld_vmm s) -> wp (p <-- ld_on_vmm a ;; x <-- ld_on_vmm (f p) ;; k x) Q s.
Proof.
  intros H. apply wp_bind_inv in H. apply wp_bind. unfold ld_on_vmm at 1. apply wp_zoom. eapply wp_mono; [exact H|]. cbn beta. intros p v Hp.
  apply wp_bind. unfold ld_on_vmm. apply wp_zoom. eapply wp_mono; [exact Hp|]. by intros x v'.
Qed.

Lemma stack_at_top pg k : 0 <= k < PAGE_SIZE -> forall img,
  with_page (USER_STACK_VIRTUAL_TOP - PAGE_SIZE) pg img (USER_STACK_VIRTUAL_TOP - PAGE_SIZE + k) = pg !! Z.to_nat k.
Proof.
  intros Hk img. unfold with_page, USER_STACK_VIRTUAL_TOP, PAGE_SIZE in *. rewrite (proj2 (Z.eqb_eq _ _)) by zdiv_lia. f_equal. zdiv_lia.
Qed.

Lemma program_kept buf pg x b : elf_ok buf -> program_image buf x = Some b -> with_page (USER_STACK_VIRTUAL_TOP - PAGE_SIZE) pg (program_image buf) x = Some b.
Proof.
  intros Hok Hx. pose proof (program_below buf x b _ (eo_segments _ Hok) Hx) as Hlt. unfold with_page, USER_STACK_VIRTUAL_TOP, USER_STACK_INITIAL_SIZE, PAGE_SIZE in *.
  rewrite (proj2 (Z.eqb_neq _ _)) by zdiv_lia. done.
Qed.

Section whole.
Context (kmalloc_ok : Z -> bool) (root : Z) (Hroot : 0 <= root < 2 ^ 40).
Context (buf : list Z) (argv : list (list Z)).
Context (Hok : elf_ok buf) (Hargs : Forall (Forall char_ok) argv) (Hargc : zlen argv < 2 ^ 31).

(** The stack, once the segments are there. *)
Lemma wp_load_stack s0 tau0 s tau p : vinv s0 root tau0 -> (forall va, mappable va -> ~ win_va s0 tau0 va) ->
  loading root s0 tau0 (program_pages buf) (program_image buf) s tau -> im_cr3 p = root * PAGE_SIZE ->
  (4 * (program_pages buf + 1) <= length (free_list (v_pmm s0)))%nat ->
  wp (load_stack kmalloc_ok (zlen argv) argv)
    (fun r s' => if args_fit argv && kmalloc_ok (u64 (8 * zlen argv))
       then r = inl tt /\ started root tau0 buf argv (Loader s0 p) s' else r = inr tt) (Loader s (set_layout (get64 buf 24) p)).
Proof using Hroot Hok Hargs Hargc.
  intros Hinv0 Hwin0 [G Hi] Hcr3 Hfree. pose proof (gr_free _ _ _ _ _ _ G) as Hf. set (v := USER_STACK_VIRTUAL_TOP - PAGE_SIZE).
  assert (Hwin : forall x, mappable x -> ~ win_va s tau x) by (intros x Hx; rewrite (grown_win _ _ _ _ _ _ _ G); auto).
  assert (Htop : PAGE_SIZE <= USER_STACK_VIRTUAL_TOP < 2 ^ 48) by (unfold PAGE_SIZE, USER_STACK_VIRTUAL_TOP; lia).
  assert (Hv : mappable v) by (left; vm_compute; split; congruence).
  unfold load_stack. apply wp_bind, wp_get. cbn [ld_proc im_cr3 im_stack_limit set_layout]. rewrite Hcr3. change (USER_STACK_VIRTUAL_TOP - USER_STACK_INITIAL_SIZE) with v.
  apply wp_bind. unfold ld_on_vmm at 1. apply wp_zoom. cbn [ld_vmm]. eapply wp_mono; [apply (wp_alloc_stack root s tau v); [apply G|apply G|done|lia|by apply Hwin]|].
  cbn beta. intros r s1 (n & tau1 & -> & Hn & Hin & G1 & Hsp & Hk). cbn [set_ld_vmm ld_proc].
  assert (I1 := gr_inv _ _ _ _ _ _ G1).
  destruct (kmalloc_ok (u64 (8 * zlen argv))); cbn [negb andb]; [rewrite andb_true_r|rewrite andb_false_r].
  - apply wp_on_vmm2. cbn [ld_vmm stack_top set_layout]. apply (wp_on_frame root s1 tau1 n); [done|done|lia|]. intros old Hold.
    apply (wp_build_stack argv USER_STACK_VIRTUAL_TOP Hargs Htop Hargc); [exact Hold| |intros pg Hfit s2 _ _; wp_steps; by rewrite Hfit].
    intros pg off Hfit Hpg s2 T Hpi. wp_steps. rewrite Hfit. split; [done|]. pose proof Hpg as [Hl Hby _ _ _ _]. specialize (Hpi Hby).
    assert (G2 : grown root (4 * (program_pages buf + 1)) s0 tau0 s2 tau1).
    { rewrite Nat.mul_add_distr_l. eapply grown_trans; [exact G|]. by eapply grown_touched. }
    assert (H2 : holds root s2 tau1 (with_page v pg (program_image buf))).
    { eapply (holds_page root 4 s tau); [exact Hi|by eapply grown_touched|eapply mapped_touched; [exact Hk|exact G1|exact T|by apply Hwin]|exact Hwin|exact Hv|eapply touched_spare; [exact T|exact Hsp]|done|done]. }
    constructor; cbn.
    + intros c x b Hc Hx. eapply holds_user; [exact H2|done|]. by apply program_kept.
    + exists pg, off. split; [done|]. split; [|f_equal; unfold PAGE_SIZE; lia]. intros c k Hc Hk'. fold v.
      destruct (zlen_lookup pg k) as [b Hb]; [lia|]. rewrite Hb. eapply holds_user; [exact H2|done|]. unfold v. by rewrite stack_at_top.
    + by exists tau1.
  - apply wp_on_vmm2. cbn [ld_vmm]. apply (wp_on_frame root s1 tau1 n); [done|done|lia|]. intros old Hold.
    apply wp_fill_bytes; [done|done|by rewrite Hold|]. intros pg _ _ s2 _ _. by wp_steps.
Qed.
End whole.
