(* ===== verification/ElfCheck.v ===== *)
(** * The loader's promises *)

From Stdlib Require Import ZArith Lia.
From stdpp Require Import base tactics list.
From S2P Require Import Prelude Bitmap Paging Pmm Vmm Pages UserMem Bytes Elf ElfThms ElfArgs ElfLoad.

(** C18: A well-formed program starts as its file describes it.  Where the
    arguments fit and memory suffices, [elf_parse_and_map] returns the entry
    point; every byte the program headers describe then reads, through the new
    address space, as the byte of the file or as the zero of the .bss part, the
    stack page decodes to the arguments, and the process has the layout of the
    header with its stack pointer at [argc].  Where they do not fit, the result
    is 0. *)
Theorem elf_image_correct kmalloc_ok root s tau buf argv :
  elf_ok buf -> Forall (Forall char_ok) argv -> zlen argv < 2 ^ 31 ->
  vinv (ld_vmm s) root tau -> g_vmm_lock (ld_vmm s) = false -> 0 <= root < 2 ^ 40 ->
  (forall va, mappable va -> ~ win_va (ld_vmm s) tau va) -> im_cr3 (ld_proc s) = root * PAGE_SIZE ->
  (4 * (program_pages buf + 1) <= length (free_list (v_pmm (ld_vmm s))))%nat ->
  wp (elf_parse_and_map kmalloc_ok (Some buf) (zlen buf) (zlen argv) argv)
    (fun r s' => if args_fit argv && kmalloc_ok (u64 (8 * zlen argv))
       then r = get64 buf 24 /\ started root tau buf argv s s' else r = 0) s.
Proof.
  intros Hok Hargs Hargc Hinv Hl Hroot Hwin Hcr3 Hfree. pose proof Hok as [Hb Hsz Hm Hmach _ _]. destruct s as [v p]. cbn [ld_vmm ld_proc] in *.
  unfold elf_parse_and_map. rewrite (proj2 (Z.ltb_ge _ _)) by lia. apply wp_bind, wp_read_ehdr; [lia|]. cbn [e_ident e_machine e_entry ehdr_at].
  rewrite take_take, bool_decide_true by done. cbn [negb]. rewrite Hmach. cbn [negb Z.eqb Pos.eqb].
  apply wp_bind, wp_modify. apply wp_bind, wp_get. cbn [ld_proc set_ld_proc ld_vmm im_cr3 set_layout]. rewrite Hcr3.
  apply wp_bind. unfold ld_on_vmm. apply wp_zoom. cbn [ld_vmm].
  eapply wp_mono; [apply (wp_load_segments root Hroot v tau Hinv Hl Hwin buf Hok); lia|]. cbn beta. intros r v1 [-> (tau1 & L)].
  apply wp_bind. eapply wp_mono; [by apply (wp_load_stack kmalloc_ok root Hroot buf argv Hok Hargs Hargc v tau v1 tau1 p)|]. cbn beta. intros r s'.
  destruct (args_fit argv && kmalloc_ok (u64 (8 * zlen argv))); [intros [-> H]|intros ->]; by wp_steps.
Qed.

(** C27: Arguments survive the trip through the stack.  The page that
    [build_stack] writes, read the way a program's start code reads it (the
    count at the stack pointer, the table above it, the strings behind the
    addresses), yields the arguments again, and they are refused exactly when
    they and their table do not fit in the page. *)
Theorem stack_arguments_roundtrip argv top old :
  Forall (Forall char_ok) argv -> zlen argv < 2 ^ 31 -> PAGE_SIZE <= top < 2 ^ 48 -> zlen old = PAGE_SIZE ->
  wp (build_stack (zlen argv) argv top)
    (fun r pg => match r with
                 | inl off => args_fit argv = true /\ read_args pg off (top - PAGE_SIZE) = argv /\ stack_page argv top pg off
                 | inr _ => args_fit argv = false
                 end) old.
Proof.
  intros Hargs Hargc Htop Hold. apply (wp_build_stack argv top Hargs Htop Hargc); [done| |by intros].
  intros pg off Hfit Hpg. split; [done|]. split; [apply Hpg|done].
Qed.

(** What is not a program for this machine changes nothing. *)
Theorem elf_parse_rejects kmalloc_ok buf argc argv s :
  (zlen buf < EHDR_SIZE \/ take 4 buf <> [0x7F; 69; 76; 70] \/ get16 buf 18 <> 0x3E) ->
  wp (elf_parse_and_map kmalloc_ok (Some buf) (zlen buf) argc argv) (fun r s' => r = 0 /\ s' = s) s.
Proof.
  intros H. unfold elf_parse_and_map. destruct (Z.ltb_spec (zlen buf) EHDR_SIZE) as [Hl|Hl]; [by wp_steps|].
  apply wp_bind, wp_read_ehdr; [done|]. cbn [e_ident e_machine ehdr_at]. rewrite take_take. change (Nat.min 4 16) with 4%nat.
  case_bool_decide; cbn [negb]; [|by wp_steps]. destruct (Z.eqb_spec (get16 buf 18) 0x3E); cbn [negb]; [|by wp_steps].
  destruct H as [?|[?|?]]; [lia|done|done].
Qed.

(** ** A program *)

(** One segment at 4 MiB: four bytes of the file, then zeros. *)
Definition tiny_program : list Z :=
  [0x7F; 69; 76; 70] ++ replicate 12 0 ++ [2; 0; 0x3E; 0] ++ replicate 4 0 ++ le64 0x400000 ++ le64 64 ++ replicate 16 0 ++ [1; 0] ++ replicate 6 0 ++
  le32 1 ++ le32 5 ++ le64 120 ++ le64 0x400000 ++ le64 0 ++ le64 4 ++ le64 8 ++ le64 4096 ++ [11; 22; 33; 44].

Lemma tiny_header : phdrs tiny_program (Z.to_nat (get16 tiny_program 56)) = [Phdr PT_LOAD 120 0x400000 4 8].
Proof. vm_compute. reflexivity. Qed.
Lemma tiny_ok : elf_ok tiny_program.
Proof.
  split; try (vm_compute; intuition congruence).
  - repeat (apply Forall_cons_2; [unfold byte; vm_compute; intuition congruence|]). apply Forall_nil_2.
  - rewrite tiny_header. apply Forall_singleton. intros _. split; vm_compute; intuition congruence.
Qed.

Definition loader_start : loader := Loader example_vmm (Image (example_root * PAGE_SIZE) 0 0 0 0 0).

Lemma elf_image_correct_witness :
  wp (elf_parse_and_map (fun _ => true) (Some tiny_program) (zlen tiny_program) 2 [[108; 115]; [45; 97]])
    (fun r s' => r = 0x400000 /\ user_byte (ld_vmm s') (example_root * PAGE_SIZE) 0x400002 = Some 33 /\
       user_byte (ld_vmm s') (example_root * PAGE_SIZE) 0x400006 = Some 0) loader_start.
Proof.
  eapply wp_mono.
  - apply (elf_image_correct (fun _ => true) example_root loader_start example_tau tiny_program [[108; 115]; [45; 97]]);
      [exact tiny_ok | repeat constructor | done | apply example_vinv | done | done | intros va _; apply example_no_window | done | vm_compute; lia].
  - cbn beta. intros r s' H. assert (E : args_fit [[108; 115]; [45; 97]] = true) by (vm_compute; reflexivity). rewrite E in H. cbn [andb] in H.
    destruct H as [-> [Himg _ _]]. split; [vm_compute; reflexivity|]. split; apply Himg; vm_compute; reflexivity.
Defined.

Lemma stack_arguments_roundtrip_witness :
  wp (build_stack 2 [[108; 115]; [45; 97]] USER_STACK_VIRTUAL_TOP)
    (fun r pg => exists off, r = inl off /\ read_args pg off (USER_STACK_VIRTUAL_TOP - PAGE_SIZE) = [[108; 115]; [45; 97]]) (replicate 4096 7).
Proof.
  eapply wp_mono.
  - apply (stack_arguments_roundtrip [[108; 115]; [45; 97]] USER_STACK_VIRTUAL_TOP (replicate 4096 7));
      [repeat constructor | done | vm_compute; intuition congruence | vm_compute; reflexivity].
  - cbn beta. intros [off|u] pg H; [exists off; by destruct H as (_ & H & _)|]. vm_compute in H. discriminate H.
Defined.

(** ** Findings *)

(** A segment that starts inside a page: the bytes at its start come from
    behind the start of its part of the file. *)
Definition unaligned_header : Elf64_Phdr := Phdr PT_LOAD 0 0x400002 4 4.
Lemma unaligned_segment_shifted :
  match fill_segment_page [11; 22; 33; 44; 55; 66] unaligned_header 0x400000 (replicate 4096 0) with
  | Ok (_, pg) => take 6 pg = [0; 0; 33; 44; 55; 66] /\ seg_byte [11; 22; 33; 44; 55; 66] unaligned_header 0x400002 = 11
  | Stop _ => False
  end.
Proof. vm_compute. by split. Qed.

(** With an even number of arguments the stack pointer is 8 modulo 16. *)
Lemma stack_pointer_misaligned :
  match build_stack 2 [[108; 115]; [45; 97]] USER_STACK_VIRTUAL_TOP (replicate 4096 0) with
  | Ok (inl off, _) => (USER_STACK_VIRTUAL_TOP - PAGE_SIZE + off) mod 16 = 8
  | _ => False
  end.
Proof. vm_compute. reflexivity. Qed.

(** The header's table is taken where it says, past the end of the file. *)
Lemma table_outside_file : elf_parse_and_map (fun _ => true) (Some (take 64 tiny_program)) 64 0 [] loader_start = Stop OutOfBounds.
Proof. vm_compute. reflexivity. Qed.
