(* ===== verification/Kmod.v ===== *)
(** * Kernel modules

    [kernel/kmods]: the loader of relocatable ELF files ([loader.c]), the list
    of loaded modules ([kmod.c]) and the table of exported symbols
    ([symbols.c]).  The file is a buffer of bytes whose section headers the
    loader changes; a section in memory is the block [kmalloc] returned, and an
    access outside it stops.  The kernel's [strcmp] tells strings apart as soon
    as one of them is not empty, which holds at each of its calls here.  The
    fields of the file's header are read once: the section headers, the only
    thing the loader changes in the file, do not overlap it. *)

From Stdlib Require Import ZArith Lia.
From stdpp Require Import base tactics list gmap.
From S2P Require Import Prelude Pages Alloc Bytes Elf.

Definition SHT_PROGBITS : Z := 1.
Definition SHT_SYMTAB : Z := 2.
Definition SHT_RELA : Z := 4.
Definition SHT_NOBITS : Z := 8.
Definition SHF_ALLOC : Z := 2.
Definition R_X86_64_64 : Z := 1.
Definition R_X86_64_PC32 : Z := 2.
Definition R_X86_64_PLT32 : Z := 4.
Definition R_X86_64_32 : Z := 10.
Definition R_X86_64_32S : Z := 11.
Definition SHDR_SIZE : Z := 64.
Definition SYM_SIZE : Z := 24.
Definition RELA_SIZE : Z := 24.
Definition MODULE_SIZE : Z := 128.

(** [".eh_frame"], ["module_init"], ["module_exit"] and ["sample_mod"]. *)
Definition EH_FRAME : list Z := [46; 101; 104; 95; 102; 114; 97; 109; 101].
Definition MODULE_INIT : list Z := [109; 111; 100; 117; 108; 101; 95; 105; 110; 105; 116].
Definition MODULE_EXIT : list Z := [109; 111; 100; 117; 108; 101; 95; 101; 120; 105; 116].
Definition SAMPLE_MOD : list Z := [115; 97; 109; 112; 108; 101; 95; 109; 111; 100].

Record Elf64_Shdr : Type := Shdr {
  sh_name : Z; sh_type : Z; sh_flags : Z; sh_addr : Z; sh_offset : Z; sh_size : Z; sh_link : Z; sh_info : Z
}.
Record Elf64_Sym : Type := Sym { st_name : Z; st_shndx : Z; st_value : Z }.
Record Elf64_Rela : Type := Rela { r_offset : Z; r_info : Z; r_addend : Z }.

Definition read_shdr {S} (file : list Z) (off : Z) : M S Elf64_Shdr :=
  name <-- ld32 file off ;; type <-- ld32 file (off + 4) ;; flags <-- ld64 file (off + 8) ;; addr <-- ld64 file (off + 16) ;;
  offset <-- ld64 file (off + 24) ;; size <-- ld64 file (off + 32) ;; link <-- ld32 file (off + 40) ;; info <-- ld32 file (off + 44) ;;
  kret (Shdr name type flags addr offset size link info).
Definition read_sym {S} (file : list Z) (off : Z) : M S Elf64_Sym :=
  name <-- ld32 file off ;; shndx <-- ld16 file (off + 6) ;; value <-- ld64 file (off + 8) ;; kret (Sym name shndx value).
Definition read_rela {S} (file : list Z) (off : Z) : M S Elf64_Rela :=
  offset <-- ld64 file off ;; info <-- ld64 file (off + 8) ;; addend <-- ld64 file (off + 16) ;; kret (Rela offset info addend).

(** A string that ends inside the buffer. *)
Definition c_string {S} (file : list Z) (off : Z) : M S (list Z) :=
  let l := drop (Z.to_nat off) file in
  if bool_decide (0 ∈ l) then kret (until_nul l) else kstop OutOfBounds.

Definition is_loaded (sh : Elf64_Shdr) : bool := negb (Z.land (sh_flags sh) SHF_ALLOC =? 0) && negb (sh_size sh =? 0).

(** The control block of a module; [section_allocs] is null or the address of an
    array. *)
Record module_t : Type := Module_t {
  m_name : list Z; m_init : Z; m_exit : Z; section_allocs : Z; alloc_count : Z; m_state : Z; m_next : Z
}.
Definition set_m_next (p : Z) (m : module_t) : module_t :=
  Module_t (m_name m) (m_init m) (m_exit m) (section_allocs m) (alloc_count m) (m_state m) p.

(** [k_calls]: the routines of modules that were run, the last one first; they
    do not change what is modelled here. *)
Record kmods (A : Type) : Type := Kmods {
  k_heap : A;
  k_mem : gmap Z (list Z);
  k_mods : gmap Z module_t;
  k_arrays : gmap Z (list Z);
  modules_head : Z;
  elf_buffer : list Z;
  k_calls : list Z
}.
Arguments Kmods {A}.
Arguments k_heap {A}.
Arguments k_mem {A}.
Arguments k_mods {A}.
Arguments k_arrays {A}.
Arguments modules_head {A}.
Arguments elf_buffer {A}.
Arguments k_calls {A}.

Definition set_k_heap {A} (h : A) (s : kmods A) : kmods A := Kmods h (k_mem s) (k_mods s) (k_arrays s) (modules_head s) (elf_buffer s) (k_calls s).
Definition set_k_mem {A} m (s : kmods A) : kmods A := Kmods (k_heap s) m (k_mods s) (k_arrays s) (modules_head s) (elf_buffer s) (k_calls s).
Definition set_k_mods {A} m (s : kmods A) : kmods A := Kmods (k_heap s) (k_mem s) m (k_arrays s) (modules_head s) (elf_buffer s) (k_calls s).
Definition set_k_arrays {A} m (s : kmods A) : kmods A := Kmods (k_heap s) (k_mem s) (k_mods s) m (modules_head s) (elf_buffer s) (k_calls s).
Definition set_head {A} p (s : kmods A) : kmods A := Kmods (k_heap s) (k_mem s) (k_mods s) (k_arrays s) p (elf_buffer s) (k_calls s).
Definition set_buffer {A} f (s : kmods A) : kmods A := Kmods (k_heap s) (k_mem s) (k_mods s) (k_arrays s) (modules_head s) f (k_calls s).
Definition call {A} (f : Z) (s : kmods A) : kmods A := Kmods (k_heap s) (k_mem s) (k_mods s) (k_arrays s) (modules_head s) (elf_buffer s) (f :: k_calls s).

(** ** The exported symbols *)

Fixpoint kmod_find_symbol (symtab : list (list Z * Z)) (name : list Z) : Z :=
  match symtab with
  | [] => 0
  | (n, address) :: l => if bool_decide (n = name) then address else kmod_find_symbol l name
  end.

Section kmod.
Context {A : Type} `{!Allocator A}.
(** The table of the kernel's symbols, the result of a module's [module_init],
    and what fresh memory holds. *)
Context (kernel_symtab : list (list Z * Z)) (run_init : Z -> Z -> Z) (stale : Z -> Z).

Definition km_alloc (size : Z) : M (kmods A) Z := zoom k_heap set_k_heap (al_alloc size).
Definition km_free (a : Z) : M (kmods A) unit :=
  zoom k_heap set_k_heap (al_free a) ;;;
  kmodify (fun s => set_k_mem (delete a (k_mem s)) (set_k_mods (delete a (k_mods s)) (set_k_arrays (delete a (k_arrays s)) s))).
Definition fresh_bytes (a n : Z) : list Z := (fun k => stale (a + Z.of_nat k)) <$> seq 0 (Z.to_nat n).
Definition put_block (a : Z) (bs : list Z) : M (kmods A) unit := kmodify (fun s => set_k_mem (<[a := bs]> (k_mem s)) s).

(** ** The loader *)

Definition elf_validate_header (file : list Z) : M (kmods A) bool :=
  ident <-- bytes_out file 0 16 ;;
  machine <-- ld16 file 18 ;;
  type <-- ld16 file 16 ;;
  kret (bool_decide (take 4 ident = [0x7F; 69; 76; 70]) && bool_decide (ident !! 4%nat = Some 2) && (machine =? 62) && (type =? 1)).

(** [shdr[i]] *)
Definition shdr (shoff i : Z) : M (kmods A) Elf64_Shdr := file <-- kgets elf_buffer ;; read_shdr file (shoff + i * SHDR_SIZE).

(** First step, one section; [inr]: the code returned. *)
Definition load_section (shoff i : Z) (_ : unit) : M (kmods A) (unit + Z) :=
  sh <-- shdr shoff i ;;
  if negb (is_loaded sh) then kret (inl tt) else
  mem <-- km_alloc (sh_size sh) ;;
  if mem =? 0 then kret (inr (-3)) else
  put_block mem (fresh_bytes mem (sh_size sh)) ;;;
  (if sh_type sh =? SHT_PROGBITS then
     file <-- kgets elf_buffer ;;
     bs <-- bytes_out file (sh_offset sh) (sh_size sh) ;; put_block mem bs
   else if sh_type sh =? SHT_NOBITS then put_block mem (replicate (Z.to_nat (sh_size sh)) 0)
   else kret tt) ;;;
  file <-- kgets elf_buffer ;;
  file' <-- bytes_in file (shoff + i * SHDR_SIZE + 16) (le64 mem) ;;
  kmodify (set_buffer file') ;;;
  kret (inl tt).

(** Second step: where the symbols are, how many, and where their names are. *)
Record symtab_t : Type := Symtab { symtab : Z; sym_count : Z; strtab : Z }.
Definition find_symtab (shoff i : Z) (_ : unit) : M (kmods A) (unit + symtab_t) :=
  sh <-- shdr shoff i ;;
  if sh_type sh =? SHT_SYMTAB then
    strtab_sec <-- shdr shoff (sh_link sh) ;; kret (inr (Symtab (sh_offset sh) (sh_size sh / SYM_SIZE) (sh_offset strtab_sec)))
  else kret (inl tt).

(** The address of a symbol, or the code returned. *)
Definition resolve (shoff shnum : Z) (st : symtab_t) (sym_idx : Z) : M (kmods A) (Z + Z) :=
  file <-- kgets elf_buffer ;;
  sym <-- read_sym file (symtab st + sym_idx * SYM_SIZE) ;;
  if negb (st_shndx sym =? 0) && (st_shndx sym <? shnum) then
    sym_sec <-- shdr shoff (st_shndx sym) ;; kret (inl (u64 (sh_addr sym_sec + st_value sym)))
  else
    sym_name <-- c_string file (strtab st + st_name sym) ;;
    let sym_addr := kmod_find_symbol kernel_symtab sym_name in
    kret (if sym_addr =? 0 then inr (-4) else inl sym_addr).

(** The bytes a relocation stores. *)
Definition patch_bytes (rel_type sym_addr addend patch_ptr : Z) : option (list Z) :=
  if rel_type =? R_X86_64_64 then Some (le64 (u64 (sym_addr + addend)))
  else if (rel_type =? R_X86_64_32) || (rel_type =? R_X86_64_32S) then Some (le32 (u32 (sym_addr + addend)))
  else if (rel_type =? R_X86_64_PC32) || (rel_type =? R_X86_64_PLT32) then Some (le32 (u32 (u64 (sym_addr + addend - patch_ptr))))
  else None.

Definition store_in (base off : Z) (bs : list Z) : M (kmods A) unit :=
  s <-- kget ;;
  b <-- kopt NullDeref (k_mem s !! base) ;;
  b' <-- bytes_in b off bs ;;
  put_block base b'.

Definition apply_rela (shoff shnum : Z) (st : option symtab_t) (target_base off : Z) : M (kmods A) (unit + Z) :=
  file <-- kgets elf_buffer ;;
  rela <-- read_rela file off ;;
  let sym_idx := r_info rela / 2 ^ 32 in
  let rel_type := r_info rela mod 2 ^ 32 in
  st <-- kopt NullDeref st ;;
  r <-- resolve shoff shnum st sym_idx ;;
  match r with
  | inr code => kret (inr code)
  | inl sym_addr =>
      match patch_bytes rel_type sym_addr (r_addend rela) (u64 (target_base + r_offset rela)) with
      | None => kret (inr (-5))
      | Some bs => store_in target_base (r_offset rela) bs ;;; kret (inl tt)
      end
  end.

(** Third step, one section. *)
Definition relocate_section (shoff shnum shstrtab : Z) (st : option symtab_t) (i : Z) (_ : unit) : M (kmods A) (unit + Z) :=
  sh <-- shdr shoff i ;;
  if negb (sh_type sh =? SHT_RELA) then kret (inl tt) else
  target_sec <-- shdr shoff (sh_info sh) ;;
  file <-- kgets elf_buffer ;;
  target_name <-- c_string file (shstrtab + sh_name target_sec) ;;
  if bool_decide (target_name = EH_FRAME) then kret (inl tt) else
  let target_base := sh_addr target_sec in
  if target_base =? 0 then kret (inl tt) else
  loop (Z.to_nat (sh_size sh / RELA_SIZE)) 0 (fun j _ => apply_rela shoff shnum st target_base (sh_offset sh + j * RELA_SIZE)) tt.

(** Fourth step, one symbol: the two entry points. *)
Definition find_entry (shoff shnum : Z) (st : symtab_t) (i : Z) (acc : Z * Z) : M (kmods A) ((Z * Z) + unit) :=
  let '(init_func, exit_func) := acc in
  file <-- kgets elf_buffer ;;
  sym <-- read_sym file (symtab st + i * SYM_SIZE) ;;
  let sec_idx := st_shndx sym in
  if (sec_idx =? 0) || (shnum <=? sec_idx) then kret (inl acc) else
  sym_name <-- c_string file (strtab st + st_name sym) ;;
  if bool_decide (sym_name = MODULE_INIT) then
    sym_sec <-- shdr shoff sec_idx ;; kret (inl (u64 (sh_addr sym_sec + st_value sym), exit_func))
  else if bool_decide (sym_name = MODULE_EXIT) then
    sym_sec <-- shdr shoff sec_idx ;; kret (inl (init_func, u64 (sh_addr sym_sec + st_value sym)))
  else kret (inl acc).

(** The sections to give back: those with an address that are in memory. *)
Definition owned (sh : Elf64_Shdr) : bool := negb (sh_addr sh =? 0) && negb (Z.land (sh_flags sh) SHF_ALLOC =? 0).
Definition count_alloc (shoff i allocs : Z) : M (kmods A) (Z + unit) :=
  sh <-- shdr shoff i ;; kret (inl (if owned sh then allocs + 1 else allocs)).
Definition note_alloc (shoff i : Z) (arr : list Z) : M (kmods A) (list Z + unit) :=
  sh <-- shdr shoff i ;; kret (inl (if owned sh then arr ++ [sh_addr sh] else arr)).

Definition kmod_register_tracked_module (new_mod : Z) : M (kmods A) unit :=
  if new_mod =? 0 then kret tt else
  s <-- kget ;;
  m <-- kopt NullDeref (k_mods s !! new_mod) ;;
  kput (set_head new_mod (set_k_mods (<[new_mod := set_m_next (modules_head s) m]> (k_mods s)) s)).

(** Fifth step. *)
Definition track_module (shoff shnum init_func exit_func : Z) : M (kmods A) Z :=
  new_mod <-- km_alloc MODULE_SIZE ;;
  if new_mod =? 0 then kret 0 else
  r <-- loop (Z.to_nat shnum) 0 (count_alloc shoff) 0 ;;
  let allocs := match r with inl n => n | inr _ => 0 end in
  arr <-- km_alloc (8 * allocs) ;;
  (if arr =? 0 then kret tt else
   r <-- loop (Z.to_nat shnum) 0 (note_alloc shoff) [] ;;
   kmodify (fun s => set_k_arrays (<[arr := match r with inl l => l | inr _ => [] end]> (k_arrays s)) s)) ;;;
  kmodify (fun s => set_k_mods (<[new_mod := Module_t SAMPLE_MOD init_func exit_func arr allocs 1 0]> (k_mods s)) s) ;;;
  kmod_register_tracked_module new_mod ;;;
  kret 0.

(** The steps behind the checks of the header. *)
Definition link_module (shoff shnum shstrtab dev : Z) : M (kmods A) Z :=
  r <-- loop (Z.to_nat shnum) 0 (load_section shoff) tt ;;
  match r with
  | inr code => kret code
  | inl _ =>
      r <-- loop (Z.to_nat shnum) 0 (find_symtab shoff) tt ;;
      let st := match r with inr st => Some st | inl _ => None end in
      r <-- loop (Z.to_nat shnum) 0 (relocate_section shoff shnum shstrtab st) tt ;;
      match r with
      | inr code => kret code
      | inl _ =>
          r <-- match st with
                | None => kret (inl (0, 0))
                | Some st => loop (Z.to_nat (sym_count st)) 0 (find_entry shoff shnum st) (0, 0)
                end ;;
          let '(init_func, exit_func) := match r with inl p => p | inr _ => (0, 0) end in
          if init_func =? 0 then kret (-6) else
          kmodify (call init_func) ;;;
          let status := run_init init_func dev in
          if negb (status =? 0) then kret status else track_module shoff shnum init_func exit_func
      end
  end.

(** [size] is that of the buffer, or the buffer is null. *)
Definition kmod_load (buffer : bool) (size dev : Z) : M (kmods A) Z :=
  if negb buffer || (size <? EHDR_SIZE) then kret (-1) else
  file <-- kgets elf_buffer ;;
  valid <-- elf_validate_header file ;;
  if negb valid then kret (-2) else
  shoff <-- ld64 file 40 ;;
  shnum <-- ld16 file 60 ;;
  shstrndx <-- ld16 file 62 ;;
  shstrtab_sec <-- shdr shoff shstrndx ;;
  link_module shoff shnum (sh_offset shstrtab_sec) dev.

(** ** The list of modules *)

Definition kmod_init : M (kmods A) Z := kmodify (set_head 0) ;;; kret 0.

(** The module with the name, and the one before it. *)
Fixpoint find_module (fuel : nat) (name : list Z) (current previous : Z) : M (kmods A) (Z * Z) :=
  if current =? 0 then kret (0, previous) else
  match fuel with
  | O => kstop NoFuel
  | Datatypes.S fuel' =>
      s <-- kget ;;
      m <-- kopt NullDeref (k_mods s !! current) ;;
      if bool_decide (m_name m = name) then kret (current, previous) else find_module fuel' name (m_next m) current
  end.

Definition kmod_unload (name : option (list Z)) : M (kmods A) Z :=
  match name with
  | None => kret (-1)
  | Some name =>
      s <-- kget ;;
      r <-- find_module (size (k_mods s)) name (modules_head s) 0 ;;
      let '(current, previous) := r in
      if current =? 0 then kret (-2) else
      m <-- kopt NullDeref (k_mods s !! current) ;;
      (if m_exit m =? 0 then kret tt else kmodify (call (m_exit m))) ;;;
      (if previous =? 0 then kmodify (set_head (m_next m))
       else p <-- kopt NullDeref (k_mods s !! previous) ;;
            kmodify (fun s => set_k_mods (<[previous := set_m_next (m_next m) p]> (k_mods s)) s)) ;;;
      (if section_allocs m =? 0 then kret tt else
       arr <-- kopt NullDeref (k_arrays s !! section_allocs m) ;;
       for_ (Z.to_nat (alloc_count m)) 0 (fun i => p <-- rd arr i ;; if p =? 0 then kret tt else km_free p) ;;;
       km_free (section_allocs m)) ;;;
      km_free current ;;;
      kret 0
  end.

(** The addresses [kmod_print_all] prints. *)
Fixpoint print_modules (fuel : nat) (current : Z) : M (kmods A) (list Z) :=
  if current =? 0 then kret [] else
  match fuel with
  | O => kstop NoFuel
  | Datatypes.S fuel' =>
      s <-- kget ;;
      m <-- kopt NullDeref (k_mods s !! current) ;;
      base_addr <-- (if 0 <? alloc_count m then arr <-- kopt NullDeref (k_arrays s !! section_allocs m) ;; rd arr 0 else kret 0) ;;
      rest <-- print_modules fuel' (m_next m) ;;
      kret (base_addr :: rest)
  end.
Definition kmod_print_all : M (kmods A) (list Z) := s <-- kget ;; print_modules (size (k_mods s)) (modules_head s).
End kmod.
