(* ===== verification/KmodLink.v ===== *)
(** * Modules are linked as the ABI asks

    [mod_ok] describes the files a linker makes; [abi_linked] is what the ABI
    asks of a section in memory: at the place of every relocation whose value
    fits there that value, and everywhere else the bytes of the file, zeros for
    a section without bytes in the file.  The first three steps of the loader
    lead there; [linked] is what they store, values that do not fit
    included. *)

From Stdlib Require Import ZArith Lia.
From stdpp Require Import base tactics list gmap.
From S2P Require Import Prelude Pages Alloc Bytes Elf ElfThms ElfArgs Kmod.

(** ** Views of the file *)

Definition shdr_at (f : list Z) (shoff : Z) (i : nat) : Elf64_Shdr :=
  let off := shoff + Z.of_nat i * SHDR_SIZE in let at_ k := Z.to_nat (off + k) in
  Shdr (get32 f (at_ 0)) (get32 f (at_ 4)) (get64 f (at_ 8)) (get64 f (at_ 16)) (get64 f (at_ 24)) (get64 f (at_ 32)) (get32 f (at_ 40)) (get32 f (at_ 44)).
Definition sym_at (f : list Z) (off : Z) : Elf64_Sym := Sym (get32 f (Z.to_nat off)) (get16 f (Z.to_nat (off + 6))) (get64 f (Z.to_nat (off + 8))).
Definition rela_at (f : list Z) (off : Z) : Elf64_Rela := Rela (get64 f (Z.to_nat off)) (get64 f (Z.to_nat (off + 8))) (get64 f (Z.to_nat (off + 16))).
Definition set_sh_addr (a : Z) (sh : Elf64_Shdr) : Elf64_Shdr :=
  Shdr (sh_name sh) (sh_type sh) (sh_flags sh) a (sh_offset sh) (sh_size sh) (sh_link sh) (sh_info sh).

Lemma wp_read_shdr {X} f shoff (i : nat) (Q : Elf64_Shdr -> X -> Prop) s : 0 <= shoff -> shoff + (Z.of_nat i + 1) * SHDR_SIZE <= zlen f ->
  Q (shdr_at f shoff i) s -> wp (read_shdr f (shoff + Z.of_nat i * SHDR_SIZE)) Q s.
Proof.
  unfold SHDR_SIZE. intros Hp Hl HQ. unfold read_shdr.
  do 8 (apply wp_bind; eapply wp_intro; [(apply ld32_ok || apply ld64_ok); lia|]).
  unfold shdr_at, SHDR_SIZE in HQ. by rewrite Z.add_0_r in HQ.
Qed.
Lemma wp_read_sym {X} f off (Q : Elf64_Sym -> X -> Prop) s : 0 <= off -> off + SYM_SIZE <= zlen f -> Q (sym_at f off) s -> wp (read_sym f off) Q s.
Proof.
  unfold SYM_SIZE. intros Hp Hl HQ. unfold read_sym. do 3 (apply wp_bind; eapply wp_intro; [(apply ld16_ok || apply ld32_ok || apply ld64_ok); lia|]). exact HQ.
Qed.
Lemma wp_bytes_in_put {X} b off src (Q : list Z -> X -> Prop) s : 0 <= off -> off + zlen src <= zlen b -> Q (put (Z.to_nat off) src b) s -> wp (bytes_in b off src) Q s.
Proof.
  intros Ho Hl HQ. unfold bytes_in. rewrite (proj2 (Z.leb_le _ _)) by done. wp_steps. unfold put in HQ. unfold zlen in *. by rewrite Z2Nat.inj_add, Nat2Z.id by lia.
Qed.
Lemma wp_read_rela {X} f off (Q : Elf64_Rela -> X -> Prop) s : 0 <= off -> off + RELA_SIZE <= zlen f -> Q (rela_at f off) s -> wp (read_rela f off) Q s.
Proof. unfold RELA_SIZE. intros Hp Hl HQ. unfold read_rela. do 3 (apply wp_bind; eapply wp_intro; [apply ld64_ok; lia|]). exact HQ. Qed.

(** The file in front of the section headers does not change. *)
Lemma get8_take n f i : (i < n)%nat -> get8 (take n f) i = get8 f i.
Proof. intros H. unfold get8. by rewrite lookup_take_lt. Qed.
Lemma get16_take n f i : (i + 2 <= n)%nat -> get16 (take n f) i = get16 f i.
Proof. intros H. unfold get16. by rewrite !get8_take by lia. Qed.
Lemma get32_take n f i : (i + 4 <= n)%nat -> get32 (take n f) i = get32 f i.
Proof. intros H. unfold get32. by rewrite !get16_take by lia. Qed.
Lemma get64_take n f i : (i + 8 <= n)%nat -> get64 (take n f) i = get64 f i.
Proof. intros H. unfold get64. by rewrite !get32_take by lia. Qed.

Section front.
Context (f f' : list Z) (n : Z) (Hn : 0 <= n) (Hf : take (Z.to_nat n) f' = take (Z.to_nat n) f).

Lemma get16_front i : (i + 2 <= Z.to_nat n)%nat -> get16 f' i = get16 f i.
Proof using Hf. intros H. by rewrite <- (get16_take (Z.to_nat n) f), <- (get16_take (Z.to_nat n) f'), Hf by done. Qed.
Lemma get32_front i : (i + 4 <= Z.to_nat n)%nat -> get32 f' i = get32 f i.
Proof using Hf. intros H. by rewrite <- (get32_take (Z.to_nat n) f), <- (get32_take (Z.to_nat n) f'), Hf by done. Qed.
Lemma get64_front i : (i + 8 <= Z.to_nat n)%nat -> get64 f' i = get64 f i.
Proof using Hf. intros H. by rewrite <- (get64_take (Z.to_nat n) f), <- (get64_take (Z.to_nat n) f'), Hf by done. Qed.
Lemma sym_at_front off : 0 <= off -> off + SYM_SIZE <= n -> sym_at f' off = sym_at f off.
Proof using Hf. unfold SYM_SIZE. intros Ho Hl. unfold sym_at. by rewrite get16_front, get32_front, get64_front by lia. Qed.
Lemma rela_at_front off : 0 <= off -> off + RELA_SIZE <= n -> rela_at f' off = rela_at f off.
Proof using Hf. unfold RELA_SIZE. intros Ho Hl. unfold rela_at. by rewrite !get64_front by lia. Qed.
Lemma field_front off k : (off + k <= Z.to_nat n)%nat -> field k off f' = field k off f.
Proof using Hf.
  intros Hl. assert (E : forall g : list Z, field k off g = take k (drop off (take (Z.to_nat n) g))).
  { intros g. unfold field. rewrite !take_drop_commute, take_take. do 2 f_equal. lia. }
  by rewrite E, Hf, <- E.
Qed.
(** A string that ends in front of [n]. *)
Lemma string_front off : 0 ∈ take (Z.to_nat n - off) (drop off f) ->
  0 ∈ drop off f' /\ until_nul (drop off f') = until_nul (drop off f).
Proof using Hf.
  intros H. assert (E : take (Z.to_nat n - off) (drop off f') = take (Z.to_nat n - off) (drop off f)).
  { destruct (decide (off <= Z.to_nat n)%nat); [apply field_front; lia|]. by replace (Z.to_nat n - off)%nat with 0%nat by lia. }
  assert (U : forall m (l : list Z), 0 ∈ take m l -> until_nul l = until_nul (take m l)).
  { induction m as [|m IH]; intros l Hin; [by inversion Hin|]. destruct l as [|c l]; [done|]. cbn in Hin |- *.
    destruct (Z.eqb_spec c 0) as [->|]; [done|]. f_equal. apply IH. by inversion Hin. }
  split.
  - rewrite <- E in H. rewrite <- (take_drop (Z.to_nat n - off) (drop off f')). apply elem_of_app. by left.
  - rewrite (U _ _ H), <- E. apply U. by rewrite E.
Qed.
End front.

(** ** The relocations of the ABI *)

Definition le_bytes (width : nat) (v : Z) : list Z := (fun k => v / 2 ^ (8 * Z.of_nat k) mod 256) <$> seq 0 width.
(** For a symbol at [S] with addend [a], to be stored at [P]. *)
Definition abi_bytes (ty S a P : Z) : option (list Z) :=
  if ty =? R_X86_64_64 then Some (le_bytes 8 (S + a))
  else if (ty =? R_X86_64_32) || (ty =? R_X86_64_32S) then Some (le_bytes 4 (S + a))
  else if (ty =? R_X86_64_PC32) || (ty =? R_X86_64_PLT32) then Some (le_bytes 4 (S + a - P))
  else None.

Lemma le32_digits v : le32 (u32 v) = le_bytes 4 v.
Proof.
  unfold le32, le_bytes, u32. cbn [seq fmap list_fmap]. change (2 ^ (8 * Z.of_nat 0)) with 1. change (2 ^ (8 * Z.of_nat 1)) with 256.
  change (2 ^ (8 * Z.of_nat 2)) with 65536. change (2 ^ (8 * Z.of_nat 3)) with 16777216. do 4 (apply (f_equal2 cons); [zdiv_lia|]). done.
Qed.
Lemma le64_digits v : le64 (u64 v) = le_bytes 8 v.
Proof.
  unfold le64. replace (u64 v mod 2 ^ 32) with (u32 v) by (unfold u32, u64; zdiv_lia). replace (u64 v / 2 ^ 32 mod 2 ^ 32) with (u32 (v / 2 ^ 32)) by (unfold u32, u64; zdiv_lia).
  rewrite !le32_digits. unfold le_bytes. cbn [seq fmap list_fmap app]. rewrite !Z.div_div by done. done.
Qed.
Lemma u64_add a b : u64 (u64 a + b) = u64 (a + b).
Proof. unfold u64. by rewrite Zplus_mod_idemp_l. Qed.
Lemma u64_same a b c : u64 a = u64 b -> u64 (a + c) = u64 (b + c).
Proof. intros H. by rewrite <- (u64_add a), <- (u64_add b), H. Qed.
Lemma u32_u64 a b : u64 a = u64 b -> u32 a = u32 b.
Proof. unfold u64, u32. zdiv_lia. Qed.
(** The loader computes with wrapped addresses. *)
Lemma patch_abi ty S S' a P : u64 S = u64 S' -> patch_bytes ty S a (u64 P) = abi_bytes ty S' a P.
Proof.
  intros HS. unfold patch_bytes, abi_bytes. pose proof (u64_same _ _ a HS) as HA. rewrite HA, le64_digits, (u32_u64 _ _ HA), le32_digits.
  assert (E : u32 (u64 (S + a - u64 P)) = u32 (S' + a - P)) by (unfold u32, u64 in *; zdiv_lia). by rewrite E, le32_digits.
Qed.

(** ** What a module file says *)

Section spec.
Context (kernel_symtab : list (list Z * Z)) (stale : Z -> Z) (f : list Z).

Definition f_shoff : Z := get64 f 40.
Definition f_shnum : nat := Z.to_nat (get16 f 60).
Definition sec (i : nat) : Elf64_Shdr := shdr_at f f_shoff i.
Definition f_shstrtab : Z := sh_offset (sec (Z.to_nat (get16 f 62))).
Definition str_at (off : Z) : list Z := until_nul (drop (Z.to_nat off) f).
Definition str_ok (off : Z) : bool := bool_decide (0 ∈ take (Z.to_nat f_shoff - Z.to_nat off) (drop (Z.to_nat off) f)).

(** The symbols, of the first symbol table. *)
Definition f_symtab : option symtab_t := head (omap (fun i =>
  if sh_type (sec i) =? SHT_SYMTAB
  then Some (Symtab (sh_offset (sec i)) (sh_size (sec i) / SYM_SIZE) (sh_offset (sec (Z.to_nat (sh_link (sec i))))))
  else None) (seq 0 f_shnum)).
Definition symbol (st : symtab_t) (k : Z) : Elf64_Sym := sym_at f (symtab st + k * SYM_SIZE).
Definition internal (sym : Elf64_Sym) : bool := negb (st_shndx sym =? 0) && (st_shndx sym <? Z.of_nat f_shnum).

(** The value of a symbol when section [i] is at [base i]. *)
Definition sym_value (base : nat -> Z) (st : symtab_t) (sym : Elf64_Sym) : Z :=
  if internal sym then base (Z.to_nat (st_shndx sym)) + st_value sym
  else kmod_find_symbol kernel_symtab (str_at (strtab st + st_name sym)).

(** The relocations, each with the section it is for. *)
Definition relocs_of (i : nat) : list (nat * Elf64_Rela) :=
  let sh := sec i in let t := Z.to_nat (sh_info sh) in
  if (sh_type sh =? SHT_RELA) && negb (bool_decide (str_at (f_shstrtab + sh_name (sec t)) = EH_FRAME)) && is_loaded (sec t)
  then (fun j => (t, rela_at f (sh_offset sh + Z.of_nat j * RELA_SIZE))) <$> seq 0 (Z.to_nat (sh_size sh / RELA_SIZE)) else [].
Definition relocs (n : nat) : list (nat * Elf64_Rela) := seq 0 n ≫= relocs_of.

Definition rel_type (x : nat * Elf64_Rela) : Z := r_info x.2 mod 2 ^ 32.
Definition rel_sym (x : nat * Elf64_Rela) : Z := r_info x.2 / 2 ^ 32.
Definition rel_width (x : nat * Elf64_Rela) : Z := if rel_type x =? R_X86_64_64 then 8 else 4.
Definition rel_bytes (base : nat -> Z) (st : symtab_t) (x : nat * Elf64_Rela) : option (list Z) :=
  abi_bytes (rel_type x) (sym_value base st (symbol st (rel_sym x))) (r_addend x.2) (base x.1 + r_offset x.2).

(** What a section holds before relocation. *)
Definition initial (base : nat -> Z) (i : nat) : list Z :=
  if sh_type (sec i) =? SHT_PROGBITS then field (Z.to_nat (sh_size (sec i))) (Z.to_nat (sh_offset (sec i))) f
  else if sh_type (sec i) =? SHT_NOBITS then replicate (Z.to_nat (sh_size (sec i))) 0
  else fresh_bytes stale (base i) (sh_size (sec i)).

(** Section [i] after the relocations [l], as the loader stores them. *)
Record linked (l : list (nat * Elf64_Rela)) (st : option symtab_t) (base : nat -> Z) (i : nat) (b : list Z) : Prop := {
  lk_length : zlen b = sh_size (sec i);
  lk_places : forall st' x bs, st = Some st' -> x ∈ l -> x.1 = i -> rel_bytes base st' x = Some bs ->
    field (length bs) (Z.to_nat (r_offset x.2)) b = bs;
  lk_rest : forall p, (forall x, x ∈ l -> x.1 = i -> ~ (r_offset x.2 <= Z.of_nat p < r_offset x.2 + rel_width x)) ->
    b !! p = initial base i !! p
}.

(** The value of a relocation as the ABI has it: the address of the symbol plus
    the addend, less the place for the relative ones, modulo 2^64; the 32-bit
    types but the first are signed. *)
Definition signed64 (v : Z) : Z := (v + 2 ^ 63) mod 2 ^ 64 - 2 ^ 63.
Definition relative (ty : Z) : bool := (ty =? R_X86_64_PC32) || (ty =? R_X86_64_PLT32).
Definition rel_value (base : nat -> Z) (st : symtab_t) (x : nat * Elf64_Rela) : Z :=
  let v := sym_value base st (symbol st (rel_sym x)) + r_addend x.2 - (if relative (rel_type x) then base x.1 + r_offset x.2 else 0) in
  if (rel_type x =? R_X86_64_64) || (rel_type x =? R_X86_64_32) then u64 v else signed64 v.
Definition rel_fits (x : nat * Elf64_Rela) (v : Z) : bool :=
  if rel_type x =? R_X86_64_64 then true
  else if rel_type x =? R_X86_64_32 then v <? 2 ^ 32
  else (- 2 ^ 31 <=? v) && (v <? 2 ^ 31).
(** The number at the place of a relocation. *)
Definition place_value (x : nat * Elf64_Rela) (b : list Z) : Z :=
  let i := Z.to_nat (r_offset x.2) in
  if rel_type x =? R_X86_64_64 then get64 b i
  else if rel_type x =? R_X86_64_32 then get32 b i
  else s32 (get32 b i).
(** What the file gives for a section. *)
Definition contents (i : nat) : list Z :=
  if sh_type (sec i) =? SHT_PROGBITS then field (Z.to_nat (sh_size (sec i))) (Z.to_nat (sh_offset (sec i))) f
  else replicate (Z.to_nat (sh_size (sec i))) 0.

(** Section [i], of bytes in the file or of zeros, as the ABI asks with the
    relocations [l]. *)
Record abi_linked (l : list (nat * Elf64_Rela)) (st : option symtab_t) (base : nat -> Z) (i : nat) (b : list Z) : Prop := {
  ak_length : zlen b = sh_size (sec i);
  ak_places : forall st' x, st = Some st' -> x ∈ l -> x.1 = i ->
    rel_fits x (rel_value base st' x) = true -> place_value x b = rel_value base st' x;
  ak_rest : forall p, (forall x, x ∈ l -> x.1 = i -> ~ (r_offset x.2 <= Z.of_nat p < r_offset x.2 + rel_width x)) ->
    b !! p = contents i !! p
}.

(** The entry points: the last symbols with the two names. *)
Definition entry_of (base : nat -> Z) (st : symtab_t) (acc : Z * Z) (k : nat) : Z * Z :=
  let sym := symbol st (Z.of_nat k) in
  if negb (internal sym) then acc else
  if bool_decide (str_at (strtab st + st_name sym) = MODULE_INIT) then (u64 (base (Z.to_nat (st_shndx sym)) + st_value sym), acc.2)
  else if bool_decide (str_at (strtab st + st_name sym) = MODULE_EXIT) then (acc.1, u64 (base (Z.to_nat (st_shndx sym)) + st_value sym))
  else acc.
Definition entry_points (base : nat -> Z) : Z * Z :=
  match f_symtab with None => (0, 0) | Some st => foldl (entry_of base st) (0, 0) (seq 0 (Z.to_nat (sym_count st))) end.

(** ** Well-formed module files *)

Definition section_ok (i : nat) : bool :=
  let sh := sec i in
  (sh_addr sh =? 0) &&
  (negb (is_loaded sh) || ((sh_size sh <? 2 ^ 40 - 16) && (negb (sh_type sh =? SHT_PROGBITS) || (sh_offset sh + sh_size sh <=? f_shoff)))) &&
  (negb (sh_type sh =? SHT_SYMTAB) || (sh_link sh <? Z.of_nat f_shnum)) &&
  (negb (sh_type sh =? SHT_RELA) || ((sh_info sh <? Z.of_nat f_shnum) && str_ok (f_shstrtab + sh_name (sec (Z.to_nat (sh_info sh)))) &&
     (sh_offset sh + sh_size sh <=? f_shoff))).
Definition symbol_ok (st : symtab_t) (k : Z) : bool :=
  (symtab st + (k + 1) * SYM_SIZE <=? f_shoff) && (negb (internal (symbol st k)) || str_ok (strtab st + st_name (symbol st k))).
Definition reloc_ok (st : symtab_t) (x : nat * Elf64_Rela) : bool :=
  (symtab st + (rel_sym x + 1) * SYM_SIZE <=? f_shoff) &&
  (internal (symbol st (rel_sym x)) || (str_ok (strtab st + st_name (symbol st (rel_sym x))) &&
     negb (kmod_find_symbol kernel_symtab (str_at (strtab st + st_name (symbol st (rel_sym x)))) =? 0))) &&
  bool_decide (rel_type x ∈ [R_X86_64_64; R_X86_64_PC32; R_X86_64_PLT32; R_X86_64_32; R_X86_64_32S]) &&
  (r_offset x.2 + rel_width x <=? sh_size (sec x.1)).
(** Relocations that store in different places. *)
Definition apart (x y : nat * Elf64_Rela) : Prop :=
  x.1 <> y.1 \/ r_offset x.2 + rel_width x <= r_offset y.2 \/ r_offset y.2 + rel_width y <= r_offset x.2.

Record mod_ok : Prop := {
  mo_bytes : Forall byte f;
  mo_magic : take 4 f = [0x7F; 69; 76; 70] /\ f !! 4%nat = Some 2 /\ get16 f 18 = 62 /\ get16 f 16 = 1;
  mo_table : EHDR_SIZE <= f_shoff /\ f_shoff + Z.of_nat f_shnum * SHDR_SIZE <= zlen f;
  mo_names : get16 f 62 < Z.of_nat f_shnum;
  mo_sections : Forall section_ok (seq 0 f_shnum);
  mo_symbols : match f_symtab with None => relocs f_shnum = [] | Some st => Forall (fun k => symbol_ok st (Z.of_nat k)) (seq 0 (Z.to_nat (sym_count st))) /\
    Forall (reloc_ok st) (relocs f_shnum) end;
  mo_apart : ForallOrdPairs apart (relocs f_shnum)
}.
End spec.

(** ** One relocation *)

Lemma field_put i src b : (i + length src <= length b)%nat -> field (length src) i (put i src b) = src.
Proof. intros H. unfold field. rewrite drop_put_here by done. by rewrite take_app_length. Qed.
Lemma field_put_other i src b j n : (i + length src <= length b)%nat -> (j + n <= i \/ i + length src <= j)%nat -> field n j (put i src b) = field n j b.
Proof.
  intros H Hj. apply list_eq. intros k. destruct (decide (k < n)%nat) as [Hk|Hk].
  - rewrite !field_lookup, put_lookup by done. by rewrite decide_False by lia.
  - rewrite !lookup_ge_None_2; [done|..]; unfold field; rewrite length_take; lia.
Qed.
Lemma ordpairs_prefix {X} (R : X -> X -> Prop) l x l' : ForallOrdPairs R (l ++ x :: l') -> forall y, y ∈ l -> R y x.
Proof.
  induction l as [|z l IH]; intros H y Hy; [by inversion Hy|]. inversion H as [|? ? Hz Hl]; subst. inversion Hy; subst; [|by apply IH].
  rewrite List.Forall_forall in Hz. apply Hz, in_or_app. right. by left.
Qed.

Section step.
Context (kernel_symtab : list (list Z * Z)) (stale : Z -> Z) (f : list Z).
Context (Hb : Forall byte f).

Lemma sec_ranges i : 0 <= sh_size (sec f i) < 2 ^ 64 /\ 0 <= sh_offset (sec f i) < 2 ^ 64 /\ 0 <= sh_link (sec f i) /\ 0 <= sh_info (sec f i) /\ 0 <= sh_name (sec f i).
Proof using Hb. split_and!; apply get64_range || apply get32_range; done. Qed.
Lemma relocs_spec n x : x ∈ relocs f n -> exists i, (i < n)%nat /\ x ∈ relocs_of f i.
Proof. unfold relocs. intros (i & Hx & Hi)%list_elem_of_bind. exists i. split; [by apply elem_of_seq in Hi; lia|done]. Qed.
Lemma relocs_of_spec i x : x ∈ relocs_of f i -> sh_type (sec f i) = SHT_RELA /\ x.1 = Z.to_nat (sh_info (sec f i)) /\ is_loaded (sec f x.1) = true /\ 0 <= r_offset x.2.
Proof using Hb.
  unfold relocs_of. cbv zeta. match goal with |- context [if ?b then _ else _] => destruct b eqn:E end; [|by intros H; inversion H]. apply andb_prop in E as [[E1 E2]%andb_prop E3]. intros (j & -> & Hj)%list_elem_of_fmap.
  split_and!; [by apply Z.eqb_eq|done|done|]. apply get64_range, Hb.
Qed.

Lemma abi_width ty sa a p : ty ∈ [R_X86_64_64; R_X86_64_PC32; R_X86_64_PLT32; R_X86_64_32; R_X86_64_32S] ->
  exists bs, abi_bytes ty sa a p = Some bs /\ zlen bs = if ty =? R_X86_64_64 then 8 else 4.
Proof.
  rewrite !elem_of_cons. intros [->|[->|[->|[->|[->|H]]]]]; [eexists; split; reflexivity..|by inversion H].
Qed.

Lemma linked_step l st base x b bs : 
  linked kernel_symtab stale f l (Some st) base x.1 b -> rel_bytes kernel_symtab f base st x = Some bs -> zlen bs = rel_width x ->
  0 <= r_offset x.2 -> r_offset x.2 + rel_width x <= sh_size (sec f x.1) ->
  (forall y, y ∈ l -> apart y x /\ 0 <= r_offset y.2 /\ forall bs, rel_bytes kernel_symtab f base st y = Some bs -> zlen bs = rel_width y) ->
  linked kernel_symtab stale f (l ++ [x]) (Some st) base x.1 (put (Z.to_nat (r_offset x.2)) bs b).
Proof using.
  intros [L1 L2 L3] Hbs Hw H0 Hin Hap. assert (Hfit : (Z.to_nat (r_offset x.2) + length bs <= length b)%nat) by (unfold zlen in *; lia). split.
  - unfold zlen in *. by rewrite put_length.
  - intros st' y bs' [= <-] [Hy|Hy]%elem_of_app Ht Hy'.
    + destruct (Hap y Hy) as (Ha & Hy0 & Hyw). rewrite field_put_other; [by eapply L2|done|]. destruct Ha as [?|Ha]; [done|].
      specialize (Hyw _ Hy'). unfold zlen in *. lia.
    + apply list_elem_of_singleton in Hy as ->. rewrite Hbs in Hy'. injection Hy' as <-. by apply field_put.
  - intros p Hp. rewrite put_lookup by done. rewrite decide_False; [apply L3; intros y Hy; apply Hp, elem_of_app; by left|].
    specialize (Hp x ltac:(apply elem_of_app; right; by apply list_elem_of_singleton) eq_refl). unfold zlen in Hw. lia.
Qed.
Lemma linked_other l st base x i b : linked kernel_symtab stale f l st base i b -> x.1 <> i -> linked kernel_symtab stale f (l ++ [x]) st base i b.
Proof.
  intros [L1 L2 L3] Hi. split; [done|..].
  - intros st' y bs Est [Hy|Hy]%elem_of_app Ht; [by eapply L2|]. by apply list_elem_of_singleton in Hy as ->.
  - intros p Hp. apply L3. intros y Hy. apply Hp, elem_of_app. by left.
Qed.
Lemma linked_start st base i b : b = initial stale f base i -> (is_loaded (sec f i) -> sh_type (sec f i) = SHT_PROGBITS -> sh_offset (sec f i) + sh_size (sec f i) <= zlen f) ->
  is_loaded (sec f i) -> linked kernel_symtab stale f [] st base i b.
Proof using Hb.
  intros -> Hp Hl. destruct (sec_ranges i) as (H1 & H2 & _). split; [|intros ? ? ? ? H; by inversion H|done].
  unfold initial. case_if; [specialize (Hp Hl E); unfold zlen in *; rewrite field_length; lia|].
  case_if; [unfold zlen; rewrite length_replicate; lia|]. unfold fresh_bytes, zlen. rewrite length_fmap, length_seq. lia.
Qed.
End step.

(** ** What is stored is what the ABI asks *)

Lemma get8_le_bytes b i w v k : field w i b = le_bytes w v -> (k < w)%nat -> get8 b (i + k) = v / 2 ^ (8 * Z.of_nat k) mod 256.
Proof.
  intros H Hk. unfold get8. rewrite <- (field_lookup w) by done. rewrite H. unfold le_bytes. rewrite list_lookup_fmap, lookup_seq_lt by done. done.
Qed.
Lemma get32_le_bytes b i v w : field w i b = le_bytes w v -> (4 <= w)%nat -> get32 b i = u32 v.
Proof.
  intros H Hw. unfold get32, get16, u32. rewrite <- !Nat.add_assoc. cbn [Nat.add]. rewrite <- (Nat.add_0_r i) at 1.
  rewrite !(get8_le_bytes _ _ _ _ _ H) by lia. change (2 ^ (8 * Z.of_nat 0)) with 1. change (2 ^ (8 * Z.of_nat 1)) with 256.
  change (2 ^ (8 * Z.of_nat 2)) with 65536. change (2 ^ (8 * Z.of_nat 3)) with 16777216. zdiv_lia.
Qed.
Lemma get64_le_bytes b i v : field 8 i b = le_bytes 8 v -> get64 b i = u64 v.
Proof.
  intros H. unfold get64. rewrite (get32_le_bytes _ _ _ _ H) by lia.
  rewrite (get32_le_bytes b (i + 4) (v / 2 ^ 32) 4); [unfold u32, u64; zdiv_lia| |lia].
  apply list_eq. intros k. destruct (decide (k < 4)%nat).
  - rewrite field_lookup by done. rewrite <- Nat.add_assoc, <- (field_lookup 8 i b (4 + k)) by lia. rewrite H. unfold le_bytes.
    rewrite !list_lookup_fmap, !lookup_seq_lt by lia. cbn [fmap option_fmap option_map]. rewrite Z.div_div, <- Z.pow_add_r by lia. do 4 f_equal. lia.
  - rewrite !lookup_ge_None_2; [done|..]; unfold field, le_bytes; rewrite ?length_take, ?length_fmap, ?length_seq; lia.
Qed.

Section abi.
Context (kernel_symtab : list (list Z * Z)) (stale : Z -> Z) (f : list Z).

Lemma linked_abi l st base i b :
  linked kernel_symtab stale f l st base i b ->
  sh_type (sec f i) = SHT_PROGBITS \/ sh_type (sec f i) = SHT_NOBITS ->
  (forall x, x ∈ l -> rel_type x ∈ [R_X86_64_64; R_X86_64_PC32; R_X86_64_PLT32; R_X86_64_32; R_X86_64_32S]) ->
  abi_linked kernel_symtab f l st base i b.
Proof.
  intros [L1 L2 L3] Ht Hty. split; [done| |].
  - intros st' x Est Hx Hi Hfit. specialize (L2 st' x). specialize (Hty x Hx). unfold place_value, rel_fits, rel_value, rel_bytes, abi_bytes, relative in *.
    set (v := sym_value _ _ _ _ _ + _) in *. unfold s32, signed64, u64 in *.
    rewrite !elem_of_cons in Hty. destruct Hty as [E|[E|[E|[E|[E|E]]]]]; [..|by inversion E]; rewrite E in *; cbn [Z.eqb Pos.eqb orb R_X86_64_64 R_X86_64_PC32 R_X86_64_PLT32 R_X86_64_32 R_X86_64_32S] in *;
      specialize (L2 _ Est Hx Hi eq_refl); (unfold le_bytes in L2; rewrite length_fmap, length_seq in L2; fold (le_bytes 8 v) in L2 || idtac).
    + rewrite (get64_le_bytes _ _ v) by exact L2. unfold u64. by rewrite Z.sub_0_r.
    + rewrite (get32_le_bytes _ _ _ 4 L2) by done. unfold u32. zbool. zdiv_lia.
    + rewrite (get32_le_bytes _ _ _ 4 L2) by done. unfold u32. zbool. zdiv_lia.
    + rewrite (get32_le_bytes _ _ _ 4 L2) by done. unfold u32. zbool. zdiv_lia.
    + rewrite (get32_le_bytes _ _ _ 4 L2) by done. unfold u32. zbool. zdiv_lia.
  - intros p Hp. rewrite L3 by done. unfold initial, contents. destruct Ht as [-> | ->]; done.
Qed.
End abi.

(** ** Blocks of the heap *)

Section load.
Context {A : Type} `{!Allocator A}.
Context (kernel_symtab : list (list Z * Z)) (stale : Z -> Z).

Record owns (h : A) (blocks : list (Z * Z)) : Prop := {
  ow_ok : al_ok h blocks;
  ow_distinct : NoDup blocks.*1;
  ow_pos : Forall (fun b => 0 < b.1 /\ 0 < b.2) blocks
}.
#[export] Instance owns_proper h : Proper ((≡ₚ) ==> iff) (owns h).
Proof. intros l l' Hl. split; intros [H1 H2 H3]; split; rewrite ?Hl || rewrite <- ?Hl; done. Qed.

Lemma wp_km_alloc size k blocks (Q : Z -> kmods A -> Prop) s : owns (k_heap s) blocks -> 0 < size < 2 ^ 40 - 16 -> 0 <= k -> al_room (k_heap s) (al_cost size + k) ->
  (forall a h, owns h ((a, size) :: blocks) -> al_room h k -> 0 < a < 2 ^ 64 - size -> Q a (set_k_heap h s)) -> wp (km_alloc size) Q s.
Proof.
  intros [H1 H2 H3] Hs Hk Hr HQ. unfold km_alloc. apply wp_zoom. eapply wp_mono; [by apply (al_alloc_spec _ blocks size k)|].
  cbn beta. intros a h (Hok & Hr' & Ha & Hb & Hd). apply HQ; [|done|lia]. split; [done| |constructor; [cbn; lia|done]].
  cbn. constructor; [|done]. intros ([b n] & E & Hin)%list_elem_of_fmap. cbn in E. subst b. pose proof (Hd _ _ Hin). rewrite Forall_forall in H3. specialize (H3 _ Hin). cbn in H3. lia.
Qed.
Lemma wp_km_free a n blocks rest (Q : unit -> kmods A -> Prop) s : owns (k_heap s) blocks -> blocks ≡ₚ (a, n) :: rest ->
  (forall h, owns h rest -> Q tt (set_k_mem (delete a (k_mem s)) (set_k_mods (delete a (k_mods s)) (set_k_arrays (delete a (k_arrays s)) (set_k_heap h s))))) -> wp (km_free a) Q s.
Proof.
  intros [H1 H2 H3] Hp HQ. unfold km_free. apply wp_bind, wp_zoom. eapply wp_mono; [by apply (al_free_spec _ blocks rest a n)|].
  cbn beta. intros _ h (Hok & _). apply wp_modify. apply (HQ h). rewrite Hp in H2, H3. split; [done|by inversion H2|by inversion H3].
Qed.

(** ** The first step *)

Section file.
Context (f : list Z) (Hf : mod_ok kernel_symtab f).
Notation sec := (sec f).
Notation shoff := (f_shoff f).
Notation shnum := (f_shnum f).

(** The file after section [i] has got the address [base i]. *)
Record view (base : nat -> Z) (f' : list Z) : Prop := {
  vw_length : zlen f' = zlen f;
  vw_front : take (Z.to_nat shoff) f' = take (Z.to_nat shoff) f;
  vw_headers : forall i, (i < shnum)%nat -> shdr_at f' shoff i = set_sh_addr (base i) (sec i)
}.
Definition at_section (i : nat) (a : Z) (base : nat -> Z) : nat -> Z := fun j => if (j =? i)%nat then a else base j.

Lemma section_facts i : (i < shnum)%nat ->
  sh_addr (sec i) = 0 /\
  (is_loaded (sec i) = true -> 0 < sh_size (sec i) < 2 ^ 40 - 16 /\ (sh_type (sec i) = SHT_PROGBITS -> sh_offset (sec i) + sh_size (sec i) <= shoff)) /\
  (sh_type (sec i) = SHT_SYMTAB -> sh_link (sec i) < Z.of_nat shnum) /\
  (sh_type (sec i) = SHT_RELA -> sh_info (sec i) < Z.of_nat shnum /\ str_ok f (f_shstrtab f + sh_name (sec (Z.to_nat (sh_info (sec i))))) = true /\
     sh_offset (sec i) + sh_size (sec i) <= shoff).
Proof using Hf.
  intros Hi. pose proof (mo_sections _ _ Hf) as H. rewrite Forall_forall in H. specialize (H i ltac:(apply elem_of_seq; lia)). apply Is_true_true in H.
  destruct (sec_ranges f (mo_bytes _ _ Hf) i) as (R1 & _). unfold section_ok in H. apply andb_prop in H as [[[H1 H2]%andb_prop H3]%andb_prop H4].
  apply orb_prop in H2, H3, H4. split_and!.
  - by apply Z.eqb_eq.
  - intros Hl. destruct H2 as [H2|H2]; [by rewrite Hl in H2|]. apply andb_prop in H2 as [H2 H5]. apply orb_prop in H5. split.
    + unfold is_loaded in Hl. zbool. lia.
    + intros E. rewrite E in H5. destruct H5; zbool; done.
  - intros E. rewrite E in H3. destruct H3; zbool; done.
  - intros E. rewrite E in H4. destruct H4 as [H4|H4]; [done|]. zbool. split_and!; [lia|done|lia].
Qed.
Lemma section_fits i : (i < shnum)%nat -> 64 <= shoff /\ shoff + (Z.of_nat i + 1) * 64 <= zlen f.
Proof using Hf. intros Hi. pose proof (mo_table _ _ Hf) as [H1 H2]. unfold EHDR_SIZE, SHDR_SIZE in *. lia. Qed.

Lemma view_start : view (fun _ => 0) f.
Proof using Hf.
  split; [done..|]. intros i Hi. destruct (section_facts i Hi) as [H _].
  unfold KmodLink.sec in *. destruct (shdr_at f shoff i). cbn in *. unfold set_sh_addr. cbn. by subst.
Qed.

Lemma view_set base f' i a : view base f' -> (i < shnum)%nat -> 0 <= a < 2 ^ 64 ->
  view (at_section i a base) (put (Z.to_nat (shoff + Z.of_nat i * SHDR_SIZE + 16)) (le64 a) f').
Proof using Hf.
  intros [V1 V2 V3] Hi Ha. destruct (section_fits i Hi) as [T1 T2]. set (p := Z.to_nat _).
  assert (Hp : (p + length (le64 a) <= length f')%nat) by (rewrite le64_length; unfold p, SHDR_SIZE, zlen in *; lia).
  assert (Ep : Z.of_nat p = shoff + Z.of_nat i * 64 + 16) by (unfold p, SHDR_SIZE; lia). pose proof (le64_length a) as EL. clearbody p. unfold zlen in *. split.
  - unfold zlen. by rewrite put_length.
  - rewrite <- V2. unfold put. rewrite take_app_le by (rewrite length_take; lia). rewrite take_take. f_equal. lia.
  - intros j Hj. pose proof (V3 j Hj) as Hv. unfold at_section. destruct (Nat.eqb_spec j i) as [->|Hne].
    + unfold set_sh_addr in *. injection Hv as E1 E2 E3 _ E5 E6 E7 E8. unfold shdr_at, SHDR_SIZE in *.
      replace (Z.to_nat (shoff + Z.of_nat i * 64 + 16)) with p by lia. rewrite get64_put by lia. rewrite !get32_put_other, !get64_put_other by lia.
      by rewrite E1, E2, E3, E5, E6, E7, E8.
    + rewrite <- Hv. unfold shdr_at, SHDR_SIZE in *. rewrite !get32_put_other, !get64_put_other by lia. done.
Qed.

Lemma wp_shdr base i (Q : Elf64_Shdr -> kmods A -> Prop) s : view base (elf_buffer s) -> (i < shnum)%nat -> Q (set_sh_addr (base i) (sec i)) s ->
  wp (Kmod.shdr shoff (Z.of_nat i)) Q s.
Proof using Hf.
  intros [V1 V2 V3] Hi HQ. destruct (section_fits i Hi). unfold Kmod.shdr. wp_steps. apply wp_read_shdr; [lia|unfold SHDR_SIZE; lia|]. by rewrite V3.
Qed.
(** The blocks of the sections, and what they cost. *)
Definition section_blocks (base : nat -> Z) (n : nat) : list (Z * Z) :=
  omap (fun i => if is_loaded (sec i) then Some (base i, sh_size (sec i)) else None) (seq 0 n).
Fixpoint costs (i k : nat) : Z :=
  match k with O => 0 | S k' => (if is_loaded (sec i) then al_cost (sh_size (sec i)) else 0) + costs (S i) k' end.

Lemma costs_nonneg k : forall i, 0 <= costs i k.
Proof. induction k as [|k IH]; intros i; cbn [costs]; [done|]. pose proof (IH (S i)). pose proof (al_cost_nonneg (sh_size (sec i))). case_if; lia. Qed.
Lemma section_blocks_S base n : section_blocks base (S n) = section_blocks base n ++ (if is_loaded (sec n) then [(base n, sh_size (sec n))] else []).
Proof. unfold section_blocks. rewrite seq_S, omap_app. f_equal. cbn. by case_if. Qed.
Lemma section_blocks_ext base base' n : (forall i, (i < n)%nat -> base i = base' i) -> section_blocks base n = section_blocks base' n.
Proof.
  induction n as [|n IH]; intros H; [done|]. rewrite !section_blocks_S, IH by (intros; apply H; lia). by rewrite H by lia.
Qed.
Lemma section_blocks_elem base n i : (i < n)%nat -> is_loaded (sec i) -> (base i, sh_size (sec i)) ∈ section_blocks base n.
Proof.
  intros Hi Hl. unfold section_blocks. apply list_elem_of_omap. exists i. split; [apply elem_of_seq; lia|]. apply Is_true_true in Hl. by rewrite Hl.
Qed.

(** What the loader leaves alone. *)
Record same_modules (live : list (Z * Z)) (s s' : kmods A) : Prop := {
  sm_mods : k_mods s' = k_mods s;
  sm_arrays : k_arrays s' = k_arrays s;
  sm_head : modules_head s' = modules_head s;
  sm_mem : forall a, a ∈ live.*1 -> k_mem s' !! a = k_mem s !! a
}.

(** The first [n] sections are in memory. *)
Record loading (live : list (Z * Z)) (room : Z) (s : kmods A) (n : nat) (base : nat -> Z) (s' : kmods A) : Prop := {
  ld_view : view base (elf_buffer s');
  ld_none : forall i, (n <= i)%nat \/ is_loaded (sec i) = false -> base i = 0;
  ld_owns : owns (k_heap s') (section_blocks base n ++ live);
  ld_room : al_room (k_heap s') (costs n (shnum - n) + room);
  ld_mem : forall i, (i < n)%nat -> is_loaded (sec i) -> k_mem s' !! base i = Some (initial stale f base i);
  ld_range : forall i, (i < n)%nat -> is_loaded (sec i) -> 0 < base i < 2 ^ 64 - sh_size (sec i);
  ld_same : same_modules live s s';
  ld_calls : k_calls s' = k_calls s
}.

Lemma is_loaded_set a sh : is_loaded (set_sh_addr a sh) = is_loaded sh.
Proof. done. Qed.

Lemma wp_fill_section {R} i base base' mem s (k : M (kmods A) R) Q : (i < shnum)%nat -> view base (elf_buffer s) -> is_loaded (sec i) = true -> base' i = mem ->
  wp k Q (set_k_mem (<[mem := initial stale f base' i]> (k_mem s)) s) ->
  wp (put_block mem (fresh_bytes stale mem (sh_size (sec i))) ;;;
      (if sh_type (sec i) =? SHT_PROGBITS then
         file <-- kgets elf_buffer ;; bs <-- bytes_out file (sh_offset (sec i)) (sh_size (sec i)) ;; put_block mem bs
       else if sh_type (sec i) =? SHT_NOBITS then put_block mem (replicate (Z.to_nat (sh_size (sec i))) 0) else kret tt) ;;; k) Q s.
Proof using Hf.
  intros Hi [V1 V2 V3] Hl <- HQ. unfold put_block. wp_steps. unfold initial in HQ. case_if; [|case_if].
  - destruct (section_facts i Hi) as (_ & H & _). destruct (H Hl) as [Hs Hp]. specialize (Hp E).
    destruct (sec_ranges f (mo_bytes _ _ Hf) i) as (R1 & R2 & _). destruct (section_fits i Hi).
    wp_steps. apply wp_bytes_out; [lia|lia|cbn [elf_buffer set_k_mem]; lia|]. wp_steps. cbn [elf_buffer set_k_mem k_mem]. rewrite insert_insert_eq.
    match goal with |- wp k Q ?a => match type of HQ with wp k Q ?b => replace a with b; [exact HQ|] end end.
    unfold set_k_mem. cbn [elf_buffer k_mem k_heap k_mods k_arrays modules_head k_calls]. do 3 f_equal. symmetry. apply (field_front f (elf_buffer s) shoff V2). lia.
  - wp_steps. cbn [elf_buffer set_k_mem k_mem]. by rewrite insert_insert_eq.
  - wp_steps. exact HQ.
Qed.

Lemma at_section_same i a base : at_section i a base i = a.
Proof. unfold at_section. by rewrite Nat.eqb_refl. Qed.
Lemma at_section_ne i a base j : j <> i -> at_section i a base j = base j.
Proof. unfold at_section. intros. by rewrite (proj2 (Nat.eqb_neq _ _)). Qed.
Lemma initial_ext base base' i : base i = base' i -> initial stale f base i = initial stale f base' i.
Proof. unfold initial. by intros ->. Qed.

Lemma wp_load_section live room s n base s' : loading live room s n base s' -> (n < shnum)%nat -> 0 <= room ->
  wp (load_section stale shoff (Z.of_nat n) tt)
    (fun r s'' => match r with inl _ => exists base', loading live room s (Datatypes.S n) base' s'' | inr _ => False end) s'.
Proof using Hf.
  intros [L1 L2 L3 L4 L5 L6 L7 L8] Hn Hroom. unfold load_section. apply wp_bind. eapply wp_shdr; [done..|].
  rewrite is_loaded_set. cbn [sh_size sh_type sh_offset set_sh_addr]. destruct (section_facts n Hn) as (_ & Hs & _).
  replace (shnum - n)%nat with (Datatypes.S (shnum - Datatypes.S n))%nat in L4 by lia. cbn [costs] in L4.
  destruct (is_loaded (sec n)) eqn:El; cbn [negb].
  2:{ apply wp_ret. exists base. split; try done.
      - intros i [Hi|Hi]; apply L2; [left; lia|by right].
      - by rewrite section_blocks_S, El, app_nil_r.
      - intros i Hi Hl. apply L5; [|done]. destruct (decide (i = n)) as [->|]; [by rewrite El in Hl|lia].
      - intros i Hi Hl. apply L6; [|done]. destruct (decide (i = n)) as [->|]; [by rewrite El in Hl|lia]. }
  destruct (Hs eq_refl) as [Hsz _]. pose proof (costs_nonneg (shnum - Datatypes.S n) (Datatypes.S n)) as Hc.
  apply wp_bind. eapply wp_km_alloc; [exact L3|done| |by rewrite <- Z.add_assoc in L4|]; [lia|].
  intros mem h Ho Hr Hm. rewrite (proj2 (Z.eqb_neq mem 0)) by lia.
  set (base' := at_section n mem base).
  assert (Eb : section_blocks base' (Datatypes.S n) ≡ₚ (mem, sh_size (sec n)) :: section_blocks base n).
  { rewrite section_blocks_S, El. unfold base'. rewrite at_section_same. rewrite (section_blocks_ext _ base) by (intros; apply at_section_ne; lia). by rewrite Permutation_app_comm. }
  assert (Hother : forall i, (i < n)%nat -> is_loaded (sec i) -> base i <> mem).
  { intros i Hi Hl Heq. destruct Ho as [_ Hd _]. cbn in Hd. inversion Hd as [|? ? Hin _]; subst. apply Hin. rewrite fmap_app. apply elem_of_app. left.
    apply list_elem_of_fmap. exists (base i, sh_size (sec i)). split; [done|]. by apply section_blocks_elem. }
  assert (Hlive : forall a, a ∈ live.*1 -> a <> mem).
  { intros a Hin ->. destruct Ho as [_ Hd _]. cbn in Hd. inversion Hd as [|? ? Hnin _]; subst. apply Hnin. rewrite fmap_app. apply elem_of_app. by right. }
  assert (Em : base' n = mem) by apply at_section_same.
  assert (Ej : forall j, j <> n -> base' j = base j) by (intros j; apply at_section_ne).
  destruct (section_fits n Hn) as [F1 F2]. pose proof (vw_length _ _ L1) as V1.
  eapply (wp_fill_section n base base'); [done|exact L1|done|done|]. wp_steps. cbn [elf_buffer set_k_mem set_k_heap].
  apply wp_bytes_in_put; [unfold SHDR_SIZE; lia|unfold zlen, SHDR_SIZE in *; rewrite le64_length; lia|]. wp_steps. exists base'.
  split; cbn [elf_buffer set_k_mem set_k_heap set_buffer k_heap k_mem k_mods k_arrays modules_head k_calls].
  - apply view_set; [done|done|lia].
  - intros i Hi. destruct (decide (i = n)) as [->|Hne]; [destruct Hi as [Hi|Hi]; [lia|congruence]|]. rewrite Ej by done. apply L2. destruct Hi; [left; lia|by right].
  - by rewrite Eb.
  - done.
  - intros i Hi Hl. destruct (decide (i = n)) as [->|Hne]; [by rewrite Em, lookup_insert_eq|].
    rewrite Ej by done. rewrite lookup_insert_ne by (apply not_eq_sym, Hother; [lia|done]). rewrite (initial_ext base' base) by auto. apply L5; [lia|done].
  - intros i Hi Hl. destruct (decide (i = n)) as [->|Hne]; [by rewrite Em|]. rewrite Ej by done. apply L6; [lia|done].
  - destruct L7 as [M1 M2 M3 M4]. split; [done..|]. intros a Ha. cbn [k_mem set_buffer set_k_mem set_k_heap]. rewrite lookup_insert_ne by (apply not_eq_sym, Hlive, Ha). by apply M4.
  - done.
Qed.

Lemma wp_load_sections live room s : owns (k_heap s) live -> al_room (k_heap s) (costs 0 shnum + room) -> 0 <= room -> elf_buffer s = f ->
  wp (loop shnum 0 (load_section stale shoff) tt)
    (fun r s' => match r with inl _ => exists base, loading live room s shnum base s' | inr _ => False end) s.
Proof using Hf.
  intros Ho Hr Hroom Eb. apply (wp_loop (fun j _ s' => exists n base, j = Z.of_nat n /\ loading live room s n base s')).
  - exists 0%nat, (fun _ => 0). split; [done|]. split; try done; [rewrite Eb; apply view_start|by rewrite Nat.sub_0_r|..]; intros i Hi; lia.
  - intros j [] s' Hj (n & base & -> & HL). eapply wp_mono; [apply (wp_load_section live room s n base s' HL); lia|].
    intros [[]|] s'' H; [|done]. destruct H as [base' HL']. exists (Datatypes.S n), base'. split; [lia|done].
  - intros [] s' (n & base & E & HL). exists base. by replace shnum with n by lia.
Qed.

(** ** The second step *)

Section linked_file.
Context (base : nat -> Z).

Lemma wp_shdr_z k (Q : Elf64_Shdr -> kmods A -> Prop) s : view base (elf_buffer s) -> 0 <= k < Z.of_nat shnum ->
  Q (set_sh_addr (base (Z.to_nat k)) (sec (Z.to_nat k))) s -> wp (Kmod.shdr shoff k) Q s.
Proof using Hf. intros V Hk HQ. rewrite <- (Z2Nat.id k) by lia. apply (wp_shdr base); [done|lia|done]. Qed.

Lemma wp_find_symtab (s : kmods A) : view base (elf_buffer s) ->
  wp (loop shnum 0 (find_symtab shoff) tt) (fun r s' => s' = s /\ r = match f_symtab f with Some st => inr st | None => inl tt end) s.
Proof using Hf.
  intros V. set (g := fun i => if sh_type (sec i) =? SHT_SYMTAB then Some (Symtab (sh_offset (sec i)) (sh_size (sec i) / SYM_SIZE) (sh_offset (sec (Z.to_nat (sh_link (sec i)))))) else None).
  apply (wp_loop (fun j _ s' => s' = s /\ exists n, j = Z.of_nat n /\ (n <= shnum)%nat /\ f_symtab f = head (omap g (seq n (shnum - n))))).
  - split; [done|]. exists 0%nat. rewrite Nat.sub_0_r. split_and!; [done|lia|done].
  - intros j [] s' Hj [-> (n & -> & _ & E)]. unfold find_symtab. apply wp_bind. apply (wp_shdr base); [done|lia|]. cbn [sh_type sh_offset sh_size sh_link set_sh_addr].
    replace (shnum - n)%nat with (Datatypes.S (shnum - Datatypes.S n)) in E by lia. cbn [seq omap list_omap] in E.
    destruct (sh_type (sec n) =? SHT_SYMTAB) eqn:Et.
    + destruct (section_facts n ltac:(lia)) as (_ & _ & Hl & _). destruct (sec_ranges f (mo_bytes _ _ Hf) n) as (_ & _ & R & _). specialize (Hl (proj1 (Z.eqb_eq _ _) Et)).
      apply wp_bind. apply wp_shdr_z; [done|lia|]. cbn [sh_offset set_sh_addr]. apply wp_ret. split; [done|]. rewrite E. unfold g at 1. by rewrite Et.
    + apply wp_ret. split; [done|]. exists (Datatypes.S n). split_and!; [lia|lia|]. rewrite E. unfold g at 1. by rewrite Et.
  - intros [] s' [-> (n & En & Hn & E)]. split; [done|]. rewrite E. replace (shnum - n)%nat with 0%nat by lia. done.
Qed.

(** ** The third step *)

Lemma wp_resolve_symbol st k s (Q : Z + Z -> kmods A -> Prop) : view base (elf_buffer s) -> 0 <= symtab st + k * SYM_SIZE ->
  symtab st + (k + 1) * SYM_SIZE <= shoff ->
  (internal f (symbol f st k) = true \/ (str_ok f (strtab st + st_name (symbol f st k)) = true /\
     kmod_find_symbol kernel_symtab (str_at f (strtab st + st_name (symbol f st k))) <> 0)) ->
  (forall a, u64 a = u64 (sym_value kernel_symtab f base st (symbol f st k)) -> Q (inl a) s) -> wp (resolve kernel_symtab shoff (Z.of_nat shnum) st k) Q s.
Proof using Hf.
  intros V H0 H1 Hr HQ. pose proof V as [V1 V2 V3]. destruct (mo_table _ _ Hf) as [T1 T2]. unfold resolve, EHDR_SIZE, SHDR_SIZE in *. wp_steps.
  apply wp_read_sym; [done|unfold SYM_SIZE in *; lia|]. rewrite (sym_at_front f (elf_buffer s) shoff) by (done || unfold SYM_SIZE in *; lia).
  fold (symbol f st k). unfold sym_value, internal in *. destruct (negb _ && _) eqn:Ei.
  - zbool. apply wp_bind, wp_shdr_z; [done|split; [|done]; apply get16_range; apply (mo_bytes _ _ Hf)|]. apply wp_ret, HQ. unfold u64. by rewrite Zmod_mod.
  - destruct Hr as [|[Hs Hk]]; [done|]. unfold str_ok in Hs. apply bool_decide_eq_true in Hs. 
    destruct (string_front f (elf_buffer s) shoff V2 _ Hs) as [G1 G2]. unfold c_string. apply wp_bind. rewrite bool_decide_eq_true_2 by done. apply wp_ret.
    rewrite G2. fold (str_at f (strtab st + st_name (symbol f st k))). cbv zeta. rewrite (proj2 (Z.eqb_neq _ _) Hk). by apply wp_ret, HQ.
Qed.

Context (live : list (Z * Z)) (s1 : kmods A).
Context (Hview : view base (elf_buffer s1)).
Context (Hrange : forall i, (i < shnum)%nat -> is_loaded (sec i) -> 0 < base i < 2 ^ 64 - sh_size (sec i)).
Context (Hnone : forall i, is_loaded (sec i) = false -> base i = 0).
Context (Howns : owns (k_heap s1) (section_blocks base shnum ++ live)).

Lemma base_distinct i j : (i < shnum)%nat -> (j < shnum)%nat -> is_loaded (sec i) -> is_loaded (sec j) -> i <> j -> base i <> base j.
Proof using Howns.
  assert (H : forall n i j, NoDup (section_blocks base n).*1 -> (i < j < n)%nat -> is_loaded (sec i) -> is_loaded (sec j) -> base i <> base j).
  { induction n as [|n IH]; intros i' j' Hd Hij Hi Hj; [lia|]. rewrite section_blocks_S, fmap_app in Hd. apply NoDup_app in Hd as (D1 & D2 & _).
    destruct (decide (j' = n)) as [->|]; [|apply IH; [done|lia|done..]]. apply Is_true_true in Hj. rewrite Hj in D2. intros E. apply (D2 (base i')).
    - apply list_elem_of_fmap. exists (base i', sh_size (sec i')). split; [done|]. apply section_blocks_elem; [lia|done].
    - cbn. rewrite E. by left. }
  destruct Howns as [_ Hd _]. rewrite fmap_app in Hd. apply NoDup_app in Hd as [Hd _]. intros Hi Hj Li Lj Hne.
  destruct (decide (i < j)%nat); [by eapply H|]. intros E. symmetry in E. revert E. apply (H shnum); [done|lia|done..].
Qed.
Lemma base_live i a : (i < shnum)%nat -> is_loaded (sec i) -> a ∈ live.*1 -> a <> base i.
Proof using Howns.
  intros Hi Hl Ha ->. destruct Howns as [_ Hd _]. rewrite fmap_app in Hd. apply NoDup_app in Hd as (_ & Hd & _). eapply Hd; [|exact Ha].
  apply list_elem_of_fmap. exists (base i, sh_size (sec i)). split; [done|]. by apply section_blocks_elem.
Qed.

(** The memory after the relocations [l]. *)
Record linking (l : list (nat * Elf64_Rela)) (m : gmap Z (list Z)) : Prop := {
  li_sections : forall i, (i < shnum)%nat -> is_loaded (sec i) -> exists b, m !! base i = Some b /\ linked kernel_symtab stale f l (f_symtab f) base i b;
  li_live : forall a, a ∈ live.*1 -> m !! a = k_mem s1 !! a
}.

Lemma relocs_S n : relocs f (Datatypes.S n) = relocs f n ++ relocs_of f n.
Proof. unfold relocs. rewrite seq_S, bind_app. cbn. by rewrite app_nil_r. Qed.
Lemma relocs_prefix n : (n <= shnum)%nat -> exists l, relocs f shnum = relocs f n ++ l.
Proof. intros Hn. exists (seq n (shnum - n) ≫= relocs_of f). unfold relocs. rewrite <- bind_app, <- seq_app. do 2 f_equal. lia. Qed.
Lemma reloc_facts x : x ∈ relocs f shnum -> exists st, f_symtab f = Some st /\ reloc_ok kernel_symtab f st x /\ (x.1 < shnum)%nat /\ is_loaded (sec x.1) /\ 0 <= r_offset x.2.
Proof using Hf.
  intros Hx. pose proof (mo_symbols _ _ Hf) as Hs. destruct (f_symtab f) as [st|]; [|rewrite Hs in Hx; by inversion Hx]. exists st. destruct Hs as [_ Hs].
  rewrite Forall_forall in Hs. destruct (relocs_spec f _ _ Hx) as (i & Hi & Hx'). destruct (relocs_of_spec f (mo_bytes _ _ Hf) _ _ Hx') as (R1 & R2 & R3 & R4).
  destruct (section_facts i Hi) as (_ & _ & _ & H). destruct (H R1) as (H1 & _). destruct (sec_ranges f (mo_bytes _ _ Hf) i) as (_ & _ & _ & R & _).
  split_and!; [done|by apply Hs|lia|by apply Is_true_true|done].
Qed.
Lemma symtab_nonneg st : f_symtab f = Some st -> 0 <= symtab st.
Proof using Hf.
  unfold f_symtab. intros E. assert (Hin : st ∈ omap (fun i => if sh_type (sec i) =? SHT_SYMTAB then Some (Symtab (sh_offset (sec i)) (sh_size (sec i) / SYM_SIZE) (sh_offset (sec (Z.to_nat (sh_link (sec i)))))) else None) (seq 0 shnum)).
  { apply head_Some_elem_of. exact E. }
  apply list_elem_of_omap in Hin as (i & _ & Hi). destruct (_ =? _) in Hi; [|done]. injection Hi as <-. cbn [symtab]. apply get64_range, (mo_bytes _ _ Hf).
Qed.
Lemma reloc_ok_facts st x : f_symtab f = Some st -> reloc_ok kernel_symtab f st x -> 0 <= rel_sym x ->
  (forall (Q : Z + Z -> kmods A -> Prop) s, view base (elf_buffer s) -> (forall a, u64 a = u64 (sym_value kernel_symtab f base st (symbol f st (rel_sym x))) -> Q (inl a) s) ->
     wp (resolve kernel_symtab shoff (Z.of_nat shnum) st (rel_sym x)) Q s) /\
  (exists bs, rel_bytes kernel_symtab f base st x = Some bs /\ zlen bs = rel_width x) /\ r_offset x.2 + rel_width x <= sh_size (sec x.1).
Proof using Hf.
  intros Est Hok Hx. pose proof (symtab_nonneg st Est). unfold reloc_ok in Hok. apply Is_true_true in Hok. apply andb_prop in Hok as [[[K1 K2]%andb_prop K3]%andb_prop K4].
  zbool. split_and!; [|apply abi_width; by apply bool_decide_eq_true in K3|done].
  intros Q s V HQ. apply wp_resolve_symbol; [done|unfold SYM_SIZE; lia|done| |done]. apply orb_prop in K2 as [K2|K2]; [by left|right]. zbool. done.
Qed.

Lemma linking_step l l' x m st bs b : relocs f shnum = l ++ x :: l' -> linking l m -> f_symtab f = Some st ->
  rel_bytes kernel_symtab f base st x = Some bs -> m !! base x.1 = Some b -> linking (l ++ [x]) (<[base x.1 := put (Z.to_nat (r_offset x.2)) bs b]> m).
Proof using Hf Howns.
  intros Hl [M1 M2] Est Hbs Hm. destruct (reloc_facts x) as (st' & Est' & Hok & Hx & Hlx & H0); [rewrite Hl; apply elem_of_app; right; by left|].
  rewrite Est in Est'. injection Est' as <-. assert (Hrs : forall y, y ∈ relocs f shnum -> 0 <= rel_sym y).
  { intros y Hy. destruct (relocs_spec f _ _ Hy) as (i & _ & Hy'). unfold relocs_of in Hy'. cbv zeta in Hy'. destruct (_ && _) in Hy'; [|by inversion Hy'].
    apply list_elem_of_fmap in Hy' as (j & -> & _). unfold rel_sym. cbn. apply Z.div_pos; [|done]. apply get64_range, (mo_bytes _ _ Hf). }
  assert (Hin : x ∈ relocs f shnum) by (rewrite Hl; apply elem_of_app; right; by left).
  destruct (reloc_ok_facts st x Est Hok (Hrs _ Hin)) as (_ & (bs' & Ebs & Hw) & Hfit). rewrite Hbs in Ebs. injection Ebs as <-.
  split.
  - intros i Hi Hli. destruct (M1 i Hi Hli) as (bi & Ebi & Hbi). destruct (decide (i = x.1)) as [->|Hne].
    + rewrite Hm in Ebi. injection Ebi as <-. rewrite lookup_insert_eq. eexists. split; [done|]. rewrite Est in *. eapply linked_step; [done|done|done|done|done|].
      intros y Hy. assert (Hyin : y ∈ relocs f shnum) by (rewrite Hl; apply elem_of_app; by left). destruct (reloc_facts y Hyin) as (st2 & Est2 & Hok2 & _ & _ & H02).
      rewrite Est in Est2. injection Est2 as <-. split_and!; [|done|].
      * eapply (ordpairs_prefix (apart)); [rewrite <- Hl; apply (mo_apart _ _ Hf)|done].
      * destruct (reloc_ok_facts st y Est Hok2 (Hrs _ Hyin)) as (_ & (bs2 & Ebs2 & Hw2) & _). intros bs3 E3. congruence.
    + exists bi. rewrite lookup_insert_ne by (apply base_distinct; done || auto). split; [done|]. by apply linked_other.
  - intros a Ha. rewrite lookup_insert_ne; [by apply M2|]. apply not_eq_sym. by apply (base_live x.1).
Qed.

Definition with_mem (m : gmap Z (list Z)) : kmods A := set_k_mem m s1.

Lemma wp_apply_rela l l' t off m : relocs f shnum = l ++ (t, rela_at f off) :: l' -> linking l m -> 0 <= off -> off + RELA_SIZE <= shoff ->
  wp (apply_rela kernel_symtab shoff (Z.of_nat shnum) (f_symtab f) (base t) off)
    (fun r s' => match r with inl _ => exists m', s' = with_mem m' /\ linking (l ++ [(t, rela_at f off)]) m' | inr _ => False end) (with_mem m).
Proof using Hf Howns Hview.
  intros Hl HM Ho Hle. set (x := (t, rela_at f off)) in *. assert (Hin : x ∈ relocs f shnum) by (rewrite Hl; apply elem_of_app; right; by left).
  destruct (reloc_facts x Hin) as (st & Est & Hok & Hx & Hlx & H0). pose proof Hview as [V1 V2 V3]. destruct (mo_table _ _ Hf) as [T1 T2]. unfold EHDR_SIZE, SHDR_SIZE, RELA_SIZE in *.
  unfold apply_rela. wp_steps. cbn [elf_buffer with_mem set_k_mem]. apply wp_read_rela; [done|unfold RELA_SIZE; lia|].
  rewrite (rela_at_front f _ shoff V2) by (done || (unfold RELA_SIZE; lia)). change (rela_at f off) with x.2. cbv zeta.
  apply wp_bind. eapply wp_opt; [exact Est|].
  assert (H1 : 0 <= rel_sym x) by (unfold rel_sym; apply Z.div_pos; [apply get64_range, (mo_bytes _ _ Hf)|done]).
  destruct (reloc_ok_facts st x Est Hok H1) as (HR & (bs & Ebs & Hw) & Hfit).
  apply wp_bind. change (r_info x.2 / 2 ^ 32) with (rel_sym x). apply HR; [done|]. intros sa Hsa. cbv iota.
  pose proof Ebs as Ebs'. unfold rel_bytes, rel_type in Ebs'. change (base t) with (base x.1). rewrite (patch_abi _ _ _ _ _ Hsa), Ebs'.
  destruct (li_sections _ _ HM _ Hx Hlx) as (b & Eb & Hb).
  assert (Hput : Z.to_nat (r_offset x.2) = Z.to_nat (r_offset x.2) /\ r_offset x.2 + zlen bs <= zlen b) by (rewrite (lk_length _ _ _ _ _ _ _ _ Hb), Hw; done).
  unfold store_in. wp_steps. eapply wp_opt; [exact Eb|]. wp_steps. apply wp_bytes_in_put; [done|apply Hput|]. unfold put_block. wp_steps.
  eexists. split; [reflexivity|]. cbn [k_mem with_mem set_k_mem]. by eapply linking_step.
Qed.

Lemma wp_relocate_section n m : (n < shnum)%nat -> linking (relocs f n) m ->
  wp (relocate_section kernel_symtab shoff (Z.of_nat shnum) (f_shstrtab f) (f_symtab f) (Z.of_nat n) tt)
    (fun r s' => match r with inl _ => exists m', s' = with_mem m' /\ linking (relocs f (Datatypes.S n)) m' | inr _ => False end) (with_mem m).
Proof using Hf Howns Hview Hrange Hnone.
  intros Hn HM. pose proof Hview as [V1 V2 V3]. unfold relocate_section. apply wp_bind. apply (wp_shdr base); [done|done|]. cbn [sh_type sh_info sh_offset sh_size set_sh_addr].
  assert (Hskip : relocs_of f n = [] -> linking (relocs f (Datatypes.S n)) m) by (intros E; by rewrite relocs_S, E, app_nil_r).
  destruct (sh_type (sec n) =? SHT_RELA) eqn:Et; cbn [negb]; [|apply wp_ret; exists m; split; [done|]; apply Hskip; unfold relocs_of; by rewrite Et].
  destruct (section_facts n Hn) as (_ & _ & _ & H). destruct (H (proj1 (Z.eqb_eq _ _) Et)) as (H1 & H2 & H3).
  destruct (sec_ranges f (mo_bytes _ _ Hf) n) as (R1 & R2 & _ & R4 & _).
  apply wp_bind. apply wp_shdr_z; [done|done|]. cbn [sh_name sh_addr set_sh_addr]. apply wp_bind, wp_gets. cbn [elf_buffer with_mem set_k_mem].
  unfold str_ok in H2. apply bool_decide_eq_true in H2. destruct (string_front f (elf_buffer s1) shoff V2 _ H2) as [G1 G2]. unfold c_string.
  apply wp_bind. rewrite bool_decide_eq_true_2 by done. apply wp_ret. rewrite G2. set (t := Z.to_nat (sh_info (sec n))) in *. fold (str_at f (f_shstrtab f + sh_name (sec t))).
  destruct (bool_decide (str_at f (f_shstrtab f + sh_name (sec t)) = EH_FRAME)) eqn:Ef; [apply wp_ret; exists m; split; [done|]; apply Hskip; unfold relocs_of; cbv zeta; fold t; by rewrite Ef, andb_false_r|].
  cbv zeta. destruct (is_loaded (sec t)) eqn:El.
  2:{ rewrite (Hnone t El). cbn. exists m. split; [done|]. apply Hskip. unfold relocs_of. cbv zeta. fold t. by rewrite El, andb_false_r. }
  rewrite (proj2 (Z.eqb_neq (base t) 0)) by (specialize (Hrange t ltac:(lia) (Is_true_true_2 _ El)); lia).
  assert (Er : relocs_of f n = (fun j => (t, rela_at f (sh_offset (sec n) + Z.of_nat j * RELA_SIZE))) <$> seq 0 (Z.to_nat (sh_size (sec n) / RELA_SIZE))).
  { unfold relocs_of. cbv zeta. fold t. by rewrite Et, Ef, El. }
  set (rs := relocs_of f n) in *. set (k := Z.to_nat (sh_size (sec n) / RELA_SIZE)) in *.
  assert (Hk : Z.of_nat k * RELA_SIZE <= sh_size (sec n)) by (unfold k, RELA_SIZE; zdiv_lia).
  assert (Hlen : length rs = k) by (by rewrite Er, length_fmap, length_seq).
  destruct (relocs_prefix (Datatypes.S n) ltac:(lia)) as [rest Hrest]. rewrite relocs_S in Hrest. fold rs in Hrest.
  apply (wp_loop (fun j _ s' => exists i m', j = Z.of_nat i /\ s' = with_mem m' /\ linking (relocs f n ++ take i rs) m')).
  - exists 0%nat, m. split_and!; [done|done|]. by rewrite app_nil_r.
  - intros j [] s' Hj (i & m' & -> & -> & HM'). assert (Hi : rs !! i = Some (t, rela_at f (sh_offset (sec n) + Z.of_nat i * RELA_SIZE))).
    { rewrite Er, list_lookup_fmap, lookup_seq_lt by lia. done. }
    eapply wp_mono; [apply (wp_apply_rela (relocs f n ++ take i rs) (drop (Datatypes.S i) rs ++ rest)); [|exact HM'|unfold RELA_SIZE; lia|unfold RELA_SIZE in *; lia]|].
    + rewrite Hrest. rewrite <- (take_drop_middle rs i _ Hi) at 1. by rewrite <- !app_assoc.
    + intros [[]|] s' Hr; [|done]. destruct Hr as (m2 & -> & HM2). exists (Datatypes.S i), m2. split_and!; [lia|done|]. by rewrite (take_S_r rs i _ Hi), app_assoc.
  - intros [] s' (i & m' & Ei & -> & HM'). exists m'. split; [done|]. rewrite relocs_S. fold rs. rewrite take_ge in HM' by lia. done.
Qed.

Lemma wp_relocate m : linking [] m ->
  wp (loop shnum 0 (relocate_section kernel_symtab shoff (Z.of_nat shnum) (f_shstrtab f) (f_symtab f)) tt)
    (fun r s' => match r with inl _ => exists m', s' = with_mem m' /\ linking (relocs f shnum) m' | inr _ => False end) (with_mem m).
Proof using Hf Howns Hview Hrange Hnone.
  intros HM. apply (wp_loop (fun j _ s' => exists n m', j = Z.of_nat n /\ s' = with_mem m' /\ linking (relocs f n) m')).
  - by exists 0%nat, m.
  - intros j [] s' Hj (n & m' & -> & -> & HM'). eapply wp_mono; [apply (wp_relocate_section n m'); [lia|done]|].
    intros [[]|] s' Hr; [|done]. destruct Hr as (m2 & -> & HM2). exists (Datatypes.S n), m2. split_and!; [lia|done|done].
  - intros [] s' (n & m' & En & -> & HM'). exists m'. by replace shnum with n by lia.
Qed.
End linked_file.
End file.
End load.
