(* ===== verification/KmodThms.v ===== *)
(** * Loading and unloading of modules

    A loaded module owns its control block, the array of its sections and the
    sections.  Loading adds a module whose sections are linked, and unloading
    gives back the blocks of the module and no other. *)

From Stdlib Require Import ZArith Lia.
From stdpp Require Import base tactics list gmap.
From S2P Require Import Prelude Pages Alloc Bytes Chains Elf ElfThms ElfArgs Kmod KmodLink.

(** ** The list of modules *)

Record loaded_module : Type := LoadedModule {
  lm_name : list Z; lm_addr : Z; lm_init : Z; lm_exit : Z; lm_array : Z; lm_sections : list (Z * Z)
}.
Definition lm_node (m : loaded_module) (next : Z) : module_t :=
  Module_t (lm_name m) (lm_init m) (lm_exit m) (lm_array m) (zlen (lm_sections m)) 1 next.
(** What the module owns; a module without sections has no array. *)
Definition array_block (m : loaded_module) : list (Z * Z) :=
  match lm_sections m with [] => [] | l => [(lm_array m, 8 * zlen l)] end.
Definition lm_blocks (m : loaded_module) : list (Z * Z) := (lm_addr m, MODULE_SIZE) :: array_block m ++ lm_sections m.

Section modules.
Context {A : Type} `{!Allocator A}.
Implicit Types s : kmods A.

Definition module_stored s (m : loaded_module) : Prop :=
  (exists next, k_mods s !! lm_addr m = Some (lm_node m next)) /\
  match lm_sections m with [] => lm_array m = 0 | _ => k_arrays s !! lm_array m = Some (lm_sections m).*1 end.

(** The modules [ms] are loaded, and [live] are the other blocks in use. *)
Record modules_ok s (ms : list loaded_module) (live : list (Z * Z)) : Prop := {
  mk_owns : owns (k_heap s) ((ms ≫= lm_blocks) ++ live);
  mk_chain : chain (k_mods s) m_next (modules_head s) (lm_addr <$> ms);
  mk_stored : Forall (module_stored s) ms
}.

(** A member of a chain is taken out. *)
Lemma chain_cut_head {B} (T : gmap Z B) nx p x k l : chain T nx p (x :: l) -> T !! x = Some k -> chain T nx (nx k) l.
Proof. intros (_ & _ & k' & Hk' & H) Hk. congruence. Qed.
Lemma chain_cut {B} (T : gmap Z B) nx p l1 y x l2 ky ky' k : chain T nx p (l1 ++ y :: x :: l2) -> T !! x = Some k -> nx ky' = nx k -> T !! y = Some ky ->
  chain (<[y := ky']> T) nx p (l1 ++ y :: l2).
Proof.
  intros H Hx Hn Hy. pose proof (chain_nodup _ _ _ _ H) as Hd. revert p H Hd. induction l1 as [|z l1 IH]; intros p H Hd.
  - destruct H as (-> & H0 & k1 & E1 & _ & Hx0 & k2 & E2 & H). split_and!; [done|done|]. exists ky'. rewrite lookup_insert_eq. split; [done|].
    cbn in Hd. inversion Hd as [|? ? Hy1 Hd1]; subst. rewrite Hn. assert (k2 = k) as -> by congruence. apply chain_other; [|done]. intros ?. apply Hy1. by right.
  - destruct H as (-> & H0 & k1 & E1 & H). cbn in Hd. inversion Hd as [|? ? Hz Hd1]; subst. split_and!; [done|done|]. exists k1.
    rewrite lookup_insert_ne; [split; [done|]; by apply IH|]. intros ->. apply Hz, elem_of_app. right. by left.
Qed.

(** *** What an operation leaves alone *)

Record kept (keys : list Z) s s' : Prop := {
  kp_mods : forall a, a ∈ keys -> k_mods s' !! a = k_mods s !! a;
  kp_arrays : forall a, a ∈ keys -> k_arrays s' !! a = k_arrays s !! a;
  kp_mem : forall a, a ∈ keys -> k_mem s' !! a = k_mem s !! a
}.
#[export] Instance kept_refl keys : Reflexive (kept keys).
Proof. by split. Qed.
#[export] Instance kept_trans keys : Transitive (kept keys).
Proof. intros s1 s2 s3 [H1 H2 H3] [H4 H5 H6]. split; intros a Ha; [by rewrite H4, H1|by rewrite H5, H2|by rewrite H6, H3]. Qed.
Lemma kept_sub keys keys' s s' : keys' ⊆ keys -> kept keys s s' -> kept keys' s s'.
Proof. intros Hs [H1 H2 H3]. split; auto. Qed.

Lemma wp_km_free_kept a n rest s (Q : unit -> kmods A -> Prop) : owns (k_heap s) ((a, n) :: rest) ->
  (forall s', owns (k_heap s') rest -> kept rest.*1 s s' -> modules_head s' = modules_head s -> k_calls s' = k_calls s ->
     k_mods s' = delete a (k_mods s) -> Q tt s') -> wp (km_free a) Q s.
Proof.
  intros Ho HQ. eapply wp_km_free; [exact Ho|reflexivity|]. intros h Ho'. apply HQ; try done.
  assert (Hne : forall b, b ∈ rest.*1 -> b <> a) by (intros b Hb ->; destruct Ho as [_ Hd _]; inversion Hd; done).
  split; intros b Hb; cbn; by rewrite lookup_delete_ne by (apply not_eq_sym, Hne, Hb).
Qed.

(** ** Unloading *)

Lemma wp_find_module name ms p q s fuel : chain (k_mods s) m_next p (lm_addr <$> ms) -> Forall (module_stored s) ms -> (length ms <= fuel)%nat ->
  wp (find_module fuel name p q) (fun r s' => s' = s /\
    ((r.1 = 0 /\ Forall (fun m => lm_name m <> name) ms) \/
     exists l1 m l2, ms = l1 ++ m :: l2 /\ Forall (fun m => lm_name m <> name) l1 /\ lm_name m = name /\ r = (lm_addr m, default q (lm_addr <$> last l1)))) s.
Proof.
  revert ms p q. induction fuel as [|fuel IH]; intros ms p q Hc Hst Hl; destruct ms as [|m ms]; cbn in Hc, Hl; cbn [find_module]; try lia.
  - subst p. rewrite Z.eqb_refl. split; [done|]. by left.
  - subst p. rewrite Z.eqb_refl. split; [done|]. by left.
  - destruct Hc as (-> & H0 & k & Hk & Hc). rewrite (proj2 (Z.eqb_neq _ _) H0). inversion Hst as [|? ? [[next Hm] _] Hst']; subst.
    rewrite Hk in Hm. injection Hm as ->. wp_steps. eapply wp_opt; [exact Hk|]. cbn [m_name m_next lm_node].
    destruct (bool_decide_reflect (lm_name m = name)) as [E|Hne].
    + apply wp_ret. split; [done|]. right. by exists [], m, ms.
    + eapply wp_mono; [apply (IH ms next (lm_addr m)); [done|done|lia]|]. intros r s' [-> [[Hr HF]|(l1 & m' & l2 & -> & HF & Hn & ->)]]; (split; [done|]).
      * left. split; [done|]. by constructor.
      * right. exists (m :: l1), m', l2. split_and!; [done|by constructor|done|]. f_equal. rewrite last_cons. by destruct (last l1).
Qed.

Lemma stored_kept s s' m : lm_addr m ∈ (lm_blocks m).*1 -> kept (lm_blocks m).*1 s s' -> module_stored s m -> module_stored s' m.
Proof.
  intros Ha [H1 H2 H3] [[next Hn] Harr]. split; [exists next; by rewrite H1|]. destruct (lm_sections m) eqn:E; [done|]. rewrite H2; [done|].
  unfold lm_blocks, array_block. rewrite E. cbn. right. by left.
Qed.

(** What releasing memory does to the rest. *)
Record released (others : list (Z * Z)) s s' : Prop := {
  rl_owns : owns (k_heap s') others;
  rl_kept : kept others.*1 s s';
  rl_head : modules_head s' = modules_head s;
  rl_calls : k_calls s' = k_calls s;
  rl_mods : forall p l, chain (k_mods s) m_next p l -> l ⊆ others.*1 -> chain (k_mods s') m_next p l
}.
Lemma released_trans o1 o2 s1 s2 s3 : o2 ⊆ o1 -> released o1 s1 s2 -> released o2 s2 s3 -> released o2 s1 s3.
Proof.
  intros Hs [A1 A2 A3 A4 A5] [B1 B2 B3 B4 B5]. assert (Hk : o2.*1 ⊆ o1.*1).
  { intros x (b & -> & Hb)%list_elem_of_fmap. apply list_elem_of_fmap. exists b. auto. }
  split; [done|..]; [etrans; [eapply kept_sub; [exact Hk|done]|done]|congruence|congruence|].
  intros p l Hc Hl. apply B5; [|done]. apply A5; [done|]. by etrans.
Qed.
Lemma released_owns o s : owns (k_heap s) o -> released o s s.
Proof. by split. Qed.

Lemma wp_km_free_released a n rest s : owns (k_heap s) ((a, n) :: rest) -> wp (km_free a) (fun _ s' => released rest s s') s.
Proof.
  intros Ho. eapply wp_km_free_kept; [exact Ho|]. intros s' Ho' Hk Hh Hc Hm. split; try done. intros p l Hch Hl. rewrite Hm. apply chain_delete; [|done].
  intros Ha%Hl. destruct Ho as [_ Hd _]. by inversion Hd.
Qed.

Lemma wp_free_sections secs rest s : owns (k_heap s) (secs ++ rest) ->
  wp (for_ (length secs) 0 (fun i => p <-- rd secs.*1 i ;; if p =? 0 then kret tt else km_free p)) (fun _ s' => released rest s s') s.
Proof.
  intros Ho. apply (wp_for (fun j s' => exists i, j = Z.of_nat i /\ released (drop i secs ++ rest) s s')).
  - exists 0%nat. split; [done|]. by apply released_owns.
  - intros j s' Hj (i & -> & Hr). destruct (lookup_lt_is_Some_2 secs i ltac:(lia)) as [[a n] Ha]. apply wp_bind.
    eapply wp_rd; [lia|rewrite list_lookup_fmap, Nat2Z.id, Ha; reflexivity|]. cbn [fst].
    pose proof (rl_owns _ _ _ Hr) as Ho'. rewrite (drop_S _ _ _ Ha) in Hr, Ho'. pose proof (ow_pos _ _ Ho') as Hp. inversion Hp as [|? ? [Hp1 _] _]; subst. cbn in Hp1.
    rewrite (proj2 (Z.eqb_neq a 0)) by lia. eapply wp_mono; [apply (wp_km_free_released _ _ _ _ Ho')|]. intros [] s'' Hr'. exists (S i). split; [lia|].
    eapply released_trans; [|exact Hr|exact Hr']. intros x Hx. by right.
  - intros s' (i & E & Hr). by rewrite drop_ge in Hr by lia.
Qed.

(** The module's blocks are given back. *)
Lemma wp_release m others s : owns (k_heap s) (lm_blocks m ++ others) -> module_stored s m ->
  wp ((if lm_array m =? 0 then kret tt else
       arr <-- kopt NullDeref (k_arrays s !! lm_array m) ;;
       for_ (Z.to_nat (zlen (lm_sections m))) 0 (fun i => p <-- rd arr i ;; if p =? 0 then kret tt else km_free p) ;;;
       km_free (lm_array m)) ;;; km_free (lm_addr m) ;;; kret 0) (fun r s' => r = 0 /\ released others s s') s.
Proof.
  intros Ho [_ Harr]. unfold lm_blocks, array_block in Ho.
  assert (Hlast : forall s1, released ((lm_addr m, MODULE_SIZE) :: others) s s1 -> wp (km_free (lm_addr m) ;;; kret 0) (fun r s' => r = 0 /\ released others s s') s1).
  { intros s1 H1. apply wp_bind. eapply wp_mono; [exact (wp_km_free_released _ _ _ _ (rl_owns _ _ _ H1))|]. intros [] s2 H2. apply wp_ret. split; [done|].
    eapply released_trans; [|exact H1|exact H2]. intros x Hx. by right. }
  destruct (lm_sections m) as [|b0 secs0] eqn:Es.
  - rewrite Harr. cbn [Z.eqb]. apply wp_bind, wp_ret. by apply Hlast, released_owns.
  - rewrite <- Es in *. set (secs := lm_sections m) in *. clearbody secs. set (ab := (lm_array m, 8 * zlen secs)) in *.
    assert (Hp : ((lm_addr m, MODULE_SIZE) :: [ab] ++ secs) ++ others ≡ₚ secs ++ ab :: (lm_addr m, MODULE_SIZE) :: others) by solve_Permutation.
    rewrite Hp in Ho. pose proof (ow_pos _ _ Ho) as Hpos. apply Forall_app in Hpos as [_ Hpos]. apply Forall_cons in Hpos as [[Ha _] _]. cbn in Ha.
    rewrite (proj2 (Z.eqb_neq _ 0)) by lia. apply wp_bind, wp_bind. eapply wp_opt; [exact Harr|]. apply wp_bind. unfold zlen at 1. rewrite Nat2Z.id.
    eapply wp_mono; [apply (wp_free_sections secs _ _ Ho)|]. intros [] s1 H1. eapply wp_mono; [exact (wp_km_free_released _ _ _ _ (rl_owns _ _ _ H1))|]. intros [] s2 H2. apply Hlast.
    eapply released_trans; [|exact H1|exact H2]. intros x Hx. by right.
Qed.

(** The module leaves the list. *)
Lemma wp_unlink_module l1 m l2 s (next : Z) : chain (k_mods s) m_next (modules_head s) (lm_addr <$> l1 ++ m :: l2) -> Forall (module_stored s) (l1 ++ m :: l2) ->
  k_mods s !! lm_addr m = Some (lm_node m next) ->
  wp (if default 0 (lm_addr <$> last l1) =? 0 then kmodify (set_head next)
      else p <-- kopt NullDeref (k_mods s !! default 0 (lm_addr <$> last l1)) ;;
           kmodify (fun s => set_k_mods (<[default 0 (lm_addr <$> last l1) := set_m_next next p]> (k_mods s)) s))
    (fun _ s' => chain (k_mods s') m_next (modules_head s') (lm_addr <$> l1 ++ l2) /\ Forall (module_stored s') (l1 ++ m :: l2) /\
       k_heap s' = k_heap s /\ k_mem s' = k_mem s /\ k_arrays s' = k_arrays s /\ k_calls s' = k_calls s) s.
Proof.
  intros Hc Hst Hm. destruct l1 as [|q l1 _] using rev_ind.
  - cbn. split_and!; try done. exact (chain_cut_head _ m_next _ _ _ _ Hc Hm).
  - replace (default 0 (lm_addr <$> last (l1 ++ [q]))) with (lm_addr q) by (by rewrite last_snoc). rewrite <- app_assoc in *. cbn [app] in *. rewrite fmap_app in Hc. cbn [fmap list_fmap] in Hc.
    destruct (chain_lookup _ _ _ _ (lm_addr q) Hc) as [Hq _]; [apply elem_of_app; right; by left|]. rewrite (proj2 (Z.eqb_neq _ _) Hq).
    pose proof Hst as Hst'. apply Forall_app in Hst' as [_ Hst']. inversion Hst' as [|? ? [[nq Eq] _] _]; subst.
    apply wp_bind. eapply wp_opt; [exact Eq|]. apply wp_modify. cbn [modules_head set_k_mods k_mods k_heap k_mem k_arrays k_calls]. split_and!; try done.
    + rewrite fmap_app. cbn [fmap list_fmap]. by eapply chain_cut.
    + rewrite <- app_assoc. eapply Forall_impl; [exact Hst|]. intros x [[nx Ex] Hx]. split; [|done]. cbn [k_mods set_k_mods]. destruct (decide (lm_addr q = lm_addr x)) as [E|E].
      * rewrite E, lookup_insert_eq. rewrite E, Ex in Eq. injection Eq as E1 E2 E3 E4 E5 E6. exists next. unfold lm_node, set_m_next. cbn. by rewrite E1, E2, E3, E4, E5.
      * rewrite lookup_insert_ne by done. by exists nx.
Qed.

Lemma blocks_split l1 m l2 live : ((l1 ++ m :: l2) ≫= lm_blocks) ++ live ≡ₚ lm_blocks m ++ ((l1 ++ l2) ≫= lm_blocks) ++ live.
Proof. rewrite !bind_app. cbn [mbind list_bind]. solve_Permutation. Qed.
Lemma blocks_keys (ms : list loaded_module) live m : m ∈ ms -> (lm_blocks m).*1 ⊆ ((ms ≫= lm_blocks) ++ live).*1.
Proof. intros Hm x Hx. rewrite fmap_app. apply elem_of_app. left. apply list_elem_of_fmap in Hx as (b & -> & Hb). apply list_elem_of_fmap. exists b. split; [done|]. apply list_elem_of_bind. by exists m. Qed.
Lemma addr_key m : lm_addr m ∈ (lm_blocks m).*1.
Proof. by left. Qed.
Lemma addr_keys (ms : list loaded_module) live : lm_addr <$> ms ⊆ ((ms ≫= lm_blocks) ++ live).*1.
Proof. intros x (m & -> & Hm)%list_elem_of_fmap. eapply blocks_keys; [done|]. apply addr_key. Qed.

Lemma modules_kept s s' ms live : modules_ok s ms live -> owns (k_heap s') ((ms ≫= lm_blocks) ++ live) -> modules_head s' = modules_head s ->
  kept ((ms ≫= lm_blocks) ++ live).*1 s s' -> modules_ok s' ms live.
Proof.
  intros [M1 M2 M3] Ho Hh Hk. split; [done| |].
  - rewrite Hh. eapply chain_ext; [|exact M2]. intros x k Hx Ek. exists k. split; [|done]. by rewrite (kp_mods _ _ _ Hk) by by eapply addr_keys.
  - apply Forall_forall. intros m Hm. rewrite Forall_forall in M3. eapply stored_kept; [apply addr_key| |by apply M3]. eapply kept_sub; [|exact Hk]. by apply blocks_keys.
Qed.

Lemma find_some name l1 m l2 l1' m' l2' : l1 ++ m :: l2 = l1' ++ m' :: l2' -> Forall (fun m => lm_name m <> name) l1 -> lm_name m = name ->
  Forall (fun m => lm_name m <> name) l1' -> lm_name m' = name -> l1 = l1' /\ m = m' /\ l2 = l2'.
Proof.
  revert l1'. induction l1 as [|x l1 IH]; intros [|y l1'] E H1 H2 H3 H4; cbn in E; injection E as Ex E; [by subst|rewrite Ex in *..|rewrite Ex in *].
  - by apply Forall_cons in H3 as [? _].
  - by apply Forall_cons in H1 as [? _].
  - apply Forall_cons in H1 as [_ H1], H3 as [_ H3]. destruct (IH l1' E H1 H2 H3 H4) as (-> & -> & ->). done.
Qed.

Lemma wp_unload name l1 m l2 live s : modules_ok s (l1 ++ m :: l2) live -> Forall (fun m => lm_name m <> name) l1 -> lm_name m = name ->
  wp (kmod_unload (Some name)) (fun r s' => r = 0 /\ modules_ok s' (l1 ++ l2) live /\
    k_calls s' = (if lm_exit m =? 0 then k_calls s else lm_exit m :: k_calls s) /\
    forall a, a ∈ (((l1 ++ l2) ≫= lm_blocks) ++ live).*1 -> k_mem s' !! a = k_mem s !! a) s.
Proof.
  intros [M1 M2 M3] Hl1 Hm. unfold kmod_unload. wp_steps.
  eapply wp_mono; [apply (wp_find_module name _ _ 0 s _ M2 M3)|]; [rewrite <- (length_fmap lm_addr); by eapply chain_size|].
  intros r s0 [-> [[_ H]|(l1' & m' & l2' & E & H1 & H2 & ->)]]; [apply Forall_app in H as [_ H]; by apply Forall_cons in H as [? _]|].
  destruct (find_some name _ _ _ _ _ _ E Hl1 Hm H1 H2) as (<- & <- & <-). cbn [fst snd]. rewrite fmap_app in M2. cbn [fmap list_fmap] in M2.
  destruct (chain_lookup _ _ _ _ (lm_addr m) M2) as [Hnz _]; [apply elem_of_app; right; by left|]. rewrite (proj2 (Z.eqb_neq _ _) Hnz).
  pose proof M3 as M3'. apply Forall_app in M3' as [_ M3']. apply Forall_cons in M3' as [Hms _]. pose proof Hms as [[next Hn] _].
  apply wp_bind. eapply wp_opt; [exact Hn|]. cbn [m_exit m_next section_allocs alloc_count lm_node].
  set (s1 := if lm_exit m =? 0 then s else call (lm_exit m) s).
  assert (Hs1 : k_heap s1 = k_heap s /\ k_mem s1 = k_mem s /\ k_mods s1 = k_mods s /\ k_arrays s1 = k_arrays s /\ modules_head s1 = modules_head s /\
    k_calls s1 = (if lm_exit m =? 0 then k_calls s else lm_exit m :: k_calls s)) by (unfold s1; by case_if).
  apply wp_bind. assert (Hcall : forall Q : unit -> kmods A -> Prop, Q tt s1 -> wp (if lm_exit m =? 0 then kret tt else kmodify (call (lm_exit m))) Q s) by (intros Q; unfold s1; by case_if).
  apply Hcall. destruct Hs1 as (E1 & E2 & E3 & E4 & E5 & E6). clearbody s1. clear Hcall.
  assert (Hst1 : forall x, module_stored s x -> module_stored s1 x) by (unfold module_stored; by rewrite E3, E4).
  apply wp_bind. rewrite <- E3. eapply wp_mono; [apply (wp_unlink_module l1 m l2 s1 next)|].
  { rewrite E3, E5, fmap_app. exact M2. } { eapply Forall_impl; [exact M3|exact Hst1]. } { by rewrite E3. }
  intros [] s2 (C1 & C2 & C3 & C4 & C5 & C6). apply Forall_app in C2 as [C2a [C2m C2b]%Forall_cons].
  replace (k_arrays s) with (k_arrays s2) by congruence. rewrite blocks_split in M1.
  eapply wp_mono; [apply (wp_release m (((l1 ++ l2) ≫= lm_blocks) ++ live)); [by rewrite C3, E1|done]|].
  intros r s3 [-> [R1 R2 R3 R4 R5]]. split_and!; [done| |congruence|].
  - split; [done| |].
    + rewrite R3. apply R5; [done|]. apply addr_keys.
    + apply Forall_forall. intros x Hx. eapply stored_kept; [apply addr_key|eapply kept_sub; [|exact R2]; by apply blocks_keys|].
      assert (Hall : Forall (module_stored s2) (l1 ++ l2)) by by apply Forall_app. rewrite Forall_forall in Hall. by apply Hall.
  - intros a Ha. by rewrite (kp_mem _ _ _ R2 _ Ha), C4, E2.
Qed.
Lemma wp_unload_unknown name ms live s : modules_ok s ms live -> Forall (fun m => lm_name m <> name) ms ->
  wp (kmod_unload (Some name)) (fun r s' => r = -2 /\ s' = s) s.
Proof.
  intros [M1 M2 M3] Hn. unfold kmod_unload. wp_steps.
  eapply wp_mono; [apply (wp_find_module name _ _ 0 s _ M2 M3)|]; [rewrite <- (length_fmap lm_addr); by eapply chain_size|].
  intros [c p] s0 [-> [[Hc _]|(l1' & m' & l2' & -> & H1 & H2 & _)]]; [|apply Forall_app in Hn as [_ [? _]%Forall_cons]; done]. cbn in Hc. subst c. done.
Qed.

(** ** The listing *)

Lemma wp_print_modules ms s : Forall (module_stored s) ms -> forall p fuel, chain (k_mods s) m_next p (lm_addr <$> ms) -> (length ms <= fuel)%nat ->
  wp (print_modules fuel p) (fun r s' => s' = s /\ r = (fun m => default 0 (head (lm_sections m).*1)) <$> ms) s.
Proof.
  induction 1 as [|m ms [[next Hm] Ha] _ IH]; intros p fuel Hc Hf; destruct fuel as [|fuel]; cbn in Hc, Hf; cbn [print_modules]; try lia; try (subst p; by rewrite Z.eqb_refl).
  destruct Hc as (-> & H0 & k & Hk & Hc). rewrite (proj2 (Z.eqb_neq _ _) H0). rewrite Hk in Hm. injection Hm as ->. wp_steps. eapply wp_opt; [exact Hk|].
  cbn [alloc_count section_allocs m_next lm_node]. apply wp_bind. destruct (lm_sections m) as [|b l] eqn:E; cbn [zlen length].
  - apply wp_ret, wp_bind. eapply wp_mono; [apply (IH next fuel); [done|lia]|]. intros r s' [-> ->]. split; [done|]. cbn. by rewrite E.
  - rewrite (proj2 (Z.ltb_lt 0 _)) by (unfold zlen; cbn; lia). apply wp_bind. eapply wp_opt; [exact Ha|]. eapply wp_rd; [done|reflexivity|].
    apply wp_bind. eapply wp_mono; [apply (IH next fuel); [done|lia]|]. intros r s' [-> ->]. split; [done|]. cbn. by rewrite E.
Qed.
End modules.

(** ** Loading *)

Section loading.
Context {A : Type} `{!Allocator A}.
Context (kernel_symtab : list (list Z * Z)) (run_init : Z -> Z -> Z) (stale : Z -> Z).
Context (f : list Z) (Hf : mod_ok kernel_symtab f).
Implicit Types s : kmods A.
Notation shoff := (f_shoff f).
Notation shnum := (f_shnum f).

Lemma wp_find_entries base st s : view f base (elf_buffer s) -> f_symtab f = Some st ->
  wp (loop (Z.to_nat (sym_count st)) 0 (find_entry shoff (Z.of_nat shnum) st) (0, 0))
    (fun r s' => s' = s /\ r = inl (entry_points f base)) s.
Proof using Hf.
  intros V Est. unfold entry_points. rewrite Est.
  apply (wp_loop (fun j acc s' => s' = s /\ exists k, j = Z.of_nat k /\ acc = foldl (entry_of f base st) (0, 0) (seq 0 k))).
  - split; [done|]. by exists 0%nat.
  - intros j acc s' Hj [-> (k & -> & ->)]. set (acc := foldl _ _ _). pose proof (mo_symbols _ _ Hf) as Hs. rewrite Est in Hs. destruct Hs as [Hs _].
    rewrite Forall_forall in Hs. specialize (Hs k ltac:(apply elem_of_seq; lia)). apply Is_true_true in Hs. unfold symbol_ok in Hs. apply andb_prop in Hs as [Hk Hn].
    pose proof (symtab_nonneg kernel_symtab f Hf st Est) as H0. pose proof V as [V1 V2 V3]. destruct (mo_table _ _ Hf) as [T1 T2]. unfold EHDR_SIZE, SHDR_SIZE, SYM_SIZE in *. zbool.
    assert (E : foldl (entry_of f base st) (0, 0) (seq 0 (S k)) = entry_of f base st acc k) by (by rewrite seq_S, foldl_app).
    assert (Hnext : forall a, a = entry_of f base st acc k -> s = s /\ exists k', Z.of_nat k + 1 = Z.of_nat k' /\ a = foldl (entry_of f base st) (0, 0) (seq 0 k')).
    { intros a ->. split; [done|]. exists (S k). split; [lia|done]. }
    unfold find_entry. destruct acc as [init_func exit_func] eqn:Eacc. wp_steps. apply wp_read_sym; [unfold SYM_SIZE; lia|unfold SYM_SIZE; lia|].
    rewrite (sym_at_front f (elf_buffer s) shoff V2) by (unfold SYM_SIZE; lia). fold (symbol f st (Z.of_nat k)). set (sym := symbol f st (Z.of_nat k)) in *.
    assert (Ei : (st_shndx sym =? 0) || (Z.of_nat shnum <=? st_shndx sym) = negb (internal f sym)) by (unfold internal; rewrite negb_andb, negb_involutive; f_equal; apply Z.leb_antisym).
    rewrite Ei. unfold entry_of in Hnext. fold sym in Hnext. destruct (internal f sym) eqn:Esym; cbn [negb] in *; [|apply wp_ret; by apply Hnext].
    apply orb_prop in Hn as [Hn|Hn]; [done|]. unfold str_ok in Hn. apply bool_decide_eq_true in Hn. destruct (string_front f (elf_buffer s) shoff V2 _ Hn) as [G1 G2].
    unfold c_string. apply wp_bind. rewrite bool_decide_eq_true_2 by done. apply wp_ret. rewrite G2. fold (str_at f (strtab st + st_name sym)).
    assert (Hr : 0 <= st_shndx sym < Z.of_nat shnum). { unfold internal in Esym. apply andb_prop in Esym as [_ ?]. zbool. split; [|done]. apply get16_range, (mo_bytes _ _ Hf). }
    cbn [fst snd] in Hnext. destruct (bool_decide (_ = MODULE_INIT)); [|destruct (bool_decide (_ = MODULE_EXIT)); [|apply wp_ret; by apply Hnext]].
    all: apply wp_bind, (wp_shdr_z kernel_symtab f Hf base); [done|done|]; cbn [sh_addr set_sh_addr]; apply wp_ret; by apply Hnext.
  - intros a s' [-> (k & Ek & ->)]. split; [done|]. do 3 f_equal. lia.
Qed.

(** *** The record of the module *)

Section track.
Context (base : nat -> Z).
Context (Hrange : forall i, (i < shnum)%nat -> is_loaded (sec f i) -> 0 < base i < 2 ^ 64 - sh_size (sec f i)).
Context (Hnone : forall i, is_loaded (sec f i) = false -> base i = 0).

Lemma owned_iff i : (i < shnum)%nat -> owned (set_sh_addr (base i) (sec f i)) = is_loaded (sec f i).
Proof using Hrange Hnone.
  intros Hi. unfold owned. cbn [sh_addr sh_flags set_sh_addr]. destruct (is_loaded (sec f i)) eqn:El.
  - rewrite (proj2 (Z.eqb_neq _ 0)) by (specialize (Hrange i Hi (Is_true_true_2 _ El)); lia). unfold is_loaded in El. apply andb_prop in El as [El _]. by rewrite El.
  - by rewrite (Hnone i El).
Qed.

Lemma wp_count_allocs s : view f base (elf_buffer s) ->
  wp (loop shnum 0 (count_alloc shoff) 0) (fun r s' => s' = s /\ r = inl (zlen (section_blocks f base shnum))) s.
Proof using Hf Hrange Hnone.
  intros V. apply (wp_loop (fun j acc s' => s' = s /\ exists n, j = Z.of_nat n /\ acc = zlen (section_blocks f base n))).
  - split; [done|]. by exists 0%nat.
  - intros j acc s' Hj [-> (n & -> & ->)]. unfold count_alloc. apply wp_bind, (wp_shdr kernel_symtab f Hf base); [done|lia|]. apply wp_ret. split; [done|].
    exists (S n). split; [lia|]. rewrite owned_iff, section_blocks_S by lia. unfold zlen. rewrite length_app. case_if; cbn; lia.
  - intros a s' [-> (n & En & ->)]. split; [done|]. do 3 f_equal. lia.
Qed.
Lemma wp_note_allocs s : view f base (elf_buffer s) ->
  wp (loop shnum 0 (note_alloc shoff) []) (fun r s' => s' = s /\ r = inl (section_blocks f base shnum).*1) s.
Proof using Hf Hrange Hnone.
  intros V. apply (wp_loop (fun j acc s' => s' = s /\ exists n, j = Z.of_nat n /\ acc = (section_blocks f base n).*1)).
  - split; [done|]. by exists 0%nat.
  - intros j acc s' Hj [-> (n & -> & ->)]. unfold note_alloc. apply wp_bind, (wp_shdr kernel_symtab f Hf base); [done|lia|]. apply wp_ret. split; [done|].
    exists (S n). split; [lia|]. rewrite owned_iff, section_blocks_S by lia. rewrite fmap_app. case_if; cbn [sh_addr set_sh_addr]; [done|by rewrite app_nil_r].
  - intros a s' [-> (n & En & ->)]. split; [done|]. do 4 f_equal. lia.
Qed.

Lemma section_blocks_count n : zlen (section_blocks f base n) <= Z.of_nat n.
Proof using. induction n as [|n IH]; [done|]. rewrite section_blocks_S. unfold zlen in *. rewrite length_app. case_if; cbn; lia. Qed.

(** A new module at the head of the list. *)
Lemma modules_add s s' ms live0 live m : modules_ok s ms live0 -> owns (k_heap s') (lm_blocks m ++ (ms ≫= lm_blocks) ++ live) ->
  k_mods s' = <[lm_addr m := lm_node m (modules_head s)]> (k_mods s) -> modules_head s' = lm_addr m ->
  kept (ms ≫= lm_blocks).*1 s s' -> (match lm_sections m with [] => lm_array m = 0 | _ => k_arrays s' !! lm_array m = Some (lm_sections m).*1 end) ->
  modules_ok s' (m :: ms) live.
Proof using.
  intros [M1 M2 M3] Ho Em Eh Hk Ha. split; [by cbn; rewrite <- app_assoc| |].
  - cbn. rewrite Eh. split; [done|]. pose proof Ho as [_ Hd Hp]. cbn in Hd, Hp. apply Forall_cons in Hp as [[Hp _] _]. cbn in Hp. apply NoDup_cons in Hd as [Hn _].
    split; [lia|]. eexists. rewrite Em, lookup_insert_eq. split; [done|]. cbn [m_next lm_node]. apply chain_other; [|done].
    intros Hin. apply Hn. rewrite fmap_app. apply elem_of_app. right. by apply addr_keys.
  - constructor.
    + split; [|done]. eexists. by rewrite Em, lookup_insert_eq.
    + apply Forall_forall. intros x Hx. rewrite Forall_forall in M3. eapply stored_kept; [apply addr_key|eapply kept_sub; [|exact Hk]|by apply M3].
      rewrite <- (app_nil_r (ms ≫= lm_blocks)). by apply blocks_keys.
Qed.

Lemma wp_new_array s (secs : list (Z * Z)) L k : owns (k_heap s) L -> al_room (k_heap s) (al_cost (8 * zlen secs) + k) -> 0 <= k -> zlen secs <= 2 ^ 16 ->
  forall Q : Z -> kmods A -> Prop, (forall a h, (secs = [] /\ a = 0 /\ owns h L) \/ (secs <> [] /\ owns h ((a, 8 * zlen secs) :: L) /\ 0 < a) -> Q a (set_k_heap h s)) ->
  wp (km_alloc (8 * zlen secs)) Q s.
Proof using.
  intros Ho Hr Hk Hs Q HQ. destruct secs as [|b secs'] eqn:E.
  - unfold km_alloc. apply wp_zoom. eapply wp_mono; [apply al_alloc_null|]. cbn beta. intros a h [-> ->]. apply HQ. by left.
  - eapply wp_km_alloc; [exact Ho| |exact Hk|exact Hr|]; [unfold zlen in *; cbn [length] in *; lia|]. intros a h Ho' _ Ha. apply HQ. right. split_and!; [done|done|lia].
Qed.

Lemma wp_track_module s ms live init exit k : view f base (elf_buffer s) -> let secs := section_blocks f base shnum in
  modules_ok s ms (secs ++ live) -> 0 <= k -> al_room (k_heap s) (al_cost MODULE_SIZE + (al_cost (8 * zlen secs) + k)) ->
  wp (track_module shoff (Z.of_nat shnum) init exit) (fun r s' => r = 0 /\ k_mem s' = k_mem s /\ k_calls s' = k_calls s /\
    exists new arr, modules_ok s' (LoadedModule SAMPLE_MOD new init exit arr secs :: ms) live) s.
Proof using Hf Hrange Hnone.
  intros V secs HM Hk Hr. unfold track_module. apply wp_bind. pose proof (al_cost_nonneg (8 * zlen secs)) as Hc.
  eapply wp_km_alloc; [apply (mk_owns _ _ _ HM)|done| |exact Hr|]; [lia|]. intros new h Ho Hr' Hn. rewrite (proj2 (Z.eqb_neq new 0)) by lia.
  apply wp_bind. rewrite Nat2Z.id. eapply wp_mono; [by apply wp_count_allocs|]. intros r s' [-> ->]. cbv zeta iota. fold secs.
  apply wp_bind. eapply wp_new_array; [exact Ho|exact Hr'|done| |].
  { pose proof (section_blocks_count shnum). pose proof (get16_range f 60 (mo_bytes _ _ Hf)). fold secs in H. unfold f_shnum in H. lia. }
  intros arr h' Harr. set (s2 := set_k_heap h' (set_k_heap h s)).
  apply wp_bind. set (s3 := if arr =? 0 then s2 else set_k_arrays (<[arr := secs.*1]> (k_arrays s2)) s2).
  eapply (wp_mono _ (fun _ s' => s' = s3)).
  { unfold s3. destruct (arr =? 0); [done|]. apply wp_bind. eapply wp_mono; [by apply wp_note_allocs|]. intros r s' [-> ->]. done. }
  clearbody secs. intros [] s' ->. wp_steps. set (node := Module_t SAMPLE_MOD init exit arr (zlen secs) 1 0). unfold kmod_register_tracked_module.
  rewrite (proj2 (Z.eqb_neq new 0)) by lia. wp_steps. eapply wp_opt; [apply lookup_insert_eq|]. wp_steps. cbn [k_mods set_k_mods modules_head]. rewrite insert_insert_eq.
  assert (E3 : k_heap s3 = h' /\ k_mods s3 = k_mods s /\ modules_head s3 = modules_head s /\ k_mem s3 = k_mem s /\ k_calls s3 = k_calls s /\
    (forall a, a <> arr -> k_arrays s3 !! a = k_arrays s !! a)).
  { unfold s3. destruct (arr =? 0); split_and!; try done. intros a Ha. cbn. by rewrite lookup_insert_ne. }
  destruct E3 as (E1 & E2 & E4 & E5 & E6 & E7). split_and!; [done|done|done|]. exists new, arr. set (m := LoadedModule SAMPLE_MOD new init exit arr secs).
  assert (Ho' : owns h' (lm_blocks m ++ (ms ≫= lm_blocks) ++ live)).
  { assert (HP : array_block m ++ (new, MODULE_SIZE) :: (ms ≫= lm_blocks) ++ secs ++ live ≡ₚ lm_blocks m ++ (ms ≫= lm_blocks) ++ live).
    { unfold lm_blocks. cbn [lm_addr lm_sections m]. solve_Permutation. }
    rewrite <- HP. destruct Harr as [(Es & -> & Ha)|(Es & Ha & _)]; unfold array_block; cbn [lm_sections lm_array m]; destruct secs; done. }
  assert (Hfresh : forall a, a ∈ ((ms ≫= lm_blocks) ++ live).*1 -> a <> new /\ (secs <> [] -> a <> arr)).
  { intros a Ha. pose proof Ho' as [_ Hd _]. rewrite fmap_app in Hd. apply NoDup_app in Hd as (_ & Hd & _). split.
    - intros ->. apply (Hd new); [apply (addr_key m)|done].
    - intros Hs ->. apply (Hd arr); [|done]. unfold lm_blocks, array_block. cbn [lm_sections lm_array m]. destruct secs; [done|]. right. by left. }
  apply (modules_add s _ ms (secs ++ live)); cbn [k_heap k_mods k_arrays modules_head set_head set_k_mods lm_addr lm_sections lm_array m]; [done|by rewrite E1|by rewrite E2, E4|done| |].
  - assert (Hin : forall a, a ∈ (ms ≫= lm_blocks).*1 -> a ∈ ((ms ≫= lm_blocks) ++ live).*1) by (intros a Ha; rewrite fmap_app; apply elem_of_app; by left).
    split; intros a Ha%Hin; destruct (Hfresh a Ha) as [F1 F2]; cbn; [by rewrite lookup_insert_ne, E2| |by rewrite E5].
    unfold s3. destruct Harr as [(_ & -> & _)|(Hs & _ & Hp)]; [done|]. case_if; [done|]. cbn. by rewrite lookup_insert_ne by (apply not_eq_sym; auto).
  - unfold s3. destruct Harr as [(-> & -> & _)|(Hs & _ & Hp)]; [done|]. rewrite (proj2 (Z.eqb_neq arr 0)) by lia. cbn. rewrite lookup_insert_eq. by destruct secs.
Qed.
End track.

(** *** The loader, whole *)

Definition load_cost : Z := costs f 0 shnum + (al_cost MODULE_SIZE + al_cost (8 * zlen (section_blocks f (fun _ => 0) shnum))).

Lemma section_blocks_length base base' n : length (section_blocks f base n) = length (section_blocks f base' n).
Proof using. induction n as [|n IH]; [done|]. rewrite !section_blocks_S, !length_app, IH. by case_if. Qed.
Lemma with_mem_same s : with_mem s (k_mem s) = s.
Proof using. by destruct s. Qed.

Lemma linking_start base L room s s1 : loading stale f L room s shnum base s1 -> linking kernel_symtab stale f base L s1 [] (k_mem s1).
Proof using Hf.
  intros HL. split; [|done]. intros i Hi Hl. eexists. split; [by eapply ld_mem|]. eapply linked_start; [apply (mo_bytes _ _ Hf)|done| |done].
  intros _ Hp. destruct (section_facts kernel_symtab f Hf i Hi) as (_ & H & _). destruct (H (proj1 (Is_true_true _) Hl)) as [_ H2]. specialize (H2 Hp). destruct (section_fits kernel_symtab f Hf i Hi). lia.
Qed.

(** What is stored in a section is what the ABI asks. *)
Lemma linked_section_abi i base b : linked kernel_symtab stale f (relocs f shnum) (f_symtab f) base i b ->
  sh_type (sec f i) = SHT_PROGBITS \/ sh_type (sec f i) = SHT_NOBITS -> abi_linked kernel_symtab f (relocs f shnum) (f_symtab f) base i b.
Proof using Hf.
  intros Hb Ht. apply (linked_abi kernel_symtab stale); [done..|].
  intros x Hx. destruct (reloc_facts kernel_symtab f Hf x Hx) as (st & _ & Hok & _). unfold reloc_ok in Hok. apply Is_true_true in Hok.
  apply andb_prop in Hok as [[_ H]%andb_prop _]. by apply bool_decide_eq_true in H.
Qed.

(** The state in which the module's [module_init] has been called. *)
Record module_linked (base : nat -> Z) (ms : list loaded_module) (live : list (Z * Z)) s s' : Prop := {
  ml_sections : forall i, (i < shnum)%nat -> is_loaded (sec f i) -> exists b, k_mem s' !! base i = Some b /\ zlen b = sh_size (sec f i) /\
    (sh_type (sec f i) = SHT_PROGBITS \/ sh_type (sec f i) = SHT_NOBITS -> abi_linked kernel_symtab f (relocs f shnum) (f_symtab f) base i b);
  ml_rest : forall a, a ∈ ((ms ≫= lm_blocks) ++ live).*1 -> k_mem s' !! a = k_mem s !! a
}.

Lemma linked_modules base ms live room s s1 m : loading stale f ((ms ≫= lm_blocks) ++ live) room s shnum base s1 -> modules_ok s ms live ->
  modules_ok (with_mem s1 m) ms (section_blocks f base shnum ++ live).
Proof using.
  intros HL [M1 M2 M3]. destruct (ld_same _ _ _ _ _ _ _ _ HL) as [S1 S2 S3 S4]. split.
  - cbn [k_heap with_mem set_k_mem]. pose proof (ld_owns _ _ _ _ _ _ _ _ HL) as Ho.
    assert (HP : section_blocks f base shnum ++ (ms ≫= lm_blocks) ++ live ≡ₚ (ms ≫= lm_blocks) ++ section_blocks f base shnum ++ live) by solve_Permutation. by rewrite <- HP.
  - cbn [k_mods with_mem set_k_mem modules_head]. by rewrite S1, S3.
  - eapply Forall_impl; [exact M3|]. unfold module_stored. cbn [k_mods k_arrays with_mem set_k_mem]. by rewrite S1, S2.
Qed.

Lemma modules_call a s ms live : modules_ok s ms live -> modules_ok (call a s) ms live.
Proof using. by intros [M1 M2 M3]. Qed.

(** The outcome of loading: [module_init] is missing, it failed (the sections
    stay in use and belong to nobody), or the module is the first of the
    list. *)
Definition load_result (base : nat -> Z) (ms : list loaded_module) (live : list (Z * Z)) (dev : Z) s (r : Z) s' : Prop :=
  let '(init, exit) := entry_points f base in
  module_linked base ms live s s' /\
  r = (if init =? 0 then -6 else run_init init dev) /\
  k_calls s' = (if init =? 0 then k_calls s else init :: k_calls s) /\
  if negb (init =? 0) && (run_init init dev =? 0)
  then exists new arr, modules_ok s' (LoadedModule SAMPLE_MOD new init exit arr (section_blocks f base shnum) :: ms) live
  else modules_ok s' ms (section_blocks f base shnum ++ live).

Lemma wp_link_module s ms live dev : modules_ok s ms live -> elf_buffer s = f -> al_room (k_heap s) load_cost ->
  wp (link_module kernel_symtab run_init stale shoff (Z.of_nat shnum) (f_shstrtab f) dev) (fun r s' => exists base, load_result base ms live dev s r s') s.
Proof using Hf.
  intros HM Eb Hr. unfold link_module. rewrite Nat2Z.id. pose proof (al_cost_nonneg MODULE_SIZE). pose proof (al_cost_nonneg (8 * zlen (section_blocks f (fun _ => 0) shnum))).
  apply wp_bind. eapply wp_mono; [apply (wp_load_sections kernel_symtab stale f Hf _ _ s (mk_owns _ _ _ HM) Hr); [lia|done]|].
  intros [[]|] s1 Hl; [|done]. destruct Hl as [base HL]. pose proof HL as [V N O R _ G Sm C].
  eapply (wp_mono _ (load_result base ms live dev s)); [|intros r s' Hres; by exists base]. unfold load_result.
  apply wp_bind. eapply wp_mono; [by apply (wp_find_symtab kernel_symtab f Hf base)|]. intros r s1' [-> ->]. cbv zeta.
  set (st := match match f_symtab f with Some st => inr st | None => inl tt end with inr st => Some st | inl _ => None end). assert (Est : st = f_symtab f) by (unfold st; by destruct (f_symtab f)). clearbody st. subst st.
  apply wp_bind. pose proof (wp_relocate kernel_symtab stale f Hf base ((ms ≫= lm_blocks) ++ live) s1 V G) as Hrel. rewrite <- (with_mem_same s1).
  eapply wp_mono; [apply Hrel; [intros i Hi; apply N; by right|exact O|by eapply linking_start]|]. clear Hrel.
  intros [[]|] s2 H2; [|done]. destruct H2 as (m & -> & HK). pose proof (linked_modules base ms live _ s s1 m HL HM) as HM2. set (s2 := with_mem s1 m) in *.
  assert (HML : forall s', k_mem s' = m -> module_linked base ms live s s').
  { intros s' Em. destruct HK as [K1 K2], Sm as [_ _ _ Sm]. split; rewrite Em.
    { intros i Hi Hli. destruct (K1 i Hi Hli) as (b & Eb' & Hb). exists b. split_and!; [done|by destruct Hb|]. by apply linked_section_abi. }
    intros a Ha. by rewrite K2, Sm. }
  assert (Hent : wp (match f_symtab f with None => kret (inl (0, 0)) | Some st => loop (Z.to_nat (sym_count st)) 0 (find_entry shoff (Z.of_nat shnum) st) (0, 0) end)
    (fun r s' => s' = s2 /\ r = inl (entry_points f base)) s2).
  { destruct (f_symtab f) as [st|] eqn:E; [by apply wp_find_entries|]. apply wp_ret. split; [done|]. unfold entry_points. by rewrite E. }
  apply wp_bind. eapply wp_mono; [exact Hent|]. intros r s2' [-> ->]. clear Hent. destruct (entry_points f base) as [init exit]. cbv beta iota.
  destruct (init =? 0) eqn:Ei; cbn [negb andb]; [apply wp_ret; by split_and!; [apply HML| | |]|]. wp_steps.
  destruct (run_init init dev =? 0) eqn:Er; cbn [negb].
  - eapply wp_mono; [apply (wp_track_module base) with (k := 0)|].
    + done.
    + intros i Hi. apply N. by right.
    + exact V.
    + by apply modules_call.
    + reflexivity.
    + cbn [k_heap call with_mem set_k_mem s2]. rewrite Nat.sub_diag in R. cbn [costs] in R. unfold zlen in *. rewrite (section_blocks_length base (fun _ => 0)), Z.add_0_r. exact R.
    + intros r s' (-> & Em & Ec & Hnew). apply Z.eqb_eq in Er. rewrite Er. split_and!; [apply HML; by rewrite Em|done|by rewrite Ec; cbn; rewrite C|exact Hnew].
  - apply wp_ret. split_and!; [by apply HML|done|by cbn; rewrite C|by apply modules_call].
Qed.

Lemma wp_kmod_load s ms live dev : modules_ok s ms live -> elf_buffer s = f -> al_room (k_heap s) load_cost ->
  wp (kmod_load kernel_symtab run_init stale true (zlen f) dev) (fun r s' => exists base, load_result base ms live dev s r s') s.
Proof using Hf.
  intros HM Eb Hr. destruct (mo_table _ _ Hf) as [T1 T2]. unfold EHDR_SIZE, SHDR_SIZE in *. unfold kmod_load. cbn [negb orb]. rewrite (proj2 (Z.ltb_ge _ _)) by (unfold EHDR_SIZE; lia).
  apply wp_bind, wp_gets. rewrite Eb. unfold elf_validate_header. wp_steps. apply wp_bytes_out; [done|done|lia|]. wp_steps.
  eapply wp_intro; [apply ld16_ok; lia|]. wp_steps. eapply wp_intro; [apply ld16_ok; lia|]. wp_steps.
  destruct (mo_magic _ _ Hf) as (G1 & G2 & G3 & G4). change (Z.to_nat 0) with 0%nat. change (Z.to_nat 16) with 16%nat. change (Z.to_nat 18) with 18%nat. rewrite drop_0, take_take.
  change (4 `min` 16)%nat with 4%nat. rewrite lookup_take_lt by lia. rewrite G1, G2, G3, G4. rewrite !bool_decide_eq_true_2 by done. cbn [andb negb Z.eqb Pos.eqb].
  wp_steps. eapply wp_intro; [apply ld64_ok; lia|]. wp_steps. eapply wp_intro; [apply ld16_ok; lia|]. wp_steps. eapply wp_intro; [apply ld16_ok; lia|]. wp_steps.
  change (Z.to_nat 40) with 40%nat. change (Z.to_nat 60) with 60%nat. change (Z.to_nat 62) with 62%nat. change (get64 f 40) with shoff.
  pose proof (get16_range f 60 (mo_bytes _ _ Hf)). pose proof (get16_range f 62 (mo_bytes _ _ Hf)).
  apply (wp_shdr_z kernel_symtab f Hf (fun _ => 0)); [rewrite Eb; apply (view_start kernel_symtab f Hf)|pose proof (mo_names _ _ Hf); lia|]. cbn [sh_offset set_sh_addr].
  fold (f_shstrtab f). replace (get16 f 60) with (Z.of_nat shnum) by (unfold f_shnum; lia). by apply wp_link_module.
Qed.
End loading.
