(* ===== verification/KmodCheck.v ===== *)
(** * The module loader's promises *)

From Stdlib Require Import ZArith Lia.
From stdpp Require Import base tactics list gmap.
From S2P Require Import Prelude Pages Alloc Bytes Chains Elf ElfThms ElfArgs Kmod KmodLink KmodThms.

Section promises.
Context {A : Type} `{!Allocator A}.
Context (kernel_symtab : list (list Z * Z)) (run_init : Z -> Z -> Z) (stale : Z -> Z).
Implicit Types s : kmods A.

(** C28: A well-formed module is linked as the ABI asks before it runs.  With
    memory for it, [kmod_load] puts every loaded section in a block of its own.
    In a section with bytes in the file (PROGBITS) or of zeros (NOBITS) the
    place of every relocation whose value fits its field holds that value
    (the relocations of [.eh_frame] are skipped), and every byte outside the places of relocations is that of the file or zero.
    (A value that does not fit is truncated without an error,
    [short_relocation_truncates], and a section of another type keeps what its
    memory held, [note_section_stale].)  No other block changes;
    [module_init] is called with the device and its result returned; on 0 the
    module, with exactly these sections, is the first of the list, and otherwise
    (or without [module_init], -6) the list is as before and the sections stay
    in use. *)
Theorem kmod_load_correct f s ms live dev :
  mod_ok kernel_symtab f -> modules_ok s ms live -> elf_buffer s = f -> al_room (k_heap s) (load_cost f) ->
  wp (kmod_load kernel_symtab run_init stale true (zlen f) dev)
    (fun r s' => exists base, load_result kernel_symtab run_init f base ms live dev s r s') s.
Proof. intros. by apply wp_kmod_load. Qed.

(** C29: Unloading undoes loading.  A module whose [module_init] returned 0 is
    unloaded by the name it was given; its blocks go back to the heap and no
    other, the other modules and their memory are as before the module was
    loaded, and its routines ran in the order [module_init], [module_exit]. *)
Theorem kmod_load_unload f s ms live dev :
  mod_ok kernel_symtab f -> modules_ok s ms live -> elf_buffer s = f -> al_room (k_heap s) (load_cost f) ->
  wp (r <-- kmod_load kernel_symtab run_init stale true (zlen f) dev ;;
      if r =? 0 then kmod_unload (Some SAMPLE_MOD) else kret r)
    (fun r s' => (forall a, a ∈ ((ms ≫= lm_blocks) ++ live).*1 -> k_mem s' !! a = k_mem s !! a) /\ exists base,
       let '(init, exit) := entry_points f base in
       if negb (init =? 0) && (run_init init dev =? 0)
       then r = 0 /\ modules_ok s' ms live /\ k_calls s' = (if exit =? 0 then [] else [exit]) ++ init :: k_calls s
       else r <> 0 /\ modules_ok s' ms (section_blocks f base (f_shnum f) ++ live)) s.
Proof.
  intros Hf HM Eb Hr. apply wp_bind. eapply wp_mono; [by apply wp_kmod_load|]. cbn beta. intros r s1 [base Hres]. unfold load_result in Hres.
  destruct (entry_points f base) as [init exit] eqn:Ee. destruct Hres as (Hlink & -> & Hc & Hmods). pose proof (ml_rest _ _ _ _ _ _ _ Hlink) as Hrest.
  destruct (init =? 0) eqn:Ei; cbn [negb andb] in *.
  - apply wp_ret. split; [done|]. exists base. rewrite Ee. cbn. rewrite Ei. done.
  - destruct (run_init init dev =? 0) eqn:Er.
    + destruct Hmods as (new & arr & Hmods). eapply wp_mono; [apply (wp_unload SAMPLE_MOD [] _ ms live s1 Hmods); done|].
      intros r s2 (-> & HM2 & Hc2 & Hmem). cbn [lm_exit] in Hc2. split; [intros a Ha; by rewrite (Hmem a Ha), Hrest|]. exists base. rewrite Ee, Ei, Er. cbn [negb andb].
      split_and!; [done|done|]. rewrite Hc2, Hc. by case_if.
    + apply wp_ret. split; [done|]. exists base. rewrite Ee, Ei, Er. cbn. split; [by apply Z.eqb_neq|done].
Qed.

(** A name no module has changes nothing. *)
Theorem kmod_unload_unknown name s ms live : modules_ok s ms live -> Forall (fun m => lm_name m <> name) ms ->
  wp (kmod_unload (Some name)) (fun r s' => r = -2 /\ s' = s) s.
Proof. apply wp_unload_unknown. Qed.

(** The listing shows the first section of every module, 0 for one without. *)
Theorem kmod_print_all_correct s ms live : modules_ok s ms live ->
  wp kmod_print_all (fun r s' => s' = s /\ r = (fun m => default 0 (head (lm_sections m).*1)) <$> ms) s.
Proof.
  intros [M1 M2 M3]. unfold kmod_print_all. wp_steps. eapply wp_print_modules; [done|exact M2|].
  rewrite <- (length_fmap lm_addr). by eapply chain_size.
Qed.

(** Buffers that are refused. *)
Theorem kmod_load_rejects f s dev :
  elf_buffer s = f -> EHDR_SIZE <= zlen f ->
  take 4 f <> [0x7F; 69; 76; 70] \/ get16 f 18 <> 62 \/ get16 f 16 <> 1 ->
  wp (kmod_load kernel_symtab run_init stale true (zlen f) dev) (fun r s' => r = -2 /\ s' = s) s.
Proof.
  intros Eb Hl Hbad. unfold EHDR_SIZE in *. unfold kmod_load. cbn [negb orb]. rewrite (proj2 (Z.ltb_ge _ _)) by (unfold EHDR_SIZE; lia).
  apply wp_bind, wp_gets. rewrite Eb. unfold elf_validate_header. wp_steps. apply wp_bytes_out; [done|done|lia|]. wp_steps.
  eapply wp_intro; [apply ld16_ok; lia|]. wp_steps. eapply wp_intro; [apply ld16_ok; lia|]. wp_steps.
  change (Z.to_nat 0) with 0%nat. change (Z.to_nat 16) with 16%nat. change (Z.to_nat 18) with 18%nat. rewrite drop_0, take_take. change (4 `min` 16)%nat with 4%nat.
  destruct Hbad as [H|[H|H]]; [rewrite bool_decide_eq_false_2 by done|rewrite (proj2 (Z.eqb_neq _ _) H), andb_false_r|rewrite (proj2 (Z.eqb_neq _ _) H), andb_false_r]; cbn [andb negb]; by wp_steps.
Qed.
End promises.

(** ** A memory, and a module *)

(** Memory is handed out upwards to a limit and never used again. *)
Record arena : Type := Arena { ar_next : Z; ar_limit : Z }.
Definition arena_alloc (size : Z) : M arena Z := fun s =>
  if (size =? 0) || (ar_limit s <? ar_next s + size) then Ok (0, s) else Ok (ar_next s, Arena (ar_next s + size) (ar_limit s)).
Definition arena_ok (s : arena) (live : list (Z * Z)) : Prop :=
  0 < ar_next s /\ ar_limit s < 2 ^ 64 /\ forall b n, (b, n) ∈ live -> b + n <= ar_next s.
Definition arena_room (s : arena) (k : Z) : Prop := ar_next s + k <= ar_limit s.

Lemma arena_perm s live live' : live ≡ₚ live' -> arena_ok s live -> arena_ok s live'.
Proof. intros Hp (H1 & H2 & H3). split_and!; [done|done|]. intros b n Hb. apply H3. by rewrite Hp. Qed.
Lemma arena_alloc_null s : wp (arena_alloc 0) (fun a s' => a = 0 /\ s' = s) s.
Proof. done. Qed.
Lemma arena_alloc_spec s live size k :
  arena_ok s live -> 0 < size < 2 ^ 40 - 16 -> 0 <= k -> arena_room s (Z.max 0 size + k) ->
  wp (arena_alloc size) (fun a s' => arena_ok s' ((a, size) :: live) /\ arena_room s' k /\ 0 < a /\ a + size < 2 ^ 64 /\
    forall b n, (b, n) ∈ live -> a + size <= b \/ b + n <= a) s.
Proof.
  unfold arena_ok, arena_room, arena_alloc, wp. intros (H1 & H2 & H3) Hs Hk Hr. rewrite (proj2 (Z.eqb_neq _ _)), (proj2 (Z.ltb_ge _ _)) by lia. cbn [orb ar_next ar_limit].
  split_and!; try lia; [|intros b n Hb; right; by apply H3]. intros b n [[= -> ->]|Hb]%elem_of_cons; [lia|]. specialize (H3 b n Hb). lia.
Qed.
Lemma arena_free_spec s live rest a n : arena_ok s live -> live ≡ₚ (a, n) :: rest ->
  wp (kret tt) (fun _ s' => arena_ok s' rest /\ forall k, arena_room s k -> arena_room s' k) s.
Proof. intros (H1 & H2 & H3) Hp. split; [|done]. split_and!; [done|done|]. intros b m Hb. apply H3. rewrite Hp. by right. Qed.
Lemma arena_cost_nonneg size : 0 <= Z.max 0 size.
Proof. lia. Qed.

#[export] Instance arena_allocator : Allocator arena := {|
  al_alloc := arena_alloc;
  al_free := fun _ => kret tt;
  al_ok := arena_ok;
  al_room := arena_room;
  al_cost := Z.max 0;
  al_cost_nonneg := arena_cost_nonneg;
  al_ok_perm := arena_perm;
  al_alloc_null := arena_alloc_null;
  al_alloc_spec := arena_alloc_spec;
  al_free_spec := arena_free_spec
|}.

(** [".text"], ["module_init"] and ["kprintf"] in its tables; the two
    relocations store the address of [kprintf] and a distance. *)
Definition KPRINTF : list Z := [107; 112; 114; 105; 110; 116; 102].
Definition mod_header : list Z :=
  [0x7F; 69; 76; 70; 2; 1; 1] ++ replicate 9 0 ++ le16 1 ++ le16 62 ++ le32 1 ++ le64 0 ++ le64 0 ++ le64 228 ++ le32 0 ++
  le16 64 ++ le16 0 ++ le16 0 ++ le16 64 ++ le16 7 ++ le16 5.
Definition sym_bytes (name shndx value : Z) : list Z := le32 name ++ [0; 0] ++ le16 shndx ++ le64 value ++ le64 0.
Definition rela_bytes (offset sym ty addend : Z) : list Z := le64 offset ++ le64 (sym * 2 ^ 32 + ty) ++ le64 (u64 addend).
Definition shdr_bytes (name ty flags offset size link info : Z) : list Z :=
  le32 name ++ le32 ty ++ le64 flags ++ le64 0 ++ le64 offset ++ le64 size ++ le32 link ++ le32 info ++ le64 1 ++ le64 0.
Definition mod_file (text : list Z) (ty1 ty2 : Z) : list Z :=
  mod_header ++ text ++
  (sym_bytes 0 0 0 ++ sym_bytes 1 1 4 ++ sym_bytes 13 0 0) ++
  (0 :: MODULE_INIT ++ 0 :: KPRINTF ++ [0]) ++
  (rela_bytes 0 2 ty1 5 ++ rela_bytes 8 1 ty2 (-4)) ++
  [0; 46; 116; 101; 120; 116; 0] ++
  shdr_bytes 0 0 0 0 0 0 0 ++ shdr_bytes 1 SHT_PROGBITS 6 64 16 0 0 ++ shdr_bytes 0 SHT_SYMTAB 0 80 72 3 1 ++ shdr_bytes 0 3 0 152 21 0 0 ++
  shdr_bytes 0 SHT_RELA 0 173 48 2 1 ++ shdr_bytes 0 3 0 221 7 0 0 ++ shdr_bytes 0 SHT_NOBITS 3 0 32 0 0.
Definition example_text : list Z := [1; 2; 3; 4; 5; 6; 7; 8; 9; 10; 11; 12; 13; 14; 15; 16].
Definition example_mod : list Z := mod_file example_text R_X86_64_64 R_X86_64_PC32.
Definition example_symtab : list (list Z * Z) := [(KPRINTF, 0xFFFFFFFF80001000)].
Definition loads (_ _ : Z) : Z := 0.
Definition no_byte (_ : Z) : Z := 0.
Definition mod_state (limit : Z) (f : list Z) : kmods arena := Kmods (Arena 0x1000 limit) ∅ ∅ ∅ 0 f [].

Lemma forallb_is_true {X} (P : X -> bool) l : forallb P l = true -> Forall (fun x => Is_true (P x)) l.
Proof. rewrite forallb_forall. intros H. apply Forall_forall. intros x Hx. apply Is_true_true, H. by apply list_elem_of_In. Qed.
Lemma example_mod_ok : mod_ok example_symtab example_mod.
Proof.
  split.
  - apply (Forall_impl (fun b => Is_true ((0 <=? b) && (b <? 256)))); [apply forallb_is_true; by vm_compute|].
    intros b H. apply Is_true_true in H. zbool. done.
  - by vm_compute.
  - by vm_compute.
  - by vm_compute.
  - apply forallb_is_true. by vm_compute.
  - assert (E : f_symtab example_mod = Some (Symtab 80 3 152)) by by vm_compute. rewrite E. split; apply forallb_is_true; by vm_compute.
  - assert (E : relocs example_mod (f_shnum example_mod) = [(1%nat, Rela 0 (2 * 2 ^ 32 + 1) 5); (1%nat, Rela 8 (2 ^ 32 + 2) (2 ^ 64 - 4))]) by by vm_compute.
    rewrite E. constructor; [constructor; [right; left; by vm_compute|constructor]|by repeat constructor].
Qed.
Lemma example_mods_ok limit f : limit < 2 ^ 64 -> modules_ok (mod_state limit f) [] [].
Proof. intros Hl. split; [|done|done]. split; [|constructor|done]. split_and!; [done|done|]. intros b n Hb. by inversion Hb. Qed.

Definition start_state : kmods arena := mod_state 0x9000 example_mod.
Lemma kmod_load_witness :
  wp (kmod_load example_symtab loads no_byte true 676 7)
    (fun r s' => exists base, load_result example_symtab loads example_mod base [] [] 7 start_state r s') start_state.
Proof.
  apply (kmod_load_correct example_symtab loads no_byte example_mod start_state [] [] 7);
    [apply example_mod_ok|by apply example_mods_ok|reflexivity|by vm_compute].
Defined.
Lemma kmod_load_unload_witness :
  wp (r <-- kmod_load example_symtab loads no_byte true 676 7 ;; if r =? 0 then kmod_unload (Some SAMPLE_MOD) else kret r)
    (fun r s' => exists base init exit, entry_points example_mod base = (init, exit) /\ (init = 0 \/ (r = 0 /\ modules_ok s' [] []))) start_state.
Proof.
  eapply wp_mono.
  - apply (kmod_load_unload example_symtab loads no_byte example_mod start_state [] [] 7);
      [apply example_mod_ok|by apply example_mods_ok|reflexivity|by vm_compute].
  - intros r s' (_ & base & H). destruct (entry_points example_mod base) as [init exit] eqn:E. exists base, init, exit. split; [done|].
    destruct (Z.eqb_spec init 0) as [->|Hn]; [by left|right]. cbn [negb andb loads Z.eqb] in H. destruct H as (-> & H & _). exact (conj eq_refl H).
Defined.
Lemma kmod_unload_unknown_witness : wp (kmod_unload (Some KPRINTF)) (fun r s' => r = -2 /\ s' = start_state) start_state.
Proof. apply (kmod_unload_unknown KPRINTF start_state [] []); [by apply example_mods_ok|constructor]. Defined.

(** The bytes after linking: the address of [kprintf] plus 5, and the distance
    from the second place to [module_init] less 4. *)
Lemma example_linked :
  wp (kmod_load example_symtab loads no_byte true 676 7)
    (fun r s' => r = 0 /\ k_mem s' !! 0x1000 = Some [5; 16; 0; 128; 255; 255; 255; 255; 248; 255; 255; 255; 13; 14; 15; 16] /\
       k_mem s' !! 0x1010 = Some (replicate 32 0) /\ modules_head s' = 0x1030 /\ k_calls s' = [0x1004]) start_state.
Proof. by vm_compute. Qed.

(** ** What the code does outside the theorems' conditions *)

(** A symbol that is missing: the sections are not given back. *)
Lemma unresolved_leaks :
  wp (kmod_load [] loads no_byte true 676 7)
    (fun r s' => r = -4 /\ modules_head s' = 0 /\ ar_next (k_heap s') = ar_next (k_heap start_state) + 48) start_state.
Proof. by vm_compute. Qed.
(** Nor when [module_init] fails. *)
Lemma failed_init_leaks :
  wp (kmod_load example_symtab (fun _ _ => 5) no_byte true 676 7)
    (fun r s' => r = 5 /\ modules_head s' = 0 /\ ar_next (k_heap s') = ar_next (k_heap start_state) + 48) start_state.
Proof. by vm_compute. Qed.
(** A 32-bit relocation keeps the low half of an address in the upper half of
    memory, without an error. *)
Lemma short_relocation_truncates :
  wp (kmod_load example_symtab loads no_byte true 676 7)
    (fun r s' => r = 0 /\ take 8 <$> k_mem s' !! 0x1000 = Some [5; 16; 0; 128; 5; 6; 7; 8]) (mod_state 0x9000 (mod_file example_text R_X86_64_32 R_X86_64_PC32)).
Proof. by vm_compute. Qed.
(** A section of another type, a note here, keeps what its memory held. *)
Definition note_mod : list Z := take 616 example_mod ++ le32 7 ++ drop 620 example_mod.
Lemma note_section_stale :
  wp (kmod_load example_symtab loads (fun _ => 99) true 676 7)
    (fun r s' => r = 0 /\ k_mem s' !! 0x1010 = Some (replicate 32 99)) (mod_state 0x9000 note_mod).
Proof. by vm_compute. Qed.
(** Every module gets the same name. *)
Lemma same_name :
  wp (r <-- kmod_load example_symtab loads no_byte true 676 7 ;; kmodify (set_buffer example_mod) ;;; kmod_load example_symtab loads no_byte true 676 7)
    (fun r s' => (m_name <$> k_mods s' !! 0x1030) = Some SAMPLE_MOD /\ (m_name <$> k_mods s' !! modules_head s') = Some SAMPLE_MOD /\ modules_head s' <> 0x1030) start_state.
Proof. by vm_compute. Qed.
(** Without memory for the array of sections the module is listed with two
    sections and no array. *)
Lemma listing_dereferences_null :
  exists s', kmod_load example_symtab loads no_byte true 676 7 (mod_state 0x10B0 example_mod) = Ok (0, s') /\ kmod_print_all s' = Stop NullDeref.
Proof. eexists. split; vm_compute; reflexivity. Qed.
