(* ===== verification/Block.v ===== *)
(** * Block devices and partitions

    [block.c]: the catalogue of block devices; [partitions.c]: the partitions
    of a disk, found in an MBR or GPT table, as devices of their own; and the
    functions of [vfs.c] that scan the disks and find the boot partition.

    The read and write functions of a disk ([ahci.c]: device registers and
    DMA) are the parameter [hardware], operations on a state [D] of all disks;
    a failed transfer is [None], or [false]. *)

From Stdlib Require Import ZArith Lia.
From stdpp Require Import base tactics list gmap.
From S2P Require Import Prelude Bytes.

Definition BLOCK_MAX_DEVICES : Z := 16.
Definition BLOCK_NAME_MAX : Z := 32.

Record hardware (D : Type) : Type := Hardware {
  hw_read : Z -> Z -> Z -> M D (option (list Z));
  hw_write : Z -> Z -> Z -> list Z -> M D bool
}.
Arguments Hardware {D}.
Arguments hw_read {D}.
Arguments hw_write {D}.

(** [partition_ctx_t]. *)
Record partition_ctx : Type := PCtx {
  phys_dev : Z;
  start_lba : Z;
  pc_total : Z;
  partition_num : Z;
  mbr_type : Z;
  signature_type : Z;
  signature : list Z
}.

(** [block_device_t].  The functions of a device are those of the driver, or,
    for a partition, those of this file with [private_data] as their context. *)
Record block_device : Type := BDev {
  bd_name : list Z;
  bd_id : Z;
  total_sectors : Z;
  sector_size : Z;
  bd_part : option partition_ctx;
  is_raw : bool
}.
Definition set_bd_id (x : Z) (d : block_device) : block_device :=
  BDev (bd_name d) x (total_sectors d) (sector_size d) (bd_part d) (is_raw d).

(** The devices by address, the table of registered ones (0: a free slot), the
    disks, and what the allocators still have. *)
Record blk (D : Type) : Type := Blk {
  b_devs : gmap Z block_device;
  g_block_devices : list Z;
  g_next_device_id : Z;
  b_hw : D;
  b_next : Z;
  b_mem : nat;
  b_pool : nat;
  g_boot_partition_name : list Z
}.
Arguments Blk {D}.
Arguments b_devs {D}.
Arguments g_block_devices {D}.
Arguments g_next_device_id {D}.
Arguments b_hw {D}.
Arguments b_next {D}.
Arguments b_mem {D}.
Arguments b_pool {D}.
Arguments g_boot_partition_name {D}.

Section block.
Context {D : Type} (h : hardware D).
Implicit Types s : blk D.

Definition set_b_devs (x : gmap Z block_device) s : blk D :=
  Blk x (g_block_devices s) (g_next_device_id s) (b_hw s) (b_next s) (b_mem s) (b_pool s) (g_boot_partition_name s).
Definition set_catalogue (t : list Z) (id : Z) s : blk D :=
  Blk (b_devs s) t id (b_hw s) (b_next s) (b_mem s) (b_pool s) (g_boot_partition_name s).
Definition set_b_hw (x : D) s : blk D :=
  Blk (b_devs s) (g_block_devices s) (g_next_device_id s) x (b_next s) (b_mem s) (b_pool s) (g_boot_partition_name s).
Definition set_b_heap (n : Z) (m p : nat) s : blk D :=
  Blk (b_devs s) (g_block_devices s) (g_next_device_id s) (b_hw s) n m p (g_boot_partition_name s).
Definition set_boot_name (x : list Z) s : blk D :=
  Blk (b_devs s) (g_block_devices s) (g_next_device_id s) (b_hw s) (b_next s) (b_mem s) (b_pool s) x.
Definition in_hw {A} (m : M D A) : M (blk D) A := zoom b_hw set_b_hw m.

(** ** Allocation *)

Definition b_kmalloc : M (blk D) Z :=
  s <-- kget ;;
  match b_mem s with
  | O => kret 0
  | S m => kput (set_b_heap (b_next s + 1) m (b_pool s) s) ;;; kret (b_next s)
  end.
Definition b_kfree (p : Z) : M (blk D) unit :=
  kmodify (fun s => set_b_devs (delete p (b_devs s)) (set_b_heap (b_next s) (S (b_mem s)) (b_pool s) s)).
Definition b_pool_alloc (size : Z) : M (blk D) bool :=
  if size =? 0 then kret false else
  s <-- kget ;;
  match b_pool s with
  | O => kret false
  | S m => kput (set_b_heap (b_next s) (b_mem s) m s) ;;; kret true
  end.
Definition b_pool_free (size : Z) : M (blk D) unit :=
  if size =? 0 then kret tt else kmodify (fun s => set_b_heap (b_next s) (b_mem s) (S (b_pool s)) s).

(** ** Transfers *)

Definition bdev_at (p : Z) : M (blk D) block_device :=
  s <-- kget ;; kopt NullDeref (b_devs s !! p).

(** A partition hands a transfer within its size on to its disk. *)
Fixpoint read_dev (depth : nat) (dev lba count : Z) : M (blk D) (option (list Z)) :=
  match depth with
  | O => kstop NoFuel
  | S depth' =>
      d <-- bdev_at dev ;;
      match bd_part d with
      | None => in_hw (hw_read h dev lba count)
      | Some ctx =>
          if pc_total ctx <? u64 (lba + count) then kret None
          else read_dev depth' (phys_dev ctx) (u64 (start_lba ctx + lba)) count
      end
  end.
Fixpoint write_dev (depth : nat) (dev lba count : Z) (buf : list Z) : M (blk D) bool :=
  match depth with
  | O => kstop NoFuel
  | S depth' =>
      d <-- bdev_at dev ;;
      match bd_part d with
      | None => in_hw (hw_write h dev lba count buf)
      | Some ctx =>
          if pc_total ctx <? u64 (lba + count) then kret false
          else write_dev depth' (phys_dev ctx) (u64 (start_lba ctx + lba)) count buf
      end
  end.
Definition read_blocks (dev lba count : Z) : M (blk D) (option (list Z)) :=
  n <-- kgets (fun s => size (b_devs s)) ;; read_dev (S n) dev lba count.
Definition write_blocks (dev lba count : Z) (buf : list Z) : M (blk D) bool :=
  n <-- kgets (fun s => size (b_devs s)) ;; write_dev (S n) dev lba count buf.

(** ** The catalogue *)

Definition block_subsystem_init : M (blk D) unit :=
  kmodify (set_catalogue (replicate (Z.to_nat BLOCK_MAX_DEVICES) 0) 0).

(** The first slot whose entry satisfies a test. *)
Definition find_slot (f : Z -> M (blk D) bool) : M (blk D) (option Z) :=
  r <-- loop (Z.to_nat BLOCK_MAX_DEVICES) 0 (fun i _ =>
    t <-- kgets g_block_devices ;; p <-- rd t i ;; b <-- f p ;; kret (if b : bool then inr i else inl tt)) tt ;;
  kret (match r with inr i => Some i | inl _ => None end).
Definition set_slot (i p : Z) : M (blk D) unit :=
  s <-- kget ;; t <-- upd (g_block_devices s) i p ;; kput (set_catalogue t (g_next_device_id s) s).

Definition register_block_device (dev : Z) : M (blk D) Z :=
  if dev =? 0 then kret (-1) else
  free_slot <-- find_slot (fun p => kret (p =? 0)) ;;
  match free_slot with
  | None => kret (-2)
  | Some i =>
      s <-- kget ;;
      d <-- bdev_at dev ;;
      let id := g_next_device_id s in
      kput (set_b_devs (<[dev := set_bd_id id d]> (b_devs s)) (set_catalogue (g_block_devices s) (u32 (id + 1)) s)) ;;;
      set_slot i dev ;;;
      kret (s32 id)
  end.

Definition has_id (id p : Z) : M (blk D) bool :=
  if p =? 0 then kret false else d <-- bdev_at p ;; kret (bd_id d =? id).
Definition unregister_block_device (id : Z) : M (blk D) Z :=
  i <-- find_slot (has_id id) ;;
  match i with Some i => set_slot i 0 ;;; kret 0 | None => kret (-1) end.

Definition find_device (f : Z -> M (blk D) bool) : M (blk D) Z :=
  i <-- find_slot f ;;
  match i with Some i => t <-- kgets g_block_devices ;; rd t i | None => kret 0 end.
Definition block_get_device_by_index (id : Z) : M (blk D) Z := find_device (has_id id).
Definition block_get_device_by_name (name : list Z) : M (blk D) Z :=
  find_device (fun p => if p =? 0 then kret false else d <-- bdev_at p ;; kret (bool_decide (bd_name d = name))).

(** ** Partitions *)

(** Decimal digits ([%d]). *)
Fixpoint decimal (fuel : nat) (n : Z) : list Z :=
  match fuel with
  | O => []
  | S fuel' => (if n <? 10 then [] else decimal fuel' (n / 10)) ++ [48 + n mod 10]
  end.
(** "%s.%d" into a buffer of 32 bytes. *)
Definition part_name (name : list Z) (i : Z) : M (blk D) (list Z) :=
  let r := name ++ [46] ++ decimal 10 i in
  if zlen r <? BLOCK_NAME_MAX then kret r else kstop OutOfBounds.

Definition create_virtual_partition (phys : Z) (name : list Z) (start total num mbr sig : Z) (sig_data : list Z) : M (blk D) unit :=
  virt <-- b_kmalloc ;;
  ctx <-- b_kmalloc ;;
  if (virt =? 0) || (ctx =? 0) then
    (if virt =? 0 then kret tt else b_kfree virt) ;;; (if ctx =? 0 then kret tt else b_kfree ctx)
  else
    d <-- bdev_at phys ;;
    kmodify (fun s => set_b_devs (<[virt := BDev name 0 total (sector_size d) (Some (PCtx phys start total num mbr sig sig_data)) false]> (b_devs s)) s) ;;;
    id <-- register_block_device virt ;;
    if 0 <=? id then kret tt else b_kfree ctx ;;; b_kfree virt.

(** A loop over table entries that counts the partitions found. *)
Definition scan_entries (n : Z) (f : Z -> Z -> M (blk D) Z) : M (blk D) unit :=
  _ <-- loop (R := Empty_set) (Z.to_nat n) 0 (fun i part_index => k <-- f i part_index ;; kret (inl k)) 1 ;; kret tt.

(** The entries of a GPT. *)
Definition gpt_entry (phys : Z) (entries : list Z) (entry_size i part_index : Z) : M (blk D) Z :=
  let at_ := u32 (i * entry_size) in
  guid <-- bytes_out entries at_ 16 ;;
  if bool_decide (guid = replicate 16 0) then kret part_index else
  d <-- bdev_at phys ;;
  name <-- part_name (bd_name d) part_index ;;
  first <-- ld64 entries (at_ + 32) ;;
  last <-- ld64 entries (at_ + 40) ;;
  sig <-- bytes_out entries (at_ + 16) 16 ;;
  create_virtual_partition phys name first (u64 (last - first + 1)) part_index 2 2 sig ;;;
  kret (part_index + 1).

Definition EFI_PART : list Z := [69; 70; 73; 32; 80; 65; 82; 84].

Definition scan_gpt (phys sector_size : Z) (header : list Z) : M (blk D) unit :=
  sig <-- bytes_out header 0 8 ;;
  if negb (bool_decide (sig = EFI_PART)) then kret tt else
  entry_size <-- ld32 header 84 ;;
  n <-- ld32 header 80 ;;
  entries_lba <-- ld64 header 72 ;;
  let total_entries := if 128 <? n then 128 else n in
  let entries_sectors := u32 (u32 (total_entries * entry_size) + sector_size - 1) / sector_size in
  let alloc_size := u32 (entries_sectors * sector_size) in
  ok <-- b_pool_alloc alloc_size ;;
  if negb ok then kret tt else
  r <-- read_blocks phys entries_lba entries_sectors ;;
  (match r with
   | Some entries => scan_entries total_entries (gpt_entry phys entries entry_size)
   | None => kret tt
   end) ;;;
  b_pool_free alloc_size.

(** Entry [i] of the MBR table at 0x1BE. *)
Definition mbr_entry (phys : Z) (buffer : list Z) (i part_index : Z) : M (blk D) Z :=
  ty <-- ld8 buffer (0x1BE + 16 * i + 4) ;;
  start <-- ld32 buffer (0x1BE + 16 * i + 8) ;;
  total <-- ld32 buffer (0x1BE + 16 * i + 12) ;;
  if (ty =? 0) || (total =? 0) then kret part_index else
  d <-- bdev_at phys ;;
  name <-- part_name (bd_name d) part_index ;;
  sig <-- bytes_out buffer 0x1B8 4 ;;
  create_virtual_partition phys name start total part_index 1 1 (sig ++ replicate 12 0) ;;;
  kret (part_index + 1).

Definition is_gpt_protective (buffer : list Z) : M (blk D) bool :=
  r <-- loop 4 0 (fun i _ => ty <-- ld8 buffer (0x1BE + 16 * i + 4) ;; kret (if ty =? 0xEE then inr tt else inl tt)) tt ;;
  kret (match r with inr _ => true | inl _ => false end).

Definition partition_scan_device (phys : Z) : M (blk D) unit :=
  if phys =? 0 then kret tt else
  d <-- bdev_at phys ;;
  let ss := sector_size d in
  ok <-- b_pool_alloc ss ;;
  if negb ok then kret tt else
  r <-- read_blocks phys 0 1 ;;
  match r with
  | None => b_pool_free ss
  | Some buffer =>
      a <-- ld8 buffer 510 ;;
      b <-- ld8 buffer 511 ;;
      if negb (a =? 0x55) || negb (b =? 0xAA) then b_pool_free ss else
      gpt <-- is_gpt_protective buffer ;;
      (if gpt : bool then
         g <-- read_blocks phys 1 1 ;;
         match g with Some header => scan_gpt phys ss header | None => kret tt end
       else scan_entries 4 (mbr_entry phys buffer)) ;;;
      b_pool_free ss
  end.

(** ** The boot partition *)

(** [DEVICE_PATH_INFO], as the boot loader fills it. *)
Record boot_device : Type := BootDevice {
  PartitionNumber : Z;
  PartitionStart : Z;
  PartitionSize : Z;
  Signature : list Z;
  MBRType : Z;
  SignatureType : Z
}.

Definition is_boot (b : boot_device) (c : partition_ctx) : bool :=
  (partition_num c =? (if PartitionNumber b =? 0 then 1 else PartitionNumber b)) && (start_lba c =? PartitionStart b) &&
  (mbr_type c =? MBRType b) && (signature_type c =? SignatureType b) && bool_decide (signature c = Signature b).

(** The context of a device as it is read here: a disk has a [private_data]
    too, its driver's, and [driver_ctx] is what that looks like when it is
    read as a [partition_ctx_t]. *)
Definition vfs_identify_boot_partition (driver_ctx : Z -> option partition_ctx) (b : boot_device) : M (blk D) (option (list Z)) :=
  if PartitionSize b =? 0 then kret None else
  r <-- loop 32 0 (fun i _ =>
    dev <-- block_get_device_by_index i ;;
    if dev =? 0 then kret (inl tt) else
    d <-- bdev_at dev ;;
    match (match bd_part d with Some c => Some c | None => driver_ctx dev end) with
    | Some c => kret (if is_boot b c then inr (bd_name d) else inl tt)
    | None => kret (inl tt)
    end) tt ;;
  let name := match r with inr n => take 31 n | inl _ => [] end in
  kmodify (set_boot_name name) ;;; kret (Some name).

Definition vfs_init_partitions (driver_ctx : Z -> option partition_ctx) (b : boot_device) : M (blk D) Z :=
  r <-- loop (R := Empty_set) 32 0 (fun i scanned =>
    dev <-- block_get_device_by_index i ;;
    if dev =? 0 then kret (inl scanned) else
    d <-- bdev_at dev ;;
    if is_raw d then partition_scan_device dev ;;; kret (inl (scanned + 1)) else kret (inl scanned)) 0 ;;
  match r with
  | inl scanned =>
      if scanned =? 0 then kret (-1) else
      _ <-- vfs_identify_boot_partition driver_ctx b ;; kret 0
  | inr e => match e with end
  end.

End block.
