(* ===== verification/Fat.v ===== *)
(** * The FAT32 driver

    [fs/fat/fat32.c].  The driver reaches its volume through the functions of
    a block device ([block_ops]); the FAT, directories and file data are the
    bytes of the device's sectors.  A buffer of the pool that a transfer fills
    is the list of its bytes; [stale] is what a buffer holds before.  Nodes are
    passed and returned as values, a function that changes its node returns
    the new one. *)

From Stdlib Require Import ZArith Lia.
From stdpp Require Import base tactics list.
From S2P Require Import Prelude Bytes Ramfs.

Definition FAT32_EOF : Z := 0x0FFFFFF8.
Definition FAT32_BAD_CLUSTER : Z := 0x0FFFFFF7.
Definition VFS_MODE_WRITE : Z := 1.
Definition VFS_MODE_TRUNC : Z := 0x400.
Definition VFS_NAME_MAX : Z := 256.
(** Size of a directory entry. *)
Definition ENTRY_SIZE : Z := 32.

(** The functions of a [block_device_t]. *)
Record block_ops (D : Type) : Type := BlockOps {
  bo_read : Z -> Z -> M D (option (list Z));
  bo_write : Z -> Z -> list Z -> M D bool;
  bo_ioctl : option (Z -> Z -> M D Z)
}.
Arguments BlockOps {D}.
Arguments bo_read {D}.
Arguments bo_write {D}.
Arguments bo_ioctl {D}.

Record fat32_volume : Type := Volume {
  bytes_per_sector : Z;
  sectors_per_cluster : Z;
  bytes_per_cluster : Z;
  first_fat_sector : Z;
  first_data_sector : Z;
  root_cluster : Z
}.

(** The fields of a [vfs_node_t] that the driver uses; [fn_vol] says that
    [private_data] is not null, [fn_pages] are the buffers of the cached
    pages. *)
Record fnode : Type := FNode {
  fn_name : list Z;
  fn_flags : Z;
  fn_size : Z;
  fn_inode : Z;
  fn_parent : Z;
  fn_perm : Z;
  fn_block_size : Z;
  fn_pages : list (option (list Z));
  fn_vol : bool
}.
Definition set_fn_size (x : Z) (n : fnode) : fnode :=
  FNode (fn_name n) (fn_flags n) x (fn_inode n) (fn_parent n) (fn_perm n) (fn_block_size n) (fn_pages n) (fn_vol n).
Definition set_fn_inode (x : Z) (n : fnode) : fnode :=
  FNode (fn_name n) (fn_flags n) (fn_size n) x (fn_parent n) (fn_perm n) (fn_block_size n) (fn_pages n) (fn_vol n).
Definition set_fn_perm (x : Z) (n : fnode) : fnode :=
  FNode (fn_name n) (fn_flags n) (fn_size n) (fn_inode n) (fn_parent n) x (fn_block_size n) (fn_pages n) (fn_vol n).
Definition set_fn_cache (b : Z) (x : list (option (list Z))) (n : fnode) : fnode :=
  FNode (fn_name n) (fn_flags n) (fn_size n) (fn_inode n) (fn_parent n) (fn_perm n) b x (fn_vol n).

(** The device, the pool buffers and heap blocks that are still free, and the
    root of the mounted volume. *)
Record fat (D : Type) : Type := Fat { fa_dev : D; fa_pool : nat; fa_mem : nat; fa_root : option fnode }.
Arguments Fat {D}.
Arguments fa_dev {D}.
Arguments fa_pool {D}.
Arguments fa_mem {D}.
Arguments fa_root {D}.

(** ** Names *)

(** Characters of the Latin alphabet. *)
Definition upper (c : Z) : Z := if (97 <=? c) && (c <=? 122) then c - 32 else c.
Definition lower (c : Z) : Z := if (65 <=? c) && (c <=? 90) then c + 32 else c.

Definition fat32_checksum (sfn : list Z) : Z :=
  foldl (fun sum c => u8 ((if Z.odd sum then 0x80 else 0) + Z.shiftr sum 1 + c)) 0 (take 11 sfn).

Definition non_space (s : list Z) : list Z := filter (fun c => c <> 32) s.
Definition fat32_format_name (raw : list Z) : list Z :=
  let base := non_space (field 8 0 raw) in
  let ext := if get8 raw 8 =? 32 then [] else 46 :: non_space (field 3 8 raw) in
  lower <$> until_nul (base ++ ext).

(** At most [n] characters before a dot, in upper case, and what follows. *)
Fixpoint take_base (n : nat) (src : list Z) : list Z * list Z :=
  match n, src with
  | S n', c :: r => if c =? 46 then ([], src) else let t := take_base n' r in (upper c :: t.1, t.2)
  | _, _ => ([], src)
  end.
Fixpoint after_dot (src : list Z) : list Z :=
  match src with
  | [] => []
  | c :: r => if c =? 46 then r else after_dot r
  end.
Definition pad (n : nat) (s : list Z) : list Z := s ++ replicate (n - length s) 32.
Definition fat32_to_83_name (src : list Z) : list Z :=
  let t := take_base 8 src in
  pad 8 t.1 ++ pad 3 (upper <$> take 3 (after_dot t.2)).

(** ** Directory entries *)

(** Entry [i] of a cluster. *)
Definition entry (buf : list Z) (i : nat) : list Z := field 32 (32 * i) buf.
Definition e_first (e : list Z) : Z := get8 e 0.
Definition e_name (e : list Z) : list Z := field 11 0 e.
Definition e_attr (e : list Z) : Z := get8 e 11.
Definition e_cluster (e : list Z) : Z := Z.lor (Z.shiftl (get16 e 20) 16) (get16 e 26).
Definition e_size (e : list Z) : Z := get32 e 28.

(** A short entry. *)
Definition sfn_entry (name11 : list Z) (attr cluster size : Z) : list Z :=
  name11 ++ [attr] ++ replicate 8 0 ++ le16 (Z.land (Z.shiftr cluster 16) 0xFFFF) ++ replicate 4 0 ++
  le16 (Z.land cluster 0xFFFF) ++ le32 size.

(** Character [idx] of a long name: the end is marked by 0 and filled up. *)
Definition lfn_char (name : list Z) (idx : Z) : Z :=
  if idx <? zlen name then get8 name (Z.to_nat idx) else if idx =? zlen name then 0 else 0xFFFF.
Definition lfn_chars (name : list Z) (start : Z) (n : nat) : list Z :=
  flat_map (fun k => le16 (lfn_char name (start + Z.of_nat k))) (seq 0 n).
(** Fragment [i] of the [n] of a long name. *)
Definition lfn_entry (name : list Z) (chksum : Z) (n i : nat) : list Z :=
  let start := 13 * Z.of_nat i in
  [u8 (if (i =? n - 1)%nat then Z.lor (Z.of_nat i + 1) 0x40 else Z.of_nat i + 1)] ++ lfn_chars name start 5 ++
  [0x0F; 0; chksum] ++ lfn_chars name (start + 5) 6 ++ [0; 0] ++ lfn_chars name (start + 11) 2.

Definition lfn_needed (name : list Z) : nat := ((length name + 12) / 13)%nat.
(** The entries of a file: the fragments of its name, the last one first, and
    the short entry. *)
Definition dir_entries (name : list Z) (attr cluster size : Z) : list Z :=
  let n := lfn_needed name in
  concat (lfn_entry name (fat32_checksum (fat32_to_83_name name)) n <$> reverse (seq 0 n)) ++
  sfn_entry (fat32_to_83_name name) attr cluster size.

(** The start of the first run of [needed] free entries. *)
Fixpoint find_space (buf : list Z) (needed : nat) (n i contiguous start : nat) : option nat :=
  match n with
  | O => None
  | S n' =>
      let c := e_first (entry buf i) in
      if (c =? 0) || (c =? 0xE5) then
        let start' := if (contiguous =? 0)%nat then i else start in
        if (S contiguous =? needed)%nat then Some start' else find_space buf needed n' (S i) (S contiguous) start'
      else find_space buf needed n' (S i) 0 start
  end.

(** Where a short name is in a cluster: [Some None] when the end mark comes
    first.  [skip] are the entries that are passed over. *)
Fixpoint find_entry (skip : list Z -> bool) (buf target : list Z) (n i : nat) : option (option nat) :=
  match n with
  | O => None
  | S n' =>
      let e := entry buf i in
      if e_first e =? 0 then Some None else
      if skip e then find_entry skip buf target n' (S i) else
      if bool_decide (e_name e = target) then Some (Some i) else find_entry skip buf target n' (S i)
  end.
Definition deleted_or_long (e : list Z) : bool := (e_first e =? 0xE5) || (e_attr e =? 0x0F).

(** The long entries before entry [i] are marked as deleted. *)
Fixpoint delete_long (buf : list Z) (i : nat) : list Z :=
  match i with
  | O => buf
  | S i' => if e_attr (entry buf i') =? 0x0F then delete_long (put (32 * i') [0xE5] buf) i' else buf
  end.

(** Whether a cluster decides that a directory is empty. *)
Fixpoint cluster_empty (buf : list Z) (n i : nat) : option bool :=
  match n with
  | O => None
  | S n' =>
      let c := e_first (entry buf i) in
      if c =? 0 then Some true else
      if (c =? 0xE5) || (c =? 46) then cluster_empty buf n' (S i) else Some false
  end.

(** ** Reading a directory *)

(** The state of the scan: the entries passed, the name collected so far, its
    checksum and whether it counts. *)
Record scan : Type := Scan { sc_index : Z; sc_lfn : list Z; sc_sum : Z; sc_has : bool }.

Definition sext8 (b : Z) : Z := if b <? 128 then b else b - 256.
(** A character of a fragment, stored as two [char]. *)
Definition wide (lo hi : Z) : Z := u16 (Z.lor (sext8 lo) (Z.shiftl (sext8 hi) 8)).
(** One group of characters, up to its end mark, copied to [off]. *)
Fixpoint lfn_copy (cs : list Z) (off : Z) (buf : list Z) : Z * list Z :=
  match cs with
  | lo :: hi :: cs' =>
      if off <? 255 then
        let wc := wide lo hi in
        if (wc =? 0) || (wc =? 0xFFFF) then (off, buf)
        else lfn_copy cs' (off + 1) (<[Z.to_nat off := wc mod 256]> buf)
      else (off, buf)
  | _ => (off, buf)
  end.

Definition lfn_step (e : list Z) (s : scan) : scan :=
  let sn := get8 e 0 in
  let sum := get8 e 13 in
  let first := Z.testbit sn 6 in
  if negb first && sc_has s && negb (sum =? sc_sum s) then Scan (sc_index s) (sc_lfn s) (sc_sum s) false else
  let s1 := if first then Scan (sc_index s) (replicate 256 0) sum true else s in
  let sq := u32 (Z.land sn 0x1F - 1) in
  if sq <? 20 then
    let r1 := lfn_copy (field 10 1 e) (sq * 13) (sc_lfn s1) in
    let r2 := lfn_copy (field 12 14 e) r1.1 r1.2 in
    let r3 := lfn_copy (field 4 28 e) r2.1 r2.2 in
    Scan (sc_index s1) r3.2 (sc_sum s1) (sc_has s1)
  else s1.

(** The name of a short entry: the long one before it if its checksum fits. *)
Definition entry_long (e : list Z) (s : scan) : bool := sc_has s && (fat32_checksum (e_name e) =? sc_sum s).
Definition entry_name (e : list Z) (s : scan) : list Z :=
  if entry_long e s && negb (bool_decide (until_nul (sc_lfn s) = [])) then until_nul (sc_lfn s)
  else fat32_format_name (e_name e).
Definition entry_node (e name : list Z) (out : fnode) : fnode :=
  FNode name (if Z.testbit (e_attr e) 4 then VFS_DIRECTORY else VFS_FILE) (e_size e) (e_cluster e) (fn_parent out)
    (if Z.testbit (e_attr e) 0 then 0x155 else 0x1FF) (fn_block_size out) (fn_pages out) true.

Inductive scanned : Type :=
| ScanEnd
| ScanFound (n : fnode)
| ScanMore (s : scan).

Fixpoint scan_cluster (buf : list Z) (index : Z) (out : fnode) (n i : nat) (s : scan) : scanned :=
  match n with
  | O => ScanMore s
  | S n' =>
      let e := entry buf i in
      let drop_name := Scan (sc_index s) (sc_lfn s) (sc_sum s) false in
      if e_first e =? 0 then ScanEnd
      else if e_first e =? 0xE5 then scan_cluster buf index out n' (S i) drop_name
      else if e_attr e =? 0x0F then scan_cluster buf index out n' (S i) (lfn_step e s)
      else if Z.testbit (e_attr e) 3 then scan_cluster buf index out n' (S i) drop_name
      else if sc_index s =? index then ScanFound (entry_node e (entry_name e s) out)
      else scan_cluster buf index out n' (S i) (Scan (u32 (sc_index s + 1)) (sc_lfn s) (sc_sum s) false)
  end.
Definition scan_start : scan := Scan 0 (replicate 256 0) 0 false.

(** ** The volume *)

Section fat.
Context {D : Type} (dev : block_ops D) (stale : nat -> Z) (vol : fat32_volume).
Implicit Types s : fat D.

Definition set_fa_dev (x : D) s : fat D := Fat x (fa_pool s) (fa_mem s) (fa_root s).
Definition set_fa_pool (x : nat) s : fat D := Fat (fa_dev s) x (fa_mem s) (fa_root s).
Definition set_fa_mem (x : nat) s : fat D := Fat (fa_dev s) (fa_pool s) x (fa_root s).
Definition set_fa_root (x : option fnode) s : fat D := Fat (fa_dev s) (fa_pool s) (fa_mem s) x.

Definition f_pool_alloc (size : Z) : M (fat D) bool :=
  if size =? 0 then kret false else
  s <-- kget ;;
  match fa_pool s with
  | O => kret false
  | S m => kput (set_fa_pool m s) ;;; kret true
  end.
Definition f_pool_free (size : Z) : M (fat D) unit :=
  if size =? 0 then kret tt else kmodify (fun s => set_fa_pool (S (fa_pool s)) s).
Definition f_kmalloc : M (fat D) bool :=
  s <-- kget ;;
  match fa_mem s with
  | O => kret false
  | S m => kput (set_fa_mem m s) ;;; kret true
  end.
Definition f_kfree : M (fat D) unit := kmodify (fun s => set_fa_mem (S (fa_mem s)) s).

(** A transfer of [count] sectors into a buffer of [size] bytes. *)
Definition read_into (size lba count : Z) : M (fat D) (option (list Z)) :=
  r <-- zoom fa_dev set_fa_dev (bo_read dev lba count) ;;
  match r with
  | None => kret None
  | Some b =>
      if size <? zlen b then kstop OutOfBounds
      else kret (Some (b ++ (stale <$> seq (length b) (Z.to_nat size - length b))))
  end.
Definition write_from (lba count : Z) (buf : list Z) : M (fat D) bool :=
  zoom fa_dev set_fa_dev (bo_write dev lba count buf).

(** [private_data] of a node. *)
Definition has_volume (n : fnode) : M (fat D) unit := if fn_vol n then kret tt else kstop NullDeref.

Definition cluster_to_sector (cluster : Z) : Z :=
  u32 (first_data_sector vol + u32 (u32 (cluster - 2) * sectors_per_cluster vol)).

(** Sector of the FAT and byte in it of a cluster's entry; a sector size of 0
    is a division by zero. *)
Definition fat_position (cluster : Z) : M (fat D) (Z * Z) :=
  if bytes_per_sector vol =? 0 then kstop Halted else
  let off := u32 (cluster * 4) in
  kret (u32 (first_fat_sector vol + off / bytes_per_sector vol), off mod bytes_per_sector vol).

Definition fat32_get_next_cluster (cluster : Z) : M (fat D) Z :=
  pos <-- fat_position cluster ;;
  ok <-- f_pool_alloc (bytes_per_sector vol) ;;
  if negb ok then kret FAT32_BAD_CLUSTER else
  r <-- read_into (bytes_per_sector vol) pos.1 1 ;;
  match r with
  | None => f_pool_free (bytes_per_sector vol) ;;; kret FAT32_BAD_CLUSTER
  | Some b =>
      v <-- ld32 b (pos.2 / 4 * 4) ;;
      f_pool_free (bytes_per_sector vol) ;;;
      kret (Z.land v 0x0FFFFFFF)
  end.

Definition fat32_set_cluster (cluster value : Z) : M (fat D) Z :=
  pos <-- fat_position cluster ;;
  ok <-- f_pool_alloc (bytes_per_sector vol) ;;
  if negb ok then kret (-1) else
  r <-- read_into (bytes_per_sector vol) pos.1 1 ;;
  match r with
  | None => f_pool_free (bytes_per_sector vol) ;;; kret (-1)
  | Some b =>
      let i := pos.2 / 4 * 4 in
      v <-- ld32 b i ;;
      b' <-- bytes_in b i (le32 (Z.lor (Z.land v 0xF0000000) (Z.land value 0x0FFFFFFF))) ;;
      w <-- write_from pos.1 1 b' ;;
      f_pool_free (bytes_per_sector vol) ;;;
      kret (if w : bool then 0 else -1)
  end.

(** The first free entry of a sector of the FAT. *)
Definition free_entry (b : list Z) (first_cluster : Z) : M (fat D) (option Z) :=
  r <-- loop (Z.to_nat (bytes_per_sector vol / 4)) 0 (fun i _ =>
    let target := u32 (first_cluster + i) in
    if target <? 2 then kret (inl tt) else
    v <-- ld32 b (4 * i) ;;
    kret (if Z.land v 0x0FFFFFFF =? 0 then inr target else inl tt)) tt ;;
  kret (match r with inr c => Some c | inl _ => None end).

Definition fat_sectors : Z := u32 (first_data_sector vol - first_fat_sector vol).

Definition fat32_allocate_cluster : M (fat D) Z :=
  let ss := bytes_per_sector vol in
  ok <-- f_pool_alloc ss ;;
  if negb ok then kret FAT32_BAD_CLUSTER else
  r <-- loop (Z.to_nat fat_sectors) 0 (fun sector _ =>
    b <-- read_into ss (u32 (first_fat_sector vol + sector)) 1 ;;
    match b with
    | None => kret (inr None)
    | Some b => c <-- free_entry b (u32 (sector * (ss / 4))) ;; kret (match c with Some c => inr (Some c) | None => inl tt end)
    end) tt ;;
  f_pool_free ss ;;;
  match r with
  | inr (Some c) => w <-- fat32_set_cluster c FAT32_EOF ;; kret (if w =? 0 then c else FAT32_BAD_CLUSTER)
  | _ => kret FAT32_BAD_CLUSTER
  end.

(** As many clusters as the FAT describes, and the end: no chain without a
    cycle is longer. *)
Definition chain_fuel : nat := S (Z.to_nat (fat_sectors * (bytes_per_sector vol / 4))).

Fixpoint free_chain (fuel : nat) (current : Z) : M (fat D) unit :=
  if (current <? FAT32_EOF) && negb (current =? FAT32_BAD_CLUSTER) && negb (current =? 0) then
    match fuel with
    | O => kstop NoFuel
    | S fuel' =>
        next <-- fat32_get_next_cluster current ;;
        _ <-- fat32_set_cluster current 0 ;;
        free_chain fuel' next
    end
  else kret tt.
Definition fat32_free_cluster_chain (start : Z) : M (fat D) unit :=
  if (start <? 2) || (FAT32_BAD_CLUSTER <=? start) then kret tt else free_chain chain_fuel start.

(** ** Directories *)

(** The loop over the clusters of a directory.  [f] sees the sector and the
    bytes of a cluster and may end the loop; [inl] is the end of the chain or
    a failed transfer. *)
Definition in_chain (cluster : Z) : bool := (cluster <? FAT32_EOF) && negb (cluster =? FAT32_BAD_CLUSTER).
Fixpoint each_cluster {A R} (fuel : nat) (cluster : Z) (f : Z -> list Z -> A -> M (fat D) (A + R)) (a : A) : M (fat D) (A + R) :=
  if in_chain cluster then
    match fuel with
    | O => kstop NoFuel
    | S fuel' =>
        let sector := cluster_to_sector cluster in
        b <-- read_into (bytes_per_cluster vol) sector (sectors_per_cluster vol) ;;
        match b with
        | None => kret (inl a)
        | Some b =>
            r <-- f sector b a ;;
            match r with
            | inr x => kret (inr x)
            | inl a' => next <-- fat32_get_next_cluster cluster ;; each_cluster fuel' next f a'
            end
        end
    end
  else kret (inl a).

(** The same in a buffer of the pool; [none] is the result without one, [last]
    that of a loop that is not left early. *)
Definition with_buffer {A R} (cluster : Z) (none : R) (f : Z -> list Z -> A -> M (fat D) (A + R)) (a : A) (last : R) : M (fat D) R :=
  ok <-- f_pool_alloc (bytes_per_cluster vol) ;;
  if negb ok then kret none else
  r <-- each_cluster chain_fuel cluster f a ;;
  f_pool_free (bytes_per_cluster vol) ;;;
  kret (match r with inr x => x | inl _ => last end).

Definition max_entries : nat := Z.to_nat (bytes_per_cluster vol / ENTRY_SIZE).

(** The entry in a directory of the first [cluster] that is rewritten by
    [f]. *)
Definition rewrite_entry (on_end : option Z) (skip : list Z -> bool) (target : list Z) (change : list Z -> nat -> list Z)
    (failed : Z) (sector : Z) (b : list Z) : M (fat D) (unit + Z) :=
  match find_entry skip b target max_entries 0 with
  | Some (Some i) =>
      w <-- write_from sector (sectors_per_cluster vol) (change b i) ;; kret (inr (if w : bool then 0 else failed))
  | Some None => kret (match on_end with Some e => inr e | None => inl tt end)
  | None => kret (inl tt)
  end.

Definition fat32_update_entry_size (dir : Z) (name : list Z) (new_size : Z) : M (fat D) Z :=
  with_buffer dir (-1) (fun sector b _ =>
    rewrite_entry (Some (-1)) (fun _ => false) (fat32_to_83_name name) (fun b i => put (32 * i + 28) (le32 new_size) b) (-1) sector b) tt (-1).

Definition fat32_invalidate_entries (parent : fnode) (name : list Z) : M (fat D) Z :=
  has_volume parent ;;;
  with_buffer (fn_inode parent) (-1) (fun sector b _ =>
    rewrite_entry None deleted_or_long (fat32_to_83_name name) (fun b i => put (32 * i) [0xE5] (delete_long b i)) 0 sector b) tt (-1).

Definition fat32_is_dir_empty (dir : Z) : M (fat D) bool :=
  with_buffer dir false (fun _ b (_ : unit) =>
    kret (match cluster_empty b max_entries 0 with Some r => inr r | None => inl tt end)) tt true.

Definition fat32_readdir (node : fnode) (index : Z) (out : fnode) : M (fat D) (option fnode) :=
  has_volume node ;;;
  with_buffer (fn_inode node) None (fun _ b (s : scan) =>
    kret (match scan_cluster b index out max_entries 0 s with
          | ScanFound n => inr (Some n)
          | ScanEnd => inr None
          | ScanMore s' => inl s'
          end)) scan_start None.

(** A fresh node; [fn_vol] is set by [readdir]. *)
Definition blank_node : fnode := FNode [] 0 0 0 0 0 0 [] false.
Fixpoint find_name (fuel : nat) (dir : fnode) (index : Z) (name : list Z) (out : fnode) : M (fat D) (option fnode) :=
  match fuel with
  | O => kstop NoFuel
  | S fuel' =>
      r <-- fat32_readdir dir index out ;;
      match r with
      | None => kret None
      | Some n => if bool_decide (fn_name n = name) then kret (Some n) else find_name fuel' dir (u32 (index + 1)) name n
      end
  end.
Definition fat32_finddir (dir : fnode) (name : list Z) : M (fat D) (option fnode) :=
  ok <-- f_kmalloc ;;
  if negb ok then kret None else
  r <-- find_name (S (chain_fuel * max_entries)) dir 0 name blank_node ;;
  match r with
  | Some n => kret (Some n)
  | None => f_kfree ;;; kret None
  end.

(** A new cluster at the end of a directory. *)
Definition grow_dir (cluster : Z) : M (fat D) (option Z) :=
  new <-- fat32_allocate_cluster ;;
  if new =? FAT32_BAD_CLUSTER then kret None else
  _ <-- fat32_set_cluster cluster new ;;
  _ <-- write_from (cluster_to_sector new) (sectors_per_cluster vol) (replicate (Z.to_nat (bytes_per_cluster vol)) 0) ;;
  kret (Some new).

Fixpoint add_entry (fuel : nat) (entries : list Z) (cluster : Z) : M (fat D) Z :=
  if in_chain cluster then
    match fuel with
    | O => kstop NoFuel
    | S fuel' =>
        let sector := cluster_to_sector cluster in
        b <-- read_into (bytes_per_cluster vol) sector (sectors_per_cluster vol) ;;
        match b with
        | None => kret (-1)
        | Some b =>
            match find_space b (length entries / 32) max_entries 0 0 0 with
            | Some i =>
                b' <-- bytes_in b (32 * Z.of_nat i) entries ;;
                w <-- write_from sector (sectors_per_cluster vol) b' ;;
                kret (if w : bool then 0 else -1)
            | None =>
                next <-- fat32_get_next_cluster cluster ;;
                if in_chain next then add_entry fuel' entries next else
                new <-- grow_dir cluster ;;
                match new with
                | None => kret (-1)
                | Some next => add_entry fuel' entries next
                end
            end
        end
    end
  else kret (-1).
Definition fat32_add_entry (parent : fnode) (name : list Z) (attr first_cluster size : Z) : M (fat D) Z :=
  has_volume parent ;;;
  ok <-- f_pool_alloc (bytes_per_cluster vol) ;;
  if negb ok then kret (-1) else
  r <-- add_entry (2 * chain_fuel) (dir_entries name attr first_cluster size) (fn_inode parent) ;;
  f_pool_free (bytes_per_cluster vol) ;;;
  kret r.

(** ** Files *)

(** The parent directory as the node remembers it. *)
Definition parent_cluster (n : fnode) : Z := if fn_parent n =? 0 then root_cluster vol else fn_parent n.

(** Pages of a truncated file. *)
Fixpoint free_pages (size : Z) (pages : list (option (list Z))) : M (fat D) unit :=
  match pages with
  | [] => kret tt
  | p :: pages' =>
      (match p with Some _ => f_pool_free size | None => kret tt end) ;;;
      f_kfree ;;;
      free_pages size pages'
  end.

Definition fat32_truncate (n : fnode) : M (fat D) fnode :=
  fat32_free_cluster_chain (fn_inode n) ;;;
  _ <-- fat32_update_entry_size (parent_cluster n) (fn_name n) 0 ;;
  free_pages (fn_block_size n) (fn_pages n) ;;;
  kret (set_fn_cache (fn_block_size n) [] (set_fn_size 0 n)).

Definition is_dir (n : fnode) : bool := negb (Z.land (fn_flags n) VFS_DIRECTORY =? 0).
Definition writes (flags : Z) : bool := negb (Z.land flags VFS_MODE_WRITE =? 0).

Definition fat32_open (n : fnode) (flags : Z) : M (fat D) (Z * fnode) :=
  if writes flags && is_dir n then kret (-2, n) else
  if writes flags && (fn_perm n =? 0x155) then kret (-3, n) else
  let n1 := if is_dir n then set_fn_cache 0 [] n
            else set_fn_cache (if fn_vol n then bytes_per_cluster vol else 4096) (fn_pages n) n in
  if writes flags && negb (Z.land flags VFS_MODE_TRUNC =? 0) && fn_vol n && (2 <=? fn_inode n) then
    n2 <-- fat32_truncate n1 ;; kret (0, n2)
  else kret (0, n1).

Definition fat32_flush (n : fnode) : M (fat D) Z :=
  if negb (fn_vol n) then kret (-1) else
  match bo_ioctl dev with
  | None => kret 0
  | Some f => r <-- zoom fa_dev set_fa_dev (f 1 0) ;; kret (if r =? 0 then 0 else -1)
  end.

Definition fat32_close (n : fnode) : M (fat D) Z :=
  if Z.land (fn_flags n) VFS_FILE =? 0 then kret 0 else
  if negb (fn_vol n) then kret (-1) else
  _ <-- fat32_flush n ;;
  _ <-- fat32_update_entry_size (parent_cluster n) (fn_name n) (u32 (fn_size n)) ;;
  kret 0.

(** The cluster that holds byte [offset], and the offset where it starts;
    [inr] when the chain is too short. *)
Fixpoint seek_read (fuel : nat) (offset cluster current : Z) : M (fat D) (option (Z * Z)) :=
  if u64 (current + bytes_per_cluster vol) <=? offset then
    match fuel with
    | O => kstop NoFuel
    | S fuel' =>
        next <-- fat32_get_next_cluster cluster ;;
        if in_chain next then seek_read fuel' offset next (u64 (current + bytes_per_cluster vol)) else kret None
    end
  else kret (Some (cluster, current)).

Definition seek_fuel (offset : Z) : nat := Z.to_nat (offset / bytes_per_cluster vol).

(** The part of a transfer of [left] bytes that lies in the cluster. *)
Definition piece (offset current left : Z) : Z * Z :=
  let start := u32 (offset - current) in
  let room := u32 (bytes_per_cluster vol - start) in
  (start, if left <? room then left else room).

Fixpoint read_loop (fuel : nat) (offset left cluster current : Z) : M (fat D) (list Z) :=
  if 0 <? left then
    match fuel with
    | O => kstop NoFuel
    | S fuel' =>
        b <-- read_into (bytes_per_cluster vol) (cluster_to_sector cluster) (sectors_per_cluster vol) ;;
        match b with
        | None => kret []
        | Some b =>
            let p := piece offset current left in
            d <-- bytes_out b p.1 p.2 ;;
            if p.2 <? left then
              next <-- fat32_get_next_cluster cluster ;;
              if in_chain next then
                rest <-- read_loop fuel' (offset + p.2) (left - p.2) next (u64 (current + bytes_per_cluster vol)) ;;
                kret (d ++ rest)
              else kret d
            else kret d
        end
    end
  else kret [].

Definition copy_fuel (size : Z) : nat := S (S (Z.to_nat (size / bytes_per_cluster vol))).

Definition fat32_read (n : fnode) (offset size : Z) : M (fat D) (Z * list Z) :=
  has_volume n ;;;
  if negb (is_dir n) && (fn_size n <=? offset) then kret (0, []) else
  let size := if negb (is_dir n) && (fn_size n <? u64 (offset + size)) then u32 (fn_size n - offset) else size in
  c <-- seek_read (seek_fuel offset) offset (fn_inode n) 0 ;;
  match c with
  | None => kret (0, [])
  | Some c =>
      ok <-- f_pool_alloc (bytes_per_cluster vol) ;;
      if negb ok then kret (-1, []) else
      d <-- read_loop (copy_fuel size) offset size c.1 c.2 ;;
      f_pool_free (bytes_per_cluster vol) ;;;
      kret (s32 (zlen d), d)
  end.

(** The next cluster of a file, a new one at the end of its chain; [None] when
    the volume is full. *)
Definition next_or_new (cluster : Z) : M (fat D) (option Z) :=
  next <-- fat32_get_next_cluster cluster ;;
  if in_chain next then kret (Some next) else
  new <-- fat32_allocate_cluster ;;
  if new =? FAT32_BAD_CLUSTER then kret None else
  _ <-- fat32_set_cluster cluster new ;;
  kret (Some new).

Fixpoint seek_write (fuel : nat) (offset cluster current : Z) : M (fat D) (option (Z * Z)) :=
  if u64 (current + bytes_per_cluster vol) <=? offset then
    match fuel with
    | O => kstop NoFuel
    | S fuel' =>
        next <-- next_or_new cluster ;;
        match next with
        | Some next => seek_write fuel' offset next (u64 (current + bytes_per_cluster vol))
        | None => kret None
        end
    end
  else kret (Some (cluster, current)).

(** The number of bytes written. *)
Fixpoint write_loop (fuel : nat) (offset : Z) (src : list Z) (cluster current : Z) : M (fat D) Z :=
  if 0 <? zlen src then
    match fuel with
    | O => kstop NoFuel
    | S fuel' =>
        let sector := cluster_to_sector cluster in
        b <-- read_into (bytes_per_cluster vol) sector (sectors_per_cluster vol) ;;
        match b with
        | None => kret 0
        | Some b =>
            let p := piece offset current (zlen src) in
            b' <-- bytes_in b p.1 (take (Z.to_nat p.2) src) ;;
            w <-- write_from sector (sectors_per_cluster vol) b' ;;
            if negb w then kret 0 else
            if p.2 <? zlen src then
              next <-- next_or_new cluster ;;
              match next with
              | Some next =>
                  k <-- write_loop fuel' (offset + p.2) (drop (Z.to_nat p.2) src) next (u64 (current + bytes_per_cluster vol)) ;;
                  kret (p.2 + k)
              | None => kret p.2
              end
            else kret p.2
        end
    end
  else kret 0.

(** [src] are the [size] bytes of the buffer. *)
Definition fat32_write (n : fnode) (offset : Z) (src : list Z) : M (fat D) (Z * fnode) :=
  has_volume n ;;;
  if is_dir n then kret (-1, n) else
  first <-- (if fn_inode n =? 0 then
               new <-- fat32_allocate_cluster ;;
               kret (if new =? FAT32_BAD_CLUSTER then None else Some (set_fn_inode new n))
             else kret (Some n)) ;;
  match first with
  | None => kret (-1, n)
  | Some n =>
      c <-- seek_write (seek_fuel offset) offset (fn_inode n) 0 ;;
      match c with
      | None => kret (0, n)
      | Some c =>
          ok <-- f_pool_alloc (bytes_per_cluster vol) ;;
          if negb ok then kret (-1, n) else
          k <-- write_loop (copy_fuel (zlen src)) offset src c.1 c.2 ;;
          f_pool_free (bytes_per_cluster vol) ;;;
          kret (s32 k, if fn_size n <? u64 (offset + k) then set_fn_size (u64 (offset + k)) n else n)
      end
  end.

(** ** Creation and removal *)

Definition dot_name (dots : nat) : list Z := pad 11 (replicate dots 46).
Definition dot_entries (new parent : Z) : list Z :=
  sfn_entry (dot_name 1) 0x10 new 0 ++ sfn_entry (dot_name 2) 0x10 (if parent =? root_cluster vol then 0 else parent) 0.

Definition fat32_mkdir (parent : fnode) (name : list Z) : M (fat D) Z :=
  has_volume parent ;;;
  existing <-- fat32_finddir parent name ;;
  match existing with
  | Some _ => f_kfree ;;; kret (-1)
  | None =>
      new <-- fat32_allocate_cluster ;;
      if new =? FAT32_BAD_CLUSTER then kret (-1) else
      ok <-- f_pool_alloc (bytes_per_cluster vol) ;;
      if negb ok then kret (-1) else
      b <-- bytes_in (replicate (Z.to_nat (bytes_per_cluster vol)) 0) 0 (dot_entries new (fn_inode parent)) ;;
      b' <-- bytes_in b 64 [0] ;;
      w <-- write_from (cluster_to_sector new) (sectors_per_cluster vol) b' ;;
      f_pool_free (bytes_per_cluster vol) ;;;
      if negb w then kret (-1) else fat32_add_entry parent name 0x10 new 0
  end.

Definition fat32_create (parent : fnode) (name : list Z) : M (fat D) Z :=
  has_volume parent ;;;
  existing <-- fat32_finddir parent name ;;
  match existing with
  | Some _ => f_kfree ;;; kret (-1)
  | None =>
      new <-- fat32_allocate_cluster ;;
      if new =? FAT32_BAD_CLUSTER then kret (-1) else fat32_add_entry parent name 0x20 new 0
  end.

(** Frees the clusters of an entry's node and the entry itself. *)
Definition remove_node (parent n : fnode) (name : list Z) : M (fat D) Z :=
  fat32_free_cluster_chain (fn_inode n) ;;;
  r <-- fat32_invalidate_entries parent name ;;
  f_kfree ;;; kret r.

Definition fat32_unlink (parent : fnode) (name : list Z) : M (fat D) Z :=
  has_volume parent ;;;
  n <-- fat32_finddir parent name ;;
  match n with
  | None => kret (-1)
  | Some n => if is_dir n then f_kfree ;;; kret (-2) else remove_node parent n name
  end.

Definition fat32_rmdir (parent : fnode) (name : list Z) : M (fat D) Z :=
  has_volume parent ;;;
  n <-- fat32_finddir parent name ;;
  match n with
  | None => kret (-1)
  | Some n =>
      if negb (is_dir n) then f_kfree ;;; kret (-2) else
      if bool_decide (name = [46]) || bool_decide (name = [46; 46]) then f_kfree ;;; kret (-3) else
      empty <-- fat32_is_dir_empty (fn_inode n) ;;
      if negb empty then f_kfree ;;; kret (-4) else remove_node parent n name
  end.

(** The read-only bit of the entry; the search is always in the root. *)
Definition chmod_attr (mode attr : Z) : Z := if Z.testbit mode 7 then Z.land attr (Z.lnot 1) else Z.lor attr 1.
Definition fat32_chmod (n : fnode) (mode : Z) : M (fat D) (Z * fnode) :=
  has_volume n ;;;
  r <-- with_buffer (root_cluster vol) (-1) (fun sector b _ =>
    rewrite_entry None deleted_or_long (fat32_to_83_name (fn_name n))
      (fun b i => put (32 * i + 11) [u8 (chmod_attr mode (e_attr (entry b i)))] b) 0 sector b) tt (-1) ;;
  kret (r, if r =? 0 then set_fn_perm (if Z.testbit mode 7 then 0x1FF else 0x155) n else n).

Definition fat32_rename (old_parent : fnode) (old_name : list Z) (new_parent : fnode) (new_name : list Z) : M (fat D) Z :=
  existing <-- fat32_finddir new_parent new_name ;;
  match existing with
  | Some _ => f_kfree ;;; kret (-3)
  | None =>
      n <-- fat32_finddir old_parent old_name ;;
      match n with
      | None => kret (-1)
      | Some n =>
          r <-- fat32_add_entry new_parent new_name (if is_dir n then 0x10 else 0x20) (fn_inode n) (u32 (fn_size n)) ;;
          if negb (r =? 0) then f_kfree ;;; kret (-2) else
          _ <-- fat32_invalidate_entries old_parent old_name ;;
          f_kfree ;;; kret 0
      end
  end.

(** [st_ino], [st_size], [st_mode] and [st_attr]. *)
Definition fat32_stat (n : fnode) : option (Z * Z * Z * Z) :=
  if fn_vol n then
    Some (fn_inode n, fn_size n, Z.lor (fn_perm n) (if is_dir n then 0x4000 else 0x8000),
          Z.lor (if fn_perm n =? 0x155 then 1 else 0) (if is_dir n then 0x10 else 0x20))
  else None.

End fat.

(** ** Mounting *)

Section mount.
Context {D : Type} (dev : block_ops D) (sector_size : Z).

(** The volume that the boot sector describes. *)
Definition bpb_volume (b : list Z) : M (fat D) fat32_volume :=
  bps <-- ld16 b 11 ;;
  spc <-- ld8 b 13 ;;
  reserved <-- ld16 b 14 ;;
  tables <-- ld8 b 16 ;;
  spf <-- ld32 b 36 ;;
  root <-- ld32 b 44 ;;
  kret (Volume bps spc (u32 (bps * spc)) reserved (u32 (reserved + u32 (tables * spf))) root).

Definition fat32_mount_callback (mount_point : list Z) : M (fat D) (option (fnode * fat32_volume)) :=
  ok <-- f_kmalloc ;;
  if negb ok then kret None else
  r <-- zoom fa_dev set_fa_dev (bo_read dev 0 1) ;;
  match r with
  | None => f_kfree ;;; kret None
  | Some b =>
      sig <-- ld8 b 66 ;;
      if negb (sig =? 0x29) && negb (sig =? 0x28) then f_kfree ;;; kret None else
      ok1 <-- f_kmalloc ;;
      if negb ok1 then f_kfree ;;; kret None else
      vol <-- bpb_volume b ;;
      ok2 <-- f_kmalloc ;;
      if negb ok2 then f_kfree ;;; f_kfree ;;; kret None else
      if VFS_NAME_MAX <=? zlen mount_point then kstop OutOfBounds else
      let root := FNode mount_point VFS_DIRECTORY 0 (root_cluster vol) 0 0 0 [] true in
      kmodify (set_fa_root (Some root)) ;;;
      f_kfree ;;; kret (Some (root, vol))
  end.

Definition fat32_unmount_callback (root : fnode) : M (fat D) Z :=
  (if fn_vol root then f_kfree else kret tt) ;;;
  f_kfree ;;;
  kmodify (set_fa_root None) ;;; kret 0.

End mount.
