(* ===== verification/FatInv.v ===== *)
(** * FAT32: the disk behind the driver

    What the driver may expect of a block device ([BlockLaws]), the geometry of
    a volume, and the view of a disk as a table of clusters with their data
    ([shows]), with the effect of each transfer of the driver on it. *)

From Stdlib Require Import ZArith Lia.
From stdpp Require Import base tactics list list_numbers.
From S2P Require Import Prelude Bytes Fat.

(** ** Block devices *)

(** A device of [total] sectors of [ss] bytes: a transfer that does not fail
    moves the bytes of its sectors, any other leaves the sectors outside it
    alone; in a [good] state none fails. *)
Class BlockLaws {D : Type} (dev : block_ops D) (ss total : Z) : Type := {
  bl_ok : D -> Prop;
  bl_good : D -> Prop;
  bl_sector : D -> Z -> list Z;
  bl_len : forall d x, bl_ok d -> 0 <= x < total -> zlen (bl_sector d x) = ss;
  bl_read : forall d x n, bl_ok d -> 0 <= x -> 0 < n -> x + n <= total ->
    wp (bo_read dev x n) (fun r d' => bl_ok d' /\ (forall y, bl_sector d' y = bl_sector d y) /\
      (bl_good d -> bl_good d' /\ r <> None) /\ (forall b, r = Some b -> b = concat (bl_sector d <$> seqZ x n))) d;
  bl_write : forall d x n b, bl_ok d -> 0 <= x -> 0 < n -> x + n <= total -> zlen b = n * ss ->
    wp (bo_write dev x n b) (fun w d' => bl_ok d' /\ (bl_good d -> bl_good d' /\ w = true) /\
      (forall y, 0 <= y < total -> ~ (x <= y < x + n) -> bl_sector d' y = bl_sector d y) /\
      (w = true -> concat (bl_sector d' <$> seqZ x n) = b)) d;
  bl_ioctl : forall f d, bo_ioctl dev = Some f -> bl_ok d ->
    wp (f 1 0) (fun r d' => bl_ok d' /\ (bl_good d -> bl_good d' /\ r = 0) /\ forall y, bl_sector d' y = bl_sector d y) d
}.

(** ** The geometry of a volume *)

(** A volume on a device of [total] sectors, with the clusters [2] to
    [top - 1]. *)
Record geometry (vol : fat32_volume) (ss total top : Z) : Prop := {
  ge_bps : bytes_per_sector vol = ss;
  ge_ss : 0 < ss <= 4096;
  ge_mul : ss mod 32 = 0;
  ge_spc : 1 <= sectors_per_cluster vol <= 128;
  ge_bpc : bytes_per_cluster vol = ss * sectors_per_cluster vol;
  ge_fat : 0 <= first_fat_sector vol <= first_data_sector vol;
  ge_top : 2 <= top <= FAT32_BAD_CLUSTER;
  ge_table : 4 * top <= ss * (first_data_sector vol - first_fat_sector vol);
  ge_data : first_data_sector vol + (top - 2) * sectors_per_cluster vol <= total;
  ge_total : total < 2 ^ 32
}.

Section disk.
Context {D : Type} (dev : block_ops D) (stale : nat -> Z) (vol : fat32_volume) (ss total top : Z).
Context `{L : !BlockLaws dev ss total} (G : geometry vol ss total top).
Implicit Types s : fat D.

Definition spc : Z := sectors_per_cluster vol.
Definition bpc : Z := bytes_per_cluster vol.
Definition valid (c : Z) : Prop := 2 <= c < top.

(** Entry of a cluster in the FAT: its 28 bits. *)
Definition entry_word (d : D) (c : Z) : Z :=
  get32 (bl_sector d (first_fat_sector vol + 4 * c / ss)) (Z.to_nat (4 * c mod ss)).
Definition fat_at (d : D) (c : Z) : Z := entry_word d c mod 2 ^ 28.
(** First sector, and data, of a cluster. *)
Definition cluster_sector (c : Z) : Z := first_data_sector vol + (c - 2) * spc.
Definition cluster_at (d : D) (c : Z) : list Z := concat (bl_sector d <$> seqZ (cluster_sector c) spc).

(** The disk holds the table [F] and the data [C]. *)
Definition table_bytes (d : D) : Prop := forall y, 0 <= y < first_data_sector vol -> Forall byte (bl_sector d y).
Definition shows s (F : Z -> Z) (C : Z -> list Z) : Prop :=
  bl_ok (fa_dev s) /\ (bl_good (fa_dev s) /\ table_bytes (fa_dev s)) /\
  forall c, valid c -> fat_at (fa_dev s) c = F c /\ cluster_at (fa_dev s) c = C c.

(** The allocators are as before. *)
Definition kept s s' : Prop := fa_pool s' = fa_pool s /\ fa_mem s' = fa_mem s /\ fa_root s' = fa_root s.

Lemma fat_kept_refl s : kept s s.
Proof. done. Qed.
Lemma fat_kept_trans s1 s2 s3 : kept s1 s2 -> kept s2 s3 -> kept s1 s3.
Proof. intros (? & ? & ?) (? & ? & ?). split_and!; congruence. Qed.

(** A function changed at one place. *)
Definition upd_at {A} (F : Z -> A) (c : Z) (v : A) : Z -> A := fun x => if decide (x = c) then v else F x.
Lemma upd_at_eq {A} (F : Z -> A) c v : upd_at F c v c = v.
Proof. unfold upd_at. by rewrite decide_True. Qed.
Lemma upd_at_ne {A} (F : Z -> A) c v x : x <> c -> upd_at F c v x = F x.
Proof. intros H. unfold upd_at. by rewrite decide_False. Qed.

(** ** Sizes *)

Lemma concat_length (f : Z -> list Z) n x : (forall y, x <= y < x + n -> zlen (f y) = ss) -> 0 <= n -> zlen (concat (f <$> seqZ x n)) = n * ss.
Proof using.
  intros Hf Hn. replace n with (Z.of_nat (Z.to_nat n)) in Hf |- * by lia. clear Hn. revert x Hf. generalize (Z.to_nat n) as m.
  induction m as [|m IH]; intros x Hf; [done|]. rewrite seqZ_cons by lia. cbn [fmap list_fmap concat]. unfold zlen in *.
  rewrite length_app, Nat2Z.inj_add, Hf by lia. replace (Z.pred (Z.of_nat (S m))) with (Z.of_nat m) by lia. rewrite IH by (intros; apply Hf; lia). lia.
Qed.

Lemma spc_pos : 1 <= spc <= 128.
Proof using G. apply G. Qed.
Lemma bpc_eq : bpc = ss * spc.
Proof using G. apply G. Qed.
Lemma bpc_pos : 0 < bpc < 2 ^ 20.
Proof using G. rewrite bpc_eq. pose proof spc_pos. pose proof (ge_ss _ _ _ _ G). nia. Qed.

Lemma sector_range c : valid c -> 0 <= cluster_sector c /\ cluster_sector c + spc <= total /\ first_data_sector vol <= cluster_sector c.
Proof using G.
  intros [H1 H2]. pose proof spc_pos. pose proof (ge_fat _ _ _ _ G). pose proof (ge_data _ _ _ _ G) as H3. fold spc in H3. unfold cluster_sector. nia.
Qed.

Lemma cluster_to_sector_ok c : valid c -> cluster_to_sector vol c = cluster_sector c.
Proof using G.
  intros Hc. destruct (sector_range c Hc) as (H1 & H2 & H3). pose proof Hc as [H4 H5]. pose proof spc_pos. pose proof (ge_total _ _ _ _ G).
  pose proof (ge_fat _ _ _ _ G). pose proof (ge_top _ _ _ _ G). unfold FAT32_BAD_CLUSTER in *. unfold cluster_to_sector. fold spc. unfold cluster_sector in *.
  rewrite (u32_small (c - 2)) by lia. rewrite (u32_small ((c - 2) * spc)) by nia. rewrite u32_small by nia. done.
Qed.

Lemma cluster_length d c : bl_ok d -> valid c -> zlen (cluster_at d c) = bpc.
Proof using G.
  intros Hd Hc. destruct (sector_range c Hc) as (H1 & H2 & H3). unfold cluster_at. rewrite concat_length; [rewrite bpc_eq; lia| |pose proof spc_pos; lia].
  intros y Hy. apply bl_len; [done|lia].
Qed.

Lemma data_in_device : first_data_sector vol <= total.
Proof using G. pose proof (ge_data _ _ _ _ G) as H. fold spc in H. pose proof spc_pos. pose proof (ge_top _ _ _ _ G). nia. Qed.
Lemma shows_length s F C c : shows s F C -> valid c -> zlen (C c) = bpc.
Proof using G. intros (Hd & _ & H) Hc. destruct (H c Hc) as [_ <-]. by apply cluster_length. Qed.
Lemma shows_entry s F C c : shows s F C -> valid c -> 0 <= F c < 2 ^ 28.
Proof using . intros (Hd & _ & H) Hc. destruct (H c Hc) as [<- _]. by apply Z.mod_pos_bound. Qed.
Lemma shows_ext s F C F' C' : shows s F C -> (forall c, valid c -> F' c = F c /\ C' c = C c) -> shows s F' C'.
Proof using . intros (H1 & [H2 H2'] & H) E. split_and!; [done..|]. intros c Hc. destruct (E c Hc) as [-> ->]. by apply H. Qed.
Lemma shows_same s s' F C : shows s F C -> bl_ok (fa_dev s') -> bl_good (fa_dev s') ->
  (forall y, 0 <= y < total -> bl_sector (fa_dev s') y = bl_sector (fa_dev s) y) -> shows s' F C.
Proof using G.
  intros (H1 & [H2 H2'] & H) K1 K2 E. pose proof data_in_device as Hdd. split_and!; [done|done|intros y Hy; rewrite E by lia; by apply H2'|]. intros c Hc. destruct (H c Hc) as [<- <-].
  pose proof Hc as [? ?]. pose proof (ge_ss _ _ _ _ G). pose proof (ge_table _ _ _ _ G). pose proof (ge_fat _ _ _ _ G). pose proof (ge_data _ _ _ _ G) as Hdata.
  pose proof spc_pos. fold spc in Hdata. split.
  - unfold fat_at, entry_word. rewrite E; [done|].
    assert (4 * c / ss < first_data_sector vol - first_fat_sector vol) by (apply Z.div_lt_upper_bound; lia).
    pose proof (Z.div_pos (4 * c) ss). nia.
  - unfold cluster_at. f_equal. apply list_fmap_ext. intros i y Hy. apply list_elem_of_lookup_2, elem_of_seqZ in Hy.
    destruct (sector_range c Hc) as (? & ? & ?). apply E. lia.
Qed.

(** ** Entries of the FAT *)

(** The sector and the byte of an entry. *)
Definition fat_sector (c : Z) : Z := first_fat_sector vol + 4 * c / ss.
Definition fat_byte (c : Z) : Z := 4 * c mod ss.

Lemma fat_sector_range c : 0 <= c -> 4 * c < ss * (first_data_sector vol - first_fat_sector vol) ->
  0 <= fat_sector c < first_data_sector vol.
Proof using G.
  intros H0 H1. pose proof (ge_ss _ _ _ _ G). pose proof (ge_fat _ _ _ _ G). unfold fat_sector.
  assert (4 * c / ss < first_data_sector vol - first_fat_sector vol) by (apply Z.div_lt_upper_bound; lia).
  pose proof (Z.div_pos (4 * c) ss). lia.
Qed.
Lemma valid_in_table c : valid c -> 0 <= c /\ 4 * c < ss * (first_data_sector vol - first_fat_sector vol).
Proof using G. intros [? ?]. pose proof (ge_table _ _ _ _ G). lia. Qed.

Lemma ss_mul : ss mod 4 = 0.
Proof using G. pose proof (ge_mul _ _ _ _ G). pose proof (ge_ss _ _ _ _ G). zdiv_lia. Qed.
Lemma fat_byte_range c : 0 <= c -> 0 <= fat_byte c /\ fat_byte c + 4 <= ss /\ fat_byte c mod 4 = 0.
Proof using G.
  intros H0. pose proof ss_mul. pose proof (ge_ss _ _ _ _ G). unfold fat_byte. pose proof (Z.mod_pos_bound (4 * c) ss ltac:(lia)).
  assert (E : (4 * c mod ss) mod 4 = 0).
  { apply Z.mod_divide; [lia|]. apply Z.mod_divide in H; [|lia]. destruct H as [k Hk]. exists (c - (4 * c / ss) * k).
    rewrite (Z.mod_eq (4 * c) ss) by lia. set (q := 4 * c / ss). nia. }
  split_and!; [lia| |done]. apply Z.mod_divide in E; [|lia]. destruct E as [k Hk]. apply Z.mod_divide in H; [|lia]. destruct H as [k2 Hk2].
  rewrite Hk in *. nia.
Qed.

Lemma wp_fat_position c (Q : Z * Z -> fat D -> Prop) s : 0 <= c < 2 ^ 28 -> 4 * c < ss * (first_data_sector vol - first_fat_sector vol) ->
  Q (fat_sector c, fat_byte c) s -> wp (fat_position vol c) Q s.
Proof using G.
  intros H0 H1 HQ. pose proof (fat_sector_range c ltac:(lia) H1) as Hs. pose proof data_in_device. pose proof (ge_total _ _ _ _ G).
  pose proof (ge_ss _ _ _ _ G). unfold fat_position. rewrite (ge_bps _ _ _ _ G), (proj2 (Z.eqb_neq _ _)) by lia. wp_steps.
  rewrite (u32_small (c * 4)), (Z.mul_comm c 4) by lia. unfold fat_sector, fat_byte in *. by rewrite u32_small by lia.
Qed.

(** ** Transfers *)

(** A state that differs at most in what no theorem depends on. *)
Definition same_disk s s' : Prop :=
  kept s s' /\ bl_ok (fa_dev s') /\ bl_good (fa_dev s') /\ forall y, bl_sector (fa_dev s') y = bl_sector (fa_dev s) y.

Lemma shows_same_disk s s' F C : shows s F C -> same_disk s s' -> shows s' F C.
Proof using G. intros Hs (_ & H1 & H2 & H3). by eapply shows_same. Qed.

Lemma wp_read_into s size x n (Q : option (list Z) -> fat D -> Prop) :
  bl_ok (fa_dev s) -> bl_good (fa_dev s) -> 0 <= x -> 0 < n -> x + n <= total -> size = n * ss ->
  (forall s', same_disk s s' -> Q (Some (concat (bl_sector (fa_dev s) <$> seqZ x n))) s') ->
  wp (read_into dev stale size x n) Q s.
Proof using .
  intros H1 H2 H3 H4 H5 -> HQ. unfold read_into. wp_steps. eapply wp_mono; [apply (bl_read _ _ _ H1 H3 H4 H5)|].
  intros r d' (K1 & K2 & K3 & K4). destruct (K3 H2) as [K3' Hr]. destruct r as [b|]; [|done]. specialize (K4 b eq_refl) as ->.
  assert (Hl : zlen (concat (bl_sector (fa_dev s) <$> seqZ x n)) = n * ss).
  { apply concat_length; [|lia]. intros y Hy. apply bl_len; [done|lia]. }
  cbn beta iota. rewrite (proj2 (Z.ltb_ge _ _)) by lia. wp_steps. unfold zlen in Hl. replace (Z.to_nat (n * ss) - _)%nat with 0%nat by lia.
  cbn [seq fmap list_fmap]. rewrite app_nil_r. apply HQ. by destruct s.
Qed.

Lemma wp_write_from s x n b (Q : bool -> fat D -> Prop) :
  bl_ok (fa_dev s) -> bl_good (fa_dev s) -> 0 <= x -> 0 < n -> x + n <= total -> zlen b = n * ss ->
  (forall s', kept s s' -> bl_ok (fa_dev s') -> bl_good (fa_dev s') ->
     (forall y, 0 <= y < total -> ~ (x <= y < x + n) -> bl_sector (fa_dev s') y = bl_sector (fa_dev s) y) ->
     concat (bl_sector (fa_dev s') <$> seqZ x n) = b -> Q true s') ->
  wp (write_from dev x n b) Q s.
Proof using .
  intros H1 H2 H3 H4 H5 H6 HQ. unfold write_from. wp_steps. eapply wp_mono; [by apply (bl_write _ _ _ _ H1 H3 H4 H5 H6)|].
  intros w d' (K1 & K2 & K3 & K4). destruct (K2 H2) as [K5 ->]. apply HQ; try done; by destruct s; auto.
Qed.

Lemma wp_f_pool_alloc s size (Q : bool -> fat D -> Prop) :
  0 < size -> (0 < fa_pool s)%nat -> Q true (set_fa_pool (pred (fa_pool s)) s) -> wp (f_pool_alloc size) Q s.
Proof using .
  intros H1 H2 HQ. unfold f_pool_alloc. rewrite (proj2 (Z.eqb_neq _ _)) by lia. wp_steps. destruct (fa_pool s); [lia|]. by wp_steps.
Qed.
Lemma wp_f_pool_free s size (Q : unit -> fat D -> Prop) : 0 < size -> Q tt (set_fa_pool (S (fa_pool s)) s) -> wp (f_pool_free size) Q s.
Proof using . intros H1 HQ. unfold f_pool_free. rewrite (proj2 (Z.eqb_neq _ _)) by lia. by wp_steps. Qed.

Lemma same_disk_refl s F C : shows s F C -> same_disk s s.
Proof using . by intros (? & [? ?] & ?). Qed.
(** Taking a buffer and giving it back. *)
Lemma same_disk_pool s s1 n : (0 < fa_pool s)%nat ->
  same_disk (set_fa_pool (pred (fa_pool s)) s) s1 -> n = S (fa_pool s1) -> same_disk s (set_fa_pool n s1).
Proof using . intros H ((K1 & K2 & K3) & K4 & K5 & K6) ->. unfold same_disk, kept in *. cbn in *. split_and!; try done. lia. Qed.

(** ** The next cluster *)

Lemma ld32_wp b i (Q : Z -> fat D -> Prop) s : 0 <= i -> i + 4 <= zlen b -> Q (get32 b (Z.to_nat i)) s -> wp (ld32 b i) Q s.
Proof using . intros H1 H2 HQ. eapply wp_intro; [by apply ld32_ok|done]. Qed.

Lemma land28 x : Z.land x 0x0FFFFFFF = x mod 2 ^ 28.
Proof using . change 0x0FFFFFFF with (Z.ones 28). by apply Z.land_ones. Qed.
Lemma byte_aligned c : 0 <= c -> fat_byte c / 4 * 4 = fat_byte c.
Proof using G. intros H. destruct (fat_byte_range c H) as (_ & _ & E). pose proof (Z.div_mod (fat_byte c) 4 ltac:(lia)). lia. Qed.

Lemma seqZ1 x : seqZ x 1 = [x].
Proof using . change 1 with (Z.of_nat 1). rewrite seqZ_cons by lia. by rewrite seqZ_nil by lia. Qed.

Lemma wp_get_next s F C c (Q : Z -> fat D -> Prop) :
  shows s F C -> valid c -> (0 < fa_pool s)%nat -> (forall s', shows s' F C -> kept s s' -> Q (F c) s') ->
  wp (fat32_get_next_cluster dev stale vol c) Q s.
Proof using G.
  intros Hs Hc Hp HQ. pose proof Hs as (H1 & [H2 H2'] & H3). destruct (valid_in_table c Hc) as [Ht0 Ht1]. pose proof Hc as [? ?].
  pose proof (ge_top _ _ _ _ G). unfold FAT32_BAD_CLUSTER in *. pose proof (fat_sector_range c Ht0 Ht1) as Hsec. pose proof data_in_device.
  destruct (fat_byte_range c Ht0) as (B1 & B2 & B3). pose proof (ge_ss _ _ _ _ G). unfold fat32_get_next_cluster. wp_steps.
  apply wp_fat_position; [lia|done|]. wp_steps. rewrite (ge_bps _ _ _ _ G). apply wp_f_pool_alloc; [lia|done|]. cbn [negb fst snd].
  wp_steps. apply wp_read_into; [done|done|lia|lia|lia|lia|]. intros s1 Hs1. rewrite seqZ1. cbn [fmap list_fmap concat]. rewrite app_nil_r. wp_steps.
  rewrite byte_aligned by done. apply ld32_wp; [done|cbn [fa_dev set_fa_pool]; rewrite bl_len by (done || lia); lia|]. wp_steps.
  apply wp_f_pool_free; [lia|]. wp_steps. rewrite land28. destruct (H3 c Hc) as [HF _].
  assert (Hd : same_disk s (set_fa_pool (S (fa_pool s1)) s1)) by by eapply same_disk_pool.
  change (get32 _ _ mod 2 ^ 28) with (fat_at (fa_dev s) c). rewrite HF. apply HQ; [by eapply shows_same_disk|apply Hd].
Qed.

(** ** Setting an entry *)

Lemma entry_merge v x : 0 <= v < 2 ^ 32 -> 0 <= x < 2 ^ 28 ->
  0 <= Z.lor (Z.land v 0xF0000000) (Z.land x 0x0FFFFFFF) < 2 ^ 32 /\ Z.lor (Z.land v 0xF0000000) (Z.land x 0x0FFFFFFF) mod 2 ^ 28 = x.
Proof using .
  intros Hv Hx. rewrite land28, (Z.mod_small x) by done. change 0xF0000000 with (Z.shiftl (Z.ones 4) 28).
  assert (E : Z.land v (Z.shiftl (Z.ones 4) 28) = v / 2 ^ 28 * 2 ^ 28).
  { rewrite <- (Z.shiftl_mul_pow2 _ 28), <- (Z.shiftr_div_pow2 v 28) by lia. apply Z.bits_inj'. intros n Hn. rewrite Z.land_spec.
    destruct (Z.lt_ge_cases n 28) as [|Hge]; [rewrite !Z.shiftl_spec_low by lia; by rewrite andb_false_r|].
    rewrite !Z.shiftl_spec, Z.shiftr_spec by lia. replace (n - 28 + 28) with n by lia. destruct (Z.lt_ge_cases n 32) as [|Hge2].
    - rewrite Z.ones_spec_low by lia. apply andb_true_r.
    - rewrite Z.ones_spec_high by lia. rewrite andb_false_r. symmetry. destruct (Z.eq_dec v 0) as [->|]; [apply Z.bits_0|].
      apply Z.bits_above_log2; [lia|]. assert (Z.log2 v < 32) by (apply Z.log2_lt_pow2; lia). lia. }
  rewrite E. rewrite Z.lor_comm. set (k := v / 2 ^ 28). assert (Hk : 0 <= k < 16) by (unfold k; zdiv_lia).
  assert (Hlor : Z.lor x (k * 2 ^ 28) = x + k * 2 ^ 28).
  { rewrite <- Z.add_lor_land. replace (Z.land x (k * 2 ^ 28)) with 0; [lia|]. symmetry. apply Z.bits_inj'. intros n Hn.
    rewrite Z.land_spec, Z.bits_0. rewrite <- Z.shiftl_mul_pow2 by lia. destruct (Z.lt_ge_cases n 28).
    - rewrite (Z.shiftl_spec_low k) by lia. apply andb_false_r.
    - replace (Z.testbit x n) with false; [done|]. symmetry. destruct (Z.eq_dec x 0) as [->|]; [apply Z.bits_0|].
      apply Z.bits_above_log2; [lia|]. assert (Z.log2 x < 28) by (apply Z.log2_lt_pow2; lia). lia. }
  rewrite Hlor. split; [lia|]. rewrite Z.mod_add by lia. by apply Z.mod_small.
Qed.

(** Where two entries are in the same sector they are apart. *)
Lemma entries_apart c c' : 0 <= c -> 0 <= c' -> c <> c' -> fat_sector c = fat_sector c' -> fat_byte c + 4 <= fat_byte c' \/ fat_byte c' + 4 <= fat_byte c.
Proof using G.
  intros H0 H0' Hne E. pose proof (ge_ss _ _ _ _ G). unfold fat_sector, fat_byte in *.
  pose proof (Z.div_mod (4 * c) ss ltac:(lia)). pose proof (Z.div_mod (4 * c') ss ltac:(lia)). assert (4 * c / ss = 4 * c' / ss) as E' by lia. lia.
Qed.

Lemma wp_bytes_put b i src (Q : list Z -> fat D -> Prop) s :
  0 <= i -> i + zlen src <= zlen b -> Q (put (Z.to_nat i) src b) s -> wp (bytes_in b i src) Q s.
Proof using .
  intros H1 H2 HQ. unfold bytes_in. rewrite (proj2 (Z.leb_le _ _) H2). wp_steps. unfold put in HQ.
  replace (Z.to_nat (i + zlen src)) with (Z.to_nat i + length src)%nat by (unfold zlen; lia). done.
Qed.

(** A FAT whose sector [fat_sector c] has been rewritten with a new entry. *)
Lemma shows_set_entry s s' F C c v b :
  shows s F C -> valid c -> 0 <= v < 2 ^ 28 -> bl_ok (fa_dev s') -> bl_good (fa_dev s') ->
  (forall y, 0 <= y < total -> y <> fat_sector c -> bl_sector (fa_dev s') y = bl_sector (fa_dev s) y) ->
  bl_sector (fa_dev s') (fat_sector c) = b ->
  b = put (Z.to_nat (fat_byte c)) (le32 (Z.lor (Z.land (entry_word (fa_dev s) c) 0xF0000000) (Z.land v 0x0FFFFFFF))) (bl_sector (fa_dev s) (fat_sector c)) ->
  shows s' (upd_at F c v) C.
Proof using G.
  intros Hs Hc Hv K1 K2 K3 K4 ->. pose proof Hs as (H1 & [H2 H2'] & H3). destruct (valid_in_table c Hc) as [Ht0 Ht1].
  pose proof (fat_sector_range c Ht0 Ht1) as Hsec. pose proof data_in_device. destruct (fat_byte_range c Ht0) as (B1 & B2 & B3).
  pose proof (bl_len _ (fat_sector c) H1 ltac:(lia)) as Hlen. pose proof (H2' (fat_sector c) ltac:(lia)) as Hbytes.
  destruct (entry_merge (entry_word (fa_dev s) c) v) as [M1 M2]; [by apply get32_range|done|].
  split_and!; [done|done| |].
  { intros y Hy. destruct (decide (y = fat_sector c)) as [->|Hne]; [|rewrite K3 by lia; by apply H2']. rewrite K4. apply bytes_put; [done|apply le32_bytes]. }
  intros c' Hc'. destruct (H3 c' Hc') as [HF HC]. split.
  - destruct (valid_in_table c' Hc') as [Ht0' Ht1']. pose proof (fat_sector_range c' Ht0' Ht1') as Hsec'. destruct (fat_byte_range c' Ht0') as (B1' & B2' & B3').
    unfold fat_at, entry_word at 1. change (first_fat_sector vol + 4 * c' / ss) with (fat_sector c'). change (4 * c' mod ss) with (fat_byte c').
    unfold zlen in Hlen. destruct (decide (c' = c)) as [->|Hne].
    + rewrite K4, upd_at_eq, get32_put by (lia || done). done.
    + rewrite upd_at_ne by done. rewrite <- HF. unfold fat_at, entry_word. change (first_fat_sector vol + 4 * c' / ss) with (fat_sector c'). change (4 * c' mod ss) with (fat_byte c').
      destruct (decide (fat_sector c' = fat_sector c)) as [E|E]; [|by rewrite K3 by (done || lia)]. rewrite E, K4, get32_put_other; [done| |].
      * cbn [length le32]. lia.
      * pose proof (entries_apart c' c Ht0' Ht0 Hne E) as Hap. cbn [length le32]. lia.
  - rewrite <- HC. unfold cluster_at. f_equal. apply list_fmap_ext. intros i y Hy. apply list_elem_of_lookup_2, elem_of_seqZ in Hy.
    destruct (sector_range c' Hc') as (? & ? & ?). apply K3; lia.
Qed.

Lemma wp_set_cluster s F C c v (Q : Z -> fat D -> Prop) :
  shows s F C -> valid c -> 0 <= v < 2 ^ 28 -> (0 < fa_pool s)%nat ->
  (forall s', shows s' (upd_at F c v) C -> kept s s' -> Q 0 s') -> wp (fat32_set_cluster dev stale vol c v) Q s.
Proof using G.
  intros Hs Hc Hv Hp HQ. pose proof Hs as (H1 & [H2 H2'] & H3). destruct (valid_in_table c Hc) as [Ht0 Ht1]. pose proof Hc as [? ?].
  pose proof (ge_top _ _ _ _ G). unfold FAT32_BAD_CLUSTER in *. pose proof (fat_sector_range c Ht0 Ht1) as Hsec. pose proof data_in_device.
  destruct (fat_byte_range c Ht0) as (B1 & B2 & B3). pose proof (ge_ss _ _ _ _ G). pose proof (bl_len _ (fat_sector c) H1 ltac:(lia)) as Hlen.
  pose proof (H2' (fat_sector c) ltac:(lia)) as Hbytes. unfold fat32_set_cluster. wp_steps.
  apply wp_fat_position; [lia|done|]. wp_steps. rewrite (ge_bps _ _ _ _ G). apply wp_f_pool_alloc; [lia|done|]. cbn [negb fst snd].
  wp_steps. apply wp_read_into; [done|done|lia|lia|lia|lia|]. intros s1 (E1 & E2 & E3 & E4). rewrite seqZ1. cbn [fmap list_fmap concat].
  rewrite app_nil_r. wp_steps. rewrite byte_aligned by done. cbn [fa_dev set_fa_pool] in *. apply ld32_wp; [done|lia|]. wp_steps.
  apply wp_bytes_put; [done|change (zlen (le32 _)) with 4; lia|]. wp_steps.
  match goal with |- wp (write_from _ _ _ ?b) _ _ => set (b' := b) end.
  assert (Hb' : zlen b' = 1 * ss).
  { unfold zlen in *. unfold b'. rewrite put_length by (cbn [length le32]; lia). lia. }
  apply wp_write_from; try done; try lia. intros s2 K1 K2 K3 K4 K5. wp_steps. apply wp_f_pool_free; [lia|]. wp_steps.
  rewrite seqZ1 in K5. cbn [fmap list_fmap concat] in K5. rewrite app_nil_r in K5. apply HQ.
  - eapply (shows_set_entry s _ F C c v b'); try done. cbn [fa_dev set_fa_pool]. intros y Hy Hne. rewrite K4 by lia. by rewrite E4.
  - unfold kept in *. cbn in *. destruct E1 as (? & ? & ?), K1 as (? & ? & ?). split_and!; [lia|congruence..].
Qed.

(** ** Clusters *)

Lemma wp_read_cluster s F C c (Q : option (list Z) -> fat D -> Prop) :
  shows s F C -> valid c -> (forall s', shows s' F C -> kept s s' -> Q (Some (C c)) s') ->
  wp (read_into dev stale bpc (cluster_to_sector vol c) (sectors_per_cluster vol)) Q s.
Proof using G.
  intros Hs Hc HQ. pose proof Hs as (H1 & [H2 H2'] & H3). destruct (sector_range c Hc) as (S1 & S2 & S3). pose proof spc_pos.
  rewrite cluster_to_sector_ok by done. change (sectors_per_cluster vol) with spc. apply wp_read_into; [done|done|lia|lia|lia|rewrite bpc_eq; lia|].
  intros s' Hd. destruct (H3 c Hc) as [_ HC]. change (concat _) with (cluster_at (fa_dev s) c). rewrite HC. apply HQ; [by eapply shows_same_disk|apply Hd].
Qed.

Lemma clusters_apart c c' y : c <> c' -> cluster_sector c <= y < cluster_sector c + spc -> ~ (cluster_sector c' <= y < cluster_sector c' + spc).
Proof using G. intros Hne H1 H2. unfold cluster_sector in *. pose proof spc_pos. assert (c < c' \/ c' < c) as [?|?] by lia; nia. Qed.

Lemma wp_write_cluster s F C c b (Q : bool -> fat D -> Prop) :
  shows s F C -> valid c -> zlen b = bpc -> (forall s', shows s' F (upd_at C c b) -> kept s s' -> Q true s') ->
  wp (write_from dev (cluster_to_sector vol c) (sectors_per_cluster vol) b) Q s.
Proof using G.
  intros Hs Hc Hlen HQ. pose proof Hs as (H1 & [H2 H2'] & H3). destruct (sector_range c Hc) as (S1 & S2 & S3). pose proof spc_pos.
  rewrite cluster_to_sector_ok by done. change (sectors_per_cluster vol) with spc.
  apply wp_write_from; try done; try lia; [rewrite Hlen, bpc_eq; lia|]. intros s' K1 K2 K3 K4 K5. apply HQ; [|done]. pose proof data_in_device.
  split_and!; [done|done|intros y Hy; rewrite K4 by lia; by apply H2'|]. intros c' Hc'. destruct (H3 c' Hc') as [HF HC]. destruct (valid_in_table c' Hc') as [Ht0 Ht1].
  pose proof (fat_sector_range c' Ht0 Ht1) as Hsec. pose proof data_in_device. destruct (sector_range c' Hc') as (? & ? & ?). split.
  - rewrite <- HF. unfold fat_at, entry_word. change (first_fat_sector vol + 4 * c' / ss) with (fat_sector c'). rewrite K4 by lia. done.
  - destruct (decide (c' = c)) as [->|Hne]; [by rewrite upd_at_eq|]. rewrite upd_at_ne by done. rewrite <- HC. unfold cluster_at. f_equal.
    apply list_fmap_ext. intros i y Hy. apply list_elem_of_lookup_2, elem_of_seqZ in Hy. apply K4; [lia|]. by eapply clusters_apart.
Qed.

End disk.
