(* ===== verification/FatChain.v ===== *)
(** * FAT32: chains of clusters

    Chains in the table, the free clusters, and what allocating a cluster,
    following and extending a chain, and freeing one do to them. *)

From Stdlib Require Import ZArith Lia.
From stdpp Require Import base tactics list list_numbers relations.
From S2P Require Import Prelude Bytes Fat FatInv.

(** ** Chains *)

Section chains.
Context (top : Z) (Htop : 2 <= top <= FAT32_BAD_CLUSTER).
Implicit Types F : Z -> Z.
#[local] Abbreviation valid := (FatInv.valid top).

(** The clusters from [c] to the end of its chain. *)
Fixpoint fchain F (c : Z) (l : list Z) : Prop :=
  match l with
  | [] => in_chain c = false
  | x :: l' => x = c /\ valid c /\ fchain F (F c) l'
  end.

Lemma valid_in_chain c : valid c -> in_chain c = true.
Proof using Htop.
  intros [? ?]. unfold in_chain, FAT32_EOF, FAT32_BAD_CLUSTER in *. rewrite (proj2 (Z.ltb_lt _ _)), (proj2 (Z.eqb_neq _ _)) by lia. done.
Qed.
Lemma fchain_det F l1 : forall c l2, fchain F c l1 -> fchain F c l2 -> l1 = l2.
Proof using Htop.
  induction l1 as [|x l1 IH]; intros c [|y l2]; cbn; [done| | |].
  - intros E (_ & Hc & _). by rewrite valid_in_chain in E.
  - intros (_ & Hc & _) E. by rewrite valid_in_chain in E.
  - intros (-> & _ & H1) (-> & _ & H2). f_equal. by eapply IH.
Qed.
Lemma fchain_split F l1 : forall c x l2, fchain F c (l1 ++ x :: l2) -> fchain F x (x :: l2).
Proof using. induction l1 as [|y l1 IH]; intros c x l2; cbn; [by intros (-> & ? & ?)|]. intros (_ & _ & H). by eapply IH. Qed.
Lemma fchain_valid F c l x : fchain F c l -> x ∈ l -> valid x.
Proof using. intros H (l1 & l2 & ->)%list_elem_of_split. apply fchain_split in H. by destruct H as (_ & H & _). Qed.
Lemma fchain_nodup F c l : fchain F c l -> NoDup l.
Proof using Htop.
  revert c. induction l as [|x l IH]; intros c; [by constructor|]. intros Hc. pose proof Hc as (-> & Hv & Hl). apply NoDup_cons. split; [|by eapply IH].
  intros (l1 & l2 & ->)%list_elem_of_split. pose proof (fchain_split F (c :: l1) c c l2 Hc) as H2. pose proof (fchain_det F _ c _ Hc H2) as E.
  apply (f_equal length) in E. cbn in E. rewrite length_app in E. cbn in E. lia.
Qed.
Lemma fchain_ext F F' c l : fchain F c l -> (forall x, x ∈ l -> F' x = F x) -> fchain F' c l.
Proof using.
  revert c. induction l as [|x l IH]; intros c; cbn; [done|]. intros (-> & Hv & Hl) E. split_and!; [done..|]. rewrite E by (by left).
  apply IH; [done|]. intros y Hy. apply E. by right.
Qed.
Lemma fchain_next F c l i x : fchain F c l -> l !! i = Some x ->
  match l !! S i with Some y => F x = y /\ valid y | None => in_chain (F x) = false end.
Proof using.
  revert c i. induction l as [|y l IH]; intros c i; cbn; [done|]. intros (-> & Hv & Hl). destruct i as [|i]; cbn [lookup list_lookup].
  - intros [= <-]. destruct l as [|z l]; [done|]. by destruct Hl as (-> & ? & _).
  - intros Hx. by eapply IH.
Qed.
(** The entries of a chain are not 0. *)
Lemma fchain_nonzero F c l x : fchain F c l -> x ∈ l -> F x <> 0.
Proof using.
  intros Hc [i Hi]%list_elem_of_lookup. pose proof (fchain_next F c l i x Hc Hi) as H. destruct (l !! S i).
  - destruct H as [-> [? _]]. lia.
  - intros E. by rewrite E in H.
Qed.

(** A chain with a new last cluster. *)
Lemma fchain_snoc F c l z x : fchain F c (l ++ [z]) -> valid x -> x ∉ l ++ [z] ->
  fchain (upd_at (upd_at F x FAT32_EOF) z x) c (l ++ [z; x]).
Proof using Htop.
  intros Hc Hx Hn. assert (Hz : z ∉ l) by (apply fchain_nodup, NoDup_app in Hc as (_ & H & _); intros Hin; apply (H z Hin); by left).
  apply not_elem_of_app in Hn as [Hxl Hxz]. apply not_elem_of_cons in Hxz as [Hxz _]. revert c Hc. induction l as [|y l IH]; intros c; cbn.
  - intros (-> & Hv & He). split; [done|]. split; [done|]. rewrite upd_at_eq. split; [done|]. split; [done|]. by rewrite upd_at_ne, upd_at_eq by done.
  - intros (-> & Hv & Hl). apply not_elem_of_cons in Hz as [? ?]. apply not_elem_of_cons in Hxl as [? ?]. split_and!; [done..|].
    rewrite !upd_at_ne by done. by apply IH.
Qed.

(** ** Free clusters *)

Definition free_list F : list Z := filter (fun c => F c = 0) (seqZ 2 (top - 2)).

Lemma free_elem F c : c ∈ free_list F <-> F c = 0 /\ valid c.
Proof using. clear Htop. unfold free_list, FatInv.valid. rewrite list_elem_of_filter, elem_of_seqZ. intuition lia. Qed.
Lemma free_nodup F : NoDup (free_list F).
Proof using. apply NoDup_filter, NoDup_seqZ. Qed.

Lemma filter_head (P : Z -> Prop) `{!forall x, Decision (P x)} l x r : filter P l = x :: r ->
  exists l1 l2, l = l1 ++ x :: l2 /\ (forall y, y ∈ l1 -> ~ P y) /\ P x /\ filter P l2 = r.
Proof using.
  induction l as [|y l IH]; [done|]. rewrite filter_cons. case_decide as Hy.
  - intros [= -> <-]. exists [], l. split_and!; try done. by intros ? ?%elem_of_nil.
  - intros E. destruct (IH E) as (l1 & l2 & -> & H1 & H2 & H3). exists (y :: l1), l2. split_and!; try done.
    intros z [->|Hz]%elem_of_cons; [done|by apply H1].
Qed.

(** The lowest free cluster. *)
Lemma free_head F x r : free_list F = x :: r -> F x = 0 /\ valid x /\ forall y, valid y -> y < x -> F y <> 0.
Proof using.
  clear Htop. intros E. assert (Hx : x ∈ free_list F) by (rewrite E; by left). apply free_elem in Hx as [H0 Hv]. split_and!; [done..|]. intros y Hy Hlt.
  destruct (filter_head _ _ _ _ E) as (l1 & l2 & Hl & Hn & _). apply Hn. assert (Hlx : seqZ 2 (top - 2) !! length l1 = Some x).
  { rewrite Hl, lookup_app_r, Nat.sub_diag by lia. done. }
  apply lookup_seqZ in Hlx as [Ex _]. assert (Hly : seqZ 2 (top - 2) !! Z.to_nat (y - 2) = Some y).
  { apply lookup_seqZ. unfold FatInv.valid in *. lia. }
  rewrite Hl, lookup_app_l in Hly by (unfold FatInv.valid in *; lia). by eapply list_elem_of_lookup_2.
Qed.
Lemma free_taken F x r v : free_list F = x :: r -> v <> 0 -> free_list (upd_at F x v) = r.
Proof using.
  intros E Hv. destruct (filter_head _ _ _ _ E) as (l1 & l2 & Hl & Hn & _ & <-). pose proof (NoDup_seqZ 2 (top - 2)) as Hnd. rewrite Hl in Hnd.
  apply NoDup_app in Hnd as (_ & Hd & [Hx2 _]%NoDup_cons). unfold free_list. rewrite Hl, filter_app, filter_none.
  - rewrite filter_cons, upd_at_eq, decide_False by done. cbn. apply filter_ext_elem. intros y Hy. rewrite upd_at_ne; [done|]. by intros ->.
  - intros y Hy. rewrite upd_at_ne; [by apply Hn|]. intros ->. apply (Hd x Hy). by left.
Qed.
Lemma free_other F z v : F z <> 0 -> v <> 0 -> free_list (upd_at F z v) = free_list F.
Proof using.
  intros Hz Hv. unfold free_list. apply filter_ext_elem. intros y _. destruct (decide (y = z)) as [->|]; [rewrite upd_at_eq; by split|by rewrite upd_at_ne].
Qed.

End chains.

(** ** The operations *)

Section ops.
Context {D : Type} (dev : block_ops D) (stale : nat -> Z) (vol : fat32_volume) (ss total top : Z).
Context `{L : !BlockLaws dev ss total} (G : geometry vol ss total top).
Implicit Types s : fat D.
#[local] Abbreviation valid := (FatInv.valid top).
#[local] Abbreviation shows := (FatInv.shows dev vol ss total top).

Definition eps : Z := ss / 4.
Lemma ss_eps : ss = 4 * eps.
Proof using G. pose proof (ss_mul _ _ _ _ G). pose proof (ge_ss _ _ _ _ G). unfold eps. zdiv_lia. Qed.
Lemma fat_sectors_eq : fat_sectors vol = first_data_sector vol - first_fat_sector vol.
Proof using G.
  unfold fat_sectors. apply u32_small. pose proof (ge_fat _ _ _ _ G). pose proof (data_in_device _ _ _ _ G). pose proof (ge_total _ _ _ _ G). lia.
Qed.
Lemma top_entries : top <= eps * fat_sectors vol.
Proof using G. rewrite fat_sectors_eq. pose proof (ge_table _ _ _ _ G). pose proof ss_eps. nia. Qed.

(** Entry [i] of sector [j] of the table. *)
Lemma entry_place j i : 0 <= i < eps -> 0 <= j -> fat_sector vol ss (j * eps + i) = first_fat_sector vol + j /\ fat_byte ss (j * eps + i) = 4 * i.
Proof using G.
  intros Hi Hj. pose proof ss_eps. pose proof (ge_ss _ _ _ _ G). unfold fat_sector, fat_byte.
  assert (4 * (j * eps + i) / ss = j) as -> by (symmetry; apply (Z.div_unique_pos _ _ _ (4 * i)); lia).
  assert (4 * (j * eps + i) mod ss = 4 * i) as -> by (symmetry; apply (Z.mod_unique_pos _ _ j); lia). done.
Qed.

(** The scan of one sector for the lowest free cluster [x]. *)
Lemma wp_free_entry (F : Z -> Z) b j x (Q : option Z -> fat D -> Prop) s :
  0 <= j -> zlen b = ss -> valid x -> j * eps <= x ->
  (forall i, 0 <= i < eps -> valid (j * eps + i) -> get32 b (Z.to_nat (4 * i)) mod 2 ^ 28 = F (j * eps + i)) ->
  F x = 0 -> (forall y, valid y -> y < x -> F y <> 0) ->
  Q (if decide (x < (j + 1) * eps) then Some x else None) s ->
  wp (free_entry vol b (j * eps)) Q s.
Proof using G.
  intros Hj Hb Hx Hjx HF F0 Hlow HQ. pose proof Hx as [Hx1 Hx2]. pose proof ss_eps. pose proof (ge_ss _ _ _ _ G). pose proof (ge_top _ _ _ _ G).
  unfold FAT32_BAD_CLUSTER in *. unfold free_entry. rewrite (ge_bps _ _ _ _ G). fold eps. wp_steps.
  eapply wp_mono; [apply (wp_loop (fun i _ s' => s' = s /\ 0 <= i <= eps /\ j * eps + i <= x) (fun r s' => s' = s /\
    match r with inr c => c = x /\ x < (j + 1) * eps | inl _ => (j + 1) * eps <= x end))|].
  - split_and!; [done|lia|lia|lia].
  - intros i a s' Hi (-> & Hi' & Hle). rewrite Z2Nat.id in Hi by lia. rewrite u32_small by nia.
    destruct (Z.ltb_spec (j * eps + i) 2) as [E|E].
    + wp_steps. split_and!; [done|lia|lia|lia].
    + wp_steps. apply ld32_wp; [lia|lia|]. wp_steps. rewrite land28, HF by (unfold FatInv.valid; lia). destruct (Z.eqb_spec (F (j * eps + i)) 0) as [E0|E0].
      * assert (j * eps + i = x) as Ex; [|split_and!; [done|done|lia]]. destruct (decide (j * eps + i < x)); [|lia]. exfalso. apply (Hlow (j * eps + i)); [unfold FatInv.valid; lia|lia|done].
      * split_and!; [done|lia|lia|]. destruct (decide (j * eps + i = x)) as [<-|]; [done|lia].
  - intros a s' (-> & Hi' & Hle). split; [done|]. lia.
  - intros r s' [-> Hr]. wp_steps. destruct r as [?|c]; [rewrite decide_False in HQ by lia|destruct Hr as [-> Hr]; rewrite decide_True in HQ by lia]; done.
Qed.

Lemma wp_allocate s F C x r (Q : Z -> fat D -> Prop) :
  shows s F C -> (0 < fa_pool s)%nat -> free_list top F = x :: r ->
  (forall s', shows s' (upd_at F x FAT32_EOF) C -> kept s s' -> Q x s') -> wp (fat32_allocate_cluster dev stale vol) Q s.
Proof using G.
  intros Hs Hp Hfree HQ. destruct (free_head _ _ _ _ Hfree) as (F0 & Hx & Hlow). pose proof Hx as [Hx1 Hx2].
  pose proof ss_eps as Hss. pose proof (ge_ss _ _ _ _ G). pose proof (ge_top _ _ _ _ G). pose proof top_entries. pose proof fat_sectors_eq.
  pose proof (ge_fat _ _ _ _ G). pose proof (data_in_device _ _ _ _ G). pose proof (ge_total _ _ _ _ G). unfold FAT32_BAD_CLUSTER in *.
  unfold fat32_allocate_cluster. rewrite (ge_bps _ _ _ _ G). wp_steps. apply wp_f_pool_alloc; [lia|done|]. cbn [negb]. wp_steps.
  set (s0 := set_fa_pool (pred (fa_pool s)) s). assert (Hs0 : shows s0 F C) by exact Hs.
  eapply wp_mono; [apply (wp_loop (fun j _ s' => shows s' F C /\ kept s0 s' /\ 0 <= j /\ j * eps <= x)
    (fun res s' => shows s' F C /\ kept s0 s' /\ res = inr (Some x)))|].
  - split_and!; [done|done|lia|lia].
  - intros j a s1 Hj (Hs1 & Hk1 & Hj0 & Hjx). rewrite Z2Nat.id in Hj by lia. rewrite (u32_small (first_fat_sector vol + j)) by lia.
    pose proof Hs1 as (D1 & [D2 D2'] & D3). wp_steps. apply (wp_read_into dev stale ss total); [done|done|lia|lia|lia|lia|].
    intros s2 Hd2. rewrite seqZ1. cbn [fmap list_fmap concat]. rewrite app_nil_r. wp_steps. rewrite u32_small by (fold eps; nia). fold eps.
    apply (wp_free_entry F _ j x); try done.
    + apply bl_len; [done|lia].
    + intros i Hi Hv. destruct (D3 _ Hv) as [<- _]. destruct (entry_place j i Hi Hj0) as [P1 P2]. unfold fat_at, entry_word.
      unfold fat_sector, fat_byte in P1, P2. by rewrite P1, P2.
    + pose proof (shows_same_disk _ _ _ _ _ G _ _ _ _ Hs1 Hd2) as Hs2. assert (Hk2 : kept s0 s2) by (eapply fat_kept_trans; [exact Hk1|apply Hd2]).
      wp_steps. destruct (decide _) as [Hlt|Hge]; split_and!; try done; lia.
  - intros a s1 (Hs1 & Hk1 & _ & Hjx). exfalso. rewrite Z2Nat.id in Hjx by lia. lia.
  - intros res s1 (Hs1 & (K1 & K2 & K3) & ->). wp_steps. apply wp_f_pool_free; [lia|]. wp_steps.
    assert (HE : 0 <= FAT32_EOF < 2 ^ 28) by (unfold FAT32_EOF; lia). unfold s0 in K1. cbn in K1, K2, K3.
    eapply (wp_set_cluster dev stale vol ss total top G _ F C); [exact Hs1|done|done|cbn; lia|]. intros s2 Hs2 (K4 & K5 & K6). wp_steps. change (0 =? 0) with true. cbn beta iota.
    apply HQ; [done|]. cbn in K4, K5, K6. split_and!; [lia|congruence|congruence].
Qed.

(** No free cluster, and the table says so to its end: nothing is allocated. *)
Lemma upd_upd_comm {A} (F : Z -> A) a b v w : a <> b -> forall x, upd_at (upd_at F a v) b w x = upd_at (upd_at F b w) a v x.
Proof using. intros Hne x. unfold upd_at. repeat case_decide; congruence. Qed.

(** Following a chain, and extending it at its end. *)
Lemma wp_next_or_new s F C c l k z (Q : option Z -> fat D -> Prop) :
  shows s F C -> (0 < fa_pool s)%nat -> fchain top F c l -> l !! k = Some z ->
  match l !! S k with
  | Some y => forall s', shows s' F C -> kept s s' -> Q (Some y) s'
  | None => exists x r, free_list top F = x :: r /\
      forall s' F', shows s' F' C -> kept s s' -> fchain top F' c (l ++ [x]) -> free_list top F' = r ->
        (forall y, y <> x -> y <> z -> F' y = F y) -> Q (Some x) s'
  end ->
  wp (next_or_new dev stale vol z) Q s.
Proof using G.
  intros Hs Hp Hc Hk HQ. pose proof (ge_top _ _ _ _ G) as Htop. assert (Hz : z ∈ l) by by eapply list_elem_of_lookup_2.
  pose proof (fchain_valid _ _ _ _ _ Hc Hz) as Hvz. pose proof (fchain_next _ _ _ _ _ _ Hc Hk) as Hn.
  unfold next_or_new. wp_steps. eapply (wp_get_next dev stale vol ss total top G); [done..|]. intros s1 Hs1 K1. destruct (l !! S k) as [y|] eqn:E.
  - destruct Hn as [<- Hv]. rewrite (valid_in_chain top Htop) by done. wp_steps. by apply HQ.
  - rewrite Hn. destruct HQ as (x & r & Hf & HQ). destruct (free_head _ _ _ _ Hf) as (F0 & Hx & _). wp_steps.
    destruct K1 as (K1 & K2 & K3). eapply (wp_allocate s1 F C x r); [done|lia|done|]. intros s2 Hs2 (K4 & K5 & K6). pose proof Hx as [? ?].
    rewrite (proj2 (Z.eqb_neq x FAT32_BAD_CLUSTER)) by lia. wp_steps.
    assert (Hxz : x <> z).
    { intros ->. by apply (fchain_nonzero _ _ _ _ _ Hc Hz). }
    eapply (wp_set_cluster dev stale vol ss total top G); [done|done| |lia|]; [unfold FAT32_BAD_CLUSTER in *; lia|]. intros s3 Hs3 (K7 & K8 & K9). wp_steps.
    assert (Hl : exists l0, l = l0 ++ [z]).
    { exists (take k l). rewrite <- (take_drop_middle l k z Hk) at 1. f_equal. f_equal. apply nil_length_inv. rewrite length_drop.
      apply lookup_ge_None_1 in E. lia. }
    destruct Hl as [l0 ->]. apply (HQ s3 (upd_at (upd_at F x FAT32_EOF) z x)); try done.
    + split_and!; [lia|congruence|congruence].
    + rewrite <- app_assoc. apply fchain_snoc; try done. intros Hin. by apply (fchain_nonzero _ _ _ _ _ Hc Hin).
    + rewrite free_other; [by eapply free_taken|rewrite upd_at_ne by done; by apply (fchain_nonzero _ _ _ _ _ Hc Hz)|lia].
    + intros y H1 H2. by rewrite !upd_at_ne.
Qed.

(** ** Freeing *)

(** Every entry is free, the end of a chain, or a cluster of the volume; the
    chains may run into each other and in circles. *)
Definition closed (F : Z -> Z) : Prop := forall x, valid x -> F x = 0 \/ valid (F x) \/ in_chain (F x) = false.
Definition follows (F : Z -> Z) (a b : Z) : Prop := F a = b /\ valid b.
Definition reach (F : Z -> Z) : Z -> Z -> Prop := rtc (follows F).

Definition used (F : Z -> Z) : list Z := filter (fun c => F c <> 0) (seqZ 2 (top - 2)).
Lemma used_bound F : zlen (used F) <= top - 2.
Proof using G.
  pose proof (ge_top _ _ _ _ G). unfold used, zlen. pose proof (length_filter (fun c => F c <> 0) (seqZ 2 (top - 2))) as H0. rewrite length_seqZ in H0. lia.
Qed.
Lemma used_freed F c : valid c -> F c <> 0 -> zlen (used F) = zlen (used (upd_at F c 0)) + 1.
Proof using.
  intros [Hc1 Hc2] H0. unfold used, zlen. assert (Hin : c ∈ seqZ 2 (top - 2)) by (apply elem_of_seqZ; lia).
  pose proof (NoDup_seqZ 2 (top - 2)) as Hnd. apply list_elem_of_split in Hin as (l1 & l2 & E). rewrite E in Hnd |- *.
  apply NoDup_app in Hnd as (_ & Hd & [Hc _]%NoDup_cons). rewrite !filter_app, !filter_cons, decide_True, upd_at_eq, decide_False by (done || tauto).
  assert (Hext : forall l : list Z, c ∉ l -> filter (fun x => upd_at F c 0 x <> 0) l = filter (fun x => F x <> 0) l).
  { intros l Hl. apply filter_ext_elem. intros x Hx. by rewrite upd_at_ne by (by intros ->). }
  rewrite !Hext; [rewrite !length_app; cbn [length]; lia|done|]. intros Hin. apply (Hd c Hin). by left.
Qed.

Lemma reach_zeroed F c x : c <> 0 -> reach F c x <-> x = c \/ (valid (F c) /\ reach (upd_at F c 0) (F c) x).
Proof using.
  intros Hc. split.
  - apply (rtc_ind_r (fun x => x = c \/ valid (F c) /\ reach (upd_at F c 0) (F c) x) c); [by left|]. intros y x' _ [<- Hv] IH. right. destruct IH as [->|[Hv1 IH]]; [by split|].
    destruct (decide (y = c)) as [->|Hne]; [by split|]. split; [done|]. eapply rtc_r; [exact IH|]. split; [by rewrite upd_at_ne|done].
  - intros [->|[Hv Hr]]; [apply rtc_refl|]. apply rtc_l with (F c); [by split|]. revert Hr. apply (rtc_ind_r (fun x => rtc (follows F) (F c) x) (F c)); [apply rtc_refl|].
    intros y x' _ [E Hvx] IH. eapply rtc_r; [exact IH|]. split; [|done]. destruct (decide (y = c)) as [->|Hne]; [|by rewrite upd_at_ne in E]. rewrite upd_at_eq in E. subst x'. destruct Hvx. lia.
Qed.

(** The table after everything reachable from [c] has been freed. *)
Definition freed_from (F : Z -> Z) (c : Z) (F' : Z -> Z) : Prop := forall x, valid x -> (reach F c x -> F' x = 0) /\ (~ reach F c x -> F' x = F x).

Lemma freed_step F c F' : valid c -> valid (F c) -> freed_from (upd_at F c 0) (F c) F' -> freed_from F c F'.
Proof using.
  intros Hc Hv H x Hx. assert (Hc0 : c <> 0) by (destruct Hc; lia). destruct (H x Hx) as [H1 H2]. pose proof (reach_zeroed F c x Hc0) as Hr. split.
  - intros Hxr. apply Hr in Hxr as [->|[_ Hxr]]; [|by apply H1]. destruct (decide (F' c = 0)) as [|Hn]; [done|]. exfalso.
    assert (~ reach (upd_at F c 0) (F c) c) as Hnr by (intros Hn'; by apply Hn, H1). apply Hn. rewrite H2 by done. apply upd_at_eq.
  - intros Hn. rewrite H2 by tauto. apply upd_at_ne. intros ->. apply Hn, Hr. by left.
Qed.
Lemma freed_last F c : valid c -> ~ valid (F c) -> freed_from F c (upd_at F c 0).
Proof using.
  intros Hc Hv x Hx. assert (Hc0 : c <> 0) by (destruct Hc; lia). pose proof (reach_zeroed F c x Hc0) as Hr. split.
  - intros [->|[? _]]%Hr; [apply upd_at_eq|done].
  - intros Hn. apply upd_at_ne. intros ->. apply Hn, Hr. by left.
Qed.

Lemma wp_free_chain fuel : forall s F C c (Q : unit -> fat D -> Prop),
  shows s F C -> (0 < fa_pool s)%nat -> valid c -> closed F -> zlen (used F) < Z.of_nat fuel ->
  (forall s' F', shows s' F' C -> kept s s' -> freed_from F c F' -> Q tt s') -> wp (free_chain dev stale vol fuel c) Q s.
Proof using G.
  induction fuel as [|fuel IH]; intros s F C c Q Hs Hp Hc Hcl Hf HQ; [unfold zlen in *; lia|].
  pose proof (ge_top _ _ _ _ G) as Htop. pose proof (valid_in_chain top Htop c Hc) as Hic. unfold in_chain in Hic. cbn [free_chain]. rewrite Hic.
  rewrite (proj2 (Z.eqb_neq c 0)) by (destruct Hc; lia). cbn [andb negb]. wp_steps.
  eapply (wp_get_next dev stale vol ss total top G); [done..|]. intros s1 Hs1 K1. wp_steps.
  eapply (wp_set_cluster dev stale vol ss total top G); [done|done|lia|by destruct K1; lia|]. intros s2 Hs2 K2.
  pose proof (fat_kept_trans _ _ _ K1 K2) as K. destruct (Hcl c Hc) as [E|[Hv|E]].
  - rewrite E. destruct fuel; cbn [free_chain]; change (_ && negb (0 =? 0)) with false; cbn beta iota; wp_steps;
      (eapply HQ; [exact Hs2|done|apply freed_last; [done|]; rewrite E; intros []; lia]).
  - wp_steps. apply (IH s2 (upd_at F c 0) C (F c)); [done|by destruct K; lia|done| | |].
    + intros x Hx. destruct (decide (x = c)) as [->|Hne]; [left; apply upd_at_eq|]. rewrite upd_at_ne by done. by apply Hcl.
    + rewrite (used_freed F c Hc) in Hf by (destruct Hv; lia). lia.
    + intros s3 F3 Hs3 K3 Hfr. eapply HQ; [exact Hs3|by eapply fat_kept_trans|by apply freed_step].
  - unfold in_chain in E. assert (Hend : wp (free_chain dev stale vol fuel (F c)) Q s2).
    { destruct fuel; cbn [free_chain]; rewrite E; wp_steps;
        (eapply HQ; [exact Hs2|done|apply freed_last; [done|]; intros Hv; pose proof (valid_in_chain top Htop _ Hv) as E2; unfold in_chain in E2; congruence]). }
    exact Hend.
Qed.

(** C35: In a table whose entries are each free, the end of a chain or a link to
    a cluster of the volume ([closed]; the chains may run into each other and in
    circles) freeing a chain returns: it frees exactly the clusters that can be
    reached from the start, keeps every other entry and all data, and gives its
    buffers back.  (A link out of the volume is followed too,
    [link_outside_zeroes].) *)
Theorem fat32_free_terminates s F C c :
  shows s F C -> (0 < fa_pool s)%nat -> valid c -> closed F ->
  wp (fat32_free_cluster_chain dev stale vol c) (fun _ s' => exists F', shows s' F' C /\ kept s s' /\ freed_from F c F') s.
Proof using G.
  intros Hs Hp Hc Hcl. pose proof (ge_top _ _ _ _ G). unfold fat32_free_cluster_chain. pose proof Hc as [? ?].
  rewrite (proj2 (Z.ltb_ge _ _)), (proj2 (Z.leb_gt _ _)) by lia. cbn [orb]. apply (wp_free_chain _ s F C c); [done..| |].
  - pose proof (used_bound F). pose proof top_entries. unfold chain_fuel. rewrite (ge_bps _ _ _ _ G). fold eps. lia.
  - intros s' F' ???. by exists F'.
Qed.

(** A chain that is freed is the chain. *)
Lemma reach_chain F c l x : fchain top F c l -> l <> [] -> reach F c x <-> x ∈ l.
Proof using G.
  pose proof (ge_top _ _ _ _ G) as Htop. intros Hc Hl. split.
  - apply (rtc_ind_r (fun x => x ∈ l) c); [|intros y x' _ [<- Hv] IH].
    + destruct l as [|a l]; [done|]. destruct Hc as (-> & _). by left.
    + apply list_elem_of_lookup in IH as [i Hi]. pose proof (fchain_next _ _ _ _ _ _ Hc Hi) as H0. destruct (l !! S i) as [z|] eqn:E.
      * destruct H0 as [-> _]. by eapply list_elem_of_lookup_2.
      * by rewrite (valid_in_chain top Htop _ Hv) in H0.
  - intros [i Hi]%list_elem_of_lookup. revert x Hi. induction i as [|i IH]; intros x Hi.
    + destruct l as [|a l]; [done|]. destruct Hc as (-> & _). injection Hi as <-. apply rtc_refl.
    + destruct (l !! i) as [y|] eqn:E; [|apply lookup_ge_None_1 in E; apply lookup_lt_Some in Hi; lia].
      pose proof (fchain_next _ _ _ _ _ _ Hc E) as H0. rewrite Hi in H0. eapply rtc_r; [by apply IH|]. done.
Qed.

End ops.
