(* ===== verification/FatFile.v ===== *)
(** * FAT32: files

    Reading and writing a file against the bytes of its chain of clusters, and
    the files of a volume as a driver for the page cache. *)

From Stdlib Require Import ZArith Lia.
From stdpp Require Import base tactics list list_numbers.
From S2P Require Import Prelude Bytes Ramfs PageCache Fat FatInv FatChain.

(** ** Stores in parts *)

Lemma put_app_mid i src a b c : (i + length src <= length b)%nat -> put (length a + i) src (a ++ b ++ c) = a ++ put i src b ++ c.
Proof.
  intros H. apply list_eq. intros j. rewrite put_lookup by (rewrite !length_app; lia). destruct (decide (j < length a)%nat).
  - rewrite decide_False by lia. by rewrite !lookup_app_l by lia.
  - rewrite !(lookup_app_r a) by lia. destruct (decide (j - length a < length b)%nat).
    + rewrite !lookup_app_l by (rewrite ?put_length; lia). rewrite put_lookup by lia. repeat case_decide; try lia; f_equal; lia.
    + rewrite decide_False by lia. rewrite !lookup_app_r by (rewrite ?put_length; lia). f_equal. rewrite put_length; lia.
Qed.
Lemma field_all n b : n = length b -> field n 0 b = b.
Proof. intros ->. unfold field. rewrite drop_0. by apply take_ge. Qed.
Lemma field_app_mid n i a b c : (i + n <= length b)%nat -> field n (length a + i) (a ++ b ++ c) = field n i b.
Proof.
  intros H. apply list_eq. intros j. destruct (decide (j < n)%nat).
  - rewrite !field_lookup by done. rewrite lookup_app_r by lia. rewrite lookup_app_l by lia. f_equal. lia.
  - rewrite !lookup_ge_None_2; [done| |]; rewrite field_length; rewrite ?length_app; lia.
Qed.

(** ** The bytes of a chain *)

Definition content (C : Z -> list Z) (l : list Z) : list Z := concat (C <$> l).

Lemma content_cons C x l : content C (x :: l) = C x ++ content C l.
Proof. done. Qed.
Lemma content_app C l1 l2 : content C (l1 ++ l2) = content C l1 ++ content C l2.
Proof. unfold content. by rewrite fmap_app, concat_app. Qed.
Lemma content_ext C C' l : (forall c, c ∈ l -> C' c = C c) -> content C' l = content C l.
Proof. intros H. unfold content. f_equal. apply list_fmap_ext. intros i x Hx. apply H. by eapply list_elem_of_lookup_2. Qed.

Lemma content_length C l n : (forall c, c ∈ l -> zlen (C c) = n) -> zlen (content C l) = n * zlen l.
Proof.
  induction l as [|x l IH]; intros HC; [unfold zlen; cbn; lia|]. rewrite content_cons. unfold zlen in *. rewrite length_app. cbn [length].
  rewrite Nat2Z.inj_add, IH by (intros c Hc; apply HC; by right). rewrite HC by (by left). lia.
Qed.

Section content.
Context (C : Z -> list Z) (l : list Z) (n : Z).
Hypotheses (Hn : 0 < n) (HC : forall c, c ∈ l -> zlen (C c) = n).

Lemma content_split k z : l !! k = Some z ->
  content C l = content C (take k l) ++ C z ++ content C (drop (S k) l) /\ zlen (content C (take k l)) = n * Z.of_nat k.
Proof using HC.
  intros Hk. split.
  - rewrite <- (take_drop_middle l k z Hk) at 1. by rewrite content_app.
  - rewrite (content_length _ _ n).
    + apply lookup_lt_Some in Hk. unfold zlen. rewrite length_take. lia.
    + intros c (i & Hi & _)%elem_of_take. apply HC. by eapply list_elem_of_lookup_2.
Qed.

(** A part of one cluster is a part of the whole. *)
Lemma content_field k z start m : l !! k = Some z -> 0 <= start -> start + Z.of_nat m <= n ->
  field m (Z.to_nat (n * Z.of_nat k + start)) (content C l) = field m (Z.to_nat start) (C z).
Proof using Hn HC.
  intros Hk H1 H2. destruct (content_split k z Hk) as [-> Hlen]. pose proof (HC z ltac:(by eapply list_elem_of_lookup_2)) as Hz. unfold zlen in *.
  replace (Z.to_nat (n * Z.of_nat k + start)) with (length (content C (take k l)) + Z.to_nat start)%nat by lia. apply field_app_mid. lia.
Qed.

Lemma content_put k z start src : NoDup l -> l !! k = Some z -> 0 <= start -> start + zlen src <= n ->
  content (upd_at C z (put (Z.to_nat start) src (C z))) l = put (Z.to_nat (n * Z.of_nat k + start)) src (content C l).
Proof using Hn HC.
  intros Hnd Hk H1 H2. destruct (content_split k z Hk) as [E Hlen]. pose proof (HC z ltac:(by eapply list_elem_of_lookup_2)) as Hz. unfold zlen in *.
  rewrite E. replace (Z.to_nat (n * Z.of_nat k + start)) with (length (content C (take k l)) + Z.to_nat start)%nat by lia.
  rewrite put_app_mid by lia. rewrite <- (take_drop_middle l k z Hk) at 1. rewrite content_app, content_cons, upd_at_eq.
  pose proof Hnd as Hnd'. rewrite <- (take_drop_middle l k z Hk) in Hnd'. apply NoDup_app in Hnd' as (_ & Hd & [Hz2 _]%NoDup_cons).
  rewrite !(content_ext C (upd_at C z _)); [done| |]; intros c Hc; apply upd_at_ne; intros ->; [done|]. apply (Hd z Hc). by left.
Qed.

End content.

(** ** Reading *)

Section files.
Context {D : Type} (dev : block_ops D) (stale : nat -> Z) (vol : fat32_volume) (ss total top : Z).
Context `{L : !BlockLaws dev ss total} (G : geometry vol ss total top).
Implicit Types s : fat D.
#[local] Abbreviation shows := (FatInv.shows dev vol ss total top).
#[local] Abbreviation bpc := (FatInv.bpc vol).

Lemma chain_short F c l : fchain top F c l -> zlen l <= top - 2.
Proof using G.
  pose proof (ge_top _ _ _ _ G) as Htop. intros Hc. pose proof (fchain_nodup top Htop _ _ _ Hc) as Hnd.
  assert (Hsub : l ⊆+ seqZ 2 (top - 2)).
  { apply NoDup_submseteq; [done|]. intros x Hx. destruct (fchain_valid _ _ _ _ _ Hc Hx). apply elem_of_seqZ. lia. }
  apply submseteq_length in Hsub. rewrite length_seqZ in Hsub. unfold zlen. lia.
Qed.
Lemma free_short F : zlen (free_list top F) <= top - 2.
Proof using G.
  pose proof (ge_top _ _ _ _ G). unfold free_list, zlen. pose proof (length_filter (fun c => F c = 0) (seqZ 2 (top - 2))) as Hlen. rewrite length_seqZ in Hlen. lia.
Qed.
Lemma chain_bytes F c l : fchain top F c l -> bpc * zlen l < 2 ^ 48.
Proof using G.
  intros Hc. pose proof (chain_short F c l Hc). pose proof (bpc_pos _ _ _ _ G). pose proof (ge_top _ _ _ _ G). unfold FAT32_BAD_CLUSTER in *. nia.
Qed.
Lemma chain_sizes s F C c l : shows s F C -> fchain top F c l -> forall x, x ∈ l -> zlen (C x) = bpc.
Proof using G. intros Hs Hc x Hx. eapply shows_length; [done|done|]. by eapply fchain_valid. Qed.

Lemma wp_seek_read fuel : forall s F C c l off j z k (Q : option (Z * Z) -> fat D -> Prop),
  shows s F C -> (0 < fa_pool s)%nat -> fchain top F c l -> l !! j = Some z -> bpc * Z.of_nat k <= off < bpc * (Z.of_nat k + 1) ->
  (j <= k < length l)%nat -> (k - j <= fuel)%nat ->
  (forall s' y, l !! k = Some y -> shows s' F C -> kept s s' -> Q (Some (y, bpc * Z.of_nat k)) s') ->
  wp (seek_read dev stale vol fuel off z (bpc * Z.of_nat j)) Q s.
Proof using G.
  induction fuel as [|fuel IH]; intros s F C c l off j z k Q Hs Hp Hc Hj Hoff Hk Hf HQ;
    pose proof (chain_bytes F c l Hc) as Hb; pose proof (bpc_pos _ _ _ _ G) as Hbp; unfold zlen in Hb; cbn [seek_read]; fold bpc;
    rewrite (u64_small (bpc * Z.of_nat j + bpc)) by nia.
  - assert (k = j) as -> by lia. rewrite (proj2 (Z.leb_gt _ _)) by lia. wp_steps. by apply HQ; [| |by apply fat_kept_refl].
  - destruct (decide (k = j)) as [->|Hne].
    + rewrite (proj2 (Z.leb_gt _ _)) by lia. wp_steps. by apply HQ; [| |by apply fat_kept_refl].
    + rewrite (proj2 (Z.leb_le _ _)) by nia. wp_steps. pose proof (fchain_next _ _ _ _ _ _ Hc Hj) as Hn.
      destruct (l !! S j) as [y|] eqn:E; [|apply lookup_ge_None_1 in E; lia]. destruct Hn as [Hn Hv].
      eapply (wp_get_next dev stale vol ss total top G); [done| |done|].
      { eapply fchain_valid; [done|by eapply list_elem_of_lookup_2]. }
      intros s1 Hs1 K1. rewrite Hn, (valid_in_chain top (ge_top _ _ _ _ G)) by done.
      replace (bpc * Z.of_nat j + bpc) with (bpc * Z.of_nat (S j)) by lia.
      apply (IH s1 F C c l off (S j) y k); try done; try lia; [by destruct K1; lia|]. intros s' y' Hy' Hs' K'. apply HQ; [done|done|by eapply fat_kept_trans].
Qed.

(** The part of a transfer in cluster [k]. *)
Lemma piece_spec off k left : bpc * k <= off < bpc * (k + 1) -> 0 <= left ->
  piece vol off (bpc * k) left = (off - bpc * k, Z.min left (bpc * (k + 1) - off)).
Proof using G.
  intros H1 H2. pose proof (bpc_pos _ _ _ _ G). unfold piece. fold bpc. rewrite (u32_small (off - bpc * k)) by lia.
  rewrite u32_small by lia. f_equal. case_if; lia.
Qed.

Lemma wp_read_loop fuel : forall s F C c l off left k z (Q : list Z -> fat D -> Prop),
  shows s F C -> (0 < fa_pool s)%nat -> fchain top F c l -> l !! k = Some z -> bpc * Z.of_nat k <= off < bpc * (Z.of_nat k + 1) ->
  0 <= left -> off + left <= bpc * zlen l -> off - bpc * Z.of_nat k + left <= bpc * Z.of_nat fuel ->
  (forall s', shows s' F C -> kept s s' -> Q (field (Z.to_nat left) (Z.to_nat off) (content C l)) s') ->
  wp (read_loop dev stale vol fuel off left z (bpc * Z.of_nat k)) Q s.
Proof using G.
  induction fuel as [|fuel IH]; intros s F C c l off left k z Q Hs Hp Hc Hk Hoff Hleft Hend Hf HQ;
    pose proof (chain_bytes F c l Hc) as Hb; pose proof (bpc_pos _ _ _ _ G) as Hbp; cbn [read_loop]; destruct (Z.ltb_spec 0 left) as [Hl|Hl];
    try (assert (left = 0) as -> by lia; wp_steps; by apply HQ; [|apply fat_kept_refl]); [nia|].
  assert (Hz : z ∈ l) by by eapply list_elem_of_lookup_2. pose proof (fchain_valid _ _ _ _ _ Hc Hz) as Hv.
  wp_steps. eapply (wp_read_cluster dev stale vol ss total top G); [done..|]. intros s1 Hs1 K1. rewrite piece_spec by lia. cbn [fst snd]. wp_steps.
  pose proof (chain_sizes s F C c l Hs Hc) as HC. pose proof (HC z Hz) as HCz.
  set (m := Z.min left (bpc * (Z.of_nat k + 1) - off)) in *. assert (Hm : 0 < m <= left) by lia.
  apply wp_bytes_out; [lia|lia|lia|].
  assert (Ed : take (Z.to_nat m) (drop (Z.to_nat (off - bpc * Z.of_nat k)) (C z)) = field (Z.to_nat m) (Z.to_nat off) (content C l)).
  { change (take _ (drop _ (C z))) with (field (Z.to_nat m) (Z.to_nat (off - bpc * Z.of_nat k)) (C z)).
    rewrite <- (content_field C l bpc ltac:(lia) HC k z) by (done || lia). f_equal. lia. }
  rewrite Ed. destruct (Z.ltb_spec m left) as [Hml|Hml]; wp_steps.
  - assert (Em : m = bpc * (Z.of_nat k + 1) - off) by lia. pose proof (fchain_next _ _ _ _ _ _ Hc Hk) as Hn.
    destruct (l !! S k) as [y|] eqn:E; [|apply lookup_ge_None_1 in E; apply lookup_lt_Some in Hk; assert (El : zlen l = Z.of_nat k + 1) by (unfold zlen; lia); rewrite El in Hend; lia].
    destruct Hn as [Hn Hvy].
    eapply (wp_get_next dev stale vol ss total top G); [done|done|by destruct K1; lia|]. intros s2 Hs2 K2.
    rewrite Hn, (valid_in_chain top (ge_top _ _ _ _ G)) by done. wp_steps. assert (Hkl : bpc * (Z.of_nat k + 1) <= bpc * zlen l) by (apply lookup_lt_Some in Hk; unfold zlen; apply Z.mul_le_mono_nonneg_l; lia).
    fold bpc. rewrite u64_small by lia.
    replace (bpc * Z.of_nat k + bpc) with (bpc * Z.of_nat (S k)) by lia. pose proof (fat_kept_trans _ _ _ K1 K2) as K.
    apply (IH s2 F C c l); try done; try lia; [by destruct K; lia|]. intros s3 Hs3 K3. wp_steps.
    replace (field (Z.to_nat m) (Z.to_nat off) _ ++ _) with (field (Z.to_nat left) (Z.to_nat off) (content C l)).
    + apply HQ; [done|by eapply fat_kept_trans].
    + replace (Z.to_nat left) with (Z.to_nat m + Z.to_nat (left - m))%nat by lia. rewrite field_join. do 2 f_equal. lia.
  - assert (m = left) as -> by lia. by apply HQ.
Qed.

Lemma seek_fuel_enough off : 0 <= off -> Z.of_nat (seek_fuel vol off) = off / bpc.
Proof using G. intros H. pose proof (bpc_pos _ _ _ _ G). unfold seek_fuel. fold bpc. rewrite Z2Nat.id; [done|]. apply Z.div_pos; lia. Qed.
Lemma copy_fuel_enough start size : 0 <= start < bpc -> 0 <= size -> start + size <= bpc * Z.of_nat (copy_fuel vol size).
Proof using G.
  intros H1 H2. pose proof (bpc_pos _ _ _ _ G). unfold copy_fuel. fold bpc. pose proof (Z.div_pos size bpc H2 ltac:(lia)).
  pose proof (Z.div_mod size bpc ltac:(lia)). pose proof (Z.mod_pos_bound size bpc ltac:(lia)). rewrite !Nat2Z.inj_succ, Z2Nat.id by lia. nia.
Qed.
Lemma off_block off : 0 <= off -> bpc * (off / bpc) <= off < bpc * (off / bpc + 1).
Proof using G. intros H. pose proof (bpc_pos _ _ _ _ G). pose proof (Z.div_mod off bpc ltac:(lia)). pose proof (Z.mod_pos_bound off bpc ltac:(lia)). lia. Qed.

(** What is read at [off]: as many bytes as asked for, as far as the file
    goes. *)
Definition read_length (n : fnode) (off size : Z) : Z := Z.max 0 (Z.min size (fn_size n - off)).

Lemma wp_fat32_read s F C n l off size :
  shows s F C -> (2 <= fa_pool s)%nat -> fchain top F (fn_inode n) l -> fn_vol n = true -> is_dir n = false ->
  0 <= off < 2 ^ 63 -> 0 < size < 2 ^ 31 -> (off < fn_size n -> off + read_length n off size <= bpc * zlen l) ->
  wp (fat32_read dev stale vol n off size)
    (fun r s' => r = (read_length n off size, field (Z.to_nat (read_length n off size)) (Z.to_nat off) (content C l)) /\ shows s' F C /\ kept s s') s.
Proof using G.
  intros Hs Hp Hc Hvol Hd Hoff Hsize Hfs. pose proof (bpc_pos _ _ _ _ G) as Hbp. pose proof (chain_bytes _ _ _ Hc) as Hcb.
  unfold fat32_read, has_volume. rewrite Hvol, Hd. wp_steps. cbn [negb andb]. destruct (Z.leb_spec (fn_size n) off) as [Hge|Hlt].
  { wp_steps. replace (read_length n off size) with 0 by (unfold read_length; lia). split_and!; [done|done|by apply fat_kept_refl]. }
  rewrite (u64_small (off + size)) by lia. set (size' := if fn_size n <? off + size then _ else _).
  assert (Es : size' = read_length n off size).
  { unfold size', read_length. destruct (Z.ltb_spec (fn_size n) (off + size)); [rewrite u32_small by lia|]; lia. }
  rewrite Es. set (m := read_length n off size) in *. assert (Hm : 0 < m < 2 ^ 31 /\ off + m <= bpc * zlen l) by (split; [unfold m, read_length; lia|by apply Hfs]).
  clearbody m. pose proof (off_block off ltac:(lia)) as Hob. pose proof (seek_fuel_enough off ltac:(lia)) as Hsf.
  pose proof (Z.div_pos off bpc ltac:(lia) ltac:(lia)). set (k := Z.to_nat (off / bpc)) in *. assert (Ek : Z.of_nat k = off / bpc) by lia.
  assert (Hkl : (k < length l)%nat) by (unfold zlen in *; nia). wp_steps.
  destruct l as [|z l]; [cbn in Hkl; lia|]. pose proof Hc as (Ez & _ & _). subst z.
  assert (E0 : 0 = bpc * Z.of_nat 0) by lia. rewrite E0 at 1. clear E0.
  eapply (wp_seek_read _ s F C (fn_inode n) (fn_inode n :: l) off 0 (fn_inode n) k); try done; try lia.
  intros s1 y Hy Hs1 K1. wp_steps. apply wp_f_pool_alloc; [fold bpc; lia|destruct K1; lia|]. cbn [negb fst snd]. wp_steps.
  set (s2 := set_fa_pool (pred (fa_pool s1)) s1). assert (Hs2 : shows s2 F C) by exact Hs1.
  eapply (wp_read_loop _ s2 F C (fn_inode n) (fn_inode n :: l) off m k y); try done; try lia.
  - cbn. destruct K1. lia.
  - apply copy_fuel_enough; lia.
  - intros s3 Hs3 K3. wp_steps. apply wp_f_pool_free; [fold bpc; lia|]. wp_steps.
    pose proof (content_length C _ bpc (chain_sizes s F C _ _ Hs Hc)) as Hcl.
    assert (Hfl : zlen (field (Z.to_nat m) (Z.to_nat off) (content C (fn_inode n :: l))) = m) by (unfold zlen in *; rewrite field_length; lia).
    rewrite Hfl, s32_small by lia. split_and!; [done|done|]. unfold kept in *. cbn in *. destruct K1 as (? & ? & ?), K3 as (? & ? & ?). split_and!; [lia|congruence..].
Qed.

(** C31: Reading a file returns the bytes of its chain at the offset, cut at the
    file's size, changes nothing and gives its buffers back. *)
Theorem fat32_read_correct s F C n l off size :
  shows s F C -> (2 <= fa_pool s)%nat -> fchain top F (fn_inode n) l -> fn_vol n = true -> is_dir n = false ->
  0 <= off < 2 ^ 63 -> 0 < size < 2 ^ 31 -> (off < fn_size n -> off + read_length n off size <= bpc * zlen l) ->
  wp (fat32_read dev stale vol n off size)
    (fun r s' => r = (read_length n off size, field (Z.to_nat (read_length n off size)) (Z.to_nat off) (content C l)) /\ shows s' F C /\ kept s s') s.
Proof using G. apply wp_fat32_read. Qed.

(** ** Writing *)

(** The chain of [c], until now [l], has been extended by the first [n] free
    clusters. *)
Definition extended (F : Z -> Z) (l : list Z) (n : nat) : list Z := l ++ take n (free_list top F).
Definition grew (c : Z) (F : Z -> Z) (l : list Z) (n : nat) (F' : Z -> Z) : Prop :=
  (n <= length (free_list top F))%nat /\ fchain top F' c (extended F l n) /\ free_list top F' = drop n (free_list top F) /\
  (forall y, y ∉ extended F l n -> F' y = F y).

Lemma grew_refl c F l : fchain top F c l -> grew c F l 0 F.
Proof using. intros H. unfold grew, extended. rewrite take_0, app_nil_r, drop_0. split_and!; [lia|done..]. Qed.
Lemma extended_trans F l n F1 m : free_list top F1 = drop n (free_list top F) -> extended F1 (extended F l n) m = extended F l (n + m).
Proof using. intros E. unfold extended. by rewrite E, <- app_assoc, take_take_drop. Qed.
Lemma grew_trans c F l n F1 m F2 : grew c F l n F1 -> grew c F1 (extended F l n) m F2 -> grew c F l (n + m) F2.
Proof using.
  intros (H1 & H2 & H3 & H4) (K1 & K2 & K3 & K4). unfold grew. rewrite (extended_trans _ _ _ _ _ H3) in K2, K4.
  rewrite H3, length_drop in K1. split_and!; [lia|done|by rewrite K3, H3, drop_drop|].
  intros y Hy. rewrite K4 by done. apply H4. intros Hin. apply Hy. unfold extended in *. apply elem_of_app in Hin as [|Hin]; apply elem_of_app; [by left|right].
  rewrite <- take_take_drop. apply elem_of_app. by left.
Qed.
Lemma extended_lookup F l n k z : l !! k = Some z -> extended F l n !! k = Some z.
Proof using. intros H. unfold extended. rewrite lookup_app_l; [done|by eapply lookup_lt_Some]. Qed.

Lemma wp_next_grow s F C c l k z (Q : option Z -> fat D -> Prop) :
  shows s F C -> (0 < fa_pool s)%nat -> fchain top F c l -> l !! k = Some z -> (S k < length l + length (free_list top F))%nat ->
  (forall s' F' n y, shows s' F' C -> kept s s' -> grew c F l n F' -> extended F l n !! S k = Some y -> Q (Some y) s') ->
  wp (next_or_new dev stale vol z) Q s.
Proof using G.
  intros Hs Hp Hc Hk Hroom HQ. eapply (wp_next_or_new dev stale vol ss total top G _ F C c l k); [done..|]. destruct (l !! S k) as [y|] eqn:E.
  - intros s' Hs' K. apply (HQ s' F 0%nat y); [done|done|by apply grew_refl|]. by apply extended_lookup.
  - apply lookup_ge_None_1 in E. pose proof (lookup_lt_Some _ _ _ Hk). destruct (free_list top F) as [|x r] eqn:Ef; [cbn in *; lia|].
    exists x, r. split; [done|]. intros s' F' Hs' K Hc' Hf' Ho. assert (El : extended F l 1 = l ++ [x]) by (unfold extended; by rewrite Ef).
    apply (HQ s' F' 1%nat x); [done|done| |].
    + unfold grew. rewrite El, Ef. split_and!; [cbn; lia|done|by rewrite Hf'|]. intros y Hy. apply not_elem_of_app in Hy as [Hy1 Hy2].
      apply Ho; [intros ->; apply Hy2; by left|intros ->; apply Hy1; by eapply list_elem_of_lookup_2].
    + rewrite El, lookup_app_r by lia. by replace (S k - length l)%nat with 0%nat by lia.
Qed.

Lemma wp_seek_write fuel : forall s F C c l off j z k (Q : option (Z * Z) -> fat D -> Prop),
  shows s F C -> (0 < fa_pool s)%nat -> fchain top F c l -> l !! j = Some z -> bpc * Z.of_nat k <= off < bpc * (Z.of_nat k + 1) ->
  (j <= k < length l + length (free_list top F))%nat -> (k - j <= fuel)%nat ->
  (forall s' F' n y, shows s' F' C -> kept s s' -> grew c F l n F' -> extended F l n !! k = Some y -> Q (Some (y, bpc * Z.of_nat k)) s') ->
  wp (seek_write dev stale vol fuel off z (bpc * Z.of_nat j)) Q s.
Proof using G.
  induction fuel as [|fuel IH]; intros s F C c l off j z k Q Hs Hp Hc Hj Hoff Hk Hf HQ; pose proof (bpc_pos _ _ _ _ G) as Hbp;
    pose proof (chain_short F c l Hc) as Hsh; pose proof (ge_top _ _ _ _ G) as Htop; unfold FAT32_BAD_CLUSTER, zlen in *;
    pose proof (lookup_lt_Some _ _ _ Hj) as Hjl; cbn [seek_write]; fold bpc; rewrite (u64_small (bpc * Z.of_nat j + bpc)) by nia.
  - assert (k = j) as -> by lia. rewrite (proj2 (Z.leb_gt _ _)) by lia. wp_steps.
    apply (HQ s F 0%nat); [done|apply fat_kept_refl|by apply grew_refl|by apply extended_lookup].
  - destruct (decide (k = j)) as [->|Hne].
    { rewrite (proj2 (Z.leb_gt _ _)) by lia. wp_steps. apply (HQ s F 0%nat); [done|apply fat_kept_refl|by apply grew_refl|by apply extended_lookup]. }
    rewrite (proj2 (Z.leb_le _ _)) by nia. wp_steps. apply (wp_next_grow s F C c l j); [done..|lia|]. intros s1 F1 n y Hs1 K1 Hg Hy.
    replace (bpc * Z.of_nat j + bpc) with (bpc * Z.of_nat (S j)) by lia. pose proof Hg as (G1 & G2 & G3 & G4).
    apply (IH s1 F1 C c (extended F l n) off (S j) y k); try done; try lia.
    + by destruct K1; lia.
    + rewrite G3, length_drop. unfold extended. rewrite length_app, length_take. lia.
    + intros s2 F2 m y2 Hs2 K2 Hg2 Hy2. rewrite (extended_trans _ _ _ _ _ G3) in Hy2.
      apply (HQ s2 F2 (n + m)%nat y2); [done|by eapply fat_kept_trans|by eapply grew_trans|done].
Qed.

(** The result of writing [src] at [off] into the chain of [c]. *)
Definition wrote (c : Z) (F : Z -> Z) (C : Z -> list Z) (l : list Z) (off : Z) (src : list Z) (n : nat) (F' : Z -> Z) (C' : Z -> list Z) : Prop :=
  grew c F l n F' /\ content C' (extended F l n) = put (Z.to_nat off) src (content C (extended F l n)) /\
  (forall y, y ∉ extended F l n -> C' y = C y).

Lemma wp_write_loop fuel : forall s F C c l off src k z (Q : Z -> fat D -> Prop),
  shows s F C -> (0 < fa_pool s)%nat -> fchain top F c l -> l !! k = Some z -> bpc * Z.of_nat k <= off < bpc * (Z.of_nat k + 1) ->
  off + zlen src <= bpc * (zlen l + zlen (free_list top F)) -> off - bpc * Z.of_nat k + zlen src <= bpc * Z.of_nat fuel ->
  (forall s' F' C' n, shows s' F' C' -> kept s s' -> wrote c F C l off src n F' C' -> Q (zlen src) s') ->
  wp (write_loop dev stale vol fuel off src z (bpc * Z.of_nat k)) Q s.
Proof using G.
  induction fuel as [|fuel IH]; intros s F C c l off src k z Q Hs Hp Hc Hk Hoff Hend Hf HQ;
    pose proof (bpc_pos _ _ _ _ G) as Hbp; cbn [write_loop]; destruct (Z.ltb_spec 0 (zlen src)) as [Hl|Hl];
    try (assert (src = []) as -> by (apply nil_length_inv; unfold zlen in *; lia); wp_steps; apply (HQ s F C 0%nat);
      [done|apply fat_kept_refl|unfold wrote; split_and!; [by apply grew_refl|by rewrite put_nil|done]]); [nia|].
  assert (Hz : z ∈ l) by by eapply list_elem_of_lookup_2. pose proof (fchain_valid _ _ _ _ _ Hc Hz) as Hv.
  wp_steps. eapply (wp_read_cluster dev stale vol ss total top G); [done..|]. intros s1 Hs1 K1. rewrite piece_spec by lia. cbn [fst snd]. wp_steps.
  pose proof (shows_length _ _ _ _ _ G _ _ _ z Hs Hv) as HCz.
  set (m := Z.min (zlen src) (bpc * (Z.of_nat k + 1) - off)) in *. assert (Hm : 0 < m <= zlen src) by lia.
  assert (Hmt : zlen (take (Z.to_nat m) src) = m) by (unfold zlen in *; rewrite length_take; lia).
  apply wp_bytes_put; [lia|lia|]. wp_steps. set (b := put _ _ _).
  assert (Hb : zlen b = bpc) by (unfold b, zlen in *; rewrite put_length; lia).
  eapply (wp_write_cluster dev vol ss total top G); [done|done|done|]. intros s2 Hs2 K2.
  cbn [negb]. pose proof (fat_kept_trans _ _ _ K1 K2) as K. wp_steps.
  set (C1 := upd_at C z b) in *.
  assert (Hput : forall n F', grew c F l n F' ->
    content C1 (extended F l n) = put (Z.to_nat off) (take (Z.to_nat m) src) (content C (extended F l n)) /\ (forall y, y ∉ extended F l n -> C1 y = C y)).
  { intros n F' (_ & Hc' & _). split.
    - replace off with (bpc * Z.of_nat k + (off - bpc * Z.of_nat k)) at 1 by lia. unfold C1, b. apply content_put; [lia| | | |lia|lia].
      + intros x Hx. eapply shows_length; [exact G|exact Hs|]. by eapply fchain_valid.
      + by eapply (fchain_nodup top (ge_top _ _ _ _ G)).
      + by apply extended_lookup.
    - intros y Hy. apply upd_at_ne. intros ->. apply Hy. unfold extended. apply elem_of_app. by left. }
  destruct (Z.ltb_spec m (zlen src)) as [Hml|Hml].
  - assert (Em : m = bpc * (Z.of_nat k + 1) - off) by lia. assert (Hkl : Z.of_nat k + 1 < zlen l + zlen (free_list top F)) by nia. wp_steps.
    apply (wp_next_grow s2 F C1 c l k); [done|by destruct K; lia|done|done|unfold zlen in *; lia|]. intros s3 F3 n y Hs3 K3 Hg Hy. pose proof Hg as (G1 & G2 & G3 & G4).
    pose proof (chain_bytes _ _ _ G2) as Hcb. pose proof (lookup_lt_Some _ _ _ Hy) as Hyl. fold bpc.
    assert (Hlen : zlen (extended F l n) + zlen (free_list top F3) = zlen l + zlen (free_list top F)).
    { rewrite G3. unfold extended, zlen. rewrite length_app, length_take, length_drop. lia. }
    rewrite u64_small by (unfold zlen in Hcb; nia). replace (bpc * Z.of_nat k + bpc) with (bpc * Z.of_nat (S k)) by lia. wp_steps.
    assert (Hdl : zlen (drop (Z.to_nat m) src) = zlen src - m) by (unfold zlen in *; rewrite length_drop; lia).
    apply (IH s3 F3 C1 c (extended F l n)); try done; try lia; [by destruct K, K3; lia|].
    intros s4 F4 C4 n4 Hs4 K4 (W1 & W2 & W3). wp_steps. rewrite Hdl. replace (m + (zlen src - m)) with (zlen src) by lia.
    rewrite (extended_trans _ _ _ _ _ G3) in W2, W3. pose proof (grew_trans _ _ _ _ _ _ _ Hg W1) as Hg4. destruct (Hput _ _ Hg4) as [P1 P2].
    apply (HQ s4 F4 C4 (n + n4)%nat); [done|by do 2 (eapply fat_kept_trans; [done|])|]. unfold wrote. split_and!; [done| |].
    + rewrite W2, P1. replace (Z.to_nat (off + m)) with (Z.to_nat off + length (take (Z.to_nat m) src))%nat by (unfold zlen in Hmt; lia).
      rewrite put_put, take_drop; [done|]. destruct Hg4 as (_ & Hc4 & _).
      assert (Hcl : zlen (content C (extended F l (n + n4))) = bpc * zlen (extended F l (n + n4))).
      { apply content_length. intros x Hx. eapply shows_length; [exact G|exact Hs|]. by eapply fchain_valid. }
      pose proof (lookup_lt_Some _ _ _ (extended_lookup F l (n + n4) k z Hk)). unfold zlen in Hcl. nia.
    + intros y0 Hy0. rewrite W3 by done. by apply P2.
  - wp_steps. assert (m = zlen src) as -> by lia. apply (HQ s2 F C1 0%nat); [done|done|]. destruct (Hput 0%nat F (grew_refl c F l Hc)) as [P1 P2].
    unfold wrote. split_and!; [by apply grew_refl| |done]. rewrite P1. f_equal. apply take_ge. unfold zlen. lia.
Qed.

(** The chain of a file; one without clusters has first cluster 0. *)
Definition file_chain (F : Z -> Z) (inode : Z) (l : list Z) : Prop :=
  if decide (inode = 0) then l = [] else valid top inode /\ fchain top F inode l.

Definition grown_node (n : fnode) (c size : Z) : fnode := set_fn_size (Z.max (fn_size n) size) (set_fn_inode c n).

Lemma wp_write_chain s F C n l off src (Q : Z * fnode -> fat D -> Prop) :
  shows s F C -> (2 <= fa_pool s)%nat -> valid top (fn_inode n) -> fchain top F (fn_inode n) l -> 0 <= off -> 0 < zlen src < 2 ^ 31 ->
  off + zlen src <= bpc * (zlen l + zlen (free_list top F)) ->
  (forall s' F' C' k, shows s' F' C' -> kept s s' -> wrote (fn_inode n) F C l off src k F' C' ->
     Q (zlen src, grown_node n (fn_inode n) (off + zlen src)) s') ->
  wp (c <-- seek_write dev stale vol (seek_fuel vol off) off (fn_inode n) 0 ;;
      match c with
      | None => kret (0, n)
      | Some c =>
          ok <-- f_pool_alloc (bytes_per_cluster vol) ;;
          if negb ok then kret (-1, n) else
          k <-- write_loop dev stale vol (copy_fuel vol (zlen src)) off src c.1 c.2 ;;
          f_pool_free (bytes_per_cluster vol) ;;;
          kret (s32 k, if fn_size n <? u64 (off + k) then set_fn_size (u64 (off + k)) n else n)
      end) Q s.
Proof using G.
  intros Hs Hp Hv Hc Hoff Hsrc Hroom HQ. pose proof (bpc_pos _ _ _ _ G) as Hbp. pose proof (chain_bytes _ _ _ Hc) as Hcb.
  pose proof (off_block off ltac:(lia)) as Hob. pose proof (seek_fuel_enough off ltac:(lia)) as Hsf. pose proof (Z.div_pos off bpc ltac:(lia) ltac:(lia)).
  set (k := Z.to_nat (off / bpc)) in *. assert (Ek : Z.of_nat k = off / bpc) by lia.
  assert (Hkl : (k < length l + length (free_list top F))%nat) by (unfold zlen in *; nia).
  destruct l as [|z l]; [cbn in Hc; by rewrite (valid_in_chain top (ge_top _ _ _ _ G)) in Hc|].
  pose proof Hc as (Ez & _ & _). subst z.
  assert (E0 : 0 = bpc * Z.of_nat 0) by lia. rewrite E0 at 1. clear E0. wp_steps.
  apply (wp_seek_write _ s F C (fn_inode n) (fn_inode n :: l) off 0 (fn_inode n) k); try done; try lia.
  intros s1 F1 m y Hs1 K1 Hg Hy. wp_steps. apply wp_f_pool_alloc; [fold bpc; lia|destruct K1; lia|]. cbn [negb fst snd]. wp_steps.
  set (s2 := set_fa_pool (pred (fa_pool s1)) s1). assert (Hs2 : shows s2 F1 C) by exact Hs1. pose proof Hg as (G1 & G2 & G3 & G4).
  assert (Hlen : zlen (extended F (fn_inode n :: l) m) + zlen (free_list top F1) = zlen (fn_inode n :: l) + zlen (free_list top F)).
  { rewrite G3. unfold extended, zlen. rewrite length_app, length_take, length_drop. lia. }
  eapply (wp_write_loop _ s2 F1 C (fn_inode n) (extended F (fn_inode n :: l) m) off src k y); try done; try lia.
  - cbn. destruct K1. lia.
  - apply copy_fuel_enough; lia.
  - intros s3 F3 C3 m3 Hs3 K3 (W1 & W2 & W3). wp_steps. apply wp_f_pool_free; [fold bpc; lia|]. wp_steps.
    rewrite (extended_trans _ _ _ _ _ G3) in W2, W3. pose proof (grew_trans _ _ _ _ _ _ _ Hg W1) as Hg3.
    pose proof (chain_bytes _ _ _ (proj1 (proj2 Hg3))) as Hcb3.
    assert (Hoff3 : off + zlen src < 2 ^ 49).
    { pose proof (free_short F). pose proof (chain_short _ _ _ Hc). pose proof (ge_top _ _ _ _ G). unfold FAT32_BAD_CLUSTER in *. nia. }
    rewrite s32_small, u64_small by lia.
    replace (if fn_size n <? off + zlen src then set_fn_size (off + zlen src) n else n) with (grown_node n (fn_inode n) (off + zlen src)).
    + apply (HQ _ F3 C3 (m + m3)%nat); [exact Hs3| |by split_and!].
      unfold kept in *. cbn in *. destruct K1 as (? & ? & ?), K3 as (? & ? & ?). split_and!; [lia|congruence..].
    + unfold grown_node. destruct n as [? ? size ? ? ? ? ? ?]. cbn. destruct (Z.ltb_spec size (off + zlen src)); unfold set_fn_size; cbn; f_equal; lia.
Qed.

Lemma wp_fat32_write s F C n l off src :
  shows s F C -> (2 <= fa_pool s)%nat -> file_chain F (fn_inode n) l -> fn_vol n = true -> is_dir n = false ->
  0 <= off -> 0 < zlen src < 2 ^ 31 -> off + zlen src <= bpc * (zlen l + zlen (free_list top F)) ->
  wp (fat32_write dev stale vol n off src) (fun r s' => exists F' C' c k,
    r = (zlen src, grown_node n c (off + zlen src)) /\ shows s' F' C' /\ kept s s' /\ wrote c F C l off src k F' C' /\
    valid top c /\ (fn_inode n <> 0 -> c = fn_inode n)) s.
Proof using G.
  intros Hs Hp Hc Hvol Hd Hoff Hsrc Hroom. pose proof (bpc_pos _ _ _ _ G) as Hbp. unfold fat32_write, has_volume. rewrite Hvol, Hd. wp_steps.
  unfold file_chain in Hc. destruct (decide (fn_inode n = 0)) as [E|E].
  - subst l. rewrite E. change (0 =? 0) with true. cbn beta iota. destruct (free_list top F) as [|x r] eqn:Ef; [unfold zlen in Hroom; cbn in Hroom; unfold zlen in *; lia|].
    destruct (free_head _ _ _ _ Ef) as (F0 & Hx & _). pose proof Hx as [? ?]. pose proof (ge_top _ _ _ _ G) as Htop.
    wp_steps. eapply (wp_allocate dev stale vol ss total top G _ F C x r); [done|lia|done|]. intros s1 Hs1 K1.
    rewrite (proj2 (Z.eqb_neq x FAT32_BAD_CLUSTER)) by lia. wp_steps. set (F1 := upd_at F x FAT32_EOF) in *.
    assert (Hc1 : fchain top F1 x [x]) by (split_and!; [done|done|unfold F1; by rewrite upd_at_eq]).
    assert (Hf1 : free_list top F1 = r) by by eapply free_taken.
    assert (El : extended F [] 1 = [x]) by (unfold extended; by rewrite Ef).
    assert (Hg : grew x F [] 1 F1).
    { unfold grew. rewrite El, Ef. split_and!; [cbn; lia|done|by rewrite Hf1|]. intros y Hy. apply upd_at_ne. intros ->. apply Hy. by left. }
    eapply (wp_bind_inv (seek_write _ _ _ _ _ _ _)), (wp_write_chain s1 F1 C (set_fn_inode x n) [x] off src); try done.
    + destruct K1. lia.
    + rewrite Hf1. unfold zlen in *. cbn [length] in *. lia.
    + intros s2 F2 C2 k Hs2 K2 (W1 & W2 & W3). exists F2, C2, x, (1 + k)%nat.
      pose proof Hg as (_ & _ & G3 & _). rewrite <- El in W1, W2, W3. rewrite (extended_trans _ _ _ _ _ G3) in W2, W3.
      split_and!; [done|done|by eapply fat_kept_trans| |done|done]. split_and!; [|done|done]. by eapply grew_trans.
  - destruct Hc as [Hv Hc]. rewrite (proj2 (Z.eqb_neq _ _) E). wp_steps. eapply (wp_bind_inv (seek_write _ _ _ _ _ _ _)), (wp_write_chain s F C n l off src); try done.
    intros s' F' C' k Hs' K W. by exists F', C', (fn_inode n), k.
Qed.

(** C30: Writing a file: if the bytes fit into its chain and the free clusters, all
    of them are stored at the offset, the chain grows by the first free
    clusters, and no other cluster's entry or data changes, so no other file
    or directory does. *)
Theorem fat32_write_correct s F C n l off src :
  shows s F C -> (2 <= fa_pool s)%nat -> file_chain F (fn_inode n) l -> fn_vol n = true -> is_dir n = false ->
  0 <= off -> 0 < zlen src < 2 ^ 31 -> off + zlen src <= bpc * (zlen l + zlen (free_list top F)) ->
  wp (fat32_write dev stale vol n off src) (fun r s' => exists F' C' c k,
    r = (zlen src, grown_node n c (off + zlen src)) /\ shows s' F' C' /\ kept s s' /\ wrote c F C l off src k F' C' /\
    valid top c /\ (fn_inode n <> 0 -> c = fn_inode n)) s.
Proof using G. apply wp_fat32_write. Qed.

End files.

(** ** A file as a driver of the page cache *)

(** The volume and the first cluster of the open file. *)
Record ffile (D : Type) : Type := FFile { fi_fs : fat D; fi_inode : Z }.
Arguments FFile {D}.
Arguments fi_fs {D}.
Arguments fi_inode {D}.

Section driver.
Context {D : Type} (dev : block_ops D) (stale : nat -> Z) (vol : fat32_volume) (ss total top : Z).
Context `{L : !BlockLaws dev ss total} (G : geometry vol ss total top).
Implicit Types f : ffile D.
#[local] Abbreviation shows := (FatInv.shows dev vol ss total top).
#[local] Abbreviation bpc := (FatInv.bpc vol).

Definition set_fi_fs (x : fat D) f : ffile D := FFile x (fi_inode f).
Definition file_node (inode size : Z) : fnode := FNode [] VFS_FILE size inode 0 0x1FF bpc [] true.

Definition driver_read_op (size off n : Z) : M (ffile D) (Z * list Z) :=
  f <-- kget ;; zoom fi_fs set_fi_fs (fat32_read dev stale vol (file_node (fi_inode f) size) off n).
Definition driver_write_op (size off : Z) (src : list Z) : M (ffile D) (Z * Z) :=
  f <-- kget ;;
  r <-- zoom fi_fs set_fi_fs (fat32_write dev stale vol (file_node (fi_inode f) size) off src) ;;
  kmodify (fun f' => FFile (fi_fs f') (fn_inode r.2)) ;;;
  kret (r.1, fn_size r.2).
Definition driver_flush_op : M (ffile D) Z := f <-- kget ;; zoom fi_fs set_fi_fs (fat32_flush dev (file_node (fi_inode f) 0)).
Definition fat32_driver : driver (ffile D) := Driver (Some driver_read_op) (Some driver_write_op) (Some driver_flush_op) None.

(** The chain of the file, followed in the table. *)
Fixpoint walk (F : Z -> Z) (fuel : nat) (c : Z) : list Z :=
  match fuel with
  | O => []
  | S fuel' => if in_chain c then c :: walk F fuel' (F c) else []
  end.
Definition table f : Z -> Z := fat_at dev vol ss total (fa_dev (fi_fs f)).
Definition data f : Z -> list Z := cluster_at dev vol ss total (fa_dev (fi_fs f)).
Definition file_list f : list Z := if decide (fi_inode f = 0) then [] else walk (table f) (Z.to_nat top) (fi_inode f).
Definition file_bytes f : list Z := content (data f) (file_list f).

Lemma walk_chain F l : forall c fuel, fchain top F c l -> (length l <= fuel)%nat -> walk F fuel c = l.
Proof using G.
  induction l as [|x l IH]; intros c fuel.
  - intros H _. cbn in H. destruct fuel; cbn [walk]; [done|]. by rewrite H.
  - intros (-> & Hv & Hl) Hf. destruct fuel as [|fuel]; cbn [length] in Hf; [lia|]. cbn [walk].
    rewrite (valid_in_chain top (ge_top _ _ _ _ G)) by done. f_equal. apply IH; [done|lia].
Qed.

Lemma file_list_ok f F C l : shows (fi_fs f) F C -> file_chain top F (fi_inode f) l ->
  file_list f = l /\ file_bytes f = content C l /\ free_list top (table f) = free_list top F.
Proof using G.
  intros (H1 & H2 & H3) Hc. assert (El : file_list f = l).
  { unfold file_list, file_chain in *. destruct (decide _); [done|]. destruct Hc as [Hv Hc]. apply walk_chain.
    - eapply fchain_ext; [exact Hc|]. intros x Hx. apply H3. by eapply fchain_valid.
    - pose proof (chain_short _ _ _ _ G _ _ _ Hc). pose proof (ge_top _ _ _ _ G). unfold zlen in *. lia. }
  split_and!; [done| |].
  - unfold file_bytes. rewrite El. apply content_ext. intros x Hx. apply H3. unfold file_chain in Hc. destruct (decide _); [subst; by apply elem_of_nil in Hx|].
    destruct Hc as [_ Hc]. by eapply fchain_valid.
  - unfold free_list. apply filter_ext_elem. intros x Hx%elem_of_seqZ. destruct (H3 x) as [E _]; [unfold valid; lia|]. unfold table. by rewrite E.
Qed.

Definition fat_stored f (i : Z) : option Z := if 0 <=? i then file_bytes f !! Z.to_nat i else None.
Definition fat_ok f : Prop :=
  shows (fi_fs f) (table f) (data f) /\ (2 <= fa_pool (fi_fs f))%nat /\ file_chain top (table f) (fi_inode f) (file_list f).
Definition fat_room f : Z := bpc * (zlen (file_list f) + zlen (free_list top (table f))).

Lemma fat_ok_intro f F C l : shows (fi_fs f) F C -> (2 <= fa_pool (fi_fs f))%nat -> file_chain top F (fi_inode f) l -> fat_ok f.
Proof using G.
  intros Hs Hp Hc. destruct (file_list_ok f F C l Hs Hc) as (El & _ & _). pose proof Hs as (H1 & H2 & H3). split_and!; [|done|].
  - split_and!; [done|apply H2|apply H2|]. done.
  - rewrite El. unfold file_chain in *. destruct (decide _); [done|]. destruct Hc as [Hv Hc]. split; [done|].
    eapply fchain_ext; [exact Hc|]. intros x Hx. apply H3. by eapply fchain_valid.
Qed.

Lemma fat_same f f' : fat_ok f -> fi_inode f' = fi_inode f -> shows (fi_fs f') (table f) (data f) -> kept (fi_fs f) (fi_fs f') ->
  fat_ok f' /\ fat_room f' = fat_room f /\ forall i, fat_stored f' i = fat_stored f i.
Proof using G.
  intros (Hs & Hp & Hc) E Hs' (K & _). rewrite <- E in Hc. destruct (file_list_ok f' _ _ _ Hs' Hc) as (E1 & E2 & E3). split_and!.
  - eapply fat_ok_intro; [done|lia|done].
  - unfold fat_room. by rewrite E1, E3.
  - intros i. unfold fat_stored. rewrite E2. done.
Qed.

Lemma file_bytes_length f : fat_ok f -> zlen (file_bytes f) = bpc * zlen (file_list f).
Proof using G.
  intros (Hs & _ & Hc). apply content_length. intros x Hx. unfold file_chain in Hc. destruct (decide _); [rewrite Hc in Hx; by apply elem_of_nil in Hx|].
  destruct Hc as [_ Hc]. eapply shows_length; [done|done|]. by eapply fchain_valid.
Qed.

Lemma stored_bound f i : fat_ok f -> is_Some (fat_stored f i) -> 0 <= i < bpc * zlen (file_list f).
Proof using G.
  intros Hok. unfold fat_stored. destruct (Z.leb_spec 0 i); [|by intros [??]]. intros Hlt%lookup_lt_is_Some.
  pose proof (file_bytes_length f Hok). unfold zlen in *. lia.
Qed.

Lemma driver_read f size off n : fat_ok f -> 0 <= off -> 0 < n < 2 ^ 31 -> off + n <= size ->
  (forall i, off <= i < off + n -> is_Some (fat_stored f i)) ->
  wp (fat32_read dev stale vol (file_node (fi_inode f) size) off n)
    (fun r s' => r = (n, field (Z.to_nat n) (Z.to_nat off) (file_bytes f)) /\ shows s' (table f) (data f) /\ kept (fi_fs f) s') (fi_fs f).
Proof using G.
  intros Hok Hoff Hn Hsize Hst. pose proof Hok as (Hs & Hp & Hc). pose proof (bpc_pos _ _ _ _ G) as Hbp.
  pose proof (stored_bound f _ Hok (Hst (off + n - 1) ltac:(lia))) as Hb. unfold file_chain in Hc. destruct (decide _) as [E|E].
  { rewrite Hc in Hb. unfold zlen in Hb. cbn in Hb. lia. }
  destruct Hc as [Hv Hc]. pose proof (chain_bytes _ _ _ _ G _ _ _ Hc) as Hcb. assert (Er : read_length (file_node (fi_inode f) size) off n = n) by (unfold read_length; cbn; lia).
  eapply wp_mono; [apply (wp_fat32_read dev stale vol ss total top G (fi_fs f) (table f) (data f) (file_node (fi_inode f) size) (file_list f) off n); try done|].
  - lia.
  - rewrite Er. lia.
  - intros r s' (-> & Hs' & K). by rewrite Er.
Qed.

Lemma driver_write f size off src : fat_ok f -> 0 <= off -> 0 < zlen src < 2 ^ 31 -> off + zlen src <= fat_room f ->
  wp (driver_write_op size off src) (fun r f' => fat_ok f' /\ fat_room f' = fat_room f /\ r.1 = zlen src /\
     (r.2 = size \/ r.2 = Z.max size (off + zlen src)) /\
     (forall i, off <= i < off + zlen src -> fat_stored f' i = src !! Z.to_nat (i - off)) /\
     (forall i b, ~ (off <= i < off + zlen src) -> fat_stored f i = Some b -> fat_stored f' i = Some b)) f.
Proof using G.
  intros Hok Hoff Hsrc Hroom. pose proof Hok as (Hs & Hp & Hc). unfold driver_write_op. wp_steps. pose proof (bpc_pos _ _ _ _ G) as Hbp.
  eapply wp_mono; [by apply (wp_fat32_write dev stale vol ss total top G (fi_fs f) (table f) (data f) (file_node (fi_inode f) size) (file_list f) off src)|].
  intros r s' (F' & C' & c & k & -> & Hs' & K & (Hg & Hd & Ho) & Hvc & Hin). wp_steps. cbn [fst snd fn_inode fn_size grown_node set_fn_size set_fn_inode file_node].
  set (f' := FFile s' c). change (FFile (fi_fs (set_fi_fs s' f)) c) with f'. pose proof Hg as (G1 & G2 & G3 & G4).
  assert (Hc' : file_chain top F' (fi_inode f') (extended top (table f) (file_list f) k)).
  { unfold file_chain. rewrite decide_False by (cbn; destruct Hvc; lia). by split. }
  destruct (file_list_ok f' F' C' _ Hs' Hc') as (E1 & E2 & E3).
  assert (Hok' : fat_ok f') by (eapply fat_ok_intro; [done|destruct K as (K & _); cbn; lia|done]).
  assert (Hlen : zlen (file_list f') = zlen (file_list f) + Z.of_nat k) by (rewrite E1; unfold extended, zlen; rewrite length_app, length_take; lia).
  assert (Hold : content (data f) (extended top (table f) (file_list f) k) = file_bytes f ++ content (data f) (take k (free_list top (table f)))).
  { unfold extended. by rewrite content_app. }
  assert (Hol : zlen (content (data f) (extended top (table f) (file_list f) k)) = bpc * zlen (extended top (table f) (file_list f) k)).
  { apply content_length. intros x Hx. eapply shows_length; [exact G|exact Hs|]. by eapply fchain_valid. }
  pose proof (file_bytes_length f' Hok') as Hfl. rewrite E2, Hd in Hfl.
  assert (Hfit : (Z.to_nat off + length src <= length (content (data f) (extended top (table f) (file_list f) k)))%nat).
  { rewrite E1 in Hfl. unfold put in Hfl. unfold zlen in *. rewrite !length_app, length_take, length_drop in Hfl. lia. }
  split_and!.
  - done.
  - unfold fat_room. f_equal. rewrite Hlen, E3, G3. unfold zlen. rewrite length_drop. lia.
  - done.
  - right. done.
  - intros i Hi. unfold fat_stored. rewrite (proj2 (Z.leb_le _ _)) by lia. rewrite E2, Hd, put_lookup by done.
    unfold zlen in *. rewrite decide_True by lia. f_equal. lia.
  - intros i b Hi Hst. pose proof (stored_bound f i Hok ltac:(by eexists)) as Hib. unfold fat_stored in *. rewrite (proj2 (Z.leb_le _ _)) in * by lia.
    rewrite E2, Hd, put_lookup by done. unfold zlen in *. rewrite decide_False by lia. rewrite Hold. rewrite lookup_app_l; [done|].
    by eapply lookup_lt_Some.
Qed.

Lemma driver_flush f : fat_ok f -> wp driver_flush_op
  (fun r f' => r = 0 /\ fat_ok f' /\ fat_room f' = fat_room f /\ forall i, fat_stored f' i = fat_stored f i) f.
Proof using G.
  intros Hok. pose proof Hok as (Hs & Hp & Hc). unfold driver_flush_op, fat32_flush. wp_steps. cbn [fn_vol file_node negb]. destruct (bo_ioctl dev) as [io|] eqn:Eio.
  - wp_steps. destruct Hs as (H1 & [H2 H2'] & H3). eapply wp_mono; [by apply (bl_ioctl io)|]. intros r d' (K1 & K2 & K3). destruct (K2 H2) as [K4 ->].
    wp_steps. split; [done|]. apply (fat_same f); [done|done| |done]. eapply shows_same; [exact G|split_and!; done|done|done|]. intros y _. apply K3.
  - wp_steps. split; [done|]. apply (fat_same f); [done|by destruct f|exact Hs|done].
Qed.

Lemma driver_read_file f size off n : fat_ok f -> 0 <= off -> 0 < n < 2 ^ 31 -> off + n <= size ->
  (forall i, off <= i < off + n -> is_Some (fat_stored f i)) ->
  wp (driver_read_op size off n) (fun r f' => (fat_ok f' /\ fat_room f' = fat_room f /\ forall i, fat_stored f' i = fat_stored f i) /\
     r.1 = n /\ zlen r.2 = n /\ forall i, 0 <= i < n -> r.2 !! Z.to_nat i = fat_stored f (off + i)) f.
Proof using G.
  intros Hok Hoff Hn Hsize Hst. unfold driver_read_op. wp_steps. eapply wp_mono; [by apply driver_read|]. intros r s' (-> & Hs' & K).
  pose proof (fat_same f (set_fi_fs s' f) Hok eq_refl Hs' K) as Hsame. cbn [fst snd].
  pose proof (stored_bound f _ Hok (Hst (off + n - 1) ltac:(lia))) as Hb. pose proof (file_bytes_length f Hok) as Hl. unfold zlen in *.
  split_and!; [apply Hsame|apply Hsame|apply Hsame|done|rewrite field_length; lia|].
  intros i Hi. rewrite field_lookup by lia. unfold fat_stored. rewrite (proj2 (Z.leb_le _ _)) by lia. f_equal. lia.
Qed.
Lemma driver_flush_file g f : op_flush fat32_driver = Some g -> fat_ok f ->
  wp g (fun r f' => r = 0 /\ fat_ok f' /\ fat_room f' = fat_room f /\ forall i, fat_stored f' i = fat_stored f i) f.
Proof using G. intros [= <-]. apply driver_flush. Qed.
Lemma driver_close_file g f : op_close fat32_driver = Some g -> fat_ok f ->
  wp g (fun _ f' => fat_ok f' /\ fat_room f' = fat_room f /\ forall i, fat_stored f' i = fat_stored f i) f.
Proof using . done. Qed.

#[export] Instance fat32_laws : DriverLaws fat32_driver :=
  @Build_DriverLaws _ fat32_driver driver_read_op driver_write_op fat_stored fat_ok fat_room eq_refl eq_refl
    driver_read_file driver_write driver_flush_file driver_close_file.

(** C32: Writing a file of the volume through the page cache.  For a write of less
    than 2^31 bytes that begins inside the file or at its end, fits in the
    clusters of its chain and the free clusters of the volume ([fat_room]), and
    with memory for four cache allocations, from a cache that is in order: after
    the flush the clusters of the file on the disk hold the written bytes at the
    offset and the file's old bytes everywhere else.  (Beyond these conditions
    the findings on [vfs.c] apply: a write behind the end, and one that finds no
    room, report success.) *)
Theorem fat32_cached_write c offset src :
  cache_ok fat32_driver c -> Z.land (c_flags c) VFS_DIRECTORY_FLAG = 0 -> 0 <= offset <= c_size c ->
  0 < zlen src < 2 ^ 31 -> offset + zlen src <= fat_room (c_dev c) -> (4 <= c_mem c)%nat ->
  wp (vfs_write fat32_driver offset src ;;; vfs_flush fat32_driver)
    (fun r c' => r = 0 /\ fat_ok (c_dev c') /\ c_size c' = Z.max (c_size c) (offset + zlen src) /\
       forall i, 0 <= i < c_size c' -> file_bytes (c_dev c') !! Z.to_nat i = rewritten fat32_driver c offset src i) c.
Proof using G.
  intros Hok Hfl Ho Hs Hroom Hmem. wp_steps. eapply wp_mono; [exact (wp_vfs_write fat32_driver c offset src Hok Hfl Ho Hs Hroom Hmem)|]. cbn beta. intros _ c1 (_ & Hw). wp_steps.
  eapply wp_mono; [apply wp_vfs_flush, Hw|]. cbn beta. intros r c2 (-> & Hsf & _ & Hst). pose proof (sf_size _ _ _ Hsf) as Esz. rewrite (wr_size _ _ _ _ _ Hw) in Esz.
  split_and!; [done|exact (ck_dev _ _ (sf_ok _ _ _ Hsf))|done|]. intros i Hi. rewrite <- (wr_view _ _ _ _ _ Hw), <- Hst by (rewrite (wr_size _ _ _ _ _ Hw); lia).
  change (stored (c_dev c2) i) with (fat_stored (c_dev c2) i). unfold fat_stored. by rewrite (proj2 (Z.leb_le _ _)) by lia.
Qed.

End driver.
