(* ===== verification/FatDir.v ===== *)
(** * FAT32: directories

    A directory as the list of the files in it ([listing]), which the scan of
    [readdir] and [finddir] computes.  [FatLook] says what this list is by the
    format of the entries. *)

From Stdlib Require Import ZArith Lia.
From stdpp Require Import base tactics list list_numbers.
From S2P Require Import Prelude Bytes Ramfs Fat FatInv FatChain FatFile.

(** ** The files of a directory *)

Definition drop_name (s : scan) : scan := Scan (sc_index s) (sc_lfn s) (sc_sum s) false.
Definition count_name (s : scan) : scan := Scan (u32 (sc_index s + 1)) (sc_lfn s) (sc_sum s) false.

(** The scan over a list of entries. *)
Fixpoint scan_list (es : list (list Z)) (index : Z) (out : fnode) (s : scan) : scanned :=
  match es with
  | [] => ScanMore s
  | e :: es' =>
      if e_first e =? 0 then ScanEnd
      else if e_first e =? 0xE5 then scan_list es' index out (drop_name s)
      else if e_attr e =? 0x0F then scan_list es' index out (lfn_step e s)
      else if Z.testbit (e_attr e) 3 then scan_list es' index out (drop_name s)
      else if sc_index s =? index then ScanFound (entry_node e (entry_name e s) out)
      else scan_list es' index out (count_name s)
  end.

(** The files of a list of entries, in order. *)
Fixpoint listing (es : list (list Z)) (s : scan) : list fnode :=
  match es with
  | [] => []
  | e :: es' =>
      if e_first e =? 0 then []
      else if e_first e =? 0xE5 then listing es' (drop_name s)
      else if e_attr e =? 0x0F then listing es' (lfn_step e s)
      else if Z.testbit (e_attr e) 3 then listing es' (drop_name s)
      else entry_node e (entry_name e s) blank_node :: listing es' (count_name s)
  end.

Lemma scan_cluster_list buf index out n : forall i s, scan_cluster buf index out n i s = scan_list (entry buf <$> seq i n) index out s.
Proof.
  induction n as [|n IH]; intros i s; [done|]. cbn [scan_cluster seq fmap list_fmap scan_list]. rewrite !IH. done.
Qed.
Lemma scan_list_app es1 es2 index out s :
  scan_list (es1 ++ es2) index out s = match scan_list es1 index out s with ScanMore s' => scan_list es2 index out s' | r => r end.
Proof. revert s. induction es1 as [|e es1 IH]; intros s; cbn [app scan_list]; [done|].
  repeat match goal with |- context [if ?b then _ else _] => destruct b end; done || apply IH.
Qed.

(** A node that [readdir] may fill. *)
Definition blank (out : fnode) : Prop := fn_parent out = 0 /\ fn_block_size out = 0 /\ fn_pages out = [].
Lemma entry_node_blank e name out : blank out -> entry_node e name out = entry_node e name blank_node.
Proof. intros (H1 & H2 & H3). unfold entry_node. by rewrite H1, H2, H3. Qed.

Lemma lfn_step_index e s : sc_index (lfn_step e s) = sc_index s.
Proof. unfold lfn_step. repeat match goal with |- context [if ?b then _ else _] => destruct b end; done. Qed.

Lemma scan_listing es index out : forall s, blank out -> 0 <= sc_index s <= index -> index + zlen es < 2 ^ 32 ->
  match listing es s !! Z.to_nat (index - sc_index s) with
  | Some n => scan_list es index out s = ScanFound n
  | None => scan_list es index out s = ScanEnd \/ exists s', scan_list es index out s = ScanMore s'
  end.
Proof.
  induction es as [|e es IH]; intros s Hb Hi Hlen; cbn [listing scan_list].
  - cbn. right. by eexists.
  - assert (Hlen' : index + zlen es < 2 ^ 32) by (unfold zlen in *; cbn [length] in *; lia).
    destruct (e_first e =? 0); [cbn; by left|]. destruct (e_first e =? 0xE5); [exact (IH (drop_name s) Hb Hi Hlen')|].
    destruct (e_attr e =? 0x0F); [specialize (IH (lfn_step e s) Hb); rewrite lfn_step_index in IH; exact (IH Hi Hlen')|].
    destruct (Z.testbit (e_attr e) 3); [exact (IH (drop_name s) Hb Hi Hlen')|]. destruct (Z.eqb_spec (sc_index s) index) as [E|E].
    + rewrite E, Z.sub_diag. cbn. by rewrite (entry_node_blank _ _ out).
    + replace (Z.to_nat (index - sc_index s)) with (S (Z.to_nat (index - (sc_index s + 1)))) by lia. cbn [lookup list_lookup].
      specialize (IH (count_name s) Hb). cbn [count_name sc_index] in IH. unfold zlen in *. rewrite u32_small in IH by lia. apply IH; lia.
Qed.

Lemma listing_length es s : (length (listing es s) <= length es)%nat.
Proof.
  revert s. induction es as [|e es IH]; intros s; cbn [listing length]; [lia|].
  repeat match goal with |- context [if ?b then _ else _] => destruct b end; cbn [length];
    pose proof (IH (drop_name s)); pose proof (IH (lfn_step e s)); pose proof (IH (count_name s)); lia.
Qed.
Lemma listing_blank es s n : n ∈ listing es s -> blank n.
Proof.
  revert s. induction es as [|e es IH]; intros s; cbn [listing]; [by intros ?%elem_of_nil|].
  repeat match goal with |- context [if ?b then _ else _] => destruct b end; try apply IH; [by intros ?%elem_of_nil|].
  intros [->|H]%elem_of_cons; [done|by eapply IH].
Qed.

(** ** Looking up *)

Section dirs.
Context {D : Type} (dev : block_ops D) (stale : nat -> Z) (vol : fat32_volume) (ss total top : Z).
Context `{L : !BlockLaws dev ss total} (G : geometry vol ss total top).
Implicit Types s : fat D.
#[local] Abbreviation shows := (FatInv.shows dev vol ss total top).
#[local] Abbreviation bpc := (FatInv.bpc vol).

(** The entries of a chain of clusters, and the files. *)
Definition cluster_entries (b : list Z) : list (list Z) := entry b <$> seq 0 (max_entries vol).
Definition dir_entries_of (C : Z -> list Z) (l : list Z) : list (list Z) := concat (cluster_entries ∘ C <$> l).
Definition dir_listing (C : Z -> list Z) (l : list Z) : list fnode := listing (dir_entries_of C l) scan_start.

(** A pass over the clusters of a directory that only reads. *)
Fixpoint pass {A R} (g : list Z -> A -> A + R) (C : Z -> list Z) (l : list Z) (a : A) : A + R :=
  match l with
  | [] => inl a
  | x :: l' => match g (C x) a with inr r => inr r | inl a' => pass g C l' a' end
  end.

Lemma wp_each_pass {A R} (f : Z -> list Z -> A -> M (fat D) (A + R)) g : (forall sec b a, f sec b a = kret (g b a)) ->
  forall fuel l s F C c a (Q : A + R -> fat D -> Prop),
  shows s F C -> (0 < fa_pool s)%nat -> fchain top F c l -> (length l <= fuel)%nat ->
  (forall s', shows s' F C -> kept s s' -> Q (pass g C l a) s') -> wp (each_cluster dev stale vol fuel c f a) Q s.
Proof using G.
  intros Hf. induction fuel as [|fuel IH]; intros l s F C c a Q Hs Hp Hc Hl HQ.
  - destruct l; cbn [length] in Hl; [|lia]. cbn in Hc. cbn [each_cluster]. rewrite Hc. wp_steps. apply HQ; [done|apply fat_kept_refl].
  - cbn [each_cluster]. destruct l as [|x l]; [cbn in Hc; rewrite Hc; wp_steps; apply HQ; [done|apply fat_kept_refl]|].
    destruct Hc as (-> & Hv & Hc). rewrite (valid_in_chain top (ge_top _ _ _ _ G)) by done. wp_steps.
    eapply (wp_read_cluster dev stale vol ss total top G); [done..|]. intros s1 Hs1 K1. wp_steps. rewrite Hf. wp_steps. cbn [pass] in HQ.
    destruct (g (C c) a) as [a'|r]; wp_steps; [|by apply HQ]. eapply (wp_get_next dev stale vol ss total top G); [done|done|by destruct K1; lia|].
    intros s2 Hs2 K2. wp_steps. pose proof (fat_kept_trans _ _ _ K1 K2) as K. cbn [length] in Hl.
    apply (IH l s2 F C); [done|by destruct K; lia|done|lia|]. intros s3 Hs3 K3. apply HQ; [done|by eapply fat_kept_trans].
Qed.

Lemma chain_fuel_enough F c l : fchain top F c l -> (length l <= chain_fuel vol)%nat.
Proof using G.
  intros Hc. pose proof (chain_short _ _ _ _ G _ _ _ Hc) as H. pose proof (top_entries _ _ _ _ G). unfold chain_fuel. rewrite (ge_bps _ _ _ _ G).
  fold (eps ss). unfold zlen in H. lia.
Qed.

Lemma wp_with_buffer {A R} (f : Z -> list Z -> A -> M (fat D) (A + R)) g s F C c l none a last (Q : R -> fat D -> Prop) :
  (forall sec b a, f sec b a = kret (g b a)) -> shows s F C -> (2 <= fa_pool s)%nat -> fchain top F c l ->
  (forall s', shows s' F C -> kept s s' -> Q (match pass g C l a with inr x => x | inl _ => last end) s') ->
  wp (with_buffer dev stale vol c none f a last) Q s.
Proof using G.
  intros Hf Hs Hp Hc HQ. pose proof (bpc_pos _ _ _ _ G). unfold with_buffer. fold bpc. wp_steps. apply wp_f_pool_alloc; [lia|lia|]. cbn [negb]. wp_steps.
  set (s0 := set_fa_pool (pred (fa_pool s)) s). assert (Hs0 : shows s0 F C) by exact Hs.
  eapply (wp_each_pass f g Hf _ l s0 F C); [done|cbn; lia|done|by eapply chain_fuel_enough|]. intros s1 Hs1 (K1 & K2 & K3). wp_steps.
  apply wp_f_pool_free; [lia|]. wp_steps. apply HQ; [exact Hs1|]. unfold s0, set_fa_pool in *. cbn [fa_pool fa_mem fa_root] in *. unfold kept. cbn [fa_pool fa_mem fa_root]. split_and!; [lia|congruence|congruence].
Qed.

Lemma pass_scan index out C l : forall s : scan,
  pass (fun b (s : scan) => match scan_cluster b index out (max_entries vol) 0 s with
                            | ScanFound n => inr (Some n) | ScanEnd => inr None | ScanMore s' => inl s' end) C l s =
  match scan_list (dir_entries_of C l) index out s with ScanFound n => inr (Some n) | ScanEnd => inr None | ScanMore s' => inl s' end.
Proof using.
  induction l as [|x l IH]; intros s; [done|]. cbn [pass]. unfold dir_entries_of. cbn [fmap list_fmap concat]. rewrite scan_list_app, scan_cluster_list.
  change (entry (C x) <$> seq 0 (max_entries vol)) with (cluster_entries (C x)). cbn [compose]. destruct (scan_list (cluster_entries (C x)) index out s); [done|done|]. apply IH.
Qed.

Lemma wp_readdir s F C node l index out (Q : option fnode -> fat D -> Prop) :
  shows s F C -> (2 <= fa_pool s)%nat -> fn_vol node = true -> fchain top F (fn_inode node) l -> blank out ->
  0 <= index -> index + zlen (dir_entries_of C l) < 2 ^ 32 ->
  (forall s', shows s' F C -> kept s s' -> Q (dir_listing C l !! Z.to_nat index) s') ->
  wp (fat32_readdir dev stale vol node index out) Q s.
Proof using G.
  intros Hs Hp Hvol Hc Hb Hi Hlen HQ. unfold fat32_readdir, has_volume. rewrite Hvol. wp_steps.
  eapply (wp_with_buffer _ _ s F C _ l); [intros; reflexivity|done..|]. intros s' Hs' K. specialize (HQ s' Hs' K). rewrite pass_scan.
  pose proof (scan_listing (dir_entries_of C l) index out scan_start Hb) as H. cbn [sc_index scan_start] in H. rewrite Z.sub_0_r in H.
  specialize (H ltac:(lia) Hlen). unfold dir_listing in HQ. destruct (listing _ _ !! _) as [n|]; [by rewrite H|]. by destruct H as [->|[? ->]].
Qed.

(** The first file of a name. *)
Definition find_file (name : list Z) (l : list fnode) : option fnode := list_find (fun n => fn_name n = name) l ≫= fun r => Some r.2.

Lemma find_file_cons name n l : find_file name (n :: l) = if decide (fn_name n = name) then Some n else find_file name l.
Proof using. unfold find_file. cbn [list_find]. case_decide; [done|]. by destruct (list_find _ l) as [[??]|]. Qed.

Lemma wp_find_name fuel : forall s F C node l index name out (Q : option fnode -> fat D -> Prop),
  shows s F C -> (2 <= fa_pool s)%nat -> fn_vol node = true -> fchain top F (fn_inode node) l -> blank out ->
  2 * zlen (dir_entries_of C l) + 2 < 2 ^ 32 -> 0 <= index <= zlen (dir_listing C l) -> zlen (dir_listing C l) - index < Z.of_nat fuel ->
  (forall s', shows s' F C -> kept s s' -> Q (find_file name (drop (Z.to_nat index) (dir_listing C l))) s') ->
  wp (find_name dev stale vol fuel node index name out) Q s.
Proof using G.
  induction fuel as [|fuel IH]; intros s F C node l index name out Q Hs Hp Hvol Hc Hb Hlen Hi Hf HQ; [lia|]. cbn [find_name]. wp_steps.
  pose proof (listing_length (dir_entries_of C l) scan_start) as Hll. fold (dir_listing C l) in Hll. unfold zlen in *.
  eapply (wp_readdir s F C node l); [done|done|done|done|done|lia|unfold zlen; lia|]. intros s1 Hs1 K1.
  destruct (dir_listing C l !! Z.to_nat index) as [n|] eqn:E.
  - rewrite (drop_S _ _ _ E), find_file_cons in HQ. case_bool_decide as En; wp_steps; [rewrite decide_True in HQ by done; by apply HQ|].
    rewrite decide_False in HQ by done. pose proof (lookup_lt_Some _ _ _ E). rewrite u32_small by lia.
    apply (IH s1 F C node l); [done|by destruct K1; lia|done|done| |unfold zlen; lia|unfold zlen; lia|unfold zlen; lia|].
    + eapply listing_blank. by eapply list_elem_of_lookup_2.
    + intros s2 Hs2 K2. replace (Z.to_nat (index + 1)) with (S (Z.to_nat index)) by lia. apply HQ; [done|by eapply fat_kept_trans].
  - wp_steps. apply lookup_ge_None_1 in E. rewrite drop_ge in HQ by done. by apply HQ.
Qed.

Lemma wp_fat_finddir s F C dir l name (Q : option fnode -> fat D -> Prop) :
  shows s F C -> (2 <= fa_pool s)%nat -> (1 <= fa_mem s)%nat -> fn_vol dir = true -> fchain top F (fn_inode dir) l ->
  2 * zlen (dir_entries_of C l) + 2 < 2 ^ 32 ->
  (forall r s', r = find_file name (dir_listing C l) -> shows s' F C -> fa_pool s' = fa_pool s ->
     fa_mem s' = match r with Some _ => pred (fa_mem s) | None => fa_mem s end -> fa_root s' = fa_root s -> Q r s') ->
  wp (fat32_finddir dev stale vol dir name) Q s.
Proof using G.
  intros Hs Hp Hm Hvol Hc Hlen HQ. unfold fat32_finddir, f_kmalloc. wp_steps. destruct (fa_mem s) as [|m] eqn:Em; [lia|]. wp_steps. cbn [negb]. wp_steps.
  set (s0 := set_fa_mem m s). assert (Hs0 : shows s0 F C) by exact Hs.
  pose proof (listing_length (dir_entries_of C l) scan_start) as Hll. fold (dir_listing C l) in Hll.
  eapply (wp_find_name _ s0 F C dir l); [done|done|done|done|done|done|unfold zlen; lia| |].
  - assert (Hde : (length (dir_entries_of C l) <= chain_fuel vol * max_entries vol)%nat).
    { pose proof (chain_fuel_enough _ _ _ Hc). transitivity (length l * max_entries vol)%nat; [|nia]. clear. unfold dir_entries_of, cluster_entries.
      induction l as [|x l IH]; [done|]. cbn [fmap list_fmap concat length]. rewrite length_app. unfold compose at 1. rewrite length_fmap, length_seq. lia. }
    unfold zlen. lia.
  - intros s1 Hs1 (K1 & K2 & K3). cbn in K1, K2. rewrite drop_0. destruct (find_file name (dir_listing C l)) as [n|]; wp_steps; [by apply HQ|].
    unfold f_kfree. wp_steps. apply HQ; [done|exact Hs1|done|cbn; lia|done].
Qed.

End dirs.
