(* ===== verification/FatName.v ===== *)
(** * FAT32: long names

    A name stored in the entries that [add_entry] writes is read back by the
    scan of [readdir], and short names there and back. *)

From Stdlib Require Import ZArith Lia.
From stdpp Require Import base tactics list list_numbers.
From S2P Require Import Prelude Bytes Ramfs Fat FatInv FatChain FatFile FatDir.

(** A name that can be stored: the terminator and 255 cannot occur in it. *)
Definition name_byte (c : Z) : Prop := 1 <= c <= 254.
Record good_name (name : list Z) : Prop := {
  gn_bytes : Forall name_byte name;
  gn_length : (1 <= length name <= 255)%nat;
  gn_first : hd 0 name <> 0xE5
}.

(** ** Characters *)

Lemma wide_byte c : name_byte c -> wide (c mod 256) (c / 256 mod 256) <> 0 /\ wide (c mod 256) (c / 256 mod 256) <> 0xFFFF /\
  wide (c mod 256) (c / 256 mod 256) mod 256 = c.
Proof.
  intros [H1 H2]. rewrite Z.mod_small, Z.div_small by lia. change (0 mod 256) with 0. unfold wide. change (Z.shiftl (sext8 0) 8) with 0. rewrite Z.lor_0_r.
  unfold sext8, u16. destruct (Z.ltb_spec c 128); zdiv_lia.
Qed.

Lemma lfn_chars_S name start n : lfn_chars name start (S n) = le16 (lfn_char name start) ++ lfn_chars name (start + 1) n.
Proof.
  unfold lfn_chars. cbn [seq flat_map]. rewrite Z.add_0_r. f_equal. rewrite <- seq_shift, flat_map_concat_map, map_map, <- flat_map_concat_map.
  apply flat_map_ext. intros k. do 2 f_equal. lia.
Qed.
Lemma lfn_chars_length name start n : length (lfn_chars name start n) = (2 * n)%nat.
Proof. revert start. induction n as [|n IH]; intros start; [done|]. rewrite lfn_chars_S, length_app, IH. cbn. lia. Qed.
Lemma lfn_chars_bytes name start n : Forall byte name -> Forall byte (lfn_chars name start n).
Proof. intros H. unfold lfn_chars. apply Forall_flat_map, Forall_forall. intros k _. apply le16_bytes. Qed.

(** A group of characters that starts inside the name, or just behind it. *)
Lemma lfn_copy_in name n : forall st buf, Forall name_byte name -> (length name <= 255)%nat -> length buf = 256%nat -> (st <= length name)%nat ->
  lfn_copy (lfn_chars name (Z.of_nat st) n) (Z.of_nat st) buf =
  (Z.of_nat (st + Nat.min n (length name - st)), put st (field (Nat.min n (length name - st)) st name) buf).
Proof.
  induction n as [|n IH]; intros st buf Hn Hl Hb Hst.
  - cbn. by rewrite Nat.add_0_r, put_nil.
  - rewrite lfn_chars_S. cbn [app le16 lfn_copy]. destruct (decide (st = length name)) as [->|Hne].
    + rewrite Nat.sub_diag, Nat.min_0_r, Nat.add_0_r. change (field 0 (length name) name) with (@nil Z). rewrite put_nil.
      unfold lfn_char, zlen. rewrite Z.ltb_irrefl, Z.eqb_refl. change (0 mod 256) with 0. change (0 / 256 mod 256) with 0.
      change (wide 0 0) with 0. change ((0 =? 0) || (0 =? 0xFFFF)) with true. cbn beta iota. by destruct (_ <? 255).
    + destruct (lookup_lt_is_Some_2 name st) as [c Hc]; [lia|]. assert (Hcb : name_byte c) by by eapply Forall_lookup_1.
      assert (Ec : lfn_char name (Z.of_nat st) = c).
      { unfold lfn_char, zlen. rewrite (proj2 (Z.ltb_lt _ _)) by lia. rewrite Nat2Z.id. unfold get8. by rewrite Hc. }
      rewrite Ec, (proj2 (Z.ltb_lt _ _)) by lia. destruct (wide_byte c Hcb) as (W1 & W2 & W3).
      rewrite (proj2 (Z.eqb_neq _ 0) W1), (proj2 (Z.eqb_neq _ 0xFFFF) W2), W3. cbn [orb].
      replace (Z.of_nat st + 1) with (Z.of_nat (S st)) by lia. rewrite IH by (rewrite ?length_insert; lia || done). rewrite Nat2Z.id.
      replace (length name - st)%nat with (S (length name - S st)) by lia. cbn [Nat.min]. f_equal; [lia|].
      apply list_eq. intros j. rewrite !put_lookup by (rewrite ?length_insert, field_length; lia). rewrite !field_length by lia.
      destruct (decide (j = st)) as [->|Hj].
      * rewrite decide_False, decide_True by lia. rewrite list_lookup_insert_eq by lia. rewrite field_lookup by lia. by rewrite Nat.sub_diag, Nat.add_0_r.
      * repeat case_decide; try lia.
        -- rewrite !field_lookup by lia. f_equal. lia.
        -- by rewrite list_lookup_insert_ne by done.
Qed.
(** A group behind the name is not copied. *)
Lemma lfn_copy_out name n st off buf : (length name < st)%nat -> lfn_copy (lfn_chars name (Z.of_nat st) n) off buf = (off, buf).
Proof.
  intros H. destruct n as [|n]; [done|]. rewrite lfn_chars_S. unfold lfn_char, zlen. rewrite (proj2 (Z.ltb_ge _ _)), (proj2 (Z.eqb_neq _ _)) by lia.
  change (le16 0xFFFF) with [255; 255]. cbn [app lfn_copy]. change (wide 255 255) with 0xFFFF. change ((0xFFFF =? 0) || (0xFFFF =? 0xFFFF)) with true.
  cbn beta iota. by destruct (off <? 255).
Qed.

(** ** Fragments *)

Lemma put_field_put i a b name buf : (i + a + b <= length name)%nat -> (length name <= length buf)%nat ->
  put (i + a) (field b (i + a) name) (put i (field a i name) buf) = put i (field (a + b) i name) buf.
Proof.
  intros H1 H2. apply list_eq. intros j. assert (L : length (put i (field a i name) buf) = length buf) by (rewrite put_length; [done|rewrite field_length; lia]).
  rewrite put_lookup by (rewrite L, field_length; lia). rewrite !put_lookup by (rewrite field_length; lia). rewrite !field_length by lia.
  repeat case_decide; try lia; rewrite ?field_lookup by lia; done || f_equal; lia.
Qed.

Definition zeros : list Z := replicate 256 0.

(** The bytes of fragment [i] that the name reaches. *)
Definition part (name : list Z) (i : nat) : list Z := field (Nat.min 13 (length name - 13 * i)) (13 * i) name.

(** The sequence byte of fragment [i]. *)
Definition seq_byte (i : nat) (last : bool) : Z := u8 (if last then Z.lor (Z.of_nat i + 1) 0x40 else Z.of_nat i + 1).
Lemma seq_byte_ok i last : (i < 20)%nat -> Z.land (seq_byte i last) 0x1F = Z.of_nat i + 1 /\ Z.testbit (seq_byte i last) 6 = last /\
  seq_byte i last <> 0 /\ seq_byte i last <> 0xE5.
Proof. intros Hi. do 20 (destruct i as [|i]; [by destruct last|]). lia. Qed.

(** The entry [e] is fragment [i] of the [n] of a name. *)
Definition fragment_like (name : list Z) (sum : Z) (n i : nat) (e : list Z) : Prop :=
  get8 e 0 = seq_byte i (i =? n - 1)%nat /\ get8 e 11 = 0x0F /\ get8 e 13 = sum /\
  field 10 1 e = lfn_chars name (Z.of_nat (13 * i)) 5 /\ field 12 14 e = lfn_chars name (Z.of_nat (13 * i) + 5) 6 /\
  field 4 28 e = lfn_chars name (Z.of_nat (13 * i) + 11) 2.

Lemma lfn_entry_length name sum n i : length (lfn_entry name sum n i) = 32%nat.
Proof. unfold lfn_entry. by rewrite !length_app, !lfn_chars_length. Qed.
Lemma lfn_entry_like name sum n i : fragment_like name sum n i (lfn_entry name sum n i).
Proof.
  unfold fragment_like, lfn_entry, seq_byte. rewrite Nat2Z.inj_mul. change (Z.of_nat 13) with 13. pose proof (lfn_chars_length name (13 * Z.of_nat i) 5) as L1.
  pose proof (lfn_chars_length name (13 * Z.of_nat i + 5) 6) as L2. pose proof (lfn_chars_length name (13 * Z.of_nat i + 11) 2) as L3.
  set (c1 := lfn_chars _ _ 5) in *. set (c2 := lfn_chars _ _ 6) in *. set (c3 := lfn_chars _ _ 2) in *. clearbody c1 c2 c3.
  do 10 (destruct c1 as [|? c1]; [done|]). destruct c1; [|done]. do 12 (destruct c2 as [|? c2]; [done|]). destruct c2; [|done].
  do 4 (destruct c3 as [|? c3]; [done|]). by destruct c3.
Qed.

Section fragment.
Context (name : list Z) (sum : Z) (n i : nat) (e : list Z) (He : fragment_like name sum n i e).

Hypotheses (Hn : good_name name) (Hi : (13 * i < length name)%nat).

(** One group after another. *)
Lemma fragment_group st k buf off : (13 * i <= st)%nat -> length buf = 256%nat -> off = Z.of_nat (Nat.min st (length name)) ->
  lfn_copy (lfn_chars name (Z.of_nat st) k) off buf =
  (Z.of_nat (Nat.min (st + k) (length name)), put (Nat.min st (length name)) (field (Nat.min k (length name - st)) (Nat.min st (length name)) name) buf).
Proof using Hn Hi.
  intros Hst Hb ->. destruct Hn as [Hby Hlen _]. assert (Hnb : Forall name_byte name) by done. destruct (decide (length name < st)%nat).
  - rewrite lfn_copy_out by done. rewrite !Nat.min_r by lia. replace (length name - st)%nat with 0%nat by lia. rewrite ?Nat.min_0_r. by rewrite put_nil.
  - rewrite (Nat.min_l st) by lia. rewrite lfn_copy_in by (done || lia). f_equal. lia.
Qed.

Lemma group_length st k buf : length buf = 256%nat ->
  length (put (Nat.min st (length name)) (field (Nat.min k (length name - st)) (Nat.min st (length name)) name) buf) = 256%nat.
Proof using Hn. intros Hb. clear Hi. pose proof (gn_length _ Hn). rewrite put_length; [done|]. rewrite field_length; lia. Qed.

Lemma fragment_copy buf : length buf = 256%nat ->
  let r1 := lfn_copy (field 10 1 e) (Z.of_nat (13 * i)) buf in
  let r2 := lfn_copy (field 12 14 e) r1.1 r1.2 in
  (lfn_copy (field 4 28 e) r2.1 r2.2).2 = put (13 * i) (part name i) buf.
Proof using He Hn Hi.
  intros Hb r1 r2. destruct He as (_ & _ & _ & E1 & E2 & E3). subst r1 r2. rewrite E1, E2, E3.
  change (Z.of_nat (13 * i) + 5) with (Z.of_nat (13 * i) + Z.of_nat 5). change (Z.of_nat (13 * i) + 11) with (Z.of_nat (13 * i) + Z.of_nat 11).
  rewrite <- !Nat2Z.inj_add. pose proof (gn_length _ Hn). rewrite (fragment_group (13 * i) 5) by (done || lia). cbn [fst snd].
  rewrite (fragment_group (13 * i + 5) 6) by (rewrite ?group_length; done || lia). cbn [fst snd].
  rewrite (fragment_group (13 * i + 11) 2) by (rewrite ?group_length by (rewrite ?group_length; done); done || lia). cbn [fst snd].
  unfold part.
  rewrite (Nat.min_l (13 * i)) by lia.
  replace (Nat.min (13 * i + 5) (length name)) with (13 * i + Nat.min 5 (length name - 13 * i))%nat by lia.
  rewrite put_field_put by lia. replace (Nat.min (13 * i + 11) (length name)) with (13 * i + Nat.min 11 (length name - 13 * i))%nat by lia.
  replace (Nat.min 5 (length name - 13 * i) + Nat.min 6 (length name - (13 * i + 5)))%nat with (Nat.min 11 (length name - 13 * i)) by lia.
  rewrite put_field_put by lia. do 2 f_equal. lia.
Qed.

Lemma step_fragment st : (i < 20)%nat -> (i = (n - 1)%nat \/ i <> (n - 1)%nat /\ length (sc_lfn st) = 256%nat /\ sc_has st = true /\ sc_sum st = sum) ->
  lfn_step e st = Scan (sc_index st) (put (13 * i) (part name i) (if (i =? n - 1)%nat then zeros else sc_lfn st)) sum true.
Proof using He Hn Hi.
  intros Hi20 Hst. pose proof fragment_copy as FC. destruct He as (E0 & _ & E13 & _). destruct (seq_byte_ok i (i =? n - 1)%nat Hi20) as (S1 & S2 & _).
  unfold lfn_step. rewrite E0, E13, S1, S2. replace (u32 (Z.of_nat i + 1 - 1)) with (Z.of_nat i) by (unfold u32; rewrite Z.mod_small; lia).
  rewrite (proj2 (Z.ltb_lt _ _)) by lia. replace (Z.of_nat i * 13) with (Z.of_nat (13 * i)) by lia. destruct (Nat.eqb_spec i (n - 1)) as [E|E].
  - cbn [negb andb sc_index sc_lfn sc_sum sc_has]. by rewrite FC.
  - destruct Hst as [?|(_ & Hb & -> & <-)]; [done|]. rewrite Z.eqb_refl. cbn [negb andb sc_index sc_lfn sc_sum sc_has]. by rewrite FC.
Qed.

End fragment.

(** What the fragments from [i] on leave. *)
Definition tail_of (name : list Z) (i : nat) : list Z := put (13 * i) (drop (13 * i) name) zeros.

Lemma tail_of_length name i : (length name <= 255)%nat -> (13 * i <= length name)%nat -> length (tail_of name i) = 256%nat.
Proof. intros H1 H2. unfold tail_of. rewrite put_length; [done|]. rewrite length_drop. cbn. lia. Qed.
Lemma tail_of_step name i : (length name <= 255)%nat -> (13 * i < length name)%nat ->
  put (13 * i) (part name i) (if decide (13 * S i <= length name)%nat then tail_of name (S i) else zeros) = tail_of name i.
Proof.
  intros H1 H2. assert (Hz : length zeros = 256%nat) by done. unfold part, tail_of. apply list_eq. intros j. case_decide.
  all: repeat rewrite put_lookup by (rewrite ?put_length by (rewrite ?length_drop; lia); rewrite ?field_length, ?length_drop by lia; lia).
  all: rewrite !field_length, !length_drop by lia; repeat case_decide; try lia; rewrite ?field_lookup, ?lookup_drop by lia; done || f_equal; lia.
Qed.

Lemma tail_of_last name i : (length name <= 255)%nat -> (13 * i < length name <= 13 * S i)%nat -> put (13 * i) (part name i) zeros = tail_of name i.
Proof.
  intros H1 H2. rewrite <- (tail_of_step name i) by lia. case_decide; [|done]. f_equal. unfold tail_of. rewrite drop_ge by lia. by rewrite put_nil.
Qed.

(** The first [k] fragments of a name, in the order they are stored: the last
    one first. *)
Fixpoint fragment_list (name : list Z) (sum : Z) (n k : nat) (fs : list (list Z)) : Prop :=
  match k with
  | O => fs = []
  | S k' => exists e fs', fs = e :: fs' /\ fragment_like name sum n k' e /\ fragment_list name sum n k' fs'
  end.
Definition fragments (name : list Z) (sum : Z) (n k : nat) : list (list Z) := lfn_entry name sum n <$> reverse (seq 0 k).
Definition long_name (index : Z) (name : list Z) (sum : Z) : scan := Scan index (tail_of name 0) sum true.

Lemma fragments_S name sum n k : fragments name sum n (S k) = lfn_entry name sum n k :: fragments name sum n k.
Proof. unfold fragments. by rewrite seq_S, reverse_snoc. Qed.
Lemma fragments_list name sum n k : fragment_list name sum n k (fragments name sum n k).
Proof. induction k as [|k IH]; [done|]. rewrite fragments_S. eexists _, _. split; [done|]. split; [apply lfn_entry_like|done]. Qed.

Lemma listing_fragment name sum n i e es st : fragment_like name sum n i e -> (i < 20)%nat -> listing (e :: es) st = listing es (lfn_step e st).
Proof.
  intros (E0 & E11 & _) Hi. destruct (seq_byte_ok i (i =? n - 1)%nat Hi) as (_ & _ & N0 & N1).
  cbn [listing]. unfold e_first, e_attr. rewrite E0, E11, (proj2 (Z.eqb_neq _ _) N0), (proj2 (Z.eqb_neq _ _) N1). done.
Qed.

Lemma lfn_needed_bounds name : good_name name -> (1 <= lfn_needed name <= 20)%nat /\ (13 * (lfn_needed name - 1) < length name <= 13 * lfn_needed name)%nat.
Proof. intros [_ H _]. unfold lfn_needed. pose proof (Nat.div_mod_eq (length name + 12) 13). pose proof (Nat.mod_upper_bound (length name + 12) 13). lia. Qed.

Lemma listing_fragments_from name sum es k : good_name name -> (k < lfn_needed name)%nat -> forall fs st,
  fragment_list name sum (lfn_needed name) k fs -> sc_lfn st = tail_of name k -> sc_has st = true -> sc_sum st = sum ->
  listing (fs ++ es) st = listing es (long_name (sc_index st) name sum).
Proof.
  intros Hn. pose proof (lfn_needed_bounds name Hn) as [B1 B2]. induction k as [|k IH]; intros Hk fs st Hfs E1 E2 E3.
  - cbn in Hfs. subst fs. destruct st as [ix lf sm hs]. cbn in *. by subst.
  - destruct Hfs as (e & fs' & -> & He & Hfs). cbn [app]. rewrite (listing_fragment _ _ _ _ _ _ _ He) by lia. pose proof (gn_length _ Hn).
    rewrite (step_fragment _ _ _ _ _ He); [|done|lia|lia|right; split_and!; [lia| |done..]; rewrite E1; apply tail_of_length; lia].
    rewrite IH; [done|lia|done| |done|done]. cbn [sc_lfn]. rewrite (proj2 (Nat.eqb_neq _ _)) by lia. rewrite E1.
    pose proof (tail_of_step name k ltac:(lia) ltac:(lia)) as T. rewrite decide_True in T by lia. exact T.
Qed.
Lemma listing_fragment_list name sum fs es st : good_name name -> fragment_list name sum (lfn_needed name) (lfn_needed name) fs ->
  listing (fs ++ es) st = listing es (long_name (sc_index st) name sum).
Proof.
  intros Hn. pose proof (lfn_needed_bounds name Hn) as [B1 B2]. pose proof (gn_length _ Hn). set (n := lfn_needed name) in *.
  replace n with (S (n - 1)) at 2 by lia. intros (e & fs' & -> & He & Hfs). cbn [app]. rewrite (listing_fragment _ _ _ _ _ _ _ He) by lia.
  rewrite (step_fragment _ _ _ _ _ He); [|done|lia|lia|left; done]. rewrite Nat.eqb_refl. rewrite (listing_fragments_from name sum es (n - 1)); [done|done|fold n; lia|done| |done|done].
  cbn [sc_lfn]. apply tail_of_last; lia.
Qed.
Lemma listing_fragments name sum es st : good_name name ->
  listing (fragments name sum (lfn_needed name) (lfn_needed name) ++ es) st = listing es (long_name (sc_index st) name sum).
Proof. intros Hn. apply listing_fragment_list; [done|apply fragments_list]. Qed.

(** ** The short entry *)

Lemma take_base_length n src : (length (take_base n src).1 <= n)%nat.
Proof. revert src. induction n as [|n IH]; intros [|c src]; cbn; [lia..|]. destruct (c =? 46); cbn; [lia|]. specialize (IH src). lia. Qed.
Lemma to_83_length name : length (fat32_to_83_name name) = 11%nat.
Proof.
  unfold fat32_to_83_name, pad. pose proof (take_base_length 8 name). rewrite !length_app, !length_replicate, length_fmap, length_take. lia.
Qed.
Lemma upper_first c : c <> 0 -> c <> 0xE5 -> upper c <> 0 /\ upper c <> 0xE5.
Proof. unfold upper. destruct (Z.leb_spec 97 c), (Z.leb_spec c 122); cbn [andb]; lia. Qed.
Lemma to_83_first name : good_name name -> get8 (fat32_to_83_name name) 0 <> 0 /\ get8 (fat32_to_83_name name) 0 <> 0xE5.
Proof.
  intros [H1 H2 H3]. destruct name as [|c name]; [cbn in H2; lia|]. apply Forall_cons_1 in H1 as [[H1 _] _]. cbn in H3.
  unfold fat32_to_83_name. cbn [take_base]. destruct (c =? 46); cbn; [lia|]. apply upper_first; lia.
Qed.

Section short_entry.
Context (name11 : list Z) (attr cluster size : Z) (H11 : length name11 = 11%nat).
Let e := sfn_entry name11 attr cluster size.

Lemma sfn_entry_length : length e = 32%nat.
Proof using H11. unfold e, sfn_entry. rewrite !length_app, H11. done. Qed.
Lemma sfn_fields : get8 e 0 = get8 name11 0 /\ field 11 0 e = name11 /\ get8 e 11 = attr /\
  get16 e 20 = get16 (le16 (Z.land (Z.shiftr cluster 16) 0xFFFF)) 0 /\ get16 e 26 = get16 (le16 (Z.land cluster 0xFFFF)) 0 /\ get32 e 28 = get32 (le32 size) 0.
Proof using H11.
  unfold e, sfn_entry. clear e. revert H11. generalize name11 as l. intros l H. do 11 (destruct l as [|? l]; [done|]). by destruct l.
Qed.
Lemma sfn_cluster : 0 <= cluster < 2 ^ 32 -> e_cluster e = cluster.
Proof using H11.
  intros Hc. destruct sfn_fields as (_ & _ & _ & E1 & E2 & _). unfold e_cluster. rewrite E1, E2.
  change 0xFFFF with (Z.ones 16). rewrite !Z.land_ones, Z.shiftr_div_pow2 by lia.
  assert (G : forall x, 0 <= x < 2 ^ 16 -> get16 (le16 x) 0 = x) by (intros x; apply (get16_put 0 x [0; 0]); cbn; lia).
  rewrite !G by (apply Z.mod_pos_bound; lia). rewrite (Z.mod_small (_ / _)) by zdiv_lia. rewrite Z.lor_comm, Z.shiftl_mul_pow2 by lia. rewrite lor_add; zdiv_lia.
Qed.
Lemma sfn_size : 0 <= size < 2 ^ 32 -> e_size e = size.
Proof using H11. intros Hs. destruct sfn_fields as (_ & _ & _ & _ & _ & E). unfold e_size. rewrite E. by apply (get32_put 0 size [0; 0; 0; 0]). Qed.
End short_entry.
