(* ===== verification/FatAdd.v ===== *)
(** * FAT32: adding a file to a directory

    The scan of [readdir] reads back what [add_entry] writes: a new file is in
    the directory's list, and every other file still is. *)

From Stdlib Require Import ZArith Lia.
From stdpp Require Import base tactics list list_numbers.
From S2P Require Import Prelude Bytes Ramfs Fat FatInv FatChain FatFile FatDir FatName.

(** ** What the scan makes of new entries *)

(** The node of a new file. *)
Definition new_node (name : list Z) (attr cluster size : Z) : fnode :=
  FNode name (if Z.testbit attr 4 then VFS_DIRECTORY else VFS_FILE) size cluster 0 (if Z.testbit attr 0 then 0x155 else 0x1FF) 0 [] true.

(** The entries of a file as a list. *)
Definition file_entries (name : list Z) (attr cluster size : Z) : list (list Z) :=
  fragments name (fat32_checksum (fat32_to_83_name name)) (lfn_needed name) (lfn_needed name) ++
  [sfn_entry (fat32_to_83_name name) attr cluster size].

Lemma dir_entries_concat name attr cluster size : dir_entries name attr cluster size = concat (file_entries name attr cluster size).
Proof. unfold dir_entries, file_entries, fragments. rewrite concat_app. cbn [concat]. by rewrite app_nil_r. Qed.
Lemma file_entries_sizes name attr cluster size : Forall (fun e => length e = 32%nat) (file_entries name attr cluster size).
Proof.
  apply Forall_app. split.
  - apply Forall_fmap, Forall_forall. intros i _. apply lfn_entry_length.
  - constructor; [|constructor]. apply sfn_entry_length, to_83_length.
Qed.
Lemma file_entries_length name attr cluster size : length (file_entries name attr cluster size) = S (lfn_needed name).
Proof. unfold file_entries, fragments. rewrite length_app, length_fmap, length_reverse, length_seq. cbn. lia. Qed.

Lemma until_nul_name name post : Forall name_byte name -> until_nul (name ++ 0 :: post) = name.
Proof. intros H. apply until_nul_app. eapply Forall_impl; [exact H|]. unfold name_byte. lia. Qed.
Lemma tail_of_0 name : good_name name -> until_nul (tail_of name 0) = name.
Proof.
  intros [Hb Hl _]. unfold tail_of. change (13 * 0)%nat with 0%nat. rewrite drop_0. unfold put. cbn [Nat.add take app].
  replace (drop (length name) zeros) with (0 :: drop (S (length name)) zeros); [by apply until_nul_name|].
  symmetry. apply drop_S. unfold zeros. apply lookup_replicate_2. lia.
Qed.

(** The entries of a file are scanned to its node. *)
Lemma listing_file name attr cluster size es st : good_name name -> Z.testbit attr 3 = false -> 0 <= cluster < 2 ^ 32 -> 0 <= size < 2 ^ 32 ->
  exists st', sc_has st' = false /\ listing (file_entries name attr cluster size ++ es) st = new_node name attr cluster size :: listing es st'.
Proof.
  intros Hn Hattr Hc Hs. unfold file_entries. rewrite <- app_assoc, listing_fragments by done. set (st1 := long_name _ _ _).
  exists (count_name st1). split; [done|]. pose proof (to_83_length name) as L. cbn [app listing].
  destruct (sfn_fields _ attr cluster size L) as (E0 & E1 & E2 & _). pose proof (to_83_first name Hn) as [F0 F1]. unfold e_first, e_attr. rewrite E0, E2.
  rewrite (proj2 (Z.eqb_neq _ _) F0), (proj2 (Z.eqb_neq _ _) F1), Hattr. rewrite (proj2 (Z.eqb_neq attr 0x0F)) by (intros ->; done).
  f_equal. unfold entry_node, entry_name, entry_long, e_name, e_attr. rewrite E1, E2, (sfn_cluster _ attr cluster size L Hc), (sfn_size _ attr cluster size L Hs).
  cbn [sc_has sc_sum sc_lfn st1 long_name]. rewrite Z.eqb_refl, (tail_of_0 name Hn). rewrite bool_decide_false; [done|]. intros E. pose proof (gn_length _ Hn) as Hl. rewrite E in Hl. cbn in Hl. lia.
Qed.

(** ** What a scan depends on *)

(** Whether a name is pending, and then which. *)
Definition same_name (a b : scan) : Prop := sc_has a = sc_has b /\ (sc_has a = true -> sc_lfn a = sc_lfn b /\ sc_sum a = sc_sum b).

Lemma no_name a b : sc_has a = false -> sc_has b = false -> same_name a b.
Proof. intros H1 H2. split; [congruence|]. by rewrite H1. Qed.
Lemma same_name_step e a b : same_name a b -> same_name (lfn_step e a) (lfn_step e b).
Proof.
  destruct a as [ia la ua ha], b as [ib lb ub hb]. intros [H1 H2]. cbn in H1, H2. subst hb. unfold lfn_step. cbn [sc_has sc_sum sc_lfn sc_index].
  destruct ha.
  - destruct H2 as [<- <-]; [done|]. repeat case_match; by repeat split.
  - rewrite !andb_false_r, !andb_false_l. repeat case_match; by repeat split.
Qed.
Lemma same_name_listing es : forall a b, same_name a b -> listing es a = listing es b.
Proof.
  induction es as [|e es IH]; intros a b H; [done|]. cbn [listing].
  rewrite (IH (drop_name a) (drop_name b)), (IH (count_name a) (count_name b)) by by apply no_name. rewrite (IH _ _ (same_name_step e a b H)).
  assert (entry_name e a = entry_name e b) as ->; [|done]. destruct H as [H1 H2]. unfold entry_name, entry_long. rewrite <- H1.
  destruct (sc_has a); [|done]. by destruct H2 as [-> ->].
Qed.
Lemma no_name_listing es a b : sc_has a = false -> sc_has b = false -> listing es a = listing es b.
Proof. intros H1 H2. by apply same_name_listing, no_name. Qed.

(** The scan goes on behind entries without an end mark. *)
Lemma listing_app es1 : forall st, Forall (fun e => e_first e <> 0) es1 -> exists st', forall es2, listing (es1 ++ es2) st = listing es1 st ++ listing es2 st'.
Proof.
  induction es1 as [|e es1 IH]; intros st H; [by exists st|]. apply Forall_cons_1 in H as [H0 H]. cbn [app listing]. rewrite (proj2 (Z.eqb_neq _ _) H0).
  repeat match goal with |- context [if ?b then _ else _] => destruct b end; try by apply IH.
  destruct (IH (count_name st) H) as [st' E]. exists st'. intros es2. by rewrite E.
Qed.

(** An end mark ends the directory. *)
Definition free_mark (e : list Z) : Prop := e_first e = 0 \/ e_first e = 0xE5.
Definition tidy (es : list (list Z)) : Prop := forall i j e e', (i < j)%nat -> es !! i = Some e -> es !! j = Some e' -> e_first e = 0 -> e_first e' = 0.

Lemma listing_ended es st : Forall (fun e => e_first e = 0) es -> listing es st = [].
Proof. destruct es as [|e es]; [done|]. intros [H _]%Forall_cons_1. cbn [listing]. by rewrite H. Qed.

Lemma listing_hole hole es st : hole <> [] -> Forall free_mark hole -> tidy (hole ++ es) ->
  exists st', sc_has st' = false /\ listing (hole ++ es) st = listing es st'.
Proof.
  intros Hne Hf Ht. assert (Hend : forall st', Exists (fun e => e_first e = 0) hole -> listing es st' = []).
  { intros st' Hex. apply Exists_exists in Hex as (e & [i Hi]%list_elem_of_lookup & He). apply listing_ended, Forall_lookup. intros j e' Hj.
    apply (Ht i (length hole + j)%nat e e'); [apply lookup_lt_Some in Hi; lia|by rewrite lookup_app_l by (by eapply lookup_lt_Some)| |done].
    rewrite lookup_app_r by lia. by replace (length hole + j - length hole)%nat with j by lia. }
  exists (drop_name st). split; [done|]. clear Ht. revert st Hne. induction hole as [|e hole IH]; intros st Hne; [done|]. apply Forall_cons_1 in Hf as [He Hf]. cbn [app listing].
  destruct He as [He|He]; rewrite He; cbn [Z.eqb Pos.eqb].
  - symmetry. apply Hend. by left.
  - destruct hole as [|e' hole]; [done|]. rewrite IH; [done|done| |done]. intros st' Hex. apply Hend. by right.
Qed.

(** A file added in a hole of a directory is in its list; the other files
    stay, in their order. *)
Lemma listing_insert before hole rest st name attr cluster size :
  good_name name -> Z.testbit attr 3 = false -> 0 <= cluster < 2 ^ 32 -> 0 <= size < 2 ^ 32 ->
  Forall (fun e => e_first e <> 0) before -> hole <> [] -> Forall free_mark hole -> tidy (hole ++ rest) ->
  exists a b, listing (before ++ hole ++ rest) st = a ++ b /\
    listing (before ++ file_entries name attr cluster size ++ rest) st = a ++ new_node name attr cluster size :: b.
Proof.
  intros Hn Ha Hc Hs Hb Hne Hf Ht. destruct (listing_app before st Hb) as [st1 E1]. destruct (listing_hole hole rest st1 Hne Hf Ht) as (st2 & N2 & E2).
  destruct (listing_file name attr cluster size rest st1 Hn Ha Hc Hs) as (st3 & N3 & E3). exists (listing before st), (listing rest st2).
  rewrite !E1, E2, E3. split; [done|]. do 2 f_equal. by apply no_name_listing.
Qed.

(** ** Buffers as lists of entries *)

Definition sized (es : list (list Z)) : Prop := Forall (fun e => length e = 32%nat) es.

Lemma sized_length es : sized es -> length (concat es) = (32 * length es)%nat.
Proof. induction 1 as [|e es He Hes IH]; [done|]. cbn [concat length]. rewrite length_app. lia. Qed.
Lemma entries_concat es : sized es -> entry (concat es) <$> seq 0 (length es) = es.
Proof.
  induction 1 as [|e es He Hes IH]; [done|]. cbn [concat length seq fmap list_fmap]. unfold entry at 1, field. rewrite drop_0, take_app_length' by done.
  f_equal. rewrite <- seq_shift, <- list_fmap_compose. rewrite <- IH at 3. apply list_fmap_ext. intros i j _. cbn [compose]. unfold entry, field.
  rewrite drop_app_ge by lia. do 2 f_equal. lia.
Qed.
Lemma concat_entries n b : length b = (32 * n)%nat -> concat (entry b <$> seq 0 n) = b.
Proof. apply (pieces_concat 32). Qed.
Lemma entries_sized n b : length b = (32 * n)%nat -> sized (entry b <$> seq 0 n).
Proof.
  intros Hb. apply Forall_fmap, Forall_forall. intros i Hi. apply elem_of_seq in Hi. unfold compose, entry. apply field_length. lia.
Qed.

(** Entries copied into a buffer. *)
Lemma put_entries n i es b : length b = (32 * n)%nat -> sized es -> (i + length es <= n)%nat ->
  entry (put (32 * i) (concat es) b) <$> seq 0 n = take i (entry b <$> seq 0 n) ++ es ++ drop (i + length es) (entry b <$> seq 0 n).
Proof.
  intros Hb He Hi. pose proof (entries_sized n b Hb) as Hs. set (l := entry b <$> seq 0 n) in *.
  assert (Hl : length l = n) by (unfold l; by rewrite length_fmap, length_seq). assert (Eb : b = concat l) by (symmetry; by apply concat_entries).
  assert (Hlen : n = length (take i l ++ es ++ drop (i + length es) l)) by (rewrite !length_app, length_take, length_drop; lia).
  assert (E : put (32 * i) (concat es) b = concat (take i l ++ es ++ drop (i + length es) l)).
  { rewrite Eb at 1. rewrite <- (take_drop i l) at 1. rewrite <- (take_drop (length es) (drop i l)), drop_drop, !concat_app. unfold put.
    assert (L1 : length (concat (take i l)) = (32 * i)%nat) by (rewrite sized_length by (by apply Forall_take); rewrite length_take; lia).
    assert (L2 : length (concat (take (length es) (drop i l))) = length (concat es))
      by (rewrite !sized_length by (done || by apply Forall_take, Forall_drop); rewrite length_take, length_drop; lia).
    rewrite take_app_length' by done. f_equal. f_equal. rewrite app_assoc. apply drop_app_length'. rewrite length_app. lia. }
  rewrite E. rewrite Hlen at 1. apply entries_concat. unfold sized. rewrite !Forall_app. split_and!; [by apply Forall_take|done|by apply Forall_drop].
Qed.

(** ** The search for a hole *)

Definition free_at (b : list Z) (j : nat) : Prop := free_mark (entry b j).
Definition marked (b : list Z) (j : nat) : Prop := e_first (entry b j) <> 0.

Lemma find_space_spec b needed n : forall i run start k,
  (forall p q, (p < q < i + n)%nat -> ~ marked b p -> ~ marked b q) ->
  (run <= i)%nat -> (run < needed)%nat -> (run = 0%nat \/ start = (i - run)%nat) ->
  (forall j, (i - run <= j < i)%nat -> free_at b j) -> (forall j, (j < i - run)%nat -> marked b j) ->
  find_space b needed n i run start = Some k ->
  (k + needed <= i + n)%nat /\ (forall j, (k <= j < k + needed)%nat -> free_at b j) /\ (forall j, (j < k)%nat -> marked b j).
Proof.
  induction n as [|n IH]; intros i run start k Ht Hri Hrn Hst Hfr Hnz; [done|]. cbn [find_space].
  destruct ((e_first (entry b i) =? 0) || (e_first (entry b i) =? 0xE5)) eqn:Ef.
  - assert (Hfi : free_at b i) by (unfold free_at, free_mark; apply orb_true_iff in Ef as [?%Z.eqb_eq|?%Z.eqb_eq]; auto).
    assert (Es : (if (run =? 0)%nat then i else start) = (i - run)%nat) by (destruct (Nat.eqb_spec run 0); lia). rewrite Es.
    assert (Hfr' : forall j, (i - run <= j < S i)%nat -> free_at b j) by (intros j Hj; destruct (decide (j = i)) as [->|]; [done|apply Hfr; lia]).
    destruct (Nat.eqb_spec (S run) needed).
    + intros [= <-]. split_and!; [lia| |done]. intros j Hj. apply Hfr'. lia.
    + intros E. replace (S i - S run)%nat with (i - run)%nat in * by lia. replace (i + S n)%nat with (S i + n)%nat in * by lia.
      apply (IH (S i) (S run) (i - run)%nat); try done; try lia.
  - assert (Hmi : marked b i) by (apply orb_false_iff in Ef as [?%Z.eqb_neq _]; done). intros E. replace (i + S n)%nat with (S i + n)%nat in * by lia.
    apply (IH (S i) 0%nat start); try done; try lia. intros j Hj. destruct (decide (marked b j)) as [|Hn]; [done|]. destruct (decide (j = i)) as [->|]; [done|].
    exfalso. by apply (Ht j i ltac:(lia) Hn).
Qed.

(** Zeros are room. *)
Lemma entry_zeros m i : e_first (entry (replicate m 0) i) = 0.
Proof.
  unfold e_first, get8, entry, field. destruct (_ !! 0%nat) as [v|] eqn:E; [|done]. cbn. apply lookup_take_Some in E as [E _]. rewrite lookup_drop in E.
  by apply lookup_replicate in E as [-> _].
Qed.
Lemma find_space_zeros m needed n : forall i run start, (0 < needed)%nat -> (run < needed <= run + n)%nat ->
  find_space (replicate m 0) needed n i run start = Some (if (run =? 0)%nat then i else start).
Proof.
  induction n as [|n IH]; intros i run start H1 H2; [lia|]. cbn [find_space]. rewrite entry_zeros.
  cbn [Z.eqb orb]. destruct (Nat.eqb_spec (S run) needed); [done|]. rewrite IH by lia. done.
Qed.

Lemma list_snoc_split {A} (l : list A) : l <> [] -> exists l0 z, l = l0 ++ [z].
Proof. destruct l as [|z l0 _] using rev_ind; [done|]. intros _. by exists l0, z. Qed.

(** ** Adding an entry *)

Section add.
Context {D : Type} (dev : block_ops D) (stale : nat -> Z) (vol : fat32_volume) (ss total top : Z).
Context `{L : !BlockLaws dev ss total} (G : geometry vol ss total top).
Implicit Types s : fat D.
#[local] Abbreviation shows := (FatInv.shows dev vol ss total top).
#[local] Abbreviation bpc := (FatInv.bpc vol).
#[local] Abbreviation entries_of := (dir_entries_of vol).
#[local] Abbreviation cluster_entries := (FatDir.cluster_entries vol).

Lemma max_entries_bytes : Z.of_nat (32 * max_entries vol) = bpc.
Proof using G.
  pose proof (bpc_pos _ _ _ _ G). pose proof (bpc_eq _ _ _ _ G) as E. pose proof (ge_mul _ _ _ _ G) as M. fold bpc in *. unfold max_entries, ENTRY_SIZE. fold bpc.
  assert (bpc mod 32 = 0) by (rewrite E, Z.mul_mod, M by lia; done). rewrite Nat2Z.inj_mul, Z2Nat.id by zdiv_lia. zdiv_lia.
Qed.
Lemma cluster_bytes s F C c : shows s F C -> FatInv.valid top c -> length (C c) = (32 * max_entries vol)%nat.
Proof using G. intros Hs Hc. pose proof (shows_length _ _ _ _ _ G _ _ _ _ Hs Hc) as H. pose proof max_entries_bytes. unfold zlen in H. lia. Qed.

Definition all_marked (es : list (list Z)) : Prop := Forall (fun e => e_first e <> 0) es.
Definition no_room (b : list Z) (needed : nat) : Prop := find_space b needed (max_entries vol) 0 0 0 = None /\ all_marked (cluster_entries b).

(** A directory in which the entries go to entry [k] of its cluster [x]: the
    clusters before have no room and no end mark. *)
Record room_at (C : Z -> list Z) (l1 : list Z) (x : Z) (l2 : list Z) (needed k : nat) : Prop := {
  rm_before : forall y, y ∈ l1 -> no_room (C y) needed;
  rm_space : find_space (C x) needed (max_entries vol) 0 0 0 = Some k;
  rm_tidy : tidy (cluster_entries (C x) ++ entries_of C l2)
}.
(** A directory without room: a new cluster holds them. *)
Record full (C : Z -> list Z) (l : list Z) (needed : nat) : Prop := {
  fl_all : forall y, y ∈ l -> no_room (C y) needed;
  fl_fits : (needed <= max_entries vol)%nat
}.

Section entries.
Context (es : list (list Z)) (Hsz : sized es) (Hne : es <> []).
#[local] Abbreviation bytes := (concat es).

Lemma needed_bytes : (length bytes / 32)%nat = length es.
Proof using Hsz. rewrite sized_length, Nat.mul_comm by done. by apply Nat.div_mul. Qed.

(** The cluster has room: the entries are written there. *)
Lemma wp_add_here fuel s F C x k (Q : Z -> fat D -> Prop) :
  shows s F C -> FatInv.valid top x -> find_space (C x) (length es) (max_entries vol) 0 0 0 = Some k -> (k + length es <= max_entries vol)%nat ->
  (forall s', shows s' F (upd_at C x (put (32 * k) bytes (C x))) -> kept s s' -> Q 0 s') ->
  wp (add_entry dev stale vol (S fuel) bytes x) Q s.
Proof using G Hsz.
  intros Hs Hx Hk Hroom HQ. pose proof (ge_top _ _ _ _ G) as Htop. pose proof (cluster_bytes _ _ _ _ Hs Hx) as Hb. pose proof max_entries_bytes.
  pose proof (sized_length es Hsz). cbn [add_entry]. rewrite (valid_in_chain top Htop) by done. wp_steps.
  eapply (wp_read_cluster dev stale vol ss total top G); [done..|]. intros s1 Hs1 K1. wp_steps. rewrite needed_bytes, Hk. wp_steps.
  apply wp_bytes_put; [lia|unfold zlen; lia|]. wp_steps. replace (Z.to_nat (32 * Z.of_nat k)) with (32 * k)%nat by lia.
  eapply (wp_write_cluster dev vol ss total top G); [done|done|unfold zlen; rewrite put_length; lia|]. intros s2 Hs2 K2. wp_steps.
  apply HQ; [done|by eapply fat_kept_trans].
Qed.

(** The clusters before the room are passed over. *)
Lemma wp_add_skip l1 : forall fuel s F C c l2 (Q : Z -> fat D -> Prop),
  shows s F C -> (0 < fa_pool s)%nat -> fchain top F c (l1 ++ l2) -> l2 <> [] -> (forall y, y ∈ l1 -> no_room (C y) (length es)) ->
  (length l1 <= fuel)%nat -> (forall s' x, head l2 = Some x -> shows s' F C -> kept s s' -> wp (add_entry dev stale vol (fuel - length l1) bytes x) Q s') ->
  wp (add_entry dev stale vol fuel bytes c) Q s.
Proof using G Hsz.
  pose proof (ge_top _ _ _ _ G) as Htop. induction l1 as [|y l1 IH]; intros fuel s F C c l2 Q Hs Hp Hc Hl2 Hno Hf HQ.
  - destruct l2 as [|x l2]; [done|]. destruct Hc as (<- & _). rewrite Nat.sub_0_r in HQ. apply HQ; [done|done|apply fat_kept_refl].
  - cbn [length] in Hf. destruct fuel as [|fuel]; [lia|]. cbn [app] in Hc. destruct Hc as (-> & Hv & Hc). cbn [add_entry]. rewrite (valid_in_chain top Htop) by done. wp_steps.
    eapply (wp_read_cluster dev stale vol ss total top G); [done..|]. intros s1 Hs1 K1. wp_steps. destruct (Hno c ltac:(by left)) as [Hsp _].
    rewrite needed_bytes, Hsp. wp_steps. eapply (wp_get_next dev stale vol ss total top G); [done|done|by destruct K1; lia|]. intros s2 Hs2 K2. pose proof (fat_kept_trans _ _ _ K1 K2) as K.
    assert (Hin : in_chain (F c) = true).
    { destruct l1 as [|z l1], l2 as [|z2 l2]; try done; cbn in Hc; destruct Hc as (_ & Hvz & _); by apply (valid_in_chain top Htop). }
    rewrite Hin. wp_steps. apply (IH fuel s2 F C (F c) l2); try done; [by destruct K; lia|intros z Hz; apply Hno; by right|lia|].
    intros s' x Hx Hs' K'. apply HQ; [done|done|by eapply fat_kept_trans].
Qed.

Definition zero_cluster : list Z := replicate (Z.to_nat bpc) 0.

(** The last cluster of a full directory: a new one takes the entries. *)
Lemma wp_add_new fuel s F C c l0 z y r (Q : Z -> fat D -> Prop) :
  shows s F C -> (0 < fa_pool s)%nat -> fchain top F c (l0 ++ [z]) -> no_room (C z) (length es) -> (length es <= max_entries vol)%nat ->
  free_list top F = y :: r ->
  (forall s' F' C', shows s' F' C' -> kept s s' -> fchain top F' c (l0 ++ [z; y]) -> (forall x, x <> y -> x <> z -> F' x = F x) ->
     C' y = put 0 bytes zero_cluster -> (forall x, x <> y -> C' x = C x) -> Q 0 s') ->
  wp (add_entry dev stale vol (S (S fuel)) bytes z) Q s.
Proof using G Hsz Hne.
  intros Hs Hp Hc [Hsp _] Hfit Hfree HQ. pose proof (ge_top _ _ _ _ G) as Htop. destruct (free_head _ _ _ _ Hfree) as (F0 & Hy & _).
  assert (Hz : FatInv.valid top z) by (eapply fchain_valid; [exact Hc|]; apply elem_of_app; right; by left).
  assert (Hyn : y ∉ l0 ++ [z]) by (intros Hin; by apply (fchain_nonzero _ _ _ _ _ Hc Hin)).
  assert (Hyz : y <> z) by (intros ->; apply Hyn; apply elem_of_app; right; by left). remember (S fuel) as fuel' eqn:Ef.
  cbn [add_entry]. rewrite (valid_in_chain top Htop) by done. wp_steps.
  eapply (wp_read_cluster dev stale vol ss total top G); [done..|]. intros s1 Hs1 (K1 & K2 & K3). wp_steps. rewrite needed_bytes, Hsp. wp_steps.
  eapply (wp_get_next dev stale vol ss total top G); [done|done|lia|]. intros s2 Hs2 (K4 & K5 & K6).
  assert (Hend : in_chain (F z) = false).
  { pose proof (fchain_next _ _ _ _ (length l0) z Hc) as E. rewrite lookup_app_r, Nat.sub_diag in E by lia. specialize (E eq_refl).
    rewrite lookup_ge_None_2 in E; [done|]. rewrite length_app. cbn. lia. }
  rewrite Hend. wp_steps. unfold grow_dir. wp_steps. eapply (wp_allocate dev stale vol ss total top G); [done|lia|done|]. intros s3 Hs3 (K7 & K8 & K9). pose proof Hy as [? ?].
  rewrite (proj2 (Z.eqb_neq y FAT32_BAD_CLUSTER)) by lia. wp_steps.
  eapply (wp_set_cluster dev stale vol ss total top G); [done|done|unfold FAT32_BAD_CLUSTER in *; lia|lia|]. intros s4 Hs4 (K10 & K11 & K12). wp_steps.
  pose proof (bpc_pos _ _ _ _ G). assert (Hzl : zlen zero_cluster = bpc) by (unfold zlen, zero_cluster; rewrite length_replicate; fold bpc in *; lia).
  eapply (wp_write_cluster dev vol ss total top G); [done|done|exact Hzl|]. intros s5 Hs5 (K13 & K14 & K15). wp_steps.
  assert (Hez : find_space (upd_at C y zero_cluster y) (length es) (max_entries vol) 0 0 0 = Some 0%nat).
  { rewrite upd_at_eq. apply find_space_zeros; destruct es; try done; cbn [length] in *; lia. }
  subst fuel'. eapply (wp_add_here fuel s5 _ _ y 0%nat); [exact Hs5|done|exact Hez|lia|]. intros s6 Hs6 (K16 & K17 & K18).
  apply (HQ s6 _ _ Hs6).
  - split_and!; [lia|congruence|congruence].
  - by apply fchain_snoc.
  - intros x N1 N2. by rewrite !upd_at_ne.
  - by rewrite upd_at_eq, upd_at_eq.
  - intros x N1. by rewrite !upd_at_ne.
Qed.

End entries.

(** ** What the directory holds then *)

Lemma entries_app C l1 l2 : entries_of C (l1 ++ l2) = entries_of C l1 ++ entries_of C l2.
Proof using. unfold dir_entries_of. by rewrite fmap_app, concat_app. Qed.
Lemma entries_cons C x l : entries_of C (x :: l) = cluster_entries (C x) ++ entries_of C l.
Proof using. done. Qed.
Lemma entries_ext C C' l : (forall x, x ∈ l -> C' x = C x) -> entries_of C' l = entries_of C l.
Proof using. intros H. unfold dir_entries_of. f_equal. apply list_fmap_ext. intros i x Hx. cbn [compose]. rewrite H; [done|]. by eapply list_elem_of_lookup_2. Qed.
Lemma entries_marked C l needed : (forall y, y ∈ l -> no_room (C y) needed) -> all_marked (entries_of C l).
Proof using.
  induction l as [|y l IH]; intros H; [by constructor|]. rewrite entries_cons. apply Forall_app. split; [by destruct (H y ltac:(by left))|].
  apply IH. intros z Hz. apply H. by right.
Qed.

(** The directory [c] has the file [n] in addition. *)
Definition file_added F C c l F' C' l' n : Prop :=
  fchain top F' c l' /\ (exists a b, dir_listing vol C l = a ++ b /\ dir_listing vol C' l' = a ++ n :: b) /\
  (l' = l \/ exists y, l' = l ++ [y] /\ F y = 0) /\ forall x, x ∉ l' -> F' x = F x /\ C' x = C x.

Section file.
Context (name : list Z) (attr cluster size : Z).
Context (Hname : good_name name) (Hattr : Z.testbit attr 3 = false) (Hcluster : 0 <= cluster < 2 ^ 32) (Hsize : 0 <= size < 2 ^ 32).
#[local] Abbreviation es := (file_entries name attr cluster size).
#[local] Abbreviation needed := (S (lfn_needed name)).

Lemma room_listing F C c l1 x l2 k : fchain top F c (l1 ++ x :: l2) -> length (C x) = (32 * max_entries vol)%nat -> room_at C l1 x l2 needed k ->
  (k + needed <= max_entries vol)%nat /\
  file_added F C c (l1 ++ x :: l2) F (upd_at C x (put (32 * k) (concat es) (C x))) (l1 ++ x :: l2) (new_node name attr cluster size).
Proof using G Hname Hattr Hcluster Hsize.
  intros Hc Hlen [R1 R2 R3]. pose proof (ge_top _ _ _ _ G) as Htop. pose proof (file_entries_length name attr cluster size) as Hn.
  pose proof (fchain_nodup top Htop _ _ _ Hc) as (_ & Hd & [Hx2 _]%NoDup_cons)%NoDup_app.
  assert (Hce : length (cluster_entries (C x)) = max_entries vol) by (unfold FatDir.cluster_entries; by rewrite length_fmap, length_seq).
  assert (Hat : forall j, (j < max_entries vol)%nat -> cluster_entries (C x) !! j = Some (entry (C x) j)).
  { intros j Hj. unfold FatDir.cluster_entries. rewrite list_lookup_fmap, lookup_seq_lt by done. done. }
  destruct (find_space_spec (C x) needed (max_entries vol) 0 0 0 k) as (S1 & S2 & S3); try done; try lia; [|].
  { intros p q Hpq Hp Hq. apply Hp. intros Ep. apply Hq. eapply (R3 p q); [lia|rewrite lookup_app_l by lia; apply Hat; lia|rewrite lookup_app_l by lia; apply Hat; lia|done]. }
  split; [lia|]. split_and!; [done| |by left|].
  - set (B := entries_of C l1 ++ take k (cluster_entries (C x))). set (H := take needed (drop k (cluster_entries (C x)))).
    set (R := drop (k + needed) (cluster_entries (C x)) ++ entries_of C l2).
    assert (Eold : dir_listing vol C (l1 ++ x :: l2) = listing (B ++ H ++ R) scan_start).
    { unfold dir_listing. rewrite entries_app, entries_cons. f_equal. unfold B, H, R. rewrite <- !app_assoc. f_equal. rewrite <- (take_drop k (cluster_entries (C x))) at 1.
      rewrite <- app_assoc. f_equal. rewrite <- (take_drop needed (drop k _)) at 1. rewrite drop_drop, <- app_assoc. done. }
    assert (Enew : dir_listing vol (upd_at C x (put (32 * k) (concat es) (C x))) (l1 ++ x :: l2) = listing (B ++ es ++ R) scan_start).
    { unfold dir_listing. rewrite entries_app, entries_cons. rewrite upd_at_eq. unfold FatDir.cluster_entries.
      rewrite put_entries by (done || apply file_entries_sizes || lia). rewrite Hn. unfold B, R. rewrite <- !app_assoc.
      rewrite !(entries_ext C (upd_at _ _ _)); [done| |]; intros y Hy; apply upd_at_ne; intros E; subst y; [done|]. apply (Hd x Hy). by left. }
    rewrite Eold, Enew. apply listing_insert; try done.
    + apply Forall_app. split; [by eapply entries_marked|]. apply Forall_lookup. intros j e Hj. apply lookup_take_Some in Hj as [Hj Hjk].
      rewrite Hat in Hj by lia. injection Hj as <-. by apply S3.
    + intros E. apply (f_equal length) in E. unfold H in E. rewrite length_take, length_drop, Hce in E. cbn [length] in E. lia.
    + apply Forall_lookup. intros j e Hj. unfold H in Hj. apply lookup_take_Some in Hj as [Hj Hjk]. rewrite lookup_drop, Hat in Hj by lia. injection Hj as <-.
      apply S2. lia.
    + unfold H, R. rewrite app_assoc, <- drop_drop, take_drop. intros i j e e' Hij Hi Hj. apply (R3 (k + i)%nat (k + j)%nat e e'); [lia| |].
      * rewrite <- lookup_drop, drop_app_le by lia. done.
      * rewrite <- lookup_drop, drop_app_le by lia. done.
  - intros y Hy. split; [done|]. apply upd_at_ne. intros ->. apply Hy, elem_of_app. right. by left.
Qed.

Lemma full_listing F C c l F' C' y : fchain top F' c (l ++ [y]) -> full C l needed -> F y = 0 -> (forall x, x ∈ l -> F x <> 0) ->
  (forall x, x ∉ l ++ [y] -> F' x = F x) -> C' y = put 0 (concat es) zero_cluster -> (forall x, x <> y -> C' x = C x) ->
  file_added F C c l F' C' (l ++ [y]) (new_node name attr cluster size).
Proof using G Hname Hattr Hcluster Hsize.
  intros Hc [R1 R2] Fy Hnz HF HCy HC. pose proof (file_entries_length name attr cluster size) as Hn.
  split_and!; [done| |right; by exists y|].
  - destruct (listing_app (entries_of C l) scan_start (entries_marked _ _ _ R1)) as [st E]. set (Z0 := drop needed (cluster_entries zero_cluster)).
    destruct (listing_file name attr cluster size Z0 st Hname Hattr Hcluster Hsize) as (st' & _ & E').
    exists (dir_listing vol C l), []. split; [by rewrite app_nil_r|]. unfold dir_listing at 1. rewrite entries_app, entries_cons. cbn [entries_of].
    rewrite (entries_ext C C') by (intros x Hx; apply HC; intros ->; by apply (Hnz y Hx)). rewrite HCy. unfold FatDir.cluster_entries.
    pose proof max_entries_bytes as Hmb. change (entries_of C' []) with (@nil (list Z)). rewrite app_nil_r.
    rewrite (put_entries _ 0) by (first [apply file_entries_sizes|unfold zero_cluster; rewrite length_replicate; lia|lia]). cbn [take app Nat.add]. rewrite Hn.
    change (entry zero_cluster <$> seq 0 (max_entries vol)) with (cluster_entries zero_cluster). fold Z0. rewrite E, take_0. cbn [app]. rewrite E'. rewrite (listing_ended Z0); [done|].
    apply Forall_drop, Forall_fmap, Forall_forall. intros i _. cbn [compose]. unfold zero_cluster. apply entry_zeros.
  - intros x Hx. split; [by apply HF|]. apply HC. intros ->. apply Hx, elem_of_app. right. by left.
Qed.

End file.

(** ** Adding and creating *)

(** The entries have a place in the directory [l], in a hole or in a cluster
    that is still free. *)
Definition placeable F C l needed : Prop :=
  (exists l1 x l2 k, l = l1 ++ x :: l2 /\ room_at C l1 x l2 needed k) \/ (full C l needed /\ exists y r, free_list top F = y :: r).

Lemma wp_add_entry s F C c l name attr cluster size (Q : Z -> fat D -> Prop) :
  good_name name -> Z.testbit attr 3 = false -> 0 <= cluster < 2 ^ 32 -> 0 <= size < 2 ^ 32 ->
  shows s F C -> (0 < fa_pool s)%nat -> fchain top F c l -> l <> [] -> placeable F C l (S (lfn_needed name)) ->
  (forall s' F' C' l', shows s' F' C' -> kept s s' -> file_added F C c l F' C' l' (new_node name attr cluster size) -> Q 0 s') ->
  wp (add_entry dev stale vol (2 * chain_fuel vol) (dir_entries name attr cluster size) c) Q s.
Proof using G.
  intros Hn Ha Hcl Hsz Hs Hp Hc Hl Hplace HQ. rewrite dir_entries_concat. pose proof (file_entries_length name attr cluster size) as Hlen.
  pose proof (file_entries_sizes name attr cluster size) as Hsized. pose proof (chain_fuel_enough _ _ _ _ G _ _ _ Hc) as Hfuel.
  destruct Hplace as [(l1 & x & l2 & k & -> & R)|(R & y & r & Hfree)].
  - assert (Hx : FatInv.valid top x) by (eapply fchain_valid; [exact Hc|]; apply elem_of_app; right; by left).
    destruct (room_listing name attr cluster size Hn Ha Hcl Hsz F C c l1 x l2 k Hc (cluster_bytes _ _ _ _ Hs Hx) R) as [Hk Hadd]. destruct R as [R1 R2 R3].
    rewrite length_app in Hfuel. cbn [length] in Hfuel. apply (wp_add_skip _ Hsized l1 _ s F C c (x :: l2)); [done..|by rewrite Hlen|lia|].
    intros s1 x' [= <-] Hs1 K1. replace (2 * chain_fuel vol - length l1)%nat with (S (2 * chain_fuel vol - length l1 - 1)) by lia.
    apply (wp_add_here _ Hsized _ s1 F C x k); [done|done|by rewrite Hlen|lia|]. intros s2 Hs2 K2. eapply HQ; [exact Hs2|by eapply fat_kept_trans|exact Hadd].
  - destruct (list_snoc_split l Hl) as (l0 & z & ->). rewrite length_app in Hfuel. cbn [length] in Hfuel. pose proof R as [R1 R2].
    apply (wp_add_skip _ Hsized l0 _ s F C c [z]); [done..| |lia|]; [intros y' Hy'; rewrite Hlen; apply R1, elem_of_app; by left|].
    intros s1 x' [= <-] Hs1 K1. replace (2 * chain_fuel vol - length l0)%nat with (S (S (2 * chain_fuel vol - length l0 - 2))) by lia.
    eapply (wp_add_new _ Hsized _ _ s1 F C c l0 z y r); [done|by destruct K1; lia|done|rewrite Hlen; apply R1, elem_of_app; right; by left|by rewrite Hlen|done|].
    intros s2 F' C' Hs2 K2 Hc' HF HCy HC. destruct (free_head _ _ _ _ Hfree) as (F0 & _). eapply HQ; [exact Hs2|by eapply fat_kept_trans|].
    replace (l0 ++ [z; y]) with ((l0 ++ [z]) ++ [y]) in Hc' by by rewrite <- app_assoc.
    eapply (full_listing name attr cluster size Hn Ha Hcl Hsz F C c (l0 ++ [z]) F' C' y); try done.
    + intros x Hx. by apply (fchain_nonzero _ _ _ _ _ Hc Hx).
    + intros x Hx. apply HF; intros ->; apply Hx; rewrite !elem_of_app; [right; by left|left; right; by left].
  Unshelve. intros E. by rewrite E in Hlen.
Qed.

(** C33: [create] of a new file whose entries have a place in the directory
    ([placeable]: enough unused entries in a row in a cluster with no end mark
    in the clusters before it and nothing in use behind an end mark; or, when no
    cluster has room and none an end mark, another free cluster), with a name the
    directory does not hold, a free cluster for the file and memory for the
    buffers: it takes the lowest free cluster as the file's only one, and the
    directory then lists a file of that name and cluster, of size 0, besides
    those it listed before in their order; nothing else on the volume changes
    and no memory is lost.  (Entries that do not fit before the end mark of a
    cluster go behind it, [created_behind_the_end].) *)
Theorem fat32_create_correct s F C dir l name x r :
  good_name name -> shows s F C -> (2 <= fa_pool s)%nat -> (1 <= fa_mem s)%nat -> fn_vol dir = true ->
  fchain top F (fn_inode dir) l -> l <> [] -> 2 * zlen (entries_of C l) + 2 < 2 ^ 32 ->
  find_file name (dir_listing vol C l) = None -> free_list top F = x :: r ->
  placeable (upd_at F x FAT32_EOF) C l (S (lfn_needed name)) ->
  wp (fat32_create dev stale vol dir name)
    (fun v s' => v = 0 /\ kept s s' /\ exists F' C' l', shows s' F' C' /\ fchain top F' x [x] /\
       file_added (upd_at F x FAT32_EOF) C (fn_inode dir) l F' C' l' (new_node name 0x20 x 0)) s.
Proof using G.
  intros Hn Hs Hp Hm Hvol Hc Hl Hlen Hnone Hfree Hplace. pose proof (ge_top _ _ _ _ G) as Htop. destruct (free_head _ _ _ _ Hfree) as (F0 & Hx & _).
  unfold fat32_create, has_volume. rewrite Hvol. wp_steps. eapply (wp_fat_finddir dev stale vol ss total top G); [done..|]. intros v s1 -> Hs1 P1 M1 N1.
  rewrite Hnone in M1 |- *. wp_steps. eapply (wp_allocate dev stale vol ss total top G); [done|lia|done|]. intros s2 Hs2 (P2 & M2 & R2). pose proof Hx as [? ?].
  rewrite (proj2 (Z.eqb_neq x FAT32_BAD_CLUSTER)) by lia. wp_steps. unfold fat32_add_entry, has_volume. rewrite Hvol. wp_steps. assert (Hb : 0 < bytes_per_cluster vol) by (pose proof (bpc_pos _ _ _ _ G) as Hb; unfold FatInv.bpc in Hb; lia).
  apply wp_f_pool_alloc; [done|lia|]. cbn [negb]. wp_steps. assert (Hxl : x ∉ l) by (intros Hin; by apply (fchain_nonzero _ _ _ _ _ Hc Hin)).
  assert (Hc2 : fchain top (upd_at F x FAT32_EOF) (fn_inode dir) l) by (eapply fchain_ext; [exact Hc|]; intros y Hy; apply upd_at_ne; by intros ->).
  apply (wp_add_entry _ (upd_at F x FAT32_EOF) C _ l); [done|done|unfold FAT32_BAD_CLUSTER in *; lia|lia|exact Hs2|cbn; lia|done..|]. intros s3 F3 C3 l3 Hs3 (P3 & M3 & R3) Hadd. wp_steps.
  apply wp_f_pool_free; [done|]. wp_steps. cbn in P3, M3, R3. split; [done|]. split; [split_and!; cbn; [lia|congruence|congruence]|].
  exists F3, C3, l3. split; [exact Hs3|]. split; [|done]. destruct Hadd as (_ & _ & Hl3 & Hrest).
  assert (Hx3 : x ∉ l3).
  { destruct Hl3 as [->|(y & -> & Hy)]; [done|]. rewrite elem_of_app. intros [?|[->|?%elem_of_nil]%elem_of_cons]; try done. by rewrite upd_at_eq in Hy. }
  destruct (Hrest x Hx3) as [E _]. cbn [fchain]. rewrite E, upd_at_eq. by split_and!.
Qed.

End add.
