(* ===== verification/FatLook.v ===== *)
(** * FAT32: looking a name up

    What a directory holds by the format of its entries ([dir_items]): each file
    has a short entry, and before it may stand the fragments of a long name, in
    descending order, which count when their checksum is that of the short
    name.  The scan of [readdir] and [finddir] finds these files. *)

From Stdlib Require Import ZArith Lia.
From stdpp Require Import base tactics list list_numbers.
From S2P Require Import Prelude Bytes Ramfs Fat FatInv FatChain FatFile FatDir FatName FatAdd.

(** ** The format *)

(** Character [j] of the 13 of a fragment. *)
Definition fragment_unit (e : list Z) (j : nat) : Z :=
  get16 e (if decide (j < 5)%nat then 1 + 2 * j else if decide (j < 11)%nat then 14 + 2 * (j - 5) else 28 + 2 * (j - 11))%nat.
(** Character [k] of a long name: behind the last one a zero, then 0xFFFF. *)
Definition name_unit (name : list Z) (k : nat) : Z :=
  match name !! k with Some c => c | None => if decide (k = length name) then 0 else 0xFFFF end.

(** Fragment [i] of [n]; the last one has bit 6 in its number. *)
Record fragment_of (name : list Z) (sum : Z) (n i : nat) (e : list Z) : Prop := {
  fg_bytes : length e = 32%nat /\ Forall byte e;
  fg_number : get8 e 0 = Z.of_nat i + 1 + (if decide (i = n - 1)%nat then 64 else 0);
  fg_attr : get8 e 11 = 0x0F;
  fg_sum : get8 e 13 = sum;
  fg_units : forall j, (j < 13)%nat -> fragment_unit e j = name_unit name (13 * i + j)
}.
(** All fragments of a name, the last one first. *)
Definition fragment_set (name : list Z) (sum : Z) (fs : list (list Z)) : Prop :=
  let n := length fs in
  (13 * (n - 1) < length name <= 13 * n)%nat /\
  forall i, (i < n)%nat -> exists e, fs !! (n - 1 - i)%nat = Some e /\ fragment_of name sum n i e.

(** The checksum of a short name: the sum, turned right by one bit, plus the
    next character. *)
Definition short_checksum (raw : list Z) : Z := foldl (fun sum c => (sum / 2 + 128 * (sum mod 2) + c) mod 256) 0 raw.

Definition to_lower (c : Z) : Z := if decide (65 <= c <= 90) then c + 32 else c.
(** The name of a short entry: up to 8 characters and an extension of up to 3,
    filled with spaces, in lower case. *)
Definition short_name (raw name : list Z) : Prop := exists base ext,
  (length base <= 8)%nat /\ (length ext <= 3)%nat /\ Forall (fun c => c <> 32 /\ c <> 0) (base ++ ext) /\
  raw = base ++ replicate (8 - length base) 32 ++ ext ++ replicate (3 - length ext) 32 /\
  name = map to_lower (base ++ match ext with [] => [] | _ => 46 :: ext end).

(** The name of the short entry [e] behind the fragments [fs]. *)
Definition has_name (fs : list (list Z)) (e name : list Z) : Prop :=
  (good_name name /\ fragment_set name (short_checksum (field 11 0 e)) fs) \/
  (short_name (field 11 0 e) name /\
   (fs = [] \/ exists lost sum, good_name lost /\ fragment_set lost sum fs /\ sum <> short_checksum (field 11 0 e))).
(** Fragments that belong to no file, or none. *)
Definition lost_fragments (fs : list (list Z)) : Prop := fs = [] \/ exists name sum, good_name name /\ fragment_set name sum fs.

Definition end_mark (e : list Z) : Prop := get8 e 0 = 0.
Definition unused_entry (e : list Z) : Prop :=
  get8 e 0 = 0xE5 \/ (get8 e 0 <> 0 /\ get8 e 11 <> 0x0F /\ Z.testbit (get8 e 11) 3 = true).
Definition file_entry (e : list Z) : Prop :=
  length e = 32%nat /\ Forall byte e /\ get8 e 0 <> 0 /\ get8 e 0 <> 0xE5 /\ Z.testbit (get8 e 11) 3 = false.
Definition file_node (e name : list Z) : fnode :=
  FNode name (if Z.testbit (get8 e 11) 4 then VFS_DIRECTORY else VFS_FILE) (get32 e 28) (get16 e 26 + 65536 * get16 e 20) 0
    (if Z.testbit (get8 e 11) 0 then 0x155 else 0x1FF) 0 [] true.

(** The files of a list of entries. *)
Inductive dir_items : list (list Z) -> list fnode -> Prop :=
| items_nil : dir_items [] []
| items_end fs e es : lost_fragments fs -> end_mark e -> dir_items (fs ++ e :: es) []
| items_unused fs e es l : lost_fragments fs -> unused_entry e -> dir_items es l -> dir_items (fs ++ e :: es) l
| items_file fs e es l name : has_name fs e name -> file_entry e -> dir_items es l -> dir_items (fs ++ e :: es) (file_node e name :: l).

(** ** The scan follows the format *)

Lemma field_le16 e (a : nat) (u : nat -> Z) n : Forall byte e -> (a + 2 * n <= length e)%nat ->
  (forall k, (k < n)%nat -> get16 e (a + 2 * k) = u k) -> field (2 * n) a e = flat_map (fun k => le16 (u k)) (seq 0 n).
Proof.
  intros Hb. revert a u. induction n as [|n IH]; intros a u Hl Hu; [done|].
  replace (2 * S n)%nat with (2 + 2 * n)%nat by lia. rewrite field_join. cbn [seq flat_map]. f_equal.
  - rewrite <- Hu, Nat.mul_0_r, Nat.add_0_r by lia. unfold get16, le16, get8.
    destruct (lookup_lt_is_Some_2 e a) as [x Hx]; [lia|]. destruct (lookup_lt_is_Some_2 e (a + 1)) as [y Hy]; [lia|].
    pose proof (Forall_lookup_1 _ _ _ _ Hb Hx) as Bx. pose proof (Forall_lookup_1 _ _ _ _ Hb Hy) as By. unfold byte in Bx, By.
    rewrite Hx, Hy. cbn [default]. apply list_eq. intros [|[|j]]; rewrite ?field_lookup by lia; rewrite ?Nat.add_0_r, ?Hx, ?Hy.
    + cbn. f_equal. zdiv_lia.
    + cbn. f_equal. zdiv_lia.
    + rewrite lookup_ge_None_2; [done|]. unfold field. rewrite length_take. lia.
  - rewrite (IH (a + 2)%nat (fun k => u (S k))); [|lia|].
    + rewrite <- seq_shift, flat_map_concat_map, (flat_map_concat_map _ (map _ _)), map_map. done.
    + intros k Hk. rewrite <- Hu by lia. f_equal. lia.
Qed.
Lemma name_unit_char name k : name_unit name k = lfn_char name (Z.of_nat k).
Proof.
  unfold name_unit, lfn_char, zlen, get8. rewrite Nat2Z.id. destruct (name !! k) as [c|] eqn:E.
  - pose proof (lookup_lt_Some _ _ _ E). by rewrite (proj2 (Z.ltb_lt _ _)) by lia.
  - apply lookup_ge_None in E. rewrite (proj2 (Z.ltb_ge _ _)) by lia. case_decide as Ek.
    + by rewrite Ek, Z.eqb_refl.
    + rewrite (proj2 (Z.eqb_neq _ _)) by lia. done.
Qed.

Lemma fragment_of_like name sum n i e : (i < 20)%nat -> fragment_of name sum n i e -> fragment_like name sum n i e.
Proof.
  intros Hi [[Hl Hb] Hn Ha Hs Hu]. unfold fragment_like. split_and!; [|done|done| | |].
  - rewrite Hn. unfold seq_byte. destruct (Nat.eqb_spec i (n - 1)) as [->|]; [rewrite decide_True by done|rewrite decide_False by done].
    + clear -Hi. revert Hi. generalize (n - 1)%nat. intros m Hm. do 20 (destruct m as [|m]; [done|]). lia.
    + unfold u8. rewrite Z.mod_small; lia.
  - apply (field_le16 e 1 _ 5); [done|lia|]. intros k Hk. specialize (Hu k ltac:(lia)). unfold fragment_unit in Hu.
    rewrite decide_True in Hu by lia. rewrite Hu, name_unit_char. f_equal. lia.
  - apply (field_le16 e 14 _ 6); [done|lia|]. intros k Hk. specialize (Hu (5 + k)%nat ltac:(lia)). unfold fragment_unit in Hu.
    rewrite decide_False, decide_True in Hu by lia. replace (5 + k - 5)%nat with k in Hu by lia. rewrite Hu, name_unit_char. f_equal. lia.
  - apply (field_le16 e 28 _ 2); [done|lia|]. intros k Hk. specialize (Hu (11 + k)%nat ltac:(lia)). unfold fragment_unit in Hu.
    rewrite !decide_False in Hu by lia. replace (11 + k - 11)%nat with k in Hu by lia. rewrite Hu, name_unit_char. f_equal. lia.
Qed.

Lemma fragment_set_list name sum fs : good_name name -> fragment_set name sum fs ->
  fragment_list name sum (lfn_needed name) (lfn_needed name) fs.
Proof.
  intros Hn [Hl Hf]. pose proof (lfn_needed_bounds name Hn) as [B1 B2]. pose proof (gn_length _ Hn).
  assert (En : length fs = lfn_needed name) by lia. rewrite En in Hf. set (n := lfn_needed name) in *. clearbody n.
  assert (K : forall k fs', length fs' = k -> (k <= n)%nat -> (forall i, (i < k)%nat -> exists e, fs' !! (k - 1 - i)%nat = Some e /\ fragment_of name sum n i e) ->
    fragment_list name sum n k fs').
  { induction k as [|k IH]; intros fs' Hk Hle Hi; [by destruct fs'|]. destruct fs' as [|e fs']; [done|]. injection Hk as Hk.
    exists e, fs'. split; [done|]. split.
    - destruct (Hi k ltac:(lia)) as (e' & He' & Hfr). replace (S k - 1 - k)%nat with 0%nat in He' by lia. injection He' as <-. apply fragment_of_like; [lia|done].
    - apply IH; [done|lia|]. intros i Hik. destruct (Hi i ltac:(lia)) as (e' & He' & Hfr). exists e'. split; [|done].
      by replace (S k - 1 - i)%nat with (S (k - 1 - i)) in He' by lia. }
  by apply K.
Qed.

Lemma short_checksum_code raw : length raw = 11%nat -> fat32_checksum raw = short_checksum raw.
Proof.
  intros Hl. unfold fat32_checksum, short_checksum. rewrite take_ge by lia.
  assert (K : forall sum, foldl (fun sum c => u8 ((if Z.odd sum then 0x80 else 0) + Z.shiftr sum 1 + c)) sum raw =
    foldl (fun sum c => (sum / 2 + 128 * (sum mod 2) + c) mod 256) sum raw); [|apply K].
  clear Hl. induction raw as [|c raw IH]; intros sum; [done|]. cbn [foldl]. rewrite IH. f_equal. unfold u8. change (2 ^ 8) with 256.
  rewrite Z.shiftr_div_pow2 by lia. change (2 ^ 1) with 2. f_equal. rewrite Zmod_odd. destruct (Z.odd sum); lia.
Qed.

Lemma non_space_pad l k : Forall (fun c => c <> 32 /\ c <> 0) l -> non_space (l ++ replicate k 32) = l.
Proof.
  intros Hl. unfold non_space. rewrite filter_app. rewrite (filter_none _ (replicate k 32)).
  - rewrite app_nil_r. induction Hl as [|c l [Hc _] Hl IH]; [done|]. rewrite filter_cons, decide_True by done. by rewrite IH.
  - intros x Hx%elem_of_replicate. destruct Hx as [-> _]. intros H. by apply H.
Qed.
Lemma until_nul_all l : Forall (fun c => c <> 0) l -> until_nul l = l.
Proof. induction 1 as [|c l Hc Hl IH]; [done|]. cbn. rewrite (proj2 (Z.eqb_neq _ _)) by done. by rewrite IH. Qed.
Lemma to_lower_code c : lower c = to_lower c.
Proof.
  unfold lower, to_lower. destruct (Z.leb_spec 65 c), (Z.leb_spec c 90); cbn [andb]; case_decide; lia.
Qed.

Lemma short_name_code raw name : short_name raw name -> fat32_format_name raw = name.
Proof.
  intros (base & ext & Hb & He & Hv & -> & ->). apply Forall_app in Hv as [Hvb Hve]. unfold fat32_format_name.
  set (pb := replicate (8 - length base) 32). set (pe := replicate (3 - length ext) 32).
  assert (Lb : length (base ++ pb) = 8%nat) by (unfold pb; rewrite length_app, length_replicate; lia).
  assert (Le : length (ext ++ pe) = 3%nat) by (unfold pe; rewrite length_app, length_replicate; lia).
  assert (F0 : field 8 0 (base ++ pb ++ ext ++ pe) = base ++ pb).
  { unfold field. rewrite drop_0, app_assoc, <- Lb. by rewrite take_app_length. }
  assert (F8 : field 3 8 (base ++ pb ++ ext ++ pe) = ext ++ pe).
  { unfold field. rewrite app_assoc, <- Lb, drop_app_length. apply take_ge. lia. }
  assert (G8 : get8 (base ++ pb ++ ext ++ pe) 8 = match ext with [] => 32 | c :: _ => c end).
  { unfold get8. rewrite app_assoc, lookup_app_r by lia. rewrite Lb, Nat.sub_diag. unfold pe. by destruct ext. }
  rewrite F0, F8, G8. unfold pb, pe. rewrite !non_space_pad by done.
  assert (Hext : (if (match ext with [] => 32 | c :: _ => c end) =? 32 then [] else 46 :: ext) = match ext with [] => [] | _ => 46 :: ext end).
  { destruct ext as [|c ext]; [done|]. apply Forall_cons_1 in Hve as [[Hc _] _]. by rewrite (proj2 (Z.eqb_neq _ _)). }
  rewrite Hext, until_nul_all.
  - apply map_ext. apply to_lower_code.
  - apply Forall_app. split; [eapply Forall_impl; [exact Hvb|]; by intros ? [_ ?]|].
    destruct ext; [constructor|]. constructor; [done|]. eapply Forall_impl; [exact Hve|]. by intros ? [_ ?].
Qed.

Lemma file_node_code e name : Forall byte e -> file_node e name = entry_node e name blank_node.
Proof.
  intros Hb. unfold file_node, entry_node, e_attr, e_size, e_cluster. f_equal. rewrite Z.lor_comm, Z.shiftl_mul_pow2 by lia.
  rewrite lor_add by (pose proof (get16_range e 26 Hb); lia || lia). lia.
Qed.

(** The scan of fragments and the entry behind them. *)
Lemma listing_lost fs es st : lost_fragments fs -> exists st', listing (fs ++ es) st = listing es st'.
Proof.
  intros [->|(name & sum & Hn & Hs)]; [by exists st|]. eexists. apply listing_fragment_list; [done|by apply fragment_set_list].
Qed.

Lemma dir_items_listing es l : dir_items es l -> forall st, sc_has st = false -> listing es st = l.
Proof.
  induction 1 as [|fs e es Hfs He|fs e es l Hfs He _ IH|fs e es l name Hname He _ IH]; intros st Hst; [done| | |].
  - destruct (listing_lost fs (e :: es) st Hfs) as [st' ->]. cbn [listing]. unfold e_first. by rewrite He.
  - destruct (listing_lost fs (e :: es) st Hfs) as [st' ->]. cbn [listing]. unfold e_first, e_attr. destruct He as [He|(H0 & Ha & Hv)].
    + rewrite He. cbn [Z.eqb Pos.eqb]. by apply IH.
    + rewrite (proj2 (Z.eqb_neq _ _) H0). destruct (get8 e 0 =? 0xE5); [by apply IH|]. rewrite (proj2 (Z.eqb_neq _ _) Ha), Hv. by apply IH.
  - destruct He as (Hlen & Hb & H0 & H5 & Ha). assert (Hraw : length (field 11 0 e) = 11%nat) by (apply field_length; lia).
    assert (Hend : forall st', entry_name e st' = name -> listing (e :: es) st' = file_node e name :: l).
    { intros st' En. cbn [listing]. unfold e_first, e_attr. rewrite (proj2 (Z.eqb_neq _ _) H0), (proj2 (Z.eqb_neq _ _) H5).
      rewrite (proj2 (Z.eqb_neq (get8 e 11) 0x0F)) by (intros E; by rewrite E in Ha). rewrite Ha, En, file_node_code by done.
      f_equal. by apply IH. }
    destruct Hname as [[Hn Hs]|(Hshort & Hfs)].
    + rewrite (listing_fragment_list _ _ _ _ _ Hn (fragment_set_list _ _ _ Hn Hs)). apply Hend. unfold entry_name, entry_long, long_name.
      cbn [sc_has sc_sum sc_lfn]. unfold e_name. rewrite short_checksum_code by done. rewrite Z.eqb_refl, (tail_of_0 name Hn).
      rewrite bool_decide_eq_false_2; [done|]. intros E. pose proof (gn_length _ Hn) as Hl. rewrite E in Hl. cbn in Hl. lia.
    + destruct Hfs as [->|(lost & sum & Hn & Hs & Hsum)].
      * apply Hend. unfold entry_name, entry_long. rewrite Hst. cbn [andb]. by apply short_name_code.
      * rewrite (listing_fragment_list _ _ _ _ _ Hn (fragment_set_list _ _ _ Hn Hs)). apply Hend. unfold entry_name, entry_long, long_name.
        cbn [sc_has sc_sum sc_lfn]. unfold e_name. rewrite short_checksum_code by done. rewrite (proj2 (Z.eqb_neq _ sum)) by congruence.
        cbn [andb]. by apply short_name_code.
Qed.

(** ** Looking up *)

Section look.
Context {D : Type} (dev : block_ops D) (stale : nat -> Z) (vol : fat32_volume) (ss total top : Z).
Context `{L : !BlockLaws dev ss total} (G : geometry vol ss total top).
Implicit Types s : fat D.
#[local] Abbreviation shows := (FatInv.shows dev vol ss total top).

(** C34: In a directory whose entries have the format of [dir_items] (files with
    or without a long name of up to 255 characters from 1 to 254 in the
    13-character fragments before the short entry, whose checksum decides
    whether they belong to it; deleted entries, volume labels and fragments
    that belong to no file are no files; nothing counts behind an end mark),
    [finddir] returns the node of the first file with the name, in memory of
    its own, and nothing, with the memory given back, if no file has it. *)
Theorem fat32_finddir_correct s F C dir l name files :
  shows s F C -> (2 <= fa_pool s)%nat -> (1 <= fa_mem s)%nat -> fn_vol dir = true -> fchain top F (fn_inode dir) l ->
  2 * zlen (dir_entries_of vol C l) + 2 < 2 ^ 32 -> dir_items (dir_entries_of vol C l) files ->
  wp (fat32_finddir dev stale vol dir name)
    (fun r s' => r = find_file name files /\ shows s' F C /\ fa_pool s' = fa_pool s /\
       fa_mem s' = match r with Some _ => pred (fa_mem s) | None => fa_mem s end /\ fa_root s' = fa_root s) s.
Proof using G.
  intros Hs Hp Hm Hv Hc Hl Hi. eapply (wp_fat_finddir dev stale vol ss total top G); [done..|].
  intros r s' -> H1 H2 H3 H4. unfold dir_listing in *. rewrite (dir_items_listing _ _ Hi scan_start eq_refl) in *. by split_and!.
Qed.
End look.
