(* ===== verification/FatCheck.v ===== *)
(** * FAT32: a disk in memory

    A block device whose sectors are a list and on which chosen sectors cannot
    be read or written ([BlockLaws]); a small volume on it, at which the
    theorems of the FAT32 files are applied; and runs that show where the
    driver falls short. *)

From Stdlib Require Import ZArith Lia.
From stdpp Require Import base tactics list list_numbers relations.
From S2P Require Import Prelude Bytes Ramfs PageCache Fat FatInv FatChain FatFile FatDir FatName FatAdd FatLook.

(** ** The disk *)

Record ram_disk : Type := RamDisk { rd_sectors : list (list Z); rd_bad : list Z }.

Definition touches (x n : Z) (bad : list Z) : bool := existsb (fun y => (x <=? y) && (y <? x + n)) bad.

Section ram.
Context (ss total : nat).

Definition ram_read (x n : Z) : M ram_disk (option (list Z)) :=
  d <-- kget ;;
  kret (if touches x n (rd_bad d) || (Z.of_nat total <? x + n) then None
        else Some (concat (take (Z.to_nat n) (drop (Z.to_nat x) (rd_sectors d))))).
Definition ram_write (x n : Z) (b : list Z) : M ram_disk bool :=
  d <-- kget ;;
  if touches x n (rd_bad d) || (Z.of_nat total <? x + n) then kret false else
  let l := rd_sectors d in
  kput (RamDisk (take (Z.to_nat x) l ++ pieces ss (Z.to_nat n) b ++ drop (Z.to_nat (x + n)) l) (rd_bad d)) ;;; kret true.
Definition ram_ops : block_ops ram_disk := BlockOps ram_read ram_write None.

Definition ram_ok (d : ram_disk) : Prop := length (rd_sectors d) = total /\ Forall (fun s => length s = ss) (rd_sectors d).
Definition ram_good (d : ram_disk) : Prop := rd_bad d = [].
Definition ram_sector (d : ram_disk) (x : Z) : list Z := default [] (rd_sectors d !! Z.to_nat x).

Lemma ram_len d x : ram_ok d -> 0 <= x < Z.of_nat total -> zlen (ram_sector d x) = Z.of_nat ss.
Proof using.
  intros [H1 H2] Hx. unfold ram_sector. destruct (lookup_lt_is_Some_2 (rd_sectors d) (Z.to_nat x)) as [s Hs]; [lia|]. rewrite Hs. cbn.
  unfold zlen. by rewrite (Forall_lookup_1 _ _ _ _ H2 Hs).
Qed.
Lemma ram_range d x n : ram_ok d -> 0 <= x -> 0 <= n -> x + n <= Z.of_nat total ->
  ram_sector d <$> seqZ x n = take (Z.to_nat n) (drop (Z.to_nat x) (rd_sectors d)).
Proof using.
  intros [H1 _] Hx Hn Ht. apply list_eq. intros i. rewrite list_lookup_fmap. destruct (decide (i < Z.to_nat n)%nat).
  - rewrite lookup_seqZ_lt by lia. cbn. unfold ram_sector. rewrite lookup_take_lt, lookup_drop by done.
    replace (Z.to_nat (x + Z.of_nat i)) with (Z.to_nat x + i)%nat by lia. destruct (lookup_lt_is_Some_2 (rd_sectors d) (Z.to_nat x + i)) as [s ->]; [lia|done].
  - rewrite lookup_seqZ_ge by lia. rewrite lookup_take_ge by lia. done.
Qed.
Lemma touches_nil x n : touches x n [] = false.
Proof using. done. Qed.

Lemma ram_read_law d x n : ram_ok d -> 0 <= x -> 0 < n -> x + n <= Z.of_nat total ->
  wp (ram_read x n) (fun r d' => ram_ok d' /\ (forall y, ram_sector d' y = ram_sector d y) /\
    (ram_good d -> ram_good d' /\ r <> None) /\ (forall b, r = Some b -> b = concat (ram_sector d <$> seqZ x n))) d.
Proof using.
  intros Hd Hx Hn Ht. unfold ram_read. wp_steps. rewrite (proj2 (Z.ltb_ge _ _)), orb_false_r by lia. split_and!; [done|done| |].
  - intros Hg. split; [done|]. by rewrite Hg.
  - intros b. destruct (touches _ _ _); [done|]. intros [= <-]. by rewrite ram_range by lia || done.
Qed.

Lemma ram_write_law d x n b : ram_ok d -> 0 <= x -> 0 < n -> x + n <= Z.of_nat total -> zlen b = n * Z.of_nat ss ->
  wp (ram_write x n b) (fun w d' => ram_ok d' /\ (ram_good d -> ram_good d' /\ w = true) /\
    (forall y, 0 <= y < Z.of_nat total -> ~ (x <= y < x + n) -> ram_sector d' y = ram_sector d y) /\
    (w = true -> concat (ram_sector d' <$> seqZ x n) = b)) d.
Proof using.
  intros Hd Hx Hn Ht Hb. pose proof Hd as [H1 H2]. unfold ram_write. wp_steps. rewrite (proj2 (Z.ltb_ge _ _)), orb_false_r by lia.
  destruct (touches x n (rd_bad d)) eqn:Et; wp_steps.
  { split_and!; [done| |done|done]. intros Hg. by rewrite Hg in Et. }
  set (d' := RamDisk _ _). assert (Hl1 : length (take (Z.to_nat x) (rd_sectors d)) = Z.to_nat x) by (rewrite length_take; lia).
  assert (Hd' : ram_ok d').
  { split; cbn.
    - rewrite !length_app, Hl1, pieces_length, length_drop. lia.
    - rewrite !Forall_app. split_and!; [by apply Forall_take| |by apply Forall_drop]. apply Forall_lookup. intros i p Hp.
      pose proof (lookup_lt_Some _ _ _ Hp) as Hi. rewrite pieces_length in Hi. rewrite pieces_lookup in Hp by done. injection Hp as <-.
      apply field_length. unfold zlen in Hb. nia. }
  split_and!; [done|done| |].
  - intros y Hy Hout. unfold ram_sector, d'. cbn [rd_sectors]. f_equal. destruct (decide (y < x)).
    + rewrite lookup_app_l by lia. apply lookup_take_lt. lia.
    + rewrite lookup_app_r, Hl1 by lia. rewrite lookup_app_r, pieces_length by (rewrite pieces_length; lia). rewrite lookup_drop. f_equal. lia.
  - intros _. rewrite ram_range by (done || lia). unfold d'. cbn [rd_sectors]. rewrite drop_app_length' by done. rewrite take_app_length' by by rewrite pieces_length.
    apply pieces_concat. unfold zlen in Hb. nia.
Qed.

#[export] Instance ram_laws : BlockLaws ram_ops (Z.of_nat ss) (Z.of_nat total) :=
  @Build_BlockLaws _ ram_ops (Z.of_nat ss) (Z.of_nat total) ram_ok ram_good ram_sector ram_len ram_read_law ram_write_law
    (fun f d (E : None = Some f) _ => match E in _ = o return match o with Some _ => _ | None => True end with eq_refl => I end).

End ram.

(** ** A volume of ten clusters

    Sectors of 128 bytes, one to a cluster: the boot sector, two tables, and
    the clusters 2 to 11.  The root directory is cluster 2 and holds "a.txt",
    the clusters 3 and 5; the clusters 6 and 7 lead to each other. *)

Definition SS : nat := 128.
Definition TOTAL : nat := 13.
Definition TOP : Z := 12.
Definition small : fat32_volume := Volume 128 1 128 1 3 2.
Definition no_stale (_ : nat) : Z := 0.
Definition ops : block_ops ram_disk := ram_ops SS TOTAL.

Definition table_of (entries : list Z) : list Z := let b := concat (le32 <$> entries) in b ++ replicate (SS - length b) 0.
Definition cluster_of (b : list Z) : list Z := b ++ replicate (SS - length b) 0.
(** A disk with a table and the contents of the first clusters. *)
Definition disk_of (entries : list Z) (clusters : list (list Z)) : ram_disk :=
  RamDisk ([replicate SS 0; table_of entries; table_of entries] ++ (cluster_of <$> clusters) ++ replicate (10 - length clusters) (replicate SS 0)) [].
Definition mounted_on (d : ram_disk) : fat ram_disk := Fat d 4 8 None.

Definition a_txt : list Z := [97; 46; 116; 120; 116].
Definition b_txt : list Z := [98; 46; 116; 120; 116].
Definition used_entries : list Z := [0x0FFFFFF8; 0x0FFFFFFF; FAT32_EOF; 5; 0; FAT32_EOF; 7; 6].
Definition some_disk : ram_disk :=
  disk_of used_entries [concat (file_entries a_txt 0x20 3 200); Z.of_nat <$> seq 0 128; []; Z.of_nat <$> seq 100 128].
Definition some_fat : fat ram_disk := mounted_on some_disk.
Definition F0 : Z -> Z := fat_at ops small (Z.of_nat SS) (Z.of_nat TOTAL) some_disk.
Definition C0 : Z -> list Z := cluster_at ops small (Z.of_nat SS) (Z.of_nat TOTAL) some_disk.
Definition root_node : fnode := FNode [] VFS_DIRECTORY 0 2 0 0 0 [] true.
Definition file_at (name : list Z) (cluster size : Z) : fnode := new_node name 0x20 cluster size.

Lemma small_geometry : geometry small (Z.of_nat SS) (Z.of_nat TOTAL) TOP.
Proof. split; vm_compute; try done; by split. Qed.

Definition byte_check (b : Z) : bool := (0 <=? b) && (b <? 256).
Lemma forallb_in {A} (f : A -> bool) l : forallb f l = true -> forall x, x ∈ l -> f x = true.
Proof. intros H x Hx. apply (proj1 (List.forallb_forall f l) H). by apply list_elem_of_In. Qed.
Lemma bytes_checked l : forallb byte_check l = true -> Forall byte l.
Proof. intros H. apply Forall_forall. intros x Hx. pose proof (forallb_in _ _ H x Hx) as E. unfold byte_check, byte in *. zbool. lia. Qed.

(** The conditions on a disk, as a test. *)
Definition disk_check (d : ram_disk) : bool :=
  (length (rd_sectors d) =? TOTAL)%nat && forallb (fun s => (length s =? SS)%nat) (rd_sectors d) && bool_decide (rd_bad d = []) &&
  forallb (fun y => forallb byte_check (ram_sector d y)) [0; 1; 2].
Lemma disk_shows d : disk_check d = true ->
  shows ops small (Z.of_nat SS) (Z.of_nat TOTAL) TOP (mounted_on d)
    (fat_at ops small (Z.of_nat SS) (Z.of_nat TOTAL) d) (cluster_at ops small (Z.of_nat SS) (Z.of_nat TOTAL) d).
Proof.
  unfold disk_check. rewrite !andb_true_iff, Nat.eqb_eq, bool_decide_eq_true. intros [[[H1 H2] H3] H4]. split_and!; [|done| |done].
  - split; [done|]. apply Forall_forall. intros s Hs. apply Nat.eqb_eq, (forallb_in _ _ H2 s Hs).
  - intros y Hy. apply bytes_checked. cbn in Hy. cbn [forallb] in H4. rewrite !andb_true_iff in H4. destruct H4 as (K0 & K1 & K2 & _).
    assert (y = 0 \/ y = 1 \/ y = 2) as [E|[E|E]] by lia; by rewrite E.
Qed.
Lemma some_shows : shows ops small (Z.of_nat SS) (Z.of_nat TOTAL) TOP some_fat F0 C0.
Proof. apply disk_shows. by vm_compute. Qed.

(** ** Witnesses *)

Definition chain_check (F : Z -> Z) : Z -> list Z -> bool :=
  fix go c l := match l with
                | [] => negb (in_chain c)
                | x :: l' => (x =? c) && (2 <=? c) && (c <? TOP) && go (F c) l'
                end.
Lemma chain_checked F l : forall c, chain_check F c l = true -> fchain TOP F c l.
Proof.
  induction l as [|x l IH]; intros c; cbn; [by destruct (in_chain c)|]. rewrite !andb_true_iff. intros [[[H1 H2] H3] H4]. zbool. subst x.
  split_and!; [done|split; [done|lia]|by apply IH].
Qed.

#[local] Abbreviation sSS := (Z.of_nat SS).
#[local] Abbreviation sTOTAL := (Z.of_nat TOTAL).
#[local] Abbreviation shows_small := (shows ops small sSS sTOTAL TOP).

Lemma valid_elem x : valid TOP x -> x ∈ seqZ 2 10.
Proof. intros [? ?]. unfold TOP in *. apply elem_of_seqZ. lia. Qed.
Lemma closed_checked F : forallb (fun x => (F x =? 0) || ((2 <=? F x) && (F x <? TOP)) || negb (in_chain (F x))) (seqZ 2 10) = true -> closed TOP F.
Proof.
  intros H x Hx%valid_elem. pose proof (forallb_in _ _ H x Hx) as E. cbn beta in E. destruct (in_chain (F x)); [|by right; right].
  rewrite orb_false_r in E. apply orb_true_iff in E as [E|E]; [left|right; left; split]; zbool; lia.
Qed.

Lemma fat32_free_witness :
  wp (fat32_free_cluster_chain ops no_stale small 6)
    (fun _ s' => exists F', shows_small s' F' C0 /\ kept some_fat s' /\ freed_from TOP F0 6 F') some_fat.
Proof.
  apply (fat32_free_terminates ops no_stale small sSS sTOTAL TOP small_geometry); [apply some_shows|cbn; lia|done|]. apply closed_checked. by vm_compute.
Defined.

Lemma fat32_read_witness :
  wp (fat32_read ops no_stale small (file_at a_txt 3 200) 100 60)
    (fun r s' => r = (60, field 60 100 (content C0 [3; 5])) /\ shows_small s' F0 C0 /\ kept some_fat s') some_fat.
Proof.
  apply (fat32_read_correct ops no_stale small sSS sTOTAL TOP small_geometry some_fat F0 C0 (file_at a_txt 3 200) [3; 5] 100 60);
    [apply some_shows|cbn; lia|apply chain_checked; by vm_compute|done|done|lia|lia|]. intros _. by vm_compute.
Defined.

(** A write that lets the chain grow by cluster 4. *)
Lemma fat32_write_witness :
  wp (fat32_write ops no_stale small (file_at a_txt 3 200) 250 [1; 2; 3; 4; 5; 6; 7; 8; 9])
    (fun r s' => exists F' C' c k, r = (9, grown_node (file_at a_txt 3 200) c 259) /\ shows_small s' F' C' /\ kept some_fat s' /\
       FatFile.wrote TOP c F0 C0 [3; 5] 250 [1; 2; 3; 4; 5; 6; 7; 8; 9] k F' C' /\ valid TOP c /\ (3 <> 0 -> c = 3)) some_fat.
Proof.
  apply (fat32_write_correct ops no_stale small sSS sTOTAL TOP small_geometry some_fat F0 C0 (file_at a_txt 3 200) [3; 5] 250 [1; 2; 3; 4; 5; 6; 7; 8; 9]);
    [apply some_shows|cbn; lia| |done|done|lia|by vm_compute|by vm_compute]. split; [done|apply chain_checked; by vm_compute].
Defined.

Lemma good_name_checked name : forallb (fun c => (1 <=? c) && (c <=? 254)) name = true ->
  ((1 <=? length name) && (length name <=? 255))%nat = true -> (hd 0 name =? 0xE5) = false -> good_name name.
Proof.
  intros H1 [H2 H3]%andb_true_iff H4%Z.eqb_neq. apply Nat.leb_le in H2, H3. split; [|lia|done]. apply Forall_forall. intros c Hc. pose proof (forallb_in _ _ H1 c Hc) as E. cbn beta in E.
  unfold name_byte. zbool. lia.
Qed.
(** The root directory: one fragment, the short entry, and end marks. *)
Definition a_fragment : list Z := lfn_entry a_txt (short_checksum (fat32_to_83_name a_txt)) 1 0.
Definition a_short : list Z := sfn_entry (fat32_to_83_name a_txt) 0x20 3 200.
Lemma a_fragment_of : fragment_of a_txt (short_checksum (fat32_to_83_name a_txt)) 1 0 a_fragment.
Proof.
  split; [split; [done|apply bytes_checked; by vm_compute]|by vm_compute..|]. intros j Hj.
  do 13 (destruct j as [|j]; [by vm_compute|]). lia.
Qed.
Lemma some_items : dir_items (dir_entries_of small C0 [2]) [file_node a_short a_txt].
Proof.
  assert (E : dir_entries_of small C0 [2] = [a_fragment] ++ a_short :: [] ++ replicate 32 0 :: [replicate 32 0]) by by vm_compute.
  rewrite E. apply items_file.
  - left. split; [by apply good_name_checked|]. split; [cbn; lia|]. intros i Hi. cbn in Hi. assert (i = 0%nat) as -> by lia.
    exists a_fragment. split; [done|exact a_fragment_of].
  - split; [done|]. split; [apply bytes_checked; by vm_compute|by vm_compute].
  - apply items_end; [by left|by vm_compute].
Qed.

Lemma fat32_finddir_witness :
  wp (fat32_finddir ops no_stale small root_node a_txt)
    (fun r s' => r = Some (file_at a_txt 3 200) /\ fa_mem s' = 7%nat) some_fat.
Proof.
  eapply wp_mono.
  - apply (fat32_finddir_correct ops no_stale small sSS sTOTAL TOP small_geometry some_fat F0 C0 root_node [2] a_txt [file_node a_short a_txt]);
      [apply some_shows|cbn; lia|cbn; lia|done|apply chain_checked; by vm_compute|by vm_compute|exact some_items].
  - intros r s' (-> & _ & _ & H & _). assert (E : find_file a_txt [file_node a_short a_txt] = Some (file_at a_txt 3 200)) by by vm_compute.
    rewrite E in *. exact (conj eq_refl H).
Defined.
(** It is there, and only it. *)
Lemma some_listing : dir_listing small C0 [2] = [file_at a_txt 3 200].
Proof. by vm_compute. Qed.

Lemma tidy_split a b : all_marked a -> Forall (fun e => e_first e = 0) b -> tidy (a ++ b).
Proof.
  intros Ha Hb i j e e' Hij Hi Hj E. destruct (decide (i < length a)%nat).
  - rewrite lookup_app_l in Hi by done. by apply (Forall_lookup_1 _ _ _ _ Ha Hi) in E.
  - rewrite lookup_app_r in Hj by lia. by apply (Forall_lookup_1 _ _ _ _ Hb Hj).
Qed.
Lemma some_room F : placeable small TOP F C0 [2] 2.
Proof.
  left. exists [], 2, [], 2%nat. split; [done|]. split.
  - by intros y ?%elem_of_nil.
  - by vm_compute.
  - rewrite <- (take_drop 2 (_ ++ _)). apply tidy_split; apply Forall_forall; intros e He.
    + assert (E : forallb (fun e => negb (e_first e =? 0)) (take 2 (cluster_entries small (C0 2) ++ dir_entries_of small C0 [])) = true) by by vm_compute.
      apply (forallb_in _ _ E) in He. zbool. by destruct (Z.eqb_spec (e_first e) 0).
    + assert (E : forallb (fun e => e_first e =? 0) (drop 2 (cluster_entries small (C0 2) ++ dir_entries_of small C0 [])) = true) by by vm_compute.
      apply (forallb_in _ _ E) in He. by apply Z.eqb_eq.
Qed.

Lemma fat32_create_witness :
  wp (fat32_create ops no_stale small root_node b_txt)
    (fun v s' => v = 0 /\ kept some_fat s' /\ exists F' C' l', shows_small s' F' C' /\ fchain TOP F' 4 [4] /\
       file_added small TOP (upd_at F0 4 FAT32_EOF) C0 2 [2] F' C' l' (file_at b_txt 4 0)) some_fat.
Proof.
  apply (fat32_create_correct ops no_stale small sSS sTOTAL TOP small_geometry some_fat F0 C0 root_node [2] b_txt 4 [8; 9; 10; 11]);
    [by apply good_name_checked|apply some_shows|cbn; lia|cbn; lia|done|apply chain_checked; by vm_compute|done|by vm_compute|by vm_compute|by vm_compute|apply some_room].
Defined.

(** The node of "a.txt" with an empty cache. *)
Definition a_node : cnode (ffile ram_disk) := CNode VFS_FILE 200 128 [] (FFile some_fat 3) 8 (fun _ => 0).

#[export] Instance small_laws : DriverLaws (fat32_driver ops no_stale small) := fat32_laws ops no_stale small sSS sTOTAL TOP small_geometry.

Lemma a_node_ok : cache_ok (fat32_driver ops no_stale small) a_node.
Proof.
  assert (Hst : forall i, 0 <= i < 256 -> is_Some (stored (c_dev a_node) i)).
  { intros i Hi. change (stored (c_dev a_node) i) with (fat_stored ops small sSS sTOTAL TOP (c_dev a_node) i). unfold fat_stored. rewrite (proj2 (Z.leb_le _ _)) by lia.
    apply lookup_lt_is_Some. assert (length (file_bytes ops small sSS sTOTAL TOP (c_dev a_node)) = 256%nat) as -> by by vm_compute. lia. }
  split; try done.
  - split; [apply some_shows|]. split; [cbn; lia|]. assert (file_list ops small sSS sTOTAL TOP (c_dev a_node) = [3; 5]) as -> by by vm_compute.
    split; [done|apply chain_checked; by vm_compute].
  - apply NoDup_nil_2.
  - intros i Hi _. apply Hst. cbn in Hi. lia.
Qed.

Lemma fat32_cached_write_witness :
  wp (vfs_write (fat32_driver ops no_stale small) 190 [1; 2; 3; 4; 5; 6; 7; 8; 9; 10; 11; 12] ;;; vfs_flush (fat32_driver ops no_stale small))
    (fun r c' => r = 0 /\ fat_ok ops small sSS sTOTAL TOP (c_dev c') /\ c_size c' = Z.max 200 202 /\
       forall i, 0 <= i < c_size c' -> file_bytes ops small sSS sTOTAL TOP (c_dev c') !! Z.to_nat i =
         rewritten (fat32_driver ops no_stale small) a_node 190 [1; 2; 3; 4; 5; 6; 7; 8; 9; 10; 11; 12] i) a_node.
Proof.
  apply (fat32_cached_write ops no_stale small sSS sTOTAL TOP small_geometry a_node 190); [apply a_node_ok|done|cbn; lia|done|by vm_compute|cbn; lia].
Defined.

(** ** Where the driver falls short *)

Definition result {S A} (m : M S A) (s : S) : option A := match m s with Ok (a, _) => Some a | Stop _ => None end.
Definition entry_of (c : Z) : M (fat ram_disk) Z := d <-- kgets fa_dev ;; kret (fat_at ops small sSS sTOTAL d c).
Definition look (dir : fnode) (name : list Z) : M (fat ram_disk) (option (Z * Z)) :=
  r <-- fat32_finddir ops no_stale small dir name ;; kret (option_map (fun n => (fn_inode n, fn_size n)) r).
(** "abcdefgh1.t", "abcdefgh2.t" and "abcdefghijklmn". *)
Definition twin1 : list Z := [97; 98; 99; 100; 101; 102; 103; 104; 49; 46; 116].
Definition twin2 : list Z := [97; 98; 99; 100; 101; 102; 103; 104; 50; 46; 116].
Definition long14 : list Z := (fun i => 97 + Z.of_nat i) <$> seq 0 14.
Definition long40 : list Z := (fun i => 97 + Z.of_nat (i mod 20)) <$> seq 0 40.
Definition start_entries : list Z := [0x0FFFFFF8; 0x0FFFFFFF; FAT32_EOF].

(** Names with the same short form: removing the second file removes the
    entries of the first, and leaves an entry with a free cluster. *)
Lemma twin_removed :
  let d := disk_of (start_entries ++ [FAT32_EOF; FAT32_EOF]) [concat (file_entries twin1 0x20 3 10 ++ file_entries twin2 0x20 4 10)] in
  result (r <-- fat32_unlink ops no_stale small root_node twin2 ;; a <-- look root_node twin1 ;; b <-- look root_node twin2 ;;
          e <-- entry_of 4 ;; kret (r, a, b, e)) (mounted_on d) = Some (0, None, Some (4, 10), 0).
Proof. by vm_compute. Qed.

(** After a truncation the node keeps its freed cluster: what is written then
    lies in a free cluster, which the next file gets. *)
Lemma truncated_node_dangles :
  result (o <-- fat32_open ops no_stale small (file_at a_txt 3 200) (VFS_MODE_WRITE + VFS_MODE_TRUNC) ;;
          w <-- fat32_write ops no_stale small o.2 0 [7] ;; e <-- entry_of 3 ;; c <-- fat32_allocate_cluster ops no_stale small ;;
          kret (o.1, w.1, fn_inode w.2, e, c)) some_fat = Some (0, 1, 3, 0, 3).
Proof. by vm_compute. Qed.

(** The search for a free cluster goes on behind the last cluster of the
    volume: on a full one it finds a cluster that is not on the disk. *)
Lemma phantom_cluster :
  let d := disk_of (start_entries ++ replicate 9 FAT32_EOF) [] in
  result (c <-- fat32_allocate_cluster ops no_stale small ;;
          r <-- read_into ops no_stale 128 (cluster_to_sector small c) 1 ;; kret (c, r)) (mounted_on d) = Some (12, None).
Proof. by vm_compute. Qed.

(** A name that does not fit before the end of a cluster goes to the next one,
    behind the end mark: the file has been created and cannot be found. *)
Lemma created_behind_the_end :
  result (r <-- fat32_create ops no_stale small root_node long14 ;; f <-- look root_node long14 ;; kret (r, f)) some_fat = Some (0, None).
Proof. by vm_compute. Qed.

(** A name with more entries than a cluster has room for takes every cluster
    of the volume before it is refused. *)
Lemma too_long_fills_volume :
  result (r <-- fat32_create ops no_stale small root_node long40 ;; a <-- entry_of 3 ;; b <-- entry_of 4 ;; c <-- entry_of 11 ;; kret (r, a, b, c))
    (mounted_on (disk_of start_entries [])) = Some (-1, FAT32_EOF, 5, 12).
Proof. by vm_compute. Qed.

(** A directory that cannot be read counts as empty and is removed. *)
Lemma unreadable_removed :
  let d := disk_of (start_entries ++ [FAT32_EOF; FAT32_EOF]) [concat (file_entries [100] 0x10 3 0); concat (file_entries b_txt 0x20 4 5)] in
  result (fat32_rmdir ops no_stale small root_node [100]) (mounted_on (RamDisk (rd_sectors d) [4])) = Some 0 /\
  result (fat32_rmdir ops no_stale small root_node [100]) (mounted_on d) = Some (-4).
Proof. split; by vm_compute. Qed.

(** [chmod] of a file that is not in the root directory fails. *)
Lemma chmod_only_in_root :
  let d := disk_of (start_entries ++ [FAT32_EOF; FAT32_EOF]) [concat (file_entries [100] 0x10 3 0); concat (file_entries b_txt 0x20 4 5)] in
  result (n <-- fat32_finddir ops no_stale small (new_node [100] 0x10 3 0) b_txt ;;
          match n with Some n => r <-- fat32_chmod ops no_stale small n 0x100 ;; kret (Some r.1) | None => kret None end) (mounted_on d) = Some (Some (-1)).
Proof. by vm_compute. Qed.

(** A boot sector with a sector size of 0 is mounted; the first use of the
    table divides by it. *)
Lemma zero_sector_size_mounted :
  let d := RamDisk (put 66 [0x29] (put 13 [1; 1; 0; 2] (replicate SS 0)) :: replicate 12 (replicate SS 0)) [] in
  match fat32_mount_callback ops [47] (mounted_on d) with
  | Ok (Some (_, v), s) => bytes_per_sector v = 0 /\ fat32_get_next_cluster ops no_stale v 2 s = Stop Halted
  | _ => False
  end.
Proof. by vm_compute. Qed.

(** A write of which nothing reaches the disk lets the file grow. *)
Lemma failed_write_grows :
  result (w <-- fat32_write ops no_stale small (file_at a_txt 3 200) 240 [7] ;; kret (w.1, fn_size w.2))
    (mounted_on (RamDisk (rd_sectors some_disk) [6])) = Some (0, 240).
Proof. by vm_compute. Qed.

(** The first cluster of an empty file is not stored in its entry: after the
    write and [close] the entry has a size and no cluster. *)
Lemma first_cluster_lost :
  let d := disk_of start_entries [concat (file_entries a_txt 0x20 0 0)] in
  result (w <-- fat32_write ops no_stale small (file_at a_txt 0 0) 0 [7; 8] ;; c <-- fat32_close ops no_stale small w.2 ;;
          f <-- look root_node a_txt ;; kret (w.1, fn_inode w.2, c, f)) (mounted_on d) = Some (2, 3, 0, Some (0, 2)).
Proof. by vm_compute. Qed.

(** A link to a cluster that is not on the volume is followed: the word that
    would be its entry is cleared, here the first bytes of cluster 2; a link to
    1 clears a reserved entry. *)
Lemma link_outside_zeroes :
  let d := disk_of (start_entries ++ [64]) [[9; 9; 9; 9; 9; 9]] in
  result (fat32_free_cluster_chain ops no_stale small 3 ;;; d <-- kgets fa_dev ;; kret (take 6 (cluster_at ops small sSS sTOTAL d 2))) (mounted_on d) =
  Some [0; 0; 0; 0; 9; 9].
Proof. by vm_compute. Qed.
Lemma link_to_reserved :
  let d := disk_of (start_entries ++ [1]) [] in
  result (a <-- entry_of 1 ;; fat32_free_cluster_chain ops no_stale small 3 ;;; b <-- entry_of 1 ;; kret (a, b)) (mounted_on d) =
  Some (0x0FFFFFFF, 0).
Proof. by vm_compute. Qed.

(** [create] keeps the cluster of a file whose entry could not be written. *)
Lemma failed_create_leaks :
  result (r <-- fat32_create ops no_stale small root_node b_txt ;; e <-- entry_of 4 ;; kret (r, e))
    (mounted_on (RamDisk (rd_sectors some_disk) [3])) = Some (-1, FAT32_EOF).
Proof. by vm_compute. Qed.
