(* ===== verification/BlockThms.v ===== *)
(** * Partitions and the device catalogue

    A partition as a block device with the laws of a disk ([BlockLaws]), its
    confinement to its part of the disk, what registering a device does to the
    catalogue, and the devices that the scan of an MBR adds. *)

From Stdlib Require Import ZArith Lia.
From stdpp Require Import base tactics list list_numbers gmap.
From S2P Require Import Prelude Bytes Fat FatInv Block.

Lemma wp_bdev_at {D} p d (Q : block_device -> blk D -> Prop) s : b_devs s !! p = Some d -> Q d s -> wp (bdev_at p) Q s.
Proof. intros Hd HQ. unfold bdev_at, wp, kbind, kget. by rewrite Hd. Qed.

(** ** A partition is a disk *)

Section partition.
Context {D : Type} (h : hardware D) (q p : Z) (ctx : partition_ctx) (ss n : Z).
Implicit Types s : blk D.
(** The functions of the disk [q] and of the partition [p]. *)
Definition disk_ops : block_ops D := BlockOps (hw_read h q) (hw_write h q) None.
Definition partition_ops : block_ops (blk D) := BlockOps (read_blocks h p) (write_blocks h p) None.
Context `{L : !BlockLaws disk_ops ss n}.
Context (Hphys : phys_dev ctx = q) (Hstart : 0 <= start_lba ctx) (Hend : start_lba ctx + pc_total ctx <= n) (Hn : n < 2 ^ 63).

(** [p] is the partition and [q] a disk. *)
Definition is_partition s : Prop :=
  (exists d, b_devs s !! p = Some d /\ bd_part d = Some ctx) /\ exists e, b_devs s !! q = Some e /\ bd_part e = None.
Definition part_sane s : Prop := is_partition s /\ bl_ok (b_hw s).
Definition part_good s : Prop := bl_good (b_hw s).
Definition part_sector s (x : Z) : list Z := bl_sector (b_hw s) (start_lba ctx + x).
(** Only the disks have changed. *)
Definition only_hw s s' : Prop := s' = set_b_hw (b_hw s') s.

Lemma only_hw_partition s s' : only_hw s s' -> is_partition s -> is_partition s'.
Proof using. intros ->. done. Qed.
Lemma devs_size s : is_partition s -> exists k, size (b_devs s) = S k.
Proof using.
  intros [(d & Hd & _) _]. destruct (size (b_devs s)) as [|k] eqn:E; [|by exists k]. apply map_size_empty_inv in E. by rewrite E, lookup_empty in Hd.
Qed.

Lemma wp_part_read s x c (Q : option (list Z) -> blk D -> Prop) :
  is_partition s -> 0 <= x -> 0 <= c -> x + c < 2 ^ 64 ->
  (pc_total ctx < x + c -> Q None s) ->
  (x + c <= pc_total ctx -> wp (hw_read h q (start_lba ctx + x) c) (fun r d' => Q r (set_b_hw d' s)) (b_hw s)) -> wp (read_blocks h p x c) Q s.
Proof using Hphys Hstart Hend Hn.
  intros Hp Hx Hc Hov H1 H2. destruct (devs_size s Hp) as [k Hk]. destruct Hp as [(d & Hd & Hdc) (e & He & Hec)]. unfold read_blocks. wp_steps. rewrite Hk. cbn [read_dev].
  wp_steps. eapply wp_bdev_at; [done|]. rewrite Hdc, u64_small by lia. destruct (Z.ltb_spec (pc_total ctx) (x + c)); wp_steps; [by apply H1|].
  rewrite Hphys. eapply wp_bdev_at; [done|]. rewrite Hec, u64_small by lia. unfold in_hw. wp_steps. by apply H2.
Qed.
Lemma wp_part_write s x c b (Q : bool -> blk D -> Prop) :
  is_partition s -> 0 <= x -> 0 <= c -> x + c < 2 ^ 64 ->
  (pc_total ctx < x + c -> Q false s) ->
  (x + c <= pc_total ctx -> wp (hw_write h q (start_lba ctx + x) c b) (fun r d' => Q r (set_b_hw d' s)) (b_hw s)) -> wp (write_blocks h p x c b) Q s.
Proof using Hphys Hstart Hend Hn.
  intros Hp Hx Hc Hov H1 H2. destruct (devs_size s Hp) as [k Hk]. destruct Hp as [(d & Hd & Hdc) (e & He & Hec)]. unfold write_blocks. wp_steps. rewrite Hk. cbn [write_dev].
  wp_steps. eapply wp_bdev_at; [done|]. rewrite Hdc, u64_small by lia. destruct (Z.ltb_spec (pc_total ctx) (x + c)); wp_steps; [by apply H1|].
  rewrite Hphys. eapply wp_bdev_at; [done|]. rewrite Hec, u64_small by lia. unfold in_hw. wp_steps. by apply H2.
Qed.

Lemma part_range s x c : part_sector s <$> seqZ x c = bl_sector (b_hw s) <$> seqZ (start_lba ctx + x) c.
Proof using.
  apply list_eq. intros i. rewrite !list_lookup_fmap. destruct (decide (Z.of_nat i < c)).
  - rewrite !lookup_seqZ_lt by lia. cbn. unfold part_sector. do 2 f_equal. lia.
  - by rewrite !lookup_seqZ_ge by lia.
Qed.

Lemma part_len s x : part_sane s -> 0 <= x < pc_total ctx -> zlen (part_sector s x) = ss.
Proof using Hstart Hend. intros [_ Hs] Hx. unfold part_sector. apply bl_len; [done|lia]. Qed.
Lemma part_read s x c : part_sane s -> 0 <= x -> 0 < c -> x + c <= pc_total ctx ->
  wp (bo_read partition_ops x c) (fun r s' => part_sane s' /\ (forall y, part_sector s' y = part_sector s y) /\
    (part_good s -> part_good s' /\ r <> None) /\ (forall b, r = Some b -> b = concat (part_sector s <$> seqZ x c))) s.
Proof using Hphys Hstart Hend Hn.
  intros [Hp Hs] Hx Hc Ht. apply wp_part_read; [done|lia..|]. intros _.
  eapply wp_mono; [apply (bl_read (dev := disk_ops) (b_hw s) (start_lba ctx + x) c); [done|lia..]|]. intros r d' (K1 & K2 & K3 & K4). split_and!; [by split| |exact K3|].
  - intros y. apply K2.
  - intros b Hb. rewrite part_range. by apply K4.
Qed.
Lemma part_write s x c b : part_sane s -> 0 <= x -> 0 < c -> x + c <= pc_total ctx -> zlen b = c * ss ->
  wp (bo_write partition_ops x c b) (fun w s' => part_sane s' /\ (part_good s -> part_good s' /\ w = true) /\
    (forall y, 0 <= y < pc_total ctx -> ~ (x <= y < x + c) -> part_sector s' y = part_sector s y) /\
    (w = true -> concat (part_sector s' <$> seqZ x c) = b)) s.
Proof using Hphys Hstart Hend Hn.
  intros [Hp Hs] Hx Hc Ht Hb. apply wp_part_write; [done|lia..|]. intros _.
  eapply wp_mono; [apply (bl_write (dev := disk_ops) (b_hw s) (start_lba ctx + x) c b); [done|lia..|done]|]. intros w d' (K1 & K2 & K3 & K4). split_and!; [by split|exact K2| |].
  - intros y Hy Hout. apply K3; lia.
  - intros Hw. rewrite part_range. by apply K4.
Qed.

(** The file systems' laws hold for a partition. *)
#[export] Instance partition_laws : BlockLaws partition_ops ss (pc_total ctx) :=
  @Build_BlockLaws _ partition_ops ss (pc_total ctx) part_sane part_good part_sector part_len part_read part_write
    (fun f d (E : None = Some f) _ => match E in _ = o return match o with Some _ => _ | None => True end with eq_refl => I end).


End partition.

(** ** The catalogue *)

Section catalogue.
Context {D : Type} (h : hardware D).
Implicit Types s : blk D.

(** The catalogue holds the devices [l], in its first slots; addresses and
    identifiers that are still to be given are not in use. *)
Record packed s (l : list Z) : Prop := {
  pk_table : g_block_devices s = l ++ replicate (16 - length l) 0;
  pk_len : (length l <= 16)%nat;
  pk_devs : forall p, p ∈ l -> 0 < p < b_next s /\ is_Some (b_devs s !! p);
  pk_next : 0 < b_next s;
  pk_fresh : forall p, b_next s <= p -> b_devs s !! p = None;
  pk_id : 0 <= g_next_device_id s < 2 ^ 31 - 16;
  pk_ids : forall p d, p ∈ l -> b_devs s !! p = Some d -> 0 <= bd_id d < g_next_device_id s
}.

Lemma packed_slot s l (i : nat) : packed s l -> (i < 16)%nat -> g_block_devices s !! i = Some (default 0 (l !! i)).
Proof using.
  intros [H1 H2 _ _ _ _ _] Hi. rewrite H1. destruct (decide (i < length l)%nat).
  - rewrite lookup_app_l by done. by destruct (lookup_lt_is_Some_2 l i) as [x ->].
  - rewrite lookup_app_r, (lookup_ge_None_2 l) by lia. apply lookup_replicate_2. lia.
Qed.

(** The first slot of the 16 that passes a test which changes nothing. *)
Lemma wp_find_slot s l (f : Z -> M (blk D) bool) (b : Z -> bool) (Q : option Z -> blk D -> Prop) : packed s l ->
  (forall p, p ∈ l \/ p = 0 -> f p s = Ok (b p, s)) ->
  (forall r, match r with
             | Some i => 0 <= i < 16 /\ b (default 0 (l !! Z.to_nat i)) = true /\ forall j, (Z.of_nat j < i) -> b (default 0 (l !! j)) = false
             | None => forall j, (j < 16)%nat -> b (default 0 (l !! j)) = false
             end -> Q r s) ->
  wp (find_slot f) Q s.
Proof using.
  intros Hpk Hf HQ. unfold find_slot. wp_steps. change (Z.to_nat BLOCK_MAX_DEVICES) with 16%nat.
  eapply wp_mono; [apply (wp_loop (fun i _ s' => s' = s /\ 0 <= i /\ forall j, Z.of_nat j < i -> b (default 0 (l !! j)) = false)
    (fun r s' => s' = s /\ match r with
             | inr i => 0 <= i < 16 /\ b (default 0 (l !! Z.to_nat i)) = true /\ forall j, (Z.of_nat j < i) -> b (default 0 (l !! j)) = false
             | inl _ => forall j, (j < 16)%nat -> b (default 0 (l !! j)) = false end))|].
  - split_and!; [done|lia|]. intros j Hj. lia.
  - intros i a s' Hi (-> & Hi0 & Hb). wp_steps. assert (Hslot := packed_slot s l (Z.to_nat i) Hpk ltac:(lia)). eapply wp_rd; [lia|exact Hslot|]. wp_steps.
    set (p := default 0 (l !! Z.to_nat i)) in *. assert (Hp : p ∈ l \/ p = 0).
    { unfold p. destruct (l !! Z.to_nat i) eqn:E; [left; by eapply list_elem_of_lookup_2|by right]. }
    eapply wp_intro; [by apply Hf|]. wp_steps. destruct (b p) eqn:Ep; wp_steps; split_and!; try done; try lia.
    intros j Hj. destruct (decide (j = Z.to_nat i)) as [->|]; [done|]. apply Hb. lia.
  - intros a s' (-> & _ & Hb). split; [done|]. intros j Hj. apply Hb. lia.
  - intros r s' [-> Hr]. wp_steps. destruct r as [a|i]; by apply HQ.
Qed.

Lemma wp_set_slot s i p (Q : unit -> blk D -> Prop) : 0 <= i < zlen (g_block_devices s) ->
  Q tt (set_catalogue (<[Z.to_nat i := p]> (g_block_devices s)) (g_next_device_id s) s) -> wp (set_slot i p) Q s.
Proof using. intros Hi HQ. unfold set_slot. wp_steps. apply wp_upd; [done|]. by wp_steps. Qed.

(** Registering a device. *)
Definition registered s p d : blk D :=
  set_b_devs (<[p := set_bd_id (g_next_device_id s) d]> (b_devs s)) (set_catalogue (g_block_devices s) (g_next_device_id s + 1) s).

Lemma wp_register s l p d (Q : Z -> blk D -> Prop) : packed s l -> (length l < 16)%nat -> 0 < p < b_next s -> p ∉ l -> b_devs s !! p = Some d ->
  (forall s', packed s' (l ++ [p]) -> b_devs s' = <[p := set_bd_id (g_next_device_id s) d]> (b_devs s) -> g_next_device_id s' = g_next_device_id s + 1 ->
     b_hw s' = b_hw s -> b_next s' = b_next s -> b_mem s' = b_mem s -> b_pool s' = b_pool s -> Q (g_next_device_id s) s') -> g_next_device_id s + 1 < 2 ^ 31 - 16 ->
  wp (register_block_device p) Q s.
Proof using.
  intros Hpk Hl Hp Hpl Hd HQ Hid. pose proof Hpk as [H1 H2 H3 H4 H5 H6 H7]. unfold register_block_device. rewrite (proj2 (Z.eqb_neq p 0)) by lia. wp_steps.
  apply (wp_find_slot s l _ (fun p => p =? 0)); [done|done|]. intros r Hr.
  assert (Hz : forall j, (j < length l)%nat -> (default 0 (l !! j) =? 0) = false).
  { intros j Hj. destruct (lookup_lt_is_Some_2 l j Hj) as [x Hx]. rewrite Hx. cbn. apply Z.eqb_neq. destruct (H3 x); [by eapply list_elem_of_lookup_2|lia]. }
  assert (Hz2 : (default 0 (l !! length l) =? 0) = true) by by rewrite lookup_ge_None_2.
  destruct r as [i|]; [|by rewrite Hr in Hz2]. destruct Hr as (Hi & Hb & Hbefore). assert (Ei : Z.to_nat i = length l).
  { destruct (decide (Z.to_nat i < length l)%nat); [by rewrite Hz in Hb|]. destruct (decide (Z.of_nat (length l) < i)) as [Hlt|]; [by rewrite (Hbefore _ Hlt) in Hz2|lia]. }
  wp_steps. eapply wp_bdev_at; [done|]. wp_steps. rewrite u32_small by lia. apply wp_set_slot.
  { cbn. unfold zlen. rewrite H1, length_app, length_replicate. lia. }
  wp_steps. rewrite s32_small by lia. apply HQ; try done. cbn. rewrite Ei. split; cbn.
  - rewrite H1, insert_app_r_alt, Nat.sub_diag by done. destruct (16 - length l)%nat as [|k] eqn:Ek; [lia|]. cbn. rewrite length_app. cbn. rewrite <- app_assoc.
    replace (16 - (length l + 1))%nat with k by lia. done.
  - rewrite length_app. cbn. lia.
  - intros x Hx. destruct (decide (x = p)) as [->|Hne]; [split; [done|]; rewrite lookup_insert_eq; by eexists|]. rewrite lookup_insert_ne by done.
    apply H3. apply elem_of_app in Hx as [?|[?|?%elem_of_nil]%elem_of_cons]; done.
  - done.
  - intros x Hx. rewrite lookup_insert_ne by lia. by apply H5.
  - lia.
  - intros x e Hx. destruct (decide (x = p)) as [->|Hne]; [rewrite lookup_insert_eq; intros [= <-]; cbn; lia|]. rewrite lookup_insert_ne by done.
    intros He. assert (x ∈ l) as Hxl by (apply elem_of_app in Hx as [?|[?|?%elem_of_nil]%elem_of_cons]; done). specialize (H7 x e Hxl He). lia.
Qed.

(** A registered device has a new identifier, and is found by it; the devices
    before keep theirs. *)
Theorem register_block_device_correct s l p d :
  packed s l -> (length l < 16)%nat -> 0 < p < b_next s -> p ∉ l -> b_devs s !! p = Some d -> g_next_device_id s + 1 < 2 ^ 31 - 16 ->
  wp (id <-- register_block_device p ;; q <-- block_get_device_by_index id ;; kret (id, q))
    (fun r s' => r = (g_next_device_id s, p) /\ packed s' (l ++ [p]) /\ forall x, x <> p -> b_devs s' !! x = b_devs s !! x) s.
Proof using.
  intros Hpk Hl Hp Hpl Hd Hid. wp_steps. eapply wp_register; [done..| |done]. intros s' Hpk' Ed En Eh Ex Em Ep. wp_steps.
  unfold block_get_device_by_index, find_device. wp_steps. pose proof Hpk' as [_ _ K3 _ _ _ _]. pose proof Hpk as [_ _ H3 _ _ _ H7].
  apply (wp_find_slot s' (l ++ [p]) _ (fun x => if x =? 0 then false else match b_devs s' !! x with Some d => bd_id d =? g_next_device_id s | None => false end)); [done| |].
  - intros x Hx. unfold has_id. destruct (Z.eqb_spec x 0); [done|]. destruct Hx as [Hx|]; [|done]. destruct (K3 x Hx) as [_ [e He]].
    unfold bdev_at, kbind, kget. by rewrite He.
  - intros r Hr. assert (Hlast : (l ++ [p]) !! length l = Some p) by by rewrite lookup_app_r, Nat.sub_diag.
    destruct r as [i|]; [|specialize (Hr (length l) Hl); rewrite Hlast in Hr; cbn in Hr; rewrite (proj2 (Z.eqb_neq p 0)), Ed, lookup_insert_eq in Hr by lia; cbn in Hr; by rewrite Z.eqb_refl in Hr].
    destruct Hr as (Hi & Hb & _). wp_steps. pose proof (packed_slot s' _ (Z.to_nat i) Hpk' ltac:(lia)) as Hslot. eapply wp_rd; [lia|exact Hslot|]. wp_steps.
    assert (E : default 0 ((l ++ [p]) !! Z.to_nat i) = p); [|rewrite E; split_and!; [done|done|intros x Hx; by rewrite Ed, lookup_insert_ne by done]].
    destruct ((l ++ [p]) !! Z.to_nat i) as [x|] eqn:Ex'; cbn in *; [|done]. destruct (Z.eqb_spec x 0); [done|]. destruct (decide (x = p)) as [->|Hne]; [done|]. exfalso.
    assert (Hxl : x ∈ l) by (apply list_elem_of_lookup_2 in Ex'; apply elem_of_app in Ex' as [?|[?|?%elem_of_nil]%elem_of_cons]; done).
    rewrite Ed, lookup_insert_ne in Hb by done. destruct (H3 x Hxl) as [_ [e He]]. rewrite He in Hb. apply Z.eqb_eq in Hb. specialize (H7 x e Hxl He). lia.
Qed.

(** ** The partitions of an MBR *)

Lemma wp_b_kmalloc s (Q : Z -> blk D -> Prop) : (0 < b_mem s)%nat -> Q (b_next s) (set_b_heap (b_next s + 1) (pred (b_mem s)) (b_pool s) s) -> wp b_kmalloc Q s.
Proof using. intros H HQ. unfold b_kmalloc. wp_steps. destruct (b_mem s); [lia|]. by wp_steps. Qed.

(** [create_virtual_partition] with memory and a free slot. *)
Lemma wp_create_partition s l phys disk name start total num mbr sg data (Q : unit -> blk D -> Prop) :
  packed s l -> (length l < 16)%nat -> (2 <= b_mem s)%nat -> b_devs s !! phys = Some disk -> g_next_device_id s + 1 < 2 ^ 31 - 16 ->
  (forall s', packed s' (l ++ [b_next s]) ->
     b_devs s' = <[b_next s := BDev name (g_next_device_id s) total (sector_size disk) (Some (PCtx phys start total num mbr sg data)) false]> (b_devs s) ->
     g_next_device_id s' = g_next_device_id s + 1 -> b_hw s' = b_hw s -> b_next s' = b_next s + 2 -> b_mem s' = (b_mem s - 2)%nat -> b_pool s' = b_pool s -> Q tt s') ->
  wp (create_virtual_partition phys name start total num mbr sg data) Q s.
Proof using.
  intros Hpk Hl Hm Hd Hid HQ. pose proof Hpk as [H1 H2 H3 H4 H5 H6 H7]. unfold create_virtual_partition. wp_steps. apply wp_b_kmalloc; [lia|]. wp_steps.
  apply wp_b_kmalloc; [cbn; lia|]. cbn [b_next set_b_heap b_mem b_pool]. rewrite (proj2 (Z.eqb_neq (b_next s) 0)), (proj2 (Z.eqb_neq (b_next s + 1) 0)) by lia. cbn [orb].
  wp_steps. eapply wp_bdev_at; [exact Hd|]. wp_steps. set (d0 := BDev _ _ _ _ _ _). set (s1 := set_b_devs _ _).
  assert (Hnew : b_next s ∉ l) by (intros Hin; destruct (H3 _ Hin); lia).
  assert (Hpk1 : packed s1 l).
  { subst s1. split; cbn; try done; try lia.
    - intros p Hp. destruct (H3 p Hp). rewrite lookup_insert_ne by lia. split; [lia|done].
    - intros p Hp. rewrite lookup_insert_ne by lia. apply H5. lia.
    - intros p e Hp. destruct (H3 p Hp). rewrite lookup_insert_ne by lia. by apply H7. }
  eapply (wp_register s1 l (b_next s) d0); [done|done|subst s1; cbn; lia|done|subst s1; cbn; apply lookup_insert_eq| |done].
  intros s' Hpk' Ed En Eh Ex Em Ep. subst s1. cbn in En, Eh, Ex, Em, Ep, Ed. rewrite (proj2 (Z.leb_le 0 _)) by (cbn; lia). wp_steps.
  rewrite insert_insert_eq in Ed. apply HQ; try done; lia.
Qed.

(** The partition that entry [i] of the table describes. *)
Definition mbr_at (buf : list Z) (i : Z) : option (Z * Z) :=
  let at_ := Z.to_nat (0x1BE + 16 * i) in
  if (get8 buf (at_ + 4) =? 0) || (get32 buf (at_ + 12) =? 0) then None else Some (get32 buf (at_ + 8), get32 buf (at_ + 12)).
Definition mbr_table (buf : list Z) (n : Z) : list (Z * Z) := omap (mbr_at buf) (seqZ 0 n).

Lemma mbr_table_S buf i : 0 <= i -> mbr_table buf (i + 1) = mbr_table buf i ++ match mbr_at buf i with Some e => [e] | None => [] end.
Proof using. intros Hi. unfold mbr_table. rewrite seqZ_app by lia. rewrite omap_app. f_equal. Qed.
Lemma mbr_table_length buf i : 0 <= i -> zlen (mbr_table buf i) <= i.
Proof using.
  intros Hi. unfold mbr_table. assert (H : forall l, (length (omap (mbr_at buf) l) <= length l)%nat).
  { intros l. induction l as [|x l IH]; cbn; [done|]. destruct (mbr_at buf x); cbn; lia. }
  specialize (H (seqZ 0 i)). rewrite length_seqZ in H. unfold zlen. lia.
Qed.

Section scan.
Context (s0 : blk D) (l0 : list Z) (phys : Z) (disk : block_device) (buf : list Z).
Context (Hbuf : zlen buf = 512) (Hname : zlen (bd_name disk) <= 20).

(** Partition [k], from 0, of the list. *)
Definition mbr_device (k : nat) (e : Z * Z) : block_device :=
  BDev (bd_name disk ++ [46; 49 + Z.of_nat k]) (g_next_device_id s0 + Z.of_nat k) e.2 (sector_size disk)
    (Some (PCtx phys e.1 e.2 (1 + Z.of_nat k) 1 1 (field 4 0x1B8 buf ++ replicate 12 0))) false.

(** The devices [es] have been added to those at the start. *)
Record added s (es : list (Z * Z)) : Prop := {
  ad_list : exists ps, packed s (l0 ++ ps) /\ (fun p => b_devs s !! p) <$> ps = Some <$> imap mbr_device es;
  ad_old : forall x d, b_devs s0 !! x = Some d -> b_devs s !! x = Some d;
  ad_next : g_next_device_id s = g_next_device_id s0 + zlen es;
  ad_mem : (b_mem s + 2 * length es)%nat = b_mem s0;
  ad_pool : b_pool s = b_pool s0
}.

Lemma part_name_ok k s : 0 <= k < 10 -> part_name (D := D) (bd_name disk) k s = Ok (bd_name disk ++ [46; 48 + k], s).
Proof using Hname.
  clear Hbuf. intros Hk. unfold part_name. assert (E : decimal 10 k = [48 + k]) by (cbn [decimal]; rewrite (proj2 (Z.ltb_lt k 10)) by lia; cbn [app]; by rewrite Z.mod_small by lia).
  rewrite E. unfold zlen, BLOCK_NAME_MAX in *. rewrite !length_app. cbn [length app]. rewrite (proj2 (Z.ltb_lt _ _)) by (rewrite ?length_app; cbn [length]; lia). done.
Qed.

Lemma wp_mbr_entry s i (Q : Z -> blk D -> Prop) : 0 <= i < 4 -> added s (mbr_table buf i) -> b_devs s0 !! phys = Some disk ->
  (length l0 <= 12)%nat -> (8 <= b_mem s0)%nat -> 0 <= g_next_device_id s0 < 2 ^ 31 - 32 ->
  (forall s', added s' (mbr_table buf (i + 1)) -> b_hw s' = b_hw s -> Q (1 + zlen (mbr_table buf (i + 1))) s') ->
  wp (mbr_entry phys buf i (1 + zlen (mbr_table buf i))) Q s.
Proof using Hbuf Hname.
  intros Hi [(ps & Hpk & Hps) A2 A3 A4 A5] Hd Hl0 Hm0 Hid HQ. pose proof (mbr_table_length buf i ltac:(lia)) as Hlen. pose proof (mbr_table_S buf i ltac:(lia)) as ES.
  set (es := mbr_table buf i) in *. unfold mbr_entry. wp_steps. eapply wp_intro; [apply rd8_ok; lia|]. wp_steps. eapply wp_intro; [apply ld32_ok; lia|]. wp_steps.
  eapply wp_intro; [apply ld32_ok; lia|]. wp_steps. unfold mbr_at in ES. replace (Z.to_nat (446 + 16 * i + 4)) with (Z.to_nat (446 + 16 * i) + 4)%nat by lia.
  replace (Z.to_nat (446 + 16 * i + 8)) with (Z.to_nat (446 + 16 * i) + 8)%nat by lia. replace (Z.to_nat (446 + 16 * i + 12)) with (Z.to_nat (446 + 16 * i) + 12)%nat by lia.
  destruct ((get8 buf _ =? 0) || _) eqn:Ee; wp_steps.
  { rewrite app_nil_r in ES. rewrite ES in HQ. apply HQ; [|done]. split; try done. by exists ps. }
  set (e := (get32 buf (Z.to_nat (446 + 16 * i) + 8), get32 buf (Z.to_nat (446 + 16 * i) + 12))) in *.
  eapply wp_bdev_at; [by apply A2|]. wp_steps. unfold zlen in Hlen, A3. eapply wp_intro; [apply part_name_ok; unfold zlen; lia|]. wp_steps.
  assert (Hpl : length ps = length es).
  { pose proof (f_equal length Hps) as E. by rewrite !length_fmap, length_imap in E. }
  apply wp_bytes_out; [lia..|]. wp_steps.
  eapply (wp_create_partition s (l0 ++ ps)); [done|rewrite length_app; lia|lia|by apply A2|lia|]. intros s' Hpk' Ed En Eh Ex Em Ep. wp_steps.
  assert (Ez : zlen (es ++ [e]) = zlen es + 1) by (unfold zlen; rewrite length_app; cbn [length]; lia).
  rewrite ES in HQ. specialize (HQ s'). rewrite Ez in HQ. replace (1 + zlen es + 1) with (1 + (zlen es + 1)) by lia. apply HQ; [|done].
  pose proof Hpk as [_ _ P3 _ P5 _ _]. split.
  - exists (ps ++ [b_next s]). rewrite app_assoc. split; [done|]. rewrite fmap_app, imap_app, fmap_app. f_equal.
    + rewrite <- Hps. apply list_fmap_ext. intros j x Hx. rewrite Ed, lookup_insert_ne; [done|].
      destruct (P3 x); [apply elem_of_app; right; by eapply list_elem_of_lookup_2|lia].
    + cbn. rewrite Ed, lookup_insert_eq. unfold mbr_device, compose. cbn [fst snd]. do 2 f_equal. rewrite A3, Nat.add_0_r.
      replace (48 + (1 + zlen es)) with (49 + Z.of_nat (length es)) by (unfold zlen; lia). done.
  - intros x d Hx. pose proof (A2 x d Hx) as Hx'. rewrite Ed, lookup_insert_ne; [done|]. intros <-. by rewrite P5 in Hx' by lia.
  - rewrite Ez. unfold zlen. lia.
  - rewrite length_app. cbn [length]. lia.
  - congruence.
Qed.

End scan.

(** A disk with an MBR: the scan adds one device for each of the used entries
    of its table, in their order, numbered from 1 and named after the disk,
    with the entry's start and size and the next identifiers; the devices
    before are unchanged and the buffer is given back. *)
Theorem partition_scan_mbr s l phys disk buf d' :
  packed s l -> (length l <= 12)%nat -> (8 <= b_mem s)%nat -> (1 <= b_pool s)%nat -> 0 <= g_next_device_id s < 2 ^ 31 - 32 ->
  0 < phys -> b_devs s !! phys = Some disk -> bd_part disk = None -> 0 < sector_size disk -> zlen (bd_name disk) <= 20 ->
  hw_read h phys 0 1 (b_hw s) = Ok (Some buf, d') -> zlen buf = 512 -> get8 buf 510 = 0x55 -> get8 buf 511 = 0xAA ->
  (forall i, 0 <= i < 4 -> get8 buf (Z.to_nat (0x1BE + 16 * i) + 4) <> 0xEE) ->
  wp (partition_scan_device h phys) (fun _ s' => added s l phys disk buf s' (mbr_table buf 4) /\ b_hw s' = d') s.
Proof using.
  intros Hpk Hl Hm Hp Hid Hphys Hd Hraw Hss Hname Hrd Hbuf Hb1 Hb2 Hee. unfold partition_scan_device. rewrite (proj2 (Z.eqb_neq phys 0)) by lia. wp_steps.
  eapply wp_bdev_at; [done|]. wp_steps. unfold b_pool_alloc. rewrite (proj2 (Z.eqb_neq _ 0)) by lia. wp_steps. destruct (b_pool s) as [|m] eqn:Ep; [lia|]. wp_steps. cbn [negb]. wp_steps.
  unfold read_blocks. wp_steps. cbn [read_dev b_devs set_b_heap]. wp_steps. eapply wp_bdev_at; [exact Hd|]. rewrite Hraw. unfold in_hw. wp_steps.
  eapply wp_intro; [exact Hrd|]. cbn [b_hw set_b_hw]. wp_steps. eapply wp_intro; [apply rd8_ok; lia|]. wp_steps. eapply wp_intro; [apply rd8_ok; lia|].
  change (Z.to_nat 510) with 510%nat. change (Z.to_nat 511) with 511%nat. rewrite Hb1, Hb2. cbn [Z.eqb Pos.eqb negb orb]. wp_steps.
  set (s1 := set_b_hw d' _). unfold is_gpt_protective. wp_steps.
  eapply wp_mono; [apply (wp_loop (fun i _ s' => s' = s1 /\ 0 <= i) (fun r s' => s' = s1 /\ r = inl tt))|].
  - done.
  - intros i a s' Hi [-> Hi0]. wp_steps. eapply wp_intro; [apply rd8_ok; lia|]. wp_steps. replace (Z.to_nat (446 + 16 * i + 4)) with (Z.to_nat (446 + 16 * i) + 4)%nat by lia.
    rewrite (proj2 (Z.eqb_neq _ _)) by (apply Hee; lia). wp_steps. split; [done|lia].
  - intros [] s' [-> _]. done.
  - intros r s' [-> ->]. wp_steps. unfold scan_entries. wp_steps.
    pose proof Hpk as [H1 H2 H3 H4 H5 H6 H7].
    eapply wp_mono; [apply (wp_loop (fun i k s' => added (set_b_heap (b_next s) (b_mem s) m s) l phys disk buf s' (mbr_table buf i) /\ k = 1 + zlen (mbr_table buf i) /\ b_hw s' = d')
      (fun r s' => added (set_b_heap (b_next s) (b_mem s) m s) l phys disk buf s' (mbr_table buf 4) /\ b_hw s' = d' /\ exists k, r = inl k))|].
    + split_and!; [|done|done]. change (mbr_table buf 0) with (@nil (Z * Z)). split; try done; try (unfold zlen; cbn; lia). exists []. rewrite app_nil_r. by split.
    + intros i k s' Hi (Ha & -> & Eh). wp_steps. eapply (wp_mbr_entry (set_b_heap (b_next s) (b_mem s) m s) l phys disk buf); [done|done|lia|done|done|done|done|done|].
      intros s2 Ha2 Eh2. wp_steps. split_and!; [done|done|congruence].
    + intros k s' (Ha & -> & Eh). split_and!; [done|done|by eexists].
    + intros r s' ([A1 A2 A3 A4 A5] & Eh & k & ->). wp_steps. unfold b_pool_free. rewrite (proj2 (Z.eqb_neq _ 0)) by lia. wp_steps. split; [|done]. cbn in A1, A2, A3, A4, A5. split.
      * destruct A1 as (ps & [P1 P2 P3 P4 P5 P6 P7] & E). exists ps. by split.
      * exact A2.
      * exact A3.
      * exact A4.
      * cbn. lia.
Qed.

End catalogue.
