(* ===== verification/BlockCheck.v ===== *)
(** * Partitions and the catalogue: examples

    A disk in memory ([FatCheck]) with a partition, at which the theorems of
    [BlockThms] are applied, and a transfer that the bounds check of a
    partition lets through. *)

From Stdlib Require Import ZArith Lia.
From stdpp Require Import base tactics list list_numbers gmap.
From S2P Require Import Prelude Bytes Fat FatInv FatCheck Block BlockThms.

Definition ram_hw : hardware ram_disk := Hardware (fun _ => ram_read TOTAL) (fun _ => ram_write SS TOTAL).
Definition sda : list Z := [115; 100; 97].
Definition disk_dev : block_device := BDev sda 0 13 128 None true.
Definition ctx35 : partition_ctx := PCtx 1 3 5 1 1 1 (replicate 16 0).
Definition part_dev : block_device := BDev (sda ++ [46; 49]) 1 5 128 (Some ctx35) false.
Definition two_devices : blk ram_disk :=
  Blk (<[1 := disk_dev]> (<[2 := part_dev]> ∅)) ([1; 2] ++ replicate 14 0) 2 some_disk 5 10 4 [].

#[export] Instance ram_disk_laws : BlockLaws (disk_ops ram_hw 1) (Z.of_nat SS) (Z.of_nat TOTAL) := ram_laws SS TOTAL.



(** The bounds check of a partition wraps around: two sectors from the last
    address on are read in front of the partition. *)
Lemma partition_check_wraps :
  match read_blocks ram_hw 2 (2 ^ 64 - 1) 2 two_devices with
  | Ok (Some b, _) => b = ram_sector some_disk 2 ++ ram_sector some_disk 3
  | _ => False
  end.
Proof. by vm_compute. Qed.

(** ** Registering and scanning *)

Definition one_device : blk ram_disk := Blk (<[1 := disk_dev]> (<[3 := set_bd_id 0 part_dev]> ∅)) ([1] ++ replicate 15 0) 1 some_disk 5 10 4 [].

Lemma packed_checked {D} (s : blk D) l :
  g_block_devices s = l ++ replicate (16 - length l) 0 -> (length l <= 16)%nat -> 0 < b_next s -> 0 <= g_next_device_id s < 2 ^ 31 - 16 ->
  map_Forall (fun p d => p < b_next s) (b_devs s) ->
  Forall (fun p => 0 < p /\ match b_devs s !! p with Some d => 0 <= bd_id d < g_next_device_id s | None => False end) l -> packed s l.
Proof.
  intros H1 H2 H3 H4 H5 H6. rewrite Forall_forall in H6. split; try done.
  - intros p Hp. destruct (H6 p Hp) as [Hp0 Hd]. destruct (b_devs s !! p) as [d|] eqn:E; [|done]. split; [split; [done|by apply (H5 p d)]|done].
  - intros p Hp. destruct (b_devs s !! p) as [d|] eqn:E; [|done]. pose proof (H5 p d E). cbn in *. lia.
  - intros p d Hp Hd. destruct (H6 p Hp) as [_ Hb]. by rewrite Hd in Hb.
Qed.

Lemma one_device_packed : packed one_device [1].
Proof.
  apply packed_checked; try done; [cbn; lia| |].
  - apply map_Forall_insert_2; [done|]. apply map_Forall_insert_2; [done|]. apply map_Forall_empty.
  - repeat constructor; done.
Qed.

Lemma register_block_device_witness :
  wp (id <-- register_block_device 3 ;; q <-- block_get_device_by_index id ;; kret (id, q))
    (fun r s' => r = (1, 3) /\ packed s' ([1] ++ [3]) /\ forall x, x <> 3 -> b_devs s' !! x = b_devs one_device !! x) one_device.
Proof.
  apply (register_block_device_correct one_device [1] 3 (set_bd_id 0 part_dev)); [apply one_device_packed|cbn; lia|done|by intros [?|?%elem_of_nil]%elem_of_cons|done|done].
Defined.

(** A boot sector with two partitions. *)
Definition mbr_entry_bytes (ty start total : Z) : list Z := replicate 4 0 ++ [ty; 0; 0; 0] ++ le32 start ++ le32 total.
Definition mbr_sector : list Z :=
  replicate 446 0 ++ mbr_entry_bytes 0x0C 2048 100000 ++ mbr_entry_bytes 0 0 0 ++ mbr_entry_bytes 0x83 102048 50000 ++ mbr_entry_bytes 0x07 1 0 ++ [0x55; 0xAA].
Definition mbr_hw : hardware unit := Hardware (fun _ _ _ => kret (Some mbr_sector)) (fun _ _ _ _ => kret false).
Definition mbr_disk : block_device := BDev sda 0 200000 512 None true.
Definition mbr_state : blk unit := Blk (<[1 := mbr_disk]> ∅) ([1] ++ replicate 15 0) 1 tt 2 10 4 [].

Lemma partition_scan_mbr_witness :
  wp (partition_scan_device mbr_hw 1)
    (fun _ s' => added mbr_state [1] 1 mbr_disk mbr_sector s' (mbr_table mbr_sector 4) /\ b_hw s' = tt) mbr_state.
Proof.
  apply (partition_scan_mbr mbr_hw mbr_state [1] 1 mbr_disk mbr_sector tt); try done; try (cbn; lia).
  - apply packed_checked; try done; [cbn; lia| |].
    + apply map_Forall_insert_2; [done|apply map_Forall_empty].
    + repeat constructor; done.
  - intros i Hi. assert (i = 0 \/ i = 1 \/ i = 2 \/ i = 3) as [E|[E|[E|E]]] by lia; by rewrite E.
Defined.
(** The scan of it finds two partitions. *)
Lemma mbr_sector_table : mbr_table mbr_sector 4 = [(2048, 100000); (102048, 50000)].
Proof. by vm_compute. Qed.
