(* ===== verification/NetBase.v ===== *)
(** * Byte order, checksums and ring buffers of the network stack

    The byte-order macros of [net.h], the internet checksum of [ip.c] and [tcp.c] with its one's
    complement meaning, and the circular receive buffer that sockets share. *)

From Stdlib Require Import ZArith Lia.
From stdpp Require Import base tactics list.
From S2P Require Import Prelude Bytes.

Definition htons (v : Z) : Z :=
  Z.lor (Z.shiftr (Z.land (u16 v) 0xFF00) 8) (u32 (Z.shiftl (Z.land (u16 v) 0x00FF) 8)).
Definition ntohs (v : Z) : Z := htons v.
Definition htonl (v : Z) : Z :=
  Z.lor (Z.lor (Z.lor (Z.shiftr (Z.land (u32 v) 0xFF000000) 24) (Z.shiftr (Z.land (u32 v) 0x00FF0000) 8))
    (u32 (Z.shiftl (Z.land (u32 v) 0x0000FF00) 8))) (u32 (Z.shiftl (Z.land (u32 v) 0x000000FF) 24)).
Definition ntohl (v : Z) : Z := htonl v.

(** ** The internet checksum *)

(** The 16-bit words of a buffer added up in a 32-bit accumulator; a last odd
    byte is added as it is. *)
Fixpoint sum_words (sum : Z) (bs : list Z) : Z :=
  match bs with
  | a :: b :: bs' => sum_words (u32 (sum + (a + 256 * b))) bs'
  | [a] => u32 (sum + a)
  | [] => sum
  end.

(** The loop that folds the carries; two rounds are enough for 32 bits. *)
Fixpoint fold_carry (fuel : nat) (sum : Z) : Z :=
  if Z.shiftr sum 16 =? 0 then sum else
  match fuel with
  | O => sum
  | S fuel' => fold_carry fuel' (u32 (Z.land sum 0xFFFF + Z.shiftr sum 16))
  end.

Definition ip_calculate_checksum (data : list Z) : Z := u16 (Z.lnot (fold_carry 2 (sum_words 0 data))).

Definition tcp_calculate_checksum (pseudo tcp data : list Z) : Z :=
  u16 (Z.lnot (fold_carry 2 (sum_words (sum_words (sum_words 0 pseudo) tcp) data))).

(** The macros swap bytes. *)
Lemma land_ff00 x : 0 <= x < 65536 -> Z.shiftr (Z.land x 0xFF00) 8 = x / 256.
Proof.
  intros Hx. rewrite Z.shiftr_land. change (Z.shiftr 0xFF00 8) with (Z.ones 8). rewrite Z.land_ones, Z.shiftr_div_pow2 by lia.
  zdiv_lia.
Qed.

Lemma htons_spec x : 0 <= x < 2 ^ 16 -> htons x = x / 256 + 256 * (x mod 256).
Proof.
  intros Hx. unfold htons. rewrite u16_small by done. rewrite land_ff00 by lia.
  change 0x00FF with (Z.ones 8). rewrite Z.land_ones, Z.shiftl_mul_pow2 by lia.
  rewrite u32_small by zdiv_lia. rewrite lor_add by zdiv_lia. change (2 ^ 8) with 256. lia.
Qed.

Lemma htons_range x : 0 <= htons x < 2 ^ 16.
Proof.
  assert (H : htons x = htons (u16 x)) by (unfold htons, u16; by rewrite Z.mod_mod).
  rewrite H, htons_spec by apply u16_range. pose proof (u16_range x). zdiv_lia.
Qed.

Lemma ntohs_htons x : 0 <= x < 2 ^ 16 -> ntohs (htons x) = x.
Proof.
  intros Hx. unfold ntohs. rewrite htons_spec by apply htons_range. rewrite htons_spec by done. zdiv_lia.
Qed.

(** One byte of a word, in place. *)
Lemma land_byte x k : 0 <= k -> Z.land x (Z.shiftl (Z.ones 8) k) = x / 2 ^ k mod 256 * 2 ^ k.
Proof.
  intros Hk. change 256 with (2 ^ 8). rewrite <- Z.shiftr_div_pow2, <- Z.land_ones, <- Z.shiftl_mul_pow2 by lia.
  apply Z.bits_inj'. intros n Hn. rewrite Z.land_spec, !Z.shiftl_spec by done. destruct (Z.lt_ge_cases n k).
  - rewrite !(Z.testbit_neg_r _ (n - k)) by lia. apply andb_false_r.
  - rewrite Z.land_spec, Z.shiftr_spec by lia. by replace (n - k + k) with n by lia.
Qed.

Lemma htonl_spec x : 0 <= x < 2 ^ 32 ->
  htonl x = x / 16777216 + 256 * (x / 65536 mod 256) + 65536 * (x / 256 mod 256) + 16777216 * (x mod 256).
Proof.
  intros Hx. unfold htonl. rewrite u32_small by done.
  change 0xFF000000 with (Z.shiftl (Z.ones 8) 24). change 0x00FF0000 with (Z.shiftl (Z.ones 8) 16).
  change 0x0000FF00 with (Z.shiftl (Z.ones 8) 8). change 0x000000FF with (Z.shiftl (Z.ones 8) 0).
  rewrite !land_byte, !Z.shiftr_div_pow2, !Z.shiftl_mul_pow2 by lia.
  change (2 ^ 0) with 1. change (2 ^ 8) with 256. change (2 ^ 16) with 65536. change (2 ^ 24) with 16777216.
  rewrite !u32_small by zdiv_lia.
  assert (x / 16777216 mod 256 * 16777216 / 16777216 = x / 16777216) as -> by zdiv_lia.
  assert (x / 65536 mod 256 * 65536 / 256 = x / 65536 mod 256 * 2 ^ 8) as -> by zdiv_lia.
  assert (x / 256 mod 256 * 256 * 256 = x / 256 mod 256 * 2 ^ 16) as -> by lia.
  assert (x / 1 mod 256 * 1 * 16777216 = x mod 256 * 2 ^ 24) as -> by zdiv_lia.
  rewrite (lor_add (x / 16777216) _ 8) by zdiv_lia. rewrite (lor_add _ _ 16) by zdiv_lia.
  rewrite (lor_add _ _ 24) by zdiv_lia. lia.
Qed.

Lemma htonl_range x : 0 <= htonl x < 2 ^ 32.
Proof.
  assert (H : htonl x = htonl (u32 x)) by (unfold htonl, u32; by rewrite Z.mod_mod).
  rewrite H, htonl_spec by apply u32_range. pose proof (u32_range x). zdiv_lia.
Qed.

Lemma ntohl_htonl x : 0 <= x < 2 ^ 32 -> ntohl (htonl x) = x.
Proof.
  intros Hx. unfold ntohl. rewrite (htonl_spec (htonl x)) by apply htonl_range. rewrite htonl_spec by done.
  set (a := x mod 256). set (b := x / 256 mod 256). set (c := x / 65536 mod 256). set (d := x / 16777216).
  assert (Ha : 0 <= a < 256) by (unfold a; zdiv_lia). assert (Hb : 0 <= b < 256) by (unfold b; zdiv_lia).
  assert (Hc : 0 <= c < 256) by (unfold c; zdiv_lia). assert (Hd : 0 <= d < 256) by (unfold d; zdiv_lia).
  assert (Ex : x = a + 256 * b + 65536 * c + 16777216 * d) by (unfold a, b, c, d; zdiv_lia).
  rewrite Ex at 1. clearbody a b c d. clear Ex Hx. zdiv_lia.
Qed.

(** ** The meaning of the checksum *)

(** The one's complement sum: the representative of [x] modulo 65535 that is
    0 only for 0. *)
Definition ones_sum (x : Z) : Z := if x =? 0 then 0 else (x - 1) mod 65535 + 1.

(** The plain sum of the words. *)
Fixpoint word_sum (bs : list Z) : Z :=
  match bs with
  | a :: b :: bs' => a + 256 * b + word_sum bs'
  | [a] => a
  | [] => 0
  end.

Lemma word_ind (P : list Z -> Prop) :
  P [] -> (forall a, P [a]) -> (forall a b bs, P bs -> P (a :: b :: bs)) -> forall bs, P bs.
Proof.
  intros H0 H1 H2 bs. assert (H : P bs /\ forall a, P (a :: bs)).
  { induction bs as [|a bs [IH1 IH2]]; [auto|]. split; [apply IH2|]. intros b. by apply H2. }
  apply H.
Qed.

Lemma word_sum_bounds bs : Forall byte bs -> 0 <= word_sum bs <= 65535 * (zlen bs + 1) / 2.
Proof.
  unfold zlen. induction bs as [|a|a b bs IH] using word_ind; intros H.
  - cbn. zdiv_lia.
  - apply Forall_cons in H as [Ha _]. unfold byte in Ha. cbn. zdiv_lia.
  - apply Forall_cons in H as [Ha H]. apply Forall_cons in H as [Hb H]. unfold byte in Ha, Hb. specialize (IH H).
    cbn [word_sum length]. zdiv_lia.
Qed.

Lemma sum_words_spec bs acc :
  Forall byte bs -> 0 <= acc -> acc + word_sum bs < 2 ^ 32 -> sum_words acc bs = acc + word_sum bs.
Proof.
  revert acc. induction bs as [|a|a b bs IH] using word_ind; intros acc H Ha Hs; cbn in *.
  - lia.
  - apply Forall_cons in H as [Hb _]. unfold byte in Hb. apply u32_small. lia.
  - apply Forall_cons in H as [Hb H]. apply Forall_cons in H as [Hc H]. unfold byte in Hb, Hc.
    pose proof (word_sum_bounds bs H). rewrite u32_small by lia. rewrite IH by (done || lia). lia.
Qed.

Lemma fold_once x : 0 <= x < 2 ^ 32 -> u32 (Z.land x 0xFFFF + Z.shiftr x 16) = x mod 65536 + x / 65536.
Proof.
  intros Hx. change 0xFFFF with (Z.ones 16). rewrite Z.land_ones, Z.shiftr_div_pow2 by lia.
  change (2 ^ 16) with 65536. rewrite u32_small by zdiv_lia. done.
Qed.

Lemma ones_sum_step x : 0 <= x -> ones_sum (x mod 65536 + x / 65536) = ones_sum x.
Proof.
  intros Hx. unfold ones_sum. destruct (Z.eqb_spec x 0) as [->|]; [done|].
  rewrite (proj2 (Z.eqb_neq _ _)) by zdiv_lia. zdiv_lia.
Qed.

Lemma ones_sum_small x : 0 <= x < 65536 -> ones_sum x = x.
Proof. intros Hx. unfold ones_sum. destruct (Z.eqb_spec x 0) as [->|]; [done|]. zdiv_lia. Qed.

(** The two rounds end the loop, with the one's complement sum. *)
Lemma fold_carry_spec x : 0 <= x < 2 ^ 32 -> fold_carry 2 x = ones_sum x /\ Z.shiftr (fold_carry 2 x) 16 = 0.
Proof.
  intros Hx. assert (Hdone : forall y, 0 <= y < 65536 -> Z.shiftr y 16 = 0).
  { intros y Hy. rewrite Z.shiftr_div_pow2 by lia. apply Z.div_small. done. }
  cbn [fold_carry]. destruct (Z.eqb_spec (Z.shiftr x 16) 0) as [E|E]; rewrite Z.shiftr_div_pow2 in E by lia;
    change (2 ^ 16) with 65536 in E.
  { assert (0 <= x < 65536) by zdiv_lia. by rewrite ones_sum_small, Hdone. }
  rewrite fold_once by done. set (y := x mod 65536 + x / 65536).
  assert (Hy : 0 <= y <= 131070) by (unfold y; zdiv_lia).
  assert (Oy : ones_sum y = ones_sum x) by (apply ones_sum_step; lia).
  destruct (Z.eqb_spec (Z.shiftr y 16) 0) as [E2|E2]; rewrite Z.shiftr_div_pow2 in E2 by lia;
    change (2 ^ 16) with 65536 in E2.
  { assert (0 <= y < 65536) by zdiv_lia. by rewrite <- Oy, ones_sum_small, Hdone. }
  rewrite fold_once by lia. set (z := y mod 65536 + y / 65536).
  assert (Hz : 0 <= z < 65536) by (unfold z; zdiv_lia).
  assert (Oz : ones_sum z = ones_sum x) by (rewrite <- Oy; apply ones_sum_step; lia).
  case_match; by rewrite <- Oz, ones_sum_small, Hdone.
Qed.

Lemma u16_lnot x : 0 <= x < 65536 -> u16 (Z.lnot x) = 65535 - x.
Proof. intros Hx. unfold u16, Z.lnot. change (2 ^ 16) with 65536. zdiv_lia. Qed.

Lemma ones_sum_range x : 0 <= ones_sum x < 65536.
Proof. unfold ones_sum. case_match; zdiv_lia. Qed.

Lemma word_sum_app pre post : Z.Even (zlen pre) -> word_sum (pre ++ post) = word_sum pre + word_sum post.
Proof.
  unfold zlen. induction pre as [|a|a b pre IH] using word_ind; cbn [app word_sum length].
  - lia.
  - intros [k Hk]. lia.
  - intros [k Hk]. rewrite IH; [lia|]. exists (k - 1). lia.
Qed.

Lemma word_sum_le16 x : 0 <= x < 65536 -> word_sum (le16 x) = x.
Proof. intros Hx. cbn. zdiv_lia. Qed.

(** What is added to a sum by its own complement. *)
Lemma ones_verify x : 0 <= x -> ones_sum (x + (65535 - ones_sum x)) = 65535.
Proof.
  intros Hx. unfold ones_sum at 2. destruct (Z.eqb_spec x 0) as [->|Hne]; [done|].
  unfold ones_sum. rewrite (proj2 (Z.eqb_neq _ _)) by zdiv_lia. zdiv_lia.
Qed.

Lemma checksum_sum bs : Forall byte bs -> zlen bs <= 65536 ->
  ip_calculate_checksum bs = 65535 - ones_sum (word_sum bs).
Proof.
  intros Hb Hl. pose proof (word_sum_bounds bs Hb). unfold ip_calculate_checksum.
  rewrite sum_words_spec by (done || zdiv_lia). rewrite Z.add_0_l.
  destruct (fold_carry_spec (word_sum bs)) as [-> _]; [zdiv_lia|]. apply u16_lnot, ones_sum_range.
Qed.

Lemma checksum_stored pre post :
  let bs0 := pre ++ [0; 0] ++ post in
  Forall byte bs0 -> Z.Even (zlen pre) -> zlen bs0 <= 65536 ->
  ip_calculate_checksum (pre ++ le16 (ip_calculate_checksum bs0) ++ post) = 0.
Proof.
  intros bs0 Hb He Hl. pose proof (word_sum_bounds bs0 Hb) as Hw.
  assert (Hc : ip_calculate_checksum bs0 = 65535 - ones_sum (word_sum bs0)) by by apply checksum_sum.
  pose proof (ones_sum_range (word_sum bs0)) as Hr.
  apply Forall_app in Hb as [Hp Hb]. apply Forall_app in Hb as [_ Hq].
  assert (Hb' : Forall byte (pre ++ le16 (ip_calculate_checksum bs0) ++ post)).
  { apply Forall_app. split; [done|]. apply Forall_app. split; [apply le16_bytes | done]. }
  rewrite checksum_sum; [|done|unfold bs0, zlen in *; rewrite !length_app in *; cbn in *; lia].
  rewrite word_sum_app, word_sum_app, word_sum_le16 by (done || lia || by exists 1).
  assert (Es : word_sum bs0 = word_sum pre + word_sum post).
  { unfold bs0. rewrite word_sum_app by done. done. }
  rewrite Hc, Es. rewrite Es in Hw.
  replace (word_sum pre + (65535 - ones_sum (word_sum pre + word_sum post) + word_sum post))
    with (word_sum pre + word_sum post + (65535 - ones_sum (word_sum pre + word_sum post))) by lia.
  rewrite ones_verify by lia. done.
Qed.

(** The internet checksum: the folding loop ends; the result is a 16-bit word;
    a buffer checks to 0 exactly when its words add up to a positive multiple
    of 65535; and storing the checksum of a buffer in its zeroed, word-aligned
    field makes the whole buffer check to 0, as the receiver expects. *)
Theorem checksum_correct pre post :
  let bs0 := pre ++ [0; 0] ++ post in
  Forall byte bs0 -> Z.Even (zlen pre) -> zlen bs0 <= 65536 ->
  Z.shiftr (fold_carry 2 (sum_words 0 bs0)) 16 = 0 /\
  0 <= ip_calculate_checksum bs0 < 2 ^ 16 /\
  (ip_calculate_checksum bs0 = 0 <-> 0 < word_sum bs0 /\ word_sum bs0 mod 65535 = 0) /\
  ip_calculate_checksum (pre ++ le16 (ip_calculate_checksum bs0) ++ post) = 0.
Proof.
  intros bs0 Hb He Hl. pose proof (word_sum_bounds bs0 Hb) as Hw.
  assert (Hc : ip_calculate_checksum bs0 = 65535 - ones_sum (word_sum bs0)) by by apply checksum_sum.
  pose proof (ones_sum_range (word_sum bs0)) as Hr. split_and!.
  - rewrite sum_words_spec by (done || zdiv_lia). apply fold_carry_spec. zdiv_lia.
  - lia.
  - lia.
  - rewrite Hc. unfold ones_sum. destruct (Z.eqb_spec (word_sum bs0) 0) as [->|]; [lia|]. zdiv_lia.
  - by apply checksum_stored.
Qed.

Lemma checksum_witness :
  let h := [0x45; 0; 0; 60; 0; 1; 0x40; 0; 64; 6] in
  let a := [10; 0; 2; 15; 10; 0; 2; 2] in
  ip_calculate_checksum (h ++ [0; 0] ++ a) <> 0 /\
  ip_calculate_checksum (h ++ le16 (ip_calculate_checksum (h ++ [0; 0] ++ a)) ++ a) = 0.
Proof.
  intros h a. split; [by vm_compute|]. apply (checksum_correct h a).
  - unfold byte. repeat (constructor; [lia|]). constructor.
  - by exists 5.
  - by vm_compute.
Defined.

(** ** Ring buffers *)

Definition SOCKET_BUFFER_SIZE : Z := 16384.

(** Bytes stored from [head] on, one at a time. *)
Fixpoint ring_put {S} (bs buf : list Z) (head : Z) : M S (list Z * Z) :=
  match bs with
  | [] => kret (buf, head)
  | b :: bs' => buf' <-- upd buf head b ;; ring_put bs' buf' ((head + 1) mod SOCKET_BUFFER_SIZE)
  end.

(** [n] bytes read from [tail] on. *)
Fixpoint ring_take {S} (n : nat) (buf : list Z) (tail : Z) : M S (list Z * Z) :=
  match n with
  | O => kret ([], tail)
  | Datatypes.S n' =>
      b <-- rd buf tail ;;
      r <-- ring_take n' buf ((tail + 1) mod SOCKET_BUFFER_SIZE) ;;
      kret (b :: r.1, r.2)
  end.

(** The number of bytes between the indices, and the bytes. *)
Definition ring_used (head tail : Z) : Z := (head - tail) mod SOCKET_BUFFER_SIZE.
Definition ring_get (buf : list Z) (tail : Z) (n : nat) : list Z :=
  (fun i => default 0 (buf !! Z.to_nat ((tail + i) mod SOCKET_BUFFER_SIZE))) <$> seqZ 0 (Z.of_nat n).
Definition ring_data (buf : list Z) (head tail : Z) : list Z := ring_get buf tail (Z.to_nat (ring_used head tail)).

Record ring_ok (buf : list Z) (head tail : Z) : Prop := {
  ro_len : zlen buf = SOCKET_BUFFER_SIZE;
  ro_head : 0 <= head < SOCKET_BUFFER_SIZE;
  ro_tail : 0 <= tail < SOCKET_BUFFER_SIZE
}.

Lemma ring_get_lookup buf tail n i :
  (i < n)%nat -> ring_get buf tail n !! i = Some (default 0 (buf !! Z.to_nat ((tail + Z.of_nat i) mod SOCKET_BUFFER_SIZE))).
Proof.
  intros Hi. unfold ring_get. rewrite list_lookup_fmap, lookup_seqZ_lt by lia. done.
Qed.
Lemma ring_get_length buf tail n : length (ring_get buf tail n) = n.
Proof. unfold ring_get. rewrite length_fmap, length_seqZ. lia. Qed.
Lemma ring_data_length buf head tail : zlen (ring_data buf head tail) = ring_used head tail.
Proof.
  unfold zlen, ring_data. rewrite ring_get_length. unfold ring_used.
  pose proof (Z.mod_pos_bound (head - tail) SOCKET_BUFFER_SIZE ltac:(unfold SOCKET_BUFFER_SIZE; lia)). lia.
Qed.

(** One more byte. *)
Lemma ring_push1 buf head tail b :
  ring_ok buf head tail -> ring_used head tail < SOCKET_BUFFER_SIZE - 1 ->
  ring_ok (<[Z.to_nat head := b]> buf) ((head + 1) mod SOCKET_BUFFER_SIZE) tail /\
  ring_used ((head + 1) mod SOCKET_BUFFER_SIZE) tail = ring_used head tail + 1 /\
  ring_data (<[Z.to_nat head := b]> buf) ((head + 1) mod SOCKET_BUFFER_SIZE) tail = ring_data buf head tail ++ [b].
Proof.
  intros [Hl Hh Ht] Hu. unfold SOCKET_BUFFER_SIZE in *.
  assert (Eu : ring_used ((head + 1) mod 16384) tail = ring_used head tail + 1).
  { unfold ring_used in *. unfold SOCKET_BUFFER_SIZE in *. zdiv_lia. }
  split_and!; [|done|].
  - split; [by rewrite zlen_insert | |done]. apply Z.mod_pos_bound. done.
  - unfold ring_data. rewrite Eu. set (u := ring_used head tail) in *.
    assert (H0 : 0 <= u) by (apply Z.mod_pos_bound; unfold SOCKET_BUFFER_SIZE; lia).
    assert (Hpos : (tail + u) mod 16384 = head) by (unfold u, ring_used, SOCKET_BUFFER_SIZE; zdiv_lia).
    apply list_eq. intros i. unfold zlen in Hl. destruct (decide (i < Z.to_nat u)%nat).
    + rewrite lookup_app_l by (rewrite ring_get_length; lia). rewrite !ring_get_lookup by lia.
      rewrite list_lookup_insert_ne; [done|]. unfold SOCKET_BUFFER_SIZE. zdiv_lia.
    + rewrite lookup_app_r by (rewrite ring_get_length; lia). rewrite ring_get_length.
      destruct (decide (i = Z.to_nat u)) as [->|].
      * rewrite ring_get_lookup by lia. unfold SOCKET_BUFFER_SIZE. rewrite Z2Nat.id, Hpos, Nat.sub_diag by lia.
        by rewrite list_lookup_insert_eq by lia.
      * rewrite !lookup_ge_None_2; [done| |]; [cbn; lia | rewrite ring_get_length; lia].
Qed.

Lemma wp_ring_put {S} bs buf head tail (Q : list Z * Z -> S -> Prop) s :
  ring_ok buf head tail -> ring_used head tail + zlen bs < SOCKET_BUFFER_SIZE ->
  (forall buf' head', ring_ok buf' head' tail -> ring_used head' tail = ring_used head tail + zlen bs ->
     ring_data buf' head' tail = ring_data buf head tail ++ bs -> Q (buf', head') s) ->
  wp (ring_put bs buf head) Q s.
Proof.
  revert buf head. induction bs as [|b bs IH]; intros buf head Ho Hu HQ; cbn [ring_put]; unfold zlen in *; cbn [length] in *.
  - wp_steps. apply HQ; [done | lia | by rewrite app_nil_r].
  - wp_steps. pose proof Ho as [Hl Hh Ht]. apply wp_upd; [unfold SOCKET_BUFFER_SIZE, zlen in *; lia|].
    destruct (ring_push1 buf head tail b Ho) as (Ho' & Hu' & Hd'); [lia|]. apply IH; [done|lia|].
    intros buf' head' O' U' D'. apply HQ; [done|lia|]. by rewrite D', Hd', <- app_assoc.
Qed.

(** One byte less. *)
Lemma ring_pop1 buf head tail :
  ring_ok buf head tail -> 0 < ring_used head tail -> exists b,
  buf !! Z.to_nat tail = Some b /\ ring_ok buf head ((tail + 1) mod SOCKET_BUFFER_SIZE) /\
  ring_used head ((tail + 1) mod SOCKET_BUFFER_SIZE) = ring_used head tail - 1 /\
  ring_data buf head tail = b :: ring_data buf head ((tail + 1) mod SOCKET_BUFFER_SIZE).
Proof.
  intros [Hl Hh Ht] Hu. unfold SOCKET_BUFFER_SIZE in *.
  assert (Eu : ring_used head ((tail + 1) mod 16384) = ring_used head tail - 1).
  { unfold ring_used in *. unfold SOCKET_BUFFER_SIZE in *. zdiv_lia. }
  destruct (zlen_lookup buf tail) as [b Hb]; [lia|]. exists b. split_and!; [done | |done|].
  - split; [done..|]. apply Z.mod_pos_bound. done.
  - unfold ring_data. rewrite Eu. set (u := ring_used head tail) in *. apply list_eq. intros [|i]; cbn.
    + rewrite ring_get_lookup by lia. unfold SOCKET_BUFFER_SIZE. rewrite Z.add_0_r, Z.mod_small by lia. by rewrite Hb.
    + destruct (decide (Datatypes.S i < Z.to_nat u)%nat).
      * rewrite !ring_get_lookup by lia. do 4 f_equal. unfold SOCKET_BUFFER_SIZE. zdiv_lia.
      * rewrite (lookup_ge_None_2 (ring_get buf tail _)) by (rewrite ring_get_length; lia). symmetry.
        apply lookup_ge_None_2. rewrite ring_get_length. lia.
Qed.

Lemma wp_ring_take {S} n buf head tail (Q : list Z * Z -> S -> Prop) s :
  ring_ok buf head tail -> Z.of_nat n <= ring_used head tail ->
  (forall bs tail', ring_ok buf head tail' -> length bs = n ->
     ring_data buf head tail = bs ++ ring_data buf head tail' -> ring_used head tail' = ring_used head tail - Z.of_nat n ->
     tail' = (tail + Z.of_nat n) mod SOCKET_BUFFER_SIZE -> Q (bs, tail') s) ->
  wp (ring_take n buf tail) Q s.
Proof.
  revert tail Q. induction n as [|n IH]; intros tail Q Ho Hu HQ; cbn [ring_take].
  - wp_steps. apply HQ; try done; [lia|]. destruct Ho as [_ _ Ht]. rewrite Z.add_0_r, Z.mod_small; done.
  - wp_steps. destruct (ring_pop1 buf head tail Ho) as (b & Hb & Ho' & Hu' & Hd'); [lia|].
    eapply wp_rd; [apply Ho | done|]. wp_steps. apply IH; [done|lia|]. intros bs tail' O' L' D' U' E'. wp_steps.
    apply HQ; cbn [fst snd]; [done | cbn; lia | by rewrite Hd', D' | lia|].
    rewrite E', Z.add_mod_idemp_l by done. f_equal. lia.
Qed.

(** The empty buffer. *)
Lemma ring_empty buf h t : ring_ok buf h t -> (h =? t) = bool_decide (ring_data buf h t = []).
Proof.
  intros [_ Hh Ht]. unfold SOCKET_BUFFER_SIZE in *. pose proof (ring_data_length buf h t) as Hl. unfold zlen in Hl.
  destruct (Z.eqb_spec h t) as [->|Hne]; symmetry.
  - apply bool_decide_eq_true. apply length_zero_iff_nil. unfold ring_used in Hl. rewrite Z.sub_diag in Hl.
    change (0 mod SOCKET_BUFFER_SIZE) with 0 in Hl. lia.
  - apply bool_decide_eq_false. intros E. rewrite E in Hl. cbn in Hl. unfold ring_used, SOCKET_BUFFER_SIZE in Hl. zdiv_lia.
Qed.
