(* ===== verification/Net.v ===== *)
(** * The IPv4 stack and its sockets

    [net.c] (interfaces, transmission), [arp.c], [ethernet.c], [ip.c],
    [icmp.c], [udp.c], [dhcp.c], [tcp.c], the socket list of [socket.c] and the
    [AF_INET] operations of [af_inet.c].  Sockets are records by address;
    packets are byte lists.  A transmitted frame is appended to [wire]; a
    wake-up of a socket's queue to [woken_chans].  A sleep in a loop is the end
    of one pass of it, as in the scheduler.  The network card is the parameter
    [driver]: the result of a transmission, from the frames before and the
    frame.  Heap blocks that are not cleared start as [junk]. *)

From Stdlib Require Import ZArith Lia.
From stdpp Require Import base tactics list gmap.
From S2P Require Import Prelude Bytes NetBase.

Definition ETH_P_IP : Z := 0x0800.
Definition ETH_P_ARP : Z := 0x0806.
Definition IPPROTO_ICMP : Z := 1.
Definition IPPROTO_TCP : Z := 6.
Definition IPPROTO_UDP : Z := 17.
Definition AF_INET : Z := 2.
Definition SOCK_STREAM : Z := 1.
Definition SOCK_DGRAM : Z := 2.
Definition TCP_STATE_CLOSED : Z := 0.
Definition TCP_STATE_SYN_SENT : Z := 1.
Definition TCP_STATE_LISTEN : Z := 2.
Definition TCP_STATE_SYN_RECV : Z := 3.
Definition TCP_STATE_ESTABLISHED : Z := 4.
Definition TCP_STATE_FIN_WAIT_1 : Z := 5.
Definition TCP_STATE_CLOSE_WAIT : Z := 7.
Definition TCP_FLAG_FIN : Z := 0x0001.
Definition TCP_FLAG_SYN : Z := 0x0002.
Definition TCP_FLAG_RST : Z := 0x0004.
Definition TCP_FLAG_PSH : Z := 0x0008.
Definition TCP_FLAG_ACK : Z := 0x0010.
Definition ARP_CACHE_MAX : Z := 32.
Definition ARP_OP_REQUEST : Z := 1.
Definition ARP_OP_REPLY : Z := 2.
Definition MAX_NETWORK_INTERFACES : Z := 4.
Definition EPHEMERAL_PORT_START : Z := 32768.
Definition EPHEMERAL_PORT_END : Z := 61000.
Definition ICMP_TYPE_ECHO_REPLY : Z := 0.
Definition ICMP_TYPE_ECHO_REQUEST : Z := 8.
Definition DHCP_BOOTREPLY : Z := 2.
Definition DHCP_DISCOVER_XID : Z := 0x39A34125.
(** Sizes of the packed headers and of [struct sockaddr_in]. *)
Definition ETH_SIZE : Z := 14.
Definition IP_SIZE : Z := 20.
Definition TCP_SIZE : Z := 20.
Definition UDP_SIZE : Z := 8.
Definition ARP_SIZE : Z := 28.
Definition ICMP_SIZE : Z := 8.
Definition DHCP_SIZE : Z := 240.
Definition SIN_SIZE : Z := 16.

Record socket : Type := Socket {
  family : Z;
  so_type : Z;
  so_state : Z;
  so_lock : bool;
  local_addr : list Z;
  local_addr_len : Z;
  remote_addr : list Z;
  remote_addr_len : Z;
  local_seq : Z;
  remote_ack : Z;
  rx_buffer : option (list Z);
  rx_head : Z;
  rx_tail : Z;
  peer : Z;
  listen_queue : Z;
  so_next : Z;
  global_next : Z
}.

Definition set_so_state (x : Z) (k : socket) : socket :=
  Socket (family k) (so_type k) x (so_lock k) (local_addr k) (local_addr_len k) (remote_addr k) (remote_addr_len k)
    (local_seq k) (remote_ack k) (rx_buffer k) (rx_head k) (rx_tail k) (peer k) (listen_queue k) (so_next k) (global_next k).
Definition set_so_lock (x : bool) (k : socket) : socket :=
  Socket (family k) (so_type k) (so_state k) x (local_addr k) (local_addr_len k) (remote_addr k) (remote_addr_len k)
    (local_seq k) (remote_ack k) (rx_buffer k) (rx_head k) (rx_tail k) (peer k) (listen_queue k) (so_next k) (global_next k).
Definition set_local (a : list Z) (n : Z) (k : socket) : socket :=
  Socket (family k) (so_type k) (so_state k) (so_lock k) a n (remote_addr k) (remote_addr_len k)
    (local_seq k) (remote_ack k) (rx_buffer k) (rx_head k) (rx_tail k) (peer k) (listen_queue k) (so_next k) (global_next k).
Definition set_remote (a : list Z) (n : Z) (k : socket) : socket :=
  Socket (family k) (so_type k) (so_state k) (so_lock k) (local_addr k) (local_addr_len k) a n
    (local_seq k) (remote_ack k) (rx_buffer k) (rx_head k) (rx_tail k) (peer k) (listen_queue k) (so_next k) (global_next k).
Definition set_seqs (seq ack : Z) (k : socket) : socket :=
  Socket (family k) (so_type k) (so_state k) (so_lock k) (local_addr k) (local_addr_len k) (remote_addr k)
    (remote_addr_len k) seq ack (rx_buffer k) (rx_head k) (rx_tail k) (peer k) (listen_queue k) (so_next k) (global_next k).
Definition set_rx (b : option (list Z)) (h t : Z) (k : socket) : socket :=
  Socket (family k) (so_type k) (so_state k) (so_lock k) (local_addr k) (local_addr_len k) (remote_addr k)
    (remote_addr_len k) (local_seq k) (remote_ack k) b h t (peer k) (listen_queue k) (so_next k) (global_next k).
Definition set_listen_queue (x : Z) (k : socket) : socket :=
  Socket (family k) (so_type k) (so_state k) (so_lock k) (local_addr k) (local_addr_len k) (remote_addr k)
    (remote_addr_len k) (local_seq k) (remote_ack k) (rx_buffer k) (rx_head k) (rx_tail k) (peer k) x (so_next k)
    (global_next k).
Definition set_peer (x : Z) (k : socket) : socket :=
  Socket (family k) (so_type k) (so_state k) (so_lock k) (local_addr k) (local_addr_len k) (remote_addr k)
    (remote_addr_len k) (local_seq k) (remote_ack k) (rx_buffer k) (rx_head k) (rx_tail k) x (listen_queue k)
    (so_next k) (global_next k).
Definition set_so_next (x : Z) (k : socket) : socket :=
  Socket (family k) (so_type k) (so_state k) (so_lock k) (local_addr k) (local_addr_len k) (remote_addr k)
    (remote_addr_len k) (local_seq k) (remote_ack k) (rx_buffer k) (rx_head k) (rx_tail k) (peer k) (listen_queue k) x
    (global_next k).
Definition set_global_next (x : Z) (k : socket) : socket :=
  Socket (family k) (so_type k) (so_state k) (so_lock k) (local_addr k) (local_addr_len k) (remote_addr k)
    (remote_addr_len k) (local_seq k) (remote_ack k) (rx_buffer k) (rx_head k) (rx_tail k) (peer k) (listen_queue k)
    (so_next k) x.

Record arp_entry : Type := ArpEntry { ae_ip : Z; ae_mac : list Z; ae_valid : bool }.

Record net_interface : Type := NetInterface {
  if_mac : list Z; if_ip : Z; if_mask : Z; if_gateway : Z; if_active : bool; if_init : bool
}.

(** [pending] is the list of frames that wait for an address, by the IP they
    wait for; [n_brk] and [n_mem] are the heap, as in the scheduler. *)
Record net : Type := Net {
  socks : gmap Z socket;
  g_bound_sockets_head : Z;
  g_socket_list_lock : bool;
  g_arp_cache : list arp_entry;
  g_arp_victim_idx : Z;
  g_arp_lock : bool;
  pending : list (Z * list Z);
  g_arp_pending_lock : bool;
  g_net_interfaces : list net_interface;
  g_interface_count : Z;
  g_ip_packet_id : Z;
  wire : list (list Z);
  woken_chans : list Z;
  n_brk : Z;
  n_mem : nat
}.

Definition set_socks (x : gmap Z socket) (s : net) : net :=
  Net x (g_bound_sockets_head s) (g_socket_list_lock s) (g_arp_cache s) (g_arp_victim_idx s) (g_arp_lock s)
    (pending s) (g_arp_pending_lock s) (g_net_interfaces s) (g_interface_count s) (g_ip_packet_id s) (wire s)
    (woken_chans s) (n_brk s) (n_mem s).
Definition set_bound (x : Z) (s : net) : net :=
  Net (socks s) x (g_socket_list_lock s) (g_arp_cache s) (g_arp_victim_idx s) (g_arp_lock s)
    (pending s) (g_arp_pending_lock s) (g_net_interfaces s) (g_interface_count s) (g_ip_packet_id s) (wire s)
    (woken_chans s) (n_brk s) (n_mem s).
Definition set_slist_lock (x : bool) (s : net) : net :=
  Net (socks s) (g_bound_sockets_head s) x (g_arp_cache s) (g_arp_victim_idx s) (g_arp_lock s)
    (pending s) (g_arp_pending_lock s) (g_net_interfaces s) (g_interface_count s) (g_ip_packet_id s) (wire s)
    (woken_chans s) (n_brk s) (n_mem s).
Definition set_arp (c : list arp_entry) (v : Z) (s : net) : net :=
  Net (socks s) (g_bound_sockets_head s) (g_socket_list_lock s) c v (g_arp_lock s)
    (pending s) (g_arp_pending_lock s) (g_net_interfaces s) (g_interface_count s) (g_ip_packet_id s) (wire s)
    (woken_chans s) (n_brk s) (n_mem s).
Definition set_arp_lock (x : bool) (s : net) : net :=
  Net (socks s) (g_bound_sockets_head s) (g_socket_list_lock s) (g_arp_cache s) (g_arp_victim_idx s) x
    (pending s) (g_arp_pending_lock s) (g_net_interfaces s) (g_interface_count s) (g_ip_packet_id s) (wire s)
    (woken_chans s) (n_brk s) (n_mem s).
Definition set_pending_queue (x : list (Z * list Z)) (s : net) : net :=
  Net (socks s) (g_bound_sockets_head s) (g_socket_list_lock s) (g_arp_cache s) (g_arp_victim_idx s) (g_arp_lock s)
    x (g_arp_pending_lock s) (g_net_interfaces s) (g_interface_count s) (g_ip_packet_id s) (wire s)
    (woken_chans s) (n_brk s) (n_mem s).
Definition set_pending_lock (x : bool) (s : net) : net :=
  Net (socks s) (g_bound_sockets_head s) (g_socket_list_lock s) (g_arp_cache s) (g_arp_victim_idx s) (g_arp_lock s)
    (pending s) x (g_net_interfaces s) (g_interface_count s) (g_ip_packet_id s) (wire s)
    (woken_chans s) (n_brk s) (n_mem s).
Definition set_interfaces (x : list net_interface) (n : Z) (s : net) : net :=
  Net (socks s) (g_bound_sockets_head s) (g_socket_list_lock s) (g_arp_cache s) (g_arp_victim_idx s) (g_arp_lock s)
    (pending s) (g_arp_pending_lock s) x n (g_ip_packet_id s) (wire s) (woken_chans s) (n_brk s) (n_mem s).
Definition set_packet_id (x : Z) (s : net) : net :=
  Net (socks s) (g_bound_sockets_head s) (g_socket_list_lock s) (g_arp_cache s) (g_arp_victim_idx s) (g_arp_lock s)
    (pending s) (g_arp_pending_lock s) (g_net_interfaces s) (g_interface_count s) x (wire s) (woken_chans s)
    (n_brk s) (n_mem s).
Definition set_wire (x : list (list Z)) (s : net) : net :=
  Net (socks s) (g_bound_sockets_head s) (g_socket_list_lock s) (g_arp_cache s) (g_arp_victim_idx s) (g_arp_lock s)
    (pending s) (g_arp_pending_lock s) (g_net_interfaces s) (g_interface_count s) (g_ip_packet_id s) x
    (woken_chans s) (n_brk s) (n_mem s).
Definition set_woken (x : list Z) (s : net) : net :=
  Net (socks s) (g_bound_sockets_head s) (g_socket_list_lock s) (g_arp_cache s) (g_arp_victim_idx s) (g_arp_lock s)
    (pending s) (g_arp_pending_lock s) (g_net_interfaces s) (g_interface_count s) (g_ip_packet_id s) (wire s)
    x (n_brk s) (n_mem s).
Definition set_heap (b : Z) (m : nat) (s : net) : net :=
  Net (socks s) (g_bound_sockets_head s) (g_socket_list_lock s) (g_arp_cache s) (g_arp_victim_idx s) (g_arp_lock s)
    (pending s) (g_arp_pending_lock s) (g_net_interfaces s) (g_interface_count s) (g_ip_packet_id s) (wire s)
    (woken_chans s) b m.

Section stack.
Context (driver : list (list Z) -> list Z -> Z) (junk : list Z).

(** ** Memory, locks and sockets *)

(** [kmalloc] and [kfree]: an address for an object, or just room for a
    buffer. *)
Definition n_kmalloc (size : Z) : M net Z :=
  s <-- kget ;;
  match n_mem s with
  | O => kret 0
  | Datatypes.S m => kmodify (set_heap (n_brk s + size) m) ;;; kret (n_brk s)
  end.
Definition n_kfree : M net unit := kmodify (fun s => set_heap (n_brk s) (Datatypes.S (n_mem s)) s).

Definition socket_at (p : Z) : M net socket := s <-- kget ;; kopt NullDeref (socks s !! p).
Definition put_socket (p : Z) (k : socket) : M net unit := kmodify (fun s => set_socks (<[p := k]> (socks s)) s).
Definition on_socket (p : Z) (f : socket -> socket) : M net unit := k <-- socket_at p ;; put_socket p (f k).
Definition free_socket (p : Z) : M net unit := kmodify (fun s => set_socks (delete p (socks s)) s) ;;; n_kfree.

Definition sock_lock (p : Z) : M net unit :=
  k <-- socket_at p ;; if so_lock k then kstop Deadlock else put_socket p (set_so_lock true k).
Definition sock_unlock (p : Z) : M net unit := on_socket p (set_so_lock false).
Definition slist_lock : M net unit :=
  b <-- kgets g_socket_list_lock ;; if b then kstop Deadlock else kmodify (set_slist_lock true).
Definition slist_unlock : M net unit := kmodify (set_slist_lock false).
Definition arp_lock : M net unit :=
  b <-- kgets g_arp_lock ;; if b then kstop Deadlock else kmodify (set_arp_lock true).
Definition arp_unlock : M net unit := kmodify (set_arp_lock false).
Definition pending_lock : M net unit :=
  b <-- kgets g_arp_pending_lock ;; if b then kstop Deadlock else kmodify (set_pending_lock true).
Definition pending_unlock : M net unit := kmodify (set_pending_lock false).

(** [wakeup(&sock->wait_queue)]. *)
Definition wakeup_sock (p : Z) : M net unit := kmodify (fun s => set_woken (woken_chans s ++ [p]) s).

(** Fields of an address in network order. *)
Definition sin_port (a : list Z) : M net Z := ld16 a 2.
Definition sin_ip (a : list Z) : M net Z := ld32 a 4.
Definition sockaddr_in (port ip : Z) : list Z := le16 AF_INET ++ le16 port ++ le32 ip ++ replicate 8 0.
(** A copy into the 256 bytes of an address buffer. *)
Definition addr_in (buf a : list Z) : M net (list Z) := bytes_in buf 0 a.

(** ** Interfaces *)

Definition net_driver_register (mac : list Z) : M net Z :=
  s <-- kget ;;
  if MAX_NETWORK_INTERFACES <=? g_interface_count s then kret (-1) else
  let idx := g_interface_count s in
  l <-- upd (g_net_interfaces s) idx (NetInterface mac 0 0 0 true false) ;;
  kmodify (set_interfaces l (u32 (idx + 1))) ;;;
  kret idx.

(** Interface 0, if it is up. *)
Definition interface0 : M net (option net_interface) :=
  s <-- kget ;; i <-- rd (g_net_interfaces s) 0 ;; kret (if if_active i then Some i else None).

Definition net_get_interface_mac (old : list Z) : M net (list Z) :=
  i <-- interface0 ;; kret (match i with Some i => if_mac i | None => old end).
Definition net_get_interface_ip (old : Z) : M net Z :=
  i <-- interface0 ;; kret (match i with Some i => if_ip i | None => old end).

Definition on_interface0 (f : net_interface -> net_interface) : M net Z :=
  s <-- kget ;;
  i <-- rd (g_net_interfaces s) 0 ;;
  if if_active i then
    l <-- upd (g_net_interfaces s) 0 (f i) ;; kmodify (set_interfaces l (g_interface_count s)) ;;; kret 0
  else kret (-2).
Definition net_set_interface_ip (ip : Z) : M net Z :=
  on_interface0 (fun i => NetInterface (if_mac i) ip (if_mask i) (if_gateway i) (if_active i) (if_init i)).
Definition net_set_interface_mask (m : Z) : M net Z :=
  on_interface0 (fun i => NetInterface (if_mac i) (if_ip i) m (if_gateway i) (if_active i) (if_init i)).
Definition net_set_interface_gateway (g : Z) : M net Z :=
  on_interface0 (fun i => NetInterface (if_mac i) (if_ip i) (if_mask i) g (if_active i) (if_init i)).
Definition net_get_interface_init (b : bool) : M net Z :=
  on_interface0 (fun i => NetInterface (if_mac i) (if_ip i) (if_mask i) (if_gateway i) (if_active i) b).

Definition net_driver_transmit (frame : list Z) : M net Z :=
  s <-- kget ;;
  if zlen frame =? 0 then kret (-1) else
  if g_interface_count s =? 0 then kret (-2) else
  kmodify (set_wire (wire s ++ [frame])) ;;; kret (driver (wire s) frame).

(** ** ARP *)

Definition arp_cache_lookup (ip : Z) : M net (option (list Z)) :=
  arp_lock ;;;
  s <-- kget ;;
  r <-- loop (Z.to_nat ARP_CACHE_MAX) 0
    (fun i _ => e <-- rd (g_arp_cache s) i ;;
       kret (if ae_valid e && (ae_ip e =? ip) then inr (ae_mac e) else inl tt)) tt ;;
  arp_unlock ;;;
  kret (match r with inr mac => Some mac | inl _ => None end).

Definition arp_store (i : Z) (e : arp_entry) (victim : Z) : M net unit :=
  s <-- kget ;; l <-- upd (g_arp_cache s) i e ;; kmodify (set_arp l victim).

Definition arp_cache_insert (ip : Z) (mac : list Z) : M net unit :=
  arp_lock ;;;
  s <-- kget ;;
  r <-- loop (Z.to_nat ARP_CACHE_MAX) 0
    (fun i _ => e <-- rd (g_arp_cache s) i ;;
       kret (if ae_valid e && (ae_ip e =? ip) then inr i else inl tt)) tt ;;
  match r with
  | inr i => arp_store i (ArpEntry ip mac true) (g_arp_victim_idx s) ;;; arp_unlock
  | inl _ =>
      r <-- loop (Z.to_nat ARP_CACHE_MAX) 0
        (fun i _ => e <-- rd (g_arp_cache s) i ;; kret (if ae_valid e then inl tt else inr i)) tt ;;
      match r with
      | inr i => arp_store i (ArpEntry ip mac true) (g_arp_victim_idx s) ;;; arp_unlock
      | inl _ =>
          let victim := g_arp_victim_idx s in
          arp_store victim (ArpEntry ip mac true) (u32 (victim + 1) mod ARP_CACHE_MAX) ;;; arp_unlock
      end
  end.

Definition arp_retain_packet (ip : Z) (frame : list Z) : M net Z :=
  if zlen frame =? 0 then kret (-1) else
  node <-- n_kmalloc 32 ;;
  if node =? 0 then kret (-1) else
  pending_lock ;;;
  kmodify (fun s => set_pending_queue ((ip, frame) :: pending s) s) ;;;
  pending_unlock ;;;
  kret 0.

(** The frame with the address of its destination. *)
Definition ethernet_output (frame mac : list Z) : M net Z :=
  if zlen frame <? ETH_SIZE then kret (-1) else
  f <-- bytes_in frame 0 mac ;; net_driver_transmit f.

(** The walk over the list; sent nodes are freed with their frames. *)
Fixpoint flush_list (ip : Z) (mac : list Z) (l : list (Z * list Z)) : M net (list (Z * list Z)) :=
  match l with
  | [] => kret []
  | (d, f) :: l' =>
      if d =? ip then
        _ <-- ethernet_output f mac ;; n_kfree ;;; n_kfree ;;; flush_list ip mac l'
      else r <-- flush_list ip mac l' ;; kret ((d, f) :: r)
  end.
Definition arp_flush_pending_packets (ip : Z) (mac : list Z) : M net unit :=
  pending_lock ;;;
  l <-- kgets pending ;;
  r <-- flush_list ip mac l ;;
  kmodify (set_pending_queue r) ;;;
  pending_unlock.

Definition arp_frame (dst src : list Z) (op : Z) (smac : list Z) (sip : Z) (dmac : list Z) (dip : Z) : list Z :=
  dst ++ src ++ le16 (htons ETH_P_ARP) ++
  le16 (htons 1) ++ le16 (htons ETH_P_IP) ++ [6; 4] ++ le16 (htons op) ++ smac ++ le32 sip ++ dmac ++ le32 dip.

Definition arp_request (target_ip : Z) : M net Z :=
  b <-- n_kmalloc (ETH_SIZE + ARP_SIZE) ;;
  if b =? 0 then kret (-1) else
  mac <-- net_get_interface_mac (replicate 6 0) ;;
  my_ip <-- net_get_interface_ip 0x10101010 ;;
  r <-- net_driver_transmit
    (arp_frame (replicate 6 0xFF) mac ARP_OP_REQUEST mac my_ip (replicate 6 0) target_ip) ;;
  n_kfree ;;; kret r.

Definition arp_gratuitous (ip : Z) : M net Z :=
  b <-- n_kmalloc (ETH_SIZE + ARP_SIZE) ;;
  if b =? 0 then kret (-1) else
  mac <-- net_get_interface_mac (replicate 6 0) ;;
  r <-- net_driver_transmit (arp_frame (replicate 6 0xFF) mac ARP_OP_REQUEST mac ip (replicate 6 0) ip) ;;
  n_kfree ;;; kret r.

Definition arp_input (data : list Z) (len : Z) : M net Z :=
  if len <? ARP_SIZE then kret (-1) else
  hw <-- ld16 data 0 ;;
  proto <-- ld16 data 2 ;;
  if negb (ntohs hw =? 1) || negb (ntohs proto =? ETH_P_IP) then kret (-2) else
  hl <-- ld8 data 4 ;;
  pl <-- ld8 data 5 ;;
  if negb (hl =? 6) || negb (pl =? 4) then kret (-2) else
  op <-- ld16 data 6 ;;
  smac <-- bytes_out data 8 6 ;;
  sip <-- ld32 data 14 ;;
  arp_cache_insert sip smac ;;;
  if ntohs op =? ARP_OP_REQUEST then
    my_ip <-- net_get_interface_ip 0 ;;
    dip <-- ld32 data 24 ;;
    if dip =? my_ip then
      b <-- n_kmalloc (ETH_SIZE + ARP_SIZE) ;;
      if b =? 0 then kret (-3) else
      mac <-- net_get_interface_mac junk ;;
      r <-- net_driver_transmit (arp_frame smac mac ARP_OP_REPLY mac my_ip smac sip) ;;
      n_kfree ;;; kret r
    else kret (-1)
  else if ntohs op =? ARP_OP_REPLY then arp_flush_pending_packets sip smac ;;; kret (-1)
  else kret (-1).

(** ** IP *)

Definition ip_header (total id proto checksum src dst : Z) : list Z :=
  [0x45; 0] ++ le16 (htons total) ++ le16 (htons id) ++ le16 (htons 0x4000) ++ [64; proto] ++ le16 checksum ++
  le32 src ++ le32 dst.

Definition ip_packet (id proto src dst : Z) (data : list Z) : list Z :=
  let size := u32 (IP_SIZE + zlen data) in
  ip_header size id proto (ip_calculate_checksum (ip_header size id proto 0 src dst)) src dst ++ data.

Definition ip_output (dest_ip proto : Z) (data : list Z) : M net Z :=
  let size := u32 (IP_SIZE + zlen data) in
  if 1500 <? size then kret (-2) else
  b <-- n_kmalloc (ETH_SIZE + size) ;;
  if b =? 0 then kret (-3) else
  src_mac <-- net_get_interface_mac junk ;;
  id <-- kgets g_ip_packet_id ;;
  kmodify (set_packet_id (u16 (id + 1))) ;;;
  src <-- net_get_interface_ip 0 ;;
  let frame := fun mac => mac ++ src_mac ++ le16 (htons ETH_P_IP) ++ ip_packet id proto src dest_ip data in
  if (dest_ip =? 0xFFFFFFFF) || (dest_ip =? 0) then
    r <-- net_driver_transmit (frame (replicate 6 0xFF)) ;; n_kfree ;;; kret r
  else
    m <-- arp_cache_lookup dest_ip ;;
    match m with
    | Some mac => r <-- net_driver_transmit (frame mac) ;; n_kfree ;;; kret r
    | None => _ <-- arp_retain_packet dest_ip (frame junk) ;; _ <-- arp_request dest_ip ;; kret (-11)
    end.

(** ** ICMP *)

Definition icmp_input (data : list Z) (len src_ip : Z) : M net Z :=
  if len <? ICMP_SIZE then kret (-1) else
  t <-- ld8 data 0 ;;
  if t =? ICMP_TYPE_ECHO_REQUEST then
    b <-- n_kmalloc len ;;
    if b =? 0 then kret (-2) else
    d <-- bytes_out data 0 len ;;
    let blank := [ICMP_TYPE_ECHO_REPLY; 0; 0; 0] ++ drop 4 d in
    let reply := [ICMP_TYPE_ECHO_REPLY; 0] ++ le16 (ip_calculate_checksum blank) ++ drop 4 d in
    r <-- ip_output src_ip IPPROTO_ICMP reply ;; n_kfree ;;; kret r
  else kret 0.

End stack.
