(* ===== verification/Tcp.v ===== *)
(** * Sockets, UDP, DHCP and TCP

    The global list of bound sockets with its searches ([socket.c]), datagrams
    ([udp.c], [dhcp.c]), the connection state machine and its segments
    ([tcp.c]), the operations of internet sockets ([af_inet.c]) and the
    dispatch of [ip_input]. *)

From Stdlib Require Import ZArith Lia.
From stdpp Require Import base tactics list gmap.
From S2P Require Import Prelude Bytes NetBase Net.

(** [sizeof(socket_t)]. *)
Definition SOCKET_T_SIZE : Z := 640.

(** [memset(sock, 0, sizeof(socket_t))]. *)
Definition zero_socket : socket :=
  Socket 0 0 0 false (replicate 256 0) 0 (replicate 256 0) 0 0 0 None 0 0 0 0 0 0.

Definition set_kind (f t : Z) (k : socket) : socket :=
  Socket f t (so_state k) (so_lock k) (local_addr k) (local_addr_len k) (remote_addr k) (remote_addr_len k)
    (local_seq k) (remote_ack k) (rx_buffer k) (rx_head k) (rx_tail k) (peer k) (listen_queue k) (so_next k) (global_next k).

Section sockets.
Context (driver : list (list Z) -> list Z -> Z) (junk stale : list Z).

(** The fuel of a walk over sockets. *)
Definition socket_count : M net nat := kgets (fun s => size (socks s)).

(** ** The list of bound sockets *)

(** The first socket of the list that [f] accepts. *)
Fixpoint find_socket (fuel : nat) (f : socket -> M net bool) (p : Z) : M net Z :=
  if p =? 0 then kret 0 else
  match fuel with
  | O => kstop NoFuel
  | Datatypes.S fuel' =>
      k <-- socket_at p ;;
      b <-- f k ;;
      if b then kret p else find_socket fuel' f (global_next k)
  end.

(** A port is taken when a socket of the same type has it. *)
Definition port_taken (need_len : bool) (ty port : Z) (k : socket) : M net bool :=
  if (family k =? AF_INET) && (so_type k =? ty) && (negb need_len || (SIN_SIZE <=? local_addr_len k)) then
    p <-- sin_port (local_addr k) ;; kret (p =? port)
  else kret false.

(** The search for a free port between the bounds; 0 if there is none. *)
Definition ephemeral_port (need_len : bool) (ty : Z) : M net Z :=
  head <-- kgets g_bound_sockets_head ;;
  n <-- socket_count ;;
  r <-- loop (Z.to_nat (EPHEMERAL_PORT_END - EPHEMERAL_PORT_START + 1)) EPHEMERAL_PORT_START
    (fun port _ =>
       let net_port := u16 (Z.lor (Z.shiftl (Z.land port 0xFF) 8) (Z.shiftr (Z.land port 0xFF00) 8)) in
       q <-- find_socket n (port_taken need_len ty net_port) head ;;
       kret (if q =? 0 then inr net_port else inl tt)) tt ;;
  kret (match r with inr p => p | inl _ => 0 end).

(** The address is in use: same port, and the same or an unbound IP. *)
Definition address_clash (port ip : Z) (k : socket) : M net bool :=
  if (family k =? AF_INET) && (SIN_SIZE <=? local_addr_len k) then
    p <-- sin_port (local_addr k) ;;
    a <-- sin_ip (local_addr k) ;;
    kret ((p =? port) && ((a =? ip) || (a =? 0) || (ip =? 0)))
  else kret false.

Definition same_address (fam : Z) (addr : list Z) (k : socket) : M net bool :=
  if (family k =? fam) && (local_addr_len k =? zlen addr) then
    a <-- bytes_out (local_addr k) 0 (zlen addr) ;; kret (bool_decide (a = addr))
  else kret false.

(** The socket joins the list. *)
Definition link_socket (p : Z) (addr : list Z) : M net unit :=
  k <-- socket_at p ;;
  buf <-- addr_in (local_addr k) addr ;;
  head <-- kgets g_bound_sockets_head ;;
  put_socket p (set_global_next head (set_local buf (zlen addr) k)) ;;;
  kmodify (set_bound p).

Definition socket_bind_address (p : Z) (addr : list Z) : M net Z :=
  if p =? 0 then kret (-9) else
  if (zlen addr =? 0) || (256 <? zlen addr) then kret (-22) else
  slist_lock ;;;
  k <-- socket_at p ;;
  if negb (local_addr_len k =? 0) then slist_unlock ;;; kret (-22) else
  head <-- kgets g_bound_sockets_head ;;
  n <-- socket_count ;;
  if family k =? AF_INET then
    if zlen addr <? SIN_SIZE then slist_unlock ;;; kret (-22) else
    sin <-- bytes_out addr 0 SIN_SIZE ;;
    port0 <-- sin_port sin ;;
    port <-- (if port0 =? 0 then ephemeral_port true (so_type k) else kret port0) ;;
    if port =? 0 then slist_unlock ;;; kret (-2) else
    let sin' := take 2 sin ++ le16 port ++ drop 4 sin in
    ip <-- sin_ip sin' ;;
    clash <-- find_socket n (address_clash port ip) head ;;
    if negb (clash =? 0) then slist_unlock ;;; kret (-2) else
    link_socket p sin' ;;; slist_unlock ;;; kret 0
  else
    clash <-- find_socket n (same_address (family k) addr) head ;;
    if negb (clash =? 0) then slist_unlock ;;; kret (-2) else
    link_socket p addr ;;; slist_unlock ;;; kret 0.

Definition socket_find_by_address (addr : list Z) (fam : Z) : M net Z :=
  if (zlen addr =? 0) || (256 <? zlen addr) then kret 0 else
  slist_lock ;;;
  head <-- kgets g_bound_sockets_head ;;
  n <-- socket_count ;;
  r <-- find_socket n (same_address fam addr) head ;;
  slist_unlock ;;; kret r.

Definition socket_find_by_port (port ty : Z) : M net Z :=
  slist_lock ;;;
  head <-- kgets g_bound_sockets_head ;;
  n <-- socket_count ;;
  r <-- find_socket n (port_taken false ty port) head ;;
  slist_unlock ;;; kret r.

(** The socket of a segment: the session with the four addresses, or else the
    last listening socket of the port. *)
Fixpoint lookup_segment (fuel : nat) (src_ip src_port dest_port p fallback : Z) : M net Z :=
  if p =? 0 then kret fallback else
  match fuel with
  | O => kstop NoFuel
  | Datatypes.S fuel' =>
      k <-- socket_at p ;;
      hit <-- port_taken false SOCK_STREAM dest_port k ;;
      if hit then
        if negb (so_state k =? TCP_STATE_LISTEN) then
          rp <-- sin_port (remote_addr k) ;;
          ri <-- sin_ip (remote_addr k) ;;
          if (rp =? src_port) && (ri =? src_ip) then kret p
          else lookup_segment fuel' src_ip src_port dest_port (global_next k) fallback
        else lookup_segment fuel' src_ip src_port dest_port (global_next k) p
      else lookup_segment fuel' src_ip src_port dest_port (global_next k) fallback
  end.
Definition tcp_input_lookup (src_ip src_port dest_port : Z) : M net Z :=
  slist_lock ;;;
  head <-- kgets g_bound_sockets_head ;;
  n <-- socket_count ;;
  r <-- lookup_segment n src_ip src_port dest_port head 0 ;;
  slist_unlock ;;; kret r.

(** Taking a socket out of the list; [clear] also resets its link. *)
Fixpoint unlink_from (fuel : nat) (clear : bool) (p prev curr : Z) : M net unit :=
  if curr =? 0 then kret tt else
  match fuel with
  | O => kstop NoFuel
  | Datatypes.S fuel' =>
      k <-- socket_at curr ;;
      if curr =? p then
        (if prev =? 0 then kmodify (set_bound (global_next k)) else on_socket prev (set_global_next (global_next k))) ;;;
        (if clear then on_socket curr (set_global_next 0) else kret tt)
      else unlink_from fuel' clear p curr (global_next k)
  end.
Definition unlink_socket (clear : bool) (p : Z) : M net unit :=
  slist_lock ;;;
  head <-- kgets g_bound_sockets_head ;;
  n <-- socket_count ;;
  unlink_from n clear p 0 head ;;;
  slist_unlock.

Definition socket_create (fam ty : Z) : M net Z :=
  if (fam <? 0) || (4 <? fam) then kret 0 else
  p <-- n_kmalloc SOCKET_T_SIZE ;;
  if p =? 0 then kret 0 else
  b <-- n_kmalloc SOCKET_BUFFER_SIZE ;;
  if b =? 0 then n_kfree ;;; kret 0 else
  put_socket p (set_rx (Some (replicate (Z.to_nat SOCKET_BUFFER_SIZE) 0)) 0 0 (set_kind fam ty zero_socket)) ;;;
  kret p.

(** [kfree] of a socket with its receive buffer. *)
Definition destroy_socket (p : Z) : M net unit :=
  k <-- socket_at p ;;
  (match rx_buffer k with Some _ => n_kfree | None => kret tt end) ;;;
  free_socket p.

Definition leave_peer (q : Z) : M net unit :=
  if q =? 0 then kret tt else on_socket q (fun k => set_peer 0 (set_so_state TCP_STATE_CLOSED k)).
Definition socket_close (p : Z) : M net Z :=
  if p =? 0 then kret (-1) else
  unlink_socket true p ;;;
  k <-- socket_at p ;; leave_peer (peer k) ;;;
  destroy_socket p ;;; kret 0.

Definition socket_auto_bind_inet (p : Z) : M net Z :=
  k <-- socket_at p ;;
  sin <-- (if SIN_SIZE <=? local_addr_len k then bytes_out (local_addr k) 0 SIN_SIZE else kret (replicate 16 0)) ;;
  slist_lock ;;;
  port <-- ephemeral_port false (so_type k) ;;
  if port =? 0 then slist_unlock ;;; kret (-2) else
  link_socket p (le16 AF_INET ++ le16 port ++ drop 4 sin) ;;;
  slist_unlock ;;; kret 0.

(** ** UDP and DHCP *)

Definition udp_header (sp dp size : Z) : list Z := le16 sp ++ le16 dp ++ le16 (htons size) ++ le16 0.

Definition udp_send_datagram (p : Z) (buf dest : list Z) : M net Z :=
  if (p =? 0) || (zlen buf =? 0) then kret (-1) else
  let size := u32 (UDP_SIZE + zlen buf) in
  if 1500 <? IP_SIZE + size then kret (-2) else
  b <-- n_kmalloc size ;;
  if b =? 0 then kret (-3) else
  k <-- socket_at p ;;
  sp <-- sin_port (local_addr k) ;;
  dp <-- sin_port dest ;;
  dip <-- sin_ip dest ;;
  res <-- ip_output driver junk dip IPPROTO_UDP (udp_header sp dp size ++ buf) ;;
  n_kfree ;;;
  if (res <? 0) && negb (res =? -11) then kret (-4) else kret (zlen buf).

Definition dhcp_packet (mac options : list Z) : list Z :=
  [1; 1; 6; 0] ++ le32 (htonl DHCP_DISCOVER_XID) ++ le16 0 ++ le16 (htons 0x8000) ++ replicate 16 0 ++
  mac ++ replicate 10 0 ++ replicate 64 0 ++ replicate 128 0 ++ le32 (htonl 0x63825363) ++ options.

Definition broadcast_67 : list Z := le16 AF_INET ++ le16 (htons 67) ++ le32 (htonl 0xFFFFFFFF) ++ replicate 8 0.

Definition dhcp_send (p : Z) (options : list Z) : M net Z :=
  if p =? 0 then kret (-1) else
  b <-- n_kmalloc (DHCP_SIZE + zlen options) ;;
  if b =? 0 then kret (-2) else
  mac <-- net_get_interface_mac (replicate 6 0) ;;
  res <-- udp_send_datagram p (dhcp_packet mac options) broadcast_67 ;;
  n_kfree ;;; kret (if 0 <? res then 0 else -3).
Definition dhcp_send_discover (p : Z) : M net Z := dhcp_send p [53; 1; 1; 255].
Definition dhcp_send_request (p ip : Z) : M net Z := dhcp_send p ([53; 1; 3; 50; 4] ++ le32 ip ++ [255]).

(** What the options say: the message type, the mask and the gateway. *)
Record dhcp_options : Type := DhcpOptions { dhcp_type : Z; subnet_mask : Z; gateway_ip : Z }.

(** The walk over the options; [fuel] bounds it by their length. *)
Fixpoint dhcp_parse (fuel : nat) (options : list Z) (max idx : Z) (acc : dhcp_options) : M net dhcp_options :=
  if max <=? idx then kret acc else
  match fuel with
  | O => kstop NoFuel
  | Datatypes.S fuel' =>
      t <-- rd options idx ;;
      if t =? 255 then kret acc else
      if t =? 0 then dhcp_parse fuel' options max (u32 (idx + 1)) acc else
      n <-- rd options (idx + 1) ;;
      acc' <-- (if t =? 53 then v <-- rd options (idx + 2) ;; kret (DhcpOptions v (subnet_mask acc) (gateway_ip acc))
                else if (t =? 1) && (n =? 4) then
                  v <-- ld32 options (idx + 2) ;; kret (DhcpOptions (dhcp_type acc) v (gateway_ip acc))
                else if (t =? 3) && (n =? 4) then
                  v <-- ld32 options (idx + 2) ;; kret (DhcpOptions (dhcp_type acc) (subnet_mask acc) v)
                else kret acc) ;;
      dhcp_parse fuel' options max (u32 (idx + (2 + n))) acc'
  end.

Definition dhcp_input (data : list Z) (len : Z) : M net Z :=
  if len <? DHCP_SIZE then kret (-1) else
  xid <-- ld32 data 4 ;;
  if negb (ntohl xid =? DHCP_DISCOVER_XID) then kret 0 else
  op <-- ld8 data 0 ;;
  if op =? DHCP_BOOTREPLY then
    ip <-- ld32 data 16 ;;
    let max := u32 (len - DHCP_SIZE) in
    o <-- dhcp_parse (Z.to_nat max) (drop (Z.to_nat DHCP_SIZE) data) max 0 (DhcpOptions 0 0 0) ;;
    if dhcp_type o =? 2 then
      p <-- socket_find_by_port (htons 68) SOCK_DGRAM ;;
      (if p =? 0 then kret tt else _ <-- dhcp_send_request p ip ;; kret tt) ;;; kret 0
    else if dhcp_type o =? 5 then
      _ <-- net_set_interface_ip ip ;;
      (if subnet_mask o =? 0 then kret tt else _ <-- net_set_interface_mask (subnet_mask o) ;; kret tt) ;;;
      (if gateway_ip o =? 0 then kret tt else _ <-- net_set_interface_gateway (gateway_ip o) ;; kret tt) ;;;
      _ <-- arp_gratuitous driver ip ;;
      _ <-- net_get_interface_init true ;;
      p <-- socket_find_by_port (htons 68) SOCK_DGRAM ;;
      (if p =? 0 then kret tt else _ <-- socket_close p ;; kret tt) ;;; kret 0
    else kret 0
  else kret 0.

(** The bytes of a datagram in the buffer: its length, its source, itself. *)
Definition udp_record (src_port src_ip : Z) (payload : list Z) : list Z :=
  le32 (zlen payload) ++ sockaddr_in src_port src_ip ++ payload.

Definition udp_input (data : list Z) (len src_ip : Z) : M net Z :=
  if len <? UDP_SIZE then kret (-1) else
  sp <-- ld16 data 0 ;;
  dp <-- ld16 data 2 ;;
  l <-- ld16 data 4 ;;
  let size := ntohs l in
  if (len <? size) || (size <? UDP_SIZE) then kret (-2) else
  let n := u32 (size - UDP_SIZE) in
  p <-- socket_find_by_port dp SOCK_DGRAM ;;
  if p =? 0 then kret 0 else
  k <-- socket_at p ;;
  match rx_buffer k with
  | None => kret 0
  | Some buf =>
      payload <-- bytes_out data UDP_SIZE n ;;
      if dp =? htons 68 then dhcp_input payload n else
      sock_lock p ;;;
      let required := u32 (4 + SIN_SIZE + n) in
      let free := u32 (rx_tail k - rx_head k - 1 + SOCKET_BUFFER_SIZE) mod SOCKET_BUFFER_SIZE in
      if free <? required then sock_unlock p ;;; kret (-3) else
      r <-- ring_put (udp_record sp src_ip payload) buf (rx_head k) ;;
      on_socket p (set_rx (Some r.1) r.2 (rx_tail k)) ;;;
      wakeup_sock p ;;;
      sock_unlock p ;;; kret 0
  end.

(** ** TCP segments *)

Definition tcp_header (sp dp seq ack off_flags win checksum : Z) : list Z :=
  le16 sp ++ le16 dp ++ le32 (htonl seq) ++ le32 (htonl ack) ++ le16 (htons off_flags) ++ le16 (htons win) ++
  le16 checksum ++ le16 0.
Definition pseudo_header (src dst size : Z) : list Z :=
  le32 src ++ le32 dst ++ [0; IPPROTO_TCP] ++ le16 (htons size).

(** A segment with its checksum. *)
Definition tcp_segment (src dst sp dp seq ack flags win : Z) (data : list Z) : list Z :=
  let off := Z.lor (Z.shiftl 5 12) flags in
  let size := u32 (TCP_SIZE + zlen data) in
  tcp_header sp dp seq ack off win
    (tcp_calculate_checksum (pseudo_header src dst size) (tcp_header sp dp seq ack off win 0) data) ++ data.

(** A segment without data goes out; the socket's lock is released before. *)
Definition tcp_reply (p dst sp dp seq ack flags win : Z) : M net Z :=
  my_ip <-- net_get_interface_ip 0 ;;
  sock_unlock p ;;;
  r <-- ip_output driver junk dst IPPROTO_TCP (tcp_segment my_ip dst sp dp seq ack flags win []) ;;
  n_kfree ;;; kret r.

Definition tcp_connect_handshake (p : Z) (dest : list Z) : M net Z :=
  if p =? 0 then kret (-1) else
  b <-- n_kmalloc TCP_SIZE ;;
  if b =? 0 then kret (-2) else
  k <-- socket_at p ;;
  if local_addr_len k <? SIN_SIZE then n_kfree ;;; kret (-4) else
  sp <-- sin_port (local_addr k) ;;
  dp <-- sin_port dest ;;
  dip <-- sin_ip dest ;;
  on_socket p (set_seqs 1000 0) ;;;
  my_ip <-- net_get_interface_ip 0 ;;
  sock_lock p ;;;
  k <-- socket_at p ;;
  buf <-- addr_in (remote_addr k) dest ;;
  put_socket p (set_so_state TCP_STATE_SYN_SENT (set_remote buf SIN_SIZE k)) ;;;
  sock_unlock p ;;;
  res <-- ip_output driver junk dip IPPROTO_TCP (tcp_segment my_ip dip sp dp 1000 0 TCP_FLAG_SYN 1024 []) ;;
  n_kfree ;;;
  if (res <? 0) && negb (res =? -11) then
    sock_lock p ;;; on_socket p (set_so_state 0) ;;; sock_unlock p ;;; kret (-3)
  else kret 0.

Definition tcp_disconnect (p : Z) : M net Z :=
  if p =? 0 then kret (-1) else
  sock_lock p ;;;
  k <-- socket_at p ;;
  if (local_addr_len k <? SIN_SIZE) || (remote_addr_len k <? SIN_SIZE) then sock_unlock p ;;; kret (-4) else
  sp <-- sin_port (local_addr k) ;;
  dp <-- sin_port (remote_addr k) ;;
  dip <-- sin_ip (remote_addr k) ;;
  let go flags k' :=
    put_socket p k' ;;;
    sock_unlock p ;;;
    b <-- n_kmalloc TCP_SIZE ;;
    if b =? 0 then kret (-2) else
    my_ip <-- net_get_interface_ip 0 ;;
    res <-- ip_output driver junk dip IPPROTO_TCP
      (tcp_segment my_ip dip sp dp (local_seq k) (remote_ack k) flags 1024 []) ;;
    n_kfree ;;;
    if (res <? 0) && negb (res =? -11) then
      sock_lock p ;;; on_socket p (set_so_state TCP_STATE_CLOSED) ;;; sock_unlock p ;;; kret (-3)
    else kret 0 in
  if (so_state k =? TCP_STATE_ESTABLISHED) || (so_state k =? TCP_STATE_CLOSE_WAIT) then
    go (Z.lor TCP_FLAG_FIN TCP_FLAG_ACK)
       (set_seqs (u32 (local_seq k + 1)) (remote_ack k) (set_so_state TCP_STATE_FIN_WAIT_1 k))
  else if so_state k =? TCP_STATE_SYN_SENT then go TCP_FLAG_RST (set_so_state TCP_STATE_CLOSED k)
  else sock_unlock p ;;; kret 0.

Definition tcp_send_stream (p : Z) (buf : list Z) : M net Z :=
  if (p =? 0) || (zlen buf =? 0) then kret (-1) else
  sock_lock p ;;;
  k <-- socket_at p ;;
  if negb (so_state k =? TCP_STATE_ESTABLISHED) then sock_unlock p ;;; kret (-1) else
  if remote_addr_len k =? 0 then sock_unlock p ;;; kret (-2) else
  let size := u32 (TCP_SIZE + zlen buf) in
  if 1500 <? IP_SIZE + size then sock_unlock p ;;; kret (-3) else
  b <-- n_kmalloc size ;;
  if b =? 0 then sock_unlock p ;;; kret (-4) else
  sp <-- sin_port (local_addr k) ;;
  dp <-- sin_port (remote_addr k) ;;
  dip <-- sin_ip (remote_addr k) ;;
  my_ip <-- net_get_interface_ip 0 ;;
  on_socket p (set_seqs (u32 (local_seq k + zlen buf)) (remote_ack k)) ;;;
  sock_unlock p ;;;
  res <-- ip_output driver junk dip IPPROTO_TCP
    (tcp_segment my_ip dip sp dp (local_seq k) (remote_ack k) (Z.lor TCP_FLAG_ACK TCP_FLAG_PSH) 2048 buf) ;;
  n_kfree ;;;
  if res <? 0 then kret (-5) else kret (zlen buf).

(** ** The state machine *)

Definition has (flags f : Z) : bool := negb (Z.land flags f =? 0).

(** The fields of a received segment. *)
Record segment : Type := Segment {
  sg_src : Z; sg_dst : Z; sg_seq : Z; sg_ack : Z; sg_off : Z
}.

Definition tcp_load (data : list Z) : M net segment :=
  sp <-- ld16 data 0 ;;
  dp <-- ld16 data 2 ;;
  seq <-- ld32 data 4 ;;
  ack <-- ld32 data 8 ;;
  off <-- ld16 data 12 ;;
  kret (Segment sp dp seq ack off).

(** A SYN was sent and answered. *)
Definition tcp_syn_sent (p : Z) (g : segment) (flags src_ip : Z) : M net Z :=
  if has flags TCP_FLAG_SYN && has flags TCP_FLAG_ACK then
    let ack := u32 (ntohl (sg_seq g) + 1) in
    let seq := ntohl (sg_ack g) in
    on_socket p (set_seqs seq ack) ;;;
    on_socket p (set_so_state TCP_STATE_ESTABLISHED) ;;;
    wakeup_sock p ;;;
    b <-- n_kmalloc TCP_SIZE ;;
    if b =? 0 then sock_unlock p ;;; kret 0 else
    _ <-- tcp_reply p src_ip (sg_dst g) (sg_src g) seq ack TCP_FLAG_ACK 2048 ;; kret 0
  else sock_unlock p ;;; kret 0.

(** A client asks for a connection: a node for it joins the queue. *)
Definition tcp_listen_syn (p : Z) (g : segment) (src_ip : Z) : M net Z :=
  c <-- n_kmalloc SOCKET_T_SIZE ;;
  if c =? 0 then sock_unlock p ;;; kret (-1) else
  k <-- socket_at p ;;
  buf <-- addr_in (replicate 256 0) (le16 AF_INET ++ le16 (sg_src g) ++ le32 src_ip ++ stale) ;;
  let client := set_seqs (local_seq k) 0 (set_so_state TCP_STATE_SYN_RECV (set_remote buf SIN_SIZE zero_socket)) in
  put_socket c client ;;;
  b <-- n_kmalloc TCP_SIZE ;;
  if b =? 0 then free_socket c ;;; sock_unlock p ;;; kret 0 else
  on_socket c (set_so_next (listen_queue k)) ;;;
  on_socket p (set_listen_queue c) ;;;
  _ <-- tcp_reply p src_ip (sg_dst g) (sg_src g) (local_seq k) (u32 (ntohl (sg_seq g) + 1))
          (Z.lor TCP_FLAG_SYN TCP_FLAG_ACK) 2048 ;;
  kret 0.

(** The node of the queue that the confirmation belongs to, with the one
    before it. *)
Fixpoint find_pending (fuel : nat) (src_ip src_port prev curr : Z) : M net (option (Z * Z)) :=
  if curr =? 0 then kret None else
  match fuel with
  | O => kstop NoFuel
  | Datatypes.S fuel' =>
      k <-- socket_at curr ;;
      ip <-- sin_ip (remote_addr k) ;;
      port <-- sin_port (remote_addr k) ;;
      if (ip =? src_ip) && (port =? src_port) && (so_state k =? TCP_STATE_SYN_RECV) then kret (Some (prev, curr))
      else find_pending fuel' src_ip src_port curr (so_next k)
  end.

(** The confirmation arrives: a session takes the place of the node and joins
    the list of sockets. *)
Definition tcp_listen_ack (p : Z) (g : segment) (src_ip : Z) : M net Z :=
  k <-- socket_at p ;;
  n <-- socket_count ;;
  r <-- find_pending n src_ip (sg_src g) 0 (listen_queue k) ;;
  match r with
  | None => sock_unlock p ;;; kret 0
  | Some (prev, curr) =>
      q <-- socket_create AF_INET (so_type k) ;;
      if q =? 0 then sock_unlock p ;;; kret (-1) else
      c <-- socket_at curr ;;
      q0 <-- socket_at q ;;
      la <-- bytes_out (local_addr k) 0 (local_addr_len k) ;;
      lbuf <-- addr_in (local_addr q0) la ;;
      ra <-- bytes_out (remote_addr c) 0 (remote_addr_len c) ;;
      rbuf <-- addr_in (remote_addr q0) ra ;;
      put_socket q (set_so_next (so_next c) (set_seqs (u32 (local_seq c + 1)) (ntohl (sg_seq g))
        (set_so_state TCP_STATE_ESTABLISHED (set_remote rbuf (remote_addr_len c)
          (set_local lbuf (local_addr_len k) q0))))) ;;;
      (if prev =? 0 then on_socket p (set_listen_queue q) else on_socket prev (set_so_next q)) ;;;
      slist_lock ;;;
      head <-- kgets g_bound_sockets_head ;;
      on_socket q (set_global_next head) ;;;
      kmodify (set_bound q) ;;;
      slist_unlock ;;;
      free_socket curr ;;;
      wakeup_sock p ;;;
      sock_unlock p ;;; kret 0
  end.

(** The close of both sides: the socket is destroyed. *)
Definition tcp_fin_wait (p : Z) (g : segment) (flags src_ip : Z) : M net Z :=
  if has flags TCP_FLAG_FIN && has flags TCP_FLAG_ACK then
    let ack := u32 (ntohl (sg_seq g) + 1) in
    let seq := ntohl (sg_ack g) in
    on_socket p (set_seqs seq ack) ;;;
    on_socket p (set_so_state TCP_STATE_CLOSED) ;;;
    b <-- n_kmalloc TCP_SIZE ;;
    if b =? 0 then sock_unlock p ;;; kret (-1) else
    _ <-- tcp_reply p src_ip (sg_dst g) (sg_src g) seq ack TCP_FLAG_ACK 2048 ;;
    unlink_socket false p ;;;
    sock_unlock p ;;;
    destroy_socket p ;;; kret 0
  else sock_unlock p ;;; kret (-1).

(** [usado] and the free space of the receive buffer. *)
Definition rx_used (head tail : Z) : Z :=
  if tail <=? head then u32 (head - tail) else u32 (SOCKET_BUFFER_SIZE - u32 (tail - head)).
Definition rx_free (head tail : Z) : Z := u32 (SOCKET_BUFFER_SIZE - rx_used head tail - 1).

(** Data: stored and acknowledged, or refused with a closed window. *)
Definition tcp_established (p : Z) (g : segment) (flags src_ip : Z) (data : list Z) (len : Z) : M net Z :=
  let h_len := u8 (Z.land (Z.shiftr (ntohs (sg_off g)) 12) 0x0F * 4) in
  if (h_len <? TCP_SIZE) || (len <? h_len) then sock_unlock p ;;; kret (-2) else
  let n := u32 (len - h_len) in
  if (0 <? n) && has flags TCP_FLAG_ACK then
    k <-- socket_at p ;;
    if rx_free (rx_head k) (rx_tail k) <? n then
      b <-- n_kmalloc TCP_SIZE ;;
      if b =? 0 then sock_unlock p ;;; kret (-3) else
      _ <-- tcp_reply p src_ip (sg_dst g) (sg_src g) (local_seq k) (u32 (ntohl (sg_seq g) + n)) TCP_FLAG_ACK 0 ;;
      kret 0
    else
      payload <-- bytes_out data h_len n ;;
      buf <-- kopt NullDeref (rx_buffer k) ;;
      r <-- ring_put payload buf (rx_head k) ;;
      let ack := u32 (ntohl (sg_seq g) + n) in
      let seq := ntohl (sg_ack g) in
      on_socket p (fun k => set_seqs seq ack (set_rx (Some r.1) r.2 (rx_tail k) k)) ;;;
      wakeup_sock p ;;;
      b <-- n_kmalloc TCP_SIZE ;;
      if b =? 0 then sock_unlock p ;;; kret 0 else
      let room := rx_free r.2 (rx_tail k) in
      _ <-- tcp_reply p src_ip (sg_dst g) (sg_src g) seq ack TCP_FLAG_ACK
              (u16 (if 0xFFFF <? room then 0xFFFF else room)) ;;
      kret 0
  else sock_unlock p ;;; kret 0.

(** The state machine, with the socket's lock held. *)
Definition tcp_dispatch (p : Z) (state : Z) (g : segment) (flags src_ip : Z) (data : list Z) (len : Z) : M net Z :=
  if state =? TCP_STATE_SYN_SENT then tcp_syn_sent p g flags src_ip
  else if state =? TCP_STATE_LISTEN then
    if has flags TCP_FLAG_SYN then tcp_listen_syn p g src_ip
    else if has flags TCP_FLAG_ACK then tcp_listen_ack p g src_ip
    else sock_unlock p ;;; kret 0
  else if state =? TCP_STATE_FIN_WAIT_1 then tcp_fin_wait p g flags src_ip
  else if state =? TCP_STATE_ESTABLISHED then tcp_established p g flags src_ip data len
  else sock_unlock p ;;; kret 0.

Definition tcp_input (data : list Z) (len src_ip : Z) : M net Z :=
  if len <? TCP_SIZE then kret (-1) else
  g <-- tcp_load data ;;
  let flags := Z.land (ntohs (sg_off g)) 0x0FFF in
  p <-- tcp_input_lookup src_ip (sg_src g) (sg_dst g) ;;
  if p =? 0 then kret 0 else
  sock_lock p ;;;
  k <-- socket_at p ;;
  tcp_dispatch p (so_state k) g flags src_ip data len.

(** ** Received packets *)

Definition ip_input (data : list Z) (len : Z) : M net Z :=
  if len <? IP_SIZE then kret (-1) else
  v <-- ld8 data 0 ;;
  if negb (Z.land (Z.shiftr v 4) 0x0F =? 4) then kret (-2) else
  let ihl := u8 (Z.land v 0x0F * 4) in
  if (ihl <? IP_SIZE) || (len <? ihl) then kret (-3) else
  h <-- bytes_out data 0 ihl ;;
  if negb (ip_calculate_checksum h =? 0) then kret (-4) else
  t <-- ld16 data 2 ;;
  let total := ntohs t in
  if (len <? total) || (total <? ihl) then kret (-5) else
  dst <-- ld32 data 16 ;;
  src <-- ld32 data 12 ;;
  proto <-- ld8 data 9 ;;
  my_ip <-- net_get_interface_ip 0 ;;
  if negb (dst =? my_ip) && negb (dst =? 0xFFFFFFFF) && negb (my_ip =? 0) then kret 0 else
  let n := u32 (total - ihl) in
  payload <-- bytes_out data ihl n ;;
  if proto =? IPPROTO_UDP then udp_input payload n src
  else if proto =? IPPROTO_TCP then tcp_input payload n src
  else if proto =? IPPROTO_ICMP then icmp_input driver junk payload n src
  else kret (-6).

(** One frame of the receive queue ([network_rx_thread]), without the copy for
    packet sockets. *)
Definition receive_frame (frame : list Z) (len : Z) : M net unit :=
  t <-- ld16 frame 12 ;;
  let data := drop (Z.to_nat ETH_SIZE) frame in
  let n := u32 (len - ETH_SIZE) in
  if ntohs t =? ETH_P_IP then _ <-- ip_input data n ;; kret tt
  else if ntohs t =? ETH_P_ARP then _ <-- arp_input driver junk data n ;; kret tt
  else kret tt.

(** ** Internet sockets *)

Definition af_inet_bind (p : Z) (addr : list Z) : M net Z :=
  if (p =? 0) || (zlen addr <? SIN_SIZE) then kret (-1) else
  fam <-- ld16 addr 0 ;;
  if negb (fam =? AF_INET) then kret (-2) else
  a <-- bytes_out addr 0 SIN_SIZE ;;
  res <-- socket_bind_address p a ;;
  kret (if res <? 0 then res else 0).

(** The wait of [af_inet_connect]: [None] when the caller must sleep. *)
Definition connect_turn (p : Z) : M net (option Z) :=
  k <-- socket_at p ;;
  if so_state k =? 4 then kret None else
  if negb (so_state k =? 1) then sock_unlock p ;;; kret (Some (-3)) else
  sock_unlock p ;;; kret (Some 0).

Definition af_inet_connect (p : Z) (addr : list Z) : M net (option Z) :=
  if (p =? 0) || (zlen addr <? SIN_SIZE) then kret (Some (-1)) else
  fam <-- ld16 addr 0 ;;
  if negb (fam =? AF_INET) then kret (Some (-2)) else
  dest <-- bytes_out addr 0 SIN_SIZE ;;
  sock_lock p ;;;
  k <-- socket_at p ;;
  buf <-- addr_in (remote_addr k) dest ;;
  put_socket p (set_remote buf SIN_SIZE k) ;;;
  sock_unlock p ;;;
  if so_type k =? SOCK_STREAM then
    res <-- tcp_connect_handshake p dest ;;
    if (res =? 0) || (res =? -11) then sock_lock p ;;; connect_turn p else kret (Some res)
  else if so_type k =? SOCK_DGRAM then
    sock_lock p ;;; on_socket p (set_so_state 1) ;;; sock_unlock p ;;; kret (Some 0)
  else kret (Some (-3)).

Definition af_inet_listen (p : Z) : M net Z :=
  if p =? 0 then kret (-1) else
  k <-- socket_at p ;;
  if negb (so_type k =? SOCK_STREAM) then kret (-2) else
  sock_lock p ;;; on_socket p (set_so_state TCP_STATE_LISTEN) ;;; sock_unlock p ;;; kret 0.

(** The first established session of the queue, taken out of it. *)
Fixpoint take_session (fuel : nat) (p prev curr : Z) : M net Z :=
  if curr =? 0 then kret 0 else
  match fuel with
  | O => kstop NoFuel
  | Datatypes.S fuel' =>
      k <-- socket_at curr ;;
      if so_state k =? TCP_STATE_ESTABLISHED then
        (if prev =? 0 then on_socket p (set_listen_queue (so_next k)) else on_socket prev (set_so_next (so_next k))) ;;;
        on_socket curr (set_so_next 0) ;;; kret curr
      else take_session fuel' p curr (so_next k)
  end.

(** A pass of the loop of [af_inet_accept], with the lock held: [None] when
    the caller must sleep. *)
Definition accept_turn (p : Z) : M net (option Z) :=
  k <-- socket_at p ;;
  n <-- socket_count ;;
  q <-- take_session n p 0 (listen_queue k) ;;
  if q =? 0 then kret None else sock_unlock p ;;; kret (Some q).

Definition af_inet_accept (p : Z) : M net (option Z) :=
  if p =? 0 then kret (Some 0) else
  sock_lock p ;;;
  k <-- socket_at p ;;
  if negb (so_state k =? TCP_STATE_LISTEN) then sock_unlock p ;;; kret (Some 0) else
  accept_turn p.

Definition af_inet_sendto (p : Z) (buf : list Z) (dest : option (list Z)) : M net Z :=
  if (p =? 0) || (zlen buf =? 0) then kret (-1) else
  k <-- socket_at p ;;
  if so_type k =? SOCK_STREAM then tcp_send_stream p buf
  else if so_type k =? SOCK_DGRAM then
    d <-- (match dest with
           | Some d => kret (Some d)
           | None =>
               sock_lock p ;;;
               let r := if (so_state k =? 1) && (SIN_SIZE <=? remote_addr_len k) then Some (remote_addr k) else None in
               sock_unlock p ;;; kret r
           end) ;;
    match d with Some d => udp_send_datagram p buf d | None => kret (-2) end
  else kret (-3).

(** What [af_inet_recvfrom] returns: the bytes and the address of the source. *)
Definition received : Type := Z * list Z * option (list Z).

(** With the lock held: [None] when the caller must sleep. *)
Definition recv_dgram (p len : Z) : M net (option received) :=
  k <-- socket_at p ;;
  buf <-- kopt NullDeref (rx_buffer k) ;;
  if rx_head k =? rx_tail k then kret None else
  a <-- ring_take 4 buf (rx_tail k) ;;
  n <-- ld32 a.1 0 ;;
  b <-- ring_take (Z.to_nat SIN_SIZE) buf a.2 ;;
  let limit := if n <? len then n else u32 len in
  d <-- ring_take (Z.to_nat limit) buf b.2 ;;
  let tail := if limit <? n then u32 (d.2 + u32 (n - limit)) mod SOCKET_BUFFER_SIZE else d.2 in
  on_socket p (set_rx (Some buf) (rx_head k) tail) ;;;
  sock_unlock p ;;;
  kret (Some (limit, d.1, Some b.1)).

(** Bytes are read until the buffer is empty or [n] are there. *)
Fixpoint ring_drain (n : nat) (buf : list Z) (head tail : Z) : M net (list Z * Z) :=
  match n with
  | O => kret ([], tail)
  | Datatypes.S n' =>
      if head =? tail then kret ([], tail) else
      b <-- rd buf tail ;;
      r <-- ring_drain n' buf head ((tail + 1) mod SOCKET_BUFFER_SIZE) ;;
      kret (b :: r.1, r.2)
  end.

Definition recv_stream (p len : Z) : M net (option received) :=
  k <-- socket_at p ;;
  buf <-- kopt NullDeref (rx_buffer k) ;;
  if (rx_head k =? rx_tail k) && (so_state k =? TCP_STATE_ESTABLISHED) then kret None else
  if rx_head k =? rx_tail k then sock_unlock p ;;; kret (Some (0, [], None)) else
  d <-- ring_drain (Z.to_nat len) buf (rx_head k) (rx_tail k) ;;
  on_socket p (set_rx (Some buf) (rx_head k) d.2) ;;;
  a <-- bytes_out (remote_addr k) 0 SIN_SIZE ;;
  sock_unlock p ;;;
  kret (Some (zlen d.1, d.1, if 0 <? zlen d.1 then Some a else None)).

Definition recv_turn (p len : Z) : M net (option received) :=
  k <-- socket_at p ;;
  if so_type k =? SOCK_DGRAM then recv_dgram p len
  else if so_type k =? SOCK_STREAM then recv_stream p len
  else sock_unlock p ;;; kret (Some (0, [], None)).

Definition af_inet_recvfrom (p len : Z) : M net (option received) :=
  if (p =? 0) || (len =? 0) then kret (Some (-1, [], None)) else
  k <-- socket_at p ;;
  match rx_buffer k with
  | None => kret (Some (-1, [], None))
  | Some _ => sock_lock p ;;; recv_turn p len
  end.

(** Pending connections of a listening socket are closed. *)
Fixpoint close_pending (fuel : nat) (curr : Z) : M net unit :=
  if curr =? 0 then kret tt else
  match fuel with
  | O => kstop NoFuel
  | Datatypes.S fuel' =>
      k <-- socket_at curr ;;
      sock_lock curr ;;;
      on_socket curr (set_so_state TCP_STATE_CLOSED) ;;;
      leave_peer (peer k) ;;;
      sock_unlock curr ;;;
      close_pending fuel' (so_next k)
  end.

Definition af_inet_release (p : Z) : M net Z :=
  if p =? 0 then kret (-1) else
  k <-- socket_at p ;;
  if so_type k =? SOCK_STREAM then
    sock_lock p ;;;
    (if so_state k =? TCP_STATE_LISTEN then
       n <-- socket_count ;;
       close_pending n (listen_queue k) ;;; on_socket p (set_listen_queue 0)
     else kret tt) ;;;
    sock_unlock p ;;;
    _ <-- tcp_disconnect p ;; kret 0
  else if so_type k =? SOCK_DGRAM then
    sock_lock p ;;; on_socket p (set_so_state TCP_STATE_CLOSED) ;;; sock_unlock p ;;; kret 0
  else kret (-2).

End sockets.
