(* ===== verification/Rx.v ===== *)
(** * The receive queue and raw sockets

    The ring of frames between the card's interrupt and the receiver thread
    ([net.c]), the raw sockets that see every frame ([pf_packet.c]), and what
    the receiver does when the link goes up or down ([dhcp_init.c]).  A wake-up
    of the receiver thread is counted in [rx_kicks]. *)

From Stdlib Require Import ZArith Lia.
From stdpp Require Import base tactics list gmap.
From S2P Require Import Prelude Bytes NetBase Net Tcp.

Definition AF_PACKET : Z := 4.
Definition NET_RX_QUEUE_SIZE : Z := 64.
(** Size of [struct sockaddr_ll]. *)
Definition SLL_SIZE : Z := 20.

Inductive net_event : Type := NET_EVENT_NONE | NET_EVENT_LINK_UP | NET_EVENT_LINK_DOWN.

(** The receive side of the card, with the stack behind it. *)
Record nic : Type := Nic {
  g_net_rx_queue : list (list Z);
  g_net_rx_head : Z;
  g_net_rx_tail : Z;
  g_net_link_event : net_event;
  rx_kicks : nat;
  stack : net
}.

Definition set_queue (q : list (list Z)) (h t : Z) (s : nic) : nic := Nic q h t (g_net_link_event s) (rx_kicks s) (stack s).
Definition set_event (e : net_event) (s : nic) : nic :=
  Nic (g_net_rx_queue s) (g_net_rx_head s) (g_net_rx_tail s) e (rx_kicks s) (stack s).
Definition kick (s : nic) : nic :=
  Nic (g_net_rx_queue s) (g_net_rx_head s) (g_net_rx_tail s) (g_net_link_event s) (S (rx_kicks s)) (stack s).
Definition set_stack (n : net) (s : nic) : nic :=
  Nic (g_net_rx_queue s) (g_net_rx_head s) (g_net_rx_tail s) (g_net_link_event s) (rx_kicks s) n.

(** An operation of the stack. *)
Definition in_stack {A} (m : M net A) : M nic A := zoom stack set_stack m.

Section rx.
Context (driver : list (list Z) -> list Z -> Z) (junk stale : list Z).

(** ** Raw sockets *)

Definition pf_packet_bind (p : Z) (addr : list Z) : M net Z :=
  if (p =? 0) || (zlen addr <? SLL_SIZE) then kret (-1) else
  fam <-- ld16 addr 0 ;;
  if negb (fam =? AF_PACKET) then kret (-2) else
  a <-- bytes_out addr 0 SLL_SIZE ;;
  res <-- socket_bind_address p a ;;
  kret (if res <? 0 then res else 0).
Definition pf_packet_connect : M net Z := kret (-1).
Definition pf_packet_listen : M net Z := kret (-1).
Definition pf_packet_accept : M net Z := kret 0.

Definition pf_packet_sendto (p : Z) (buf : list Z) : M net Z :=
  if (p =? 0) || (zlen buf =? 0) then kret (-1) else
  if 1514 <? zlen buf then kret (-2) else
  res <-- net_driver_transmit driver buf ;;
  if res <? 0 then kret (-3) else kret (zlen buf).

(** The read of a frame, with the lock held: [None] when the caller must
    sleep. *)
Definition raw_turn (p len : Z) : M net (option (Z * list Z)) :=
  k <-- socket_at p ;;
  buf <-- kopt NullDeref (rx_buffer k) ;;
  if rx_head k =? rx_tail k then kret None else
  a <-- ring_take 4 buf (rx_tail k) ;;
  n <-- ld32 a.1 0 ;;
  if (n =? 0) || (SOCKET_BUFFER_SIZE <? n) then
    on_socket p (set_rx (Some buf) (rx_head k) a.2) ;;; sock_unlock p ;;; kret (Some (-2, []))
  else
    let limit := if n <? len then n else u32 len in
    d <-- ring_take (Z.to_nat limit) buf a.2 ;;
    let tail := if limit <? n then u32 (d.2 + u32 (n - limit)) mod SOCKET_BUFFER_SIZE else d.2 in
    on_socket p (set_rx (Some buf) (rx_head k) tail) ;;;
    sock_unlock p ;;;
    kret (Some (limit, d.1)).
Definition pf_packet_recvfrom (p len : Z) : M net (option (Z * list Z)) :=
  if (p =? 0) || (len =? 0) then kret (Some (-1, [])) else
  k <-- socket_at p ;;
  match rx_buffer k with
  | None => kret (Some (-1, []))
  | Some _ => sock_lock p ;;; raw_turn p len
  end.

(** A frame for one raw socket: stored with its length if it fits. *)
Definition packet_store (p : Z) (frame : list Z) : M net unit :=
  k <-- socket_at p ;;
  match rx_buffer k with
  | Some buf =>
      if family k =? AF_PACKET then
        sock_lock p ;;;
        let required := u32 (4 + zlen frame) in
        let free := u32 (rx_tail k - rx_head k - 1 + SOCKET_BUFFER_SIZE) mod SOCKET_BUFFER_SIZE in
        (if required <=? free then
           r <-- ring_put (le32 (zlen frame) ++ frame) buf (rx_head k) ;;
           on_socket p (set_rx (Some r.1) r.2 (rx_tail k)) ;;;
           wakeup_sock p
         else kret tt) ;;;
        sock_unlock p
      else kret tt
  | None => kret tt
  end.

(** The walk over the sockets, along [next]. *)
Fixpoint packet_walk (fuel : nat) (p : Z) (frame : list Z) : M net unit :=
  if p =? 0 then kret tt else
  match fuel with
  | O => kstop NoFuel
  | S fuel' => packet_store p frame ;;; k <-- socket_at p ;; packet_walk fuel' (so_next k) frame
  end.
Definition packet_input (head : Z) (frame : list Z) : M net unit :=
  if (head =? 0) || (zlen frame =? 0) || (1514 <? zlen frame) then kret tt else
  n <-- socket_count ;; packet_walk n head frame.

(** ** DHCP when the link changes *)

Definition net_init_dhcp_client : M net Z :=
  p <-- socket_create AF_INET SOCK_DGRAM ;;
  if p =? 0 then kret (-1) else
  res <-- af_inet_bind p (sockaddr_in (htons 68) 0) ;;
  if negb (res =? 0) then kret (-2) else
  res <-- dhcp_send_discover driver junk p ;;
  if negb (res =? 0) then kret (-4) else kret 0.

Definition net_clear_dhcp_leases : M net unit :=
  _ <-- net_set_interface_ip 0 ;;
  _ <-- net_set_interface_mask 0 ;;
  _ <-- net_set_interface_gateway 0 ;;
  _ <-- net_get_interface_init false ;;
  p <-- socket_find_by_port (htons 68) SOCK_DGRAM ;;
  if p =? 0 then kret tt else _ <-- socket_close p ;; kret tt.

(** ** The queue *)

Definition net_driver_receive (buffer : list Z) : M nic Z :=
  if (zlen buffer =? 0) || (1514 <? zlen buffer) then kret (-1) else
  s <-- kget ;;
  let next_head := u32 (g_net_rx_head s + 1) mod NET_RX_QUEUE_SIZE in
  if next_head =? g_net_rx_tail s then kret (-2) else
  b <-- in_stack (n_kmalloc (zlen buffer)) ;;
  if b =? 0 then kret (-3) else
  q <-- upd (g_net_rx_queue s) (g_net_rx_head s) buffer ;;
  kmodify (set_queue q next_head (g_net_rx_tail s)) ;;;
  kmodify kick ;;;
  kret 0.

Definition net_set_link_event (e : net_event) : M nic unit := kmodify (set_event e) ;;; kmodify kick.
Definition net_consume_link_event : M nic net_event :=
  e <-- kgets g_net_link_event ;;
  match e with
  | NET_EVENT_NONE => kret NET_EVENT_NONE
  | _ => kmodify (set_event NET_EVENT_NONE) ;;; kret e
  end.

(** The oldest frame, if there is one. *)
Definition rx_take : M nic (option (list Z)) :=
  s <-- kget ;;
  if g_net_rx_head s =? g_net_rx_tail s then kret None else
  f <-- rd (g_net_rx_queue s) (g_net_rx_tail s) ;;
  kmodify (set_queue (g_net_rx_queue s) (g_net_rx_head s) (u32 (g_net_rx_tail s + 1) mod NET_RX_QUEUE_SIZE)) ;;;
  kret (Some f).

(** One pass of [network_rx_thread]. *)
Definition rx_turn : M nic unit :=
  e <-- net_consume_link_event ;;
  (match e with
   | NET_EVENT_LINK_UP => _ <-- in_stack net_init_dhcp_client ;; kret tt
   | NET_EVENT_LINK_DOWN => in_stack net_clear_dhcp_leases
   | NET_EVENT_NONE => kret tt
   end) ;;;
  f <-- rx_take ;;
  match f with
  | None => kret tt
  | Some frame =>
      head <-- kgets (fun s => g_bound_sockets_head (stack s)) ;;
      in_stack (packet_input head frame) ;;;
      in_stack (receive_frame driver junk stale frame (zlen frame)) ;;;
      in_stack n_kfree
  end.

End rx.

(** ** The queue as a queue *)

(** The frames between the indices, oldest first. *)
Definition queued (s : nic) : Z := (g_net_rx_head s - g_net_rx_tail s) mod NET_RX_QUEUE_SIZE.
Definition rx_frames (s : nic) : list (list Z) :=
  (fun i => default [] (g_net_rx_queue s !! Z.to_nat ((g_net_rx_tail s + i) mod NET_RX_QUEUE_SIZE))) <$> seqZ 0 (queued s).

Record nic_ok (s : nic) : Prop := {
  nk_len : zlen (g_net_rx_queue s) = NET_RX_QUEUE_SIZE;
  nk_head : 0 <= g_net_rx_head s < NET_RX_QUEUE_SIZE;
  nk_tail : 0 <= g_net_rx_tail s < NET_RX_QUEUE_SIZE
}.

Lemma rx_frames_lookup s i :
  rx_frames s !! i = if decide (Z.of_nat i < queued s)
    then Some (default [] (g_net_rx_queue s !! Z.to_nat ((g_net_rx_tail s + Z.of_nat i) mod NET_RX_QUEUE_SIZE))) else None.
Proof.
  unfold rx_frames. rewrite list_lookup_fmap. case_decide.
  - by rewrite lookup_seqZ_lt by lia.
  - by rewrite lookup_seqZ_ge by lia.
Qed.

Lemma rx_frames_length s : zlen (rx_frames s) = queued s.
Proof.
  unfold rx_frames, zlen. rewrite length_fmap, length_seqZ.
  pose proof (Z.mod_pos_bound (g_net_rx_head s - g_net_rx_tail s) NET_RX_QUEUE_SIZE ltac:(done)). unfold queued. lia.
Qed.

Lemma rx_push s frame :
  nic_ok s -> queued s < NET_RX_QUEUE_SIZE - 1 ->
  let s' := set_queue (<[Z.to_nat (g_net_rx_head s) := frame]> (g_net_rx_queue s))
              ((g_net_rx_head s + 1) mod NET_RX_QUEUE_SIZE) (g_net_rx_tail s) s in
  nic_ok s' /\ rx_frames s' = rx_frames s ++ [frame].
Proof.
  intros [Hl Hh Ht] Hu s'. assert (Eu : queued s' = queued s + 1).
  { unfold queued in *. cbn [g_net_rx_head g_net_rx_tail s' set_queue]. unfold NET_RX_QUEUE_SIZE in *. zdiv_lia. }
  assert (H0 : 0 <= queued s) by (apply Z.mod_pos_bound; done).
  assert (Hpos : (g_net_rx_tail s + queued s) mod NET_RX_QUEUE_SIZE = g_net_rx_head s).
  { unfold queued, NET_RX_QUEUE_SIZE in *. zdiv_lia. }
  split.
  - split; cbn; [by rewrite zlen_insert|apply Z.mod_pos_bound; done|done].
  - apply list_eq. intros i. rewrite rx_frames_lookup, Eu. cbn [g_net_rx_queue g_net_rx_tail s' set_queue].
    pose proof (rx_frames_length s) as Hn. unfold zlen in Hl, Hn. destruct (decide (Z.of_nat i < queued s)).
    + rewrite decide_True by lia. rewrite lookup_app_l, rx_frames_lookup, decide_True by lia.
      rewrite list_lookup_insert_ne; [done|]. rewrite <- Hpos. unfold NET_RX_QUEUE_SIZE in *. zdiv_lia.
    + rewrite lookup_app_r by lia. destruct (decide (Z.of_nat i = queued s)) as [E|].
      * rewrite decide_True by lia. rewrite E, Hpos, list_lookup_insert_eq by lia.
        by replace (i - length (rx_frames s))%nat with 0%nat by lia.
      * rewrite decide_False by lia. symmetry. apply lookup_ge_None_2. cbn. lia.
Qed.

Lemma rx_pop s :
  nic_ok s -> 0 < queued s -> exists f,
  g_net_rx_queue s !! Z.to_nat (g_net_rx_tail s) = Some f /\
  let s' := set_queue (g_net_rx_queue s) (g_net_rx_head s) ((g_net_rx_tail s + 1) mod NET_RX_QUEUE_SIZE) s in
  nic_ok s' /\ rx_frames s = f :: rx_frames s'.
Proof.
  intros [Hl Hh Ht] Hu. destruct (zlen_lookup (g_net_rx_queue s) (g_net_rx_tail s)) as [f Hf]; [lia|]. exists f. split; [done|].
  intros s'. assert (Eu : queued s' = queued s - 1).
  { unfold queued in *. cbn [g_net_rx_head g_net_rx_tail s' set_queue]. unfold NET_RX_QUEUE_SIZE in *. zdiv_lia. }
  split.
  - split; cbn; [done|done|apply Z.mod_pos_bound; done].
  - apply list_eq. intros [|i]; rewrite rx_frames_lookup; cbn [lookup list_lookup].
    + rewrite decide_True by lia. rewrite Z.add_0_r, Z.mod_small by done. by rewrite Hf.
    + rewrite rx_frames_lookup, Eu. cbn [g_net_rx_queue g_net_rx_tail s' set_queue].
      destruct (decide (Z.of_nat (S i) < queued s)); [rewrite decide_True by lia|by rewrite decide_False by lia].
      do 4 f_equal. rewrite Z.add_mod_idemp_l by done. f_equal. lia.
Qed.

Lemma rx_full s : nic_ok s ->
  ((g_net_rx_head s + 1) mod NET_RX_QUEUE_SIZE =? g_net_rx_tail s) = bool_decide (queued s = NET_RX_QUEUE_SIZE - 1).
Proof.
  intros [_ Hh Ht]. unfold queued, NET_RX_QUEUE_SIZE in *. case_bool_decide.
  - apply Z.eqb_eq. zdiv_lia.
  - apply Z.eqb_neq. zdiv_lia.
Qed.

(** [net_driver_receive] and the receiver thread share a queue of at most 63
    frames: a frame of legal size joins its end and the receiver is woken; a
    full queue refuses it with -2 and stays as it is; the receiver takes the
    frames out in the order in which they came. *)
Theorem rx_queue_fifo s frame :
  nic_ok s -> 0 < zlen frame <= 1514 -> (0 < n_mem (stack s))%nat -> 0 < n_brk (stack s) ->
  wp (net_driver_receive frame) (fun r s' => nic_ok s' /\
    if decide (zlen (rx_frames s) = NET_RX_QUEUE_SIZE - 1) then r = -2 /\ s' = s
    else r = 0 /\ rx_frames s' = rx_frames s ++ [frame] /\ rx_kicks s' = S (rx_kicks s)) s /\
  wp rx_take (fun r s' => nic_ok s' /\ stack s' = stack s /\
    match rx_frames s with
    | [] => r = None /\ s' = s
    | f :: fs => r = Some f /\ rx_frames s' = fs
    end) s.
Proof.
  intros Hok Hl Hm Hb. pose proof Hok as [Hlen Hh Ht]. pose proof (rx_frames_length s) as Hn.
  assert (Hrange : 0 <= queued s < NET_RX_QUEUE_SIZE) by (apply Z.mod_pos_bound; done). split.
  - unfold net_driver_receive. rewrite (proj2 (Z.eqb_neq _ _)), (proj2 (Z.ltb_ge _ _)) by lia. cbn [orb]. wp_steps.
    rewrite u32_small by (unfold NET_RX_QUEUE_SIZE in *; lia). rewrite rx_full by done.
    case_bool_decide as E; [wp_steps; by rewrite Hn, decide_True by done|].
    unfold in_stack, n_kmalloc. wp_steps. destruct (n_mem (stack s)) as [|m]; [lia|]. wp_steps.
    rewrite (proj2 (Z.eqb_neq _ _)) by lia. wp_steps. apply wp_upd; [lia|]. wp_steps.
    destruct (rx_push s frame Hok) as [H1 H2]; [lia|]. rewrite Hn, decide_False by done.
    split; [|split; [done|split; [exact H2|done]]].
    destruct H1 as [A B C]. split; [exact A|exact B|exact C].
  - unfold rx_take. wp_steps. destruct (Z.eqb_spec (g_net_rx_head s) (g_net_rx_tail s)) as [E|E].
    + wp_steps. split_and!; [done|done|]. destruct (rx_frames s) as [|f fs]; [done|]. unfold queued in Hn.
      rewrite E, Z.sub_diag in Hn. unfold zlen in Hn. change (0 mod NET_RX_QUEUE_SIZE) with 0 in Hn. cbn [length] in Hn. lia.
    + assert (Hu : 0 < queued s) by (unfold queued, NET_RX_QUEUE_SIZE in *; zdiv_lia).
      destruct (rx_pop s Hok Hu) as (f & Hf & Hok' & ->). wp_steps. eapply wp_rd; [lia|done|]. wp_steps.
      rewrite u32_small by (unfold NET_RX_QUEUE_SIZE in *; lia). done.
Qed.
