(* ===== verification/Local.v ===== *)
(** * Local sockets

    [af_local.c]: stream sockets between processes of the machine.  The lists
    and the store of sockets are those of the network stack.  An operation
    that has to sleep gives its lock back, as [wait] does, and ends with
    [None]; its [_turn] is the pass of the loop around [wait] that runs after
    every wake-up. *)

From Stdlib Require Import ZArith Lia.
From stdpp Require Import base tactics list gmap.
From S2P Require Import Prelude Bytes NetBase Net Tcp.

Definition AF_LOCAL : Z := 1.
Definition UNIX_PATH_MAX : Z := 108.
(** Size of [struct sockaddr_un]. *)
Definition SUN_SIZE : Z := 110.
Definition SOCKET_CREATED : Z := 0.
Definition SOCKET_CONNECTED : Z := 1.
Definition SOCKET_LISTENING : Z := 2.
Definition SOCKET_CONNECTING : Z := 3.
Definition SOCKET_CLOSING : Z := 4.

(** Both locks, the one at the lower address first. *)
Definition af_local_lock_pair (a b : Z) : M net unit :=
  if a =? b then sock_lock a
  else if a <? b then sock_lock a ;;; sock_lock b
  else sock_lock b ;;; sock_lock a.
Definition af_local_unlock_pair (a b : Z) : M net unit :=
  if a =? b then sock_unlock a
  else if a <? b then sock_unlock b ;;; sock_unlock a
  else sock_unlock a ;;; sock_unlock b.

Definition af_local_is_active (k : socket) : bool :=
  negb (so_state k =? SOCKET_CREATED) && negb (so_state k =? SOCKET_CLOSING).

(** The length of the path: the bytes before the first 0, at most 108. *)
Definition path_length (addr : list Z) : M net Z :=
  r <-- loop (Z.to_nat UNIX_PATH_MAX) 0
    (fun i _ => c <-- ld8 addr (2 + i) ;; kret (if c =? 0 then inr i else inl tt)) tt ;;
  kret (match r with inr i => i | inl _ => UNIX_PATH_MAX end).

Definition af_local_bind (p : Z) (addr : list Z) : M net Z :=
  if p =? 0 then kret (-1) else
  k <-- socket_at p ;;
  if negb (family k =? AF_LOCAL) then kret (-1) else
  if (zlen addr <? SUN_SIZE) || (256 <? zlen addr) then kret (-1) else
  fam <-- ld16 addr 0 ;;
  if negb (fam =? AF_LOCAL) then kret (-1) else
  path_len <-- path_length addr ;;
  if (path_len =? 0) || (path_len =? UNIX_PATH_MAX) then kret (-1) else
  sock_lock p ;;;
  if (so_state k =? SOCKET_CLOSING) || (so_state k =? SOCKET_CONNECTED) ||
     (so_state k =? SOCKET_CONNECTING) || (so_state k =? SOCKET_LISTENING) then
    sock_unlock p ;;; kret (-1)
  else
    sock_unlock p ;;;
    a <-- bytes_out addr 0 SUN_SIZE ;;
    socket_bind_address p a.

(** The wait for the server's answer. *)
Definition connect_wait (p : Z) : M net (option Z) :=
  sock_lock p ;;;
  k <-- socket_at p ;;
  sock_unlock p ;;;
  kret (if so_state k =? SOCKET_CONNECTING then None
        else Some (if so_state k =? SOCKET_CONNECTED then 0 else -1)).

Definition af_local_connect (p : Z) (addr : list Z) : M net (option Z) :=
  if (p =? 0) || (zlen addr =? 0) then kret (Some (-1)) else
  server <-- socket_find_by_address addr AF_LOCAL ;;
  if (server =? 0) || (server =? p) then kret (Some (-1)) else
  af_local_lock_pair p server ;;;
  k <-- socket_at p ;;
  ks <-- socket_at server ;;
  if (so_state k =? SOCKET_CLOSING) || (so_state k =? SOCKET_CONNECTING) ||
     (so_state k =? SOCKET_CONNECTED) || negb (so_state ks =? SOCKET_LISTENING) then
    af_local_unlock_pair p server ;;; kret (Some (-1))
  else if so_state ks =? SOCKET_CLOSING then
    af_local_unlock_pair p server ;;; kret (Some (-1))
  else
    on_socket p (set_so_state SOCKET_CONNECTING) ;;;
    on_socket p (set_so_next (listen_queue ks)) ;;;
    on_socket server (set_listen_queue p) ;;;
    af_local_unlock_pair p server ;;;
    wakeup_sock server ;;;
    connect_wait p.

(** The client taken from the queue becomes the peer of a new socket. *)
Definition open_session (client ty : Z) : M net Z :=
  session <-- socket_create AF_LOCAL ty ;;
  if session =? 0 then
    sock_lock client ;;;
    kc <-- socket_at client ;;
    (if so_state kc =? SOCKET_CONNECTING then
       on_socket client (set_so_state SOCKET_CREATED) ;;;
       on_socket client (set_so_next 0) ;;;
       wakeup_sock client
     else kret tt) ;;;
    sock_unlock client ;;; kret 0
  else
    af_local_lock_pair session client ;;;
    kc <-- socket_at client ;;
    ks <-- socket_at session ;;
    if negb (so_state kc =? SOCKET_CONNECTING) || (so_state ks =? SOCKET_CLOSING) then
      af_local_unlock_pair session client ;;;
      _ <-- socket_close session ;; kret 0
    else
      on_socket session (set_peer client) ;;;
      on_socket client (set_peer session) ;;;
      on_socket session (set_so_state SOCKET_CONNECTED) ;;;
      on_socket client (set_so_state SOCKET_CONNECTED) ;;;
      wakeup_sock client ;;;
      af_local_unlock_pair session client ;;;
      kret session.

Definition af_local_accept (p : Z) : M net (option Z) :=
  if p =? 0 then kret (Some 0) else
  sock_lock p ;;;
  k <-- socket_at p ;;
  if (listen_queue k =? 0) && (so_state k =? SOCKET_LISTENING) then sock_unlock p ;;; kret None else
  if negb (so_state k =? SOCKET_LISTENING) then sock_unlock p ;;; kret (Some 0) else
  let client := listen_queue k in
  kc <-- socket_at client ;;
  on_socket p (set_listen_queue (so_next kc)) ;;;
  on_socket client (set_so_next 0) ;;;
  sock_unlock p ;;;
  r <-- open_session client (so_type k) ;;
  kret (Some r).

Definition af_local_listen (p : Z) : M net Z :=
  if p =? 0 then kret (-1) else
  sock_lock p ;;;
  k <-- socket_at p ;;
  if (so_state k =? SOCKET_CLOSING) || (so_state k =? SOCKET_CONNECTED) || (so_state k =? SOCKET_CONNECTING) then
    sock_unlock p ;;; kret (-1)
  else on_socket p (set_so_state SOCKET_LISTENING) ;;; sock_unlock p ;;; kret 0.

(** Bytes are stored until the buffer is full. *)
Fixpoint ring_fill (bs buf : list Z) (head tail n : Z) : M net (list Z * Z * Z) :=
  match bs with
  | [] => kret (buf, head, n)
  | b :: bs' =>
      let next_head := u32 (head + 1) mod SOCKET_BUFFER_SIZE in
      if next_head =? tail then kret (buf, head, n) else
      buf' <-- upd buf head b ;;
      ring_fill bs' buf' next_head tail (n + 1)
  end.

(** The bytes go to the peer, or to the socket with the given address. *)
Definition local_dest (p : Z) (dest : list Z) : M net Z :=
  sock_lock p ;;;
  k <-- socket_at p ;;
  sock_unlock p ;;;
  if (so_state k =? SOCKET_CONNECTED) && negb (peer k =? 0) then kret (peer k)
  else if zlen dest =? 0 then kret 0
  else socket_find_by_address dest AF_LOCAL.

Definition af_local_sendto (p : Z) (buf dest : list Z) : M net Z :=
  if (p =? 0) || (zlen buf =? 0) then kret (-1) else
  q <-- local_dest p dest ;;
  if (q =? 0) || (q =? p) then kret (-1) else
  sock_lock q ;;;
  kq <-- socket_at q ;;
  match rx_buffer kq with
  | Some ring =>
      if negb (af_local_is_active kq) then sock_unlock q ;;; kret (-1) else
      r <-- ring_fill buf ring (rx_head kq) (rx_tail kq) 0 ;;
      on_socket q (set_rx (Some r.1.1) r.1.2 (rx_tail kq)) ;;;
      (if 0 <? r.2 then wakeup_sock q else kret tt) ;;;
      sock_unlock q ;;; kret r.2
  | None => sock_unlock q ;;; kret (-1)
  end.

(** What a receiver gets: the bytes, and the address of the peer with its
    length, when room for [addrlen] bytes of it is given. *)
Definition local_received : Type := Z * list Z * option (list Z * Z).

Definition peer_address (q addrlen : Z) : M net (list Z * Z) :=
  sock_lock q ;;;
  kq <-- socket_at q ;;
  let copy_len := if local_addr_len kq <? addrlen then local_addr_len kq else addrlen in
  a <-- bytes_out (local_addr kq) 0 copy_len ;;
  sock_unlock q ;;;
  kret (a, local_addr_len kq).

Definition af_local_recvfrom (p len addrlen : Z) : M net (option local_received) :=
  if (p =? 0) || (len =? 0) then kret (Some (-1, [], None)) else
  sock_lock p ;;;
  k <-- socket_at p ;;
  match rx_buffer k with
  | None => sock_unlock p ;;; kret (Some (-1, [], None))
  | Some ring =>
      if (rx_head k =? rx_tail k) && (so_state k =? SOCKET_CONNECTED) then sock_unlock p ;;; kret None else
      if rx_head k =? rx_tail k then sock_unlock p ;;; kret (Some (0, [], None)) else
      d <-- ring_drain (Z.to_nat len) ring (rx_head k) (rx_tail k) ;;
      on_socket p (set_rx (Some ring) (rx_head k) d.2) ;;;
      sock_unlock p ;;;
      (if (0 <? zlen d.1) && (0 <? addrlen) && negb (peer k =? 0) then
         a <-- peer_address (peer k) addrlen ;; kret (Some (zlen d.1, d.1, Some a))
       else kret (Some (zlen d.1, d.1, None)))
  end.

(** The clients that wait in the queue are sent away. *)
Fixpoint refuse_pending (fuel : nat) (pending : Z) : M net unit :=
  if pending =? 0 then kret tt else
  match fuel with
  | O => kstop NoFuel
  | S fuel' =>
      k <-- socket_at pending ;;
      sock_lock pending ;;;
      on_socket pending (set_so_next 0) ;;;
      (if so_state k =? SOCKET_CONNECTING then on_socket pending (set_so_state SOCKET_CREATED) else kret tt) ;;;
      wakeup_sock pending ;;;
      sock_unlock pending ;;;
      refuse_pending fuel' (so_next k)
  end.

(** The peer [q] of [p] is told that [p] is gone. *)
Definition release_peer (p q : Z) : M net unit :=
  if q =? 0 then kret tt else
  sock_lock q ;;;
  kq <-- socket_at q ;;
  (if peer kq =? p then
     on_socket q (set_peer 0) ;;;
     (if (so_state kq =? SOCKET_CONNECTED) || (so_state kq =? SOCKET_CONNECTING)
      then on_socket q (set_so_state SOCKET_CREATED) else kret tt) ;;;
     wakeup_sock q
   else kret tt) ;;;
  sock_unlock q.

Definition af_local_release (p : Z) : M net Z :=
  if p =? 0 then kret (-1) else
  sock_lock p ;;;
  k <-- socket_at p ;;
  if so_state k =? SOCKET_CLOSING then sock_unlock p ;;; kret 0 else
  on_socket p (set_so_state SOCKET_CLOSING) ;;;
  on_socket p (set_listen_queue 0) ;;;
  on_socket p (set_peer 0) ;;;
  sock_unlock p ;;;
  wakeup_sock p ;;;
  n <-- socket_count ;;
  refuse_pending n (listen_queue k) ;;;
  release_peer p (peer k) ;;;
  kret 0.
