(* ===== verification/SockSys.v ===== *)
(** * Sockets as descriptors

    The dispatch to the protocol of a socket, the operations of a socket as a
    file of the VFS, and the system calls on the descriptors of one process
    ([socket.c]).  [proto_ops] is chosen by the family when the socket is
    created and never changes, so the dispatch is on the family. *)

From Stdlib Require Import ZArith Lia.
From stdpp Require Import base tactics list gmap.
From S2P Require Import Prelude Bytes NetBase Net Tcp Rx Local.

Definition MAX_FILES_PER_PROCESS : Z := 32.
Definition VFS_CHAR_DEV : Z := 4.
Definition VFS_MODE_READ : Z := 0.
Definition VFS_MODE_WRITE : Z := 1.
(** [sizeof] of the two structures behind a descriptor. *)
Definition VFS_NODE_T_SIZE : Z := 336.
Definition VFS_FILE_T_SIZE : Z := 32.

(** A descriptor: the open file, with the flags of its node and the socket that
    is the node's [private_data]. *)
Record sfile : Type := SFile { sf_sock : Z; sf_flags : Z; sf_node_flags : Z }.

Record sys : Type := Sys { file_descriptor_table : list (option sfile); sockets : net }.

Definition set_files (t : list (option sfile)) (s : sys) : sys := Sys t (sockets s).
Definition set_sockets (n : net) (s : sys) : sys := Sys (file_descriptor_table s) n.
Definition in_net {A} (m : M net A) : M sys A := zoom sockets set_sockets m.

Section descriptors.
Context (driver : list (list Z) -> list Z -> Z) (junk : list Z).

(** ** Dispatch *)

Definition proto_bind (p : Z) (addr : list Z) : M net Z :=
  k <-- socket_at p ;;
  if family k =? AF_LOCAL then af_local_bind p addr
  else if family k =? AF_INET then af_inet_bind p addr
  else if family k =? AF_PACKET then pf_packet_bind p addr
  else kret (-1).

Definition proto_listen (p : Z) : M net Z :=
  k <-- socket_at p ;;
  if family k =? AF_LOCAL then af_local_listen p
  else if family k =? AF_INET then af_inet_listen p
  else if family k =? AF_PACKET then pf_packet_listen
  else kret (-1).

(** A socket, 0 for none; [None] when the caller sleeps. *)
Definition proto_accept (p : Z) : M net (option Z) :=
  k <-- socket_at p ;;
  if family k =? AF_LOCAL then af_local_accept p
  else if family k =? AF_INET then af_inet_accept p
  else if family k =? AF_PACKET then q <-- pf_packet_accept ;; kret (Some q)
  else kret (Some 0).

Definition proto_connect (p : Z) (addr : list Z) : M net (option Z) :=
  k <-- socket_at p ;;
  if family k =? AF_LOCAL then af_local_connect p addr
  else if family k =? AF_INET then af_inet_connect driver junk p addr
  else if family k =? AF_PACKET then r <-- pf_packet_connect ;; kret (Some r)
  else kret (Some (-1)).

(** [dest] is empty when no address is given. *)
Definition proto_sendto (p : Z) (buf dest : list Z) : M net Z :=
  k <-- socket_at p ;;
  if family k =? AF_LOCAL then af_local_sendto p buf dest
  else if family k =? AF_INET then af_inet_sendto driver junk p buf (if zlen dest =? 0 then None else Some dest)
  else if family k =? AF_PACKET then pf_packet_sendto driver p buf
  else kret (-1).

(** The result, the bytes, and the source address with its length for a caller
    with room for [addrlen] bytes of it. *)
Definition taken : Type := Z * list Z * option (list Z * Z).

Definition inet_source (addrlen : Z) (r : received) : taken :=
  let '(n, bs, a) := r in
  (n, bs, match a with Some a => if SIN_SIZE <=? addrlen then Some (a, SIN_SIZE) else None | None => None end).
Definition packet_source (addrlen : Z) (r : Z * list Z) : taken :=
  (r.1, r.2, if (0 <? r.1) && (SLL_SIZE <=? addrlen) then Some (le16 AF_PACKET ++ replicate 18 0, SLL_SIZE) else None).

Definition proto_recvfrom (p len addrlen : Z) : M net (option taken) :=
  k <-- socket_at p ;;
  if family k =? AF_LOCAL then af_local_recvfrom p len addrlen
  else if family k =? AF_INET then r <-- af_inet_recvfrom p len ;; kret (inet_source addrlen <$> r)
  else if family k =? AF_PACKET then r <-- pf_packet_recvfrom p len ;; kret (packet_source addrlen <$> r)
  else kret (Some (-1, [], None)).

(** Raw sockets have no [release]. *)
Definition proto_release (p : Z) : M net unit :=
  k <-- socket_at p ;;
  if family k =? AF_LOCAL then _ <-- af_local_release p ;; kret tt
  else if family k =? AF_INET then _ <-- af_inet_release driver junk p ;; kret tt
  else kret tt.

(** ** A socket as a file *)

(** An internet socket without a port gets one before its first use. *)
Definition auto_bind (p : Z) : M net bool :=
  k <-- socket_at p ;;
  if family k =? AF_INET then
    port <-- sin_port (local_addr k) ;;
    if (local_addr_len k =? 0) || (port =? 0) then
      r <-- socket_auto_bind_inet p ;; kret (negb (r <? 0))
    else kret true
  else kret true.

Definition socket_vfs_write (p : Z) (buf : list Z) : M net Z :=
  if (p =? 0) || (zlen buf =? 0) then kret (-1) else
  ok <-- auto_bind p ;;
  if negb ok then kret (-2) else proto_sendto p buf [].

Definition socket_vfs_read (p size : Z) : M net (option taken) :=
  if (p =? 0) || (size =? 0) then kret (Some (-1, [], None)) else proto_recvfrom p size 0.

(** A connected internet stream stays in the list and in memory; any other
    socket is destroyed. *)
Definition socket_vfs_close (p : Z) : M net Z :=
  if p =? 0 then kret (-1) else
  k <-- socket_at p ;;
  if (family k =? AF_INET) && (so_type k =? SOCK_STREAM) && negb (so_state k =? TCP_STATE_CLOSED) then
    proto_release p ;;; kret 0
  else
    unlink_socket true p ;;;
    proto_release p ;;;
    destroy_socket p ;;; kret 0.

Definition socket_add_listen_queue (server client : Z) : M net Z :=
  if (server =? 0) || (client =? 0) then kret (-1) else
  sock_lock server ;;;
  ks <-- socket_at server ;;
  kc <-- socket_at client ;;
  if negb (so_state ks =? 2) || negb (so_next kc =? 0) then sock_unlock server ;;; kret (-1) else
  on_socket client (set_so_next (listen_queue ks)) ;;;
  on_socket server (set_listen_queue client) ;;;
  sock_unlock server ;;; kret 0.

(** ** System calls *)

(** The first free descriptor. *)
Definition find_fd : M sys (option Z) :=
  t <-- kgets file_descriptor_table ;;
  r <-- loop (Z.to_nat MAX_FILES_PER_PROCESS) 0
    (fun i _ => f <-- rd t i ;; kret (match f with None => inr i | Some _ => inl tt end)) tt ;;
  kret (match r with inr i => Some i | inl _ => None end).
Definition put_fd (fd : Z) (f : sfile) : M sys unit :=
  t <-- kgets file_descriptor_table ;;
  t' <-- upd t fd (Some f) ;;
  kmodify (set_files t').

(** The file of a descriptor; [None] for a bad one. *)
Definition fd_file (fd : Z) : M sys (option sfile) :=
  if (fd <? 0) || (MAX_FILES_PER_PROCESS <=? fd) then kret None else
  t <-- kgets file_descriptor_table ;; rd t fd.

(** An operation on the socket of a descriptor, with [bad] as the result for a
    descriptor without one. *)
Definition on_fd {A} (fd : Z) (bad : A) (m : Z -> M net A) : M sys A :=
  f <-- fd_file fd ;;
  match f with
  | None => kret bad
  | Some f => if sf_sock f =? 0 then kret bad else in_net (m (sf_sock f))
  end.

Definition sys_socket (fam ty : Z) : M sys Z :=
  if (fam <? 0) || (4 <? fam) then kret (-1) else
  p <-- in_net (socket_create fam ty) ;;
  v <-- in_net (n_kmalloc VFS_NODE_T_SIZE) ;;
  if (p =? 0) || (v =? 0) then
    (if p =? 0 then kret tt else _ <-- in_net (socket_close p) ;; kret tt) ;;;
    (if v =? 0 then kret tt else in_net n_kfree) ;;;
    kret (-1)
  else
    i <-- find_fd ;;
    match i with
    | None => _ <-- in_net (socket_vfs_close p) ;; in_net n_kfree ;;; kret (-1)
    | Some fd =>
        f <-- in_net (n_kmalloc VFS_FILE_T_SIZE) ;;
        if f =? 0 then _ <-- in_net (socket_vfs_close p) ;; in_net n_kfree ;;; kret (-1) else
        put_fd fd (SFile p (Z.lor VFS_MODE_READ VFS_MODE_WRITE) VFS_CHAR_DEV) ;;; kret fd
    end.

Definition sys_bind (fd : Z) (addr : list Z) : M sys Z := on_fd fd (-1) (fun p => proto_bind p addr).
Definition sys_listen (fd : Z) : M sys Z := on_fd fd (-1) proto_listen.

(** The new descriptor of an accepted connection. *)
Definition accepted (file : sfile) (client : Z) : M sys Z :=
  if client =? 0 then kret (-1) else
  i <-- find_fd ;;
  match i with
  | None => kret (-3)
  | Some fd =>
      f <-- in_net (n_kmalloc VFS_FILE_T_SIZE) ;;
      if f =? 0 then kret (-4) else
      v <-- in_net (n_kmalloc VFS_NODE_T_SIZE) ;;
      if v =? 0 then in_net n_kfree ;;; kret (-4) else
      put_fd fd (SFile client (sf_flags file) 0) ;;; kret fd
  end.
Definition sys_accept (fd : Z) : M sys (option Z) :=
  f <-- fd_file fd ;;
  match f with
  | None => kret (Some (-1))
  | Some file =>
      if sf_sock file =? 0 then kret (Some (-1)) else
      c <-- in_net (proto_accept (sf_sock file)) ;;
      match c with
      | None => kret None
      | Some client => r <-- accepted file client ;; kret (Some r)
      end
  end.

Definition sys_connect (fd : Z) (addr : list Z) : M sys (option Z) :=
  on_fd fd (Some (-1)) (fun p =>
    ok <-- auto_bind p ;; if negb ok then kret (Some (-2)) else proto_connect p addr).

Definition sys_sendto (fd : Z) (buf dest : list Z) : M sys Z :=
  on_fd fd (-1) (fun p =>
    ok <-- auto_bind p ;; if negb ok then kret (-2) else proto_sendto p buf dest).
Definition sys_send (fd : Z) (buf : list Z) : M sys Z := sys_sendto fd buf [].

Definition sys_recvfrom (fd len addrlen : Z) : M sys (option taken) :=
  on_fd fd (Some (-1, [], None)) (fun p => proto_recvfrom p len addrlen).
Definition sys_recv (fd len : Z) : M sys (option taken) := sys_recvfrom fd len 0.

(** [getsockname]: the address as far as it fits, and its length. *)
Definition getsockname (p addrlen : Z) : M net (option (list Z * Z)) :=
  if p =? 0 then kret None else
  slist_lock ;;;
  k <-- socket_at p ;;
  let n := if addrlen <? local_addr_len k then addrlen else local_addr_len k in
  a <-- bytes_out (local_addr k) 0 n ;;
  slist_unlock ;;;
  kret (Some (a, local_addr_len k)).

Definition shutdown_flags (how flags : Z) : option Z :=
  if how =? 0 then Some (Z.land flags (Z.lnot VFS_MODE_READ))
  else if how =? 1 then Some (Z.land flags (Z.lnot VFS_MODE_WRITE))
  else if how =? 2 then Some (Z.land flags (Z.lnot (Z.lor VFS_MODE_READ VFS_MODE_WRITE)))
  else None.
Definition sys_shutdown (fd how : Z) : M sys Z :=
  f <-- fd_file fd ;;
  match f with
  | None => kret (-1)
  | Some file =>
      if negb (sf_node_flags file =? VFS_CHAR_DEV) then kret (-1) else
      match shutdown_flags how (sf_flags file) with
      | None => kret (-1)
      | Some flags => put_fd fd (SFile (sf_sock file) flags (sf_node_flags file)) ;;; kret 0
      end
  end.

End descriptors.
