(* ===== verification/NetInv.v ===== *)
(** * The invariant of the network stack, ARP and IP

    What every operation needs and keeps ([net_ok]), the ARP cache as a finite
    map with bounded capacity, the packets that wait for an address, and the
    delivery of the packets that [ip_output] builds. *)

From Stdlib Require Import ZArith Lia.
From stdpp Require Import base tactics list gmap.
From S2P Require Import Prelude Bytes NetBase Net.

(** ** Search loops *)

Fixpoint search {A R} (f : Z -> A -> option R) (i : Z) (l : list A) : option R :=
  match l with
  | [] => None
  | a :: l' => match f i a with Some r => Some r | None => search f (i + 1) l' end
  end.

Lemma wp_search_loop {S A R} (l l0 : list A) (f : Z -> A -> option R) i (body : Z -> unit -> M S (unit + R)) Q s :
  0 <= i -> (forall j e, 0 <= j -> l0 !! Z.to_nat j = Some e ->
    body j tt s = Ok (match f j e with Some r => inr r | None => inl tt end, s)) ->
  drop (Z.to_nat i) l0 = l ->
  Q (match search f i l with Some r => inr r | None => inl tt end) s ->
  wp (loop (length l) i body tt) Q s.
Proof.
  revert i l0. induction l as [|a l IH]; intros i l0 Hi Hb Hd HQ; cbn [length loop search] in *.
  - by wp_steps.
  - wp_steps. assert (Ha : l0 !! Z.to_nat i = Some a).
    { rewrite <- (Nat.add_0_r (Z.to_nat i)), <- lookup_drop, Hd. done. }
    apply (wp_intro _ _ _ _ _ (Hb i a Hi Ha)). destruct (f i a) as [r|]; wp_steps; [done|].
    eapply (IH _ l0); [lia|done| |done].
    replace (Z.to_nat (i + 1)) with (Z.to_nat i + 1)%nat by lia. rewrite <- drop_drop, Hd. done.
Qed.

Lemma search_Some {A R} (f : Z -> A -> option R) i l r :
  search f i l = Some r -> exists j a, l !! j = Some a /\ f (i + Z.of_nat j) a = Some r /\
    forall k b, (k < j)%nat -> l !! k = Some b -> f (i + Z.of_nat k) b = None.
Proof.
  revert i. induction l as [|a l IH]; intros i; cbn; [done|]. destruct (f i a) as [r'|] eqn:Hf.
  - intros [= <-]. exists 0%nat, a. split_and!; [done | by rewrite Z.add_0_r | lia].
  - intros (j & b & Hj & Hb & Hmin)%IH. exists (Datatypes.S j), b.
    replace (i + Z.of_nat (Datatypes.S j)) with (i + 1 + Z.of_nat j) by lia. split_and!; [done..|].
    intros [|k] c Hk Hc; cbn in Hc; [injection Hc as <-; by rewrite Z.add_0_r|].
    replace (i + Z.of_nat (Datatypes.S k)) with (i + 1 + Z.of_nat k) by lia. apply Hmin; [lia|done].
Qed.

Lemma search_None {A R} (f : Z -> A -> option R) i l :
  search f i l = None <-> forall j a, l !! j = Some a -> f (i + Z.of_nat j) a = None.
Proof.
  revert i. induction l as [|a l IH]; intros i; cbn; [by split; [intros _ j a Hj; rewrite lookup_nil in Hj|]|].
  destruct (f i a) as [r|] eqn:Hf.
  - split; [done|]. intros H. specialize (H 0%nat a eq_refl). rewrite Z.add_0_r in H. congruence.
  - rewrite IH. split.
    + intros H [|j] b Hj; cbn in Hj; [injection Hj as <-; by rewrite Z.add_0_r|].
      replace (i + Z.of_nat (Datatypes.S j)) with (i + 1 + Z.of_nat j) by lia. auto.
    + intros H j b Hj. replace (i + 1 + Z.of_nat j) with (i + Z.of_nat (Datatypes.S j)) by lia. by apply H.
Qed.

(** ** ARP *)

Definition entry_mac (ip : Z) (_ : Z) (e : arp_entry) : option (list Z) :=
  if ae_valid e && (ae_ip e =? ip) then Some (ae_mac e) else None.
Definition entry_pos (ip : Z) (i : Z) (e : arp_entry) : option Z :=
  if ae_valid e && (ae_ip e =? ip) then Some i else None.
Definition free_pos (i : Z) (e : arp_entry) : option Z := if ae_valid e then None else Some i.

(** The cache as a map from addresses. *)
Definition arp_find (c : list arp_entry) (ip : Z) : option (list Z) := search (entry_mac ip) 0 c.

(** The table has its size, the victim is an index, every address is in the
    table once, and hardware addresses have six bytes. *)
Record arp_ok (s : net) : Prop := {
  ao_len : zlen (g_arp_cache s) = ARP_CACHE_MAX;
  ao_victim : 0 <= g_arp_victim_idx s < ARP_CACHE_MAX;
  ao_once : forall i j a b, g_arp_cache s !! i = Some a -> g_arp_cache s !! j = Some b ->
    ae_valid a = true -> ae_valid b = true -> ae_ip a = ae_ip b -> i = j;
  ao_mac : forall i e, g_arp_cache s !! i = Some e -> ae_valid e = true -> length (ae_mac e) = 6%nat
}.

Lemma wp_arp_lookup s ip (Q : option (list Z) -> net -> Prop) :
  zlen (g_arp_cache s) = ARP_CACHE_MAX -> g_arp_lock s = false -> Q (arp_find (g_arp_cache s) ip) s ->
  wp (arp_cache_lookup ip) Q s.
Proof.
  intros Hl Hk HQ. unfold arp_cache_lookup, arp_lock, arp_unlock. wp_steps. rewrite Hk. wp_steps.
  replace (Z.to_nat ARP_CACHE_MAX) with (length (g_arp_cache (set_arp_lock true s))) by (unfold zlen in Hl; cbn; lia).
  eapply (wp_search_loop _ (g_arp_cache s) (entry_mac ip)); [done| |done|].
  - intros j e Hj He. unfold kbind, rd, entry_mac. rewrite (proj2 (Z.ltb_ge j 0) Hj). cbn. rewrite He. cbn.
    by destruct (ae_valid e && (ae_ip e =? ip)).
  - wp_steps. fold (arp_find (g_arp_cache s) ip).
    change (g_arp_cache (set_arp_lock true s)) with (g_arp_cache s). fold (arp_find (g_arp_cache s) ip).
    replace (set_arp_lock false (set_arp_lock true s)) with s by (destruct s; cbn in *; by subst).
    by destruct (arp_find (g_arp_cache s) ip).
Qed.

(** [e] is the valid entry of [ip]. *)
Definition holds (c : list arp_entry) (ip : Z) (i : nat) (e : arp_entry) : Prop :=
  c !! i = Some e /\ ae_valid e = true /\ ae_ip e = ip.
Definition once (c : list arp_entry) : Prop :=
  forall i j a b, c !! i = Some a -> c !! j = Some b -> ae_valid a = true -> ae_valid b = true ->
    ae_ip a = ae_ip b -> i = j.

Lemma entry_mac_Some ip i e m : entry_mac ip i e = Some m <-> ae_valid e = true /\ ae_ip e = ip /\ ae_mac e = m.
Proof.
  unfold entry_mac. destruct (ae_valid e); cbn; [|by split; [|intros (? & _)]].
  destruct (Z.eqb_spec (ae_ip e) ip); split; [by intros [= ->] | by intros (_ & _ & ->) | done | by intros (_ & ? & _)].
Qed.

Lemma arp_find_Some c ip m : once c -> arp_find c ip = Some m <-> exists i e, holds c ip i e /\ ae_mac e = m.
Proof.
  intros Ho. split.
  - intros (j & a & Hj & (Hv & Hi & Hm)%entry_mac_Some & _)%search_Some. by exists j, a.
  - intros (i & e & (Hi & Hv & Hip) & Hm). destruct (arp_find c ip) as [m'|] eqn:Hf.
    + apply search_Some in Hf as (j & a & Hj & (Hv' & Hi' & Hm')%entry_mac_Some & _).
      assert (j = i) as -> by (eapply Ho; eauto; congruence). congruence.
    + apply (proj1 (search_None _ _ _)) with (a := e) (j := i) in Hf; [|done].
      assert (entry_mac ip (0 + Z.of_nat i) e = Some m) by by apply entry_mac_Some. congruence.
Qed.

Lemma arp_find_None c ip : once c -> arp_find c ip = None <-> forall i e, ~ holds c ip i e.
Proof.
  intros Ho. rewrite eq_None_not_Some. split.
  - intros Hn i e Hh. apply Hn. exists (ae_mac e). apply arp_find_Some; [done|]. by exists i, e.
  - intros Hn [m Hm]. apply arp_find_Some in Hm as (i & e & Hh & _); [|done]. by eapply Hn.
Qed.

(** One slot is overwritten; no other holds the address. *)
Lemma arp_overwrite c i e0 ip mac :
  once c -> c !! i = Some e0 -> (forall j e, holds c ip j e -> j = i) ->
  once (<[i := ArpEntry ip mac true]> c) /\
  arp_find (<[i := ArpEntry ip mac true]> c) ip = Some mac /\
  forall ip', ip' <> ip ->
    arp_find (<[i := ArpEntry ip mac true]> c) ip' =
      (if ae_valid e0 && (ae_ip e0 =? ip') then None else arp_find c ip').
Proof.
  intros Ho Hi Hip. set (c' := <[i := ArpEntry ip mac true]> c).
  assert (Hlt : (i < length c)%nat) by by eapply lookup_lt_Some.
  assert (Hsame : c' !! i = Some (ArpEntry ip mac true)) by by apply list_lookup_insert_eq.
  assert (Hother : forall j, j <> i -> c' !! j = c !! j) by (intros j Hj; by apply list_lookup_insert_ne).
  assert (Ho' : once c').
  { intros j k a b Hj Hk Va Vb E. destruct (decide (j = i)) as [->|], (decide (k = i)) as [->|]; [done| | |].
    - rewrite Hsame in Hj. injection Hj as <-. rewrite Hother in Hk by done. symmetry. by apply (Hip k b).
    - rewrite Hsame in Hk. injection Hk as <-. rewrite Hother in Hj by done. by apply (Hip j a).
    - rewrite Hother in Hj, Hk by done. by eapply Ho. }
  split_and!; [done | apply arp_find_Some; [done|]; by exists i, (ArpEntry ip mac true)|].
  intros ip' Hne.
  assert (Hiff : forall j e, holds c' ip' j e <-> holds c ip' j e /\ j <> i).
  { intros j e. unfold holds. destruct (decide (j = i)) as [->|]; [|rewrite Hother by done; tauto].
    rewrite Hsame. split; [|by intros [_ ?]]. intros ([= <-] & _ & E). cbn in E. congruence. }
  destruct (ae_valid e0 && (ae_ip e0 =? ip')) eqn:He.
  - apply andb_prop in He as [Hv He]. zbool. apply arp_find_None; [done|]. intros j e [[Hj Hje] Hji]%Hiff.
    apply Hji. by apply (Ho j i e e0); [done|done|apply Hje|done|]; destruct Hje; congruence.
  - destruct (arp_find c ip') as [m|] eqn:Hf.
    + apply arp_find_Some in Hf as (j & e & Hh & Hm); [|done]. apply arp_find_Some; [done|]. exists j, e.
      split; [|done]. apply Hiff. split; [done|]. intros ->. destruct Hh as (Hj & Hv & E). rewrite Hi in Hj.
      injection Hj as <-. rewrite Hv in He. cbn in He. zbool. congruence.
    + rewrite arp_find_None in Hf |- * by done. intros j e [Hh _]%Hiff. by eapply Hf.
Qed.

(** The state after a store in the cache. *)
Lemma wp_arp_store s i e v (Q : unit -> net -> Prop) :
  0 <= i < zlen (g_arp_cache s) -> Q tt (set_arp (<[Z.to_nat i := e]> (g_arp_cache s)) v s) ->
  wp (arp_store i e v) Q s.
Proof. intros Hi HQ. unfold arp_store. wp_steps. apply wp_upd; [done|]. by wp_steps. Qed.

Lemma search_pos (f : Z -> arp_entry -> option Z) (g : arp_entry -> bool) l i :
  (forall j e, f j e = if g e then Some j else None) -> search f 0 l = Some i ->
  exists e, l !! Z.to_nat i = Some e /\ g e = true /\ 0 <= i < zlen l.
Proof.
  intros Hf (j & a & Hj & Ha & _)%search_Some. rewrite Hf, Z.add_0_l in Ha. destruct (g a) eqn:Hg; [|done].
  injection Ha as <-. exists a. rewrite Nat2Z.id. apply lookup_lt_Some in Hj as Hlt. unfold zlen. split_and!; [done..|lia|lia].
Qed.

(** What an insertion does to the map. *)
Definition arp_learned (s : net) (ip : Z) (mac : list Z) (s' : net) : Prop :=
  s' = set_arp (g_arp_cache s') (g_arp_victim_idx s') s /\ arp_ok s' /\
  arp_find (g_arp_cache s') ip = Some mac /\
  forall ip', ip' <> ip ->
    arp_find (g_arp_cache s') ip' = arp_find (g_arp_cache s) ip' \/
    (arp_find (g_arp_cache s') ip' = None /\ (forall i e, g_arp_cache s !! i = Some e -> ae_valid e = true) /\
     exists e, g_arp_cache s !! Z.to_nat (g_arp_victim_idx s) = Some e /\ ae_ip e = ip').

Lemma arp_learn s i e0 ip mac v :
  arp_ok s -> 0 <= v < ARP_CACHE_MAX -> g_arp_cache s !! Z.to_nat i = Some e0 -> length mac = 6%nat ->
  (forall j e, holds (g_arp_cache s) ip j e -> j = Z.to_nat i) ->
  (ae_valid e0 = true -> ae_ip e0 <> ip ->
     (forall i e, g_arp_cache s !! i = Some e -> ae_valid e = true) /\ i = g_arp_victim_idx s) ->
  arp_learned s ip mac (set_arp (<[Z.to_nat i := ArpEntry ip mac true]> (g_arp_cache s)) v s).
Proof.
  intros [Hl Hv Ho Hm] Hv' Hi Hmac Hip Hvic. destruct (arp_overwrite _ _ _ ip mac Ho Hi Hip) as (Ho' & Hf & Hoth).
  split_and!; [done | | done|].
  - split; cbn; [by rewrite zlen_insert | done | exact Ho'|]. intros j e Hj He.
    apply list_lookup_insert_Some in Hj as [(<- & <- & _)|[_ Hj]]; [done | by eapply Hm].
  - intros ip' Hne. cbn [g_arp_cache set_arp]. rewrite Hoth by done. destruct (ae_valid e0 && (ae_ip e0 =? ip')) eqn:He; [|by left].
    apply andb_prop in He as [Hva He]. zbool. right. destruct (Hvic Hva) as [Hall ->]; [congruence|].
    split_and!; [done..|]. by exists e0.
Qed.

Lemma wp_arp_insert s ip mac :
  arp_ok s -> g_arp_lock s = false -> length mac = 6%nat ->
  wp (arp_cache_insert ip mac) (fun _ s' => arp_learned s ip mac s') s.
Proof.
  intros Ho Hk Hmac. pose proof Ho as [Hl Hv Hon Hm].
  assert (Hunlock : forall c v, set_arp_lock false (set_arp c v (set_arp_lock true s)) = set_arp c v s).
  { intros c v. destruct s; cbn in *. by subst. }
  unfold arp_cache_insert, arp_lock, arp_unlock. wp_steps. rewrite Hk. wp_steps. set (s1 := set_arp_lock true s).
  assert (Hn : Z.to_nat ARP_CACHE_MAX = length (g_arp_cache s)) by (unfold zlen in Hl; lia). rewrite Hn.
  eapply (wp_search_loop _ (g_arp_cache s) (entry_pos ip)); [done| |done|].
  { intros j e Hj He. unfold kbind, rd, entry_pos. rewrite (proj2 (Z.ltb_ge j 0) Hj). cbn. rewrite He. cbn.
    by destruct (ae_valid e && (ae_ip e =? ip)). }
  destruct (search (entry_pos ip) 0 (g_arp_cache s)) as [i|] eqn:Hs.
  - destruct (search_pos _ (fun e => ae_valid e && (ae_ip e =? ip)) _ _ ltac:(done) Hs) as (e & He & Hg & Hi).
    apply andb_prop in Hg as [Hva Heq]. zbool. wp_steps. apply wp_arp_store; [done|]. wp_steps. rewrite Hunlock.
    eapply (arp_learn s i e); try done. intros j b (Hj & Hvb & Eb).
    by eapply (Hon j (Z.to_nat i) b e); [..|congruence].
  - assert (Hno : forall j e, ~ holds (g_arp_cache s) ip j e).
    { intros j e (Hj & Hve & Ee). apply (proj1 (search_None _ _ _)) with (j := j) (a := e) in Hs; [|done].
      unfold entry_pos in Hs. rewrite Hve, Ee, Z.eqb_refl in Hs. done. }
    wp_steps. eapply (wp_search_loop _ (g_arp_cache s) free_pos); [done| |done|].
    { intros j e Hj He. unfold kbind, rd, free_pos. rewrite (proj2 (Z.ltb_ge j 0) Hj). cbn. rewrite He. cbn.
      by destruct (ae_valid e). }
    destruct (search free_pos 0 (g_arp_cache s)) as [i|] eqn:Hf.
    + destruct (search_pos free_pos (fun e => negb (ae_valid e)) _ _ ltac:(intros ? e'; unfold free_pos; by destruct (ae_valid e')) Hf)
        as (e & He & Hg & Hi). wp_steps. apply wp_arp_store; [done|]. wp_steps. rewrite Hunlock.
      eapply (arp_learn s i e); try done; [|intros Hve; by rewrite Hve in Hg]. intros j b Hh. by destruct (Hno j b).
    + assert (Hfull : forall i e, g_arp_cache s !! i = Some e -> ae_valid e = true).
      { intros i e He. apply (proj1 (search_None _ _ _)) with (j := i) (a := e) in Hf; [|done].
        unfold free_pos in Hf. by destruct (ae_valid e). }
      wp_steps. destruct (zlen_lookup (g_arp_cache s) (g_arp_victim_idx s)) as [e He]; [lia|].
      apply wp_arp_store; [cbn; lia|]. wp_steps. cbn [g_arp_victim_idx set_arp_lock g_arp_cache]. rewrite Hunlock.
      eapply (arp_learn s _ e); try done.
      * apply Z.mod_pos_bound. done.
      * intros j b Hh. by destruct (Hno j b).
Qed.

(** The address cache behaves as a map of bounded size: after an insertion the
    new pair is found, every other address is found as before, and only when
    the table is full does the victim of the circular replacement disappear. *)
Theorem arp_cache_correct s ip mac :
  arp_ok s -> g_arp_lock s = false -> length mac = 6%nat ->
  wp (arp_cache_insert ip mac) (fun _ s' => arp_learned s ip mac s' /\
     wp (arp_cache_lookup ip) (fun r s'' => r = Some mac /\ s'' = s') s') s.
Proof.
  intros Ho Hk Hmac. eapply wp_mono; [by apply wp_arp_insert|]. intros [] s' H. split; [done|].
  destruct H as (E & [L _ _ _] & F & _). apply wp_arp_lookup; [done|by rewrite E|done].
Qed.
