(* ===== verification/NetIp.v ===== *)
(** * Sending and receiving IP packets

    The frame that [ip_output] puts on the wire or leaves with the address
    cache, the answer that releases it, and the way of a packet through
    [ip_input] to its protocol. *)

From Stdlib Require Import ZArith Lia.
From stdpp Require Import base tactics list gmap.
From S2P Require Import Prelude Bytes NetBase Net Tcp NetInv.

(** A host that can send: interface 0 is [i] and up, no lock is held, the
    cache is well formed and the heap has room for [room] more blocks. *)
Record host_ok (s : net) (i : net_interface) (room : nat) : Prop := {
  ho_if : g_net_interfaces s !! 0%nat = Some i;
  ho_up : if_active i = true;
  ho_mac : length (if_mac i) = 6%nat;
  ho_ip : 0 <= if_ip i < 2 ^ 32;
  ho_count : g_interface_count s <> 0;
  ho_arp : arp_ok s;
  ho_arp_lock : g_arp_lock s = false;
  ho_pending_lock : g_arp_pending_lock s = false;
  ho_list_lock : g_socket_list_lock s = false;
  ho_id : 0 <= g_ip_packet_id s < 2 ^ 16;
  ho_brk : 0 < n_brk s;
  ho_mem : (room <= n_mem s)%nat
}.

(** Equality of updated states: the fields of [s] are spelled out first, so
    that the updates do not multiply it. *)
Ltac flat_net s :=
  destruct s as [?T ?bh ?ll ?ac ?av ?al ?pq ?pl ?ni ?nc ?id ?wi ?wk ?br ?me];
  cbv beta iota delta [set_socks set_bound set_slist_lock set_arp set_arp_lock set_pending_queue set_pending_lock set_interfaces
       set_packet_id set_wire set_woken set_heap socks g_bound_sockets_head g_socket_list_lock g_arp_cache
       g_arp_victim_idx g_arp_lock pending g_arp_pending_lock g_net_interfaces g_interface_count g_ip_packet_id wire
       woken_chans n_brk n_mem] in *.

Section ip.
Context (driver : list (list Z) -> list Z -> Z) (junk stale : list Z).

(** ** Reading the interface *)

Lemma interface0_ok s i n : host_ok s i n -> interface0 s = Ok (Some i, s).
Proof.
  intros H. unfold interface0, kget. rewrite (kbind_ok _ _ s s s) by done.
  rewrite (kbind_ok _ _ i s s); [|by apply rd_ok; [|apply H]]. by rewrite (ho_up _ _ _ H).
Qed.
Lemma get_mac_ok s i n old : host_ok s i n -> net_get_interface_mac old s = Ok (if_mac i, s).
Proof. intros H. unfold net_get_interface_mac. by rewrite (kbind_ok _ _ (Some i) s s) by by eapply interface0_ok. Qed.
Lemma get_ip_ok s i n old : host_ok s i n -> net_get_interface_ip old s = Ok (if_ip i, s).
Proof. intros H. unfold net_get_interface_ip. by rewrite (kbind_ok _ _ (Some i) s s) by by eapply interface0_ok. Qed.

Lemma wp_n_kmalloc s size (Q : Z -> net -> Prop) :
  (0 < n_mem s)%nat -> Q (n_brk s) (set_heap (n_brk s + size) (n_mem s - 1) s) -> wp (n_kmalloc size) Q s.
Proof.
  intros Hm HQ. unfold n_kmalloc. wp_steps. destruct (n_mem s) as [|m] eqn:E; [lia|]. wp_steps.
  by replace m with (Datatypes.S m - 1)%nat by lia.
Qed.

Lemma wp_transmit s f (Q : Z -> net -> Prop) :
  g_interface_count s <> 0 -> 0 < zlen f -> Q (driver (wire s) f) (set_wire (wire s ++ [f]) s) ->
  wp (net_driver_transmit driver f) Q s.
Proof.
  intros Hc Hf HQ. unfold net_driver_transmit. wp_steps. rewrite (proj2 (Z.eqb_neq _ _)) by lia.
  rewrite (proj2 (Z.eqb_neq _ _)) by done. by wp_steps.
Qed.

(** ** Sending *)

(** The hardware address a packet for [dst] goes to. *)
Definition mac_for (s : net) (dst : Z) : option (list Z) :=
  if (dst =? 0xFFFFFFFF) || (dst =? 0) then Some (replicate 6 0xFF) else arp_find (g_arp_cache s) dst.

Definition ip_frame (s : net) (i : net_interface) (mac : list Z) (dst proto : Z) (data : list Z) : list Z :=
  mac ++ if_mac i ++ le16 (htons ETH_P_IP) ++ ip_packet (g_ip_packet_id s) proto (if_ip i) dst data.

(** The state after the transmission of [f]: one frame more, the next packet
    number, and the memory as before. *)
Definition sent (f : list Z) (s : net) : net :=
  set_wire (wire s ++ [f]) (set_packet_id (u16 (g_ip_packet_id s + 1)) (set_heap (n_brk s + zlen f) (n_mem s) s)).

Lemma ip_frame_id s t i mac dst proto data :
  g_ip_packet_id s = g_ip_packet_id t -> ip_frame s i mac dst proto data = ip_frame t i mac dst proto data.
Proof. intros E. unfold ip_frame. by rewrite E. Qed.
Lemma ip_packet_length id proto src dst data : zlen (ip_packet id proto src dst data) = 20 + zlen data.
Proof. unfold ip_packet, ip_header, zlen. rewrite !length_app. cbn. lia. Qed.
Lemma ip_frame_length s i mac dst proto data :
  length mac = 6%nat -> length (if_mac i) = 6%nat -> zlen (ip_frame s i mac dst proto data) = 34 + zlen data.
Proof.
  intros H1 H2. pose proof (ip_packet_length (g_ip_packet_id s) proto (if_ip i) dst data).
  unfold ip_frame, zlen in *. rewrite !length_app, H1, H2. cbn [le16 length]. lia.
Qed.

Lemma mac_for_length s i n dst mac : host_ok s i n -> mac_for s dst = Some mac -> length mac = 6%nat.
Proof.
  intros H. unfold mac_for. destruct (_ || _); [by intros [= <-]|]. intros Hm.
  apply arp_find_Some in Hm as (j & e & (Hj & Hv & _) & <-); [|exact (ao_once _ (ho_arp _ _ _ H))].
  by eapply (ao_mac _ (ho_arp _ _ _ H)).
Qed.

Lemma host_heap s i n b m k : host_ok s i n -> 0 < b -> (k <= m)%nat -> host_ok (set_heap b m s) i k.
Proof. by intros [? ? ? ? ? [] ? ? ? ? ? ?] Hb Hk; split; try done. Qed.
Lemma host_less s i n k : host_ok s i n -> (k <= n)%nat -> host_ok s i k.
Proof. intros [] Hk. split; try done. lia. Qed.
Lemma host_id s i n x : host_ok s i n -> 0 <= x < 2 ^ 16 -> host_ok (set_packet_id x s) i n.
Proof. by intros [? ? ? ? ? [] ? ? ? ? ? ?] Hx; split. Qed.
Lemma host_wire s i n w : host_ok s i n -> host_ok (set_wire w s) i n.
Proof. by intros [? ? ? ? ? [] ? ? ? ? ? ?]; split. Qed.
Lemma host_socks s i n T : host_ok s i n -> host_ok (set_socks T s) i n.
Proof. by intros [? ? ? ? ? [] ? ? ? ? ? ?]; split. Qed.
Lemma host_woken s i n w : host_ok s i n -> host_ok (set_woken w s) i n.
Proof. by intros [? ? ? ? ? [] ? ? ? ? ? ?]; split. Qed.
Lemma host_bound s i n x : host_ok s i n -> host_ok (set_bound x s) i n.
Proof. by intros [? ? ? ? ? [] ? ? ? ? ? ?]; split. Qed.
Lemma host_queue s i n q : host_ok s i n -> host_ok (set_pending_queue q s) i n.
Proof. by intros [? ? ? ? ? [] ? ? ? ? ? ?]; split. Qed.
Lemma host_sent s i n f : host_ok s i n -> host_ok (sent f s) i n.
Proof.
  intros H. apply host_wire, host_id; [|apply u16_range]. eapply host_heap; [done| |apply H].
  pose proof (ho_brk _ _ _ H). unfold zlen. lia.
Qed.

Lemma wp_ip_output s i dst proto data mac (Q : Z -> net -> Prop) :
  host_ok s i 1 -> zlen data <= 1480 -> mac_for s dst = Some mac ->
  Q (driver (wire s) (ip_frame s i mac dst proto data)) (sent (ip_frame s i mac dst proto data) s) ->
  wp (ip_output driver junk dst proto data) Q s.
Proof.
  intros H Hl Hm HQ. pose proof (mac_for_length _ _ _ _ _ H Hm) as Hmac.
  pose proof (ho_mem _ _ _ H) as Hroom. pose proof (ho_brk _ _ _ H) as Hbrk.
  pose proof (ip_frame_length s i mac dst proto data Hmac (ho_mac _ _ _ H)) as Hf. pose proof (zlen_nonneg data).
  unfold ip_output. rewrite u32_small by (unfold IP_SIZE; lia). case_if; [unfold IP_SIZE in *; lia|]. wp_steps.
  apply wp_n_kmalloc; [lia|]. rewrite (proj2 (Z.eqb_neq _ _)) by lia. wp_steps.
  set (s1 := set_heap _ _ s). assert (H1 : host_ok s1 i 0) by (eapply host_heap; [done| |]; unfold ETH_SIZE, IP_SIZE; lia).
  eapply wp_intro; [by eapply get_mac_ok|]. wp_steps. set (s2 := set_packet_id _ s1).
  assert (H2 : host_ok s2 i 0) by (apply host_id; [done|apply u16_range]).
  eapply wp_intro; [by eapply get_ip_ok|]. cbv zeta. fold (ip_frame s i mac dst proto data).
  assert (Hend : forall s3, s3 = set_wire (wire s ++ [ip_frame s i mac dst proto data]) s2 ->
    Q (driver (wire s) (ip_frame s i mac dst proto data)) (set_heap (n_brk s3) (Datatypes.S (n_mem s3)) s3)).
  { intros s3 ->. eapply eq_ind; [exact HQ|]. unfold sent, s2, s1. unfold set_wire, set_packet_id, set_heap. cbn [n_brk n_mem].
    f_equal; unfold ETH_SIZE, IP_SIZE; lia. }
  unfold mac_for in Hm. destruct ((dst =? 0xFFFFFFFF) || (dst =? 0)).
  - apply (inj Some) in Hm as <-. wp_steps. apply wp_transmit; [apply H2|change (0 < zlen (ip_frame s i (replicate 6 0xFF) dst proto data)); lia|].
    wp_steps. unfold n_kfree. wp_steps. by apply Hend.
  - wp_steps. apply wp_arp_lookup; [apply H2..|]. change (g_arp_cache s2) with (g_arp_cache s). rewrite Hm. wp_steps.
    apply wp_transmit; [apply H2|change (0 < zlen (ip_frame s i mac dst proto data)); lia|].
    wp_steps. unfold n_kfree. wp_steps. by apply Hend.
Qed.

(** ** Packets that wait for an address *)

Definition arp_query (i : net_interface) (dst : Z) : list Z :=
  arp_frame (replicate 6 0xFF) (if_mac i) ARP_OP_REQUEST (if_mac i) (if_ip i) (replicate 6 0) dst.

(** The state after a packet for an unknown address: the frame waits, and the
    address is asked for. *)
Definition held (f : list Z) (dst : Z) (i : net_interface) (s : net) : net :=
  set_wire (wire s ++ [arp_query i dst]) (set_pending_queue ((dst, f) :: pending s)
    (set_packet_id (u16 (g_ip_packet_id s + 1)) (set_heap (n_brk s + zlen f + 32 + 42) (n_mem s - 2) s))).

Lemma wp_arp_request s i dst (Q : Z -> net -> Prop) :
  host_ok s i 1 ->
  Q (driver (wire s) (arp_query i dst)) (set_wire (wire s ++ [arp_query i dst]) (set_heap (n_brk s + 42) (n_mem s) s)) ->
  wp (arp_request driver dst) Q s.
Proof.
  intros H HQ. pose proof (ho_mem _ _ _ H) as Hroom. pose proof (ho_brk _ _ _ H) as Hbrk. unfold arp_request. wp_steps.
  apply wp_n_kmalloc; [lia|]. rewrite (proj2 (Z.eqb_neq _ _)) by lia. wp_steps. set (s1 := set_heap _ _ s).
  assert (H1 : host_ok s1 i 0) by (eapply host_heap; [done| |]; unfold ETH_SIZE, ARP_SIZE; lia).
  eapply wp_intro; [by eapply get_mac_ok|]. wp_steps. eapply wp_intro; [by eapply get_ip_ok|]. wp_steps.
  apply wp_transmit; [apply H1 | unfold zlen; cbn; lia|]. wp_steps. unfold n_kfree. wp_steps.
  eapply eq_ind; [exact HQ|]. unfold s1, set_wire, set_heap. cbn [n_brk n_mem wire]. f_equal. lia.
Qed.

Lemma wp_arp_retain s i n dst f (Q : Z -> net -> Prop) :
  host_ok s i n -> (0 < n)%nat -> 0 < zlen f ->
  Q 0 (set_pending_queue ((dst, f) :: pending s) (set_heap (n_brk s + 32) (n_mem s - 1) s)) ->
  wp (arp_retain_packet dst f) Q s.
Proof.
  intros H Hn Hf HQ. pose proof (ho_mem _ _ _ H). pose proof (ho_brk _ _ _ H). unfold arp_retain_packet.
  rewrite (proj2 (Z.eqb_neq _ _)) by lia. wp_steps. apply wp_n_kmalloc; [lia|].
  rewrite (proj2 (Z.eqb_neq _ _)) by lia. unfold pending_lock, pending_unlock. wp_steps.
  cbn [g_arp_pending_lock set_heap]. rewrite (ho_pending_lock _ _ _ H). wp_steps.
  eapply eq_ind; [exact HQ|]. unfold set_pending_lock, set_pending_queue, set_heap. cbn [g_arp_pending_lock pending n_brk n_mem].
  by rewrite (ho_pending_lock _ _ _ H).
Qed.

Lemma wp_ip_output_held s i dst proto data (Q : Z -> net -> Prop) :
  host_ok s i 3 -> zlen data <= 1480 -> mac_for s dst = None -> length junk = 6%nat ->
  Q (-11) (held (ip_frame s i junk dst proto data) dst i s) ->
  wp (ip_output driver junk dst proto data) Q s.
Proof.
  intros H Hl Hm Hj HQ. pose proof (ho_mem _ _ _ H) as Hroom. pose proof (ho_brk _ _ _ H) as Hbrk.
  pose proof (ip_frame_length s i junk dst proto data Hj (ho_mac _ _ _ H)) as Hf. pose proof (zlen_nonneg data).
  unfold ip_output. rewrite u32_small by (unfold IP_SIZE; lia). case_if; [unfold IP_SIZE in *; lia|]. wp_steps.
  apply wp_n_kmalloc; [lia|]. rewrite (proj2 (Z.eqb_neq _ _)) by lia. wp_steps.
  set (s1 := set_heap _ _ s). assert (H1 : host_ok s1 i 2) by (eapply host_heap; [done| |]; unfold ETH_SIZE, IP_SIZE; lia).
  eapply wp_intro; [by eapply get_mac_ok|]. wp_steps. set (s2 := set_packet_id _ s1).
  assert (H2 : host_ok s2 i 2) by (apply host_id; [done|apply u16_range]).
  eapply wp_intro; [by eapply get_ip_ok|]. cbv zeta.
  unfold mac_for in Hm. destruct ((dst =? 0xFFFFFFFF) || (dst =? 0)); [done|].
  wp_steps. apply wp_arp_lookup; [apply H2..|]. change (g_arp_cache s2) with (g_arp_cache s). rewrite Hm. wp_steps.
  change (junk ++ _) with (ip_frame s i junk dst proto data). fold (ip_frame s i junk dst proto data) in HQ.
  revert HQ Hf. generalize (ip_frame s i junk dst proto data). intros f HQ Hf.
  apply (wp_arp_retain _ i 2); [done|lia|lia|]. wp_steps. set (s3 := set_pending_queue _ _).
  assert (E3 : s3 = set_pending_queue ((dst, f) :: pending s) (set_packet_id (u16 (g_ip_packet_id s + 1))
      (set_heap (n_brk s + zlen f + 32) (n_mem s - 2) s))).
  { unfold s3, s2, s1, set_pending_queue, set_heap, set_packet_id. cbn [n_brk n_mem]. f_equal; unfold ETH_SIZE, IP_SIZE; lia. }
  apply (wp_arp_request _ i).
  { apply host_queue. eapply host_heap; [done| |]; cbn [n_brk n_mem s2 s1 set_heap set_packet_id]; unfold ETH_SIZE, IP_SIZE; lia. }
  wp_steps. eapply eq_ind; [exact HQ|]. by rewrite E3.
Qed.

(** The frames that wait for [ip], with [mac] as their destination. *)
Definition waiting (ip : Z) (mac : list Z) (l : list (Z * list Z)) : list (list Z) :=
  (fun e => mac ++ drop 6 e.2) <$> filter (fun e => e.1 = ip) l.

Lemma wp_flush_list l s ip mac (Q : list (Z * list Z) -> net -> Prop) :
  g_interface_count s <> 0 -> length mac = 6%nat -> Forall (fun e => 14 <= zlen e.2) l ->
  Q (filter (fun e => e.1 <> ip) l)
    (set_wire (wire s ++ waiting ip mac l) (set_heap (n_brk s) (n_mem s + 2 * length (waiting ip mac l)) s)) ->
  wp (flush_list driver ip mac l) Q s.
Proof.
  intros Hc Hm. revert s Q Hc. induction l as [|[d f] l IH]; intros s Q Hc Hl HQ; cbn [flush_list].
  - wp_steps. eapply eq_ind; [exact HQ|]. unfold waiting. cbn. rewrite app_nil_r, Nat.add_0_r. by destruct s.
  - apply Forall_cons in Hl as [Hf Hl]. cbn in Hf. unfold waiting in HQ. rewrite !filter_cons in HQ. cbn in HQ.
    destruct (Z.eqb_spec d ip) as [->|Hd].
    + rewrite decide_False in HQ by tauto. rewrite decide_True in HQ by done. wp_steps. unfold ethernet_output.
      rewrite (proj2 (Z.ltb_ge _ _)) by (unfold ETH_SIZE; lia). wp_steps. unfold bytes_in.
      assert (zlen mac = 6) by (unfold zlen; lia).
      rewrite (proj2 (Z.leb_le _ _)) by (unfold zlen in *; lia). wp_steps.
      change (take (Z.to_nat 0) f) with (@nil Z). replace (Z.to_nat (0 + zlen mac)) with 6%nat by lia. cbn [app].
      apply wp_transmit; [done | unfold zlen in *; rewrite length_app; lia|]. unfold n_kfree. wp_steps.
      apply IH; [done|done|]. eapply eq_ind; [exact HQ|]. rewrite fmap_cons. cbn [snd]. fold (waiting ip mac l).
      generalize (waiting ip mac l). intros w. clear. flat_net s. rewrite <- app_assoc. cbn [app length]. f_equal. lia.
    + rewrite decide_True in HQ by done. rewrite decide_False in HQ by done. wp_steps. apply IH; [done|done|]. by wp_steps.
Qed.

Definition arp_body (op : Z) (smac : list Z) (sip : Z) (dmac : list Z) (dip : Z) : list Z :=
  le16 (htons 1) ++ le16 (htons ETH_P_IP) ++ [6; 4] ++ le16 (htons op) ++ smac ++ le32 sip ++ dmac ++ le32 dip.

(** What an answer for [ip] leaves: the address is known, the frames that
    waited for it are sent in the order of the list, and the rest waits. *)
Definition resolved (ip : Z) (mac : list Z) (s s' : net) : Prop :=
  exists s1, arp_learned s ip mac s1 /\
    s' = set_pending_queue (filter (fun e => e.1 <> ip) (pending s)) (set_wire (wire s ++ waiting ip mac (pending s))
      (set_heap (n_brk s) (n_mem s + 2 * length (waiting ip mac (pending s))) s1)).

Lemma wp_arp_flush s ip mac (Q : unit -> net -> Prop) :
  g_interface_count s <> 0 -> g_arp_pending_lock s = false -> length mac = 6%nat ->
  Forall (fun e => 14 <= zlen e.2) (pending s) ->
  Q tt (set_pending_queue (filter (fun e => e.1 <> ip) (pending s)) (set_wire (wire s ++ waiting ip mac (pending s))
      (set_heap (n_brk s) (n_mem s + 2 * length (waiting ip mac (pending s))) s))) ->
  wp (arp_flush_pending_packets driver ip mac) Q s.
Proof.
  intros Hc Hk Hm Hp HQ. unfold arp_flush_pending_packets, pending_lock, pending_unlock. wp_steps. rewrite Hk. wp_steps.
  apply wp_flush_list; [done..|]. wp_steps. eapply eq_ind; [exact HQ|].
  change (pending (set_pending_lock true s)) with (pending s). clear - Hk. generalize (waiting ip mac (pending s)). intros w. flat_net s. by rewrite Hk.
Qed.

Lemma wp_arp_reply s i mac ip dmac dip pad n :
  host_ok s i 0 -> length mac = 6%nat -> 0 <= ip < 2 ^ 32 -> Forall (fun e => 14 <= zlen e.2) (pending s) -> 28 <= n ->
  wp (arp_input driver junk (arp_body ARP_OP_REPLY mac ip dmac dip ++ pad) n) (fun _ s' => resolved ip mac s s') s.
Proof.
  intros H Hm Hip Hp Hn. do 7 (destruct mac as [|? mac]; try done). clear Hm.
  set (m := [z; z0; z1; z2; z3; z4]). unfold arp_input. rewrite (proj2 (Z.ltb_ge _ _)) by (unfold ARP_SIZE; lia).
  wp_steps. eapply wp_intro; [apply ld16_ok; [lia | unfold zlen; cbn; lia]|]. wp_steps.
  eapply wp_intro; [apply ld16_ok; [lia | unfold zlen; cbn; lia]|].
  change (negb (_ =? 1) || negb (_ =? ETH_P_IP)) with false. cbn beta iota. wp_steps.
  eapply wp_ld8; [lia|reflexivity|]. wp_steps. eapply wp_ld8; [lia|reflexivity|]. cbn [Z.eqb negb orb Pos.eqb]. wp_steps.
  eapply wp_intro; [apply ld16_ok; [lia | unfold zlen; cbn; lia]|]. wp_steps.
  apply wp_bytes_out; [lia|lia|unfold zlen; cbn; lia|]. wp_steps.
  eapply wp_intro; [apply ld32_ok; [lia | unfold zlen; cbn; lia]|]. wp_steps.
  change (take (Z.to_nat 6) _) with m. change (get32 _ _) with (ip mod 256 + 256 * (ip / 256 mod 256) +
    65536 * (ip / 65536 mod 256 + 256 * (ip / 16777216 mod 256))). rewrite le32_join by done.
  eapply wp_mono; [apply (wp_arp_insert s ip m); [apply H..|done]|]. intros [] s1 Hl.
  change (ntohs _) with ARP_OP_REPLY. change (ARP_OP_REPLY =? ARP_OP_REQUEST) with false.
  change (ARP_OP_REPLY =? ARP_OP_REPLY) with true. cbn beta iota. wp_steps.
  destruct (Hl) as (E & _). assert (Hp1 : pending s1 = pending s) by by rewrite E. assert (Hw1 : wire s1 = wire s) by by rewrite E.
  assert (Hb1 : n_brk s1 = n_brk s) by by rewrite E. assert (Hm1 : n_mem s1 = n_mem s) by by rewrite E.
  apply wp_arp_flush; [by rewrite E; apply H | by rewrite E; apply H | done | by rewrite Hp1|]. wp_steps.
  exists s1. by rewrite Hp1, Hw1, Hb1, Hm1.
Qed.

(** ** Receiving *)

(** A frame is a header and what it carries. *)
Lemma wp_receive dst src t body len (Q : unit -> net -> Prop) s :
  length dst = 6%nat -> length src = 6%nat -> 0 <= t < 2 ^ 16 -> 14 <= len < 2 ^ 32 ->
  wp (if ntohs t =? ETH_P_IP then _ <-- ip_input driver junk stale body (len - 14) ;; kret tt
      else if ntohs t =? ETH_P_ARP then _ <-- arp_input driver junk body (len - 14) ;; kret tt else kret tt) Q s ->
  wp (receive_frame driver junk stale (dst ++ src ++ le16 t ++ body) len) Q s.
Proof.
  intros Hd Hs Ht Hl. do 7 (destruct dst as [|? dst]; try done). do 7 (destruct src as [|? src]; try done).
  intros HQ. unfold receive_frame. wp_steps. eapply wp_intro; [apply ld16_ok; [lia | unfold zlen; cbn; lia]|].
  change (get16 _ _) with (t mod 256 + 256 * (t / 256 mod 256)). rewrite le16_join by done. cbv zeta.
  unfold ETH_SIZE. rewrite u32_small by lia. exact HQ.
Qed.

Lemma wp_receive_ip dst src body len (Q : unit -> net -> Prop) s :
  length dst = 6%nat -> length src = 6%nat -> 14 <= len < 2 ^ 32 ->
  wp (ip_input driver junk stale body (len - 14)) (fun _ => Q tt) s ->
  wp (receive_frame driver junk stale (dst ++ src ++ le16 (htons ETH_P_IP) ++ body) len) Q s.
Proof.
  intros Hd Hs Hl HQ. apply wp_receive; [done..|lia|]. change (ntohs (htons ETH_P_IP) =? ETH_P_IP) with true.
  cbn beta iota. wp_steps. eapply wp_mono; [exact HQ|]. intros a s'. by wp_steps.
Qed.

Lemma wp_receive_arp dst src body len (Q : unit -> net -> Prop) s :
  length dst = 6%nat -> length src = 6%nat -> 14 <= len < 2 ^ 32 ->
  wp (arp_input driver junk body (len - 14)) (fun _ => Q tt) s ->
  wp (receive_frame driver junk stale (dst ++ src ++ le16 (htons ETH_P_ARP) ++ body) len) Q s.
Proof.
  intros Hd Hs Hl HQ. apply wp_receive; [done..|lia|]. change (ntohs (htons ETH_P_ARP) =? ETH_P_IP) with false.
  change (ntohs (htons ETH_P_ARP) =? ETH_P_ARP) with true. cbn beta iota. wp_steps. eapply wp_mono; [exact HQ|]. intros a s'. by wp_steps.
Qed.

(** A packet for an address that is not in the cache is not lost: it is kept,
    the address is asked for, and when the answer arrives the wire gets the
    very frame that would have been sent had the address been known, before
    the older frames that waited for the same address; frames for other
    addresses go on waiting, and all memory taken for it is given back. *)
Theorem late_resolution s i dst proto data mac pad :
  host_ok s i 3 -> zlen data <= 1480 -> mac_for s dst = None -> length junk = 6%nat -> 0 <= dst < 2 ^ 32 ->
  Forall (fun e => 14 <= zlen e.2) (pending s) -> length mac = 6%nat -> zlen pad <= 18 ->
  let answer := arp_frame (if_mac i) mac ARP_OP_REPLY mac dst (if_mac i) (if_ip i) ++ pad in
  wp (ip_output driver junk dst proto data) (fun r s1 =>
    r = -11 /\ wire s1 = wire s ++ [arp_query i dst] /\
    wp (receive_frame driver junk stale answer (zlen answer)) (fun _ s2 =>
      wire s2 = wire s1 ++ ip_frame s i mac dst proto data :: waiting dst mac (pending s) /\
      pending s2 = filter (fun e => e.1 <> dst) (pending s) /\ mac_for s2 dst = Some mac /\
      n_mem s2 = (n_mem s + 2 * length (waiting dst mac (pending s)))%nat /\ socks s2 = socks s) s1) s.
Proof.
  intros H Hl Hm Hj Hdst Hp Hmac Hpad answer. pose proof (ho_mem _ _ _ H) as Hroom. pose proof (ho_mac _ _ _ H) as Him.
  pose proof (ho_brk _ _ _ H) as Hbrk.
  pose proof (ip_frame_length s i junk dst proto data Hj Him) as Hf. pose proof (zlen_nonneg data) as Hd0.
  apply (wp_ip_output_held s i); [done..|]. set (s1 := held _ _ _ _). split_and!; [done..|].
  assert (Ha : zlen answer = 42 + zlen pad).
  { unfold answer, arp_frame, zlen. rewrite !length_app, Him, Hmac. cbn [le16 le32 length]. lia. }
  assert (H1 : host_ok s1 i 0).
  { unfold s1, held. apply host_wire, host_queue, host_id; [|apply u16_range]. eapply host_heap; [done| |]; lia. }
  assert (Ea : answer = if_mac i ++ mac ++ le16 (htons ETH_P_ARP) ++ arp_body ARP_OP_REPLY mac dst (if_mac i) (if_ip i) ++ pad).
  { unfold answer, arp_frame, arp_body. by rewrite <- !app_assoc. }
  pose proof (zlen_nonneg pad) as Hp0. rewrite Ha, Ea. apply wp_receive_arp; [done..|lia|].
  eapply wp_mono; [apply (wp_arp_reply s1 i); [done..| |lia]|].
  { constructor; [cbn; lia | done]. }
  intros _ s2 (s3 & (E & _ & Hfind & _) & ->). unfold waiting.
  change (pending s1) with ((dst, ip_frame s i junk dst proto data) :: pending s). rewrite !filter_cons. cbn [fst].
  rewrite (decide_True (P := dst = dst)) by done. rewrite (decide_False (P := dst <> dst)) by tauto. split_and!.
  - cbn [wire set_pending_queue set_wire fmap list_fmap]. do 2 f_equal. unfold ip_frame. cbn [snd].
    rewrite drop_app_length' by done. done.
  - done.
  - unfold mac_for in Hm |- *. destruct (_ || _); [done|]. exact Hfind.
  - cbn [n_mem set_pending_queue set_wire set_heap]. change (n_mem s1) with (n_mem s - 2)%nat. rewrite !length_fmap.
    cbn [length]. lia.
  - cbn [socks set_pending_queue set_wire set_heap]. rewrite E. done.
Qed.

(** The packet's way to its protocol. *)
Definition transport (proto : Z) (payload : list Z) (n src : Z) : M net Z :=
  if proto =? IPPROTO_UDP then udp_input driver junk payload n src
  else if proto =? IPPROTO_TCP then tcp_input driver junk stale payload n src
  else if proto =? IPPROTO_ICMP then icmp_input driver junk payload n src
  else kret (-6).

Definition addressed (i : net_interface) (dst : Z) : Prop := dst = if_ip i \/ dst = 0xFFFFFFFF \/ if_ip i = 0.

Lemma ip_header_checks total id proto src dst :
  0 <= proto < 256 ->
  ip_calculate_checksum (ip_header total id proto (ip_calculate_checksum (ip_header total id proto 0 src dst)) src dst) = 0.
Proof.
  intros Hp. set (pre := [0x45; 0] ++ le16 (htons total) ++ le16 (htons id) ++ le16 (htons 0x4000) ++ [64; proto]).
  set (post := le32 src ++ le32 dst).
  assert (E : forall c, ip_header total id proto c src dst = pre ++ le16 c ++ post) by done.
  rewrite !E. change (le16 0) with [0; 0]. apply checksum_stored; [|by exists 5|done].
  unfold pre, post. rewrite !Forall_app. split_and!; try apply le16_bytes; try apply le32_bytes;
    repeat constructor; done || lia.
Qed.

Lemma ip_input_ok t i n id proto src dst data pad len :
  host_ok t i n -> addressed i dst -> 0 <= proto < 256 -> 0 <= src < 2 ^ 32 -> 0 <= dst < 2 ^ 32 ->
  zlen data <= 1480 -> len = 20 + zlen data + zlen pad ->
  ip_input driver junk stale (ip_packet id proto src dst data ++ pad) len t = transport proto data (zlen data) src t.
Proof.
  intros H Ha Hp Hs Hd Hl ->. pose proof (zlen_nonneg data) as Hd0. pose proof (zlen_nonneg pad) as Hp0.
  unfold ip_packet. rewrite u32_small by (unfold IP_SIZE; lia). set (size := IP_SIZE + zlen data).
  pose proof (ip_header_checks size id proto src dst Hp) as Hc. set (c := ip_calculate_checksum (ip_header size id proto 0 src dst)) in *.
  rewrite <- app_assoc. set (h := ip_header size id proto c src dst) in *. assert (Hh : length h = 20%nat) by done. unfold ip_input.
  assert (Hlen : forall k, 0 <= k -> k <= 20 -> k <= zlen (h ++ data ++ pad)).
  { intros k H0 Hk. unfold zlen. rewrite length_app, Hh. lia. }
  rewrite (proj2 (Z.ltb_ge _ _)) by (unfold IP_SIZE; lia).
  rewrite (kbind_ok _ _ 0x45 t t) by done. change (Z.land (Z.shiftr 69 4) 15 =? 4) with true. cbn beta iota delta [negb].
  change (u8 (Z.land 69 15 * 4)) with 20. change (20 <? IP_SIZE) with false. cbv zeta.
  rewrite (proj2 (Z.ltb_ge (20 + zlen data + zlen pad) 20)) by lia. cbn [orb].
  assert (Hout : bytes_out (S := net) (h ++ data ++ pad) 0 20 t = Ok (h, t)).
  { unfold bytes_out. rewrite (proj2 (Z.leb_le _ _)) by (apply Hlen; lia). done. }
  rewrite (kbind_ok _ _ h t t Hout). rewrite Hc. change (0 =? 0) with true. cbn [negb].
  erewrite kbind_ok by (apply ld16_ok; [lia|apply Hlen; lia]).
  change (get16 (h ++ data ++ pad) (Z.to_nat 2)) with (htons size mod 256 + 256 * (htons size / 256 mod 256)).
  rewrite le16_join by apply htons_range. rewrite ntohs_htons by (unfold size, IP_SIZE; lia).
  rewrite (proj2 (Z.ltb_ge _ size)), (proj2 (Z.ltb_ge size 20)) by (unfold size, IP_SIZE; lia). cbn [orb].
  erewrite kbind_ok by (apply ld32_ok; [lia|apply Hlen; lia]).
  erewrite kbind_ok by (apply ld32_ok; [lia|apply Hlen; lia]).
  change (get32 (h ++ data ++ pad) (Z.to_nat 16)) with (dst mod 256 + 256 * (dst / 256 mod 256) +
    65536 * (dst / 65536 mod 256 + 256 * (dst / 16777216 mod 256))).
  change (get32 (h ++ data ++ pad) (Z.to_nat 12)) with (src mod 256 + 256 * (src / 256 mod 256) +
    65536 * (src / 65536 mod 256 + 256 * (src / 16777216 mod 256))). rewrite !le32_join by done.
  rewrite (kbind_ok _ _ proto t t) by done. erewrite kbind_ok by by eapply get_ip_ok.
  replace (negb (dst =? if_ip i) && negb (dst =? 4294967295) && negb (if_ip i =? 0)) with false.
  2: { destruct Ha as [->|[->| ->]]; rewrite ?Z.eqb_refl, ?andb_false_r; done. }
  unfold size, IP_SIZE. replace (u32 (20 + zlen data - 20)) with (zlen data) by (rewrite u32_small; lia).
  rewrite (kbind_ok _ _ data t t); [done|]. unfold bytes_out.
  rewrite (proj2 (Z.leb_le _ _)) by (unfold zlen in *; rewrite !length_app, Hh; lia).
  unfold kret. do 2 f_equal. rewrite drop_app_length' by done. unfold zlen. rewrite Nat2Z.id. apply take_app_length.
Qed.

Lemma receive_ip_ok dst src body len t :
  length dst = 6%nat -> length src = 6%nat -> 14 <= len < 2 ^ 32 ->
  receive_frame driver junk stale (dst ++ src ++ le16 (htons ETH_P_IP) ++ body) len t =
    (_ <-- ip_input driver junk stale body (len - 14) ;; kret tt) t.
Proof.
  intros Hd Hs Hl. do 7 (destruct dst as [|? dst]; try done). do 7 (destruct src as [|? src]; try done).
  unfold receive_frame. erewrite kbind_ok by (apply ld16_ok; [lia | unfold zlen; cbn; lia]).
  change (ntohs (get16 _ _) =? ETH_P_IP) with true. unfold ETH_SIZE. rewrite u32_small by lia. done.
Qed.

(** A frame of a known host, as it arrives. *)
Lemma receive_frame_ok s i mac dst proto data pad t j n :
  host_ok s i 0 -> length mac = 6%nat -> host_ok t j n -> addressed j dst ->
  0 <= proto < 256 -> 0 <= dst < 2 ^ 32 -> zlen data <= 1480 -> zlen pad <= 46 ->
  receive_frame driver junk stale (ip_frame s i mac dst proto data ++ pad) (34 + zlen data + zlen pad) t =
    (_ <-- transport proto data (zlen data) (if_ip i) ;; kret tt) t.
Proof.
  intros Hi Hm Hj Ha Hp Hd Hl Hpad. pose proof (zlen_nonneg data). pose proof (zlen_nonneg pad).
  unfold ip_frame. rewrite <- !app_assoc. rewrite receive_ip_ok by (done || lia || apply Hi).
  unfold kbind. rewrite (ip_input_ok t j n) by (done || lia || apply Hi). done.
Qed.

Lemma wp_receive_frame s i mac dst proto data pad len t j n (Q : unit -> net -> Prop) :
  host_ok s i 0 -> length mac = 6%nat -> host_ok t j n -> addressed j dst ->
  0 <= proto < 256 -> 0 <= dst < 2 ^ 32 -> zlen data <= 1480 -> zlen pad <= 46 -> len = 34 + zlen data + zlen pad ->
  wp (transport proto data (zlen data) (if_ip i)) (fun _ => Q tt) t ->
  wp (receive_frame driver junk stale (ip_frame s i mac dst proto data ++ pad) len) Q t.
Proof.
  intros Hi Hm Hj Ha Hp Hd Hl Hpad -> HQ. unfold wp. rewrite (receive_frame_ok s i mac dst proto data pad t j n) by done.
  unfold wp, kbind, kret in *. by destruct (transport _ _ _ _ t) as [[]|].
Qed.

(** C38: IP delivers: the frame of [ip_output] to a known address is one frame on
    the wire, and a host it is addressed to (by its IP, by broadcast, or while
    it has none) hands exactly the data, with its length and the sender's IP,
    to the protocol, whatever padding the link has added. *)
Theorem ip_roundtrip s i dst proto data mac t j n pad :
  host_ok s i 1 -> zlen data <= 1480 -> mac_for s dst = Some mac -> 0 <= proto < 256 -> 0 <= dst < 2 ^ 32 ->
  host_ok t j n -> addressed j dst -> zlen pad <= 46 ->
  wp (ip_output driver junk dst proto data) (fun r s' => exists f,
    wire s' = wire s ++ [f] /\ r = driver (wire s) f /\ s' = sent f s /\
    receive_frame driver junk stale (f ++ pad) (zlen (f ++ pad)) t =
      (_ <-- transport proto data (zlen data) (if_ip i) ;; kret tt) t) s.
Proof.
  intros H Hl Hm Hp Hd Ht Ha Hpad. pose proof (mac_for_length _ _ _ _ _ H Hm) as Hmac.
  apply (wp_ip_output s i _ _ _ mac); [done..|]. eexists. split_and!; [done..|].
  replace (zlen (_ ++ pad)) with (34 + zlen data + zlen pad).
  - eapply receive_frame_ok; try done. by eapply host_less; [|lia].
  - unfold zlen at 3. rewrite length_app, Nat2Z.inj_add. fold (zlen (ip_frame s i mac dst proto data)) (zlen pad).
    rewrite ip_frame_length by (done || apply H). done.
Qed.

End ip.
