(* ===== verification/NetSock.v ===== *)
(** * The list of sockets

    Sockets that are bound form a list; a port or a segment is looked up in
    it.  What every socket and the list have to satisfy ([net_ok]), the result
    of the searches as functions of the list, and single updates of a socket. *)

From Stdlib Require Import ZArith Lia.
From stdpp Require Import base tactics list gmap fin_maps fin_map_dom.
From S2P Require Import Prelude Chains Bytes NetBase Net Tcp NetInv NetIp.

(** ** Well-formed sockets *)

Record sock_ok (k : socket) : Prop := {
  so_local : length (local_addr k) = 256%nat;
  so_local_bytes : Forall byte (local_addr k);
  so_remote : length (remote_addr k) = 256%nat;
  so_remote_bytes : Forall byte (remote_addr k);
  so_local_len : 0 <= local_addr_len k <= 256;
  so_seqs : 0 <= local_seq k < 2 ^ 32 /\ 0 <= remote_ack k < 2 ^ 32;
  so_ring : match rx_buffer k with Some b => ring_ok b (rx_head k) (rx_tail k) | None => True end
}.

(** The stack: a host with room for [room] blocks, its bound sockets [l], and
    sockets below the heap's top. *)
Record net_ok (s : net) (i : net_interface) (l : list Z) (room : nat) : Prop := {
  no_host : host_ok s i room;
  no_chain : chain (socks s) global_next (g_bound_sockets_head s) l;
  no_socks : map_Forall (fun _ k => sock_ok k) (socks s);
  no_fresh : forall x, is_Some (socks s !! x) -> 0 < x < n_brk s
}.

(** Addresses as the code reads them. *)
Definition local_port (k : socket) : Z := get16 (local_addr k) 2.
Definition remote_port (k : socket) : Z := get16 (remote_addr k) 2.
Definition remote_ip (k : socket) : Z := get32 (remote_addr k) 4.

Definition on_port (ty port : Z) (k : socket) : bool :=
  (family k =? AF_INET) && (so_type k =? ty) && (local_port k =? port).
Definition session_of (ip port : Z) (k : socket) : bool :=
  negb (so_state k =? TCP_STATE_LISTEN) && (remote_port k =? port) && (remote_ip k =? ip).

Lemma port_taken_ok ty port k (s : net) : sock_ok k -> port_taken false ty port k s = Ok (on_port ty port k, s).
Proof.
  intros H. unfold port_taken, on_port. cbn [negb orb]. rewrite andb_true_r. destruct (_ && _); [|done].
  unfold sin_port. erewrite kbind_ok by (apply ld16_ok; [lia|unfold zlen; rewrite (so_local _ H); lia]). done.
Qed.

(** ** The searches *)

Fixpoint first_sock (T : gmap Z socket) (g : socket -> bool) (l : list Z) : Z :=
  match l with
  | [] => 0
  | x :: l' => match T !! x with Some k => if g k then x else first_sock T g l' | None => 0 end
  end.

Lemma find_socket_ok fuel f g p l (s : net) :
  chain (socks s) global_next p l -> (length l <= fuel)%nat ->
  (forall x k, x ∈ l -> socks s !! x = Some k -> f k s = Ok (g k, s)) ->
  find_socket fuel f p s = Ok (first_sock (socks s) g l, s).
Proof.
  revert p l. induction fuel as [|fuel IH]; intros p [|x l] Hc Hl Hf; cbn in *; try (subst; done); [lia|].
  destruct Hc as (-> & H0 & k & Hk & Hc). rewrite (proj2 (Z.eqb_neq _ _) H0), Hk.
  rewrite (kbind_ok _ _ k s s) by (unfold socket_at, kget, kopt, kbind; by rewrite Hk).
  rewrite (kbind_ok _ _ (g k) s s) by (apply (Hf x); [by left|done]). destruct (g k); [done|].
  apply IH; [done|lia|]. intros y j Hy. apply Hf. by right.
Qed.

(** The socket of a segment. *)
Fixpoint route (T : gmap Z socket) (ip port dport : Z) (l : list Z) (fb : Z) : Z :=
  match l with
  | [] => fb
  | x :: l' =>
      match T !! x with
      | None => 0
      | Some k =>
          if on_port SOCK_STREAM dport k then
            if session_of ip port k then x
            else route T ip port dport l' (if so_state k =? TCP_STATE_LISTEN then x else fb)
          else route T ip port dport l' fb
      end
  end.

Lemma lookup_segment_ok fuel ip port dport p l fb (s : net) :
  chain (socks s) global_next p l -> (length l <= fuel)%nat -> map_Forall (fun _ k => sock_ok k) (socks s) ->
  lookup_segment fuel ip port dport p fb s = Ok (route (socks s) ip port dport l fb, s).
Proof.
  intros Hc Hl Hs. revert p l fb Hc Hl. induction fuel as [|fuel IH]; intros p [|x l] fb Hc Hl; cbn in *; try (subst; done); [lia|].
  destruct Hc as (-> & H0 & k & Hk & Hc). rewrite (proj2 (Z.eqb_neq _ _) H0), Hk. assert (Ho := Hs x k Hk). cbn in Ho.
  rewrite (kbind_ok _ _ k s s) by (unfold socket_at, kget, kopt, kbind; by rewrite Hk).
  rewrite (kbind_ok _ _ _ s s (port_taken_ok _ _ k s Ho)). destruct (on_port SOCK_STREAM dport k).
  2: { apply IH; [done|lia]. }
  unfold session_of. destruct (so_state k =? TCP_STATE_LISTEN); cbn [negb andb]; [apply IH; [done|lia]|].
  unfold sin_port, sin_ip. pose proof (so_remote _ Ho) as Hr.
  erewrite kbind_ok by (apply ld16_ok; [lia|unfold zlen; rewrite Hr; lia]).
  erewrite kbind_ok by (apply ld32_ok; [lia|unfold zlen; rewrite Hr; lia]).
  fold (remote_port k) (remote_ip k). change (Z.to_nat 2) with 2%nat. change (Z.to_nat 4) with 4%nat.
  fold (remote_port k) (remote_ip k). destruct (_ && _); [done|]. apply IH; [done|lia].
Qed.

Lemma unlock_list s : g_socket_list_lock s = false -> set_slist_lock false (set_slist_lock true s) = s.
Proof. intros H. destruct s. cbn in *. by subst. Qed.

Lemma tcp_lookup_ok s i l n ip port dport :
  net_ok s i l n -> tcp_input_lookup ip port dport s = Ok (route (socks s) ip port dport l 0, s).
Proof.
  intros [H Hc Hs _]. unfold tcp_input_lookup, slist_lock, slist_unlock.
  unfold kbind at 1, kgets at 1, kbind at 1. rewrite (ho_list_lock _ _ _ H). cbn [kmodify].
  set (s1 := set_slist_lock true s). unfold kgets at 1, kbind at 1, socket_count, kgets at 1, kbind at 1.
  erewrite kbind_ok.
  2: { eapply (lookup_segment_ok _ _ _ _ _ l 0 s1); [done | by eapply chain_size | done]. }
  unfold kbind, kmodify, kret, s1. by rewrite unlock_list by apply H.
Qed.

(** Where a segment goes: a session that is the only one of the four addresses
    gets it; without a session, the only listener of the port. *)
Lemma route_session T ip port dport l fb x k :
  (forall y, y ∈ l -> is_Some (T !! y)) -> x ∈ l -> T !! x = Some k -> on_port SOCK_STREAM dport k = true -> session_of ip port k = true ->
  (forall y j, y ∈ l -> y <> x -> T !! y = Some j -> on_port SOCK_STREAM dport j = true -> session_of ip port j = false) ->
  route T ip port dport l fb = x.
Proof.
  intros Hd Hx Hk Hp Hs Ho. revert fb. induction l as [|y l IH]; intros fb; [by apply elem_of_nil in Hx|]. cbn.
  destruct (Hd y) as [j Hj]; [by left|]. rewrite Hj. destruct (decide (y = x)) as [->|Hne].
  { assert (j = k) as -> by congruence. by rewrite Hp, Hs. }
  apply elem_of_cons in Hx as [->|Hx]; [done|].
  assert (IH' : forall fb, route T ip port dport l fb = x).
  { intros fb'. apply IH; [intros z Hz; apply Hd; by right|done|]. intros z m Hz. apply Ho. by right. }
  destruct (on_port SOCK_STREAM dport j) eqn:E; [|done]. rewrite (Ho y j); [done|by left|done|done|done].
Qed.

Lemma route_listener T ip port dport l fb x k :
  (forall y, y ∈ l -> is_Some (T !! y)) -> x ∈ l \/ fb = x -> T !! x = Some k ->
  on_port SOCK_STREAM dport k = true -> so_state k = TCP_STATE_LISTEN ->
  (forall y j, y ∈ l -> y <> x -> T !! y = Some j -> on_port SOCK_STREAM dport j = true ->
     session_of ip port j = false /\ so_state j <> TCP_STATE_LISTEN) ->
  route T ip port dport l fb = x.
Proof.
  intros Hd Hx Hk Hp Hs Ho. revert fb Hx. induction l as [|y l IH]; intros fb Hx; cbn.
  { destruct Hx as [Hx| ->]; [by apply elem_of_nil in Hx|done]. }
  assert (IH' : forall fb, x ∈ l \/ fb = x -> route T ip port dport l fb = x).
  { intros fb' H. apply IH; [intros z Hz; apply Hd; by right| |done]. intros z m Hz. apply Ho. by right. }
  destruct (Hd y) as [j Hj]; [by left|]. rewrite Hj. destruct (decide (y = x)) as [->|Hne].
  { assert (j = k) as -> by congruence. unfold session_of. rewrite Hp, Hs. apply IH'. by right. }
  assert (Hx' : x ∈ l \/ fb = x).
  { destruct Hx as [[?|?]%elem_of_cons| ?]; [congruence|by left|by right]. }
  destruct (on_port SOCK_STREAM dport j) eqn:E; [|by apply IH'].
  destruct (Ho y j) as [-> Hl]; [by left|done|done|done|]. rewrite (proj2 (Z.eqb_neq _ _) Hl). by apply IH'.
Qed.

(** ** Single updates *)

(** The state with [k] as the socket at [p]. *)
Definition sk (p : Z) (k : socket) (s : net) : net := set_socks (<[p := k]> (socks s)) s.

Lemma wp_socket_at s p k (Q : socket -> net -> Prop) : socks s !! p = Some k -> Q k s -> wp (socket_at p) Q s.
Proof. intros Hk HQ. unfold socket_at. wp_steps. by eapply wp_opt. Qed.
Lemma wp_on_socket s p k f (Q : unit -> net -> Prop) :
  socks s !! p = Some k -> Q tt (sk p (f k) s) -> wp (on_socket p f) Q s.
Proof. intros Hk HQ. unfold on_socket, put_socket. wp_steps. eapply wp_socket_at; [done|]. by wp_steps. Qed.
Lemma wp_sock_lock s p k (Q : unit -> net -> Prop) :
  socks s !! p = Some k -> so_lock k = false -> Q tt (sk p (set_so_lock true k) s) -> wp (sock_lock p) Q s.
Proof.
  intros Hk Hl HQ. unfold sock_lock, put_socket. wp_steps. eapply wp_socket_at; [done|]. rewrite Hl. by wp_steps.
Qed.
Lemma wp_sock_unlock s p k (Q : unit -> net -> Prop) :
  socks s !! p = Some k -> Q tt (sk p (set_so_lock false k) s) -> wp (sock_unlock p) Q s.
Proof. intros Hk HQ. by eapply wp_on_socket. Qed.

Lemma sk_lookup p k s : socks (sk p k s) !! p = Some k.
Proof. apply lookup_insert_eq. Qed.
Lemma sk_sk p k k' s : sk p k (sk p k' s) = sk p k s.
Proof. unfold sk, set_socks. cbn [socks]. by rewrite insert_insert_eq. Qed.
#[export] Hint Rewrite sk_sk : kernel.
#[export] Hint Resolve sk_lookup : kernel.

Lemma unlocked_id k : so_lock k = false -> set_so_lock false k = k.
Proof. destruct k. cbn. by intros ->. Qed.
Lemma sk_id s p k : socks s !! p = Some k -> sk p k s = s.
Proof. intros Hk. unfold sk. rewrite insert_id by done. by destruct s. Qed.

Lemma net_sk s i l n p k k' :
  net_ok s i l n -> socks s !! p = Some k -> sock_ok k' -> global_next k' = global_next k -> net_ok (sk p k' s) i l n.
Proof.
  intros [H Hc Hs Hf] Hk Hk' Hg. split; cbn.
  - by apply host_socks.
  - by eapply chain_keep.
  - by apply map_Forall_insert_2.
  - intros x. destruct (decide (p = x)) as [<-|]; [rewrite lookup_insert_eq|rewrite lookup_insert_ne by done; apply Hf].
    intros _. apply Hf. by rewrite Hk.
Qed.

(** ** Receive buffers *)

(** The bytes that wait in a socket's buffer. *)
Definition stream (k : socket) : list Z :=
  match rx_buffer k with Some b => ring_data b (rx_head k) (rx_tail k) | None => [] end.

(** Reading up to [n] bytes of a ring. *)
Lemma wp_ring_drain n buf h t (Q : list Z * Z -> net -> Prop) s :
  ring_ok buf h t ->
  (forall t', ring_ok buf h t' -> ring_data buf h t' = drop n (ring_data buf h t) -> Q (take n (ring_data buf h t), t') s) ->
  wp (ring_drain n buf h t) Q s.
Proof.
  revert t Q. induction n as [|n IH]; intros t Q Ho HQ; cbn [ring_drain].
  - wp_steps. by apply HQ.
  - rewrite (ring_empty buf) by done. case_bool_decide as He.
    + wp_steps. specialize (HQ t Ho). rewrite He in HQ. by apply HQ.
    + destruct (ring_pop1 buf h t Ho) as (b & Hb & Ho' & _ & Hd).
      { rewrite <- (ring_data_length buf). destruct (ring_data buf h t); [done|]. unfold zlen. cbn. lia. }
      wp_steps. eapply wp_rd; [apply Ho|done|]. wp_steps. apply IH; [done|]. intros t' Ht' Hdt. wp_steps. cbn [fst snd].
      rewrite Hd in HQ. by apply HQ.
Qed.
