(* ===== verification/SockThms.v ===== *)
(** * Binding and closing sockets

    [socket_bind_address] with its ephemeral ports, and the removal of a socket
    from the list when it is closed. *)

From Stdlib Require Import ZArith Lia.
From stdpp Require Import base tactics list gmap fin_maps.
From S2P Require Import Prelude Chains Bytes NetBase Net Tcp NetInv NetIp NetSock.

(** ** Ports *)

(** The port is in use by a bound socket of the type. *)
Definition uses_port (need_len : bool) (ty port : Z) (k : socket) : bool :=
  on_port ty port k && (negb need_len || (SIN_SIZE <=? local_addr_len k)).

Lemma port_used_ok b ty port k (s : net) : sock_ok k -> port_taken b ty port k s = Ok (uses_port b ty port k, s).
Proof.
  intros H. unfold port_taken, uses_port, on_port. destruct ((family k =? AF_INET) && (so_type k =? ty)); [|done].
  cbn [andb]. destruct (negb b || (SIN_SIZE <=? local_addr_len k)); [|by rewrite andb_false_r]. rewrite andb_true_r.
  unfold sin_port. by erewrite kbind_ok by (apply ld16_ok; [lia|unfold zlen; rewrite (so_local _ H); lia]).
Qed.

(** An address is in use: the same port, and the same IP or one that is not
    given. *)
Definition clashes (port ip : Z) (k : socket) : bool :=
  (family k =? AF_INET) && (SIN_SIZE <=? local_addr_len k) && (local_port k =? port) &&
  ((get32 (local_addr k) 4 =? ip) || (get32 (local_addr k) 4 =? 0) || (ip =? 0)).

Lemma address_clash_ok port ip k (s : net) : sock_ok k -> address_clash port ip k s = Ok (clashes port ip k, s).
Proof.
  intros H. unfold address_clash, clashes. destruct (_ && _); [|done]. unfold sin_port, sin_ip.
  assert (Hl : zlen (local_addr k) = 256) by (unfold zlen; by rewrite (so_local _ H)).
  erewrite kbind_ok by (apply ld16_ok; lia). erewrite kbind_ok by (apply ld32_ok; lia). done.
Qed.

Lemma net_port_htons port : 0 <= port < 2 ^ 16 ->
  u16 (Z.lor (Z.shiftl (Z.land port 0xFF) 8) (Z.shiftr (Z.land port 0xFF00) 8)) = htons port.
Proof.
  intros Hp. rewrite Z.lor_comm. unfold htons. rewrite (u16_small port) by done.
  assert (Hs : 0 <= Z.shiftl (Z.land port 0x00FF) 8 < 2 ^ 32).
  { change 0x00FF with (Z.ones 8). rewrite Z.land_ones, Z.shiftl_mul_pow2 by lia. zdiv_lia. }
  rewrite (u32_small (Z.shiftl _ 8)) by done.
  pose proof (htons_range port) as Hr. unfold htons in Hr. rewrite (u16_small port), u32_small in Hr by done.
  by apply u16_small.
Qed.

Definition free_for (T : gmap Z socket) (g : socket -> bool) (l : list Z) : Prop :=
  forall y k, y ∈ l -> T !! y = Some k -> g k = false.

Lemma first_sock_none T g l :
  (forall y, y ∈ l -> y <> 0 /\ is_Some (T !! y)) -> first_sock T g l = 0 <-> free_for T g l.
Proof.
  intros Hd. induction l as [|x l IH]; cbn.
  - split; [|done]. intros _ y k Hy. by apply elem_of_nil in Hy.
  - destruct (Hd x) as [Hx [k Hk]]; [by left|]. rewrite Hk. destruct (g k) eqn:Hg.
    + split; [done|]. intros Hf. specialize (Hf x k ltac:(by left) Hk). congruence.
    + rewrite IH by (intros y Hy; apply Hd; by right). split.
      * intros Hf y j [->|Hy]%elem_of_cons Hj; [congruence|by eapply Hf].
      * intros Hf y j Hy. apply Hf. by right.
Qed.

Section bind.
Context (s : net) (i : net_interface) (l : list Z) (n : nat).
Hypothesis Hok : net_ok s i l n.

Lemma bound_live y : y ∈ l -> y <> 0 /\ is_Some (socks s !! y).
Proof. intros Hy. eapply chain_lookup; [apply Hok|done]. Qed.

(** A search in the list, while its lock is held. *)
Lemma wp_find f g (Q : Z -> net -> Prop) :
  (forall k, sock_ok k -> f k (set_slist_lock true s) = Ok (g k, set_slist_lock true s)) ->
  Q (first_sock (socks s) g l) (set_slist_lock true s) ->
  wp (find_socket (size (socks s)) f (g_bound_sockets_head s)) Q (set_slist_lock true s).
Proof.
  intros Hf HQ. eapply wp_intro; [|exact HQ].
  apply (find_socket_ok _ _ g _ l (set_slist_lock true s)); [apply Hok|eapply chain_size, Hok|].
  intros x k _ Hk. apply Hf. by apply (no_socks _ _ _ _ Hok x).
Qed.

(** The search for an ephemeral port: a port of the range that nobody of the
    type uses, or 0 when all are taken. *)
Lemma wp_ephemeral b ty (Q : Z -> net -> Prop) :
  (forall port, EPHEMERAL_PORT_START <= port <= EPHEMERAL_PORT_END -> free_for (socks s) (uses_port b ty (htons port)) l ->
     Q (htons port) (set_slist_lock true s)) ->
  ((forall port, EPHEMERAL_PORT_START <= port <= EPHEMERAL_PORT_END -> ~ free_for (socks s) (uses_port b ty (htons port)) l) ->
     Q 0 (set_slist_lock true s)) ->
  wp (ephemeral_port b ty) Q (set_slist_lock true s).
Proof.
  intros Hfree Hnone. unfold ephemeral_port, socket_count. wp_steps. change (size (socks (set_slist_lock true s))) with (size (socks s)).
  eapply (wp_loop (fun j _ s' => s' = set_slist_lock true s /\
    forall port, EPHEMERAL_PORT_START <= port < j -> ~ free_for (socks s) (uses_port b ty (htons port)) l)).
  - split; [done|]. intros port Hp. lia.
  - intros j [] s' Hj [-> Hbefore]. unfold EPHEMERAL_PORT_START, EPHEMERAL_PORT_END in *. rewrite net_port_htons by lia. wp_steps.
    apply (wp_find _ (uses_port b ty (htons j))); [intros k; apply port_used_ok|].
    wp_steps. destruct (Z.eqb_spec (first_sock (socks s) (uses_port b ty (htons j)) l) 0) as [E|E].
    + wp_steps. apply Hfree; [lia|]. by apply first_sock_none in E; [|exact bound_live].
    + split; [done|]. intros port Hp. destruct (decide (port = j)) as [->|]; [|apply Hbefore; lia].
      intros Hf. apply E. by apply first_sock_none; [exact bound_live|].
  - intros [] s' [-> Hall]. wp_steps. apply Hnone. intros port Hp. apply Hall.
    unfold EPHEMERAL_PORT_START, EPHEMERAL_PORT_END in *. lia.
Qed.

End bind.

(** ** Binding *)

(** The socket [p] with its address, at the head of the list. *)
Definition bound_socket (s : net) (addr : list Z) (k : socket) : socket :=
  set_global_next (g_bound_sockets_head s) (set_local (addr ++ drop (length addr) (local_addr k)) (zlen addr) k).

Lemma net_link s i l n p k addr :
  net_ok s i l n -> socks s !! p = Some k -> p ∉ l -> Forall byte addr -> zlen addr <= 256 ->
  net_ok (set_bound p (sk p (bound_socket s addr k) s)) i (p :: l) n.
Proof.
  intros [Hh Hc Hs Hf] Hk Hp Hb Hl. pose proof (Hs p k Hk) as Ho. cbn in Ho.
  assert (Hp0 : 0 < p < n_brk s) by (apply Hf; by rewrite Hk). unfold zlen in Hl.
  assert (Hok : sock_ok (bound_socket s addr k)).
  { destruct Ho as [O1 O2 O3 O4 O5 O6 O7]. split; try done; cbn [local_addr local_addr_len bound_socket set_global_next set_local].
    - rewrite length_app, length_drop. lia.
    - apply Forall_app. split; [done|by apply Forall_drop].
    - unfold zlen. lia. }
  split; cbn.
  - by apply host_bound, host_socks.
  - split_and!; [done|lia|]. exists (bound_socket s addr k). rewrite lookup_insert_eq. split; [done|]. by apply chain_other.
  - by apply map_Forall_insert_2.
  - intros x. destruct (decide (p = x)) as [<-|]; [done|]. rewrite lookup_insert_ne by done. apply Hf.
Qed.

Lemma wp_link_socket s p k addr (Q : unit -> net -> Prop) :
  socks s !! p = Some k -> zlen addr <= zlen (local_addr k) ->
  Q tt (set_bound p (sk p (bound_socket s addr k) s)) -> wp (link_socket p addr) Q s.
Proof.
  intros Hk Hl HQ. unfold link_socket, addr_in, bytes_in, put_socket. wp_steps. eapply wp_socket_at; [done|].
  rewrite (proj2 (Z.leb_le _ _)) by lia. wp_steps. change (take (Z.to_nat 0) (local_addr k)) with (@nil Z). cbn [app].
  unfold zlen in HQ |- *. rewrite Z.add_0_l, Nat2Z.id. exact HQ.
Qed.

(** The address with the port put in. *)
Definition with_port (addr : list Z) (port : Z) : list Z := take 2 addr ++ le16 port ++ drop 4 addr.

Lemma with_port_ok addr port :
  length addr = 16%nat -> Forall byte addr -> 0 <= port < 2 ^ 16 ->
  length (with_port addr port) = 16%nat /\ Forall byte (with_port addr port) /\ get16 (with_port addr port) 2 = port /\
  get32 (with_port addr port) 4 = get32 addr 4.
Proof.
  intros Hl Hb Hp. do 17 (destruct addr as [|? addr]; try done). split_and!; [done| |exact (le16_join port Hp)|done].
  unfold with_port. rewrite !Forall_app. split_and!; [by apply Forall_take|apply le16_bytes|by apply Forall_drop].
Qed.

(** The rest of the function once the port is known: the address clashes with
    another socket's, or the socket joins the list. *)
Lemma wp_bind_at s i l n p k addr port (Q : Z -> net -> Prop) :
  net_ok s i l n -> socks s !! p = Some k -> length addr = 16%nat -> Forall byte addr -> 0 <= port < 2 ^ 16 ->
  (free_for (socks s) (clashes port (get32 addr 4)) l -> Q 0 (set_bound p (sk p (bound_socket s (with_port addr port) k) s))) ->
  (~ free_for (socks s) (clashes port (get32 addr 4)) l -> Q (-2) s) ->
  wp (ip <-- sin_ip (with_port addr port) ;;
      clash <-- find_socket (size (socks s)) (address_clash port ip) (g_bound_sockets_head s) ;;
      if negb (clash =? 0) then slist_unlock ;;; kret (-2) else
      link_socket p (with_port addr port) ;;; slist_unlock ;;; kret 0) Q (set_slist_lock true s).
Proof.
  intros Hok Hk Hal Hab Hport Hyes Hno. pose proof (no_socks _ _ _ _ Hok p k Hk) as Ho. cbn in Ho.
  pose proof (unlock_list s (ho_list_lock _ _ _ (no_host _ _ _ _ Hok))) as Hun.
  destruct (with_port_ok addr port Hal Hab Hport) as (W1 & W2 & W3 & W4). wp_steps.
  unfold sin_ip. eapply wp_intro; [apply ld32_ok; [lia|unfold zlen; rewrite W1; lia]|].
  change (Z.to_nat 4) with 4%nat. rewrite W4. wp_steps.
  apply (wp_find s i l n Hok _ (clashes port (get32 addr 4))); [intros j; apply address_clash_ok|].
  unfold slist_unlock. destruct (Z.eqb_spec (first_sock (socks s) (clashes port (get32 addr 4)) l) 0) as [E|E]; cbn [negb].
  - wp_steps. apply (wp_link_socket _ p k); [done|unfold zlen; rewrite W1, (so_local _ Ho); lia|]. wp_steps.
    assert (Hu : forall x y, set_slist_lock false (set_bound x (sk p y (set_slist_lock true s))) = set_bound x (sk p y s)).
    { intros x y. rewrite <- Hun at 2. done. }
    change (bound_socket (set_slist_lock true s)) with (bound_socket s). rewrite Hu. apply Hyes.
    by apply first_sock_none in E; [|intros y Hy; eapply bound_live].
  - wp_steps. rewrite Hun. apply Hno. intros Hf. apply E. by apply first_sock_none; [intros y Hy; eapply bound_live|].
Qed.

Lemma ntohs_nonzero port : 0 <= port < 2 ^ 16 -> port <> 0 -> htons port <> 0.
Proof. intros Hp Hn He. apply Hn. rewrite <- (ntohs_htons port), He by done. done. Qed.

(** Binding an internet socket: with a port of its own choice or the first
    free ephemeral one, the socket joins the list under that address, which no
    other bound socket has (same port with the same or an open IP); otherwise
    the result is -2, nothing changes, and the address was in use or, for port
    0, every ephemeral port was taken or the IP's was. *)
Theorem socket_bind_correct s i l n p k addr :
  net_ok s i l n -> socks s !! p = Some k -> p ∉ l -> local_addr_len k = 0 -> family k = AF_INET ->
  length addr = 16%nat -> Forall byte addr ->
  wp (socket_bind_address p addr) (fun r s' =>
    (r = 0 /\ exists port, s' = set_bound p (sk p (bound_socket s (with_port addr port) k) s) /\ net_ok s' i (p :: l) n /\
       (if decide (get16 addr 2 = 0)
        then EPHEMERAL_PORT_START <= ntohs port <= EPHEMERAL_PORT_END /\ free_for (socks s) (uses_port true (so_type k) port) l
        else port = get16 addr 2) /\
       free_for (socks s) (clashes port (get32 addr 4)) l) \/
    (r = -2 /\ s' = s /\
       ((get16 addr 2 = 0 /\ forall port, EPHEMERAL_PORT_START <= port <= EPHEMERAL_PORT_END ->
           ~ free_for (socks s) (uses_port true (so_type k) (htons port)) l) \/
        exists port, (get16 addr 2 <> 0 -> port = get16 addr 2) /\ ~ free_for (socks s) (clashes port (get32 addr 4)) l))) s.
Proof.
  intros Hok Hk Hp Hlen Hfam Hal Hab. pose proof (no_host _ _ _ _ Hok) as Hh. pose proof (no_socks _ _ _ _ Hok p k Hk) as Ho. cbn in Ho.
  assert (Hp0 : p <> 0) by (pose proof (no_fresh _ _ _ _ Hok p ltac:(by rewrite Hk)); lia).
  assert (Hzl : zlen addr = 16) by (unfold zlen; by rewrite Hal). pose proof (unlock_list s (ho_list_lock _ _ _ Hh)) as Hun.
  assert (Hr : 0 <= get16 addr 2 < 2 ^ 16) by by apply get16_range.
  unfold socket_bind_address, slist_lock. rewrite (proj2 (Z.eqb_neq _ _) Hp0), Hzl. cbn [Z.eqb Z.ltb Z.compare Pos.compare Pos.compare_cont orb].
  wp_steps. rewrite (ho_list_lock _ _ _ Hh). wp_steps. eapply wp_socket_at; [done|]. rewrite Hlen. change (negb (0 =? 0)) with false.
  cbn beta iota. unfold socket_count. wp_steps. rewrite Hfam. change (AF_INET =? AF_INET) with true. cbn beta iota.
  change (16 <? SIN_SIZE) with false. cbn beta iota. wp_steps. apply wp_bytes_out; [done|done|rewrite Hzl; done|].
  change (take (Z.to_nat SIN_SIZE) (drop (Z.to_nat 0) addr)) with (take 16 addr). rewrite firstn_all2 by lia. wp_steps.
  unfold sin_port. eapply wp_intro; [apply ld16_ok; lia|]. change (Z.to_nat 2) with 2%nat. wp_steps.
  assert (Hbind : forall port Q, _) by exact (fun port Q => wp_bind_at s i l n p k addr port Q Hok Hk Hal Hab).
  destruct (Z.eqb_spec (get16 addr 2) 0) as [E|E].
  - apply (wp_ephemeral s i l n Hok true (so_type k)).
    + intros port Hport Hfree. assert (Hp16 : 0 <= port < 2 ^ 16) by (unfold EPHEMERAL_PORT_START, EPHEMERAL_PORT_END in *; lia).
      wp_steps. rewrite (proj2 (Z.eqb_neq _ _)) by (apply ntohs_nonzero; [done|unfold EPHEMERAL_PORT_START in *; lia]).
      cbn beta iota. apply (Hbind (htons port)); [apply htons_range| |].
      * intros Hc. left. split; [done|]. exists (htons port). rewrite decide_True, ntohs_htons by done. split_and!; try (done || apply Hport).
        destruct (with_port_ok addr (htons port) Hal Hab (htons_range _)) as (W1 & W2 & _).
        apply (net_link s i l n); [done|done|done|exact W2|unfold zlen; rewrite W1; done].
      * intros Hc. right. split_and!; [done..|]. right. exists (htons port). done.
    + intros Hall. wp_steps. change (0 =? 0) with true. cbn beta iota. unfold slist_unlock. wp_steps. rewrite Hun.
      right. split_and!; [done..|]. by left.
  - wp_steps. rewrite (proj2 (Z.eqb_neq _ _) E). cbn beta iota. apply (Hbind (get16 addr 2)); [done| |].
    + intros Hc. left. split; [done|]. exists (get16 addr 2). rewrite decide_False by done. split_and!; try done.
      destruct (with_port_ok addr (get16 addr 2) Hal Hab Hr) as (W1 & W2 & _).
      apply (net_link s i l n); [done|done|done|exact W2|unfold zlen; rewrite W1; done].
    + intros Hc. right. split_and!; [done..|]. right. by exists (get16 addr 2).
Qed.

(** ** Closing *)

(** The list without [p], whose predecessor in the list is [q] (0: none). *)
Definition skip (q : Z) (k : socket) (s : net) : net :=
  if q =? 0 then set_bound (global_next k) s
  else match socks s !! q with Some kq => sk q (set_global_next (global_next k) kq) s | None => s end.

Lemma chain_skip T h l1 q p l2 k kq :
  chain T global_next h (l1 ++ q :: p :: l2) -> T !! p = Some k -> T !! q = Some kq ->
  chain (<[q := set_global_next (global_next k) kq]> T) global_next h (l1 ++ q :: l2).
Proof.
  intros Hc Hk Hq. pose proof (chain_nodup _ _ _ _ Hc) as Hn. revert h Hc.
  induction l1 as [|x l1 IH]; cbn; intros h.
  - intros (-> & H0 & j & Hj & _ & _ & j' & Hj' & Hc). assert (j' = k) as -> by congruence. split_and!; [done..|].
    exists (set_global_next (global_next k) kq). rewrite lookup_insert_eq. split; [done|].
    apply chain_other; [|done]. apply NoDup_app in Hn as (_ & _ & [Hn _]%NoDup_cons). rewrite not_elem_of_cons in Hn. by destruct Hn.
  - apply NoDup_cons in Hn as [Hx Hn]. intros (-> & H0 & j & Hj & Hc). split_and!; [done..|]. exists j.
    rewrite lookup_insert_ne; [by auto|]. intros ->. apply Hx. apply elem_of_app. right. by left.
Qed.

Lemma wp_unlink s p k l1 l2 (Q : unit -> net -> Prop) : forall fuel prev curr,
  chain (socks s) global_next curr (l1 ++ p :: l2) -> socks s !! p = Some k -> (length (l1 ++ p :: l2) <= fuel)%nat ->
  p <> List.last l1 prev -> (forall q, q = List.last l1 prev -> q <> 0 -> is_Some (socks s !! q)) ->
  Q tt (sk p (set_global_next 0 k) (skip (List.last l1 prev) k s)) -> wp (unlink_from fuel true p prev curr) Q s.
Proof.
  induction l1 as [|x l1 IH]; intros [|fuel] prev curr Hc Hk Hf Hne Hq HQ; cbn [app length] in Hf; try lia; destruct Hc as (-> & H0 & j & Hj & Hc);
    cbn [unlink_from]; rewrite (proj2 (Z.eqb_neq _ _) H0); wp_steps; (eapply wp_socket_at; [exact Hj|]).
  - assert (j = k) as -> by congruence. rewrite Z.eqb_refl. cbn [List.last] in *. unfold skip in HQ. wp_steps.
    destruct (Z.eqb_spec prev 0) as [E|E]; wp_steps.
    + eapply wp_on_socket; [exact Hk|exact HQ].
    + destruct (Hq prev eq_refl E) as [kq Hkq]. rewrite Hkq in HQ. eapply wp_on_socket; [exact Hkq|]. wp_steps.
      eapply wp_on_socket; [|exact HQ]. cbn. by rewrite lookup_insert_ne.
  - assert (Hd : x <> p).
    { intros ->. assert (Hx : chain (socks s) global_next p (p :: (l1 ++ p :: l2))) by (split_and!; eauto).
      apply chain_nodup, NoDup_cons in Hx as [Hx _]. apply Hx, elem_of_app. right. by left. }
    rewrite (proj2 (Z.eqb_neq _ _) Hd). assert (El : forall d, List.last (x :: l1) d = List.last l1 x).
    { intros d. destruct l1; [done|]. cbn [List.last]. clear. revert z. induction l1; intros z; [done|]. cbn [List.last]. apply IHl1. }
    rewrite El in *. apply (IH fuel x); try done. lia.
Qed.

Lemma wp_unlink_none s p l (Q : unit -> net -> Prop) : forall fuel prev curr,
  chain (socks s) global_next curr l -> p ∉ l -> (length l <= fuel)%nat -> Q tt s -> wp (unlink_from fuel true p prev curr) Q s.
Proof.
  induction l as [|x l IH]; intros fuel prev curr Hc Hp Hf HQ.
  - cbn in Hc. subst. destruct fuel; by wp_steps.
  - destruct Hc as (-> & H0 & j & Hj & Hc). apply not_elem_of_cons in Hp as [Hx Hp]. destruct fuel as [|fuel]; cbn [length] in Hf; [lia|].
    cbn [unlink_from]. rewrite (proj2 (Z.eqb_neq _ _) H0). wp_steps. eapply wp_socket_at; [exact Hj|].
    rewrite (proj2 (Z.eqb_neq x p)) by done. apply (IH fuel x); try done. lia.
Qed.

Lemma filter_absent (p : Z) (l : list Z) : p ∉ l -> filter (fun x => x <> p) l = l.
Proof.
  induction l as [|x l IH]; [done|]. rewrite not_elem_of_cons. intros [Hx Hl].
  rewrite filter_cons_True by done. by rewrite IH.
Qed.
Lemma list_without (l1 : list Z) (p : Z) (l2 : list Z) : NoDup (l1 ++ p :: l2) -> filter (fun x => x <> p) (l1 ++ p :: l2) = l1 ++ l2.
Proof.
  intros Hn. rewrite filter_app, filter_cons_False by naive_solver. apply NoDup_app in Hn as (_ & Hx & [Hp _]%NoDup_cons).
  rewrite !filter_absent; [done|done|]. intros Hin. apply (Hx p Hin). by left.
Qed.

Lemma last_member l1 p l2 T h :
  chain T global_next h (l1 ++ p :: l2) ->
  p <> List.last l1 0 /\ forall q, q = List.last l1 0 -> q <> 0 -> is_Some (T !! q).
Proof.
  intros Hc. pose proof (chain_nodup _ _ _ _ Hc) as Hn.
  assert (Hl : forall x, x ∈ l1 ++ p :: l2 -> x <> 0 /\ is_Some (T !! x)) by (intros x Hx; eapply chain_lookup; [exact Hc|exact Hx]).
  destruct l1 as [|q l1 _] using rev_ind.
  - split; [apply (Hl p); by left|done].
  - rewrite List.last_last. split.
    + intros ->. rewrite <- app_assoc in Hn. apply NoDup_app in Hn as (_ & _ & [Hn _]%NoDup_cons). apply Hn. by left.
    + intros _ -> _. apply Hl. rewrite !elem_of_app. left. right. by left.
Qed.

(** Stores that differ in the links of the list only. *)
Definition relinked (T T' : gmap Z socket) : Prop := forall q, set_global_next 0 <$> T' !! q = set_global_next 0 <$> T !! q.

Lemma relinked_lookup T T' q k : relinked T T' -> T !! q = Some k -> exists x, T' !! q = Some (set_global_next x k).
Proof.
  intros H Hk. specialize (H q). rewrite Hk in H. destruct (T' !! q) as [k'|]; [|done]. exists (global_next k').
  injection H. destruct k, k'. cbn. intros. by subst.
Qed.
Lemma relinked_back T T' q k' : relinked T T' -> T' !! q = Some k' -> exists k, T !! q = Some k /\ k' = set_global_next (global_next k') k.
Proof.
  intros H Hk. pose proof (H q) as Hq. rewrite Hk in Hq. destruct (T !! q) as [k|] eqn:E; [|done]. exists k. split; [done|].
  destruct (relinked_lookup T T' q k H E) as [x Hx]. assert (k' = set_global_next x k) as -> by congruence. done.
Qed.
Lemma relinked_insert T q k x : T !! q = Some k -> relinked T (<[q := set_global_next x k]> T).
Proof. intros Hk y. destruct (decide (q = y)) as [<-|]; [by rewrite lookup_insert_eq, Hk|by rewrite lookup_insert_ne]. Qed.
Lemma relinked_trans T1 T2 T3 : relinked T1 T2 -> relinked T2 T3 -> relinked T1 T3.
Proof. intros H1 H2 q. by rewrite H2. Qed.

(** The list without [p], and only links changed. *)
Lemma skip_ok s p k l1 l2 :
  chain (socks s) global_next (g_bound_sockets_head s) (l1 ++ p :: l2) -> socks s !! p = Some k ->
  exists T h, skip (List.last l1 0) k s = set_bound h (set_socks T s) /\ chain T global_next h (l1 ++ l2) /\
    relinked (socks s) T /\ T !! p = Some k.
Proof.
  intros Hc Hk. pose proof (chain_nodup _ _ _ _ Hc) as Hnd. destruct l1 as [|q l1 _] using rev_ind.
  - cbn. destruct Hc as (_ & _ & j & Hj & Hc). assert (j = k) as -> by congruence.
    exists (socks s), (global_next k). split_and!; by try destruct s.
  - rewrite List.last_last. rewrite <- app_assoc in Hc, Hnd |- *. cbn [app] in *.
    assert (Hin : q ∈ l1 ++ q :: p :: l2) by (apply elem_of_app; right; by left).
    destruct (chain_lookup _ _ _ _ _ Hc Hin) as [Hq0 [kq Hkq]].
    assert (Hqp : q <> p).
    { intros ->. apply NoDup_app in Hnd as (_ & _ & [Hnd _]%NoDup_cons). apply Hnd. by left. }
    unfold skip. rewrite (proj2 (Z.eqb_neq _ _) Hq0), Hkq. exists (<[q := set_global_next (global_next k) kq]> (socks s)), (g_bound_sockets_head s).
    split_and!; [done|by eapply chain_skip|by apply relinked_insert|by rewrite lookup_insert_ne].
Qed.

Lemma skip_lock q k (s : net) : g_socket_list_lock s = false ->
  set_slist_lock false (skip q k (set_slist_lock true s)) = skip q k s.
Proof. intros H. rewrite <- (unlock_list s H) at 2. unfold skip. cbn [socks set_slist_lock]. by destruct (q =? 0), (socks s !! q). Qed.

(** Taking [p] out of the list of bound sockets, whether it is in it or not. *)
Lemma unlinked s l p k (Q : unit -> net -> Prop) :
  g_socket_list_lock s = false -> chain (socks s) global_next (g_bound_sockets_head s) l -> socks s !! p = Some k ->
  (forall T h, chain T global_next h (filter (fun x => x <> p) l) -> relinked (socks s) T -> Q tt (set_bound h (set_socks T s))) ->
  wp (unlink_socket true p) Q s.
Proof.
  intros Hlock Hc Hk HQ.
  pose proof (chain_size _ _ _ _ Hc) as Hsz. pose proof (chain_nodup _ _ _ _ Hc) as Hnd. pose proof (unlock_list s Hlock) as Hun.
  unfold unlink_socket, slist_lock, slist_unlock, socket_count. wp_steps. rewrite Hlock. wp_steps.
  destruct (decide (p ∈ l)) as [(l1 & l2 & ->)%list_elem_of_split|Hp].
  - rewrite list_without in HQ by done. destruct (skip_ok s p k l1 l2 Hc Hk) as (T & h & E & Hc' & Hrel & Hk').
    destruct (last_member l1 p l2 (socks s) _ Hc) as [Hlast Hin].
    apply (wp_unlink (set_slist_lock true s) p k l1 l2); try done. wp_steps.
    change (set_slist_lock false (sk p ?x ?y)) with (sk p x (set_slist_lock false y)). rewrite skip_lock, E by done.
    assert (Hpl : p ∉ l1 ++ l2).
    { apply NoDup_app in Hnd as (_ & Hx & [Hp _]%NoDup_cons). intros [Hy|Hy]%elem_of_app; [|done]. apply (Hx p Hy). by left. }
    change (sk p ?x (set_bound h (set_socks T s))) with (set_bound h (set_socks (<[p := x]> T) s)). apply (HQ (<[p := set_global_next 0 k]> T) h); [by apply chain_other|].
    eapply relinked_trans; [exact Hrel|by apply relinked_insert].
  - apply (wp_unlink_none (set_slist_lock true s) p l); [done..|]. wp_steps. rewrite Hun.
    specialize (HQ (socks s) (g_bound_sockets_head s)). rewrite filter_absent in HQ by done. destruct s. by apply HQ.
Qed.

Lemma net_relinked s i l l' n h T :
  net_ok s i l n -> relinked (socks s) T -> chain T global_next h l' -> net_ok (set_bound h (set_socks T s)) i l' n.
Proof.
  intros [Hh Hc Hs Hf] Hrel Hc'. split; cbn.
  - by apply host_bound, host_socks.
  - done.
  - intros q k' Hk'. destruct (relinked_back _ _ _ _ Hrel Hk') as (k & Hk & ->). by destruct (Hs q k Hk); split.
  - intros q [k' Hk']. destruct (relinked_back _ _ _ _ Hrel Hk') as (k & Hk & _). apply Hf. by rewrite Hk.
Qed.

(** The blocks of a socket: itself and its receive buffer. *)
Definition blocks (k : socket) : nat := match rx_buffer k with Some _ => 2 | None => 1 end.

Lemma net_deleted s i l n p m n' :
  net_ok s i l n -> p ∉ l -> (n' <= m)%nat -> net_ok (set_heap (n_brk s) m (set_socks (delete p (socks s)) s)) i l n'.
Proof.
  intros [Hh Hc Hs Hf] Hp Hm. pose proof (ho_brk _ _ _ Hh). split; cbn.
  - eapply host_heap; [by apply host_socks|done|done].
  - by apply chain_delete.
  - by apply map_Forall_delete.
  - intros x Hx. apply Hf. destruct (decide (p = x)) as [<-|]; [by rewrite lookup_delete_eq in Hx; destruct Hx|].
    by rewrite lookup_delete_ne in Hx.
Qed.

(** Closing a socket, bound or not: it is gone, its blocks are free again, and
    the bound sockets are a well-formed list of the others in the same order,
    of which only links changed. *)
Theorem socket_close_correct s i l n p k :
  net_ok s i l n -> socks s !! p = Some k -> peer k = 0 ->
  wp (socket_close p) (fun r s' => r = 0 /\ socks s' !! p = None /\
    net_ok s' i (filter (fun x => x <> p) l) (n + blocks k) /\ n_mem s' = (n_mem s + blocks k)%nat /\
    forall q, q <> p -> set_global_next 0 <$> socks s' !! q = set_global_next 0 <$> socks s !! q) s.
Proof.
  intros Hok Hk Hpeer. pose proof (no_fresh _ _ _ _ Hok p ltac:(by rewrite Hk)) as Hp. unfold socket_close.
  rewrite (proj2 (Z.eqb_neq p 0)) by lia. wp_steps. pose proof (no_host _ _ _ _ Hok) as Hh. pose proof (ho_mem _ _ _ Hh) as Hroom.
  apply (unlinked s l p k); [apply Hh|apply Hok|done|]. intros T h Hc Hkeep. set (s' := set_bound h (set_socks T s)).
  assert (Hok' : net_ok s' i (filter (fun x => x <> p) l) n) by by eapply net_relinked.
  assert (Hpl : p ∉ filter (fun x => x <> p) l) by (rewrite list_elem_of_filter; by intros []).
  destruct (relinked_lookup _ _ p k Hkeep Hk) as [x Hk'].
  wp_steps. eapply wp_socket_at; [exact Hk'|]. cbn [peer set_global_next]. rewrite Hpeer. unfold leave_peer. change (0 =? 0) with true. wp_steps.
  unfold destroy_socket, free_socket, n_kfree, blocks. wp_steps. eapply wp_socket_at; [exact Hk'|].
  cbn [rx_buffer set_global_next]. destruct (rx_buffer k); wp_steps; split_and!; try done; try (cbn; by rewrite lookup_delete_eq); try (cbn; lia).
  all: try (intros q Hq; rewrite <- (Hkeep q); cbn; by rewrite lookup_delete_ne).
  - exact (net_deleted s' i _ n p (S (S (n_mem s'))) (n + 2) Hok' Hpl ltac:(cbn; lia)).
  - exact (net_deleted s' i _ n p (S (n_mem s')) (n + 1) Hok' Hpl ltac:(cbn; lia)).
Qed.
