(* ===== verification/LocalConn.v ===== *)
(** * Connections of local sockets

    The part of a socket that says whom it is connected to, or waits for, and
    the invariant of these parts: peers point to each other, and every client
    that waits is in the queue of exactly one socket.  Each step of a
    connection's life keeps it. *)

From Stdlib Require Import ZArith Lia.
From stdpp Require Import base tactics list gmap fin_maps.
From S2P Require Import Prelude Chains Bytes NetBase Net Tcp Local.

Record conn : Type := Conn { c_state : Z; c_peer : Z; c_queue : Z; c_next : Z }.
Definition view (k : socket) : conn := Conn (so_state k) (peer k) (listen_queue k) (so_next k).

(** [Q p] is the queue of [p], as a list. *)
Definition set_q (Q : Z -> list Z) (p : Z) (l : list Z) : Z -> list Z := fun x => if decide (x = p) then l else Q x.

Record conn_ok (V : gmap Z conn) (Q : Z -> list Z) : Prop := {
  co_addr : forall p v, V !! p = Some v -> p <> 0;
  co_state : forall p v, V !! p = Some v -> 0 <= c_state v <= SOCKET_CONNECTING;
  co_peer : forall p v, V !! p = Some v -> c_peer v <> 0 -> c_peer v <> p /\ exists w, V !! c_peer v = Some w /\ c_peer w = p;
  co_conn : forall p v, V !! p = Some v -> c_state v = SOCKET_CONNECTED <-> c_peer v <> 0;
  co_queue : forall p v, V !! p = Some v -> chain V c_next (c_queue v) (Q p);
  co_wait : forall p v c, V !! p = Some v -> c ∈ Q p -> exists w, V !! c = Some w /\ c_state w = SOCKET_CONNECTING;
  co_in : forall c w, V !! c = Some w -> c_state w = SOCKET_CONNECTING -> exists p, is_Some (V !! p) /\ c ∈ Q p;
  co_one : forall p1 p2 c, is_Some (V !! p1) -> is_Some (V !! p2) -> c ∈ Q p1 -> c ∈ Q p2 -> p1 = p2
}.

Lemma set_q_eq Q p l : set_q Q p l p = l.
Proof. unfold set_q. by rewrite decide_True. Qed.
Lemma set_q_ne Q p l x : x <> p -> set_q Q p l x = Q x.
Proof. intros H. unfold set_q. by rewrite decide_False. Qed.

(** The cases of a lookup in an updated map. *)
Ltac look := repeat match goal with
  | H : <[_ := _]> _ !! _ = Some _ |- _ => apply lookup_insert_Some in H as [[? ?]|[? H]]; subst
  | H : is_Some (<[?p := _]> _ !! ?x) |- _ =>
      destruct (decide (p = x)); [subst; clear H | rewrite lookup_insert_ne in H by done]
  end.

Lemma conn_empty : conn_ok ∅ (fun _ => []).
Proof. by split; intros *; rewrite ?lookup_empty; [..|intros [??]]. Qed.

(** An update of a socket outside all queues that keeps its own queue, its
    peer and whether it waits or is connected. *)
Lemma conn_inert V Q p v v' :
  conn_ok V Q -> V !! p = Some v -> c_peer v' = c_peer v -> c_queue v' = c_queue v -> c_next v' = c_next v ->
  0 <= c_state v' <= SOCKET_CONNECTING ->
  (c_state v' = SOCKET_CONNECTING <-> c_state v = SOCKET_CONNECTING) ->
  (c_state v' = SOCKET_CONNECTED <-> c_state v = SOCKET_CONNECTED) -> conn_ok (<[p := v']> V) Q.
Proof.
  intros [H0 H1 H2 H3 H4 H5 H6 H7] Hp Ep Eq En Hs Hw Hc.
  assert (Hl : forall x w, V !! x = Some w -> exists w', <[p := v']> V !! x = Some w' /\ c_peer w' = c_peer w /\
    (c_state w' = SOCKET_CONNECTING <-> c_state w = SOCKET_CONNECTING)).
  { intros x w Hx. destruct (decide (p = x)) as [<-|]; [|exists w; by rewrite lookup_insert_ne].
    exists v'. rewrite lookup_insert_eq. assert (w = v) as -> by congruence. done. }
  assert (Hd : forall x, is_Some (<[p := v']> V !! x) -> is_Some (V !! x)).
  { intros x Hx. look; [by eexists|done]. }
  split.
  - intros x w Hx. look; eauto.
  - intros x w Hx. look; eauto.
  - intros x w Hx Hn. assert (Hx' : exists w0, V !! x = Some w0 /\ c_peer w0 = c_peer w) by (look; eauto).
    destruct Hx' as (w0 & Hx0 & E). rewrite <- E in Hn |- *. destruct (H2 x w0 Hx0 Hn) as (Hne & u & Hu & Eu). split; [done|].
    destruct (Hl _ _ Hu) as (u' & Hu' & Eu' & _). exists u'. split; [done|congruence].
  - intros x w Hx. look; [|by apply (H3 x w)]. rewrite Hc, Ep. by apply (H3 x v).
  - intros x w Hx. apply (chain_keep _ _ _ _ _ v); [done|done|]. look; [rewrite Eq|]; by apply H4.
  - intros x w c Hx Hin. assert (Hx0 : exists w0, V !! x = Some w0) by (look; eauto). destruct Hx0 as [w0 Hx0].
    destruct (H5 x w0 c Hx0 Hin) as (u & Hu & Eu). destruct (Hl _ _ Hu) as (u' & Hu' & _ & Es). exists u'. split; [done|by apply Es].
  - intros c w Hx Hwt. assert (Hx0 : exists w0, V !! c = Some w0 /\ c_state w0 = SOCKET_CONNECTING) by (look; [exists v; split; [done|by apply Hw]|by exists w]).
    destruct Hx0 as (w0 & Hx0 & E0). destruct (H6 c w0 Hx0 E0) as (q & [u Hu] & Hin). exists q. split; [|done].
    destruct (Hl _ _ Hu) as (u' & Hu' & _). by exists u'.
  - intros p1 p2 c Hp1 Hp2. apply H7; by apply Hd.
Qed.

(** A new socket. *)
Lemma conn_new V Q p : conn_ok V Q -> V !! p = None -> p <> 0 -> conn_ok (<[p := Conn SOCKET_CREATED 0 0 0]> V) (set_q Q p []).
Proof.
  intros [H0 H1 H2 H3 H4 H5 H6 H7] Hp Hp0.
  assert (Hnot : forall x v, V !! x = Some v -> p ∉ Q x).
  { intros x v Hx Hin. destruct (H5 x v p Hx Hin) as (w & Hw & _). congruence. }
  split.
  - intros x w Hx. look; [done|eauto].
  - intros x w Hx. look; [done|]. by apply (H3 x w) || by apply (H1 x w).
  - intros x v Hx Hn. look; [done|]. destruct (H2 x v Hx Hn) as (Hne & w & Hw & E). split; [done|]. exists w.
    rewrite lookup_insert_ne; [done|congruence].
  - intros x w Hx. look; [done|]. by apply (H3 x w) || by apply (H1 x w).
  - intros x v Hx. look; [by rewrite set_q_eq|]. rewrite set_q_ne by done. apply chain_other; [by eapply Hnot|eauto].
  - intros x v c Hx Hin. look; [rewrite set_q_eq in Hin; by apply elem_of_nil in Hin|]. rewrite set_q_ne in Hin by done.
    destruct (H5 x v c Hx Hin) as (w & Hw & E). exists w. rewrite lookup_insert_ne; [done|congruence].
  - intros c w Hx Hc. look; [done|]. destruct (H6 c w Hx Hc) as (q & [u Hu] & Hin). exists q.
    rewrite lookup_insert_ne, set_q_ne by congruence. by rewrite Hu.
  - intros p1 p2 c Hp1 Hp2. look; rewrite ?set_q_eq, ?set_q_ne by done; try by intros ?%elem_of_nil.
    + by intros _ ?%elem_of_nil.
    + by apply H7.
Qed.

Lemma conn_state_cases V Q p v : conn_ok V Q -> V !! p = Some v -> c_state v <> SOCKET_CONNECTED -> c_peer v = 0.
Proof. intros H Hp Hs. destruct (decide (c_peer v = 0)) as [|Hn]; [done|]. by apply (co_conn _ _ H p v Hp) in Hn. Qed.

(** A socket that does not wait is in no queue. *)
Lemma conn_not_in V Q p v x w : conn_ok V Q -> V !! p = Some v -> c_state v <> SOCKET_CONNECTING -> V !! x = Some w -> p ∉ Q x.
Proof. intros H Hp Hs Hx Hin. destruct (co_wait _ _ H x w p Hx Hin) as (u & Hu & E). congruence. Qed.

(** [p] asks [s] for a connection. *)
Definition asked (V : gmap Z conn) (p s : Z) (vp vs : conn) : gmap Z conn :=
  <[s := Conn (c_state vs) (c_peer vs) p (c_next vs)]>
    (<[p := Conn SOCKET_CONNECTING (c_peer vp) (c_queue vp) (c_queue vs)]> V).

Lemma conn_asked V Q p s vp vs :
  conn_ok V Q -> V !! p = Some vp -> V !! s = Some vs -> p <> s ->
  c_state vp = SOCKET_CREATED \/ c_state vp = SOCKET_LISTENING -> c_state vs = SOCKET_LISTENING ->
  conn_ok (asked V p s vp vs) (set_q Q s (p :: Q s)).
Proof.
  intros Hok Hp Hs Hps Hvp Hvs. pose proof Hok as [H0 H1 H2 H3 H4 H5 H6 H7].
  assert (Hn : forall x w, V !! x = Some w -> p ∉ Q x) by (intros x w; eapply conn_not_in; [done|done|by destruct Hvp as [->| ->]]).
  assert (Hsn : forall x w, V !! x = Some w -> s ∉ Q x) by (intros x w; eapply conn_not_in; [done|done|by rewrite Hvs]).
  assert (Hpp : c_peer vp = 0) by (eapply conn_state_cases; [done|done|by destruct Hvp as [->| ->]]).
  assert (Hsp : c_peer vs = 0) by (eapply conn_state_cases; [done|done|by rewrite Hvs]).
  assert (Hlk : forall x w, V !! x = Some w -> x <> p -> x <> s -> asked V p s vp vs !! x = Some w).
  { intros x w Hx Hxp Hxs. unfold asked. by rewrite !lookup_insert_ne. }
  assert (Hap : asked V p s vp vs !! p = Some (Conn SOCKET_CONNECTING (c_peer vp) (c_queue vp) (c_queue vs))).
  { unfold asked. by rewrite lookup_insert_ne, lookup_insert_eq. }
  assert (Hd : forall x, is_Some (asked V p s vp vs !! x) -> is_Some (V !! x)).
  { unfold asked. intros x Hx. look; [by eexists|by eexists|done]. }
  assert (Hch : forall h x w, V !! x = Some w -> chain V c_next h (Q x) -> chain (asked V p s vp vs) c_next h (Q x)).
  { intros h x w Hx Hc. unfold asked. apply chain_other; [by eapply Hsn|]. apply chain_other; [by eapply Hn|done]. }
  split.
  - intros x v Hx. destruct (Hd x) as [w Hw]; [by eexists|eauto].
  - unfold asked. intros x v Hx. look; cbn; [rewrite Hvs; done|done|by eapply H1].
  - intros x v Hx Hne. assert (Hxn : V !! x = Some v).
    { unfold asked in Hx. look; cbn in Hne; [by rewrite Hsp in Hne|by rewrite Hpp in Hne|done]. }
    destruct (H2 x v Hxn Hne) as (Hd' & w & Hw & E). split; [done|]. exists w. split; [|done]. pose proof (H0 x v Hxn). apply Hlk; [done|intros E'|intros E']; congruence.
  - unfold asked. intros x v Hx. look; cbn; [by apply (H3 x vs)|rewrite Hpp; by split|by apply (H3 x v)].
  - intros x v Hx. destruct (decide (x = s)) as [->|Hxs].
    + rewrite set_q_eq. unfold asked in Hx. rewrite lookup_insert_eq in Hx. injection Hx as <-. cbn. split_and!; [done|eauto|].
      eexists. split; [exact Hap|]. cbn. by apply (Hch _ _ vs), H4.
    + rewrite set_q_ne by done. unfold asked in Hx. look; [done|cbn|]; (eapply Hch; [done|by apply H4]).
  - intros x v c Hx Hin. assert (Hin' : c = p \/ exists w, V !! x = Some w /\ c ∈ Q x).
    { destruct (Hd x) as [w Hw]; [by eexists|]. destruct (decide (x = s)) as [->|]; [rewrite set_q_eq in Hin|rewrite set_q_ne in Hin by done; eauto].
      apply elem_of_cons in Hin as [->|]; eauto. }
    destruct Hin' as [->|(w & Hw & Hin')]; [by eexists|]. destruct (H5 x w c Hw Hin') as (u & Hu & E). exists u. split; [|done].
    apply Hlk; [done| |]; intros ->; [exact (Hn x w Hw Hin')|exact (Hsn x w Hw Hin')].
  - intros c w Hx Hc. destruct (decide (c = p)) as [->|Hcp].
    + exists s. unfold asked. rewrite lookup_insert_eq, set_q_eq. split; [by eexists|by left].
    + assert (Hw : V !! c = Some w) by (unfold asked in Hx; look; [by rewrite Hvs in Hc|done|done]).
      destruct (H6 c w Hw Hc) as (q & [u Hu] & Hin). exists q. split.
      * unfold asked. destruct (decide (s = q)) as [->|]; [rewrite lookup_insert_eq; by eexists|rewrite lookup_insert_ne by done].
        destruct (decide (p = q)) as [->|]; [rewrite lookup_insert_eq; by eexists|by rewrite lookup_insert_ne, Hu by done].
      * destruct (decide (q = s)) as [->|]; [rewrite set_q_eq; by right|by rewrite set_q_ne].
  - intros p1 p2 c [v1 Hv1]%Hd [v2 Hv2]%Hd. unfold set_q. destruct (decide (p1 = s)) as [->|], (decide (p2 = s)) as [->|]; [done| | |eauto].
    + intros [->|Hc1]%elem_of_cons Hc2; [by destruct (Hn p2 v2)|eauto].
    + intros Hc1 [->|Hc2]%elem_of_cons; [by destruct (Hn p1 v1)|eauto].
Qed.

(** The head of a queue is sent away. *)
Definition refused (v : conn) : conn := Conn SOCKET_CREATED (c_peer v) (c_queue v) 0.
Definition with_queue (h : Z) (v : conn) : conn := Conn (c_state v) (c_peer v) h (c_next v).
Definition dequeued (V : gmap Z conn) (s c : Z) (vs vc : conn) : gmap Z conn :=
  <[c := refused vc]> (<[s := with_queue (c_next vc) vs]> V).

Lemma conn_queue_head V Q s vs c l :
  conn_ok V Q -> V !! s = Some vs -> c_state vs <> SOCKET_CONNECTING -> Q s = c :: l -> exists vc,
  c_queue vs = c /\ V !! c = Some vc /\ c_state vc = SOCKET_CONNECTING /\ c <> s /\ c ∉ l /\ s ∉ l /\ chain V c_next (c_next vc) l.
Proof.
  intros Hok Hs Hst Hq. pose proof (co_queue _ _ Hok s vs Hs) as Hc. rewrite Hq in Hc. pose proof (chain_nodup _ _ _ _ Hc) as Hn.
  destruct Hc as (E & _ & vc & Hvc & Hc). destruct (co_wait _ _ Hok s vs c Hs) as (w & Hw & Ew); [rewrite Hq; by left|].
  assert (w = vc) as -> by congruence. exists vc. apply NoDup_cons in Hn as [Hcl _].
  assert (Hsl : s ∉ c :: l) by (rewrite <- Hq; by eapply conn_not_in). apply not_elem_of_cons in Hsl as [Hsc Hsl]. done.
Qed.

Lemma conn_dequeued V Q s c vs vc l :
  conn_ok V Q -> V !! s = Some vs -> c_state vs <> SOCKET_CONNECTING -> Q s = c :: l -> V !! c = Some vc ->
  conn_ok (dequeued V s c vs vc) (set_q Q s l).
Proof.
  intros Hok Hs Hst Hq Hvc. destruct (conn_queue_head V Q s vs c l Hok Hs Hst Hq) as (vc' & Hh & Hvc' & Ew & Hcs & Hcl & Hsl & Hch).
  assert (vc' = vc) as -> by congruence. clear Hvc'. pose proof Hok as [H0 H1 H2 H3 H4 H5 H6 H7].
  assert (Hcp : c_peer vc = 0) by (eapply conn_state_cases; [done|done|by rewrite Ew]).
  assert (Hin : forall x w, V !! x = Some w -> c ∈ Q x -> x = s).
  { intros x w Hx Hc. apply (H7 x s c); [by eexists|by eexists|done|]. rewrite Hq. by left. }
  assert (Hsn : forall x w, V !! x = Some w -> s ∉ Q x) by (intros x w; by eapply conn_not_in).
  assert (Hold : forall x v, dequeued V s c vs vc !! x = Some v -> exists w, V !! x = Some w /\ c_peer v = c_peer w /\
    (c_state v = SOCKET_CONNECTING -> x <> c /\ c_state w = SOCKET_CONNECTING)).
  { unfold dequeued. intros x v Hx. look; [exists vc; done|exists vs; done|exists v; done]. }
  assert (Hd : forall x w, V !! x = Some w -> exists v, dequeued V s c vs vc !! x = Some v /\ c_peer v = c_peer w /\
    (x <> c -> c_state v = c_state w)).
  { intros x w Hx. unfold dequeued. destruct (decide (c = x)) as [<-|Hne].
    - eexists. rewrite lookup_insert_eq. split; [done|]. assert (w = vc) as -> by congruence. done.
    - rewrite lookup_insert_ne by done. destruct (decide (s = x)) as [<-|].
      + eexists. rewrite lookup_insert_eq. split; [done|]. by assert (w = vs) as -> by congruence.
      + exists w. by rewrite lookup_insert_ne. }
  assert (Hsub : forall x y, y ∈ set_q Q s l x -> y ∈ Q x /\ (x = s -> y <> c)).
  { intros x y. unfold set_q. destruct (decide (x = s)) as [->|]; [|done]. intros Hy. rewrite Hq. split; [by right|]. intros _ ->. done. }
  split.
  - intros x v Hx. destruct (Hold x v Hx) as (w & Hw & _). eauto.
  - unfold dequeued. intros x v Hx. look; cbn; [done|by apply (H1 x vs)|by eapply H1].
  - intros x v Hx Hne. destruct (Hold x v Hx) as (w & Hw & E & _). rewrite E in Hne |- *.
    destruct (H2 x w Hw Hne) as (Hd' & u & Hu & Eu). split; [done|]. destruct (Hd _ u Hu) as (u' & Hu' & E' & _). exists u'. split; [done|congruence].
  - unfold dequeued. intros x v Hx. look; cbn; [rewrite Hcp; by split|by apply (H3 x vs)|by apply (H3 x v)].
  - intros x v Hx. assert (Hn : forall y h, c ∉ y -> s ∉ y -> chain V c_next h y -> chain (dequeued V s c vs vc) c_next h y).
    { intros y h Hc1 Hs1 Hc2. unfold dequeued. apply chain_other; [done|]. by apply chain_other. }
    destruct (decide (x = s)) as [->|Hxs].
    + unfold dequeued in Hx. rewrite lookup_insert_ne, lookup_insert_eq in Hx by done. injection Hx as <-. rewrite set_q_eq. by apply Hn.
    + rewrite set_q_ne by done. assert (Hw : exists w, V !! x = Some w /\ c_queue v = c_queue w) by (unfold dequeued in Hx; look; [by exists vc|done|by exists v]).
      destruct Hw as (w & Hw & ->). apply Hn; [intros Hc; apply Hxs; by eapply Hin|by eapply Hsn|by apply H4].
  - intros x v y Hx Hy. destruct (Hold x v Hx) as (w & Hw & _). apply Hsub in Hy as [Hy Hyc].
    destruct (H5 x w y Hw Hy) as (u & Hu & Eu). destruct (Hd y u Hu) as (u' & Hu' & _ & E'). exists u'. split; [done|]. rewrite <- Eu. apply E'.
    intros ->. apply Hyc; [by eapply Hin|done].
  - intros y v Hy Hw. destruct (Hold y v Hy) as (w & Hw' & _ & E). destruct (E Hw) as [Hyc Ew']. destruct (H6 y w Hw' Ew') as (q & [u Hu] & Hin').
    exists q. destruct (Hd q u Hu) as (u' & Hu' & _). split; [by eexists|]. unfold set_q. destruct (decide (q = s)) as [->|]; [|done].
    rewrite Hq in Hin'. by apply elem_of_cons in Hin' as [->|].
  - intros p1 p2 y [v1 Hv1] [v2 Hv2] [Hy1 _]%Hsub [Hy2 _]%Hsub. destruct (Hold _ _ Hv1) as (w1 & ? & _), (Hold _ _ Hv2) as (w2 & ? & _).
    apply (H7 p1 p2 y); by try eexists.
Qed.

(** Two sockets outside the queues that have each other or nobody as their
    peer, before and after. *)
Definition mates (a b : Z) (va vb : conn) : Prop :=
  (c_peer va = 0 /\ c_peer vb = 0 /\ c_state va <> SOCKET_CONNECTED /\ c_state vb <> SOCKET_CONNECTED) \/
  (c_peer va = b /\ c_peer vb = a /\ c_state va = SOCKET_CONNECTED /\ c_state vb = SOCKET_CONNECTED).
Definition outside (v : conn) : Prop := 0 <= c_state v < SOCKET_CONNECTING.

Lemma conn_two V Q a b va vb va' vb' :
  conn_ok V Q -> V !! a = Some va -> V !! b = Some vb -> a <> b ->
  outside va -> outside vb -> outside va' -> outside vb' -> mates a b va vb -> mates a b va' vb' ->
  c_queue va' = c_queue va -> c_queue vb' = c_queue vb -> conn_ok (<[a := va']> (<[b := vb']> V)) Q.
Proof.
  intros Hok Ha Hb Hab Oa Ob Oa' Ob' Hm Hm' Ea Eb. pose proof Hok as [H0 H1 H2 H3 H4 H5 H6 H7]. unfold outside, SOCKET_CONNECTING in *.
  assert (Ha0 : a <> 0) by eauto. assert (Hb0 : b <> 0) by eauto.
  assert (Hna : forall x w, V !! x = Some w -> a ∉ Q x) by (intros x w; eapply conn_not_in; [done|done|unfold SOCKET_CONNECTING; lia]).
  assert (Hnb : forall x w, V !! x = Some w -> b ∉ Q x) by (intros x w; eapply conn_not_in; [done|done|unfold SOCKET_CONNECTING; lia]).
  set (V' := <[a := va']> (<[b := vb']> V)).
  assert (Va : V' !! a = Some va') by (apply lookup_insert_eq).
  assert (Vb : V' !! b = Some vb') by (unfold V'; by rewrite lookup_insert_ne, lookup_insert_eq).
  assert (Hlk : forall x w, V !! x = Some w -> x <> a -> x <> b -> V' !! x = Some w).
  { intros x w Hx Hxa Hxb. unfold V'. by rewrite !lookup_insert_ne. }
  assert (Hold : forall x v, V' !! x = Some v -> exists w, V !! x = Some w /\ c_queue v = c_queue w /\ (c_state v = 3 -> c_state w = 3)).
  { unfold V'. intros x v Hx. look; [exists va|exists vb|by exists v]; split_and!; try done; lia. }
  assert (Hd : forall x w, V !! x = Some w -> is_Some (V' !! x)).
  { intros x w Hx. unfold V'. destruct (decide (a = x)) as [->|]; [rewrite lookup_insert_eq; by eexists|rewrite lookup_insert_ne by done].
    destruct (decide (b = x)) as [->|]; [rewrite lookup_insert_eq; by eexists|by rewrite lookup_insert_ne, Hx by done]. }
  split.
  - intros x v Hx. destruct (Hold x v Hx) as (w & Hw & _). eauto.
  - unfold V'. intros x v Hx. unfold SOCKET_CONNECTING. look; [lia|lia|by eapply H1].
  - intros x v Hx Hne. assert (Hm2 := Hm'). destruct (decide (x = a)) as [->|Hxa]; [|destruct (decide (x = b)) as [->|Hxb]].
    + assert (v = va') as -> by congruence. destruct Hm2 as [(? & _)|(-> & ? & _)]; [done|]. split; [done|]. by exists vb'.
    + assert (v = vb') as -> by congruence. destruct Hm2 as [(_ & ? & _)|(? & -> & _)]; [done|]. split; [done|]. by exists va'.
    + unfold V' in Hx. rewrite !lookup_insert_ne in Hx by done. destruct (H2 x v Hx Hne) as (Hd' & w & Hw & E). split; [done|]. exists w.
      pose proof (H0 x v Hx). split; [|done]. apply Hlk; [done|intros E'|intros E']; rewrite E' in Hw; unfold mates in Hm; naive_solver.
  - intros x v Hx. unfold mates in Hm'. unfold V' in Hx. look; [| |by apply (H3 x v)]; naive_solver.
  - intros x v Hx. destruct (Hold x v Hx) as (w & Hw & -> & _). unfold V'.
    apply chain_other; [by eapply Hna|]. apply chain_other; [by eapply Hnb|eauto].
  - intros x v c Hx Hin. destruct (Hold x v Hx) as (w & Hw & _). destruct (H5 x w c Hw Hin) as (u & Hu & E). exists u. split; [|done].
    apply Hlk; [done| |]; intros ->; [exact (Hna x w Hw Hin)|exact (Hnb x w Hw Hin)].
  - intros c v Hc Hs. destruct (Hold c v Hc) as (w & Hw & _ & E). destruct (H6 c w Hw (E Hs)) as (q & [u Hu] & Hin).
    exists q. split; [by eapply Hd|done].
  - intros p1 p2 y [v1 Hv1] [v2 Hv2]. destruct (Hold _ _ Hv1) as (w1 & ? & _), (Hold _ _ Hv2) as (w2 & ? & _). apply H7; by eexists.
Qed.

(** Two free sockets become peers. *)
Definition joined (q : Z) (v : conn) : conn := Conn SOCKET_CONNECTED q (c_queue v) (c_next v).
Lemma conn_paired V Q a b va vb :
  conn_ok V Q -> V !! a = Some va -> V !! b = Some vb -> a <> b -> c_state va = SOCKET_CREATED -> c_state vb = SOCKET_CREATED ->
  conn_ok (<[a := joined b va]> (<[b := joined a vb]> V)) Q.
Proof.
  intros Hok Ha Hb Hab Hsa Hsb. assert (c_peer va = 0) by (eapply conn_state_cases; [done|done|by rewrite Hsa]).
  assert (c_peer vb = 0) by (eapply conn_state_cases; [done|done|by rewrite Hsb]).
  apply (conn_two V Q a b va vb); try done; unfold outside, mates; rewrite ?Hsa, ?Hsb; try done; [by left|by right].
Qed.

(** A socket leaves its peer: both are free again. *)
Definition freed (v : conn) : conn := Conn SOCKET_CREATED 0 (c_queue v) (c_next v).
Lemma conn_parted V Q a b va vb :
  conn_ok V Q -> V !! a = Some va -> V !! b = Some vb -> c_peer va = b -> b <> 0 -> conn_ok (<[a := freed va]> (<[b := freed vb]> V)) Q.
Proof.
  intros Hok Ha Hb Hab Hb0. pose proof Hok as [H0 H1 H2 H3 H4 H5 H6 H7].
  assert (Hsa : c_state va = SOCKET_CONNECTED) by (apply (H3 a va Ha); by rewrite Hab).
  destruct (H2 a va Ha) as (Hne & vb' & Hvb' & Eb); [by rewrite Hab|]. rewrite Hab in Hne, Hvb'. assert (vb' = vb) as -> by congruence.
  assert (Hsb : c_state vb = SOCKET_CONNECTED) by (apply (H3 b vb Hb); rewrite Eb; eauto).
  apply (conn_two V Q a b va vb); try done; unfold outside, mates; rewrite ?Hsa, ?Hsb; try done; [by right|by left].
Qed.

(** A socket without peer and clients goes away. *)
Lemma conn_deleted V Q p v :
  conn_ok V Q -> V !! p = Some v -> c_state v <> SOCKET_CONNECTING -> c_peer v = 0 -> Q p = [] -> conn_ok (delete p V) Q.
Proof.
  intros Hok Hp Hs Hpeer Hq. pose proof Hok as [H0 H1 H2 H3 H4 H5 H6 H7].
  assert (Hn : forall x w, V !! x = Some w -> p ∉ Q x) by (intros x w; by eapply conn_not_in).
  assert (Hlk : forall x w, delete p V !! x = Some w <-> p <> x /\ V !! x = Some w) by (intros x w; apply lookup_delete_Some).
  split.
  - intros x w [_ Hx]%Hlk. eauto.
  - intros x w [_ Hx]%Hlk. eauto.
  - intros x w [Hpx Hx]%Hlk Hne. destruct (H2 x w Hx Hne) as (Hd & u & Hu & E). split; [done|]. exists u. split; [|done]. apply Hlk.
    split; [|done]. intros E'. rewrite <- E' in Hu. assert (u = v) as -> by congruence. pose proof (H0 x w Hx). congruence.
  - intros x w [_ Hx]%Hlk. by apply (H3 x w).
  - intros x w [_ Hx]%Hlk. apply chain_delete; [by eapply Hn|eauto].
  - intros x w c [_ Hx]%Hlk Hin. destruct (H5 x w c Hx Hin) as (u & Hu & E). exists u. split; [|done]. apply Hlk. split; [|done].
    intros <-. exact (Hn x w Hx Hin).
  - intros c w [_ Hc]%Hlk Hw. destruct (H6 c w Hc Hw) as (q & [u Hu] & Hin). exists q. split; [|done]. exists u. apply Hlk. split; [|done].
    intros <-. rewrite Hq in Hin. by apply elem_of_nil in Hin.
  - intros p1 p2 y [v1 [_ Hv1]%Hlk] [v2 [_ Hv2]%Hlk]. apply H7; by eexists.
Qed.

Lemma conn_ext V Q Q' : (forall x, Q x = Q' x) -> conn_ok V Q -> conn_ok V Q'.
Proof.
  intros E [H0 H1 H2 H3 H4 H5 H6 H7]. split; try done; intros *; rewrite <- ?E; eauto.
  intros Hc Hw. destruct (H6 _ _ Hc Hw) as (q & Hq & Hin). exists q. by rewrite <- E.
Qed.
(** The clients of [l] are sent away. *)
Definition refuse_conns (l : list Z) (V : gmap Z conn) : gmap Z conn := foldl (fun V c => alter refused c V) V l.

Lemma refuse_lookup l V x : NoDup l -> refuse_conns l V !! x = if decide (x ∈ l) then refused <$> V !! x else V !! x.
Proof.
  revert V. induction l as [|c l IH]; intros V; cbn [refuse_conns foldl]; [by rewrite decide_False by apply not_elem_of_nil|].
  intros [Hc Hn]%NoDup_cons. unfold refuse_conns in IH. rewrite IH by done. destruct (decide (x = c)) as [->|Hxc].
  - rewrite decide_False, decide_True by (done || by left). apply lookup_alter_eq.
  - rewrite lookup_alter_ne by done. destruct (decide (x ∈ l)); [rewrite decide_True by (by right)|rewrite decide_False]; try done.
    rewrite not_elem_of_cons. done.
Qed.
Lemma refuse_delete l V p : p ∉ l -> delete p (refuse_conns l V) = refuse_conns l (delete p V).
Proof.
  revert V. induction l as [|c l IH]; intros V; cbn [refuse_conns foldl]; [done|]. rewrite not_elem_of_cons. intros [Hc Hl].
  unfold refuse_conns in IH. rewrite IH by done. by rewrite delete_alter_ne.
Qed.

(** After all clients of [p] have been sent away. *)
Lemma conn_emptied V Q p v :
  conn_ok V Q -> V !! p = Some v -> c_state v <> SOCKET_CONNECTING ->
  conn_ok (<[p := with_queue 0 v]> (refuse_conns (Q p) V)) (set_q Q p []).
Proof.
  remember (Q p) as l eqn:El. revert V Q v El. induction l as [|c l IH]; intros V Q v El Hok Hp Hs.
  - cbn. pose proof (co_queue _ _ Hok p v Hp) as Hc. rewrite <- El in Hc. cbn in Hc.
    assert (with_queue 0 v = v) as -> by (destruct v; cbn in *; by rewrite Hc). rewrite insert_id by done.
    apply (conn_ext _ Q); [|done]. intros x. unfold set_q. by destruct (decide (x = p)) as [->|].
  - destruct (conn_queue_head V Q p v c l Hok Hp Hs (eq_sym El)) as (vc & Hh & Hvc & Hw & Hcp & Hcl & Hpl & Hch).
    pose proof (conn_dequeued V Q p c v vc l Hok Hp Hs (eq_sym El) Hvc) as Hok'. unfold dequeued in Hok'.
    specialize (IH _ (set_q Q p l) (with_queue (c_next vc) v) ltac:(by rewrite set_q_eq) Hok').
    rewrite lookup_insert_ne, lookup_insert_eq in IH by done. specialize (IH eq_refl Hs).
    assert (E : <[c := refused vc]> (<[p := with_queue (c_next vc) v]> V) = <[p := with_queue (c_next vc) v]> (alter refused c V)).
    { rewrite insert_insert_ne by done. f_equal. by apply insert_as_alter. }
    rewrite E in IH. cbn [refuse_conns foldl].
    assert (Hd : <[p := with_queue 0 v]> (refuse_conns l (alter refused c V)) = <[p := with_queue 0 (with_queue (c_next vc) v)]> (refuse_conns l (<[p := with_queue (c_next vc) v]> (alter refused c V)))).
    { rewrite <- !(insert_delete_eq (refuse_conns l _) p). rewrite !refuse_delete by done. by rewrite delete_insert_eq. }
    unfold refuse_conns in Hd, IH |- *. rewrite Hd. eapply conn_ext; [|exact IH]. intros x. unfold set_q. by destruct (decide (x = p)).
Qed.

Definition leave (q : Z) (V : gmap Z conn) : gmap Z conn := if decide (q = 0) then V else alter freed q V.

(** A socket closes: its clients are sent away and its peer is left alone. *)
Lemma conn_closed V Q p v :
  conn_ok V Q -> V !! p = Some v -> c_state v <> SOCKET_CONNECTING ->
  conn_ok (leave (c_peer v) (refuse_conns (Q p) (delete p V))) (set_q Q p []).
Proof.
  intros Hok Hp Hs. pose proof (conn_emptied V Q p v Hok Hp Hs) as Hok1.
  assert (Hpq : p ∉ Q p) by by eapply conn_not_in.
  set (V1 := <[p := with_queue 0 v]> (refuse_conns (Q p) V)) in *. assert (Hp1 : V1 !! p = Some (with_queue 0 v)) by apply lookup_insert_eq.
  assert (Hd : delete p V1 = refuse_conns (Q p) (delete p V)) by (unfold V1; by rewrite delete_insert_eq, refuse_delete).
  rewrite <- Hd. unfold leave. destruct (decide (c_peer v = 0)) as [E|E].
  - apply (conn_deleted V1 _ p (with_queue 0 v)); try done. by rewrite set_q_eq.
  - destruct (co_peer _ _ Hok1 p _ Hp1 E) as (Hne & w & Hw & _). cbn in Hne, Hw.
    pose proof (conn_parted V1 _ p (c_peer v) _ w Hok1 Hp1 Hw eq_refl E) as Hok2.
    eapply (conn_deleted _ _ p) in Hok2; [|apply lookup_insert_eq|done|done|by rewrite set_q_eq].
    rewrite delete_insert_eq, delete_insert_ne in Hok2 by done. by rewrite (insert_as_alter freed _ w) in Hok2 by by rewrite lookup_delete_ne.
Qed.
