(* ===== verification/LocalInv.v ===== *)
(** * Operations on local sockets

    What the store of local sockets has to satisfy besides the connections
    ([base_ok]), and each operation of [af_local.c] as a computation: which
    state it ends in and what it returns.  Between operations every lock is
    free, so a lock that is taken and given back leaves no trace. *)

From Stdlib Require Import ZArith Lia.
From stdpp Require Import base tactics list gmap fin_maps.
From S2P Require Import Prelude Chains Bytes NetBase Net Tcp Local NetInv NetIp NetSock SockThms LocalConn.

(** ** The store *)

Record local_sock (brk : Z) (l : list Z) (p : Z) (k : socket) : Prop := {
  lk_ok : sock_ok k;
  lk_fam : family k = AF_LOCAL;
  lk_free : so_lock k = false;
  lk_addr : 0 < p < brk;
  lk_ring : is_Some (rx_buffer k);
  lk_bound : p ∈ l -> local_addr_len k <> 0
}.

Record base_ok (s : net) (l : list Z) : Prop := {
  bo_lock : g_socket_list_lock s = false;
  bo_chain : chain (socks s) global_next (g_bound_sockets_head s) l;
  bo_brk : 0 < n_brk s;
  bo_socks : forall p k, socks s !! p = Some k -> local_sock (n_brk s) l p k
}.

Lemma base_sk s l p k k' :
  base_ok s l -> socks s !! p = Some k -> local_sock (n_brk s) l p k' -> global_next k' = global_next k -> base_ok (sk p k' s) l.
Proof.
  intros [Hl Hc Hb Hs] Hk Hk' Hg. split; cbn; [done|by eapply chain_keep|done|].
  intros x j Hx. apply lookup_insert_Some in Hx as [[<- <-]|[_ Hx]]; auto.
Qed.
Lemma base_woken s l w : base_ok s l -> base_ok (set_woken w s) l.
Proof. by intros [? ? ? ?]; split. Qed.

(** Two updates. *)
Lemma sk_comm p q a b s : p <> q -> sk p a (sk q b s) = sk q b (sk p a s).
Proof. intros H. unfold sk, set_socks. cbn [socks]. by rewrite insert_insert_ne. Qed.
Lemma sk_other p q k s : p <> q -> socks (sk p k s) !! q = socks s !! q.
Proof. intros H. cbn. by rewrite lookup_insert_ne. Qed.

(** ** Locks *)

Lemma wp_lock_look s p k (Q : socket -> net -> Prop) :
  socks s !! p = Some k -> so_lock k = false -> Q (set_so_lock true k) (sk p (set_so_lock true k) s) ->
  wp (sock_lock p ;;; socket_at p) Q s.
Proof. intros Hk Hl HQ. wp_steps. eapply wp_sock_lock; [done..|]. eapply wp_socket_at; [apply sk_lookup|done]. Qed.

Section pair.
Context (s : net) (p q : Z) (kp kq : socket).
Hypotheses (Hpq : p <> q) (Hp : socks s !! p = Some kp) (Hq : socks s !! q = Some kq).

Definition both (kp' kq' : socket) : net := sk p kp' (sk q kq' s).

Lemma both_p a b : socks (both a b) !! p = Some a.
Proof using. apply sk_lookup. Qed.
Lemma both_q a b : socks (both a b) !! q = Some b.
Proof using Hpq. unfold both. rewrite sk_other by done. apply sk_lookup. Qed.
Lemma both_set_p a b a' : sk p a' (both a b) = both a' b.
Proof using. apply sk_sk. Qed.
Lemma both_set_q a b b' : sk q b' (both a b) = both a b'.
Proof using Hpq. unfold both. rewrite sk_comm, sk_sk by done. done. Qed.
Lemma both_id : both kp kq = s.
Proof using All. unfold both. rewrite (sk_id s q kq) by done. by apply sk_id. Qed.

Lemma wp_at_p a b (Q : socket -> net -> Prop) : Q a (both a b) -> wp (socket_at p) Q (both a b).
Proof using. intros. eapply wp_socket_at; [apply both_p|done]. Qed.
Lemma wp_at_q a b (Q : socket -> net -> Prop) : Q b (both a b) -> wp (socket_at q) Q (both a b).
Proof using Hpq. intros. eapply wp_socket_at; [apply both_q|done]. Qed.
Lemma wp_on_p a b f (Q : unit -> net -> Prop) : Q tt (both (f a) b) -> wp (on_socket p f) Q (both a b).
Proof using. intros. eapply wp_on_socket; [apply both_p|]. by rewrite both_set_p. Qed.
Lemma wp_on_q a b f (Q : unit -> net -> Prop) : Q tt (both a (f b)) -> wp (on_socket q f) Q (both a b).
Proof using Hpq. intros. eapply wp_on_socket; [apply both_q|]. by rewrite both_set_q. Qed.

Lemma wp_lock_pair (Q : unit -> net -> Prop) :
  so_lock kp = false -> so_lock kq = false -> Q tt (both (set_so_lock true kp) (set_so_lock true kq)) -> wp (af_local_lock_pair p q) Q s.
Proof using All.
  intros Lp Lq HQ. rewrite <- both_id. unfold af_local_lock_pair. rewrite (proj2 (Z.eqb_neq _ _) Hpq).
  destruct (p <? q); wp_steps.
  - eapply wp_sock_lock; [apply both_p|done|]. rewrite both_set_p. eapply wp_sock_lock; [apply both_q|done|]. by rewrite both_set_q.
  - eapply wp_sock_lock; [apply both_q|done|]. rewrite both_set_q. eapply wp_sock_lock; [apply both_p|done|]. by rewrite both_set_p.
Qed.

Lemma wp_unlock_pair a b (Q : unit -> net -> Prop) :
  Q tt (both (set_so_lock false a) (set_so_lock false b)) -> wp (af_local_unlock_pair p q) Q (both a b).
Proof using Hpq.
  intros HQ. unfold af_local_unlock_pair, sock_unlock. rewrite (proj2 (Z.eqb_neq _ _) Hpq).
  destruct (p <? q); wp_steps.
  - apply wp_on_q, wp_on_p. done.
  - apply wp_on_p, wp_on_q. done.
Qed.

End pair.

Lemma relocked k : so_lock k = false -> set_so_lock false (set_so_lock true k) = k.
Proof. destruct k. cbn. by intros ->. Qed.

(** ** Addresses *)

Definition has_address (fam : Z) (addr : list Z) (k : socket) : bool :=
  (family k =? fam) && (local_addr_len k =? zlen addr) && bool_decide (take (length addr) (local_addr k) = addr).

(** The socket that is found for an address. *)
Definition address_of (s : net) (l : list Z) (addr : list Z) : Z :=
  if (zlen addr =? 0) || (256 <? zlen addr) then 0 else first_sock (socks s) (has_address AF_LOCAL addr) l.

Lemma same_address_ok fam addr k (s : net) :
  zlen addr <= 256 -> sock_ok k -> same_address fam addr k s = Ok (has_address fam addr k, s).
Proof.
  intros Hl Hk. unfold same_address, has_address. destruct (_ && _); [|done]. unfold bytes_out, zlen in *.
  rewrite (so_local _ Hk), (proj2 (Z.leb_le _ _)) by lia. cbn. by rewrite Nat2Z.id.
Qed.

Lemma wp_search_address (s : net) l f g (Q : Z -> net -> Prop) :
  base_ok s l -> (forall k, sock_ok k -> f k (set_slist_lock true s) = Ok (g k, set_slist_lock true s)) ->
  Q (first_sock (socks s) g l) (set_slist_lock true s) ->
  wp (find_socket (size (socks s)) f (g_bound_sockets_head s)) Q (set_slist_lock true s).
Proof.
  intros [Hl Hc Hb Hs] Hf HQ. eapply wp_intro; [|exact HQ].
  apply (find_socket_ok _ _ g _ l (set_slist_lock true s)); [done|by eapply chain_size|].
  intros x k _ Hk. apply Hf. by apply (Hs x k).
Qed.

Lemma wp_find_address s l addr (Q : Z -> net -> Prop) :
  base_ok s l -> Q (address_of s l addr) s -> wp (socket_find_by_address addr AF_LOCAL) Q s.
Proof.
  intros Hb HQ. unfold socket_find_by_address, address_of in *. destruct ((zlen addr =? 0) || (256 <? zlen addr)) eqn:E; [by wp_steps|].
  apply orb_false_elim in E as [_ E%Z.ltb_ge]. unfold slist_lock, slist_unlock, socket_count. wp_steps. rewrite (bo_lock _ _ Hb). wp_steps.
  apply (wp_search_address s l _ (has_address AF_LOCAL addr) _ Hb); [intros k; by apply same_address_ok|]. wp_steps.
  by rewrite (unlock_list s (bo_lock _ _ Hb)).
Qed.

Lemma first_sock_in T g l : first_sock T g l = 0 \/ first_sock T g l ∈ l.
Proof.
  induction l as [|x l IH]; cbn; [by left|]. destruct (T !! x) as [k|]; [|by left]. destruct (g k); [right; by left|].
  destruct IH as [|H]; [by left|right; by right].
Qed.
Lemma address_of_live s l addr : base_ok s l -> address_of s l addr <> 0 -> address_of s l addr ∈ l /\ is_Some (socks s !! address_of s l addr).
Proof.
  intros Hb. unfold address_of. destruct (_ || _); [done|]. intros Hn. destruct (first_sock_in (socks s) (has_address AF_LOCAL addr) l) as [|H]; [done|].
  split; [done|]. eapply chain_lookup; [apply Hb|done].
Qed.

(** ** Connecting *)

Definition woke (p : Z) (s : net) : net := set_woken (woken_chans s ++ [p]) s.

Definition may_connect (kp kq : socket) : bool :=
  negb (so_state kp =? SOCKET_CLOSING) && negb (so_state kp =? SOCKET_CONNECTING) && negb (so_state kp =? SOCKET_CONNECTED) &&
  (so_state kq =? SOCKET_LISTENING).
Definition asking (kp kq : socket) : socket := set_so_next (listen_queue kq) (set_so_state SOCKET_CONNECTING kp).

Lemma wp_connect_wait s p k (Q : option Z -> net -> Prop) :
  socks s !! p = Some k -> so_lock k = false ->
  Q (if so_state k =? SOCKET_CONNECTING then None else Some (if so_state k =? SOCKET_CONNECTED then 0 else -1)) s ->
  wp (connect_wait p) Q s.
Proof.
  intros Hk Hl HQ. unfold connect_wait. wp_steps. eapply wp_sock_lock; [done..|]. wp_steps. eapply wp_socket_at; [apply sk_lookup|].
  wp_steps. eapply wp_sock_unlock; [apply sk_lookup|]. rewrite sk_sk, relocked, sk_id by done. wp_steps. exact HQ.
Qed.

Lemma wp_local_connect s l p addr kp (Q : option Z -> net -> Prop) :
  base_ok s l -> socks s !! p = Some kp -> zlen addr <> 0 ->
  (forall q, q = address_of s l addr ->
     if decide (q = 0 \/ q = p) then Q (Some (-1)) s else
     forall kq, socks s !! q = Some kq ->
     if may_connect kp kq then Q None (woke q (both s p q (asking kp kq) (set_listen_queue p kq))) else Q (Some (-1)) s) ->
  wp (af_local_connect p addr) Q s.
Proof.
  intros Hb Hp Ha HQ. pose proof (bo_socks _ _ Hb p kp Hp) as Kp. pose proof (lk_addr _ _ _ _ Kp). unfold af_local_connect.
  rewrite (proj2 (Z.eqb_neq p 0)), (proj2 (Z.eqb_neq _ _) Ha) by lia. cbn [orb]. wp_steps. apply (wp_find_address s l); [done|].
  specialize (HQ _ eq_refl). set (q := address_of s l addr) in *. wp_steps. unfold q in HQ |- *.
  destruct (decide _) as [Hd|Hd]; fold q in HQ, Hd |- *.
  { replace ((q =? 0) || (q =? p)) with true by (symmetry; apply orb_true_iff; rewrite !Z.eqb_eq; lia). by wp_steps. }
  apply Decidable.not_or in Hd as [Hq0 Hqp]. rewrite (proj2 (Z.eqb_neq _ _) Hq0), (proj2 (Z.eqb_neq _ _) Hqp). cbn [orb].
  destruct (address_of_live s l addr Hb Hq0) as [_ [kq Hq]]. fold q in Hq. specialize (HQ kq Hq). pose proof (bo_socks _ _ Hb q kq Hq) as Kq.
  pose proof (lk_free _ _ _ _ Kp) as Lp. pose proof (lk_free _ _ _ _ Kq) as Lq.
  wp_steps. apply (wp_lock_pair s p q kp kq); try done. wp_steps. apply wp_at_p. wp_steps. apply wp_at_q; [done|].
  change (so_state (set_so_lock true kp)) with (so_state kp). change (so_state (set_so_lock true kq)) with (so_state kq).
  replace (_ || _ || _ || negb _) with (negb (may_connect kp kq)) by (unfold may_connect; rewrite !negb_andb, !negb_involutive; done).
  assert (Hun : both s p q (set_so_lock false (set_so_lock true kp)) (set_so_lock false (set_so_lock true kq)) = s).
  { rewrite !relocked by done. by apply both_id. }
  destruct (may_connect kp kq) eqn:Em; cbn [negb].
  - assert (Hl : (so_state kq =? SOCKET_CLOSING) = false).
    { unfold may_connect in Em. apply andb_prop in Em as [_ Em%Z.eqb_eq]. by rewrite Em. }
    rewrite Hl. wp_steps. apply wp_on_p. wp_steps. apply wp_on_p. wp_steps. apply wp_on_q; [done|]. wp_steps.
    apply wp_unlock_pair; [done|]. unfold wakeup_sock. wp_steps. eapply wp_connect_wait; [apply both_p|done|].
    change (set_so_lock false (set_so_next _ _)) with (asking (set_so_lock false (set_so_lock true kp)) kq).
    change (set_so_lock false (set_listen_queue p _)) with (set_listen_queue p (set_so_lock false (set_so_lock true kq))).
    rewrite !relocked by done. exact HQ.
  - wp_steps. apply wp_unlock_pair; [done|]. rewrite Hun. wp_steps. exact HQ.
Qed.

(** ** Listening *)

Definition may_listen (k : socket) : bool :=
  negb (so_state k =? SOCKET_CLOSING) && negb (so_state k =? SOCKET_CONNECTED) && negb (so_state k =? SOCKET_CONNECTING).

Lemma wp_local_listen s l p k (Q : Z -> net -> Prop) :
  base_ok s l -> socks s !! p = Some k ->
  (if may_listen k then Q 0 (sk p (set_so_state SOCKET_LISTENING k) s) else Q (-1) s) -> wp (af_local_listen p) Q s.
Proof.
  intros Hb Hp HQ. pose proof (bo_socks _ _ Hb p k Hp) as K. pose proof (lk_addr _ _ _ _ K). pose proof (lk_free _ _ _ _ K) as L.
  unfold af_local_listen. rewrite (proj2 (Z.eqb_neq p 0)) by lia. wp_steps. eapply wp_sock_lock; [done..|]. wp_steps.
  eapply wp_socket_at; [apply sk_lookup|]. change (so_state (set_so_lock true k)) with (so_state k).
  replace (_ || _ || _) with (negb (may_listen k)) by (unfold may_listen; by rewrite !negb_andb, !negb_involutive).
  destruct (may_listen k); cbn [negb]; wp_steps.
  - eapply wp_on_socket; [apply sk_lookup|]. wp_steps. eapply wp_sock_unlock; [apply sk_lookup|]. rewrite !sk_sk. wp_steps.
    change (set_so_lock false _) with (set_so_state SOCKET_LISTENING (set_so_lock false (set_so_lock true k))). by rewrite relocked.
  - eapply wp_sock_unlock; [apply sk_lookup|]. rewrite sk_sk, relocked, sk_id by done. by wp_steps.
Qed.

(** ** Accepting *)

Definition created (ty : Z) : socket :=
  set_rx (Some (replicate (Z.to_nat SOCKET_BUFFER_SIZE) 0)) 0 0 (set_kind AF_LOCAL ty zero_socket).
Definition with_new (ty : Z) (s : net) : net :=
  sk (n_brk s) (created ty) (set_heap (n_brk s + SOCKET_T_SIZE + SOCKET_BUFFER_SIZE) (n_mem s - 2) s).

Lemma wp_new_socket s ty (Q : Z -> net -> Prop) :
  0 < n_brk s ->
  (if decide (2 <= n_mem s)%nat then Q (n_brk s) (with_new ty s) else forall b m, n_brk s <= b -> Q 0 (set_heap b m s)) ->
  wp (socket_create AF_LOCAL ty) Q s.
Proof.
  intros Hb HQ. unfold socket_create. change ((AF_LOCAL <? 0) || (4 <? AF_LOCAL)) with false. unfold n_kmalloc. wp_steps.
  destruct (n_mem s) as [|[|m]] eqn:Em; cbn [decide] in HQ.
  - wp_steps. rewrite decide_False in HQ by lia. specialize (HQ (n_brk s) 0%nat (Z.le_refl _)). rewrite <- Em in HQ. by destruct s.
  - rewrite decide_False in HQ by lia. wp_steps. rewrite (proj2 (Z.eqb_neq (n_brk s) 0)) by lia. unfold n_kfree. wp_steps.
    apply (HQ (n_brk s + SOCKET_T_SIZE) 1%nat). unfold SOCKET_T_SIZE. lia.
  - rewrite decide_True in HQ by lia. wp_steps. rewrite (proj2 (Z.eqb_neq (n_brk s) 0)) by lia. wp_steps. cbn [n_mem n_brk set_heap]. wp_steps.
    rewrite (proj2 (Z.eqb_neq (n_brk s + SOCKET_T_SIZE) 0)) by (unfold SOCKET_T_SIZE; lia). unfold put_socket. wp_steps.
    unfold with_new in HQ. rewrite Em in HQ. replace (S (S m) - 2)%nat with m in HQ by lia. exact HQ.
Qed.

(** Peers of each other. *)
Definition linked (q : Z) (k : socket) : socket := set_so_state SOCKET_CONNECTED (set_peer q k).

Lemma wp_open_session s c ty kc (Q : Z -> net -> Prop) :
  socks s !! c = Some kc -> so_lock kc = false -> so_state kc = SOCKET_CONNECTING -> 0 < c < n_brk s ->
  (if decide (2 <= n_mem s)%nat
   then Q (n_brk s) (woke c (both (with_new ty s) (n_brk s) c (linked c (created ty)) (linked (n_brk s) kc)))
   else forall b m, n_brk s <= b -> Q 0 (woke c (sk c (set_so_next 0 (set_so_state SOCKET_CREATED kc)) (set_heap b m s)))) ->
  wp (open_session c ty) Q s.
Proof.
  intros Hc Hl Hst Hcb HQ. unfold open_session. wp_steps. apply wp_new_socket; [lia|]. destruct (decide (2 <= n_mem s)%nat).
  - rewrite (proj2 (Z.eqb_neq (n_brk s) 0)) by lia. wp_steps. assert (Hne : n_brk s <> c) by lia.
    apply (wp_lock_pair _ _ _ (created ty) kc); [done|apply sk_lookup|by unfold with_new; rewrite sk_other|done|done|].
    wp_steps. apply wp_at_q; [done|]. wp_steps. apply wp_at_p. change (so_state (set_so_lock true kc)) with (so_state kc). rewrite Hst.
    change (negb (SOCKET_CONNECTING =? SOCKET_CONNECTING) || (so_state (set_so_lock true (created ty)) =? SOCKET_CLOSING)) with false.
    cbn beta iota. wp_steps. apply wp_on_p. wp_steps. apply wp_on_q; [done|]. wp_steps. apply wp_on_p. wp_steps. apply wp_on_q; [done|].
    unfold wakeup_sock. wp_steps. change (set_woken ?w (both ?s ?p ?q ?a ?b)) with (both (set_woken w s) p q a b).
    apply wp_unlock_pair; [done|]. wp_steps.
    change (set_so_lock false (set_so_state _ (set_peer _ (set_so_lock true kc)))) with (linked (n_brk s) (set_so_lock false (set_so_lock true kc))).
    rewrite relocked by done. exact HQ.
  - intros b m Hb. change (0 =? 0) with true. cbn beta iota. wp_steps. eapply wp_sock_lock; [exact Hc|done|]. wp_steps. eapply wp_socket_at; [apply sk_lookup|].
    change (so_state (set_so_lock true kc)) with (so_state kc). rewrite Hst. change (SOCKET_CONNECTING =? SOCKET_CONNECTING) with true.
    cbn beta iota. wp_steps. eapply wp_on_socket; [apply sk_lookup|]. wp_steps. eapply wp_on_socket; [apply sk_lookup|]. unfold wakeup_sock.
    wp_steps. eapply wp_sock_unlock; [apply sk_lookup|]. wp_steps. change (sk c ?x (set_woken ?w ?t)) with (set_woken w (sk c x t)).
    rewrite !sk_sk.
    change (set_so_lock false (set_so_next 0 _)) with (set_so_next 0 (set_so_state SOCKET_CREATED (set_so_lock false (set_so_lock true kc)))).
    rewrite relocked by done. exact (HQ b m Hb).
Qed.

(** The queue after its head [c] has been taken. *)
Definition popped (s : net) (p c : Z) (k kc : socket) : net := both s p c (set_listen_queue (so_next kc) k) (set_so_next 0 kc).

Lemma wp_local_accept s l p k (Q : option Z -> net -> Prop) :
  base_ok s l -> socks s !! p = Some k ->
  (if so_state k =? SOCKET_LISTENING then
     if listen_queue k =? 0 then Q None s else
     exists kc, socks s !! listen_queue k = Some kc /\ listen_queue k <> p /\
       wp (open_session (listen_queue k) (so_type k)) (fun r => Q (Some r)) (popped s p (listen_queue k) k kc)
   else Q (Some 0) s) ->
  wp (af_local_accept p) Q s.
Proof.
  intros Hb Hp HQ. pose proof (bo_socks _ _ Hb p k Hp) as K. pose proof (lk_addr _ _ _ _ K). pose proof (lk_free _ _ _ _ K) as L.
  unfold af_local_accept. rewrite (proj2 (Z.eqb_neq p 0)) by lia. wp_steps. eapply wp_sock_lock; [done..|]. wp_steps.
  eapply wp_socket_at; [apply sk_lookup|]. change (so_state (set_so_lock true k)) with (so_state k).
  change (listen_queue (set_so_lock true k)) with (listen_queue k). change (so_type (set_so_lock true k)) with (so_type k).
  destruct (so_state k =? SOCKET_LISTENING); [destruct (listen_queue k =? 0)|rewrite andb_false_r]; cbn [andb negb].
  - wp_steps. eapply wp_sock_unlock; [apply sk_lookup|]. rewrite sk_sk, relocked, sk_id by done. by wp_steps.
  - destruct HQ as (kc & Hc & Hcp & HQ). wp_steps. eapply wp_socket_at; [rewrite sk_other by done; exact Hc|]. wp_steps.
    eapply wp_on_socket; [apply sk_lookup|]. rewrite sk_sk. wp_steps. eapply wp_on_socket; [rewrite sk_other by done; exact Hc|]. wp_steps.
    rewrite sk_comm by done. eapply wp_sock_unlock; [apply sk_lookup|]. rewrite sk_sk. wp_steps.
    change (set_so_lock false _) with (set_listen_queue (so_next kc) (set_so_lock false (set_so_lock true k))). rewrite relocked by done.
    eapply wp_mono; [exact HQ|]. intros r s' Hr. by wp_steps.
  - wp_steps. eapply wp_sock_unlock; [apply sk_lookup|]. rewrite sk_sk, relocked, sk_id by done. by wp_steps.
Qed.

(** ** Sending *)

Definition ring_room (k : socket) : Z := SOCKET_BUFFER_SIZE - 1 - zlen (stream k).

Lemma wp_ring_fill bs : forall buf h t c (Q : list Z * Z * Z -> net -> Prop) s,
  ring_ok buf h t ->
  (forall buf' h' m, m = Nat.min (length bs) (Z.to_nat (SOCKET_BUFFER_SIZE - 1 - ring_used h t)) ->
     ring_ok buf' h' t -> ring_data buf' h' t = ring_data buf h t ++ take m bs -> Q (buf', h', c + Z.of_nat m) s) ->
  wp (ring_fill bs buf h t c) Q s.
Proof.
  induction bs as [|b bs IH]; intros buf h t c Q s Ho HQ; cbn [ring_fill].
  - wp_steps. replace c with (c + Z.of_nat 0) by lia. apply (HQ buf h); [done|done|]. by rewrite app_nil_r.
  - pose proof Ho as [Hl Hh Ht]. rewrite u32_small by (unfold SOCKET_BUFFER_SIZE in *; lia).
    assert (Hr : 0 <= ring_used h t < SOCKET_BUFFER_SIZE) by (apply Z.mod_pos_bound; done).
    destruct (Z.eqb_spec ((h + 1) mod SOCKET_BUFFER_SIZE) t) as [E|E].
    + assert (Eu : ring_used h t = SOCKET_BUFFER_SIZE - 1) by (unfold ring_used, SOCKET_BUFFER_SIZE in *; zdiv_lia).
      wp_steps. replace c with (c + Z.of_nat 0) by lia. apply (HQ buf h); [cbn [length]; lia|done|]. by rewrite app_nil_r.
    + assert (Hu : ring_used h t < SOCKET_BUFFER_SIZE - 1) by (unfold ring_used, SOCKET_BUFFER_SIZE in *; zdiv_lia).
      destruct (ring_push1 buf h t b Ho Hu) as (Ho' & Hu' & Hd'). wp_steps. apply wp_upd; [lia|]. wp_steps.
      apply IH; [done|]. intros buf' h' m Em Hok Hd. rewrite Hu' in Em.
      replace (c + 1 + Z.of_nat m) with (c + Z.of_nat (S m)) by lia. apply HQ; [cbn [length]; lia|done|]. by rewrite Hd, Hd', <- app_assoc.
Qed.

(** Where the bytes go; 0 for nowhere. *)
Definition dest_of (s : net) (l : list Z) (k : socket) (dest : list Z) : Z :=
  if (so_state k =? SOCKET_CONNECTED) && negb (peer k =? 0) then peer k
  else if zlen dest =? 0 then 0 else address_of s l dest.

Lemma wp_local_dest s l p k dest (Q : Z -> net -> Prop) :
  base_ok s l -> socks s !! p = Some k -> Q (dest_of s l k dest) s -> wp (local_dest p dest) Q s.
Proof.
  intros Hb Hp HQ. pose proof (lk_free _ _ _ _ (bo_socks _ _ Hb p k Hp)) as L. unfold local_dest, dest_of in *. wp_steps.
  eapply wp_sock_lock; [done..|]. wp_steps. eapply wp_socket_at; [apply sk_lookup|]. wp_steps. eapply wp_sock_unlock; [apply sk_lookup|].
  rewrite sk_sk, relocked, sk_id by done. change (so_state (set_so_lock true k)) with (so_state k). change (peer (set_so_lock true k)) with (peer k).
  wp_steps. destruct (_ && _); [by wp_steps|]. destruct (zlen dest =? 0); [by wp_steps|]. by apply (wp_find_address s l).
Qed.

(** A socket with [bs] behind the bytes in its buffer. *)
Definition received_bytes (bs : list Z) (k k' : socket) : Prop :=
  sock_ok k' /\ stream k' = stream k ++ bs /\ exists b h, k' = set_rx (Some b) h (rx_tail k) k.

Lemma wp_local_sendto s l p k buf dest (Q : Z -> net -> Prop) :
  base_ok s l -> socks s !! p = Some k -> zlen buf <> 0 ->
  (forall q, q = dest_of s l k dest ->
     if decide (q = 0 \/ q = p) then Q (-1) s else
     exists kq, socks s !! q = Some kq /\
     if af_local_is_active kq then
       forall kq' m, m = Nat.min (length buf) (Z.to_nat (ring_room kq)) -> received_bytes (take m buf) kq kq' ->
         Q (Z.of_nat m) (if decide (m = 0%nat) then sk q kq' s else woke q (sk q kq' s))
     else Q (-1) s) ->
  wp (af_local_sendto p buf dest) Q s.
Proof.
  intros Hb Hp Hbuf HQ. pose proof (lk_addr _ _ _ _ (bo_socks _ _ Hb p k Hp)). unfold af_local_sendto.
  rewrite (proj2 (Z.eqb_neq p 0)), (proj2 (Z.eqb_neq _ _) Hbuf) by lia. cbn [orb]. wp_steps. apply (wp_local_dest s l p k); [done..|].
  specialize (HQ _ eq_refl). set (q := dest_of s l k dest) in *. clearbody q. destruct (decide _) as [Hd|Hd].
  { replace ((q =? 0) || (q =? p)) with true by (symmetry; apply orb_true_iff; rewrite !Z.eqb_eq; lia). by wp_steps. }
  apply Decidable.not_or in Hd as [Hq0 Hqp]. rewrite (proj2 (Z.eqb_neq _ _) Hq0), (proj2 (Z.eqb_neq _ _) Hqp). cbn [orb].
  destruct HQ as (kq & Hq & HQ). pose proof (bo_socks _ _ Hb q kq Hq) as Kq. pose proof (lk_free _ _ _ _ Kq) as L.
  destruct (lk_ring _ _ _ _ Kq) as [ring Hring]. pose proof (so_ring _ (lk_ok _ _ _ _ Kq)) as Hr. rewrite Hring in Hr.
  wp_steps. eapply wp_sock_lock; [done..|]. wp_steps. eapply wp_socket_at; [apply sk_lookup|]. cbn [rx_buffer set_so_lock]. rewrite Hring.
  change (af_local_is_active (set_so_lock true kq)) with (af_local_is_active kq). destruct (af_local_is_active kq); cbn [negb].
  - wp_steps. cbn [rx_head rx_tail set_so_lock]. apply wp_ring_fill; [done|]. intros buf' h' m Em Hok Hdata. wp_steps. cbn [fst snd].
    eapply wp_on_socket; [apply sk_lookup|]. rewrite sk_sk. rewrite <- (ring_data_length ring) in Em.
    assert (Hst : stream kq = ring_data ring (rx_head kq) (rx_tail kq)) by (unfold stream; by rewrite Hring).
    set (kq' := set_rx (Some buf') h' (rx_tail kq) kq). specialize (HQ kq' m). unfold ring_room in HQ. rewrite Hst in HQ. specialize (HQ Em).
    assert (Hrec : received_bytes (take m buf) kq kq').
    { split_and!; [|unfold stream at 1; cbn; by rewrite Hdata, Hst|by exists buf', h']. destruct (lk_ok _ _ _ _ Kq). by split. }
    specialize (HQ Hrec). clear Em. unfold wakeup_sock. rewrite Z.add_0_l. destruct (decide (m = 0%nat)) as [->|Hm].
    + change (0 <? Z.of_nat 0) with false. wp_steps. eapply wp_sock_unlock; [apply sk_lookup|]. wp_steps. rewrite sk_sk.
      change (set_so_lock false _) with (set_rx (Some buf') h' (rx_tail kq) (set_so_lock false (set_so_lock true kq))). by rewrite relocked.
    + rewrite (proj2 (Z.ltb_lt _ _)) by lia. wp_steps. eapply wp_sock_unlock; [apply sk_lookup|]. wp_steps.
      change (sk q ?x (set_woken ?w ?t)) with (set_woken w (sk q x t)). rewrite sk_sk.
      change (set_so_lock false _) with (set_rx (Some buf') h' (rx_tail kq) (set_so_lock false (set_so_lock true kq))). by rewrite relocked.
  - wp_steps. eapply wp_sock_unlock; [apply sk_lookup|]. rewrite sk_sk, relocked, sk_id by done. by wp_steps.
Qed.

(** ** Receiving *)

(** A socket whose buffer has lost its first bytes. *)
Definition drained_bytes (n : nat) (k k' : socket) : Prop :=
  sock_ok k' /\ stream k' = drop n (stream k) /\ exists t, k' = set_rx (rx_buffer k) (rx_head k) t k.

Lemma wp_peer_address s q kq alen (Q : list Z * Z -> net -> Prop) :
  socks s !! q = Some kq -> sock_ok kq -> so_lock kq = false -> 0 < alen ->
  Q (take (Z.to_nat (Z.min (local_addr_len kq) alen)) (local_addr kq), local_addr_len kq) s -> wp (peer_address q alen) Q s.
Proof.
  intros Hq Hk Hl Ha HQ. unfold peer_address. wp_steps. eapply wp_sock_lock; [done..|]. wp_steps. eapply wp_socket_at; [apply sk_lookup|].
  cbn [local_addr local_addr_len set_so_lock]. wp_steps. pose proof (so_local_len _ Hk).
  replace (if local_addr_len kq <? alen then local_addr_len kq else alen) with (Z.min (local_addr_len kq) alen)
    by (destruct (Z.ltb_spec (local_addr_len kq) alen); lia).
  apply wp_bytes_out; [lia|lia|unfold zlen; rewrite (so_local _ Hk); lia|]. wp_steps. eapply wp_sock_unlock; [apply sk_lookup|].
  rewrite sk_sk, relocked, sk_id by done. by wp_steps.
Qed.

Lemma wp_local_recvfrom s l p k len alen (Q : option local_received -> net -> Prop) :
  base_ok s l -> socks s !! p = Some k -> 0 < len -> 0 <= alen ->
  (if bool_decide (stream k = []) then
     if so_state k =? SOCKET_CONNECTED then Q None s else Q (Some (0, [], None)) s
   else forall k' d, d = take (Z.to_nat len) (stream k) -> drained_bytes (Z.to_nat len) k k' ->
     if (0 <? alen) && negb (peer k =? 0) then
       exists kq, socks s !! peer k = Some kq /\ peer k <> p /\
         Q (Some (zlen d, d, Some (take (Z.to_nat (Z.min (local_addr_len kq) alen)) (local_addr kq), local_addr_len kq))) (sk p k' s)
     else Q (Some (zlen d, d, None)) (sk p k' s)) ->
  wp (af_local_recvfrom p len alen) Q s.
Proof.
  intros Hb Hp Hlen Hal HQ. pose proof (bo_socks _ _ Hb p k Hp) as K. pose proof (lk_addr _ _ _ _ K). pose proof (lk_free _ _ _ _ K) as L.
  destruct (lk_ring _ _ _ _ K) as [ring Hring]. pose proof (so_ring _ (lk_ok _ _ _ _ K)) as Hr. rewrite Hring in Hr.
  unfold af_local_recvfrom. rewrite (proj2 (Z.eqb_neq p 0)), (proj2 (Z.eqb_neq len 0)) by lia. cbn [orb]. wp_steps.
  eapply wp_sock_lock; [done..|]. wp_steps. eapply wp_socket_at; [apply sk_lookup|]. cbn [rx_buffer rx_head rx_tail so_state peer set_so_lock].
  rewrite Hring, (ring_empty ring) by done.
  assert (Hs : stream k = ring_data ring (rx_head k) (rx_tail k)) by (unfold stream; by rewrite Hring).
  rewrite <- Hs. case_bool_decide as E; cbn [andb].
  - destruct (so_state k =? SOCKET_CONNECTED); wp_steps; (eapply wp_sock_unlock; [apply sk_lookup|]); rewrite sk_sk, relocked, sk_id by done; by wp_steps.
  - wp_steps. apply wp_ring_drain; [done|]. intros t' Ht' Hd. wp_steps. cbn [fst snd]. rewrite <- Hs in Hd |- *.
    eapply wp_on_socket; [apply sk_lookup|]. rewrite sk_sk. wp_steps. eapply wp_sock_unlock; [apply sk_lookup|]. rewrite sk_sk. wp_steps.
    change (set_so_lock false _) with (set_rx (Some ring) (rx_head k) t' (set_so_lock false (set_so_lock true k))). rewrite relocked by done.
    set (k' := set_rx (Some ring) (rx_head k) t' k).
    assert (Hdr : drained_bytes (Z.to_nat len) k k').
    { split_and!; [destruct (lk_ok _ _ _ _ K); by split|exact Hd|exists t'; by rewrite Hring]. }
    specialize (HQ k' _ eq_refl Hdr).
    assert (Hpos : 0 <? zlen (take (Z.to_nat len) (stream k)) = true).
    { apply Z.ltb_lt. unfold zlen. destruct (stream k); [done|]. destruct (Z.to_nat len) eqn:?; [lia|]. cbn. lia. }
    rewrite Hpos. cbn [andb]. destruct ((0 <? alen) && negb (peer k =? 0)) eqn:Ea; [|by wp_steps].
    apply andb_prop in Ea as [Ea%Z.ltb_lt _]. destruct HQ as (kq & Hq & Hne & HQ). pose proof (bo_socks _ _ Hb _ kq Hq) as Kq.
    wp_steps. apply (wp_peer_address _ _ kq); [by rewrite sk_other|apply Kq|apply Kq|done|]. by wp_steps.
Qed.

(** ** Binding *)

Lemma wp_path_length (s : net) addr (Q : Z -> net -> Prop) : SUN_SIZE <= zlen addr -> (forall n, Q n s) -> wp (path_length addr) Q s.
Proof.
  intros Hl HQ. unfold path_length. wp_steps. eapply (wp_loop (fun _ _ s' => s' = s)); [done| |].
  - intros j [] s' Hj ->. unfold ld8. wp_steps. change (0 + Z.of_nat (Z.to_nat UNIX_PATH_MAX)) with 108 in Hj.
    destruct (zlen_lookup addr (2 + j)) as [b Hx]; [unfold SUN_SIZE in *; lia|]. eapply wp_rd; [lia|done|]. wp_steps.
    destruct (b =? 0); [wp_steps; apply HQ|done].
  - intros [] s' ->. wp_steps. apply HQ.
Qed.

Lemma base_linked s l p k a :
  base_ok s l -> socks s !! p = Some k -> p ∉ l -> Forall byte a -> zlen a = SUN_SIZE ->
  base_ok (set_bound p (sk p (bound_socket s a k) s)) (p :: l).
Proof.
  intros [Hl Hc Hb Hs] Hk Hp Hbytes Hlen. pose proof (Hs p k Hk) as K. pose proof (lk_ok _ _ _ _ K) as O. unfold SUN_SIZE, zlen in Hlen. split; cbn.
  - done.
  - split_and!; [done|pose proof (lk_addr _ _ _ _ K); lia|]. exists (bound_socket s a k). rewrite lookup_insert_eq. split; [done|]. by apply chain_other.
  - done.
  - intros x j Hx. apply lookup_insert_Some in Hx as [[<- <-]|[Hne Hx]].
    + destruct K as [_ K2 K3 K4 K5 _]. split; try done; [|intros _; cbn; unfold zlen; lia].
      destruct O as [O1 O2 O3 O4 O5 O6 O7]. split; try done; cbn [local_addr local_addr_len bound_socket set_global_next set_local].
      * rewrite length_app, length_drop. lia.
      * apply Forall_app. split; [done|by apply Forall_drop].
      * unfold zlen. lia.
    + destruct (Hs x j Hx) as [K1 K2 K3 K4 K5 K6]. split; try done. intros [->|Hin]%elem_of_cons; [done|auto].
Qed.

Lemma wp_local_bind s l p k addr (Q : Z -> net -> Prop) :
  base_ok s l -> socks s !! p = Some k -> Forall byte addr ->
  (forall r, r < 0 -> Q r s) ->
  (forall a, local_addr_len k = 0 -> p ∉ l -> zlen a = SUN_SIZE -> a = take (Z.to_nat SUN_SIZE) addr -> so_state k = SOCKET_CREATED ->
     free_for (socks s) (has_address AF_LOCAL a) l -> Q 0 (set_bound p (sk p (bound_socket s a k) s))) ->
  (so_state k = SOCKET_CREATED \/ so_state k = SOCKET_LISTENING \/ so_state k = SOCKET_CONNECTED \/ so_state k = SOCKET_CONNECTING) ->
  wp (af_local_bind p addr) Q s.
Proof.
  intros Hb Hp Hbytes Hno Hyes Hst. pose proof (bo_socks _ _ Hb p k Hp) as K. pose proof (lk_addr _ _ _ _ K). pose proof (lk_free _ _ _ _ K) as L.
  unfold af_local_bind. rewrite (proj2 (Z.eqb_neq p 0)) by lia. wp_steps. eapply wp_socket_at; [done|]. rewrite (lk_fam _ _ _ _ K).
  change (negb (AF_LOCAL =? AF_LOCAL)) with false. cbn beta iota.
  destruct ((zlen addr <? SUN_SIZE) || (256 <? zlen addr)) eqn:Elen; [wp_steps; by apply Hno|]. apply orb_false_elim in Elen as [E1%Z.ltb_ge E2%Z.ltb_ge].
  wp_steps. eapply wp_intro; [apply ld16_ok; unfold SUN_SIZE in *; lia|]. destruct (negb _); [wp_steps; by apply Hno|]. wp_steps.
  apply wp_path_length; [lia|]. intros n. wp_steps. destruct ((n =? 0) || (n =? UNIX_PATH_MAX)); [wp_steps; by apply Hno|]. wp_steps.
  eapply wp_sock_lock; [done..|].
  destruct ((so_state k =? SOCKET_CLOSING) || (so_state k =? SOCKET_CONNECTED) || (so_state k =? SOCKET_CONNECTING) || (so_state k =? SOCKET_LISTENING)) eqn:Es.
  { wp_steps. eapply wp_sock_unlock; [apply sk_lookup|]. rewrite sk_sk, relocked, sk_id by done. wp_steps. by apply Hno. }
  assert (Hcr : so_state k = SOCKET_CREATED) by (destruct Hst as [|[E|[E|E]]]; [done|rewrite E in Es; done..]).
  wp_steps. eapply wp_sock_unlock; [apply sk_lookup|]. rewrite sk_sk, relocked, sk_id by done. wp_steps.
  apply wp_bytes_out; [done|done|lia|]. wp_steps. change (drop (Z.to_nat 0) addr) with addr. set (a := take (Z.to_nat SUN_SIZE) addr).
  assert (Hla : zlen a = SUN_SIZE) by (unfold a, zlen, SUN_SIZE in *; rewrite length_take; lia).
  unfold socket_bind_address, slist_lock, slist_unlock, socket_count. rewrite (proj2 (Z.eqb_neq p 0)), Hla by lia.
  change ((SUN_SIZE =? 0) || (256 <? SUN_SIZE)) with false. cbn beta iota. wp_steps. rewrite (bo_lock _ _ Hb). wp_steps.
  pose proof (unlock_list s (bo_lock _ _ Hb)) as Hun. eapply wp_socket_at; [done|].
  destruct (Z.eqb_spec (local_addr_len k) 0) as [Ela|Ela]; cbn [negb]; [|wp_steps; rewrite Hun; by apply Hno]. wp_steps.
  rewrite (lk_fam _ _ _ _ K). change (AF_LOCAL =? AF_INET) with false. cbn beta iota. wp_steps.
  apply (wp_search_address s l _ (has_address AF_LOCAL a) _ Hb); [intros j; apply same_address_ok; by rewrite Hla|].
  assert (Hpl : p ∉ l) by (intros Hin; by apply (lk_bound _ _ _ _ K Hin)).
  destruct (Z.eqb_spec (first_sock (socks s) (has_address AF_LOCAL a) l) 0) as [E|E]; cbn [negb]; wp_steps; [|rewrite Hun; by apply Hno].
  apply (wp_link_socket _ p k); [done|rewrite Hla; unfold zlen; rewrite (so_local _ (lk_ok _ _ _ _ K)); done|]. wp_steps.
  assert (Hu : forall x y, set_slist_lock false (set_bound x (sk p y (set_slist_lock true s))) = set_bound x (sk p y s)).
  { intros x y. rewrite <- Hun at 2. done. }
  change (bound_socket (set_slist_lock true s)) with (bound_socket s). rewrite Hu. apply Hyes; try done.
  apply first_sock_none in E; [done|]. intros y Hy. eapply chain_lookup; [apply Hb|done].
Qed.
