(* ===== verification/LocalThms.v ===== *)
(** * Local sockets: closing, runs and their theorems

    The close of a local socket through its file, the operations of several
    threads on local sockets as a step relation, the invariant that every
    reachable state has, and what bytes sent between two peers become. *)

From Stdlib Require Import ZArith Lia.
From stdpp Require Import base tactics list gmap fin_maps.
From S2P Require Import Prelude Chains Bytes NetBase Net Tcp Rx Local SockSys NetInv NetIp NetSock SockThms LocalConn LocalInv.

(** ** Closing *)

Definition away (k : socket) : socket := set_so_next 0 (set_so_state SOCKET_CREATED k).
Definition refuse_socks (l : list Z) (T : gmap Z socket) : gmap Z socket := foldl (fun T c => alter away c T) T l.
Definition orphan (k : socket) : socket := set_so_state SOCKET_CREATED (set_peer 0 k).
Definition leave_socks (q : Z) (T : gmap Z socket) : gmap Z socket := if decide (q = 0) then T else alter orphan q T.
Definition closing (k : socket) : socket := set_peer 0 (set_listen_queue 0 (set_so_state SOCKET_CLOSING k)).

Lemma sk_alter s c k f : socks s !! c = Some k -> sk c (f k) s = set_socks (alter f c (socks s)) s.
Proof. intros Hk. unfold sk. f_equal. by apply insert_as_alter. Qed.

(** A client that can be sent away. *)
Definition waits (s : net) (c : Z) : Prop := exists k, socks s !! c = Some k /\ so_lock k = false /\ so_state k = SOCKET_CONNECTING.

Lemma wp_refuse_pending l : forall fuel h s (Q : unit -> net -> Prop),
  chain (socks s) so_next h l -> (length l <= fuel)%nat -> (forall c, c ∈ l -> waits s c) ->
  (forall w, Q tt (set_woken w (set_socks (refuse_socks l (socks s)) s))) -> wp (refuse_pending fuel h) Q s.
Proof.
  induction l as [|c l IH]; intros fuel h s Q Hc Hf Hw HQ.
  - cbn in Hc. subst. specialize (HQ (woken_chans s)). destruct fuel, s; by wp_steps.
  - pose proof (chain_nodup _ _ _ _ Hc) as [Hcl Hn]%NoDup_cons. destruct Hc as (-> & H0 & k & Hk & Hc).
    destruct fuel as [|fuel]; cbn [length] in Hf; [lia|]. destruct (Hw c) as (k' & Hk' & Hl & Hst); [by left|].
    assert (k' = k) as -> by congruence. cbn [refuse_pending]. rewrite (proj2 (Z.eqb_neq _ _) H0). wp_steps.
    eapply wp_socket_at; [exact Hk|]. wp_steps. eapply wp_sock_lock; [done..|]. wp_steps. eapply wp_on_socket; [apply sk_lookup|].
    rewrite sk_sk, Hst. change (SOCKET_CONNECTING =? SOCKET_CONNECTING) with true. cbn beta iota. wp_steps.
    eapply wp_on_socket; [apply sk_lookup|]. rewrite sk_sk. unfold wakeup_sock. wp_steps. eapply wp_sock_unlock; [apply sk_lookup|].
    change (sk c ?x (set_woken ?w ?t)) with (set_woken w (sk c x t)). rewrite sk_sk.
    change (set_so_lock false _) with (away (set_so_lock false (set_so_lock true k))). rewrite relocked, (sk_alter s c k away Hk) by done. wp_steps.
    apply IH; [|lia| |].
    + cbn [socks set_woken set_socks]. rewrite <- (insert_as_alter away c k) by done. by apply chain_other.
    + intros c' Hc'. destruct (Hw c') as (k' & Hx & Hl' & Hst'); [by right|]. exists k'. split; [|done].
      cbn [socks set_woken set_socks]. rewrite lookup_alter_ne; [done|]. by intros ->.
    + intros w. exact (HQ w).
Qed.

Lemma wp_release_peer s p q kq (Q : unit -> net -> Prop) :
  q <> 0 -> socks s !! q = Some kq -> so_lock kq = false -> peer kq = p -> so_state kq = SOCKET_CONNECTED ->
  (forall w, Q tt (set_woken w (set_socks (alter orphan q (socks s)) s))) -> wp (release_peer p q) Q s.
Proof.
  intros H0 Hq Hl Hp Hst HQ. unfold release_peer. rewrite (proj2 (Z.eqb_neq _ _) H0). wp_steps. eapply wp_sock_lock; [done..|]. wp_steps.
  eapply wp_socket_at; [apply sk_lookup|]. cbn [peer so_state set_so_lock]. rewrite Hp, Z.eqb_refl, Hst.
  change ((SOCKET_CONNECTED =? SOCKET_CONNECTED) || _) with true. cbn beta iota. wp_steps. eapply wp_on_socket; [apply sk_lookup|]. rewrite sk_sk. wp_steps.
  eapply wp_on_socket; [apply sk_lookup|]. rewrite sk_sk. unfold wakeup_sock. wp_steps. eapply wp_sock_unlock; [apply sk_lookup|].
  change (sk q ?x (set_woken ?w ?t)) with (set_woken w (sk q x t)). rewrite sk_sk.
  change (set_so_lock false _) with (orphan (set_so_lock false (set_so_lock true kq))). rewrite relocked, (sk_alter s q kq orphan Hq) by done. apply HQ.
Qed.

(** What [af_local_release] relies on. *)
Record can_release (s : net) (p : Z) (k : socket) (l : list Z) : Prop := {
  cr_at : socks s !! p = Some k;
  cr_addr : p <> 0;
  cr_free : so_lock k = false;
  cr_state : so_state k <> SOCKET_CLOSING;
  cr_queue : chain (socks s) so_next (listen_queue k) l;
  cr_self : p ∉ l;
  cr_wait : forall c, c ∈ l -> waits s c;
  cr_peer : peer k <> 0 -> exists kq, socks s !! peer k = Some kq /\ so_lock kq = false /\ peer kq = p /\
    so_state kq = SOCKET_CONNECTED /\ peer k <> p /\ peer k ∉ l
}.

Lemma refuse_socks_other l T x : x ∉ l -> refuse_socks l T !! x = T !! x.
Proof.
  unfold refuse_socks. revert T. induction l as [|c l IH]; intros T; cbn [foldl]; [done|]. rewrite not_elem_of_cons. intros [Hc Hl].
  rewrite IH by done. by rewrite lookup_alter_ne.
Qed.

Lemma wp_local_release s p k l (Q : Z -> net -> Prop) :
  can_release s p k l ->
  (forall w, Q 0 (set_woken w (set_socks (leave_socks (peer k) (refuse_socks l (<[p := closing k]> (socks s)))) s))) ->
  wp (af_local_release p) Q s.
Proof.
  intros [Hp H0 Hl Hst Hq Hself Hw Hpeer] HQ. unfold af_local_release. rewrite (proj2 (Z.eqb_neq _ _) H0). wp_steps.
  eapply wp_sock_lock; [done..|]. wp_steps. eapply wp_socket_at; [apply sk_lookup|]. cbn [so_state listen_queue peer set_so_lock].
  rewrite (proj2 (Z.eqb_neq _ _) Hst). wp_steps. do 3 (eapply wp_on_socket; [apply sk_lookup|]; rewrite sk_sk; wp_steps).
  eapply wp_sock_unlock; [apply sk_lookup|]. rewrite sk_sk. unfold wakeup_sock, socket_count. wp_steps.
  change (set_so_lock false _) with (closing (set_so_lock false (set_so_lock true k))). rewrite relocked by done.
  assert (Hother : forall x, x <> p -> socks (sk p (closing k) s) !! x = socks s !! x) by (intros x Hx; by apply sk_other).
  assert (Hch : chain (socks (sk p (closing k) s)) so_next (listen_queue k) l) by by apply chain_other.
  pose proof (chain_size _ _ _ _ Hch) as Hsz. apply (wp_refuse_pending l); [done|done| |].
  { intros c Hc. destruct (Hw c Hc) as (kc & Hkc & ?). exists kc. split; [|done]. cbn [socks set_woken]. rewrite Hother; [done|]. by intros ->. }
  intros w. wp_steps. destruct (decide (peer k = 0)) as [E|E].
  - unfold release_peer, leave_socks in *. rewrite E in *. change (0 =? 0) with true. cbn beta iota. wp_steps. exact (HQ w).
  - destruct (Hpeer E) as (kq & Hkq & Lq & Pq & Sq & Nq & Iq). wp_steps. eapply (wp_release_peer _ p (peer k) kq); [done| |done|done|done|].
    + cbn [socks set_woken set_socks]. rewrite refuse_socks_other by done. cbn [socks set_woken]. by rewrite Hother.
    + intros w'. wp_steps. specialize (HQ w'). unfold leave_socks in HQ. rewrite decide_False in HQ by done. exact HQ.
Qed.

(** ** Parts of a socket *)

(** What the operations on connections leave alone. *)
Definition body (k : socket) : socket :=
  set_so_state 0 (set_peer 0 (set_listen_queue 0 (set_so_next 0 (set_global_next 0 k)))).

Lemma local_sock_body brk brk' l l' p k k' :
  local_sock brk l p k -> body k' = body k -> brk <= brk' -> (p ∈ l' -> p ∈ l) -> local_sock brk' l' p k'.
Proof.
  intros [[O1 O2 O3 O4 O5 O6 O7] K2 K3 K4 K5 K6] E Hb Hl. destruct k, k'. cbn in *. injection E as -> -> -> -> -> -> -> -> -> -> -> ->.
  split; try done; [lia|auto].
Qed.

Lemma base_body s s' l l' :
  base_ok s l -> g_socket_list_lock s' = false -> n_brk s <= n_brk s' -> (forall x, x ∈ l' -> x ∈ l) ->
  chain (socks s') global_next (g_bound_sockets_head s') l' ->
  (forall x k', socks s' !! x = Some k' -> exists k, socks s !! x = Some k /\ body k' = body k) -> base_ok s' l'.
Proof.
  intros [Hl Hc Hb Hs] Hl' Hb' Hin Hc' Hk. split; [done|done|lia|]. intros x k' Hx. destruct (Hk x k' Hx) as (k & Hkx & E).
  eapply local_sock_body; [by apply Hs|done|done|apply Hin].
Qed.

Lemma view_alter (f : socket -> socket) (g : conn -> conn) c (T : gmap Z socket) :
  (forall k, view (f k) = g (view k)) -> view <$> alter f c T = alter g c (view <$> T).
Proof.
  intros E. apply map_eq. intros x. rewrite lookup_fmap. destruct (decide (c = x)) as [<-|].
  - rewrite !lookup_alter_eq, lookup_fmap. destruct (T !! c); [|done]. cbn. by rewrite E.
  - by rewrite !lookup_alter_ne, lookup_fmap.
Qed.
Lemma view_refuse l (T : gmap Z socket) : view <$> refuse_socks l T = refuse_conns l (view <$> T).
Proof.
  revert T. unfold refuse_socks, refuse_conns. induction l as [|c l IH]; intros T; cbn [foldl]; [done|].
  by rewrite IH, (view_alter away refused).
Qed.
Lemma view_leave q (T : gmap Z socket) : view <$> leave_socks q T = leave q (view <$> T).
Proof. unfold leave_socks, leave. destruct (decide (q = 0)); [done|]. by apply view_alter. Qed.
Lemma view_relinked T T' : relinked T T' -> view <$> T' = view <$> T.
Proof.
  intros H. apply map_eq. intros x. rewrite !lookup_fmap. destruct (T' !! x) as [k'|] eqn:E.
  - destruct (relinked_back _ _ _ _ H E) as (k & -> & ->). done.
  - destruct (T !! x) as [k|] eqn:E'; [|done]. destruct (relinked_lookup _ _ _ _ H E') as [y Hy]. congruence.
Qed.

(** Body and link of the sockets after the others have left. *)
Definition kept (k k' : socket) : Prop := body k' = body k /\ global_next k' = global_next k.
Definition all_kept (T T' : gmap Z socket) : Prop := forall x, match T' !! x with Some k' => exists k, T !! x = Some k /\ kept k k' | None => T !! x = None end.

Lemma all_kept_refl T : all_kept T T.
Proof. intros x. destruct (T !! x) as [k|] eqn:E; [exists k|]; done. Qed.
Lemma all_kept_alter T T' (f : socket -> socket) c : (forall k, kept k (f k)) -> all_kept T T' -> all_kept T (alter f c T').
Proof.
  intros Hf H x. specialize (H x). destruct (decide (c = x)) as [<-|]; [|by rewrite lookup_alter_ne].
  rewrite lookup_alter_eq. destruct (T' !! c) as [k'|]; [|done]. destruct H as (k & Hk & [E1 E2]). exists k. split; [done|].
  destruct (Hf k') as [E3 E4]. split; congruence.
Qed.
Lemma all_kept_insert T p k k' : T !! p = Some k -> kept k k' -> all_kept T (<[p := k']> T).
Proof.
  intros Hk Hkk x. destruct (decide (p = x)) as [<-|]; [rewrite lookup_insert_eq; by exists k|rewrite lookup_insert_ne by done; apply all_kept_refl].
Qed.
Lemma all_kept_refuse T T' l : all_kept T T' -> all_kept T (refuse_socks l T').
Proof.
  revert T'. unfold refuse_socks. induction l as [|c l IH]; intros T' H; cbn [foldl]; [done|]. apply IH. by apply all_kept_alter.
Qed.
Lemma all_kept_leave T T' q : all_kept T T' -> all_kept T (leave_socks q T').
Proof. intros H. unfold leave_socks. destruct (decide _); [done|by apply all_kept_alter]. Qed.

Lemma conn_at s Q p k : conn_ok (view <$> socks s) Q -> socks s !! p = Some k -> (view <$> socks s) !! p = Some (view k).
Proof. intros _ Hk. by rewrite lookup_fmap, Hk. Qed.
Lemma view_back (T : gmap Z socket) c v : (view <$> T) !! c = Some v -> exists k, T !! c = Some k /\ v = view k.
Proof. rewrite lookup_fmap. destruct (T !! c) as [k|]; [|done]. intros [= <-]. by exists k. Qed.

Lemma chain_view (T : gmap Z socket) p l : chain (view <$> T) c_next p l -> chain T so_next p l.
Proof.
  revert p. induction l as [|x l IH]; intros p; cbn; [done|]. intros (-> & H0 & v & Hv & Hc). split_and!; [done..|].
  destruct (view_back T x v Hv) as (k & Hk & ->). exists k. split; [done|]. by apply IH.
Qed.

Definition unlocked (s : net) : Prop := forall x k, socks s !! x = Some k -> so_lock k = false.

Lemma conn_can_release s Q p k :
  unlocked s -> conn_ok (view <$> socks s) Q -> socks s !! p = Some k -> so_state k <> SOCKET_CONNECTING -> so_state k <> SOCKET_CLOSING ->
  can_release s p k (Q p).
Proof.
  intros Hun Hok Hk Hst Hcl. pose proof (conn_at s Q p k Hok Hk) as Hp. pose proof Hok as [H0 H1 H2 H3 H4 H5 H6 H7].
  assert (Hself : p ∉ Q p) by by eapply conn_not_in.
  split; [done|by eapply H0|by eapply Hun|done| |done| |].
  - apply chain_view. exact (H4 p _ Hp).
  - intros c Hc. destruct (H5 p _ c Hp Hc) as (w & Hw & Ew). destruct (view_back _ _ _ Hw) as (kc & Hkc & ->).
    exists kc. split_and!; [done|by eapply Hun|done].
  - intros Hn. destruct (H2 p _ Hp Hn) as (Hne & w & Hw & Ew). destruct (view_back _ _ _ Hw) as (kq & Hkq & ->). cbn in Hne, Hkq, Ew, Hw.
    assert (Hsq : so_state kq = SOCKET_CONNECTED) by (apply (H3 _ _ Hw); cbn; rewrite Ew; eauto).
    exists kq. split_and!; try done; [by eapply Hun|]. eapply conn_not_in; [exact Hok|exact Hw|cbn; by rewrite Hsq|exact Hp].
Qed.

Section close.
Context (driver : list (list Z) -> list Z -> Z) (junk : list Z).

Lemma wp_local_close s l Q p k (R : Z -> net -> Prop) :
  base_ok s l -> conn_ok (view <$> socks s) Q -> socks s !! p = Some k -> so_state k <> SOCKET_CONNECTING ->
  (forall s', base_ok s' (filter (fun x => x <> p) l) ->
     view <$> socks s' = leave (peer k) (refuse_conns (Q p) (delete p (view <$> socks s))) ->
     (forall x k', socks s' !! x = Some k' -> exists k0, socks s !! x = Some k0 /\ body k' = body k0) -> R 0 s') ->
  wp (socket_vfs_close driver junk p) R s.
Proof.
  intros Hb Hok Hk Hst HR. pose proof Hb as [Hlock Hc Hbrk Hs]. pose proof (Hs p k Hk) as K. pose proof (lk_addr _ _ _ _ K).
  pose proof (co_state _ _ Hok p _ (conn_at s Q p k Hok Hk)) as Hrange. cbn in Hrange.
  unfold socket_vfs_close. rewrite (proj2 (Z.eqb_neq p 0)) by lia. wp_steps. eapply wp_socket_at; [done|]. rewrite (lk_fam _ _ _ _ K).
  change (AF_LOCAL =? AF_INET) with false. cbn [andb]. wp_steps. apply (unlinked s l p k); [done..|]. intros T h Hc' Hrel.
  destruct (relinked_lookup _ _ p k Hrel Hk) as [x0 Hk']. set (s1 := set_bound h (set_socks T s)). set (k1 := set_global_next x0 k) in *.
  assert (Hbody : forall x k', T !! x = Some k' -> exists k0, socks s !! x = Some k0 /\ body k' = body k0).
  { intros x k' Hx. destruct (relinked_back _ _ _ _ Hrel Hx) as (k0 & Hx0 & ->). by exists k0. }
  assert (Hun : unlocked s1).
  { intros x k' Hx. destruct (relinked_back _ _ _ _ Hrel Hx) as (k0 & Hx0 & ->). exact (lk_free _ _ _ _ (Hs x k0 Hx0)). }
  assert (Hcr : can_release s1 p k1 (Q p)).
  { apply conn_can_release; try done; [unfold s1; cbn; by rewrite (view_relinked _ _ Hrel)|].
    unfold k1; cbn. unfold SOCKET_CONNECTING, SOCKET_CLOSING in *. lia. }
  wp_steps. unfold proto_release. wp_steps. eapply wp_socket_at; [exact Hk'|]. change (family k1) with (family k). rewrite (lk_fam _ _ _ _ K).
  change (AF_LOCAL =? AF_LOCAL) with true. cbn beta iota. wp_steps. apply (wp_local_release s1 p k1 (Q p)); [done|]. intros w. wp_steps.
  change (peer k1) with (peer k). set (T2 := leave_socks (peer k) (refuse_socks (Q p) (<[p := closing k1]> (socks s1)))).
  assert (Hkept : all_kept T T2).
  { apply all_kept_leave, all_kept_refuse. by apply (all_kept_insert T p k1). }
  unfold destroy_socket, free_socket, n_kfree. wp_steps. pose proof (Hkept p) as Hp2. destruct (T2 !! p) as [k2|] eqn:E2; [|congruence].
  eapply wp_socket_at; [exact E2|].
  assert (Hfinal : forall m, R 0 (set_heap (n_brk s) m (set_woken w (set_bound h (set_socks (delete p T2) s))))).
  { intros m. apply HR.
    - apply (base_body s _ l); try done.
      + intros x Hx. by apply list_elem_of_filter in Hx as [_ Hx].
      + cbn. apply chain_delete; [rewrite list_elem_of_filter; by intros []|]. eapply chain_ext; [|exact Hc'].
        intros x j _ Hj. pose proof (Hkept x) as Hx. destruct (T2 !! x) as [j'|]; [|congruence]. destruct Hx as (j0 & Hj0 & _ & E).
        exists j'. split; [done|congruence].
      + intros x j Hj. cbn in Hj. apply lookup_delete_Some in Hj as [_ Hj]. pose proof (Hkept x) as Hx. rewrite Hj in Hx. destruct Hx as (j0 & Hj0 & E & _).
        destruct (Hbody x j0 Hj0) as (j1 & Hj1 & E1). exists j1. split; [done|congruence].
    - cbn. rewrite fmap_delete. unfold T2. rewrite view_leave, view_refuse. cbn [socks s1 set_bound set_socks]. rewrite fmap_insert, (view_relinked _ _ Hrel).
      unfold leave. pose proof (cr_peer _ _ _ _ Hcr) as Hpeer. change (peer k1) with (peer k) in Hpeer.
      destruct (decide (peer k = 0)) as [E|E].
      + by rewrite refuse_delete, delete_insert_eq by apply Hcr.
      + destruct (Hpeer E) as (kq & _ & _ & _ & _ & Hne & _). rewrite delete_alter_ne by done. by rewrite refuse_delete, delete_insert_eq by apply Hcr.
    - intros x j Hj. cbn in Hj. apply lookup_delete_Some in Hj as [_ Hj]. pose proof (Hkept x) as Hx. rewrite Hj in Hx. destruct Hx as (j0 & Hj0 & E & _).
      destruct (Hbody x j0 Hj0) as (j1 & Hj1 & E1). exists j1. split; [done|congruence]. }
  destruct (rx_buffer k2); wp_steps; apply Hfinal.
Qed.

End close.

(** ** Operations of several threads

    An operation runs until it returns or goes to sleep; a sleeping [connect]
    is continued by [LWaited], a sleeping [accept] or [recvfrom] starts over.
    A socket is used while it is open, and not closed while a thread sleeps in
    its [connect]. *)

Inductive local_op : Type :=
| LSocket (ty : Z)
| LBind (p : Z) (addr : list Z)
| LListen (p : Z)
| LConnect (p : Z) (addr : list Z)
| LWaited (p : Z)
| LAccept (p : Z)
| LSend (p : Z) (buf dest : list Z)
| LRecv (p len addrlen : Z)
| LClose (p : Z).

Definition op_ready (s : net) (op : local_op) : Prop :=
  match op with
  | LSocket _ => True
  | LBind p addr => is_Some (socks s !! p) /\ Forall byte addr
  | LListen p | LConnect p _ | LWaited p | LAccept p | LSend p _ _ => is_Some (socks s !! p)
  | LRecv p len addrlen => is_Some (socks s !! p) /\ 0 <= len /\ 0 <= addrlen
  | LClose p => exists k, socks s !! p = Some k /\ so_state k <> SOCKET_CONNECTING
  end.

Definition discard {S A} (m : M S A) : M S unit := _ <-- m ;; kret tt.
Definition run_op (driver : list (list Z) -> list Z -> Z) (junk : list Z) (op : local_op) : M net unit :=
  match op with
  | LSocket ty => discard (socket_create AF_LOCAL ty)
  | LBind p addr => discard (af_local_bind p addr)
  | LListen p => discard (af_local_listen p)
  | LConnect p addr => discard (af_local_connect p addr)
  | LWaited p => discard (connect_wait p)
  | LAccept p => discard (af_local_accept p)
  | LSend p buf dest => discard (af_local_sendto p buf dest)
  | LRecv p len addrlen => discard (af_local_recvfrom p len addrlen)
  | LClose p => discard (socket_vfs_close driver junk p)
  end.

Definition local_inv (s : net) : Prop := exists l Q, base_ok s l /\ conn_ok (view <$> socks s) Q.

Lemma view_insert_same (T : gmap Z socket) p k k' : T !! p = Some k -> view k' = view k -> view <$> <[p := k']> T = view <$> T.
Proof. intros Hk E. rewrite fmap_insert, E. apply insert_id. by rewrite lookup_fmap, Hk. Qed.

Lemma inv_woke p s : local_inv s -> local_inv (woke p s).
Proof. intros (l & Q & Hb & Hq). exists l, Q. split; [by apply base_woken|done]. Qed.

(** An update that does not touch connections and links. *)
Lemma inv_data s p k k' :
  local_inv s -> socks s !! p = Some k -> sock_ok k' -> view k' = view k -> global_next k' = global_next k ->
  (family k', so_lock k', local_addr_len k') = (family k, so_lock k, local_addr_len k) -> is_Some (rx_buffer k') -> local_inv (sk p k' s).
Proof.
  intros (l & Q & Hb & Hq) Hk Hok Hv Hg E Hr. exists l, Q. injection E as Ef El Ea. pose proof (bo_socks _ _ Hb p k Hk) as [K1 K2 K3 K4 K5 K6]. split.
  - eapply base_sk; [done|done| |done]. split; try done; [congruence|congruence|by rewrite Ea].
  - cbn. by rewrite (view_insert_same _ p k).
Qed.

(** An update of connections only. *)
Lemma base_kept s s' l :
  base_ok s l -> g_socket_list_lock s' = false -> n_brk s <= n_brk s' -> g_bound_sockets_head s' = g_bound_sockets_head s ->
  all_kept (socks s) (socks s') -> base_ok s' l.
Proof.
  intros Hb Hl Hn Hh Hk. apply (base_body s _ l); try done.
  - rewrite Hh. eapply chain_ext; [|apply Hb]. intros x k _ Hx. specialize (Hk x). destruct (socks s' !! x) as [k'|]; [|congruence].
    destruct Hk as (k0 & Hk0 & _ & E). exists k'. split; [done|congruence].
  - intros x k' Hx. specialize (Hk x). rewrite Hx in Hk. destruct Hk as (k0 & Hk0 & E & _). by exists k0.
Qed.
Lemma inv_conn s s' l Q' :
  base_ok s l -> g_socket_list_lock s' = false -> n_brk s <= n_brk s' -> g_bound_sockets_head s' = g_bound_sockets_head s ->
  all_kept (socks s) (socks s') -> conn_ok (view <$> socks s') Q' -> local_inv s'.
Proof. intros Hb Hl Hn Hh Hk Hq. exists l, Q'. split; [by eapply base_kept|done]. Qed.

Lemma fresh_brk s l : base_ok s l -> socks s !! n_brk s = None.
Proof.
  intros Hb. destruct (socks s !! n_brk s) as [k|] eqn:E; [|done]. pose proof (lk_addr _ _ _ _ (bo_socks _ _ Hb _ k E)). lia.
Qed.

Lemma new_socket_ok ty : sock_ok (created ty).
Proof. split; try done; cbn [local_addr remote_addr created set_rx set_kind zero_socket]; by apply Forall_replicate. Qed.

Lemma base_new s l ty : base_ok s l -> base_ok (with_new ty s) l.
Proof.
  intros Hb. pose proof Hb as [Hl Hc Hn Hs]. pose proof (fresh_brk s l Hb) as Hf.
  assert (Hnl : n_brk s ∉ l).
  { intros Hin. destruct (chain_lookup _ _ _ _ _ Hc Hin) as [_ [k Hk]]. congruence. }
  assert (Hup : n_brk s < n_brk (with_new ty s)) by (cbn; unfold SOCKET_T_SIZE, SOCKET_BUFFER_SIZE; lia). split.
  - done.
  - by apply chain_other.
  - lia.
  - intros x k Hx. cbn in Hx. apply lookup_insert_Some in Hx as [[<- <-]|[_ Hx]].
    + split; [apply new_socket_ok|done|done|lia|by eexists|done].
    + eapply local_sock_body; [by apply Hs|done|lia|done].
Qed.

Lemma inv_new s ty : local_inv s -> local_inv (with_new ty s).
Proof.
  intros (l & Q & Hb & Hq). exists l, (set_q Q (n_brk s) []). split; [by apply base_new|]. cbn. rewrite fmap_insert.
  apply conn_new; [done|by rewrite lookup_fmap, (fresh_brk s l Hb)|pose proof (bo_brk _ _ Hb); lia].
Qed.
Lemma inv_heap s b m : local_inv s -> n_brk s <= b -> local_inv (set_heap b m s).
Proof.
  intros (l & Q & Hb & Hq) Hn. eapply (inv_conn s _ l Q); [done|apply Hb|done|done|apply all_kept_refl|done].
Qed.

(** ** Every operation keeps the invariant *)

Lemma wp_discard {A} (m : M net A) (R : net -> Prop) s : wp m (fun _ s' => R s') s -> wp (discard m) (fun _ s' => R s') s.
Proof. intros H. unfold discard. wp_steps. eapply wp_mono; [exact H|]. intros a s' Hr. by wp_steps. Qed.

Lemma inv_state s p k : local_inv s -> socks s !! p = Some k -> 0 <= so_state k <= SOCKET_CONNECTING.
Proof. intros (l & Q & _ & Hq) Hk. exact (co_state _ _ Hq p _ (conn_at s Q p k Hq Hk)). Qed.

Lemma bind_keeps s p addr : local_inv s -> op_ready s (LBind p addr) -> wp (af_local_bind p addr) (fun _ s' => local_inv s') s.
Proof.
  intros Hi [[k Hk] Hbytes]. pose proof (inv_state s p k Hi Hk) as Hst. pose proof Hi as (l & Q & Hb & Hq).
  apply (wp_local_bind s l p k addr); [done..| | |].
  - done.
  - intros a _ Hp Hl -> _ _. exists (p :: l), Q. split; [apply base_linked; try done; by apply Forall_take|].
    cbn. by rewrite (view_insert_same _ p k).
  - unfold SOCKET_CREATED, SOCKET_LISTENING, SOCKET_CONNECTED, SOCKET_CONNECTING in *. lia.
Qed.

Lemma listen_keeps s p : local_inv s -> op_ready s (LListen p) -> wp (af_local_listen p) (fun _ s' => local_inv s') s.
Proof.
  intros Hi [k Hk]. pose proof (inv_state s p k Hi Hk) as Hst. pose proof Hi as (l & Q & Hb & Hq).
  apply (wp_local_listen s l p k); [done..|]. destruct (may_listen k) eqn:Em; [|done]. unfold may_listen in Em. zbool.
  eapply (inv_conn s _ l Q); [done|apply Hb|done|done|by apply (all_kept_insert _ p k)|]. cbn. rewrite fmap_insert.
  apply (conn_inert _ _ p (view k)); try done. by eapply conn_at.
Qed.

Lemma connect_keeps s p addr : local_inv s -> op_ready s (LConnect p addr) -> wp (af_local_connect p addr) (fun _ s' => local_inv s') s.
Proof.
  intros Hi [k Hk]. pose proof (inv_state s p k Hi Hk) as Hst. pose proof Hi as (l & Q & Hb & Hq).
  pose proof (lk_addr _ _ _ _ (bo_socks _ _ Hb p k Hk)). destruct (Z.eqb_spec (zlen addr) 0) as [E|E].
  { unfold af_local_connect. rewrite E, orb_true_r. by wp_steps. }
  apply (wp_local_connect s l p addr k); [done..|]. intros q Eq. destruct (decide _) as [Hd|Hd]; [done|].
  apply Decidable.not_or in Hd as [Hq0 Hqp]. intros kq Hkq. destruct (may_connect k kq) eqn:Em; [|done]. unfold may_connect in Em. zbool.
  apply inv_woke. eapply (inv_conn s _ l (set_q Q q (p :: Q q))); [done|apply Hb|done|done| |].
  - cbn. intros x. destruct (decide (p = x)) as [<-|]; [rewrite lookup_insert_eq; by exists k|rewrite lookup_insert_ne by done].
    destruct (decide (q = x)) as [<-|]; [rewrite lookup_insert_eq; by exists kq|rewrite lookup_insert_ne by done; apply all_kept_refl].
  - cbn. rewrite !fmap_insert, insert_insert_ne by done. apply (conn_asked _ _ p q (view k) (view kq)); try done; try by eapply conn_at.
    cbn. unfold SOCKET_CONNECTING, SOCKET_CONNECTED, SOCKET_LISTENING, SOCKET_CREATED in *. lia.
Qed.

Lemma wait_keeps s p : local_inv s -> op_ready s (LWaited p) -> wp (connect_wait p) (fun _ s' => local_inv s') s.
Proof.
  intros Hi [k Hk]. pose proof Hi as (l & Q & Hb & Hq). eapply wp_connect_wait; [done| |done].
  exact (lk_free _ _ _ _ (bo_socks _ _ Hb p k Hk)).
Qed.

Lemma send_keeps s p buf dest : local_inv s -> op_ready s (LSend p buf dest) -> wp (af_local_sendto p buf dest) (fun _ s' => local_inv s') s.
Proof.
  intros Hi [k Hk]. pose proof Hi as (l & Q & Hb & Hq). destruct (Z.eqb_spec (zlen buf) 0) as [E|E].
  { unfold af_local_sendto. rewrite E, orb_true_r. by wp_steps. }
  apply (wp_local_sendto s l p k buf dest); [done..|]. intros q Eq. destruct (decide _) as [Hd|Hd]; [done|].
  apply Decidable.not_or in Hd as [Hq0 Hqp].
  assert (Hlive : is_Some (socks s !! q)).
  { unfold dest_of in Eq. destruct ((so_state k =? SOCKET_CONNECTED) && negb (peer k =? 0)) eqn:Ec.
    - apply andb_prop in Ec as [_ Ec]. zbool. destruct (co_peer _ _ Hq p _ (conn_at s Q p k Hq Hk)) as (_ & w & Hw & _); [done|]. cbn in Hw.
      destruct (view_back _ _ _ Hw) as (kq & Hkq & _). rewrite Eq. by exists kq.
    - destruct (zlen dest =? 0); [done|]. rewrite Eq in Hq0 |- *. by apply (address_of_live s l dest). }
  destruct Hlive as [kq Hkq]. exists kq. split; [done|]. destruct (af_local_is_active kq); [|done].
  intros kq' m _ (Hok' & _ & b & h & ->). assert (Hs' : local_inv (sk q (set_rx (Some b) h (rx_tail kq) kq) s)).
  { eapply inv_data; try done. }
  destruct (decide (m = 0%nat)); [done|]. by apply inv_woke.
Qed.

Lemma recv_keeps s p len alen :
  local_inv s -> op_ready s (LRecv p len alen) -> wp (af_local_recvfrom p len alen) (fun _ s' => local_inv s') s.
Proof.
  intros Hi ([k Hk] & Hlen & Hal). pose proof Hi as (l & Q & Hb & Hq). destruct (Z.eqb_spec len 0) as [E|E].
  { unfold af_local_recvfrom. rewrite E, orb_true_r. by wp_steps. }
  apply (wp_local_recvfrom s l p k len alen); [done|done|lia|done|]. case_bool_decide; [by destruct (so_state k =? SOCKET_CONNECTED)|].
  intros k' d _ (Hok' & _ & t & ->). assert (Hs' : local_inv (sk p (set_rx (rx_buffer k) (rx_head k) t k) s)).
  { eapply inv_data; try done. exact (lk_ring _ _ _ _ (bo_socks _ _ Hb p k Hk)). }
  destruct ((0 <? alen) && negb (peer k =? 0)) eqn:Ea; [|done]. apply andb_prop in Ea as [_ Ea]. zbool.
  destruct (co_peer _ _ Hq p _ (conn_at s Q p k Hq Hk)) as (Hne & w & Hw & _); [done|]. destruct (view_back _ _ _ Hw) as (kq & Hkq & _). by exists kq.
Qed.

Lemma close_keeps driver junk s p : local_inv s -> op_ready s (LClose p) -> wp (socket_vfs_close driver junk p) (fun _ s' => local_inv s') s.
Proof.
  intros (l & Q & Hb & Hq) (k & Hk & Hst). apply (wp_local_close driver junk s l Q p k); [done..|]. intros s' Hb' Hv _.
  exists (filter (fun x => x <> p) l), (set_q Q p []). split; [done|]. rewrite Hv. by apply (conn_closed _ _ p (view k) Hq (conn_at s Q p k Hq Hk)).
Qed.

(** Equality of maps updated at the same places. *)
Ltac same_updates :=
  apply map_eq; intros y;
  repeat match goal with |- context [<[?i := _]> _ !! y] =>
    destruct (decide (i = y)) as [<-|]; repeat first [rewrite lookup_insert_eq | rewrite lookup_insert_ne by done] end; try done.

Section accept.
Context (s : net) (l : list Z) (Q : Z -> list Z) (p c : Z) (k kc : socket) (lq : list Z).
Hypotheses (Hb : base_ok s l) (Hq : conn_ok (view <$> socks s) Q) (Hk : socks s !! p = Some k) (Hkc : socks s !! c = Some kc)
  (Hcp : c <> p) (Hst : so_state k = SOCKET_LISTENING) (Hlq : Q p = c :: lq).

Let s1 := popped s p c k kc.

Lemma popped_kept : all_kept (socks s) (socks s1).
Proof using Hk Hkc Hcp.
  intros x. cbn. destruct (decide (p = x)) as [<-|]; [rewrite lookup_insert_eq; by exists k|rewrite lookup_insert_ne by done].
  destruct (decide (c = x)) as [<-|]; [rewrite lookup_insert_eq; by exists kc|rewrite lookup_insert_ne by done; apply all_kept_refl].
Qed.

Lemma popped_base : base_ok s1 l.
Proof using Hb Hk Hkc Hcp. apply (base_kept s); [done|apply Hb|done|done|apply popped_kept]. Qed.

Lemma popped_conn : conn_ok (dequeued (view <$> socks s) p c (view k) (view kc)) (set_q Q p lq).
Proof using Hq Hk Hkc Hst Hlq.
  apply conn_dequeued; try done; [by rewrite lookup_fmap, Hk|cbn; by rewrite Hst|by rewrite lookup_fmap, Hkc].
Qed.

Lemma refused_inv b m : n_brk s <= b -> local_inv (woke c (sk c (set_so_next 0 (set_so_state SOCKET_CREATED (set_so_next 0 kc))) (set_heap b m s1))).
Proof using Hb Hq Hk Hkc Hcp Hst Hlq.
  intros Hn. apply inv_woke. exists l, (set_q Q p lq). split.
  - apply (base_body s1 _ l); [apply popped_base|apply popped_base|done|done| |].
    + cbn. eapply chain_keep; [by rewrite lookup_insert_ne, lookup_insert_eq|done|]. apply popped_base.
    + intros x j Hx. cbn in Hx. apply lookup_insert_Some in Hx as [[<- <-]|[_ Hx]]; [|by exists j].
      exists (set_so_next 0 kc). cbn. by rewrite lookup_insert_ne, lookup_insert_eq by done.
  - replace (view <$> _) with (dequeued (view <$> socks s) p c (view k) (view kc)); [apply popped_conn|].
    cbn. rewrite !fmap_insert. unfold dequeued. same_updates.
Qed.

Lemma session_inv ty : local_inv (woke c (both (with_new ty s1) (n_brk s1) c (linked c (created ty)) (linked (n_brk s1) (set_so_next 0 kc)))).
Proof using Hb Hq Hk Hkc Hcp Hst Hlq.
  pose proof popped_base as Hb1. pose proof (base_new s1 l ty Hb1) as Hb2. pose proof (fresh_brk s l Hb) as Hf. set (n := n_brk s1).
  change (n_brk s) with n in Hf. assert (Hnc : n <> c) by congruence. assert (Hnp : n <> p) by congruence.
  apply inv_woke. eapply (inv_conn (with_new ty s1) _ l (set_q (set_q Q p lq) n [])); [done|apply Hb2|done|done| |].
  - intros x. unfold both. cbn [socks sk set_socks]. destruct (decide (n = x)) as [<-|].
    { rewrite lookup_insert_eq. exists (created ty). by split; [apply lookup_insert_eq|]. }
    rewrite lookup_insert_ne by done. destruct (decide (c = x)) as [<-|]; [|rewrite lookup_insert_ne by done; apply all_kept_refl].
    rewrite lookup_insert_eq. exists (set_so_next 0 kc). split; [|done]. cbn. by rewrite lookup_insert_ne, lookup_insert_ne, lookup_insert_eq by done.
  - pose proof (conn_new _ _ n popped_conn) as Hnew. unfold dequeued in Hnew at 1. rewrite !lookup_insert_ne, lookup_fmap, Hf in Hnew by done.
    assert (Hn0 : n <> 0) by (pose proof (bo_brk _ _ Hb); change (n_brk s) with n in *; lia). specialize (Hnew eq_refl Hn0).
    pose proof (conn_paired _ _ n c (Conn SOCKET_CREATED 0 0 0) (refused (view kc)) Hnew) as Hpair. rewrite lookup_insert_eq, lookup_insert_ne in Hpair by done.
    unfold dequeued in Hpair at 1. rewrite lookup_insert_eq in Hpair. specialize (Hpair eq_refl eq_refl Hnc eq_refl eq_refl).
    match type of Hpair with conn_ok ?V _ => match goal with |- conn_ok ?V' _ => replace V' with V; [exact Hpair|] end end.
    cbn. rewrite !fmap_insert. unfold dequeued. same_updates.
Qed.

End accept.

Lemma accept_keeps s p : local_inv s -> op_ready s (LAccept p) -> wp (af_local_accept p) (fun _ s' => local_inv s') s.
Proof.
  intros Hi [k Hk]. pose proof Hi as (l & Q & Hb & Hq). apply (wp_local_accept s l p k); [done..|].
  destruct (Z.eqb_spec (so_state k) SOCKET_LISTENING) as [Hst|]; [|done]. destruct (Z.eqb_spec (listen_queue k) 0) as [|Hne]; [done|].
  pose proof (co_queue _ _ Hq p _ (conn_at s Q p k Hq Hk)) as Hc. destruct (Q p) as [|c lq] eqn:Hlq; [done|].
  destruct (conn_queue_head _ Q p _ c lq Hq (conn_at s Q p k Hq Hk)) as (vc & Hh & Hvc & Hwt & Hcp & _); [cbn; by rewrite Hst|done|].
  destruct (view_back _ _ _ Hvc) as (kc & Hkc & ->). cbn in Hh, Hwt. rewrite Hh. exists kc. split_and!; [done|done|].
  pose proof (bo_socks _ _ Hb c kc Hkc) as Kc. eapply (wp_open_session _ c _ (set_so_next 0 kc)).
  - by apply both_q.
  - apply Kc.
  - done.
  - apply Kc.
  - case_decide; [by eapply session_inv|]. intros b m Hn. by eapply refused_inv.
Qed.

Lemma inv_peer s p k : local_inv s -> socks s !! p = Some k -> peer k <> 0 ->
  exists kq, socks s !! peer k = Some kq /\ peer k <> p /\ peer kq = p /\ so_state k = SOCKET_CONNECTED /\ so_state kq = SOCKET_CONNECTED.
Proof.
  intros (l & Q & Hb & Hq) Hk Hne. pose proof (conn_at s Q p k Hq Hk) as Hp. destruct (co_peer _ _ Hq p _ Hp Hne) as (Hd & w & Hw & E).
  destruct (view_back _ _ _ Hw) as (kq & Hkq & ->). exists kq. cbn in Hd, Hkq, E, Hw. split_and!; try done.
  - by apply (co_conn _ _ Hq p _ Hp).
  - apply (co_conn _ _ Hq _ _ Hw). cbn. rewrite E. by apply (co_addr _ _ Hq p _ Hp).
Qed.

(** ** Runs *)

Section runs.
Context (driver : list (list Z) -> list Z -> Z) (junk : list Z).

Inductive local_step : net -> net -> Prop :=
| step_op op s s' : op_ready s op -> run_op driver junk op s = Ok (tt, s') -> local_step s s'.

Lemma op_keeps s op : local_inv s -> op_ready s op -> wp (run_op driver junk op) (fun _ s' => local_inv s') s.
Proof.
  intros Hi Hr. destruct op; cbn [run_op]; apply (wp_discard _ local_inv).
  - pose proof Hi as (l & Q & Hb & _). apply wp_new_socket; [apply Hb|]. case_decide; [by apply inv_new|]. intros b m Hn. by apply inv_heap.
  - by apply bind_keeps.
  - by apply listen_keeps.
  - by apply connect_keeps.
  - by apply wait_keeps.
  - by apply accept_keeps.
  - by apply send_keeps.
  - by apply recv_keeps.
  - by apply close_keeps.
Qed.

(** No sockets yet. *)
Definition fresh_store (s : net) : Prop :=
  socks s = ∅ /\ g_bound_sockets_head s = 0 /\ g_socket_list_lock s = false /\ 0 < n_brk s.

Lemma fresh_inv s : fresh_store s -> local_inv s.
Proof.
  intros (Hs & Hh & Hl & Hn). exists [], (fun _ => []). rewrite Hs, fmap_empty. split; [|by apply conn_empty].
  split; [done|done|done|]. intros p k Hk. by rewrite Hs in Hk.
Qed.

Lemma reachable_inv s0 s : fresh_store s0 -> rtc local_step s0 s -> local_inv s.
Proof.
  intros Hf Hr. apply fresh_inv in Hf. induction Hr as [|s s1 s2 Hstep _ IH]; [done|]. apply IH. destruct Hstep as [op s s' Hready Hrun].
  pose proof (op_keeps s op Hf Hready) as H. unfold wp in H. by rewrite Hrun in H.
Qed.

(** C16: Local sockets under any sequence of operations of any threads, each on
    an open socket and none closing a client whose [connect] is pending
    ([op_ready]; after such a close [accept] follows a dangling pointer,
    [closed_client_dangles]): no operation stops, so none follows a dangling
    pointer or takes a lock twice;
    a peer is always another open socket that points back, and both are
    connected; and a client that waits for an answer is in the queue of
    exactly one open socket. *)
Theorem local_run_safe s0 s :
  fresh_store s0 -> rtc local_step s0 s ->
  (forall op, op_ready s op -> exists s', run_op driver junk op s = Ok (tt, s')) /\
  (forall p k, socks s !! p = Some k -> peer k <> 0 -> exists kq, socks s !! peer k = Some kq /\ peer k <> p /\ peer kq = p /\
     so_state k = SOCKET_CONNECTED /\ so_state kq = SOCKET_CONNECTED) /\
  (forall c k, socks s !! c = Some k -> so_state k = SOCKET_CONNECTING -> exists r,
     (exists kr lq, socks s !! r = Some kr /\ chain (socks s) so_next (listen_queue kr) lq /\ c ∈ lq) /\
     (forall r' kr' lq', socks s !! r' = Some kr' -> chain (socks s) so_next (listen_queue kr') lq' -> c ∈ lq' -> r' = r)).
Proof.
  intros Hf Hr. pose proof (reachable_inv s0 s Hf Hr) as Hi. pose proof Hi as (l & Q & Hb & Hq).
  assert (Hqueue : forall r kr, socks s !! r = Some kr -> chain (socks s) so_next (listen_queue kr) (Q r)).
  { intros r kr Hkr. apply chain_view. exact (co_queue _ _ Hq r _ (conn_at s Q r kr Hq Hkr)). }
  split_and!.
  - intros op Hready. pose proof (op_keeps s op Hi Hready) as H. unfold wp in H. destruct (run_op driver junk op s) as [[[] s']|]; [by exists s'|done].
  - intros p k. by apply inv_peer.
  - intros c k Hk Hst. pose proof (conn_at s Q c k Hq Hk) as Hc. destruct (co_in _ _ Hq c _ Hc Hst) as (r & [v Hv] & Hin).
    destruct (view_back _ _ _ Hv) as (kr & Hkr & ->). exists r. split; [exists kr, (Q r); by auto|].
    intros r' kr' lq' Hkr' Hc' Hin'. rewrite (chain_det _ _ _ _ _ Hc' (Hqueue r' kr' Hkr')) in Hin'.
    apply (co_one _ _ Hq r' r c); [by rewrite lookup_fmap, Hkr'|by eexists|done|done].
Qed.

End runs.
