(* ===== verification/LocalFlow.v ===== *)
(** * Local connections: data, set-up and the end

    What two connected local sockets promise: bytes arrive in order, a
    connection asked for and accepted joins the two, and a close is seen by
    the peer and by the clients that wait. *)

From Stdlib Require Import ZArith Lia.
From stdpp Require Import base tactics list gmap fin_maps.
From S2P Require Import Prelude Chains Bytes NetBase Net Tcp Rx Local SockSys NetInv NetIp NetSock SockThms LocalConn LocalInv LocalThms.

(** ** Data *)

(** A conversation from [p] to its peer [q]: what is written on one side and
    how much is asked for on the other, in any order. *)
Inductive traffic : Type := TSend (buf : list Z) | TRecv (len : Z).

(** The bytes that [sendto] accepted and the bytes that [recvfrom] returned. *)
Definition talk1 (p q : Z) (t : traffic) : M net (list Z * list Z) :=
  match t with
  | TSend buf => n <-- af_local_sendto p buf [] ;; kret (take (Z.to_nat n) buf, [])
  | TRecv len => r <-- af_local_recvfrom q len 0 ;; kret ([], match r with Some (_, d, _) => d | None => [] end)
  end.
Fixpoint talk (p q : Z) (ts : list traffic) : M net (list Z * list Z) :=
  match ts with
  | [] => kret ([], [])
  | t :: ts' => a <-- talk1 p q t ;; b <-- talk p q ts' ;; kret (a.1 ++ b.1, a.2 ++ b.2)
  end.

(** [p] and [q] are peers. *)
Definition peers (s : net) (p q : Z) (kq : socket) : Prop :=
  local_inv s /\ q <> 0 /\ socks s !! q = Some kq /\ peer kq = p /\ (exists kp, socks s !! p = Some kp /\ peer kp = q).

Lemma peers_facts s p q kq : peers s p q kq ->
  exists kp, socks s !! p = Some kp /\ peer kp = q /\ q <> p /\ so_state kp = SOCKET_CONNECTED /\ so_state kq = SOCKET_CONNECTED.
Proof.
  intros (Hi & H0 & Hq & Hp & kp & Hkp & E). exists kp. destruct (inv_peer s p kp Hi Hkp) as (kq' & Hq' & Hne & _ & S1 & S2); [congruence|].
  rewrite E in Hq', Hne. assert (kq' = kq) as -> by congruence. done.
Qed.

(** An update of the data of [q]. *)
Lemma peers_data s p q kq kq' :
  peers s p q kq -> local_inv (sk q kq' s) -> peer kq' = peer kq -> peers (sk q kq' s) p q kq'.
Proof.
  intros Hp Hi E. destruct (peers_facts _ _ _ _ Hp) as (kp & Hkp & Ep & Hne & _). destruct Hp as (_ & H0 & _ & Hpp & _).
  split_and!; [done|done|apply sk_lookup|congruence|]. exists kp. by rewrite sk_other.
Qed.
Lemma peers_woke s p q kq c : peers s p q kq -> peers (woke c s) p q kq.
Proof. intros (Hi & H). split; [by apply inv_woke|done]. Qed.

Lemma wp_talk_send s p q kq buf (R : Z -> net -> Prop) :
  peers s p q kq -> zlen buf <> 0 ->
  (forall m kq' s', m = Nat.min (length buf) (Z.to_nat (ring_room kq)) -> peers s' p q kq' -> stream kq' = stream kq ++ take m buf -> R (Z.of_nat m) s') ->
  wp (af_local_sendto p buf []) R s.
Proof.
  intros Hp Hbuf HR. destruct (peers_facts _ _ _ _ Hp) as (kp & Hkp & Ep & Hne & Sp & Sq). pose proof Hp as (Hi & H0 & Hkq & _).
  pose proof Hi as (l & Q & Hb & _). apply (wp_local_sendto s l p kp buf []); [done..|]. intros q' Eq. unfold dest_of in Eq.
  rewrite Sp, Ep, (proj2 (Z.eqb_neq q 0)) in Eq by done. cbn in Eq. subst q'. rewrite decide_False by lia. exists kq. split; [done|].
  unfold af_local_is_active. rewrite Sq. change (negb (SOCKET_CONNECTED =? SOCKET_CREATED) && _) with true. cbn beta iota.
  intros kq' m Em (Hok & Hs & b & h & ->).
  assert (Hp' : peers (sk q (set_rx (Some b) h (rx_tail kq) kq) s) p q (set_rx (Some b) h (rx_tail kq) kq)).
  { apply (peers_data s p q kq); [done| |done]. by eapply inv_data. }
  eapply HR; [done| |exact Hs]. destruct (decide (m = 0%nat)); [done|by apply peers_woke].
Qed.

Lemma wp_talk_recv s p q kq len (R : option local_received -> net -> Prop) :
  peers s p q kq -> 0 < len ->
  (stream kq = [] -> R None s) ->
  (forall d kq' s', d = take (Z.to_nat len) (stream kq) -> stream kq <> [] -> peers s' p q kq' -> stream kq' = drop (Z.to_nat len) (stream kq) ->
     R (Some (zlen d, d, None)) s') ->
  wp (af_local_recvfrom q len 0) R s.
Proof.
  intros Hp Hlen Hnone Hsome. destruct (peers_facts _ _ _ _ Hp) as (kp & Hkp & Ep & Hne & Sp & Sq). pose proof Hp as (Hi & H0 & Hkq & _).
  pose proof Hi as (l & Q & Hb & _). apply (wp_local_recvfrom s l q kq len 0); [done|done|lia|lia|]. case_bool_decide as E.
  - rewrite Sq. change (SOCKET_CONNECTED =? SOCKET_CONNECTED) with true. by apply Hnone.
  - intros kq' d Ed (Hok & Hs & t & ->). change ((0 <? 0) && _) with false. cbn beta iota.
    assert (Hp' : peers (sk q (set_rx (rx_buffer kq) (rx_head kq) t kq) s) p q (set_rx (rx_buffer kq) (rx_head kq) t kq)).
    { apply (peers_data s p q kq); [done| |done]. eapply inv_data; try done. exact (lk_ring _ _ _ _ (bo_socks _ _ Hb q kq Hkq)). }
    by eapply Hsome.
Qed.

(** C17: Whatever [p] writes and its peer [q] reads, in any order and amounts: the
    bytes returned so far, followed by those still in [q]'s buffer, are the
    bytes that were there at the start, followed by those accepted from [p]. *)
Theorem local_stream_fidelity ts s p q kq :
  peers s p q kq -> (forall len, TRecv len ∈ ts -> 0 <= len) ->
  wp (talk p q ts) (fun io s' => exists kq', peers s' p q kq' /\ io.2 ++ stream kq' = stream kq ++ io.1) s.
Proof.
  revert s kq. induction ts as [|t ts IH]; intros s kq Hp Hts; cbn [talk].
  - wp_steps. exists kq. split; [done|]. by rewrite app_nil_r.
  - assert (Hrest : forall s1 kq1 a d, peers s1 p q kq1 -> d ++ stream kq1 = stream kq ++ a ->
      wp (b <-- talk p q ts ;; kret (a ++ b.1, d ++ b.2)) (fun io s' => exists kq', peers s' p q kq' /\ io.2 ++ stream kq' = stream kq ++ io.1) s1).
    { intros s1 kq1 a d Hp1 E. wp_steps. eapply wp_mono; [apply (IH s1 kq1 Hp1); intros len Hin; apply Hts; by right|].
      intros io s' (kq' & Hp' & E'). wp_steps. exists kq'. split; [done|]. cbn [fst snd]. by rewrite <- app_assoc, E', app_assoc, E, app_assoc. }
    destruct t as [buf|len]; cbn [talk1]; wp_steps.
    + destruct (Z.eqb_spec (zlen buf) 0) as [E|E].
      * unfold af_local_sendto. rewrite E, orb_true_r. wp_steps. apply (wp_bind_inv (talk p q ts)), (Hrest s kq [] []); [done|]. by rewrite app_nil_r.
      * apply (wp_talk_send s p q kq); [done|done|]. intros m kq' s' Em Hp' Hs'. wp_steps. rewrite Nat2Z.id.
        by apply (wp_bind_inv (talk p q ts)), (Hrest s' kq' (take m buf) []).
    + destruct (Z.eqb_spec len 0) as [->|E].
      * unfold af_local_recvfrom. rewrite orb_true_r. wp_steps. apply (wp_bind_inv (talk p q ts)), (Hrest s kq [] []); [done|]. by rewrite app_nil_r.
      * pose proof (Hts len ltac:(by left)). apply (wp_talk_recv s p q kq); [done|lia| |].
        -- intros _. wp_steps. apply (wp_bind_inv (talk p q ts)), (Hrest s kq [] []); [done|]. by rewrite app_nil_r.
        -- intros d kq' s' -> _ Hp' Hs'. wp_steps. apply (wp_bind_inv (talk p q ts)), (Hrest s' kq' [] (take (Z.to_nat len) (stream kq))); [done|].
           by rewrite Hs', take_drop, app_nil_r.
Qed.

(** ** Set-up *)

(** A client that asks a listening socket for a connection, found under the
    address the server is bound to, sleeps; when the server then accepts it,
    the client's wait ends with success, and the client and the new socket are
    peers with empty buffers. *)
Theorem local_connect_accepts s c p addr kc kp :
  local_inv s -> (2 <= n_mem s)%nat -> c <> p -> zlen addr <> 0 ->
  socket_find_by_address addr AF_LOCAL s = Ok (p, s) ->
  socks s !! c = Some kc -> so_state kc = SOCKET_CREATED -> socks s !! p = Some kp -> so_state kp = SOCKET_LISTENING ->
  wp (a <-- af_local_connect c addr ;; n <-- af_local_accept p ;; w <-- connect_wait c ;; kret (a, n, w))
    (fun r s' => exists n kn kc', r = (None, Some n, Some 0) /\ socks s !! n = None /\
       peers s' c n kn /\ stream kn = [] /\ peers s' n c kc' /\ stream kc' = stream kc) s.
Proof.
  intros Hi Hm Hcp Ha Hfind Hc Sc Hp Sp. pose proof Hi as (l & Q & Hb & Hq). pose proof (lk_addr _ _ _ _ (bo_socks _ _ Hb p kp Hp)) as Hp0.
  pose proof (lk_addr _ _ _ _ (bo_socks _ _ Hb c kc Hc)) as Hc0.
  assert (Eq : address_of s l addr = p).
  { pose proof (wp_find_address s l addr (fun r _ => r = address_of s l addr) Hb eq_refl) as H. unfold wp in H. by rewrite Hfind in H. }
  assert (Hconn : wp (af_local_connect c addr) (fun r s1 => r = None /\ s1 = woke p (both s c p (asking kc kp) (set_listen_queue c kp))) s).
  { apply (wp_local_connect s l c addr kc); [done..|]. rewrite Eq. intros q ->. rewrite decide_False by lia. intros kq Hkq. assert (kq = kp) as -> by congruence.
    unfold may_connect. by rewrite Sc, Sp. }
  wp_steps. eapply wp_mono; [exact (wp_both _ _ _ _ (connect_keeps s c addr Hi ltac:(by exists kc)) Hconn)|].
  intros a s1 (Hi1 & -> & E1). wp_steps. pose proof Hi1 as (l1 & Q1 & Hb1 & Hq1).
  assert (Hp1 : socks s1 !! p = Some (set_listen_queue c kp)) by (rewrite E1; by apply both_q).
  assert (Hc1 : socks s1 !! c = Some (asking kc kp)) by (rewrite E1; apply both_p).
  assert (Hbrk : (n_brk s1, n_mem s1) = (n_brk s, n_mem s)) by (by rewrite E1). injection Hbrk as Hbrk Hmem.
  assert (Hf : socks s !! n_brk s = None) by by eapply fresh_brk.
  assert (Hnc : n_brk s <> c) by congruence.
  assert (Hacc : wp (af_local_accept p) (fun r s2 => r = Some (n_brk s) /\ socks s2 !! n_brk s = Some (linked c (created (so_type kp))) /\
      socks s2 !! c = Some (linked (n_brk s) (set_so_next 0 (asking kc kp)))) s1).
  { apply (wp_local_accept s1 l1 p (set_listen_queue c kp)); [done..|]. cbn [so_state set_listen_queue listen_queue]. rewrite Sp, (proj2 (Z.eqb_neq c 0)) by lia. change (SOCKET_LISTENING =? SOCKET_LISTENING) with true.
    cbn beta iota. exists (asking kc kp). split_and!; [done|done|]. eapply (wp_open_session _ c _ (set_so_next 0 (asking kc kp))).
    - by apply both_q.
    - apply (lk_free _ _ _ _ (bo_socks _ _ Hb c kc Hc)).
    - done.
    - change (0 < c < n_brk s1). lia.
    - rewrite decide_True by (change (2 <= n_mem s1)%nat; lia). change (n_brk (popped _ _ _ _ _)) with (n_brk s1). rewrite Hbrk. split_and!; [done|apply both_p|by apply both_q]. }
  eapply wp_mono; [exact (wp_both _ _ _ _ (accept_keeps s1 p Hi1 ltac:(by eexists)) Hacc)|].
  intros n s2 (Hi2 & -> & Hn2 & Hc2). wp_steps. pose proof Hi2 as (l2 & Q2 & Hb2 & _). eapply wp_connect_wait; [exact Hc2| |].
  { exact (lk_free _ _ _ _ (bo_socks _ _ Hb2 c _ Hc2)). }
  wp_steps. exists (n_brk s), (linked c (created (so_type kp))), (linked (n_brk s) (set_so_next 0 (asking kc kp))).
  pose proof (bo_brk _ _ Hb). split_and!; try done; unfold peers; split_and!; try done; first [lia|by eexists].
Qed.

(** ** The end *)

Section closing.
Context (driver : list (list Z) -> list Z -> Z) (junk : list Z).

(** The close of a socket that does not wait for an answer: it is gone.  Its
    peer still reads, in order, what was sent before, then end of file, and
    can no longer send; and every client in its queue, until then asleep, finds
    that it was refused. *)
Theorem local_close_seen s p k :
  local_inv s -> socks s !! p = Some k -> so_state k <> SOCKET_CONNECTING ->
  wp (socket_vfs_close driver junk p) (fun r s' => r = 0 /\ local_inv s' /\ socks s' !! p = None /\
    (forall kq, peer k <> 0 -> socks s !! peer k = Some kq ->
       (forall len, 0 < len -> let d := take (Z.to_nat len) (stream kq) in
          wp (af_local_recvfrom (peer k) len 0) (fun r _ => r = Some (zlen d, d, None)) s') /\
       (forall buf, wp (af_local_sendto (peer k) buf []) (fun r s2 => r = -1 /\ s2 = s') s')) /\
    (forall c lq, chain (socks s) so_next (listen_queue k) lq -> c ∈ lq ->
       wp (connect_wait c) (fun r _ => r = None) s /\ wp (connect_wait c) (fun r s2 => r = Some (-1) /\ s2 = s') s')) s.
Proof.
  intros Hi Hk Hst. pose proof Hi as (l & Q & Hb & Hq). pose proof (conn_at s Q p k Hq Hk) as Hp.
  assert (Hclose : wp (socket_vfs_close driver junk p) (fun r s' => r = 0 /\ view <$> socks s' = leave (peer k) (refuse_conns (Q p) (delete p (view <$> socks s))) /\
      (forall x k', socks s' !! x = Some k' -> exists k0, socks s !! x = Some k0 /\ body k' = body k0)) s).
  { by apply (wp_local_close driver junk s l Q p k). }
  eapply wp_mono; [exact (wp_both _ _ _ _ (close_keeps driver junk s p Hi ltac:(by exists k)) Hclose)|].
  intros r s' (Hi' & -> & Hv & Hbody). pose proof Hi' as (l' & Q' & Hb' & Hq').
  assert (Hnd : NoDup (Q p)) by (eapply chain_nodup, (co_queue _ _ Hq p _ Hp)).
  assert (Hself : p ∉ Q p) by by eapply conn_not_in.
  split_and!; try done.
  - destruct (socks s' !! p) as [k'|] eqn:E; [|done]. exfalso. assert (H : (view <$> socks s') !! p = Some (view k')) by by rewrite lookup_fmap, E.
    rewrite Hv in H. unfold leave in H. destruct (decide _) as [E0|E0].
    + rewrite refuse_lookup, decide_False, lookup_delete_eq in H by done. done.
    + destruct (co_peer _ _ Hq p _ Hp E0) as [Hne _]. cbn in Hne. rewrite lookup_alter_ne, refuse_lookup, decide_False, lookup_delete_eq in H by done. done.
  - intros kq E0 Hkq. destruct (inv_peer s p k Hi Hk E0) as (kq' & Hq2 & Hne & Pq & _ & Sq). assert (kq' = kq) as -> by congruence.
    assert (Hin : peer k ∉ Q p).
    { eapply conn_not_in; [exact Hq|exact (conn_at s Q _ kq Hq Hkq)| |exact Hp]. cbn. by rewrite Sq. }
    assert (H : (view <$> socks s') !! peer k = Some (freed (view kq))).
    { rewrite Hv. unfold leave. rewrite decide_False, lookup_alter_eq, refuse_lookup, decide_False, lookup_delete_ne, lookup_fmap, Hkq by done. done. }
    destruct (view_back _ _ _ H) as (k2 & Hk2 & E2). unfold freed, view in E2. injection E2 as S2 P2 _ _.
    destruct (Hbody _ _ Hk2) as (k3 & Hk3 & E3). assert (k3 = kq) as -> by congruence.
    assert (Es : stream k2 = stream kq) by (change (stream (body k2) = stream (body kq)); by rewrite E3). split.
    + intros len Hlen. rewrite <- Es. apply (wp_local_recvfrom s' l' _ k2); [done|done|done|lia|]. case_bool_decide as Ee.
      * rewrite <- S2, Ee. by rewrite take_nil.
      * intros k4 d -> _. done.
    + intros buf. destruct (Z.eqb_spec (zlen buf) 0) as [E|E].
      * unfold af_local_sendto. rewrite E, orb_true_r. by wp_steps.
      * apply (wp_local_sendto s' l' _ k2); [done..|]. intros q ->. unfold dest_of. rewrite <- S2.
        change (SOCKET_CREATED =? SOCKET_CONNECTED) with false. cbn. done.
  - intros c lq Hlq Hin. pose proof (chain_view _ _ _ (co_queue _ _ Hq p _ Hp)) as Hlq'. cbn in Hlq'.
    rewrite (chain_det _ _ _ _ _ Hlq Hlq') in Hin. destruct (co_wait _ _ Hq p _ c Hp Hin) as (w & Hw & Ew).
    destruct (view_back _ _ _ Hw) as (kw & Hkw & ->). cbn in Ew. split.
    + eapply wp_connect_wait; [done|exact (lk_free _ _ _ _ (bo_socks _ _ Hb c kw Hkw))|]. by rewrite Ew.
    + assert (Hcp : c <> p) by (by intros ->). assert (Hcq : peer k <> 0 -> peer k <> c).
      { intros E0 <-. destruct (inv_peer s p k Hi Hk E0) as (kq & Hkq & _ & _ & _ & Sq).
        assert (kq = kw) as -> by congruence. by rewrite Ew in Sq. }
      assert (H : (view <$> socks s') !! c = Some (refused (view kw))).
      { rewrite Hv. unfold leave. destruct (decide _); [|rewrite lookup_alter_ne by auto];
          rewrite refuse_lookup, decide_True, lookup_delete_ne, Hw by done; done. }
      destruct (view_back _ _ _ H) as (k2 & Hk2 & E2). unfold refused, view in E2. injection E2 as S2 _ _ _.
      eapply wp_connect_wait; [done|exact (lk_free _ _ _ _ (bo_socks _ _ Hb' c k2 Hk2))|]. by rewrite <- S2.
Qed.

End closing.
