(* ===== verification/TcpThms.v ===== *)
(** * TCP between two hosts

    The segment that one host sends is the segment the other one reads; what a
    connection needs on both sides ([connected]); the transfer of data with
    its acknowledgement, for one segment and for a stream of them; and the
    three-way handshake that sets a connection up. *)

From Stdlib Require Import ZArith Lia.
From stdpp Require Import base tactics list gmap fin_maps.
From S2P Require Import Prelude Chains Bytes NetBase Net Tcp NetInv NetIp NetSock.

Section tcp.
Context (driver : list (list Z) -> list Z -> Z) (junk stale : list Z).

(** ** Segments *)

Definition off_of (flags : Z) : Z := Z.lor (Z.shiftl 5 12) flags.
Definition seg_of (sp dp seq ack flags : Z) : segment := Segment sp dp (htonl seq) (htonl ack) (htons (off_of flags)).

Lemma off_of_spec flags : 0 <= flags < 4096 -> off_of flags = 20480 + flags.
Proof.
  intros Hf. unfold off_of. rewrite Z.lor_comm. change (Z.shiftl 5 12) with (5 * 2 ^ 12). rewrite lor_add by lia. lia.
Qed.
Lemma seg_flags flags : 0 <= flags < 4096 -> Z.land (ntohs (htons (off_of flags))) 0xFFF = flags.
Proof.
  intros Hf. rewrite off_of_spec, ntohs_htons by lia. change 0xFFF with (Z.ones 12). rewrite Z.land_ones by lia. zdiv_lia.
Qed.
Lemma seg_hlen flags : 0 <= flags < 4096 -> u8 (Z.land (Z.shiftr (ntohs (htons (off_of flags))) 12) 0x0F * 4) = 20.
Proof.
  intros Hf. rewrite off_of_spec, ntohs_htons, Z.shiftr_div_pow2 by lia.
  replace ((20480 + flags) / 2 ^ 12) with 5 by zdiv_lia. done.
Qed.

Lemma tcp_segment_split src dst sp dp seq ack flags win data :
  exists c, tcp_segment src dst sp dp seq ack flags win data = tcp_header sp dp seq ack (off_of flags) win c ++ data.
Proof. by eexists. Qed.
Lemma tcp_segment_length src dst sp dp seq ack flags win data :
  zlen (tcp_segment src dst sp dp seq ack flags win data) = 20 + zlen data.
Proof. destruct (tcp_segment_split src dst sp dp seq ack flags win data) as [c ->]. unfold zlen. rewrite length_app. cbn. lia. Qed.

Lemma tcp_load_ok src dst sp dp seq ack flags win data (s : net) :
  0 <= sp < 2 ^ 16 -> 0 <= dp < 2 ^ 16 ->
  tcp_load (tcp_segment src dst sp dp seq ack flags win data) s = Ok (seg_of sp dp seq ack flags, s).
Proof.
  intros Hs Hd. pose proof (tcp_segment_length src dst sp dp seq ack flags win data) as Hl. pose proof (zlen_nonneg data).
  destruct (tcp_segment_split src dst sp dp seq ack flags win data) as [c E]. rewrite E in *. clear E. unfold tcp_load.
  do 2 erewrite kbind_ok by (apply ld16_ok; lia). do 2 erewrite kbind_ok by (apply ld32_ok; lia).
  erewrite kbind_ok by (apply ld16_ok; lia). unfold kret, seg_of. do 3 f_equal.
  - exact (le16_join sp Hs).
  - exact (le16_join dp Hd).
  - exact (le32_join (htonl seq) (htonl_range _)).
  - exact (le32_join (htonl ack) (htonl_range _)).
  - exact (le16_join (htons (off_of flags)) (htons_range _)).
Qed.

(** The way of a segment to the state machine. *)
Lemma wp_tcp_input s i l n ip dst sp dp seq ack flags win data p k (Q : Z -> net -> Prop) :
  net_ok s i l n -> 0 <= sp < 2 ^ 16 -> 0 <= dp < 2 ^ 16 -> 0 <= flags < 4096 -> zlen data <= 1460 ->
  route (socks s) ip sp dp l 0 = p -> p <> 0 -> socks s !! p = Some k -> so_lock k = false ->
  wp (tcp_dispatch driver junk stale p (so_state k) (seg_of sp dp seq ack flags) flags ip
        (tcp_segment ip dst sp dp seq ack flags win data) (20 + zlen data)) Q (sk p (set_so_lock true k) s) ->
  wp (tcp_input driver junk stale (tcp_segment ip dst sp dp seq ack flags win data) (20 + zlen data) ip) Q s.
Proof.
  intros H Hs Hd Hf Hl Hr Hp Hk Hlk HQ. pose proof (zlen_nonneg data). unfold tcp_input.
  rewrite (proj2 (Z.ltb_ge _ _)) by (unfold TCP_SIZE; lia). wp_steps. eapply wp_intro; [by apply tcp_load_ok|]. wp_steps.
  eapply wp_intro; [by eapply tcp_lookup_ok|]. cbn [sg_src sg_dst sg_off seg_of]. rewrite Hr.
  rewrite (proj2 (Z.eqb_neq _ _) Hp). wp_steps. eapply wp_sock_lock; [done..|]. wp_steps.
  eapply wp_socket_at; [apply sk_lookup|]. by rewrite seg_flags by done.
Qed.

(** ** Answers *)

(** The state after a socket has been changed and a segment sent from a buffer
    of the heap. *)
Definition posted (size p : Z) (k : socket) (f : list Z) (s : net) : net :=
  sent f (set_heap (n_brk s + size) (n_mem s) (sk p k s)).
Definition answered : Z -> socket -> list Z -> net -> net := posted TCP_SIZE.

Lemma posted_sk size p k k1 f s : posted size p k f (sk p k1 s) = posted size p k f s.
Proof. unfold posted. by rewrite sk_sk. Qed.

Lemma posted_freed size p k f s :
  (0 < n_mem s)%nat -> let s1 := sent f (sk p k (set_heap (n_brk s + size) (n_mem s - 1) s)) in
  set_heap (n_brk s1) (S (n_mem s1)) s1 = posted size p k f s.
Proof. intros Hm s1. unfold s1, posted, sent, sk. clear s1. flat_net s. f_equal. lia. Qed.

Lemma net_posted size s i l n p k k' f :
  net_ok s i l n -> socks s !! p = Some k -> sock_ok k' -> global_next k' = global_next k -> 0 <= size ->
  net_ok (posted size p k' f s) i l n.
Proof.
  intros H Hk Hk' Hg Hz. pose proof (net_sk _ _ _ _ _ _ k' H Hk Hk' Hg) as [H1 H2 H3 H4].
  pose proof (zlen_nonneg f). pose proof (ho_brk _ _ _ (no_host _ _ _ _ H)). split; try done.
  - apply host_sent. eapply host_heap; [apply H1|lia|apply H].
  - intros x Hx. specialize (H4 x Hx). cbn in *. lia.
Qed.

Definition tcp_frame (s : net) (i : net_interface) (mac : list Z) (dst sp dp seq ack flags win : Z) (data : list Z) : list Z :=
  ip_frame s i mac dst IPPROTO_TCP (tcp_segment (if_ip i) dst sp dp seq ack flags win data).

Lemma wp_reply s i p k dst mac sp dp seq ack flags win (Q : Z -> net -> Prop) :
  host_ok s i 1 -> socks s !! p = Some k -> mac_for s dst = Some mac ->
  (forall r, let s1 := sent (tcp_frame s i mac dst sp dp seq ack flags win []) (sk p (set_so_lock false k) s) in
     Q r (set_heap (n_brk s1) (S (n_mem s1)) s1)) ->
  wp (tcp_reply driver junk p dst sp dp seq ack flags win) Q s.
Proof.
  intros H Hk Hm HQ. unfold tcp_reply. wp_steps. eapply wp_intro; [by eapply get_ip_ok|]. wp_steps.
  eapply wp_sock_unlock; [done|]. wp_steps.
  apply (wp_ip_output _ _ _ i _ _ _ mac); [by apply host_socks | by rewrite tcp_segment_length | done|].
  rewrite (ip_frame_id _ s) by done. fold (tcp_frame s i mac dst sp dp seq ack flags win []).
  revert HQ. generalize (tcp_frame s i mac dst sp dp seq ack flags win []). intros f HQ.
  wp_steps. unfold n_kfree. wp_steps. apply HQ.
Qed.

Lemma wp_answer s i p k k' dst mac sp dp seq ack flags win (Q : Z -> net -> Prop) :
  host_ok s i 2 -> socks s !! p = Some k -> k' = set_so_lock false k -> mac_for s dst = Some mac ->
  Q 0 (answered p k' (tcp_frame s i mac dst sp dp seq ack flags win []) s) ->
  wp (b <-- n_kmalloc TCP_SIZE ;; if b =? 0 then sock_unlock p ;;; kret 0 else
      _ <-- tcp_reply driver junk p dst sp dp seq ack flags win ;; kret 0) Q s.
Proof.
  intros H Hk -> Hm HQ. pose proof (ho_mem _ _ _ H) as Hroom. pose proof (ho_brk _ _ _ H) as Hbrk. wp_steps.
  apply wp_n_kmalloc; [lia|]. rewrite (proj2 (Z.eqb_neq _ _)) by lia. wp_steps.
  assert (H1 : host_ok (set_heap (n_brk s + TCP_SIZE) (n_mem s - 1) s) i 1) by (eapply host_heap; [done| |]; unfold TCP_SIZE; lia).
  eapply (wp_reply _ i p k _ mac); [done..|]. intros r. cbv zeta. unfold tcp_frame. rewrite (ip_frame_id _ s) by done.
  fold (tcp_frame s i mac dst sp dp seq ack flags win []). revert HQ.
  generalize (tcp_frame s i mac dst sp dp seq ack flags win []). intros f HQ. wp_steps.
  unfold answered in HQ. rewrite <- posted_freed in HQ by lia. exact HQ.
Qed.

(** ** Data *)

Lemma rx_free_spec buf h t : ring_ok buf h t -> rx_free h t = SOCKET_BUFFER_SIZE - 1 - ring_used h t.
Proof.
  intros [_ Hh Ht]. unfold rx_free, rx_used, ring_used, SOCKET_BUFFER_SIZE in *. destruct (Z.leb_spec t h).
  - rewrite (u32_small (h - t)), u32_small, Z.mod_small by lia. lia.
  - rewrite (u32_small (t - h)), (u32_small (16384 - (t - h))), u32_small by lia.
    replace ((h - t) mod 16384) with (h - t + 16384) by zdiv_lia. lia.
Qed.

(** Data that fits is stored, acknowledged and announced. *)
Lemma wp_data s i p k buf ip mac dst sp dp seq ack flags win payload (Q : Z -> net -> Prop) :
  host_ok s i 2 -> socks s !! p = Some k -> rx_buffer k = Some buf -> ring_ok buf (rx_head k) (rx_tail k) ->
  mac_for s ip = Some mac -> 0 <= flags < 4096 -> has flags TCP_FLAG_ACK = true ->
  0 <= seq < 2 ^ 32 -> 0 <= ack < 2 ^ 32 -> 0 < zlen payload <= 1460 ->
  ring_used (rx_head k) (rx_tail k) + zlen payload < SOCKET_BUFFER_SIZE ->
  (forall buf' head', let w := SOCKET_BUFFER_SIZE - 1 - zlen (stream k ++ payload) in
     ring_ok buf' head' (rx_tail k) -> ring_data buf' head' (rx_tail k) = stream k ++ payload ->
     Q 0 (answered p (set_so_lock false (set_seqs ack (u32 (seq + zlen payload)) (set_rx (Some buf') head' (rx_tail k) k)))
            (tcp_frame s i mac ip dp sp ack (u32 (seq + zlen payload)) TCP_FLAG_ACK w [])
            (set_woken (woken_chans s ++ [p]) s))) ->
  wp (tcp_established driver junk p (seg_of sp dp seq ack flags) flags ip
        (tcp_segment ip dst sp dp seq ack flags win payload) (20 + zlen payload)) Q s.
Proof.
  intros H Hk Hb Hr Hm Hf Ha Hseq Hack Hp Hu HQ. unfold tcp_established. cbn [sg_off sg_seq sg_ack sg_src sg_dst seg_of].
  rewrite seg_hlen by done. change (20 <? TCP_SIZE) with false. rewrite (proj2 (Z.ltb_ge (20 + zlen payload) 20)) by lia.
  cbn beta iota delta [orb]. cbv zeta. replace (u32 (20 + zlen payload - 20)) with (zlen payload) by (rewrite u32_small; lia).
  rewrite (proj2 (Z.ltb_lt 0 (zlen payload))), Ha by lia. cbn beta iota delta [andb]. wp_steps.
  eapply wp_socket_at; [done|]. rewrite (rx_free_spec buf) by done.
  rewrite (proj2 (Z.ltb_ge _ _)) by lia. wp_steps.
  apply wp_bytes_out; [lia|lia|by rewrite tcp_segment_length|].
  replace (take _ (drop _ _)) with payload.
  2: { destruct (tcp_segment_split ip dst sp dp seq ack flags win payload) as [c ->]. rewrite drop_app_length' by done.
       unfold zlen. rewrite Nat2Z.id. symmetry. apply firstn_all. }
  wp_steps. eapply wp_opt; [done|]. wp_steps. apply (wp_ring_put _ _ _ (rx_tail k)); [done..|].
  intros buf' head' Hr' Hu' Hd'. unfold ntohl. fold (ntohl (htonl seq)) (ntohl (htonl ack)).
  rewrite !ntohl_htonl by done. wp_steps. eapply wp_on_socket; [done|]. unfold wakeup_sock. wp_steps. cbn [fst snd].
  set (k1 := set_seqs _ _ _). apply (wp_bind_inv (n_kmalloc TCP_SIZE)). eapply (wp_answer _ i p k1 _ _ mac); [by apply host_woken, host_socks | apply sk_lookup |
    reflexivity | done |]. unfold tcp_frame. rewrite (ip_frame_id _ s) by done.
  fold (tcp_frame s i mac ip dp sp ack (u32 (seq + zlen payload)) TCP_FLAG_ACK
          (u16 (if 65535 <? rx_free head' (rx_tail k) then 65535 else rx_free head' (rx_tail k))) []).
  assert (Ew : u16 (if 65535 <? rx_free head' (rx_tail k) then 65535 else rx_free head' (rx_tail k)) =
    SOCKET_BUFFER_SIZE - 1 - zlen (stream k ++ payload)).
  { assert (Es : zlen (stream k ++ payload) = ring_used (rx_head k) (rx_tail k) + zlen payload).
    { unfold stream. rewrite Hb, <- (ring_data_length buf). unfold zlen. rewrite length_app. lia. }
    pose proof (Z.mod_pos_bound (rx_head k - rx_tail k) SOCKET_BUFFER_SIZE eq_refl) as Hm0. fold (ring_used (rx_head k) (rx_tail k)) in Hm0.
    rewrite (rx_free_spec buf'), Hu', Es by done. unfold SOCKET_BUFFER_SIZE in *.
    rewrite (proj2 (Z.ltb_ge 65535 _)) by lia. rewrite u16_small by lia. lia. }
  rewrite Ew. set (fr := tcp_frame _ _ _ _ _ _ _ _ _ _ _).
  change (set_woken _ (sk p k1 s)) with (sk p k1 (set_woken (woken_chans s ++ [p]) s)). unfold answered. rewrite posted_sk.
  apply (HQ buf' head'); [done|]. unfold stream. by rewrite Hb.
Qed.

Lemma wp_send s i l p k mac buf (Q : Z -> net -> Prop) :
  net_ok s i l 2 -> socks s !! p = Some k -> so_lock k = false -> so_state k = TCP_STATE_ESTABLISHED ->
  remote_addr_len k <> 0 -> mac_for s (remote_ip k) = Some mac -> 0 < zlen buf <= 1460 ->
  (forall w f, 0 <= driver w f) ->
  Q (zlen buf) (posted (20 + zlen buf) p (set_so_lock false (set_seqs (u32 (local_seq k + zlen buf)) (remote_ack k) k))
    (tcp_frame s i mac (remote_ip k) (local_port k) (remote_port k) (local_seq k) (remote_ack k)
       (Z.lor TCP_FLAG_ACK TCP_FLAG_PSH) 2048 buf) s) ->
  wp (tcp_send_stream driver junk p buf) Q s.
Proof.
  intros H Hk Hlk Hst Hrl Hm Hl Hdrv HQ. pose proof (no_host _ _ _ _ H) as Hh. pose proof (no_socks _ _ _ _ H p k Hk) as Ho.
  cbn in Ho. pose proof (ho_mem _ _ _ Hh) as Hroom. pose proof (ho_brk _ _ _ Hh) as Hbrk.
  assert (Hp : p <> 0) by (pose proof (no_fresh _ _ _ _ H p ltac:(by rewrite Hk)); lia).
  assert (Hll : zlen (local_addr k) = 256) by (unfold zlen; by rewrite (so_local _ Ho)).
  assert (Hrr : zlen (remote_addr k) = 256) by (unfold zlen; by rewrite (so_remote _ Ho)).
  unfold tcp_send_stream. rewrite (proj2 (Z.eqb_neq _ _) Hp), (proj2 (Z.eqb_neq (zlen buf) 0)) by lia. cbn [orb]. wp_steps.
  eapply wp_sock_lock; [done..|]. wp_steps. eapply wp_socket_at; [apply sk_lookup|]. set (k1 := set_so_lock true k).
  change (so_state k1) with (so_state k). rewrite Hst. change (negb _) with false. change (remote_addr_len k1) with (remote_addr_len k).
  rewrite (proj2 (Z.eqb_neq _ _) Hrl). cbv zeta. unfold TCP_SIZE, IP_SIZE. rewrite u32_small by lia.
  rewrite (proj2 (Z.ltb_ge 1500 _)) by lia. cbn beta iota. wp_steps.
  apply wp_n_kmalloc; [exact (Nat.lt_le_trans _ _ _ (ltac:(lia) : (0 < 2)%nat) Hroom)|].
  change (n_brk (sk p k1 s)) with (n_brk s). rewrite (proj2 (Z.eqb_neq _ _)) by lia. wp_steps.
  unfold sin_port, sin_ip. eapply wp_intro; [apply ld16_ok; [lia|exact (ltac:(lia) : 2 + 2 <= zlen (local_addr k))]|]. wp_steps.
  eapply wp_intro; [apply ld16_ok; [lia|exact (ltac:(lia) : 2 + 2 <= zlen (remote_addr k))]|]. wp_steps.
  eapply wp_intro; [apply ld32_ok; [lia|exact (ltac:(lia) : 4 + 4 <= zlen (remote_addr k))]|]. wp_steps.
  set (s1 := set_heap _ _ (sk p k1 s)).
  assert (H1 : host_ok s1 i 1) by (eapply host_heap; [by apply host_socks|cbn; lia|cbn; lia]).
  eapply wp_intro; [by eapply get_ip_ok|]. wp_steps. eapply wp_on_socket; [apply sk_lookup|]. wp_steps.
  eapply wp_sock_unlock; [apply sk_lookup|]. rewrite sk_sk. wp_steps.
  apply (wp_ip_output _ _ _ i _ _ _ mac); [by apply host_socks | by rewrite tcp_segment_length; lia | done|].
  rewrite (ip_frame_id _ s) by done. change (get32 _ _) with (remote_ip k). change (get16 (local_addr k1) _) with (local_port k).
  change (get16 (remote_addr k1) _) with (remote_port k).
  change (local_seq k1) with (local_seq k). change (remote_ack k1) with (remote_ack k).
  fold (tcp_frame s i mac (remote_ip k) (local_port k) (remote_port k) (local_seq k) (remote_ack k)
       (Z.lor TCP_FLAG_ACK TCP_FLAG_PSH) 2048 buf). revert HQ.
  generalize (tcp_frame s i mac (remote_ip k) (local_port k) (remote_port k) (local_seq k) (remote_ack k)
       (Z.lor TCP_FLAG_ACK TCP_FLAG_PSH) 2048 buf). intros f HQ. unfold n_kfree. wp_steps.
  rewrite (proj2 (Z.ltb_ge _ 0)) by apply Hdrv. wp_steps. rewrite <- posted_freed in HQ by lia.
  unfold s1. change (sk p ?a (set_heap ?b ?m (sk p k1 s))) with (sk p a (sk p k1 (set_heap b m s))). rewrite sk_sk. exact HQ.
Qed.

(** ** The way of a segment *)

Lemma tcp_frame_length s i mac dst sp dp seq ack flags win data :
  length mac = 6%nat -> length (if_mac i) = 6%nat ->
  zlen (tcp_frame s i mac dst sp dp seq ack flags win data) = 54 + zlen data.
Proof. intros Hm Hi. unfold tcp_frame. rewrite ip_frame_length by done. rewrite tcp_segment_length. lia. Qed.

Lemma wp_receive_tcp s i mac t j l n sp dp seq ack flags win data pad q k (Q : unit -> net -> Prop) :
  host_ok s i 0 -> length mac = 6%nat -> net_ok t j l n -> 0 <= sp < 2 ^ 16 -> 0 <= dp < 2 ^ 16 -> 0 <= flags < 4096 ->
  zlen data <= 1460 -> zlen pad <= 46 ->
  route (socks t) (if_ip i) sp dp l 0 = q -> q <> 0 -> socks t !! q = Some k -> so_lock k = false ->
  wp (tcp_dispatch driver junk stale q (so_state k) (seg_of sp dp seq ack flags) flags (if_ip i)
        (tcp_segment (if_ip i) (if_ip j) sp dp seq ack flags win data) (20 + zlen data)) (fun _ => Q tt)
     (sk q (set_so_lock true k) t) ->
  wp (receive_frame driver junk stale (tcp_frame s i mac (if_ip j) sp dp seq ack flags win data ++ pad)
        (54 + zlen data + zlen pad)) Q t.
Proof.
  intros Hs Hm Ht Hsp Hdp Hf Hl Hpad Hr Hq Hk Hlk HQ. pose proof (no_host _ _ _ _ Ht) as Hj.
  pose proof (tcp_segment_length (if_ip i) (if_ip j) sp dp seq ack flags win data) as Hlen. unfold tcp_frame.
  eapply (wp_receive_frame driver junk stale s i mac (if_ip j) IPPROTO_TCP); try done; [by left|apply Hj|lia|lia|].
  rewrite Hlen. change (transport driver junk stale IPPROTO_TCP) with (tcp_input driver junk stale).
  by eapply (wp_tcp_input _ j l n).
Qed.

(** ** Connections *)

(** One side of a connection: an established, unlocked stream socket of the
    list with its peer's address; no other session of the port has it; and the
    peer's hardware address is known. *)
Record endpoint (s : net) (i : net_interface) (l : list Z) (p : Z) (k : socket) (ip port : Z) : Prop := {
  ep_ok : net_ok s i l 2;
  ep_at : socks s !! p = Some k;
  ep_in : p ∈ l;
  ep_open : so_lock k = false;
  ep_kind : family k = AF_INET /\ so_type k = SOCK_STREAM;
  ep_state : so_state k = TCP_STATE_ESTABLISHED;
  ep_ip : remote_ip k = ip;
  ep_port : remote_port k = port;
  ep_len : remote_addr_len k = SIN_SIZE;
  ep_only : forall y j, y ∈ l -> y <> p -> socks s !! y = Some j ->
    on_port SOCK_STREAM (local_port k) j = true -> session_of ip port j = false;
  ep_mac : is_Some (mac_for s ip);
  ep_ring : is_Some (rx_buffer k)
}.

(** The same socket but for its counters and its buffer. *)
Definition alike (k k' : socket) : Prop :=
  k' = set_so_lock false (set_seqs (local_seq k') (remote_ack k') (set_rx (rx_buffer k') (rx_head k') (rx_tail k') k)).

Lemma endpoint_posted size s i l p k k' ip port f w :
  endpoint s i l p k ip port -> alike k k' -> sock_ok k' -> is_Some (rx_buffer k') -> 0 <= size ->
  endpoint (posted size p k' f (set_woken w s)) i l p k' ip port.
Proof.
  intros [Ho Ha Hin Hop Hkind Hst Hip Hport Hlen Honly Hmac Hring] E Hk' Hb Hz.
  assert (Hw : net_ok (set_woken w s) i l 2) by (destruct Ho; split; try done; by apply host_woken).
  split; [| | done | by rewrite E | by rewrite E | by rewrite E | by rewrite E | by rewrite E | by rewrite E | | done | done].
  - eapply net_posted; try done. by rewrite E.
  - apply lookup_insert_eq.
  - intros y j Hy Hne. cbn. rewrite lookup_insert_ne by done. rewrite E. by apply Honly.
Qed.

Lemma endpoint_route s i l p k ip port :
  endpoint s i l p k ip port -> route (socks s) ip port (local_port k) l 0 = p.
Proof.
  intros [Ho Ha Hin Hop [Hf Ht] Hst Hip Hport Hlen Honly Hmac Hring]. eapply route_session; try done.
  - intros y Hy. exact (proj2 (chain_lookup _ _ _ _ _ (no_chain _ _ _ _ Ho) Hy)).
  - unfold on_port. by rewrite Hf, Ht, !Z.eqb_refl.
  - unfold session_of. by rewrite Hst, Hip, Hport, !Z.eqb_refl.
Qed.

Lemma endpoint_nonzero s i l p k ip port : endpoint s i l p k ip port -> p <> 0.
Proof. intros H. exact (proj1 (chain_lookup _ _ _ _ _ (no_chain _ _ _ _ (ep_ok _ _ _ _ _ _ _ H)) (ep_in _ _ _ _ _ _ _ H))). Qed.

(** A connection: both sides, and counters that agree. *)
Record connected (A : net) (i : net_interface) (la : list Z) (p : Z) (ka : socket)
                 (B : net) (j : net_interface) (lb : list Z) (q : Z) (kb : socket) : Prop := {
  co_a : endpoint A i la p ka (if_ip j) (local_port kb);
  co_b : endpoint B j lb q kb (if_ip i) (local_port ka);
  co_seq : local_seq ka = remote_ack kb;
  co_ack : remote_ack ka = local_seq kb
}.


(** An acknowledgement without data changes nothing. *)
Lemma wp_pure_ack s p k ip dst sp dp seq ack flags win (Q : Z -> net -> Prop) :
  socks s !! p = Some k -> so_lock k = false -> 0 <= flags < 4096 -> Q 0 s ->
  wp (tcp_established driver junk p (seg_of sp dp seq ack flags) flags ip
        (tcp_segment ip dst sp dp seq ack flags win []) 20) Q (sk p (set_so_lock true k) s).
Proof.
  intros Hk Hl Hf HQ. unfold tcp_established. cbn [sg_off seg_of]. rewrite seg_hlen by done.
  change ((20 <? TCP_SIZE) || (20 <? 20)) with false. change (0 <? u32 (20 - 20)) with false.
  cbn beta iota zeta delta [andb]. wp_steps. eapply wp_sock_unlock; [apply sk_lookup|]. wp_steps. rewrite sk_sk.
  change (set_so_lock false (set_so_lock true k)) with (set_so_lock false k). by rewrite unlocked_id, sk_id.
Qed.

(** ** A segment of data and its acknowledgement *)

Definition at_a {X} (m : M net X) : M (net * net) X := zoom fst (fun a w => (a, w.2)) m.
Definition at_b {X} (m : M net X) : M (net * net) X := zoom snd (fun b w => (w.1, b)) m.
Definition last_frame (s : net) : list Z := default [] (last (wire s)).

(** The last frame of one host reaches the other. *)
Definition a_to_b : M (net * net) unit :=
  f <-- kgets (fun w => last_frame w.1) ;; at_b (receive_frame driver junk stale f (zlen f)).
Definition b_to_a : M (net * net) unit :=
  f <-- kgets (fun w => last_frame w.2) ;; at_a (receive_frame driver junk stale f (zlen f)).

(** The frames of a transfer, for each write one that carries it with its
    sequence number, and one that acknowledges it: the number of the next byte
    that is expected, and the room that is left in a buffer that held [held]
    bytes. *)
Definition tcp_frame_at (id : Z) (i : net_interface) (mac : list Z) (dst sp dp seq ack flags win : Z) (data : list Z) : list Z :=
  mac ++ if_mac i ++ le16 (htons ETH_P_IP) ++
  ip_packet id IPPROTO_TCP (if_ip i) dst (tcp_segment (if_ip i) dst sp dp seq ack flags win data).
Fixpoint data_frames (id : Z) (i : net_interface) (mac : list Z) (dst sp dp seq ack : Z) (bufs : list (list Z)) : list (list Z) :=
  match bufs with
  | [] => []
  | b :: bs =>
      tcp_frame_at id i mac dst sp dp seq ack (Z.lor TCP_FLAG_ACK TCP_FLAG_PSH) 2048 b ::
      data_frames (u16 (id + 1)) i mac dst sp dp (u32 (seq + zlen b)) ack bs
  end.
Fixpoint ack_frames (id : Z) (j : net_interface) (mac : list Z) (dst sp dp seq ack held : Z) (bufs : list (list Z)) : list (list Z) :=
  match bufs with
  | [] => []
  | b :: bs =>
      tcp_frame_at id j mac dst sp dp seq (u32 (ack + zlen b)) TCP_FLAG_ACK (SOCKET_BUFFER_SIZE - 1 - (held + zlen b)) [] ::
      ack_frames (u16 (id + 1)) j mac dst sp dp seq (u32 (ack + zlen b)) (held + zlen b) bs
  end.

(** What an exchange leaves on the two hosts: a frame on each wire, the next
    packet number, and the counters. *)
Record exchanged (A : net) (i : net_interface) (ka : socket) (B : net) (j : net_interface) (kb : socket) (buf : list Z)
                 (A' : net) (ka' : socket) (B' : net) (kb' : socket) : Prop := {
  ex_macs : mac_for A' (if_ip j) = mac_for A (if_ip j) /\ mac_for B' (if_ip i) = mac_for B (if_ip i);
  ex_ids : g_ip_packet_id A' = u16 (g_ip_packet_id A + 1) /\ g_ip_packet_id B' = u16 (g_ip_packet_id B + 1);
  ex_ports : local_port ka' = local_port ka /\ local_port kb' = local_port kb;
  ex_seqs : local_seq ka' = u32 (local_seq ka + zlen buf) /\ local_seq kb' = local_seq kb;
  ex_acks : remote_ack ka' = remote_ack ka /\ remote_ack kb' = u32 (remote_ack kb + zlen buf);
  ex_data : forall ma, mac_for A (if_ip j) = Some ma -> wire A' = wire A ++
    [tcp_frame_at (g_ip_packet_id A) i ma (if_ip j) (local_port ka) (local_port kb) (local_seq ka) (remote_ack ka)
       (Z.lor TCP_FLAG_ACK TCP_FLAG_PSH) 2048 buf];
  ex_ack : forall mb, mac_for B (if_ip i) = Some mb -> wire B' = wire B ++
    [tcp_frame_at (g_ip_packet_id B) j mb (if_ip i) (local_port kb) (local_port ka) (local_seq kb) (u32 (remote_ack kb + zlen buf))
       TCP_FLAG_ACK (SOCKET_BUFFER_SIZE - 1 - (zlen (stream kb) + zlen buf)) []]
}.

(** Host A writes [buf] to the socket [p]; its frame reaches host B, and B's
    answer reaches A. *)
Definition exchange (p : Z) (buf : list Z) : M (net * net) Z :=
  r <-- at_a (tcp_send_stream driver junk p buf) ;; a_to_b ;;; b_to_a ;;; kret r.
Fixpoint exchanges (p : Z) (bufs : list (list Z)) : M (net * net) unit :=
  match bufs with [] => kret tt | b :: bs => _ <-- exchange p b ;; exchanges p bs end.

Lemma local_port_range k : sock_ok k -> 0 <= local_port k < 2 ^ 16.
Proof. intros H. apply get16_range, H. Qed.

Lemma sock_ok_rx k seq ack rx h :
  sock_ok k -> 0 <= seq < 2 ^ 32 -> 0 <= ack < 2 ^ 32 ->
  match rx with Some b => ring_ok b h (rx_tail k) | None => True end ->
  sock_ok (set_so_lock false (set_seqs seq ack (set_rx rx h (rx_tail k) k))).
Proof. by intros [] ? ? ?; split. Qed.

Lemma set_seqs_rx seq ack k : set_seqs seq ack k = set_seqs seq ack (set_rx (rx_buffer k) (rx_head k) (rx_tail k) k).
Proof. by destruct k. Qed.

Lemma last_frame_posted size p k f s : last_frame (posted size p k f s) = f.
Proof. unfold last_frame. cbn [wire posted sent set_wire]. by rewrite last_snoc. Qed.

Lemma endpoint_mac s i l p k ip port mac :
  endpoint s i l p k ip port -> mac_for s ip = Some mac -> length mac = 6%nat.
Proof. intros H. eapply mac_for_length. apply H. Qed.

Lemma wp_exchange A i la p ka B j lb q kb buf (Q : Z -> net * net -> Prop) :
  connected A i la p ka B j lb q kb -> (forall w f, 0 <= driver w f) -> 0 < zlen buf <= 1460 ->
  zlen (stream kb) + zlen buf < SOCKET_BUFFER_SIZE ->
  (forall A' ka' B' kb', connected A' i la p ka' B' j lb q kb' -> stream ka' = stream ka ->
     stream kb' = stream kb ++ buf -> remote_addr kb' = remote_addr kb -> exchanged A i ka B j kb buf A' ka' B' kb' ->
     woken_chans B' = woken_chans B ++ [q] -> n_mem A' = n_mem A -> n_mem B' = n_mem B -> Q (zlen buf) (A', B')) ->
  wp (exchange p buf) Q (A, B).
Proof.
  intros [Ha Hb Hseq Hack] Hdrv Hl Hroom HQ. pose proof Ha as [HoA HatA HinA HopA [HfA HtA] HstA HipA HptA HlnA HonA [ma HmA] HrA].
  pose proof Hb as [HoB HatB HinB HopB [HfB HtB] HstB HipB HptB HlnB HonB [mb HmB] [buf0 HrB]].
  pose proof (no_socks _ _ _ _ HoA _ _ HatA) as Hka. pose proof (no_socks _ _ _ _ HoB _ _ HatB) as Hkb. cbn in Hka, Hkb.
  pose proof (local_port_range _ Hka) as HpA. pose proof (local_port_range _ Hkb) as HpB.
  pose proof (endpoint_mac _ _ _ _ _ _ _ _ Ha HmA) as Hma. pose proof (endpoint_mac _ _ _ _ _ _ _ _ Hb HmB) as Hmb.
  pose proof (no_host _ _ _ _ HoA) as HhA. pose proof (no_host _ _ _ _ HoB) as HhB.
  pose proof (so_ring _ Hkb) as Hring. rewrite HrB in Hring. pose proof (zlen_nonneg buf).
  unfold exchange, a_to_b, b_to_a, at_a, at_b. wp_steps. eapply (wp_send A i la p ka ma); [done..|by rewrite HlnA|by rewrite HipA|done|done|].
  rewrite HipA, HptA. set (ka' := set_so_lock false _). set (f := tcp_frame A _ _ _ _ _ _ _ _ _ _).
  set (A' := posted _ p ka' f A). wp_steps. cbn [fst snd]. unfold A' at 1 2. rewrite !last_frame_posted.
  assert (Hka' : alike ka ka') by (unfold ka', alike; by destruct ka).
  assert (Hok' : sock_ok ka').
  { unfold ka'. rewrite set_seqs_rx. apply sock_ok_rx; [done|apply u32_range|apply Hka|apply Hka]. }
  assert (HA' : endpoint A' i la p ka' (if_ip j) (local_port kb)).
  { unfold A'. replace A with (set_woken (woken_chans A) A) by by destruct A. apply (endpoint_posted _ _ _ _ _ ka); try done. lia. }
  assert (Hf : zlen f = 54 + zlen buf + zlen (@nil Z)).
  { unfold f. rewrite tcp_frame_length by (done || apply HhA). unfold zlen at 3. cbn. lia. }
  rewrite Hf, <- (app_nil_r f). unfold f. pose proof (endpoint_route _ _ _ _ _ _ _ Hb) as Hrt.
  eapply (wp_receive_tcp A i ma B j lb 2 _ _ _ _ _ _ _ _ q kb); try done; [by eapply host_less; [|lia]|lia|by eapply endpoint_nonzero|].
  rewrite HstB. change (tcp_dispatch driver junk stale q TCP_STATE_ESTABLISHED) with (tcp_established driver junk q).
  rewrite Hseq, Hack. eapply (wp_data _ j q _ buf0 (if_ip i) mb); [by apply host_socks | apply sk_lookup | done | done | done | done |
    done | by apply Hkb | by apply Hkb | done | |].
  { cbn. rewrite <- (ring_data_length buf0). unfold stream in Hroom. rewrite HrB in Hroom. done. }
  intros buf' head' w Hr' Hd'. wp_steps. cbn [fst snd]. unfold answered. change (stream (set_so_lock true kb)) with (stream kb) in w. rewrite last_frame_posted.
  change (rx_tail (set_so_lock true kb)) with (rx_tail kb) in *. change (stream (set_so_lock true kb)) with (stream kb) in Hd'.
  change (set_so_lock false (set_seqs ?a ?b (set_rx ?c ?d ?e (set_so_lock true kb))))
    with (set_so_lock false (set_seqs a b (set_rx c d e kb))).
  set (kb' := set_so_lock false _). change (set_woken ?w (sk q ?k B)) with (sk q k (set_woken w B)).
  rewrite posted_sk. change (woken_chans (sk q ?k B)) with (woken_chans B). unfold tcp_frame. rewrite (ip_frame_id _ B) by done.
  fold (tcp_frame B j mb (if_ip i) (local_port kb) (local_port ka) (local_seq kb) (u32 (remote_ack kb + zlen buf)) TCP_FLAG_ACK w []).
  set (g := tcp_frame B _ _ _ _ _ _ _ _ _ _). set (B' := posted TCP_SIZE q kb' g _).
  assert (HB' : endpoint B' j lb q kb' (if_ip i) (local_port ka)).
  { apply (endpoint_posted _ _ _ _ _ kb); try done. apply sock_ok_rx; [done|by apply Hkb|apply u32_range|done]. }
  assert (Hg : zlen g = 54 + zlen (@nil Z) + zlen (@nil Z)).
  { unfold g. rewrite tcp_frame_length by (done || apply HhB). done. }
  rewrite Hg, <- (app_nil_r g). unfold g. pose proof (endpoint_route _ _ _ _ _ _ _ HA') as HrtA.
  eapply (wp_receive_tcp B j mb A' i la 2 _ _ _ _ _ _ _ _ p ka'); try done; try apply HA'; [by eapply host_less; [|lia] | by eapply endpoint_nonzero|].
  rewrite (ep_state _ _ _ _ _ _ _ HA'). change (tcp_dispatch driver junk stale p TCP_STATE_ESTABLISHED) with (tcp_established driver junk p).
  change (20 + zlen []) with 20. apply wp_pure_ack; [apply HA'..|done|]. wp_steps.
  apply (HQ A' ka' B' kb'); try done.
  - split; try done; cbn; by rewrite Hseq.
  - split; try done.
    + intros ma' Hma'. rewrite HmA in Hma'. injection Hma' as <-. reflexivity.
    + intros mb' Hmb'. rewrite HmB in Hmb'. injection Hmb' as <-. unfold B', g, w, zlen. rewrite length_app, Nat2Z.inj_add. reflexivity.
Qed.

(** A read of an established socket: it sleeps without data, and takes at most
    [len] of the oldest bytes otherwise. *)
(** ** Reading *)

Lemma wp_recv_stream s i l p k ip port len (Q : option received -> net -> Prop) :
  endpoint s i l p k ip port -> 0 < len ->
  (if bool_decide (stream k = []) then Q None (sk p (set_so_lock true k) s)
   else forall t', let d := take (Z.to_nat len) (stream k) in
     let k' := set_so_lock false (set_seqs (local_seq k) (remote_ack k) (set_rx (rx_buffer k) (rx_head k) t' k)) in
     stream k' = drop (Z.to_nat len) (stream k) -> sock_ok k' ->
     Q (Some (zlen d, d, Some (take 16 (remote_addr k)))) (sk p k' s)) ->
  wp (af_inet_recvfrom p len) Q s.
Proof.
  intros He Hlen HQ. pose proof He as [Ho Hat Hin Hop [Hf Ht] Hst _ _ _ _ _ [buf Hbuf]].
  pose proof (no_socks _ _ _ _ Ho _ _ Hat) as Hk. cbn in Hk. pose proof (so_ring _ Hk) as Hr. rewrite Hbuf in Hr.
  pose proof (endpoint_nonzero _ _ _ _ _ _ _ He) as Hp. unfold af_inet_recvfrom.
  rewrite (proj2 (Z.eqb_neq _ _) Hp), (proj2 (Z.eqb_neq len 0)) by lia. cbn [orb]. wp_steps.
  eapply wp_socket_at; [done|]. rewrite Hbuf. wp_steps. eapply wp_sock_lock; [done..|]. unfold recv_turn. wp_steps.
  eapply wp_socket_at; [apply sk_lookup|]. change (so_type (set_so_lock true k)) with (so_type k). rewrite Ht.
  change (SOCK_STREAM =? SOCK_DGRAM) with false. change (SOCK_STREAM =? SOCK_STREAM) with true. cbn beta iota.
  unfold recv_stream. wp_steps. eapply wp_socket_at; [apply sk_lookup|]. set (k1 := set_so_lock true k).
  wp_steps. eapply (wp_opt _ _ buf); [done|]. change (rx_head k1) with (rx_head k). change (rx_tail k1) with (rx_tail k).
  change (so_state k1) with (so_state k). rewrite Hst. change (TCP_STATE_ESTABLISHED =? TCP_STATE_ESTABLISHED) with true.
  rewrite andb_true_r, (ring_empty buf) by done.
  assert (Hs : stream k = ring_data buf (rx_head k) (rx_tail k)) by (unfold stream; by rewrite Hbuf).
  rewrite <- Hs. case_bool_decide as E; [by wp_steps|]. wp_steps. apply wp_ring_drain; [done|]. intros t' Ht' Hd. wp_steps. cbn [fst snd].
  eapply wp_on_socket; [apply sk_lookup|]. wp_steps.
  apply wp_bytes_out; [lia|unfold SIN_SIZE; lia|unfold zlen; cbn [remote_addr k1 set_so_lock]; rewrite (so_remote _ Hk); unfold SIN_SIZE; lia|].
  wp_steps. eapply wp_sock_unlock; [apply sk_lookup|]. wp_steps. rewrite !sk_sk.
  rewrite <- Hs in Hd |- *. rewrite (proj2 (Z.ltb_lt 0 (zlen (take (Z.to_nat len) (stream k))))).
  2: { unfold zlen. rewrite length_take. destruct (stream k); [done|]. cbn. lia. }
  rewrite Hbuf in HQ. change (set_rx (Some buf) (rx_head k) t' k1) with
    (set_so_lock true (set_seqs (local_seq k) (remote_ack k) (set_rx (Some buf) (rx_head k) t' k))).
  apply HQ; [done|]. split; apply Hk || exact Ht'.
Qed.

(** C5: The stream that one side writes is the stream that the other side reads.
    On a connection whose two hosts know each other's hardware address and
    whose cards take every frame, for writes of 1 to 1460 bytes that together
    fit the buffer of the other side, delivered as they are sent: each goes out
    in one segment with its sequence number, and the other side answers each
    with one segment that acknowledges it, with the number of the next byte it
    expects and the room it has left; the connection stays synchronised; and a
    read of [len] bytes takes the oldest [len] bytes of what was there and what
    was written, in order, leaving the rest. *)
Theorem tcp_stream_fidelity A i la p ka B j lb q kb bufs len :
  connected A i la p ka B j lb q kb -> (forall w f, 0 <= driver w f) ->
  Forall (fun b => 0 < zlen b <= 1460) bufs -> zlen (stream kb) + zlen (concat bufs) < SOCKET_BUFFER_SIZE ->
  0 < len -> stream kb ++ concat bufs <> [] ->
  let data := stream kb ++ concat bufs in
  wp (exchanges p bufs ;;; at_b (af_inet_recvfrom q len)) (fun r w => exists ka' kb' ma mb,
    r = Some (zlen (take (Z.to_nat len) data), take (Z.to_nat len) data, Some (take 16 (remote_addr kb))) /\
    connected w.1 i la p ka' w.2 j lb q kb' /\ stream ka' = stream ka /\ stream kb' = drop (Z.to_nat len) data /\
    mac_for A (if_ip j) = Some ma /\ wire w.1 = wire A ++ data_frames (g_ip_packet_id A) i ma (if_ip j)
      (local_port ka) (local_port kb) (local_seq ka) (remote_ack ka) bufs /\
    mac_for B (if_ip i) = Some mb /\ wire w.2 = wire B ++ ack_frames (g_ip_packet_id B) j mb (if_ip i)
      (local_port kb) (local_port ka) (local_seq kb) (remote_ack kb) (zlen (stream kb)) bufs /\
    n_mem w.1 = n_mem A /\ n_mem w.2 = n_mem B /\ length (woken_chans w.2) = (length (woken_chans B) + length bufs)%nat) (A, B).
Proof.
  intros Hco Hdrv Hbufs. revert A ka B kb Hco. induction Hbufs as [|b bufs Hb Hbufs IH];
    intros A ka B kb Hco Hroom Hlen Hne data; cbn [exchanges concat data_frames ack_frames] in *;
    pose proof (ep_mac _ _ _ _ _ _ _ (co_a _ _ _ _ _ _ _ _ _ _ Hco)) as [ma Hma]; pose proof (ep_mac _ _ _ _ _ _ _ (co_b _ _ _ _ _ _ _ _ _ _ Hco)) as [mb Hmb].
  - unfold data in *. rewrite app_nil_r in *. wp_steps. unfold at_b. wp_steps. cbn [snd].
    eapply wp_recv_stream; [apply Hco|done|]. rewrite bool_decide_eq_false_2 by done. intros t' d k' Hs Hk'.
    exists ka, k', ma, mb. pose proof Hco as [Ha Hcb Hseq Hack]. pose proof Hcb as [Ho Hat Hin Hop Hkind Hst Hip Hport Hl Honly Hmac Hring].
    rewrite !app_nil_r. split_and!; try done. split; try done. split; try done.
    + by eapply net_sk.
    + apply lookup_insert_eq.
    + intros y m Hy Hy'. cbn. rewrite lookup_insert_ne by done. by apply Honly.
  - wp_steps. unfold zlen in Hroom. rewrite length_app in Hroom. eapply wp_exchange; [done..|unfold zlen; lia|].
    intros A' ka' B' kb' Hco' Hsa Hsb Hra [[M1 M2] [I1 I2] [P1 P2] [S1 S2] [K1 K2] Hda Hac] Hw HmA HmB. apply wp_bind_inv.
    assert (Ed : stream kb' ++ concat bufs = data) by (unfold data; by rewrite Hsb, <- app_assoc).
    assert (El : zlen (stream kb') = zlen (stream kb) + zlen b) by (rewrite Hsb; unfold zlen; rewrite length_app; lia).
    eapply wp_mono; [apply (IH A' ka' B' kb' Hco'); [|done|by rewrite Ed]|].
    { rewrite El. unfold zlen. lia. }
    rewrite Ed, Hsa, Hra, HmA, HmB, Hw, M1, M2, I1, I2, P1, P2, S1, S2, K1, K2, El, (Hda _ Hma), (Hac _ Hmb).
    intros r w (ka2 & kb2 & ma2 & mb2 & H1 & H2 & H3 & H4 & E1 & W1 & E2 & W2 & H5 & H6 & H7).
    rewrite Hma in E1. rewrite Hmb in E2. injection E1 as <-. injection E2 as <-. exists ka2, kb2, ma, mb.
    split_and!; try done; [by rewrite W1, <- app_assoc | by rewrite W2, <- app_assoc|]. rewrite H7, length_app. cbn. lia.
Qed.

End tcp.
