(* ===== verification/Handshake.v ===== *)
(** * The three-way handshake

    [tcp_connect_handshake] on one host, the listening socket on the other,
    the three segments between them, and [af_inet_accept]: the two sockets are
    connected. *)

From Stdlib Require Import ZArith Lia.
From stdpp Require Import base tactics list gmap fin_maps.
From S2P Require Import Prelude Chains Bytes NetBase Net Tcp NetInv NetIp NetSock TcpThms.

Section handshake.
Context (driver : list (list Z) -> list Z -> Z) (junk stale : list Z).

(** ** The client *)

(** The socket after the SYN. *)
Definition syn_sent (dest : list Z) (k : socket) : socket :=
  set_so_lock false (set_so_state TCP_STATE_SYN_SENT
    (set_remote (dest ++ drop 16 (remote_addr k)) SIN_SIZE (set_seqs 1000 0 k))).

Lemma addr_in_ok buf a (s : net) :
  zlen a <= zlen buf -> addr_in buf a s = Ok (a ++ drop (length a) buf, s).
Proof.
  intros Hl. unfold addr_in, bytes_in. rewrite (proj2 (Z.leb_le _ _)) by lia. unfold kret. cbn [take].
  unfold zlen. rewrite Z.add_0_l, Nat2Z.id. done.
Qed.

Lemma wp_handshake_syn s i l p k dest mac (Q : Z -> net -> Prop) :
  net_ok s i l 2 -> socks s !! p = Some k -> so_lock k = false -> SIN_SIZE <= local_addr_len k ->
  length dest = 16%nat -> mac_for s (get32 dest 4) = Some mac -> (forall w f, 0 <= driver w f) ->
  Q 0 (posted TCP_SIZE p (syn_sent dest k)
    (tcp_frame s i mac (get32 dest 4) (local_port k) (get16 dest 2) 1000 0 TCP_FLAG_SYN 1024 []) s) ->
  wp (tcp_connect_handshake driver junk p dest) Q s.
Proof.
  intros H Hk Hlk Hll Hd Hm Hdrv HQ. pose proof (no_host _ _ _ _ H) as Hh. pose proof (no_socks _ _ _ _ H p k Hk) as Ho.
  cbn in Ho. pose proof (ho_mem _ _ _ Hh) as Hroom. pose proof (ho_brk _ _ _ Hh) as Hbrk.
  assert (Hp : p <> 0) by (pose proof (no_fresh _ _ _ _ H p ltac:(by rewrite Hk)); lia).
  assert (Hla : zlen (local_addr k) = 256) by (unfold zlen; by rewrite (so_local _ Ho)).
  assert (Hra : zlen (remote_addr k) = 256) by (unfold zlen; by rewrite (so_remote _ Ho)).
  assert (Hdl : zlen dest = 16) by (unfold zlen; by rewrite Hd).
  unfold tcp_connect_handshake. rewrite (proj2 (Z.eqb_neq _ _) Hp). wp_steps. apply wp_n_kmalloc; [lia|].
  rewrite (proj2 (Z.eqb_neq _ _)) by lia. set (s1 := set_heap _ _ s). wp_steps.
  assert (H1 : host_ok s1 i 1) by (eapply host_heap; [done| |]; unfold TCP_SIZE; lia).
  apply (wp_socket_at s1 p k); [done|]. rewrite (proj2 (Z.ltb_ge _ _)) by lia. unfold sin_port, sin_ip. wp_steps.
  eapply wp_intro; [apply ld16_ok; lia|]. wp_steps. eapply wp_intro; [apply ld16_ok; lia|]. wp_steps.
  eapply wp_intro; [apply ld32_ok; lia|]. wp_steps. apply (wp_on_socket s1 p k); [done|]. wp_steps.
  eapply wp_intro; [by eapply get_ip_ok, host_socks|]. wp_steps. eapply wp_sock_lock; [apply sk_lookup|done|]. wp_steps.
  eapply wp_socket_at; [apply sk_lookup|]. wp_steps. eapply wp_intro; [apply addr_in_ok; cbn [remote_addr set_so_lock set_seqs]; lia|].
  unfold put_socket. wp_steps. eapply wp_sock_unlock; [apply lookup_insert_eq|]. wp_steps.
  change (set_socks (<[p := ?x]> (socks ?t)) ?t) with (sk p x t). rewrite !sk_sk.
  cbn [remote_addr set_so_lock set_seqs]. rewrite Hd.
  change (set_so_lock false _) with (syn_sent dest k).
  apply (wp_ip_output _ _ _ i _ _ _ mac); [by apply host_socks | by rewrite tcp_segment_length | done|].
  rewrite (ip_frame_id _ s) by done. change (get16 (local_addr k) _) with (local_port k).
  change (Z.to_nat 2) with 2%nat. change (Z.to_nat 4) with 4%nat.
  fold (tcp_frame s i mac (get32 dest 4) (local_port k) (get16 dest 2) 1000 0 TCP_FLAG_SYN 1024 []). revert HQ.
  generalize (tcp_frame s i mac (get32 dest 4) (local_port k) (get16 dest 2) 1000 0 TCP_FLAG_SYN 1024 []). intros f HQ.
  unfold n_kfree. wp_steps. rewrite (proj2 (Z.ltb_ge _ 0)) by apply Hdrv. wp_steps.
  rewrite <- posted_freed in HQ by lia. exact HQ.
Qed.

(** The client's socket after the answer. *)
Definition syn_acked (seq ack : Z) (k : socket) : socket :=
  set_so_lock false (set_so_state TCP_STATE_ESTABLISHED (set_seqs seq ack k)).

Lemma wp_syn_acked s i p k ip mac sp dp seq ack (Q : Z -> net -> Prop) :
  host_ok s i 2 -> socks s !! p = Some k -> mac_for s ip = Some mac -> 0 <= seq < 2 ^ 32 -> 0 <= ack < 2 ^ 32 ->
  Q 0 (posted TCP_SIZE p (syn_acked ack (u32 (seq + 1)) k)
        (tcp_frame s i mac ip dp sp ack (u32 (seq + 1)) TCP_FLAG_ACK 2048 []) (set_woken (woken_chans s ++ [p]) s)) ->
  wp (tcp_syn_sent driver junk p (seg_of sp dp seq ack (Z.lor TCP_FLAG_SYN TCP_FLAG_ACK)) (Z.lor TCP_FLAG_SYN TCP_FLAG_ACK) ip) Q s.
Proof.
  intros H Hk Hm Hs Ha HQ. unfold tcp_syn_sent. cbn [sg_seq sg_ack sg_src sg_dst seg_of].
  change (has _ TCP_FLAG_SYN && has _ TCP_FLAG_ACK) with true. cbv zeta. cbn beta iota. rewrite !ntohl_htonl by done. wp_steps.
  eapply wp_on_socket; [done|]. wp_steps. eapply wp_on_socket; [apply sk_lookup|]. unfold wakeup_sock. wp_steps.
  rewrite sk_sk. set (k1 := set_so_state _ _). apply (wp_bind_inv (n_kmalloc TCP_SIZE)).
  eapply (wp_answer _ _ _ i p k1 _ _ mac); [by apply host_woken, host_socks | apply sk_lookup | reflexivity | done |].
  unfold tcp_frame. rewrite (ip_frame_id _ s) by done. fold (tcp_frame s i mac ip dp sp ack (u32 (seq + 1)) TCP_FLAG_ACK 2048 []).
  change (set_woken _ (sk p k1 s)) with (sk p k1 (set_woken (woken_chans s ++ [p]) s)). unfold answered. by rewrite posted_sk.
Qed.

(** ** The server *)

(** The node that waits for the confirmation. *)
Definition pending_node (sp ip : Z) (k : socket) : socket :=
  set_so_next (listen_queue k) (set_seqs (local_seq k) 0 (set_so_state TCP_STATE_SYN_RECV
    (set_remote ((le16 AF_INET ++ le16 sp ++ le32 ip ++ stale) ++ replicate 240 0) SIN_SIZE zero_socket))).

Lemma wp_listen_syn s i q k ip mac sp dp seq ack flags (Q : Z -> net -> Prop) :
  host_ok s i 3 -> socks s !! q = Some k -> q <> n_brk s -> mac_for s ip = Some mac -> length stale = 8%nat ->
  0 <= seq < 2 ^ 32 ->
  Q 0 (posted TCP_SIZE q (set_so_lock false (set_listen_queue (n_brk s) k))
        (tcp_frame s i mac ip dp sp (local_seq k) (u32 (seq + 1)) (Z.lor TCP_FLAG_SYN TCP_FLAG_ACK) 2048 [])
        (sk (n_brk s) (pending_node sp ip k) (set_heap (n_brk s + SOCKET_T_SIZE) (n_mem s - 1) s))) ->
  wp (tcp_listen_syn driver junk stale q (seg_of sp dp seq ack flags) ip) Q s.
Proof.
  intros H Hk Hne Hm Hst Hs HQ. pose proof (ho_mem _ _ _ H) as Hroom. pose proof (ho_brk _ _ _ H) as Hbrk.
  unfold tcp_listen_syn. cbn [sg_seq sg_src sg_dst seg_of]. rewrite !ntohl_htonl by done. wp_steps.
  apply wp_n_kmalloc; [lia|]. rewrite (proj2 (Z.eqb_neq _ _)) by lia. set (c := n_brk s) in *.
  set (s1 := set_heap _ _ s) in *. wp_steps. apply (wp_socket_at s1 q k); [done|]. wp_steps.
  eapply wp_intro; [apply addr_in_ok; unfold zlen; rewrite !length_app, Hst; cbn; lia|].
  replace (drop (length (le16 AF_INET ++ le16 sp ++ le32 ip ++ stale)) (replicate 256 0)) with (replicate 240 0).
  2: { rewrite !length_app, Hst. done. }
  unfold put_socket. wp_steps. change (set_socks _ s1) with (sk c (set_seqs (local_seq k) 0 (set_so_state TCP_STATE_SYN_RECV
    (set_remote ((le16 AF_INET ++ le16 sp ++ le32 ip ++ stale) ++ replicate 240 0) SIN_SIZE zero_socket))) s1).
  apply wp_n_kmalloc; [cbn; lia|]. rewrite (proj2 (Z.eqb_neq _ _)) by (cbn; unfold SOCKET_T_SIZE; lia). wp_steps.
  eapply wp_on_socket; [apply sk_lookup|]. wp_steps. set (node := set_so_next _ _). fold (pending_node sp ip k) in node.
  apply (wp_on_socket _ q k); [cbn; by rewrite !lookup_insert_ne by done|]. wp_steps.
  eapply (wp_reply _ _ _ i q _ _ mac); [|apply sk_lookup|done|].
  { apply host_socks, host_socks. eapply host_heap; [by apply host_socks; eapply host_heap; [done| |apply Nat.le_refl]; unfold SOCKET_T_SIZE; lia| |];
      cbn; unfold SOCKET_T_SIZE, TCP_SIZE; lia. }
  intros r. cbv zeta. unfold tcp_frame. rewrite (ip_frame_id _ s) by done.
  fold (tcp_frame s i mac ip dp sp (local_seq k) (u32 (seq + 1)) (Z.lor TCP_FLAG_SYN TCP_FLAG_ACK) 2048 []). revert HQ.
  generalize (tcp_frame s i mac ip dp sp (local_seq k) (u32 (seq + 1)) (Z.lor TCP_FLAG_SYN TCP_FLAG_ACK) 2048 []). intros f HQ.
  wp_steps. rewrite <- posted_freed in HQ by (cbn; lia). rewrite sk_sk.
  change (sk c node (set_heap ?b ?m (sk c ?x s1))) with (sk c node (sk c x (set_heap b m s1))). rewrite sk_sk. exact HQ.
Qed.

(** The session that the confirmation creates. *)
Definition session (r_next head : Z) (ack : Z) (lst node : socket) : socket :=
  set_global_next head (set_so_next r_next (set_seqs (u32 (local_seq node + 1)) ack (set_so_state TCP_STATE_ESTABLISHED
    (set_remote (take 16 (remote_addr node) ++ replicate 240 0) SIN_SIZE
      (set_local (take (Z.to_nat (local_addr_len lst)) (local_addr lst) ++ replicate (256 - Z.to_nat (local_addr_len lst)) 0)
         (local_addr_len lst)
        (set_rx (Some (replicate (Z.to_nat SOCKET_BUFFER_SIZE) 0)) 0 0 (set_kind AF_INET (so_type lst) zero_socket))))))).

Lemma wp_socket_create s fam ty (Q : Z -> net -> Prop) :
  0 <= fam <= 4 -> 0 < n_brk s -> (2 <= n_mem s)%nat ->
  Q (n_brk s) (sk (n_brk s) (set_rx (Some (replicate (Z.to_nat SOCKET_BUFFER_SIZE) 0)) 0 0 (set_kind fam ty zero_socket))
    (set_heap (n_brk s + SOCKET_T_SIZE + SOCKET_BUFFER_SIZE) (n_mem s - 2) s)) ->
  wp (socket_create fam ty) Q s.
Proof.
  intros Hf Hb Hm HQ. unfold socket_create. rewrite (proj2 (Z.ltb_ge fam 0)), (proj2 (Z.ltb_ge 4 fam)) by lia. cbn [orb].
  wp_steps. apply wp_n_kmalloc; [lia|]. rewrite (proj2 (Z.eqb_neq _ _)) by lia. wp_steps. apply wp_n_kmalloc; [cbn; lia|].
  rewrite (proj2 (Z.eqb_neq _ _)) by (cbn; unfold SOCKET_T_SIZE; lia). unfold put_socket. wp_steps.
  eapply eq_ind; [exact HQ|]. unfold sk. generalize (replicate (Z.to_nat SOCKET_BUFFER_SIZE) 0). intros b. clear - Hm.
  flat_net s. f_equal. lia.
Qed.

(** The listening socket [q] after the confirmation: the session [r] is at
    the head of its queue, and the node [c] is gone. *)
Record session_made (s : net) (q c r : Z) (k kr : socket) (T : gmap Z socket) : Prop := {
  sm_q : T !! q = Some (set_so_lock false (set_listen_queue r k));
  sm_r : T !! r = Some kr;
  sm_c : T !! c = None;
  sm_rest : forall y, y <> q -> y <> r -> y <> c -> T !! y = socks s !! y
}.

Lemma find_pending_head s c k fuel ip port :
  socks s !! c = Some k -> c <> 0 -> sock_ok k -> remote_ip k = ip -> remote_port k = port -> so_state k = TCP_STATE_SYN_RECV ->
  find_pending (S fuel) ip port 0 c s = Ok (Some (0, c), s).
Proof.
  intros Hk Hc Ho Hip Hp Hs. cbn [find_pending]. rewrite (proj2 (Z.eqb_neq _ _) Hc).
  assert (Hr : zlen (remote_addr k) = 256) by (unfold zlen; by rewrite (so_remote _ Ho)).
  rewrite (kbind_ok _ _ k s s) by (unfold socket_at, kget, kopt, kbind; by rewrite Hk). unfold sin_ip, sin_port.
  erewrite kbind_ok by (apply ld32_ok; lia). erewrite kbind_ok by (apply ld16_ok; lia).
  change (get32 (remote_addr k) (Z.to_nat 4)) with (remote_ip k). change (get16 (remote_addr k) (Z.to_nat 2)) with (remote_port k).
  by rewrite Hip, Hp, Hs, !Z.eqb_refl.
Qed.

Lemma wp_listen_ack s q k c node ip sp dp seq ack flags (Q : Z -> net -> Prop) :
  g_socket_list_lock s = false -> 0 < n_brk s -> (2 <= n_mem s)%nat ->
  socks s !! q = Some k -> sock_ok k -> listen_queue k = c -> socks s !! c = Some node -> sock_ok node ->
  c <> 0 -> q <> c -> q < n_brk s -> c < n_brk s -> remote_addr_len node = SIN_SIZE ->
  remote_ip node = ip -> remote_port node = sp -> so_state node = TCP_STATE_SYN_RECV -> 0 <= seq < 2 ^ 32 ->
  (forall T, session_made s q c (n_brk s) k (session (so_next node) (g_bound_sockets_head s) seq k node) T ->
     Q 0 (set_woken (woken_chans s ++ [q]) (set_bound (n_brk s)
            (set_heap (n_brk s + SOCKET_T_SIZE + SOCKET_BUFFER_SIZE) (n_mem s - 1) (set_socks T s))))) ->
  wp (tcp_listen_ack q (seg_of sp dp seq ack flags) ip) Q s.
Proof.
  intros Hll Hbrk Hroom Hq Hok Hlq Hc Hon Hc0 Hqc Hqb Hcb Hrl Hip Hp Hst Hseq HQ. unfold tcp_listen_ack.
  cbn [sg_src sg_seq seg_of]. rewrite ntohl_htonl by done. wp_steps. eapply wp_socket_at; [done|]. unfold socket_count. wp_steps.
  assert (Hsize : exists n, size (socks s) = S n).
  { destruct (size (socks s)) eqn:E; [|eauto]. apply map_size_empty_iff in E. by rewrite E, lookup_empty in Hq. }
  destruct Hsize as [n ->]. rewrite Hlq. eapply wp_intro; [by eapply find_pending_head|]. cbn beta iota. wp_steps.
  apply wp_socket_create; [done|done|done|]. set (r := n_brk s) in *. rewrite (proj2 (Z.eqb_neq r 0)) by lia.
  set (q0 := set_rx _ _ _ _). set (s1 := sk r q0 _). wp_steps.
  assert (Hlk : forall y, y <> r -> socks s1 !! y = socks s !! y) by (intros y Hy; cbn; by rewrite lookup_insert_ne).
  apply (wp_socket_at s1 c node); [rewrite Hlk by lia; done|]. wp_steps. apply (wp_socket_at s1 r q0); [apply sk_lookup|]. wp_steps.
  pose proof (so_local_len _ Hok) as Hll0.
  apply wp_bytes_out; [lia|lia|unfold zlen; rewrite (so_local _ Hok); lia|]. wp_steps.
  set (la := take _ _). assert (Hla : length la = Z.to_nat (local_addr_len k)).
  { unfold la. rewrite length_take, length_drop, (so_local _ Hok). lia. }
  eapply wp_intro; [apply addr_in_ok; unfold zlen; rewrite Hla; cbn; lia|]. wp_steps. rewrite Hrl.
  apply wp_bytes_out; [lia|done|unfold zlen; rewrite (so_remote _ Hon); done|]. wp_steps.
  set (ra := take _ _). assert (Hra : length ra = 16%nat).
  { unfold ra. rewrite length_take, length_drop, (so_remote _ Hon). done. }
  eapply wp_intro; [apply addr_in_ok; unfold zlen; rewrite Hra; done|]. unfold put_socket. wp_steps.
  change (set_socks (<[r := ?x]> (socks s1)) s1) with (sk r x s1). set (kr := set_so_next _ _).
  change (0 =? 0) with true. cbn beta iota.
  apply (wp_on_socket _ q k); [cbn; rewrite !lookup_insert_ne by lia; done|].
  unfold slist_lock, slist_unlock. wp_steps. match goal with |- context [g_socket_list_lock ?t] => change (g_socket_list_lock t) with (g_socket_list_lock s) end. rewrite Hll. wp_steps.
  apply (wp_on_socket _ r kr); [cbn; rewrite lookup_insert_ne by lia; by rewrite lookup_insert_eq|]. wp_steps.
  unfold free_socket, n_kfree, wakeup_sock. wp_steps.
  apply (wp_on_socket _ q (set_listen_queue r k)).
  { cbn. rewrite lookup_delete_ne by lia. rewrite lookup_insert_ne by lia. by rewrite lookup_insert_eq. }
  wp_steps. set (T := <[q := set_so_lock false (set_listen_queue r k)]> (delete c (<[r := set_global_next (g_bound_sockets_head s) kr]>
    (<[q := set_listen_queue r k]> (<[r := kr]> (<[r := q0]> (socks s))))))).
  eapply eq_ind; [apply (HQ T)|].
  - unfold T. split.
    + by rewrite lookup_insert_eq.
    + rewrite lookup_insert_ne, lookup_delete_ne, lookup_insert_eq by lia. f_equal. unfold kr. rewrite Hla, Hra. unfold session, q0.
      change (local_addr (set_rx _ _ _ _)) with (replicate 256 0). change (remote_addr (set_rx _ _ _ _)) with (replicate 256 0).
      rewrite !drop_replicate. done.
    + rewrite lookup_insert_ne by done. apply lookup_delete_eq.
    + intros y H1 H2 H3. by rewrite lookup_insert_ne, lookup_delete_ne, !lookup_insert_ne by done.
  - unfold T, s1, sk. clearbody kr q0. clear - Hll Hroom. flat_net s. subst ll. f_equal. lia.
Qed.

(** [af_inet_accept] takes the session at the head of the queue. *)
Lemma wp_accept s q k r kr (Q : option Z -> net -> Prop) :
  socks s !! q = Some k -> so_lock k = false -> so_state k = TCP_STATE_LISTEN -> listen_queue k = r ->
  socks s !! r = Some kr -> so_state kr = TCP_STATE_ESTABLISHED -> q <> r -> r <> 0 -> q <> 0 ->
  Q (Some r) (sk q (set_so_lock false (set_listen_queue (so_next kr) k)) (sk r (set_so_next 0 kr) s)) ->
  wp (af_inet_accept q) Q s.
Proof.
  intros Hq Hl Hst Hlq Hr Hrs Hqr Hr0 Hq0 HQ. unfold af_inet_accept. rewrite (proj2 (Z.eqb_neq _ _) Hq0). wp_steps.
  eapply wp_sock_lock; [done..|]. wp_steps. eapply wp_socket_at; [apply sk_lookup|]. cbn [so_state set_so_lock]. rewrite Hst.
  change (negb _) with false. cbn beta iota. unfold accept_turn, socket_count. wp_steps.
  eapply wp_socket_at; [apply sk_lookup|]. wp_steps. cbn [listen_queue set_so_lock]. rewrite Hlq.
  assert (Hsize : exists n, size (socks (sk q (set_so_lock true k) s)) = S n).
  { destruct (size _) eqn:E; [|eauto]. apply map_size_empty_iff in E. pose proof (sk_lookup q (set_so_lock true k) s) as H.
    by rewrite E, lookup_empty in H. }
  destruct Hsize as [n ->]. cbn [take_session]. rewrite (proj2 (Z.eqb_neq _ _) Hr0). wp_steps.
  apply (wp_socket_at _ r kr); [cbn; by rewrite lookup_insert_ne|]. rewrite Hrs.
  change (TCP_STATE_ESTABLISHED =? TCP_STATE_ESTABLISHED) with true. change (0 =? 0) with true. cbn beta iota. wp_steps.
  eapply wp_on_socket; [apply sk_lookup|]. wp_steps. rewrite sk_sk.
  apply (wp_on_socket _ r kr); [cbn; by rewrite lookup_insert_ne|]. wp_steps. rewrite (proj2 (Z.eqb_neq _ _) Hr0). wp_steps.
  apply (wp_on_socket _ q (set_listen_queue (so_next kr) (set_so_lock true k))).
  { cbn. rewrite lookup_insert_ne by done. apply lookup_insert_eq. }
  wp_steps. eapply eq_ind; [exact HQ|]. unfold sk, set_socks. cbn [socks]. rewrite (insert_insert_ne _ r q) by done.
  by rewrite insert_insert_eq.
Qed.

(** ** Well-formedness *)

Lemma net_add s i l n k b m n' :
  net_ok s i l n -> sock_ok k -> n_brk s < b -> (n' <= m)%nat -> net_ok (sk (n_brk s) k (set_heap b m s)) i l n'.
Proof.
  intros [Hh Hc Hs Hf] Hk Hb Hm. pose proof (ho_brk _ _ _ Hh). split.
  - apply host_socks. eapply host_heap; [done|lia|done].
  - apply chain_other; [|done]. intros Hin. destruct (chain_lookup _ _ _ _ _ Hc Hin) as [_ Hx]. specialize (Hf _ Hx). lia.
  - by apply map_Forall_insert_2.
  - intros x. cbn. destruct (decide (n_brk s = x)) as [<-|]; [lia|]. rewrite lookup_insert_ne by done. intros Hx. specialize (Hf x Hx). lia.
Qed.

Lemma net_session s i l n q c k kr T w b m n' :
  net_ok s i l n -> socks s !! q = Some k -> c ∉ l -> c <> q -> c <> n_brk s ->
  session_made s q c (n_brk s) k kr T -> sock_ok kr -> global_next kr = g_bound_sockets_head s ->
  n_brk s < b -> (n' <= m)%nat ->
  net_ok (set_woken w (set_bound (n_brk s) (set_heap b m (set_socks T s)))) i (n_brk s :: l) n'.
Proof.
  intros [Hh Hc Hs Hf] Hq Hcl Hcq Hcr [Tq Tr Tc To] Hkr Hg Hb Hm. pose proof (ho_brk _ _ _ Hh). set (r := n_brk s) in *.
  assert (Hqr : q < r) by (apply (Hf q); by rewrite Hq).
  assert (Hlr : forall x, x ∈ l -> x <> r).
  { intros x Hx ->. destruct (chain_lookup _ _ _ _ _ Hc Hx) as [_ Hy]. specialize (Hf _ Hy). lia. }
  assert (Hchain : forall p l', chain (socks s) global_next p l' -> (forall x, x ∈ l' -> x ∈ l) -> chain T global_next p l').
  { intros p l'. revert p. induction l' as [|x l' IH]; intros p; cbn; [done|]. intros (-> & H0 & j & Hj & H') Hin. split_and!; [done..|].
    assert (Hx : x ∈ l) by (apply Hin; by left). destruct (decide (x = q)) as [->|Hxq].
    - exists (set_so_lock false (set_listen_queue r k)). split; [done|]. assert (j = k) as -> by congruence. apply IH; [done|].
      intros y Hy. apply Hin. by right.
    - exists j. rewrite To; [|done|by apply Hlr|by intros ->]. split; [done|]. apply IH; [done|]. intros y Hy. apply Hin. by right. }
  split; cbn.
  - apply host_woken, host_bound. eapply host_heap; [by apply host_socks|lia|done].
  - split_and!; [done|lia|]. exists kr. split; [done|]. rewrite Hg. by apply Hchain.
  - intros x j Hx. cbn. destruct (decide (x = q)) as [->|Hxq].
    { rewrite Tq in Hx. injection Hx as <-. pose proof (Hs q k Hq) as []. by split. }
    destruct (decide (x = r)) as [->|]; [congruence|]. destruct (decide (x = c)) as [->|]; [congruence|].
    rewrite To in Hx by done. by apply (Hs x j).
  - intros x Hx. destruct (decide (x = r)) as [->|]; [lia|]. destruct (decide (x = q)) as [->|]; [specialize (Hf q ltac:(by rewrite Hq)); lia|].
    destruct (decide (x = c)) as [->|]; [by rewrite Tc in Hx; destruct Hx|]. rewrite To in Hx by done. specialize (Hf x Hx). lia.
Qed.

Lemma replicate_bytes n : Forall byte (replicate n 0).
Proof. by apply Forall_replicate. Qed.

Lemma node_ok sp ip k :
  sock_ok k -> length stale = 8%nat -> Forall byte stale -> 0 <= sp < 2 ^ 16 -> 0 <= ip < 2 ^ 32 ->
  sock_ok (pending_node sp ip k) /\ remote_ip (pending_node sp ip k) = ip /\ remote_port (pending_node sp ip k) = sp.
Proof.
  intros Hk Hl Hb Hsp Hip. split_and!.
  - split; try done; cbn [local_addr remote_addr pending_node set_so_next set_seqs set_so_state set_remote zero_socket].
    + apply replicate_bytes.
    + rewrite !length_app, Hl. done.
    + rewrite !Forall_app. split_and!; try apply le16_bytes; try apply le32_bytes; try done. apply replicate_bytes.
    + cbn. pose proof (so_seqs _ Hk). lia.
  - exact (le32_join ip Hip).
  - exact (le16_join sp Hsp).
Qed.

Lemma session_ok rn head ack lst node :
  sock_ok lst -> sock_ok node -> 0 <= ack < 2 ^ 32 -> SIN_SIZE <= local_addr_len lst ->
  let kr := session rn head ack lst node in
  sock_ok kr /\ remote_ip kr = remote_ip node /\ remote_port kr = remote_port node /\ local_port kr = local_port lst /\ stream kr = [].
Proof.
  intros [L1 L2 L3 L4 L5 L6 L7] [N1 N2 N3 N4 N5 N6 N7] Ha Hlen kr. unfold SIN_SIZE in Hlen.
  assert (Htake : forall (l : list Z) n m i, (i < n)%nat -> (n <= length l)%nat -> get8 (take n l ++ replicate m 0) i = get8 l i).
  { intros l n m i Hi Hn. unfold get8. rewrite lookup_app_l by (rewrite length_take; lia). by rewrite lookup_take_lt. }
  split_and!.
  - split; unfold kr, session; cbn [local_addr remote_addr local_addr_len local_seq remote_ack rx_buffer rx_head rx_tail
      set_global_next set_so_next set_seqs set_so_state set_remote set_local set_rx set_kind].
    + rewrite length_app, length_take, length_replicate. lia.
    + apply Forall_app. split; [by apply Forall_take|apply replicate_bytes].
    + rewrite length_app, length_take, length_replicate. lia.
    + apply Forall_app. split; [by apply Forall_take|apply replicate_bytes].
    + done.
    + split; [apply u32_range|done].
    + split; [|done..]. unfold zlen. by rewrite length_replicate.
  - unfold remote_ip, kr, session. cbn [remote_addr set_global_next set_so_next set_seqs set_so_state set_remote].
    unfold get32, get16. by rewrite !Htake by lia.
  - unfold remote_port, kr, session. cbn [remote_addr set_global_next set_so_next set_seqs set_so_state set_remote].
    unfold get16. by rewrite !Htake by lia.
  - unfold local_port, kr, session. cbn [local_addr set_global_next set_so_next set_seqs set_so_state set_remote set_local].
    unfold get16. by rewrite !Htake by lia.
  - done.
Qed.

(** ** Both sides *)

(** What the connecting host needs: an unlocked stream socket that is bound,
    with no other session to the peer on its port, and a known way there. *)
Record client (s : net) (i : net_interface) (l : list Z) (p : Z) (k : socket) (ip port : Z) : Prop := {
  cl_ok : net_ok s i l 2;
  cl_at : socks s !! p = Some k;
  cl_in : p ∈ l;
  cl_open : so_lock k = false;
  cl_kind : family k = AF_INET /\ so_type k = SOCK_STREAM;
  cl_len : SIN_SIZE <= local_addr_len k;
  cl_only : forall y j, y ∈ l -> y <> p -> socks s !! y = Some j ->
    on_port SOCK_STREAM (local_port k) j = true -> session_of ip port j = false;
  cl_mac : is_Some (mac_for s ip);
  cl_ring : is_Some (rx_buffer k)
}.

(** What the serving host needs: the only listening socket of its port. *)
Record listener (s : net) (i : net_interface) (l : list Z) (q : Z) (k : socket) (ip port : Z) : Prop := {
  ls_ok : net_ok s i l 4;
  ls_at : socks s !! q = Some k;
  ls_in : q ∈ l;
  ls_open : so_lock k = false;
  ls_kind : family k = AF_INET /\ so_type k = SOCK_STREAM;
  ls_state : so_state k = TCP_STATE_LISTEN;
  ls_len : SIN_SIZE <= local_addr_len k;
  ls_only : forall y j, y ∈ l -> y <> q -> socks s !! y = Some j ->
    on_port SOCK_STREAM (local_port k) j = true -> session_of ip port j = false /\ so_state j <> TCP_STATE_LISTEN;
  ls_mac : is_Some (mac_for s ip)
}.

Lemma posted_sk2 size p k k1 x y f s :
  x <> p -> posted size p k f (sk x y (sk p k1 s)) = posted size p k f (sk x y s).
Proof. intros Hx. unfold posted, sk, set_socks. cbn [socks]. by rewrite (insert_insert_ne _ x p), insert_insert_eq. Qed.

Lemma listener_route s i l q k ip port T :
  listener s i l q k ip port -> (forall y, y ∈ l -> y <> q -> T !! y = socks s !! y) ->
  (exists k', T !! q = Some k' /\ so_state k' = TCP_STATE_LISTEN /\ on_port SOCK_STREAM (local_port k) k' = true) ->
  route T ip port (local_port k) l 0 = q.
Proof.
  intros [Ho Hat Hin Hop [Hf Ht] Hst Hlen Honly Hmac] HT (k' & Hk' & Hs' & Hp'). eapply route_listener; [|by left|done|done|done|].
  - intros y Hy. destruct (decide (y = q)) as [->|Hne]; [by rewrite Hk'|]. rewrite HT by done.
    exact (proj2 (chain_lookup _ _ _ _ _ (no_chain _ _ _ _ Ho) Hy)).
  - intros y m Hy Hne Hm. rewrite HT in Hm by done. by apply (Honly y).
Qed.

Definition syn_ack : Z := Z.lor TCP_FLAG_SYN TCP_FLAG_ACK.

(** The server with the node of the client in its queue. *)
Definition half_open (B : net) (q : Z) (kq : socket) (ip sp : Z) (f : list Z) : net :=
  posted TCP_SIZE q (set_so_lock false (set_listen_queue (n_brk B) kq)) f
    (sk (n_brk B) (pending_node sp ip kq) (set_heap (n_brk B + SOCKET_T_SIZE) (n_mem B - 1) B)).

Lemma wp_syn_arrives s i mac B j lb q kq sp seq win mb (Q : unit -> net -> Prop) :
  host_ok s i 0 -> length mac = 6%nat -> listener B j lb q kq (if_ip i) sp -> mac_for B (if_ip i) = Some mb ->
  0 <= sp < 2 ^ 16 -> 0 <= seq < 2 ^ 32 -> length stale = 8%nat ->
  Q tt (half_open B q kq (if_ip i) sp
          (tcp_frame B j mb (if_ip i) (local_port kq) sp (local_seq kq) (u32 (seq + 1)) syn_ack 2048 [])) ->
  wp (receive_frame driver junk stale (tcp_frame s i mac (if_ip j) sp (local_port kq) seq 0 TCP_FLAG_SYN win [] ++ []) 54) Q B.
Proof.
  intros Hs Hm HL Hmb Hsp Hseq Hst HQ. pose proof HL as [Ho Hat Hin Hop [Hf Ht] Hstate Hlen Honly _].
  pose proof (no_socks _ _ _ _ Ho _ _ Hat) as Hk. cbn in Hk. pose proof (no_host _ _ _ _ Ho) as Hh.
  pose proof (no_fresh _ _ _ _ Ho q ltac:(by rewrite Hat)) as Hq. pose proof (local_port_range _ Hk) as Hp.
  change 54 with (54 + zlen (@nil Z) + zlen (@nil Z)).
  eapply (wp_receive_tcp _ _ _ s i mac B j lb 4 _ _ _ _ _ _ _ _ q kq); try done; [|lia|].
  { eapply listener_route; [done|done|]. exists kq. split_and!; [done..|]. unfold on_port. by rewrite Hf, Ht, !Z.eqb_refl. }
  rewrite Hstate. change (wp (tcp_listen_syn driver junk stale q (seg_of sp (local_port kq) seq 0 TCP_FLAG_SYN) (if_ip i))
    (fun _ => Q tt) (sk q (set_so_lock true kq) B)).
  eapply (wp_listen_syn _ j q _ _ mb); [|apply sk_lookup|cbn; lia|done|done|done|].
  { apply host_socks. eapply host_less; [done|lia]. }
  unfold half_open in HQ. change (set_heap ?b ?m (sk q ?k B)) with (sk q k (set_heap b m B)).
  rewrite posted_sk2 by (cbn; lia). unfold tcp_frame at 1. rewrite (ip_frame_id _ B) by done. exact HQ.
Qed.

Lemma half_open_ok B j lb q kq ip sp f :
  listener B j lb q kq ip sp -> 0 <= sp < 2 ^ 16 -> 0 <= ip < 2 ^ 32 -> length stale = 8%nat -> Forall byte stale ->
  let B1 := half_open B q kq ip sp f in
  net_ok B1 j lb 3 /\ socks B1 !! q = Some (set_so_lock false (set_listen_queue (n_brk B) kq)) /\
  socks B1 !! n_brk B = Some (pending_node sp ip kq) /\ n_brk B < n_brk B1 /\ n_mem B1 = (n_mem B - 1)%nat /\
  forall y, y <> q -> y <> n_brk B -> socks B1 !! y = socks B !! y.
Proof.
  intros [Ho Hat Hin Hop Hkind Hstate Hlen Honly Hmac] Hsp Hip Hl Hb B1.
  pose proof (no_socks _ _ _ _ Ho _ _ Hat) as Hk. cbn in Hk. pose proof (no_fresh _ _ _ _ Ho q ltac:(by rewrite Hat)) as Hq.
  destruct (node_ok sp ip kq Hk Hl Hb Hsp Hip) as (Hn & _). pose proof (zlen_nonneg f). pose proof (ho_mem _ _ _ (no_host _ _ _ _ Ho)).
  split_and!.
  - apply (net_posted TCP_SIZE _ _ _ _ q kq); [|cbn; by rewrite lookup_insert_ne by lia| |done|done].
    + eapply net_add; [done|done|unfold SOCKET_T_SIZE; lia|lia].
    + destruct Hk. by split.
  - apply lookup_insert_eq.
  - cbn. rewrite lookup_insert_ne by lia. apply lookup_insert_eq.
  - cbn. unfold SOCKET_T_SIZE, TCP_SIZE. lia.
  - done.
  - intros y H1 H2. cbn. by rewrite !lookup_insert_ne by done.
Qed.

(** The client between its SYN and the answer. *)
Lemma syn_sent_ok A i la p ka ip port dest f :
  client A i la p ka ip port -> length dest = 16%nat -> Forall byte dest -> get32 dest 4 = ip -> get16 dest 2 = port ->
  let A1 := posted TCP_SIZE p (syn_sent dest ka) f A in
  net_ok A1 i la 2 /\ socks A1 !! p = Some (syn_sent dest ka) /\ sock_ok (syn_sent dest ka) /\
  remote_ip (syn_sent dest ka) = ip /\ remote_port (syn_sent dest ka) = port /\
  route (socks A1) ip port (local_port ka) la 0 = p /\ p <> 0.
Proof.
  intros [Ho Hat Hin Hop [Hf Ht] Hlen Honly Hmac Hring] Hd Hb Hip Hport A1.
  pose proof (no_socks _ _ _ _ Ho _ _ Hat) as Hk. cbn in Hk.
  assert (Hk1 : sock_ok (syn_sent dest ka)).
  { destruct Hk as [K1 K2 K3 K4 K5 K6 K7]. split; try done; cbn [remote_addr syn_sent set_so_lock set_so_state set_remote].
    - rewrite length_app, length_drop, Hd, K3. done.
    - apply Forall_app. split; [done|by apply Forall_drop]. }
  assert (Hrip : remote_ip (syn_sent dest ka) = ip) by (rewrite <- Hip; apply get32_app_l; lia).
  assert (Hrport : remote_port (syn_sent dest ka) = port) by (rewrite <- Hport; apply get16_app_l; lia).
  assert (Hat1 : socks A1 !! p = Some (syn_sent dest ka)) by apply lookup_insert_eq.
  split_and!; try done.
  - by eapply net_posted.
  - eapply (route_session _ _ _ _ _ _ _ (syn_sent dest ka)); [|done|done| | |].
    + intros y Hy. unfold A1. cbn. destruct (decide (p = y)) as [<-|]; [rewrite lookup_insert_eq; eauto|].
      rewrite lookup_insert_ne by done. exact (proj2 (chain_lookup _ _ _ _ _ (no_chain _ _ _ _ Ho) Hy)).
    + unfold on_port. cbn [family so_type syn_sent set_so_lock set_so_state set_remote set_seqs].
      change (local_port (syn_sent dest ka)) with (local_port ka). by rewrite Hf, Ht, !Z.eqb_refl.
    + unfold session_of. rewrite Hrip, Hrport, !Z.eqb_refl. done.
    + intros y m Hy Hne. unfold A1. cbn. rewrite lookup_insert_ne by done. by apply Honly.
  - exact (proj1 (chain_lookup _ _ _ _ _ (no_chain _ _ _ _ Ho) Hin)).
Qed.

(** The client after the answer, as an end of a connection. *)
Lemma client_endpoint A i la p ka ip port dest f g seq ack w :
  client A i la p ka ip port -> length dest = 16%nat -> Forall byte dest -> get32 dest 4 = ip -> get16 dest 2 = port ->
  0 <= seq < 2 ^ 32 -> 0 <= ack < 2 ^ 32 ->
  let A1 := posted TCP_SIZE p (syn_sent dest ka) f A in
  let ka2 := syn_acked seq ack (syn_sent dest ka) in
  endpoint (posted TCP_SIZE p ka2 g (set_woken w A1)) i la p ka2 ip port.
Proof.
  intros Hc Hd Hb Hip Hport Hseq Hack A1 ka2.
  destruct (syn_sent_ok A i la p ka ip port dest f Hc Hd Hb Hip Hport) as (Ho1 & Hat1 & Hk1 & Hrip & Hrport & _ & _).
  destruct Hc as [Ho Hat Hin Hop Hkind Hlen Honly Hmac Hring].
  assert (Hk2 : sock_ok ka2) by (destruct Hk1; by split).
  split; try done.
  - apply (net_posted _ _ _ _ _ _ (syn_sent dest ka)); try done. destruct Ho1. split; try done. by apply host_woken.
  - apply lookup_insert_eq.
  - intros y m Hy Hne. cbn. rewrite !lookup_insert_ne by done. by apply Honly.
Qed.

Lemma wp_syn_ack_arrives s j mac A1 i la p ka1 sp dp seq ack win ma (Q : unit -> net -> Prop) :
  host_ok s j 0 -> length mac = 6%nat -> net_ok A1 i la 2 -> socks A1 !! p = Some ka1 -> so_lock ka1 = false ->
  so_state ka1 = TCP_STATE_SYN_SENT -> route (socks A1) (if_ip j) sp dp la 0 = p -> p <> 0 -> mac_for A1 (if_ip j) = Some ma ->
  0 <= sp < 2 ^ 16 -> 0 <= dp < 2 ^ 16 -> 0 <= seq < 2 ^ 32 -> 0 <= ack < 2 ^ 32 ->
  Q tt (posted TCP_SIZE p (syn_acked ack (u32 (seq + 1)) ka1)
        (tcp_frame A1 i ma (if_ip j) dp sp ack (u32 (seq + 1)) TCP_FLAG_ACK 2048 []) (set_woken (woken_chans A1 ++ [p]) A1)) ->
  wp (receive_frame driver junk stale (tcp_frame s j mac (if_ip i) sp dp seq ack syn_ack win [] ++ []) 54) Q A1.
Proof.
  intros Hs Hm Ho Hat Hop Hst Hr Hp Hma Hsp Hdp Hseq Hack HQ. change 54 with (54 + zlen (@nil Z) + zlen (@nil Z)).
  eapply (wp_receive_tcp _ _ _ s j mac A1 i la 2 _ _ _ _ _ _ _ _ p ka1); try done.
  rewrite Hst. change (wp (tcp_syn_sent driver junk p (seg_of sp dp seq ack syn_ack) syn_ack (if_ip j))
    (fun _ => Q tt) (sk p (set_so_lock true ka1) A1)).
  eapply (wp_syn_acked _ i p _ _ ma); [by apply host_socks, Ho|apply sk_lookup|done|done|done|].
  change (set_woken ?w (sk p ?k A1)) with (sk p k (set_woken w A1)). rewrite posted_sk.
  unfold tcp_frame at 1. rewrite (ip_frame_id _ A1) by done. exact HQ.
Qed.

(** The confirmation makes the session, which [af_inet_accept] returns. *)
Lemma wp_ack_arrives s i mac B1 j lb q c kq1 node sp dp ack ack' win (Q : unit -> net -> Prop) :
  host_ok s i 0 -> length mac = 6%nat -> net_ok B1 j lb 3 -> socks B1 !! q = Some kq1 -> so_lock kq1 = false ->
  so_state kq1 = TCP_STATE_LISTEN -> route (socks B1) (if_ip i) sp dp lb 0 = q -> q <> 0 ->
  listen_queue kq1 = c -> socks B1 !! c = Some node -> c <> 0 -> q <> c -> remote_addr_len node = SIN_SIZE ->
  remote_ip node = if_ip i -> remote_port node = sp -> so_state node = TCP_STATE_SYN_RECV ->
  0 <= sp < 2 ^ 16 -> 0 <= dp < 2 ^ 16 -> 0 <= ack < 2 ^ 32 ->
  (forall T, session_made B1 q c (n_brk B1) kq1 (session (so_next node) (g_bound_sockets_head B1) ack kq1 node) T ->
     Q tt (set_woken (woken_chans B1 ++ [q]) (set_bound (n_brk B1)
            (set_heap (n_brk B1 + SOCKET_T_SIZE + SOCKET_BUFFER_SIZE) (n_mem B1 - 1) (set_socks T B1))))) ->
  wp (receive_frame driver junk stale (tcp_frame s i mac (if_ip j) sp dp ack ack' TCP_FLAG_ACK win [] ++ []) 54) Q B1.
Proof.
  intros Hs Hm Ho Hat Hop Hst Hr Hq Hlq Hc Hc0 Hqc Hrl Hrip Hrp Hns Hsp Hdp Hack HQ.
  change 54 with (54 + zlen (@nil Z) + zlen (@nil Z)).
  eapply (wp_receive_tcp _ _ _ s i mac B1 j lb 3 _ _ _ _ _ _ _ _ q kq1); try done.
  rewrite Hst. change (wp (tcp_listen_ack q (seg_of sp dp ack ack' TCP_FLAG_ACK) (if_ip i))
    (fun _ => Q tt) (sk q (set_so_lock true kq1) B1)).
  pose proof (no_socks _ _ _ _ Ho _ _ Hat) as Hk. pose proof (no_socks _ _ _ _ Ho _ _ Hc) as Hn. cbn in Hk, Hn.
  pose proof (no_host _ _ _ _ Ho) as Hh. pose proof (ho_mem _ _ _ Hh). pose proof (ho_brk _ _ _ Hh).
  pose proof (no_fresh _ _ _ _ Ho q ltac:(by rewrite Hat)). pose proof (no_fresh _ _ _ _ Ho c ltac:(by rewrite Hc)).
  eapply (wp_listen_ack _ q (set_so_lock true kq1) c node); [apply Hh|done|cbn; lia|apply sk_lookup|by destruct Hk; split|done|
    cbn; by rewrite lookup_insert_ne|done|done|done|cbn; lia|cbn; lia|done|done|done|done|done|].
  intros T [Tq Tr Tc To]. apply (HQ T). split; [done|done|done|]. intros y Hy1 Hy2 Hy3. rewrite To by done.
  cbn. by rewrite lookup_insert_ne.
Qed.

(** ** The handshake *)

Definition handshake (p : Z) (dest : list Z) (q : Z) : M (net * net) (option Z) :=
  at_a (tcp_connect_handshake driver junk p dest) ;;;
  a_to_b driver junk stale ;;; b_to_a driver junk stale ;;; a_to_b driver junk stale ;;;
  at_b (af_inet_accept q).

Lemma session_endpoint B1 j lb q kq1 c node T sp ip w b m :
  net_ok B1 j lb 3 -> socks B1 !! q = Some kq1 -> c ∉ lb -> c <> q -> c < n_brk B1 -> q ∈ lb -> so_state kq1 = TCP_STATE_LISTEN ->
  so_type kq1 = SOCK_STREAM -> n_brk B1 < b -> (2 <= m)%nat -> sock_ok node ->
  SIN_SIZE <= local_addr_len kq1 -> remote_ip node = ip -> remote_port node = sp -> is_Some (mac_for B1 ip) ->
  (forall y k, y ∈ lb -> y <> q -> socks B1 !! y = Some k -> on_port SOCK_STREAM (local_port kq1) k = true -> session_of ip sp k = false) ->
  forall seq, 0 <= seq < 2 ^ 32 ->
  let kr := session (so_next node) (g_bound_sockets_head B1) seq kq1 node in
  session_made B1 q c (n_brk B1) kq1 kr T ->
  endpoint (set_woken w (set_bound (n_brk B1) (set_heap b m (set_socks T B1)))) j (n_brk B1 :: lb) (n_brk B1) kr ip sp.
Proof.
  intros Ho Hq Hcl Hcq Hcb Hql Hst Hty Hb Hm Hn Hlen Hip Hsp Hmac Honly seq Hseq kr HT.
  pose proof (no_socks _ _ _ _ Ho _ _ Hq) as Hk. cbn in Hk.
  destruct (session_ok (so_next node) (g_bound_sockets_head B1) seq kq1 node Hk Hn Hseq Hlen) as (Hkr & Rip & Rport & Lport & _).
  fold kr in Hkr, Rip, Rport, Lport. pose proof HT as [Tq Tr Tc To]. split; try done.
  - eapply (net_session _ _ _ _ q c); try done. lia.
  - by left.
  - by rewrite Rip.
  - by rewrite Rport.
  - intros y k [->|Hy]%elem_of_cons Hne Hyk Hp; [done|]. cbn in Hyk. rewrite Lport in Hp. destruct (decide (y = q)) as [->|Hyq].
    + rewrite Tq in Hyk. injection Hyk as <-. unfold session_of. cbn [so_state set_so_lock set_listen_queue]. by rewrite Hst.
    + rewrite To in Hyk; [by eapply Honly|done|done|by intros ->].
Qed.

(** The confirmation reaches the server, and [af_inet_accept] returns the
    session. *)
Lemma wp_confirm s i mac B j lb q kq sp ack ack' win f2 :
  host_ok s i 0 -> length mac = 6%nat -> listener B j lb q kq (if_ip i) sp -> 0 <= sp < 2 ^ 16 -> 0 <= ack < 2 ^ 32 ->
  0 <= if_ip i < 2 ^ 32 -> length stale = 8%nat -> Forall byte stale ->
  wp (receive_frame driver junk stale (tcp_frame s i mac (if_ip j) sp (local_port kq) ack ack' TCP_FLAG_ACK win [] ++ []) 54)
    (fun _ B2 => wp (af_inet_accept q) (fun res B3 => exists r kr,
       res = Some r /\ endpoint B3 j (r :: lb) r kr (if_ip i) sp /\ local_port kr = local_port kq /\
       local_seq kr = u32 (local_seq kq + 1) /\ remote_ack kr = ack /\ stream kr = [] /\ socks B3 !! q = Some kq /\
       n_mem B3 = (n_mem B - 2)%nat) B2) (half_open B q kq (if_ip i) sp f2).
Proof.
  intros Hs Hm HL Hsp Hack Hip Hsl Hsb. pose proof HL as [HoB HatB HinB HopB HkindB HstB HlenB HonB HmB].
  pose proof (no_socks _ _ _ _ HoB _ _ HatB) as Hkb. cbn in Hkb. pose proof (local_port_range _ Hkb) as HpB.
  pose proof (no_fresh _ _ _ _ HoB q ltac:(by rewrite HatB)) as Hqb. pose proof (ho_mem _ _ _ (no_host _ _ _ _ HoB)) as Hroom.
  set (B1 := half_open _ _ _ _ _ _). set (c := n_brk B) in *.
  destruct (half_open_ok B j lb q kq _ _ f2 HL Hsp Hip Hsl Hsb) as (HoB1 & HatB1 & Hnode & HbrkB1 & HmemB1 & HrestB1).
  fold B1 c in HoB1, HatB1, Hnode, HbrkB1, HmemB1, HrestB1.
  destruct (node_ok sp (if_ip i) kq Hkb Hsl Hsb Hsp Hip) as (Hnok & Hnip & Hnp).
  set (kq1 := set_so_lock false (set_listen_queue c kq)) in *. set (node := pending_node _ _ _) in *.
  assert (Hcl : c ∉ lb).
  { intros Hx. destruct (chain_lookup _ _ _ _ _ (no_chain _ _ _ _ HoB) Hx) as [_ Hy]. pose proof (no_fresh _ _ _ _ HoB c Hy). unfold c in *. lia. }
  assert (HrtB : route (socks B1) (if_ip i) sp (local_port kq) lb 0 = q).
  { eapply listener_route; [done| |].
    - intros y Hy Hyq. apply HrestB1; [done|]. by intros ->.
    - exists kq1. split_and!; [done..|]. unfold on_port. cbn [family so_type kq1 set_so_lock set_listen_queue].
      destruct HkindB as [-> ->]. by rewrite !Z.eqb_refl. }
  eapply (wp_ack_arrives s i mac B1 j lb q c kq1 node); try done; [lia|lia|lia|].
  intros T HT. set (kr := session _ _ _ _ _) in *. set (B2 := set_woken _ _). pose proof HT as [Tq Tr Tc To].
  assert (HB2 : endpoint B2 j (n_brk B1 :: lb) (n_brk B1) kr (if_ip i) sp).
  { eapply (session_endpoint B1 j lb q kq1 c node); try done; try lia; try apply HkindB.
    { unfold SOCKET_T_SIZE, SOCKET_BUFFER_SIZE. lia. }
    intros y k Hy Hyq Hyk. rewrite HrestB1 in Hyk; [|done|by intros ->]. intros Hp. by eapply HonB. }
  pose proof (session_ok (so_next node) (g_bound_sockets_head B1) ack kq1 node) as (Hkr & _ & _ & Hlp & Hrx);
    [by eapply (no_socks _ _ _ _ HoB1 q)|done|done|done|]. fold kr in Hkr, Hlp, Hrx. clearbody B1.
  eapply (wp_accept B2 q (set_so_lock false (set_listen_queue (n_brk B1) kq1)) (n_brk B1) kr); try done; [lia|lia|lia|].
  set (kr' := set_so_next 0 kr). exists (n_brk B1), kr'. assert (Hkr' : sock_ok kr') by (destruct Hkr; by split).
  split_and!; try done.
  - assert (Hn1 : socks B2 !! n_brk B1 = Some kr) by done. pose proof HB2 as [E1 E2 E3 E4 E5 E6 E7 E8 E9 E10 E11 E12].
    split; try done.
    + eapply (net_sk _ _ _ _ q (set_so_lock false (set_listen_queue (n_brk B1) kq1))); [|cbn; by rewrite lookup_insert_ne by lia| |done].
      * by eapply net_sk.
      * destruct Hkb. by split.
    + cbn. rewrite lookup_insert_ne by lia. apply lookup_insert_eq.
    + intros y k Hy Hyr. cbn. destruct (decide (q = y)) as [<-|Hqy].
      * rewrite lookup_insert_eq. intros [= <-] _. unfold session_of. cbn. by rewrite HstB.
      * rewrite !lookup_insert_ne by done. by apply E10.
  - cbn. rewrite lookup_insert_eq. f_equal. unfold kq1, kr, session, node, pending_node. cbn [so_next set_global_next set_so_next].
    clear - HopB. destruct kq. cbn in *. by subst.
  - cbn [n_mem sk set_socks B2 set_woken set_bound set_heap]. rewrite HmemB1. lia.
Qed.

(** C9: The three-way handshake between two hosts that know each other's
    hardware address, from a new socket on one and a listening one on the other
    that have memory for what they send: the client connects, the server accepts, and both have the two ends of one connection, established, with
    sequence numbers that agree (1000 and the server's own, each plus one); the
    buffer of the server's session is empty, and that of the client is as it
    was (empty, unless it held data before); the listening socket is as before and can be used for the
    next client. *)
Theorem handshake_connects A i la p ka B j lb q kq dest :
  (forall w f, 0 <= driver w f) -> length stale = 8%nat -> Forall byte stale ->
  client A i la p ka (if_ip j) (local_port kq) -> listener B j lb q kq (if_ip i) (local_port ka) ->
  length dest = 16%nat -> Forall byte dest -> get32 dest 4 = if_ip j -> get16 dest 2 = local_port kq ->
  wp (handshake p dest q) (fun res w => exists r ka' kr,
    res = Some r /\ connected w.1 i la p ka' w.2 j (r :: lb) r kr /\
    local_seq ka' = 1001 /\ local_seq kr = u32 (local_seq kq + 1) /\ stream kr = [] /\ stream ka' = stream ka /\
    socks w.2 !! q = Some kq /\ n_mem w.1 = n_mem A /\ n_mem w.2 = (n_mem B - 2)%nat) (A, B).
Proof.
  intros Hdrv Hsl Hsb HC HL Hd Hdb Hdip Hdport.
  pose proof HC as [HoA HatA HinA HopA HkindA HlenA HonA [ma HmA] HrA].
  pose proof HL as [HoB HatB HinB HopB HkindB HstB HlenB HonB [mb HmB]].
  pose proof (no_socks _ _ _ _ HoA _ _ HatA) as Hka. pose proof (no_socks _ _ _ _ HoB _ _ HatB) as Hkb. cbn in Hka, Hkb.
  pose proof (no_host _ _ _ _ HoA) as HhA. pose proof (no_host _ _ _ _ HoB) as HhB.
  pose proof (local_port_range _ Hka) as HpA. pose proof (local_port_range _ Hkb) as HpB.
  pose proof (mac_for_length _ _ _ _ _ HhA HmA) as Hma. pose proof (mac_for_length _ _ _ _ _ HhB HmB) as Hmb.
  pose proof (proj1 (so_seqs _ Hkb)) as Hsq.
  unfold handshake, a_to_b, b_to_a, at_a, at_b. wp_steps. cbn [fst snd].
  eapply (wp_handshake_syn A i la p ka dest ma); [done..|by rewrite Hdip|done|]. rewrite Hdip, Hdport.
  set (f1 := tcp_frame A _ _ _ _ _ _ _ _ _ _). set (A1 := posted _ p (syn_sent dest ka) f1 A).
  destruct (syn_sent_ok A i la p ka _ _ dest f1 HC Hd Hdb Hdip Hdport) as (HoA1 & HatA1 & Hka1 & _ & _ & HrtA & Hp0).
  fold A1 in HoA1, HatA1, HrtA. wp_steps. cbn [fst snd]. unfold A1 at 1 2. rewrite !last_frame_posted.
  assert (Hz : forall s k m d sp dp sq ak fl wi, length m = 6%nat -> host_ok s k 2 -> zlen (tcp_frame s k m d sp dp sq ak fl wi []) = 54).
  { intros. rewrite tcp_frame_length; [done|done|by eapply ho_mac]. }
  unfold f1. rewrite Hz, <- (app_nil_r (tcp_frame A _ _ _ _ _ _ _ _ _ _)) by done.
  eapply (wp_syn_arrives A i ma B j lb q kq _ _ _ mb); try done; [by eapply host_less; [|lia]|].
  set (f2 := tcp_frame B _ _ _ _ _ _ _ _ _ _). set (B1 := half_open _ _ _ _ _ _). set (c := n_brk B) in *.
  destruct (half_open_ok B j lb q kq _ _ f2 HL HpA (ho_ip _ _ _ HhA) Hsl Hsb) as (HoB1 & HatB1 & Hnode & HbrkB1 & HmemB1 & HrestB1).
  fold B1 c in HoB1, HatB1, Hnode, HbrkB1, HmemB1, HrestB1. wp_steps. cbn [fst snd]. unfold B1 at 1 2, half_open. rewrite !last_frame_posted.
  unfold f2. rewrite Hz, <- (app_nil_r (tcp_frame B _ _ _ _ _ _ _ _ _ _)) by (done || (eapply host_less; [exact HhB|lia])).
  change (u32 (1000 + 1)) with 1001.
  eapply (wp_syn_ack_arrives B j mb A1 i la p (syn_sent dest ka) _ _ _ _ _ ma); try done.
  { eapply host_less; [exact HhB|lia]. }
  set (seqB := u32 (local_seq kq + 1)). set (ka' := syn_acked _ _ _). set (f3 := tcp_frame A1 _ _ _ _ _ _ _ _ _ _).
  set (A2 := posted _ p ka' f3 _).
  assert (HA2 : endpoint A2 i la p ka' (if_ip j) (local_port kq)).
  { apply (client_endpoint A i la p ka _ _ dest f1 f3); try done. apply u32_range. }
  wp_steps. cbn [fst snd]. unfold A2 at 1 2. rewrite !last_frame_posted. unfold f3.
  rewrite Hz, <- (app_nil_r (tcp_frame A1 _ _ _ _ _ _ _ _ _ _)) by (done || apply HoA1).
  eapply wp_mono.
  { eapply (wp_confirm A1 i ma B j lb q kq); try done; [|apply HhA]. eapply host_less; [apply HoA1|lia]. }
  intros u B2 HB2. wp_steps. cbn [snd]. eapply wp_mono; [exact HB2|].
  intros res B3 (r & kr & -> & Hkr & Hlp & Hseq & Hack & Hrx & HqB & HmB3). exists r, ka', kr.
  split_and!; [reflexivity| |reflexivity|exact Hseq|exact Hrx|reflexivity|exact HqB|reflexivity|exact HmB3].
  split; [rewrite Hlp; exact HA2 | exact Hkr | rewrite Hack; reflexivity | rewrite Hseq; reflexivity].
Qed.

End handshake.
