(* ===== verification/Udp.v ===== *)
(** * Datagrams between two hosts

    [udp_send_datagram] on one host, [udp_input] on the other, and the read of
    the receive buffer, which holds whole datagrams with their sources. *)

From Stdlib Require Import ZArith Lia.
From stdpp Require Import base tactics list gmap fin_maps.
From S2P Require Import Prelude Chains Bytes NetBase Net Tcp NetInv NetIp NetSock TcpThms.

Section udp.
Context (driver : list (list Z) -> list Z -> Z) (junk stale : list Z).

(** ** The receive buffer as a queue of datagrams *)

Record datagram : Type := Datagram { dg_port : Z; dg_ip : Z; dg_data : list Z }.

Definition dg_bytes (d : datagram) : list Z := udp_record (dg_port d) (dg_ip d) (dg_data d).
Definition mailbox (k : socket) (ds : list datagram) : Prop := stream k = concat (dg_bytes <$> ds).

Lemma dg_bytes_length d : zlen (dg_bytes d) = 20 + zlen (dg_data d).
Proof. unfold dg_bytes, udp_record, sockaddr_in, zlen. rewrite !length_app. cbn. lia. Qed.

(** Bytes that are skipped. *)
Lemma ring_skip buf h t n :
  ring_ok buf h t -> Z.of_nat n <= ring_used h t ->
  ring_ok buf h ((t + Z.of_nat n) mod SOCKET_BUFFER_SIZE) /\
  ring_data buf h ((t + Z.of_nat n) mod SOCKET_BUFFER_SIZE) = drop n (ring_data buf h t).
Proof.
  intros Ho Hn.
  assert (H : wp (ring_take n buf t) (fun _ (_ : unit) =>
    ring_ok buf h ((t + Z.of_nat n) mod SOCKET_BUFFER_SIZE) /\
    ring_data buf h ((t + Z.of_nat n) mod SOCKET_BUFFER_SIZE) = drop n (ring_data buf h t)) tt).
  { eapply (wp_ring_take _ _ h); [done|done|]. intros bs t' Ho' Hl Hd _ <-. split; [done|]. by rewrite Hd, drop_app_length'. }
  apply wp_run in H as (? & ? & _ & H). exact H.
Qed.

(** Taking the first [n] bytes. *)
Lemma wp_take_front n buf h t pre rest (Q : list Z * Z -> net -> Prop) s :
  ring_ok buf h t -> ring_data buf h t = pre ++ rest -> length pre = n ->
  (forall t', ring_ok buf h t' -> ring_data buf h t' = rest -> t' = (t + Z.of_nat n) mod SOCKET_BUFFER_SIZE -> Q (pre, t') s) ->
  wp (ring_take n buf t) Q s.
Proof.
  intros Ho Hd Hn HQ. eapply (wp_ring_take _ _ h); [done| |].
  - rewrite <- (ring_data_length buf), Hd. unfold zlen. rewrite length_app. lia.
  - intros bs t' Ho' Hl Hd' _ Ht'. rewrite Hd in Hd'. apply app_inj_1 in Hd' as [-> ->]; [|lia]. by apply HQ.
Qed.

(** A read takes one datagram: at most [len] of its bytes and its source. *)
Lemma wp_recv_dgram s p k d rest len (Q : option received -> net -> Prop) :
  socks s !! p = Some k -> so_lock k = false -> so_type k = SOCK_DGRAM -> is_Some (rx_buffer k) -> sock_ok k -> p <> 0 ->
  0 < len < 2 ^ 32 -> stream k = dg_bytes d ++ rest -> zlen (dg_data d) < 2 ^ 16 ->
  (forall t', let got := take (Z.to_nat len) (dg_data d) in
     let k' := set_so_lock false (set_rx (rx_buffer k) (rx_head k) t' k) in
     stream k' = rest -> sock_ok k' -> Q (Some (zlen got, got, Some (sockaddr_in (dg_port d) (dg_ip d)))) (sk p k' s)) ->
  wp (af_inet_recvfrom p len) Q s.
Proof.
  intros Hk Hl Ht [buf Hb] Ho Hp Hlen Hs Hd HQ. pose proof (so_ring _ Ho) as Hr. rewrite Hb in Hr.
  assert (Hst : ring_data buf (rx_head k) (rx_tail k) = le32 (zlen (dg_data d)) ++ sockaddr_in (dg_port d) (dg_ip d) ++ dg_data d ++ rest).
  { unfold stream in Hs. rewrite Hb in Hs. rewrite Hs. unfold dg_bytes, udp_record. by rewrite <- !app_assoc. }
  unfold af_inet_recvfrom. rewrite (proj2 (Z.eqb_neq _ _) Hp), (proj2 (Z.eqb_neq len 0)) by lia. cbn [orb]. wp_steps.
  eapply wp_socket_at; [done|]. rewrite Hb. wp_steps. eapply wp_sock_lock; [done..|]. unfold recv_turn. wp_steps.
  eapply wp_socket_at; [apply sk_lookup|]. change (so_type (set_so_lock true k)) with (so_type k). rewrite Ht.
  change (SOCK_DGRAM =? SOCK_DGRAM) with true. cbn beta iota. unfold recv_dgram. wp_steps.
  eapply wp_socket_at; [apply sk_lookup|]. wp_steps. eapply (wp_opt _ _ buf); [done|].
  change (rx_head (set_so_lock true k)) with (rx_head k). change (rx_tail (set_so_lock true k)) with (rx_tail k).
  rewrite (ring_empty buf) by done. rewrite bool_decide_eq_false_2 by (rewrite Hst; done). wp_steps.
  eapply (wp_take_front 4 _ (rx_head k)); [done|exact Hst|done|]. intros t1 Ho1 Hd1 _. cbn [fst snd]. wp_steps.
  pose proof (zlen_nonneg (dg_data d)) as Hnn.
  rewrite <- (app_nil_r (le32 _)). apply (wp_ld32 []); [done|lia|]. wp_steps.
  eapply (wp_take_front (Z.to_nat SIN_SIZE) _ (rx_head k)); [done|exact Hd1|done|]. intros t2 Ho2 Hd2 _. cbn [fst snd]. wp_steps.
  assert (Hlim : (if zlen (dg_data d) <? len then zlen (dg_data d) else u32 len) = zlen (take (Z.to_nat len) (dg_data d))).
  { unfold zlen in *. rewrite length_take, u32_small by lia. destruct (Z.ltb_spec (Z.of_nat (length (dg_data d))) len); lia. }
  rewrite Hlim. set (got := take (Z.to_nat len) (dg_data d)) in *.
  pose proof (zlen_nonneg got) as Hg0. assert (Hgl : zlen got <= zlen (dg_data d)) by (unfold got, zlen; rewrite length_take; lia).
  eapply (wp_take_front _ _ (rx_head k) _ got (drop (Z.to_nat len) (dg_data d) ++ rest)); [done| |unfold zlen; lia|].
  { rewrite Hd2, app_assoc. unfold got. by rewrite take_drop. }
  intros t3 Ho3 Hd3 _. cbn [fst snd]. wp_steps. set (t' := if _ <? _ then _ else _).
  assert (Ht' : ring_ok buf (rx_head k) t' /\ ring_data buf (rx_head k) t' = rest).
  { assert (Hdl : zlen (drop (Z.to_nat len) (dg_data d)) = zlen (dg_data d) - zlen got).
    { unfold got, zlen. rewrite length_drop, length_take. lia. }
    unfold t'. destruct (Z.ltb_spec (zlen got) (zlen (dg_data d))).
    - destruct (ring_skip buf (rx_head k) t3 (length (drop (Z.to_nat len) (dg_data d)))) as [H1 H2]; [done| |].
      { rewrite <- (ring_data_length buf), Hd3. unfold zlen. rewrite length_app. lia. }
      fold (zlen (drop (Z.to_nat len) (dg_data d))) in H1, H2. rewrite Hdl in H1, H2. rewrite Hd3, drop_app_length in H2.
      rewrite (u32_small (_ - _)) by lia. destruct Ho3 as [? ? Ho3]. rewrite u32_small by (unfold SOCKET_BUFFER_SIZE in Ho3; lia).
      done.
    - split; [done|]. rewrite Hd3. destruct (drop _ _); [done|]. unfold zlen in *. cbn in Hdl. lia. }
  clearbody t'. destruct Ht' as [Hok' Hdt']. eapply wp_on_socket; [apply sk_lookup|]. wp_steps.
  eapply wp_sock_unlock; [apply sk_lookup|]. wp_steps. rewrite !sk_sk. rewrite Hb in HQ.
  change (set_rx ?a ?b ?c (set_so_lock true k)) with (set_so_lock true (set_rx a b c k)). apply HQ; [done|].
  split; apply Ho || exact Hok'.
Qed.

(** ** Sending *)

Definition udp_frame (s : net) (i : net_interface) (mac : list Z) (dst sp dp : Z) (buf : list Z) : list Z :=
  ip_frame s i mac dst IPPROTO_UDP (udp_header sp dp (8 + zlen buf) ++ buf).

Lemma wp_udp_send s i p k dest mac buf (Q : Z -> net -> Prop) :
  host_ok s i 2 -> socks s !! p = Some k -> sock_ok k -> p <> 0 -> 8 <= zlen dest -> 0 < zlen buf <= 1472 ->
  mac_for s (get32 dest 4) = Some mac -> (forall w f, 0 <= driver w f) ->
  Q (zlen buf) (posted (8 + zlen buf) p k (udp_frame s i mac (get32 dest 4) (local_port k) (get16 dest 2) buf) s) ->
  wp (udp_send_datagram driver junk p buf dest) Q s.
Proof.
  intros Hh Hk Ho Hp Hd Hl Hm Hdrv HQ. pose proof (ho_mem _ _ _ Hh) as Hroom. pose proof (ho_brk _ _ _ Hh) as Hbrk.
  assert (Hll : zlen (local_addr k) = 256) by (unfold zlen; by rewrite (so_local _ Ho)).
  unfold udp_send_datagram. rewrite (proj2 (Z.eqb_neq _ _) Hp), (proj2 (Z.eqb_neq (zlen buf) 0)) by lia. cbn [orb].
  cbv zeta. unfold UDP_SIZE, IP_SIZE. rewrite u32_small by lia. rewrite (proj2 (Z.ltb_ge 1500 _)) by lia. wp_steps.
  apply wp_n_kmalloc; [lia|]. rewrite (proj2 (Z.eqb_neq _ _)) by lia. set (s1 := set_heap _ _ s). wp_steps.
  apply (wp_socket_at s1 p k); [done|]. unfold sin_port, sin_ip. wp_steps.
  eapply wp_intro; [apply ld16_ok; lia|]. wp_steps. eapply wp_intro; [apply ld16_ok; lia|]. wp_steps.
  eapply wp_intro; [apply ld32_ok; lia|]. wp_steps. change (Z.to_nat 2) with 2%nat. change (Z.to_nat 4) with 4%nat.
  assert (H1 : host_ok s1 i 1) by (eapply host_heap; [done| |]; lia).
  apply (wp_ip_output _ _ _ i _ _ _ mac); [done|unfold zlen in *; rewrite length_app; cbn; lia|done|].
  rewrite (ip_frame_id _ s) by done. fold (local_port k).
  fold (udp_frame s i mac (get32 dest 4) (local_port k) (get16 dest 2) buf). revert HQ.
  generalize (udp_frame s i mac (get32 dest 4) (local_port k) (get16 dest 2) buf). intros f HQ.
  unfold n_kfree. wp_steps. rewrite (proj2 (Z.ltb_ge _ 0)) by apply Hdrv. cbn [andb]. wp_steps.
  rewrite <- posted_freed in HQ by lia. rewrite sk_id in HQ by done. exact HQ.
Qed.

(** ** Arrival *)

Lemma find_port_ok s i l n port ty :
  net_ok s i l n -> socket_find_by_port port ty s = Ok (first_sock (socks s) (on_port ty port) l, s).
Proof.
  intros [H Hc Hs _]. unfold socket_find_by_port, slist_lock, slist_unlock.
  unfold kbind at 1, kgets at 1, kbind at 1. rewrite (ho_list_lock _ _ _ H). cbn [kmodify].
  set (s1 := set_slist_lock true s). unfold kgets at 1, kbind at 1, socket_count, kgets at 1, kbind at 1.
  erewrite kbind_ok.
  2: { eapply (find_socket_ok _ _ (on_port ty port) _ l s1); [done | by eapply chain_size |].
       intros x k _ Hk. apply port_taken_ok. by apply (Hs x k). }
  unfold kbind, kmodify, kret, s1. by rewrite unlock_list by apply H.
Qed.

(** The socket after a datagram. *)
Lemma wp_udp_input s i l n q k sp dp ip buf (Q : Z -> net -> Prop) :
  net_ok s i l n -> 0 <= sp < 2 ^ 16 -> 0 <= dp < 2 ^ 16 -> dp <> htons 68 -> 0 < zlen buf <= 1472 ->
  first_sock (socks s) (on_port SOCK_DGRAM dp) l = q -> q <> 0 -> socks s !! q = Some k -> so_lock k = false ->
  is_Some (rx_buffer k) -> zlen (stream k) + 20 + zlen buf < SOCKET_BUFFER_SIZE ->
  (forall k', alike k k' -> sock_ok k' -> stream k' = stream k ++ dg_bytes (Datagram sp ip buf) -> is_Some (rx_buffer k') ->
     Q 0 (set_woken (woken_chans s ++ [q]) (sk q k' s))) ->
  wp (udp_input driver junk (udp_header sp dp (8 + zlen buf) ++ buf) (8 + zlen buf) ip) Q s.
Proof.
  intros H Hsp Hdp H68 Hl Hq Hq0 Hk Hlk [b Hb] Hroom HQ. pose proof (no_socks _ _ _ _ H _ _ Hk) as Ho. cbn in Ho.
  pose proof (so_ring _ Ho) as Hr. rewrite Hb in Hr. pose proof Hr as [_ Hrh Hrt]. unfold SOCKET_BUFFER_SIZE in Hrh, Hrt.
  assert (Hd : zlen (udp_header sp dp (8 + zlen buf) ++ buf) = 8 + zlen buf) by (unfold zlen; rewrite length_app; cbn; lia).
  unfold udp_input. rewrite (proj2 (Z.ltb_ge _ _)) by (unfold UDP_SIZE; lia). wp_steps.
  eapply wp_intro; [apply ld16_ok; lia|]. wp_steps. eapply wp_intro; [apply ld16_ok; lia|]. wp_steps.
  eapply wp_intro; [apply ld16_ok; lia|]. wp_steps.
  change (get16 (udp_header sp dp ?z ++ buf) (Z.to_nat 0)) with (sp mod 256 + 256 * (sp / 256 mod 256)).
  change (get16 (udp_header sp dp ?z ++ buf) (Z.to_nat 2)) with (dp mod 256 + 256 * (dp / 256 mod 256)).
  change (get16 (udp_header sp dp ?z ++ buf) (Z.to_nat 4)) with (htons z mod 256 + 256 * (htons z / 256 mod 256)).
  rewrite !le16_join by (done || apply htons_range). rewrite ntohs_htons by lia. unfold UDP_SIZE.
  rewrite Z.ltb_irrefl, (proj2 (Z.ltb_ge (8 + zlen buf) 8)) by lia. cbn [orb].
  replace (u32 (8 + zlen buf - 8)) with (zlen buf) by (rewrite u32_small; lia). wp_steps.
  eapply wp_intro; [by eapply find_port_ok|]. rewrite Hq, (proj2 (Z.eqb_neq _ _) Hq0). wp_steps.
  eapply wp_socket_at; [done|]. rewrite Hb. wp_steps. apply wp_bytes_out; [lia|lia|lia|].
  replace (take _ (drop _ _)) with buf.
  2: { rewrite drop_app_length' by done. unfold zlen. rewrite Nat2Z.id. symmetry. apply firstn_all. }
  rewrite (proj2 (Z.eqb_neq _ _) H68). wp_steps. eapply wp_sock_lock; [done..|]. unfold SIN_SIZE.
  assert (Hu : zlen (stream k) = ring_used (rx_head k) (rx_tail k)) by (unfold stream; rewrite Hb; apply ring_data_length).
  rewrite (u32_small (4 + 16 + zlen buf)) by lia.
  replace (u32 (rx_tail k - rx_head k - 1 + SOCKET_BUFFER_SIZE) mod SOCKET_BUFFER_SIZE)
    with (SOCKET_BUFFER_SIZE - 1 - ring_used (rx_head k) (rx_tail k)).
  2: { unfold ring_used, SOCKET_BUFFER_SIZE. rewrite u32_small by lia. clear - Hrh Hrt. zdiv_lia. }
  rewrite (proj2 (Z.ltb_ge _ _)) by lia. wp_steps. fold (dg_bytes (Datagram sp ip buf)).
  assert (Hdl : zlen (udp_record sp ip buf) = 20 + zlen buf) by exact (dg_bytes_length (Datagram sp ip buf)).
  apply (wp_ring_put _ _ _ (rx_tail k)); [done|lia|]. intros b' h' Hr' _ Hd'. cbn [fst snd]. wp_steps.
  eapply wp_on_socket; [apply sk_lookup|]. unfold wakeup_sock. wp_steps. eapply wp_sock_unlock; [apply sk_lookup|]. wp_steps.
  change (sk q ?k1 (set_woken ?w (sk q ?k2 ?t))) with (set_woken w (sk q k1 (sk q k2 t))). rewrite !sk_sk.
  change (woken_chans (sk q ?k1 s)) with (woken_chans s).
  set (k' := set_so_lock false _). apply (HQ k').
  - unfold k', alike. by destruct k.
  - unfold k'. destruct Ho. split; try done.
  - unfold stream at 1, k'. cbn [rx_buffer set_so_lock set_rx rx_head rx_tail]. unfold stream. by rewrite Hb.
  - done.
Qed.

Lemma wp_sendto_dgram s p k buf dest (Q : Z -> net -> Prop) :
  socks s !! p = Some k -> so_type k = SOCK_DGRAM -> p <> 0 -> 0 < zlen buf ->
  wp (udp_send_datagram driver junk p buf dest) Q s -> wp (af_inet_sendto driver junk p buf (Some dest)) Q s.
Proof.
  intros Hk Ht Hp Hl HQ. unfold af_inet_sendto. rewrite (proj2 (Z.eqb_neq _ _) Hp), (proj2 (Z.eqb_neq (zlen buf) 0)) by lia.
  cbn [orb]. wp_steps. eapply wp_socket_at; [done|]. rewrite Ht. change (SOCK_DGRAM =? SOCK_STREAM) with false.
  change (SOCK_DGRAM =? SOCK_DGRAM) with true. cbn beta iota. by wp_steps.
Qed.

(** One datagram from host A to the socket [q] of host B. *)
Definition send_dgram (p : Z) (buf dest : list Z) : M (net * net) Z :=
  r <-- at_a (af_inet_sendto driver junk p buf (Some dest)) ;; a_to_b driver junk stale ;;; kret r.

(** C37: Datagrams keep their boundaries, their order and their source: the
    receive buffer is a queue of datagrams, a datagram that fits joins its end
    with the sender's port and IP, and a read takes the oldest one (at most
    [len] bytes of it; the rest of that datagram is dropped), with its source
    address, and leaves the others whole. *)
Theorem udp_mailbox A i p ka B j lb n q kb dest buf ds len mac :
  (forall w f, 0 <= driver w f) ->
  host_ok A i 2 -> socks A !! p = Some ka -> sock_ok ka -> so_type ka = SOCK_DGRAM -> p <> 0 -> mac_for A (if_ip j) = Some mac ->
  length dest = 16%nat -> Forall byte dest -> get32 dest 4 = if_ip j -> get16 dest 2 <> htons 68 -> 0 < zlen buf <= 1472 ->
  net_ok B j lb n -> first_sock (socks B) (on_port SOCK_DGRAM (get16 dest 2)) lb = q -> q <> 0 -> socks B !! q = Some kb ->
  so_lock kb = false -> so_type kb = SOCK_DGRAM -> is_Some (rx_buffer kb) -> mailbox kb ds ->
  Forall (fun d => zlen (dg_data d) < 2 ^ 16) ds -> zlen (stream kb) + 20 + zlen buf < SOCKET_BUFFER_SIZE -> 0 < len < 2 ^ 32 ->
  wp (r <-- send_dgram p buf dest ;; m <-- at_b (af_inet_recvfrom q len) ;; kret (r, m)) (fun rm w => exists d ds' kb',
    ds ++ [Datagram (local_port ka) (if_ip i) buf] = d :: ds' /\ rm.1 = zlen buf /\
    let got := take (Z.to_nat len) (dg_data d) in
    rm.2 = Some (zlen got, got, Some (sockaddr_in (dg_port d) (dg_ip d))) /\
    socks w.2 = <[q := kb']> (socks B) /\ sock_ok kb' /\ alike kb kb' /\ mailbox kb' ds' /\
    n_mem w.1 = n_mem A /\ socks w.1 = socks A) (A, B).
Proof.
  intros Hdrv HhA HatA Hka HtA Hp Hmac Hdl Hdb Hdip Hd68 Hl HoB Hfq Hq HatB HopB HtB HrB Hmb Hsm Hroom Hlen.
  pose proof (mac_for_length _ _ _ _ _ HhA Hmac) as Hma. pose proof (local_port_range _ Hka) as HpA.
  unfold send_dgram, at_a, at_b, a_to_b. wp_steps. cbn [fst snd]. eapply wp_sendto_dgram; [done|done|done|lia|].
  eapply (wp_udp_send A i p ka dest mac); try done; [unfold zlen; lia|by rewrite Hdip|]. rewrite Hdip.
  set (A' := posted _ p ka _ A). wp_steps. cbn [fst snd]. unfold A' at 1 2. rewrite !last_frame_posted. unfold at_b, udp_frame.
  wp_steps. cbn [snd]. set (data := udp_header _ _ _ ++ buf).
  assert (Hdata : zlen data = 8 + zlen buf) by (unfold data, zlen; rewrite length_app; cbn; lia).
  rewrite ip_frame_length by (done || apply HhA). rewrite <- (app_nil_r (ip_frame _ _ _ _ _ _)).
  eapply (wp_receive_frame driver junk stale A i mac (if_ip j) IPPROTO_UDP); try done;
    [eapply host_less; [done|lia] | apply HoB | by left | apply (no_host _ _ _ _ HoB) | lia |].
  rewrite Hdata. change (transport driver junk stale IPPROTO_UDP) with (udp_input driver junk).
  eapply (wp_udp_input B j lb n q kb); try done; [by apply get16_range|].
  intros kb' Hal Hok' Hst' Hrx'. wp_steps. cbn [fst snd].
  assert (Hmb' : mailbox kb' (ds ++ [Datagram (local_port ka) (if_ip i) buf])).
  { unfold mailbox in *. rewrite Hst', Hmb, fmap_app, concat_app. cbn. by rewrite app_nil_r. }
  destruct (ds ++ [Datagram (local_port ka) (if_ip i) buf]) as [|d ds'] eqn:Eds; [by destruct ds|].
  assert (Hd : zlen (dg_data d) < 2 ^ 16).
  { assert (Hall : Forall (fun d => zlen (dg_data d) < 2 ^ 16) (d :: ds')).
    { rewrite <- Eds. apply Forall_app. split; [done|]. constructor; [cbn; lia|constructor]. }
    by apply Forall_cons in Hall as [? _]. }
  eapply (wp_recv_dgram _ q kb' d (concat (dg_bytes <$> ds'))); [apply lookup_insert_eq|by rewrite Hal|by rewrite Hal|done|done|done|done|exact Hmb'|done|].
  intros t' got k2 Hs2 Hok2. wp_steps. exists d, ds', k2. split_and!; try done.
  - cbn. by rewrite insert_insert_eq.
  - unfold k2, alike. rewrite Hal. by destruct kb.
  - unfold A'. cbn. by apply insert_id.
Qed.

End udp.
