(* ===== verification/NetCheck.v ===== *)
(** * Two hosts on a wire

    Concrete hosts on which the theorems of the network stack are applied, and
    the situations behind the findings, by evaluation. *)

From Stdlib Require Import ZArith Lia.
From stdpp Require Import base tactics list gmap fin_maps.
From S2P Require Import Prelude Chains Bytes NetBase Net Tcp Rx NetInv NetIp NetSock SockThms TcpThms Handshake Udp.

(** ** Hosts *)

Definition idle_driver (_ : list (list Z)) (_ : list Z) : Z := 0.
Definition junk6 : list Z := replicate 6 0xAA.
Definition stale8 : list Z := replicate 8 0xBB.

Definition mac_a : list Z := [2; 0; 0; 0; 0; 1].
Definition mac_b : list Z := [2; 0; 0; 0; 0; 2].
Definition ip_a : Z := 0x0100000A.
Definition ip_b : Z := 0x0200000A.
Definition if_a : net_interface := NetInterface mac_a ip_a 0 0 true true.
Definition if_b : net_interface := NetInterface mac_b ip_b 0 0 true true.

Definition empty_entry : arp_entry := ArpEntry 0 [] false.
Definition cache (known : option (Z * list Z)) : list arp_entry :=
  match known with Some (ip, mac) => ArpEntry ip mac true | None => empty_entry end :: replicate 31 empty_entry.

Definition no_if : net_interface := NetInterface (replicate 6 0) 0 0 0 false false.
Definition host (i : net_interface) (known : option (Z * list Z)) (T : gmap Z socket) (head : Z) : net :=
  Net T head false (cache known) 0 false [] false (i :: replicate 3 no_if) 1 7 [] [] 100000 64.

(** A socket with 16-byte addresses. *)
Definition sock (ty st lport rport rip seq ack next : Z) : socket :=
  Socket AF_INET ty st false (sockaddr_in lport 0 ++ replicate 240 0) SIN_SIZE (sockaddr_in rport rip ++ replicate 240 0) SIN_SIZE
    seq ack (Some (replicate (Z.to_nat SOCKET_BUFFER_SIZE) 0)) 0 0 0 0 0 next.

Lemma sockaddr_bytes p ip : Forall byte (sockaddr_in p ip ++ replicate 240 0).
Proof.
  unfold sockaddr_in. rewrite !Forall_app. split_and!; try apply le16_bytes; try apply le32_bytes; by apply Forall_replicate.
Qed.
Lemma sock_is_ok ty st lport rport rip seq ack next :
  0 <= seq < 2 ^ 32 -> 0 <= ack < 2 ^ 32 -> sock_ok (sock ty st lport rport rip seq ack next).
Proof.
  intros Hs Ha. split; try done; cbn [local_addr remote_addr sock]; try apply sockaddr_bytes.
Qed.

Lemma cache_ok known :
  match known with Some (_, mac) => length mac = 6%nat | None => True end ->
  forall T head i, arp_ok (host i known T head).
Proof.
  intros Hk T head i.
  assert (Hv : forall j e, cache known !! j = Some e -> ae_valid e = true -> j = 0%nat /\ length (ae_mac e) = 6%nat).
  { intros [|j] e He Hve; cbn in He.
    - split; [done|]. destruct known as [[ip mac]|]; injection He as <-; done.
    - apply (lookup_replicate 31 empty_entry) in He as [-> _]. done. }
  split.
  - destruct known as [[]|]; done.
  - done.
  - intros j1 j2 a b Ha Hb Va Vb _. destruct (Hv j1 a Ha Va) as [-> _], (Hv j2 b Hb Vb) as [-> _]. done.
  - intros j e He Hve. by destruct (Hv j e He Hve).
Qed.

Lemma host_is_ok i known T head n :
  match known with Some (_, mac) => length mac = 6%nat | None => True end ->
  if_active i = true -> length (if_mac i) = 6%nat -> 0 <= if_ip i < 2 ^ 32 -> (n <=? 64)%nat = true -> host_ok (host i known T head) i n.
Proof. intros Hk H1 H2 H3 Hn. apply Nat.leb_le in Hn. split; try done. by apply cache_ok. Qed.

(** A host with one bound socket. *)
Lemma one_sock_ok i known p k n :
  host_ok (host i known {[p := k]} p) i n -> sock_ok k -> global_next k = 0 -> 0 < p < 100000 ->
  net_ok (host i known {[p := k]} p) i [p] n.
Proof.
  intros Hh Hk Hg Hp. split; [done| | |].
  - cbn. split_and!; [done|lia|]. exists k. by rewrite lookup_singleton_eq, Hg.
  - by apply map_Forall_singleton.
  - intros x [y Hy]. cbn in Hy. apply lookup_singleton_Some in Hy as [<- _]. done.
Qed.

Lemma only_one {P : Z -> socket -> Prop} p y j (T : gmap Z socket) : y ∈ [p] -> y <> p -> T !! y = Some j -> P y j.
Proof. by intros ->%list_elem_of_singleton ?. Qed.

(** ** Address resolution *)

Definition alone : net := host if_a None ∅ 0.

Lemma arp_cache_witness :
  wp (arp_cache_insert ip_b mac_b) (fun _ s' => wp (arp_cache_lookup ip_b) (fun r _ => r = Some mac_b) s') alone.
Proof.
  eapply wp_mono; [apply (arp_cache_correct alone ip_b mac_b); [by apply cache_ok|done|done]|].
  intros _ s' [_ H]. eapply wp_mono; [exact H|]. by intros r s'' [-> _].
Defined.

Lemma late_resolution_witness :
  wp (ip_output idle_driver junk6 ip_b IPPROTO_UDP [1; 2; 3]) (fun r s1 => r = -11 /\ length (wire s1) = 1%nat) alone.
Proof.
  eapply wp_mono; [apply (late_resolution idle_driver junk6 stale8 alone if_a ip_b IPPROTO_UDP [1; 2; 3] mac_b [])|].
  - by apply host_is_ok.
  - done.
  - done.
  - done.
  - done.
  - constructor.
  - done.
  - done.
  - by intros r s1 (-> & -> & _).
Defined.

Lemma ip_roundtrip_witness :
  wp (ip_output idle_driver junk6 ip_b IPPROTO_ICMP [8; 0; 0; 0; 1; 2; 3; 4]) (fun r s' => exists f, wire s' = [f] /\ r = 0)
    (host if_a (Some (ip_b, mac_b)) ∅ 0).
Proof.
  eapply wp_mono; [apply (ip_roundtrip idle_driver junk6 stale8 (host if_a (Some (ip_b, mac_b)) ∅ 0) if_a ip_b IPPROTO_ICMP
    [8; 0; 0; 0; 1; 2; 3; 4] mac_b (host if_b None ∅ 0) if_b 0 (replicate 18 0))|].
  - by apply host_is_ok.
  - done.
  - done.
  - done.
  - done.
  - by apply host_is_ok.
  - by left.
  - done.
  - intros r s' (f & -> & -> & _). by exists f.
Defined.

(** ** A connection *)

Definition port_a : Z := htons 40000.
Definition port_b : Z := htons 80.

Definition end_a : socket := sock SOCK_STREAM TCP_STATE_ESTABLISHED port_a port_b ip_b 1001 501 0.
Definition end_b : socket := sock SOCK_STREAM TCP_STATE_ESTABLISHED port_b port_a ip_a 501 1001 0.
Definition host_a : net := host if_a (Some (ip_b, mac_b)) {[0x1000 := end_a]} 0x1000.
Definition host_b : net := host if_b (Some (ip_a, mac_a)) {[0x2000 := end_b]} 0x2000.

Lemma end_is_ok i known p k ip port :
  net_ok (host i known {[p := k]} p) i [p] 2 -> so_lock k = false -> family k = AF_INET /\ so_type k = SOCK_STREAM ->
  so_state k = TCP_STATE_ESTABLISHED -> remote_ip k = ip -> remote_port k = port -> remote_addr_len k = SIN_SIZE ->
  is_Some (mac_for (host i known {[p := k]} p) ip) -> is_Some (rx_buffer k) ->
  endpoint (host i known {[p := k]} p) i [p] p k ip port.
Proof.
  intros Ho Hl Hk Hs Hip Hp Hlen Hm Hr. split; try done.
  - cbn. apply lookup_singleton_eq.
  - by left.
  - intros y j Hy Hne. apply list_elem_of_singleton in Hy. done.
Qed.

Lemma hosts_connected : connected host_a if_a [0x1000] 0x1000 end_a host_b if_b [0x2000] 0x2000 end_b.
Proof.
  split; [| |done|done].
  - apply end_is_ok; try done; [|by eexists..]. apply one_sock_ok; [by apply host_is_ok|by apply sock_is_ok|done|done].
  - apply end_is_ok; try done; [|by eexists..]. apply one_sock_ok; [by apply host_is_ok|by apply sock_is_ok|done|done].
Qed.

Lemma stream_empty ty st lport rport rip seq ack next : stream (sock ty st lport rport rip seq ack next) = [].
Proof. done. Qed.

Lemma tcp_stream_witness :
  wp (exchanges idle_driver junk6 stale8 0x1000 [[1; 2; 3]; [4; 5]] ;;; at_b (af_inet_recvfrom 0x2000 4))
    (fun r _ => exists from, r = Some (4, [1; 2; 3; 4], Some from)) (host_a, host_b).
Proof.
  eapply wp_mono; [apply (tcp_stream_fidelity idle_driver junk6 stale8 host_a if_a [0x1000] 0x1000 end_a
    host_b if_b [0x2000] 0x2000 end_b [[1; 2; 3]; [4; 5]] 4)|].
  - exact hosts_connected.
  - done.
  - repeat (constructor; [done|]). constructor.
  - done.
  - done.
  - done.
  - intros r w (ka & kb & ma & mb & -> & _). unfold end_b. rewrite stream_empty. by eexists.
Defined.

(** ** The handshake *)

Definition caller : socket := sock SOCK_STREAM TCP_STATE_CLOSED port_a 0 0 0 0 0.
Definition server : socket := sock SOCK_STREAM TCP_STATE_LISTEN port_b 0 0 500 0 0.
Definition host_c : net := host if_a (Some (ip_b, mac_b)) {[0x1000 := caller]} 0x1000.
Definition host_s : net := host if_b (Some (ip_a, mac_a)) {[0x2000 := server]} 0x2000.
Definition dest_b : list Z := sockaddr_in port_b ip_b.

Lemma caller_ok : client host_c if_a [0x1000] 0x1000 caller ip_b port_b.
Proof.
  split; try done; [|by left| |by eexists..].
  - apply one_sock_ok; [by apply host_is_ok|by apply sock_is_ok|done|done].
  - intros y j Hy Hne. by apply list_elem_of_singleton in Hy.
Qed.
Lemma server_ok : listener host_s if_b [0x2000] 0x2000 server ip_a port_a.
Proof.
  split; try done; [|by left| |by eexists..].
  - apply one_sock_ok; [by apply host_is_ok|by apply sock_is_ok|done|done].
  - intros y j Hy Hne. by apply list_elem_of_singleton in Hy.
Qed.

Lemma handshake_witness :
  wp (handshake idle_driver junk6 stale8 0x1000 dest_b 0x2000) (fun res w => exists r ka kr,
    res = Some r /\ connected w.1 if_a [0x1000] 0x1000 ka w.2 if_b [r; 0x2000] r kr) (host_c, host_s).
Proof.
  eapply wp_mono; [apply (handshake_connects idle_driver junk6 stale8 host_c if_a [0x1000] 0x1000 caller
    host_s if_b [0x2000] 0x2000 server dest_b)|].
  - done.
  - done.
  - by apply Forall_replicate.
  - exact caller_ok.
  - exact server_ok.
  - done.
  - unfold dest_b, sockaddr_in. rewrite !Forall_app. split_and!; try apply le16_bytes; try apply le32_bytes. by apply Forall_replicate.
  - done.
  - done.
  - intros res w (r & ka & kr & -> & H & _). by exists r, ka, kr.
Defined.

(** ** Datagrams *)

Definition speaker : socket := sock SOCK_DGRAM 0 port_a 0 0 0 0 0.
Definition hearer : socket := sock SOCK_DGRAM 0 port_b 0 0 0 0 0.

Lemma udp_witness :
  wp (r <-- send_dgram idle_driver junk6 stale8 0x1000 [7; 8; 9] dest_b ;; m <-- at_b (af_inet_recvfrom 0x2000 2) ;; kret (r, m))
    (fun rm _ => rm = (3, Some (2, [7; 8], Some (sockaddr_in port_a ip_a))))
    (host if_a (Some (ip_b, mac_b)) {[0x1000 := speaker]} 0x1000, host if_b None {[0x2000 := hearer]} 0x2000).
Proof.
  eapply wp_mono; [apply (udp_mailbox idle_driver junk6 stale8 (host if_a (Some (ip_b, mac_b)) {[0x1000 := speaker]} 0x1000) if_a 0x1000 speaker
    (host if_b None {[0x2000 := hearer]} 0x2000) if_b [0x2000] 2 0x2000 hearer dest_b [7; 8; 9] [] 2 mac_b)|]; try done.
  - by apply host_is_ok.
  - by apply sock_is_ok.
  - unfold dest_b, sockaddr_in. rewrite !Forall_app. split_and!; try apply le16_bytes; try apply le32_bytes. by apply Forall_replicate.
  - apply one_sock_ok; [by apply host_is_ok|by apply sock_is_ok|done|done].
  - intros [r m] w (d & ds & k & E & Hr & Hm & _). cbn [app] in E. injection E as <- <-. cbn [fst snd] in Hr, Hm. by rewrite Hr, Hm.
Defined.

(** ** Binding, closing and the receive queue *)

(** A server on port 80 and an unbound socket. *)
Definition fresh_sock : socket :=
  Socket AF_INET SOCK_STREAM 0 false (replicate 256 0) 0 (replicate 256 0) 0 0 0 (Some (replicate (Z.to_nat SOCKET_BUFFER_SIZE) 0)) 0 0 0 0 0 0.
Definition host_two : net := host if_b None (<[0x3000 := fresh_sock]> {[0x2000 := server]}) 0x2000.

Lemma zeros_bytes n : Forall byte (replicate n 0).
Proof. by apply Forall_replicate. Qed.

Lemma host_two_ok : net_ok host_two if_b [0x2000] 2.
Proof.
  split.
  - by apply host_is_ok.
  - cbn. split_and!; [done|done|]. exists server. split; reflexivity.
  - apply map_Forall_insert_2; [|apply map_Forall_singleton; by apply sock_is_ok].
    split; try done; cbn [local_addr remote_addr fresh_sock]; apply zeros_bytes.
  - intros x [y Hy]. cbn in Hy. apply lookup_insert_Some in Hy as [[<- _]|[_ [<- _]%lookup_singleton_Some]]; done.
Qed.

Lemma socket_bind_witness :
  wp (socket_bind_address 0x3000 (sockaddr_in port_b 0)) (fun r s' => (r = 0 /\ g_bound_sockets_head s' = 0x3000) \/ (r = -2 /\ s' = host_two))
    host_two.
Proof.
  eapply wp_mono; [apply (socket_bind_correct host_two if_b [0x2000] 2 0x3000 fresh_sock (sockaddr_in port_b 0))|].
  - exact host_two_ok.
  - reflexivity.
  - by intros ?%list_elem_of_singleton.
  - done.
  - done.
  - done.
  - unfold sockaddr_in. rewrite !Forall_app. split_and!; try apply le16_bytes; try apply le32_bytes. by apply Forall_replicate.
  - intros r s' [(-> & port & -> & _)|(-> & -> & _)]; [by left|by right].
Defined.

Lemma socket_close_witness :
  wp (socket_close 0x2000) (fun r s' => r = 0 /\ net_ok s' if_b [] 4) host_two.
Proof.
  eapply wp_mono; [apply (socket_close_correct host_two if_b [0x2000] 2 0x2000 server)|].
  - exact host_two_ok.
  - done.
  - done.
  - intros r s' (-> & _ & H & _). split; [done|exact H].
Defined.

(** A receive ring of 64 slots with nothing in it. *)
Definition idle_nic (s : net) : nic := Nic (replicate 64 []) 0 0 NET_EVENT_NONE 0 s.
Definition hello : list Z := replicate 60 7.

Lemma rx_queue_witness :
  wp (net_driver_receive hello) (fun r s' => r = 0 /\ rx_frames s' = [hello]) (idle_nic alone).
Proof.
  eapply wp_mono; [apply (rx_queue_fifo (idle_nic alone) hello)|].
  - by split.
  - done.
  - cbn. lia.
  - done.
  - intros r s' [_ H]. rewrite decide_False in H by done. destruct H as (-> & -> & _). done.
Defined.

(** ** What goes wrong *)

(** A second raw socket sees no frames: the walk over the bound sockets
    follows [next], which links the queues of pending connections. *)
Definition raw_sock (next : Z) : socket :=
  Socket AF_PACKET 3 0 false (replicate 256 0) SLL_SIZE (replicate 256 0) 0 0 0 (Some (replicate (Z.to_nat SOCKET_BUFFER_SIZE) 0)) 0 0 0 0 0 next.
Lemma second_raw_socket_deaf :
  match packet_input 0x3000 hello (host if_b None {[0x3000 := raw_sock 0x2000; 0x2000 := raw_sock 0]} 0x3000) with
  | Ok (_, s) => (rx_head <$> socks s !! 0x3000) = Some 64 /\ (rx_head <$> socks s !! 0x2000) = Some 0
  | Stop _ => False
  end.
Proof. vm_compute. split; reflexivity. Qed.

(** [af_inet_connect] compares the state with the numbers of an older
    enumeration: it returns success while the SYN is still unanswered ... *)
Lemma connect_returns_early :
  match af_inet_connect idle_driver junk6 0x1000 dest_b host_c with
  | Ok (Some r, s) => r = 0 /\ (so_state <$> socks s !! 0x1000) = Some TCP_STATE_SYN_SENT
  | _ => False
  end.
Proof. vm_compute. split; reflexivity. Qed.

(** ... and would sleep once the connection is established. *)
Lemma connect_sleeps_when_established :
  match connect_turn 0x1000 host_a with Ok (r, _) => r = None | Stop _ => False end.
Proof. vm_compute. reflexivity. Qed.

(** The acknowledgement number of a frame. *)
Definition acked (f : list Z) : Z := ntohl (get32 f 42).

(** A full buffer: the data is dropped, and acknowledged. *)
Definition host_full : net :=
  host if_b (Some (ip_a, mac_a)) {[0x2000 := set_rx (rx_buffer end_b) 16383 0 end_b]} 0x2000.
Lemma full_buffer_acknowledged :
  match exchange idle_driver junk6 stale8 0x1000 [1; 2; 3] (host_a, host_full) with
  | Ok (r, (a, b)) => r = 3 /\ socks b = socks host_full /\ (local_seq <$> socks a !! 0x1000) = Some 1004 /\ acked (last_frame b) = 1004
  | Stop _ => False
  end.
Proof. vm_compute. split_and!; reflexivity. Qed.

(** A segment that arrives twice is in the stream twice. *)
Lemma duplicate_segment :
  match tcp_send_stream idle_driver junk6 0x1000 [1; 2; 3] host_a with
  | Ok (_, a) =>
      match (receive_frame idle_driver junk6 stale8 (last_frame a) 57 ;;; receive_frame idle_driver junk6 stale8 (last_frame a) 57) host_b with
      | Ok (_, b) => (stream <$> socks b !! 0x2000) = Some [1; 2; 3; 1; 2; 3]
      | Stop _ => False
      end
  | Stop _ => False
  end.
Proof. vm_compute. reflexivity. Qed.

(** A FIN in the middle of a connection is ignored. *)
Lemma fin_ignored :
  match tcp_disconnect idle_driver junk6 0x1000 host_a with
  | Ok (_, a) =>
      match receive_frame idle_driver junk6 stale8 (last_frame a) 54 host_b with
      | Ok (_, b) => b = host_b
      | Stop _ => False
      end
  | Stop _ => False
  end.
Proof. vm_compute. reflexivity. Qed.

(** A write to a peer whose address is not cached reports an error although
    the segment is queued and counted. *)
Definition host_unknown : net := host if_a None {[0x1000 := end_a]} 0x1000.
Lemma send_unresolved :
  match tcp_send_stream idle_driver junk6 0x1000 [1; 2; 3] host_unknown with
  | Ok (r, s) => r = -5 /\ length (pending s) = 1%nat /\ (local_seq <$> socks s !! 0x1000) = Some 1004
  | Stop _ => False
  end.
Proof. vm_compute. split_and!; reflexivity. Qed.

(** Packets that waited for an address leave in the opposite order. *)
Lemma retained_reversed :
  match (_ <-- ip_output idle_driver junk6 ip_b IPPROTO_UDP [1] ;; _ <-- ip_output idle_driver junk6 ip_b IPPROTO_UDP [2] ;;
         arp_flush_pending_packets idle_driver ip_b mac_b) alone with
  | Ok (_, s) => (fun f => f !! 34%nat) <$> drop 2 (wire s) = [Some 2; Some 1]
  | Stop _ => False
  end.
Proof. vm_compute. reflexivity. Qed.

(** A frame of 13 bytes is read past its end. *)
Lemma runt_frame : receive_frame idle_driver junk6 stale8 (replicate 13 0) 13 alone = Stop OutOfBounds.
Proof. vm_compute. reflexivity. Qed.

(** An option at the end of a DHCP message is read past the end. *)
Lemma dhcp_option_overrun : dhcp_parse 1 [53] 1 0 (DhcpOptions 0 0 0) alone = Stop OutOfBounds.
Proof. vm_compute. reflexivity. Qed.

(** Without room for the list node the frame itself is lost. *)
Lemma retain_leaks :
  match ip_output idle_driver junk6 ip_b IPPROTO_UDP [1] (set_heap 100000 1 alone) with
  | Ok (r, s) => r = -11 /\ n_mem s = 0%nat /\ pending s = []
  | Stop _ => False
  end.
Proof. vm_compute. split_and!; reflexivity. Qed.
