(* ===== verification/LocalCheck.v ===== *)
(** * Local sockets on a concrete store

    A server with its clients, on which the theorems about local sockets are
    applied, and the situations behind the findings, by evaluation. *)

From Stdlib Require Import ZArith Lia.
From stdpp Require Import base tactics list gmap fin_maps.
From S2P Require Import Prelude Chains Bytes NetBase Net Tcp Rx Local SockSys NetInv NetIp NetSock SockThms LocalConn LocalInv LocalThms LocalFlow NetCheck.

(** ** Playing a run *)

Definition ready (s : net) (op : local_op) : bool :=
  match op with
  | LSocket _ => true
  | LBind p addr => bool_decide (is_Some (socks s !! p)) && bool_decide (Forall byte addr)
  | LListen p | LConnect p _ | LWaited p | LAccept p | LSend p _ _ => bool_decide (is_Some (socks s !! p))
  | LRecv p len addrlen => bool_decide (is_Some (socks s !! p)) && (0 <=? len) && (0 <=? addrlen)
  | LClose p => match socks s !! p with Some k => negb (so_state k =? SOCKET_CONNECTING) | None => false end
  end.
Lemma ready_ok s op : ready s op = true -> op_ready s op.
Proof.
  destruct op; cbn; rewrite ?andb_true_iff, ?bool_decide_eq_true, ?Z.leb_le; try tauto.
  destruct (socks s !! p) as [k|]; [|done]. intros H. zbool. by exists k.
Qed.

Fixpoint play (ops : list local_op) (s : net) : option net :=
  match ops with
  | [] => Some s
  | op :: ops' => if ready s op then match run_op idle_driver junk6 op s with Ok (_, s') => play ops' s' | Stop _ => None end else None
  end.
Lemma play_steps ops : forall s s', play ops s = Some s' -> rtc (local_step idle_driver junk6) s s'.
Proof.
  induction ops as [|op ops IH]; intros s s'; cbn [play]; [by intros [= ->]|]. destruct (ready s op) eqn:Hr; [|done].
  destruct (run_op idle_driver junk6 op s) as [[[] s1]|] eqn:E; [|done]. intros H. eapply rtc_l; [|by apply IH].
  exact (step_op _ _ op s s1 (ready_ok s op Hr) E).
Qed.

(** ** A server and two clients *)

Definition nowhere : net := host no_if None ∅ 0.
Definition path_a : list Z := [1; 0; 97] ++ replicate 107 0.
Definition server : Z := 100000.
Definition next_sock (p : Z) : Z := p + SOCKET_T_SIZE + SOCKET_BUFFER_SIZE.
Definition client1 : Z := next_sock server.
Definition client2 : Z := next_sock client1.
Definition session1 : Z := next_sock client2.

Definition set_up : list local_op := [LSocket 1; LBind server path_a; LListen server; LSocket 1; LSocket 1].
Definition state_of (o : option net) : net := match o with Some s => s | None => nowhere end.
Definition listening : net := state_of (play set_up nowhere).
(** [client1] waits. *)
Definition waiting1 : net := state_of (play [LConnect client1 path_a] listening).
Definition joined1 : net := state_of (play [LAccept server; LWaited client1] waiting1).
Definition talking : net := state_of (play [LSend client1 [104; 105] []] joined1).

Lemma nowhere_fresh : fresh_store nowhere.
Proof. done. Qed.
Lemma play_some ops s : play ops s <> None -> rtc (local_step idle_driver junk6) s (state_of (play ops s)).
Proof. destruct (play ops s) as [s'|] eqn:E; [|done]. intros _. by apply (play_steps ops). Qed.
Lemma reach_listening : rtc (local_step idle_driver junk6) nowhere listening.
Proof. apply play_some. by vm_compute. Qed.
Lemma reach_waiting1 : rtc (local_step idle_driver junk6) nowhere waiting1.
Proof. etransitivity; [apply reach_listening|]. apply play_some. by vm_compute. Qed.
Lemma reach_talking : rtc (local_step idle_driver junk6) nowhere talking.
Proof. etransitivity; [apply reach_waiting1|]. etransitivity; [apply (play_some [LAccept server; LWaited client1]); by vm_compute|]. apply play_some. by vm_compute. Qed.

Lemma reached s : rtc (local_step idle_driver junk6) nowhere s -> local_inv s.
Proof. apply reachable_inv, nowhere_fresh. Qed.

(** ** Witnesses *)

Definition sock_at (p : Z) (s : net) : socket := default zero_socket (socks s !! p).
Lemma sock_here p s : bool_decide (is_Some (socks s !! p)) = true -> socks s !! p = Some (sock_at p s).
Proof. intros [k Hk]%bool_decide_eq_true. unfold sock_at. by rewrite Hk. Qed.

Lemma local_run_witness : exists s', run_op idle_driver junk6 (LAccept server) waiting1 = Ok (tt, s').
Proof.
  apply (proj1 (local_run_safe idle_driver junk6 nowhere waiting1 nowhere_fresh reach_waiting1)). apply ready_ok. by vm_compute.
Defined.

Lemma talking_peers : peers talking client1 session1 (sock_at session1 talking).
Proof.
  split; [apply reached, reach_talking|]. split; [by vm_compute|]. split; [apply sock_here; by vm_compute|]. split; [by vm_compute|].
  exists (sock_at client1 talking). split; [apply sock_here; by vm_compute|by vm_compute].
Qed.

Lemma local_stream_witness :
  wp (talk client1 session1 [TRecv 1; TSend [33]; TRecv 5]) (fun io _ => exists rest, io.2 ++ rest = [104; 105] ++ io.1) talking.
Proof.
  eapply wp_mono; [apply (local_stream_fidelity _ _ _ _ _ talking_peers)|].
  - intros len H. rewrite !elem_of_cons in H. destruct H as [H|[H|[H|H%elem_of_nil]]]; [injection H as ->; lia|done|injection H as ->; lia|done].
  - intros io s' (kq' & _ & E). exists (stream kq'). rewrite E. by f_equal.
Defined.

Lemma local_connect_witness :
  wp (a <-- af_local_connect client2 path_a ;; n <-- af_local_accept server ;; w <-- connect_wait client2 ;; kret (a, n, w))
    (fun r _ => exists n, r = (None, Some n, Some 0)) listening.
Proof.
  eapply wp_mono; [apply (local_connect_accepts listening client2 server path_a (sock_at client2 listening) (sock_at server listening))|].
  - apply reached, reach_listening.
  - apply Nat.leb_le. by vm_compute.
  - by vm_compute.
  - by vm_compute.
  - by vm_compute.
  - apply sock_here. by vm_compute.
  - by vm_compute.
  - apply sock_here. by vm_compute.
  - by vm_compute.
  - intros r s' (n & _ & _ & -> & _). by exists n.
Defined.

Lemma local_close_witness :
  wp (socket_vfs_close idle_driver junk6 server) (fun r s' => r = 0 /\ socks s' !! server = None) waiting1.
Proof.
  eapply wp_mono; [apply (local_close_seen idle_driver junk6 waiting1 server (sock_at server waiting1))|].
  - apply reached, reach_waiting1.
  - apply sock_here. by vm_compute.
  - by vm_compute.
  - intros r s' (H1 & _ & H2 & _). done.
Defined.

(** ** Situations *)

(** Clients are accepted last come, first served. *)
Lemma last_client_first :
  match play [LConnect client1 path_a; LConnect client2 path_a; LAccept server] listening with
  | Some s => (so_state (sock_at client1 s), so_state (sock_at client2 s)) = (SOCKET_CONNECTING, SOCKET_CONNECTED)
  | None => False
  end.
Proof. by vm_compute. Qed.

(** A client closed by another thread while it waits stays in the queue of its
    server, and the next accept follows a pointer to freed memory. *)
Lemma closed_client_dangles :
  match socket_vfs_close idle_driver junk6 client1 waiting1 with
  | Ok (r, s) => r = 0 /\ listen_queue (sock_at server s) = client1 /\ socks s !! client1 = None /\ af_local_accept server s = Stop NullDeref
  | Stop _ => False
  end.
Proof. by vm_compute. Qed.

(** Descriptors. *)
Definition process (s : net) : sys := Sys (replicate 32 None) s.
Definition with_fds (l : list sfile) (s : net) : sys := Sys ((Some <$> l) ++ replicate (32 - length l) None) s.

(** The end of reading is not noted, and an accepted descriptor cannot be shut
    down at all. *)
Lemma shutdown_read_ignored :
  match sys_shutdown 0 0 (with_fds [SFile client1 (Z.lor VFS_MODE_READ VFS_MODE_WRITE) VFS_CHAR_DEV] talking) with
  | Ok (r, s) => r = 0 /\ s = with_fds [SFile client1 (Z.lor VFS_MODE_READ VFS_MODE_WRITE) VFS_CHAR_DEV] talking
  | Stop _ => False
  end.
Proof. by vm_compute. Qed.
Lemma accepted_not_shut :
  match sys_accept 0 (with_fds [SFile server 1 VFS_CHAR_DEV] waiting1) with
  | Ok (Some fd, s) => fd = 1 /\ match sys_shutdown fd 2 s with Ok (r, _) => r = -1 | Stop _ => False end
  | _ => False
  end.
Proof. by vm_compute. Qed.

(** Without a free descriptor the new session is lost, though the client is
    told that it is connected. *)
Lemma session_leaked :
  match sys_accept 0 (with_fds (replicate 32 (SFile server 1 VFS_CHAR_DEV)) waiting1) with
  | Ok (r, s) => r = Some (-3) /\ so_state (sock_at client1 (sockets s)) = SOCKET_CONNECTED /\ bool_decide (is_Some (socks (sockets s) !! session1)) = true
  | Stop _ => False
  end.
Proof. by vm_compute. Qed.
